(* ===== verification/_CoqProject ===== *)
-Q . S2P
Prelude.v
Wire.v
PyFloat.v
Text.v
Format.v
Json.v
Consts.v
Rc4.v
Framing.v
Chars.v
Account.v
Dbc.v
Classes.v
Spells.v
Known.v
Builders.v
Builds.v
World.v
Bars.v
Combat.v
Player.v
Commands.v
Session.v
Invariant.v
SessionSpec.v
Lua.v
LuaParse.v
LuaLex.v
LuaSpec.v
LuaTotal.v
Modes.v
LuaMerge.v
LuaAuction.v
LuaBuild.v
LuaMergeSpec.v
LuaRun.v
LuaRunSpec.v
LuaExportSpec.v
LuaRef.v
LuaRefSpec.v
Checkpoint.v
Wdb.v
Tsv.v
WdbStore.v
WdbStoreSpec.v
WdbInferSpec.v
CoaMode.v
CoaModeSpec.v
BridgeWire.v
Bridge.v
BridgeWireSpec.v
BridgeLogic.v
BridgeSpec.v
BridgeExec.v
WdbDecode.v
WdbDecodeSpec.v
WdbExport.v
WdbExportSpec.v
WdbPublishSpec.v
JsonText.v
BmsMap.v
BmsParse.v
LuaHarvest.v
LuaHarvestSpec.v
BmsEquip.v
BmsMapSpec.v
BmsCoa.v
BmsDbc.v
BmsPlan.v
BmsItems.v
BmsItemsSpec.v
BmsImport.v
BmsApply.v
BmsParseSpec.v
BmsConfig.v
BmsBundle.v
BmsImportSpec.v
BmsApplySpec.v
BmsPlacesSpec.v
BmsSample.v
