(* ===== verification/Prelude.v ===== *)
(** * Verification of the Ascension preservation server and cache tools

    The repository keeps a private server for a World of Warcraft client
    ("Ascension") and the tools that turn what players' clients recorded into a
    published data set.  This development models four of its programs, in
    Python, as pure functions, and proves what makes them correct.

    ** The parts and how they interact

    - server/world_server.py, with tools/chardata.py: a TCP server for one
      client.  A session reads packet headers through a stream cipher, and
      dispatches every packet on its opcode to a handler that changes the
      stores (characters, account data, known entries, bars, builds), the live
      state (units, dummies, auras, the clock) and sends packets back.  An idle
      tick settles auras, regeneration and the deferred bar file.
    - server/ascension_bridge.py, with server/coa_mode.py: a bridge that lets
      the same client play on an AzerothCore server.  A session has a thread per
      direction and timers; it logs in to the core for the client, forwards
      packets with a few rewritten, keeps the client's own opcodes from the
      core, and remembers which class a character was made with.
    - tools/cache-consolidator/tools: luaser.py parses and writes SavedVariables
      files; modes.py says which realm and game mode a folder is; luamerge.py
      merges the files of many submitters into one state, each in a trial copy,
      and publishes that state as files it then reads back; reference_merge.py
      keeps scrubbed snapshots of two reader addons; merge_checkpoint.py installs
      a generation of tables so that a crash leaves the old or the new one.
      wdblib.py walks the records of a client cache file, and merge.py keeps every
      distinct record of every submitter once, in packs with an index.  The
      wdb_decode scripts turn records into rows of tables; export.py publishes
      the winning records of every game mode and locale as such tables, and
      rebuild.py as cache files a client can read.
    - tools/character-importer: puts a character captured on one realm on
      another one.  bms_dbc.py resolves captured names against the client tables
      of the target, bms_import.py plans the rows of sixteen tables, checks them
      against the live schema and writes them in one transaction; bms_map.py,
      bms_equip.py and bms_coa.py translate identities, places, equipment rules
      and the catalogue of the custom classes.

    ** Files and sources

    Shared: Prelude (exceptions, the result monad, sorting, dictionaries,
    automation), Text (str, UTF-8, the class [Unicode] of the character
    database), Format ("%" conversions, float(s)), PyFloat (binary64 on the
    Standard Library's [spec_float]), Json (json values), Wire ([struct],
    packed GUIDs, update masks).

    world_server.py, in the order of the file: Consts (module constants),
    Rc4 and Framing (RC4, send_pkt, send_batch, recv_exact, _recv, the packet
    header), Chars (the character store, chardata.py), Account (account data),
    Dbc, Classes and Spells (essence, class and spell tables), Known
    (known entries, Character Advancement), Builders (packet bodies
    and the client's side of them), Builds (stored builds), World (all state as
    the record [world], the monad [M] that keeps what was done before an
    exception), Bars, Combat, Player, Commands (action bars and spellbook;
    pools, dummies, auras, casts; the create object; run_command), Session
    (handle_client: [new_session], [serve], one definition per opcode).
    Invariant and SessionSpec hold theorems about Session.

    The bridge: CoaMode (coa_mode.py: the client's tables, the character list,
    the store of classes), BridgeWire (frames, the auth session, carrier
    classes), Bridge (the session).  A method of the session is a program, a
    tree of atomic accesses to the shared state: an attribute read or written,
    a critical section, a call on a socket, a write of the store.  [sched_step]
    lets one thread make one access, or a pending timer start its thread, and
    [run_schedule] follows any list of such choices, so a theorem about every
    schedule covers every interleaving.  What the sockets deliver and whether a
    write or a flush succeeds are scripts in the state.  CoaModeSpec and
    BridgeWireSpec hold theorems about the pure parts; BridgeLogic has the proof
    rule for threads (an invariant of the shared state together with what each
    thread owns of it, shown for each access), BridgeSpec the theorems about
    every schedule, BridgeExec those about one program run to its end and
    sessions that are evaluated.

    Cache tools: Lua (values, keys, repr of a float, dumps, to_py), LuaParse (loads),
    Modes (classify), LuaMerge (merge_mobspells,
    merge_aio, merge_gathermate), LuaAuction (merge_auctionator), LuaHarvest
    (harvestmerge.py up to its writers), LuaBuild
    (choose_addon_build), LuaRun (run_merge, write_*, verify),
    LuaRef (reference_merge.py), Checkpoint (merge_checkpoint.py), Wdb
    (wdblib.py), Tsv and WdbStore (merge.py, capture_dates.py), WdbDecode
    (wdb_decode_*.py), WdbExport (export.py, rebuild.py).  LuaLex,
    LuaSpec, LuaTotal, LuaMergeSpec, LuaRunSpec, LuaExportSpec,
    LuaHarvestSpec, LuaRefSpec, WdbStoreSpec, WdbInferSpec,
    WdbDecodeSpec, WdbExportSpec and WdbPublishSpec
    hold theorems; LuaAuction and Checkpoint also hold those about them.  In WdbDecodeSpec a format says which bytes are a wire form of
    which value; a cursor that [reads] a format accepts it wherever it stands
    and nothing else, and this is composed field by field for each decoder.

    Character importer: JsonText (json.loads and json.dumps), BmsParse
    (bms_parse.py, a parser of its own), BmsMap, BmsEquip, BmsCoa and BmsDbc
    (the modules of those names), BmsPlan (the plan, the schema of a table, the arguments),
    BmsItems, BmsImport and BmsApply (bms_import.py in its order; main is
    [import_run]), BmsConfig (bms_config.py and the settings), BmsBundle
    (bms_bundle.py, load_checkpoint and main's gate, [checkpoint_to_import]).  Four classes stand between its parts: [Resolvers] is what
    the plan asks of the target's tables, with its laws [ResolversOk], which
    bms_dbc discharges ([dbc_resolvers_ok]); [Database] is one operation for
    each SELECT; [Transactions] is the connection an import is written through,
    with the laws of a transaction [TransactionsOk]; [Machine] is the files, the
    environment and the process listing.  The captured character is
    a json value; skips, notes and refusals are the data their texts are made
    of.  BmsParseSpec, BmsMapSpec, BmsItemsSpec, BmsPlacesSpec, BmsImportSpec and
    BmsApplySpec hold theorems; BmsCoa, BmsDbc, BmsConfig and BmsBundle also hold
    those about them; BmsSample is a
    target with tables, a database and a captured character at which they are
    evaluated.

    ** Conventions

    A definition has the name of the Python function it translates; helpers
    that are loop bodies or branches have names of their own, and the manifest
    says which lines each of them is.  A str is its code points, bytes are
    integers 0..255, a dict is an association list in insertion order
    ([dget], [dset]), a set that is only counted or sorted is a list.  An
    exception is a value of [exn]: [res A] for functions without state, [M A]
    for handlers.  A global the code mutates is a field of the state.

    ** What the theorems show

    - Wire level: what the server frames, the client's reader reads back, in
      the cipher's order ([send_batch_roundtrip]); update blocks and packet
      bodies are read back by a reader that is written independently
      ([values_block_roundtrip], [action_buttons_read], and more in Builders);
      [_recv] returns what arrived whatever the chunks and timeouts.
    - Server state: the invariant of the whole session under every packet, tick
      and exception ([session_invariant]); combat values stay in range
      ([combat_invariant]); what creation, deletion, uploads, activations,
      casts and button presses do on every branch.
    - The spellbook: after a synchronisation the client's spellbook, defined as
      a fold over the packets it received, is the server's
      ([sync_spellbook_client]).
    - The bridge, whatever the interleaving: the core receives the client's
      packets in order, without Ascension's opcodes and with no class it cannot
      build ([core_receives]); the client receives the core's packets in order,
      rewritten as configured, and besides them only packets of the bridge
      ([client_receives]); the bootstrap is sent at most once per entry into
      the world ([bootstrap_once_per_entry]); a class is stored only if its
      creation was asked for and a creation confirmed ([class_provenance]).  What
      the bootstrap sends and in which order ([bootstrap_burst]); the login
      against a core that follows the protocol succeeds ([handshake_connects]);
      the character list has the stored classes and is otherwise unchanged
      ([char_enum_projected]); the formats ported from the server are the
      server's ([ports_agree]).
    - SavedVariables: writing then parsing is the identity up to the order of
      keys, and reproduces the bytes ([dumps_roundtrip]); parsing ends on every
      text ([loads_total]); the text depends on the data alone
      ([write_order_independent]).
    - Merging: replays change nothing ([mob_replay_noop]), nodes are a union
      with every disagreement reported ([gather_union]), prices stay valid and
      never get older ([auction_store_sound]), branches and files are merged
      whole or not at all ([market_branch_whole], [run_file_isolated]), a second
      run is a no-op ([run_again]).
    - Harvest files: pages never get older and none with a name of the
      submitter comes in ([pages_newest]); every reading of a reference table
      is kept or reported ([reference_readings_kept]), and merging a tree again
      changes nothing ([replayed_tree_idle]).
    - Publishing: the export passes its own check ([export_verifies]); the
      published addon build is decided by the evidence and not by the order of
      merging ([addon_choice_sound]); a reference snapshot holds no address, no
      GUID and no dropped branch ([reference_private]) and is always written
      ([reference_written]).

    - Committing: [commit_atomic] takes every crash, torn write and interrupted
      recovery into account.

    - Cache records: any file splits into records and a tail, which is what the
      reader and the inspection report ([inspect_walk]); the store loses no
      record and invents none ([records_kept]), reads a file once ([rerun_idle]),
      names the mode of a source only when one stands out
      ([infer_mode_stands_out]), and dates records by their sources
      ([repair_dates_exact]).
    - Published records: what is loaded is what was merged, under its digest
      ([merged_is_loaded]); which record wins depends neither on the order of
      the records ([winners_order_free]) nor on later undated uploads
      ([selected_stays]); a decoder consumes exactly its payload if and only if
      the payload has the layout of the cache ([exact_records]), and a table is
      published only when every winner does ([view_exact]); a rebuilt cache file
      is read back as its winners ([rebuilt_reads_back]).
    - Importing a character: the database keeps what it had or gets the whole
      plan, and only when nothing spoke against it
      ([run_writes_whole_or_nothing]); what validation accepts fits the live
      schema ([validated_rows_fit]); every captured item is reported or exists
      once, in one place ([items_conserved], [inventory_slots_distinct],
      [mail_messages]), what is worn passes the equip checks
      ([worn_items_pass]) and is what the list of characters shows
      ([equipment_cache_shows_worn]); a talent is never guessed
      ([talent_never_guessed]) and a build lands whole or not at all
      ([talents_all_or_nothing]); ranks are ranks that were paid for
      ([ranks_bought]); no spell is written twice unless a granted talent is in
      the spellbook too ([spells_written_once]).  A checkpoint is accepted exactly when its envelope and payload are
      what its version wants ([checkpoint_exactly]), and what was sealed is read
      back from the file ([saved_checkpoint_read]); what comes out of a bundle
      is what the service's receipt names ([admitted_checkpoint_signed]); a
      DSN is read as written ([dsn_read_back]), the last assignment counts
      ([last_assignment_counts]), a configuration is found in order and never
      guessed ([find_all_configs_spec], [config_not_guessed]), and passwords
      are not shown ([passwords_not_shown]); JSON is read back as written
      ([json_roundtrip]).  The catalogue's C++ table is read
      back as the entries written ([header_read_back]).

    ** Bounds and fuel

    Loops that are not structural take fuel that a theorem shows to be enough:
    the tokeniser one round per character, the walk over cache records one per
    byte ([inspect_walk]), the stats of an item one per byte
    ([decode_item_ends]), [value] twice the tokens left plus
    one, [loads_go] one per token ([loads_total]); the readers of JSON and of a
    checkpoint file two per character ([json_loads_ends], [parse_lua_ends]); [_recv] one round per byte
    and timeout ([_recv_spec]); [catch_up] one round per tick that is due
    ([catch_up_exact]); the mail of an import one per item ([plan_mail_ends]),
    the rows of a catalogue one per character ([header_rows_fuel]); the binary search of Spell.dbc one round per
    record, more than it needs ([spell_lookup_spec]).  The search for the shortest decimal of a
    float tries 17 digits, which binary64 never exceeds; the round trip of a
    float is a hypothesis on the value ([float_ok]), decided by evaluation.

    ** Parameters

    zlib, gzip, SHA-1, SHA-256 and HMAC are function arguments; the tables of the
    Unicode database are the class [Unicode], whose laws are its ASCII part,
    with an instance for Latin-1; random.randint is a stream in the
    environment; times are read from a clock in the state.

    ** Not modelled

    Log output; sockets beyond the chunks they deliver; the discovery of the
    session key in another process; the limits of the interpreter (recursion
    depth, the 4300 digits of int); the JSON file of the merge state between
    two runs, through which keys that are numbers come back as text; the walk
    over folders, the sniffer's spec and the printed report of
    luamerge.py and merge.py; the writers of harvestmerge.py, and its merge as
    a step of run_merge ([merge_wildcardharvest] stands beside it); the guides, read-mes and pruning of export.py and
    rebuild.py, and their cache of finished outputs, which is taken to be empty.
    The authentication shim (server/shim3799.py) is not modelled.  Of the character importer: the folder walk, summary and command
    line of bms_parse.py, the printed integrity report, the process listing of
    Windows, the command line, the connection and the reports.  Of the bridge: log
    lines, the reason of a close (which is only logged), the staging of the
    session key in the core's database (a parameter of [handshake]), the
    searches for files and the loop that accepts connections.
    The importers, the tray application, the installer and the scripts used
    once against a live client are input and output around these.

    ** What modelling showed

    [upload_clobbers_decryptor], [deferred_activation_keeps_old_spells] and
    [owed_ack_survives_logout] are defects of the server;
    [class_outlives_character], [other_confirmation], [failed_flush_silences]
    and [budget_flags_dropped] are behaviours of the bridge; [flag_drift],
    [source_collision], [realms_share_prices], [huge_price], [redacted_grows],
    [true_key_order] and [not_reloadable] are cases the cache tools do not
    handle the way their comments say; [granted_spell_repeated],
    [long_name_collides] and [worn_twice_in_one_slot] are imports that end in a
    rejected or colliding row, and [unfilled_none] shows that a check of the
    importer's validation can never fail; [table_as_key] and
    [superscript_escape] are texts its parser fails on with another exception
    than its own, [unparsed_file_raises], [length_text_raises],
    [damaged_member_raises] and [port_text_raises] exceptions its callers do not
    expect, and [joined_path_cut] a path it cuts; [empty_table_replaces],
    [empty_realm_raises] and [version_table_stored] are harvest files that
    lose data, end the run, or cannot be saved. *)
From Stdlib Require Export ZArith Lia Sorted.
From stdpp Require Export base tactics list numbers option strings gmap.
From Stdlib Require Ascii String.

#[global] Open Scope Z_scope.

(** ** Exceptions *)

(** The Python exceptions the modelled code can raise.  [StructError] is
    [struct.error], [DecodeError] is [UnicodeDecodeError], [EncodeError] is
    [UnicodeEncodeError]; [LuaError] is luaser's own; [OutOfFuel] is never raised by Python: it marks a
    bounded loop that did not finish, and every loop has a theorem that says
    which fuel makes it impossible. *)
Inductive exn : Set :=
  | StructError
  | ValueError
  | KeyError
  | IndexError
  | TypeError
  | AttributeError
  | DecodeError
  | EncodeError
  | OverflowError
  | LuaError
  | RuntimeError
  | OSError
  | MappingError
  | ImportError
  | DbcError
  | CoaError
  | DatabaseError
  | LeakError
  | BmsError
  | ConfigError
  | BundleError
  | BadZipFile
  | OutOfFuel.

#[global] Instance exn_eq_dec : EqDecision exn.
Proof. solve_decision. Defined.

Inductive res (A : Type) : Type :=
  | Ok (a : A)
  | Err (e : exn).
Arguments Ok {A} a.
Arguments Err {A} e.

#[global] Instance res_ret : MRet res := fun A a => Ok a.
#[global] Instance res_bind : MBind res := fun A B f c =>
  match c with Ok a => f a | Err e => Err e end.
#[global] Instance res_fmap : FMap res := fun A B f c =>
  match c with Ok a => Ok (f a) | Err e => Err e end.

Definition res_of_option {A} (e : exn) (o : option A) : res A :=
  match o with Some a => Ok a | None => Err e end.

Lemma Ok_inj {A} (x y : A) : Ok x = Ok y -> x = y.
Proof. by intros [=]. Qed.

Definition is_ok {A} (c : res A) : bool :=
  match c with Ok _ => true | Err _ => false end.

(** [mapM] in evaluation order; the first exception wins. *)
Fixpoint res_map {A B} (f : A -> res B) (l : list A) : res (list B) :=
  match l with
  | [] => Ok []
  | x :: l => y ← f x; ys ← res_map f l; Ok (y :: ys)
  end.

Fixpoint res_fold {A B} (f : B -> A -> res B) (acc : B) (l : list A) : res B :=
  match l with
  | [] => Ok acc
  | x :: l => acc' ← f acc x; res_fold f acc' l
  end.

(** ** Automation shared by the files *)

Create Rewrite HintDb pylen.
Create HintDb pybytes.

(** Splits a [bind] chain that is known to succeed. *)
Ltac inv_bind H :=
  lazymatch type of H with
  | (mbind _ ?c) = Ok _ =>
      let v := fresh "v" in let E := fresh "E" in
      destruct c as [v|] eqn:E; [| discriminate H];
      cbn [mbind res_bind] in H
  end.

Ltac inv_binds H := repeat inv_bind H.

(** Case analysis on the scrutinee of a [match] or [if] in the goal. *)
Ltac split_match :=
  match goal with
  | |- context [match ?x with _ => _ end] =>
      lazymatch x with
      | context [match _ with _ => _ end] => fail
      | _ => let E := fresh "E" in destruct x eqn:E
      end
  end.

Ltac split_match_in H :=
  match type of H with
  | context [match ?x with _ => _ end] =>
      lazymatch x with
      | context [match _ with _ => _ end] => fail
      | _ => let E := fresh "E" in destruct x eqn:E
      end
  end.

(** Boolean tests on [Z] as arithmetic facts. *)
Ltac zbool :=
  repeat match goal with
  | H : (_ && _)%bool = true |- _ => apply andb_true_iff in H as [? ?]
  | H : (_ || _)%bool = false |- _ => apply orb_false_iff in H as [? ?]
  | H : (_ <? _) = true |- _ => apply Z.ltb_lt in H
  | H : (_ <? _) = false |- _ => apply Z.ltb_ge in H
  | H : (_ <=? _) = true |- _ => apply Z.leb_le in H
  | H : (_ <=? _) = false |- _ => apply Z.leb_gt in H
  | H : (_ =? _) = true |- _ => apply Z.eqb_eq in H
  | H : (_ =? _) = false |- _ => apply Z.eqb_neq in H
  | H : negb _ = true |- _ => apply negb_true_iff in H
  | H : negb _ = false |- _ => apply negb_false_iff in H
  end.

(** A closed decidable fact, by evaluation. *)
Ltac by_decide :=
  lazymatch goal with |- ?P => refine (proj1 (@bool_decide_eq_true P _) _) end;
  vm_compute; reflexivity.

(** ** Byte strings and text *)

(** [bytes] and [bytearray] are lists of integers 0..255 ([is_bytes] says so);
    [str] is a list of code points. *)
Abbreviation bytes := (list Z) (only parsing).
Abbreviation pystr := (list Z) (only parsing).

Definition is_byte (b : Z) : Prop := 0 <= b < 256.
Definition is_bytes (l : bytes) : Prop := Forall is_byte l.

(** Literals: [lit "abc"] is ['abc'] or [b'abc'] (ASCII only). *)
Definition lit (s : string) : list Z :=
  map (fun a => Z.of_N (Ascii.N_of_ascii a)) (String.list_ascii_of_string s).

(** [len(l)]. *)
Definition pylen {A} (l : list A) : Z := Z.of_nat (length l).

(** Slices with non-negative bounds: [l[i:j]], [l[i:]], [l[:j]]. *)
Definition slice {A} (i j : Z) (l : list A) : list A :=
  take (Z.to_nat (j - i)) (drop (Z.to_nat i) l).
Definition slice_from {A} (i : Z) (l : list A) : list A := drop (Z.to_nat i) l.
Definition slice_to {A} (j : Z) (l : list A) : list A := take (Z.to_nat j) l.

(** [l[i]] for a non-negative [i]. *)
Definition index {A} (l : list A) (i : Z) : res A :=
  if i <? 0 then Err IndexError
  else res_of_option IndexError (l !! Z.to_nat i).

(** [b.find(x)] for a single byte, [None] for Python's -1. *)
Fixpoint find_byte (x : Z) (l : bytes) : option nat :=
  match l with
  | [] => None
  | y :: l => if y =? x then Some O else S <$> find_byte x l
  end.

(** Bounded recursion for the [while] loops: [iterate n step s] runs [step]
    at most [n] times, until it answers [inr]. *)
Fixpoint iterate {S R} (n : nat) (step : S -> S + R) (s : S) : option R :=
  match n with
  | O => None
  | S n => match step s with inl s' => iterate n step s' | inr r => Some r end
  end.

(** ** Lemmas on lists *)

Lemma pylen_nonneg {A} (l : list A) : 0 <= pylen l.
Proof. unfold pylen. lia. Qed.

Lemma pylen_nil {A} : pylen (@nil A) = 0.
Proof. reflexivity. Qed.

Lemma pylen_cons {A} (x : A) l : pylen (x :: l) = 1 + pylen l.
Proof. unfold pylen. cbn [length]. lia. Qed.

Lemma pylen_app {A} (l k : list A) : pylen (l ++ k) = pylen l + pylen k.
Proof. unfold pylen. rewrite length_app. lia. Qed.

#[export] Hint Rewrite @pylen_nil @pylen_cons @pylen_app : pylen.

Lemma drop_app_exact {A} (l k : list A) n : length l = n -> drop n (l ++ k) = k.
Proof. intros <-. apply drop_app_length. Qed.

Lemma take_app_exact {A} (l k : list A) n : length l = n -> take n (l ++ k) = l.
Proof. intros <-. apply take_app_length. Qed.

Lemma slice_app_mid {A} (a b c : list A) i j :
  i = pylen a -> j = pylen a + pylen b -> slice i j (a ++ b ++ c) = b.
Proof.
  intros -> ->. unfold slice, pylen.
  rewrite drop_app_exact by lia.
  apply take_app_exact. lia.
Qed.

Lemma slice_from_app {A} (a b : list A) i : i = pylen a -> slice_from i (a ++ b) = b.
Proof. intros ->. unfold slice_from, pylen. apply drop_app_exact. lia. Qed.

Lemma length_slice {A} i j (l : list A) :
  0 <= i <= j -> j <= pylen l -> length (slice i j l) = Z.to_nat (j - i).
Proof.
  unfold slice, pylen. intros. rewrite length_take, length_drop. lia.
Qed.

Lemma is_bytes_app l k : is_bytes (l ++ k) <-> is_bytes l /\ is_bytes k.
Proof. apply Forall_app. Qed.

Lemma is_bytes_take n l : is_bytes l -> is_bytes (take n l).
Proof. apply Forall_take. Qed.

Lemma is_bytes_drop n l : is_bytes l -> is_bytes (drop n l).
Proof. apply Forall_drop. Qed.

Lemma is_bytes_slice i j l : is_bytes l -> is_bytes (slice i j l).
Proof. intros. apply is_bytes_take, is_bytes_drop, H. Qed.

#[export] Hint Resolve is_bytes_take is_bytes_drop is_bytes_slice : pybytes.

Lemma find_byte_app x a b :
  x ∉ a -> find_byte x (a ++ x :: b) = Some (length a).
Proof.
  induction a as [|y a IH]; intros Hx; cbn.
  - by rewrite Z.eqb_refl.
  - apply not_elem_of_cons in Hx as [Hne Hx].
    destruct (Z.eqb_spec y x) as [->|_]; [done|].
    by rewrite (IH Hx).
Qed.

Lemma find_byte_none x a : x ∉ a -> find_byte x a = None.
Proof.
  induction a as [|y a IH]; intros Hx; cbn; [done|].
  apply not_elem_of_cons in Hx as [Hne Hx].
  destruct (Z.eqb_spec y x) as [->|_]; [done|]. by rewrite (IH Hx).
Qed.

Lemma find_byte_split x l k : find_byte x l = Some k -> exists a b, l = a ++ x :: b /\ x ∉ a /\ length a = k.
Proof.
  revert k. induction l as [|y l IH]; intros k; cbn; [done|].
  destruct (Z.eqb_spec y x) as [->|Hne].
  - intros [= <-]. exists [], l. split; [done|]. split; [apply not_elem_of_nil|done].
  - destruct (find_byte x l) as [k'|]; [|done]. cbn. intros [= <-].
    destruct (IH k' eq_refl) as (a & b & -> & Hx & Hl). exists (y :: a), b. split; [done|].
    split; [|cbn; lia]. apply not_elem_of_cons. split; [congruence|done].
Qed.

Lemma split_at_len {A} (l : list A) n : Z.of_nat n <= pylen l -> exists a b, l = a ++ b /\ length a = n.
Proof.
  intros H. exists (take n l), (drop n l). rewrite take_drop, length_take. unfold pylen in H. split; [done|lia].
Qed.

Lemma res_map_ok {A B} (f : A -> res B) (g : A -> B) l :
  (forall x, x ∈ l -> f x = Ok (g x)) -> res_map f l = Ok (map g l).
Proof.
  induction l as [|x l IH]; intros H; cbn; [done|].
  rewrite H by left. cbn. rewrite IH; [done|]. intros y Hy. apply H. by right.
Qed.

Lemma res_map_length {A B} (f : A -> res B) l k :
  res_map f l = Ok k -> length k = length l.
Proof.
  revert k; induction l as [|x l IH]; cbn; intros k H.
  - by simplify_eq.
  - destruct (f x); [cbn in H|done]. destruct (res_map f l); [cbn in H|done].
    simplify_eq. cbn. by rewrite (IH _ eq_refl).
Qed.

Lemma res_map_Forall2 {A B} (f : A -> res B) l : forall k, res_map f l = Ok k -> Forall2 (fun a b => f a = Ok b) l k.
Proof.
  induction l as [|a l IH]; intros k E; cbn [res_map] in E; [apply Ok_inj in E; subst; constructor|].
  inv_bind E. inv_bind E. apply Ok_inj in E. subst k. constructor; auto.
Qed.

Lemma res_fold_keeps {A B} (P : B -> Prop) (f : B -> A -> res B) l : forall b b',
  (forall x y a, a ∈ l -> P x -> f x a = Ok y -> P y) -> P b -> res_fold f b l = Ok b' -> P b'.
Proof.
  induction l as [|a l IH]; intros b b' Hf Hb E; cbn [res_fold] in E; [apply Ok_inj in E; by subst|].
  inv_bind E. eapply (IH v); [|by eapply (Hf b v a); [left| |]|exact E]. intros x y z Hz. apply Hf. by right.
Qed.

Lemma res_map_elem {A B} (f : A -> res B) l k x : res_map f l = Ok k -> x ∈ l -> exists y, y ∈ k /\ f x = Ok y.
Proof.
  intros E Hx. apply list_elem_of_lookup in Hx as [i Hx]. apply res_map_Forall2 in E.
  destruct (Forall2_lookup_l _ _ _ _ _ E Hx) as (y & Hy & ?). exists y. split; [by eapply list_elem_of_lookup_2|done].
Qed.

(** ** Sorting *)

(** [sorted(l, key=...)] is stable: insertion sort, where [leb] compares the
    keys; an element is placed after the ones it is not smaller than. *)
Section PySort.
Context {A : Type} (leb : A -> A -> bool).

Fixpoint py_insert (x : A) (l : list A) : list A :=
  match l with
  | [] => [x]
  | y :: l => if leb x y then x :: y :: l else y :: py_insert x l
  end.

Definition py_sort (l : list A) : list A := foldr py_insert [] l.

Lemma py_insert_perm x l : py_insert x l ≡ₚ x :: l.
Proof.
  induction l as [|y l IH]; cbn; [done|].
  destruct (leb x y); [done|]. rewrite IH. apply Permutation_swap.
Qed.

Lemma py_sort_perm l : py_sort l ≡ₚ l.
Proof.
  induction l as [|x l IH]; [done|]. change (py_sort (x :: l)) with (py_insert x (py_sort l)).
  rewrite py_insert_perm. by rewrite IH.
Qed.

Lemma py_sort_elem x l : x ∈ py_sort l <-> x ∈ l.
Proof. by rewrite py_sort_perm. Qed.

Context (leb_total : forall x y, leb x y = false -> leb y x = true).
Context (leb_trans : forall x y z, leb x y = true -> leb y z = true -> leb x z = true).

Lemma py_insert_sorted x l :
  StronglySorted (fun a b => leb a b = true) l ->
  StronglySorted (fun a b => leb a b = true) (py_insert x l).
Proof.
  induction 1 as [|y l Hl IH Hy]; cbn; [repeat constructor|].
  destruct (leb x y) eqn:E.
  - constructor; [by constructor|]. constructor; [done|].
    rewrite !Forall_forall in *. eauto.
  - constructor; [done|]. rewrite py_insert_perm. constructor; auto.
Qed.

Lemma py_sort_sorted l : StronglySorted (fun a b => leb a b = true) (py_sort l).
Proof. induction l; cbn; [constructor | by apply py_insert_sorted]. Qed.

Lemma py_sort_id l :
  StronglySorted (fun a b => leb a b = true) l -> py_sort l = l.
Proof.
  induction 1 as [|y l Hl IH Hy]; [done|].
  change (py_sort (y :: l)) with (py_insert y (py_sort l)). rewrite IH.
  destruct l as [|z l]; cbn; [done|]. inversion_clear Hy. by rewrite H.
Qed.
End PySort.

(** Sorting elements of [P], when only those compare transitively. *)
Lemma py_sort_sorted_on {A} (leb : A -> A -> bool) (P : A -> Prop) l :
  (forall x y, leb x y = false -> leb y x = true) ->
  (forall x y z, P x -> P y -> P z -> leb x y = true -> leb y z = true -> leb x z = true) ->
  Forall P l -> StronglySorted (fun a b => leb a b = true) (py_sort leb l).
Proof.
  intros Ht Htr. assert (forall x l, P x -> Forall P l -> StronglySorted (fun a b => leb a b = true) l ->
    StronglySorted (fun a b => leb a b = true) (py_insert leb x l)) as Hi.
  { clear l. intros x l Hx Hp Hl. induction Hl as [|y l Hl IH Hy]; cbn; [by repeat constructor|].
    inversion_clear Hp as [|? ? Hpy Hpl]. destruct (leb x y) eqn:E.
    - constructor; [by constructor|]. constructor; [done|].
      rewrite !Forall_forall in *. eauto.
    - constructor; [auto|]. rewrite py_insert_perm. constructor; auto. }
  induction 1 as [|x l Hx Hl IH]; [constructor|].
  change (py_sort leb (x :: l)) with (py_insert leb x (py_sort leb l)). apply Hi; [done| |done].
  by rewrite py_sort_perm.
Qed.

(** [sorted] of integers. *)
Definition sort_Z : list Z -> list Z := py_sort Z.leb.

Lemma sort_Z_sorted l : StronglySorted (fun a b => (a <=? b) = true) (sort_Z l).
Proof. apply py_sort_sorted; intros; zbool; apply Z.leb_le; lia. Qed.

Lemma sort_Z_elem x l : x ∈ sort_Z l <-> x ∈ l.
Proof. apply py_sort_elem. Qed.

Lemma sort_Z_NoDup l : NoDup l -> NoDup (sort_Z l).
Proof. intros. unfold sort_Z. by rewrite py_sort_perm. Qed.

(** Strictly increasing lists, the canonical form of a set of integers. *)
Lemma sort_Z_strict l : NoDup l -> StronglySorted Z.lt (sort_Z l).
Proof.
  intros Hd%sort_Z_NoDup. pose proof (sort_Z_sorted l) as Hs.
  revert Hd. induction Hs as [|x k Hk IH Hx]; [constructor|].
  intros [Hn Hd]%NoDup_cons. constructor; [auto|].
  rewrite !Forall_forall in *. intros y Hy. specialize (Hx y Hy). zbool.
  assert (x <> y) by (intros ->; done). lia.
Qed.

Lemma strict_sorted_unique (l k : list Z) :
  StronglySorted Z.lt l -> StronglySorted Z.lt k ->
  (forall x, x ∈ l <-> x ∈ k) -> l = k.
Proof.
  intros Hl. revert k. induction Hl as [|x l Hl IH Hx]; intros k Hk He.
  - destruct k as [|y k]; [done|].
    exfalso. apply (not_elem_of_nil y), He. left.
  - destruct Hk as [|y k Hk Hy].
    { exfalso. apply (not_elem_of_nil x), He. left. }
    rewrite Forall_forall in Hx. rewrite Forall_forall in Hy.
    assert (x = y) as ->.
    { assert (x ∈ y :: k) as [->|H1]%elem_of_cons by (apply He; left); [done|].
      assert (y ∈ x :: l) as [->|H2]%elem_of_cons by (apply He; left); [done|].
      specialize (Hx y H2). specialize (Hy x H1). lia. }
    f_equal. apply IH; [done|]. intros z. split; intros Hz.
    + assert (z ∈ y :: k) as [->|?]%elem_of_cons by (apply He; by right); [|done].
      specialize (Hx y Hz). lia.
    + assert (z ∈ y :: l) as [->|?]%elem_of_cons by (apply He; by right); [|done].
      specialize (Hy y Hz). lia.
Qed.

(** ** Sets as lists

    [s.add(x)] on the list of a set's elements, in order of arrival. *)

Definition set_add {A} `{EqDecision A} (x : A) (s : list A) : list A := if decide (x ∈ s) then s else s ++ [x].

Lemma set_add_elem {A} `{EqDecision A} (x y : A) l : y ∈ set_add x l <-> y = x \/ y ∈ l.
Proof. unfold set_add. case_decide; set_solver. Qed.

Lemma set_add_NoDup {A} `{EqDecision A} (x : A) l : NoDup l -> NoDup (set_add x l).
Proof.
  unfold set_add. case_decide; [done|]. intros. apply NoDup_app. split_and!; [done| |apply NoDup_singleton].
  intros y Hy ->%list_elem_of_singleton. done.
Qed.

(** ** Python dictionaries *)

(** A [dict] is an association list in insertion order with distinct keys:
    assigning to a present key keeps its place, a new key goes to the end. *)
Section PyDict.
Context {K : Type} `{!EqDecision K} {V : Type}.
Abbreviation dict := (list (K * V)).

Fixpoint dget (k : K) (d : dict) : option V :=
  match d with
  | [] => None
  | (k', v) :: d => if decide (k = k') then Some v else dget k d
  end.

Fixpoint dset (k : K) (v : V) (d : dict) : dict :=
  match d with
  | [] => [(k, v)]
  | (k', v') :: d =>
      if decide (k = k') then (k', v) :: d else (k', v') :: dset k v d
  end.

Fixpoint ddel (k : K) (d : dict) : dict :=
  match d with
  | [] => []
  | (k', v') :: d => if decide (k = k') then d else (k', v') :: ddel k d
  end.

(** [d.setdefault(k, v)]: the value now stored, and the dictionary. *)
Definition dsetdefault (k : K) (v : V) (d : dict) : V * dict :=
  match dget k d with
  | Some v' => (v', d)
  | None => (v, dset k v d)
  end.

Definition dkeys (d : dict) : list K := map fst d.
Definition dmem (k : K) (d : dict) : bool :=
  match dget k d with Some _ => true | None => false end.
Definition dict_ok (d : dict) : Prop := NoDup (dkeys d).

Lemma dget_dset_eq k v d : dget k (dset k v d) = Some v.
Proof.
  induction d as [|[k' v'] d IH]; cbn; [by case_decide|].
  case_decide; cbn; case_decide; done.
Qed.

Lemma dget_dset_ne k k' v d : k <> k' -> dget k (dset k' v d) = dget k d.
Proof.
  intros Hne. induction d as [|[k2 v2] d IH]; cbn; [by case_decide|].
  case_decide as E; cbn; [subst k2; by rewrite !decide_False by done|].
  case_decide; done.
Qed.

Lemma dget_dset k k' v d :
  dget k (dset k' v d) = if decide (k = k') then Some v else dget k d.
Proof.
  case_decide as E; [subst; apply dget_dset_eq | by apply dget_dset_ne].
Qed.

Lemma dget_None_keys k d : dget k d = None <-> k ∉ dkeys d.
Proof.
  induction d as [|[k' v'] d IH]; cbn; [split; [intros _ []%not_elem_of_nil|done]|].
  rewrite not_elem_of_cons. case_decide; [subst; naive_solver|].
  rewrite IH. unfold dkeys. naive_solver.
Qed.

Lemma dget_ddel_ne k k' d : k <> k' -> dget k (ddel k' d) = dget k d.
Proof.
  intros Hne. induction d as [|[k2 v2] d IH]; cbn; [done|].
  case_decide as E; cbn; [subst k2; by rewrite decide_False by done|].
  case_decide; done.
Qed.

Lemma dget_ddel_eq k d : dict_ok d -> dget k (ddel k d) = None.
Proof.
  unfold dict_ok. induction d as [|[k' v'] d IH]; cbn; [done|].
  rewrite NoDup_cons. intros [Hk Hd]. case_decide as E; cbn.
  - subst k'. by apply dget_None_keys.
  - rewrite decide_False by done. auto.
Qed.

Lemma dkeys_dset k v d :
  dkeys (dset k v d) = if dmem k d then dkeys d else dkeys d ++ [k].
Proof.
  unfold dmem, dkeys. induction d as [|[k' v'] d IH]; cbn; [done|].
  case_decide as E; cbn; [done|]. rewrite IH.
  destruct (dget k d); done.
Qed.

Lemma dset_fresh k v d : k ∉ dkeys d -> dset k v d = d ++ [(k, v)].
Proof.
  induction d as [|[k' v'] d IH]; cbn; [done|].
  rewrite not_elem_of_cons. intros [Hne Hk]. rewrite decide_False by done. by rewrite IH.
Qed.

Lemma dict_ok_nil : dict_ok [].
Proof. apply NoDup_nil_2. Qed.

Lemma dict_ok_dset k v d : dict_ok d -> dict_ok (dset k v d).
Proof.
  unfold dict_ok. rewrite dkeys_dset. unfold dmem.
  destruct (dget k d) eqn:E; [done|]. intros H.
  apply NoDup_app. split; [done|]. split; [|apply NoDup_singleton].
  intros x Hx ->%list_elem_of_singleton. by apply dget_None_keys in E.
Qed.

Lemma ddel_sublist k d : dkeys (ddel k d) `sublist_of` dkeys d.
Proof.
  induction d as [|[k' v'] d IH]; cbn; [done|].
  case_decide; cbn; [by apply sublist_cons | by apply sublist_skip].
Qed.

Lemma dict_ok_ddel k d : dict_ok d -> dict_ok (ddel k d).
Proof.
  unfold dict_ok. intros H. eapply sublist_NoDup; [done | apply ddel_sublist].
Qed.

Lemma dget_elem_of k v d : dget k d = Some v -> (k, v) ∈ d.
Proof.
  induction d as [|[k' v'] d IH]; cbn; [done|].
  case_decide; intros; simplify_eq; [left | right; auto].
Qed.

Lemma elem_of_dget k v d : dict_ok d -> (k, v) ∈ d -> dget k d = Some v.
Proof.
  unfold dict_ok. induction d as [|[k' v'] d IH]; cbn; [by intros _ []%not_elem_of_nil|].
  rewrite NoDup_cons. intros [Hk Hd] [[= -> ->]|H]%elem_of_cons.
  - by rewrite decide_True by done.
  - rewrite decide_False; [auto|]. intros ->.
    apply Hk. unfold dkeys. apply list_elem_of_fmap. by exists (k', v).
Qed.

Lemma dset_elem_of k v k' v' d :
  (k', v') ∈ dset k v d -> (k' = k /\ v' = v) \/ (k', v') ∈ d.
Proof.
  induction d as [|[k2 v2] d IH]; cbn.
  - intros [= -> ->]%list_elem_of_singleton. by left.
  - case_decide as E; [subst k2|]; intros [[= -> ->]|H]%elem_of_cons.
    + by left.
    + right. by right.
    + right. by left.
    + destruct (IH H) as [?|?]; [by left | right; by right].
Qed.

Lemma ddel_elem_of k kv d : kv ∈ ddel k d -> kv ∈ d.
Proof.
  induction d as [|[k2 v2] d IH]; cbn; [done|].
  case_decide as E; [by right|].
  intros [->|H]%elem_of_cons; [left | right; auto].
Qed.

Lemma Forall_dset (P : K * V -> Prop) k v d :
  P (k, v) -> Forall P d -> Forall P (dset k v d).
Proof.
  intros Hp Hd. apply Forall_forall. intros [k' v'] H.
  apply dset_elem_of in H as [[-> ->]|H]; [done|].
  rewrite Forall_forall in Hd. by apply Hd.
Qed.

Lemma Forall_ddel (P : K * V -> Prop) k d : Forall P d -> Forall P (ddel k d).
Proof.
  rewrite !Forall_forall. intros Hd kv H. apply Hd. by eapply ddel_elem_of.
Qed.
End PyDict.

#[export] Hint Resolve dict_ok_nil dict_ok_dset dict_ok_ddel : pybytes.
