(* ===== verification/Wire.v ===== *)
(** * The wire helpers of server/world_server.py

    Python's [struct] at the widths the server uses, the packed GUID
    ([pack_guid], and the reader inside [parse_spell_targets]) and the update
    mask block ([build_values_block]).  The theorems are the round trips
    against the readers. *)
From S2P Require Import Prelude.

(** ** Little-endian integers *)

Fixpoint le (n : nat) (v : Z) : bytes :=
  match n with
  | O => []
  | S n => v mod 256 :: le n (v / 256)
  end.

Fixpoint unle (l : bytes) : Z :=
  match l with
  | [] => 0
  | b :: l => b + 256 * unle l
  end.

Lemma length_le n v : length (le n v) = n.
Proof. revert v; induction n; intros; cbn; auto. Qed.

Lemma pylen_le n v : pylen (le n v) = Z.of_nat n.
Proof. unfold pylen. by rewrite length_le. Qed.

#[export] Hint Rewrite length_le pylen_le : pylen.

Lemma is_bytes_le n v : is_bytes (le n v).
Proof.
  revert v; induction n; intros; cbn; constructor; [|apply IHn].
  apply Z.mod_pos_bound. lia.
Qed.

Lemma unle_le n v : unle (le n v) = v mod 256 ^ Z.of_nat n.
Proof.
  revert v; induction n as [|n IH]; intros v.
  - cbn. by rewrite Z.mod_1_r.
  - cbn [le unle]. rewrite IH, Nat2Z.inj_succ, Z.pow_succ_r by lia.
    rewrite Z.rem_mul_r by (try lia; apply Z.pow_pos_nonneg; lia). lia.
Qed.

Lemma unle_le_id n v : 0 <= v < 256 ^ Z.of_nat n -> unle (le n v) = v.
Proof. intros. rewrite unle_le. by apply Z.mod_small. Qed.

Lemma le_unle l : is_bytes l -> le (length l) (unle l) = l.
Proof.
  induction 1 as [|b l Hb _ IH]; [done|]. cbn [length le unle].
  unfold is_byte in Hb.
  replace (b + 256 * unle l) with (b + unle l * 256) by lia.
  rewrite Z.mod_add, Z.mod_small, Z.div_add, Z.div_small, Z.add_0_l by lia.
  by rewrite IH.
Qed.

Lemma unle_bound l : is_bytes l -> 0 <= unle l < 256 ^ pylen l.
Proof.
  unfold pylen. induction 1 as [|b l Hb _ IH]; [cbn; lia|].
  cbn [length unle]. unfold is_byte in Hb.
  rewrite Nat2Z.inj_succ, Z.pow_succ_r by lia. lia.
Qed.

Lemma le_mod n v : le n (v mod 256 ^ Z.of_nat n) = le n v.
Proof.
  rewrite <- unle_le, <- (length_le n v) at 1. apply le_unle, is_bytes_le.
Qed.

Lemma land_ones32 v : Z.land v 0xFFFFFFFF = v mod 2 ^ 32.
Proof. change 0xFFFFFFFF with (Z.ones 32). apply Z.land_ones. lia. Qed.

Lemma land_ones8 v : Z.land v 0xFF = v mod 256.
Proof. change 0xFF with (Z.ones 8). by rewrite Z.land_ones. Qed.

(** ** [struct.pack] and [struct.unpack_from] *)

(** An unsigned field of [n] bytes: [B], [H], [I], [Q] after ["<"]. *)
Definition pack_u (n : nat) (v : Z) : res bytes :=
  if (0 <=? v) && (v <? 256 ^ Z.of_nat n) then Ok (le n v) else Err StructError.

Definition packB := pack_u 1.
Definition packH := pack_u 2.
Definition packI := pack_u 4.
Definition packQ := pack_u 8.

(** [">H"]. *)
Definition pack_be16 (v : Z) : res bytes := l ← packH v; Ok (rev l).

(** ["<i"]: two's complement. *)
Definition packi (v : Z) : res bytes :=
  if (- 2 ^ 31 <=? v) && (v <? 2 ^ 31) then Ok (le 4 v) else Err StructError.

Definition unpack_u (n : nat) (b : bytes) (off : Z) : res Z :=
  if (0 <=? off) && (off + Z.of_nat n <=? pylen b)
  then Ok (unle (slice off (off + Z.of_nat n) b))
  else Err StructError.

Definition unpackH := unpack_u 2.
Definition unpackI := unpack_u 4.
Definition unpackQ := unpack_u 8.

Definition unpacki (b : bytes) (off : Z) : res Z :=
  v ← unpackI b off; Ok (if v <? 2 ^ 31 then v else v - 2 ^ 32).

(** [struct.unpack(">H", b[:2])[0]]: the slice must have exactly two bytes. *)
Definition unpack_be16 (b : bytes) : res Z :=
  match b with
  | [x; y] => Ok (256 * x + y)
  | _ => Err StructError
  end.

(** [bytes([v, ...])]. *)
Definition mkbytes (l : list Z) : res bytes :=
  if forallb (fun v => (0 <=? v) && (v <? 256)) l then Ok l else Err ValueError.

Lemma pack_u_ok n v : 0 <= v < 256 ^ Z.of_nat n -> pack_u n v = Ok (le n v).
Proof.
  intros [H1 H2]. unfold pack_u.
  by rewrite (proj2 (Z.leb_le _ _) H1), (proj2 (Z.ltb_lt _ _) H2).
Qed.

Lemma packI_ok v : 0 <= v < 2 ^ 32 -> packI v = Ok (le 4 v).
Proof. apply (pack_u_ok 4). Qed.

Lemma packQ_ok v : 0 <= v < 2 ^ 64 -> packQ v = Ok (le 8 v).
Proof. apply (pack_u_ok 8). Qed.

Lemma packH_ok v : 0 <= v < 2 ^ 16 -> packH v = Ok (le 2 v).
Proof. apply (pack_u_ok 2). Qed.

Lemma pack_u_inv n v l : pack_u n v = Ok l -> 0 <= v < 256 ^ Z.of_nat n /\ l = le n v.
Proof. unfold pack_u. split_match; [|done]. intros; simplify_eq. zbool. done. Qed.

Lemma packI_land v : packI (Z.land v 0xFFFFFFFF) = Ok (le 4 v).
Proof.
  rewrite packI_ok by (rewrite land_ones32; apply Z.mod_pos_bound; lia).
  rewrite land_ones32. f_equal. exact (le_mod 4 v).
Qed.

Lemma mkbytes_ok l : is_bytes l -> mkbytes l = Ok l.
Proof.
  intros H. unfold mkbytes. rewrite (proj2 (forallb_forall _ _)); [done|].
  intros x Hx%list_elem_of_In. unfold is_bytes in H. rewrite Forall_forall in H.
  specialize (H x Hx). unfold is_byte in H.
  apply andb_true_iff. split; [apply Z.leb_le | apply Z.ltb_lt]; lia.
Qed.

Lemma mkbytes_inv l k : mkbytes l = Ok k -> k = l /\ is_bytes l.
Proof.
  unfold mkbytes. split_match; [|done]. intros; simplify_eq. split; [done|].
  apply Forall_forall. intros x Hx%list_elem_of_In.
  rewrite forallb_forall in E. specialize (E x Hx). unfold is_byte. zbool. lia.
Qed.

(** Reading a field that was written at a known offset. *)
Lemma unpack_u_bound n b off v :
  is_bytes b -> unpack_u n b off = Ok v -> 0 <= v < 256 ^ Z.of_nat n.
Proof.
  intros Hb. unfold unpack_u. destruct (_ && _) eqn:E; intros Hv; [|discriminate].
  apply Ok_inj in Hv. subst v. apply andb_true_iff in E as [E1%Z.leb_le E2%Z.leb_le].
  assert (pylen (slice off (off + Z.of_nat n) b) = Z.of_nat n) as Hl
    by (unfold slice, pylen in *; rewrite length_take, length_drop; lia).
  pose proof (unle_bound _ (is_bytes_slice off (off + Z.of_nat n) b Hb)) as Hu. by rewrite Hl in Hu.
Qed.

Lemma unpack_u_app n a v c off :
  off = pylen a -> 0 <= v < 256 ^ Z.of_nat n ->
  unpack_u n (a ++ le n v ++ c) off = Ok v.
Proof.
  intros -> Hv. unfold unpack_u.
  rewrite (proj2 (Z.leb_le 0 (pylen a))) by apply pylen_nonneg.
  rewrite (proj2 (Z.leb_le _ _))
    by (autorewrite with pylen; pose proof (pylen_nonneg c); lia).
  rewrite slice_app_mid by (autorewrite with pylen; lia).
  by rewrite unle_le_id.
Qed.

(** ** Little-endian words and packed GUIDs *)

(** [u32le]: the value is masked first, so the pack never raises. *)
Definition u32le (v : Z) : bytes := le 4 (Z.land v 0xFFFFFFFF).

Lemma u32le_eq v : u32le v = le 4 v.
Proof. unfold u32le. rewrite land_ones32. apply (le_mod 4). Qed.

Lemma length_u32le v : length (u32le v) = 4%nat.
Proof. apply length_le. Qed.

Lemma is_bytes_u32le v : is_bytes (u32le v).
Proof. apply is_bytes_le. Qed.

#[export] Hint Resolve is_bytes_le is_bytes_u32le : pybytes.
#[export] Hint Rewrite length_u32le : pylen.

Definition guid_byte (guid i : Z) : Z := Z.land (Z.shiftr guid (8 * i)) 0xFF.

Definition eight : list Z := [0; 1; 2; 3; 4; 5; 6; 7].

Definition pack_guid (guid : Z) : bytes :=
  let '(mask, parts) :=
    fold_left (fun '(mask, parts) i =>
                 let b := guid_byte guid i in
                 if b =? 0 then (mask, parts)
                 else (Z.lor mask (Z.shiftl 1 i), parts ++ [b]))
              eight (0, []) in
  mask :: parts.

(** The mask-driven loop of [parse_spell_targets]: [None] is
    its early return on a short block. *)
Fixpoint read_guid_bytes (bits : Z) (idx : list Z) (blob : bytes) (guid : Z)
    : option (Z * bytes) :=
  match idx with
  | [] => Some (guid, blob)
  | i :: idx =>
      if Z.testbit bits i then
        match blob with
        | [] => None
        | b :: blob => read_guid_bytes bits idx blob (Z.lor guid (Z.shiftl b (8 * i)))
        end
      else read_guid_bytes bits idx blob guid
  end.

Definition PACKED_FIRST : Z :=
  Z.lor (Z.lor (Z.lor (Z.lor 0x0002 0x00010000) 0x00000800) 0x00000200) 0x00008000.

Definition parse_spell_targets (blob : bytes) : Z * Z :=
  if pylen blob <? 4 then (0, 0)
  else
    let mask := unle (slice 0 4 blob) in
    if Z.land mask PACKED_FIRST =? 0 then (mask, 0)
    else match drop 4 blob with
    | [] => (mask, 0)
    | bits :: rest =>
        match read_guid_bytes bits eight rest 0 with
        | Some (guid, _) => (mask, guid)
        | None => (mask, 0)
        end
    end.

(** ** The packed GUID round trip *)

(** What [pack_guid] leaves after a list of byte indices. *)
Fixpoint guid_mask (g : Z) (idx : list Z) : Z :=
  match idx with
  | [] => 0
  | i :: idx =>
      if guid_byte g i =? 0 then guid_mask g idx
      else Z.lor (Z.shiftl 1 i) (guid_mask g idx)
  end.

Fixpoint guid_parts (g : Z) (idx : list Z) : bytes :=
  match idx with
  | [] => []
  | i :: idx =>
      if guid_byte g i =? 0 then guid_parts g idx
      else guid_byte g i :: guid_parts g idx
  end.

Fixpoint guid_sum (g : Z) (idx : list Z) : Z :=
  match idx with
  | [] => 0
  | i :: idx => Z.lor (Z.shiftl (guid_byte g i) (8 * i)) (guid_sum g idx)
  end.

Lemma pack_guid_go g idx m p :
  fold_left (fun '(mask, parts) i =>
               let b := guid_byte g i in
               if b =? 0 then (mask, parts)
               else (Z.lor mask (Z.shiftl 1 i), parts ++ [b])) idx (m, p)
  = (Z.lor m (guid_mask g idx), p ++ guid_parts g idx).
Proof.
  revert m p; induction idx as [|i idx IH]; intros m p; cbn.
  - by rewrite Z.lor_0_r, app_nil_r.
  - destruct (guid_byte g i =? 0) eqn:E.
    + apply IH.
    + rewrite IH, Z.lor_assoc. by rewrite <- app_assoc.
Qed.

Lemma pack_guid_eq g : pack_guid g = guid_mask g eight :: guid_parts g eight.
Proof. unfold pack_guid. rewrite pack_guid_go. by rewrite Z.lor_0_l. Qed.

Lemma guid_byte_range g i : 0 <= guid_byte g i < 256.
Proof. unfold guid_byte. rewrite land_ones8. apply Z.mod_pos_bound. lia. Qed.

Lemma testbit_shiftl_one i j : 0 <= i -> 0 <= j -> Z.testbit (Z.shiftl 1 i) j = (i =? j).
Proof.
  intros. rewrite Z.shiftl_1_l, Z.pow2_bits_eqb by lia. done.
Qed.

Lemma testbit_guid_mask g idx i :
  Forall (fun j => 0 <= j) idx -> 0 <= i ->
  Z.testbit (guid_mask g idx) i = bool_decide (i ∈ idx /\ guid_byte g i <> 0).
Proof.
  intros Hidx Hi. induction Hidx as [|j idx Hj _ IH]; cbn.
  - rewrite Z.bits_0. symmetry. apply bool_decide_eq_false.
    intros [[]%not_elem_of_nil _].
  - destruct (Z.eqb_spec (guid_byte g j) 0) as [E|E].
    + rewrite IH. apply bool_decide_ext. rewrite elem_of_cons.
      split; [naive_solver|]. intros [[->|?] ?]; done.
    + rewrite Z.lor_spec, testbit_shiftl_one, IH by done.
      destruct (Z.eqb_spec j i) as [->|Hne]; cbn.
      * symmetry. apply bool_decide_eq_true. split; [left|done].
      * apply bool_decide_ext. rewrite elem_of_cons. naive_solver.
Qed.

Lemma is_bytes_pack_guid g : is_bytes (pack_guid g).
Proof.
  rewrite pack_guid_eq. constructor.
  - unfold is_byte. cbn [guid_mask eight].
    repeat match goal with |- context [if ?b then _ else _] => destruct b end;
      by vm_compute.
  - induction eight as [|i idx IH]; cbn; [constructor|].
    case_match; [done|]. constructor; [apply guid_byte_range | done].
Qed.

Lemma length_pack_guid g : (1 <= length (pack_guid g) <= 9)%nat.
Proof.
  rewrite pack_guid_eq. cbn [length guid_parts eight].
  repeat match goal with |- context [if ?b then _ else _] => destruct b end; cbn; lia.
Qed.

Lemma read_guid_bytes_spec g rest m idx acc :
  Forall (fun j => 0 <= j) idx ->
  (forall i, i ∈ idx -> Z.testbit m i = negb (guid_byte g i =? 0)) ->
  read_guid_bytes m idx (guid_parts g idx ++ rest) acc
  = Some (Z.lor acc (guid_sum g idx), rest).
Proof.
  intros Hidx. revert acc. induction Hidx as [|i idx Hi _ IH]; intros acc Hm; cbn.
  - by rewrite Z.lor_0_r.
  - rewrite (Hm i) by left.
    destruct (Z.eqb_spec (guid_byte g i) 0) as [E|E]; cbn.
    + rewrite E, Z.shiftl_0_l, Z.lor_0_l.
      apply IH. intros j Hj. apply Hm. by right.
    + rewrite IH.
      * by rewrite Z.lor_assoc.
      * intros j Hj. apply Hm. by right.
Qed.

Lemma testbit_guid_piece g i j :
  0 <= i -> 0 <= j ->
  Z.testbit (Z.shiftl (guid_byte g i) (8 * i)) j
  = (8 * i <=? j) && (j <? 8 * i + 8) && Z.testbit g j.
Proof.
  intros Hi Hj. unfold guid_byte. change 0xFF with (Z.ones 8).
  destruct (Z.leb_spec (8 * i) j) as [H|H]; cbn.
  - rewrite Z.shiftl_spec, Z.land_spec, Z.shiftr_spec by lia.
    replace (j - 8 * i + 8 * i) with j by lia.
    destruct (Z.ltb_spec j (8 * i + 8)) as [H'|H']; cbn.
    + rewrite Z.ones_spec_low by lia. by rewrite andb_true_r.
    + rewrite Z.ones_spec_high by lia. by rewrite andb_false_r.
  - rewrite Z.shiftl_spec_low by lia. done.
Qed.

Lemma testbit_guid_sum g idx j :
  Forall (fun i => 0 <= i) idx -> 0 <= j ->
  Z.testbit (guid_sum g idx) j
  = existsb (fun i => (8 * i <=? j) && (j <? 8 * i + 8)) idx && Z.testbit g j.
Proof.
  intros Hidx Hj. induction Hidx as [|i idx Hi _ IH]; cbn [guid_sum existsb].
  - by rewrite Z.bits_0.
  - rewrite Z.lor_spec, testbit_guid_piece, IH by done.
    by rewrite andb_orb_distrib_l.
Qed.

Lemma eight_nonneg : Forall (fun j => 0 <= j) eight.
Proof. repeat constructor; lia. Qed.

Lemma elem_of_eight i : 0 <= i < 8 -> i ∈ eight.
Proof. intros. unfold eight. rewrite !elem_of_cons. lia. Qed.

Lemma guid_sum_eight g : 0 <= g < 2 ^ 64 -> guid_sum g eight = g.
Proof.
  intros Hg. apply Z.bits_inj'. intros j Hj.
  rewrite testbit_guid_sum by (done || apply eight_nonneg).
  destruct (Z.ltb_spec j 64) as [H|H].
  - rewrite (proj2 (existsb_exists _ _)); [done|].
    pose proof (Z.div_mod j 8 ltac:(lia)). pose proof (Z.mod_pos_bound j 8 ltac:(lia)).
    exists (j / 8). split; [apply list_elem_of_In, elem_of_eight; lia|].
    apply andb_true_iff. split; [apply Z.leb_le | apply Z.ltb_lt]; lia.
  - rewrite (Z.bits_above_log2 g j), andb_false_r; [done|lia|].
    destruct (Z.eq_dec g 0) as [->|]; [cbn; lia|].
    apply Z.log2_lt_pow2; [lia|]. eapply Z.lt_le_trans; [apply Hg|].
    apply Z.pow_le_mono_r; lia.
Qed.

(** The mask byte tells the reader exactly which bytes follow. *)
Lemma read_pack_guid g rest :
  0 <= g < 2 ^ 64 ->
  read_guid_bytes (guid_mask g eight) eight (guid_parts g eight ++ rest) 0
  = Some (g, rest).
Proof.
  intros Hg. rewrite (read_guid_bytes_spec g rest).
  - rewrite Z.lor_0_l, guid_sum_eight by exact Hg. reflexivity.
  - apply eight_nonneg.
  - intros i Hi. rewrite testbit_guid_mask.
    + destruct (Z.eqb_spec (guid_byte g i) 0) as [E|E]; cbn.
      * apply bool_decide_eq_false. naive_solver.
      * apply bool_decide_eq_true. naive_solver.
    + apply eight_nonneg.
    + pose proof eight_nonneg as H. rewrite Forall_forall in H. by apply H.
Qed.

(** ** [build_values_block] *)

(** Python's [l[i] |= v]: a negative [i] counts from the end. *)
Definition or_at (l : list Z) (i v : Z) : res (list Z) :=
  let j := if i <? 0 then pylen l + i else i in
  if (0 <=? j) && (j <? pylen l)
  then Ok (alter (fun m => Z.lor m v) (Z.to_nat j) l)
  else Err IndexError.

(** [max(d)] over the keys. *)
Definition max_key {A} (d : list (Z * A)) : res Z :=
  match d with
  | [] => Err ValueError
  | (k, _) :: d => Ok (fold_left Z.max (map fst d) k)
  end.

(** [build_values_block].  [fields] is the dictionary field index -> value bytes. *)
Definition build_values_block (fields : list (Z * bytes)) (field_count : option Z)
    : res bytes :=
  top ← max_key fields;
  let need := top / 32 + 1 in
  let nblocks :=
    match field_count with
    | Some fc => if fc =? 0 then need else Z.max need ((fc + 31) / 32)
    | None => need
    end in
  mask ← res_fold (fun m '(idx, _) => or_at m (idx / 32) (Z.shiftl 1 (idx mod 32)))
           (replicate (Z.to_nat nblocks) 0) fields;
  head ← mkbytes [nblocks];
  words ← res_map packI mask;
  values ← res_map (fun idx => res_of_option KeyError (dget idx fields))
             (sort_Z (dkeys fields));
  Ok (head ++ concat words ++ concat values).

(** The client's side of the block, as the specification: the mask words, then
    one 4-byte value for every set bit in ascending order. *)
Fixpoint read_words (n : nat) (b : bytes) : option (list Z * bytes) :=
  match n with
  | O => Some ([], b)
  | S n =>
      if (length b <? 4)%nat then None
      else match read_words n (drop 4 b) with
      | Some (ws, rest) => Some (unle (take 4 b) :: ws, rest)
      | None => None
      end
  end.

Definition mask_bit (ws : list Z) (i : Z) : bool :=
  match ws !! Z.to_nat (i / 32) with
  | Some w => Z.testbit w (i mod 32)
  | None => false
  end.

Fixpoint read_fields (idx : list Z) (b : bytes) : option (list (Z * bytes) * bytes) :=
  match idx with
  | [] => Some ([], b)
  | i :: idx =>
      if (length b <? 4)%nat then None
      else match read_fields idx (drop 4 b) with
      | Some (fs, rest) => Some ((i, take 4 b) :: fs, rest)
      | None => None
      end
  end.

Definition seqZ_from (n : Z) : list Z := map Z.of_nat (seq 0 (Z.to_nat n)).

Definition read_values_block (b : bytes) : option (list (Z * bytes) * bytes) :=
  match b with
  | [] => None
  | n :: b =>
      match read_words (Z.to_nat n) b with
      | Some (ws, b) => read_fields (base.filter (fun i => mask_bit ws i = true) (seqZ_from (32 * n))) b
      | None => None
      end
  end.

Lemma lor_bound a b n : 0 <= n -> 0 <= a < 2 ^ n -> 0 <= b < 2 ^ n -> 0 <= Z.lor a b < 2 ^ n.
Proof.
  intros Hn Ha Hb. assert (0 <= Z.lor a b) as H0 by (apply Z.lor_nonneg; lia).
  split; [exact H0|].
  destruct (Z.eq_dec (Z.lor a b) 0) as [->|Hne]; [lia|].
  apply Z.log2_lt_pow2; [lia|]. rewrite Z.log2_lor by lia.
  assert (Hl : forall x, 0 <= x < 2 ^ n -> x <> 0 -> Z.log2 x < n).
  { intros x Hx Hx0. apply Z.log2_lt_pow2; lia. }
  destruct (Z.eq_dec a 0) as [->|Ha0], (Z.eq_dec b 0) as [->|Hb0].
  - done.
  - rewrite Z.max_r by apply Z.log2_nonneg. by apply Hl.
  - rewrite Z.max_l by apply Z.log2_nonneg. by apply Hl.
  - apply Z.max_lub_lt; by apply Hl.
Qed.

Lemma shiftl_one_bound r n : 0 <= r < n -> 0 <= Z.shiftl 1 r < 2 ^ n.
Proof.
  intros. rewrite Z.shiftl_1_l. split; [apply Z.pow_nonneg; lia|].
  apply Z.pow_lt_mono_r; lia.
Qed.

(** Fields that do not overlap are added. *)
Lemma lor_above a b k : 0 <= a < 2 ^ k -> 0 <= b -> 0 <= k -> Z.lor a (Z.shiftl b k) = a + b * 2 ^ k.
Proof.
  intros Ha Hb Hk. rewrite Z.shiftl_mul_pow2 by lia.
  assert (Z.land a (b * 2 ^ k) = 0) as Hz.
  { apply Z.bits_inj'. intros j Hj. rewrite Z.land_spec, Z.bits_0.
    destruct (Z.lt_ge_cases j k) as [Hl|Hl].
    - rewrite (Z.mul_pow2_bits_low b k j) by lia. apply andb_false_r.
    - destruct (Z.eq_dec a 0) as [->|Hn]; [by rewrite Z.bits_0|].
      rewrite (Z.bits_above_log2 a j); [done|lia|]. apply Z.log2_lt_pow2; [lia|].
      apply Z.lt_le_trans with (2 ^ k); [lia|]. apply Z.pow_le_mono_r; lia. }
  rewrite <- Z.lxor_lor by exact Hz. symmetry. by apply Z.add_nocarry_lxor.
Qed.

Definition is_word (w : Z) : Prop := 0 <= w < 2 ^ 32.

Lemma div_range k n : 0 <= k < 32 * n -> 0 <= k / 32 < n.
Proof. intros. split; [apply Z.div_pos | apply Z.div_lt_upper_bound]; lia. Qed.

Lemma or_at_bit m k :
  0 <= k < 32 * pylen m ->
  exists m', or_at m (k / 32) (Z.shiftl 1 (k mod 32)) = Ok m'
    /\ length m' = length m
    /\ (Forall is_word m -> Forall is_word m')
    /\ forall i, 0 <= i -> mask_bit m' i = mask_bit m i || (i =? k).
Proof.
  intros Hk. pose proof (div_range k _ Hk) as Hq.
  pose proof (Z.mod_pos_bound k 32 ltac:(lia)) as Hr.
  unfold or_at. rewrite (proj2 (Z.ltb_ge (k / 32) 0)) by lia.
  rewrite (proj2 (Z.leb_le 0 (k / 32))), (proj2 (Z.ltb_lt (k / 32) _)) by lia.
  cbn [andb]. eexists. split; [done|]. split; [apply length_alter|]. split.
  - intros Hw. apply Forall_alter; [done|]. intros w _ Hb.
    apply lor_bound; [lia|done|]. by apply shiftl_one_bound.
  - intros i Hi. unfold mask_bit.
    destruct (Z.eq_dec (i / 32) (k / 32)) as [E|E].
    + rewrite E, list_lookup_alter_eq.
      destruct (lookup_lt_is_Some_2 m (Z.to_nat (k / 32))) as [w Hw].
      { unfold pylen in *. lia. }
      rewrite Hw. cbn. rewrite Z.lor_spec.
      rewrite testbit_shiftl_one by (apply Z.mod_pos_bound || apply Hr; lia).
      f_equal. pose proof (Z.div_mod i 32 ltac:(lia)). pose proof (Z.div_mod k 32 ltac:(lia)).
      destruct (Z.eqb_spec (k mod 32) (i mod 32)), (Z.eqb_spec i k); try done; lia.
    + rewrite list_lookup_alter_ne.
      * assert (i <> k) by congruence. apply Z.eqb_neq in H. rewrite H.
        by rewrite orb_false_r.
      * assert (0 <= i / 32) by (apply Z.div_pos; lia). lia.
Qed.

(** The mask holds exactly the indices of the dictionary. *)
Lemma mask_fold_spec (fields : list (Z * bytes)) m :
  Forall (fun '(k, _) => 0 <= k < 32 * pylen m) fields ->
  Forall is_word m ->
  exists m', res_fold (fun m '(idx, _) => or_at m (idx / 32) (Z.shiftl 1 (idx mod 32))) m fields = Ok m'
    /\ length m' = length m /\ Forall is_word m'
    /\ forall i, 0 <= i -> mask_bit m' i = mask_bit m i || bool_decide (i ∈ dkeys fields).
Proof.
  revert m. induction fields as [|[k v] fields IH]; intros m Hf Hm; cbn.
  - exists m. repeat split; [done|]. intros i _.
    rewrite bool_decide_eq_false_2, orb_false_r; [done|]. apply not_elem_of_nil.
  - apply Forall_cons in Hf as [Hk Hf].
    destruct (or_at_bit m k Hk) as (m1 & -> & Hl & Hw & Hb). cbn.
    destruct (IH m1) as (m2 & E2 & Hl2 & Hw2 & Hb2).
    { unfold pylen in *. rewrite Hl. done. }
    { auto. }
    exists m2. split; [done|]. split; [congruence|]. split; [done|].
    intros i Hi. rewrite Hb2, Hb by done. rewrite <- orb_assoc. f_equal.
    destruct (Z.eqb_spec i k) as [->|Hne]; cbn.
    + symmetry. apply bool_decide_eq_true. left.
    + apply bool_decide_ext. unfold dkeys. cbn. rewrite elem_of_cons. intuition congruence.
Qed.

Lemma mask_bit_zeros n i : mask_bit (replicate n 0) i = false.
Proof.
  unfold mask_bit. destruct (replicate n 0 !! _) as [w|] eqn:E; [|done].
  apply lookup_replicate in E as [-> _]. apply Z.bits_0.
Qed.

Lemma read_words_app ws rest :
  Forall is_word ws ->
  read_words (length ws) (concat (map (le 4) ws) ++ rest) = Some (ws, rest).
Proof.
  induction 1 as [|w ws Hw _ IH]; [done|].
  cbn [length map concat read_words]. rewrite <- app_assoc.
  rewrite (proj2 (Nat.ltb_ge _ _)) by (rewrite length_app, length_le; lia).
  rewrite drop_app_exact, take_app_exact by apply length_le.
  rewrite IH. by rewrite unle_le_id.
Qed.

Lemma read_fields_app (fs : list (Z * bytes)) rest :
  Forall (fun '(_, v) => length v = 4%nat) fs ->
  read_fields (map fst fs) (concat (map snd fs) ++ rest) = Some (fs, rest).
Proof.
  induction 1 as [|[k v] fs Hv _ IH]; [done|].
  cbn [map concat fst snd read_fields]. rewrite <- app_assoc.
  rewrite (proj2 (Nat.ltb_ge _ _)) by (rewrite length_app, Hv; lia).
  rewrite drop_app_exact, take_app_exact by apply Hv. by rewrite IH.
Qed.

Lemma fold_left_max_le l a : a <= fold_left Z.max l a.
Proof.
  revert a; induction l as [|x l IH]; intros a; cbn; [lia|].
  etransitivity; [|apply IH]. lia.
Qed.

Lemma fold_left_max_elem l a x : x ∈ l -> x <= fold_left Z.max l a.
Proof.
  revert a; induction l as [|y l IH]; intros a; [by intros []%not_elem_of_nil|].
  cbn. intros [->|H]%elem_of_cons; [|by apply IH].
  etransitivity; [|apply fold_left_max_le]. lia.
Qed.

Lemma max_key_ge {A} (d : list (Z * A)) top k :
  max_key d = Ok top -> k ∈ dkeys d -> k <= top.
Proof.
  destruct d as [|[k0 v] d]; cbn; [done|]. intros [= <-] [->|H]%elem_of_cons.
  - apply fold_left_max_le.
  - by apply fold_left_max_elem.
Qed.

Lemma max_key_elem {A} (d : list (Z * A)) top : max_key d = Ok top -> top ∈ dkeys d.
Proof.
  destruct d as [|[k0 v] d]; cbn; [done|]. intros [= <-]. unfold dkeys. cbn.
  generalize (map fst d) as l. intros l. revert k0.
  induction l as [|x l IH]; intros a; cbn; [left|].
  specialize (IH (Z.max a x)). apply elem_of_cons in IH as [E|H].
  - rewrite E. rewrite !elem_of_cons. lia.
  - rewrite !elem_of_cons. auto.
Qed.

Lemma seqZ_from_sorted n : StronglySorted Z.lt (seqZ_from n).
Proof.
  unfold seqZ_from. generalize 0%nat as a. generalize (Z.to_nat n) as k.
  induction k as [|k IH]; intros a; cbn; constructor; [apply IH|].
  apply Forall_forall. intros x (y & -> & Hy)%list_elem_of_fmap.
  apply elem_of_seq in Hy. lia.
Qed.

Lemma elem_of_seqZ_from n i : i ∈ seqZ_from n <-> 0 <= i < n.
Proof.
  unfold seqZ_from. rewrite list_elem_of_fmap. split.
  - intros (y & -> & Hy%elem_of_seq). lia.
  - intros H. exists (Z.to_nat i). rewrite elem_of_seq. lia.
Qed.

(** A finite check, by evaluation, as a universally quantified fact. *)
Lemma finite_forall (P : Z -> bool) n :
  forallb P (seqZ_from n) = true -> forall x, 0 <= x < n -> P x = true.
Proof.
  intros H x Hx. rewrite forallb_forall in H. apply H, list_elem_of_In.
  by apply elem_of_seqZ_from.
Qed.

Lemma filter_sorted (P : Z -> Prop) `{!forall x, Decision (P x)} l :
  StronglySorted Z.lt l -> StronglySorted Z.lt (filter P l).
Proof.
  induction 1 as [|x l _ IH Hx]; [constructor|]. rewrite filter_cons.
  case_decide; [|done]. constructor; [done|].
  rewrite Forall_forall in *. intros y [_ Hy]%list_elem_of_filter. auto.
Qed.

Lemma dget_keys_map (fields : list (Z * bytes)) l :
  (forall k, k ∈ l -> k ∈ dkeys fields) ->
  res_map (fun idx => res_of_option KeyError (dget idx fields)) l
  = Ok (map (fun k => default [] (dget k fields)) l).
Proof.
  intros H. apply res_map_ok. intros k Hk.
  destruct (dget k fields) eqn:E; [done|].
  apply dget_None_keys in E. naive_solver.
Qed.

Lemma res_map_packI_words ws :
  Forall is_word ws -> res_map packI ws = Ok (map (le 4) ws).
Proof.
  intros H. apply res_map_ok. intros w Hw. rewrite Forall_forall in H.
  apply packI_ok. by apply H.
Qed.

(** The number of mask blocks the function chooses. *)
Definition n_blocks (top : Z) (field_count : option Z) : Z :=
  match field_count with
  | Some fc => if fc =? 0 then top / 32 + 1 else Z.max (top / 32 + 1) ((fc + 31) / 32)
  | None => top / 32 + 1
  end.

Lemma n_blocks_ge top fc : top / 32 + 1 <= n_blocks top fc.
Proof. unfold n_blocks. repeat case_match; lia. Qed.

Definition sorted_fields (fields : list (Z * bytes)) : list (Z * bytes) :=
  map (fun k => (k, default [] (dget k fields))) (sort_Z (dkeys fields)).

(** The shape of every successful call. *)
Lemma build_values_block_shape fields fc top :
  max_key fields = Ok top ->
  Forall (fun '(k, _) => 0 <= k) fields ->
  n_blocks top fc < 256 ->
  exists ws, build_values_block fields fc
      = Ok (n_blocks top fc :: concat (map (le 4) ws)
            ++ concat (map snd (sorted_fields fields)))
    /\ length ws = Z.to_nat (n_blocks top fc) /\ Forall is_word ws
    /\ forall i, 0 <= i -> mask_bit ws i = bool_decide (i ∈ dkeys fields).
Proof.
  intros Htop Hk Hn. pose proof (n_blocks_ge top fc) as Hge.
  pose proof (max_key_elem _ _ Htop) as Htk.
  assert (forall k, k ∈ dkeys fields -> 0 <= k) as Hk0.
  { intros k (kv & -> & H)%list_elem_of_fmap. rewrite Forall_forall in Hk.
    specialize (Hk kv H). by destruct kv. }
  assert (0 <= top / 32) as Ht0 by (apply Z.div_pos; [by apply Hk0|lia]).
  unfold build_values_block. rewrite Htop. cbn [mbind res_bind].
  fold (n_blocks top fc).
  destruct (mask_fold_spec fields (replicate (Z.to_nat (n_blocks top fc)) 0))
    as (ws & -> & Hl & Hw & Hb).
  { apply Forall_forall. intros [k v] H. unfold pylen. rewrite length_replicate.
    assert (k ∈ dkeys fields) as Hin by (apply list_elem_of_fmap; by exists (k, v)).
    pose proof (max_key_ge _ _ _ Htop Hin). specialize (Hk0 k Hin).
    pose proof (Z.div_mod top 32 ltac:(lia)). pose proof (Z.mod_pos_bound top 32 ltac:(lia)).
    lia. }
  { apply Forall_replicate. unfold is_word. lia. }
  cbn [mbind res_bind]. rewrite mkbytes_ok by (repeat constructor; lia).
  cbn [mbind res_bind]. rewrite res_map_packI_words by done. cbn [mbind res_bind].
  rewrite dget_keys_map by (intros k H; by apply sort_Z_elem).
  cbn [mbind res_bind]. exists ws. split.
  { f_equal. cbn [app]. do 2 f_equal. unfold sorted_fields. rewrite map_map. done. }
  rewrite length_replicate in Hl. repeat split; [done|done|].
  intros i Hi. by rewrite Hb, mask_bit_zeros.
Qed.

(** The mask block of an update packet decodes, by the client's rule, to
    the field dictionary in ascending index order, whatever follows it. *)
Theorem values_block_roundtrip fields fc out rest :
  dict_ok fields ->
  Forall (fun '(k, v) => 0 <= k /\ length v = 4%nat) fields ->
  build_values_block fields fc = Ok out ->
  read_values_block (out ++ rest) = Some (sorted_fields fields, rest).
Proof.
  intros Hd Hf Hout.
  destruct (max_key fields) as [top|e] eqn:Htop;
    [|unfold build_values_block in Hout; by rewrite Htop in Hout].
  destruct (decide (n_blocks top fc < 256)) as [Hn|Hn].
  - destruct (build_values_block_shape fields fc top) as (ws & E & Hl & Hw & Hb); [done| |done|].
    { eapply Forall_impl; [apply Hf|]. by intros [k v] [? ?]. }
    rewrite E in Hout. simplify_eq. cbn [app read_values_block].
    rewrite <- Hl, <- app_assoc, read_words_app by done.
    assert (filter (fun i => mask_bit ws i = true) (seqZ_from (32 * n_blocks top fc))
            = map fst (sorted_fields fields)) as ->.
    { unfold sorted_fields. rewrite map_map, map_id. apply strict_sorted_unique.
      - apply filter_sorted, seqZ_from_sorted.
      - by apply sort_Z_strict.
      - intros i. rewrite list_elem_of_filter, elem_of_seqZ_from, sort_Z_elem. split.
        + intros [H [H0 _]]. rewrite Hb in H by done. by apply bool_decide_eq_true in H.
        + intros H. assert (0 <= i) as H0.
          { apply list_elem_of_fmap in H as ([k v] & -> & H).
            rewrite Forall_forall in Hf. by destruct (Hf _ H). }
          rewrite Hb by done. split; [by apply bool_decide_eq_true|].
          pose proof (max_key_ge _ _ _ Htop H). pose proof (n_blocks_ge top fc).
          pose proof (Z.div_mod top 32 ltac:(lia)).
          pose proof (Z.mod_pos_bound top 32 ltac:(lia)). lia. }
    apply read_fields_app. unfold sorted_fields. apply Forall_forall.
    intros [k v] (k' & [= -> ->] & Hk')%list_elem_of_fmap.
    apply sort_Z_elem, list_elem_of_fmap in Hk' as ([k2 v2] & -> & Hin).
    cbn. rewrite (elem_of_dget k2 v2) by done. cbn.
    rewrite Forall_forall in Hf. by destruct (Hf _ Hin).
  - exfalso. unfold build_values_block in Hout. rewrite Htop in Hout. cbn in Hout.
    fold (n_blocks top fc) in Hout. destruct (res_fold _ _ _); [|done]. cbn in Hout.
    unfold mkbytes in Hout. cbn in Hout.
    rewrite (proj2 (Z.ltb_ge _ _)) in Hout by lia. by rewrite andb_false_r in Hout.
Qed.

(** The call succeeds for every dictionary of non-negative indices that fits a
    one-byte block count. *)
Lemma build_values_block_total fields fc top :
  max_key fields = Ok top -> Forall (fun '(k, _) => 0 <= k) fields ->
  n_blocks top fc < 256 -> exists out, build_values_block fields fc = Ok out.
Proof.
  intros H1 H2 H3. destruct (build_values_block_shape _ _ _ H1 H2 H3) as (ws & -> & _).
  eauto.
Qed.

(** Reading the target block of a cast recovers the mask and the packed
    GUID whatever the client put after it. *)
Theorem spell_targets_roundtrip mask g rest :
  0 <= mask < 2 ^ 32 -> Z.land mask PACKED_FIRST <> 0 -> 0 <= g < 2 ^ 64 ->
  parse_spell_targets (le 4 mask ++ pack_guid g ++ rest) = (mask, g).
Proof.
  intros Hm Hp Hg. unfold parse_spell_targets.
  rewrite (proj2 (Z.ltb_ge _ _))
    by (autorewrite with pylen; pose proof (pylen_nonneg (pack_guid g));
        pose proof (pylen_nonneg rest); lia).
  change (slice 0 4 (le 4 mask ++ pack_guid g ++ rest))
    with (take 4 (le 4 mask ++ pack_guid g ++ rest)).
  rewrite take_app_exact, drop_app_exact by apply length_le.
  rewrite unle_le_id by exact Hm.
  rewrite (proj2 (Z.eqb_neq _ _)) by exact Hp.
  rewrite pack_guid_eq. cbn [app]. by rewrite (read_pack_guid g rest Hg).
Qed.

(** A short or untargeted block never invents a target. *)
Lemma spell_targets_short blob : pylen blob < 5 -> snd (parse_spell_targets blob) = 0.
Proof.
  intros H. unfold parse_spell_targets. split_match; [done|]. split_match; [done|].
  assert (length (drop 4 blob) = 0%nat) as H0 by (rewrite length_drop; unfold pylen in H; lia).
  destruct (drop 4 blob); [done|]. cbn in H0. lia.
Qed.

(** ** The round trips at concrete inputs *)

Lemma values_block_roundtrip_witness :
  let fields := [(24, le 4 10980); (0, le 4 7); (54, le 4 80)] in
  exists out, build_values_block fields (Some 1326) = Ok out
    /\ read_values_block (out ++ [9; 9]) = Some ([(0, le 4 7); (24, le 4 10980); (54, le 4 80)], [9; 9]).
Proof.
  cbv zeta. destruct (build_values_block [(24, le 4 10980); (0, le 4 7); (54, le 4 80)] (Some 1326))
    as [out|e] eqn:E; [|vm_compute in E; discriminate E].
  exists out. split; [reflexivity|].
  apply (values_block_roundtrip [(24, le 4 10980); (0, le 4 7); (54, le 4 80)] (Some 1326) out [9; 9]);
    [by_decide | repeat constructor; lia | exact E].
Defined.

Lemma spell_targets_roundtrip_witness :
  parse_spell_targets (le 4 2 ++ pack_guid 0xF13000000000002A ++ [1]) = (2, 0xF13000000000002A).
Proof.
  apply (spell_targets_roundtrip 2 0xF13000000000002A [1]);
    [split; [by vm_compute|reflexivity] | vm_compute; discriminate | split; [by vm_compute|reflexivity]].
Defined.
