(* ===== verification/PyFloat.v ===== *)
(** * Python floats

    A Python [float] is an IEEE-754 binary64 number, here the Standard
    Library's executable specification [spec_float] at precision 53 and
    exponent bound 1024.  [struct.pack("<f", v)] rounds to binary32 (nearest,
    ties to even, as CPython does) and writes the four bytes of the result. *)
From S2P Require Import Prelude Wire.
From Stdlib Require Import SpecFloat.

Abbreviation f64 := spec_float (only parsing).

#[export] Instance spec_float_eq_dec : EqDecision spec_float.
Proof. intros x y; unfold Decision; repeat decide equality. Defined.

(** The literal [m * 10^e] with [m > 0], correctly rounded. *)
Definition f64_pos (m : positive) (e : Z) : f64 :=
  if 0 <=? e then binary_normalize 53 1024 (Zpos m * 10 ^ e) 0 false
  else
    let '(q, e', l) := SFdiv_core_binary 53 1024 (Zpos m) 0 (10 ^ (- e)) 0 in
    binary_round_aux 53 1024 false q e' l.

Definition f64_dec (m e : Z) : f64 :=
  match m with
  | Z0 => S754_zero false
  | Zpos m => f64_pos m e
  | Zneg m => SFopp (f64_pos m e)
  end.

(** [float(n)] for an integer the conversion can represent. *)
Definition f64_of_Z (n : Z) : f64 := binary_normalize 53 1024 n 0 false.

Definition f64_add := SFadd 53 1024.
Definition f64_sub := SFsub 53 1024.
Definition f64_mul := SFmul 53 1024.
Definition f64_div := SFdiv 53 1024.
Definition f64_ltb := SFltb.
Definition f64_leb := SFleb.

(** [int(x)]: truncation towards zero. *)
Definition int_of_f64 (x : f64) : res Z :=
  match x with
  | S754_zero _ => Ok 0
  | S754_finite s m e =>
      let a := if 0 <=? e then Zpos m * 2 ^ e else Zpos m / 2 ^ (- e) in
      Ok (if s then - a else a)
  | S754_infinity _ => Err OverflowError
  | S754_nan => Err ValueError
  end.

(** Rounding a double to binary32. *)
Definition f32_of_f64 (x : f64) : spec_float :=
  match x with
  | S754_finite s m e => binary_round 24 128 s m e
  | _ => x
  end.

(** The bit pattern of a binary32 number in canonical form. *)
Definition f32_bits (x : spec_float) : Z :=
  let sgn (s : bool) := if s then 2 ^ 31 else 0 in
  match x with
  | S754_zero s => sgn s
  | S754_infinity s => sgn s + 255 * 2 ^ 23
  | S754_nan => 255 * 2 ^ 23 + 2 ^ 22
  | S754_finite s m e =>
      if Zpos m <? 2 ^ 23 then sgn s + Zpos m
      else sgn s + (e + 150) * 2 ^ 23 + (Zpos m - 2 ^ 23)
  end.

(** [struct.pack("<f", v)]: a finite double that rounds to an infinity raises
    [OverflowError]. *)
Definition packf (v : f64) : res bytes :=
  match v, f32_of_f64 v with
  | S754_finite _ _ _, S754_infinity _ => Err OverflowError
  | _, w => Ok (le 4 (f32_bits w))
  end.

(** [f32le] of world_server.py. *)
Definition f32le (v : f64) : res bytes := packf v.

Lemma packf_length v l : packf v = Ok l -> length l = 4%nat /\ is_bytes l.
Proof.
  unfold packf. intros H. assert (exists w, l = le 4 w) as [w ->].
  { exists (f32_bits (f32_of_f64 v)).
    destruct v; destruct (f32_of_f64 _); (discriminate H || by apply Ok_inj in H). }
  split; [apply length_le | apply is_bytes_le].
Qed.

Example f32_one : packf (f64_of_Z 1) = Ok [0; 0; 0x80; 0x3F].
Proof. vm_compute. reflexivity. Qed.
Example f32_half : packf (f64_dec (-25) (-1)) = Ok [0; 0; 0x20; 0xC0].
Proof. vm_compute. reflexivity. Qed.
Example f32_tenth : packf (f64_dec 1 (-1)) = Ok [0xCD; 0xCC; 0xCC; 0x3D].
Proof. vm_compute. reflexivity. Qed.
Example f32_huge : packf (f64_dec 1 39) = Err OverflowError.
Proof. vm_compute. reflexivity. Qed.
Example f32_subnormal : packf (f64_dec 1 (-45)) = Ok [1; 0; 0; 0].
Proof. vm_compute. reflexivity. Qed.
Example regen_pct : int_of_f64 (f64_mul (f64_of_Z 4460) (f64_dec 4 (-2))) = Ok 178.
Proof. vm_compute. reflexivity. Qed.

(** [x % y] for a finite non-zero [y], the only use the server makes of it:
    the exact remainder with the sign of [x], moved by [y] when the signs
    differ. *)
Definition f64_signed (s : bool) (m : positive) : Z := if s then Zneg m else Zpos m.

Definition f64_mod (x y : f64) : f64 :=
  match x, y with
  | S754_finite sx mx ex, S754_finite sy my ey =>
      let e := Z.min ex ey in
      let r := Z.rem (f64_signed sx mx * 2 ^ (ex - e)) (f64_signed sy my * 2 ^ (ey - e)) in
      if r =? 0 then S754_zero sy
      else
        let m := binary_normalize 53 1024 r e false in
        if Bool.eqb (r <? 0) sy then m else f64_add m y
  | S754_zero _, S754_finite sy _ _ => S754_zero sy
  | _, _ => S754_nan
  end.

Example mod_ex : f64_mod (f64_dec 7 0) (f64_dec 25 (-1)) = f64_dec 2 0
  /\ f64_mod (f64_dec (-7) 0) (f64_dec 25 (-1)) = f64_dec 5 (-1).
Proof. vm_compute. split; reflexivity. Qed.
