(* ===== verification/Text.v ===== *)
(** * Text: UTF-8, white space and decimal integers

    A Python [str] is a list of code points ([pystr]).  [encode("utf-8")] raises
    on a lone surrogate, [encode("utf-8", "replace")] writes a question mark
    for it, and [decode("utf-8", "replace")] puts U+FFFD for every maximal
    invalid prefix, the way CPython's decoder does.  [str] of an integer and
    [int] of ASCII text are here too. *)
From S2P Require Import Prelude.

(** ** Encoding *)

Definition is_surrogate (c : Z) : bool := (0xD800 <=? c) && (c <=? 0xDFFF).

(** A code point a [str] can hold. *)
Definition is_char (c : Z) : Prop := 0 <= c <= 0x10FFFF.

Definition utf8_char (c : Z) : bytes :=
  if c <? 0x80 then [c]
  else if c <? 0x800 then [0xC0 + c / 64; 0x80 + c mod 64]
  else if c <? 0x10000 then [0xE0 + c / 4096; 0x80 + (c / 64) mod 64; 0x80 + c mod 64]
  else [0xF0 + c / 262144; 0x80 + (c / 4096) mod 64; 0x80 + (c / 64) mod 64; 0x80 + c mod 64].

(** [s.encode("utf-8")]. *)
Definition utf8_encode (s : pystr) : res bytes :=
  if existsb is_surrogate s then Err EncodeError else Ok (flat_map utf8_char s).

(** [s.encode("utf-8", "replace")]. *)
Definition utf8_encode_replace (s : pystr) : bytes :=
  flat_map (fun c => if is_surrogate c then [0x3F] else utf8_char c) s.

(** ** Decoding *)

Definition in_range (lo hi b : Z) : bool := (lo <=? b) && (b <=? hi).

(** One step on a non-empty input [b0 :: l]: the code point, or [None] for an
    invalid prefix, and what is left. *)
Definition utf8_next (b0 : Z) (l : bytes) : option Z * bytes :=
  let c2 := in_range 0x80 0xBF in
  if b0 <? 0x80 then (Some b0, l)
  else if in_range 0xC2 0xDF b0 then
    match l with
    | b1 :: l1 => if c2 b1 then (Some ((b0 - 0xC0) * 64 + (b1 - 0x80)), l1) else (None, l)
    | [] => (None, [])
    end
  else if in_range 0xE0 0xEF b0 then
    let lo := if b0 =? 0xE0 then 0xA0 else 0x80 in
    let hi := if b0 =? 0xED then 0x9F else 0xBF in
    match l with
    | b1 :: l1 =>
        if in_range lo hi b1 then
          match l1 with
          | b2 :: l2 =>
              if c2 b2
              then (Some ((b0 - 0xE0) * 4096 + (b1 - 0x80) * 64 + (b2 - 0x80)), l2)
              else (None, l1)
          | [] => (None, [])
          end
        else (None, l)
    | [] => (None, [])
    end
  else if in_range 0xF0 0xF4 b0 then
    let lo := if b0 =? 0xF0 then 0x90 else 0x80 in
    let hi := if b0 =? 0xF4 then 0x8F else 0xBF in
    match l with
    | b1 :: l1 =>
        if in_range lo hi b1 then
          match l1 with
          | b2 :: l2 =>
              if c2 b2 then
                match l2 with
                | b3 :: l3 =>
                    if c2 b3
                    then (Some ((b0 - 0xF0) * 262144 + (b1 - 0x80) * 4096
                                + (b2 - 0x80) * 64 + (b3 - 0x80)), l3)
                    else (None, l2)
                | [] => (None, [])
                end
              else (None, l1)
          | [] => (None, [])
          end
        else (None, l)
    | [] => (None, [])
    end
  else (None, l).

Fixpoint utf8_decode_go (fuel : nat) (l : bytes) : pystr :=
  match fuel, l with
  | S fuel, b0 :: l =>
      let '(c, rest) := utf8_next b0 l in
      default 0xFFFD c :: utf8_decode_go fuel rest
  | _, _ => []
  end.

(** [b.decode("utf-8", "replace")]: every step consumes a byte, so the length
    is fuel enough. *)
Definition utf8_decode_replace (l : bytes) : pystr := utf8_decode_go (length l) l.

Lemma utf8_next_shorter b0 l c rest :
  utf8_next b0 l = (c, rest) -> (length rest <= length l)%nat.
Proof.
  unfold utf8_next. intros H.
  repeat (split_match_in H; [try (injection H as <- <-; cbn; lia) ..]);
    injection H as <- <-; cbn; lia.
Qed.

(** More fuel than the length changes nothing. *)
Lemma utf8_decode_fuel n l : (length l <= n)%nat -> utf8_decode_go n l = utf8_decode_replace l.
Proof.
  unfold utf8_decode_replace.
  assert (forall m n l, (length l <= m)%nat -> (length l <= n)%nat ->
          utf8_decode_go m l = utf8_decode_go n l) as H; [|intros; by apply H].
  clear. induction m as [|m IH]; intros n [|b0 l] Hm Hn; cbn in *; try lia; try (by destruct n).
  destruct n as [|n]; [lia|]. cbn.
  destruct (utf8_next b0 l) as [c rest] eqn:E. apply utf8_next_shorter in E.
  f_equal. apply IH; lia.
Qed.

Lemma utf8_decode_cons b0 l :
  utf8_decode_replace (b0 :: l)
  = let '(c, rest) := utf8_next b0 l in default 0xFFFD c :: utf8_decode_replace rest.
Proof.
  unfold utf8_decode_replace at 1. cbn [length utf8_decode_go].
  destruct (utf8_next b0 l) as [c rest] eqn:E. apply utf8_next_shorter in E.
  by rewrite utf8_decode_fuel.
Qed.


Lemma in_range_true lo hi b : lo <= b <= hi -> in_range lo hi b = true.
Proof. intros. unfold in_range. apply andb_true_iff. split; apply Z.leb_le; lia. Qed.

Lemma in_range_false lo hi b : b < lo \/ hi < b -> in_range lo hi b = false.
Proof.
  intros [H|H]; unfold in_range; apply andb_false_iff; [left|right]; apply Z.leb_gt; lia.
Qed.

(** Decoding what was encoded, one character at a time. *)
Lemma utf8_next_char c rest :
  is_char c -> is_surrogate c = false ->
  match utf8_char c with b0 :: l => utf8_next b0 (l ++ rest) = (Some c, rest) | [] => False end.
Proof.
  unfold is_char, is_surrogate, utf8_char. intros Hc Hs.
  pose proof (Z.div_mod c 64 ltac:(lia)). pose proof (Z.mod_pos_bound c 64 ltac:(lia)).
  pose proof (Z.div_mod (c / 64) 64 ltac:(lia)). pose proof (Z.mod_pos_bound (c / 64) 64 ltac:(lia)).
  pose proof (Z.div_div c 64 64 ltac:(lia) ltac:(lia)) as D1. change (64 * 64) with 4096 in D1.
  pose proof (Z.div_mod (c / 4096) 64 ltac:(lia)). pose proof (Z.mod_pos_bound (c / 4096) 64 ltac:(lia)).
  pose proof (Z.div_div c 4096 64 ltac:(lia) ltac:(lia)) as D2. change (4096 * 64) with 262144 in D2.
  rewrite D1, D2 in *.
  apply andb_false_iff in Hs.
  assert (c < 0xD800 \/ 0xDFFF < c) as Hs' by (destruct Hs as [Hs|Hs]; apply Z.leb_gt in Hs; lia).
  clear Hs D1 D2.
  destruct (Z.ltb_spec c 0x80).
  { cbn [app]. unfold utf8_next.
    by rewrite (proj2 (Z.ltb_lt _ _)) by lia. }
  destruct (Z.ltb_spec c 0x800).
  { cbn [app]. unfold utf8_next.
    rewrite (proj2 (Z.ltb_ge _ _)) by lia.
    rewrite !in_range_true by lia. do 2 f_equal. lia. }
  destruct (Z.ltb_spec c 0x10000).
  { cbn [app]. unfold utf8_next.
    rewrite (proj2 (Z.ltb_ge _ _)) by lia.
    rewrite (in_range_false 0xC2 0xDF) by lia. rewrite (in_range_true 0xE0 0xEF) by lia.
    rewrite (in_range_true _ _ (128 + (c / 64) mod 64))
      by (destruct (Z.eqb_spec (0xE0 + c / 4096) 0xE0), (Z.eqb_spec (0xE0 + c / 4096) 0xED); lia).
    rewrite in_range_true by lia. do 2 f_equal. lia. }
  cbn [app]. unfold utf8_next.
  rewrite (proj2 (Z.ltb_ge _ _)) by lia.
  rewrite (in_range_false 0xC2 0xDF), (in_range_false 0xE0 0xEF) by lia.
  rewrite (in_range_true 0xF0 0xF4) by lia.
  rewrite (in_range_true _ _ (128 + (c / 4096) mod 64))
    by (destruct (Z.eqb_spec (0xF0 + c / 262144) 0xF0), (Z.eqb_spec (0xF0 + c / 262144) 0xF4); lia).
  rewrite !in_range_true by lia. do 2 f_equal. lia.
Qed.

Lemma utf8_decode_char c rest :
  is_char c -> is_surrogate c = false ->
  utf8_decode_replace (utf8_char c ++ rest) = c :: utf8_decode_replace rest.
Proof.
  intros Hc Hs. pose proof (utf8_next_char c rest Hc Hs) as Hn. destruct (utf8_char c) as [|b0 l]; [done|].
  cbn [app]. by rewrite utf8_decode_cons, Hn.
Qed.

Lemma existsb_false_forall {A} (f : A -> bool) l :
  existsb f l = false <-> Forall (fun x => f x = false) l.
Proof.
  induction l as [|x l IH]; cbn; [by split|].
  rewrite orb_false_iff, IH. split; [intros []; by constructor | by inversion 1].
Qed.

Lemma utf8_roundtrip s b :
  Forall is_char s -> utf8_encode s = Ok b -> utf8_decode_replace b = s.
Proof.
  unfold utf8_encode. intros Hs H. destruct (existsb _ s) eqn:E; [done|].
  apply Ok_inj in H. subst b. apply existsb_false_forall in E.
  induction Hs as [|c s Hc _ IH]; [done|]. inversion_clear E.
  cbn [flat_map]. rewrite utf8_decode_char by done. by rewrite IH.
Qed.

(** [b.decode("utf-8")]; [None] where it raises.  Every step consumes a byte. *)
Fixpoint utf8_strict (fuel : nat) (l : bytes) : option pystr :=
  match fuel, l with
  | S fuel, b :: l =>
      match utf8_next b l with
      | (Some c, rest) => s ← utf8_strict fuel rest; Some (c :: s)
      | (None, _) => None
      end
  | _, _ => Some []
  end.

Definition utf8_decode (l : bytes) : res pystr := res_of_option DecodeError (utf8_strict (length l) l).

Lemma utf8_strict_fuel n : forall l m, (length l <= n)%nat -> (length l <= m)%nat -> utf8_strict n l = utf8_strict m l.
Proof.
  induction n as [|n IH]; intros [|b l] [|m] Hn Hm; cbn [length] in *; try lia; try done. cbn [utf8_strict].
  destruct (utf8_next b l) as [[c|] rest] eqn:E; [|done]. apply utf8_next_shorter in E. rewrite (IH rest m); [done|lia..].
Qed.

(** What was encoded is decoded. *)
Lemma utf8_decode_encode s b : Forall is_char s -> utf8_encode s = Ok b -> utf8_decode b = Ok s.
Proof.
  intros Hs Hb. unfold utf8_decode. enough (utf8_strict (length b) b = Some s) as -> by done.
  unfold utf8_encode in Hb. destruct (existsb _ s) eqn:E; [done|]. apply Ok_inj in Hb. subst b.
  apply existsb_false_forall in E. induction Hs as [|c s Hc _ IH]; [done|]. inversion_clear E as [|? ? Hc' E'].
  cbn [flat_map]. pose proof (utf8_next_char c (flat_map utf8_char s) Hc Hc') as Hn.
  destruct (utf8_char c) as [|b0 l]; [done|]. cbn [app length utf8_strict]. rewrite Hn.
  rewrite (utf8_strict_fuel _ (flat_map utf8_char s) (length (flat_map utf8_char s))) by (rewrite ?length_app; lia).
  by rewrite IH.
Qed.

Lemma utf8_char_bytes c : is_char c -> is_bytes (utf8_char c).
Proof.
  unfold is_char, utf8_char. intros Hc.
  pose proof (Z.div_mod c 64 ltac:(lia)). pose proof (Z.mod_pos_bound c 64 ltac:(lia)).
  pose proof (Z.mod_pos_bound (c / 64) 64 ltac:(lia)).
  pose proof (Z.mod_pos_bound (c / 4096) 64 ltac:(lia)).
  pose proof (Z.div_mod c 4096 ltac:(lia)). pose proof (Z.mod_pos_bound c 4096 ltac:(lia)).
  pose proof (Z.div_mod c 262144 ltac:(lia)). pose proof (Z.mod_pos_bound c 262144 ltac:(lia)).
  destruct (Z.ltb_spec c 0x80); [repeat constructor; lia|].
  destruct (Z.ltb_spec c 0x800); [repeat constructor; lia|].
  destruct (Z.ltb_spec c 0x10000); repeat constructor; lia.
Qed.

Lemma utf8_encode_bytes s b : Forall is_char s -> utf8_encode s = Ok b -> is_bytes b.
Proof.
  unfold utf8_encode. intros Hs H. destruct (existsb _ s); [done|]. apply Ok_inj in H. subst b.
  induction Hs as [|c s Hc _ IH]; [constructor|]. cbn. apply is_bytes_app. split; [|done].
  by apply utf8_char_bytes.
Qed.

(** A text without NUL has no NUL byte: C strings end where they should. *)
Lemma utf8_char_nul c : is_char c -> c <> 0 -> 0 ∉ utf8_char c.
Proof.
  unfold is_char, utf8_char. intros Hc H0.
  pose proof (Z.mod_pos_bound c 64 ltac:(lia)).
  pose proof (Z.mod_pos_bound (c / 64) 64 ltac:(lia)).
  pose proof (Z.mod_pos_bound (c / 4096) 64 ltac:(lia)).
  assert (0 <= c / 64 /\ 0 <= c / 4096 /\ 0 <= c / 262144) as (? & ? & ?)
    by (repeat split; apply Z.div_pos; lia).
  repeat case_match; rewrite !not_elem_of_cons; repeat split; try lia; apply not_elem_of_nil.
Qed.

Lemma utf8_encode_nul s b :
  Forall is_char s -> 0 ∉ s -> utf8_encode s = Ok b -> 0 ∉ b.
Proof.
  unfold utf8_encode. intros Hs Hn H. destruct (existsb _ s); [done|]. apply Ok_inj in H. subst b.
  induction Hs as [|c s Hc _ IH]; cbn [flat_map]; [apply not_elem_of_nil|].
  apply not_elem_of_cons in Hn as [Hne Hn]. rewrite elem_of_app. intros [H|H]; [|by apply IH].
  revert H. by apply utf8_char_nul; [|intros ->].
Qed.

Lemma utf8_ascii s : Forall (fun c => 0 <= c < 0x80) s -> utf8_encode s = Ok s.
Proof.
  intros H. unfold utf8_encode. rewrite (proj2 (existsb_false_forall _ _)).
  - f_equal. induction H as [|c s Hc _ IH]; [done|]. cbn [flat_map]. rewrite IH.
    unfold utf8_char. by rewrite (proj2 (Z.ltb_lt _ _)) by lia.
  - eapply Forall_impl; [exact H|]. intros c Hc. cbv beta in Hc |- *. unfold is_surrogate.
    rewrite (proj2 (Z.leb_gt 0xD800 c)) by lia. done.
Qed.

Example utf8_ex : utf8_encode [0x48; 0xE9; 0x20AC; 0x1F600]
  = Ok [0x48; 0xC3; 0xA9; 0xE2; 0x82; 0xAC; 0xF0; 0x9F; 0x98; 0x80].
Proof. reflexivity. Qed.
Example utf8_bad : utf8_decode_replace [0x41; 0xE2; 0x82; 0x41; 0xFF; 0xC3] = [0x41; 0xFFFD; 0x41; 0xFFFD; 0xFFFD].
Proof. reflexivity. Qed.

(** ** White space *)

(** [str.isspace] for one character. *)
Definition is_space (c : Z) : bool :=
  in_range 9 13 c || in_range 28 32 c || (c =? 0x85) || (c =? 0xA0) || (c =? 0x1680)
  || in_range 0x2000 0x200A c || (c =? 0x2028) || (c =? 0x2029) || (c =? 0x202F)
  || (c =? 0x205F) || (c =? 0x3000).

Fixpoint lstrip (s : pystr) : pystr :=
  match s with
  | c :: s' => if is_space c then lstrip s' else s
  | [] => []
  end.

Definition rstrip (s : pystr) : pystr := rev (lstrip (rev s)).
Definition strip (s : pystr) : pystr := rstrip (lstrip s).

(** [s.split()]: runs of non-space characters. *)
Fixpoint split_ws_go (s : pystr) (cur : pystr) : list pystr :=
  match s with
  | [] => match cur with [] => [] | _ => [rev cur] end
  | c :: s =>
      if is_space c
      then match cur with [] => split_ws_go s [] | _ => rev cur :: split_ws_go s [] end
      else split_ws_go s (c :: cur)
  end.
Definition split_ws (s : pystr) : list pystr := split_ws_go s [].

(** ** Integers as text *)

Fixpoint digits_go (fuel : nat) (n : Z) (acc : pystr) : pystr :=
  match fuel with
  | O => acc
  | S fuel =>
      let acc := (48 + n mod 10) :: acc in
      if n / 10 =? 0 then acc else digits_go fuel (n / 10) acc
  end.

(** [str(n)]: a number has no more digits than bits. *)
Definition str_of_Z (n : Z) : pystr :=
  if n <? 0 then 45 :: digits_go (S (Z.to_nat (Z.log2 (- n)))) (- n) []
  else digits_go (S (Z.to_nat (Z.log2 n))) n [].

Definition is_digit (c : Z) : bool := in_range 48 57 c.

Definition digits_val (s : pystr) : Z := fold_left (fun v c => 10 * v + (c - 48)) s 0.

Lemma digits_go_val fuel n acc :
  0 <= n -> n < 10 ^ Z.of_nat fuel -> (0 < fuel)%nat ->
  exists ds, digits_go fuel n acc = ds ++ acc /\ digits_val ds = n
    /\ Forall (fun c => is_digit c = true) ds /\ ds <> [].
Proof.
  revert n acc. induction fuel as [|fuel IH]; intros n acc Hn Hf H0; [lia|].
  cbn [digits_go]. pose proof (Z.div_mod n 10 ltac:(lia)).
  pose proof (Z.mod_pos_bound n 10 ltac:(lia)) as Hm.
  assert (is_digit (48 + n mod 10) = true) as Hd by (apply in_range_true; lia).
  destruct (Z.eqb_spec (n / 10) 0) as [E|E].
  - exists [48 + n mod 10]. split; [done|]. split; [cbn -[Z.add]; lia|].
    split; [by repeat constructor|done].
  - rewrite Nat2Z.inj_succ, Z.pow_succ_r in Hf by lia.
    assert (0 <= n / 10) by (apply Z.div_pos; lia).
    destruct (IH (n / 10) ((48 + n mod 10) :: acc)) as (ds & -> & Hv & Hds & Hne).
    + lia.
    + apply Z.div_lt_upper_bound; lia.
    + destruct fuel; [|lia]. cbn in Hf. lia.
    + exists (ds ++ [48 + n mod 10]). split; [by rewrite <- app_assoc|].
      split; [|split; [by apply Forall_app; split; [|repeat constructor] | by destruct ds]].
      unfold digits_val in *. rewrite fold_left_app. cbn. rewrite Hv. lia.
Qed.

Lemma log2_digits n : 0 <= n -> n < 10 ^ Z.of_nat (S (Z.to_nat (Z.log2 n))).
Proof.
  intros Hn. rewrite Nat2Z.inj_succ, Z2Nat.id by apply Z.log2_nonneg.
  destruct (Z.eq_dec n 0) as [->|]; [cbn; lia|].
  eapply Z.lt_le_trans; [apply Z.log2_spec; lia|].
  apply Z.pow_le_mono_l. lia.
Qed.

Lemma str_of_Z_nonneg n :
  0 <= n -> digits_val (str_of_Z n) = n
    /\ Forall (fun c => is_digit c = true) (str_of_Z n) /\ str_of_Z n <> [].
Proof.
  intros Hn. unfold str_of_Z. rewrite (proj2 (Z.ltb_ge _ _)) by lia.
  destruct (digits_go_val (S (Z.to_nat (Z.log2 n))) n []) as (ds & -> & Hv & Hd & Hne);
    [lia | by apply log2_digits | lia |]. rewrite app_nil_r. done.
Qed.

(** Distinct naturals have distinct keys in a JSON object. *)
Lemma str_of_Z_inj n m : 0 <= n -> 0 <= m -> str_of_Z n = str_of_Z m -> n = m.
Proof.
  intros Hn Hm H. destruct (str_of_Z_nonneg n Hn) as [<- _].
  destruct (str_of_Z_nonneg m Hm) as [<- _]. by rewrite H.
Qed.

(** [a <= b] for strings: by code point. *)
Fixpoint str_leb (a b : pystr) : bool :=
  match a, b with
  | [], _ => true
  | _ :: _, [] => false
  | x :: a, y :: b => (x <? y) || ((x =? y) && str_leb a b)
  end.

Lemma str_leb_total a b : str_leb a b = false -> str_leb b a = true.
Proof.
  revert b. induction a as [|x a IH]; intros [|y b]; cbn; try done.
  destruct (Z.ltb_spec x y); [done|]. destruct (Z.eqb_spec x y) as [->|]; cbn.
  - intros H'. rewrite Z.ltb_irrefl, Z.eqb_refl. cbn. auto.
  - intros _. by rewrite (proj2 (Z.ltb_lt y x)) by lia.
Qed.

Lemma str_leb_refl a : str_leb a a = true.
Proof. destruct (str_leb a a) eqn:E; [done|]. pose proof (str_leb_total a a E). congruence. Qed.

Lemma str_leb_trans a b c : str_leb a b = true -> str_leb b c = true -> str_leb a c = true.
Proof.
  revert b c. induction a as [|x a IH]; intros [|y b] [|z c]; cbn; try done.
  rewrite !orb_true_iff, !andb_true_iff, !Z.ltb_lt, !Z.eqb_eq.
  intros [|[-> ?]] [|[-> ?]]; [left; lia | by left | by left | right; split; [done|eauto]].
Qed.

Lemma str_leb_antisym a b : str_leb a b = true -> str_leb b a = true -> a = b.
Proof.
  revert b. induction a as [|x a IH]; intros [|y b]; cbn; try done.
  rewrite !orb_true_iff, !andb_true_iff, !Z.ltb_lt, !Z.eqb_eq.
  intros [|[-> ?]] [|[E ?]]; try lia. by rewrite (IH b).
Qed.

(** ** The character database *)

(** What the code asks of Python's Unicode tables: [str.lower], [str.isdigit]
    for one character and the value of a decimal digit ([int] of text).  The
    laws are the ASCII part, and that a decimal digit is a digit. *)
Class Unicode := {
  uni_lower : pystr -> pystr;
  uni_isdigit : Z -> bool;
  uni_decimal : Z -> option Z;
  uni_lower_ascii s : Forall (fun c => 0 <= c < 0x80) s ->
    uni_lower s = map (fun c => if in_range 65 90 c then c + 32 else c) s;
  uni_decimal_ascii c : 0 <= c < 0x80 ->
    uni_decimal c = if in_range 48 57 c then Some (c - 48) else None;
  uni_isdigit_ascii c : 0 <= c < 0x80 -> uni_isdigit c = in_range 48 57 c;
  uni_decimal_digit c v : uni_decimal c = Some v -> uni_isdigit c = true /\ 0 <= v <= 9;
}.

(** The tables of the ASCII and Latin-1 range, where the superscripts are
    digits without a decimal value. *)
Definition latin_lower (s : pystr) : pystr :=
  map (fun c => if in_range 65 90 c || (in_range 0xC0 0xDE c && negb (c =? 0xD7))
                then c + 32 else c) s.

#[export] Program Instance latin_unicode : Unicode := {|
  uni_lower := latin_lower;
  uni_isdigit c := in_range 48 57 c || (c =? 0xB2) || (c =? 0xB3) || (c =? 0xB9);
  uni_decimal c := if in_range 48 57 c then Some (c - 48) else None;
|}.
Next Obligation.
  intros s H. unfold latin_lower. apply map_ext_in. intros c Hc%list_elem_of_In.
  rewrite Forall_forall in H. specialize (H c Hc). cbv beta in H.
  by rewrite (in_range_false 0xC0 0xDE c), orb_false_r by lia.
Qed.
Next Obligation. done. Qed.
Next Obligation.
  intros c Hc. cbv beta. by rewrite !(proj2 (Z.eqb_neq c _)), !orb_false_r by lia.
Qed.
Next Obligation.
  intros c v H. cbv beta in *. destruct (in_range 48 57 c) eqn:E; [|done].
  injection H as <-. unfold in_range in E. zbool. split; [done|lia].
Qed.

Section IntOfStr.
Context `{Unicode}.

(** Decimal digits with single underscores between them; [after] tells
    whether the previous character was a digit. *)
Fixpoint int_digits (s : pystr) (after : bool) (v : Z) : option Z :=
  match s with
  | [] => if after then Some v else None
  | c :: s =>
      if c =? 95 then if after then int_digits s false v else None
      else match uni_decimal c with
      | Some d => int_digits s true (10 * v + d)
      | None => None
      end
  end.

(** [int(s)]: white space around, a sign, then digits. *)
Definition int_of_str (s : pystr) : res Z :=
  let s := strip s in
  let '(neg, ds) := match s with
                    | c :: t => if c =? 45 then (true, t) else if c =? 43 then (false, t)
                                else (false, s)
                    | [] => (false, s)
                    end in
  match int_digits ds false 0 with
  | Some v => Ok (if neg then - v else v)
  | None => Err ValueError
  end.

(** [s.isdigit()]. *)
Definition str_isdigit (s : pystr) : bool :=
  match s with [] => false | _ => forallb uni_isdigit s end.

Lemma int_digits_val s after v :
  Forall (fun c => is_digit c = true) s -> after = true \/ s <> [] ->
  int_digits s after v = Some (fold_left (fun v c => 10 * v + (c - 48)) s v).
Proof.
  intros Hs. revert after v. induction Hs as [|c s Hc _ IH]; intros after v Ha; cbn.
  - by destruct Ha as [->|].
  - unfold is_digit, in_range in Hc. zbool. rewrite (proj2 (Z.eqb_neq _ _)) by lia.
    rewrite uni_decimal_ascii, in_range_true by lia. apply IH. by left.
Qed.
End IntOfStr.

Lemma lstrip_digit s : Forall (fun c => is_digit c = true) s -> lstrip s = s.
Proof.
  intros [|c t Hc _]; [done|]. cbn. unfold is_digit, in_range in Hc. zbool.
  assert (is_space c = false) as ->; [|done].
  unfold is_space. rewrite !in_range_false by lia.
  repeat (rewrite (proj2 (Z.eqb_neq _ _)) by lia). done.
Qed.

Lemma int_of_str_of_Z `{Unicode} n : 0 <= n -> int_of_str (str_of_Z n) = Ok n.
Proof.
  intros Hn. destruct (str_of_Z_nonneg n Hn) as (Hv & Hd & Hne).
  unfold int_of_str, strip, rstrip. rewrite (lstrip_digit (str_of_Z n)) by exact Hd.
  rewrite (lstrip_digit (rev _)) by (apply Forall_rev, Hd). rewrite rev_involutive.
  destruct (str_of_Z n) as [|c t] eqn:E; [done|].
  inversion Hd as [|? ? Hc Ht]; subst. unfold is_digit, in_range in Hc. zbool.
  rewrite !(proj2 (Z.eqb_neq c _)) by lia.
  rewrite int_digits_val; [done | done | by right].
Qed.

Example str_ex : str_of_Z 9000 = lit "9000" /\ str_of_Z (-12) = lit "-12" /\ str_of_Z 0 = lit "0".
Proof. repeat split; reflexivity. Qed.
Example int_ex : int_of_str (lit " +1_000 ") = Ok 1000 /\ int_of_str (lit "1__0") = Err ValueError
  /\ int_of_str [0xB2] = Err ValueError /\ str_isdigit [0xB2] = true.
Proof. repeat split; reflexivity. Qed.
