(* ===== verification/Format.v ===== *)
(** * Python's string formatting and number parsing

    The conversions of the [%] operator the dot-commands use ([%d], [%X],
    [%s] with a width or a precision, [%.1f]), [str.join], and [float(s)]. *)
From S2P Require Import Prelude Wire PyFloat Text.
From Stdlib Require Import SpecFloat.

Definition cat (l : list pystr) : pystr := concat l.

Definition join (sep : pystr) (l : list pystr) : pystr :=
  match l with
  | [] => []
  | x :: l => x ++ concat (map (fun y => sep ++ y) l)
  end.

Definition spaces (n : nat) : pystr := replicate n 32.

(** [%-Ns] and [%Nd]: padding never truncates. *)
Definition pad_right (n : nat) (s : pystr) : pystr := s ++ spaces (n - length s).
Definition pad_left (n : nat) (s : pystr) : pystr := spaces (n - length s) ++ s.

(** [%X] and [%0NX]. *)
Definition hex_digit (d : Z) : Z := if d <? 10 then 48 + d else 55 + d.

Fixpoint hex_go (fuel : nat) (n : Z) (acc : pystr) : pystr :=
  match fuel with
  | O => acc
  | S fuel =>
      let acc := hex_digit (n mod 16) :: acc in
      if n / 16 =? 0 then acc else hex_go fuel (n / 16) acc
  end.

Definition hex_abs (n : Z) : pystr := hex_go (S (Z.to_nat (Z.log2 n))) n [].

Definition hex_of_Z (n : Z) : pystr := if n <? 0 then 45 :: hex_abs (- n) else hex_abs n.

Definition hex_pad (width : nat) (n : Z) : pystr :=
  let zeros s w := replicate (w - length s) 48 ++ s in
  if n <? 0 then 45 :: zeros (hex_abs (- n)) (width - 1)%nat else zeros (hex_abs n) width.

(** [%.1f]: the exact value rounded to one decimal, ties to even. *)
Definition round_half_even (num den : Z) : Z :=
  let q := num / den in
  let r := num mod den in
  if 2 * r <? den then q else if den <? 2 * r then q + 1 else if Z.even q then q else q + 1.

Definition fmt_f1 (x : spec_float) : pystr :=
  let sgn (s : bool) := if s then [45] else [] in
  match x with
  | S754_nan => lit "nan"
  | S754_infinity s => sgn s ++ lit "inf"
  | S754_zero s => sgn s ++ lit "0.0"
  | S754_finite s m e =>
      let t := if 0 <=? e then Zpos m * 10 * 2 ^ e else round_half_even (Zpos m * 10) (2 ^ (- e)) in
      sgn s ++ str_of_Z (t / 10) ++ [46] ++ str_of_Z (t mod 10)
  end.

Section FloatOfStr.
Context `{Unicode}.

(** Digits with single underscores between them; possibly none. *)
Definition digits_or_empty (s : pystr) : option (Z * Z) :=
  match s with
  | [] => Some (0, 0)
  | _ => v ← int_digits s false 0;
         Some (v, pylen (filter (fun c => c <> 95) s))
  end.

Fixpoint split_at (p : Z -> bool) (s : pystr) : pystr * option pystr :=
  match s with
  | [] => ([], None)
  | c :: s => if p c then ([], Some s) else let '(a, b) := split_at p s in (c :: a, b)
  end.

Definition sign_of (s : pystr) : bool * pystr :=
  match s with
  | c :: t => if c =? 45 then (true, t) else if c =? 43 then (false, t) else (false, s)
  | [] => (false, s)
  end.

(** [float(s)]. *)
Definition float_of_str (s : pystr) : res spec_float :=
  let '(neg, body) := sign_of (strip s) in
  let sg x := if (neg : bool) then SFopp x else x in
  let low := uni_lower body in
  if bool_decide (low = lit "inf" \/ low = lit "infinity") then Ok (sg (S754_infinity false))
  else if bool_decide (low = lit "nan") then Ok S754_nan
  else
    let '(mant, ex) := split_at (fun c => (c =? 101) || (c =? 69)) body in
    let '(ip, fp) := split_at (fun c => c =? 46) mant in
    let expo := match ex with
                | None => Some 0
                | Some e => let '(en, ds) := sign_of e in
                            v ← int_digits ds false 0; Some (if (en : bool) then - v else v)
                end in
    match digits_or_empty ip, digits_or_empty (default [] fp), expo with
    | Some (iv, il), Some (fv, fl), Some e =>
        if il + fl =? 0 then Err ValueError
        else Ok (sg (f64_dec (iv * 10 ^ fl + fv) (e - fl)))
    | _, _, _ => Err ValueError
    end.
End FloatOfStr.

Example fmt_ex :
  hex_pad 8 0xBEEF = lit "0000BEEF" /\ hex_of_Z 0 = lit "0" /\ pad_right 5 (lit "ab") = lit "ab   "
  /\ pad_left 3 (str_of_Z 7) = lit "  7" /\ fmt_f1 (f64_dec 25 (-2)) = lit "0.2"
  /\ fmt_f1 (f64_dec (-1275) (-2)) = lit "-12.8" /\ join (lit ", ") [lit "a"; lit "b"] = lit "a, b".
Proof. vm_compute. repeat split; reflexivity. Qed.

Example float_ex :
  @float_of_str latin_unicode (lit " 1.5e1 ") = Ok (f64_of_Z 15)
  /\ @float_of_str latin_unicode (lit "-.25") = Ok (f64_dec (-25) (-2))
  /\ @float_of_str latin_unicode (lit "1e") = Err ValueError
  /\ @float_of_str latin_unicode (lit ".") = Err ValueError
  /\ @float_of_str latin_unicode (lit "1_0") = Ok (f64_of_Z 10).
Proof. vm_compute. repeat split; reflexivity. Qed.
