(* ===== verification/Json.v ===== *)
(** * JSON values

    The persistence files (characters, account data, known entries, action
    bars, builds) are JSON.  What [json.load] returns is a tree; the code
    converts parts of it with [int(...)] and [str(...)].  [json.dump] and
    [json.load] round-trip the trees the server writes, so a file is the tree
    it holds. *)
From S2P Require Import Prelude Wire PyFloat Text.

#[warnings="-register-all"]
Inductive json : Type :=
  | JNull
  | JBool (b : bool)
  | JInt (n : Z)
  | JFloat (x : f64)
  | JStr (s : pystr)
  | JList (l : list json)
  | JDict (d : list (pystr * json)).

Abbreviation jdict := (list (pystr * json)) (only parsing).

(** [bool(v)]. *)
Definition py_truthy (v : json) : bool :=
  match v with
  | JNull => false
  | JBool b => b
  | JInt n => negb (n =? 0)
  | JFloat x => negb (bool_decide (x = SpecFloat.S754_zero true \/ x = SpecFloat.S754_zero false))
  | JStr s => match s with [] => false | _ => true end
  | JList l => match l with [] => false | _ => true end
  | JDict d => match d with [] => false | _ => true end
  end.

Section JsonConv.
Context `{Unicode}.

(** [int(v)]. *)
Definition py_int (v : json) : res Z :=
  match v with
  | JBool b => Ok (if b then 1 else 0)
  | JInt n => Ok n
  | JFloat x => int_of_f64 x
  | JStr s => int_of_str s
  | JNull | JList _ | JDict _ => Err TypeError
  end.

(** [str(v)]; [repr_of] is [repr] of a float or a container. *)
Definition py_str (repr_of : json -> pystr) (v : json) : pystr :=
  match v with
  | JNull => lit "None"
  | JBool true => lit "True"
  | JBool false => lit "False"
  | JInt n => str_of_Z n
  | JStr s => s
  | _ => repr_of v
  end.
End JsonConv.

(** The elements of [for x in v]. *)
Definition py_iter (v : json) : res (list json) :=
  match v with
  | JList l => Ok l
  | JDict d => Ok (map (fun kv => JStr (fst kv)) d)
  | JStr s => Ok (map (fun c => JStr [c]) s)
  | _ => Err TypeError
  end.

(** [v["k"]] and [v.get("k")] on a value that may not be a dictionary: the
    former is a TypeError, the latter an AttributeError. *)
Definition jitem (v : json) (k : pystr) : res json :=
  match v with
  | JDict d => res_of_option KeyError (dget k d)
  | _ => Err TypeError
  end.

Definition jget (v : json) (k : pystr) (dflt : json) : res json :=
  match v with
  | JDict d => Ok (default dflt (dget k d))
  | _ => Err AttributeError
  end.
