(* ===== verification/Consts.v ===== *)
(** * The constants of server/world_server.py

    Opcodes, field indices, aura and spell flags, tuning values and tables, under
    the names the module gives them.  Times in seconds are whole nanoseconds, the
    resolution of [time.monotonic()]; see World.v for the clock. *)
From S2P Require Import Prelude Wire PyFloat.

Definition ARCHIVE_LEVEL : Z := 80.
Definition CMSG_CHAR_CREATE : Z := 0x036.
Definition CMSG_CHAR_ENUM : Z := 0x037.
Definition CMSG_CHAR_DELETE : Z := 0x038.
Definition SMSG_CHAR_CREATE : Z := 0x03A.
Definition SMSG_CHAR_ENUM : Z := 0x03B.
Definition SMSG_CHAR_DELETE : Z := 0x03C.
Definition CMSG_PLAYER_LOGIN : Z := 0x03D.
Definition SMSG_CHARACTER_LOGIN_FAILED : Z := 0x041.
Definition SMSG_LOGIN_SETTIMESPEED : Z := 0x042.
Definition CMSG_LOGOUT_REQUEST : Z := 0x04B.
Definition SMSG_LOGOUT_RESPONSE : Z := 0x04C.
Definition SMSG_LOGOUT_COMPLETE : Z := 0x04D.
Definition CMSG_LOGOUT_CANCEL : Z := 0x04E.
Definition SMSG_LOGOUT_CANCEL_ACK : Z := 0x04F.
Definition CMSG_NAME_QUERY : Z := 0x050.
Definition SMSG_NAME_QUERY_RESPONSE : Z := 0x051.
Definition CMSG_ITEM_QUERY_SINGLE : Z := 0x056.
Definition SMSG_ITEM_QUERY_SINGLE_RESPONSE : Z := 0x058.
Definition CMSG_CREATURE_QUERY : Z := 0x060.
Definition SMSG_CREATURE_QUERY_RESPONSE : Z := 0x061.
Definition CMSG_MESSAGECHAT : Z := 0x095.
Definition SMSG_MESSAGECHAT : Z := 0x096.
Definition SMSG_UPDATE_OBJECT : Z := 0x0A9.
Definition SMSG_DESTROY_OBJECT : Z := 0x0AA.
Definition SMSG_TUTORIAL_FLAGS : Z := 0x0FD.
Definition CMSG_STANDSTATECHANGE : Z := 0x101.
Definition SMSG_STANDSTATE_UPDATE : Z := 0x29D.
Definition SMSG_INITIALIZE_FACTIONS : Z := 0x122.
Definition SMSG_ACTION_BUTTONS : Z := 0x129.
Definition CMSG_SET_ACTION_BUTTON : Z := 0x128.
Definition SMSG_INITIAL_SPELLS : Z := 0x12A.
Definition SMSG_LEARNED_SPELL : Z := 0x12B.
Definition SMSG_SUPERCEDED_SPELL : Z := 0x12C.
Definition CMSG_CAST_SPELL : Z := 0x12E.
Definition CMSG_CANCEL_CAST : Z := 0x12F.
Definition SMSG_CAST_FAILED : Z := 0x130.
Definition SMSG_SPELL_GO : Z := 0x132.
Definition SMSG_SPELLHEALLOG : Z := 0x150.
Definition SMSG_SPELLNONMELEEDAMAGELOG : Z := 0x250.
Definition SMSG_POWER_UPDATE : Z := 0x480.
Definition CMSG_CANCEL_AURA : Z := 0x136.
Definition SMSG_PERIODICAURALOG : Z := 0x24E.
Definition SMSG_AURA_UPDATE_ALL : Z := 0x495.
Definition SMSG_AURA_UPDATE : Z := 0x496.
Definition SMSG_BINDPOINTUPDATE : Z := 0x155.
Definition CMSG_PING : Z := 0x1DC.
Definition SMSG_PONG : Z := 0x1DD.
Definition CMSG_QUERY_TIME : Z := 0x1CE.
Definition SMSG_QUERY_TIME_RESPONSE : Z := 0x1CF.
Definition SMSG_AUTH_CHALLENGE : Z := 0x1EC.
Definition CMSG_AUTH_SESSION : Z := 0x1ED.
Definition SMSG_AUTH_RESPONSE : Z := 0x1EE.
Definition SMSG_COMPRESSED_UPDATE_OBJECT : Z := 0x1F6.
Definition SMSG_REMOVED_SPELL : Z := 0x203.
Definition SMSG_ACCOUNT_DATA_TIMES : Z := 0x209.
Definition CMSG_REQUEST_ACCOUNT_DATA : Z := 0x20A.
Definition CMSG_UPDATE_ACCOUNT_DATA : Z := 0x20B.
Definition SMSG_UPDATE_ACCOUNT_DATA : Z := 0x20C.
Definition SMSG_LOGIN_VERIFY_WORLD : Z := 0x236.
Definition CMSG_SET_ACTIVE_MOVER : Z := 0x26A.
Definition SMSG_ADDON_INFO : Z := 0x2EF.
Definition SMSG_INIT_WORLD_STATES : Z := 0x2C2.
Definition SMSG_MOTD : Z := 0x33D.
Definition SMSG_REALM_SPLIT : Z := 0x38B.
Definition CMSG_REALM_SPLIT : Z := 0x38C.
Definition SMSG_TIME_SYNC_REQ : Z := 0x390.
Definition CMSG_TIME_SYNC_RESP : Z := 0x391.
Definition SMSG_FEATURE_SYSTEM_STATUS : Z := 0x3C9.
Definition SMSG_SEND_UNLEARN_SPELLS : Z := 0x41E.
Definition SMSG_CLIENTCACHE_VERSION : Z := 0x4AB.
Definition CMSG_READY_FOR_ACCOUNT_DATA_TIMES : Z := 0x4FF.
Definition SMSG_UPDATE_ACCOUNT_DATA_COMPLETE : Z := 0x463.
Definition NUM_ACCOUNT_DATA_TYPES : Z := 8.
Definition GLOBAL_CACHE_MASK : Z := 0x15.
Definition PER_CHARACTER_CACHE_MASK : Z := 0xEA.
Definition GLOBAL_BINDINGS_CACHE : Z := 2.
Definition PER_CHARACTER_BINDINGS_CACHE : Z := 3.
Definition ACCOUNT_DATA_NAMES : list pystr :=
  [lit "GLOBAL_CONFIG";
   lit "PER_CHAR_CONFIG";
   lit "GLOBAL_BINDINGS";
   lit "PER_CHAR_BINDINGS";
   lit "GLOBAL_MACROS";
   lit "PER_CHAR_MACROS";
   lit "PER_CHAR_LAYOUT";
   lit "PER_CHAR_CHAT"].
Definition DBC_HEADER : Z := 20.
Definition SPELL_FIELD_ATTRIBUTES : Z := 4.
Definition SPELL_FIELD_NAME : Z := 136.
Definition SPELL_FIELD_RANK : Z := 153.
Definition SPELL_ATTR0_PASSIVE : Z := 0x00000040.
Definition SPELL_FIELD_POWER_TYPE : Z := 41.
Definition SPELL_FIELD_MANA_COST : Z := 42.
Definition SPELL_FIELD_MANA_COST_LVL : Z := 43.
Definition SPELL_FIELD_MANA_PER_SEC : Z := 44.
Definition SPELL_FIELD_EFFECT : Z := 71.
Definition SPELL_FIELD_EFFECT_DIE : Z := 74.
Definition SPELL_FIELD_EFFECT_BASE : Z := 80.
Definition SPELL_FIELD_EFFECT_AURA : Z := 95.
Definition SPELL_FIELD_MANA_COST_PCT : Z := 204.
Definition SPELL_FIELD_DMG_CLASS : Z := 213.
Definition SPELL_FIELD_SCHOOL_MASK : Z := 225.
Definition SPELL_FIELD_MAX : Z := SPELL_FIELD_SCHOOL_MASK.
Definition SPELL_EFFECT_SCHOOL_DAMAGE : Z := 2.
Definition SPELL_EFFECT_APPLY_AURA : Z := 6.
Definition SPELL_EFFECT_HEAL : Z := 10.
Definition SPELL_FIELD_DURATION_INDEX : Z := 40.
Definition SPELL_FIELD_STACK_AMOUNT : Z := 49.
Definition SPELL_FIELD_EFFECT_AMPL : Z := 98.
Definition SPELL_FIELD_ATTR_EX5 : Z := 9.
Definition SPELL_ATTR5_NO_DURATION_DISPLAY : Z := 0x02000000.
Definition AFLAG_EFF_INDEX_0 : Z := 0x01.
Definition AFLAG_EFF_INDEX_1 : Z := 0x02.
Definition AFLAG_EFF_INDEX_2 : Z := 0x04.
Definition AFLAG_CASTER : Z := 0x08.
Definition AFLAG_POSITIVE : Z := 0x10.
Definition AFLAG_DURATION : Z := 0x20.
Definition AFLAG_NEGATIVE : Z := 0x80.
Definition SPELL_AURA_PERIODIC_DAMAGE : Z := 3.
Definition SPELL_AURA_PERIODIC_HEAL : Z := 8.
Definition SPELL_AURA_OBS_MOD_HEALTH : Z := 20.
Definition SPELL_AURA_OBS_MOD_POWER : Z := 21.
Definition SPELL_AURA_PERIODIC_ENERGIZE : Z := 24.
Definition SPELL_AURA_PERIODIC_LEECH : Z := 53.
Definition SPELL_AURA_PERIODIC_MANA_LEECH : Z := 64.
Definition SPELL_AURA_PERIODIC_DAMAGE_PERCENT : Z := 89.
Definition AURA_PERIODIC_HARM : list Z := [SPELL_AURA_PERIODIC_DAMAGE; SPELL_AURA_PERIODIC_LEECH; SPELL_AURA_PERIODIC_DAMAGE_PERCENT].
Definition AURA_PERIODIC_HELP : list Z := [SPELL_AURA_PERIODIC_HEAL; SPELL_AURA_OBS_MOD_HEALTH].
Definition AURA_PERIODIC_POWER : list Z := [SPELL_AURA_PERIODIC_ENERGIZE; SPELL_AURA_OBS_MOD_POWER].
Definition AURA_TYPES_NEGATIVE : list Z :=
  [SPELL_AURA_PERIODIC_DAMAGE; SPELL_AURA_PERIODIC_LEECH; SPELL_AURA_PERIODIC_MANA_LEECH; SPELL_AURA_PERIODIC_DAMAGE_PERCENT; 5; 7; 12; 25; 26; 27; 33].
Definition ARCHIVE_MAX_AURA_SLOTS : Z := 56.
Definition ARCHIVE_AURA_TICK_MIN : Z := 100000000.
Definition ARCHIVE_SESSION_TIMEOUT : Z := 120000000000.
Definition ARCHIVE_POOL_BASE : Z := 60.
Definition ARCHIVE_HEALTH_PER_LEVEL : Z := 180.
Definition ARCHIVE_MANA_PER_LEVEL : Z := 55.
Definition ARCHIVE_FIXED_POWER : Z := 100.
Definition ARCHIVE_REGEN_PCT : f64 := f64_dec 4 (-2).
Definition ARCHIVE_REGEN_INTERVAL : Z := 5000000000.
Definition ARCHIVE_DUMMY_ENTRY : Z := 190000.
Definition ARCHIVE_DUMMY_DISPLAY : Z := 3019.
Definition ARCHIVE_DUMMY_NAME : pystr := lit "Archive Target Dummy".
Definition ARCHIVE_DUMMY_SUBNAME : pystr := lit "Hits it back".
Definition ARCHIVE_DUMMY_FACTION : Z := 14.
Definition ARCHIVE_DUMMY_HEALTH : Z := 200000.
Definition ARCHIVE_DUMMY_LEVEL : Z := 80.
Definition ARCHIVE_DUMMY_RESET : Z := 10000000000.
Definition ARCHIVE_DUMMY_DISTANCE : f64 := f64_dec 0 (-1).
Definition MAX_CREATURE_QUEST_ITEMS : Z := 6.
Definition MAX_ACTION_BUTTONS : Z := 144.
Definition ACTION_BUTTON_SPELL : Z := 0x00.
Definition ACTION_BUTTON_ACTION_MAX : Z := 0x00FFFFFF.
Definition ACTION_BUTTONS_CLEAR : Z := 2.
Definition CAST_FLAG_UNKNOWN_9 : Z := 0x00000100.
Definition TARGET_FLAG_NONE : Z := 0x00000000.
Definition SPELL_FAILED_NOT_KNOWN : Z := 63.
Definition SPELL_FAILED_NO_POWER : Z := 85.
Definition SMSG_REALM_INFO : Z := 0x9BC.
Definition SMSG_UPDATE_CONFIGS : Z := 0x58D.
Definition SMSG_CA_ACTIVE_SPEC : Z := 0x725.
Definition CMSG_BUILD_ACTIVATE : Z := 0x5C2.
Definition CMSG_BUILD_QUERY_CATEGORY : Z := 0x62E.
Definition SMSG_BUILD_CATEGORY_RESULT : Z := 0x62F.
Definition CMSG_BUILD_QUERY : Z := 0x630.
Definition SMSG_BUILD_RESULT : Z := 0x631.
Definition SMSG_BUILD_ACTIVATE_RESULT : Z := 0x5C3.
Definition SMSG_BUILD_ACTIVE_BUILD_UPDATE : Z := 0x632.
Definition ARCHIVE_ACTIVE_SPEC : Z := 0.
Definition SMSG_CA_ESSENCE_BUDGET : Z := 0x722.
Definition SMSG_CA_KNOWN_ENTRIES : Z := 0x726.
Definition CMSG_CA_KNOWN_ENTRIES_UPLOAD : Z := 0x727.
Definition AUTH_OK : Z := 0x0C.
Definition EXPANSION_WOTLK : Z := 2.
Definition CHAR_CREATE_SUCCESS : Z := 0x2F.
Definition CHAR_CREATE_ERROR : Z := 0x30.
Definition CHAR_CREATE_NAME_IN_USE : Z := 0x32.
Definition CHAR_DELETE_SUCCESS : Z := 0x47.
Definition CHAR_DELETE_FAILED : Z := 0x48.
Definition CHAR_LOGIN_FAILED : Z := 0x51.
Definition UPDATETYPE_VALUES : Z := 0.
Definition UPDATETYPE_CREATE_OBJECT : Z := 2.
Definition UPDATETYPE_CREATE_OBJECT2 : Z := 3.
Definition TYPEID_ITEM : Z := 1.
Definition TYPEID_UNIT : Z := 3.
Definition TYPEID_PLAYER : Z := 4.
Definition UPDATEFLAG_SELF : Z := 1.
Definition UPDATEFLAG_LOWGUID : Z := 16.
Definition UPDATEFLAG_LIVING : Z := 32.
Definition UPDATEFLAG_STATIONARY : Z := 64.
Definition TYPEMASK_ITEM : Z := 0x03.
Definition TYPEMASK_UNIT : Z := 0x09.
Definition TYPEMASK_PLAYER : Z := 0x19.
Definition UNIT_END : Z := 148.
Definition PLAYER_END : Z := 1326.
Definition ITEM_END : Z := 64.
Definition OBJECT_FIELD_GUID : Z := 0.
Definition OBJECT_FIELD_TYPE : Z := 2.
Definition OBJECT_FIELD_ENTRY : Z := 3.
Definition OBJECT_FIELD_SCALE_X : Z := 4.
Definition ITEM_FIELD_OWNER : Z := 6.
Definition ITEM_FIELD_CONTAINED : Z := 8.
Definition ITEM_FIELD_CREATOR : Z := 10.
Definition ITEM_FIELD_STACK_COUNT : Z := 14.
Definition ITEM_FIELD_FLAGS : Z := 21.
Definition ITEM_FIELD_DURABILITY : Z := 60.
Definition ITEM_FIELD_MAXDURABILITY : Z := 61.
Definition UNIT_FIELD_FACTIONTEMPLATE : Z := 55.
Definition UNIT_FIELD_FLAGS : Z := 59.
Definition UNIT_FIELD_DISPLAYID : Z := 67.
Definition UNIT_FIELD_NATIVEDISPLAYID : Z := 68.
Definition UNIT_FIELD_BOUNDINGRADIUS : Z := 65.
Definition UNIT_FIELD_COMBATREACH : Z := 66.
Definition UNIT_FIELD_BASEATTACKTIME : Z := 62.
Definition UNIT_DYNAMIC_FLAGS : Z := 79.
Definition UNIT_NPC_FLAGS : Z := 82.
Definition UNIT_FIELD_BASE_MANA : Z := 120.
Definition UNIT_FIELD_BASE_HEALTH : Z := 121.
Definition PLAYER_FLAGS : Z := 150.
Definition PLAYER_FIELD_PACK_SLOT_1 : Z := 370.
Definition REST_STATE_NORMAL : Z := 2.
Definition UNIT_FIELD_BYTES_1 : Z := 74.
Definition STAND_STATE_STAND : Z := 0.
Definition PLAYER_FLAGS_GM : Z := 0x00000008.
Definition HIGHGUID_ITEM : Z := Z.shiftl 0x4000  48.
Definition HIGHGUID_UNIT : Z := Z.shiftl 0xF130  48.
Definition ITEM_ABILITY_ESSENCE : Z := 383080.
Definition ITEM_TALENT_ESSENCE : Z := 383081.
Definition ESSENCE_DBC_KEY : Z := 10.
Definition ESSPROBE_ID_BASE : Z := 20000.
Definition ARCHIVE_GM_LEVEL : Z := 3.
Definition CHAT_MSG_SYSTEM : Z := 0x00.
Definition CHAT_MSG_WHISPER : Z := 0x07.
Definition LANG_UNIVERSAL : Z := 0.
Definition LANG_ADDON : Z := 0xFFFFFFFF.
Definition UNIT_FIELD_LEVEL : Z := 54.
Definition UNIT_FIELD_BYTES_0 : Z := 23.
Definition OPNAME : list (Z * pystr) :=
  [(0x36, lit "CMSG_CHAR_CREATE");
   (0x37, lit "CMSG_CHAR_ENUM");
   (0x38, lit "CMSG_CHAR_DELETE");
   (0x3a, lit "SMSG_CHAR_CREATE");
   (0x3b, lit "SMSG_CHAR_ENUM");
   (0x3c, lit "SMSG_CHAR_DELETE");
   (0x3d, lit "CMSG_PLAYER_LOGIN");
   (0x41, lit "SMSG_CHARACTER_LOGIN_FAILED");
   (0x42, lit "SMSG_LOGIN_SETTIMESPEED");
   (0x50, lit "CMSG_NAME_QUERY");
   (0x51, lit "SMSG_NAME_QUERY_RESPONSE");
   (0xa9, lit "SMSG_UPDATE_OBJECT");
   (0x95, lit "CMSG_MESSAGECHAT");
   (0xfd, lit "SMSG_TUTORIAL_FLAGS");
   (0x101, lit "CMSG_STANDSTATECHANGE");
   (0x29d, lit "SMSG_STANDSTATE_UPDATE");
   (0x122, lit "SMSG_INITIALIZE_FACTIONS");
   (0x129, lit "SMSG_ACTION_BUTTONS");
   (0x128, lit "CMSG_SET_ACTION_BUTTON");
   (0x12a, lit "SMSG_INITIAL_SPELLS");
   (0x12b, lit "SMSG_LEARNED_SPELL");
   (0x12c, lit "SMSG_SUPERCEDED_SPELL");
   (0x12e, lit "CMSG_CAST_SPELL");
   (0x12f, lit "CMSG_CANCEL_CAST");
   (0x130, lit "SMSG_CAST_FAILED");
   (0x132, lit "SMSG_SPELL_GO");
   (0x480, lit "SMSG_POWER_UPDATE");
   (0x150, lit "SMSG_SPELLHEALLOG");
   (0x250, lit "SMSG_SPELLNONMELEEDAMAGELOG");
   (0x136, lit "CMSG_CANCEL_AURA");
   (0x24e, lit "SMSG_PERIODICAURALOG");
   (0x495, lit "SMSG_AURA_UPDATE_ALL");
   (0x496, lit "SMSG_AURA_UPDATE");
   (0x60, lit "CMSG_CREATURE_QUERY");
   (0x61, lit "SMSG_CREATURE_QUERY_RESPONSE");
   (0xaa, lit "SMSG_DESTROY_OBJECT");
   (0x203, lit "SMSG_REMOVED_SPELL");
   (0x155, lit "SMSG_BINDPOINTUPDATE");
   (0x1ce, lit "CMSG_QUERY_TIME");
   (0x1cf, lit "SMSG_QUERY_TIME_RESPONSE");
   (0x1dc, lit "CMSG_PING");
   (0x1dd, lit "SMSG_PONG");
   (0x1ec, lit "SMSG_AUTH_CHALLENGE");
   (0x1ed, lit "CMSG_AUTH_SESSION");
   (0x1ee, lit "SMSG_AUTH_RESPONSE");
   (0x1f6, lit "SMSG_COMPRESSED_UPDATE_OBJECT");
   (0x4b, lit "CMSG_LOGOUT_REQUEST");
   (0x4c, lit "SMSG_LOGOUT_RESPONSE");
   (0x4d, lit "SMSG_LOGOUT_COMPLETE");
   (0x4e, lit "CMSG_LOGOUT_CANCEL");
   (0x4f, lit "SMSG_LOGOUT_CANCEL_ACK");
   (0x209, lit "SMSG_ACCOUNT_DATA_TIMES");
   (0x20a, lit "CMSG_REQUEST_ACCOUNT_DATA");
   (0x20b, lit "CMSG_UPDATE_ACCOUNT_DATA");
   (0x20c, lit "SMSG_UPDATE_ACCOUNT_DATA");
   (0x463, lit "SMSG_UPDATE_ACCOUNT_DATA_COMPLETE");
   (0x236, lit "SMSG_LOGIN_VERIFY_WORLD");
   (0x26a, lit "CMSG_SET_ACTIVE_MOVER");
   (0x2ef, lit "SMSG_ADDON_INFO");
   (0x2c2, lit "SMSG_INIT_WORLD_STATES");
   (0x33d, lit "SMSG_MOTD");
   (0x38b, lit "SMSG_REALM_SPLIT");
   (0x38c, lit "CMSG_REALM_SPLIT");
   (0x390, lit "SMSG_TIME_SYNC_REQ");
   (0x391, lit "CMSG_TIME_SYNC_RESP");
   (0x3c9, lit "SMSG_FEATURE_SYSTEM_STATUS");
   (0x41e, lit "SMSG_SEND_UNLEARN_SPELLS");
   (0x4ab, lit "SMSG_CLIENTCACHE_VERSION");
   (0x4ff, lit "CMSG_READY_FOR_ACCOUNT_DATA_TIMES");
   (0x58d, lit "SMSG_UPDATE_CONFIGS");
   (0x9bc, lit "SMSG_REALM_INFO");
   (0x725, lit "SMSG_CA_ACTIVE_SPEC");
   (0x726, lit "SMSG_CA_KNOWN_ENTRIES");
   (0x727, lit "CMSG_CA_KNOWN_ENTRIES(upload)");
   (0x5c2, lit "CMSG_BUILD_ACTIVATE");
   (0x5c3, lit "SMSG_BUILD_ACTIVATE_RESULT");
   (0x632, lit "SMSG_BUILD_ACTIVE_BUILD_UPDATE")].
Definition SERVER_ENC_SEED : bytes :=
  [0xcc; 0x98; 0xae; 0x04; 0xe8; 0x97; 0xea; 0xca; 0x12; 0xdd; 0xc0; 0x93; 0x42; 0x91; 0x53; 0x57].
Definition SERVER_DEC_SEED : bytes :=
  [0xc2; 0xb3; 0x72; 0x3c; 0xc6; 0xae; 0xd9; 0xb5; 0x34; 0x3c; 0x53; 0xee; 0x2f; 0x43; 0x67; 0xce].
Definition AUTH_SEED : bytes :=
  [0x11; 0x22; 0x33; 0x44].
Definition WORLD_KEY_OFFSET : Z := 0x140.
Definition WORLD_KEY_LEN : Z := 40.
Definition STANDARD_ADDON_CRC : Z := 0x4C1C776D.
Definition MAX_ACCOUNT_TUTORIAL_VALUES : Z := 8.
Definition ADDON_PUBKEY : bytes :=
  [0xc3; 0x5b; 0x50; 0x84; 0xb9; 0x3e; 0x32; 0x42; 0x8c; 0xd0; 0xc7; 0x48; 0xfa; 0x0e; 0x5d; 0x54;
   0x5a; 0xa3; 0x0e; 0x14; 0xba; 0x9e; 0x0d; 0xb9; 0x5d; 0x8b; 0xee; 0xb6; 0x84; 0x93; 0x45; 0x75;
   0xff; 0x31; 0xfe; 0x2f; 0x64; 0x3f; 0x3d; 0x6d; 0x07; 0xd9; 0x44; 0x9b; 0x40; 0x85; 0x59; 0x34;
   0x4e; 0x10; 0xe1; 0xe7; 0x43; 0x69; 0xef; 0x7c; 0x16; 0xfc; 0xb4; 0xed; 0x1b; 0x95; 0x28; 0xa8;
   0x23; 0x76; 0x51; 0x31; 0x57; 0x30; 0x2b; 0x79; 0x08; 0x50; 0x10; 0x1c; 0x4a; 0x1a; 0x2c; 0xc8;
   0x8b; 0x8f; 0x05; 0x2d; 0x22; 0x3d; 0xdb; 0x5a; 0x24; 0x7a; 0x0f; 0x13; 0x50; 0x37; 0x8f; 0x5a;
   0xcc; 0x9e; 0x04; 0x44; 0x0e; 0x87; 0x01; 0xd4; 0xa3; 0x15; 0x94; 0x16; 0x34; 0xc6; 0xc2; 0xc3;
   0xfb; 0x49; 0xfe; 0xe1; 0xf9; 0xda; 0x8c; 0x50; 0x3c; 0xbe; 0x2c; 0xbb; 0x57; 0xed; 0x46; 0xb9;
   0xad; 0x8b; 0xc6; 0xdf; 0x0e; 0xd6; 0x0f; 0xbe; 0x80; 0xb3; 0x8b; 0x1e; 0x77; 0xcf; 0xad; 0x22;
   0xcf; 0xb7; 0x4b; 0xcf; 0xfb; 0xf0; 0x6b; 0x11; 0x45; 0x2d; 0x7a; 0x81; 0x18; 0xf2; 0x92; 0x7e;
   0x98; 0x56; 0x5d; 0x5e; 0x69; 0x72; 0x0a; 0x0d; 0x03; 0x0a; 0x85; 0xa2; 0x85; 0x9c; 0xcb; 0xfb;
   0x56; 0x6e; 0x8f; 0x44; 0xbb; 0x8f; 0x02; 0x22; 0x68; 0x63; 0x97; 0xbc; 0x85; 0xba; 0xa8; 0xf7;
   0xb5; 0x40; 0x68; 0x3c; 0x77; 0x86; 0x6f; 0x4b; 0xd7; 0x88; 0xca; 0x8a; 0xd7; 0xce; 0x36; 0xf0;
   0x45; 0x6e; 0xd5; 0x64; 0x79; 0x0f; 0x17; 0xfc; 0x64; 0xdd; 0x10; 0x6f; 0xf3; 0xf5; 0xe0; 0xa6;
   0xc3; 0xfb; 0x1b; 0x8c; 0x29; 0xef; 0x8e; 0xe5; 0x34; 0xcb; 0xd1; 0x2a; 0xce; 0x79; 0xc3; 0x9a;
   0x0d; 0x36; 0xea; 0x01; 0xe0; 0xaa; 0x91; 0x20; 0x54; 0xf0; 0x72; 0xd8; 0x1e; 0xc7; 0x89; 0xd2].
Definition ARCHIVE_REALM_NAME : pystr := lit "Area 52 - Free-Pick".
Definition REALM_FLAVOUR_LIVE : list Z := [1; 0; 0; 0; 0; 0; 0; 0].
Definition REALM_FLAVOUR_COA : list Z := [1; 0; 0; 0; 0; 0; 1; 0].
Definition REALM_FLAVOUR_WCR : list Z := [1; 0; 0; 0; 0; 0; 0; 1].
Definition REALM_FLAVOUR_DEV : list Z := [1; 0; 0; 0; 1; 0; 0; 0].
Definition BUILD_CATEGORY_IDS : list (pystr * Z) :=
  [(lit "None", 0);
   (lit "Leveling", 1);
   (lit "Level60PvE", 2);
   (lit "Level60PvP", 3);
   (lit "Level60PvPvE", 4);
   (lit "Level70PvE", 5);
   (lit "Level70PvP", 6);
   (lit "Level70PvPvE", 7);
   (lit "BuildDraft", 8);
   (lit "Archived", 9);
   (lit "BuildDraftEndGamePvE", 10);
   (lit "BuildDraftEndGamePvP", 11);
   (lit "Broken", 12);
   (lit "Max", 13)].
Definition BUILD_DEFAULT_ICON : pystr := lit "INV_Misc_QuestionMark".
Definition BUILD_DEFAULT_ROLE : Z := 8.
Definition BUILD_CLASS_HERO : Z := 10.
Definition CLASS_TYPE_NAME : Z := 1.
Definition CLASS_TYPE_REQUIRED : Z := 2.
Definition CLASS_TYPE_CLASSIC : Z := 3.
Definition CLASS_TYPE_CUSTOM : Z := 4.
Definition CLASS_TYPE_REBORN : Z := 5.
Definition CLASS_TYPE_DISPLAY : Z := 6.
Definition CHRCLASS_FIELD_NAME : Z := 4.
Definition CHRCLASS_FIELD_TOKEN : Z := 55.
Definition KNOWN_UNKNOWN_FIELDS : list Z := [0; 0; 0; 0].
Definition _BARS_LAST_FLUSH : Z := 0.
Definition BARS_FLUSH_INTERVAL : Z := 250000000.
Definition AB_BURST_GAP : Z := 2000000000.
Definition UNIT_FIELD_HEALTH : Z := 24.
Definition UNIT_FIELD_POWER1 : Z := 25.
Definition UNIT_FIELD_MAXHEALTH : Z := 32.
Definition UNIT_FIELD_MAXPOWER1 : Z := 33.
Definition COMMAND_HELP : list pystr :=
  [lit "Archive commands (this is not AzerothCore -- only these exist):";
   lit "  .help                      this list";
   lit "  .info                      character / archive state";
   lit "  .essence <n>               override BOTH essence budgets with n";
   lit "  .essence ability|talent <n>  override one budget";
   lit "  .essence reset             back to Ascension's own per-level curve";
   lit "  .essprobe [level]          diagnostic: which essence (key,flags) family matches";
   lit "  .level <n>                 set character level (1-80), persisted";
   lit "  .bars                      show the saved action-bar layout";
   lit "  .bars auto|clear           refill it from castable spells, or empty it";
   lit "  .bars set <slot> <spell>   bind one wire slot 0..11 (= keys 1..=) by hand";
   lit "  .power [n|max]             show or set current power; .health does health";
   lit "  .cost <spellId>            what that spell costs and what it does";
   lit "  .dummy [remove]            spawn a target dummy in front of you, or clear";
   lit "  .aura                      list active auras and their remaining time";
   lit "  .aura clear                strip every aura, on you and on the dummies";
   lit "  .class                     which CoA class this character is";
   lit "  .class <name|byte> [keep]  become that class, persisted; keep = do not";
   lit "                             drop known entries the new class cannot learn";
   lit "  .class list [group]        every CoA class and its class byte";
   lit "  .known                     list learned CA entries";
   lit "  .known add <id> [rank]     learn one entry by CharacterAdvancement.dbc ID";
   lit "  .known remove <id>         forget one entry";
   lit "  .known class <Class> [Tab]  learn a whole class (or one tab of it)";
   lit "  .known clear               forget everything";
   lit "  .build                     list stored builds";
   lit "  .build save <id> [name]    record the current .known set as build <id>";
   lit "  .build apply <id>          activate a stored build now";
   lit "  .build forget <id>         delete a stored build"].
Definition ARCHIVE_NEW_CHAR_LEVEL : Z := 1.

(** [CHALLENGE_TAIL = bytes(32)]. *)
Definition CHALLENGE_TAIL : bytes := replicate 32 0.

