(* ===== verification/Rc4.v ===== *)
(** * The header cipher of server/world_server.py

    [RC4] with its running state.  The theorems: the state table stays a
    permutation, encrypting a stream in pieces is encrypting it whole, and two
    ciphers in the same state undo each other. *)
From S2P Require Import Prelude Wire PyFloat Consts.

(** The attributes of an [RC4] object: the table [S] and the two indices. *)
Record rc4 := Rc4 { rc4_S : list Z; rc4_i : Z; rc4_j : Z }.

Definition tbl_get (S : list Z) (i : Z) : Z := default 0 (S !! Z.to_nat i).

(** [S[i], S[j] = S[j], S[i]]. *)
Definition swap (S : list Z) (i j : Z) : list Z :=
  let a := tbl_get S i in
  let b := tbl_get S j in
  <[Z.to_nat j := a]> (<[Z.to_nat i := b]> S).

(** [RC4.__init__]: an empty key raises [ZeroDivisionError] in Python; the
    server's keys are 20-byte digests, and [rc4_init] is only used on a
    non-empty key. *)
Definition rc4_init (key : bytes) : rc4 :=
  let '(Sb, _) :=
    fold_left
      (fun '(Sb, j) i =>
         let k := tbl_get key (i mod pylen key) in
         let j := Z.land (j + tbl_get Sb i + k) 0xFF in
         (swap Sb i j, j))
      (seqZ_from 256) (seqZ_from 256, 0) in
  Rc4 Sb 0 0.

Definition rc4_step (st : rc4) (b : Z) : rc4 * Z :=
  let i := Z.land (rc4_i st + 1) 0xFF in
  let j := Z.land (rc4_j st + tbl_get (rc4_S st) i) 0xFF in
  let S := swap (rc4_S st) i j in
  (Rc4 S i j, Z.lxor b (tbl_get S (Z.land (tbl_get S i + tbl_get S j) 0xFF))).

(** [RC4.crypt]: the new state and the output. *)
Fixpoint crypt (st : rc4) (data : bytes) : rc4 * bytes :=
  match data with
  | [] => (st, [])
  | b :: data =>
      let '(st1, o) := rc4_step st b in
      let '(st2, os) := crypt st1 data in
      (st2, o :: os)
  end.

#[global] Arguments rc4_step : simpl never.

Section MakeCrypt.
(** [hmac.new(seed, key, sha1).digest()]: the 20 bytes of HMAC-SHA1. *)
Context (hmac_sha1 : bytes -> bytes -> bytes).

(** [make_crypt]: both streams drop their first 1024 bytes. *)
Definition make_crypt (session_key40 : bytes) : rc4 * rc4 :=
  let enc := rc4_init (hmac_sha1 SERVER_ENC_SEED session_key40) in
  let dec := rc4_init (hmac_sha1 SERVER_DEC_SEED session_key40) in
  (fst (crypt enc (replicate 1024 0)), fst (crypt dec (replicate 1024 0))).
End MakeCrypt.

(** ** Well-formed states *)

(** The table is a permutation of 0..255 and both indices are in range. *)
Definition rc4_ok (st : rc4) : Prop :=
  rc4_S st ≡ₚ seqZ_from 256 /\ 0 <= rc4_i st < 256 /\ 0 <= rc4_j st < 256.

Lemma land_ff_range v : 0 <= Z.land v 0xFF < 256.
Proof. rewrite land_ones8. apply Z.mod_pos_bound. lia. Qed.

Lemma length_swap S i j : length (swap S i j) = length S.
Proof. unfold swap. by rewrite !length_insert. Qed.

(** Exchanging two entries is a permutation. *)
Lemma swap_perm S i j :
  0 <= i < pylen S -> 0 <= j < pylen S -> swap S i j ≡ₚ S.
Proof.
  intros Hi Hj. unfold pylen in *.
  destruct (lookup_lt_is_Some_2 S (Z.to_nat i)) as [a Ha]; [lia|].
  destruct (lookup_lt_is_Some_2 S (Z.to_nat j)) as [b Hb]; [lia|].
  unfold swap, tbl_get. rewrite Ha, Hb. cbn.
  by apply Permutation_insert_swap.
Qed.

Lemma rc4_ok_len st : rc4_ok st -> pylen (rc4_S st) = 256.
Proof. intros [H _]. unfold pylen. by rewrite H. Qed.

Lemma rc4_step_ok st b : rc4_ok st -> rc4_ok (fst (rc4_step st b)).
Proof.
  intros H. pose proof (rc4_ok_len st H) as Hl. destruct H as [Hp _].
  unfold rc4_step. cbn. split; [|split; apply land_ff_range]. cbn [rc4_S].
  rewrite swap_perm; [done| |]; rewrite Hl; apply land_ff_range.
Qed.

Lemma crypt_ok st data : rc4_ok st -> rc4_ok (fst (crypt st data)).
Proof.
  revert st; induction data as [|b data IH]; intros st H; cbn; [done|].
  pose proof (rc4_step_ok st b H) as H1. destruct (rc4_step st b) as [st1 o].
  specialize (IH st1 H1). destruct (crypt st1 data). exact IH.
Qed.

Lemma rc4_init_ok key : rc4_ok (rc4_init key).
Proof.
  assert (forall idx S j, S ≡ₚ seqZ_from 256 -> 0 <= j < 256 ->
    Forall (fun i => 0 <= i < 256) idx ->
    fst (fold_left
      (fun '(Sb, j) i =>
         let k := tbl_get key (i mod pylen key) in
         let j := Z.land (j + tbl_get Sb i + k) 0xFF in
         (swap Sb i j, j)) idx (S, j)) ≡ₚ seqZ_from 256) as Hgo.
  { induction idx as [|i idx IH]; intros S j HS Hj Hidx; cbn; [done|].
    inversion_clear Hidx. apply IH; [|apply land_ff_range|done].
    assert (pylen S = 256) as Hl by (unfold pylen; by rewrite HS).
    rewrite swap_perm; [done|lia|]. rewrite Hl. apply land_ff_range. }
  unfold rc4_init.
  specialize (Hgo (seqZ_from 256) (seqZ_from 256) 0).
  destruct (fold_left _ _ _) as [Sb j]. split; [|cbn; lia].
  apply Hgo; [done|lia|]. apply Forall_forall. intros x. apply elem_of_seqZ_from.
Qed.

(** ** The stream *)

(** The state after a step does not depend on the data. *)
Lemma rc4_step_state st b b' : fst (rc4_step st b) = fst (rc4_step st b').
Proof. done. Qed.

Lemma crypt_state st d d' : length d = length d' -> fst (crypt st d) = fst (crypt st d').
Proof.
  revert st d'; induction d as [|b d IH]; intros st [|b' d'] Hl; cbn in *; try lia; [done|].
  pose proof (rc4_step_state st b b') as Hs.
  destruct (rc4_step st b) as [s1 o], (rc4_step st b') as [s1' o']. cbn in Hs. subst s1'.
  specialize (IH s1 d' ltac:(lia)).
  destruct (crypt s1 d), (crypt s1 d'). by cbn in *.
Qed.

Lemma length_crypt st d : length (snd (crypt st d)) = length d.
Proof.
  revert st; induction d as [|b d IH]; intros st; cbn; [done|].
  destruct (rc4_step st b) as [s1 o]. specialize (IH s1).
  destruct (crypt s1 d). cbn in *. lia.
Qed.

(** Encrypting a stream piece by piece is encrypting it at once. *)
Lemma crypt_app st a b :
  crypt st (a ++ b)
  = let '(s1, oa) := crypt st a in let '(s2, ob) := crypt s1 b in (s2, oa ++ ob).
Proof.
  revert st; induction a as [|x a IH]; intros st; cbn.
  - by destruct (crypt st b).
  - destruct (rc4_step st x) as [s1 o]. rewrite IH.
    destruct (crypt s1 a) as [s2 oa]. by destruct (crypt s2 b).
Qed.

Lemma crypt_involutive st d : snd (crypt st (snd (crypt st d))) = d.
Proof.
  revert st; induction d as [|b d IH]; intros st; cbn; [done|].
  destruct (rc4_step st b) as [s1 o] eqn:E.
  specialize (IH s1). destruct (crypt s1 d) as [s2 os] eqn:E2. cbn in *.
  pose proof (rc4_step_state st o b) as Hs. rewrite E in Hs.
  destruct (rc4_step st o) as [s1' o'] eqn:E3. cbn in Hs. subst s1'.
  destruct (crypt s1 os) as [s3 os'] eqn:E4. cbn in *. subst os'. f_equal.
  unfold rc4_step in E, E3. simplify_eq.
  by rewrite Z.lxor_assoc, Z.lxor_nilpotent, Z.lxor_0_r.
Qed.

Lemma is_byte_lxor a b : is_byte a -> is_byte b -> is_byte (Z.lxor a b).
Proof.
  unfold is_byte. intros Ha Hb.
  assert (0 <= Z.lxor a b) as H0 by (apply Z.lxor_nonneg; lia). split; [done|].
  destruct (Z.eq_dec (Z.lxor a b) 0) as [->|Hne]; [lia|].
  change 256 with (2 ^ 8). apply Z.log2_lt_pow2; [lia|].
  eapply Z.le_lt_trans; [apply Z.log2_lxor; lia|].
  assert (Hl : forall x, 0 <= x < 256 -> Z.log2 x < 8).
  { intros x Hx. destruct (Z.eq_dec x 0) as [->|]; [done|].
    apply Z.log2_lt_pow2; [lia|]. change (2 ^ 8) with 256. lia. }
  apply Z.max_lub_lt; by apply Hl.
Qed.

Lemma tbl_get_byte st i : rc4_ok st -> is_byte (tbl_get (rc4_S st) i).
Proof.
  intros [Hp _]. unfold tbl_get. destruct (rc4_S st !! Z.to_nat i) as [v|] eqn:E; cbn.
  - apply elem_of_seqZ_from. rewrite <- Hp. by eapply list_elem_of_lookup_2.
  - unfold is_byte. lia.
Qed.

Lemma is_bytes_crypt st d : rc4_ok st -> is_bytes d -> is_bytes (snd (crypt st d)).
Proof.
  revert st; induction d as [|b d IH]; intros st Hst Hd; cbn; [done|].
  inversion_clear Hd as [|? ? Hb Hd'].
  pose proof (rc4_step_ok st b Hst) as H1. destruct (rc4_step st b) as [s1 o] eqn:E.
  specialize (IH s1 H1 Hd'). destruct (crypt s1 d) as [s2 os]. cbn in *.
  constructor; [|done]. unfold rc4_step in E. simplify_eq.
  apply is_byte_lxor; [done|]. apply (tbl_get_byte (Rc4 _ _ _) _ H1).
Qed.

(** The published test vector for the key ["Key"]. *)
Example rc4_vector :
  snd (crypt (rc4_init (lit "Key")) (lit "Plaintext"))
  = [0xBB; 0xF3; 0x16; 0xE8; 0xD9; 0x40; 0xAF; 0x0A; 0xD3].
Proof. vm_compute. reflexivity. Qed.
