(* ===== verification/Framing.v ===== *)
(** * Packet framing and the session's opening (server/world_server.py)

    The server-to-client frame ([frame_pkt], [send_batch]), the reader loops
    ([recv_exact], [_recv]) over a socket that delivers chunks, the test that
    recognises a plaintext header ([plausible]) and the parser of
    CMSG_AUTH_SESSION.  The specification of a frame is the client's reader,
    [client_read], which decrypts as it goes. *)
From S2P Require Import Prelude Wire PyFloat Consts Rc4.

(** ** Framing *)

(** [build_challenge]: size is big-endian, the opcode little-endian. *)
Definition build_challenge : bytes :=
  let body := le 4 1 ++ AUTH_SEED ++ CHALLENGE_TAIL in
  let size := 2 + pylen body in
  rev (le 2 size) ++ le 2 SMSG_AUTH_CHALLENGE ++ body.

(** The header before encryption: five bytes when the size needs more than 15
    bits, four otherwise. *)
Definition frame_header (opcode size : Z) : bytes :=
  if size >? 0x7FFF then
    [Z.lor 0x80 (Z.land (Z.shiftr size 16) 0xFF); Z.land (Z.shiftr size 8) 0xFF;
     Z.land size 0xFF; Z.land opcode 0xFF; Z.land (Z.shiftr opcode 8) 0xFF]
  else
    [Z.land (Z.shiftr size 8) 0xFF; Z.land size 0xFF;
     Z.land opcode 0xFF; Z.land (Z.shiftr opcode 8) 0xFF].

(** [enc.crypt(hdr)] when [enc] is not [None]. *)
Definition crypt_opt (enc : option rc4) (b : bytes) : option rc4 * bytes :=
  match enc with
  | None => (None, b)
  | Some st => let '(st', o) := crypt st b in (Some st', o)
  end.

(** [frame_pkt]: the cipher object is advanced in place, so the new state is
    part of the result. *)
Definition frame_pkt (enc : option rc4) (opcode : Z) (body : bytes)
    : option rc4 * bytes :=
  let size := pylen body + 2 in
  let '(enc', hdr) := crypt_opt enc (frame_header opcode size) in
  (enc', hdr ++ body).

Definition packet : Type := Z * bytes.

(** [send_pkt] for a run of packets: one write per packet. *)
Fixpoint send_each (enc : option rc4) (pkts : list packet)
    : option rc4 * list bytes :=
  match pkts with
  | [] => (enc, [])
  | (opc, body) :: pkts =>
      let '(enc1, b) := frame_pkt enc opc body in
      let '(enc2, bs) := send_each enc1 pkts in
      (enc2, b :: bs)
  end.

(** [send_batch]: the writes made on the socket and the number of packets. *)
Definition send_batch (enc : option rc4) (pkts : list packet)
    : option rc4 * list bytes * Z :=
  match pkts with
  | [] => (enc, [], 0)
  | _ =>
      let '(enc', buf) :=
        fold_left (fun '(e, acc) '(opc, body) =>
                     let '(e', b) := frame_pkt e opc body in (e', acc ++ b))
                  pkts (enc, []) in
      (enc', [buf], pylen pkts)
  end.

(** The client's reader: decrypt one byte, learn the header's length from its
    top bit, decrypt the rest, then take the body in the clear. *)
Definition client_read (dec : option rc4) (b : bytes)
    : option (option rc4 * packet * bytes) :=
  match b with
  | [] => None
  | b0 :: b =>
      let '(dec1, h0) := crypt_opt dec [b0] in
      let top := nth 0 h0 0 in
      let n := if Z.testbit top 7 then 4%nat else 3%nat in
      if (length b <? n)%nat then None
      else
        let '(dec2, h) := crypt_opt dec1 (take n b) in
        let size :=
          if Z.testbit top 7
          then Z.shiftl (Z.land top 0x7F) 16 + Z.shiftl (nth 0 h 0) 8 + nth 1 h 0
          else Z.shiftl top 8 + nth 0 h 0 in
        let k := if Z.testbit top 7 then 2%nat else 1%nat in
        let opcode := nth k h 0 + Z.shiftl (nth (S k) h 0) 8 in
        let rest := drop n b in
        if pylen rest <? size - 2 then None
        else Some (dec2, (opcode, take (Z.to_nat (size - 2)) rest),
                   drop (Z.to_nat (size - 2)) rest)
  end.

Fixpoint client_read_all (n : nat) (dec : option rc4) (b : bytes)
    : option (list packet * bytes) :=
  match n with
  | O => Some ([], b)
  | S n =>
      match client_read dec b with
      | None => None
      | Some (dec', p, rest) =>
          match client_read_all n dec' rest with
          | None => None
          | Some (ps, rest) => Some (p :: ps, rest)
          end
      end
  end.

(** A packet the frame can carry: a 16-bit opcode and a 23-bit size. *)
Definition frameable (p : packet) : Prop :=
  0 <= fst p < 2 ^ 16 /\ pylen (snd p) + 2 < 2 ^ 23.

Lemma crypt_opt_app enc a b :
  crypt_opt enc (a ++ b)
  = let '(e1, oa) := crypt_opt enc a in
    let '(e2, ob) := crypt_opt e1 b in (e2, oa ++ ob).
Proof.
  destruct enc as [st|]; cbn; [|done]. rewrite crypt_app.
  destruct (crypt st a) as [s1 oa]. cbn. by destruct (crypt s1 b).
Qed.

Lemma crypt_opt_back enc d :
  crypt_opt enc (snd (crypt_opt enc d)) = (fst (crypt_opt enc d), d).
Proof.
  destruct enc as [st|]; cbn; [|done].
  pose proof (crypt_involutive st d) as Hi.
  pose proof (crypt_state st (snd (crypt st d)) d (length_crypt st d)) as Hs.
  destruct (crypt st d) as [s1 o]. cbn in *.
  destruct (crypt st o) as [s2 o2]. cbn in *. by subst.
Qed.

Lemma length_crypt_opt enc d : length (snd (crypt_opt enc d)) = length d.
Proof.
  destruct enc as [st|]; cbn; [|done].
  pose proof (length_crypt st d). by destruct (crypt st d).
Qed.

(** Decrypting a ciphertext in two pieces gives the two pieces of the plain
    text and the encryptor's own states. *)
Lemma crypt_opt_split enc a b :
  let '(e1, oa) := crypt_opt enc a in
  let '(e2, ob) := crypt_opt e1 b in
  crypt_opt enc (a ++ b) = (e2, oa ++ ob)
  /\ crypt_opt enc oa = (e1, a) /\ crypt_opt e1 ob = (e2, b)
  /\ length oa = length a /\ length ob = length b.
Proof.
  rewrite crypt_opt_app.
  pose proof (crypt_opt_back enc a) as Ha. pose proof (length_crypt_opt enc a) as La.
  destruct (crypt_opt enc a) as [e1 oa]. cbn in Ha, La.
  pose proof (crypt_opt_back e1 b) as Hb. pose proof (length_crypt_opt e1 b) as Lb.
  destruct (crypt_opt e1 b) as [e2 ob]. cbn in Hb, Lb. done.
Qed.

Lemma top_bit_long x :
  0 <= x < 128 -> Z.testbit (Z.lor 0x80 x) 7 = true /\ Z.land (Z.lor 0x80 x) 0x7F = x.
Proof.
  intros H. apply (finite_forall (fun x =>
    Z.testbit (Z.lor 0x80 x) 7 && (Z.land (Z.lor 0x80 x) 0x7F =? x)) 128) in H;
    [|vm_compute; reflexivity].
  by zbool.
Qed.

Lemma top_bit_short x : 0 <= x < 128 -> Z.testbit x 7 = false.
Proof.
  intros H. apply (finite_forall (fun x => negb (Z.testbit x 7)) 128) in H;
    [|vm_compute; reflexivity].
  by zbool.
Qed.

Lemma two_bytes v : 0 <= v < 2 ^ 16 ->
  Z.land v 0xFF + Z.shiftl (Z.land (Z.shiftr v 8) 0xFF) 8 = v.
Proof.
  intros H. rewrite !land_ones8, Z.shiftr_div_pow2, Z.shiftl_mul_pow2 by lia.
  change (2 ^ 8) with 256.
  rewrite (Z.mod_small (v / 256))
    by (split; [apply Z.div_pos | apply Z.div_lt_upper_bound]; lia).
  pose proof (Z.div_mod v 256). lia.
Qed.

(** What the client's reader computes from a decrypted header. *)
Lemma frame_header_cases opcode size :
  0 <= opcode < 2 ^ 16 -> 2 <= size < 2 ^ 23 ->
  exists top h, frame_header opcode size = top :: h
    /\ length h = (if Z.testbit top 7 then 4%nat else 3%nat)
    /\ (if Z.testbit top 7
        then Z.shiftl (Z.land top 0x7F) 16 + Z.shiftl (nth 0 h 0) 8 + nth 1 h 0
        else Z.shiftl top 8 + nth 0 h 0) = size
    /\ (let k := if Z.testbit top 7 then 2%nat else 1%nat in
        nth k h 0 + Z.shiftl (nth (S k) h 0) 8) = opcode.
Proof.
  intros Ho Hs. unfold frame_header. pose proof (two_bytes opcode Ho) as Hop.
  destruct (size >? 0x7FFF) eqn:E.
  - do 2 eexists. split; [reflexivity|].
    rewrite (land_ones8 (Z.shiftr size 16)), (Z.shiftr_div_pow2 size 16) by lia.
    change (2 ^ 16) with 65536 in *. change (2 ^ 23) with 8388608 in *.
    assert (0 <= size / 65536 < 128) as Hq
      by (split; [apply Z.div_pos | apply Z.div_lt_upper_bound]; lia).
    rewrite (Z.mod_small (size / 65536)) by lia.
    destruct (top_bit_long _ Hq) as [Ht Hl]. rewrite Ht, Hl. cbn [nth length].
    split; [done|]. split; [|done].
    rewrite !land_ones8, (Z.shiftr_div_pow2 size 8), !Z.shiftl_mul_pow2 by lia.
    change (2 ^ 16) with 65536. change (2 ^ 8) with 256.
    pose proof (Z.div_mod size 256 ltac:(lia)).
    pose proof (Z.div_mod (size / 256) 256 ltac:(lia)) as H2.
    rewrite Z.div_div in H2 by lia. change (256 * 256) with 65536 in H2. lia.
  - do 2 eexists. split; [reflexivity|].
    assert (size <= 0x7FFF) as Hle by (apply Z.gtb_ltb in E || lia).
    rewrite (land_ones8 (Z.shiftr size 8)), (Z.shiftr_div_pow2 size 8) by lia.
    change (2 ^ 8) with 256.
    assert (0 <= size / 256 < 128) as Hq
      by (split; [apply Z.div_pos | apply Z.div_lt_upper_bound]; lia).
    rewrite (Z.mod_small (size / 256)) by lia.
    rewrite (top_bit_short _ Hq). cbn [nth length].
    split; [done|]. split; [|done].
    rewrite !land_ones8, Z.shiftl_mul_pow2 by lia. change (2 ^ 8) with 256.
    pose proof (Z.div_mod size 256 ltac:(lia)). lia.
Qed.

Lemma client_read_frame enc opcode body rest :
  frameable (opcode, body) ->
  client_read enc (snd (frame_pkt enc opcode body) ++ rest)
  = Some (fst (frame_pkt enc opcode body), (opcode, body), rest).
Proof.
  intros [Ho Hb]. cbn in Ho, Hb. unfold frame_pkt.
  pose proof (pylen_nonneg body) as Hn.
  destruct (frame_header_cases opcode (pylen body + 2) Ho) as (top & h & -> & Hl & Hs & Hop);
    [lia|].
  pose proof (crypt_opt_split enc [top] h) as Hc.
  destruct (crypt_opt enc [top]) as [e1 oa] eqn:E1.
  destruct (crypt_opt e1 h) as [e2 ob] eqn:E2.
  destruct Hc as (Hc & Ha & Hb2 & La & Lb).
  change (top :: h) with ([top] ++ h). rewrite Hc. cbn [fst snd].
  destruct oa as [|c [|]]; cbn in La; try lia.
  cbn [app]. unfold client_read. rewrite Ha. cbn [nth].
  set (n := if Z.testbit top 7 then 4%nat else 3%nat) in *.
  rewrite <- !app_assoc.
  rewrite (proj2 (Nat.ltb_ge _ _)) by (rewrite length_app, Lb, Hl; lia).
  rewrite take_app_exact, drop_app_exact by (rewrite Lb; exact Hl).
  rewrite Hb2. cbn zeta in Hop. rewrite Hs, Hop.
  rewrite (proj2 (Z.ltb_ge _ _)) by (rewrite pylen_app; pose proof (pylen_nonneg rest); lia).
  replace (Z.to_nat (pylen body + 2 - 2)) with (length body) by (unfold pylen; lia).
  by rewrite take_app_length, drop_app_length.
Qed.

Lemma send_batch_go enc pkts acc :
  fold_left (fun '(e, acc) '(opc, body) =>
               let '(e', b) := frame_pkt e opc body in (e', acc ++ b)) pkts (enc, acc)
  = (fst (send_each enc pkts), acc ++ concat (snd (send_each enc pkts))).
Proof.
  revert enc acc; induction pkts as [|[opc body] pkts IH]; intros enc acc; cbn [fold_left].
  - cbn. by rewrite app_nil_r.
  - cbn [send_each]. destruct (frame_pkt enc opc body) as [e1 b]. rewrite IH.
    destruct (send_each e1 pkts) as [e2 bs]. cbn. by rewrite <- app_assoc.
Qed.

(** Sending a batch leaves the socket and the cipher exactly as sending
    its packets one by one does, in a single write. *)
Theorem send_batch_equiv enc pkts :
  pkts <> [] ->
  send_batch enc pkts
  = (fst (send_each enc pkts), [concat (snd (send_each enc pkts))], pylen pkts).
Proof.
  intros H. unfold send_batch. destruct pkts as [|p pkts]; [done|].
  rewrite send_batch_go. reflexivity.
Qed.

Lemma send_batch_equiv_witness :
  [(SMSG_AUTH_CHALLENGE, [1; 2])] <> []
  /\ snd (send_batch None [(SMSG_AUTH_CHALLENGE, [1; 2])]) = 1.
Proof.
  split; [discriminate|].
  rewrite (send_batch_equiv None [(SMSG_AUTH_CHALLENGE, [1; 2])]) by discriminate.
  reflexivity.
Defined.

Lemma client_read_all_each enc pkts rest :
  Forall frameable pkts ->
  client_read_all (length pkts) enc (concat (snd (send_each enc pkts)) ++ rest)
  = Some (pkts, rest).
Proof.
  intros Hf. revert enc. induction Hf as [|[opc body] pkts Hp _ IH]; intros enc; [done|].
  cbn [length client_read_all send_each].
  pose proof (client_read_frame enc opc body) as Hr.
  destruct (frame_pkt enc opc body) as [e1 b]. cbn [fst snd] in Hr.
  destruct (send_each e1 pkts) as [e2 bs] eqn:E. cbn [snd concat].
  rewrite <- app_assoc, Hr by done. specialize (IH e1). rewrite E in IH. cbn [snd] in IH.
  by rewrite IH.
Qed.

(** The client decrypts and splits a batch back into its packets, in
    order, with the header cipher on or off, whatever follows on the wire. *)
Theorem send_batch_roundtrip enc pkts rest :
  Forall frameable pkts ->
  client_read_all (length pkts) enc (concat (snd (fst (send_batch enc pkts))) ++ rest)
  = Some (pkts, rest).
Proof.
  intros Hf. unfold send_batch. destruct pkts as [|p pkts]; [done|].
  rewrite send_batch_go. cbn [fst snd concat]. rewrite app_nil_r.
  by apply client_read_all_each.
Qed.

Lemma send_batch_roundtrip_witness :
  let enc := Some (rc4_init (lit "Key")) in
  let pkts := [(0x722, [1; 2; 3]); (0x033, []); (0x096, replicate 40 7)] in
  Forall frameable pkts
  /\ client_read_all 3 enc (concat (snd (fst (send_batch enc pkts))) ++ [9]) = Some (pkts, [9]).
Proof.
  cbn zeta. assert (Forall frameable [(0x722, [1; 2; 3]); (0x033, []); (0x096, replicate 40 7)]) as H.
  { repeat constructor; vm_compute; congruence. }
  split; [exact H|]. exact (send_batch_roundtrip (Some (rc4_init (lit "Key"))) _ [9] H).
Defined.

(** ** Receiving *)

(** What one [conn.recv(k)] can do: deliver a non-empty chunk (of which at most
    [k] bytes are taken, the rest stays in the kernel's buffer), report the end
    of the stream, time out, or fail.  A socket is the sequence of these; the
    clock value is what [time.monotonic()] answers right after the call. *)
Inductive rx : Type :=
  | RxData (b : Z) (chunk : bytes) (now : Z)
  | RxEof
  | RxTimeout (now : Z)
  | RxError.

(** [conn.recv(k)] for [k > 0] on a data event: what is returned, and what is
    left of the event. *)
Definition rx_take (k : Z) (b : Z) (chunk : bytes) (now : Z) (conn : list rx)
    : bytes * list rx :=
  let data := b :: chunk in
  let rest := drop (Z.to_nat k) data in
  (take (Z.to_nat k) data,
   match rest with [] => conn | b' :: chunk' => RxData b' chunk' now :: conn end).

(** [recv_exact].  [None] is its failure; running out of
    events is the peer closing. *)
Fixpoint recv_exact_go (fuel : nat) (conn : list rx) (n : Z) (buf : bytes)
    : option (option bytes * list rx) :=
  if pylen buf <? n then
    match fuel with
    | O => None
    | S fuel =>
        match conn with
        | RxData b chunk now :: conn =>
            let '(got, conn) := rx_take (n - pylen buf) b chunk now conn in
            recv_exact_go fuel conn n (buf ++ got)
        | _ :: conn => Some (None, conn)
        | [] => Some (None, [])
        end
    end
  else Some (Some buf, conn).

(** At least one byte arrives per iteration, so [n] iterations are enough. *)
Definition recv_exact (conn : list rx) (n : Z) : option (option bytes * list rx) :=
  recv_exact_go (Z.to_nat n) conn n [].

(** The session's own reader [_recv]: it keeps the partial
    read in [pending], runs the idle clock on every timeout and gives up after
    ARCHIVE_SESSION_TIMEOUT seconds without traffic.  [W] is the session state
    [_idle] works on. *)
Section SessionRecv.
Context {W : Type} (idle : Z -> W -> W).

Record rx_state := RxState {
  rs_conn : list rx; rs_pending : bytes; rs_last : Z; rs_world : W }.

Fixpoint _recv_go (fuel : nat) (n : Z) (st : rx_state)
    : option (option bytes * rx_state) :=
  let '(RxState conn pending last w) := st in
  if pylen pending <? n then
    match fuel with
    | O => None
    | S fuel =>
        match conn with
        | RxData b chunk now :: conn =>
            let '(got, conn) := rx_take (n - pylen pending) b chunk now conn in
            _recv_go fuel n (RxState conn (pending ++ got) now w)
        | RxTimeout now :: conn =>
            let w := idle now w in
            if now - last >? ARCHIVE_SESSION_TIMEOUT
            then Some (None, RxState conn pending last w)
            else _recv_go fuel n (RxState conn pending last w)
        | (RxEof | RxError) :: conn => Some (None, RxState conn pending last w)
        | [] => Some (None, RxState [] pending last w)
        end
    end
  else
    Some (Some (slice_to n pending), RxState conn (slice_from n pending) last w).

Definition _recv (n : Z) (st : rx_state) : option (option bytes * rx_state) :=
  _recv_go (Z.to_nat n + length (rs_conn st)) n st.
End SessionRecv.

(** The bytes a socket delivers before its first non-data event. *)
Fixpoint rx_bytes (conn : list rx) : bytes :=
  match conn with
  | RxData b chunk _ :: conn => b :: chunk ++ rx_bytes conn
  | _ => []
  end.

Lemma rx_take_bytes k b chunk now conn got conn' :
  0 < k -> rx_take k b chunk now conn = (got, conn') ->
  got ++ rx_bytes conn' = b :: chunk ++ rx_bytes conn
  /\ 1 <= pylen got <= k.
Proof.
  intros Hk H. unfold rx_take in H. injection H as <- <-.
  pose proof (take_drop (Z.to_nat k) (b :: chunk)) as Htd.
  split.
  - destruct (drop (Z.to_nat k) (b :: chunk)) as [|b' c'] eqn:E.
    + rewrite app_nil_r in Htd. by rewrite Htd.
    + cbn [rx_bytes]. rewrite app_comm_cons, app_assoc. rewrite Htd. done.
  - unfold pylen. rewrite length_take. cbn. lia.
Qed.

Lemma recv_exact_go_spec fuel conn n buf :
  pylen buf <= n -> n - pylen buf <= Z.of_nat fuel ->
  exists r conn', recv_exact_go fuel conn n buf = Some (r, conn')
    /\ (n - pylen buf <= pylen (rx_bytes conn) ->
        r = Some (buf ++ slice_to (n - pylen buf) (rx_bytes conn))
        /\ rx_bytes conn' = slice_from (n - pylen buf) (rx_bytes conn))
    /\ (pylen (rx_bytes conn) < n - pylen buf -> r = None).
Proof.
  revert conn buf. induction fuel as [|fuel IH]; intros conn buf Hle Hf; cbn [recv_exact_go].
  - rewrite (proj2 (Z.ltb_ge _ _)) by lia. replace (n - pylen buf) with 0 by lia.
    do 2 eexists. split; [reflexivity|]. split.
    + intros _. unfold slice_to, slice_from. cbn. by rewrite app_nil_r.
    + pose proof (pylen_nonneg (rx_bytes conn)). lia.
  - destruct (Z.ltb_spec (pylen buf) n) as [Hlt|Hge].
    + assert (forall c : list rx, exists r conn', Some (@None bytes, c) = Some (r, conn')
        /\ (n - pylen buf <= pylen (@nil Z) ->
            r = Some (buf ++ slice_to (n - pylen buf) [])
            /\ rx_bytes conn' = slice_from (n - pylen buf) [])
        /\ (pylen (@nil Z) < n - pylen buf -> r = None)) as Hend.
      { intros c. do 2 eexists. split; [reflexivity|]. rewrite pylen_nil.
        split; [intros; lia | done]. }
      destruct conn as [|[b chunk now| |now|] conn]; cbn [rx_bytes]; [apply Hend| |apply Hend..].
      destruct (rx_take (n - pylen buf) b chunk now conn) as [got conn1] eqn:E.
      assert (0 < n - pylen buf) as Hpos by lia.
      destruct (rx_take_bytes _ _ _ _ _ _ _ Hpos E) as [Hb Hg].
      destruct (IH conn1 (buf ++ got)) as (r & conn' & -> & Hok & Hno);
        [rewrite pylen_app; lia .. |].
      rewrite pylen_app in Hok, Hno. cbn [rx_bytes]. rewrite <- Hb.
      do 2 eexists. split; [reflexivity|]. split.
      * intros H. rewrite pylen_app in H. destruct Hok as [-> Hc]; [lia|].
        unfold slice_to, slice_from in *. unfold pylen in *.
        replace (Z.to_nat (n - Z.of_nat (length buf)))
          with (length got + Z.to_nat (n - (Z.of_nat (length buf) + Z.of_nat (length got))))%nat
          by lia.
        rewrite take_app_add, drop_app_add.
        split; [by rewrite <- app_assoc|done].
      * intros H. rewrite pylen_app in H. apply Hno. lia.
    + replace (n - pylen buf) with 0 by lia.
      do 2 eexists. split; [reflexivity|]. split.
      * intros _. unfold slice_to, slice_from. cbn. by rewrite app_nil_r.
      * pose proof (pylen_nonneg (rx_bytes conn)). lia.
Qed.

(** [recv_exact] always terminates; it returns the next [n] bytes of the
    stream however the network cut it into chunks and leaves the rest, and it
    fails exactly when fewer than [n] bytes arrive before the connection ends,
    errs or times out. *)
Theorem recv_exact_spec conn n :
  0 <= n ->
  exists r conn', recv_exact conn n = Some (r, conn')
    /\ (n <= pylen (rx_bytes conn) ->
        r = Some (slice_to n (rx_bytes conn))
        /\ rx_bytes conn' = slice_from n (rx_bytes conn))
    /\ (pylen (rx_bytes conn) < n -> r = None).
Proof.
  intros Hn. destruct (recv_exact_go_spec (Z.to_nat n) conn n []) as (r & c & E & Ha & Hb);
    [rewrite pylen_nil; lia | rewrite pylen_nil; lia |].
  rewrite pylen_nil, Z.sub_0_r in Ha, Hb. exists r, c. done.
Qed.

Lemma recv_exact_spec_witness :
  let conn := [RxData 1 [2] (0); RxData 3 [4; 5] (1); RxEof] in
  0 <= 4 /\ exists r conn', recv_exact conn 4 = Some (r, conn')
    /\ (4 <= pylen (rx_bytes conn) ->
        r = Some (slice_to 4 (rx_bytes conn))
        /\ rx_bytes conn' = slice_from 4 (rx_bytes conn))
    /\ (pylen (rx_bytes conn) < 4 -> r = None).
Proof. cbn zeta. split; [lia|]. apply recv_exact_spec. lia. Defined.

(** The session's reader: whatever the timeouts and cuts in between, what it
    returns and what it leaves pending is the byte stream. *)
Fixpoint rx_stream (conn : list rx) : bytes :=
  match conn with
  | RxData b chunk _ :: conn => b :: chunk ++ rx_stream conn
  | RxTimeout _ :: conn => rx_stream conn
  | _ => []
  end.

Lemma rx_take_stream k b chunk now conn got conn' :
  0 < k -> rx_take k b chunk now conn = (got, conn') ->
  got ++ rx_stream conn' = b :: chunk ++ rx_stream conn
  /\ 1 <= pylen got <= k /\ (length conn' <= S (length conn))%nat.
Proof.
  intros Hk H. unfold rx_take in H. injection H as <- <-.
  pose proof (take_drop (Z.to_nat k) (b :: chunk)) as Htd.
  split; [|split].
  - destruct (drop (Z.to_nat k) (b :: chunk)) as [|b' c'] eqn:E.
    + rewrite app_nil_r in Htd. by rewrite Htd.
    + cbn [rx_stream]. rewrite app_comm_cons, app_assoc. rewrite Htd. done.
  - unfold pylen. rewrite length_take. cbn. lia.
  - destruct (drop (Z.to_nat k) (b :: chunk)); cbn; lia.
Qed.

Section SessionRecvSpec.
Context {W : Type} (idle : Z -> W -> W).

Definition rs_stream (st : rx_state (W:=W)) : bytes := rs_pending st ++ rx_stream (rs_conn st).

Lemma _recv_go_spec fuel n st :
  0 <= n ->
  (Z.to_nat (n - pylen (rs_pending st)) + length (rs_conn st) <= fuel)%nat ->
  exists r st', _recv_go idle fuel n st = Some (r, st')
    /\ match r with
       | Some out => pylen out = n /\ out ++ rs_stream st' = rs_stream st
       | None => pylen (rs_pending st') < n
       end.
Proof.
  intros Hn. revert st. induction fuel as [|fuel IH]; intros [conn pending last w] Hf;
    cbn [_recv_go rs_conn rs_pending] in *.
  - rewrite (proj2 (Z.ltb_ge _ _)) by lia.
    do 2 eexists. split; [reflexivity|]. unfold rs_stream, slice_to, slice_from, pylen in *.
    cbn [rs_pending rs_conn]. rewrite length_take, app_assoc, take_drop. split; [lia|done].
  - destruct (Z.ltb_spec (pylen pending) n) as [Hlt|Hge].
    + destruct conn as [|[b chunk now| |now|] conn].
      * do 2 eexists. split; [reflexivity|]. exact Hlt.
      * destruct (rx_take (n - pylen pending) b chunk now conn) as [got conn1] eqn:E.
        assert (0 < n - pylen pending) as Hpos by lia.
        destruct (rx_take_stream _ _ _ _ _ _ _ Hpos E) as (Hb & Hg & Hl).
        destruct (IH (RxState conn1 (pending ++ got) now w)) as (r & st' & -> & Hr);
          [cbn [rs_conn rs_pending]; rewrite pylen_app; cbn [length] in Hf; lia|].
        do 2 eexists. split; [reflexivity|]. destruct r as [out|]; [|exact Hr].
        destruct Hr as [Ho Hs]. split; [exact Ho|]. rewrite Hs. unfold rs_stream.
        cbn [rs_pending rs_conn rx_stream]. by rewrite <- app_assoc, Hb.
      * do 2 eexists. split; [reflexivity|]. exact Hlt.
      * destruct (now - last >? ARCHIVE_SESSION_TIMEOUT).
        { do 2 eexists. split; [reflexivity|]. exact Hlt. }
        destruct (IH (RxState conn pending last (idle now w))) as (r & st' & -> & Hr);
          [cbn [rs_conn rs_pending length] in *; lia|].
        do 2 eexists. split; [reflexivity|]. exact Hr.
      * do 2 eexists. split; [reflexivity|]. exact Hlt.
    + do 2 eexists. split; [reflexivity|]. unfold rs_stream, slice_to, slice_from, pylen in *.
      cbn [rs_pending rs_conn]. rewrite length_take, app_assoc, take_drop. split; [lia|done].
Qed.
End SessionRecvSpec.

(** The session's reader always comes back; a successful read returns
    exactly [n] bytes, and those bytes followed by what stays buffered are the
    unread stream: no timeout in the middle of a frame loses or reorders a
    byte. *)
Theorem _recv_spec {W} (idle : Z -> W -> W) n st :
  0 <= n ->
  exists r st', _recv idle n st = Some (r, st')
    /\ match r with
       | Some out => pylen out = n /\ out ++ rs_stream st' = rs_stream st
       | None => pylen (rs_pending st') < n
       end.
Proof. intros Hn. apply _recv_go_spec; [exact Hn|]. pose proof (pylen_nonneg (rs_pending st)). lia. Qed.

Lemma _recv_spec_witness :
  let st := RxState [RxTimeout (1); RxData 1 [2; 3] (2)] [9] (0) 0%nat in
  0 <= 3 /\ exists r st', _recv (fun _ => S) 3 st = Some (r, st')
    /\ match r with
       | Some out => pylen out = 3 /\ out ++ rs_stream st' = rs_stream st
       | None => pylen (rs_pending st') < 3
       end.
Proof. cbn zeta. split; [lia|]. apply (_recv_spec (fun _ => S)). lia. Defined.

(** [handle_client.plausible]: the test that recognises a plaintext header. *)
Definition plausible (hdr6 : bytes) : bool :=
  let sz := 256 * nth 0 hdr6 0 + nth 1 hdr6 0 in
  let op := unle (slice 2 6 hdr6) in
  ((4 <=? sz) && (sz <=? 0x2800)) && ((0 <? op) && (op <? 0x1000)).

(** What one header read does to [crypt_in] and the decryptor:
    [None] is the dropped connection. *)
Definition accept_header (crypt_in : bool) (dec : option rc4) (eh : bytes)
    : option (bool * option rc4 * bytes) :=
  if crypt_in then
    match dec with
    | Some d => let '(d', chdr) := crypt d eh in Some (true, Some d', chdr)
    | None => None
    end
  else if plausible eh then Some (false, dec, eh)
  else match dec with
  | Some d =>
      let '(d', probe) := crypt d eh in
      if plausible probe then Some (true, Some d', probe) else None
  | None => None
  end.

(** ** CMSG_AUTH_SESSION *)

Record auth_session := AuthSession {
  as_build : Z; as_loginServerID : Z; as_account : bytes; as_loginServerType : Z;
  as_localChallenge : bytes; as_regionID : Z; as_battlegroupID : Z; as_realmID : Z;
  as_dosResponse : Z; as_digest : bytes; as_addon_raw : bytes; as_addon_len : Z }.

Definition parse_auth_session (body : bytes) : res auth_session :=
  build ← unpackI body 0;
  loginServerID ← unpackI body 4;
  z ← res_of_option ValueError ((fun k => 8 + Z.of_nat k) <$> find_byte 0 (slice_from 8 body));
  let account := slice 8 z body in
  let p := z + 1 in
  loginServerType ← unpackI body p;
  let localChallenge := slice (p + 4) (p + 8) body in
  let p := p + 8 in
  regionID ← unpackI body p;
  battlegroupID ← unpackI body (p + 4);
  realmID ← unpackI body (p + 8);
  dosResponse ← unpackQ body (p + 12);
  let digest := slice (p + 20) (p + 40) body in
  let addon_raw := slice_from (p + 40) body in
  Ok (AuthSession build loginServerID account loginServerType localChallenge
        regionID battlegroupID realmID dosResponse digest addon_raw (pylen addon_raw)).

(** The packet the client builds. *)
Definition build_auth_session (f : auth_session) : bytes :=
  le 4 (as_build f) ++ le 4 (as_loginServerID f) ++ as_account f ++ [0]
  ++ le 4 (as_loginServerType f) ++ as_localChallenge f
  ++ le 4 (as_regionID f) ++ le 4 (as_battlegroupID f) ++ le 4 (as_realmID f)
  ++ le 8 (as_dosResponse f) ++ as_digest f ++ as_addon_raw f.

(** The sizes the packet's fields have. *)
Definition auth_session_ok (f : auth_session) : Prop :=
  0 <= as_build f < 2 ^ 32 /\ 0 <= as_loginServerID f < 2 ^ 32 /\ (0 ∉ as_account f)
  /\ 0 <= as_loginServerType f < 2 ^ 32 /\ length (as_localChallenge f) = 4%nat
  /\ 0 <= as_regionID f < 2 ^ 32 /\ 0 <= as_battlegroupID f < 2 ^ 32
  /\ 0 <= as_realmID f < 2 ^ 32 /\ 0 <= as_dosResponse f < 2 ^ 64
  /\ length (as_digest f) = 20%nat /\ as_addon_len f = pylen (as_addon_raw f).

(** A field read at the end of a known prefix. *)
Lemma unpack_u_at n pre v post b off :
  b = pre ++ le n v ++ post -> off = pylen pre -> 0 <= v < 256 ^ Z.of_nat n ->
  unpack_u n b off = Ok v.
Proof. intros -> Ho Hv. by apply unpack_u_app. Qed.

(** The server's parser reads back every field of the login packet the
    client builds, the variable-length account name and the addon block
    included. *)
Theorem auth_session_roundtrip f :
  auth_session_ok f -> parse_auth_session (build_auth_session f) = Ok f.
Proof.
  destruct f as [bld lid acc lty lch reg bg rlm dos dig raw rl].
  unfold auth_session_ok. cbn [as_build as_loginServerID as_account as_loginServerType
    as_localChallenge as_regionID as_battlegroupID as_realmID as_dosResponse as_digest
    as_addon_raw as_addon_len].
  intros (Hb & Hl & Ha & Ht & Hc & Hr & Hg & Hm & Hd & Hdig & ->).
  set (b := build_auth_session _).
  assert (b = le 4 bld ++ le 4 lid ++ acc ++ [0] ++ le 4 lty ++ lch ++ le 4 reg ++ le 4 bg
    ++ le 4 rlm ++ le 8 dos ++ dig ++ raw) as Eb by reflexivity.
  assert (pylen lch = 4) as Lc by (unfold pylen; lia).
  assert (pylen dig = 20) as Ld by (unfold pylen; lia).
  clearbody b. unfold parse_auth_session.
  assert (slice_from 8 b = acc ++ 0 :: (le 4 lty ++ lch ++ le 4 reg ++ le 4 bg
    ++ le 4 rlm ++ le 8 dos ++ dig ++ raw)) as Es.
  { rewrite Eb, app_assoc. apply slice_from_app. by autorewrite with pylen. }
  rewrite Es, find_byte_app by exact Ha. clear Es.
  cbn [fmap option_fmap option_map res_of_option].
  set (A := pylen acc). assert (Z.of_nat (length acc) = A) as -> by reflexivity.
  pose proof (pylen_nonneg acc : 0 <= A) as HA.
  unfold unpackI, unpackQ.
  rewrite (unpack_u_at 4 [] bld (le 4 lid ++ acc ++ [0] ++ le 4 lty ++ lch ++ le 4 reg ++ le 4 bg
    ++ le 4 rlm ++ le 8 dos ++ dig ++ raw) b 0 Eb eq_refl Hb). cbn [mbind res_bind].
  rewrite (unpack_u_at 4 (le 4 bld) lid (acc ++ [0] ++ le 4 lty ++ lch ++ le 4 reg ++ le 4 bg
    ++ le 4 rlm ++ le 8 dos ++ dig ++ raw) b 4 Eb eq_refl Hl). cbn [mbind res_bind].
  rewrite (unpack_u_at 4 (le 4 bld ++ le 4 lid ++ acc ++ [0]) lty (lch ++ le 4 reg ++ le 4 bg
    ++ le 4 rlm ++ le 8 dos ++ dig ++ raw) b (8 + A + 1));
    [|by rewrite Eb, <- !app_assoc|autorewrite with pylen; fold A; lia|exact Ht].
  cbn [mbind res_bind].
  rewrite (unpack_u_at 4 (le 4 bld ++ le 4 lid ++ acc ++ [0] ++ le 4 lty ++ lch) reg (le 4 bg
    ++ le 4 rlm ++ le 8 dos ++ dig ++ raw) b (8 + A + 1 + 8));
    [|by rewrite Eb, <- !app_assoc|autorewrite with pylen; fold A; lia|exact Hr].
  cbn [mbind res_bind].
  rewrite (unpack_u_at 4 (le 4 bld ++ le 4 lid ++ acc ++ [0] ++ le 4 lty ++ lch ++ le 4 reg) bg
    (le 4 rlm ++ le 8 dos ++ dig ++ raw) b (8 + A + 1 + 8 + 4));
    [|by rewrite Eb, <- !app_assoc|autorewrite with pylen; fold A; lia|exact Hg].
  cbn [mbind res_bind].
  rewrite (unpack_u_at 4 (le 4 bld ++ le 4 lid ++ acc ++ [0] ++ le 4 lty ++ lch ++ le 4 reg
    ++ le 4 bg) rlm (le 8 dos ++ dig ++ raw) b (8 + A + 1 + 8 + 8));
    [|by rewrite Eb, <- !app_assoc|autorewrite with pylen; fold A; lia|exact Hm].
  cbn [mbind res_bind].
  rewrite (unpack_u_at 8 (le 4 bld ++ le 4 lid ++ acc ++ [0] ++ le 4 lty ++ lch ++ le 4 reg
    ++ le 4 bg ++ le 4 rlm) dos (dig ++ raw) b (8 + A + 1 + 8 + 12));
    [|by rewrite Eb, <- !app_assoc|autorewrite with pylen; fold A; lia|exact Hd].
  cbn [mbind res_bind].
  assert (slice 8 (8 + A) b = acc) as ->.
  { rewrite Eb, app_assoc. apply slice_app_mid; autorewrite with pylen; fold A; lia. }
  assert (slice (8 + A + 1 + 4) (8 + A + 1 + 8) b = lch) as ->.
  { rewrite Eb. rewrite (app_assoc acc), (app_assoc (le 4 lid)), (app_assoc (le 4 bld)).
    rewrite app_assoc. apply slice_app_mid; autorewrite with pylen; fold A; lia. }
  assert (slice (8 + A + 1 + 8 + 20) (8 + A + 1 + 8 + 40) b = dig) as ->.
  { rewrite Eb. transitivity (slice (8 + A + 1 + 8 + 20) (8 + A + 1 + 8 + 40)
      ((le 4 bld ++ le 4 lid ++ acc ++ [0] ++ le 4 lty ++ lch ++ le 4 reg ++ le 4 bg
        ++ le 4 rlm ++ le 8 dos) ++ dig ++ raw)); [by rewrite <- !app_assoc|].
    apply slice_app_mid; autorewrite with pylen; fold A; lia. }
  assert (slice_from (8 + A + 1 + 8 + 40) b = raw) as ->; [|done].
  rewrite Eb. transitivity (slice_from (8 + A + 1 + 8 + 40)
      ((le 4 bld ++ le 4 lid ++ acc ++ [0] ++ le 4 lty ++ lch ++ le 4 reg ++ le 4 bg
        ++ le 4 rlm ++ le 8 dos ++ dig) ++ raw)); [by rewrite <- !app_assoc|].
  apply slice_from_app. autorewrite with pylen; fold A; lia.
Qed.

Lemma auth_session_roundtrip_witness :
  let f := AuthSession 12340 0 (lit "BOB") 0 [1; 2; 3; 4] 1 2 3 4 (replicate 20 0xAB) [0; 0] 2 in
  auth_session_ok f /\ parse_auth_session (build_auth_session f) = Ok f.
Proof.
  cbn zeta.
  assert (auth_session_ok (AuthSession 12340 0 (lit "BOB") 0 [1; 2; 3; 4] 1 2 3 4
            (replicate 20 0xAB) [0; 0] 2)) as H.
  { unfold auth_session_ok. cbn. repeat split; try lia; try (by vm_compute).
    rewrite !not_elem_of_cons. repeat split; try lia. apply not_elem_of_nil. }
  split; [exact H|]. exact (auth_session_roundtrip _ H).
Defined.

(** [verify_digest]; [sha1] is the hash library's. *)
Section VerifyDigest.
Context (sha1 : bytes -> bytes).

Definition verify_digest (f : auth_session) (key40 : bytes) : bool :=
  bool_decide (sha1 (as_account f ++ [0; 0; 0; 0] ++ as_localChallenge f ++ AUTH_SEED ++ key40)
               = as_digest f).

(** The digest the client computes is accepted. *)
Lemma verify_digest_client f key40 :
  as_digest f = sha1 (as_account f ++ [0; 0; 0; 0] ++ as_localChallenge f ++ AUTH_SEED ++ key40) ->
  verify_digest f key40 = true.
Proof. unfold verify_digest. intros ->. by apply bool_decide_eq_true. Qed.
End VerifyDigest.
