(* ===== verification/Chars.v ===== *)
(** * Characters (tools/chardata.py and the character store of world_server.py)

    The per-race tables, the character record and its creation from a
    CMSG_CHAR_CREATE body, GUID allocation, and the per-type account data
    (the client's WTF cache files kept on the server). *)
From S2P Require Import Prelude Wire PyFloat Text Json Consts.

(** ** chardata.py *)

Definition RACE_DISPLAY : list (Z * (Z * Z)) :=
  [(1, (49, 50)); (2, (51, 52)); (3, (53, 54)); (4, (55, 56)); (5, (57, 58));
   (6, (59, 60)); (7, (1563, 1564)); (8, (1478, 1479)); (10, (15476, 15475));
   (11, (16125, 16126))].

(** map, x, y, z, orientation, zone. *)
Record start_pos := StartPos {
  sp_map : Z; sp_x : f64; sp_y : f64; sp_z : f64; sp_o : f64; sp_zone : Z }.

Definition human_start : start_pos :=
  StartPos 0 (f64_dec (-894995) (-2)) (f64_dec (-132493) (-3)) (f64_dec 835312 (-4))
    (f64_of_Z 0) 12.

Definition RACE_START : list (Z * start_pos) :=
  [(1, human_start);
   (2, StartPos 1 (f64_dec (-618518) (-3)) (f64_dec (-425167) (-2)) (f64_dec 38718 (-3))
         (f64_of_Z 0) 14);
   (3, StartPos 0 (f64_dec (-624032) (-2)) (f64_dec 331033 (-3)) (f64_dec 382758 (-3))
         (f64_dec 617716 (-5)) 1);
   (4, StartPos 1 (f64_dec 103113 (-1)) (f64_dec 832463 (-3)) (f64_dec 132641 (-2))
         (f64_dec 569632 (-5)) 141);
   (5, StartPos 0 (f64_dec 167671 (-2)) (f64_dec 167831 (-2)) (f64_dec 12167 (-2))
         (f64_dec 270526 (-5)) 85);
   (6, StartPos 1 (f64_dec (-291758) (-2)) (f64_dec (-25798) (-2)) (f64_dec 529968 (-4))
         (f64_of_Z 0) 215);
   (7, StartPos 0 (f64_dec (-624032) (-2)) (f64_dec 331033 (-3)) (f64_dec 382758 (-3))
         (f64_dec 617716 (-5)) 1);
   (8, StartPos 1 (f64_dec (-618518) (-3)) (f64_dec (-425167) (-2)) (f64_dec 38718 (-3))
         (f64_of_Z 0) 14);
   (10, StartPos 530 (f64_dec 103496 (-1)) (f64_dec (-635729) (-2)) (f64_dec 334026 (-4))
         (f64_dec 531605 (-5)) 3431);
   (11, StartPos 530 (f64_dec (-396164) (-2)) (f64_dec (-139312) (-1)) (f64_dec 100615 (-3))
         (f64_dec 208364 (-5)) 3524)].

Definition RACE_FACTION : list (Z * Z) :=
  [(1, 1); (2, 2); (3, 3); (4, 4); (5, 5); (6, 6); (7, 115); (8, 116); (10, 1610); (11, 1629)].

Definition POWER_MANA : Z := 0.
Definition POWER_RAGE : Z := 1.
Definition POWER_FOCUS : Z := 2.
Definition POWER_ENERGY : Z := 3.

Definition CLASS_POWER : list (Z * Z) :=
  [(1, POWER_RAGE); (2, POWER_MANA); (3, POWER_FOCUS); (4, POWER_ENERGY); (5, POWER_MANA);
   (6, POWER_RAGE); (7, POWER_MANA); (8, POWER_MANA); (9, POWER_MANA); (11, POWER_MANA)].

Definition display_for (race gender : Z) : Z :=
  let '(male, female) := default (49, 50) (dget race RACE_DISPLAY) in
  if gender =? 1 then female else male.

Definition start_for (race : Z) : start_pos := default human_start (dget race RACE_START).

Definition power_for (clas : Z) : Z := default POWER_MANA (dget clas CLASS_POWER).

Lemma power_for_range clas : 0 <= power_for clas <= 3.
Proof.
  unfold power_for. destruct (dget clas CLASS_POWER) as [p|] eqn:E; cbn; [|unfold POWER_MANA; lia].
  apply dget_elem_of in E. assert (Forall (fun cp => 0 <= snd cp <= 3) CLASS_POWER) as H
    by (repeat constructor; vm_compute; congruence).
  rewrite Forall_forall in H. apply (H _ E).
Qed.

(** ** Characters *)

(** The dictionary [make_character] builds and characters.json stores; only
    [activeBuild] comes and goes. *)
Record character := Character {
  c_guid : Z; c_name : pystr; c_race : Z; c_class : Z; c_gender : Z;
  c_skin : Z; c_face : Z; c_hairStyle : Z; c_hairColor : Z; c_facialHair : Z;
  c_level : Z; c_map : Z; c_zone : Z;
  c_x : f64; c_y : f64; c_z : f64; c_o : f64;
  c_displayId : Z; c_activeBuild : option pystr }.

Definition set_level (n : Z) (c : character) : character :=
  Character (c_guid c) (c_name c) (c_race c) (c_class c) (c_gender c) (c_skin c) (c_face c)
    (c_hairStyle c) (c_hairColor c) (c_facialHair c) n (c_map c) (c_zone c)
    (c_x c) (c_y c) (c_z c) (c_o c) (c_displayId c) (c_activeBuild c).
Definition set_class (n : Z) (c : character) : character :=
  Character (c_guid c) (c_name c) (c_race c) n (c_gender c) (c_skin c) (c_face c)
    (c_hairStyle c) (c_hairColor c) (c_facialHair c) (c_level c) (c_map c) (c_zone c)
    (c_x c) (c_y c) (c_z c) (c_o c) (c_displayId c) (c_activeBuild c).
Definition set_build (b : option pystr) (c : character) : character :=
  Character (c_guid c) (c_name c) (c_race c) (c_class c) (c_gender c) (c_skin c) (c_face c)
    (c_hairStyle c) (c_hairColor c) (c_facialHair c) (c_level c) (c_map c) (c_zone c)
    (c_x c) (c_y c) (c_z c) (c_o c) (c_displayId c) b.

(** [{account: [character, ...]}]. *)
Abbreviation chars_db := (list (pystr * list character)).

Definition all_chars (db : chars_db) : list character := flat_map snd db.

Definition next_guid (db : chars_db) : Z :=
  fold_left (fun hi c => Z.max hi (c_guid c)) (all_chars db) 0 + 1.

Record char_create := CharCreate {
  cc_race : Z; cc_class : Z; cc_gender : Z; cc_skin : Z; cc_face : Z;
  cc_hairStyle : Z; cc_hairColor : Z; cc_facialHair : Z; cc_outfitId : Z;
  cc_name : pystr; cc_extra : bytes }.

Definition parse_char_create (body : bytes) : res char_create :=
  z ← res_of_option ValueError (find_byte 0 body);
  let name := utf8_decode_replace (take z body) in
  let tail := drop (S z) body in
  let v := take 9 tail ++ replicate (9 - length tail) 0 in
  let f i := nth i v 0 in
  Ok (CharCreate (f 0%nat) (f 1%nat) (f 2%nat) (f 3%nat) (f 4%nat) (f 5%nat) (f 6%nat)
        (f 7%nat) (f 8%nat) name (drop 9 tail)).

Definition make_character (db : chars_db) (cc : char_create) : character :=
  let sp := start_for (cc_race cc) in
  let name := match strip (cc_name cc) with [] => lit "Archivist" | n => n end in
  Character (next_guid db) name (cc_race cc) (cc_class cc) (cc_gender cc) (cc_skin cc)
    (cc_face cc) (cc_hairStyle cc) (cc_hairColor cc) (cc_facialHair cc)
    ARCHIVE_NEW_CHAR_LEVEL (sp_map sp) (sp_zone sp) (sp_x sp) (sp_y sp) (sp_z sp) (sp_o sp)
    (display_for (cc_race cc) (cc_gender cc)) None.

(** [set_active_build], on the loaded database: the new one and whether it must be
    written back. *)
Definition set_active_build (db : chars_db) (guid : Z) (build_id : pystr) : chars_db * bool :=
  let upd c := if c_guid c =? guid
               then set_build (match build_id with [] => None | _ => Some build_id end) c
               else c in
  (map (fun '(a, cs) => (a, map upd cs)) db,
   existsb (fun c => c_guid c =? guid) (all_chars db)).

(** *** Allocation and creation *)

Lemma fold_max_guid l a :
  a <= fold_left (fun hi c => Z.max hi (c_guid c)) l a
  /\ forall c, c ∈ l -> c_guid c <= fold_left (fun hi c => Z.max hi (c_guid c)) l a.
Proof.
  revert a. induction l as [|x l IH]; intros a; cbn.
  - split; [lia|]. by intros c []%not_elem_of_nil.
  - destruct (IH (Z.max a (c_guid x))) as [H1 H2]. split; [lia|].
    intros c [->|H]%elem_of_cons; [lia | auto].
Qed.

Lemma next_guid_above db c : c ∈ all_chars db -> c_guid c < next_guid db.
Proof.
  intros H. unfold next_guid. destruct (fold_max_guid (all_chars db) 0) as [_ Hm].
  specialize (Hm c H). lia.
Qed.

Lemma next_guid_pos db : 1 <= next_guid db.
Proof. unfold next_guid. destruct (fold_max_guid (all_chars db) 0). lia. Qed.

(** Characters have distinct GUIDs: the invariant of the store. *)
Definition chars_ok (db : chars_db) : Prop :=
  NoDup (map c_guid (all_chars db)) /\ Forall (fun c => 1 <= c_guid c) (all_chars db).

(** [chars_db.setdefault(account, []).append(ch)], the create handler's
    store. *)
Definition add_char (db : chars_db) (account : pystr) (ch : character) : chars_db :=
  dset account (default [] (dget account db) ++ [ch]) db.

Lemma all_chars_dset_app (db : chars_db) account ch :
  all_chars (dset account (default [] (dget account db) ++ [ch]) db) ≡ₚ ch :: all_chars db.
Proof.
  unfold all_chars. induction db as [|[a cs] db IH]; cbn; [done|].
  case_decide as E; cbn.
  - rewrite <- app_assoc. symmetry. apply Permutation_middle.
  - rewrite IH. symmetry. apply Permutation_middle.
Qed.

Lemma all_below_next db : Forall (fun c => c_guid c < next_guid db) (all_chars db).
Proof. apply Forall_forall. intros c Hc. by apply next_guid_above. Qed.

Lemma add_char_ok db account ch :
  chars_ok db -> next_guid db <= c_guid ch -> chars_ok (add_char db account ch).
Proof.
  intros [Hn Hp] Hg. pose proof (all_below_next db) as Hlt. rewrite Forall_forall in Hlt.
  unfold chars_ok, add_char. rewrite all_chars_dset_app. cbn [map]. split.
  - apply NoDup_cons. split; [|done]. intros (c & He & Hc)%list_elem_of_fmap.
    specialize (Hlt c Hc). cbn in Hlt. lia.
  - constructor; [pose proof (next_guid_pos db); lia | done].
Qed.

(** Creating a character keeps every GUID of the store distinct: the new
    one is larger than all GUIDs in it. *)
Theorem create_character_ok db account cc :
  chars_ok db ->
  chars_ok (add_char db account (make_character db cc))
  /\ Forall (fun c => c_guid c < c_guid (make_character db cc)) (all_chars db).
Proof. intros Hc. split; [by apply add_char_ok | apply all_below_next]. Qed.

(** *** Editing the store *)

Definition guids (db : chars_db) : list Z := map c_guid (all_chars db).

Lemma chars_ok_alt db : chars_ok db <-> NoDup (guids db) /\ Forall (fun g => 1 <= g) (guids db).
Proof. unfold chars_ok, guids. by rewrite (Forall_fmap c_guid). Qed.

Lemma chars_ok_guids db db' : guids db' = guids db -> chars_ok db -> chars_ok db'.
Proof. rewrite !chars_ok_alt. by intros ->. Qed.

(** Editing rows without touching their GUIDs. *)
Lemma guids_map (f : character -> character) db :
  (forall c, c_guid (f c) = c_guid c) ->
  guids (map (fun '(a, cs) => (a, map f cs)) db) = guids db.
Proof.
  intros Hf. unfold guids, all_chars. induction db as [|[a cs] db IH]; [done|].
  cbn [map flat_map snd]. rewrite !map_app, IH, map_map. f_equal. apply map_ext. exact Hf.
Qed.

Lemma guids_dset db (a : pystr) l :
  map c_guid l = map c_guid (default [] (dget a db)) -> guids (dset a l db) = guids db.
Proof.
  unfold guids, all_chars. induction db as [|[a' cs] db IH]; cbn; intros E.
  - apply map_eq_nil in E. by subst.
  - case_decide; cbn; rewrite !map_app; cbn in E; f_equal; auto.
Qed.

Lemma dget_sublist db (a : pystr) : default [] (dget a db) `sublist_of` all_chars db.
Proof.
  unfold all_chars. induction db as [|[a' cs] db IH]; cbn; [apply sublist_nil_l|].
  case_decide; cbn; [by apply sublist_inserts_r | by apply sublist_inserts_l].
Qed.

Lemma dset_sublist db (a : pystr) l :
  l `sublist_of` default [] (dget a db) -> all_chars (dset a l db) `sublist_of` all_chars db.
Proof.
  unfold all_chars. induction db as [|[a' cs] db IH]; cbn; intros Hl.
  - apply sublist_nil_r in Hl. by subst.
  - case_decide; cbn in *; [by apply sublist_app | apply sublist_app; auto].
Qed.

Lemma chars_ok_sublist db db' : all_chars db' `sublist_of` all_chars db -> chars_ok db -> chars_ok db'.
Proof.
  intros Hs [Hn Hp]. split.
  - eapply sublist_NoDup; [exact Hn|]. by apply (fmap_sublist c_guid).
  - rewrite Forall_forall in *. intros c Hc. apply Hp. by eapply elem_of_sublist.
Qed.

Lemma account_guids db (a : pystr) : chars_ok db -> NoDup (map c_guid (default [] (dget a db))).
Proof.
  intros [Hn _]. eapply sublist_NoDup; [exact Hn|]. apply (fmap_sublist c_guid), dget_sublist.
Qed.

Definition sample_create : char_create := CharCreate 1 4 0 1 2 3 4 5 0 (lit "Ada") [].

Lemma create_character_ok_witness :
  chars_ok [] /\ chars_ok (add_char [] (lit "bob") (make_character [] sample_create)).
Proof.
  assert (chars_ok []) as H by (split; [apply NoDup_nil_2 | constructor]).
  split; [exact H|]. apply (create_character_ok [] (lit "bob") sample_create H).
Defined.

(** A GUID is not retired with its character: the next character after the
    newest one is deleted gets the same GUID (and with it everything the other
    stores keep under that key). *)
Lemma next_guid_reuse db account cc :
  dget account db = None ->
  next_guid (dset account [] (add_char db account (make_character db cc)))
  = c_guid (make_character db cc).
Proof.
  intros Hn. unfold add_char. rewrite Hn. cbn [default from_option id app].
  cbn [c_guid make_character].
  assert (all_chars (dset account [] (dset account [make_character db cc] db)) = all_chars db) as E.
  { revert Hn. generalize (make_character db cc) as ch. intros ch.
    unfold all_chars. induction db as [|[a cs] db IH]; cbn; intros Hn.
    - by rewrite decide_True by done.
    - destruct (decide (account = a)) as [->|Hne]; [done|]. cbn.
      rewrite decide_False by done. cbn. by rewrite IH. }
  unfold next_guid. by rewrite E.
Qed.

(** The client's CMSG_CHAR_CREATE: a C string and nine bytes. *)
Definition build_char_create (cc : char_create) : res bytes :=
  name ← utf8_encode (cc_name cc);
  Ok (name ++ [0] ++ [cc_race cc; cc_class cc; cc_gender cc; cc_skin cc; cc_face cc;
    cc_hairStyle cc; cc_hairColor cc; cc_facialHair cc; cc_outfitId cc] ++ cc_extra cc).

(** The server reads back the creation request the client builds, trailing
    bytes included. *)
Theorem char_create_roundtrip cc b :
  Forall is_char (cc_name cc) -> 0 ∉ cc_name cc ->
  build_char_create cc = Ok b -> parse_char_create b = Ok cc.
Proof.
  intros Hc Hn H. unfold build_char_create in H. inv_bind H. rename v into nm.
  apply Ok_inj in H. subst b. unfold parse_char_create.
  cbn [app]. rewrite find_byte_app by (eapply utf8_encode_nul; eassumption).
  cbn [res_of_option mbind res_bind]. rewrite take_app_length.
  change (nm ++ 0 :: ?t) with (nm ++ ([0] ++ t)).
  replace (drop (S (length nm)) (nm ++ [0] ++ _))
    with ([cc_race cc; cc_class cc; cc_gender cc; cc_skin cc; cc_face cc;
    cc_hairStyle cc; cc_hairColor cc; cc_facialHair cc; cc_outfitId cc] ++ cc_extra cc)
    by (rewrite app_assoc; symmetry; apply drop_app_exact; rewrite length_app; cbn; lia).
  rewrite (utf8_roundtrip _ _ Hc E). cbn. by destruct cc.
Qed.

Lemma char_create_roundtrip_witness :
  exists b, Forall is_char (cc_name sample_create) /\ (0 ∉ cc_name sample_create)
    /\ build_char_create sample_create = Ok b /\ parse_char_create b = Ok sample_create.
Proof.
  eexists. assert (Forall is_char (cc_name sample_create)) as H1
    by (unfold is_char; repeat constructor; cbn; lia).
  assert (0 ∉ cc_name sample_create) as H2
    by (cbn; rewrite !not_elem_of_cons; repeat split; try lia; apply not_elem_of_nil).
  assert (build_char_create sample_create
    = Ok (lit "Ada" ++ [0; 1; 4; 0; 1; 2; 3; 4; 5; 0])) as H3 by reflexivity.
  split; [exact H1|]. split; [exact H2|]. split; [exact H3|].
  exact (char_create_roundtrip sample_create _ H1 H2 H3).
Defined.

(** A short body is padded, never an error: only a missing terminator raises. *)
Lemma parse_char_create_total body :
  0 ∈ body -> exists cc, parse_char_create body = Ok cc.
Proof.
  intros H. apply list_elem_of_split_l in H as (a & b & -> & Ha).
  unfold parse_char_create. rewrite find_byte_app by done. cbn. eauto.
Qed.

(** The comment above ARCHIVE_LEVEL says characters are created at the cap; a
    new character is level 1. *)
Lemma new_character_level db cc : c_level (make_character db cc) = 1 /\ ARCHIVE_LEVEL = 80.
Proof. done. Qed.
