(* ===== verification/Account.v ===== *)
(** * Account data (world_server.py)

    The client's WTF cache files live on the server: types 0, 2 and 4 are
    shared by the account, the others belong to one character.  A store is the
    content of accountdata.json; every operation loads it, and the ones that
    change it write it back. *)
From S2P Require Import Prelude Wire PyFloat Text Consts.

(** One stored file: [{"time": int, "data": str}]. *)
Record acct_rec := AcctRec { ar_time : Z; ar_data : pystr }.

Abbreviation bucket := (list (pystr * acct_rec)).

Record acctdb := AcctDb {
  ad_global : list (pystr * bucket);
  ad_chars : list (pystr * bucket) }.

(** [load_acctdata] of a missing or unreadable file. *)
Definition empty_acctdb : acctdb := AcctDb [] [].

Definition is_global (atype : Z) : bool :=
  negb (Z.land GLOBAL_CACHE_MASK (Z.shiftl 1 atype) =? 0).

(** [_acct_bucket]: the bucket, and the store with the bucket created. *)
Definition _acct_bucket (db : acctdb) (account : pystr) (guid atype : Z) : bucket * acctdb :=
  if is_global atype then
    let '(b, g) := dsetdefault account [] (ad_global db) in (b, AcctDb g (ad_chars db))
  else
    let '(b, c) := dsetdefault (str_of_Z guid) [] (ad_chars db) in (b, AcctDb (ad_global db) c).

(** Assignment through the bucket [_acct_bucket] returned. *)
Definition put_bucket (db : acctdb) (account : pystr) (guid atype : Z) (b : bucket) : acctdb :=
  if is_global atype then AcctDb (dset account b (ad_global db)) (ad_chars db)
  else AcctDb (ad_global db) (dset (str_of_Z guid) b (ad_chars db)).

Definition acctdata_get (db : acctdb) (account : pystr) (guid atype : Z) : res (Z * bytes) :=
  match dget (str_of_Z atype) (fst (_acct_bucket db account guid atype)) with
  | None => Ok (0, [])
  | Some rec => data ← utf8_encode (ar_data rec); Ok (ar_time rec, data)
  end.

Definition acctdata_set (db : acctdb) (account : pystr) (guid atype tstamp : Z) (data : pystr)
    : acctdb :=
  let '(b, db) := _acct_bucket db account guid atype in
  put_bucket db account guid atype (dset (str_of_Z atype) (AcctRec tstamp data) b).

(** The loop of [acctdata_times]: the store it builds up is local to the call. *)
Fixpoint acctdata_times_go (types : list Z) (db : acctdb) (account : pystr) (guid mask : Z)
    : list Z :=
  match types with
  | [] => []
  | i :: types =>
      if Z.land mask (Z.shiftl 1 i) =? 0 then acctdata_times_go types db account guid mask
      else
        let '(b, db) := _acct_bucket db account guid i in
        match dget (str_of_Z i) b with Some rec => ar_time rec | None => 0 end
        :: acctdata_times_go types db account guid mask
  end.

Definition acctdata_times (db : acctdb) (account : pystr) (guid mask : Z) : list Z :=
  acctdata_times_go (seqZ_from NUM_ACCOUNT_DATA_TYPES) db account guid mask.

(** The loop body of [acctdata_seed_bindings]. *)
Definition seed_one (text : pystr) (now : Z) (account : pystr) (guid : Z)
    (st : acctdb * list pystr) (atype : Z) : acctdb * list pystr :=
  let '(db, seeded) := st in
  if (atype =? PER_CHARACTER_BINDINGS_CACHE) && (guid =? 0) then (db, seeded)
  else
    let '(b, db) := _acct_bucket db account guid atype in
    if dmem (str_of_Z atype) b then (db, seeded)
    else (put_bucket db account guid atype (dset (str_of_Z atype) (AcctRec now text) b),
          seeded ++ [nth (Z.to_nat atype) ACCOUNT_DATA_NAMES []]).

(** [acctdata_seed_bindings]: [text] is the default key map ([None] when the
    file cannot be read), [now] is [int(time.time())]; the store is written
    back only when something was seeded. *)
Definition acctdata_seed_bindings (text : option pystr) (now : Z) (db : acctdb)
    (account : pystr) (guid : Z) : acctdb * list pystr :=
  match text with
  | None => (db, [])
  | Some text =>
      let '(db', seeded) :=
        fold_left (seed_one text now account guid)
          [GLOBAL_BINDINGS_CACHE; PER_CHARACTER_BINDINGS_CACHE] (db, []) in
      match seeded with [] => (db, []) | _ => (db', seeded) end
  end.

(** ** What the store answers *)

(** The record an operation on (account, guid, type) addresses. *)
Definition acct_lookup (db : acctdb) (account : pystr) (guid atype : Z) : option acct_rec :=
  b ← (if is_global atype then dget account (ad_global db)
       else dget (str_of_Z guid) (ad_chars db));
  dget (str_of_Z atype) b.

(** Two addresses name the same record. *)
Definition same_slot (account : pystr) (guid atype : Z) (account' : pystr) (guid' atype' : Z) : Prop :=
  atype = atype'
  /\ (is_global atype = true /\ account = account' \/ is_global atype = false /\ guid = guid').

Lemma bucket_lookup db account guid atype atype' :
  is_global atype = is_global atype' ->
  dget (str_of_Z atype') (fst (_acct_bucket db account guid atype))
  = acct_lookup db account guid atype'.
Proof.
  unfold _acct_bucket, acct_lookup, dsetdefault. intros <-.
  destruct (is_global atype); [destruct (dget account _) | destruct (dget (str_of_Z guid) _)];
    reflexivity.
Qed.

(** Creating an empty bucket changes no answer. *)
Lemma bucket_frame db account guid atype a g t :
  acct_lookup (snd (_acct_bucket db account guid atype)) a g t = acct_lookup db a g t.
Proof.
  unfold _acct_bucket, acct_lookup, dsetdefault. destruct (is_global atype).
  - destruct (dget account (ad_global db)) eqn:E; cbn; [done|].
    destruct (is_global t); [|done]. rewrite dget_dset. case_decide as Ha; [|done].
    subst a. by rewrite E.
  - destruct (dget (str_of_Z guid) (ad_chars db)) eqn:E; cbn; [done|].
    destruct (is_global t); [done|]. rewrite dget_dset. case_decide as Ha; [|done].
    rewrite Ha. by rewrite E.
Qed.

Lemma acct_lookup_put db account guid atype rec a g t :
  0 <= guid -> 0 <= g -> 0 <= atype -> 0 <= t ->
  acct_lookup (put_bucket (snd (_acct_bucket db account guid atype)) account guid atype
                 (dset (str_of_Z atype) rec (fst (_acct_bucket db account guid atype)))) a g t
  = if decide (same_slot account guid atype a g t) then Some rec else acct_lookup db a g t.
Proof.
  intros Hguid Hg Hat Ht.
  pose proof (bucket_lookup db account guid atype) as Hl.
  pose proof (bucket_frame db account guid atype a g t) as Hf.
  destruct (_acct_bucket db account guid atype) as [b db1]. cbn [fst snd] in *.
  rewrite <- Hf. specialize (Hl t). revert Hl Hf. unfold put_bucket, acct_lookup, same_slot.
  destruct (is_global atype) eqn:Eg; destruct (is_global t) eqn:Et; cbn [ad_global ad_chars];
    intros Hl Hf.
  - rewrite dget_dset. destruct (decide (a = account)) as [->|Ha]; cbn [mbind option_bind].
    + rewrite dget_dset. destruct (decide (str_of_Z t = str_of_Z atype)) as [E|E].
      * apply str_of_Z_inj in E as ->; [|done..].
        rewrite decide_True by (split; auto). done.
      * rewrite decide_False by (intros [-> _]; done).
        rewrite Hl by done. symmetry. exact Hf.
    + rewrite decide_False by (intros [_ [[? ?]|[? ?]]]; congruence). done.
  - rewrite decide_False by (intros [-> _]; congruence). done.
  - rewrite decide_False by (intros [-> _]; congruence). done.
  - rewrite dget_dset. destruct (decide (str_of_Z g = str_of_Z guid)) as [E'|Ha];
      cbn [mbind option_bind].
    + apply str_of_Z_inj in E' as ->; [|done..].
      rewrite dget_dset. destruct (decide (str_of_Z t = str_of_Z atype)) as [E|E].
      * apply str_of_Z_inj in E as ->; [|done..].
        rewrite decide_True by (split; auto). done.
      * rewrite decide_False by (intros [-> _]; done).
        rewrite Hl by done. symmetry. exact Hf.
    + rewrite decide_False by (intros [_ [[? ?]|[? ?]]]; congruence). done.
Qed.

Lemma acctdata_get_lookup db account guid atype :
  acctdata_get db account guid atype
  = match acct_lookup db account guid atype with
    | None => Ok (0, [])
    | Some rec => data ← utf8_encode (ar_data rec); Ok (ar_time rec, data)
    end.
Proof. unfold acctdata_get. by rewrite bucket_lookup. Qed.

Lemma acct_lookup_set db account guid atype tstamp data a g t :
  0 <= guid -> 0 <= g -> 0 <= atype -> 0 <= t ->
  acct_lookup (acctdata_set db account guid atype tstamp data) a g t
  = if decide (same_slot account guid atype a g t) then Some (AcctRec tstamp data) else acct_lookup db a g t.
Proof.
  intros Hguid Hg Hat Ht. unfold acctdata_set.
  pose proof (acct_lookup_put db account guid atype (AcctRec tstamp data) a g t Hguid Hg Hat Ht) as H.
  destruct (_acct_bucket db account guid atype) as [bk db1]. exact H.
Qed.

Lemma same_slot_refl account guid atype : same_slot account guid atype account guid atype.
Proof. split; [done|]. destruct (is_global atype); auto. Qed.

(** What the client uploads is what it gets back, and no other account,
    character or type sees a change: global types are shared by the account's
    characters, the others are private to one character. *)
Theorem acctdata_get_set db account guid atype tstamp data b a g t :
  0 <= guid -> 0 <= g -> 0 <= atype -> 0 <= t -> utf8_encode data = Ok b ->
  acctdata_get (acctdata_set db account guid atype tstamp data) a g t
  = if decide (same_slot account guid atype a g t) then Ok (tstamp, b)
    else acctdata_get db a g t.
Proof.
  intros Hguid Hg Hat Ht Hb. rewrite !acctdata_get_lookup, acct_lookup_set by done.
  case_decide; [|done]. cbn [ar_data ar_time]. by rewrite Hb.
Qed.

Lemma acctdata_get_set_witness :
  let db := acctdata_set empty_acctdb (lit "bob") 7 1 100 (lit "old") in
  acctdata_get (acctdata_set db (lit "bob") 7 2 200 (lit "bind W")) (lit "bob") 8 2
  = Ok (200, lit "bind W").
Proof.
  cbn zeta.
  rewrite (acctdata_get_set (acctdata_set empty_acctdb (lit "bob") 7 1 100 (lit "old"))
             (lit "bob") 7 2 200 (lit "bind W") (lit "bind W") (lit "bob") 8 2);
    [reflexivity | lia .. | reflexivity].
Defined.

(** *** Seeding *)

Definition seed_skipped (guid atype : Z) : bool :=
  (atype =? PER_CHARACTER_BINDINGS_CACHE) && (guid =? 0).

Lemma seed_one_spec text now account guid db seeded atype :
  0 <= guid -> 0 <= atype ->
  exists db' names, seed_one text now account guid (db, seeded) atype = (db', seeded ++ names)
    /\ (names = [] <->
        seed_skipped guid atype = true \/ acct_lookup db account guid atype <> None)
    /\ forall a g t, 0 <= g -> 0 <= t ->
        acct_lookup db' a g t
        = match acct_lookup db a g t with
          | Some rec => Some rec
          | None => if seed_skipped guid atype then None
                    else if decide (same_slot account guid atype a g t)
                         then Some (AcctRec now text) else None
          end.
Proof.
  intros Hguid Hat. unfold seed_one. fold (seed_skipped guid atype).
  destruct (seed_skipped guid atype) eqn:E0.
  { exists db, []. rewrite app_nil_r. split; [done|]. split; [split; [by left|done]|].
    intros a g t _ _. by destruct (acct_lookup db a g t). }
  pose proof (bucket_lookup db account guid atype atype eq_refl) as Hl.
  pose proof (bucket_frame db account guid atype) as Hf.
  pose proof (acct_lookup_put db account guid atype (AcctRec now text)) as Hp.
  destruct (_acct_bucket db account guid atype) as [b db1]. cbn [fst snd] in *.
  unfold dmem. rewrite Hl. destruct (acct_lookup db account guid atype) as [rec|] eqn:El.
  - exists db1, []. rewrite app_nil_r. split; [done|]. split; [split; [by right|done]|].
    intros a g t Hg Ht. rewrite Hf.
    destruct (acct_lookup db a g t) eqn:E; [done|].
    destruct (decide (same_slot account guid atype a g t)) as [Hs|Hs]; [|done].
    exfalso. destruct Hs as [<- Hs]. revert El E. unfold acct_lookup. destruct Hs as [[-> <-]|[-> <-]]; congruence.
  - do 2 eexists. split; [reflexivity|]. split; [split; [done|by intros [?|?]]|].
    intros a g t Hg Ht. rewrite Hp by done.
    destruct (decide (same_slot account guid atype a g t)) as [Hs|Hs];
      [|by destruct (acct_lookup db a g t)].
    destruct Hs as [<- Hs]. replace (acct_lookup db a g atype) with (@None acct_rec); [done|].
    rewrite <- El. unfold acct_lookup. by destruct Hs as [[-> <-]|[-> <-]].
Qed.

(** The two rounds of the loop, taken together. *)
Lemma seed_spec text now account guid db :
  0 <= guid ->
  exists db' names, acctdata_seed_bindings (Some text) now db account guid = (db', names)
    /\ (forall a g t rec, 0 <= g -> 0 <= t ->
        acct_lookup db a g t = Some rec -> acct_lookup db' a g t = Some rec)
    /\ acct_lookup db' account guid GLOBAL_BINDINGS_CACHE <> None
    /\ (guid <> 0 -> acct_lookup db' account guid PER_CHARACTER_BINDINGS_CACHE <> None).
Proof.
  intros Hg. unfold acctdata_seed_bindings. cbn [fold_left].
  destruct (seed_one_spec text now account guid db [] GLOBAL_BINDINGS_CACHE Hg)
    as (db1 & n1 & -> & S1 & H1); [unfold GLOBAL_BINDINGS_CACHE; lia|].
  destruct (seed_one_spec text now account guid db1 ([] ++ n1) PER_CHARACTER_BINDINGS_CACHE Hg)
    as (db2 & n2 & -> & S2 & H2); [unfold PER_CHARACTER_BINDINGS_CACHE; lia|].
  assert (HG : 0 <= GLOBAL_BINDINGS_CACHE) by (unfold GLOBAL_BINDINGS_CACHE; lia).
  assert (HP : 0 <= PER_CHARACTER_BINDINGS_CACHE) by (unfold PER_CHARACTER_BINDINGS_CACHE; lia).
  assert (forall x : acct_rec, Some x <> None) as Hsome by done.
  assert (seed_skipped guid GLOBAL_BINDINGS_CACHE = false) as Eg by done.
  assert (guid <> 0 -> seed_skipped guid PER_CHARACTER_BINDINGS_CACHE = false) as Ep
    by (intros Hne; unfold seed_skipped; rewrite (proj2 (Z.eqb_neq guid 0) Hne); apply andb_false_r).
  rewrite Eg in *. cbn [app].
  destruct n1 as [|x n1], n2 as [|y n2]; cbn [app];
    (do 2 eexists; split; [reflexivity|]);
    (split; [intros a g t rec Hg' Ht' Hr; rewrite ?H2, ?H1, Hr by assumption; reflexivity|]).
  { destruct (proj1 S1 eq_refl) as [?|Ha]; [done|]. split; [done|]. intros Hne.
    destruct (proj1 S2 eq_refl) as [Hx|Hb]; [by rewrite Ep in Hx|].
    rewrite H1 in Hb by assumption.
    destruct (acct_lookup db account guid PER_CHARACTER_BINDINGS_CACHE); [done|].
    by rewrite decide_False in Hb by (intros [? _]; done). }
  all: split;
    [ rewrite H2, H1 by assumption; destruct (acct_lookup db account guid _); [done|];
      by rewrite decide_True by (split; [done|by left])
    | intros Hne; rewrite H2 by assumption; rewrite Ep by done;
      destruct (acct_lookup db1 account guid _); [done|];
      by rewrite decide_True by (split; [done|by right]) ].
Qed.

(** Seeding the default key map never replaces anything stored -- an
    existing record of any account, character or type keeps its value -- and
    afterwards the account and the character both have a binding file. *)
Theorem seed_bindings_spec text now db account guid :
  0 < guid ->
  let db' := fst (acctdata_seed_bindings (Some text) now db account guid) in
  (forall a g t rec, 0 <= g -> 0 <= t ->
     acct_lookup db a g t = Some rec -> acct_lookup db' a g t = Some rec)
  /\ acct_lookup db' account guid GLOBAL_BINDINGS_CACHE <> None
  /\ acct_lookup db' account guid PER_CHARACTER_BINDINGS_CACHE <> None.
Proof.
  intros Hg. destruct (seed_spec text now account guid db) as (db' & n & -> & H1 & H2 & H3); [lia|].
  split; [exact H1|]. split; [exact H2|]. apply H3. lia.
Qed.

Definition seeded_sample : acctdb :=
  acctdata_set empty_acctdb (lit "bob") 7 GLOBAL_BINDINGS_CACHE 5 (lit "mine").

Lemma seed_bindings_spec_witness :
  0 < 7 /\ acct_lookup (fst (acctdata_seed_bindings (Some (lit "default")) 9 seeded_sample (lit "bob") 7))
    (lit "bob") 7 GLOBAL_BINDINGS_CACHE = Some (AcctRec 5 (lit "mine")).
Proof.
  split; [lia|].
  apply (seed_bindings_spec (lit "default") 9 seeded_sample (lit "bob") 7);
    [lia | lia | vm_compute; congruence | reflexivity].
Defined.

(** The reply to an account-data-times query has one time per advertised type. *)
Lemma acctdata_times_length db account guid mask :
  length (acctdata_times db account guid mask)
  = length (base.filter (fun i => Z.land mask (Z.shiftl 1 i) <> 0)
      (seqZ_from NUM_ACCOUNT_DATA_TYPES)).
Proof.
  unfold acctdata_times. generalize (seqZ_from NUM_ACCOUNT_DATA_TYPES) as l. intros l.
  revert db. induction l as [|i l IH]; intros db; [done|]. cbn [acctdata_times_go].
  rewrite filter_cons. destruct (Z.eqb_spec (Z.land mask (Z.shiftl 1 i)) 0) as [E|E].
  - by rewrite decide_False by (rewrite E; auto).
  - rewrite decide_True by done. destruct (_acct_bucket db account guid i). cbn. by rewrite IH.
Qed.
