(* ===== verification/Dbc.v ===== *)
(** * The client database files (world_server.py)

    The stock WDBC container, the essence table and its curve, the class types
    and the rule that decides which class a character byte admits, and the
    binary search over Spell.dbc.  A file is its bytes, [None] when it cannot
    be read. *)
From S2P Require Import Prelude Wire PyFloat Text Consts.

(** [struct.unpack_from("<nI", b, off)]. *)
Definition unpack_Is (n : nat) (b : bytes) (off : Z) : res (list Z) :=
  if (0 <=? off) && (off + 4 * Z.of_nat n <=? pylen b)
  then Ok (map (fun k => unle (slice (off + 4 * Z.of_nat k) (off + 4 * Z.of_nat k + 4) b)) (seq 0 n))
  else Err StructError.

Definition WDBC : bytes := lit "WDBC".

(** Column [i] of a row that has it. *)
Definition col (r : list Z) (i : Z) : Z := nth (Z.to_nat i) r 0.

Lemma unpack_Is_ok n b off :
  0 <= off -> off + 4 * Z.of_nat n <= pylen b ->
  unpack_Is n b off
  = Ok (map (fun k => unle (slice (off + 4 * Z.of_nat k) (off + 4 * Z.of_nat k + 4) b)) (seq 0 n)).
Proof.
  intros H1 H2. unfold unpack_Is.
  by rewrite (proj2 (Z.leb_le _ _) H1), (proj2 (Z.leb_le _ _) H2).
Qed.

Lemma unpack_Is_length n b off r : unpack_Is n b off = Ok r -> length r = n.
Proof.
  unfold unpack_Is. split_match; [|done]. intros H. apply Ok_inj in H. subst.
  by rewrite length_map, length_seq.
Qed.

(** ** The essence table *)

Definition read_rows (ncol : nat) (raw : bytes) (nrec recsz : Z) : res (list (list Z)) :=
  res_map (fun i => unpack_Is ncol raw (DBC_HEADER + i * recsz)) (seqZ_from nrec).

Definition load_essence_rows (file : option bytes) : res (list (list Z)) :=
  match file with
  | None => Ok []
  | Some raw =>
      if (pylen raw <? 20) || negb (bool_decide (slice_to 4 raw = WDBC)) then Ok []
      else
        hdr ← unpack_Is 4 raw 4;
        let nrec := col hdr 0 in let nfield := col hdr 1 in let recsz := col hdr 2 in
        if (nfield <? 9) || (recsz <? 36) || (20 + nrec * recsz >? pylen raw) then Ok []
        else read_rows 9 raw nrec recsz
  end.

(** The family of one key with no flag set: {level: (ae, te)}. *)
Definition essence_curve (rows : list (list Z)) (key : option Z) : list (Z * (Z * Z)) :=
  let key := default ESSENCE_DBC_KEY key in
  fold_left (fun d r =>
      if (col r 2 =? key)
         && negb (negb (col r 3 =? 0) || negb (col r 4 =? 0) || negb (col r 5 =? 0)
                  || negb (col r 6 =? 0))
      then dset (col r 1) (col r 7, col r 8) d else d) rows [].

Definition min_key {A} (d : list (Z * A)) : res Z :=
  match d with
  | [] => Err ValueError
  | (k, _) :: d => Ok (fold_left Z.min (map fst d) k)
  end.

(** [essence_for]; [override] is ESSENCE_OVERRIDE. *)
Definition essence_for (override : option (Z * Z)) (rows : list (list Z)) (level : Z)
    (key : option Z) : res (Z * Z) :=
  match override with
  | Some p => Ok p
  | None =>
      let curve := essence_curve rows key in
      match curve with
      | [] => Ok (0, 0)
      | _ =>
          match dget level curve with
          | Some p => Ok p
          | None =>
              lo ← min_key curve;
              hi ← max_key curve;
              res_of_option KeyError (dget (if level >? hi then hi else lo) curve)
          end
      end
  end.

Definition smsg_ca_essence_budget (row_id level ability talent combo : Z) (key : option Z)
    : res bytes :=
  ws ← res_map packI
    [row_id; level; default ESSENCE_DBC_KEY key;
     Z.land (Z.shiftr combo 0) 1; Z.land (Z.shiftr combo 1) 1;
     Z.land (Z.shiftr combo 2) 1; Z.land (Z.shiftr combo 3) 1; ability; talent];
  Ok (concat ws).

(** One round of [send_essence_budget]. *)
Definition essence_packet (override : option (Z * Z)) (r : list Z) : res (Z * bytes) :=
  let '(ability, talent) := default (col r 7, col r 8) override in
  let b i := if negb (col r i =? 0) then 1 else 0 in
  let combo := Z.lor (Z.lor (Z.lor (b 3) (Z.shiftl (b 4) 1)) (Z.shiftl (b 5) 2)) (Z.shiftl (b 6) 3) in
  body ← smsg_ca_essence_budget (col r 0) (col r 1) ability talent combo (Some (col r 2));
  Ok (SMSG_CA_ESSENCE_BUDGET, body).

Definition essence_packets (override : option (Z * Z)) (rows : list (list Z)) : res (list (Z * bytes)) :=
  res_map (essence_packet override) rows.

(** ** [essprobe_encode] *)

Definition essprobe_encode (key combo : Z) : Z := key * 16 + combo + 1.

Definition essprobe_decode (ae : Z) : option (Z * Z) :=
  if ae =? 0 then None else Some ((ae - 1) / 16, (ae - 1) mod 16).

(** A probe row's essence value names the (key, flags) pair that produced
    it, and no probe value reads as "no match". *)
Theorem essprobe_roundtrip key combo :
  0 <= key -> 0 <= combo < 16 -> essprobe_decode (essprobe_encode key combo) = Some (key, combo).
Proof.
  intros Hk Hc. unfold essprobe_decode, essprobe_encode.
  rewrite (proj2 (Z.eqb_neq _ _)) by lia.
  replace (key * 16 + combo + 1 - 1) with (combo + key * 16) by lia.
  by rewrite Z.div_add, Z.div_small, Z.mod_add, Z.mod_small by lia.
Qed.

Lemma essprobe_roundtrip_witness :
  (0 <= 10 /\ 0 <= 3 < 16) /\ essprobe_decode (essprobe_encode 10 3) = Some (10, 3).
Proof. split; [lia|]. apply essprobe_roundtrip; lia. Defined.

(** ** Reading never raises *)

Lemma read_rows_ok ncol raw nrec recsz :
  0 <= recsz -> 4 * Z.of_nat ncol <= recsz -> DBC_HEADER + nrec * recsz <= pylen raw ->
  exists rows, read_rows ncol raw nrec recsz = Ok rows /\ length rows = Z.to_nat nrec
    /\ Forall (fun r => length r = ncol) rows.
Proof.
  intros H0 Hc Hl. unfold read_rows.
  rewrite (res_map_ok _ (fun i => map (fun k =>
    unle (slice (DBC_HEADER + i * recsz + 4 * Z.of_nat k)
                (DBC_HEADER + i * recsz + 4 * Z.of_nat k + 4) raw)) (seq 0 ncol))).
  - eexists. split; [reflexivity|]. unfold seqZ_from. rewrite !length_map, length_seq.
    split; [done|]. apply Forall_map, Forall_map. apply Forall_forall. intros x _.
    by rewrite length_map, length_seq.
  - intros i Hi%elem_of_seqZ_from. apply unpack_Is_ok.
    + unfold DBC_HEADER. nia.
    + unfold DBC_HEADER in *. assert ((i + 1) * recsz <= nrec * recsz) by nia. lia.
Qed.

Lemma unle_slice_nonneg raw i j : is_bytes raw -> 0 <= unle (slice i j raw).
Proof. intros H. apply unle_bound. by apply is_bytes_slice. Qed.

Lemma col_unpack raw n off hdr i :
  is_bytes raw -> unpack_Is n raw off = Ok hdr -> 0 <= col hdr i.
Proof.
  intros Hb. unfold unpack_Is. split_match; [|done]. intros H%Ok_inj. subst hdr. unfold col.
  destruct (lt_dec (Z.to_nat i) n) as [Hi|Hi].
  - rewrite (nth_indep _ 0 (unle (slice (off + 4 * Z.of_nat 0) (off + 4 * Z.of_nat 0 + 4) raw)))
      by (by rewrite length_map, length_seq).
    rewrite (map_nth (fun k => unle (slice (off + 4 * Z.of_nat k) (off + 4 * Z.of_nat k + 4) raw))).
    by apply unle_slice_nonneg.
  - rewrite nth_overflow; [lia|]. rewrite length_map, length_seq. lia.
Qed.

(** Whatever bytes the essence file holds, loading it does not raise: it
    gives the declared number of nine-column rows or no rows at all. *)
Theorem load_essence_rows_total file :
  (forall raw, file = Some raw -> is_bytes raw) ->
  exists rows, load_essence_rows file = Ok rows /\ Forall (fun r => length r = 9%nat) rows.
Proof.
  intros Hb. destruct file as [raw|]; [|by exists []].
  specialize (Hb raw eq_refl). unfold load_essence_rows.
  destruct ((pylen raw <? 20) || _) eqn:E; [by exists []|]. zbool.
  rewrite unpack_Is_ok by (change (Z.of_nat 4) with 4; lia). cbn [mbind res_bind].
  set (hdr := map _ _).
  assert (0 <= col hdr 2) as H2.
  { apply (col_unpack raw 4 4 hdr 2 Hb). apply unpack_Is_ok; change (Z.of_nat 4) with 4; lia. }
  clearbody hdr. destruct ((col hdr 1 <? 9) || _ || _) eqn:E2; [by exists []|]. zbool.
  destruct (read_rows_ok 9 raw (col hdr 0) (col hdr 2)) as (rows & Er & _ & Hrows).
  - lia.
  - change (Z.of_nat 9) with 9. lia.
  - unfold DBC_HEADER. rewrite Z.gtb_ltb in *. zbool. lia.
  - exists rows. done.
Qed.

Lemma load_essence_rows_total_witness :
  exists rows, load_essence_rows (Some (WDBC ++ le 4 1 ++ le 4 9 ++ le 4 36 ++ le 4 0 ++ replicate 36 1))
    = Ok rows /\ Forall (fun r => length r = 9%nat) rows.
Proof.
  apply load_essence_rows_total. intros raw [= <-]. unfold is_bytes, is_byte. vm_compute.
  repeat constructor; congruence.
Defined.

(** *** The curve *)

Lemma fold_left_min_elem l a : fold_left Z.min l a ∈ a :: l.
Proof.
  revert a; induction l as [|x l IH]; intros a; cbn; [left|].
  specialize (IH (Z.min a x)). apply elem_of_cons in IH as [E|H].
  - rewrite E, !elem_of_cons. lia.
  - rewrite !elem_of_cons. auto.
Qed.

Lemma fold_left_min_le l a x : x ∈ a :: l -> fold_left Z.min l a <= x.
Proof.
  revert a x; induction l as [|y l IH]; intros a x; cbn.
  - intros ->%list_elem_of_singleton. lia.
  - intros [->|[->|H]%elem_of_cons]%elem_of_cons.
    + etransitivity; [apply (IH (Z.min a y) (Z.min a y)); left|]. lia.
    + etransitivity; [apply (IH (Z.min a y) (Z.min a y)); left|]. lia.
    + apply IH. by right.
Qed.

Lemma dget_key_some {A} (d : list (Z * A)) k : k ∈ dkeys d -> is_Some (dget k d).
Proof.
  intros H. destruct (dget k d) eqn:E; [by eexists|]. by apply dget_None_keys in E.
Qed.

Lemma essence_for_ok override rows level key : exists p, essence_for override rows level key = Ok p.
Proof.
  unfold essence_for. destruct override as [p|]; [by exists p|].
  destruct (essence_curve rows key) as [|[k v] d] eqn:E; [by eexists|]. cbv beta iota zeta.
  rewrite <- E. destruct (dget level (essence_curve rows key)) as [p|]; [by eexists|].
  assert (exists lo, min_key (essence_curve rows key) = Ok lo /\ lo ∈ dkeys (essence_curve rows key))
    as (lo & -> & Hlo).
  { rewrite E. eexists. split; [reflexivity|]. cbn. apply fold_left_min_elem. }
  assert (exists hi, max_key (essence_curve rows key) = Ok hi) as [hi Hhi] by (rewrite E; by eexists).
  pose proof (max_key_elem _ _ Hhi) as Hin. rewrite Hhi. cbn [mbind res_bind].
  destruct (dget_key_some (essence_curve rows key) (if level >? hi then hi else lo)) as [p ->];
    [by destruct (level >? hi)|]. by eexists.
Qed.

(** A character gets the budget of its own level, and outside the table's
    range that of the nearest end: above the last level the last row, below
    the first (or in a gap) the first row. *)
Theorem essence_for_clamped rows level key lo hi :
  let curve := essence_curve rows key in
  min_key curve = Ok lo -> max_key curve = Ok hi ->
  exists p, essence_for None rows level key = Ok p
    /\ dget (match dget level curve with
             | Some _ => level
             | None => if level >? hi then hi else lo
             end) curve = Some p
    /\ lo <= hi.
Proof.
  cbn zeta. intros Hlo Hhi. unfold essence_for. destruct (essence_curve rows key) as [|[k v] d] eqn:Ec;
    [done|]. cbv beta iota zeta. rewrite <- Ec in *. clear Ec.
  assert (lo ∈ dkeys (essence_curve rows key)) as Hl.
  { unfold min_key in Hlo. destruct (essence_curve rows key) as [|[k' v'] d']; [done|].
    apply Ok_inj in Hlo. subst lo. apply fold_left_min_elem. }
  pose proof (max_key_elem _ _ Hhi) as Hh.
  pose proof (max_key_ge _ _ _ Hhi Hl) as Hle.
  destruct (dget level (essence_curve rows key)) as [p|] eqn:El.
  - by exists p.
  - rewrite Hlo, Hhi. cbn [mbind res_bind].
    destruct (dget_key_some (essence_curve rows key) (if level >? hi then hi else lo)) as [p Hp];
      [by destruct (level >? hi)|].
    exists p. by rewrite Hp.
Qed.

Definition sample_rows : list (list Z) :=
  [[1; 1; 10; 0; 0; 0; 0; 5; 2]; [2; 2; 10; 0; 0; 0; 0; 7; 3]; [3; 2; 28; 0; 0; 0; 0; 1; 1];
   [4; 2; 10; 1; 0; 0; 0; 99; 99]].

Lemma essence_for_clamped_witness :
  exists p, essence_for None sample_rows 80 None = Ok p /\ p = (7, 3).
Proof.
  destruct (essence_for_clamped sample_rows 80 None 1 2 eq_refl eq_refl) as (p & Hp & Hd & _).
  exists p. split; [exact Hp|]. vm_compute in Hd. congruence.
Defined.

(** *** The rows on the wire *)

Lemma combo_bits a b c d :
  let x (v : Z) := if negb (v =? 0) then 1 else 0 in
  let combo := Z.lor (Z.lor (Z.lor (x a) (Z.shiftl (x b) 1)) (Z.shiftl (x c) 2)) (Z.shiftl (x d) 3) in
  [Z.land (Z.shiftr combo 0) 1; Z.land (Z.shiftr combo 1) 1;
   Z.land (Z.shiftr combo 2) 1; Z.land (Z.shiftr combo 3) 1] = [x a; x b; x c; x d].
Proof.
  cbv beta zeta. by destruct (a =? 0), (b =? 0), (c =? 0), (d =? 0).
Qed.

(** Every essence row whose flags are 0 or 1 goes out as it is in the
    file: the packet body is the row's nine words in order (with an override,
    only the two budget words differ). *)
Theorem essence_packet_verbatim override r :
  length r = 9%nat -> Forall is_word r ->
  Forall (fun f => f = 0 \/ f = 1) (slice 3 7 r) ->
  (forall a t, override = Some (a, t) -> is_word a /\ is_word t) ->
  essence_packet override r
  = Ok (SMSG_CA_ESSENCE_BUDGET,
        concat (map (le 4) (take 7 r ++ match override with
                                        | Some (a, t) => [a; t]
                                        | None => drop 7 r
                                        end))).
Proof.
  intros Hl Hw Hf Ho.
  destruct r as [|r0 [|r1 [|r2 [|f0 [|f1 [|f2 [|f3 [|ae [|te [|]]]]]]]]]]; try discriminate Hl.
  change (slice 3 7 _) with [f0; f1; f2; f3] in Hf. unfold essence_packet, col.
  cbn [Z.to_nat Pos.to_nat Pos.iter_op nth Nat.add].
  assert (forall f, f = 0 \/ f = 1 -> (if negb (f =? 0) then 1 else 0) = f) as Hx
    by (by intros f [->| ->]).
  rewrite !Forall_cons in Hf. destruct Hf as (F0 & F1 & F2 & F3 & _).
  rewrite !Forall_cons in Hw. destruct Hw as (? & ? & ? & ? & ? & ? & ? & ? & ? & _).
  assert (forall a t, is_word a -> is_word t ->
    smsg_ca_essence_budget r0 r1 a t
      (Z.lor (Z.lor (Z.lor (if negb (f0 =? 0) then 1 else 0)
         (Z.shiftl (if negb (f1 =? 0) then 1 else 0) 1))
         (Z.shiftl (if negb (f2 =? 0) then 1 else 0) 2))
         (Z.shiftl (if negb (f3 =? 0) then 1 else 0) 3)) (Some r2)
    = Ok (concat (map (le 4) [r0; r1; r2; f0; f1; f2; f3; a; t]))) as Hb.
  { intros a t Ha Ht. unfold smsg_ca_essence_budget.
    pose proof (combo_bits f0 f1 f2 f3) as Hc. cbv beta zeta in Hc. rewrite !Hx in Hc by assumption.
    injection Hc as C0 C1 C2 C3. rewrite !Hx by assumption.
    rewrite C0, C1, C2, C3. cbn [default from_option id].
    rewrite res_map_packI_words; [reflexivity|].
    repeat (apply Forall_cons; split; [assumption|]). constructor. }
  destruct override as [[a t]|]; cbn [default from_option id]; cbv beta iota zeta.
  - destruct (Ho a t eq_refl). by rewrite Hb.
  - by rewrite Hb.
Qed.

Lemma essence_packet_verbatim_witness :
  length [4; 2; 10; 1; 0; 0; 0; 99; 98] = 9%nat
  /\ essence_packet None [4; 2; 10; 1; 0; 0; 0; 99; 98]
     = Ok (SMSG_CA_ESSENCE_BUDGET, concat (map (le 4) [4; 2; 10; 1; 0; 0; 0; 99; 98])).
Proof.
  split; [reflexivity|].
  apply (essence_packet_verbatim None [4; 2; 10; 1; 0; 0; 0; 99; 98]).
  - reflexivity.
  - unfold is_word. repeat constructor; lia.
  - change (slice 3 7 _) with [1; 0; 0; 0]. repeat (constructor; [auto|]). constructor.
  - discriminate.
Defined.
