(* ===== verification/Classes.v ===== *)
(** * Class types (world_server.py)

    The generic table reader, the ClassTypes and ChrClasses tables, the client's
    rule for which class a character byte admits, and the parser of a ".class"
    argument. *)
From S2P Require Import Prelude Wire PyFloat Text Consts Dbc.

(** [_dbc_table]: rows of recordSize/4 words and the string block. *)
Definition _dbc_table (file : option bytes) (min_cols : Z)
    : res (option (list (list Z) * bytes)) :=
  match file with
  | None => Ok None
  | Some raw =>
      if (pylen raw <? DBC_HEADER) || negb (bool_decide (slice_to 4 raw = WDBC)) then Ok None
      else
        hdr ← unpack_Is 4 raw 4;
        let nrec := col hdr 0 in let recsz := col hdr 2 in
        let ncol := recsz / 4 in
        if (ncol <? min_cols) || (DBC_HEADER + nrec * recsz >? pylen raw) then Ok None
        else
          rows ← read_rows (Z.to_nat ncol) raw nrec recsz;
          Ok (Some (rows, slice_from (DBC_HEADER + nrec * recsz) raw))
  end.

(** [_sblk_string]; [off] is an unsigned word. *)
Definition _sblk_string (sblk : bytes) (off : Z) : pystr :=
  match sblk with
  | [] => []
  | _ =>
      if (off <? 0) || (off >=? pylen sblk) then []
      else
        let tail := slice_from off sblk in
        utf8_decode_replace (match find_byte 0 tail with Some z => take z tail | None => tail end)
  end.

Record class_type := ClassType {
  ct_id : Z; ct_name : pystr; ct_display : pystr; ct_required : Z;
  ct_classic : Z; ct_custom : Z; ct_reborn : Z }.

Definition load_class_types (file : option bytes) : res (list class_type) :=
  t ← _dbc_table file (CLASS_TYPE_DISPLAY + 1);
  match t with
  | None => Ok []
  | Some (rows, sblk) =>
      Ok (map (fun r =>
        ClassType (col r 0) (_sblk_string sblk (col r CLASS_TYPE_NAME))
          (_sblk_string sblk (col r CLASS_TYPE_DISPLAY)) (col r CLASS_TYPE_REQUIRED)
          (col r CLASS_TYPE_CLASSIC) (col r CLASS_TYPE_CUSTOM) (col r CLASS_TYPE_REBORN)) rows)
  end.

(** [a or b] on strings. *)
Definition str_or (a b : pystr) : pystr := match a with [] => b | _ => a end.

Definition load_chrclasses (file : option bytes) : res (list (Z * pystr)) :=
  t ← _dbc_table file (CHRCLASS_FIELD_TOKEN + 1);
  match t with
  | None => Ok []
  | Some (rows, sblk) =>
      Ok (fold_left (fun d r =>
        dset (col r 0) (str_or (_sblk_string sblk (col r CHRCLASS_FIELD_NAME))
                               (_sblk_string sblk (col r CHRCLASS_FIELD_TOKEN))) d) rows [])
  end.

Definition class_type_matches (ct : class_type) (class_byte : Z) : bool :=
  if negb (ct_required ct =? 0) then class_byte =? ct_required ct
  else if negb (ct_classic ct =? 0) then class_byte =? 10
  else if negb (ct_custom ct =? 0) then (0 <=? class_byte - 12) && (class_byte - 12 <=? 20)
  else false.

Definition class_group (ct : class_type) : pystr :=
  if negb (ct_classic ct =? 0) then lit "classic"
  else if negb (ct_custom ct =? 0) then lit "custom"
  else if negb (ct_reborn ct =? 0) then lit "reborn"
  else lit "-".

Definition remove_chars (cs : list Z) (s : pystr) : pystr :=
  filter (fun c => c ∉ cs) s.

Section Resolve.
Context `{Unicode}.

Fixpoint resolve_name (flat : pystr) (cts : list class_type) : option Z * option class_type :=
  match cts with
  | [] => (None, None)
  | ct :: cts =>
      if ct_required ct =? 0 then resolve_name flat cts
      else if bool_decide (flat = uni_lower (ct_name ct))
              || bool_decide (flat = remove_chars [32] (uni_lower (ct_display ct)))
      then (Some (ct_required ct), Some ct)
      else resolve_name flat cts
  end.

(** [resolve_class_byte]: [t.isdigit()] guards [int(t)], which still raises on a
    digit that is not a decimal. *)
Definition resolve_class_byte (cts : list class_type) (token : pystr)
    : res (option Z * option class_type) :=
  let t := uni_lower (strip token) in
  match t with
  | [] => Ok (None, None)
  | _ =>
      if str_isdigit t then
        n ← int_of_str t;
        Ok (if (0 <? n) && (n <=? 0xFF) then (Some n, None) else (None, None))
      else Ok (resolve_name (remove_chars [32; 95; 45] t) cts)
  end.
End Resolve.

(** ** Properties *)

(** Loading any file gives a table whose rows have at least the requested
    columns, or none; it never raises. *)
Lemma dbc_table_total file min_cols :
  0 <= min_cols -> (forall raw, file = Some raw -> is_bytes raw) ->
  exists t, _dbc_table file min_cols = Ok t
    /\ match t with
       | Some (rows, _) => Forall (fun r => (Z.to_nat min_cols <= length r)%nat) rows
       | None => True
       end.
Proof.
  intros Hm Hb. destruct file as [raw|]; [|by exists None].
  specialize (Hb raw eq_refl). unfold _dbc_table.
  destruct ((pylen raw <? DBC_HEADER) || _) eqn:E; [by exists None|]. zbool. unfold DBC_HEADER in H.
  rewrite unpack_Is_ok by (change (Z.of_nat 4) with 4; lia). cbn [mbind res_bind].
  set (hdr := map _ _).
  assert (0 <= col hdr 2) as H2.
  { apply (col_unpack raw 4 4 hdr 2 Hb). apply unpack_Is_ok; change (Z.of_nat 4) with 4; lia. }
  clearbody hdr. destruct ((col hdr 2 / 4 <? min_cols) || _) eqn:E2; [by exists None|]. zbool.
  rewrite Z.gtb_ltb in *. zbool.
  pose proof (Z.div_mod (col hdr 2) 4 ltac:(lia)). pose proof (Z.mod_pos_bound (col hdr 2) 4 ltac:(lia)).
  assert (0 <= col hdr 2 / 4) by (apply Z.div_pos; lia).
  destruct (read_rows_ok (Z.to_nat (col hdr 2 / 4)) raw (col hdr 0) (col hdr 2))
    as (rows & -> & _ & Hrows); [lia | rewrite Z2Nat.id; lia | lia |].
  cbn [mbind res_bind]. eexists. split; [reflexivity|].
  eapply Forall_impl; [exact Hrows|]. intros r ->. lia.
Qed.

(** Which class bytes a class type admits: a required byte exactly that
    one, a classic row only the Hero byte 10, a custom row the bytes 12 to 32,
    any other row none. *)
Theorem class_type_matches_spec ct b :
  class_type_matches ct b = true <->
  (ct_required ct <> 0 /\ b = ct_required ct)
  \/ (ct_required ct = 0 /\ ct_classic ct <> 0 /\ b = 10)
  \/ (ct_required ct = 0 /\ ct_classic ct = 0 /\ ct_custom ct <> 0 /\ 12 <= b <= 32).
Proof.
  unfold class_type_matches.
  destruct (Z.eqb_spec (ct_required ct) 0) as [Er|Er]; cbn [negb]; [|rewrite Z.eqb_eq; lia].
  destruct (Z.eqb_spec (ct_classic ct) 0) as [Ec|Ec]; cbn [negb]; [|rewrite Z.eqb_eq; lia].
  destruct (Z.eqb_spec (ct_custom ct) 0) as [Eu|Eu]; cbn [negb].
  - split; [done|]. lia.
  - rewrite andb_true_iff, !Z.leb_le. lia.
Qed.

(** A row that is resolved by name really names a class, and it is one the
    answer admits. *)
Lemma resolve_name_sound `{Unicode} flat cts b ct :
  resolve_name flat cts = (Some b, ct) ->
  exists c, ct = Some c /\ c ∈ cts /\ b = ct_required c /\ b <> 0 /\ class_type_matches c b = true.
Proof.
  induction cts as [|c cts IH]; [done|]. cbn [resolve_name].
  destruct (Z.eqb_spec (ct_required c) 0) as [E|E].
  { intros (c' & -> & Hin & Hr)%IH. exists c'. split; [done|]. split; [by right|done]. }
  destruct (_ || _) eqn:E2.
  - intros [= <- <-]. exists c. split; [done|]. split; [left|]. split; [done|]. split; [done|].
    unfold class_type_matches. rewrite (proj2 (Z.eqb_neq _ _)) by exact E. cbn. apply Z.eqb_refl.
  - intros (c' & -> & Hin & Hr)%IH. exists c'. split; [done|]. split; [by right|done].
Qed.

(** A resolved ".class" argument is always a byte a character can have
    (1..255 for a number; for a name, a byte its own class type admits), and
    an argument of decimal digits is never looked up as a name. *)
Theorem resolve_class_byte_sound `{Unicode} cts token b ct :
  Forall (fun c => 0 <= ct_required c <= 255) cts ->
  resolve_class_byte cts token = Ok (Some b, ct) ->
  1 <= b <= 255
  /\ match ct with
     | None => str_isdigit (uni_lower (strip token)) = true
     | Some c => c ∈ cts /\ class_type_matches c b = true
     end.
Proof.
  intros Hc. unfold resolve_class_byte. set (t := uni_lower (strip token)). clearbody t.
  destruct t as [|x t]; [done|]. destruct (str_isdigit (x :: t)) eqn:Ed.
  - destruct (int_of_str (x :: t)) as [n|e]; [|done]. cbn [mbind res_bind]. intros Hr%Ok_inj.
    destruct ((0 <? n) && (n <=? 255)) eqn:E; [|done]. injection Hr as <- <-. zbool.
    split; [lia|done].
  - intros Hr%Ok_inj. apply resolve_name_sound in Hr as (c & -> & Hin & -> & Hne & Hm).
    rewrite Forall_forall in Hc. specialize (Hc c Hin). cbv beta in Hc. split; [lia|done].
Qed.

Definition tinker : class_type := ClassType 20 (lit "Tinker") (lit "Tinker") 28 0 1 0.
Definition sun_cleric : class_type := ClassType 21 (lit "SunCleric") (lit "Sun Cleric") 19 0 1 0.

Lemma resolve_class_byte_sound_witness :
  resolve_class_byte [tinker; sun_cleric] (lit " sun_cleric ") = Ok (Some 19, Some sun_cleric)
  /\ 1 <= 19 <= 255.
Proof.
  assert (resolve_class_byte [tinker; sun_cleric] (lit " sun_cleric ") = Ok (Some 19, Some sun_cleric)) as E
    by reflexivity.
  split; [exact E|].
  apply (resolve_class_byte_sound [tinker; sun_cleric] (lit " sun_cleric ") 19 (Some sun_cleric));
    [repeat constructor; cbn; lia | exact E].
Defined.

(** A superscript passes [isdigit] and then makes [int] raise: the command
    fails with an exception instead of "no such class". *)
Lemma class_superscript_raises : resolve_class_byte [tinker] [0xB2] = Err ValueError.
Proof. reflexivity. Qed.
