(* ===== verification/Spells.v ===== *)
(** * Spell.dbc and SpellDuration.dbc (world_server.py)

    The mapped spell table, the binary search with its cache, and the duration
    lookup.  [SpellDb] is the interface the rest of the server uses: a spell
    record by id and a table of durations; [dbc_spelldb] implements it from a
    well-formed file. *)
From S2P Require Import Prelude Wire PyFloat Text Consts Dbc Classes.

Record spell_effect := SpellEffect {
  se_effect : Z; se_basePoints : Z; se_dieSides : Z; se_aura : Z; se_amplitude : Z }.

Record spell_rec := SpellRec {
  si_id : Z; si_attributes : Z; si_name : pystr; si_rank : pystr;
  si_powerType : Z; si_manaCost : Z; si_manaCostPct : Z; si_manaCostPerLevel : Z;
  si_schoolMask : Z; si_dmgClass : Z; si_attributesEx5 : Z; si_durationIndex : Z;
  si_stackAmount : Z; si_effects : list spell_effect }.

(** The mapped file: the mapping, record count, record size, string block. *)
Record spell_map := SpellMap { sm_mm : bytes; sm_nrec : Z; sm_recsz : Z; sm_stroff : Z }.

(** [spell_dbc]: every failure is caught and leaves no table. *)
Definition spell_dbc (file : option bytes) : option spell_map :=
  match file with
  | None => None
  | Some mm =>
      match unpacki mm 4, unpacki mm 8, unpacki mm 12, unpacki mm 16 with
      | Ok nrec, Ok _, Ok recsz, Ok _ =>
          if negb (bool_decide (slice_to 4 mm = WDBC)) then None
          else if recsz <? (SPELL_FIELD_MAX + 1) * 4 then None
          else Some (SpellMap mm nrec recsz (DBC_HEADER + nrec * recsz))
      | _, _, _, _ => None
      end
  end.

Definition _dbc_string (mm : bytes) (stroff off : Z) : pystr :=
  if off <=? 0 then []
  else
    let tail := slice_from (stroff + off) mm in
    match find_byte 0 tail with
    | None => []
    | Some z => utf8_decode_replace (take z tail)
    end.

(** The record at byte offset [base]. *)
Definition read_spell (d : spell_map) (spell_id base : Z) : res spell_rec :=
  let u idx := unpackI (sm_mm d) (base + idx * 4) in
  let i32 idx := unpacki (sm_mm d) (base + idx * 4) in
  attributes ← u SPELL_FIELD_ATTRIBUTES;
  name ← u SPELL_FIELD_NAME;
  rank ← u SPELL_FIELD_RANK;
  powerType ← i32 SPELL_FIELD_POWER_TYPE;
  manaCost ← u SPELL_FIELD_MANA_COST;
  manaCostPct ← u SPELL_FIELD_MANA_COST_PCT;
  manaCostPerLevel ← u SPELL_FIELD_MANA_COST_LVL;
  schoolMask ← u SPELL_FIELD_SCHOOL_MASK;
  dmgClass ← u SPELL_FIELD_DMG_CLASS;
  attributesEx5 ← u SPELL_FIELD_ATTR_EX5;
  durationIndex ← i32 SPELL_FIELD_DURATION_INDEX;
  stackAmount ← u SPELL_FIELD_STACK_AMOUNT;
  effects ← res_map (fun n =>
    e ← u (SPELL_FIELD_EFFECT + n);
    b ← i32 (SPELL_FIELD_EFFECT_BASE + n);
    s ← i32 (SPELL_FIELD_EFFECT_DIE + n);
    a ← u (SPELL_FIELD_EFFECT_AURA + n);
    m ← i32 (SPELL_FIELD_EFFECT_AMPL + n);
    Ok (SpellEffect e b s a m)) [0; 1; 2];
  Ok (SpellRec spell_id attributes (_dbc_string (sm_mm d) (sm_stroff d) name)
        (_dbc_string (sm_mm d) (sm_stroff d) rank) powerType manaCost manaCostPct
        manaCostPerLevel schoolMask dmgClass attributesEx5 durationIndex stackAmount effects).

(** The [while lo <= hi] loop: the row of the id, if there is one. *)
Fixpoint find_row (fuel : nat) (d : spell_map) (spell_id lo hi : Z) : res (option Z) :=
  if lo <=? hi then
    match fuel with
    | O => Err OutOfFuel
    | S fuel =>
        let mid := (lo + hi) / 2 in
        v ← unpackI (sm_mm d) (DBC_HEADER + mid * sm_recsz d);
        if v <? spell_id then find_row fuel d spell_id (mid + 1) hi
        else if v >? spell_id then find_row fuel d spell_id lo (mid - 1)
        else Ok (Some mid)
    end
  else Ok None.

(** [spell_info] without its cache; each round at least halves the interval,
    so one more round than the record count is plenty. *)
Definition spell_lookup (d : option spell_map) (spell_id : Z) : res (option spell_rec) :=
  match d with
  | None => Ok None
  | Some d =>
      row ← find_row (S (Z.to_nat (sm_nrec d))) d spell_id 0 (sm_nrec d - 1);
      match row with
      | None => Ok None
      | Some mid => r ← read_spell d spell_id (DBC_HEADER + mid * sm_recsz d); Ok (Some r)
      end
  end.

(** [spell_info]: the cache holds misses too. *)
Abbreviation spell_cache := (list (Z * option spell_rec)).

Definition spell_info_cached (d : option spell_map) (cache : spell_cache) (spell_id : Z)
    : res (option spell_rec) * spell_cache :=
  match dget spell_id cache with
  | Some out => (Ok out, cache)
  | None =>
      match spell_lookup d spell_id with
      | Ok out => (Ok out, dset spell_id out cache)
      | Err e => (Err e, cache)
      end
  end.

(** ** Durations *)

Definition load_durations (file : option bytes) : res (list (Z * Z)) :=
  t ← _dbc_table file 4;
  match t with
  | None => Ok []
  | Some (rows, _) =>
      Ok (fold_left (fun d r =>
        dset (col r 0) (if col r 1 <? 0x80000000 then col r 1 else col r 1 - 0x100000000) d) rows [])
  end.

(** [spell_duration_ms], with the loaded table. *)
Definition spell_duration_ms (durations : list (Z * Z)) (info : option spell_rec) : Z :=
  match info with
  | None => 0
  | Some info =>
      let idx := si_durationIndex info in
      if idx <=? 0 then 0
      else
        let d := default 0 (dget idx durations) in
        if (d <? 0) || (d >? 86400000) then 0 else d
  end.

(** ** The interface *)

Class SpellDb := {
  spell_info : Z -> option spell_rec;
  durations : list (Z * Z);
  spell_info_id n r : spell_info n = Some r -> si_id r = n;
  spell_info_range n r : spell_info n = Some r -> 0 <= n < 2 ^ 32;
}.

(** An aura's duration is never negative and never more than a day: the
    infinity markers and the "effectively forever" rows all become 0. *)
Theorem spell_duration_bounds ds info : 0 <= spell_duration_ms ds info <= 86400000.
Proof.
  unfold spell_duration_ms. destruct info as [info|]; [|lia].
  destruct (si_durationIndex info <=? 0); [lia|]. cbv zeta.
  destruct ((default 0 (dget (si_durationIndex info) ds) <? 0) || _) eqn:E; [lia|].
  rewrite Z.gtb_ltb in E. zbool. lia.
Qed.

(** ** The search *)

(** The id column of row [k]. *)
Definition id_at (d : spell_map) (k : Z) : Z :=
  unle (slice (DBC_HEADER + k * sm_recsz d) (DBC_HEADER + k * sm_recsz d + 4) (sm_mm d)).

(** A file that holds all the records it declares, with ascending ids. *)
Record spell_map_ok (d : spell_map) : Prop := {
  smo_bytes : is_bytes (sm_mm d);
  smo_recsz : (SPELL_FIELD_MAX + 1) * 4 <= sm_recsz d;
  smo_size : DBC_HEADER + sm_nrec d * sm_recsz d <= pylen (sm_mm d);
  smo_sorted : forall i j, 0 <= i < j -> j < sm_nrec d -> id_at d i < id_at d j;
}.

Lemma unpack_u_in n b off :
  0 <= off -> off + Z.of_nat n <= pylen b ->
  unpack_u n b off = Ok (unle (slice off (off + Z.of_nat n) b)).
Proof.
  intros H1 H2. unfold unpack_u.
  by rewrite (proj2 (Z.leb_le _ _) H1), (proj2 (Z.leb_le _ _) H2).
Qed.

Lemma field_in_record d k i :
  spell_map_ok d -> 0 <= k < sm_nrec d -> 0 <= i <= SPELL_FIELD_MAX ->
  0 <= DBC_HEADER + k * sm_recsz d + i * 4
  /\ DBC_HEADER + k * sm_recsz d + i * 4 + 4 <= pylen (sm_mm d).
Proof.
  intros [_ Hr Hs _] Hk Hi. unfold DBC_HEADER in *.
  change ((SPELL_FIELD_MAX + 1) * 4) with 904 in Hr. change SPELL_FIELD_MAX with 225 in Hi.
  assert ((k + 1) * sm_recsz d <= sm_nrec d * sm_recsz d) by nia. nia.
Qed.

Lemma read_id d k :
  spell_map_ok d -> 0 <= k < sm_nrec d ->
  unpackI (sm_mm d) (DBC_HEADER + k * sm_recsz d) = Ok (id_at d k).
Proof.
  intros Hok Hk. destruct (field_in_record d k 0 Hok Hk) as [H1 H2]; [unfold SPELL_FIELD_MAX, SPELL_FIELD_SCHOOL_MASK; lia|].
  apply (unpack_u_in 4); change (Z.of_nat 4) with 4; lia.
Qed.

Lemma find_row_spec d spell_id fuel lo hi :
  spell_map_ok d -> 0 <= lo -> hi < sm_nrec d -> hi - lo + 1 <= Z.of_nat fuel ->
  exists o, find_row fuel d spell_id lo hi = Ok o
    /\ match o with
       | Some k => lo <= k <= hi /\ id_at d k = spell_id
       | None => forall k, lo <= k <= hi -> id_at d k <> spell_id
       end.
Proof.
  intros Hok. revert lo hi. induction fuel as [|fuel IH]; intros lo hi Hlo Hhi Hf.
  - exists None. cbn. rewrite (proj2 (Z.leb_gt lo hi)) by lia. split; [done|]. lia.
  - cbn [find_row]. destruct (Z.leb_spec lo hi) as [Hle|Hgt]; [|exists None; split; [done|lia]].
    set (mid := (lo + hi) / 2).
    assert (lo <= mid <= hi) as Hmid
      by (split; [apply Z.div_le_lower_bound | apply Z.div_le_upper_bound]; lia).
    rewrite (read_id d mid Hok) by lia. cbn [mbind res_bind].
    destruct (Z.ltb_spec (id_at d mid) spell_id) as [Hlt|Hge].
    + destruct (IH (mid + 1) hi) as (o & -> & Ho); [lia..|]. exists o. split; [done|].
      destruct o as [k|]; [split; [lia | apply Ho]|].
      intros k Hk. destruct (Z.le_gt_cases (mid + 1) k); [apply Ho; lia|].
      destruct (Z.eq_dec k mid) as [->|]; [lia|].
      pose proof (smo_sorted d Hok k mid). lia.
    + rewrite Z.gtb_ltb. destruct (Z.ltb_spec spell_id (id_at d mid)) as [Hlt|Hle2].
      * destruct (IH lo (mid - 1)) as (o & -> & Ho); [lia..|]. exists o. split; [done|].
        destruct o as [k|]; [split; [lia | apply Ho]|].
        intros k Hk. destruct (Z.le_gt_cases k (mid - 1)); [apply Ho; lia|].
        destruct (Z.eq_dec k mid) as [->|]; [lia|].
        pose proof (smo_sorted d Hok mid k). lia.
      * exists (Some mid). split; [done|]. lia.
Qed.

Lemma unpacki_in b off :
  0 <= off -> off + 4 <= pylen b -> exists v, unpacki b off = Ok v.
Proof.
  intros H1 H2. unfold unpacki, unpackI. rewrite unpack_u_in by (change (Z.of_nat 4) with 4; lia).
  cbn. eauto.
Qed.

Lemma read_spell_ok d spell_id k :
  spell_map_ok d -> 0 <= k < sm_nrec d ->
  exists r, read_spell d spell_id (DBC_HEADER + k * sm_recsz d) = Ok r /\ si_id r = spell_id.
Proof.
  intros Hok Hk. unfold read_spell. cbv zeta. set (base := DBC_HEADER + k * sm_recsz d).
  assert (forall i, 0 <= i <= SPELL_FIELD_MAX -> exists v, unpackI (sm_mm d) (base + i * 4) = Ok v) as Hu.
  { intros i Hi. destruct (field_in_record d k i Hok Hk Hi). eexists. unfold unpackI.
    apply unpack_u_in; unfold base; change (Z.of_nat 4) with 4; lia. }
  assert (forall i, 0 <= i <= SPELL_FIELD_MAX -> exists v, unpacki (sm_mm d) (base + i * 4) = Ok v) as Hi.
  { intros i Hi. destruct (field_in_record d k i Hok Hk Hi). apply unpacki_in; unfold base; lia. }
  clearbody base.
  repeat match goal with
  | |- context [mbind _ (unpackI (sm_mm d) (base + ?i * 4))] =>
      destruct (Hu i) as [? ->]; [vm_compute; split; congruence | cbn [mbind res_bind]]
  | |- context [mbind _ (unpacki (sm_mm d) (base + ?i * 4))] =>
      destruct (Hi i) as [? ->]; [vm_compute; split; congruence | cbn [mbind res_bind]]
  | |- context [res_map _ (?x :: _)] => cbn [res_map]
  | |- context [res_map _ []] => cbn [res_map mbind res_bind]
  end.
  eexists. split; [reflexivity|done].
Qed.

(** The binary search over a well-formed Spell.dbc finds a record exactly
    for the ids the file contains, reads that record, and never runs out of
    the file or of rounds. *)
Theorem spell_lookup_spec d spell_id :
  spell_map_ok d -> 0 <= sm_nrec d ->
  exists o, spell_lookup (Some d) spell_id = Ok o
    /\ match o with
       | Some r => si_id r = spell_id
           /\ exists k, 0 <= k < sm_nrec d /\ id_at d k = spell_id
               /\ read_spell d spell_id (DBC_HEADER + k * sm_recsz d) = Ok r
       | None => forall k, 0 <= k < sm_nrec d -> id_at d k <> spell_id
       end.
Proof.
  intros Hok Hn. unfold spell_lookup.
  destruct (find_row_spec d spell_id (S (Z.to_nat (sm_nrec d))) 0 (sm_nrec d - 1) Hok)
    as (o & -> & Ho); [lia..|]. cbn [mbind res_bind]. destruct o as [k|].
  - destruct Ho as [Hk Hid]. destruct (read_spell_ok d spell_id k Hok) as (r & Er & Hr); [lia|].
    rewrite Er. cbn [mbind res_bind]. exists (Some r). split; [done|]. split; [exact Hr|].
    exists k. split; [lia|]. split; [exact Hid | exact Er].
  - exists None. split; [done|]. intros k Hk. apply Ho. lia.
Qed.

(** A file of two spells, 7 and 9, with zeroes in every other column. *)
Definition tiny_file : bytes :=
  WDBC ++ le 4 2 ++ le 4 234 ++ le 4 936 ++ le 4 1
  ++ (le 4 7 ++ replicate 932 0) ++ (le 4 9 ++ replicate 932 0) ++ [0].

Definition tiny_map : spell_map := SpellMap tiny_file 2 936 (20 + 2 * 936).

Lemma tiny_map_is : spell_dbc (Some tiny_file) = Some tiny_map.
Proof. vm_compute. reflexivity. Qed.

Lemma tiny_map_ok : spell_map_ok tiny_map.
Proof.
  constructor.
  - unfold is_bytes, is_byte. apply Forall_forall. intros x Hx%list_elem_of_In.
    assert (forallb (fun x => (0 <=? x) && (x <? 256)) (sm_mm tiny_map) = true) as H
      by (vm_compute; reflexivity).
    rewrite forallb_forall in H. specialize (H x Hx). zbool. lia.
  - vm_compute. congruence.
  - vm_compute. congruence.
  - intros i j Hij Hj. change (sm_nrec tiny_map) with 2 in Hj.
    assert (i = 0) as -> by lia. assert (j = 1) as -> by lia. vm_compute. reflexivity.
Qed.

Lemma spell_lookup_spec_witness :
  exists o, spell_lookup (Some tiny_map) 9 = Ok o
    /\ match o with
       | Some r => si_id r = 9
           /\ exists k, 0 <= k < 2 /\ id_at tiny_map k = 9
               /\ read_spell tiny_map 9 (DBC_HEADER + k * 936) = Ok r
       | None => forall k, 0 <= k < 2 -> id_at tiny_map k <> 9
       end.
Proof. apply (spell_lookup_spec tiny_map 9 tiny_map_ok). vm_compute. congruence. Defined.

(** *** The cache *)

(** Every cached answer is the one a fresh search gives. *)
Definition cache_ok (d : option spell_map) (cache : spell_cache) : Prop :=
  forall id out, dget id cache = Some out -> spell_lookup d id = Ok out.

Lemma spell_info_cached_step d cache id :
  cache_ok d cache ->
  fst (spell_info_cached d cache id) = spell_lookup d id
  /\ cache_ok d (snd (spell_info_cached d cache id)).
Proof.
  intros Hc. unfold spell_info_cached. destruct (dget id cache) as [out|] eqn:E; cbn.
  - split; [symmetry; by apply Hc | exact Hc].
  - destruct (spell_lookup d id) as [out|e] eqn:El; cbn; [|done]. split; [done|].
    intros id' out'. rewrite dget_dset. case_decide as Hd; [subst; congruence | apply Hc].
Qed.

Fixpoint lookups (d : option spell_map) (cache : spell_cache) (ids : list Z)
    : list (res (option spell_rec)) :=
  match ids with
  | [] => []
  | id :: ids =>
      let '(r, cache) := spell_info_cached d cache id in r :: lookups d cache ids
  end.

(** The cache is invisible: any sequence of lookups from an empty cache
    answers as the uncached search does, misses and errors included. *)
Theorem spell_cache_transparent d ids : lookups d [] ids = map (spell_lookup d) ids.
Proof.
  assert (forall cache, cache_ok d cache -> lookups d cache ids = map (spell_lookup d) ids) as H.
  { induction ids as [|id ids IH]; intros cache Hc; [done|]. cbn.
    destruct (spell_info_cached_step d cache id Hc) as [Hr Hc'].
    destruct (spell_info_cached d cache id) as [r cache']. cbn in *. rewrite Hr. f_equal. auto. }
  apply H. by intros id out.
Qed.

(** ** The implementation of the interface *)

Definition info_of (d : spell_map) (n : Z) : option spell_rec :=
  match spell_lookup (Some d) n with Ok o => o | Err _ => None end.

Lemma info_of_id d (Hok : spell_map_ok d) (Hn : 0 <= sm_nrec d) n r :
  info_of d n = Some r -> si_id r = n.
Proof.
  unfold info_of, spell_lookup.
  destruct (find_row_spec d n (S (Z.to_nat (sm_nrec d))) 0 (sm_nrec d - 1) Hok)
    as (o & -> & Ho); [lia..|]. cbn [mbind res_bind]. destruct o as [k|]; [|done].
  destruct (read_spell_ok d n k Hok) as (r' & -> & Hr); [lia|]. cbn. by intros [= <-].
Qed.

Lemma info_of_range d (Hok : spell_map_ok d) (Hn : 0 <= sm_nrec d) n r :
  info_of d n = Some r -> 0 <= n < 2 ^ 32.
Proof.
  unfold info_of, spell_lookup.
  destruct (find_row_spec d n (S (Z.to_nat (sm_nrec d))) 0 (sm_nrec d - 1) Hok)
    as (o & -> & Ho); [lia..|]. cbn [mbind res_bind]. destruct o as [k|]; [|done].
  destruct Ho as [Hk <-]. intros _. unfold id_at.
  destruct (field_in_record d k 0 Hok) as [H1 H2]; [lia | vm_compute; split; congruence|].
  assert (length (slice (DBC_HEADER + k * sm_recsz d) (DBC_HEADER + k * sm_recsz d + 4) (sm_mm d)) = 4%nat) as Hl
    by (rewrite length_slice; lia).
  pose proof (unle_bound _ (is_bytes_slice (DBC_HEADER + k * sm_recsz d)
    (DBC_HEADER + k * sm_recsz d + 4) _ (smo_bytes d Hok))) as Hb.
  unfold pylen in Hb. rewrite Hl in Hb. exact Hb.
Qed.

Definition dbc_spelldb (d : spell_map) (ds : list (Z * Z)) (Hok : spell_map_ok d)
    (Hn : 0 <= sm_nrec d) : SpellDb :=
  {| spell_info := info_of d; durations := ds; spell_info_id := info_of_id d Hok Hn;
     spell_info_range := info_of_range d Hok Hn |}.
