(* ===== verification/Known.v ===== *)
(** * Known entries (world_server.py)

    The Character Advancement entries a character has learned: reading and
    replacing them in knownentries.json, the index over entries.csv, the chain
    from an entry to the spell it grants, the spellbook packets, and the class
    filter over the known set. *)
From S2P Require Import Prelude Wire PyFloat Text Json Consts Dbc Classes Spells.

(** ** Rows of a known set *)

Record ca_row := CaRow { kr_id : Z; kr_rank : Z }.

#[export] Instance ca_row_eq_dec : EqDecision ca_row.
Proof. solve_decision. Defined.

Definition row_leb (a b : ca_row) : bool := kr_id a <=? kr_id b.

Section KnownRows.
Context `{Unicode}.

(** One round of the loops of [known_for] and [build_rows]: a row that is
    not an {id, rank} pair is skipped. *)
Definition parse_row (r : json) : res (option ca_row) :=
  match (i ← jitem r (lit "id"); id ← py_int i;
         k ← jget r (lit "rank") (JInt 1); rank ← py_int k; Ok (CaRow id rank)) with
  | Ok row => Ok (Some row)
  | Err (KeyError | TypeError | ValueError) => Ok None
  | Err e => Err e
  end.

Definition rows_of_json (v : json) : res (list ca_row) :=
  l ← py_iter v;
  rs ← res_map parse_row l;
  Ok (py_sort row_leb (omap id rs)).

(** [known_for], on the content of knownentries.json. *)
Definition known_for (db : jdict) (guid : Z) : res (list ca_row) :=
  rows_of_json (default (JList []) (dget (str_of_Z guid) db)).

Definition row_json (r : ca_row) : json :=
  JDict [(lit "id", JInt (kr_id r)); (lit "rank", JInt (kr_rank r))].

Definition set_known (db : jdict) (guid : Z) (rows : list ca_row) : jdict :=
  let key := str_of_Z guid in
  match rows with
  | [] => ddel key db
  | _ => dset key (JList (map row_json rows)) db
  end.

Lemma parse_row_json r : parse_row (row_json r) = Ok (Some r).
Proof. by destruct r. Qed.

Lemma rows_of_json_rows rows :
  rows_of_json (JList (map row_json rows)) = Ok (py_sort row_leb rows).
Proof.
  unfold rows_of_json. cbn [py_iter mbind res_bind].
  rewrite (res_map_ok _ (fun v => match parse_row v with Ok o => o | _ => None end)).
  - cbn [mbind res_bind]. do 2 f_equal. rewrite map_map. induction rows as [|r rows IH]; [done|].
    cbn [map omap list_omap]. rewrite parse_row_json. cbn [id]. f_equal. exact IH.
  - intros v (r & -> & _)%list_elem_of_fmap. by rewrite parse_row_json.
Qed.

Lemma known_for_set db guid rows :
  dict_ok db -> known_for (set_known db guid rows) guid = Ok (py_sort row_leb rows).
Proof.
  intros Hd. unfold known_for, set_known. destruct rows as [|r rows].
  - by rewrite dget_ddel_eq by exact Hd.
  - rewrite dget_dset_eq. apply rows_of_json_rows.
Qed.

Lemma row_leb_total a b : row_leb a b = false -> row_leb b a = true.
Proof. unfold row_leb. rewrite Z.leb_gt, Z.leb_le. lia. Qed.
Lemma row_leb_trans a b c : row_leb a b = true -> row_leb b c = true -> row_leb a c = true.
Proof. unfold row_leb. rewrite !Z.leb_le. lia. Qed.

Lemma rows_of_json_sorted v rows : rows_of_json v = Ok rows -> py_sort row_leb rows = rows.
Proof.
  unfold rows_of_json. intros E. inv_binds E. apply Ok_inj in E. subst rows.
  apply py_sort_id, py_sort_sorted; [apply row_leb_total | apply row_leb_trans].
Qed.

(** Replacing a character's known set is what reading it returns (in id
    order), and no other character's set changes. *)
Theorem known_set_get db guid rows g :
  dict_ok db -> 0 <= guid -> 0 <= g ->
  known_for (set_known db guid rows) g
  = if decide (g = guid) then Ok (py_sort row_leb rows) else known_for db g.
Proof.
  intros Hd Hguid Hg. case_decide as E; [subst; by apply known_for_set|].
  assert (str_of_Z g <> str_of_Z guid) as Hs by (intros ?; by apply E, str_of_Z_inj).
  unfold known_for, set_known. destruct rows as [|r rows].
  - by rewrite dget_ddel_ne.
  - by rewrite dget_dset, decide_False.
Qed.
End KnownRows.

Lemma known_set_get_witness :
  known_for (set_known [] 7 [CaRow 9 1; CaRow 4 2]) 7 = Ok [CaRow 4 2; CaRow 9 1].
Proof.
  rewrite (known_set_get [] 7 [CaRow 9 1; CaRow 4 2] 7); [reflexivity | apply dict_ok_nil | lia..].
Defined.

(** ** The entry index *)

(** A row of [csv.DictReader]: a missing column is [None]. *)
Abbreviation csv_row := (list (pystr * option pystr)).

(** [row.get(k)]. *)
Definition csv_get (row : csv_row) (k : pystr) : option pystr := mjoin (dget k row).

(** [row.get(k) or ""]. *)
Definition csv_str (row : csv_row) (k : pystr) : pystr := default [] (csv_get row k).

Section Entries.
Context `{Unicode}.

(** [ca_entry_index]: rows without an integer ID are skipped, a later row
    with the same ID replaces the earlier one. *)
Definition ca_entry_index (rows : list csv_row) : list (Z * csv_row) :=
  fold_left (fun idx row =>
    match csv_get row (lit "ID") with
    | Some s => match int_of_str s with Ok n => dset n row idx | Err _ => idx end
    | None => idx
    end) rows [].

(** [int(row.get(col) or 0)], 0 when that raises. *)
Definition chain_col (row : csv_row) (col : pystr) : Z :=
  match csv_str row col with
  | [] => 0
  | s => match int_of_str s with Ok n => n | Err _ => 0 end
  end.

Definition chain_cols : list pystr :=
  [lit "SpellID"; lit "SpellID2"; lit "SpellID3"; lit "SpellID4"; lit "SpellID5"].

Definition spell_chain (row : csv_row) : list Z :=
  filter (fun sid => sid <> 0) (map (chain_col row) chain_cols).

Definition ca_entry_spell (idx : list (Z * csv_row)) (entry_id rank : Z) : Z * option csv_row :=
  match dget entry_id idx with
  | None => (0, None)
  | Some row =>
      let chain := spell_chain row in
      match chain with
      | [] => (0, Some row)
      | _ => (nth (Z.to_nat (Z.min (Z.max rank 1) (pylen chain) - 1)) chain 0, Some row)
      end
  end.

(** A learned entry grants a spell of its own rank chain: the link at the
    learned rank, the first for any rank below 1 and the last for any rank
    past the end, and no spell only when the entry has no link at all. *)
Theorem ca_entry_spell_clamped idx entry_id rank row :
  dget entry_id idx = Some row ->
  let chain := spell_chain row in
  let sid := fst (ca_entry_spell idx entry_id rank) in
  (sid = 0 <-> chain = [])
  /\ (1 <= rank <= pylen chain -> chain !! Z.to_nat (rank - 1) = Some sid)
  /\ (rank < 1 -> chain <> [] -> chain !! 0%nat = Some sid)
  /\ (pylen chain < rank -> chain <> [] -> last chain = Some sid).
Proof.
  intros Hr. cbv zeta. unfold ca_entry_spell. rewrite Hr. cbv zeta.
  assert (Forall (fun sid => sid <> 0) (spell_chain row)) as Hnz.
  { apply Forall_forall. intros x. unfold spell_chain. by intros [? _]%list_elem_of_filter. }
  destruct (spell_chain row) as [|a t] eqn:E; cbn [fst].
  { split; [done|]. split; [|done]. rewrite pylen_nil. lia. }
  set (l := a :: t) in *.
  assert (1 <= pylen l) as Hl by (unfold l; rewrite pylen_cons; pose proof (pylen_nonneg t); lia).
  set (k := Z.to_nat (Z.min (Z.max rank 1) (pylen l) - 1)).
  assert (k < length l)%nat as Hk by (unfold k, pylen in *; lia).
  destruct (nth_lookup_or_length l k 0) as [Hn|Hn]; [|lia].
  split; [|split; [|split]].
  - split; [|done]. intros H0. rewrite H0 in Hn.
    apply list_elem_of_lookup_2 in Hn. rewrite Forall_forall in Hnz. by apply Hnz in Hn.
  - intros Hrk. rewrite <- Hn. f_equal. unfold k. lia.
  - intros Hrk _. rewrite <- Hn. f_equal. unfold k. lia.
  - intros Hrk _. rewrite last_lookup, <- Hn. f_equal. unfold k, pylen in *. lia.
Qed.
End Entries.

Definition chained_row : csv_row :=
  [(lit "ID", Some (lit "40")); (lit "Name", Some (lit "Refined Gunpowder"));
   (lit "ClassType", Some (lit "Tinker")); (lit "SpellID", Some (lit "705781"));
   (lit "SpellID2", Some (lit "705782")); (lit "SpellID3", Some []); (lit "SpellID4", None)].

Lemma ca_entry_spell_clamped_witness :
  dget 40 (ca_entry_index [chained_row]) = Some chained_row
  /\ last (spell_chain chained_row) = Some (fst (ca_entry_spell (ca_entry_index [chained_row]) 40 9)).
Proof.
  assert (dget 40 (ca_entry_index [chained_row]) = Some chained_row) as H by reflexivity.
  split; [exact H|].
  apply (ca_entry_spell_clamped (ca_entry_index [chained_row]) 40 9 chained_row H);
    [reflexivity | discriminate].
Defined.

(** ** Known entries as spells *)

Record known_spell := KnownSpell {
  ks_entry : Z; ks_rank : Z; ks_spell : Z; ks_name : pystr; ks_passive : bool }.

Section KnownSpells.
Context `{Unicode} `{SpellDb}.

(** [ca_known_spells], the loop over the known rows. *)
Fixpoint ca_known_spells_go (idx : list (Z * csv_row)) (rows : list ca_row) (seen : list Z)
    : list known_spell :=
  match rows with
  | [] => []
  | r :: rows =>
      let '(sid, row) := ca_entry_spell idx (kr_id r) (kr_rank r) in
      if sid =? 0 then ca_known_spells_go idx rows seen
      else if bool_decide (sid ∈ seen) then ca_known_spells_go idx rows seen
      else match spell_info sid with
      | None => ca_known_spells_go idx rows seen
      | Some info =>
          KnownSpell (kr_id r) (kr_rank r) sid
            (str_or (si_name info) (csv_str (default [] row) (lit "Name")))
            (negb (Z.land (si_attributes info) SPELL_ATTR0_PASSIVE =? 0))
          :: ca_known_spells_go idx rows (sid :: seen)
      end
  end.

Definition ca_known_spells (idx : list (Z * csv_row)) (db : jdict) (guid : Z)
    : res (list known_spell) :=
  rows ← known_for db guid; Ok (ca_known_spells_go idx rows []).

Definition smsg_initial_spells (spells : list known_spell) : res bytes :=
  n ← packH (pylen spells);
  rows ← res_map (fun s => b ← packI (ks_spell s); Ok (b ++ le 2 0)) spells;
  Ok ([0] ++ n ++ concat rows ++ le 2 0).

Definition smsg_learned_spell (spell_id : Z) : res bytes :=
  b ← packI spell_id; Ok (b ++ le 2 0).

Definition smsg_removed_spell (spell_id : Z) : res bytes := packI spell_id.

Lemma known_go_spec idx rows seen sid :
  sid ∈ map ks_spell (ca_known_spells_go idx rows seen) <->
  (sid ∉ seen) /\ sid <> 0 /\ is_Some (spell_info sid)
  /\ exists r, r ∈ rows /\ fst (ca_entry_spell idx (kr_id r) (kr_rank r)) = sid.
Proof.
  revert seen. induction rows as [|r rows IH]; intros seen; cbn [ca_known_spells_go].
  - cbn. split; [by intros []%not_elem_of_nil|]. intros (_ & _ & _ & r & []%not_elem_of_nil & _).
  - destruct (ca_entry_spell idx (kr_id r) (kr_rank r)) as [s0 row] eqn:E.
    assert (forall P : Prop, (exists r', r' ∈ r :: rows /\ fst (ca_entry_spell idx (kr_id r') (kr_rank r')) = sid)
      <-> s0 = sid \/ exists r', r' ∈ rows /\ fst (ca_entry_spell idx (kr_id r') (kr_rank r')) = sid) as Hex.
    { intros _. split.
      - intros (r' & [->|Hin]%elem_of_cons & He); [left; by rewrite E in He | right; eauto].
      - intros [->|(r' & Hin & He)]; [exists r; split; [left|by rewrite E] | exists r'; split; [by right|done]]. }
    rewrite (Hex True). clear Hex.
    destruct (Z.eqb_spec s0 0) as [->|Hne].
    { rewrite IH. split; [intros (?&?&?&?); tauto|]. intros (?&?&?&[?|?]); [congruence|tauto]. }
    destruct (bool_decide (s0 ∈ seen)) eqn:Eseen.
    { apply bool_decide_eq_true in Eseen. rewrite IH. split; [intros (?&?&?&?); tauto|].
      intros (?&?&?&[?|?]); [congruence|tauto]. }
    apply bool_decide_eq_false in Eseen.
    destruct (spell_info s0) as [info|] eqn:Ei.
    + cbn [map ks_spell]. rewrite elem_of_cons, IH, not_elem_of_cons. split.
      * intros [->|((?&?)&?&?&?)]; [|tauto]. split; [done|]. split; [done|].
        split; [by eexists|by left].
      * intros (?&?&?&[->|?]); [by left|]. destruct (decide (sid = s0)); [by left|right; tauto].
    + rewrite IH. split; [intros (?&?&?&?); tauto|]. intros (?&?&[? ?]&[?|?]); [congruence|].
      split; [done|]. split; [done|]. split; [by eexists|done].
Qed.

Lemma known_go_nodup idx rows seen :
  NoDup (map ks_spell (ca_known_spells_go idx rows seen)).
Proof.
  revert seen. induction rows as [|r rows IH]; intros seen; cbn [ca_known_spells_go]; [constructor|].
  destruct (ca_entry_spell _ _ _) as [s0 row]. destruct (s0 =? 0); [auto|].
  destruct (bool_decide _); [auto|]. destruct (spell_info s0) as [info|]; [|auto].
  cbn [map ks_spell]. constructor; [|auto]. rewrite known_go_spec.
  intros (Hn & _). apply Hn. left.
Qed.

(** The spells a character is granted: each once, exactly the ones some
    known entry resolves to and Spell.dbc holds -- an unresolvable entry never
    puts an id on the wire that the client does not have. *)
Theorem ca_known_spells_spec idx db guid rows :
  known_for db guid = Ok rows ->
  exists spells, ca_known_spells idx db guid = Ok spells
    /\ NoDup (map ks_spell spells)
    /\ forall sid, sid ∈ map ks_spell spells <->
         sid <> 0 /\ is_Some (spell_info sid)
         /\ exists r, r ∈ rows /\ fst (ca_entry_spell idx (kr_id r) (kr_rank r)) = sid.
Proof.
  intros Hr. unfold ca_known_spells. rewrite Hr. cbn [mbind res_bind].
  eexists. split; [reflexivity|]. split; [apply known_go_nodup|].
  intros sid. rewrite known_go_spec. split; [intros (_ & ?); done|].
  intros ?. split; [apply not_elem_of_nil|done].
Qed.
End KnownSpells.

(** A database of one active and one passive spell. *)
Definition bare_spell (id attributes : Z) : spell_rec :=
  SpellRec id attributes (lit "Spell") [] 0 0 0 0 0 0 0 0 0 [].

#[local] Program Instance two_spells : SpellDb := {|
  spell_info n := if n =? 705781 then Some (bare_spell 705781 0)
                  else if n =? 705782 then Some (bare_spell 705782 64) else None;
  durations := [];
|}.
Next Obligation.
  intros n r H. cbv beta in H.
  destruct (Z.eqb_spec n 705781) as [->|_]; [by injection H as <-|].
  destruct (Z.eqb_spec n 705782) as [->|_]; [by injection H as <-|done].
Qed.
Next Obligation.
  intros n r H. cbv beta in H.
  destruct (Z.eqb_spec n 705781) as [->|_]; [split; [lia|reflexivity]|].
  destruct (Z.eqb_spec n 705782) as [->|_]; [split; [lia|reflexivity]|done].
Qed.

Lemma ca_known_spells_spec_witness :
  let db := set_known [] 7 [CaRow 40 2] in
  known_for db 7 = Ok [CaRow 40 2]
  /\ exists spells, ca_known_spells (ca_entry_index [chained_row]) db 7 = Ok spells
     /\ NoDup (map ks_spell spells) /\ 705782 ∈ map ks_spell spells.
Proof.
  cbv zeta.
  assert (known_for (set_known [] 7 [CaRow 40 2]) 7 = Ok [CaRow 40 2]) as E by reflexivity.
  split; [exact E|].
  destruct (ca_known_spells_spec (ca_entry_index [chained_row]) _ 7 _ E) as (sp & Hs & Hn & Hin).
  exists sp. split; [exact Hs|]. split; [exact Hn|]. apply Hin.
  split; [lia|]. split; [by eexists|]. exists (CaRow 40 2). split; [left|reflexivity].
Defined.

(** ** The class filter *)

(** The names of the class types a byte admits. *)
Definition admitted (cts : list class_type) (class_byte : Z) : list pystr :=
  map ct_name (filter (fun ct => class_type_matches ct class_byte = true) cts).

Definition class_entry_counts (idx : list (Z * csv_row)) (cts : list class_type) (class_byte : Z)
    : Z * list (pystr * Z) :=
  match idx with
  | [] => (0, [])
  | _ =>
      let ok := admitted cts class_byte in
      let per := fold_left (fun per '(_, row) =>
        let nm := csv_str row (lit "ClassType") in
        if bool_decide (nm ∈ ok) then dset nm (default 0 (dget nm per) + 1) per else per) idx [] in
      (fold_left Z.add (map snd per) 0, per)
  end.

Section Unlearnable.
Context `{Unicode}.

Definition entry_class (idx : list (Z * csv_row)) (r : ca_row) : pystr :=
  csv_str (default [] (dget (kr_id r) idx)) (lit "ClassType").

Definition class_unlearnable (idx : list (Z * csv_row)) (cts : list class_type) (db : jdict)
    (guid class_byte : Z) : res (list ca_row) :=
  match idx with
  | [] => Ok []
  | _ =>
      rows ← known_for db guid;
      Ok (filter (fun r => entry_class idx r ∉ admitted cts class_byte) rows)
  end.
End Unlearnable.

Lemma fold_add_init l a : fold_left Z.add l a = a + fold_left Z.add l 0.
Proof.
  revert a. induction l as [|x l IH]; intros a; cbn [fold_left]; [lia|].
  rewrite (IH (a + x)), (IH (0 + x)). lia.
Qed.

Lemma sum_dset (d : list (pystr * Z)) k :
  fold_left Z.add (map snd (dset k (default 0 (dget k d) + 1) d)) 0
  = fold_left Z.add (map snd d) 0 + 1.
Proof.
  induction d as [|[k' v'] d IH]; [done|]. cbn [dget dset]. case_decide as E;
    cbn [map snd fold_left default from_option id].
  - rewrite (fold_add_init _ (0 + (v' + 1))), (fold_add_init _ (0 + v')). lia.
  - rewrite (fold_add_init (map snd (dset _ _ _)) (0 + v')), (fold_add_init (map snd d) (0 + v')). lia.
Qed.

(** The total of the class report counts each entry of the index once when
    its class type is admitted by the byte, and nothing else. *)
Theorem class_entry_counts_total idx cts b :
  fst (class_entry_counts idx cts b)
  = pylen (filter (fun kr => csv_str (snd kr) (lit "ClassType") ∈ admitted cts b) idx).
Proof.
  unfold class_entry_counts. destruct idx as [|e idx]; [done|]. generalize (e :: idx) as l.
  clear e idx. intros l. cbn [fst].
  assert (forall (d : list (pystr * Z)), fold_left Z.add (map snd (fold_left (fun per '(_, row) =>
      if bool_decide (csv_str row (lit "ClassType") ∈ admitted cts b)
      then dset (csv_str row (lit "ClassType"))
             (default 0 (dget (csv_str row (lit "ClassType")) per) + 1) per else per) l d)) 0
    = fold_left Z.add (map snd d) 0
      + pylen (filter (fun kr => csv_str (snd kr) (lit "ClassType") ∈ admitted cts b) l)) as Hgo.
  { induction l as [|[k row] l IH]; intros d; cbn [fold_left].
    - symmetry. apply Z.add_0_r.
    - rewrite IH, filter_cons. cbn [snd]. case_bool_decide as E.
      + rewrite decide_True by exact E. rewrite sum_dset, pylen_cons. lia.
      + rewrite decide_False by exact E. lia. }
  rewrite Hgo. cbn. lia.
Qed.

(** Dropping the unlearnable entries is enough: once a character's known
    set is replaced by the entries its class can learn, none is left that the
    client would reject, and none of the kept ones was rejected before. *)
Theorem class_unlearnable_dropped `{Unicode} idx cts db guid b rows bad :
  dict_ok db -> 0 <= guid ->
  known_for db guid = Ok rows ->
  class_unlearnable idx cts db guid b = Ok bad ->
  let kept := filter (fun r => r ∉ bad) rows in
  class_unlearnable idx cts (set_known db guid kept) guid b = Ok []
  /\ known_for (set_known db guid kept) guid = Ok (py_sort row_leb kept).
Proof.
  intros Hd Hg Hr Hbad. cbv zeta. set (kept := filter _ rows).
  assert (known_for (set_known db guid kept) guid = Ok (py_sort row_leb kept)) as Hk.
  { unfold known_for, set_known. destruct kept as [|r k] eqn:E.
    - by rewrite dget_ddel_eq by exact Hd.
    - rewrite dget_dset_eq. cbn [default from_option id]. apply rows_of_json_rows. }
  split; [|exact Hk]. unfold class_unlearnable in *. destruct idx as [|e idx]; [done|].
  rewrite Hk. rewrite Hr in Hbad. cbn [mbind res_bind] in *. apply Ok_inj in Hbad. f_equal.
  destruct (filter _ (py_sort row_leb kept)) as [|r l] eqn:E; [done|]. exfalso.
  assert (r ∈ r :: l) as Hin by left. rewrite <- E in Hin.
  apply list_elem_of_filter in Hin as [Hno Hin]. apply py_sort_elem in Hin.
  unfold kept in Hin. apply list_elem_of_filter in Hin as [Hnb Hin]. apply Hnb. subst bad.
  by apply list_elem_of_filter.
Qed.

Lemma class_unlearnable_dropped_witness :
  let idx := ca_entry_index [chained_row] in
  let db := set_known [] 7 [CaRow 40 1; CaRow 99 1] in
  class_unlearnable idx [tinker] db 7 28 = Ok [CaRow 99 1]
  /\ class_unlearnable idx [tinker] (set_known db 7 [CaRow 40 1]) 7 28 = Ok [].
Proof.
  cbv zeta. split; [reflexivity|].
  apply (class_unlearnable_dropped (ca_entry_index [chained_row]) [tinker]
           (set_known [] 7 [CaRow 40 1; CaRow 99 1]) 7 28 [CaRow 40 1; CaRow 99 1] [CaRow 99 1]);
    [apply dict_ok_dset, dict_ok_nil | lia | reflexivity | reflexivity].
Defined.
