(* ===== verification/Builders.v ===== *)
(** * Packet bodies (world_server.py)

    The builders of the server's answers, and for the ones with structure the
    reader that recovers their content.  A builder that packs a number may
    raise, so it returns a [res]; floats are binary64 and rounded to binary32
    on the wire. *)
From S2P Require Import Prelude Wire PyFloat Text Consts Chars.

(** ** The client's reader

    A small parser over a packet body: fixed-width little-endian integers,
    fixed blocks, NUL-terminated strings and counted repetitions.  The packet
    builders are specified by the reader that gets their fields back. *)

Definition rd (A : Type) : Type := bytes -> option (A * bytes).

Definition rd_ret {A} (a : A) : rd A := fun b => Some (a, b).
Definition rd_bind {A B} (r : rd A) (k : A -> rd B) : rd B := fun b =>
  match r b with Some (a, b) => k a b | None => None end.
Definition rd_fail {A} : rd A := fun _ => None.

Declare Scope rd_scope.
Delimit Scope rd_scope with rd.
Notation "x <-- r ;; k" := (rd_bind r (fun x => k))
  (at level 100, r at next level, right associativity) : rd_scope.

Definition rd_bytes (n : nat) : rd bytes := fun b =>
  if (length b <? n)%nat then None else Some (take n b, drop n b).

Definition rd_u (n : nat) : rd Z := fun b =>
  match rd_bytes n b with Some (x, b) => Some (unle x, b) | None => None end.

Definition rd_cstr : rd bytes := fun b =>
  match find_byte 0 b with Some z => Some (take z b, drop (S z) b) | None => None end.

Fixpoint rd_rep {A} (n : nat) (r : rd A) : rd (list A) :=
  match n with
  | O => rd_ret []
  | S n => rd_bind r (fun x => rd_bind (rd_rep n r) (fun xs => rd_ret (x :: xs)))
  end.

(** The whole body, nothing left. *)
Definition rd_all {A} (r : rd A) (b : bytes) : option A :=
  match r b with Some (a, []) => Some a | _ => None end.

Lemma rd_bytes_app n x rest : length x = n -> rd_bytes n (x ++ rest) = Some (x, rest).
Proof.
  intros H. unfold rd_bytes. rewrite (proj2 (Nat.ltb_ge _ _)) by (rewrite length_app; lia).
  by rewrite take_app_exact, drop_app_exact.
Qed.

Lemma rd_u_app n v rest : 0 <= v < 256 ^ Z.of_nat n -> rd_u n (le n v ++ rest) = Some (v, rest).
Proof.
  intros Hv. unfold rd_u. rewrite rd_bytes_app by apply length_le. by rewrite unle_le_id.
Qed.

Lemma rd_u_byte v rest : is_byte v -> rd_u 1 (v :: rest) = Some (v, rest).
Proof.
  intros Hv. unfold is_byte in Hv. change (v :: rest) with ([v] ++ rest).
  replace [v] with (le 1 v) by (cbn; by rewrite Z.mod_small). apply rd_u_app. cbn. lia.
Qed.

Lemma rd_cstr_app s rest : 0 ∉ s -> rd_cstr (s ++ 0 :: rest) = Some (s, rest).
Proof.
  intros Hs. unfold rd_cstr. rewrite find_byte_app by exact Hs.
  rewrite take_app_length. change (s ++ 0 :: rest) with (s ++ [0] ++ rest).
  rewrite app_assoc, drop_app_exact; [done|]. rewrite length_app. cbn. lia.
Qed.

Lemma rd_rep_app {A B} (r : rd B) (enc : A -> bytes) (val : A -> B) l rest :
  (forall x rest, x ∈ l -> r (enc x ++ rest) = Some (val x, rest)) ->
  rd_rep (length l) r (concat (map enc l) ++ rest) = Some (map val l, rest).
Proof.
  intros H. induction l as [|x l IH]; [done|].
  cbn [length rd_rep map concat]. unfold rd_bind. rewrite <- app_assoc, H by left.
  rewrite IH by (intros; apply H; by right). done.
Qed.

Lemma rd_bind_some {A B} (r : rd A) (k : A -> rd B) b a b' :
  r b = Some (a, b') -> rd_bind r k b = k a b'.
Proof. intros H. unfold rd_bind. by rewrite H. Qed.

Create HintDb rd.
#[export] Hint Resolve rd_bytes_app rd_u_app rd_u_byte rd_cstr_app : rd.

(** Runs the next read of a chain whose field is at the head of the input. *)
Ltac rd_step :=
  first [ erewrite rd_bind_some by (apply rd_u_app; try lia; try eassumption)
        | erewrite rd_bind_some by (apply rd_u_byte; try eassumption)
        | erewrite rd_bind_some by (apply rd_bytes_app; try eassumption; try reflexivity)
        | erewrite rd_bind_some by (apply rd_cstr_app; try eassumption) ].

(** [s.encode("utf-8") + b"\x00"]. *)
Definition cstr (s : pystr) : res bytes := b ← utf8_encode s; Ok (b ++ [0]).

Definition packfs (l : list f64) : res bytes := ws ← res_map packf l; Ok (concat ws).
Definition packIs (l : list Z) : res bytes := ws ← res_map packI l; Ok (concat ws).

Definition f_zero : f64 := f64_of_Z 0.

(** ** Realm and configuration *)

Definition ARCHIVE_REALM_FLAVOUR : list Z := REALM_FLAVOUR_DEV.

Definition smsg_realm_info (realm_name : pystr) (realm_type gate valid_tag : Z)
    (flags : option (list Z)) (field18 trailing : Z) : res bytes :=
  let flags := default ARCHIVE_REALM_FLAVOUR flags in
  a ← packI valid_tag;
  b ← packI realm_type;
  c ← packfs [f_zero; f_zero; f_zero];
  d ← packI field18;
  e ← packfs [f_zero; f_zero];
  f ← packI 0;
  g ← mkbytes (slice_to 8 flags);
  n ← cstr realm_name;
  h ← packI trailing;
  Ok (a ++ b ++ c ++ d ++ e ++ f ++ (g ++ replicate (8 - length g) 0) ++ n ++ [0]
      ++ [Z.land gate 0xFF] ++ h).

Definition _config_section {V} (entries : list (pystr * V)) (pack_value : V -> res bytes)
    : res bytes :=
  n ← packI (pylen entries);
  rows ← res_map (fun '(key, value) =>
    kb ← utf8_encode key;
    l ← packI (pylen kb);
    v ← pack_value value;
    Ok (l ++ kb ++ v)) entries;
  Ok (n ++ concat rows).

Definition ARCHIVE_CONFIG_INT : list (pystr * Z) := [].
Definition ARCHIVE_CONFIG_BOOL : list (pystr * bool) :=
  [(lit "CONFIG_CHARACTER_CREATION_ARCHETYPES_ENABLED", true)].
Definition ARCHIVE_CONFIG_FLOAT : list (pystr * f64) := [].
Definition ARCHIVE_CONFIG_FLOAT2 : list (pystr * f64) := [].

Definition pack_cfg_int (v : Z) : res bytes := packI (Z.land v 0xFFFFFFFF).
Definition pack_cfg_bool (v : bool) : res bytes := mkbytes [if v then 1 else 0].

Definition smsg_update_configs (ints : option (list (pystr * Z)))
    (bools : option (list (pystr * bool))) (floats floats2 : option (list (pystr * f64)))
    : res bytes :=
  a ← _config_section (default ARCHIVE_CONFIG_INT ints) pack_cfg_int;
  b ← _config_section (default ARCHIVE_CONFIG_BOOL bools) pack_cfg_bool;
  c ← _config_section (default ARCHIVE_CONFIG_FLOAT floats) packf;
  d ← _config_section (default ARCHIVE_CONFIG_FLOAT2 floats2) packf;
  Ok (a ++ b ++ c ++ d).

Definition smsg_ca_active_spec (active_index spec_slots : Z) : res bytes :=
  packIs [active_index; spec_slots].

(** ** Known entries *)

(** (entryId, rank, unk0C, flag, unk18, unk1C). *)
Record ca_record := CaRecord {
  cr_id : Z; cr_rank : Z; cr_unk0c : Z; cr_flag : Z; cr_unk18 : Z; cr_unk1c : Z }.

Definition pack_ca_record (r : ca_record) : bytes :=
  u32le (cr_id r) ++ u32le (cr_rank r) ++ u32le (cr_unk0c r)
  ++ [Z.land (cr_flag r) 0xFF] ++ u32le (cr_unk18 r) ++ u32le (cr_unk1c r).

Definition smsg_ca_known_entries (records : list ca_record) : res bytes :=
  n ← packI (pylen records);
  Ok (n ++ concat (map pack_ca_record records)).

Fixpoint parse_records (n : nat) (body : bytes) (off : Z) : res (list ca_record) :=
  match n with
  | O => Ok []
  | S n =>
      entry_id ← unpackI body off;
      rank ← unpackI body (off + 4);
      unk0c ← unpackI body (off + 8);
      flag ← index body (off + 12);
      unk18 ← unpackI body (off + 13);
      unk1c ← unpackI body (off + 17);
      rest ← parse_records n body (off + 21);
      Ok (CaRecord entry_id rank unk0c flag unk18 unk1c :: rest)
  end.

Definition parse_cmsg_ca_known_entries (body : bytes) : res (list ca_record) :=
  if pylen body <? 4 then Ok []
  else
    count ← unpackI body 0;
    parse_records (Z.to_nat (Z.min count ((pylen body - 4) / 21))) body 4.

(** ** Small answers *)

Definition smsg_char_enum_empty : bytes := [0].
Definition smsg_realm_split (unk_bytes : bytes) : bytes :=
  unk_bytes ++ le 4 0 ++ lit "01/01/01" ++ [0].
Definition smsg_pong (ping_bytes : bytes) : bytes := ping_bytes.

(** [smsg_account_data_times]; [now] is [int(time.time())]. *)
Definition smsg_account_data_times (now mask : Z) (times : list Z) : res bytes :=
  t ← packI now;
  m ← packI mask;
  ts ← packIs times;
  Ok (t ++ [1] ++ m ++ ts).

Section Zlib.
(** [zlib.compress(raw, 9)] and [zlib.decompress]. *)
Context (compress : bytes -> bytes) (decompress : bytes -> option bytes).

Definition smsg_update_account_data (guid atype tstamp : Z) (raw : bytes) : res bytes :=
  g ← packQ guid;
  h ← packIs [atype; tstamp; pylen raw];
  Ok (g ++ h ++ match raw with [] => [] | _ => compress raw end).

(** The loop of [build_addon_info]: one reply entry per addon; an exception
    anywhere discards the list. *)
Fixpoint addon_entries (n : nat) (raw : bytes) (q : Z) : res (list bytes) :=
  match n with
  | O => Ok []
  | S n =>
      z ← res_of_option ValueError (find_byte 0 (slice_from q raw));
      let q := q + Z.of_nat z + 1 in
      _ ← index raw q;
      let q := q + 1 in
      crc ← unpackI raw q;
      let q := q + 8 in
      let usepk := if crc =? STANDARD_ADDON_CRC then 0 else 1 in
      let entry := [2; 1; usepk] ++ (if usepk =? 0 then [] else ADDON_PUBKEY)
                   ++ le 4 0 ++ [0] in
      rest ← addon_entries n raw q;
      Ok (entry :: rest)
  end.

Definition parse_addons (blob : bytes) : res (list bytes) :=
  raw ← res_of_option ValueError (decompress blob);
  count ← unpackI raw 0;
  addon_entries (Z.to_nat count) raw 4.

Definition build_addon_info (addon_raw : bytes) : bytes * Z :=
  let '(out, naddon) :=
    if pylen addon_raw >=? 4 then
      match parse_addons (slice_from 4 addon_raw) with
      | Ok es => (concat es, pylen es)
      | Err _ => ([], 0)
      end
    else ([], 0) in
  (out ++ le 4 0, naddon).
End Zlib.

Definition smsg_clientcache_version (v : Z) : res bytes := packI v.
Definition smsg_tutorial_flags : bytes :=
  concat (replicate (Z.to_nat MAX_ACCOUNT_TUTORIAL_VALUES) (le 4 0)).

(** ** Characters *)

Definition smsg_char_create (result : Z) : res bytes := mkbytes [result].
Definition smsg_char_delete (result : Z) : res bytes := mkbytes [result].

(** One character of the enumeration. *)
Definition pack_enum_char (c : character) : res bytes :=
  g ← packQ (c_guid c);
  n ← cstr (c_name c);
  zone ← packI (c_zone c);
  mp ← packI (c_map c);
  pos ← packfs [c_x c; c_y c; c_z c];
  Ok (g ++ n
      ++ map (fun v => Z.land v 0xFF)
           [c_race c; c_class c; c_gender c; c_skin c; c_face c; c_hairStyle c; c_hairColor c;
            c_facialHair c; c_level c]
      ++ zone ++ mp ++ pos ++ le 4 0 ++ le 4 0 ++ le 4 0 ++ [0] ++ le 4 0 ++ le 4 0 ++ le 4 0
      ++ concat (replicate 23 (le 4 0 ++ [0] ++ le 4 0))).

Definition smsg_char_enum (chars : list character) : res bytes :=
  n ← mkbytes [pylen chars];
  cs ← res_map pack_enum_char chars;
  Ok (n ++ concat cs).

Definition smsg_login_verify_world (c : character) : res bytes :=
  m ← packI (c_map c); p ← packfs [c_x c; c_y c; c_z c; c_o c]; Ok (m ++ p).

(** [time.localtime()]: the fields the packed time uses. *)
Record localtime := LocalTime {
  tm_year : Z; tm_mon : Z; tm_mday : Z; tm_hour : Z; tm_min : Z; tm_wday : Z }.

Definition packed_calendar_time (lt : localtime) : Z :=
  let wow_wday := (tm_wday lt + 1) mod 7 in
  Z.lor (Z.lor (Z.lor (Z.lor (Z.lor
    (Z.shiftl (Z.land (tm_year lt - 2000) 0x1F) 24)
    (Z.shiftl (tm_mon lt - 1) 20))
    (Z.shiftl (tm_mday lt - 1) 14))
    (Z.shiftl wow_wday 11))
    (Z.shiftl (tm_hour lt) 6))
    (tm_min lt).

Definition smsg_login_settimespeed (lt : localtime) : res bytes :=
  t ← packI (packed_calendar_time lt);
  s ← packf (f64_dec 1666667 (-8));
  Ok (t ++ s ++ le 4 0).

Definition smsg_send_unlearn_spells : bytes := le 4 0.
Definition smsg_time_sync_req (counter : Z) : res bytes := packI counter.

Definition smsg_bindpoint_update (c : character) : res bytes :=
  p ← packfs [c_x c; c_y c; c_z c];
  m ← packI (c_map c);
  z ← packI (c_zone c);
  Ok (p ++ m ++ z).

Definition smsg_motd (lines : list pystr) : res bytes :=
  n ← packI (pylen lines);
  ls ← res_map cstr lines;
  Ok (n ++ concat ls).

Definition smsg_name_query_response (c : character) : res bytes :=
  n ← cstr (c_name c);
  Ok (pack_guid (c_guid c) ++ [0] ++ n ++ [0]
      ++ [Z.land (c_race c) 0xFF; Z.land (c_gender c) 0xFF; Z.land (c_class c) 0xFF] ++ [0]).

Definition smsg_query_time_response (now : Z) : res bytes := packIs [now; 0].

(** ** Chat *)

(** [smsg_system_message]: a system line, and an addon whisper echoed to its sender. *)
Definition smsg_system_message (text : pystr) : res bytes :=
  b ← utf8_encode text;
  n ← packI (pylen b + 1);
  Ok ([CHAT_MSG_SYSTEM] ++ le 4 LANG_UNIVERSAL ++ le 8 0 ++ le 4 0 ++ le 8 0 ++ n ++ b ++ [0] ++ [0]).

Definition smsg_addon_whisper (guid : Z) (text : pystr) : res bytes :=
  b ← utf8_encode text;
  g ← packQ guid;
  n ← packI (pylen b + 1);
  Ok ([CHAT_MSG_WHISPER] ++ le 4 LANG_ADDON ++ g ++ le 4 0 ++ g ++ n ++ b ++ [0] ++ [0]).

(** ** Updates *)

Definition build_values_update (guid : Z) (fields : list (Z * bytes)) (field_count : Z) : res bytes :=
  v ← build_values_block fields (Some field_count);
  Ok (le 4 1 ++ [UPDATETYPE_VALUES] ++ pack_guid guid ++ v).

Definition smsg_build_category_result (category : pystr) (records : list bytes) (chunk chunks : Z)
    : res bytes :=
  c ← cstr category;
  h ← packIs [chunk; Z.max 1 chunks; pylen records];
  Ok (c ++ h ++ concat records).

(** ** Known entries: the upload parser *)

Definition ca_record_ok (r : ca_record) : Prop :=
  is_word (cr_id r) /\ is_word (cr_rank r) /\ is_word (cr_unk0c r) /\ is_byte (cr_flag r)
  /\ is_word (cr_unk18 r) /\ is_word (cr_unk1c r).

Lemma length_pack_ca_record r : length (pack_ca_record r) = 21%nat.
Proof. unfold pack_ca_record. by rewrite !length_app, !length_u32le. Qed.

Lemma index_app {A} (a : list A) x b i : i = pylen a -> index (a ++ x :: b) i = Ok x.
Proof.
  intros ->. unfold index. rewrite (proj2 (Z.ltb_ge _ _)) by apply pylen_nonneg.
  unfold pylen. rewrite Nat2Z.id, list_lookup_middle by done. done.
Qed.

Lemma land_byte v : is_byte v -> Z.land v 0xFF = v.
Proof. intros H. rewrite land_ones8. by apply Z.mod_small. Qed.

(** A field of width 4 behind a known prefix. *)
Lemma unpackI_at pre v post off :
  off = pylen pre -> is_word v -> unpackI (pre ++ le 4 v ++ post) off = Ok v.
Proof. intros. by apply unpack_u_app. Qed.

Lemma parse_records_concat rs pre tail :
  Forall ca_record_ok rs ->
  parse_records (length rs) (pre ++ concat (map pack_ca_record rs) ++ tail) (pylen pre) = Ok rs.
Proof.
  intros H. revert pre. induction H as [|r rs Hr _ IH]; intros pre; [done|].
  cbn [length parse_records map concat]. destruct Hr as (H1 & H2 & H3 & H4 & H5 & H6).
  set (post := concat (map pack_ca_record rs) ++ tail).
  rewrite <- (app_assoc (pack_ca_record r)). fold post.
  unfold pack_ca_record. rewrite !u32le_eq, (land_byte _ H4), <- !app_assoc.
  pose proof (pylen_nonneg pre) as Hpre.
  rewrite (unpackI_at pre (cr_id r) _ (pylen pre)) by done. cbn [mbind res_bind].
  rewrite (app_assoc pre (le 4 (cr_id r))).
  rewrite (unpackI_at _ (cr_rank r) _ (pylen pre + 4)) by (done || (autorewrite with pylen; lia)).
  cbn [mbind res_bind]. rewrite (app_assoc _ (le 4 (cr_rank r))).
  rewrite (unpackI_at _ (cr_unk0c r) _ (pylen pre + 8)) by (done || (autorewrite with pylen; lia)).
  cbn [mbind res_bind]. rewrite (app_assoc _ (le 4 (cr_unk0c r))). cbn [app].
  rewrite index_app by (autorewrite with pylen; lia). cbn [mbind res_bind].
  match goal with |- context [unpackI (?p ++ cr_flag r :: ?q)] =>
    change (p ++ cr_flag r :: q) with (p ++ [cr_flag r] ++ q); rewrite (app_assoc p [cr_flag r] q) end.
  rewrite (unpackI_at _ (cr_unk18 r) _ (pylen pre + 13)) by (done || (autorewrite with pylen; lia)).
  cbn [mbind res_bind]. rewrite (app_assoc _ (le 4 (cr_unk18 r))).
  rewrite (unpackI_at _ (cr_unk1c r) _ (pylen pre + 17)) by (done || (autorewrite with pylen; lia)).
  cbn [mbind res_bind]. rewrite (app_assoc _ (le 4 (cr_unk1c r))).
  match goal with |- context [parse_records _ (?p ++ post) ?o] =>
    replace o with (pylen p) by (autorewrite with pylen; lia) end.
  unfold post. rewrite IH. cbn [mbind res_bind]. by destruct r.
Qed.

(** The parser of the client's upload reads back exactly the records the
    same 21-byte layout was written with, and ignores what follows them. *)
Theorem ca_known_entries_roundtrip rs out tail :
  Forall ca_record_ok rs -> smsg_ca_known_entries rs = Ok out ->
  parse_cmsg_ca_known_entries (out ++ tail) = Ok rs.
Proof.
  intros Hr H. unfold smsg_ca_known_entries in H. inv_bind H. rename v into n.
  apply Ok_inj in H. subst out. apply pack_u_inv in E as [Hn ->].
  set (k := pylen rs) in *. set (body := concat (map pack_ca_record rs)) in *.
  assert (pylen body = 21 * k) as Hb.
  { unfold body, k. clear. induction rs as [|r rs IH]; [done|]. cbn [map concat].
    rewrite pylen_app, pylen_cons, IH. unfold pylen at 1. rewrite length_pack_ca_record. lia. }
  unfold parse_cmsg_ca_known_entries. rewrite <- app_assoc.
  pose proof (pylen_nonneg tail) as Ht. pose proof (pylen_nonneg rs : 0 <= k) as Hk.
  rewrite (proj2 (Z.ltb_ge _ _)) by (autorewrite with pylen; lia).
  rewrite (unpackI_at [] k (body ++ tail) 0 eq_refl Hn : unpackI (le 4 k ++ body ++ tail) 0 = Ok k).
  cbn [mbind res_bind].
  replace (pylen (le 4 k ++ body ++ tail) - 4) with (k * 21 + pylen tail)
    by (autorewrite with pylen; lia).
  rewrite Z.div_add_l, Z.min_l by (try lia; assert (0 <= pylen tail / 21) by (apply Z.div_pos; lia); lia).
  replace (Z.to_nat k) with (length rs) by (unfold k, pylen; lia).
  apply (parse_records_concat rs (le 4 k) tail Hr).
Qed.

Lemma ca_known_entries_roundtrip_witness :
  exists out, smsg_ca_known_entries [CaRecord 31113 1 0 0 0 0; CaRecord 5 2 0 1 0 7] = Ok out
    /\ parse_cmsg_ca_known_entries (out ++ [1; 2; 3])
       = Ok [CaRecord 31113 1 0 0 0 0; CaRecord 5 2 0 1 0 7].
Proof.
  eexists. split; [reflexivity|].
  apply (ca_known_entries_roundtrip [CaRecord 31113 1 0 0 0 0; CaRecord 5 2 0 1 0 7]);
    [|reflexivity].
  unfold ca_record_ok, is_word, is_byte. repeat constructor; cbn; lia.
Defined.

Lemma parse_records_total n body off :
  0 <= off -> off + 21 * Z.of_nat n <= pylen body ->
  exists rs, parse_records n body off = Ok rs /\ length rs = n.
Proof.
  revert off. induction n as [|n IH]; intros off H0 Hl; [by exists []|].
  cbn [parse_records].
  assert (forall o, off <= o -> o + 4 <= pylen body -> exists v, unpackI body o = Ok v) as Hu.
  { intros o Ho1 Ho2. unfold unpackI, unpack_u. change (Z.of_nat 4) with 4.
    rewrite (proj2 (Z.leb_le 0 o)), (proj2 (Z.leb_le (o + 4) (pylen body))) by lia. eauto. }
  assert (exists v, index body (off + 12) = Ok v) as [fl Hfl].
  { unfold index. rewrite (proj2 (Z.ltb_ge _ _)) by lia.
    destruct (lookup_lt_is_Some_2 body (Z.to_nat (off + 12))) as [v Hv]; [unfold pylen in *; lia|].
    rewrite Hv. by exists v. }
  destruct (Hu off) as [? ->]; [lia..|]. cbn [mbind res_bind].
  destruct (Hu (off + 4)) as [? ->]; [lia..|]. cbn [mbind res_bind].
  destruct (Hu (off + 8)) as [? ->]; [lia..|]. cbn [mbind res_bind]. rewrite Hfl. cbn [mbind res_bind].
  destruct (Hu (off + 13)) as [? ->]; [lia..|]. cbn [mbind res_bind].
  destruct (Hu (off + 17)) as [? ->]; [lia..|]. cbn [mbind res_bind].
  destruct (IH (off + 21)) as (rs & -> & Hrs); [lia..|]. cbn [mbind res_bind].
  eexists. split; [reflexivity|]. cbn. by rewrite Hrs.
Qed.

(** An upload of any bytes is parsed without raising, whatever count it
    claims: the result has the claimed number of records or as many as are
    complete, whichever is less. *)
Theorem parse_cmsg_ca_known_entries_total body :
  is_bytes body ->
  exists rs, parse_cmsg_ca_known_entries body = Ok rs
    /\ pylen rs = (if pylen body <? 4 then 0
                   else Z.min (unle (take 4 body)) ((pylen body - 4) / 21)).
Proof.
  intros Hb. unfold parse_cmsg_ca_known_entries.
  destruct (Z.ltb_spec (pylen body) 4) as [H|H]; [by exists []|].
  assert (unpackI body 0 = Ok (unle (take 4 body))) as ->.
  { unfold unpackI, unpack_u. change (0 + Z.of_nat 4) with 4. rewrite (proj2 (Z.leb_le 4 _)) by lia.
    done. }
  cbn [mbind res_bind].
  assert (0 <= (pylen body - 4) / 21) by (apply Z.div_pos; lia).
  pose proof (unle_bound (take 4 body) (is_bytes_take 4 body Hb)).
  pose proof (Z.mul_div_le (pylen body - 4) 21 ltac:(lia)).
  destruct (parse_records_total (Z.to_nat (Z.min (unle (take 4 body)) ((pylen body - 4) / 21))) body 4)
    as (rs & -> & Hl); [lia..|]. exists rs. split; [done|]. unfold pylen at 1. lia.
Qed.

Lemma parse_cmsg_ca_known_entries_total_witness :
  exists rs, parse_cmsg_ca_known_entries (le 4 1000 ++ replicate 30 0) = Ok rs /\ pylen rs = 1.
Proof.
  destruct (parse_cmsg_ca_known_entries_total (le 4 1000 ++ replicate 30 0)) as (rs & H & Hl).
  - unfold is_bytes, is_byte. vm_compute. repeat constructor; congruence.
  - exists rs. split; [exact H|]. exact Hl.
Defined.

(** ** The configuration table *)

Local Open Scope rd_scope.

Definition rd_config (width : nat) : rd (list (bytes * bytes)) :=
  n <-- rd_u 4;;
  rd_rep (Z.to_nat n) (l <-- rd_u 4;; k <-- rd_bytes (Z.to_nat l);; v <-- rd_bytes width;; rd_ret (k, v)).

(** The client's handler: four sections, then the end of the packet. *)
Definition rd_configs : rd (list (bytes * bytes) * list (bytes * bytes)
                            * list (bytes * bytes) * list (bytes * bytes)) :=
  a <-- rd_config 4;; b <-- rd_config 1;; c <-- rd_config 4;; d <-- rd_config 4;;
  rd_ret (a, b, c, d).

(** Entries and the key and value bytes they are sent as. *)
Definition config_image {V} (pack_value : V -> res bytes) (kv : pystr * V) (im : bytes * bytes) : Prop :=
  utf8_encode kv.1 = Ok im.1 /\ pack_value kv.2 = Ok im.2.

Lemma config_section_read {V} (pack_value : V -> res bytes) width entries out :
  (forall v b, pack_value v = Ok b -> length b = width) ->
  _config_section entries pack_value = Ok out ->
  exists image, Forall2 (config_image pack_value) entries image
    /\ forall rest, rd_config width (out ++ rest) = Some (image, rest).
Proof.
  intros Hw H. unfold _config_section in H. inv_binds H. rename v into n, v0 into rows.
  apply Ok_inj in H. subst out. apply pack_u_inv in E as [Hn ->].
  assert (exists image, Forall2 (config_image pack_value) entries image
    /\ rows = map (fun im => le 4 (pylen (fst im)) ++ fst im ++ snd im) image
    /\ Forall (fun im => 0 <= pylen (fst im) < 2 ^ 32 /\ length (snd im) = width) image)
    as (image & Hf & -> & Hok).
  { clear Hn. revert rows E0. induction entries as [|[k v] entries IH]; intros rows E0; cbn in E0.
    - apply Ok_inj in E0. subst. exists []. repeat constructor.
    - destruct (utf8_encode k) as [kb|] eqn:Ek; [cbn in E0|done].
      destruct (packI (pylen kb)) as [l|] eqn:El; [cbn in E0|done].
      destruct (pack_value v) as [vb|] eqn:Ev; [cbn in E0|done].
      destruct (res_map _ entries) as [rs|] eqn:Ers; [cbn in E0|done].
      apply Ok_inj in E0. subst rows. destruct (IH rs eq_refl) as (im & H1 & -> & H2).
      apply pack_u_inv in El as [Hl ->]. exists ((kb, vb) :: im).
      split; [constructor; [by split|done]|]. split; [done|]. constructor; [|done].
      split; [exact Hl | by apply (Hw v)]. }
  exists image. split; [exact Hf|]. intros rest. unfold rd_config. rewrite <- app_assoc.
  rewrite (rd_bind_some _ _ _ (pylen entries) (concat (map (fun im => le 4 (pylen (fst im)) ++ fst im ++ snd im) image) ++ rest))
    by (by apply rd_u_app).
  replace (Z.to_nat (pylen entries)) with (length image)
    by (unfold pylen; rewrite Nat2Z.id; symmetry; eapply Forall2_length, Hf).
  rewrite (rd_rep_app _ (fun im => le 4 (pylen (fst im)) ++ fst im ++ snd im) (fun im => im)).
  - by rewrite map_id.
  - intros [kb vb] rest' Hin. rewrite Forall_forall in Hok. destruct (Hok _ Hin) as [Hl Hv].
    cbn [fst snd] in *. rewrite <- !app_assoc.
    erewrite rd_bind_some by (by apply rd_u_app).
    erewrite rd_bind_some by (apply rd_bytes_app; unfold pylen; lia).
    erewrite rd_bind_some by (by apply rd_bytes_app). done.
Qed.

Lemma pack_cfg_int_length v b : pack_cfg_int v = Ok b -> length b = 4%nat.
Proof. unfold pack_cfg_int. rewrite packI_land. intros <-%Ok_inj. apply length_le. Qed.

Lemma pack_cfg_bool_length v b : pack_cfg_bool v = Ok b -> length b = 1%nat.
Proof. intros [-> _]%mkbytes_inv. done. Qed.

(** The client's handler reads the four configuration sections back, key by
    key, and finds the packet exhausted after the fourth. *)
Theorem update_configs_read ints bools floats floats2 out :
  smsg_update_configs (Some ints) (Some bools) (Some floats) (Some floats2) = Ok out ->
  exists i b f g, rd_all rd_configs out = Some (i, b, f, g)
    /\ Forall2 (config_image pack_cfg_int) ints i /\ Forall2 (config_image pack_cfg_bool) bools b
    /\ Forall2 (config_image packf) floats f /\ Forall2 (config_image packf) floats2 g.
Proof.
  unfold smsg_update_configs. cbn [default from_option id]. intros H. inv_binds H.
  apply Ok_inj in H. subst out.
  destruct (config_section_read _ _ _ _ pack_cfg_int_length E) as (i & Hi & Ri).
  destruct (config_section_read _ _ _ _ pack_cfg_bool_length E0) as (b & Hb & Rb).
  destruct (config_section_read packf 4 _ _ (fun v b H => proj1 (packf_length v b H)) E1) as (f & Hf & Rf).
  destruct (config_section_read packf 4 _ _ (fun v b H => proj1 (packf_length v b H)) E2) as (g & Hg & Rg).
  exists i, b, f, g. split; [|done]. unfold rd_all, rd_configs.
  rewrite (rd_bind_some _ _ _ _ _ (Ri _)), (rd_bind_some _ _ _ _ _ (Rb _)),
    (rd_bind_some _ _ _ _ _ (Rf _)), <- (app_nil_r v2), (rd_bind_some _ _ _ _ _ (Rg _)). done.
Qed.

Lemma update_configs_read_witness :
  exists out i b f g,
    smsg_update_configs (Some [(lit "K", -1)]) (Some ARCHIVE_CONFIG_BOOL)
      (Some [(lit "F", f64_of_Z 1)]) (Some []) = Ok out
    /\ rd_all rd_configs out = Some (i, b, f, g)
    /\ i = [(lit "K", [255; 255; 255; 255])].
Proof.
  destruct (smsg_update_configs (Some [(lit "K", -1)]) (Some ARCHIVE_CONFIG_BOOL)
      (Some [(lit "F", f64_of_Z 1)]) (Some [])) as [out|] eqn:E; [|discriminate E].
  destruct (update_configs_read _ _ _ _ out E) as (i & b & f & g & Hr & Hi & _).
  exists out, i, b, f, g. split; [reflexivity|]. split; [exact Hr|].
  inversion Hi as [|? [kb vb] ? ? [H1 H2] H3]; subst. inversion H3; subst. cbn in H1, H2.
  apply Ok_inj in H1, H2. subst. reflexivity.
Defined.

(** ** The packed calendar time *)

Lemma lor_shifted q n b : 0 <= n -> 0 <= b < 2 ^ n -> Z.lor (q * 2 ^ n) b = q * 2 ^ n + b.
Proof.
  intros Hn Hb. rewrite <- Z.add_lor_land.
  assert (Z.land (q * 2 ^ n) b = 0) as ->; [|lia].
  apply Z.bits_inj'. intros i Hi. rewrite Z.land_spec, Z.bits_0.
  destruct (Z.lt_ge_cases i n) as [H|H].
  - by rewrite Z.mul_pow2_bits_low.
  - destruct (Z.eq_dec b 0) as [->|]; [by rewrite Z.bits_0, andb_false_r|].
    rewrite (Z.bits_above_log2 b i), andb_false_r; [done|lia|]. apply Z.log2_lt_pow2; [lia|].
    eapply Z.lt_le_trans; [apply Hb|]. apply Z.pow_le_mono_r; lia.
Qed.

(** A date [time.localtime()] can return in the years the packing covers. *)
Definition localtime_ok (lt : localtime) : Prop :=
  2000 <= tm_year lt < 2032 /\ 1 <= tm_mon lt <= 12 /\ 1 <= tm_mday lt <= 31
  /\ 0 <= tm_hour lt < 24 /\ 0 <= tm_min lt < 60 /\ 0 <= tm_wday lt < 7.

Lemma packed_calendar_sum lt :
  localtime_ok lt ->
  packed_calendar_time lt
  = (tm_year lt - 2000) * 2 ^ 24 + (tm_mon lt - 1) * 2 ^ 20 + (tm_mday lt - 1) * 2 ^ 14
    + ((tm_wday lt + 1) mod 7) * 2 ^ 11 + tm_hour lt * 2 ^ 6 + tm_min lt.
Proof.
  intros (Hy & Hm & Hd & Hh & Hmi & Hw). unfold packed_calendar_time.
  pose proof (Z.mod_pos_bound (tm_wday lt + 1) 7 ltac:(lia)) as Hwd.
  rewrite !Z.shiftl_mul_pow2 by lia. change 0x1F with (Z.ones 5). rewrite Z.land_ones by lia.
  rewrite (Z.mod_small (tm_year lt - 2000)) by (change (2 ^ 5) with 32; lia).
  change (2 ^ 24) with 16777216. change (2 ^ 20) with 1048576. change (2 ^ 14) with 16384.
  change (2 ^ 11) with 2048. change (2 ^ 6) with 64.
  set (y := tm_year lt - 2000) in *. set (m := tm_mon lt - 1) in *. set (d := tm_mday lt - 1) in *.
  set (w := (tm_wday lt + 1) mod 7) in *. set (h := tm_hour lt) in *. set (mi := tm_min lt) in *.
  pose proof (lor_shifted y 24 (m * 1048576) ltac:(lia) ltac:(change (2 ^ 24) with 16777216; lia)) as E1.
  change (2 ^ 24) with 16777216 in E1. rewrite E1.
  pose proof (lor_shifted (y * 16 + m) 20 (d * 16384) ltac:(lia) ltac:(change (2 ^ 20) with 1048576; lia)) as E2.
  change (2 ^ 20) with 1048576 in E2.
  replace (y * 16777216 + m * 1048576) with ((y * 16 + m) * 1048576) by lia. rewrite E2.
  pose proof (lor_shifted ((y * 16 + m) * 64 + d) 14 (w * 2048) ltac:(lia) ltac:(change (2 ^ 14) with 16384; lia)) as E3.
  change (2 ^ 14) with 16384 in E3.
  replace ((y * 16 + m) * 1048576 + d * 16384) with (((y * 16 + m) * 64 + d) * 16384) by lia. rewrite E3.
  pose proof (lor_shifted (((y * 16 + m) * 64 + d) * 8 + w) 11 (h * 64) ltac:(lia) ltac:(change (2 ^ 11) with 2048; lia)) as E4.
  change (2 ^ 11) with 2048 in E4.
  replace (((y * 16 + m) * 64 + d) * 16384 + w * 2048)
    with ((((y * 16 + m) * 64 + d) * 8 + w) * 2048) by lia. rewrite E4.
  pose proof (lor_shifted ((((y * 16 + m) * 64 + d) * 8 + w) * 32 + h) 6 mi ltac:(lia) ltac:(change (2 ^ 6) with 64; lia)) as E5.
  change (2 ^ 6) with 64 in E5.
  replace ((((y * 16 + m) * 64 + d) * 8 + w) * 2048 + h * 64)
    with (((((y * 16 + m) * 64 + d) * 8 + w) * 32 + h) * 64) by lia. rewrite E5. lia.
Qed.

(** The client's field extraction. *)
Definition unpack_calendar (t : Z) : Z * Z * Z * Z * Z * Z :=
  (t / 2 ^ 24 mod 32, t / 2 ^ 20 mod 16, t / 2 ^ 14 mod 64, t / 2 ^ 11 mod 8, t / 2 ^ 6 mod 32, t mod 64).

Lemma digit_at t q r s k n :
  t = (q * n + r) * k + s -> 0 <= s < k -> 0 <= r < n -> t / k mod n = r.
Proof.
  intros -> Hs Hr. rewrite Z.div_add_l, (Z.div_small s), Z.add_0_r by lia.
  rewrite Z.add_comm, Z.mod_add by lia. by apply Z.mod_small.
Qed.

(** The packed time fits a u32 and gives back every field; the week day
    arrives counted from Sunday. *)
Theorem packed_calendar_roundtrip lt :
  localtime_ok lt ->
  0 <= packed_calendar_time lt < 2 ^ 32
  /\ unpack_calendar (packed_calendar_time lt)
     = (tm_year lt - 2000, tm_mon lt - 1, tm_mday lt - 1, (tm_wday lt + 1) mod 7,
        tm_hour lt, tm_min lt).
Proof.
  intros Hok. rewrite packed_calendar_sum by exact Hok.
  destruct Hok as (Hy & Hm & Hd & Hh & Hmi & Hw).
  pose proof (Z.mod_pos_bound (tm_wday lt + 1) 7 ltac:(lia)) as Hwd.
  set (y := tm_year lt - 2000) in *. set (m := tm_mon lt - 1) in *. set (d := tm_mday lt - 1) in *.
  set (w := (tm_wday lt + 1) mod 7) in *. set (h := tm_hour lt) in *. set (mi := tm_min lt) in *.
  change (2 ^ 24) with 16777216. change (2 ^ 20) with 1048576. change (2 ^ 14) with 16384.
  change (2 ^ 11) with 2048. change (2 ^ 6) with 64. change (2 ^ 32) with 4294967296.
  split; [lia|]. unfold unpack_calendar.
  change (2 ^ 24) with 16777216. change (2 ^ 20) with 1048576. change (2 ^ 14) with 16384.
  change (2 ^ 11) with 2048. change (2 ^ 6) with 64.
  assert (0 <= y < 32 /\ 0 <= m < 12 /\ 0 <= d < 31) as (? & ? & ?) by (unfold y, m, d; lia).
  clearbody y m d w h mi. repeat f_equal.
  - eapply (digit_at _ 0 y (m * 1048576 + d * 16384 + w * 2048 + h * 64 + mi)); lia.
  - eapply (digit_at _ y m (d * 16384 + w * 2048 + h * 64 + mi)); lia.
  - eapply (digit_at _ (y * 16 + m) d (w * 2048 + h * 64 + mi)); lia.
  - eapply (digit_at _ ((y * 16 + m) * 64 + d) w (h * 64 + mi)); lia.
  - eapply (digit_at _ (((y * 16 + m) * 64 + d) * 8 + w) h mi); lia.
  - symmetry. apply (Z.mod_unique _ _ ((((y * 16 + m) * 64 + d) * 8 + w) * 32 + h)); lia.
Qed.

Lemma packed_calendar_roundtrip_witness :
  localtime_ok (LocalTime 2026 9 1 19 33 1)
  /\ unpack_calendar (packed_calendar_time (LocalTime 2026 9 1 19 33 1)) = (26, 8, 0, 2, 19, 33).
Proof.
  assert (localtime_ok (LocalTime 2026 9 1 19 33 1)) as H by (unfold localtime_ok; cbn; lia).
  split; [exact H|]. apply (packed_calendar_roundtrip _ H).
Defined.

(** ** The addon list *)

Record addon := Addon { ad_name : bytes; ad_enabled : Z; ad_crc : Z; ad_unk : Z }.

Definition addon_ok (a : addon) : Prop := (0 ∉ ad_name a) /\ is_word (ad_crc a).

Definition pack_addon (a : addon) : bytes :=
  ad_name a ++ [0] ++ [ad_enabled a] ++ le 4 (ad_crc a) ++ le 4 (ad_unk a).

(** The reply entry of one addon: the public key goes with every checksum but
    the standard one. *)
Definition addon_reply (a : addon) : bytes :=
  [2; 1] ++ (if ad_crc a =? STANDARD_ADDON_CRC then [0] else 1 :: ADDON_PUBKEY) ++ le 4 0 ++ [0].

Lemma addon_entries_concat addons pre tail :
  Forall addon_ok addons ->
  addon_entries (length addons) (pre ++ concat (map pack_addon addons) ++ tail) (pylen pre)
  = Ok (map addon_reply addons).
Proof.
  intros H. revert pre. induction H as [|a addons [Hn Hc] _ IH]; intros pre; [done|].
  cbn [length addon_entries map concat]. pose proof (pylen_nonneg pre) as Hpre.
  pose proof (pylen_nonneg (ad_name a)) as Hnm.
  set (post := concat (map pack_addon addons) ++ tail). rewrite <- (app_assoc (pack_addon a)). fold post.
  unfold pack_addon. rewrite <- !app_assoc.
  rewrite slice_from_app by done. cbn [app]. rewrite find_byte_app by exact Hn.
  cbn [res_of_option mbind res_bind].
  change (Z.of_nat (length (ad_name a))) with (pylen (ad_name a)).
  match goal with |- context [pre ++ ad_name a ++ 0 :: ad_enabled a :: ?q] =>
    replace (pre ++ ad_name a ++ 0 :: ad_enabled a :: q)
      with ((pre ++ ad_name a ++ [0]) ++ ad_enabled a :: q) by (by rewrite <- !app_assoc) end.
  rewrite index_app by (autorewrite with pylen; lia). cbn [mbind res_bind].
  match goal with |- context [?p ++ ad_enabled a :: ?q] =>
    replace (p ++ ad_enabled a :: q) with ((p ++ [ad_enabled a]) ++ q) by (by rewrite <- !app_assoc) end.
  rewrite unpackI_at by (done || (autorewrite with pylen; lia)). cbn [mbind res_bind].
  rewrite (app_assoc _ (le 4 (ad_crc a))), (app_assoc _ (le 4 (ad_unk a))).
  match goal with |- context [addon_entries _ (?p ++ post) ?o] =>
    replace o with (pylen p) by (autorewrite with pylen; lia) end.
  unfold post. rewrite IH. cbn [mbind res_bind]. f_equal. f_equal. unfold addon_reply.
  destruct (ad_crc a =? STANDARD_ADDON_CRC); reflexivity.
Qed.

(** For a well-formed addon block the reply has one entry per addon, in
    order, carrying the public key exactly for the addons whose checksum is not
    the standard one, and closes with an empty ban list. *)
Theorem addon_info_reply decompress head blob addons time :
  length head = 4%nat -> Forall addon_ok addons -> pylen addons < 2 ^ 32 ->
  decompress blob = Some (le 4 (pylen addons) ++ concat (map pack_addon addons) ++ le 4 time) ->
  build_addon_info decompress (head ++ blob)
  = (concat (map addon_reply addons) ++ le 4 0, pylen addons).
Proof.
  intros Hh Ha Hl Hd. unfold build_addon_info. pose proof (pylen_nonneg addons) as Hk.
  rewrite Z.geb_leb, (proj2 (Z.leb_le _ _))
    by (autorewrite with pylen; unfold pylen at 1; rewrite Hh; pose proof (pylen_nonneg blob); lia).
  rewrite slice_from_app by (unfold pylen; lia). unfold parse_addons. rewrite Hd.
  cbn [res_of_option mbind res_bind].
  rewrite (unpackI_at [] (pylen addons) _ 0 eq_refl (conj Hk Hl) :
    unpackI (le 4 (pylen addons) ++ concat (map pack_addon addons) ++ le 4 time) 0 = _).
  cbn [mbind res_bind]. replace (Z.to_nat (pylen addons)) with (length addons) by (unfold pylen; lia).
  pose proof (addon_entries_concat addons (le 4 (pylen addons)) (le 4 time) Ha) as He.
  rewrite pylen_le in He. change (Z.of_nat 4) with 4 in He. rewrite He. cbn [mbind res_bind].
  f_equal. unfold pylen. by rewrite length_map.
Qed.

Lemma addon_info_reply_witness :
  let addons := [Addon (lit "Blizzard_UI") 1 STANDARD_ADDON_CRC 0; Addon (lit "X") 1 5 0] in
  snd (build_addon_info Some (le 4 99 ++ (le 4 2 ++ concat (map pack_addon addons) ++ le 4 7))) = 2.
Proof.
  cbv zeta. rewrite (addon_info_reply Some (le 4 99)
    (le 4 2 ++ concat (map pack_addon [Addon (lit "Blizzard_UI") 1 STANDARD_ADDON_CRC 0; Addon (lit "X") 1 5 0]) ++ le 4 7)
    [Addon (lit "Blizzard_UI") 1 STANDARD_ADDON_CRC 0; Addon (lit "X") 1 5 0] 7);
    [reflexivity | reflexivity | | reflexivity | reflexivity].
  apply Forall_cons; split; [split; [by_decide | vm_compute; split; congruence]|].
  apply Forall_cons; split; [split; [by_decide | vm_compute; split; congruence]|]. constructor.
Defined.

(** ** The character list *)

(** One character as the client's list screen reads it: GUID, name bytes, the
    nine appearance bytes, zone, map and the three coordinates' bytes. *)
Record enum_image := EnumImage {
  ei_guid : Z; ei_name : bytes; ei_look : bytes; ei_zone : Z; ei_map : Z; ei_pos : bytes }.

Definition rd_enum_char : rd enum_image :=
  g <-- rd_u 8;; n <-- rd_cstr;; look <-- rd_bytes 9;; zone <-- rd_u 4;; mp <-- rd_u 4;;
  pos <-- rd_bytes 12;; _flags <-- rd_bytes 25;; _gear <-- rd_bytes 207;;
  rd_ret (EnumImage g n look zone mp pos).

Definition rd_char_enum : rd (list enum_image) :=
  n <-- rd_u 1;; rd_rep (Z.to_nat n) rd_enum_char.

Definition enum_image_of (c : character) (im : enum_image) : Prop :=
  ei_guid im = c_guid c /\ utf8_encode (c_name c) = Ok (ei_name im)
  /\ ei_look im = map (fun v => Z.land v 0xFF)
       [c_race c; c_class c; c_gender c; c_skin c; c_face c; c_hairStyle c; c_hairColor c;
        c_facialHair c; c_level c]
  /\ ei_zone im = c_zone c /\ ei_map im = c_map c
  /\ packfs [c_x c; c_y c; c_z c] = Ok (ei_pos im).

Definition name_ok (c : character) : Prop := Forall is_char (c_name c) /\ (0 ∉ c_name c).

Lemma packfs_length l b : packfs l = Ok b -> length b = (4 * length l)%nat.
Proof.
  unfold packfs. intros H. inv_bind H. apply Ok_inj in H. subst b. revert v E.
  induction l as [|x l IH]; intros v E; cbn in E.
  - apply Ok_inj in E. by subst.
  - destruct (packf x) as [w|] eqn:Ew; [cbn in E|done].
    destruct (res_map packf l) as [ws|] eqn:Ews; [cbn in E|done]. apply Ok_inj in E. subst v.
    cbn [concat]. rewrite length_app, (IH ws eq_refl). destruct (packf_length _ _ Ew) as [-> _].
    cbn [length]. lia.
Qed.

Lemma enum_char_read c b :
  name_ok c -> pack_enum_char c = Ok b ->
  exists im, enum_image_of c im /\ forall rest, rd_enum_char (b ++ rest) = Some (im, rest).
Proof.
  intros [Hc Hn] H. unfold pack_enum_char, cstr in H. inv_binds H.
  destruct (utf8_encode (c_name c)) as [nm|] eqn:En; [|done]. cbn [mbind res_bind] in E0.
  apply Ok_inj in H, E0. subst b v0.
  apply pack_u_inv in E as [Hg ->], E1 as [Hz ->], E2 as [Hm ->].
  pose proof (packfs_length _ _ E3) as Hp. cbn [length] in Hp.
  eexists (EnumImage _ _ _ _ _ _). split; [repeat split; [exact En | exact E3]|]. intros rest.
  unfold rd_enum_char. rewrite <- !app_assoc. cbn [app map].
  erewrite rd_bind_some by (by apply rd_u_app).
  erewrite rd_bind_some by (apply rd_cstr_app; by eapply utf8_encode_nul).
  match goal with |- context [rd_bind (rd_bytes 9) _ (?a :: ?b :: ?c :: ?d :: ?e :: ?f :: ?g :: ?h :: ?i :: ?q)] =>
    change (a :: b :: c :: d :: e :: f :: g :: h :: i :: q) with ([a; b; c; d; e; f; g; h; i] ++ q) end.
  erewrite rd_bind_some by (by apply rd_bytes_app).
  erewrite rd_bind_some by (by apply rd_u_app).
  erewrite rd_bind_some by (by apply rd_u_app).
  erewrite rd_bind_some by (by apply rd_bytes_app).
  match goal with |- context [rd_bind (rd_bytes 25) _ ?q] =>
    change q with (replicate 25 0 ++ concat (replicate 23 (le 4 0 ++ [0] ++ le 4 0)) ++ rest) end.
  erewrite rd_bind_some by (by apply rd_bytes_app).
  erewrite rd_bind_some by (by apply rd_bytes_app).
  reflexivity.
Qed.

Lemma enum_chars_read chars cs :
  Forall name_ok chars -> res_map pack_enum_char chars = Ok cs ->
  exists images, Forall2 enum_image_of chars images
    /\ forall rest, rd_rep (length chars) rd_enum_char (concat cs ++ rest) = Some (images, rest).
Proof.
  intros Hn. revert cs. induction Hn as [|c chars Hc _ IH]; intros cs H; cbn in H.
  - apply Ok_inj in H. subst. by exists [].
  - destruct (pack_enum_char c) as [b|] eqn:Eb; [cbn in H|done].
    destruct (res_map pack_enum_char chars) as [bs|]; [cbn in H|done]. apply Ok_inj in H. subst cs.
    destruct (IH bs eq_refl) as (ims & Hf & Hr). destruct (enum_char_read c b Hc Eb) as (im & Hi & Hri).
    exists (im :: ims). split; [by constructor|]. intros rest. cbn [length rd_rep concat].
    rewrite <- app_assoc. rewrite (rd_bind_some _ _ _ _ _ (Hri _)), (rd_bind_some _ _ _ _ _ (Hr _)).
    done.
Qed.

(** The client's list screen reads back every character of the account --
    GUID, name, appearance, place -- and the packet holds nothing else. *)
Theorem char_enum_read chars out :
  Forall name_ok chars -> smsg_char_enum chars = Ok out ->
  exists images, rd_all rd_char_enum out = Some images /\ Forall2 enum_image_of chars images.
Proof.
  intros Hn H. unfold smsg_char_enum in H. inv_binds H. apply Ok_inj in H. subst out.
  apply mkbytes_inv in E as [-> Hb]. inversion_clear Hb as [|? ? Hl _].
  destruct (enum_chars_read chars v0 Hn E0) as (ims & Hf & Hr).
  exists ims. split; [|exact Hf]. unfold rd_all, rd_char_enum. cbn [app].
  erewrite rd_bind_some by (by apply rd_u_byte).
  replace (Z.to_nat (pylen chars)) with (length chars) by (unfold pylen; lia).
  rewrite <- (app_nil_r (concat v0)), Hr. done.
Qed.

Lemma char_enum_read_witness :
  let cs := [make_character [] sample_create] in
  exists out images, smsg_char_enum cs = Ok out /\ rd_all rd_char_enum out = Some images
    /\ Forall2 enum_image_of cs images.
Proof.
  cbv zeta.
  destruct (smsg_char_enum [make_character [] sample_create]) as [out|] eqn:E;
    [|vm_compute in E; discriminate E].
  destruct (char_enum_read [make_character [] sample_create] out) as (ims & H1 & H2); [|exact E|by exists out, ims].
  constructor; [|constructor]. split.
  - unfold is_char. repeat constructor; cbn; lia.
  - by_decide.
Defined.
