(* ===== verification/Builds.v ===== *)
(** * Stored builds (world_server.py)

    A build is a JSON dictionary in builds.json: a name, some metadata and a
    list of entries.  Its rows, its class by vote, and the record the Build
    Creator panel reads.  An empty spell vector is the client's "delete this
    build", so the list a category is answered with never contains one. *)
From S2P Require Import Prelude Wire PyFloat Text Json Consts Dbc Classes Spells Known.
From S2P Require Import Builders.

(** [build or {}] followed by a dictionary operation. *)
Definition or_dict (build : json) : res jdict :=
  if py_truthy build then match build with JDict d => Ok d | _ => Err AttributeError end else Ok [].

(** [build.get(...)] needs the dictionary itself. *)
Definition as_dict (build : json) : res jdict :=
  match build with JDict d => Ok d | _ => Err AttributeError end.

Definition dict_get (d : jdict) (k : string) (dflt : json) : json := default dflt (dget (lit k) d).

(** [sorted(d.items())]: distinct string keys decide the order. *)
Definition sorted_items {A} (d : list (pystr * A)) : list (pystr * A) :=
  py_sort (fun a b => str_leb (fst a) (fst b)) d.

Section Builds.
Context `{Unicode} `{SpellDb}.
(** [repr] of a float or container, for [str(...)] of an odd field. *)
Context (repr_of : json -> pystr).
(** The entry index, the class types and [int(time.time())]. *)
Context (idx : list (Z * csv_row)) (class_types : list class_type) (now : Z).

Definition _bstr (s : json) : bytes :=
  utf8_encode_replace (match s with JNull => [] | _ => py_str repr_of s end) ++ [0].

Definition build_rows (build : json) : res (list ca_row) :=
  d ← or_dict build; rows_of_json (dict_get d "entries" (JList [])).

(** (spellId, level, comment). *)
Record build_spell := BuildSpell { bs_spell : Z; bs_level : Z; bs_comment : pystr }.

Definition build_spell_rows (build : json) : res (list build_spell) :=
  rows ← build_rows build;
  Ok (omap (M:=list) (fun r =>
    let sid := fst (ca_entry_spell idx (kr_id r) (kr_rank r)) in
    if sid =? 0 then None
    else Some (BuildSpell sid 1
           (if kr_rank r <=? 1 then [] else lit "Rank " ++ str_of_Z (kr_rank r)))) rows).

Definition smsg_build_spell (r : build_spell) (flags : Z) : bytes :=
  u32le (bs_spell r) ++ u32le (bs_level r) ++ [0; 0; 0; 0] ++ u32le flags
  ++ _bstr (JStr (bs_comment r)).

(** [build_filter_class]; the argument is the row's ClassTypeID column. *)
Definition build_filter_class (class_type_id : option pystr) : option Z :=
  match class_type_id with
  | None => None
  | Some s =>
      match int_of_str s with
      | Err _ => None
      | Ok ctid =>
          match list_find (fun ct => ct_id ct = ctid) class_types with
          | None => None
          | Some (_, ct) =>
              if negb (ct_required ct =? 0) then Some (ct_required ct)
              else if negb (ct_classic ct =? 0) then Some BUILD_CLASS_HERO else None
          end
      end
  end.

(** The vote of [build_class_of]. *)
Definition class_votes (rows : list ca_row) : list (Z * Z) :=
  fold_left (fun votes r =>
    match dget (kr_id r) idx with
    | None => votes
    | Some row =>
        match build_filter_class (csv_get row (lit "ClassTypeID")) with
        | None => votes
        | Some c => dset c (default 0 (dget c votes) + 1) votes
        end
    end) rows [].

(** [max(sorted(votes), key=...)]: the first of the maximal ones. *)
Fixpoint max_by (f : Z -> Z) (best : Z) (l : list Z) : Z :=
  match l with
  | [] => best
  | x :: l => max_by f (if f x >? f best then x else best) l
  end.

Definition vote_winner (votes : list (Z * Z)) : option Z :=
  match sort_Z (dkeys votes) with
  | [] => None
  | c :: l => Some (max_by (fun c => default 0 (dget c votes)) c l)
  end.

Definition build_class_of (build : json) (fallback : option Z) : res Z :=
  d ← or_dict build;
  match dget (lit "class") d with
  | Some v => n ← py_int v; Ok (Z.land n 0xFFFFFFFF)
  | None =>
      rows ← build_rows build;
      match vote_winner (class_votes rows) with
      | None => Ok (Z.land (default BUILD_CLASS_HERO fallback) 0xFFFFFFFF)
      | Some c => Ok c
      end
  end.

Definition int_field (d : jdict) (k : string) (dflt : Z) : res Z :=
  py_int (dict_get d k (JInt dflt)).

Definition smsg_build_record (bid : pystr) (build : json) (category : Z) (author : pystr)
    (clas : option Z) : res bytes :=
  rows ← build_spell_rows build;
  d ← as_dict build;
  cls ← build_class_of build clas;
  clsb ← packI cls;
  upvotes ← int_field d "upvotes" 0;
  created ← int_field d "created" now;
  updated ← int_field d "updated" now;
  times_c ← packQ created;
  times_u ← packQ updated;
  cat ← int_field d "category" category;
  roles ← int_field d "roles" BUILD_DEFAULT_ROLE;
  stat ← int_field d "primaryStat" 0;
  n ← packI (pylen rows);
  flags ← int_field d "flags" 0;
  difficulty ← int_field d "difficulty" 0;
  Ok (_bstr (JStr bid)
      ++ _bstr (dict_get d "levelingId" (JStr []))
      ++ _bstr (dict_get d "endGameIdPvE" (JStr []))
      ++ _bstr (dict_get d "endGameIdPvP" (JStr []))
      ++ clsb
      ++ _bstr (dict_get d "author" (JStr author))
      ++ _bstr (dict_get d "name" (JStr bid))
      ++ _bstr (dict_get d "subtext" (JStr []))
      ++ _bstr (dict_get d "description" (JStr []))
      ++ _bstr (dict_get d "icon" (JStr BUILD_DEFAULT_ICON))
      ++ u32le upvotes ++ times_c ++ times_u
      ++ u32le cat ++ u32le roles ++ u32le stat
      ++ n ++ concat (map (fun r => smsg_build_spell r 0) rows)
      ++ le 4 0 ++ le 4 0 ++ le 4 0
      ++ [0] ++ u32le flags ++ u32le difficulty).

(** [build_records_for], the loop over the sorted store. *)
Fixpoint records_go (want : option Z) (author : pystr) (clas : option Z)
    (items : list (pystr * json)) : res (list bytes) :=
  match items with
  | [] => Ok []
  | (bid, b) :: items =>
      rows ← build_spell_rows b;
      match rows with
      | [] => records_go want author clas items
      | _ =>
          keep ← (match want with
                  | None | Some 0 => Ok true
                  | Some w => d ← as_dict b; c ← int_field d "category" 0; Ok (c =? w)
                  end);
          if keep : bool then
            r ← smsg_build_record bid b (default 0 want) author clas;
            rest ← records_go want author clas items;
            Ok (r :: rest)
          else records_go want author clas items
      end
  end.

Definition build_records_for (db : jdict) (cat author : pystr) (clas : option Z) : res (list bytes) :=
  records_go (dget cat BUILD_CATEGORY_IDS) author clas (sorted_items db).

Definition smsg_build_result (result : pystr) (record : bytes) : bytes :=
  _bstr (JStr result) ++ record.

Definition smsg_build_active_build_update (spec : Z) (build_id : pystr) (flag_a flag_b : Z) : bytes :=
  u32le spec ++ _bstr (JStr build_id) ++ [Z.land flag_a 0xFF; Z.land flag_b 0xFF].

Definition smsg_build_activate_result (status : pystr) : bytes := _bstr (JStr status).

(** ** The class vote *)

Lemma max_by_spec f best l :
  let w := max_by f best l in
  (w = best \/ w ∈ l) /\ f best <= f w /\ (forall x, x ∈ l -> f x <= f w)
  /\ (StronglySorted Z.lt (best :: l) -> forall x, x ∈ best :: l -> f x = f w -> w <= x).
Proof.
  revert best. induction l as [|y l IH]; intros best; cbn [max_by].
  - repeat split; [by left | lia | by intros x []%not_elem_of_nil |].
    intros _ x ->%list_elem_of_singleton _. lia.
  - rewrite Z.gtb_ltb. destruct (Z.ltb_spec (f best) (f y)) as [H1|H1].
    + destruct (IH y) as (Hin & Hy & Hl & Hs). split; [|split; [|split]].
      * right. destruct Hin as [->|?]; [left|by right].
      * lia.
      * intros x [->|Hx]%elem_of_cons; [done | by apply Hl].
      * intros Hsort x. inversion Hsort; subst.
        intros [->|Hx]%elem_of_cons He; [lia|]. by apply Hs.
    + destruct (IH best) as (Hin & Hy & Hl & Hs). split; [|split; [|split]].
      * destruct Hin as [->|?]; [by left | right; by right].
      * done.
      * intros x [->|Hx]%elem_of_cons; [lia | by apply Hl].
      * intros Hsort x. inversion Hsort as [|? ? Ht Hall]; subst. inversion Ht; subst.
        rewrite Forall_cons in Hall. destruct Hall as [Hby Hall].
        intros [->|[->|Hx]%elem_of_cons]%elem_of_cons He.
        -- apply Hs; [by constructor | left | done].
        -- assert (f best = f (max_by f best l)) as Hb by lia.
           transitivity best; [|lia]. apply Hs; [by constructor | left | done].
        -- apply Hs; [by constructor | by right | done].
Qed.

Lemma vote_winner_spec votes w :
  dict_ok votes -> vote_winner votes = Some w ->
  w ∈ dkeys votes /\ forall c, c ∈ dkeys votes ->
    let f c := default 0 (dget c votes) in f c <= f w /\ (f c = f w -> w <= c).
Proof.
  intros Hd Hw. unfold vote_winner in Hw.
  pose proof (sort_Z_strict (dkeys votes) Hd) as Hs.
  assert (forall c, c ∈ dkeys votes <-> c ∈ sort_Z (dkeys votes)) as Hin
    by (intros; by rewrite sort_Z_elem).
  destruct (sort_Z (dkeys votes)) as [|c0 l]; [done|]. injection Hw as <-.
  destruct (max_by_spec (fun c => default 0 (dget c votes)) c0 l) as (H1 & H2 & H3 & H4).
  split.
  - apply Hin. destruct H1 as [->|?]; [left|by right].
  - intros c Hc. apply Hin in Hc. cbn zeta. split; [|by apply H4].
    apply elem_of_cons in Hc as [->|Hc]; [done | by apply H3].
Qed.

Lemma class_votes_ok rows : dict_ok (class_votes rows).
Proof.
  unfold class_votes. assert (forall v, dict_ok v -> dict_ok (fold_left (fun votes r =>
    match dget (kr_id r) idx with
    | None => votes
    | Some row =>
        match build_filter_class (csv_get row (lit "ClassTypeID")) with
        | None => votes
        | Some c => dset c (default 0 (dget c votes) + 1) votes
        end
    end) rows v)) as Hgo; [|apply Hgo, dict_ok_nil].
  induction rows as [|r rows IH]; intros v Hv; [done|]. cbn [fold_left]. apply IH.
  repeat case_match; auto using dict_ok_dset.
Qed.

(** An unpinned build belongs to the class most of its entries vote for,
    the smaller class byte on a tie; with no vote at all it is the fallback
    (Hero by default). *)
Theorem build_class_by_vote build d rows fallback :
  or_dict build = Ok d -> dget (lit "class") d = None -> build_rows build = Ok rows ->
  exists c, build_class_of build fallback = Ok c
    /\ match class_votes rows with
       | [] => c = Z.land (default BUILD_CLASS_HERO fallback) 0xFFFFFFFF
       | votes => c ∈ dkeys votes /\ forall c', c' ∈ dkeys votes ->
           let n c := default 0 (dget c votes) in n c' <= n c /\ (n c' = n c -> c <= c')
       end.
Proof.
  intros Hd Hc Hr. unfold build_class_of. rewrite Hd. cbn [mbind res_bind]. rewrite Hc, Hr.
  cbn [mbind res_bind]. pose proof (vote_winner_spec (class_votes rows)) as Hv.
  pose proof (class_votes_ok rows) as Hok.
  destruct (vote_winner (class_votes rows)) as [w|] eqn:Ew.
  - exists w. split; [done|]. specialize (Hv w Hok eq_refl).
    destruct (class_votes rows) as [|v vs]; [|exact Hv].
    destruct Hv as [Hv _]. by apply not_elem_of_nil in Hv.
  - eexists. split; [reflexivity|]. destruct (class_votes rows) as [|[k n] vs]; [done|].
    exfalso. unfold vote_winner in Ew.
    assert (k ∈ sort_Z (dkeys ((k, n) :: vs))) as Hin by (apply sort_Z_elem; left).
    destruct (sort_Z _); [by apply not_elem_of_nil in Hin | done].
Qed.

(** An answered category never carries the client's "delete this build"
    encoding: every record in it comes from a stored build of that category
    that resolves to at least one spell. *)
Theorem build_records_nonempty db cat author clas records :
  build_records_for db cat author clas = Ok records ->
  Forall (fun rec => exists bid b r rs, (bid, b) ∈ db
    /\ build_spell_rows b = Ok (r :: rs)
    /\ smsg_build_record bid b (default 0 (dget cat BUILD_CATEGORY_IDS)) author clas = Ok rec)
    records.
Proof.
  unfold build_records_for.
  assert (forall kb, kb ∈ sorted_items db -> kb ∈ db) as Hin
    by (intros kb; unfold sorted_items; by rewrite py_sort_elem).
  revert records. induction (sorted_items db) as [|[bid b] items IH]; intros records Hr;
    cbn [records_go] in Hr.
  - apply Ok_inj in Hr. by subst.
  - specialize (IH (fun kb Hk => Hin kb (list_elem_of_further _ _ _ Hk))).
    destruct (build_spell_rows b) as [rows|] eqn:Erows; [cbn [mbind res_bind] in Hr|done].
    destruct rows as [|r rs]; [by apply IH|].
    inv_bind Hr. destruct v; [|by apply IH]. inv_binds Hr. apply Ok_inj in Hr. subst records.
    constructor; [|by apply IH].
    exists bid, b, r, rs. split; [apply Hin; left|]. done.
Qed.
End Builds.

(** ** A concrete store *)

#[local] Existing Instance two_spells.

Definition tinker_row : csv_row := (lit "ClassTypeID", Some (lit "20")) :: chained_row.
Definition sample_idx : list (Z * csv_row) := ca_entry_index [tinker_row].
Definition sample_build : json :=
  JDict [(lit "name", JStr (lit "Boots")); (lit "entries", JList [row_json (CaRow 40 2)])].
Definition empty_build : json := JDict [(lit "entries", JList [])].

Lemma build_class_by_vote_witness :
  build_class_of sample_idx [tinker] sample_build None = Ok 28
  /\ exists c, build_class_of sample_idx [tinker] sample_build None = Ok c.
Proof.
  split; [reflexivity|].
  destruct (build_class_by_vote sample_idx [tinker] sample_build _ [CaRow 40 2] None eq_refl eq_refl eq_refl)
    as (c & Hc & _). by exists c.
Defined.

Lemma build_records_nonempty_witness :
  exists rec, build_records_for (fun _ => []) sample_idx [tinker] 1756700000
      [(lit "b", sample_build); (lit "a", empty_build)] (lit "None") (lit "me") None = Ok [rec]
    /\ exists bid b, (bid, b) ∈ [(lit "b", sample_build); (lit "a", empty_build)].
Proof.
  destruct (build_records_for (fun _ => []) sample_idx [tinker] 1756700000
    [(lit "b", sample_build); (lit "a", empty_build)] (lit "None") (lit "me") None) as [recs|e] eqn:E;
    [|vm_compute in E; discriminate E].
  pose proof (build_records_nonempty (fun _ => []) sample_idx [tinker] 1756700000
    [(lit "b", sample_build); (lit "a", empty_build)] (lit "None") (lit "me") None recs E) as H.
  vm_compute in E. apply Ok_inj in E. subst recs. eexists. split; [reflexivity|].
  inversion_clear H as [|? ? (bid & b & r & rs & Hin & _) _]. by exists bid, b.
Defined.
