(* ===== verification/World.v ===== *)
(** * The server's state and the monad of its handlers

    What world_server.py keeps in module globals (the stores, the action bars,
    the live units, the dummies, the auras) and in the locals of
    [handle_client] is one record, [world].  A function of the server is a
    value of [M A]: it takes the state, and answers a value or an exception
    together with the state it leaves, so what was done before an exception
    stays done.

    Time: [w_clock] is what [time.monotonic()], [time.time()] and
    [time.localtime()] return while one packet (or one idle tick) is handled;
    it changes between steps.  Monotonic seconds are whole nanoseconds, so the
    sums and differences the server forms in binary64 are exact here.

    Randomness: the [k]-th call of [random.randint] is [randint k] of the
    environment, which only promises the documented range.

    Sending appends to [w_out]; the bytes of a frame and the header cipher are
    Framing.v.  A write to a store's file is assumed to succeed. *)
From S2P Require Import Prelude Wire PyFloat Text Json Consts Rc4 Framing Chars Account Dbc.
From S2P Require Import Classes Spells Known Builders.

(** ** What the server is started with *)

(** The files loaded at start-up, the environment variables, and the parts of
    Python's library that are not computed here (zlib, the C library's [cos]
    and [sin], [random], [repr]). *)
Class Env := {
  #[global] env_unicode :: Unicode;
  #[global] env_spelldb :: SpellDb;
  CA_INDEX : list (Z * csv_row);
  CLASS_TYPES : list class_type;
  CHRCLASSES : list (Z * pystr);
  ESSENCE_ROWS : list (list Z);
  ARCHIVE_CA_MODE : pystr;
  BURST_SKIP : list pystr;
  default_bindings : option pystr;
  zlib_compress : bytes -> bytes;
  zlib_decompress : bytes -> option bytes;
  math_cos : f64 -> f64;
  math_sin : f64 -> f64;
  py_repr : json -> pystr;
  randint : nat -> Z -> Z -> Z;
  randint_range k lo hi : lo <= hi -> lo <= randint k lo hi <= hi;
}.

(** ** The state *)

Record clock := Clock { ck_mono : Z; ck_wall : Z; ck_local : localtime }.

(** Action bars: guid to slot to packed button. *)
Abbreviation layout := (list (Z * Z)) (only parsing).
Abbreviation bar_layouts := (list (Z * list (Z * Z))) (only parsing).

(** [_AB_BURST]: packets counted, time of the last one, how many changed the
    layout. *)
Record burst := Burst { bu_count : Z; bu_last : Z; bu_changed : Z }.

Record unit_st := UnitSt { u_hp : Z; u_power : Z }.

Record dummy := Dummy {
  d_hp : Z; d_maxhp : Z; d_x : f64; d_y : f64; d_z : f64; d_o : f64;
  d_display : Z; d_scale : f64; d_hit : Z }.

(** A periodic effect of an aura; times in nanoseconds. *)
Record tick := Tick { t_index : Z; t_aura : Z; t_amount : Z; t_period : Z; t_next : Z }.

Record aura := Aura {
  a_spell : Z; a_name : pystr; a_slot : Z; a_caster : Z; a_target : Z; a_flags : Z;
  a_level : Z; a_stacks : Z; a_maxdur_ms : Z; a_school : Z;
  a_expires : option Z; a_ticks : list tick }.

Abbreviation aura_slots := (list (Z * aura)) (only parsing).

(** The session's inbound decryptor.  It can also be a byte string: see
    CMSG_UPDATE_ACCOUNT_DATA in Session.v. *)
Inductive decryptor := DecNone | DecRc4 (st : rc4) | DecBytes (b : bytes).

Record world := World {
  w_clock : clock;
  w_out : list packet;
  w_db : chars_db;
  w_chars_file : chars_db;
  w_acct : acctdb;
  w_known : jdict;
  w_builds : jdict;
  w_bars : bar_layouts;
  w_bars_dirty : bool;
  w_bars_flush : Z;
  w_bars_file : jdict;
  w_burst : list (Z * burst);
  w_sent : list (Z * list Z);
  w_units : list (Z * unit_st);
  w_dummies : list (Z * dummy);
  w_dummy_seq : Z;
  w_auras : list (Z * aura_slots);
  w_aura_last : Z;
  w_override : option (Z * Z);
  w_rolls : nat;
  w_cid : Z;
  w_account : pystr;
  w_in_world : bool;
  w_cur : option character;
  w_linked : bool;
  w_ts_counter : Z;
  w_ts_last : Z;
  w_regen_last : Z;
  w_ca_pending : bool;
  w_ca_pending_at : Z;
  w_ca_ack : option pystr;
  w_stand_state : Z;
  w_stand_last : Z;
  w_dec : decryptor;
  w_crypt_in : bool }.

Definition set_w_clock (v : clock) (w : world) : world :=
  World v (w_out w) (w_db w) (w_chars_file w) (w_acct w) (w_known w) (w_builds w) (w_bars w)
    (w_bars_dirty w) (w_bars_flush w) (w_bars_file w) (w_burst w) (w_sent w) (w_units w)
    (w_dummies w) (w_dummy_seq w) (w_auras w) (w_aura_last w) (w_override w) (w_rolls w)
    (w_cid w) (w_account w) (w_in_world w) (w_cur w) (w_linked w) (w_ts_counter w)
    (w_ts_last w) (w_regen_last w) (w_ca_pending w) (w_ca_pending_at w) (w_ca_ack w)
    (w_stand_state w) (w_stand_last w) (w_dec w) (w_crypt_in w).
Definition set_w_out (v : list packet) (w : world) : world :=
  World (w_clock w) v (w_db w) (w_chars_file w) (w_acct w) (w_known w) (w_builds w) (w_bars
    w) (w_bars_dirty w) (w_bars_flush w) (w_bars_file w) (w_burst w) (w_sent w) (w_units w)
    (w_dummies w) (w_dummy_seq w) (w_auras w) (w_aura_last w) (w_override w) (w_rolls w)
    (w_cid w) (w_account w) (w_in_world w) (w_cur w) (w_linked w) (w_ts_counter w)
    (w_ts_last w) (w_regen_last w) (w_ca_pending w) (w_ca_pending_at w) (w_ca_ack w)
    (w_stand_state w) (w_stand_last w) (w_dec w) (w_crypt_in w).
Definition set_w_db (v : chars_db) (w : world) : world :=
  World (w_clock w) (w_out w) v (w_chars_file w) (w_acct w) (w_known w) (w_builds w) (w_bars
    w) (w_bars_dirty w) (w_bars_flush w) (w_bars_file w) (w_burst w) (w_sent w) (w_units w)
    (w_dummies w) (w_dummy_seq w) (w_auras w) (w_aura_last w) (w_override w) (w_rolls w)
    (w_cid w) (w_account w) (w_in_world w) (w_cur w) (w_linked w) (w_ts_counter w)
    (w_ts_last w) (w_regen_last w) (w_ca_pending w) (w_ca_pending_at w) (w_ca_ack w)
    (w_stand_state w) (w_stand_last w) (w_dec w) (w_crypt_in w).
Definition set_w_chars_file (v : chars_db) (w : world) : world :=
  World (w_clock w) (w_out w) (w_db w) v (w_acct w) (w_known w) (w_builds w) (w_bars w)
    (w_bars_dirty w) (w_bars_flush w) (w_bars_file w) (w_burst w) (w_sent w) (w_units w)
    (w_dummies w) (w_dummy_seq w) (w_auras w) (w_aura_last w) (w_override w) (w_rolls w)
    (w_cid w) (w_account w) (w_in_world w) (w_cur w) (w_linked w) (w_ts_counter w)
    (w_ts_last w) (w_regen_last w) (w_ca_pending w) (w_ca_pending_at w) (w_ca_ack w)
    (w_stand_state w) (w_stand_last w) (w_dec w) (w_crypt_in w).
Definition set_w_acct (v : acctdb) (w : world) : world :=
  World (w_clock w) (w_out w) (w_db w) (w_chars_file w) v (w_known w) (w_builds w) (w_bars
    w) (w_bars_dirty w) (w_bars_flush w) (w_bars_file w) (w_burst w) (w_sent w) (w_units w)
    (w_dummies w) (w_dummy_seq w) (w_auras w) (w_aura_last w) (w_override w) (w_rolls w)
    (w_cid w) (w_account w) (w_in_world w) (w_cur w) (w_linked w) (w_ts_counter w)
    (w_ts_last w) (w_regen_last w) (w_ca_pending w) (w_ca_pending_at w) (w_ca_ack w)
    (w_stand_state w) (w_stand_last w) (w_dec w) (w_crypt_in w).
Definition set_w_known (v : jdict) (w : world) : world :=
  World (w_clock w) (w_out w) (w_db w) (w_chars_file w) (w_acct w) v (w_builds w) (w_bars w)
    (w_bars_dirty w) (w_bars_flush w) (w_bars_file w) (w_burst w) (w_sent w) (w_units w)
    (w_dummies w) (w_dummy_seq w) (w_auras w) (w_aura_last w) (w_override w) (w_rolls w)
    (w_cid w) (w_account w) (w_in_world w) (w_cur w) (w_linked w) (w_ts_counter w)
    (w_ts_last w) (w_regen_last w) (w_ca_pending w) (w_ca_pending_at w) (w_ca_ack w)
    (w_stand_state w) (w_stand_last w) (w_dec w) (w_crypt_in w).
Definition set_w_builds (v : jdict) (w : world) : world :=
  World (w_clock w) (w_out w) (w_db w) (w_chars_file w) (w_acct w) (w_known w) v (w_bars w)
    (w_bars_dirty w) (w_bars_flush w) (w_bars_file w) (w_burst w) (w_sent w) (w_units w)
    (w_dummies w) (w_dummy_seq w) (w_auras w) (w_aura_last w) (w_override w) (w_rolls w)
    (w_cid w) (w_account w) (w_in_world w) (w_cur w) (w_linked w) (w_ts_counter w)
    (w_ts_last w) (w_regen_last w) (w_ca_pending w) (w_ca_pending_at w) (w_ca_ack w)
    (w_stand_state w) (w_stand_last w) (w_dec w) (w_crypt_in w).
Definition set_w_bars (v : bar_layouts) (w : world) : world :=
  World (w_clock w) (w_out w) (w_db w) (w_chars_file w) (w_acct w) (w_known w) (w_builds w)
    v (w_bars_dirty w) (w_bars_flush w) (w_bars_file w) (w_burst w) (w_sent w) (w_units w)
    (w_dummies w) (w_dummy_seq w) (w_auras w) (w_aura_last w) (w_override w) (w_rolls w)
    (w_cid w) (w_account w) (w_in_world w) (w_cur w) (w_linked w) (w_ts_counter w)
    (w_ts_last w) (w_regen_last w) (w_ca_pending w) (w_ca_pending_at w) (w_ca_ack w)
    (w_stand_state w) (w_stand_last w) (w_dec w) (w_crypt_in w).
Definition set_w_bars_dirty (v : bool) (w : world) : world :=
  World (w_clock w) (w_out w) (w_db w) (w_chars_file w) (w_acct w) (w_known w) (w_builds w)
    (w_bars w) v (w_bars_flush w) (w_bars_file w) (w_burst w) (w_sent w) (w_units w)
    (w_dummies w) (w_dummy_seq w) (w_auras w) (w_aura_last w) (w_override w) (w_rolls w)
    (w_cid w) (w_account w) (w_in_world w) (w_cur w) (w_linked w) (w_ts_counter w)
    (w_ts_last w) (w_regen_last w) (w_ca_pending w) (w_ca_pending_at w) (w_ca_ack w)
    (w_stand_state w) (w_stand_last w) (w_dec w) (w_crypt_in w).
Definition set_w_bars_flush (v : Z) (w : world) : world :=
  World (w_clock w) (w_out w) (w_db w) (w_chars_file w) (w_acct w) (w_known w) (w_builds w)
    (w_bars w) (w_bars_dirty w) v (w_bars_file w) (w_burst w) (w_sent w) (w_units w)
    (w_dummies w) (w_dummy_seq w) (w_auras w) (w_aura_last w) (w_override w) (w_rolls w)
    (w_cid w) (w_account w) (w_in_world w) (w_cur w) (w_linked w) (w_ts_counter w)
    (w_ts_last w) (w_regen_last w) (w_ca_pending w) (w_ca_pending_at w) (w_ca_ack w)
    (w_stand_state w) (w_stand_last w) (w_dec w) (w_crypt_in w).
Definition set_w_bars_file (v : jdict) (w : world) : world :=
  World (w_clock w) (w_out w) (w_db w) (w_chars_file w) (w_acct w) (w_known w) (w_builds w)
    (w_bars w) (w_bars_dirty w) (w_bars_flush w) v (w_burst w) (w_sent w) (w_units w)
    (w_dummies w) (w_dummy_seq w) (w_auras w) (w_aura_last w) (w_override w) (w_rolls w)
    (w_cid w) (w_account w) (w_in_world w) (w_cur w) (w_linked w) (w_ts_counter w)
    (w_ts_last w) (w_regen_last w) (w_ca_pending w) (w_ca_pending_at w) (w_ca_ack w)
    (w_stand_state w) (w_stand_last w) (w_dec w) (w_crypt_in w).
Definition set_w_burst (v : list (Z * burst)) (w : world) : world :=
  World (w_clock w) (w_out w) (w_db w) (w_chars_file w) (w_acct w) (w_known w) (w_builds w)
    (w_bars w) (w_bars_dirty w) (w_bars_flush w) (w_bars_file w) v (w_sent w) (w_units w)
    (w_dummies w) (w_dummy_seq w) (w_auras w) (w_aura_last w) (w_override w) (w_rolls w)
    (w_cid w) (w_account w) (w_in_world w) (w_cur w) (w_linked w) (w_ts_counter w)
    (w_ts_last w) (w_regen_last w) (w_ca_pending w) (w_ca_pending_at w) (w_ca_ack w)
    (w_stand_state w) (w_stand_last w) (w_dec w) (w_crypt_in w).
Definition set_w_sent (v : list (Z * list Z)) (w : world) : world :=
  World (w_clock w) (w_out w) (w_db w) (w_chars_file w) (w_acct w) (w_known w) (w_builds w)
    (w_bars w) (w_bars_dirty w) (w_bars_flush w) (w_bars_file w) (w_burst w) v (w_units w)
    (w_dummies w) (w_dummy_seq w) (w_auras w) (w_aura_last w) (w_override w) (w_rolls w)
    (w_cid w) (w_account w) (w_in_world w) (w_cur w) (w_linked w) (w_ts_counter w)
    (w_ts_last w) (w_regen_last w) (w_ca_pending w) (w_ca_pending_at w) (w_ca_ack w)
    (w_stand_state w) (w_stand_last w) (w_dec w) (w_crypt_in w).
Definition set_w_units (v : list (Z * unit_st)) (w : world) : world :=
  World (w_clock w) (w_out w) (w_db w) (w_chars_file w) (w_acct w) (w_known w) (w_builds w)
    (w_bars w) (w_bars_dirty w) (w_bars_flush w) (w_bars_file w) (w_burst w) (w_sent w) v
    (w_dummies w) (w_dummy_seq w) (w_auras w) (w_aura_last w) (w_override w) (w_rolls w)
    (w_cid w) (w_account w) (w_in_world w) (w_cur w) (w_linked w) (w_ts_counter w)
    (w_ts_last w) (w_regen_last w) (w_ca_pending w) (w_ca_pending_at w) (w_ca_ack w)
    (w_stand_state w) (w_stand_last w) (w_dec w) (w_crypt_in w).
Definition set_w_dummies (v : list (Z * dummy)) (w : world) : world :=
  World (w_clock w) (w_out w) (w_db w) (w_chars_file w) (w_acct w) (w_known w) (w_builds w)
    (w_bars w) (w_bars_dirty w) (w_bars_flush w) (w_bars_file w) (w_burst w) (w_sent w)
    (w_units w) v (w_dummy_seq w) (w_auras w) (w_aura_last w) (w_override w) (w_rolls w)
    (w_cid w) (w_account w) (w_in_world w) (w_cur w) (w_linked w) (w_ts_counter w)
    (w_ts_last w) (w_regen_last w) (w_ca_pending w) (w_ca_pending_at w) (w_ca_ack w)
    (w_stand_state w) (w_stand_last w) (w_dec w) (w_crypt_in w).
Definition set_w_dummy_seq (v : Z) (w : world) : world :=
  World (w_clock w) (w_out w) (w_db w) (w_chars_file w) (w_acct w) (w_known w) (w_builds w)
    (w_bars w) (w_bars_dirty w) (w_bars_flush w) (w_bars_file w) (w_burst w) (w_sent w)
    (w_units w) (w_dummies w) v (w_auras w) (w_aura_last w) (w_override w) (w_rolls w)
    (w_cid w) (w_account w) (w_in_world w) (w_cur w) (w_linked w) (w_ts_counter w)
    (w_ts_last w) (w_regen_last w) (w_ca_pending w) (w_ca_pending_at w) (w_ca_ack w)
    (w_stand_state w) (w_stand_last w) (w_dec w) (w_crypt_in w).
Definition set_w_auras (v : list (Z * aura_slots)) (w : world) : world :=
  World (w_clock w) (w_out w) (w_db w) (w_chars_file w) (w_acct w) (w_known w) (w_builds w)
    (w_bars w) (w_bars_dirty w) (w_bars_flush w) (w_bars_file w) (w_burst w) (w_sent w)
    (w_units w) (w_dummies w) (w_dummy_seq w) v (w_aura_last w) (w_override w) (w_rolls w)
    (w_cid w) (w_account w) (w_in_world w) (w_cur w) (w_linked w) (w_ts_counter w)
    (w_ts_last w) (w_regen_last w) (w_ca_pending w) (w_ca_pending_at w) (w_ca_ack w)
    (w_stand_state w) (w_stand_last w) (w_dec w) (w_crypt_in w).
Definition set_w_aura_last (v : Z) (w : world) : world :=
  World (w_clock w) (w_out w) (w_db w) (w_chars_file w) (w_acct w) (w_known w) (w_builds w)
    (w_bars w) (w_bars_dirty w) (w_bars_flush w) (w_bars_file w) (w_burst w) (w_sent w)
    (w_units w) (w_dummies w) (w_dummy_seq w) (w_auras w) v (w_override w) (w_rolls w)
    (w_cid w) (w_account w) (w_in_world w) (w_cur w) (w_linked w) (w_ts_counter w)
    (w_ts_last w) (w_regen_last w) (w_ca_pending w) (w_ca_pending_at w) (w_ca_ack w)
    (w_stand_state w) (w_stand_last w) (w_dec w) (w_crypt_in w).
Definition set_w_override (v : option (Z * Z)) (w : world) : world :=
  World (w_clock w) (w_out w) (w_db w) (w_chars_file w) (w_acct w) (w_known w) (w_builds w)
    (w_bars w) (w_bars_dirty w) (w_bars_flush w) (w_bars_file w) (w_burst w) (w_sent w)
    (w_units w) (w_dummies w) (w_dummy_seq w) (w_auras w) (w_aura_last w) v (w_rolls w)
    (w_cid w) (w_account w) (w_in_world w) (w_cur w) (w_linked w) (w_ts_counter w)
    (w_ts_last w) (w_regen_last w) (w_ca_pending w) (w_ca_pending_at w) (w_ca_ack w)
    (w_stand_state w) (w_stand_last w) (w_dec w) (w_crypt_in w).
Definition set_w_rolls (v : nat) (w : world) : world :=
  World (w_clock w) (w_out w) (w_db w) (w_chars_file w) (w_acct w) (w_known w) (w_builds w)
    (w_bars w) (w_bars_dirty w) (w_bars_flush w) (w_bars_file w) (w_burst w) (w_sent w)
    (w_units w) (w_dummies w) (w_dummy_seq w) (w_auras w) (w_aura_last w) (w_override w) v
    (w_cid w) (w_account w) (w_in_world w) (w_cur w) (w_linked w) (w_ts_counter w)
    (w_ts_last w) (w_regen_last w) (w_ca_pending w) (w_ca_pending_at w) (w_ca_ack w)
    (w_stand_state w) (w_stand_last w) (w_dec w) (w_crypt_in w).
Definition set_w_cid (v : Z) (w : world) : world :=
  World (w_clock w) (w_out w) (w_db w) (w_chars_file w) (w_acct w) (w_known w) (w_builds w)
    (w_bars w) (w_bars_dirty w) (w_bars_flush w) (w_bars_file w) (w_burst w) (w_sent w)
    (w_units w) (w_dummies w) (w_dummy_seq w) (w_auras w) (w_aura_last w) (w_override w)
    (w_rolls w) v (w_account w) (w_in_world w) (w_cur w) (w_linked w) (w_ts_counter w)
    (w_ts_last w) (w_regen_last w) (w_ca_pending w) (w_ca_pending_at w) (w_ca_ack w)
    (w_stand_state w) (w_stand_last w) (w_dec w) (w_crypt_in w).
Definition set_w_account (v : pystr) (w : world) : world :=
  World (w_clock w) (w_out w) (w_db w) (w_chars_file w) (w_acct w) (w_known w) (w_builds w)
    (w_bars w) (w_bars_dirty w) (w_bars_flush w) (w_bars_file w) (w_burst w) (w_sent w)
    (w_units w) (w_dummies w) (w_dummy_seq w) (w_auras w) (w_aura_last w) (w_override w)
    (w_rolls w) (w_cid w) v (w_in_world w) (w_cur w) (w_linked w) (w_ts_counter w)
    (w_ts_last w) (w_regen_last w) (w_ca_pending w) (w_ca_pending_at w) (w_ca_ack w)
    (w_stand_state w) (w_stand_last w) (w_dec w) (w_crypt_in w).
Definition set_w_in_world (v : bool) (w : world) : world :=
  World (w_clock w) (w_out w) (w_db w) (w_chars_file w) (w_acct w) (w_known w) (w_builds w)
    (w_bars w) (w_bars_dirty w) (w_bars_flush w) (w_bars_file w) (w_burst w) (w_sent w)
    (w_units w) (w_dummies w) (w_dummy_seq w) (w_auras w) (w_aura_last w) (w_override w)
    (w_rolls w) (w_cid w) (w_account w) v (w_cur w) (w_linked w) (w_ts_counter w) (w_ts_last
    w) (w_regen_last w) (w_ca_pending w) (w_ca_pending_at w) (w_ca_ack w) (w_stand_state w)
    (w_stand_last w) (w_dec w) (w_crypt_in w).
Definition set_w_cur (v : option character) (w : world) : world :=
  World (w_clock w) (w_out w) (w_db w) (w_chars_file w) (w_acct w) (w_known w) (w_builds w)
    (w_bars w) (w_bars_dirty w) (w_bars_flush w) (w_bars_file w) (w_burst w) (w_sent w)
    (w_units w) (w_dummies w) (w_dummy_seq w) (w_auras w) (w_aura_last w) (w_override w)
    (w_rolls w) (w_cid w) (w_account w) (w_in_world w) v (w_linked w) (w_ts_counter w)
    (w_ts_last w) (w_regen_last w) (w_ca_pending w) (w_ca_pending_at w) (w_ca_ack w)
    (w_stand_state w) (w_stand_last w) (w_dec w) (w_crypt_in w).
Definition set_w_linked (v : bool) (w : world) : world :=
  World (w_clock w) (w_out w) (w_db w) (w_chars_file w) (w_acct w) (w_known w) (w_builds w)
    (w_bars w) (w_bars_dirty w) (w_bars_flush w) (w_bars_file w) (w_burst w) (w_sent w)
    (w_units w) (w_dummies w) (w_dummy_seq w) (w_auras w) (w_aura_last w) (w_override w)
    (w_rolls w) (w_cid w) (w_account w) (w_in_world w) (w_cur w) v (w_ts_counter w)
    (w_ts_last w) (w_regen_last w) (w_ca_pending w) (w_ca_pending_at w) (w_ca_ack w)
    (w_stand_state w) (w_stand_last w) (w_dec w) (w_crypt_in w).
Definition set_w_ts_counter (v : Z) (w : world) : world :=
  World (w_clock w) (w_out w) (w_db w) (w_chars_file w) (w_acct w) (w_known w) (w_builds w)
    (w_bars w) (w_bars_dirty w) (w_bars_flush w) (w_bars_file w) (w_burst w) (w_sent w)
    (w_units w) (w_dummies w) (w_dummy_seq w) (w_auras w) (w_aura_last w) (w_override w)
    (w_rolls w) (w_cid w) (w_account w) (w_in_world w) (w_cur w) (w_linked w) v (w_ts_last
    w) (w_regen_last w) (w_ca_pending w) (w_ca_pending_at w) (w_ca_ack w) (w_stand_state w)
    (w_stand_last w) (w_dec w) (w_crypt_in w).
Definition set_w_ts_last (v : Z) (w : world) : world :=
  World (w_clock w) (w_out w) (w_db w) (w_chars_file w) (w_acct w) (w_known w) (w_builds w)
    (w_bars w) (w_bars_dirty w) (w_bars_flush w) (w_bars_file w) (w_burst w) (w_sent w)
    (w_units w) (w_dummies w) (w_dummy_seq w) (w_auras w) (w_aura_last w) (w_override w)
    (w_rolls w) (w_cid w) (w_account w) (w_in_world w) (w_cur w) (w_linked w) (w_ts_counter
    w) v (w_regen_last w) (w_ca_pending w) (w_ca_pending_at w) (w_ca_ack w) (w_stand_state
    w) (w_stand_last w) (w_dec w) (w_crypt_in w).
Definition set_w_regen_last (v : Z) (w : world) : world :=
  World (w_clock w) (w_out w) (w_db w) (w_chars_file w) (w_acct w) (w_known w) (w_builds w)
    (w_bars w) (w_bars_dirty w) (w_bars_flush w) (w_bars_file w) (w_burst w) (w_sent w)
    (w_units w) (w_dummies w) (w_dummy_seq w) (w_auras w) (w_aura_last w) (w_override w)
    (w_rolls w) (w_cid w) (w_account w) (w_in_world w) (w_cur w) (w_linked w) (w_ts_counter
    w) (w_ts_last w) v (w_ca_pending w) (w_ca_pending_at w) (w_ca_ack w) (w_stand_state w)
    (w_stand_last w) (w_dec w) (w_crypt_in w).
Definition set_w_ca_pending (v : bool) (w : world) : world :=
  World (w_clock w) (w_out w) (w_db w) (w_chars_file w) (w_acct w) (w_known w) (w_builds w)
    (w_bars w) (w_bars_dirty w) (w_bars_flush w) (w_bars_file w) (w_burst w) (w_sent w)
    (w_units w) (w_dummies w) (w_dummy_seq w) (w_auras w) (w_aura_last w) (w_override w)
    (w_rolls w) (w_cid w) (w_account w) (w_in_world w) (w_cur w) (w_linked w) (w_ts_counter
    w) (w_ts_last w) (w_regen_last w) v (w_ca_pending_at w) (w_ca_ack w) (w_stand_state w)
    (w_stand_last w) (w_dec w) (w_crypt_in w).
Definition set_w_ca_pending_at (v : Z) (w : world) : world :=
  World (w_clock w) (w_out w) (w_db w) (w_chars_file w) (w_acct w) (w_known w) (w_builds w)
    (w_bars w) (w_bars_dirty w) (w_bars_flush w) (w_bars_file w) (w_burst w) (w_sent w)
    (w_units w) (w_dummies w) (w_dummy_seq w) (w_auras w) (w_aura_last w) (w_override w)
    (w_rolls w) (w_cid w) (w_account w) (w_in_world w) (w_cur w) (w_linked w) (w_ts_counter
    w) (w_ts_last w) (w_regen_last w) (w_ca_pending w) v (w_ca_ack w) (w_stand_state w)
    (w_stand_last w) (w_dec w) (w_crypt_in w).
Definition set_w_ca_ack (v : option pystr) (w : world) : world :=
  World (w_clock w) (w_out w) (w_db w) (w_chars_file w) (w_acct w) (w_known w) (w_builds w)
    (w_bars w) (w_bars_dirty w) (w_bars_flush w) (w_bars_file w) (w_burst w) (w_sent w)
    (w_units w) (w_dummies w) (w_dummy_seq w) (w_auras w) (w_aura_last w) (w_override w)
    (w_rolls w) (w_cid w) (w_account w) (w_in_world w) (w_cur w) (w_linked w) (w_ts_counter
    w) (w_ts_last w) (w_regen_last w) (w_ca_pending w) (w_ca_pending_at w) v (w_stand_state
    w) (w_stand_last w) (w_dec w) (w_crypt_in w).
Definition set_w_stand_state (v : Z) (w : world) : world :=
  World (w_clock w) (w_out w) (w_db w) (w_chars_file w) (w_acct w) (w_known w) (w_builds w)
    (w_bars w) (w_bars_dirty w) (w_bars_flush w) (w_bars_file w) (w_burst w) (w_sent w)
    (w_units w) (w_dummies w) (w_dummy_seq w) (w_auras w) (w_aura_last w) (w_override w)
    (w_rolls w) (w_cid w) (w_account w) (w_in_world w) (w_cur w) (w_linked w) (w_ts_counter
    w) (w_ts_last w) (w_regen_last w) (w_ca_pending w) (w_ca_pending_at w) (w_ca_ack w) v
    (w_stand_last w) (w_dec w) (w_crypt_in w).
Definition set_w_stand_last (v : Z) (w : world) : world :=
  World (w_clock w) (w_out w) (w_db w) (w_chars_file w) (w_acct w) (w_known w) (w_builds w)
    (w_bars w) (w_bars_dirty w) (w_bars_flush w) (w_bars_file w) (w_burst w) (w_sent w)
    (w_units w) (w_dummies w) (w_dummy_seq w) (w_auras w) (w_aura_last w) (w_override w)
    (w_rolls w) (w_cid w) (w_account w) (w_in_world w) (w_cur w) (w_linked w) (w_ts_counter
    w) (w_ts_last w) (w_regen_last w) (w_ca_pending w) (w_ca_pending_at w) (w_ca_ack w)
    (w_stand_state w) v (w_dec w) (w_crypt_in w).
Definition set_w_dec (v : decryptor) (w : world) : world :=
  World (w_clock w) (w_out w) (w_db w) (w_chars_file w) (w_acct w) (w_known w) (w_builds w)
    (w_bars w) (w_bars_dirty w) (w_bars_flush w) (w_bars_file w) (w_burst w) (w_sent w)
    (w_units w) (w_dummies w) (w_dummy_seq w) (w_auras w) (w_aura_last w) (w_override w)
    (w_rolls w) (w_cid w) (w_account w) (w_in_world w) (w_cur w) (w_linked w) (w_ts_counter
    w) (w_ts_last w) (w_regen_last w) (w_ca_pending w) (w_ca_pending_at w) (w_ca_ack w)
    (w_stand_state w) (w_stand_last w) v (w_crypt_in w).
Definition set_w_crypt_in (v : bool) (w : world) : world :=
  World (w_clock w) (w_out w) (w_db w) (w_chars_file w) (w_acct w) (w_known w) (w_builds w)
    (w_bars w) (w_bars_dirty w) (w_bars_flush w) (w_bars_file w) (w_burst w) (w_sent w)
    (w_units w) (w_dummies w) (w_dummy_seq w) (w_auras w) (w_aura_last w) (w_override w)
    (w_rolls w) (w_cid w) (w_account w) (w_in_world w) (w_cur w) (w_linked w) (w_ts_counter
    w) (w_ts_last w) (w_regen_last w) (w_ca_pending w) (w_ca_pending_at w) (w_ca_ack w)
    (w_stand_state w) (w_stand_last w) (w_dec w) v.

(** ** The monad *)

Definition M (A : Type) : Type := world -> res A * world.

#[global] Instance M_ret : MRet M := fun A a w => (Ok a, w).
#[global] Instance M_bind : MBind M := fun A B f m w =>
  match m w with
  | (Ok a, w') => f a w'
  | (Err e, w') => (Err e, w')
  end.

Definition get : M world := fun w => (Ok w, w).
Definition gets {A} (f : world -> A) : M A := fun w => (Ok (f w), w).
Definition modify (f : world -> world) : M unit := fun w => (Ok tt, f w).
Definition lift {A} (r : res A) : M A := fun w => (r, w).

(** [try: m except Exception: h]. *)
Definition try_ {A} (m : M A) (h : M A) : M A := fun w =>
  match m w with
  | (Ok a, w') => (Ok a, w')
  | (Err _, w') => h w'
  end.

Definition send_pkt (opcode : Z) (body : bytes) : M unit :=
  modify (fun w => set_w_out (w_out w ++ [(opcode, body)]) w).

Definition send_r (opcode : Z) (body : res bytes) : M unit :=
  b ← lift body; send_pkt opcode b.

Definition when_ (b : bool) (m : M unit) : M unit := if b then m else mret tt.

Fixpoint mapM_ {A} (f : A -> M unit) (l : list A) : M unit :=
  match l with
  | [] => mret tt
  | x :: l => f x ;; mapM_ f l
  end.

Fixpoint foldM {A B} (f : B -> A -> M B) (acc : B) (l : list A) : M B :=
  match l with
  | [] => mret acc
  | x :: l => acc' ← f acc x; foldM f acc' l
  end.

Definition now : M Z := gets (fun w => ck_mono (w_clock w)).

Definition send_batch_pkts (pkts : list packet) : M Z :=
  mapM_ (fun '(o, b) => send_pkt o b) pkts ;; mret (pylen pkts).

(** ** Reasoning: what a computation leaves behind

    [runs m P Q]: from a state in [P], [m] ends in [Q], whether it returns or
    raises; [Q] sees the result. *)

Definition runs {A} (P : world -> Prop) (m : M A) (Q : res A -> world -> Prop) : Prop :=
  forall w, P w -> Q (fst (m w)) (snd (m w)).

(** [keeps I m]: [m] preserves [I], on every path. *)
Definition keeps {A} (I : world -> Prop) (m : M A) : Prop :=
  forall w, I w -> I (snd (m w)).

Create HintDb keeps.

Section Keeps.
Context (I : world -> Prop).

Lemma keeps_ret {A} (a : A) : keeps I (mret a).
Proof. by intros w H. Qed.

Lemma keeps_bind {A B} (m : M A) (f : A -> M B) :
  keeps I m -> (forall a, keeps I (f a)) -> keeps I (m ≫= f).
Proof.
  intros Hm Hf w H. specialize (Hm w H). unfold mbind, M_bind.
  destruct (m w) as [[a|e] w']; [by apply Hf | done].
Qed.

(** When the value read matters. *)
Lemma keeps_bind_val {A B} (P : A -> Prop) (m : M A) (f : A -> M B) :
  (forall w, I w -> I (snd (m w)) /\ forall a, fst (m w) = Ok a -> P a) ->
  (forall a, P a -> keeps I (f a)) -> keeps I (m ≫= f).
Proof.
  intros Hm Hf w H. destruct (Hm w H) as [H1 H2]. unfold mbind, M_bind.
  destruct (m w) as [[a|e] w']; [|done]. apply Hf; auto.
Qed.

Lemma keeps_get : keeps I get.
Proof. by intros w H. Qed.

Lemma keeps_gets {A} (f : world -> A) : keeps I (gets f).
Proof. by intros w H. Qed.

Lemma keeps_now : keeps I now.
Proof. by intros w H. Qed.

Lemma keeps_lift {A} (r : res A) : keeps I (lift r).
Proof. by intros w H. Qed.

Lemma keeps_modify f : (forall w, I w -> I (f w)) -> keeps I (modify f).
Proof. intros Hf w H. by apply Hf. Qed.

Lemma keeps_try {A} (m h : M A) : keeps I m -> keeps I h -> keeps I (try_ m h).
Proof.
  intros Hm Hh w H. specialize (Hm w H). unfold try_.
  destruct (m w) as [[a|e] w']; [done | by apply Hh].
Qed.

Lemma keeps_when b m : keeps I m -> keeps I (when_ b m).
Proof. intros H. destruct b; [done | apply keeps_ret]. Qed.

Lemma keeps_mapM_ {A} (f : A -> M unit) l :
  (forall x, x ∈ l -> keeps I (f x)) -> keeps I (mapM_ f l).
Proof.
  induction l as [|x l IH]; intros H; [apply keeps_ret|].
  apply keeps_bind; [apply H; left | intros _; apply IH; intros y Hy; apply H; by right].
Qed.

Lemma keeps_foldM {A B} (f : B -> A -> M B) acc l :
  (forall acc x, keeps I (f acc x)) -> keeps I (foldM f acc l).
Proof.
  intros Hf. revert acc. induction l as [|x l IH]; intros acc; [apply keeps_ret|].
  apply keeps_bind; auto.
Qed.
End Keeps.

#[export] Hint Resolve keeps_ret keeps_get keeps_gets keeps_now keeps_lift keeps_try keeps_when
  keeps_mapM_ keeps_foldM : keeps.

(** Walks through a computation, one bind and one branch at a time. *)
Ltac keep_step :=
  first
    [ solve [eauto with keeps]
    | apply keeps_bind; [|intros ?]
    | apply keeps_when
    | apply keeps_try
    | apply keeps_mapM_; intros
    | apply keeps_foldM; intros
    | match goal with
      | |- keeps _ (let '(_, _) := ?x in _) => destruct x
      | |- keeps _ (match ?x with _ => _ end) => destruct x
      | |- keeps _ (if ?x then _ else _) => destruct x
      end ].
Ltac keep := repeat keep_step.

(** A state field no part of an invariant looks at. *)
Lemma keeps_send_pkt (I : world -> Prop) o b :
  (forall w out, I w -> I (set_w_out out w)) -> keeps I (send_pkt o b).
Proof. intros H. apply keeps_modify. intros w Hw. by apply H. Qed.

Lemma keeps_send_r (I : world -> Prop) o b :
  (forall w out, I w -> I (set_w_out out w)) -> keeps I (send_r o b).
Proof.
  intros H. apply keeps_bind; [apply keeps_lift|]. intros. by apply keeps_send_pkt.
Qed.

Lemma bind_ok {A B} (m : M A) (f : A -> M B) w a w' :
  m w = (Ok a, w') -> (m ≫= f) w = f a w'.
Proof. intros H. unfold mbind, M_bind. by rewrite H. Qed.

Lemma bind_err {A B} (m : M A) (f : A -> M B) w e w' :
  m w = (Err e, w') -> (m ≫= f) w = (Err e, w').
Proof. intros H. unfold mbind, M_bind. by rewrite H. Qed.

(** A successful run of a bind is a successful run of both parts. *)
Lemma bind_ok_inv {A B} (m : M A) (f : A -> M B) w b w' :
  (m ≫= f) w = (Ok b, w') -> exists a w1, m w = (Ok a, w1) /\ f a w1 = (Ok b, w').
Proof.
  unfold mbind, M_bind. destruct (m w) as [[a|e] w1]; intros H; [|done]. eauto.
Qed.

Ltac inv_m H :=
  lazymatch type of H with
  | (mbind _ ?m) ?w = (Ok _, _) =>
      let a := fresh "a" in let w1 := fresh "w" in let E := fresh "E" in let H' := fresh "H" in
      apply bind_ok_inv in H as (a & w1 & E & H'); cbv beta in H'; rename H' into H
  end.

(** Running a computation one operation at a time. *)
Lemma run_bind {A B} (m : M A) (f : A -> M B) w :
  (m ≫= f) w = match m w with (Ok a, w') => f a w' | (Err e, w') => (Err e, w') end.
Proof. reflexivity. Qed.
Lemma run_ret {A} (a : A) w : mret (M:=M) a w = (Ok a, w).
Proof. reflexivity. Qed.
Lemma run_get w : get w = (Ok w, w).
Proof. reflexivity. Qed.
Lemma run_gets {A} (f : world -> A) w : gets f w = (Ok (f w), w).
Proof. reflexivity. Qed.
Lemma run_modify f w : modify f w = (Ok tt, f w).
Proof. reflexivity. Qed.
Lemma run_lift {A} (r : res A) w : lift r w = (r, w).
Proof. reflexivity. Qed.
Lemma run_now w : now w = (Ok (ck_mono (w_clock w)), w).
Proof. reflexivity. Qed.
Lemma run_when_true m : when_ true m = m.
Proof. reflexivity. Qed.
Lemma run_when_false m : when_ false m = mret tt.
Proof. reflexivity. Qed.
Lemma run_send_pkt o b w : send_pkt o b w = (Ok tt, set_w_out (w_out w ++ [(o, b)]) w).
Proof. reflexivity. Qed.

Create Rewrite HintDb run.
#[export] Hint Rewrite @run_bind @run_ret run_get @run_gets run_modify @run_lift run_now
  run_when_true run_when_false run_send_pkt : run.
Ltac m_run := repeat (autorewrite with run; cbv beta iota).
Ltac m_run_in H := repeat (autorewrite with run in H; cbv beta iota in H).

Lemma run_send_r o r w b : r = Ok b -> send_r o r w = (Ok tt, set_w_out (w_out w ++ [(o, b)]) w).
Proof. by intros ->. Qed.

(** Sending one packet per element. *)
Lemma mapM_send_r {A} o (f : A -> res bytes) l w bs :
  res_map f l = Ok bs ->
  mapM_ (fun x => send_r o (f x)) l w = (Ok tt, set_w_out (w_out w ++ map (pair o) bs) w).
Proof.
  revert w bs. induction l as [|x l IH]; intros w bs H; cbn [res_map mapM_] in *.
  - apply Ok_inj in H. subst bs. cbn [map]. rewrite app_nil_r. by destruct w.
  - inv_binds H. apply Ok_inj in H. subst bs. rewrite run_bind, (run_send_r o _ w v eq_refl).
    rewrite (IH _ _ eq_refl). cbn [w_out set_w_out map].
    by rewrite <- app_assoc.
Qed.

(** ** A concrete environment and state, for the witnesses *)

#[program] Definition sample_env : Env := {|
  env_unicode := latin_unicode;
  env_spelldb := two_spells;
  CA_INDEX := ca_entry_index [chained_row];
  CLASS_TYPES := [tinker; sun_cleric];
  CHRCLASSES := [(28, lit "Tinker")];
  ESSENCE_ROWS := sample_rows;
  ARCHIVE_CA_MODE := lit "full";
  BURST_SKIP := [];
  default_bindings := Some (lit "bind W MOVEFORWARD");
  zlib_compress b := b;
  zlib_decompress b := Some b;
  math_cos x := f64_of_Z 1;
  math_sin x := f64_of_Z 0;
  py_repr _ := [];
  randint _ lo _ := lo;
|}.
Next Obligation. intros k lo hi Hle. cbv beta. lia. Qed.

Definition sample_char : character :=
  Character 7 (lit "Ada") 1 4 0 0 0 0 0 0 1 0 12 (f64_of_Z 0) (f64_of_Z 0) (f64_of_Z 0) (f64_of_Z 0)
    49 None.

(** One account with one character, which has learned entry 40 at rank 1. *)
Definition sample_world : world := {|
  w_clock := Clock 1000000000 1700000000000000000 (LocalTime 2024 1 2 3 4 1);
  w_out := []; w_db := [(lit "bob", [sample_char])]; w_chars_file := [(lit "bob", [sample_char])];
  w_acct := empty_acctdb; w_known := set_known [] 7 [CaRow 40 1]; w_builds := [];
  w_bars := []; w_bars_dirty := false; w_bars_flush := 0; w_bars_file := []; w_burst := [];
  w_sent := []; w_units := []; w_dummies := []; w_dummy_seq := 0; w_auras := []; w_aura_last := 0;
  w_override := None; w_rolls := 0%nat;
  w_cid := 1; w_account := lit "bob"; w_in_world := false; w_cur := None; w_linked := false;
  w_ts_counter := 1; w_ts_last := 0; w_regen_last := 0;
  w_ca_pending := false; w_ca_pending_at := 0; w_ca_ack := None;
  w_stand_state := 0; w_stand_last := 0; w_dec := DecNone; w_crypt_in := false |}.
