(* ===== verification/Bars.v ===== *)
(** * Action bars and the spellbook (world_server.py)

    The saved layouts and their file with its debounced writer, the packet of
    144 buttons, and the two ways the client's spellbook is filled: in bulk at
    world entry, and by differences afterwards.  The specification of the
    second is the client's own view, [client_spells], a fold over the packets
    it was sent. *)
From S2P Require Import Prelude Wire PyFloat Text Json Consts Framing Chars Spells Known.
From S2P Require Import Builders World.

(** ** The file *)

Section BarsFile.
Context `{Unicode}.

(** One button of the file; [None] for a zero, which is not loaded. *)
Definition load_slot (sv : pystr * json) : res (option (Z * Z)) :=
  v ← py_int (snd sv);
  if v =? 0 then Ok None else s ← int_of_str (fst sv); Ok (Some (s, v)).

Definition as_items (v : json) : res jdict :=
  match v with JDict d => Ok d | _ => Err AttributeError end.

Definition load_slots (v : json) : res layout :=
  d ← as_items v;
  rs ← res_map load_slot d;
  Ok (fold_left (fun m '(s, p) => dset s p m) (omap id rs) []).

(** [load_bars]: any failure leaves no layout at all. *)
Definition load_bars (raw : json) : bar_layouts :=
  match (d ← as_items raw;
         res_fold (fun out gv => g ← int_of_str (fst gv); l ← load_slots (snd gv); Ok (dset g l out))
           [] d) with
  | Ok out => out
  | Err _ => []
  end.
End BarsFile.

Definition key_leb {A} (a b : Z * A) : bool := fst a <=? fst b.

(** The tree [save_bars] dumps: both levels sorted, empty layouts left out. *)
Definition dump_slots (l : layout) : jdict :=
  map (fun '(s, v) => (str_of_Z s, JInt v)) (py_sort key_leb l).

Definition dump_bars (b : bar_layouts) : jdict :=
  map (fun '(g, l) => (str_of_Z g, JDict (dump_slots l)))
    (filter (fun gl => snd gl <> []) (py_sort key_leb b)).

Definition save_bars (force : bool) : M unit :=
  w ← get;
  if negb (w_bars_dirty w) then mret tt
  else
    t ← now;
    if negb force && (t - w_bars_flush w <? BARS_FLUSH_INTERVAL) then mret tt
    else
      modify (set_w_bars_file (dump_bars (w_bars w))) ;;
      modify (set_w_bars_dirty false) ;;
      modify (set_w_bars_flush t).

(** ** Layouts *)

Definition bars_lookup (b : bar_layouts) (guid slot : Z) : Z :=
  default 0 (dget slot (default [] (dget guid b))).

Definition bars_for (guid : Z) : M layout := gets (fun w => default [] (dget guid (w_bars w))).

(** [bars_set] on the layouts: whether anything changed, and the layouts (the
    character's entry is created even when nothing does). *)
Definition bars_put (b : bar_layouts) (guid slot packed : Z) : bool * bar_layouts :=
  let '(slots, b) := dsetdefault guid [] b in
  let old := default 0 (dget slot slots) in
  if negb (packed =? 0) then
    if old =? packed then (false, b) else (true, dset guid (dset slot packed slots) b)
  else
    if old =? 0 then (false, b) else (true, dset guid (ddel slot slots) b).

Definition bars_set (guid slot packed : Z) : M bool :=
  b ← gets w_bars;
  let '(changed, b) := bars_put b guid slot packed in
  modify (set_w_bars b) ;;
  when_ changed (modify (set_w_bars_dirty true)) ;;
  mret changed.

(** [load_bars()[guid] = dict(layout)] with the dirty flag. *)
Definition bars_adopt (guid : Z) (l : layout) : M unit :=
  modify (fun w => set_w_bars (dset guid l (w_bars w)) w) ;;
  modify (set_w_bars_dirty true) ;;
  save_bars true.

Section Bars.
Context `{Env}.

Definition known_spells (guid : Z) : M (list known_spell) :=
  db ← gets w_known; lift (ca_known_spells CA_INDEX db guid).

(** The loop of [bars_autofill]. *)
Fixpoint autofill_go (spells : list known_spell) (n : Z) (out : layout) : layout :=
  match spells with
  | [] => out
  | s :: spells =>
      if ks_passive s || (n >=? MAX_ACTION_BUTTONS) then autofill_go spells n out
      else if ks_spell s >? ACTION_BUTTON_ACTION_MAX then autofill_go spells n out
      else autofill_go spells (n + 1)
             (dset n (Z.lor (ks_spell s) (Z.shiftl ACTION_BUTTON_SPELL 24)) out)
  end.

Definition bars_autofill (c : character) : M layout :=
  spells ← known_spells (c_guid c); mret (autofill_go spells 0 []).

(** [bars_note_packet]: the line for the log. *)
Inductive bar_line :=
  | UnexpectedBody (len : Z)
  | LoneEdit (slot packed : Z) (name : pystr)
  | BurstSoFar (count changed : Z).

Definition bars_note_packet (cid guid : Z) (body : bytes) : M (option bar_line) :=
  if negb (pylen body =? 5) then mret (Some (UnexpectedBody (pylen body)))
  else
    slot ← lift (index body 0);
    packed ← lift (unpackI body 1);
    changed ← bars_set guid slot packed;
    save_bars false ;;
    t ← now;
    bursts ← gets w_burst;
    let st := match dget cid bursts with
              | Some st => if t - bu_last st >? AB_BURST_GAP then Burst 0 t 0 else st
              | None => Burst 0 t 0
              end in
    let st := Burst (bu_count st + 1) t (bu_changed st + (if (changed : bool) then 1 else 0)) in
    modify (set_w_burst (dset cid st bursts)) ;;
    mret
      (if (bu_count st =? 1) && negb (packed =? 0) then
         let info := if Z.shiftr packed 24 =? 0
                     then spell_info (Z.land packed ACTION_BUTTON_ACTION_MAX) else None in
         Some (LoneEdit slot packed (match info with Some i => si_name i | None => [] end))
       else if (bu_count st =? MAX_ACTION_BUTTONS) || (bu_count st mod 64 =? 0)
       then Some (BurstSoFar (bu_count st) (bu_changed st))
       else None).

(** [slots[slot] = packed] for the slots of the bar. *)
Definition set_button (ws : list Z) (sp : Z * Z) : list Z :=
  if (0 <=? fst sp) && (fst sp <? MAX_ACTION_BUTTONS)
  then <[Z.to_nat (fst sp) := snd sp]> ws else ws.

Definition button_words (l : layout) : list Z :=
  fold_left set_button l (replicate (Z.to_nat MAX_ACTION_BUTTONS) 0).

Definition smsg_action_buttons (c : character) (state : Z) : M bytes :=
  if state =? ACTION_BUTTONS_CLEAR then mret [Z.land state 0xFF]
  else
    saved ← bars_for (c_guid c);
    l ← match saved with
        | [] => l ← bars_autofill c;
                when_ (negb (bool_decide (l = []))) (bars_adopt (c_guid c) l) ;; mret l
        | _ => mret saved
        end;
    ws ← lift (res_map packI (button_words l));
    mret ([Z.land state 0xFF] ++ concat ws).

Definition send_action_buttons (c : character) : M unit :=
  b ← smsg_action_buttons c 1; send_pkt SMSG_ACTION_BUTTONS b.

Definition send_spellbook (c : character) : M (Z * Z) :=
  spells ← known_spells (c_guid c);
  send_r SMSG_INITIAL_SPELLS (smsg_initial_spells spells) ;;
  send_pkt SMSG_SEND_UNLEARN_SPELLS smsg_send_unlearn_spells ;;
  send_action_buttons c ;;
  modify (fun w => set_w_sent (dset (c_guid c) (map ks_spell spells) (w_sent w)) w) ;;
  mret (pylen spells, pylen (filter (fun s => ks_passive s = false) spells)).

Definition set_diff (a b : list Z) : list Z := sort_Z (filter (fun x => x ∉ b) a).

(** The buttons whose spell is no longer known. *)
Definition stale_slots (removed : list Z) (l : layout) : list Z :=
  map fst (filter (fun sp => Z.shiftr (snd sp) 24 = ACTION_BUTTON_SPELL
                             /\ Z.land (snd sp) ACTION_BUTTON_ACTION_MAX ∈ removed) l).

Definition unbind_stale (guid : Z) (removed : list Z) : M unit :=
  l ← bars_for guid;
  let stale := stale_slots removed l in
  mapM_ (fun s => bars_set guid s 0 ;; mret tt) stale ;;
  when_ (negb (bool_decide (stale = []))) (save_bars true).

Definition sync_spellbook (c : character) : M (Z * Z) :=
  let guid := c_guid c in
  spells ← known_spells guid;
  let cur := map ks_spell spells in
  was ← gets (fun w => default [] (dget guid (w_sent w)));
  let learned := set_diff cur was in
  let removed := set_diff was cur in
  mapM_ (fun sid => send_r SMSG_LEARNED_SPELL (smsg_learned_spell sid)) learned ;;
  mapM_ (fun sid => send_r SMSG_REMOVED_SPELL (smsg_removed_spell sid)) removed ;;
  when_ (negb (bool_decide (removed = []))) (unbind_stale guid removed) ;;
  when_ (negb (bool_decide (learned = [] /\ removed = []))) (send_action_buttons c) ;;
  modify (fun w => set_w_sent (dset guid cur (w_sent w)) w) ;;
  mret (pylen learned, pylen removed).
End Bars.

(** ** Layouts: one button at a time *)

(** Stored buttons are never zero, and fit the 32-bit word of the packet. *)
Definition slots_ok (l : layout) : Prop :=
  dict_ok l /\ Forall (fun sp => 0 < snd sp < 2 ^ 32) l.
Definition bars_ok (b : bar_layouts) : Prop :=
  dict_ok b /\ Forall (fun gl => slots_ok (snd gl)) b.

Lemma slots_ok_nil : slots_ok [].
Proof. split; [apply dict_ok_nil | constructor]. Qed.

Lemma bars_ok_slots b guid : bars_ok b -> slots_ok (default [] (dget guid b)).
Proof.
  intros [_ Hb]. destruct (dget guid b) as [l|] eqn:E; [|apply slots_ok_nil].
  apply dget_elem_of in E. rewrite Forall_forall in Hb. by apply (Hb _ E).
Qed.

Lemma bars_ok_dset b guid l : bars_ok b -> slots_ok l -> bars_ok (dset guid l b).
Proof. intros [Hd Hb] Hl. split; [by apply dict_ok_dset | by apply Forall_dset]. Qed.

Lemma slots_ok_dset l s p : slots_ok l -> 0 < p < 2 ^ 32 -> slots_ok (dset s p l).
Proof. intros [Hd Hl] Hp. split; [by apply dict_ok_dset | by apply Forall_dset]. Qed.

Lemma slots_ok_ddel l s : slots_ok l -> slots_ok (ddel s l).
Proof. intros [Hd Hl]. split; [by apply dict_ok_ddel | by apply Forall_ddel]. Qed.

Create HintDb bars.
#[export] Hint Resolve slots_ok_nil bars_ok_slots bars_ok_dset slots_ok_dset slots_ok_ddel : bars.

Lemma bars_lookup_dset b guid l g s :
  bars_lookup (dset guid l b) g s
  = if decide (g = guid) then default 0 (dget s l) else bars_lookup b g s.
Proof. unfold bars_lookup. rewrite dget_dset. by case_decide. Qed.

Lemma bars_put_spec b guid slot packed :
  bars_ok b -> 0 <= packed < 2 ^ 32 ->
  let '(changed, b') := bars_put b guid slot packed in
  bars_ok b' /\ changed = negb (bars_lookup b guid slot =? packed)
  /\ forall g s, bars_lookup b' g s
       = if decide (g = guid /\ s = slot) then packed else bars_lookup b g s.
Proof.
  intros Hb Hp. unfold bars_put, dsetdefault.
  set (l := default [] (dget guid b)).
  assert (slots_ok l) as Hl by (apply bars_ok_slots, Hb).
  assert (exists b1, match dget guid b with Some v' => (v', b) | None => ([], dset guid [] b) end = (l, b1)
    /\ bars_ok b1 /\ (forall g s, bars_lookup b1 g s = bars_lookup b g s)) as (b1 & -> & Hb1 & Hlk).
  { unfold l. destruct (dget guid b) as [l'|] eqn:E.
    - exists b. by split_and!.
    - exists (dset guid [] b). split; [done|]. split; [auto with bars|].
      intros g s. rewrite bars_lookup_dset. case_decide; [|done]. subst.
      unfold bars_lookup. by rewrite E. }
  assert (forall s, default 0 (dget s l) = bars_lookup b guid s) as Hlb by done.
  rewrite Hlb.
  destruct (Z.eqb_spec packed 0) as [->|Hp0]; cbn [negb].
  - destruct (Z.eqb_spec (bars_lookup b guid slot) 0) as [E|E]; cbn [negb].
    + split_and!; [done|done|]. intros g s. rewrite Hlk. case_decide; [|done].
      destruct H as [-> ->]. done.
    + split_and!; [by auto with bars|done|]. intros g s. rewrite bars_lookup_dset.
      destruct (decide (g = guid)) as [->|Hg]; [|rewrite decide_False by tauto; apply Hlk].
      destruct (decide (s = slot)) as [->|Hs].
      * rewrite dget_ddel_eq by apply Hl. by rewrite decide_True.
      * rewrite dget_ddel_ne by done. rewrite decide_False by tauto. apply Hlb.
  - destruct (Z.eqb_spec (bars_lookup b guid slot) packed) as [E|E]; cbn [negb].
    + split_and!; [done|done|]. intros g s. rewrite Hlk. case_decide; [|done].
      destruct H as [-> ->]. done.
    + split_and!; [apply bars_ok_dset; [done|apply slots_ok_dset; [done|lia]]|done|].
      intros g s. rewrite bars_lookup_dset.
      destruct (decide (g = guid)) as [->|Hg]; [|rewrite decide_False by tauto; apply Hlk].
      rewrite dget_dset. destruct (decide (s = slot)) as [->|Hs].
      * by rewrite decide_True.
      * rewrite decide_False by tauto. apply Hlb.
Qed.

(** Computations that only touch the bars and their file. *)
Definition bars_only (w w' : world) : Prop :=
  exists b d f l,
    w' = set_w_bars b (set_w_bars_dirty d (set_w_bars_flush f (set_w_bars_file l w))).

Lemma bars_only_refl w : bars_only w w.
Proof. exists (w_bars w), (w_bars_dirty w), (w_bars_flush w), (w_bars_file w). by destruct w. Qed.

Lemma bars_only_trans w1 w2 w3 : bars_only w1 w2 -> bars_only w2 w3 -> bars_only w1 w3.
Proof. intros (b & d & f & l & ->) (b' & d' & f' & l' & ->). by exists b', d', f', l'. Qed.

Lemma save_bars_spec force w :
  exists w', save_bars force w = (Ok tt, w') /\ bars_only w w' /\ w_bars w' = w_bars w.
Proof.
  unfold save_bars. m_run.
  destruct (negb (w_bars_dirty w)); [exists w; split_and!; auto using bars_only_refl|].
  m_run.
  destruct (_ && _); [exists w; split_and!; auto using bars_only_refl|].
  eexists. split; [reflexivity|]. split; [|done].
  by exists (w_bars w), false, (ck_mono (w_clock w)), (dump_bars (w_bars w)).
Qed.

Lemma bars_set_run w guid slot packed :
  bars_ok (w_bars w) -> 0 <= packed < 2 ^ 32 ->
  exists w', bars_set guid slot packed w
             = (Ok (negb (bars_lookup (w_bars w) guid slot =? packed)), w')
    /\ bars_only w w' /\ bars_ok (w_bars w')
    /\ w_bars_dirty w' = w_bars_dirty w || negb (bars_lookup (w_bars w) guid slot =? packed)
    /\ forall g s, bars_lookup (w_bars w') g s
         = if decide (g = guid /\ s = slot) then packed else bars_lookup (w_bars w) g s.
Proof.
  intros Hb Hp. pose proof (bars_put_spec (w_bars w) guid slot packed Hb Hp) as Hs.
  unfold bars_set. m_run.
  destruct (bars_put (w_bars w) guid slot packed) as [changed b'].
  destruct Hs as (Hok & Hc & Hlk). rewrite <- Hc.
  assert (Hex : exists d f l x, set_w_bars b' w = set_w_bars x (set_w_bars_dirty d (set_w_bars_flush f (set_w_bars_file l w))))
    by (exists (w_bars_dirty w), (w_bars_flush w), (w_bars_file w), b'; by destruct w).
  destruct changed; m_run.
  - eexists. split; [reflexivity|]. split_and!; [|done|by rewrite orb_true_r|done].
    exists b', true, (w_bars_flush w), (w_bars_file w). by destruct w.
  - eexists. split; [reflexivity|]. split_and!; [|done|by rewrite orb_false_r|done].
    exists b', (w_bars_dirty w), (w_bars_flush w), (w_bars_file w). by destruct w.
Qed.

(** One CMSG_SET_ACTION_BUTTON changes the one slot it names and no other
    slot of any character, clearing it when the packed value is 0; the reported
    flag, and the file's dirty mark, say exactly whether the layout moved, and
    no zero is ever stored. *)
Theorem bars_set_spec w guid slot packed :
  bars_ok (w_bars w) -> 0 <= packed < 2 ^ 32 ->
  exists changed w', bars_set guid slot packed w = (Ok changed, w')
    /\ bars_ok (w_bars w')
    /\ (changed = true <-> bars_lookup (w_bars w) guid slot <> packed)
    /\ w_bars_dirty w' = w_bars_dirty w || changed
    /\ w_out w' = w_out w
    /\ forall g s, bars_lookup (w_bars w') g s
         = if decide (g = guid /\ s = slot) then packed else bars_lookup (w_bars w) g s.
Proof.
  intros Hb Hp. destruct (bars_set_run w guid slot packed Hb Hp)
    as (w' & E & (? & ? & ? & ? & Hw) & Hok & Hd & Hlk).
  eexists _, w'. split; [exact E|]. split_and!; [done| |done|by rewrite Hw|done].
  rewrite negb_true_iff, Z.eqb_neq. done.
Qed.

(** ** The packet *)

Lemma length_set_button ws sp : length (set_button ws sp) = length ws.
Proof. unfold set_button. destruct (_ && _); [apply length_insert | done]. Qed.

Lemma button_words_go l acc (n : nat) :
  dict_ok l -> length acc = Z.to_nat MAX_ACTION_BUTTONS -> (n < Z.to_nat MAX_ACTION_BUTTONS)%nat ->
  fold_left set_button l acc !! n
  = match dget (Z.of_nat n) l with Some p => Some p | None => acc !! n end.
Proof.
  revert acc. induction l as [|[s p] l IH]; intros acc Hd Hlen Hn; [done|].
  apply NoDup_cons in Hd as [Hs Hd]. cbn [fold_left dget].
  rewrite (IH _ Hd) by (rewrite ?length_set_button; done). case_decide as E.
  - subst s. rewrite (proj2 (dget_None_keys _ _)) by exact Hs. unfold set_button. cbn [fst snd].
    rewrite (proj2 (andb_true_iff _ _)).
    + rewrite Nat2Z.id. apply list_lookup_insert_eq. lia.
    + split; [apply Z.leb_le | apply Z.ltb_lt]; lia.
  - destruct (dget (Z.of_nat n) l); [done|]. unfold set_button. cbn [fst snd].
    destruct ((0 <=? s) && (s <? MAX_ACTION_BUTTONS)) eqn:Eb; [|done]. zbool.
    apply list_lookup_insert_ne. lia.
Qed.

Lemma button_words_length l : length (button_words l) = Z.to_nat MAX_ACTION_BUTTONS.
Proof.
  assert (forall ws, length (fold_left set_button l ws) = length ws) as Hgo.
  { induction l as [|sp l IH]; intros ws; [done|]. cbn [fold_left]. rewrite IH.
    apply length_set_button. }
  unfold button_words. rewrite Hgo. apply length_replicate.
Qed.

Lemma button_words_lookup l slot :
  dict_ok l -> 0 <= slot < MAX_ACTION_BUTTONS ->
  button_words l !! Z.to_nat slot = Some (default 0 (dget slot l)).
Proof.
  intros Hd Hs. unfold button_words.
  rewrite button_words_go by (try done; try apply length_replicate; lia).
  rewrite Z2Nat.id by lia. destruct (dget slot l); [done|].
  apply lookup_replicate_2. lia.
Qed.

Lemma button_words_range l : slots_ok l -> Forall is_word (button_words l).
Proof.
  intros [Hd Hl]. apply Forall_lookup. intros i v Hi.
  assert (i < Z.to_nat MAX_ACTION_BUTTONS)%nat as Hlt
    by (rewrite <- (button_words_length l); by eapply lookup_lt_Some).
  pose proof (button_words_lookup l (Z.of_nat i) Hd) as Hw. rewrite Nat2Z.id in Hw.
  rewrite Hw in Hi by lia. injection Hi as <-. unfold is_word.
  destruct (dget (Z.of_nat i) l) as [p|] eqn:E; [|cbn; lia]. cbn.
  apply dget_elem_of in E. rewrite Forall_forall in Hl. specialize (Hl _ E). cbn in Hl. lia.
Qed.

Lemma unpack_word_at head ws i v :
  ws !! i = Some v -> Forall is_word ws ->
  unpackI (head ++ concat (map (le 4) ws)) (pylen head + 4 * Z.of_nat i) = Ok v.
Proof.
  intros Hi Hw. apply list_elem_of_split_length in Hi as (a & b & -> & ->).
  rewrite map_app, concat_app. cbn [map concat]. rewrite !app_assoc, <- app_assoc.
  apply Forall_app in Hw as [_ [Hv _]%Forall_cons].
  apply (unpack_u_app 4); [|exact Hv].
  rewrite pylen_app. f_equal. clear. induction a as [|x a IH]; [done|].
  cbn [map concat length]. rewrite pylen_app, <- IH. autorewrite with pylen. lia.
Qed.

(** ** Filling the bar *)

Definition castable (s : known_spell) : bool :=
  negb (ks_passive s) && (ks_spell s <=? ACTION_BUTTON_ACTION_MAX).

Lemma seqZ_from_S n : 0 <= n -> seqZ_from (n + 1) = seqZ_from n ++ [n].
Proof.
  intros Hn. unfold seqZ_from. rewrite Z2Nat.inj_add, Nat.add_1_r by lia.
  rewrite seq_S, map_app. cbn [map Nat.add]. by rewrite Z2Nat.id.
Qed.

Lemma NoDup_seqZ_from n : NoDup (seqZ_from n).
Proof. apply NoDup_fmap_2; [intros ?? ?; lia | apply NoDup_seq]. Qed.

Lemma autofill_go_spec spells n out :
  0 <= n <= MAX_ACTION_BUTTONS -> dkeys out = seqZ_from n ->
  let l := autofill_go spells n out in
  map snd l = map snd out
    ++ take (Z.to_nat (MAX_ACTION_BUTTONS - n)) (map ks_spell (filter (fun s => castable s = true) spells))
  /\ dkeys l = seqZ_from (pylen l).
Proof.
  revert n out. induction spells as [|s spells IH]; intros n out Hn Hk; cbv zeta; cbn [autofill_go].
  - cbn [filter list_filter map]. rewrite take_nil, app_nil_r. split; [done|].
    rewrite Hk. f_equal. unfold pylen. rewrite <- (length_map fst out). fold (dkeys out).
    rewrite Hk. unfold seqZ_from. rewrite length_map, length_seq. lia.
  - rewrite filter_cons, Z.geb_leb, Z.gtb_ltb, Z.ltb_antisym.
    destruct (Z.leb_spec MAX_ACTION_BUTTONS n) as [Hge|Hlt].
    { rewrite orb_true_r. assert (Z.to_nat (MAX_ACTION_BUTTONS - n) = 0%nat) as Hz by lia.
      destruct (IH n out Hn Hk) as [H1 H2]. rewrite Hz, !take_0 in *. done. }
    rewrite orb_false_r.
    destruct (decide (castable s = true)) as [Hc|Hc]; unfold castable in Hc.
    2: { destruct (ks_passive s); [by apply IH|]. cbn [negb andb] in Hc.
         apply not_true_is_false in Hc. rewrite Hc. by apply IH. }
    apply andb_true_iff in Hc as [Hp Hm]. apply negb_true_iff in Hp. rewrite Hp, Hm. cbn [negb map].
    assert (n ∉ dkeys out) as Hfresh by (rewrite Hk, elem_of_seqZ_from; lia).
    change (Z.shiftl ACTION_BUTTON_SPELL 24) with 0. rewrite Z.lor_0_r, dset_fresh by exact Hfresh.
    destruct (IH (n + 1) (out ++ [(n, ks_spell s)])) as [H1 H2].
    + lia.
    + unfold dkeys in *. rewrite map_app, Hk. cbn. by rewrite seqZ_from_S by lia.
    + split; [|exact H2]. rewrite H1, map_app. cbn [map snd]. rewrite <- app_assoc. f_equal.
      replace (Z.to_nat (MAX_ACTION_BUTTONS - n))
        with (S (Z.to_nat (MAX_ACTION_BUTTONS - (n + 1)))) by lia. done.
Qed.

Section AutofillFacts.
Context `{Env}.

Lemma autofill_eq spells :
  map snd (autofill_go spells 0 [])
    = take 144 (map ks_spell (filter (fun s => castable s = true) spells))
  /\ dkeys (autofill_go spells 0 []) = seqZ_from (pylen (autofill_go spells 0 [])).
Proof. apply (autofill_go_spec spells 0 []); [unfold MAX_ACTION_BUTTONS; lia | done]. Qed.

Lemma autofill_value spells s p :
  (s, p) ∈ autofill_go spells 0 [] ->
  0 <= s < MAX_ACTION_BUTTONS /\ exists k, k ∈ spells /\ castable k = true /\ ks_spell k = p.
Proof.
  intros Hin. destruct (autofill_eq spells) as [Hv Hk].
  assert (p ∈ map snd (autofill_go spells 0 [])) as Hp
    by (apply list_elem_of_fmap; by exists (s, p)).
  assert (s ∈ dkeys (autofill_go spells 0 [])) as Hs
    by (apply list_elem_of_fmap; by exists (s, p)).
  split.
  - rewrite Hk, elem_of_seqZ_from in Hs. unfold pylen in Hs.
    rewrite <- (length_map snd), Hv, length_take in Hs. unfold MAX_ACTION_BUTTONS. lia.
  - rewrite Hv in Hp. apply elem_of_take in Hp as (i & Hi & _).
    apply list_elem_of_lookup_2, list_elem_of_fmap in Hi as (k & -> & Hk').
    apply list_elem_of_filter in Hk' as [? ?]. eauto.
Qed.

Lemma known_spell_word idx db guid spells k :
  ca_known_spells idx db guid = Ok spells -> k ∈ spells -> 0 < ks_spell k < 2 ^ 32.
Proof.
  unfold ca_known_spells. intros Hs Hk. inv_binds Hs. apply Ok_inj in Hs. subst spells.
  assert (ks_spell k ∈ map ks_spell (ca_known_spells_go idx v [])) as Hin
    by (apply list_elem_of_fmap; eauto).
  apply known_go_spec in Hin as (_ & Hnz & [r Hr] & _).
  apply spell_info_range in Hr. lia.
Qed.

Lemma autofill_ok idx db guid spells :
  ca_known_spells idx db guid = Ok spells -> slots_ok (autofill_go spells 0 []).
Proof.
  intros Hs. destruct (autofill_eq spells) as [_ Hk]. split.
  - unfold dict_ok. rewrite Hk. apply NoDup_seqZ_from.
  - apply Forall_forall. intros [s p] Hin. cbn.
    apply autofill_value in Hin as (_ & k & Hk' & _ & <-). by eapply known_spell_word.
Qed.
End AutofillFacts.

Section Buttons.
Context `{Env}.

Definition known_ok (w : world) (guid : Z) (spells : list known_spell) : Prop :=
  ca_known_spells CA_INDEX (w_known w) guid = Ok spells.

Lemma known_spells_run w guid spells :
  known_ok w guid spells -> known_spells guid w = (Ok spells, w).
Proof. intros H1. unfold known_spells. m_run. by rewrite H1. Qed.

Lemma bars_adopt_run w guid l :
  exists w', bars_adopt guid l w = (Ok tt, w') /\ bars_only w w'
    /\ w_bars w' = dset guid l (w_bars w).
Proof.
  unfold bars_adopt. m_run.
  match goal with |- exists w', save_bars true ?w1 = _ /\ _ /\ _ =>
    destruct (save_bars_spec true w1) as (w' & -> & Ho & Hb); exists w'; split; [done|];
    split; [eapply bars_only_trans; [|exact Ho]|by rewrite Hb] end.
  exists (dset guid l (w_bars w)), true, (w_bars_flush w), (w_bars_file w). by destruct w.
Qed.

Definition layout_of (w : world) (guid : Z) : layout := default [] (dget guid (w_bars w)).

Definition buttons_body (l : layout) : bytes := 1 :: concat (map (le 4) (button_words l)).

(** What [smsg_action_buttons(c)] does: the body of the layout it leaves, which
    is the saved one, or the freshly seeded one when there was none. *)
Lemma action_buttons_run w c spells :
  bars_ok (w_bars w) -> known_ok w (c_guid c) spells ->
  exists w', smsg_action_buttons c 1 w = (Ok (buttons_body (layout_of w' (c_guid c))), w')
    /\ bars_only w w' /\ bars_ok (w_bars w')
    /\ (forall g, g <> c_guid c -> dget g (w_bars w') = dget g (w_bars w))
    /\ layout_of w' (c_guid c)
       = match layout_of w (c_guid c) with [] => autofill_go spells 0 [] | l => l end.
Proof.
  intros Hb Hk.
  assert (Hret : forall (l : layout) w', slots_ok l ->
    (ws ← lift (res_map packI (button_words l)); mret ([Z.land 1 0xFF] ++ concat ws)) w'
    = (Ok (buttons_body l), w')).
  { intros l w' Hl. rewrite (res_map_packI_words _ (button_words_range l Hl)). m_run. done. }
  unfold smsg_action_buttons, bars_for. change (1 =? ACTION_BUTTONS_CLEAR) with false. cbv iota.
  m_run. fold (layout_of w (c_guid c)).
  pose proof (bars_ok_slots (w_bars w) (c_guid c) Hb) as Hs. fold (layout_of w (c_guid c)) in Hs.
  destruct (layout_of w (c_guid c)) as [|sp l] eqn:El.
  - unfold bars_autofill. m_run. rewrite (known_spells_run w _ _ Hk). m_run.
    pose proof (autofill_ok _ _ _ _ Hk) as Ha.
    destruct (bool_decide (autofill_go spells 0 [] = [])) eqn:Ee; cbn [negb]; m_run.
    + apply bool_decide_eq_true in Ee. exists w. rewrite El, Ee. split_and!.
      * apply Hret, slots_ok_nil.
      * apply bars_only_refl.
      * done.
      * done.
      * done.
    + destruct (bars_adopt_run w (c_guid c) (autofill_go spells 0 [])) as (w' & -> & Ho & Hb').
      m_run. exists w'.
      assert (layout_of w' (c_guid c) = autofill_go spells 0 []) as El'
        by (unfold layout_of; by rewrite Hb', dget_dset_eq).
      rewrite El'. split_and!; [by apply Hret|done|rewrite Hb'; by auto with bars| |done].
      intros g Hg. by rewrite Hb', dget_dset_ne.
  - exists w. rewrite El. m_run. split_and!; [by apply Hret|apply bars_only_refl|done|done|done].
Qed.

Lemma buttons_read l slot :
  slots_ok l -> 0 <= slot < MAX_ACTION_BUTTONS ->
  unpackI (buttons_body l) (1 + 4 * slot) = Ok (default 0 (dget slot l)).
Proof.
  intros Hl Hs. change (buttons_body l) with ([1] ++ concat (map (le 4) (button_words l))).
  replace (1 + 4 * slot) with (pylen [1] + 4 * Z.of_nat (Z.to_nat slot)) by (change (pylen [1]) with 1; lia).
  apply unpack_word_at; [|by apply button_words_range].
  apply button_words_lookup; [apply Hl | done].
Qed.

Lemma buttons_length l : length (buttons_body l) = 577%nat.
Proof.
  unfold buttons_body. cbn [length]. f_equal.
  pose proof (button_words_length l) as Hlen. change (Z.to_nat MAX_ACTION_BUTTONS) with 144%nat in Hlen.
  replace 576%nat with (4 * 144)%nat by done. rewrite <- Hlen. generalize (button_words l) as ws.
  clear. induction ws as [|x ws IH]; [done|]. cbn [map concat length].
  rewrite length_app, IH, length_le. lia.
Qed.

(** SMSG_ACTION_BUTTONS is always 577 bytes, and its 144 words are the
    character's layout, slot by slot, 0 where nothing is bound.  A character
    without a layout is given one first: the castable known spells in
    spellbook order from slot 0, at most 144 of them. *)
Theorem action_buttons_read w c spells :
  bars_ok (w_bars w) -> ca_known_spells CA_INDEX (w_known w) (c_guid c) = Ok spells ->
  exists b w', smsg_action_buttons c 1 w = (Ok b, w') /\ length b = 577%nat
    /\ (forall slot, 0 <= slot < MAX_ACTION_BUTTONS ->
          unpackI b (1 + 4 * slot) = Ok (bars_lookup (w_bars w') (c_guid c) slot))
    /\ match layout_of w (c_guid c) with
       | [] => map snd (layout_of w' (c_guid c))
                 = take 144 (map ks_spell (filter (fun s => castable s = true) spells))
               /\ dkeys (layout_of w' (c_guid c)) = seqZ_from (pylen (layout_of w' (c_guid c)))
       | _ => w_bars w' = w_bars w
       end.
Proof.
  intros Hb Hk. destruct (action_buttons_run w c spells Hb Hk) as (w' & E & Ho & Hb' & Hg & Hl).
  exists (buttons_body (layout_of w' (c_guid c))), w'. split; [done|]. split; [apply buttons_length|].
  split; [intros slot Hs; apply buttons_read; [by apply bars_ok_slots | done]|].
  destruct (layout_of w (c_guid c)) as [|sp l] eqn:El.
  - rewrite Hl. apply autofill_eq.
  - destruct (smsg_action_buttons c 1 w) as [r w1] eqn:E1. injection E as -> ->.
    revert E1. unfold smsg_action_buttons, bars_for. change (1 =? ACTION_BUTTONS_CLEAR) with false.
    cbv iota. m_run. fold (layout_of w (c_guid c)). rewrite El. m_run.
    destruct (res_map _ _); by intros [= _ <-].
Qed.
End Buttons.

(** ** The client's spellbook *)

Definition rd_initial : rd (list Z) :=
  (_ <-- rd_u 1;; n <-- rd_u 2;; rd_rep (Z.to_nat n) (s <-- rd_u 4;; _ <-- rd_u 2;; rd_ret s))%rd.

(** What the spell packets do to the client's set of spells: the bulk packet
    replaces it, the incremental ones add and remove one. *)
Definition client_step (s : gset Z) (p : packet) : gset Z :=
  if fst p =? SMSG_INITIAL_SPELLS then
    match rd_initial (snd p) with Some (l, _) => list_to_set l | None => s end
  else if fst p =? SMSG_LEARNED_SPELL then
    match rd_u 4 (snd p) with Some (v, _) => {[v]} ∪ s | None => s end
  else if fst p =? SMSG_REMOVED_SPELL then
    match rd_u 4 (snd p) with Some (v, _) => s ∖ {[v]} | None => s end
  else s.

Definition client_spells (out : list packet) : gset Z := fold_left client_step out ∅.

Lemma client_spells_app out out' :
  client_spells (out ++ out') = fold_left client_step out' (client_spells out).
Proof. apply fold_left_app. Qed.

Lemma learned_spell_ok x : is_word x -> smsg_learned_spell x = Ok (le 4 x ++ le 2 0).
Proof. intros H. unfold smsg_learned_spell. by rewrite packI_ok by exact H. Qed.

Lemma removed_spell_ok x : is_word x -> smsg_removed_spell x = Ok (le 4 x).
Proof. intros H. by apply packI_ok. Qed.

Lemma client_learned ids s :
  Forall is_word ids ->
  exists bs, res_map smsg_learned_spell ids = Ok bs
    /\ fold_left client_step (map (pair SMSG_LEARNED_SPELL) bs) s = list_to_set ids ∪ s.
Proof.
  intros Hw. revert s. induction Hw as [|x ids Hx Hw IH]; intros s.
  - exists []. split; [done|]. cbn. set_solver.
  - cbn [res_map]. rewrite (learned_spell_ok x Hx). cbn [mbind res_bind].
    destruct (IH ({[x]} ∪ s)) as (bs & -> & Hs). eexists. split; [reflexivity|].
    cbn [map fold_left]. unfold client_step at 2. cbn [fst snd].
    change (SMSG_LEARNED_SPELL =? SMSG_INITIAL_SPELLS) with false.
    change (SMSG_LEARNED_SPELL =? SMSG_LEARNED_SPELL) with true. cbv iota.
    rewrite (rd_u_app 4) by exact Hx. rewrite Hs. cbn. set_solver.
Qed.

Lemma client_removed ids s :
  Forall is_word ids ->
  exists bs, res_map smsg_removed_spell ids = Ok bs
    /\ fold_left client_step (map (pair SMSG_REMOVED_SPELL) bs) s = s ∖ list_to_set ids.
Proof.
  intros Hw. revert s. induction Hw as [|x ids Hx Hw IH]; intros s.
  - exists []. split; [done|]. cbn. set_solver.
  - cbn [res_map]. rewrite (removed_spell_ok x Hx). cbn [mbind res_bind].
    destruct (IH (s ∖ {[x]})) as (bs & -> & Hs). eexists. split; [reflexivity|].
    cbn [map fold_left]. unfold client_step at 2. cbn [fst snd].
    change (SMSG_REMOVED_SPELL =? SMSG_INITIAL_SPELLS) with false.
    change (SMSG_REMOVED_SPELL =? SMSG_LEARNED_SPELL) with false.
    change (SMSG_REMOVED_SPELL =? SMSG_REMOVED_SPELL) with true. cbv iota.
    rewrite <- (app_nil_r (le 4 x)), (rd_u_app 4) by exact Hx. rewrite Hs. cbn. set_solver.
Qed.

Lemma client_initial spells s b :
  Forall is_word (map ks_spell spells) -> smsg_initial_spells spells = Ok b ->
  client_step s (SMSG_INITIAL_SPELLS, b) = list_to_set (map ks_spell spells).
Proof.
  intros Hw Hb. unfold smsg_initial_spells in Hb. inv_binds Hb. apply Ok_inj in Hb. subst b.
  apply pack_u_inv in E as [Hn ->]. unfold client_step. cbn [fst snd].
  change (SMSG_INITIAL_SPELLS =? SMSG_INITIAL_SPELLS) with true. cbv iota.
  assert (v0 = map (fun s => le 4 (ks_spell s) ++ le 2 0) spells) as ->.
  { assert (res_map (fun s => b ← packI (ks_spell s); Ok (b ++ le 2 0)) spells
            = Ok (map (fun s => le 4 (ks_spell s) ++ le 2 0) spells)) as E1.
    { apply res_map_ok. intros k Hk. rewrite packI_ok; [done|].
      rewrite Forall_forall in Hw. apply Hw, list_elem_of_fmap. eauto. }
    rewrite E1 in E0. by injection E0. }
  unfold rd_initial. cbn [app].
  rewrite (rd_bind_some _ _ _ 0 (le 2 (pylen spells) ++ concat (map (fun s => le 4 (ks_spell s) ++ le 2 0) spells) ++ le 2 0))
    by (apply rd_u_byte; unfold is_byte; lia).
  rewrite (rd_bind_some _ _ _ _ _ (rd_u_app 2 _ _ Hn)).
  unfold pylen. rewrite Nat2Z.id.
  rewrite (rd_rep_app _ (fun s => le 4 (ks_spell s) ++ le 2 0) ks_spell); [done|].
  intros k rest Hk. rewrite <- app_assoc.
  rewrite Forall_forall in Hw.
  rewrite (rd_bind_some _ _ _ _ _ (rd_u_app 4 _ _ (Hw (ks_spell k) ltac:(apply list_elem_of_fmap; eauto)))).
  by rewrite (rd_bind_some _ _ _ 0 rest) by (apply (rd_u_app 2); cbn; lia).
Qed.

(** Other packets leave the spellbook alone. *)
Lemma client_other s o b :
  o <> SMSG_INITIAL_SPELLS -> o <> SMSG_LEARNED_SPELL -> o <> SMSG_REMOVED_SPELL ->
  client_step s (o, b) = s.
Proof.
  intros H1 H2 H3. unfold client_step. cbn [fst].
  by rewrite (proj2 (Z.eqb_neq _ _) H1), (proj2 (Z.eqb_neq _ _) H2), (proj2 (Z.eqb_neq _ _) H3).
Qed.

Lemma set_diff_elem a b x : x ∈ set_diff a b <-> x ∈ a /\ x ∉ b.
Proof. unfold set_diff. rewrite sort_Z_elem, list_elem_of_filter. tauto. Qed.

Lemma set_diff_nil a b : set_diff a b = [] <-> forall x, x ∈ a -> x ∈ b.
Proof.
  split.
  - intros Hn x Hx. destruct (decide (x ∈ b)); [done|]. exfalso.
    apply (not_elem_of_nil x). rewrite <- Hn. by apply set_diff_elem.
  - intros Hs. destruct (set_diff a b) as [|x l] eqn:E; [done|]. exfalso.
    assert (x ∈ set_diff a b) as [Ha Hb]%set_diff_elem by (rewrite E; left). auto.
Qed.

Lemma set_diff_words a b : Forall is_word a -> Forall is_word (set_diff a b).
Proof.
  rewrite !Forall_forall. intros H x [Hx _]%set_diff_elem. auto.
Qed.

(** ** Unbinding the spells that went *)

Lemma stale_slots_elem removed l s :
  s ∈ stale_slots removed l <->
  exists p, (s, p) ∈ l /\ Z.shiftr p 24 = ACTION_BUTTON_SPELL
    /\ Z.land p ACTION_BUTTON_ACTION_MAX ∈ removed.
Proof.
  unfold stale_slots. rewrite list_elem_of_fmap. split.
  - intros ([s' p] & -> & [Hp Hin]%list_elem_of_filter). cbn in *. naive_solver.
  - intros (p & Hin & Hp). exists (s, p). split; [done|]. by apply list_elem_of_filter.
Qed.

Lemma unbind_loop guid stale w :
  bars_ok (w_bars w) ->
  exists w', mapM_ (fun s => bars_set guid s 0 ;; mret tt) stale w = (Ok tt, w')
    /\ bars_only w w' /\ bars_ok (w_bars w')
    /\ forall g s, bars_lookup (w_bars w') g s
         = if decide (g = guid /\ s ∈ stale) then 0 else bars_lookup (w_bars w) g s.
Proof.
  revert w. induction stale as [|x stale IH]; intros w Hb; cbn [mapM_].
  - exists w. split_and!; [done|apply bars_only_refl|done|]. intros g s.
    rewrite decide_False; [done|]. by intros [_ []%not_elem_of_nil].
  - destruct (bars_set_run w guid x 0 Hb) as (w1 & E1 & Ho1 & Hb1 & _ & Hl1); [lia|].
    m_run. rewrite E1. m_run. destruct (IH w1 Hb1) as (w2 & -> & Ho2 & Hb2 & Hl2).
    exists w2. split_and!; [done|by eapply bars_only_trans|done|].
    intros g s. rewrite Hl2, Hl1. repeat case_decide; try done; rewrite elem_of_cons in *; naive_solver.
Qed.

Lemma unbind_run guid removed w :
  bars_ok (w_bars w) ->
  exists w', unbind_stale guid removed w = (Ok tt, w')
    /\ bars_only w w' /\ bars_ok (w_bars w')
    /\ forall g s, bars_lookup (w_bars w') g s
         = if decide (g = guid /\ s ∈ stale_slots removed (layout_of w guid))
           then 0 else bars_lookup (w_bars w) g s.
Proof.
  intros Hb. unfold unbind_stale, bars_for. m_run. fold (layout_of w guid).
  destruct (unbind_loop guid (stale_slots removed (layout_of w guid)) w Hb) as (w1 & -> & Ho & Hb1 & Hl).
  destruct (negb _); m_run; [|by exists w1].
  destruct (save_bars_spec true w1) as (w2 & -> & Ho2 & Hb2). exists w2.
  rewrite Hb2. split_and!; [done|by eapply bars_only_trans|done|done].
Qed.

Section Sync.
Context `{Env}.

Definition sent_of (w : world) (guid : Z) : list Z := default [] (dget guid (w_sent w)).

(** The server's record of the client's spellbook is the client's spellbook. *)
Definition in_step (w : world) (guid : Z) : Prop :=
  Forall is_word (sent_of w guid) /\ client_spells (w_out w) = list_to_set (sent_of w guid).

Lemma known_words w guid spells :
  known_ok w guid spells -> Forall is_word (map ks_spell spells).
Proof.
  intros Hk. apply Forall_forall. intros x (k & -> & Hin)%list_elem_of_fmap.
  pose proof (known_spell_word _ _ _ _ _ Hk Hin). unfold is_word. lia.
Qed.

Lemma send_buttons_run w c spells :
  bars_ok (w_bars w) -> known_ok w (c_guid c) spells ->
  exists w', send_action_buttons c w = (Ok tt, w')
    /\ (exists b, w_out w' = w_out w ++ [(SMSG_ACTION_BUTTONS, b)])
    /\ w_sent w' = w_sent w /\ w_known w' = w_known w /\ bars_ok (w_bars w')
    /\ layout_of w' (c_guid c)
       = match layout_of w (c_guid c) with [] => autofill_go spells 0 [] | l => l end.
Proof.
  intros Hb Hk. destruct (action_buttons_run w c spells Hb Hk)
    as (w1 & E & (b & d & f & l & Hw) & Hb1 & _ & Hl).
  unfold send_action_buttons. m_run. rewrite E. m_run. eexists. split; [reflexivity|].
  split_and!; [eexists; cbn; by rewrite Hw|by rewrite Hw|by rewrite Hw|done|exact Hl].
Qed.

(** The run of [sync_spellbook], shared by its two properties.  [w2] is the
    state after the stale buttons were unbound. *)
Lemma sync_run w c spells :
  bars_ok (w_bars w) -> known_ok w (c_guid c) spells -> in_step w (c_guid c) ->
  let guid := c_guid c in
  let cur := map ks_spell spells in
  let removed := set_diff (sent_of w guid) cur in
  let learned := set_diff cur (sent_of w guid) in
  exists w', sync_spellbook c w = (Ok (pylen learned, pylen removed), w')
    /\ bars_ok (w_bars w') /\ w_known w' = w_known w
    /\ w_sent w' = dset guid cur (w_sent w)
    /\ client_spells (w_out w') = list_to_set cur
    /\ exists l2, slots_ok l2
       /\ (forall s, default 0 (dget s l2)
             = if decide (s ∈ stale_slots removed (layout_of w guid)) then 0
               else bars_lookup (w_bars w) guid s)
       /\ layout_of w' guid
          = if decide (learned = [] /\ removed = []) then l2
            else match l2 with [] => autofill_go spells 0 [] | _ => l2 end.
Proof.
  intros Hb Hk [Hw Hc]. cbv zeta. set (guid := c_guid c). set (cur := map ks_spell spells).
  set (removed := set_diff (sent_of w guid) cur). set (learned := set_diff cur (sent_of w guid)).
  assert (Forall is_word cur) as Hcur by (by eapply known_words).
  destruct (client_learned learned (client_spells (w_out w)) (set_diff_words _ _ Hcur)) as (bl & Hbl & Hcl).
  destruct (client_removed removed (list_to_set learned ∪ client_spells (w_out w)) (set_diff_words _ _ Hw))
    as (br & Hbr & Hcr).
  assert (list_to_set cur = (list_to_set learned ∪ client_spells (w_out w)) ∖ (list_to_set removed : gset Z)) as Hset.
  { rewrite Hc. apply set_eq. intros x.
    rewrite elem_of_difference, elem_of_union, !elem_of_list_to_set.
    unfold learned, removed. rewrite !set_diff_elem. fold guid.
    destruct (decide (x ∈ cur)); destruct (decide (x ∈ sent_of w guid)); tauto. }
  unfold sync_spellbook. m_run. fold guid. rewrite (known_spells_run w guid spells Hk). m_run.
  fold cur. fold (sent_of w guid). fold learned. fold removed.
  rewrite (mapM_send_r SMSG_LEARNED_SPELL smsg_learned_spell learned w bl Hbl). m_run.
  rewrite (mapM_send_r SMSG_REMOVED_SPELL smsg_removed_spell removed _ br Hbr). m_run.
  match goal with |- context [set_w_out ?o (set_w_out ?o' w)] =>
    set (w1 := set_w_out o (set_w_out o' w)) end.
  assert (client_spells (w_out w1) = list_to_set cur) as Hc1.
  { unfold w1. cbn [w_out set_w_out]. rewrite !client_spells_app, Hcl, Hcr. by rewrite Hset. }
  (* the stale buttons *)
  assert (exists w2, (when_ (negb (bool_decide (removed = []))) (unbind_stale guid removed)) w1 = (Ok tt, w2)
    /\ bars_only w1 w2 /\ bars_ok (w_bars w2)
    /\ forall s, bars_lookup (w_bars w2) guid s
       = if decide (s ∈ stale_slots removed (layout_of w guid)) then 0 else bars_lookup (w_bars w) guid s)
    as (w2 & E2 & Ho2 & Hb2 & Hl2).
  { destruct (bool_decide (removed = [])) eqn:Er; cbn [negb]; m_run.
    - apply bool_decide_eq_true in Er. exists w1. split_and!; [done|apply bars_only_refl|done|].
      intros s. rewrite decide_False; [done|]. rewrite stale_slots_elem, Er.
      by intros (? & _ & _ & []%not_elem_of_nil).
    - destruct (unbind_run guid removed w1 Hb) as (w2 & E2 & Ho2 & Hb2 & Hl2).
      exists w2. split_and!; try done. intros s. rewrite Hl2.
      change (layout_of w1 guid) with (layout_of w guid).
      change (w_bars w1) with (w_bars w).
      destruct (decide (s ∈ _)); [by rewrite decide_True | by rewrite decide_False by tauto]. }
  rewrite E2. m_run. destruct Ho2 as (b2 & d2 & f2 & l2 & Hw2).
  assert (slots_ok (layout_of w2 guid)) as Hs2 by (by apply bars_ok_slots).
  assert (known_ok w2 guid spells) as Hk2 by (by rewrite Hw2).
  assert (w_out w2 = w_out w1) as Hout2 by (by rewrite Hw2).
  destruct (bool_decide (learned = [] /\ removed = [])) eqn:Eb; cbn [negb]; m_run.
  - apply bool_decide_eq_true in Eb. eexists. split; [reflexivity|].
    cbn [w_bars w_known w_sent w_out set_w_sent]. split_and!; [done|by rewrite Hw2|by rewrite Hw2|by rewrite Hout2|].
    exists (layout_of w2 guid). split_and!; [done|exact Hl2|]. by rewrite decide_True.
  - apply bool_decide_eq_false in Eb.
    destruct (send_buttons_run w2 c spells Hb2 Hk2) as (w3 & -> & (b3 & Hout3) & Hsent3 & Hkn3 & Hb3 & Hl3).
    m_run. eexists. split; [reflexivity|].
    cbn [w_bars w_known w_sent w_out set_w_sent]. split_and!; [done|by rewrite Hkn3, Hw2|by rewrite Hsent3, Hw2| |].
    + rewrite Hout3, client_spells_app, Hout2, Hc1. by apply client_other.
    + exists (layout_of w2 guid). split_and!; [done|exact Hl2|]. rewrite decide_False by exact Eb.
      etransitivity; [exact Hl3|]. fold guid. by destruct (layout_of w2 guid).
Qed.


(** After a synchronisation no button points at a spell that was taken
    away, and every other bound button is still where the player put it. *)
Theorem sync_spellbook_bars w c spells :
  bars_ok (w_bars w) -> ca_known_spells CA_INDEX (w_known w) (c_guid c) = Ok spells ->
  in_step w (c_guid c) ->
  let removed := set_diff (sent_of w (c_guid c)) (map ks_spell spells) in
  let dead p := Z.shiftr p 24 = ACTION_BUTTON_SPELL /\ Z.land p ACTION_BUTTON_ACTION_MAX ∈ removed in
  exists r w', sync_spellbook c w = (Ok r, w')
    /\ (forall slot, bars_lookup (w_bars w') (c_guid c) slot <> 0 ->
          ~ dead (bars_lookup (w_bars w') (c_guid c) slot))
    /\ (forall slot, bars_lookup (w_bars w) (c_guid c) slot <> 0 ->
          ~ dead (bars_lookup (w_bars w) (c_guid c) slot) ->
          bars_lookup (w_bars w') (c_guid c) slot = bars_lookup (w_bars w) (c_guid c) slot).
Proof.
  intros Hb Hk Hi. cbv zeta.
  destruct (sync_run w c spells Hb Hk Hi) as (w' & E & Hb' & Hkn & Hs & Hc & l2 & Hs2 & Hl2 & Hl').
  set (removed := set_diff (sent_of w (c_guid c)) (map ks_spell spells)) in *. set (guid := c_guid c) in *.
  eexists _, w'. split; [exact E|].
  assert (forall slot, bars_lookup (w_bars w') guid slot = default 0 (dget slot (layout_of w' guid))) as Hlk by done.
  assert (Hstale : forall s, bars_lookup (w_bars w) guid s <> 0 ->
    (s ∈ stale_slots removed (layout_of w guid) <->
     Z.shiftr (bars_lookup (w_bars w) guid s) 24 = ACTION_BUTTON_SPELL
     /\ Z.land (bars_lookup (w_bars w) guid s) ACTION_BUTTON_ACTION_MAX ∈ removed)).
  { intros s Hne. rewrite stale_slots_elem.
    assert (dict_ok (layout_of w guid)) as Hd by (apply bars_ok_slots, Hb).
    unfold bars_lookup in *. fold (layout_of w guid) in *.
    destruct (dget s (layout_of w guid)) as [p|] eqn:Ep; [|done]. cbn in *. split.
    - intros (p' & Hin & ?). apply elem_of_dget in Hin; [|done]. congruence.
    - intros ?. exists p. split; [by apply dget_elem_of | done]. }
  split; intros slot Hne.
  - rewrite Hlk in Hne |- *. rewrite Hl' in Hne |- *. intros [H24 Hin].
    assert (Hcase : forall s, default 0 (dget s l2) <> 0 ->
      ~ (Z.shiftr (default 0 (dget s l2)) 24 = ACTION_BUTTON_SPELL
         /\ Z.land (default 0 (dget s l2)) ACTION_BUTTON_ACTION_MAX ∈ removed)).
    { intros s. rewrite Hl2. destruct (decide (s ∈ _)) as [Es|Es]; [by intros []|].
      intros Hnz Hd. apply Es. by apply Hstale. }
    destruct (decide (_ /\ _)); [by apply (Hcase slot)|].
    destruct l2 as [|sp l2]; [|by apply (Hcase slot)].
    destruct (dget slot (autofill_go spells 0 [])) as [p|] eqn:Ep; [|done]. cbn in Hin.
    apply dget_elem_of, autofill_value in Ep as (_ & k & Hk' & Hcast & <-).
    unfold castable in Hcast. apply andb_true_iff in Hcast as [_ Hle]. apply Z.leb_le in Hle.
    pose proof (known_spell_word _ _ _ _ _ Hk Hk') as Hr.
    change ACTION_BUTTON_ACTION_MAX with (Z.ones 24) in *. rewrite Z.land_ones in Hin by lia.
    rewrite Z.mod_small in Hin by (change (Z.ones 24) with 16777215 in Hle; lia).
    apply set_diff_elem in Hin as [_ Hn]. apply Hn, list_elem_of_fmap. eauto.
  - intros Hnd. rewrite <- (Hstale slot Hne) in Hnd.
    specialize (Hl2 slot). rewrite decide_False in Hl2 by exact Hnd. rewrite Hlk, Hl'.
    destruct l2 as [|sp l2]; [cbn in Hl2; congruence|]. by destruct (decide _).
Qed.
End Sync.

Section Bulk.
Context `{Env}.

(** The bulk path at world entry puts the client and the record in step,
    whatever the client knew before: it then has exactly the granted spells. *)
Theorem send_spellbook_client w c spells :
  bars_ok (w_bars w) -> ca_known_spells CA_INDEX (w_known w) (c_guid c) = Ok spells ->
  pylen spells < 2 ^ 16 ->
  exists r w', send_spellbook c w = (Ok r, w')
    /\ client_spells (w_out w') = list_to_set (map ks_spell spells)
    /\ in_step w' (c_guid c) /\ bars_ok (w_bars w').
Proof.
  intros Hb Hk Hn. pose proof (known_words _ _ _ Hk) as Hw.
  assert (exists b, smsg_initial_spells spells = Ok b) as [b Eb].
  { unfold smsg_initial_spells. rewrite packH_ok by (pose proof (pylen_nonneg spells); lia).
    cbn [mbind res_bind].
    rewrite (res_map_ok _ (fun s => le 4 (ks_spell s) ++ le 2 0)); [cbn; eauto|].
    intros k Hin. rewrite packI_ok; [done|]. rewrite Forall_forall in Hw.
    apply Hw, list_elem_of_fmap. eauto. }
  unfold send_spellbook. m_run. rewrite (known_spells_run w _ _ Hk). m_run.
  rewrite (run_send_r _ _ _ _ Eb). m_run.
  match goal with |- context [send_action_buttons c ?w1] => set (w2 := w1) end.
  destruct (send_buttons_run w2 c spells Hb Hk) as (w3 & -> & (b3 & Hout) & Hs & _ & Hb3 & _).
  m_run. eexists _, _. split; [reflexivity|].
  assert (client_spells (w_out w3) = list_to_set (map ks_spell spells)) as Hc.
  { rewrite Hout. unfold w2. cbn [w_out set_w_out]. rewrite !client_spells_app. cbn [fold_left].
    rewrite (client_initial _ _ _ Hw Eb). by rewrite !client_other by done. }
  unfold in_step, sent_of. cbn [w_out w_sent w_bars set_w_sent]. rewrite dget_dset_eq. done.
Qed.
End Bulk.

(** ** The file round trip *)

Section BarsRoundTrip.
Context `{Unicode}.

Lemma slots_fold (l acc : layout) :
  dict_ok (acc ++ l) ->
  fold_left (fun m '(s, p) => dset s p m) l acc = acc ++ l.
Proof.
  revert acc. induction l as [|[s p] l IH]; intros acc Hd; cbn [fold_left]; [by rewrite app_nil_r|].
  assert (dset s p acc = acc ++ [(s, p)]) as ->.
  { apply dset_fresh. unfold dict_ok, dkeys in Hd. rewrite map_app in Hd.
    apply NoDup_app in Hd as (_ & Hd & _). intros Hin. eapply Hd; [exact Hin|]. left. }
  rewrite IH; rewrite <- app_assoc; done.
Qed.

Lemma sort_key_keys {A} (d : list (Z * A)) : dict_ok d -> dict_ok (py_sort key_leb d).
Proof. unfold dict_ok, dkeys. by rewrite (py_sort_perm key_leb d). Qed.

Lemma load_slot_dump s p :
  0 <= s -> 0 < p -> load_slot (str_of_Z s, JInt p) = Ok (Some (s, p)).
Proof.
  intros Hs Hp. unfold load_slot. cbn [fst snd py_int mbind res_bind].
  rewrite (proj2 (Z.eqb_neq p 0)) by lia. by rewrite int_of_str_of_Z by exact Hs.
Qed.

(** GUIDs and slots are written in decimal: they are not negative. *)
Definition keys_ok (b : bar_layouts) : Prop :=
  Forall (fun gl => 0 <= fst gl /\ Forall (fun sp => 0 <= fst sp) (snd gl)) b.

Lemma load_dump_slots l :
  slots_ok l -> Forall (fun sp => 0 <= fst sp) l -> load_slots (JDict (dump_slots l)) = Ok (py_sort key_leb l).
Proof.
  intros [Hd Hl] Hn. unfold load_slots, dump_slots. cbn [as_items mbind res_bind].
  assert (Forall (fun sp => 0 <= fst sp /\ 0 < snd sp < 2 ^ 32) (py_sort key_leb l)) as Hl'
    by (rewrite (py_sort_perm key_leb l); apply Forall_and; done).
  apply sort_key_keys in Hd. revert Hd Hl'. generalize (py_sort key_leb l) as k. intros k Hd Hl'.
  assert (res_map load_slot (map (fun '(s, v) => (str_of_Z s, JInt v)) k) = Ok (map Some k)) as ->.
  { clear Hd. induction Hl' as [|[s p] k Hp _ IH]; [done|]. cbn [map res_map].
    rewrite load_slot_dump by apply Hp. cbn [mbind res_bind]. by rewrite IH. }
  cbn [mbind res_bind]. f_equal.
  assert (omap id (map Some k) = k) as ->.
  { clear. induction k as [|x k IH]; [done|]. cbn. by rewrite IH. }
  by apply slots_fold.
Qed.

Definition stored_bars (b : bar_layouts) : bar_layouts :=
  map (fun gl => (fst gl, py_sort key_leb (snd gl))) (filter (fun gl => snd gl <> []) (py_sort key_leb b)).

Lemma load_layouts_fold (k : bar_layouts) acc :
  dict_ok (acc ++ k) -> Forall (fun gl => slots_ok (snd gl)) k -> keys_ok k ->
  res_fold (fun out gv => g ← int_of_str (fst gv); l ← load_slots (snd gv); Ok (dset g l out)) acc
    (map (fun '(g, l) => (str_of_Z g, JDict (dump_slots l))) k)
  = Ok (acc ++ map (fun gl => (fst gl, py_sort key_leb (snd gl))) k).
Proof.
  intros Hd Hk Hn. revert acc Hd Hn. induction Hk as [|[g l] k Hl Hk IH]; intros acc Hd Hn;
    cbn [map res_fold]; [by rewrite app_nil_r|].
  apply Forall_cons in Hn as [[Hg0 Hs0] Hn].
  cbn [fst snd] in *. rewrite int_of_str_of_Z by exact Hg0. cbn [mbind res_bind].
  rewrite (load_dump_slots l Hl Hs0). cbn [mbind res_bind].
  assert (g ∉ dkeys acc) as Hg.
  { unfold dict_ok, dkeys in Hd. rewrite map_app in Hd.
    apply NoDup_app in Hd as (_ & Hd & _). intros Hin. eapply Hd; [exact Hin|]. left. }
  rewrite (dset_fresh g _ acc Hg), IH.
  - by rewrite <- app_assoc.
  - unfold dict_ok, dkeys in *. rewrite !map_app in *. rewrite <- app_assoc. exact Hd.
  - exact Hn.
Qed.

Lemma load_dump_bars b : bars_ok b -> keys_ok b -> load_bars (JDict (dump_bars b)) = stored_bars b.
Proof.
  intros [Hd Hb] Hn. unfold load_bars, dump_bars, stored_bars. cbn [as_items mbind res_bind].
  assert (Hin : forall gl, gl ∈ filter (fun gl => snd gl <> []) (py_sort key_leb b) -> gl ∈ b).
  { intros gl [_ Hin]%list_elem_of_filter. by apply py_sort_elem in Hin. }
  unfold keys_ok in *. rewrite Forall_forall in Hb, Hn.
  rewrite load_layouts_fold; [done| | |].
  - cbn [app]. apply sort_key_keys in Hd. unfold dict_ok, dkeys in *.
    eapply sublist_NoDup; [exact Hd|]. apply (fmap_sublist fst), sublist_filter.
  - apply Forall_forall. auto.
  - apply Forall_forall. auto.
Qed.

(** Saving the bars and loading the file back loses nothing a button packet
    can show: every slot of every character reads the same, whatever the
    debounce did before, once a save was forced. *)
Theorem bars_file_roundtrip w guid slot :
  bars_ok (w_bars w) -> keys_ok (w_bars w) ->
  exists w', save_bars true w = (Ok tt, w') /\ w_bars w' = w_bars w /\ w_bars_dirty w' = false
    /\ (w_bars_dirty w = true ->
        bars_lookup (load_bars (JDict (w_bars_file w'))) guid slot = bars_lookup (w_bars w) guid slot).
Proof.
  intros Hb Hn. unfold save_bars. m_run.
  destruct (w_bars_dirty w) eqn:Ed; cbn [negb]; m_run; [|by exists w].
  eexists. split; [reflexivity|]. split_and!; [done|done|]. intros _. cbn.
  rewrite (load_dump_bars _ Hb Hn). destruct Hb as [Hd Hb].
  apply sort_key_keys in Hd as Hd'.
  assert (Hf : forall (k : bar_layouts), dict_ok k ->
    dget guid (filter (fun gl => snd gl <> []) k) = match dget guid k with Some [] => None | o => o end).
  { clear. intros k. induction k as [|[g l] k IH]; [done|]. unfold dict_ok. cbn [dkeys map fst].
    intros [Hg Hk]%NoDup_cons. rewrite filter_cons. cbn [snd].
    destruct l as [|sp l].
    - rewrite decide_False by tauto. rewrite (IH Hk). cbn [dget]. case_decide; [|done].
      subst. by rewrite (proj2 (dget_None_keys _ _)).
    - rewrite decide_True by done. cbn [dget]. case_decide; [done|]. by apply IH. }
  assert (Hm : forall (k : bar_layouts), dget guid (map (fun gl => (fst gl, py_sort key_leb (snd gl))) k)
    = py_sort key_leb <$> dget guid k).
  { clear. intros k. induction k as [|[g l] k IH]; [done|]. cbn [map dget fst snd]. by case_decide. }
  assert (Hsort : forall {A} (d : list (Z * A)) x, dict_ok d -> dget x (py_sort key_leb d) = dget x d).
  { intros A d x Hdd. destruct (dget x d) as [v|] eqn:E.
    - apply elem_of_dget; [by apply sort_key_keys|]. apply py_sort_elem. by apply dget_elem_of.
    - apply dget_None_keys. apply dget_None_keys in E. unfold dkeys in *.
      by rewrite (py_sort_perm key_leb d). }
  unfold bars_lookup, stored_bars. rewrite Hm, Hf, Hsort by done.
  destruct (dget guid (w_bars w)) as [[|sp l]|] eqn:E; [done| |done].
  cbn [fmap option_fmap option_map default from_option id]. rewrite Hsort; [done|].
  apply dget_elem_of in E. rewrite Forall_forall in Hb. apply (Hb _ E).
Qed.
End BarsRoundTrip.

(** ** Witnesses *)

Section Witnesses.
#[local] Existing Instance sample_env.

Lemma sample_known : ca_known_spells CA_INDEX (w_known sample_world) (c_guid sample_char)
  = Ok [KnownSpell 40 1 705781 (lit "Spell") false].
Proof. vm_compute. reflexivity. Qed.

Lemma sample_bars_ok : bars_ok (w_bars sample_world).
Proof. split; [apply dict_ok_nil | constructor]. Qed.

(** The same world with a saved bar: the old rank on slot 3, which the client
    still knows, and an item on slot 5. *)
Definition bound_world : world :=
  set_w_sent [(7, [705782])]
    (set_w_out [(SMSG_LEARNED_SPELL, le 4 705782 ++ le 2 0)]
      (set_w_bars [(7, [(3, 705782); (5, 0x80000007)])] (set_w_bars_dirty true sample_world))).

Lemma bound_bars_ok : bars_ok (w_bars bound_world).
Proof.
  split; [apply NoDup_singleton|]. apply Forall_singleton. split; [unfold dict_ok; by_decide|].
  repeat constructor; cbn; lia.
Qed.

Lemma bound_in_step : in_step bound_world 7.
Proof.
  split; [repeat constructor; cbn; lia|]. by_decide.
Qed.

Lemma bars_set_spec_witness :
  exists changed w', bars_set 7 3 0 bound_world = (Ok changed, w') /\ bars_ok (w_bars w').
Proof.
  destruct (bars_set_spec bound_world 7 3 0 bound_bars_ok) as (ch & w' & E & Hok & _); [lia|].
  exists ch, w'. exact (conj E Hok).
Defined.

Lemma action_buttons_read_witness :
  exists b w', smsg_action_buttons sample_char 1 sample_world = (Ok b, w') /\ length b = 577%nat.
Proof.
  destruct (action_buttons_read sample_world sample_char _ sample_bars_ok sample_known)
    as (b & w' & E & Hl & _).
  exists b, w'. exact (conj E Hl).
Defined.


Lemma sync_spellbook_bars_witness :
  exists r w', sync_spellbook sample_char bound_world = (Ok r, w')
    /\ bars_lookup (w_bars w') 7 5 = 0x80000007.
Proof.
  destruct (sync_spellbook_bars bound_world sample_char _ bound_bars_ok sample_known bound_in_step)
    as (r & w' & E & _ & Hk).
  exists r, w'. split; [exact E|]. apply (Hk 5); [vm_compute; discriminate|].
  intros [H24 _]. revert H24. vm_compute. discriminate.
Defined.

Lemma send_spellbook_client_witness :
  exists r w', send_spellbook sample_char sample_world = (Ok r, w')
    /\ client_spells (w_out w') = list_to_set [705781].
Proof.
  destruct (send_spellbook_client sample_world sample_char _ sample_bars_ok sample_known)
    as (r & w' & E & Hc & _); [vm_compute; reflexivity|].
  exists r, w'. exact (conj E Hc).
Defined.

Lemma bars_file_roundtrip_witness :
  exists w', save_bars true bound_world = (Ok tt, w')
    /\ bars_lookup (load_bars (JDict (w_bars_file w'))) 7 3 = 705782.
Proof.
  destruct (bars_file_roundtrip bound_world 7 3 bound_bars_ok) as (w' & E & _ & _ & Hl).
  - repeat constructor; cbn; lia.
  - exists w'. split; [exact E|]. exact (Hl eq_refl).
Defined.
End Witnesses.
