(* ===== verification/Combat.v ===== *)
(** * Health, power, dummies, auras and casts (world_server.py)

    The live state of units: pools and what a spell costs, target dummies,
    the effects of a cast, and auras, which are applied, ticked with a
    catch-up loop and taken off again.  The lines the functions return for the
    log are values of [combat_line]. *)
From S2P Require Import Prelude Wire PyFloat Text Json Consts Framing Chars Known Spells.
From S2P Require Import Builders World.

(** ** Pools *)

Definition ptype_of (c : character) : Z := Z.land (power_for (c_class c)) 0xFF.

Definition max_pools (c : character) : Z * Z :=
  let lvl := Z.max 1 (c_level c) in
  let hp := ARCHIVE_POOL_BASE + ARCHIVE_HEALTH_PER_LEVEL * lvl in
  if negb (ptype_of c =? POWER_MANA) then (hp, ARCHIVE_FIXED_POWER)
  else (hp, ARCHIVE_POOL_BASE + ARCHIVE_MANA_PER_LEVEL * lvl).

Definition put_unit (guid : Z) (st : unit_st) : M unit :=
  modify (fun w => set_w_units (dset guid st (w_units w)) w).

(** [unit_state]: the live entry, seeded full and clamped to the pools. *)
Definition unit_state (c : character) : M unit_st :=
  units ← gets w_units;
  let '(hp, mp) := max_pools c in
  let st := default (UnitSt hp mp) (dget (c_guid c) units) in
  let st := UnitSt (Z.min (u_hp st) hp) (Z.min (u_power st) mp) in
  put_unit (c_guid c) st ;;
  mret st.

Definition power_cost (info : option spell_rec) (c : character) : Z :=
  match info with
  | None => 0
  | Some info =>
      if negb (si_powerType info =? ptype_of c) then 0
      else
        let maxp := snd (max_pools c) in
        Z.max 0 (si_manaCost info + si_manaCostPct info * maxp / 100)
  end.

Definition smsg_power_update (guid power value : Z) : res bytes :=
  v ← packI value; Ok (pack_guid guid ++ [Z.land power 0xFF] ++ v).

Definition send_power_update (c : character) : M unit :=
  st ← unit_state c;
  let '(maxhp, maxp) := max_pools c in
  let ptype := ptype_of c in
  send_r SMSG_UPDATE_OBJECT
    (build_values_update (c_guid c)
       [(UNIT_FIELD_HEALTH, u32le (u_hp st)); (UNIT_FIELD_MAXHEALTH, u32le maxhp);
        (UNIT_FIELD_POWER1 + ptype, u32le (u_power st));
        (UNIT_FIELD_MAXPOWER1 + ptype, u32le maxp)] PLAYER_END) ;;
  send_r SMSG_POWER_UPDATE (smsg_power_update (c_guid c) ptype (u_power st)).

(** [max(1, int(maxp * ARCHIVE_REGEN_PCT))]. *)
Definition regen_amount (maxp : Z) : res Z :=
  n ← int_of_f64 (f64_mul (f64_of_Z maxp) ARCHIVE_REGEN_PCT); Ok (Z.max 1 n).

Definition regen_tick (c : character) : M bool :=
  st ← unit_state c;
  let maxp := snd (max_pools c) in
  if u_power st >=? maxp then mret false
  else
    n ← lift (regen_amount maxp);
    put_unit (c_guid c) (UnitSt (u_hp st) (Z.min maxp (u_power st + n))) ;;
    send_power_update c ;;
    mret true.

(** ** Dummies *)

Definition dummy_guid (counter : Z) : Z :=
  Z.lor (Z.lor counter (Z.shiftl ARCHIVE_DUMMY_ENTRY 24)) HIGHGUID_UNIT.

(** The nine speeds of a movement block. *)
Definition move_speeds : list f64 :=
  [f64_dec 25 (-1); f64_dec 7 0; f64_dec 45 (-1); f64_dec 4722222 (-6); f64_dec 25 (-1);
   f64_dec 7 0; f64_dec 45 (-1); f64_dec 3141594 (-6); f64_dec 314 (-2)].

Definition mstime (w : world) : Z := Z.land (ck_wall (w_clock w) / 1000000) 0xFFFFFFFF.

(** [build_dummy_create_block]; [ms] is [mstime()]. *)
Definition build_dummy_create_block (ms guid : Z) (d : dummy) : res bytes :=
  t ← packI ms;
  p ← packfs [d_x d; d_y d; d_z d; d_o d];
  speeds ← packfs move_speeds;
  scale ← f32le (d_scale d);
  bound ← f32le (f64_dec 9 (-1));
  reach ← f32le (f64_dec 15 (-1));
  vals ← build_values_block
    [(OBJECT_FIELD_GUID, u32le (Z.land guid 0xFFFFFFFF));
     (OBJECT_FIELD_GUID + 1, u32le (Z.land (Z.shiftr guid 32) 0xFFFFFFFF));
     (OBJECT_FIELD_TYPE, u32le TYPEMASK_UNIT);
     (OBJECT_FIELD_ENTRY, u32le ARCHIVE_DUMMY_ENTRY);
     (OBJECT_FIELD_SCALE_X, scale);
     (UNIT_FIELD_BYTES_0, u32le (Z.shiftl 1 8));
     (UNIT_FIELD_HEALTH, u32le (d_hp d));
     (UNIT_FIELD_MAXHEALTH, u32le (d_maxhp d));
     (UNIT_FIELD_LEVEL, u32le ARCHIVE_DUMMY_LEVEL);
     (UNIT_FIELD_FACTIONTEMPLATE, u32le ARCHIVE_DUMMY_FACTION);
     (UNIT_FIELD_FLAGS, u32le 0);
     (UNIT_FIELD_BASEATTACKTIME, u32le 2000);
     (UNIT_FIELD_BASEATTACKTIME + 1, u32le 2000);
     (UNIT_FIELD_BOUNDINGRADIUS, bound);
     (UNIT_FIELD_COMBATREACH, reach);
     (UNIT_FIELD_DISPLAYID, u32le (d_display d));
     (UNIT_FIELD_NATIVEDISPLAYID, u32le (d_display d));
     (UNIT_DYNAMIC_FLAGS, u32le 0);
     (UNIT_NPC_FLAGS, u32le 0);
     (UNIT_FIELD_BASE_HEALTH, u32le (d_maxhp d))] (Some UNIT_END);
  Ok (le 4 1 ++ [UPDATETYPE_CREATE_OBJECT] ++ pack_guid guid ++ [TYPEID_UNIT]
      ++ le 2 (Z.lor UPDATEFLAG_LIVING UPDATEFLAG_STATIONARY) ++ le 4 0 ++ le 2 0 ++ t ++ p
      ++ le 4 0 ++ speeds ++ vals).

Definition smsg_creature_query_response (entry : Z) : res bytes :=
  if negb (entry =? ARCHIVE_DUMMY_ENTRY) then
    packI (Z.land (Z.lor entry 0x80000000) 0xFFFFFFFF)
  else
    n ← cstr ARCHIVE_DUMMY_NAME;
    s ← cstr ARCHIVE_DUMMY_SUBNAME;
    d ← packIs [ARCHIVE_DUMMY_DISPLAY; 0; 0; 0];
    f ← packfs [f64_of_Z 1; f64_of_Z 1];
    Ok (le 4 ARCHIVE_DUMMY_ENTRY ++ n ++ [0; 0; 0] ++ s ++ [0] ++ le 4 0 ++ le 4 7 ++ le 4 0
        ++ le 4 0 ++ (le 4 0 ++ le 4 0) ++ d ++ f ++ [0]
        ++ concat (replicate (Z.to_nat MAX_CREATURE_QUEST_ITEMS) (le 4 0)) ++ le 4 0).

Definition math_pi : f64 := f64_dec 3141592653589793 (-15).

Definition put_dummy (guid : Z) (d : dummy) : M unit :=
  modify (fun w => set_w_dummies (dset guid d (w_dummies w)) w).

Section Dummies.
Context `{Env}.

Definition spawn_dummy (c : character) (display : option Z) (dist : option f64) (scale : f64)
    : M (Z * dummy) :=
  modify (fun w => set_w_dummy_seq (w_dummy_seq w + 1) w) ;;
  seq ← gets w_dummy_seq;
  let guid := dummy_guid seq in
  let o := c_o c in
  let r := default ARCHIVE_DUMMY_DISTANCE dist in
  let d := Dummy ARCHIVE_DUMMY_HEALTH ARCHIVE_DUMMY_HEALTH
             (f64_add (c_x c) (f64_mul r (math_cos o)))
             (f64_add (c_y c) (f64_mul r (math_sin o)))
             (c_z c) (f64_mod (f64_add o math_pi) (f64_mul (f64_of_Z 2) math_pi))
             (match display with Some n => if n =? 0 then ARCHIVE_DUMMY_DISPLAY else n
              | None => ARCHIVE_DUMMY_DISPLAY end)
             scale 0 in
  put_dummy guid d ;;
  ms ← gets mstime;
  send_r SMSG_UPDATE_OBJECT (build_dummy_create_block ms guid d) ;;
  mret (guid, d).

(** [despawn_dummies]. *)
Definition despawn_one (guid : Z) : M unit :=
  g ← lift (packQ guid);
  send_pkt SMSG_DESTROY_OBJECT (g ++ [0]) ;;
  modify (fun w => set_w_dummies (ddel guid (w_dummies w)) w).

Definition despawn_dummies : M Z :=
  ds ← gets w_dummies;
  mapM_ despawn_one (dkeys ds) ;;
  mret (pylen (dkeys ds)).

Definition send_dummy_health (guid : Z) (d : dummy) : M unit :=
  send_r SMSG_UPDATE_OBJECT
    (build_values_update guid [(UNIT_FIELD_HEALTH, u32le (d_hp d))] UNIT_END).

Definition set_d_hp (n : Z) (d : dummy) : dummy :=
  Dummy n (d_maxhp d) (d_x d) (d_y d) (d_z d) (d_o d) (d_display d) (d_scale d) (d_hit d).
Definition set_d_hit (t : Z) (d : dummy) : dummy :=
  Dummy (d_hp d) (d_maxhp d) (d_x d) (d_y d) (d_z d) (d_o d) (d_display d) (d_scale d) t.

Definition dummy_tick : M unit :=
  t ← now;
  ds ← gets w_dummies;
  mapM_ (fun '(guid, d) =>
    if (d_hp d <? d_maxhp d) && (ARCHIVE_DUMMY_RESET <=? t - d_hit d) then
      let d := set_d_hp (d_maxhp d) d in
      put_dummy guid d ;; send_dummy_health guid d
    else mret tt) ds.

(** ** Amounts and log packets *)

Definition roll (lo hi : Z) : M Z :=
  k ← gets w_rolls;
  modify (set_w_rolls (S k)) ;;
  mret (randint k lo hi).

Definition effect_amount (e : spell_effect) : M Z :=
  let die := se_dieSides e in
  let base := se_basePoints e in
  if die =? 0 then mret base
  else if die >=? 1 then n ← roll 1 die; mret (base + n)
  else n ← roll die 1; mret (base + n).
End Dummies.

Definition smsg_spell_damage_log (target_guid caster_guid spell_id damage overkill school_mask : Z)
    : res bytes :=
  n ← packIs [spell_id; damage; overkill];
  Ok (pack_guid target_guid ++ pack_guid caster_guid ++ n ++ [Z.land school_mask 0xFF]
      ++ le 4 0 ++ le 4 0 ++ [0] ++ [0] ++ le 4 0 ++ le 4 0 ++ [0]).

Definition smsg_spell_heal_log (target_guid caster_guid spell_id heal overheal : Z) : res bytes :=
  n ← packIs [spell_id; heal; overheal];
  Ok (pack_guid target_guid ++ pack_guid caster_guid ++ n ++ le 4 0 ++ [0] ++ [0]).

Definition in_harm (t : Z) : bool := bool_decide (t ∈ AURA_PERIODIC_HARM).
Definition in_help (t : Z) : bool := bool_decide (t ∈ AURA_PERIODIC_HELP).
Definition in_power (t : Z) : bool := bool_decide (t ∈ AURA_PERIODIC_POWER).

Definition smsg_periodic_aura_log
    (target_guid caster_guid spell_id aura_type amount overflow school_mask : Z) : res bytes :=
  h ← packIs [spell_id; 1; aura_type];
  let head := pack_guid target_guid ++ pack_guid caster_guid ++ h in
  if in_harm aura_type then
    n ← packIs [amount; overflow; school_mask; 0; 0]; Ok (head ++ n ++ [0])
  else if in_help aura_type then
    n ← packIs [amount; overflow; 0]; Ok (head ++ n ++ [0])
  else if in_power aura_type then
    n ← packIs [0; amount]; Ok (head ++ n)
  else Ok [].

(** ** Auras *)

(** [aura_remaining_ms], in whole milliseconds. *)
Definition aura_remaining_ms (t : Z) (a : aura) : Z :=
  match a_expires a with
  | None => a_maxdur_ms a
  | Some x => Z.max 0 (Z.quot (x - t) 1000000)
  end.

(** [smsg_aura_update]; [removing] is the flag [remove_aura] sets. *)
Definition smsg_aura_update (t target_guid : Z) (a : aura) (removing : bool) : res bytes :=
  let head := pack_guid target_guid ++ [Z.land (a_slot a) 0xFF] in
  if removing then Ok (head ++ le 4 0)
  else
    sp ← packI (a_spell a);
    let mid := [Z.land (a_flags a) 0xFF; Z.land (a_level a) 0xFF; Z.land (Z.max 1 (a_stacks a)) 0xFF] in
    let caster := if Z.land (a_flags a) AFLAG_CASTER =? 0 then pack_guid (a_caster a) else [] in
    if Z.land (a_flags a) AFLAG_DURATION =? 0 then Ok (head ++ sp ++ mid ++ caster)
    else
      dur ← packIs [a_maxdur_ms a; aura_remaining_ms t a];
      Ok (head ++ sp ++ mid ++ caster ++ dur).

Definition aura_positive (aura_types : list Z) : Z :=
  if existsb (fun t => bool_decide (t ∈ AURA_TYPES_NEGATIVE)) aura_types
  then AFLAG_NEGATIVE else AFLAG_POSITIVE.

(** What the log says happened. *)
Inductive combat_line :=
  | AuraOn (target spell slot : Z)
  | AuraOff (name : pystr) (slot : Z)
  | NoFreeSlot
  | Ticked (aura_type amount : Z)
  | Damage (amount : Z)
  | Healing (amount overheal : Z)
  | DamageDropped (amount : Z).

Definition held_auras (w : world) (target : Z) : aura_slots := default [] (dget target (w_auras w)).

Definition put_aura (target slot : Z) (a : aura) : M unit :=
  modify (fun w => set_w_auras (dset target (dset slot a (held_auras w target)) (w_auras w)) w).

(** [free_aura_slot]. *)
Definition find_slot (held : aura_slots) (spell_id caster : Z) : option Z :=
  match list_find (fun sa : Z * aura => a_spell (snd sa) = spell_id /\ a_caster (snd sa) = caster) held with
  | Some (_, (slot, _)) => Some slot
  | None => snd <$> list_find (fun slot => slot ∉ dkeys held) (seqZ_from ARCHIVE_MAX_AURA_SLOTS)
  end.

Definition free_aura_slot (target spell_id caster : Z) : M (option Z) :=
  modify (fun w => set_w_auras (snd (dsetdefault target [] (w_auras w))) w) ;;
  gets (fun w => find_slot (held_auras w target) spell_id caster).

Definition remove_aura (target slot : Z) : M (option combat_line) :=
  w ← get;
  match dget slot (held_auras w target) with
  | None => mret None
  | Some a =>
      modify (fun w => set_w_auras (dset target (ddel slot (held_auras w target)) (w_auras w)) w) ;;
      send_r SMSG_AURA_UPDATE (smsg_aura_update (ck_mono (w_clock w)) target a true) ;;
      mret (Some (AuraOff (a_name a) slot))
  end.

Definition ns_of_ms (n : Z) : Z := n * 1000000.

(** Who the aura lands on: a dummy, or the caster. *)
Definition aura_target (ds : list (Z * dummy)) (caster target_guid : Z) : Z :=
  let tgt := if target_guid =? 0 then caster else target_guid in
  if negb (dmem tgt ds) && negb (tgt =? caster) then caster else tgt.

Section Auras.
Context `{Env}.

(** The periodic part of one aura effect: its amount is rolled here, once. *)
Definition periodic_part (t n : Z) (e : spell_effect) : M (list tick) :=
  let atype := se_aura e in
  let period := se_amplitude e in
  if (period >? 0) && (in_harm atype || in_help atype || in_power atype) then
    v ← effect_amount e;
    let amount := Z.max 0 v in
    mret (if amount =? 0 then []
          else [Tick n atype amount (ns_of_ms period) (t + ns_of_ms period)])
  else mret [].

(** The effect loop of [apply_aura]: the mask of effect
    indices, the aura types and the periodic part. *)
Fixpoint aura_effects (t n : Z) (effects : list spell_effect) : M (Z * list Z * list tick) :=
  match effects with
  | [] => mret (0, [], [])
  | e :: effects =>
      if negb (se_effect e =? SPELL_EFFECT_APPLY_AURA) then aura_effects t (n + 1) effects
      else
        mine ← periodic_part t n e;
        rest ← aura_effects t (n + 1) effects;
        let '(mask, types, ticks) := rest in
        mret (Z.lor (Z.shiftl 1 n) mask, se_aura e :: types, mine ++ ticks)
  end.

Definition apply_aura (c : character) (info : option spell_rec) (target_guid : Z)
    : M (list combat_line) :=
  match info with
  | None => mret []
  | Some info =>
      let caster := c_guid c in
      ds ← gets w_dummies;
      let tgt := aura_target ds caster target_guid in
      t ← now;
      e ← aura_effects t 0 (si_effects info);
      let '(eff_mask, aura_types, ticks) := e in
      if eff_mask =? 0 then mret []
      else
        let dur_ms := spell_duration_ms durations (Some info) in
        let flags := Z.lor (if tgt =? caster then Z.lor eff_mask AFLAG_CASTER else eff_mask)
                       (aura_positive aura_types) in
        let flags := if (dur_ms >? 0)
                        && (Z.land (si_attributesEx5 info) SPELL_ATTR5_NO_DURATION_DISPLAY =? 0)
                     then Z.lor flags AFLAG_DURATION else flags in
        slot ← free_aura_slot tgt (si_id info) caster;
        match slot with
        | None => mret [NoFreeSlot]
        | Some slot =>
            w ← get;
            let prev := dget slot (held_auras w tgt) in
            let stacks :=
              match prev with
              | Some p => if a_spell p =? si_id info then
                            if si_stackAmount info =? 0 then 1
                            else Z.min (si_stackAmount info) (a_stacks p + 1)
                          else 1
              | None => 1
              end in
            let a := Aura (si_id info) (match si_name info with [] => lit "?" | n => n end) slot
                       caster tgt flags (Z.max 1 (c_level c)) stacks dur_ms (si_schoolMask info)
                       (if negb (Z.land flags AFLAG_DURATION =? 0) then Some (t + ns_of_ms dur_ms) else None)
                       ticks in
            put_aura tgt slot a ;;
            send_r SMSG_AURA_UPDATE (smsg_aura_update t tgt a false) ;;
            mret [AuraOn tgt (si_id info) slot]
        end
  end.

(** *** What a tick or an effect does to its target *)

(** Damage to a dummy or to the player (the branches of
    [aura_periodic_apply] and [apply_spell_effects]): [log] builds the packet from the overkill. *)
Definition hurt_dummy (guid amount : Z) (d : dummy) (opcode : Z) (log : Z -> res bytes) : M unit :=
  t ← now;
  let over := Z.max 0 (amount - d_hp d) in
  let d := set_d_hit t (set_d_hp (Z.max 0 (d_hp d - amount)) d) in
  put_dummy guid d ;;
  send_r opcode (log over) ;;
  send_dummy_health guid d.

Definition hurt_self (c : character) (amount opcode : Z) (log : Z -> res bytes) : M unit :=
  st ← unit_state c;
  let over := Z.max 0 (amount - u_hp st) in
  put_unit (c_guid c) (UnitSt (Z.max 0 (u_hp st - amount)) (u_power st)) ;;
  send_r opcode (log over) ;;
  send_power_update c.

(** Healing; [log] is given what did not fit. *)
Definition heal_dummy (guid amount : Z) (d : dummy) (opcode : Z) (log : Z -> res bytes) : M Z :=
  let healed := Z.min amount (d_maxhp d - d_hp d) in
  let d := set_d_hp (d_hp d + healed) d in
  put_dummy guid d ;;
  send_r opcode (log (amount - healed)) ;;
  send_dummy_health guid d ;;
  mret (amount - healed).

Definition heal_self (c : character) (amount opcode : Z) (log : Z -> res bytes) : M Z :=
  st ← unit_state c;
  let healed := Z.min amount (fst (max_pools c) - u_hp st) in
  put_unit (c_guid c) (UnitSt (u_hp st + healed) (u_power st)) ;;
  send_r opcode (log (amount - healed)) ;;
  send_power_update c ;;
  mret (amount - healed).

Definition aura_periodic_apply (c : character) (a : aura) (tk : tick) : M (option combat_line) :=
  let caster := a_caster a in
  let tgt := a_target a in
  let amount := t_amount tk in
  let atype := t_aura tk in
  let log over := smsg_periodic_aura_log tgt caster (a_spell a) atype amount over (a_school a) in
  dummy ← gets (fun w => dget tgt (w_dummies w));
  if in_help atype then
    match dummy with
    | Some d => heal_dummy tgt amount d SMSG_PERIODICAURALOG log ;; mret (Some (Ticked atype amount))
    | None => heal_self c amount SMSG_PERIODICAURALOG log ;; mret (Some (Ticked atype amount))
    end
  else if in_harm atype then
    match dummy with
    | Some d => hurt_dummy tgt amount d SMSG_PERIODICAURALOG log ;; mret (Some (Ticked atype amount))
    | None => hurt_self c amount SMSG_PERIODICAURALOG log ;; mret (Some (Ticked atype amount))
    end
  else if in_power atype then
    st ← unit_state c;
    let gained := Z.min amount (snd (max_pools c) - u_power st) in
    put_unit (c_guid c) (UnitSt (u_hp st) (u_power st + gained)) ;;
    send_r SMSG_PERIODICAURALOG (log 0) ;;
    send_power_update c ;;
    mret (Some (Ticked atype gained))
  else mret None.

(** *** The clock *)

Definition set_t_next (n : Z) (tk : tick) : tick :=
  Tick (t_index tk) (t_aura tk) (t_amount tk) (t_period tk) n.

Definition set_a_next (i : nat) (n : Z) (a : aura) : aura :=
  Aura (a_spell a) (a_name a) (a_slot a) (a_caster a) (a_target a) (a_flags a) (a_level a)
    (a_stacks a) (a_maxdur_ms a) (a_school a) (a_expires a) (alter (set_t_next n) i (a_ticks a)).

(** [tick["next"] = n] on the [i]-th tick of the aura held in a slot. *)
Definition store_next (target slot : Z) (i : nat) (n : Z) : M unit :=
  w ← get;
  match dget slot (held_auras w target) with
  | None => mret tt
  | Some a =>
      put_aura target slot (set_a_next i n a)
  end.

(** The tick is due: [while tick["next"] <= now], with its [break]. *)
Definition due (t : Z) (a : aura) (tk : tick) : bool :=
  (t_next tk <=? t)
  && negb (match a_expires a with Some x => t_next tk >? x | None => false end).

Fixpoint catch_up (fuel : nat) (c : character) (t target slot : Z) (a : aura) (i : nat) (tk : tick)
    : M (list combat_line) :=
  if due t a tk then
    match fuel with
    | O => lift (Err OutOfFuel)
    | S fuel =>
        line ← aura_periodic_apply c a tk;
        let n := t_next tk + t_period tk in
        store_next target slot i n ;;
        rest ← catch_up fuel c t target slot a i (set_t_next n tk);
        mret (match line with Some l => l :: rest | None => rest end)
    end
  else mret [].

(** Rounds the loop can make at most. *)
Definition rounds (t : Z) (tk : tick) : nat := Z.to_nat ((t - t_next tk) / t_period tk + 1).

Fixpoint tick_all (c : character) (t target slot : Z) (a : aura) (i : nat) (ticks : list tick)
    : M (list combat_line) :=
  match ticks with
  | [] => mret []
  | tk :: ticks =>
      l1 ← catch_up (rounds t tk) c t target slot a i tk;
      l2 ← tick_all c t target slot a (S i) ticks;
      mret (l1 ++ l2)
  end.

(** One aura: its ticks, then its end. *)
Definition tick_aura (c : character) (t target : Z) (sa : Z * aura) : M (list combat_line) :=
  let '(slot, a) := sa in
  l ← tick_all c t target slot a 0 (a_ticks a);
  match a_expires a with
  | Some x =>
      if x <=? t then
        line ← remove_aura target slot;
        mret (match line with Some m => l ++ [m] | None => l end)
      else mret l
  | None => mret l
  end.

Definition tick_target (c : character) (t target : Z) : M (list combat_line) :=
  held ← gets (fun w => held_auras w target);
  foldM (fun acc sa => l ← tick_aura c t target sa; mret (acc ++ l)) [] held.

Definition aura_tick (c : character) : M (list combat_line) :=
  t ← now;
  last ← gets w_aura_last;
  if t - last <? ARCHIVE_AURA_TICK_MIN then mret []
  else
    modify (set_w_aura_last t) ;;
    targets ← gets (fun w => dkeys (w_auras w));
    foldM (fun acc target => l ← tick_target c t target; mret (acc ++ l)) [] targets.

(** ** The effects of a cast *)

(** One round of the loop of [apply_spell_effects]. *)
Definition apply_effect (c : character) (info : spell_rec) (target_guid : Z)
    (aura_done : bool) (e : spell_effect) : M (bool * list combat_line) :=
  let caster := c_guid c in
  let eff := se_effect e in
  if eff =? SPELL_EFFECT_SCHOOL_DAMAGE then
    v ← effect_amount e;
    let amount := Z.max 0 v in
    if amount =? 0 then mret (aura_done, [])
    else
      dummy ← gets (fun w => dget target_guid (w_dummies w));
      let log tgt over := smsg_spell_damage_log tgt caster (si_id info) amount over (si_schoolMask info) in
      match dummy with
      | Some d =>
          hurt_dummy target_guid amount d SMSG_SPELLNONMELEEDAMAGELOG (log target_guid) ;;
          mret (aura_done, [Damage amount])
      | None =>
          if target_guid =? caster then
            hurt_self c amount SMSG_SPELLNONMELEEDAMAGELOG (log caster) ;;
            mret (aura_done, [Damage amount])
          else mret (aura_done, [DamageDropped amount])
      end
  else if eff =? SPELL_EFFECT_APPLY_AURA then
    if aura_done then mret (aura_done, [])
    else l ← apply_aura c (Some info) target_guid; mret (true, l)
  else if eff =? SPELL_EFFECT_HEAL then
    v ← effect_amount e;
    let amount := Z.max 0 v in
    if amount =? 0 then mret (aura_done, [])
    else
      dummy ← gets (fun w => dget target_guid (w_dummies w));
      let log tgt over := smsg_spell_heal_log tgt caster (si_id info) amount over in
      match dummy with
      | Some d =>
          over ← heal_dummy target_guid amount d SMSG_SPELLHEALLOG (log target_guid);
          mret (aura_done, [Healing amount over])
      | None =>
          over ← heal_self c amount SMSG_SPELLHEALLOG (log caster);
          mret (aura_done, [Healing amount over])
      end
  else mret (aura_done, []).

Definition apply_spell_effects (c : character) (info : option spell_rec) (target_guid : Z)
    : M (list combat_line) :=
  match info with
  | None => mret []
  | Some info =>
      r ← foldM (fun '(aura_done, out) e =>
                   x ← apply_effect c info target_guid aura_done e;
                   mret (fst x, out ++ snd x)) (false, []) (si_effects info);
      mret (snd r)
  end.
End Auras.

(** ** Casting *)

Definition parse_cmsg_cast_spell (body : bytes) : res (Z * Z * Z * bytes) :=
  if pylen body <? 6 then Ok (0, 0, 0, [])
  else
    n ← index body 0;
    s ← unpackI body 1;
    f ← index body 5;
    Ok (n, s, f, slice_from 6 body).

(** [smsg_spell_go]; [ms] is the wall clock in milliseconds, masked. *)
Definition smsg_spell_go (ms : Z) (c : character) (cast_count spell_id : Z) (targets : bytes)
    (hit_guid : Z) : res bytes :=
  let guid := c_guid c in
  let pg := pack_guid guid in
  s ← packI spell_id;
  t ← packI ms;
  h ← packQ (if hit_guid =? 0 then guid else hit_guid);
  Ok (pg ++ pg ++ [Z.land cast_count 0xFF] ++ s ++ le 4 CAST_FLAG_UNKNOWN_9 ++ t
      ++ ([1] ++ h) ++ [0] ++ match targets with [] => le 4 TARGET_FLAG_NONE | _ => targets end).

Definition smsg_cast_failed (cast_count spell_id result : Z) : res bytes :=
  s ← packI spell_id; Ok ([Z.land cast_count 0xFF] ++ s ++ [Z.land result 0xFF]).

(** ** The invariant *)

Definition unit_ok (st : unit_st) : Prop := 0 <= u_hp st /\ 0 <= u_power st.
Definition dummy_ok (d : dummy) : Prop := 0 <= d_hp d <= d_maxhp d.
Definition tick_ok (tk : tick) : Prop := 0 < t_amount tk /\ 0 < t_period tk.

Definition same_aura (a b : aura) : Prop := a_spell a = a_spell b /\ a_caster a = a_caster b.

(** An aura is stored under its target and slot, the frame has 56 slots, and
    a spell of one caster occupies at most one of them. *)
Definition aura_ok (target slot : Z) (a : aura) : Prop :=
  a_slot a = slot /\ a_target a = target /\ 0 <= slot < ARCHIVE_MAX_AURA_SLOTS
  /\ Forall tick_ok (a_ticks a).

Definition held_ok (target : Z) (held : aura_slots) : Prop :=
  dict_ok held
  /\ (forall slot a, (slot, a) ∈ held -> aura_ok target slot a)
  /\ (forall s1 a1 s2 a2, (s1, a1) ∈ held -> (s2, a2) ∈ held -> same_aura a1 a2 -> s1 = s2).

Record combat_ok (w : world) : Prop := {
  co_units : Forall (fun gu => unit_ok (snd gu)) (w_units w);
  co_dummies : Forall (fun gd => dummy_ok (snd gd)) (w_dummies w);
  co_auras : dict_ok (w_auras w);
  co_held : forall target held, (target, held) ∈ w_auras w -> held_ok target held;
}.

Lemma held_ok_nil target : held_ok target [].
Proof.
  split; [apply dict_ok_nil|]. split; [by intros ?? []%not_elem_of_nil|].
  by intros ???? []%not_elem_of_nil.
Qed.

Lemma combat_held w target : combat_ok w -> held_ok target (held_auras w target).
Proof.
  intros Hw. unfold held_auras. destruct (dget target (w_auras w)) as [h|] eqn:E; [|apply held_ok_nil].
  apply dget_elem_of in E. by apply (co_held w Hw).
Qed.

Lemma combat_put_held w target held :
  combat_ok w -> held_ok target held ->
  combat_ok (set_w_auras (dset target held (w_auras w)) w).
Proof.
  intros [Hu Hd Ha Hh] Hk. constructor; cbn; [done|done|by apply dict_ok_dset|].
  intros t h [[-> ->]|Hin]%dset_elem_of; [done | auto].
Qed.

Lemma combat_put_unit w guid st :
  combat_ok w -> unit_ok st -> combat_ok (set_w_units (dset guid st (w_units w)) w).
Proof. intros [Hu Hd Ha Hh] Hs. constructor; cbn; try done. by apply Forall_dset. Qed.

Lemma combat_put_dummy w guid d :
  combat_ok w -> dummy_ok d -> combat_ok (set_w_dummies (dset guid d (w_dummies w)) w).
Proof. intros [Hu Hd Ha Hh] Hs. constructor; cbn; try done. by apply Forall_dset. Qed.

Lemma keeps_combat_send o b : keeps combat_ok (send_pkt o b).
Proof. apply keeps_send_pkt. by intros w out [? ? ? ?]. Qed.

Lemma keeps_combat_send_r o b : keeps combat_ok (send_r o b).
Proof. apply keeps_send_r. by intros w out [? ? ? ?]. Qed.

Lemma max_pools_pos c : 60 <= fst (max_pools c) /\ 60 <= snd (max_pools c).
Proof.
  unfold max_pools, ARCHIVE_POOL_BASE, ARCHIVE_HEALTH_PER_LEVEL, ARCHIVE_MANA_PER_LEVEL,
    ARCHIVE_FIXED_POWER. destruct (negb _); cbn [fst snd]; lia.
Qed.

Lemma combat_unit w guid st : combat_ok w -> dget guid (w_units w) = Some st -> unit_ok st.
Proof.
  intros Hw E. apply dget_elem_of in E. pose proof (co_units w Hw) as Hu.
  rewrite Forall_forall in Hu. apply (Hu _ E).
Qed.

Lemma combat_dummy w guid d : combat_ok w -> dget guid (w_dummies w) = Some d -> dummy_ok d.
Proof.
  intros Hw E. apply dget_elem_of in E. pose proof (co_dummies w Hw) as Hu.
  rewrite Forall_forall in Hu. apply (Hu _ E).
Qed.

Definition full_ok (c : character) (st : unit_st) : Prop :=
  0 <= u_hp st <= fst (max_pools c) /\ 0 <= u_power st <= snd (max_pools c).

Lemma unit_state_run c w :
  exists st, unit_state c w = (Ok st, set_w_units (dset (c_guid c) st (w_units w)) w)
    /\ st = (let '(hp, mp) := max_pools c in
             let st := default (UnitSt hp mp) (dget (c_guid c) (w_units w)) in
             UnitSt (Z.min (u_hp st) hp) (Z.min (u_power st) mp))
    /\ (combat_ok w -> full_ok c st).
Proof.
  unfold unit_state. m_run. pose proof (max_pools_pos c) as [H1 H2]. unfold full_ok.
  destruct (max_pools c) as [hp mp]. cbn [fst snd] in *. m_run. eexists. split; [reflexivity|].
  split; [done|]. intros Hw. cbn.
  destruct (dget (c_guid c) (w_units w)) as [st|] eqn:E; cbn; [|lia].
  destruct (combat_unit _ _ _ Hw E). lia.
Qed.

Lemma keeps_unit_state {A} c (f : unit_st -> M A) :
  (forall st, full_ok c st -> keeps combat_ok (f st)) -> keeps combat_ok (unit_state c ≫= f).
Proof.
  intros Hf. apply (keeps_bind_val _ (full_ok c)); [|exact Hf].
  intros w Hw. destruct (unit_state_run c w) as (st & -> & _ & Hst). specialize (Hst Hw). split.
  - apply combat_put_unit; [done|]. unfold full_ok, unit_ok in *. lia.
  - by intros a [= <-].
Qed.

Lemma keeps_put_unit guid st : unit_ok st -> keeps combat_ok (put_unit guid st).
Proof. intros Hs. apply keeps_modify. intros w Hw. by apply combat_put_unit. Qed.

Lemma keeps_put_dummy guid d : dummy_ok d -> keeps combat_ok (put_dummy guid d).
Proof. intros Hs. apply keeps_modify. intros w Hw. by apply combat_put_dummy. Qed.

Lemma keeps_gets_dummy {A} guid (f : option dummy -> M A) :
  (forall o, (forall d, o = Some d -> dummy_ok d) -> keeps combat_ok (f o)) ->
  keeps combat_ok (gets (fun w => dget guid (w_dummies w)) ≫= f).
Proof.
  intros Hf. apply (keeps_bind_val _ (fun o => forall d, o = Some d -> dummy_ok d)); [|exact Hf].
  intros w Hw. split; [done|]. intros o [= <-] d Hd. by eapply combat_dummy.
Qed.

#[export] Hint Resolve keeps_combat_send keeps_combat_send_r keeps_put_unit keeps_put_dummy : keeps.

Ltac combat_step :=
  first
    [ apply keeps_unit_state; intros ? ?
    | apply keeps_gets_dummy; intros ? ?
    | keep_step ].

Lemma keeps_send_power_update c : keeps combat_ok (send_power_update c).
Proof. unfold send_power_update. repeat combat_step. Qed.
#[export] Hint Resolve keeps_send_power_update : keeps.

Lemma keeps_regen_tick c : keeps combat_ok (regen_tick c).
Proof.
  unfold regen_tick. apply keeps_unit_state. intros st [? ?]. cbv zeta.
  case_match; [auto with keeps|].
  apply (keeps_bind_val _ (fun n => 1 <= n)).
  - intros w Hw. split; [done|]. intros n. unfold regen_amount. cbn. intros E. inv_binds E.
    apply Ok_inj in E. lia.
  - intros n Hn. apply keeps_bind; [|intros; repeat combat_step].
    apply keeps_put_unit. pose proof (max_pools_pos c). unfold unit_ok. cbn. lia.
Qed.

Section Invariant.
Context `{Env}.

Lemma keeps_roll lo hi : keeps combat_ok (roll lo hi).
Proof.
  unfold roll. keep. apply keeps_modify. by intros w [? ? ? ?].
Qed.

Lemma keeps_effect_amount e : keeps combat_ok (effect_amount e).
Proof. unfold effect_amount. pose proof keeps_roll. keep. Qed.

Lemma keeps_spawn_dummy c display dist scale : keeps combat_ok (spawn_dummy c display dist scale).
Proof.
  unfold spawn_dummy. apply keeps_bind; [apply keeps_modify; by intros w [? ? ? ?]|]. intros _.
  apply keeps_bind; [auto with keeps|]. intros seq. cbv zeta.
  apply keeps_bind; [|intros; keep]. apply keeps_put_dummy. unfold dummy_ok. cbn.
  unfold ARCHIVE_DUMMY_HEALTH. lia.
Qed.

Lemma keeps_despawn_dummies : keeps combat_ok despawn_dummies.
Proof.
  unfold despawn_dummies, despawn_one. keep. apply keeps_modify. intros w [Hu Hd Ha Hh].
  constructor; cbn; try done. by apply Forall_ddel.
Qed.

Lemma keeps_dummy_tick : keeps combat_ok dummy_tick.
Proof.
  unfold dummy_tick. apply keeps_bind; [auto with keeps|]. intros t.
  apply (keeps_bind_val _ (Forall (fun gd => dummy_ok (snd gd)))).
  { intros w Hw. split; [done|]. intros ds [= <-]. apply Hw. }
  intros ds Hds. apply keeps_mapM_. intros [guid d] Hin. rewrite Forall_forall in Hds.
  specialize (Hds _ Hin). unfold dummy_ok in Hds. cbn in Hds.
  case_match; [|auto with keeps]. unfold send_dummy_health.
  apply keeps_bind; [|intros; keep]. apply keeps_put_dummy. unfold dummy_ok. cbn. lia.
Qed.

Lemma keeps_hurt_dummy guid amount d o log :
  0 < amount -> dummy_ok d -> keeps combat_ok (hurt_dummy guid amount d o log).
Proof.
  intros Ha Hd. unfold dummy_ok in Hd. unfold hurt_dummy, send_dummy_health.
  apply keeps_bind; [auto with keeps|]. intros t. cbv zeta.
  apply keeps_bind; [|intros; keep]. apply keeps_put_dummy. unfold dummy_ok. cbn. lia.
Qed.

Lemma keeps_hurt_self c amount o log : 0 < amount -> keeps combat_ok (hurt_self c amount o log).
Proof.
  intros Ha. unfold hurt_self. apply keeps_unit_state. intros st [? ?]. cbv zeta.
  apply keeps_bind; [|intros; keep]. apply keeps_put_unit. unfold unit_ok. cbn. lia.
Qed.

Lemma keeps_heal_dummy guid amount d o log :
  0 < amount -> dummy_ok d -> keeps combat_ok (heal_dummy guid amount d o log).
Proof.
  intros Ha Hd. unfold dummy_ok in Hd. unfold heal_dummy, send_dummy_health. cbv zeta.
  apply keeps_bind; [|intros; keep]. apply keeps_put_dummy. unfold dummy_ok. cbn. lia.
Qed.

Lemma keeps_heal_self c amount o log : 0 < amount -> keeps combat_ok (heal_self c amount o log).
Proof.
  intros Ha. unfold heal_self. apply keeps_unit_state. intros st [? ?]. cbv zeta.
  apply keeps_bind; [|intros; keep]. apply keeps_put_unit. unfold unit_ok. cbn. lia.
Qed.
#[local] Hint Resolve keeps_hurt_dummy keeps_hurt_self keeps_heal_dummy keeps_heal_self
  keeps_effect_amount : keeps.

Lemma keeps_periodic_apply c a tk : tick_ok tk -> keeps combat_ok (aura_periodic_apply c a tk).
Proof.
  intros [Ha Hp]. unfold aura_periodic_apply. cbv zeta. apply keeps_gets_dummy. intros o Ho.
  destruct (in_help _); [destruct o; keep|]. destruct (in_harm _); [destruct o; keep|].
  destruct (in_power _); [|auto with keeps]. apply keeps_unit_state. intros st [? ?].
  apply keeps_bind; [|intros; keep]. apply keeps_put_unit. unfold unit_ok. cbn. lia.
Qed.
End Invariant.

(** ** Slots *)

Lemma find_slot_spec target held spell_id caster :
  held_ok target held ->
  match find_slot held spell_id caster with
  | Some slot =>
      0 <= slot < ARCHIVE_MAX_AURA_SLOTS
      /\ match dget slot held with
         | Some a => a_spell a = spell_id /\ a_caster a = caster
         | None => (forall s a, (s, a) ∈ held -> ~ (a_spell a = spell_id /\ a_caster a = caster))
             /\ forall i, 0 <= i < slot -> dmem i held = true
         end
  | None =>
      (forall i, 0 <= i < ARCHIVE_MAX_AURA_SLOTS -> dmem i held = true)
      /\ forall s a, (s, a) ∈ held -> ~ (a_spell a = spell_id /\ a_caster a = caster)
  end.
Proof.
  intros (Hd & Hok & _). unfold find_slot.
  assert (Hmem : forall i, i ∈ dkeys held -> dmem i held = true).
  { intros i Hi. unfold dmem. destruct (dget i held) eqn:E; [done|]. by apply dget_None_keys in E. }
  assert (Hidx : forall j i, seqZ_from ARCHIVE_MAX_AURA_SLOTS !! j = Some i -> i = Z.of_nat j).
  { intros j i. unfold seqZ_from. rewrite list_lookup_fmap_Some.
    intros (x & -> & Hx%lookup_seq). lia. }
  destruct (list_find _ held) as [[n [slot a]]|] eqn:E.
  - apply list_find_Some in E as (Hn & Hm & _). cbn in Hm. apply list_elem_of_lookup_2 in Hn.
    rewrite (elem_of_dget _ _ _ Hd Hn). split; [|done]. apply (Hok slot a Hn).
  - apply list_find_None in E. rewrite Forall_forall in E.
    assert (Hno : forall s a, (s, a) ∈ held -> ~ (a_spell a = spell_id /\ a_caster a = caster))
      by (intros s a Hin; exact (E _ Hin)).
    destruct (list_find (fun slot => slot ∉ dkeys held) _) as [[n slot]|] eqn:E2;
      cbn [fmap option_fmap option_map snd].
    + apply list_find_Some in E2 as (Hn & Hfree & Hmin). split.
      * apply list_elem_of_lookup_2, elem_of_seqZ_from in Hn. exact Hn.
      * rewrite (proj2 (dget_None_keys _ _) Hfree). split; [exact Hno|].
        intros i Hi. apply Hmem. destruct (decide (i ∈ dkeys held)) as [|Hni]; [done|]. exfalso.
        pose proof (Hidx _ _ Hn) as ->.
        apply list_elem_of_lookup_2, elem_of_seqZ_from in Hn as Hr.
        assert (i ∈ seqZ_from ARCHIVE_MAX_AURA_SLOTS) as Hi2 by (apply elem_of_seqZ_from; lia).
        apply list_elem_of_lookup_1 in Hi2 as [j Hj]. pose proof (Hidx _ _ Hj) as ->.
        apply (Hmin j (Z.of_nat j) Hj); [lia | done].
    + apply list_find_None in E2. rewrite Forall_forall in E2. split; [|exact Hno].
      intros i Hi. apply Hmem. destruct (decide (i ∈ dkeys held)) as [|Hni]; [done|]. exfalso.
      apply (E2 i); [by apply elem_of_seqZ_from | done].
Qed.

Lemma held_ok_dset target held slot a :
  held_ok target held -> aura_ok target slot a ->
  (forall s b, (s, b) ∈ held -> same_aura a b -> s = slot) ->
  held_ok target (dset slot a held).
Proof.
  intros (Hd & Hok & Hs) Ha Hu. split; [by apply dict_ok_dset|]. split.
  - intros s b [[-> ->]|Hin]%dset_elem_of; [done|auto].
  - intros s1 a1 s2 a2 [[-> ->]|H1]%dset_elem_of [[-> ->]|H2]%dset_elem_of Hsame; [done| | |eauto].
    + symmetry. eauto.
    + apply (Hu _ _ H1). destruct Hsame. by split.
Qed.

Lemma held_ok_ddel target held slot : held_ok target held -> held_ok target (ddel slot held).
Proof.
  intros (Hd & Hok & Hs). split; [by apply dict_ok_ddel|]. split.
  - intros s b Hin%ddel_elem_of. auto.
  - intros s1 a1 s2 a2 H1%ddel_elem_of H2%ddel_elem_of. eauto.
Qed.

Definition aura_off_body (target : Z) (a : aura) : bytes :=
  pack_guid target ++ [Z.land (a_slot a) 0xFF] ++ le 4 0.

Lemma remove_aura_run w target slot a :
  dget slot (held_auras w target) = Some a ->
  remove_aura target slot w
  = (Ok (Some (AuraOff (a_name a) slot)),
     set_w_out (w_out w ++ [(SMSG_AURA_UPDATE, aura_off_body target a)])
       (set_w_auras (dset target (ddel slot (held_auras w target)) (w_auras w)) w)).
Proof.
  intros E. unfold remove_aura. m_run. rewrite E. m_run.
  assert (smsg_aura_update (ck_mono (w_clock w)) target a true = Ok (aura_off_body target a)) as ->
    by (unfold smsg_aura_update, aura_off_body; by rewrite <- app_assoc).
  by rewrite (run_send_r _ (Ok _) _ _ eq_refl).
Qed.

Lemma keeps_remove_aura target slot : keeps combat_ok (remove_aura target slot).
Proof.
  intros w Hw. unfold remove_aura. m_run. destruct (dget slot (held_auras w target)) as [a|]; [|done].
  assert (keeps combat_ok
    (modify (fun w => set_w_auras (dset target (ddel slot (held_auras w target)) (w_auras w)) w) ;;
     send_r SMSG_AURA_UPDATE (smsg_aura_update (ck_mono (w_clock w)) target a true) ;;
     mret (Some (AuraOff (a_name a) slot)))) as Hk; [|by apply Hk].
  keep. apply keeps_modify. intros w' Hw'. apply combat_put_held; [done|].
  apply held_ok_ddel, combat_held, Hw'.
Qed.

Section AuraInvariant.
Context `{Env}.

Lemma aura_effects_spec t n effects w :
  combat_ok w ->
  combat_ok (snd (aura_effects t n effects w))
  /\ forall r, fst (aura_effects t n effects w) = Ok r -> Forall tick_ok (snd r).
Proof.
  revert n w. induction effects as [|e effects IH]; intros n w Hw; cbn [aura_effects].
  - m_run. split; [done|]. intros r [= <-]. constructor.
  - destruct (negb _); [by apply IH|].
    set (mine := periodic_part t n e).
    assert (combat_ok (snd (mine w)) /\ forall l, fst (mine w) = Ok l -> Forall tick_ok l) as [Hm1 Hm2].
    { unfold mine, periodic_part. cbv zeta. destruct ((se_amplitude e >? 0) && _) eqn:E.
      - zbool. m_run. pose proof (keeps_effect_amount e w Hw) as Hk.
        destruct (effect_amount e w) as [[v|x] w1]; m_run; [|split; [done|by intros ? [=]]].
        split; [done|]. intros l [= <-]. destruct (Z.eqb_spec (Z.max 0 v) 0); [constructor|].
        apply Forall_singleton. split; cbn; unfold ns_of_ms; lia.
      - m_run. split; [done|]. intros l [= <-]. constructor. }
    m_run. destruct (mine w) as [[l|x] w1]; [|split; [done|by intros ? [=]]]. cbn in Hm1, Hm2.
    m_run. destruct (IH (n + 1) w1 Hm1) as [Hr1 Hr2].
    destruct (aura_effects t (n + 1) effects w1) as [[[[mask types] ticks]|x] w2];
      [|split; [done|by intros ? [=]]].
    m_run. split; [done|]. intros r [= <-]. cbn. apply Forall_app. split; [by apply Hm2|].
    by apply (Hr2 _ eq_refl).
Qed.

Lemma aura_effects_auras t n effects A :
  keeps (fun w => w_auras w = A) (aura_effects t n effects).
Proof.
  revert n. induction effects as [|e effects IH]; intros n; cbn [aura_effects]; [apply keeps_ret|].
  destruct (negb _); [apply IH|]. apply keeps_bind; [|intros; apply keeps_bind; [apply IH|]].
  - unfold periodic_part, effect_amount, roll. cbv zeta. keep; by apply keeps_modify.
  - intros [[mask types] ticks]. keep.
Qed.

(** What [apply_aura] does once the slot is known. *)
Lemma combat_put_aura w target slot a :
  combat_ok w -> aura_ok target slot a ->
  find_slot (held_auras w target) (a_spell a) (a_caster a) = Some slot ->
  combat_ok (set_w_auras (dset target (dset slot a (held_auras w target)) (w_auras w)) w).
Proof.
  intros Hw Ha Hf. pose proof (combat_held w target Hw) as Hh.
  apply combat_put_held; [done|]. apply held_ok_dset; [done|done|].
  intros s b Hin [Hs1 Hs2]. pose proof (find_slot_spec target _ (a_spell a) (a_caster a) Hh) as Hsp.
  rewrite Hf in Hsp. destruct Hsp as [_ Hsp]. destruct Hh as (Hd & Hok & Huniq).
  destruct (dget slot (held_auras w target)) as [b'|] eqn:E.
  - apply dget_elem_of in E. eapply Huniq; [exact Hin|exact E|]. unfold same_aura. naive_solver congruence.
  - destruct Hsp as [Hno _]. destruct (Hno _ _ Hin). done.
Qed.

Lemma held_setdefault w target t :
  held_auras (set_w_auras (snd (dsetdefault target [] (w_auras w))) w) t = held_auras w t.
Proof.
  unfold held_auras, dsetdefault. cbn. destruct (dget target (w_auras w)) eqn:E; [done|]. cbn.
  rewrite dget_dset. case_decide; [|done]. subst. by rewrite E.
Qed.

Lemma combat_setdefault w target :
  combat_ok w -> combat_ok (set_w_auras (snd (dsetdefault target [] (w_auras w))) w).
Proof.
  intros Hw. unfold dsetdefault. destruct (dget target (w_auras w)); [by destruct w, Hw|].
  apply combat_put_held; [done|apply held_ok_nil].
Qed.

Lemma keeps_apply_aura c info target : keeps combat_ok (apply_aura c info target).
Proof.
  unfold apply_aura. destruct info as [info|]; [|apply keeps_ret]. cbv zeta.
  apply keeps_bind; [auto with keeps|]. intros ds. apply keeps_bind; [auto with keeps|]. intros t.
  set (tgt := aura_target ds (c_guid c) target).
  apply (keeps_bind_val _ (fun r => Forall tick_ok (snd r))).
  { intros w Hw. apply (aura_effects_spec t 0 (si_effects info) w Hw). }
  intros [[mask types] ticks] Ht. cbn [snd] in Ht.
  destruct (mask =? 0); [apply keeps_ret|].
  intros w Hw. unfold free_aura_slot. m_run.
  set (w1 := set_w_auras _ w). assert (combat_ok w1) as Hw1 by by apply combat_setdefault.
  destruct (find_slot (held_auras w1 tgt) (si_id info) (c_guid c)) as [slot|] eqn:Ef; [|by m_run].
  m_run. unfold put_aura. m_run. set (a := Aura _ _ _ _ _ _ _ _ _ _ _ _).
  assert (combat_ok (set_w_auras (dset tgt (dset slot a (held_auras w1 tgt)) (w_auras w1)) w1)) as Hw2.
  { apply combat_put_aura; [done| |exact Ef].
    pose proof (find_slot_spec tgt _ (si_id info) (c_guid c) (combat_held w1 tgt Hw1)) as Hsp.
    rewrite Ef in Hsp. exact (conj eq_refl (conj eq_refl (conj (proj1 Hsp) Ht))). }
  pose proof (keeps_combat_send_r SMSG_AURA_UPDATE (smsg_aura_update t tgt a false) _ Hw2) as Hs.
  by destruct (send_r _ _ _) as [[[]|x] w2].
Qed.

Lemma keeps_store_next target slot i n : keeps combat_ok (store_next target slot i n).
Proof.
  intros w Hw. unfold store_next. m_run.
  destruct (dget slot (held_auras w target)) as [a|] eqn:E; [|done]. unfold put_aura. m_run. cbn [snd].
  pose proof (combat_held w target Hw) as Hh. apply combat_put_held; [done|].
  apply dget_elem_of in E. destruct Hh as (Hd & Hok & Hu).
  apply held_ok_dset; [done| |].
  - destruct (Hok _ _ E) as (H1 & H2 & H3 & H4). split; [done|]. split; [done|]. split; [done|]. cbn.
    apply Forall_alter; [done|]. intros tk _ Htk. exact Htk.
  - intros s b Hin [Hs1 Hs2]. eapply Hu; [exact Hin|exact E|]. by split.
Qed.
#[local] Hint Resolve keeps_store_next keeps_remove_aura keeps_apply_aura : keeps.

Lemma keeps_catch_up fuel c t target slot a i tk :
  tick_ok tk -> keeps combat_ok (catch_up fuel c t target slot a i tk).
Proof.
  revert tk. induction fuel as [|fuel IH]; intros tk Htk; cbn [catch_up]; case_match;
    try (apply keeps_ret || apply keeps_lift).
  apply keeps_bind; [by apply keeps_periodic_apply|]. intros line.
  apply keeps_bind; [auto with keeps|]. intros _. apply keeps_bind; [|intros; keep].
  apply IH. exact Htk.
Qed.

Lemma keeps_tick_all c t target slot a i ticks :
  Forall tick_ok ticks -> keeps combat_ok (tick_all c t target slot a i ticks).
Proof.
  intros Hl. revert i. induction Hl as [|tk ticks Htk Hl IH]; intros i; cbn [tick_all];
    [apply keeps_ret|].
  apply keeps_bind; [by apply keeps_catch_up|]. intros l1. apply keeps_bind; [done|]. intros l2. keep.
Qed.

Lemma keeps_tick_aura c t target slot a :
  Forall tick_ok (a_ticks a) -> keeps combat_ok (tick_aura c t target (slot, a)).
Proof.
  intros Ht. unfold tick_aura. apply keeps_bind; [by apply keeps_tick_all|]. intros l1. keep.
Qed.

Lemma keeps_aura_tick c : keeps combat_ok (aura_tick c).
Proof.
  unfold aura_tick. apply keeps_bind; [auto with keeps|]. intros t.
  apply keeps_bind; [auto with keeps|]. intros last. case_match; [apply keeps_ret|].
  apply keeps_bind; [apply keeps_modify; by intros w [? ? ? ?]|]. intros _.
  apply keeps_bind; [auto with keeps|]. intros targets. apply keeps_foldM. intros acc target.
  apply keeps_bind; [|intros; keep]. unfold tick_target.
  apply (keeps_bind_val _ (held_ok target)).
  { intros w Hw. split; [done|]. intros h [= <-]. by apply combat_held. }
  intros held (_ & Hok & _).
  assert (Hin : forall l acc, (forall sa, sa ∈ l -> sa ∈ held) ->
    keeps combat_ok (foldM (fun acc sa => l ← tick_aura c t target sa; mret (acc ++ l)) acc l)).
  { intros l. induction l as [|[slot a] l IH]; intros acc' Hsub; [apply keeps_ret|]. cbn [foldM].
    apply keeps_bind; [|intros; apply IH; intros; apply Hsub; by right].
    apply keeps_bind; [|intros; keep]. apply keeps_tick_aura, (Hok slot a), Hsub. left. }
  by apply Hin.
Qed.

Lemma keeps_apply_spell_effects c info target : keeps combat_ok (apply_spell_effects c info target).
Proof.
  unfold apply_spell_effects. destruct info as [info|]; [|apply keeps_ret].
  apply keeps_bind; [|intros; keep]. apply keeps_foldM. intros [done out] e.
  apply keeps_bind; [|intros; keep]. unfold apply_effect. cbv zeta.
  destruct (_ =? SPELL_EFFECT_SCHOOL_DAMAGE).
  { apply keeps_bind; [apply keeps_effect_amount|]. intros v. destruct (Z.eqb_spec (Z.max 0 v) 0); [keep|].
    apply keeps_gets_dummy. intros [d|] Hd.
    - apply keeps_bind; [apply keeps_hurt_dummy; [lia|auto]|]. intros; keep.
    - case_match; [|keep]. apply keeps_bind; [apply keeps_hurt_self; lia|]. intros; keep. }
  destruct (_ =? SPELL_EFFECT_APPLY_AURA); [destruct done; keep|].
  destruct (_ =? SPELL_EFFECT_HEAL); [|keep].
  apply keeps_bind; [apply keeps_effect_amount|]. intros v. destruct (Z.eqb_spec (Z.max 0 v) 0); [keep|].
  apply keeps_gets_dummy. intros [d|] Hd.
  - apply keeps_bind; [apply keeps_heal_dummy; [lia|auto]|]. intros; keep.
  - apply keeps_bind; [apply keeps_heal_self; lia|]. intros; keep.
Qed.
End AuraInvariant.

(** ** The catch-up loop *)

Section CatchUp.
Context `{Env}.

(** The last moment a tick of the aura may happen at. *)
Definition tick_limit (t : Z) (a : aura) : Z :=
  match a_expires a with Some x => Z.min t x | None => t end.

Definition due_count (t : Z) (a : aura) (tk : tick) : Z :=
  if tick_limit t a <? t_next tk then 0 else (tick_limit t a - t_next tk) / t_period tk + 1.

(** The loop without its test and its bound: exactly [k] ticks. *)
Fixpoint run_ticks (k : nat) (c : character) (target slot : Z) (a : aura) (i : nat) (tk : tick)
    : M (list combat_line) :=
  match k with
  | O => mret []
  | S k =>
      line ← aura_periodic_apply c a tk;
      let n := t_next tk + t_period tk in
      store_next target slot i n ;;
      rest ← run_ticks k c target slot a i (set_t_next n tk);
      mret (match line with Some l => l :: rest | None => rest end)
  end.

Lemma due_limit t a tk : due t a tk = (t_next tk <=? tick_limit t a).
Proof.
  unfold due, tick_limit. destruct (a_expires a) as [x|]; [|by rewrite andb_true_r].
  rewrite Z.gtb_ltb, <- Z.leb_antisym.
  destruct (Z.leb_spec (t_next tk) t), (Z.leb_spec (t_next tk) x),
    (Z.leb_spec (t_next tk) (Z.min t x)); cbn; lia.
Qed.

Lemma bind_ext {A B} (m m' : M A) (f g : A -> M B) w :
  m w = m' w -> (forall a w', f a w' = g a w') -> (m ≫= f) w = (m' ≫= g) w.
Proof.
  intros Hm Hf. rewrite !run_bind, Hm. destruct (m' w) as [[a|e] w']; [apply Hf | done].
Qed.

Lemma due_count_nonneg t a tk : 0 < t_period tk -> 0 <= due_count t a tk.
Proof.
  intros Hp. unfold due_count. destruct (Z.ltb_spec (tick_limit t a) (t_next tk)); [lia|].
  assert (0 <= (tick_limit t a - t_next tk) / t_period tk) by (apply Z.div_pos; lia). lia.
Qed.

Lemma due_count_step t a tk :
  0 < t_period tk -> t_next tk <= tick_limit t a ->
  due_count t a tk = due_count t a (set_t_next (t_next tk + t_period tk) tk) + 1.
Proof.
  intros Hp Hle. unfold due_count. cbn [t_next t_period set_t_next].
  rewrite (proj2 (Z.ltb_ge (tick_limit t a) (t_next tk))) by lia.
  destruct (Z.ltb_spec (tick_limit t a) (t_next tk + t_period tk)) as [Hlt|Hge].
  - rewrite Z.div_small by lia. lia.
  - replace (tick_limit t a - (t_next tk + t_period tk))
      with (tick_limit t a - t_next tk + -1 * t_period tk) by lia.
    rewrite Z.div_add by lia. lia.
Qed.

End CatchUp.

(** ** After a tick nothing is overdue *)

Section Settled.
Context `{Env}.

Definition auras_are (A : list (Z * aura_slots)) (w : world) : Prop := w_auras w = A.

Lemma keeps_auras_modify A f : (forall w, w_auras (f w) = w_auras w) -> keeps (auras_are A) (modify f).
Proof. intros Hf. apply keeps_modify. unfold auras_are. intros w Hw. by rewrite Hf. Qed.

Lemma keeps_auras_send_r A o b : keeps (auras_are A) (send_r o b).
Proof. by apply keeps_send_r. Qed.

Lemma keeps_auras_unit_state A c : keeps (auras_are A) (unit_state c).
Proof. intros w Hw. by destruct (unit_state_run c w) as (st & -> & _). Qed.

Lemma keeps_auras_put_unit A g st : keeps (auras_are A) (put_unit g st).
Proof. by apply keeps_auras_modify. Qed.

Lemma keeps_auras_put_dummy A g d : keeps (auras_are A) (put_dummy g d).
Proof. by apply keeps_auras_modify. Qed.
#[local] Hint Resolve keeps_auras_send_r keeps_auras_unit_state keeps_auras_put_unit
  keeps_auras_put_dummy : keeps.

Lemma keeps_auras_power A c : keeps (auras_are A) (send_power_update c).
Proof. unfold send_power_update. keep. Qed.
#[local] Hint Resolve keeps_auras_power : keeps.

Lemma keeps_auras_periodic A c a tk : keeps (auras_are A) (aura_periodic_apply c a tk).
Proof.
  unfold aura_periodic_apply, heal_dummy, heal_self, hurt_dummy, hurt_self, send_dummy_health.
  cbv zeta. keep.
Qed.

(** [b'] is [b] with other due times. *)
Definition retimed (b b' : aura) : Prop :=
  a_expires b' = a_expires b /\ length (a_ticks b') = length (a_ticks b).

(** Only one slot moved. *)
Definition only_slot (w w' : world) (target slot : Z) (b' : aura) : Prop :=
  dget slot (held_auras w' target) = Some b'
  /\ (forall s, s <> slot -> dget s (held_auras w' target) = dget s (held_auras w target))
  /\ forall g, g <> target -> held_auras w' g = held_auras w g.

Lemma held_put w target h g :
  held_auras (set_w_auras (dset target h (w_auras w)) w) g
  = if decide (g = target) then h else held_auras w g.
Proof. unfold held_auras. cbn. rewrite dget_dset. by case_decide. Qed.

Lemma held_out_put w out target h g :
  held_auras (set_w_out out (set_w_auras (dset target h (w_auras w)) w)) g
  = if decide (g = target) then h else held_auras w g.
Proof. apply held_put. Qed.

Lemma held_out_dset w out target h A :
  held_auras (set_w_out out (set_w_auras (dset target h A) w)) target = h.
Proof. unfold held_auras. cbn. by rewrite dget_dset_eq. Qed.

Lemma only_slot_trans w1 w2 w3 target slot b2 b3 :
  only_slot w1 w2 target slot b2 -> only_slot w2 w3 target slot b3 -> only_slot w1 w3 target slot b3.
Proof.
  intros (_ & Hs & Hg) (Hb & Hs' & Hg'). split_and!; [done| |].
  - intros s Hne. by rewrite Hs', Hs.
  - intros g Hne. by rewrite Hg', Hg.
Qed.

Lemma store_next_run w target slot i n b :
  dget slot (held_auras w target) = Some b ->
  exists w' b', store_next target slot i n w = (Ok tt, w') /\ only_slot w w' target slot b'
    /\ a_expires b' = a_expires b /\ a_ticks b' = alter (set_t_next n) i (a_ticks b).
Proof.
  intros E. unfold store_next. m_run. rewrite E. unfold put_aura. m_run.
  eexists _, (set_a_next i n b). split; [reflexivity|]. split; [|done].
  unfold only_slot. split_and!.
  - rewrite held_put, decide_True by done. apply dget_dset_eq.
  - intros s Hs. rewrite held_put, decide_True by done. by apply dget_dset_ne.
  - intros g Hg. by rewrite held_put, decide_False.
Qed.

Lemma catch_up_settles fuel c t target slot a i tk w l w' b :
  catch_up fuel c t target slot a i tk w = (Ok l, w') ->
  dget slot (held_auras w target) = Some b -> a_ticks b !! i = Some tk ->
  exists b' tk', only_slot w w' target slot b' /\ a_expires b' = a_expires b
    /\ a_ticks b' !! i = Some tk' /\ due t a tk' = false
    /\ (forall j, j <> i -> a_ticks b' !! j = a_ticks b !! j).
Proof.
  revert tk w l w' b. induction fuel as [|fuel IH]; intros tk w l w' b; cbn [catch_up];
    (destruct (due t a tk) eqn:Ed; [|m_run; intros [= _ <-] Eb Et; exists b, tk; by split_and!]).
  - m_run. done.
  - intros Hrun Eb Et. inv_m Hrun.
    pose proof (keeps_auras_periodic (w_auras w) c a tk w eq_refl) as Hau.
    rewrite E in Hau. cbn in Hau. unfold auras_are in Hau.
    assert (forall g, held_auras w0 g = held_auras w g) as Hheld by (intros g; unfold held_auras; by rewrite Hau).
    rewrite <- Hheld in Eb.
    destruct (store_next_run w0 target slot i (t_next tk + t_period tk) b Eb)
      as (w2 & b2 & E2 & Hon & Hex & Hti).
    rewrite run_bind, E2 in Hrun. inv_m Hrun.
    destruct (IH _ _ _ _ b2 E0) as (b3 & tk3 & Hon3 & Hex3 & Hl3 & Hd3 & Ho3).
    { apply Hon. } { rewrite Hti, list_lookup_alter_eq, Et. done. }
    m_run_in Hrun. injection Hrun as _ <-. exists b3, tk3. split_and!.
    + destruct (only_slot_trans _ _ _ _ _ _ _ Hon Hon3) as (H1 & H2 & H3).
      split_and!; [done| |]; intros; rewrite <- Hheld; auto.
    + by rewrite Hex3, Hex.
    + done.
    + done.
    + intros j Hj. rewrite Ho3, Hti by done. by apply list_lookup_alter_ne.
Qed.

Lemma tick_all_settles c t target slot a i ticks w l w' b :
  tick_all c t target slot a i ticks w = (Ok l, w') ->
  dget slot (held_auras w target) = Some b ->
  (forall j, a_ticks b !! (i + j)%nat = ticks !! j) ->
  exists b', only_slot w w' target slot b' /\ a_expires b' = a_expires b
    /\ (forall j tk, (i <= j)%nat -> a_ticks b' !! j = Some tk -> due t a tk = false)
    /\ (forall j, (j < i)%nat -> a_ticks b' !! j = a_ticks b !! j).
Proof.
  revert i w l w' b. induction ticks as [|tk ticks IH]; intros i w l w' b; cbn [tick_all].
  - m_run. intros [= _ <-] Eb Hj. exists b. split; [by split_and!|]. split; [done|]. split; [|done].
    intros j tk Hij Hl. specialize (Hj (j - i)%nat). rewrite lookup_nil in Hj.
    replace (i + (j - i))%nat with j in Hj by lia. congruence.
  - intros Hrun Eb Hj. inv_m Hrun.
    destruct (catch_up_settles _ _ _ _ _ _ _ _ _ _ _ b E Eb) as (b1 & tk1 & Hon1 & Hex1 & Hl1 & Hd1 & Ho1).
    { specialize (Hj 0%nat). by rewrite Nat.add_0_r in Hj. }
    inv_m Hrun. m_run_in Hrun. injection Hrun as _ <-.
    destruct (IH (S i) w0 _ _ b1 E0) as (b2 & Hon2 & Hex2 & Hd2 & Hlow); [apply Hon1| |].
    { intros j. rewrite Ho1 by lia. specialize (Hj (S j)). change ((tk :: ticks) !! S j) with (ticks !! j) in Hj.
      rewrite <- Hj. f_equal. lia. }
    exists b2. split_and!.
    + by eapply only_slot_trans.
    + by rewrite Hex2.
    + intros j tk' Hij Hl. destruct (decide (j = i)) as [->|Hne]; [|apply (Hd2 j); [lia|done]].
      rewrite Hlow in Hl by lia. congruence.
    + intros j Hji. rewrite Hlow by lia. apply Ho1. lia.
Qed.

(** No tick of the aura is due, and it has not run out. *)
Definition settled (t : Z) (a : aura) : Prop :=
  Forall (fun tk => due t a tk = false) (a_ticks a)
  /\ match a_expires a with Some x => t < x | None => True end.

Lemma due_expires t a b tk : a_expires a = a_expires b -> due t a tk = due t b tk.
Proof. unfold due. by intros ->. Qed.

Lemma tick_aura_settles c t target slot a w l w' :
  combat_ok w ->
  tick_aura c t target (slot, a) w = (Ok l, w') ->
  dget slot (held_auras w target) = Some a ->
  (forall b, dget slot (held_auras w' target) = Some b -> settled t b)
  /\ (forall s, s <> slot -> dget s (held_auras w' target) = dget s (held_auras w target))
  /\ (forall g, g <> target -> held_auras w' g = held_auras w g).
Proof.
  intros Hw Hrun Ea. unfold tick_aura in Hrun. inv_m Hrun.
  destruct (tick_all_settles _ _ _ _ _ _ _ _ _ _ a E Ea) as (b & Hon & Hex & Hd & _); [done|].
  pose proof Hon as (Hb & Hs & Hg).
  assert (Forall (fun tk => due t b tk = false) (a_ticks b)) as Hall.
  { apply Forall_lookup. intros j tk Hl. rewrite (due_expires t b a) by done.
    eapply Hd; [|exact Hl]. lia. }
  assert (Hheld : combat_ok w0).
  { assert (Forall tick_ok (a_ticks a)) as Ht.
    { destruct (combat_held w target Hw) as (_ & Hok & _). apply dget_elem_of in Ea.
      apply (Hok _ _ Ea). }
    pose proof (keeps_tick_all c t target slot a 0 _ Ht w Hw) as Hk. by rewrite E in Hk. }
  assert (Hdone : w' = w0 -> settled t b -> (forall b0, dget slot (held_auras w' target) = Some b0 -> settled t b0)
    /\ (forall s, s <> slot -> dget s (held_auras w' target) = dget s (held_auras w target))
    /\ (forall g, g <> target -> held_auras w' g = held_auras w g)).
  { intros -> Hset. split; [|done]. rewrite Hb. by intros b0 [= <-]. }
  destruct (a_expires a) as [x|] eqn:Ex.
  - destruct (Z.leb_spec x t) as [Hle|Hlt].
    + clear Hdone. rewrite run_bind, (remove_aura_run w0 target slot b Hb) in Hrun.
      m_run_in Hrun. injection Hrun as _ <-.
      split_and!.
      * intros b0. rewrite held_out_put, decide_True by done.
        rewrite dget_ddel_eq; [done|]. apply (combat_held w0 target Hheld).
      * intros s Hne. rewrite held_out_put, decide_True by done. rewrite dget_ddel_ne by done. auto.
      * intros g Hne. rewrite held_out_put, decide_False by done. auto.
    + m_run_in Hrun. injection Hrun as _ <-. apply Hdone; [done|]. split; [done|]. rewrite Hex. lia.
  - m_run_in Hrun. injection Hrun as _ <-. apply Hdone; [done|]. split; [done|]. by rewrite Hex.
Qed.
Lemma tick_slots_settle c t target rest acc w l w' :
  combat_ok w -> dict_ok rest ->
  (forall s a, (s, a) ∈ rest -> dget s (held_auras w target) = Some a) ->
  foldM (fun acc sa => l ← tick_aura c t target sa; mret (acc ++ l)) acc rest w = (Ok l, w') ->
  combat_ok w'
  /\ (forall s b, s ∈ dkeys rest -> dget s (held_auras w' target) = Some b -> settled t b)
  /\ (forall s, s ∉ dkeys rest -> dget s (held_auras w' target) = dget s (held_auras w target))
  /\ (forall g, g <> target -> held_auras w' g = held_auras w g).
Proof.
  revert acc w. induction rest as [|[slot a] rest IH]; intros acc w Hw Hd Hin; cbn [foldM].
  - m_run. intros [= _ <-]. split; [done|]. split; [|done]. by intros s b []%not_elem_of_nil.
  - apply NoDup_cons in Hd as [Hslot Hd]. intros Hrun. inv_m Hrun. inv_m E. m_run_in E.
    injection E as _ <-.
    assert (dget slot (held_auras w target) = Some a) as Ea by (apply Hin; left).
    destruct (tick_aura_settles _ _ _ _ _ _ _ _ Hw E0 Ea) as (Hset & Hs & Hg).
    assert (combat_ok w1) as Hw1.
    { destruct (combat_held w target Hw) as (_ & Hok & _). apply dget_elem_of in Ea.
      destruct (Hok _ _ Ea) as (_ & _ & _ & Ht).
      pose proof (keeps_tick_aura c t target slot a Ht w Hw) as Hk. by rewrite E0 in Hk. }
    assert (Hsub : forall s b, (s, b) ∈ rest -> dget s (held_auras w1 target) = Some b).
    { intros s b Hsb. rewrite Hs; [apply Hin; by right|]. intros ->. apply Hslot.
      apply list_elem_of_fmap. by exists (slot, b). }
    destruct (IH _ _ Hw1 Hd Hsub Hrun) as (Hw' & Hset' & Hs' & Hg').
    split; [done|]. split; [|split].
    + intros s b [->|Hsr]%elem_of_cons Hb; [|by eapply Hset'].
      rewrite Hs' in Hb by done. by apply Hset.
    + intros s Hn. cbn in Hn. apply not_elem_of_cons in Hn as [Hn1 Hn2]. by rewrite Hs', Hs.
    + intros g Hne. by rewrite Hg', Hg.
Qed.

Lemma tick_target_settles c t target w l w' :
  combat_ok w -> tick_target c t target w = (Ok l, w') ->
  combat_ok w'
  /\ (forall s b, dget s (held_auras w' target) = Some b -> settled t b)
  /\ (forall g, g <> target -> held_auras w' g = held_auras w g).
Proof.
  intros Hw Hrun. unfold tick_target in Hrun. m_run_in Hrun.
  destruct (combat_held w target Hw) as (Hd & _ & _).
  destruct (tick_slots_settle _ _ _ _ _ _ _ _ Hw Hd
              (fun s a => elem_of_dget s a _ Hd) Hrun) as (Hw' & Hset & Hs & Hg).
  split; [done|]. split; [|done]. intros s b Hb.
  destruct (decide (s ∈ dkeys (held_auras w target))) as [Hin|Hn]; [by eapply Hset|].
  rewrite Hs in Hb by done. by apply dget_None_keys in Hn; congruence.
Qed.

Lemma tick_targets_settle c t targets acc w l w' :
  combat_ok w ->
  foldM (fun acc target => l ← tick_target c t target; mret (acc ++ l)) acc targets w = (Ok l, w') ->
  (forall g, g ∈ targets \/ (forall s b, dget s (held_auras w g) = Some b -> settled t b) ->
     forall s b, dget s (held_auras w' g) = Some b -> settled t b).
Proof.
  revert acc w. induction targets as [|g0 targets IH]; intros acc w Hw; cbn [foldM].
  - m_run. intros [= _ <-]. intros g [[]%not_elem_of_nil|Hg]; done.
  - intros Hrun. inv_m Hrun. inv_m E. m_run_in E. injection E as _ <-.
    destruct (tick_target_settles _ _ _ _ _ _ Hw E0) as (Hw1 & Hset & Hoth).
    intros g Hg. apply (IH _ w1 Hw1 Hrun). destruct (decide (g = g0)) as [->|Hne]; [by right|].
    destruct Hg as [[->|Hg]%elem_of_cons|Hg]; [done|by left|right].
    intros s b. rewrite Hoth by done. apply Hg.
Qed.

(** Once a tick of the clock has gone through, no periodic effect of any
    aura on any target is overdue, and every aura whose time had come is gone. *)
Theorem aura_tick_settles c w l w' :
  combat_ok w ->
  ARCHIVE_AURA_TICK_MIN <= ck_mono (w_clock w) - w_aura_last w ->
  aura_tick c w = (Ok l, w') ->
  forall target slot a, dget slot (held_auras w' target) = Some a -> settled (ck_mono (w_clock w)) a.
Proof.
  intros Hw Hmin Hrun target. unfold aura_tick in Hrun. m_run_in Hrun.
  rewrite (proj2 (Z.ltb_ge _ _)) in Hrun by lia. m_run_in Hrun.
  refine (tick_targets_settle _ _ _ _ _ _ _ _ Hrun target _); [by destruct Hw|].
  destruct (decide (target ∈ dkeys (w_auras w))) as [Hin|Hn]; [by left|right].
  intros s b. unfold held_auras. cbn. apply dget_None_keys in Hn. by rewrite Hn.
Qed.
End Settled.

(** ** Packets read back *)

Definition rd_guid : rd Z := fun b =>
  match b with bits :: rest => read_guid_bytes bits eight rest 0 | [] => None end.

Lemma rd_guid_app g rest : 0 <= g < 2 ^ 64 -> rd_guid (pack_guid g ++ rest) = Some (g, rest).
Proof. intros Hg. rewrite pack_guid_eq. by apply read_pack_guid. Qed.

(** The client's reader of SMSG_AURA_UPDATE: a zero spell ends the packet, and
    the two optional tails follow the flags byte. *)
Record aura_image := AuraImage {
  ai_spell : Z; ai_flags : Z; ai_level : Z; ai_stacks : Z;
  ai_caster : option Z; ai_times : option (Z * Z) }.

Definition rd_aura : rd (Z * Z * option aura_image) :=
  (g <-- rd_guid;; s <-- rd_u 1;; sp <-- rd_u 4;;
   if sp =? 0 then rd_ret (g, s, None)
   else
     f <-- rd_u 1;; l <-- rd_u 1;; k <-- rd_u 1;;
     c <-- (if Z.land f AFLAG_CASTER =? 0 then (c <-- rd_guid;; rd_ret (Some c)) else rd_ret None);;
     d <-- (if Z.land f AFLAG_DURATION =? 0 then rd_ret None
            else (a <-- rd_u 4;; b <-- rd_u 4;; rd_ret (Some (a, b))));;
     rd_ret (g, s, Some (AuraImage sp f l k c d)))%rd.

Definition aura_image_of (t : Z) (a : aura) : aura_image :=
  AuraImage (a_spell a) (a_flags a) (Z.land (a_level a) 0xFF) (Z.land (Z.max 1 (a_stacks a)) 0xFF)
    (if Z.land (a_flags a) AFLAG_CASTER =? 0 then Some (a_caster a) else None)
    (if Z.land (a_flags a) AFLAG_DURATION =? 0 then None
     else Some (a_maxdur_ms a, aura_remaining_ms t a)).

Lemma land_byte_range v : is_byte (Z.land v 0xFF).
Proof. rewrite land_ones8. unfold is_byte. apply Z.mod_pos_bound. lia. Qed.

Lemma rd_bind_eq {A B} (r : rd A) (k : A -> rd B) b a b' :
  r b = Some (a, b') -> rd_bind r k b = k a b'.
Proof. apply rd_bind_some. Qed.

Lemma packIs_two x y out : packIs [x; y] = Ok out ->
  is_word x /\ is_word y /\ out = le 4 x ++ le 4 y.
Proof.
  unfold packIs, packI. cbn [res_map]. destruct (pack_u 4 x) as [bx|] eqn:Ex; [|done].
  cbn [mbind res_bind]. destruct (pack_u 4 y) as [byy|] eqn:Ey; [|done]. cbn [mbind res_bind].
  intros Hp%Ok_inj. apply pack_u_inv in Ex as [Hx ->]. apply pack_u_inv in Ey as [Hy ->].
  subst out. split; [done|]. split; [done|].
  cbn [concat]. by rewrite app_nil_r.
Qed.

(** SMSG_AURA_UPDATE is read back whole by the client's flag-driven reader:
    an application with its caster and its times exactly when the flags say
    they follow, a removal as a cleared slot; nothing is left over and nothing
    is short. *)
Theorem aura_update_read t target a removing body :
  0 <= target < 2 ^ 64 -> 0 <= a_caster a < 2 ^ 64 -> is_byte (a_slot a) ->
  a_spell a <> 0 -> is_byte (a_flags a) ->
  smsg_aura_update t target a removing = Ok body ->
  rd_all rd_aura body
  = Some (target, a_slot a, if removing then None else Some (aura_image_of t a)).
Proof.
  intros Ht Hc Hs Hsp Hf Hb. unfold smsg_aura_update in Hb.
  unfold rd_all, rd_aura.
  assert (Z.land (a_slot a) 0xFF = a_slot a) as Hslot by (by apply land_byte).
  destruct removing.
  - apply Ok_inj in Hb. subst body. rewrite Hslot, <- !app_assoc.
    rewrite (rd_bind_eq _ _ _ _ _ (rd_guid_app target _ Ht)). cbn [app].
    rewrite (rd_bind_eq _ _ _ _ _ (rd_u_byte _ _ Hs)).
    rewrite <- (app_nil_r (le 4 0)).
    rewrite (rd_bind_eq _ _ _ 0 []) by (apply (rd_u_app 4); cbn; lia). done.
  - inv_bind Hb. apply pack_u_inv in E as [Hspr ->]. cbv zeta in Hb.
    assert (Z.land (a_flags a) 0xFF = a_flags a) as Hfl by (by apply land_byte).
    rewrite Hslot, Hfl in Hb.
    set (caster := if Z.land (a_flags a) AFLAG_CASTER =? 0 then pack_guid (a_caster a) else []) in *.
    assert (exists times, body = pack_guid target ++ a_slot a :: le 4 (a_spell a)
        ++ a_flags a :: Z.land (a_level a) 0xFF :: Z.land (Z.max 1 (a_stacks a)) 0xFF
        :: caster ++ times
      /\ (if Z.land (a_flags a) AFLAG_DURATION =? 0 then times = []
          else is_word (a_maxdur_ms a) /\ is_word (aura_remaining_ms t a)
               /\ times = le 4 (a_maxdur_ms a) ++ le 4 (aura_remaining_ms t a)))
      as (times & -> & Htimes).
    { destruct (Z.land (a_flags a) AFLAG_DURATION =? 0).
      - apply Ok_inj in Hb. exists []. split; [|done]. subst body. rewrite app_nil_r.
        rewrite <- !app_assoc. done.
      - inv_bind Hb. apply Ok_inj in Hb. apply packIs_two in E as (? & ? & ->).
        eexists. split; [|split_and!; [done|done|reflexivity]]. subst body.
        rewrite <- !app_assoc. done. }
    rewrite (rd_bind_eq _ _ _ _ _ (rd_guid_app target _ Ht)).
    rewrite (rd_bind_eq _ _ _ _ _ (rd_u_byte _ _ Hs)).
    rewrite (rd_bind_eq _ _ _ _ _ (rd_u_app 4 _ _ Hspr)).
    rewrite (proj2 (Z.eqb_neq _ _) Hsp).
    rewrite (rd_bind_eq _ _ _ _ _ (rd_u_byte _ _ Hf)).
    rewrite (rd_bind_eq _ _ _ _ _ (rd_u_byte _ _ (land_byte_range _))).
    rewrite (rd_bind_eq _ _ _ _ _ (rd_u_byte _ _ (land_byte_range _))).
    unfold aura_image_of, caster.
    destruct (Z.land (a_flags a) AFLAG_CASTER =? 0).
    + rewrite (rd_bind_eq _ _ _ (Some (a_caster a)) times)
        by (by rewrite (rd_bind_eq _ _ _ _ _ (rd_guid_app _ _ Hc))).
      destruct (Z.land (a_flags a) AFLAG_DURATION =? 0); [by subst times|].
      destruct Htimes as (H1 & H2 & ->).
      by rewrite (rd_bind_eq _ _ _ (Some (a_maxdur_ms a, aura_remaining_ms t a)) [])
        by (rewrite (rd_bind_eq _ _ _ _ _ (rd_u_app 4 _ _ H1)), <- (app_nil_r (le 4 (aura_remaining_ms t a)));
            by rewrite (rd_bind_eq _ _ _ _ _ (rd_u_app 4 _ _ H2))).
    + rewrite (rd_bind_eq _ _ _ None times) by done.
      destruct (Z.land (a_flags a) AFLAG_DURATION =? 0); [by subst times|].
      destruct Htimes as (H1 & H2 & ->).
      by rewrite (rd_bind_eq _ _ _ (Some (a_maxdur_ms a, aura_remaining_ms t a)) [])
        by (rewrite (rd_bind_eq _ _ _ _ _ (rd_u_app 4 _ _ H1)), <- (app_nil_r (le 4 (aura_remaining_ms t a)));
            by rewrite (rd_bind_eq _ _ _ _ _ (rd_u_app 4 _ _ H2))).
Qed.

(** ** The bar on the wire *)

Lemma values_update_ok guid fields fc :
  fields <> [] -> Forall (fun kv => 0 <= fst kv < fc) fields -> fc <= 1984 ->
  exists b, build_values_update guid fields fc = Ok b.
Proof.
  intros Hne Hk Hfc. unfold build_values_update.
  destruct (max_key fields) as [top|e] eqn:Et; [|by destruct fields as [|[]]].
  assert (0 <= top < fc) as Ht.
  { apply max_key_elem in Et as Hin. apply list_elem_of_fmap in Hin as (kv & -> & Hin).
    rewrite Forall_forall in Hk. by apply Hk. }
  destruct (build_values_block_total fields (Some fc) top) as [b ->]; [done| | |by eexists].
  - eapply Forall_impl; [exact Hk|]. intros [k v]. cbn. lia.
  - unfold n_blocks. assert (top / 32 <= 62) by (apply Z.div_le_upper_bound; lia).
    assert ((fc + 31) / 32 <= 63) by (apply Z.div_le_upper_bound; lia). case_match; lia.
Qed.

(** Pushing health and power never fails and is always the two packets the
    client needs, with the clamped live values. *)
Theorem send_power_update_total c w :
  combat_ok w -> c_level c < 2 ^ 20 ->
  exists w' b st, send_power_update c w = (Ok tt, w') /\ full_ok c st
    /\ dget (c_guid c) (w_units w') = Some st
    /\ w_out w' = w_out w ++ [(SMSG_UPDATE_OBJECT, b);
         (SMSG_POWER_UPDATE, pack_guid (c_guid c) ++ [ptype_of c] ++ le 4 (u_power st))].
Proof.
  intros Hw Hl. destruct (unit_state_run c w) as (st & Eu & _ & Hst). specialize (Hst Hw).
  pose proof Hst as [Hhp Hpw].
  assert (snd (max_pools c) < 2 ^ 32) as Hmax.
  { unfold max_pools, ARCHIVE_POOL_BASE, ARCHIVE_HEALTH_PER_LEVEL, ARCHIVE_MANA_PER_LEVEL,
      ARCHIVE_FIXED_POWER. destruct (negb _); cbn [snd]; lia. }
  assert (Hpt : ptype_of c = power_for (c_class c)).
  { unfold ptype_of. rewrite land_ones8, Z.mod_small; [done|]. pose proof (power_for_range (c_class c)). lia. }
  pose proof (power_for_range (c_class c)) as Hpr.
  unfold send_power_update. m_run. rewrite Eu. m_run.
  destruct (max_pools c) as [maxhp maxp] eqn:Em. cbn [snd] in *.
  set (fields := [(UNIT_FIELD_HEALTH, _); _; _; _]).
  destruct (values_update_ok (c_guid c) fields PLAYER_END) as [b Eb]; [done| |vm_compute; congruence|].
  { unfold fields, UNIT_FIELD_HEALTH, UNIT_FIELD_MAXHEALTH, UNIT_FIELD_POWER1, UNIT_FIELD_MAXPOWER1, PLAYER_END.
    rewrite Hpt. repeat (apply Forall_cons; split; [cbn [fst]; lia|]). apply Forall_nil; done. }
  m_run.   rewrite (run_send_r _ _ _ _ Eb). m_run.
  assert (smsg_power_update (c_guid c) (ptype_of c) (u_power st)
    = Ok (pack_guid (c_guid c) ++ [ptype_of c] ++ le 4 (u_power st))) as Ep.
  { unfold smsg_power_update. rewrite packI_ok by lia. cbn [mbind res_bind].
    rewrite land_byte; [done|]. rewrite Hpt. unfold is_byte. lia. }
  rewrite (run_send_r _ _ _ _ Ep). eexists _, b, st. split; [reflexivity|].
  split; [unfold full_ok; rewrite Em; done|]. cbn. split; [apply dget_dset_eq|].
  by rewrite <- app_assoc.
Qed.

(** ** What an effect does *)

Section Effects.
Context `{Env}.

(** No operation of the combat system can leave a dummy outside 0..max, a
    pool below zero, two icons for one spell of one caster, an aura outside the
    56 slots or under the wrong target, or a periodic effect that would not
    advance, whatever exception stops it. *)
Theorem combat_invariant c info target display dist scale slot :
  keeps combat_ok (aura_tick c)
  /\ keeps combat_ok (apply_spell_effects c info target)
  /\ keeps combat_ok (apply_aura c info target)
  /\ keeps combat_ok (remove_aura target slot)
  /\ keeps combat_ok (regen_tick c)
  /\ keeps combat_ok (send_power_update c)
  /\ keeps combat_ok dummy_tick
  /\ keeps combat_ok (spawn_dummy c display dist scale)
  /\ keeps combat_ok despawn_dummies.
Proof.
  split_and!.
  - apply keeps_aura_tick.
  - apply keeps_apply_spell_effects.
  - apply keeps_apply_aura.
  - apply keeps_remove_aura.
  - apply keeps_regen_tick.
  - apply keeps_send_power_update.
  - apply keeps_dummy_tick.
  - apply keeps_spawn_dummy.
  - apply keeps_despawn_dummies.
Qed.

(** The values an effect may roll. *)
Definition rolled (e : spell_effect) (v : Z) : Prop :=
  if se_dieSides e =? 0 then v = se_basePoints e
  else if se_dieSides e >=? 1 then se_basePoints e + 1 <= v <= se_basePoints e + se_dieSides e
  else se_basePoints e + se_dieSides e <= v <= se_basePoints e + 1.

Lemma effect_amount_run e w :
  exists v k, effect_amount e w = (Ok v, set_w_rolls k w) /\ rolled e v.
Proof.
  unfold effect_amount, rolled, roll. cbv zeta. rewrite Z.geb_leb.
  destruct (Z.eqb_spec (se_dieSides e) 0) as [E|E].
  - exists (se_basePoints e), (w_rolls w). m_run. by destruct w.
  - destruct (Z.leb_spec 1 (se_dieSides e)) as [H1|H1]; m_run.
    + eexists _, _. split; [reflexivity|].
      pose proof (randint_range (w_rolls w) 1 (se_dieSides e) H1). lia.
    + eexists _, _. split; [reflexivity|].
      pose proof (randint_range (w_rolls w) (se_dieSides e) 1 ltac:(lia)). lia.
Qed.

(** A direct damage effect on a dummy takes exactly the rolled amount, down
    to zero and no further: the rolled amount is in the range the spell record
    gives, and what the health bar lost plus the overkill of the combat log
    is that amount.  No other dummy is touched. *)
Theorem direct_damage_exact c info guid d e w r w' :
  se_effect e = SPELL_EFFECT_SCHOOL_DAMAGE ->
  dget guid (w_dummies w) = Some d -> 0 <= d_hp d ->
  apply_effect c info guid false e w = (Ok r, w') ->
  exists v d' log upd, rolled e v
    /\ dget guid (w_dummies w') = Some d'
    /\ d_hp d' = Z.max 0 (d_hp d - Z.max 0 v) /\ d_maxhp d' = d_maxhp d
    /\ (forall g, g <> guid -> dget g (w_dummies w') = dget g (w_dummies w))
    /\ (0 < v ->
        w_out w' = w_out w ++ [(SMSG_SPELLNONMELEEDAMAGELOG, log); (SMSG_UPDATE_OBJECT, upd)]
        /\ smsg_spell_damage_log guid (c_guid c) (si_id info) v (v - (d_hp d - d_hp d')) (si_schoolMask info) = Ok log
        /\ build_values_update guid [(UNIT_FIELD_HEALTH, u32le (d_hp d'))] UNIT_END = Ok upd).
Proof.
  intros He Hd Hhp Hrun. unfold apply_effect in Hrun. rewrite He in Hrun. cbv zeta in Hrun.
  rewrite Z.eqb_refl in Hrun.
  destruct (effect_amount_run e w) as (v & k & Ev & Hv).
  rewrite run_bind, Ev in Hrun. exists v.
  destruct (Z.eqb_spec (Z.max 0 v) 0) as [Hz|Hz].
  - m_run_in Hrun. injection Hrun as _ <-. exists d, [], []. cbn. split_and!; try done; lia.
  - rewrite run_bind in Hrun. m_run_in Hrun. cbn [w_dummies set_w_rolls] in Hrun. rewrite Hd in Hrun.
    unfold hurt_dummy, put_dummy, send_dummy_health, send_r in Hrun. m_run_in Hrun.
    destruct (smsg_spell_damage_log _ _ _ _ _ _) as [log|] eqn:El; [|done]. m_run_in Hrun.
    destruct (build_values_update _ _ _) as [upd|] eqn:Eu; [|done]. m_run_in Hrun.
    injection Hrun as _ <-.
    exists (set_d_hit (ck_mono (w_clock w)) (set_d_hp (Z.max 0 (d_hp d - Z.max 0 v)) d)), log, upd.
    cbn [w_dummies set_w_out set_w_dummies set_w_rolls d_hp d_maxhp set_d_hit set_d_hp].
    split; [done|]. split; [apply dget_dset_eq|]. split; [done|]. split; [done|].
    split; [intros g Hg; by apply dget_dset_ne|]. intros Hpos.
    split; [cbn; by rewrite <- app_assoc|]. split; [|exact Eu]. rewrite <- El. f_equal; lia.
Qed.

(** A recast refreshes: the caster's spell keeps the slot it had, every
    other slot of the frame is as it was, and the frame is only full when all
    56 slots hold something else. *)
Theorem apply_aura_slot c info target w l w' :
  combat_ok w ->
  apply_aura c (Some info) target w = (Ok l, w') ->
  let tgt := aura_target (w_dummies w) (c_guid c) target in
  let mine a := a_spell a = si_id info /\ a_caster a = c_guid c in
  match l with
  | [AuraOn t sp slot] =>
      t = tgt /\ sp = si_id info /\ 0 <= slot < ARCHIVE_MAX_AURA_SLOTS
      /\ (exists a, dget slot (held_auras w' tgt) = Some a /\ mine a)
      /\ (forall s, s <> slot -> dget s (held_auras w' tgt) = dget s (held_auras w tgt))
      /\ (forall s a, dget s (held_auras w tgt) = Some a -> mine a -> s = slot)
  | [NoFreeSlot] =>
      forall s, 0 <= s < ARCHIVE_MAX_AURA_SLOTS ->
        exists a, dget s (held_auras w tgt) = Some a /\ ~ mine a
  | _ => True
  end.
Proof.
  intros Hw Hrun. cbv zeta. unfold apply_aura in Hrun. m_run_in Hrun.
  set (tgt := aura_target (w_dummies w) (c_guid c) target) in *.
  destruct (aura_effects _ _ _ w) as [[[[mask types] ticks]|] w0] eqn:E; [|done].
  assert (w_auras w0 = w_auras w /\ combat_ok w0) as [Hau Hw0].
  { split.
    - pose proof (aura_effects_auras (ck_mono (w_clock w)) 0 (si_effects info) (w_auras w) w eq_refl) as Hk.
      by rewrite E in Hk.
    - pose proof (aura_effects_spec (ck_mono (w_clock w)) 0 (si_effects info) w Hw) as [Hk _].
      by rewrite E in Hk. }
  destruct (mask =? 0); [m_run_in Hrun; by injection Hrun as <- _|]. cbv zeta in Hrun.
  unfold free_aura_slot in Hrun. m_run_in Hrun. rewrite held_setdefault in Hrun.
  assert (held_auras w0 tgt = held_auras w tgt) as Hheld by (unfold held_auras; by rewrite Hau).
  rewrite Hheld in Hrun.
  pose proof (find_slot_spec tgt _ (si_id info) (c_guid c) (combat_held w tgt Hw)) as Hsp.
  destruct (combat_held w tgt Hw) as (Hd & Hok & Hu).
  destruct (find_slot (held_auras w tgt) (si_id info) (c_guid c)) as [slot|]; m_run_in Hrun.
  - unfold put_aura, send_r in Hrun. m_run_in Hrun.
    destruct (smsg_aura_update _ _ _ _); [|done]. m_run_in Hrun. injection Hrun as <- <-.
    destruct Hsp as [Hr Hsp]. split; [done|]. split; [done|]. split; [done|].
    rewrite held_out_dset. split; [|split].
    + eexists. split; [apply dget_dset_eq|]. by split.
    + intros s Hs. by rewrite dget_dset_ne, held_setdefault, Hheld by done.
    + intros s a0 Ha [Hm1 Hm2]. destruct (dget slot (held_auras w tgt)) as [b|] eqn:Eb.
      * apply dget_elem_of in Ha, Eb. apply (Hu _ _ _ _ Ha Eb). unfold same_aura. naive_solver congruence.
      * exfalso. destruct Hsp as [Hno _]. apply dget_elem_of in Ha. by apply (Hno _ _ Ha).
  - injection Hrun as <- _. destruct Hsp as [Hfull Hno]. intros s Hs. specialize (Hfull s Hs).
    unfold dmem in Hfull. destruct (dget s (held_auras w tgt)) as [a|] eqn:Ea; [|done].
    exists a. split; [done|]. apply (Hno s a). by apply dget_elem_of.
Qed.
End Effects.

(** ** Witnesses *)

Section Witnesses.
#[local] Existing Instance sample_env.

Definition bolt : spell_effect := SpellEffect SPELL_EFFECT_SCHOOL_DAMAGE 29 5 0 0.
Definition burn : spell_effect := SpellEffect SPELL_EFFECT_APPLY_AURA 9 1 SPELL_AURA_PERIODIC_DAMAGE 1000.
Definition fire : spell_rec := SpellRec 705781 0 (lit "Fire") [] 0 10 0 0 4 1 0 0 0 [bolt; burn].

Definition post : dummy :=
  Dummy 100 100 (f64_of_Z 0) (f64_of_Z 0) (f64_of_Z 0) (f64_of_Z 0) ARCHIVE_DUMMY_DISPLAY (f64_of_Z 1) 0.

(** A burn that should have ticked at 0.2, 0.5 and 0.8 s, and is over at 0.9. *)
Definition old_burn : aura :=
  Aura 705781 (lit "Fire") 0 7 99 AFLAG_NEGATIVE 1 1 900 4 (Some 900000000)
    [Tick 1 SPELL_AURA_PERIODIC_DAMAGE 10 300000000 200000000].

Definition fight_world : world :=
  set_w_auras [(99, [(0, old_burn)])] (set_w_dummies [(99, post)] sample_world).

Lemma fight_ok : combat_ok fight_world.
Proof.
  constructor; cbn.
  - constructor.
  - repeat constructor; cbn; lia.
  - unfold dict_ok. by_decide.
  - intros target held [= -> ->]%list_elem_of_singleton. split; [unfold dict_ok; by_decide|]. split.
    + intros slot a [= -> ->]%list_elem_of_singleton. unfold aura_ok. cbn.
      split; [done|]. split; [done|]. split; [unfold ARCHIVE_MAX_AURA_SLOTS; lia|].
      repeat constructor; cbn; lia.
    + by intros s1 a1 s2 a2 [= -> ->]%list_elem_of_singleton [= -> ->]%list_elem_of_singleton.
Qed.


Lemma aura_tick_settles_witness :
  exists l w', aura_tick sample_char fight_world = (Ok l, w')
    /\ length l = 4%nat
    /\ forall target slot a, dget slot (held_auras w' target) = Some a -> settled 1000000000 a.
Proof.
  destruct (aura_tick sample_char fight_world) as [[l|e] w'] eqn:E;
    [|exfalso; revert E; vm_compute; discriminate].
  exists l, w'. split; [reflexivity|]. split.
  - revert E. vm_compute. intros E. injection E as E _. rewrite <- E. reflexivity.
  - apply (aura_tick_settles sample_char fight_world l w' fight_ok); [vm_compute; discriminate | exact E].
Defined.

Lemma aura_update_read_witness :
  exists body, smsg_aura_update 0 99 old_burn false = Ok body
    /\ rd_all rd_aura body = Some (99, 0, Some (AuraImage 705781 0x80 1 1 (Some 7) None)).
Proof.
  eexists. split; [vm_compute; reflexivity|].
  apply (aura_update_read 0 99 old_burn false);
    [lia | cbn; lia | unfold is_byte; cbn; lia | discriminate
    | unfold is_byte, old_burn, AFLAG_NEGATIVE; cbn; lia | vm_compute; reflexivity].
Defined.

Lemma send_power_update_total_witness :
  exists w' b st, send_power_update sample_char fight_world = (Ok tt, w') /\ full_ok sample_char st
    /\ w_out w' = [(SMSG_UPDATE_OBJECT, b);
         (SMSG_POWER_UPDATE, pack_guid 7 ++ [3] ++ le 4 (u_power st))].
Proof.
  destruct (send_power_update_total sample_char fight_world fight_ok) as (w' & b & st & E & Hf & _ & Ho);
    [cbn; lia|].
  exists w', b, st. exact (conj E (conj Hf Ho)).
Defined.

Lemma direct_damage_exact_witness :
  exists r w' d', apply_effect sample_char fire 99 false bolt fight_world = (Ok r, w')
    /\ dget 99 (w_dummies w') = Some d' /\ 66 <= d_hp d' <= 70.
Proof.
  destruct (apply_effect sample_char fire 99 false bolt fight_world) as [[r|e] w'] eqn:E;
    [|exfalso; revert E; vm_compute; discriminate].
  destruct (direct_damage_exact sample_char fire 99 post bolt fight_world r w' eq_refl eq_refl) with (2 := E)
    as (v & d' & log & upd & Hv & Hd & Hhp & _); [cbn; lia|].
  exists r, w', d'. split; [reflexivity|]. split; [exact Hd|].
  unfold rolled in Hv. cbn in Hv, Hhp. lia.
Defined.

Lemma apply_aura_slot_witness :
  exists w' a, apply_aura sample_char (Some fire) 99 fight_world = (Ok [AuraOn 99 705781 0], w')
    /\ dget 0 (held_auras w' 99) = Some a /\ a_spell a = 705781.
Proof.
  destruct (apply_aura sample_char (Some fire) 99 fight_world) as [r w'] eqn:E.
  assert (r = Ok [AuraOn 99 705781 0]) as -> by (revert E; vm_compute; intros E; injection E as <- _; reflexivity).
  destruct (apply_aura_slot sample_char fire 99 fight_world _ w' fight_ok E)
    as (_ & _ & _ & (a & Ha & Hm & _) & _).
  exists w', a. split; [reflexivity|]. exact (conj Ha Hm).
Defined.
End Witnesses.
