(* ===== verification/Player.v ===== *)
(** * The player's create object and the bag (world_server.py)

    The essence budget and the known entries as the login sends them, the item
    template reply, the two essence stacks every character carries, and the
    update object that puts the player in the world. *)
From S2P Require Import Prelude Wire PyFloat Text Json Consts Framing Chars Dbc Known Spells.
From S2P Require Import Builders World Bars Combat.

Definition essence_of (w : world) (rows : list (list Z)) (level clas : Z) : res (Z * Z) :=
  essence_for (w_override w) rows level (Some clas).

(** [(r["id"], r["rank"]) + KNOWN_UNKNOWN_FIELDS]. *)
Definition known_record (r : ca_row) : ca_record :=
  let k i := nth i KNOWN_UNKNOWN_FIELDS 0 in
  CaRecord (kr_id r) (kr_rank r) (k 0%nat) (k 1%nat) (k 2%nat) (k 3%nat).

Section Player.
Context `{Env}.

(** [send_known_entries]: the whole set, then the spellbook's difference. *)
Definition send_known_entries (c : character) : M Z :=
  db ← gets w_known;
  rows ← lift (known_for db (c_guid c));
  send_r SMSG_CA_KNOWN_ENTRIES (smsg_ca_known_entries (map known_record rows)) ;;
  sync_spellbook c ;;
  mret (pylen rows).

(** [send_essence_budget]: the packets are all built before the first byte is
    written. *)
Definition send_essence_budget : M Z :=
  override ← gets w_override;
  pkts ← lift (essence_packets override ESSENCE_ROWS);
  send_batch_pkts pkts.

Definition essence_m (level clas : Z) : M (Z * Z) :=
  w ← get; lift (essence_of w ESSENCE_ROWS level clas).
End Player.

(** ** Items *)

Record item_template := ItemTemplate {
  it_name : pystr; it_quality : Z; it_stackable : Z; it_description : pystr }.

Definition ITEM_TEMPLATES : list (Z * item_template) :=
  [(ITEM_ABILITY_ESSENCE, ItemTemplate (lit "Ability Essence") 4 1000000
      (lit "Spent to learn abilities in the Character Advancement panel."));
   (ITEM_TALENT_ESSENCE, ItemTemplate (lit "Talent Essence") 4 1000000
      (lit "Spent to learn talents in the Character Advancement panel."))].

Definition zeros (n : nat) : bytes := concat (replicate n (le 4 0)).
Definition minus_one : bytes := le 4 0xFFFFFFFF.

(** [struct.pack("<I", entry | 0x80000000)] for an unknown entry; the fields of
    a known one in the client's order. *)
Definition smsg_item_query_single_response (entry : Z) : res bytes :=
  match dget entry ITEM_TEMPLATES with
  | None => packI (Z.lor entry 0x80000000)
  | Some t =>
      e ← packI entry;
      name ← cstr (it_name t);
      q ← packI (it_quality t);
      st ← packi (it_stackable t);
      z2 ← packfs [f_zero; f_zero];
      z1 ← packf f_zero;
      desc ← cstr (it_description t);
      Ok (e ++ le 4 15 ++ le 4 0 ++ minus_one ++ name ++ [0; 0; 0] ++ le 4 0 ++ q
          ++ zeros 2 ++ zeros 2 ++ le 4 0 ++ minus_one ++ minus_one ++ le 4 1 ++ zeros 8
          ++ le 4 0 ++ st ++ le 4 0 ++ le 4 0 ++ zeros 2
          ++ concat (replicate 2 (z2 ++ le 4 0))
          ++ zeros 7 ++ zeros 2 ++ z1
          ++ concat (replicate 5 (zeros 3 ++ minus_one ++ le 4 0 ++ minus_one))
          ++ le 4 0 ++ desc ++ zeros 5 ++ le 4 0 ++ zeros 10
          ++ concat (replicate 3 (zeros 2)) ++ zeros 2 ++ minus_one ++ z1 ++ le 4 0 ++ le 4 0 ++ le 4 0)
  end.

(** [build_item_create_block]. *)
Definition build_item_create_block (item_guid owner_guid entry count : Z) : res bytes :=
  scale ← f32le (f64_of_Z 1);
  vals ← build_values_block
    [(OBJECT_FIELD_GUID, u32le (Z.land item_guid 0xFFFFFFFF));
     (OBJECT_FIELD_GUID + 1, u32le (Z.land (Z.shiftr item_guid 32) 0xFFFFFFFF));
     (OBJECT_FIELD_TYPE, u32le TYPEMASK_ITEM);
     (OBJECT_FIELD_ENTRY, u32le entry);
     (OBJECT_FIELD_SCALE_X, scale);
     (ITEM_FIELD_OWNER, u32le (Z.land owner_guid 0xFFFFFFFF));
     (ITEM_FIELD_OWNER + 1, u32le (Z.land (Z.shiftr owner_guid 32) 0xFFFFFFFF));
     (ITEM_FIELD_CONTAINED, u32le (Z.land owner_guid 0xFFFFFFFF));
     (ITEM_FIELD_CONTAINED + 1, u32le (Z.land (Z.shiftr owner_guid 32) 0xFFFFFFFF));
     (ITEM_FIELD_STACK_COUNT, u32le count);
     (ITEM_FIELD_FLAGS, u32le 0);
     (ITEM_FIELD_DURABILITY, u32le 0);
     (ITEM_FIELD_MAXDURABILITY, u32le 0)] (Some ITEM_END);
  Ok ([UPDATETYPE_CREATE_OBJECT] ++ pack_guid item_guid ++ [TYPEID_ITEM]
      ++ le 2 UPDATEFLAG_LOWGUID ++ le 4 (Z.land item_guid 0xFFFFFFFF) ++ vals).

Record bag_item := BagItem { bi_slot : Z; bi_guid : Z; bi_entry : Z; bi_count : Z }.

(** [archive_inventory]: a stack of each essence that is not empty, under a
    GUID derived from the owner's. *)
Definition archive_inventory (owner : Z) (essence : Z * Z) : list bag_item :=
  let '(ae, te) := essence in
  omap (M:=list) (fun '(slot, (entry, count)) =>
          if count <=? 0 then None
          else Some (BagItem slot (Z.lor HIGHGUID_ITEM (owner * 16 + slot + 1)) entry count))
    [(0, (ITEM_ABILITY_ESSENCE, ae)); (1, (ITEM_TALENT_ESSENCE, te))].

(** The stack updates of the commands that move the budget. *)
Definition stack_update (i : bag_item) : res bytes :=
  build_values_update (bi_guid i) [(ITEM_FIELD_STACK_COUNT, u32le (bi_count i))] ITEM_END.

(** ** The player *)

Definition or_bytes (l : list (Z * Z)) : Z :=
  fold_left (fun acc '(v, s) => Z.lor acc (Z.shiftl v s)) l 0.

(** race, class, gender and power type in one word. *)
Definition bytes0_of (c : character) : Z :=
  let clas := Z.land (c_class c) 0xFF in
  or_bytes [(Z.land (c_race c) 0xFF, 0); (clas, 8); (Z.land (c_gender c) 0xFF, 16);
            (Z.land (power_for clas) 0xFF, 24)].

(** The fields of the values block, as a dictionary: the pools are added after
    the literal, then the flag and the backpack pointers. *)
Definition player_fields (c : character) (st : unit_st) (inv : list bag_item) : res (list (Z * bytes)) :=
  one ← f32le (f64_of_Z 1);
  bound ← f32le (f64_dec 306 (-3));
  reach ← f32le (f64_dec 15 (-1));
  let race := Z.land (c_race c) 0xFF in
  let clas := Z.land (c_class c) 0xFF in
  let gender := Z.land (c_gender c) 0xFF in
  let power := Z.land (power_for clas) 0xFF in
  let guid := c_guid c in
  let faction := default 35 (dget race RACE_FACTION) in
  let base :=
    [(0, u32le (Z.land guid 0xFFFFFFFF));
     (1, u32le (Z.land (Z.shiftr guid 32) 0xFFFFFFFF));
     (2, u32le TYPEMASK_PLAYER);
     (4, one);
     (UNIT_FIELD_BYTES_0, u32le (bytes0_of c));
     (24, u32le (u_hp st));
     (32, u32le (fst (max_pools c)));
     (54, u32le (Z.land (c_level c) 0xFFFFFFFF));
     (55, u32le faction);
     (65, bound);
     (66, reach);
     (67, u32le (c_displayId c));
     (68, u32le (c_displayId c));
     (UNIT_FIELD_BYTES_1, u32le STAND_STATE_STAND);
     (153, u32le (or_bytes [(Z.land (c_skin c) 0xFF, 0); (Z.land (c_face c) 0xFF, 8);
                            (Z.land (c_hairStyle c) 0xFF, 16); (Z.land (c_hairColor c) 0xFF, 24)]));
     (154, u32le (or_bytes [(Z.land (c_facialHair c) 0xFF, 0); (REST_STATE_NORMAL, 24)]));
     (155, u32le gender);
     (634, u32le 0);
     (635, u32le 400);
     (1230, u32le 0xFFFFFFFF)] in
  let f := dset (25 + power) (u32le (u_power st)) base in
  let f := dset (33 + power) (u32le (snd (max_pools c))) f in
  let f := if ARCHIVE_GM_LEVEL >? 0 then dset PLAYER_FLAGS (u32le PLAYER_FLAGS_GM) f else f in
  Ok (fold_left (fun f i =>
        dset (PLAYER_FIELD_PACK_SLOT_1 + bi_slot i * 2 + 1)
             (u32le (Z.land (Z.shiftr (bi_guid i) 32) 0xFFFFFFFF))
          (dset (PLAYER_FIELD_PACK_SLOT_1 + bi_slot i * 2)
             (u32le (Z.land (bi_guid i) 0xFFFFFFFF)) f)) inv f).

(** The movement block. *)
Definition player_movement (ms : Z) (c : character) : res bytes :=
  t ← packI ms;
  p ← packfs [c_x c; c_y c; c_z c; c_o c];
  speeds ← packfs move_speeds;
  Ok (le 2 (Z.lor (Z.lor UPDATEFLAG_SELF UPDATEFLAG_LIVING) UPDATEFLAG_STATIONARY)
      ++ le 4 0 ++ le 2 0 ++ t ++ p ++ le 4 0 ++ speeds).

Section PlayerObject.
Context `{Env}.

(** [build_player_create_object]: the items, then the player. *)
Definition build_player_create_object (c : character) : M bytes :=
  ms ← gets mstime;
  mv ← lift (player_movement ms c);
  st ← unit_state c;
  ess ← essence_m (c_level c) (c_class c);
  let inv := archive_inventory (c_guid c) ess in
  fields ← lift (player_fields c st inv);
  vals ← lift (build_values_block fields (Some PLAYER_END));
  items ← lift (res_map (fun i => build_item_create_block (bi_guid i) (c_guid c) (bi_entry i) (bi_count i)) inv);
  n ← lift (packI (1 + pylen inv));
  mret (n ++ concat items
        ++ ([UPDATETYPE_CREATE_OBJECT2] ++ pack_guid (c_guid c) ++ [TYPEID_PLAYER] ++ mv ++ vals)).

(** The update of the bag stacks after the budget moved. *)
Definition send_stacks (c : character) : M unit :=
  ess ← essence_m (c_level c) (c_class c);
  mapM_ (fun i => send_r SMSG_UPDATE_OBJECT (stack_update i)) (archive_inventory (c_guid c) ess).
End PlayerObject.
