(* ===== verification/Commands.v ===== *)
(** * The dot-commands (world_server.py)

    [run_command], one definition per command: what it changes, what it sends
    and the lines it answers.  [c] is the session's character; a command that
    edits it uses the edited value from then on. *)
From S2P Require Import Prelude Wire PyFloat Text Format Json Consts Framing Chars Dbc Classes.
From S2P Require Import Spells Known Builders Builds World Bars Combat Player.

(** The character object of the session is shared with the account's list, as
    long as it has not been deleted from it. *)
Fixpoint update_first (guid : Z) (f : character -> character) (l : list character) : list character :=
  match l with
  | [] => []
  | x :: l => if c_guid x =? guid then f x :: l else x :: update_first guid f l
  end.

Definition edit_cur (f : character -> character) : M unit :=
  modify (fun w =>
    match w_cur w with
    | None => w
    | Some c =>
        let w := if w_linked w
                 then set_w_db (dset (w_account w)
                        (update_first (c_guid c) f (default [] (dget (w_account w) (w_db w)))) (w_db w)) w
                 else w in
        set_w_cur (Some (f c)) w
    end).

(** [load_chars()], every row with the GUID edited, [save_chars(db)]. *)
Definition edit_file (guid : Z) (f : character -> character) : M unit :=
  modify (fun w => set_w_chars_file
    (map (fun '(a, cs) => (a, map (fun c => if c_guid c =? guid then f c else c) cs)) (w_chars_file w)) w).

Definition dec (n : Z) : pystr := str_of_Z n.

Definition arg (n : nat) (args : list pystr) : res pystr := res_of_option IndexError (args !! n).

(** [args[0].lower() if args else d]. *)
Definition sub_arg `{Unicode} (d : string) (args : list pystr) : pystr :=
  match args with a :: _ => uni_lower a | [] => lit d end.

Definition is_one_of (s : pystr) (l : list string) : bool := bool_decide (s ∈ map lit l).

Section Commands.
Context `{Env}.

Definition repr_str (s : pystr) : pystr := py_repr (JStr s).

(** [int(s)] in a [try] that answers the usage text. *)
Definition try_int (s : res pystr) : option Z :=
  match s with
  | Ok s => match int_of_str s with Ok n => Some n | Err _ => None end
  | Err _ => None
  end.

Definition set_known_m (guid : Z) (rows : list ca_row) : M unit :=
  modify (fun w => set_w_known (set_known (w_known w) guid rows) w).

Definition known_for_m (guid : Z) : M (list ca_row) :=
  db ← gets w_known; lift (known_for db guid).

(** ** [class_report] *)

Definition neg_count_leb (a b : pystr * Z) : bool :=
  if snd a =? snd b then str_leb (fst a) (fst b) else snd b <=? snd a.

Definition plural (n : Z) (one many : string) : pystr := if n =? 1 then lit one else lit many.

Definition class_report (c : character) : M (list pystr) :=
  let byte := Z.land (c_class c) 0xFF in
  let '(total, per) := class_entry_counts CA_INDEX CLASS_TYPES byte in
  let plays := filter (fun ct => class_type_matches ct byte = true) CLASS_TYPES in
  ess ← essence_m (c_level c) byte;
  let '(ae, te) := ess in
  let names := join (lit ", ") (py_sort str_leb (map ct_name plays)) in
  let top := take 6 (py_sort neg_count_leb per) in
  mret
    ([cat [lit "Class byte "; dec byte; lit " -- ChrClasses says ";
           repr_str (default (lit "(no row)") (dget byte CHRCLASSES)); lit "; UnitClass should agree."];
      cat [lit "Admits "; dec total; lit " CA entr"; plural total "y" "ies"; lit " from ";
           dec (pylen plays); lit " class type(s): "; str_or names (lit "(none)")]]
     ++ match per with
        | [] => []
        | _ => [cat [lit "  "; join (lit ", ") (map (fun '(k, v) => cat [k; lit " "; dec v]) top);
                     if pylen per >? pylen top then lit ", ..." else []]]
        end
     ++ [cat [lit "Essence family key "; dec byte; lit " at level "; dec (c_level c); lit ": AE "; dec ae;
              lit " / TE "; dec te;
              lit " (.essprobe to confirm which family the client reads)."]]).

(** ** One command each *)

Definition cmd_info (c : character) : M (list pystr) :=
  ess ← essence_m (c_level c) (c_class c);
  override ← gets w_override;
  mret
    [cat [lit "Archive: "; c_name c; lit " (guid "; dec (c_guid c); lit "), level "; dec (c_level c);
          lit ", map "; dec (c_map c); lit ", gmLevel "; dec ARCHIVE_GM_LEVEL];
     cat [lit "Ability Essence "; dec (fst ess); lit " / Talent Essence "; dec (snd ess); lit " -- ";
          match override with
          | Some _ => lit "manual override"
          | None => cat [lit "Ascension curve (key "; dec ESSENCE_DBC_KEY; lit ", ";
                         dec (pylen (essence_curve ESSENCE_ROWS None)); lit " levels)"]
          end]].

(** Which budget [.essence] names, and the amount. *)
Definition essence_args (args : list pystr) : pystr * option pystr :=
  match args with
  | [] => (lit "both", None)
  | [a] => (lit "both", Some a)
  | a :: b :: _ => (uni_lower a, Some b)
  end.

Definition starts_with (c : Z) (s : pystr) : bool :=
  match s with x :: _ => x =? c | [] => false end.

(** The override the arguments ask for; [None] is the usage text. *)
Definition essence_choice (which : pystr) (amount : option pystr) (ess : Z * Z)
    : option (option (Z * Z)) :=
  if bool_decide (which = lit "both")
     && is_one_of (uni_lower (default (lit "None") amount)) ["reset"; "curve"; "default"]%string
  then Some None
  else
    a ← amount;
    n ← try_int (Ok a);
    let n := Z.max 0 (Z.min n 1000000) in
    if starts_with 97 which then Some (Some (n, snd ess))
    else if starts_with 116 which then Some (Some (fst ess, n))
    else if bool_decide (which = lit "both") then Some (Some (n, n))
    else None.

Definition cmd_essence (c : character) (args : list pystr) : M (list pystr) :=
  let '(which, amount) := essence_args args in
  ess ← essence_m (c_level c) (c_class c);
  match essence_choice which amount ess with
  | None => mret [lit "usage: .essence <n> | .essence ability|talent <n> | .essence reset"]
  | Some override =>
      modify (set_w_override override) ;;
      send_essence_budget ;;
      send_stacks c ;;
      ess ← essence_m (c_level c) (c_class c);
      mret [cat [lit "Essence now: Ability "; dec (fst ess); lit ", Talent "; dec (snd ess); lit " (";
                 match override with Some _ => lit "override" | None => lit "Ascension curve" end;
                 lit "). Reopen the panel to refresh."]]
  end.

Definition ESSPROBE_KEYS : list Z := seqZ_from 64.

Definition cmd_essprobe (c : character) (args : list pystr) : M (list pystr) :=
  match (match args with
         | [] => Some (c_level c)
         | a :: _ => n ← try_int (Ok a); Some (Z.max 0 (Z.min n 85))
         end) with
  | None => mret [lit "usage: .essprobe [level]"]
  | Some level =>
      mapM_ (fun key => mapM_ (fun combo =>
        send_r SMSG_CA_ESSENCE_BUDGET
          (smsg_ca_essence_budget (ESSPROBE_ID_BASE + key * 16 + combo) level
             (essprobe_encode key combo) (key + 1) combo (Some key))) (seqZ_from 16)) ESSPROBE_KEYS ;;
      mret [cat [lit "Sent "; dec (pylen ESSPROBE_KEYS * 16); lit " probe rows at level "; dec level;
                 lit " (ids "; dec ESSPROBE_ID_BASE; lit "+)."];
            cat [lit "Now run:  /run print(C_CharacterAdvancement.GetExpectedAE("; dec level; lit "))"];
            lit "0 = nothing matched.  Otherwise key=(v-1)/16, flagCombo=(v-1)%16."]
  end.

Definition send_field (guid field value : Z) : M unit :=
  send_r SMSG_UPDATE_OBJECT (build_values_update guid [(field, u32le value)] PLAYER_END).

Definition cmd_level (c : character) (args : list pystr) : M (list pystr) :=
  match try_int (arg 0 args) with
  | None => mret [lit "usage: .level <1-80>"]
  | Some n =>
      let lvl := Z.max 1 (Z.min n 80) in
      edit_cur (set_level lvl) ;;
      let c := set_level lvl c in
      edit_file (c_guid c) (set_level lvl) ;;
      send_field (c_guid c) UNIT_FIELD_LEVEL lvl ;;
      send_essence_budget ;;
      send_stacks c ;;
      ess ← essence_m lvl (c_class c);
      mret [cat [lit "Level set to "; dec lvl; lit " (persisted). The CA talent half unlocks at 10."];
            cat [lit "Essence now: Ability "; dec (fst ess); lit ", Talent "; dec (snd ess); lit "."]]
  end.

(** *** Builds *)

Definition build_usage : list pystr :=
  [lit "usage: .build | .build save <id> [name] | .build apply <id>";
   lit "       .build forget <id>";
   lit "<id> is the build UUID the client sends, e.g. from the world log's";
   lit "BUILD_ACTIVATE line."].

Definition build_json (name : pystr) (rows : list ca_row) : json :=
  JDict [(lit "name", JStr name); (lit "entries", JList (map row_json rows))].

Definition build_line (bid : pystr) (b : json) : res pystr :=
  name ← jget b (lit "name") (JStr (lit "<unnamed>"));
  rows ← build_rows b;
  Ok (cat [lit "  "; bid; lit "  "; pad_right 24 (py_str py_repr name); lit " "; dec (pylen rows);
           lit " entry/entries"]).

(** A stored build; [None] for a missing one and for a stored null. *)
Definition stored_build (db : jdict) (bid : pystr) : option json :=
  match dget bid db with Some JNull | None => None | Some b => Some b end.

Definition cmd_build (c : character) (args : list pystr) : M (list pystr) :=
  db ← gets w_builds;
  let sub := sub_arg "list" args in
  if is_one_of sub ["list"; "show"]%string then
    match db with
    | [] => mret [lit "No stored builds. Activate one in the client, copy the id";
                  lit "from the world log, then '.build save <id> <name>'."]
    | _ =>
        lines ← lift (res_map (fun '(bid, b) => build_line bid b) (sorted_items db));
        mret (cat [dec (pylen db); lit " stored build(s):"] :: lines)
    end
  else
    match args with
    | _ :: bid :: rest =>
        if bool_decide (sub = lit "save") then
          rows ← known_for_m (c_guid c);
          match rows with
          | [] => mret [lit "Nothing to save: this character has no learned entries.";
                        lit "'.known class <Class> [Tab]' first."]
          | _ =>
              let name := str_or (join [32] rest) bid in
              modify (set_w_builds (dset bid (build_json name rows) db)) ;;
              mret [cat [lit "Saved build "; bid; lit " ("; repr_str name; lit ") with "; dec (pylen rows);
                         lit " entry/entries."];
                    lit "The client's next ActivateBuild for that id will apply it."]
          end
        else if bool_decide (sub = lit "forget") then
          match stored_build db bid with
          | None => mret [cat [lit "No stored build "; bid; lit "."]]
          | Some _ =>
              modify (set_w_builds (ddel bid db)) ;;
              mret [cat [lit "Deleted build "; bid; lit "."]]
          end
        else if bool_decide (sub = lit "apply") then
          match stored_build db bid with
          | None => mret [cat [lit "No stored build "; bid; lit ". '.build' lists them."]]
          | Some b =>
              rows ← lift (build_rows b);
              set_known_m (c_guid c) rows ;;
              n ← send_known_entries c;
              name ← lift (jget b (lit "name") (JStr bid));
              mret [cat [lit "Applied build "; py_repr name; lit ": "; dec n; lit " entry/entries learned."]]
          end
        else mret build_usage
    | _ => mret build_usage
    end.

(** *** Pools, costs *)

Definition power_usage : list pystr :=
  [lit "usage: .power [n|max] | .health [n|max]";
   lit "       .power <spellId>  is NOT a thing -- use .cost <spellId>"].

Definition cmd_power (c : character) (cmd : pystr) (args : list pystr) : M (list pystr) :=
  st ← unit_state c;
  let '(maxhp, maxp) := max_pools c in
  let health := is_one_of cmd ["hp"; "health"]%string in
  let cap := if health then maxhp else maxp in
  let put n := put_unit (c_guid c) (if health then UnitSt n (u_power st) else UnitSt (u_hp st) n) in
  let report :=
    st ← unit_state c;
    mret [cat [lit "Health "; dec (u_hp st); lit "/"; dec maxhp; lit ", power "; dec (u_power st); lit "/";
               dec maxp; lit " (type "; dec (ptype_of c); lit ", field ";
               dec (UNIT_FIELD_POWER1 + ptype_of c); lit ") at level "; dec (c_level c); lit "."]] in
  match args with
  | [] => report
  | a :: _ =>
      match (if is_one_of (uni_lower a) ["max"; "full"]%string then Some cap
             else n ← try_int (Ok (uni_lower a)); Some (Z.max 0 (Z.min cap n))) with
      | None => mret power_usage
      | Some n => put n ;; send_power_update c ;; report
      end
  end.

Definition cmd_cost (c : character) (args : list pystr) : M (list pystr) :=
  match try_int (arg 0 args) with
  | None => mret [lit "usage: .cost <spellId>"]
  | Some sid =>
      match spell_info sid with
      | None => mret [cat [lit "Spell "; dec sid; lit " is not in Ascension's Spell.dbc."]]
      | Some info =>
          st ← unit_state c;
          let effects := map (fun e => cat [dec (se_effect e); lit "(base "; dec (se_basePoints e);
                                            lit ", die "; dec (se_dieSides e); lit ")"])
                           (filter (fun e => se_effect e <> 0) (si_effects info)) in
          mret
            [cat [dec sid; lit " "; repr_str (si_name info); lit ": ManaCost "; dec (si_manaCost info);
                  lit " + "; dec (si_manaCostPct info); lit "% of base -> costs ";
                  dec (power_cost (Some info) c); lit ", you have "; dec (u_power st); lit "."];
             cat [lit "  powerType "; dec (si_powerType info); lit ", school 0x"; hex_of_Z (si_schoolMask info);
                  lit ", effects "; str_or (join (lit ", ") effects) (lit "none")]]
      end
  end.

(** *** Auras and dummies *)

Definition seconds (ms : Z) : f64 := f64_div (f64_of_Z ms) (f64_of_Z 1000).

Definition tick_text (ticks : list tick) : pystr :=
  match ticks with
  | [] => []
  | t :: _ => cat [lit ", "; join (lit "/") (map (fun t => dec (t_amount t)) ticks); lit " every ";
                   fmt_f1 (seconds (t_period t / 1000000)); lit "s"]
  end.

Definition aura_line (now guid target : Z) (sa : Z * aura) : pystr :=
  let '(slot, a) := sa in
  let who := if target =? guid then lit "you" else lit "dummy 0x" ++ hex_of_Z target in
  cat [lit "  ["; pad_left 2 (dec slot); lit "] "; pad_right 30 (take 30 (a_name a)); lit " on ";
       pad_right 12 who; lit " ";
       match a_expires a with
       | Some _ => cat [fmt_f1 (seconds (aura_remaining_ms now a)); lit "/";
                        fmt_f1 (seconds (a_maxdur_ms a)); lit "s"]
       | None => lit "no timer"
       end;
       tick_text (a_ticks a)].

(** [.aura clear]: every slot of every target, by the keys found at the start. *)
Definition clear_auras : M Z :=
  auras ← gets w_auras;
  foldM (fun n target =>
    held ← gets (fun w => held_auras w target);
    foldM (fun n slot => r ← remove_aura target slot;
                         mret (match r with Some _ => n + 1 | None => n end)) n (dkeys held))
    0 (dkeys auras).

Definition cmd_aura (c : character) (args : list pystr) : M (list pystr) :=
  if is_one_of (sub_arg "list" args) ["clear"; "remove"; "off"]%string then
    n ← clear_auras; mret [cat [lit "Removed "; dec n; lit " aura(s)."]]
  else
    t ← now;
    auras ← gets w_auras;
    let lines := concat (map (fun '(target, held) =>
                   map (aura_line t (c_guid c) target) (py_sort key_leb held)) (py_sort key_leb auras)) in
    mret (match lines with [] => [lit "No auras are active."] | _ => lit "Active auras:" :: lines end).

Definition dummy_usage : list pystr :=
  [lit "usage: .dummy [displayId [distance [scale]]] | .dummy remove"].

Definition dummy_params (rest : list pystr) : res (option Z * option f64 * f64) :=
  display ← match rest !! 0%nat with Some s => n ← int_of_str s; Ok (Some n) | None => Ok None end;
  dist ← match rest !! 1%nat with Some s => x ← float_of_str s; Ok (Some x) | None => Ok None end;
  scale ← match rest !! 2%nat with Some s => float_of_str s | None => Ok (f64_of_Z 1) end;
  Ok (display, dist, scale).

Definition cmd_dummy (c : character) (args : list pystr) : M (list pystr) :=
  let which := sub_arg "" args in
  if is_one_of which ["remove"; "clear"; "off"]%string then
    n ← despawn_dummies; mret [cat [lit "Removed "; dec n; lit " dummy/dummies."]]
  else
    let spawn := is_one_of which ["add"; "spawn"]%string in
    let rest := if spawn then drop 1 args else args in
    if negb (bool_decide (which = [])) && negb spawn && negb (str_isdigit (take 1 which))
    then mret dummy_usage
    else
      match dummy_params rest with
      | Err ValueError => mret dummy_usage
      | Err e => lift (Err e)
      | Ok (display, dist, scale) =>
          r ← spawn_dummy c display dist scale;
          let '(guid, d) := r in
          mret [cat [ARCHIVE_DUMMY_NAME; lit " at ("; fmt_f1 (d_x d); lit ", "; fmt_f1 (d_y d); lit ", ";
                     fmt_f1 (d_z d); lit "), guid 0x"; hex_of_Z guid; lit ", "; dec (d_maxhp d);
                     lit " hp, display "; dec (d_display d); lit ", scale "; fmt_f1 (d_scale d); lit "."];
                lit "Press TAB to target it -- TargetUnit() is protected and does";
                lit "nothing from /run, but the TAB binding works.  A dummy spawned";
                lit "away from you (dist > 0) usually cannot be targeted at all:";
                lit "there is no terrain height here, so it lands off the ground."]
      end.

(** *** Action bars *)

Definition bars_usage : list pystr :=
  [lit "usage: .bars | .bars auto | .bars clear";
   lit "       .bars set <wire-slot> <spellId>   (spellId 0 clears it)"].

Definition slot_key (slot : Z) : pystr :=
  if slot <? 12 then lit ", key " ++ slice slot (slot + 1) (lit "1234567890-=")
  else lit " -- no default keybind reaches it".

Definition bars_set_cmd (c : character) (args : list pystr) : M (list pystr) :=
  let guid := c_guid c in
  if negb (pylen args =? 3) then mret (lit "'.bars set' needs a slot and a spell id." :: bars_usage)
  else
    match try_int (arg 1 args), try_int (arg 2 args) with
    | Some slot, Some sid =>
        if negb ((0 <=? slot) && (slot <? MAX_ACTION_BUTTONS)) then
          mret [cat [lit "Wire slot must be 0.."; dec (MAX_ACTION_BUTTONS - 1);
                     lit " (Lua slot N is wire N-1)."]]
        else if sid >? ACTION_BUTTON_ACTION_MAX then
          mret [cat [lit "Spell "; dec sid; lit " does not fit the 24-bit action field."]]
        else if sid =? 0 then
          bars_set guid slot 0 ;;
          save_bars true ;;
          send_action_buttons c ;;
          mret [cat [lit "Wire slot "; dec slot; lit " cleared (Lua slot "; dec (slot + 1); lit ")."]]
        else
          match spell_info sid with
          | None => mret [cat [lit "Spell.dbc has no spell "; dec sid; lit "."]]
          | Some info =>
              bars_set guid slot (Z.lor sid (Z.shiftl ACTION_BUTTON_SPELL 24)) ;;
              save_bars true ;;
              send_action_buttons c ;;
              mret [cat [lit "Wire slot "; dec slot; lit " = "; str_or (si_name info) (lit "?"); lit " (";
                         dec sid; lit "). That is Lua slot "; dec (slot + 1); slot_key slot; lit "."]]
          end
    | _, _ => mret (lit "Both the slot and the spell id must be numbers." :: bars_usage)
    end.

Definition bars_slot_line (sp : Z * Z) : pystr :=
  let '(slot, packed) := sp in
  let atype := Z.shiftr packed 24 in
  let action := Z.land packed ACTION_BUTTON_ACTION_MAX in
  let name := if atype =? ACTION_BUTTON_SPELL
              then match spell_info action with Some i => si_name i | None => [] end else [] in
  cat [lit "  "; pad_left 3 (dec slot); lit "  0x"; hex_pad 8 packed; lit "  type="; dec atype; lit "  ";
       str_or name (lit "action " ++ dec action)].

Definition cmd_bars (c : character) (args : list pystr) : M (list pystr) :=
  let guid := c_guid c in
  let which := sub_arg "" args in
  if bool_decide (which = lit "set") then bars_set_cmd c args
  else if is_one_of which ["auto"; "clear"]%string then
    let auto := bool_decide (which = lit "auto") in
    l ← (if auto then bars_autofill c else mret []);
    bars_adopt guid l ;;
    send_action_buttons c ;;
    mret [cat [lit "Bars "; if auto then lit "rebuilt from castable known spells" else lit "cleared";
               lit " -- "; dec (pylen l); lit " slot(s) bound."]]
  else if negb (bool_decide (which = [])) then
    mret (cat [lit "Unknown .bars subcommand "; repr_str which; lit "."] :: bars_usage)
  else
    l ← bars_for guid;
    match l with
    | [] => mret [lit "No saved layout. The next SMSG_ACTION_BUTTONS will seed one,";
                  lit "or '.bars auto' does it now."]
    | _ =>
        let shown := py_sort key_leb l in
        mret (cat [dec (pylen l); lit " slot(s) bound. Wire slots are 0-based -- Lua's slot N is wire N-1:"]
              :: map bars_slot_line (take 24 shown)
              ++ (if pylen l >? 24 then [cat [lit "  ... and "; dec (pylen l - 24); lit " more"]] else []))
    end.

(** *** The class *)

Definition class_usage : list pystr :=
  [lit "usage: .class | .class <name|byte> | .class list [classic|custom|reborn]"].

Definition class_list (group : option pystr) : list pystr :=
  let shown := filter (fun ct => ct_required ct <> 0 /\ default (class_group ct) group = class_group ct)
                 CLASS_TYPES in
  match shown with
  | [] => cat [lit "No class types in group "; py_repr match group with Some g => JStr g | None => JNull end;
               lit "."] :: class_usage
  | _ =>
      lit "CoA classes -- byte is what goes in UNIT_FIELD_BYTES_0:" ::
      map (fun ct => cat [lit "  "; pad_right 3 (dec (ct_required ct)); lit " "; pad_right 18 (ct_name ct);
                          lit " "; pad_right 24 (ct_display ct); lit " "; class_group ct]) shown
  end.

(** The change itself: the character, the file, the known set, and what the
    client is told. *)
Definition change_class (c : character) (byte : Z) (keep : bool) : M (list pystr) :=
  let old := Z.land (c_class c) 0xFF in
  edit_cur (set_class byte) ;;
  let c := set_class byte c in
  edit_file (c_guid c) (set_class byte) ;;
  db ← gets w_known;
  dropped ← lift (class_unlearnable CA_INDEX CLASS_TYPES db (c_guid c) byte);
  (if negb (bool_decide (dropped = [])) && negb keep then
     rows ← known_for_m (c_guid c);
     set_known_m (c_guid c) (filter (fun r => kr_id r ∉ map kr_id dropped) rows)
   else mret tt) ;;
  let power := Z.land (power_for byte) 0xFF in
  send_field (c_guid c) UNIT_FIELD_BYTES_0
    (Z.lor (Z.lor (Z.lor (Z.land (c_race c) 0xFF) (Z.shiftl byte 8))
                  (Z.shiftl (Z.land (c_gender c) 0xFF) 16)) (Z.shiftl power 24)) ;;
  send_essence_budget ;;
  send_stacks c ;;
  send_known_entries c ;;
  report ← class_report c;
  mret ([cat [lit "Class "; dec old; lit " -> "; dec byte; lit "."]] ++ report
        ++ match dropped with
           | [] => []
           | _ => [cat [if keep then lit "Kept" else lit "Dropped"; lit " "; dec (pylen dropped);
                        lit " known entr"; plural (pylen dropped) "y" "ies"; lit " this class cannot learn";
                        if keep then lit " -- LearnID will fail until they go." else lit "."]]
           end).

Definition cmd_class (c : character) (args : list pystr) : M (list pystr) :=
  match CLASS_TYPES, args with
  | [], _ => mret [lit "CharacterAdvancementClassTypes.dbc is unavailable -- see the server log."]
  | _, [] => class_report c
  | _, a :: rest =>
      if bool_decide (uni_lower a = lit "list") then mret (class_list (uni_lower <$> rest !! 0%nat))
      else
        let keep := bool_decide (uni_lower (default [] (last args)) = lit "keep") in
        let args := if keep then removelast args else args in
        match args with
        | [] => mret [lit "usage: .class <name|byte> [keep]"]
        | _ =>
            let want := join [32] args in
            r ← lift (resolve_class_byte CLASS_TYPES want);
            match fst r with
            | None => mret [cat [lit "No class "; repr_str want; lit " -- .class list shows every name and byte."]]
            | Some byte =>
                if byte =? Z.land (c_class c) 0xFF then class_report c else change_class c byte keep
            end
        end
  end.

(** *** Learned entries *)

Definition known_usage : list pystr :=
  [lit "usage: .known | .known add <id> [rank] | .known remove <id>";
   lit "       .known class <ClassType> [TabType] | .known clear"].

(** [%s] of [e[col]]. *)
Definition col_text (e : csv_row) (col : string) : res pystr :=
  match dget (lit col) e with
  | None => Err KeyError
  | Some None => Ok (lit "None")
  | Some (Some s) => Ok s
  end.

Definition entry_text (e : csv_row) (open close : string) : res pystr :=
  name ← col_text e "Name"; clas ← col_text e "ClassType"; tab ← col_text e "TabType";
  Ok (cat [name; lit open; clas; lit "/"; tab; lit close]).

Definition known_line (r : ca_row) : res pystr :=
  text ← match dget (kr_id r) CA_INDEX with
         | Some e => entry_text e " (" ")"
         | None => Ok (lit "<not in the DBC export>")
         end;
  Ok (cat [lit "  "; dec (kr_id r); lit "  rank "; dec (kr_rank r); lit "  "; text]).

Definition known_list (rows : list ca_row) : M (list pystr) :=
  match rows with
  | [] => mret [lit "No learned CA entries. '.known class Tinker' learns one."]
  | _ =>
      lines ← lift (res_map known_line (take 20 rows));
      mret (cat [dec (pylen rows); lit " learned CA entry/entries:"] :: lines
            ++ (if pylen rows >? 20
                then [cat [lit "  ... and "; dec (pylen rows - 20); lit " more (see knownentries.json)"]]
                else []))
  end.

(** [rows] with the entry at the rank, in id order. *)
Definition learn_row (rows : list ca_row) (id rank : Z) : list ca_row :=
  py_sort row_leb (filter (fun r => kr_id r <> id) rows ++ [CaRow id rank]).

Definition forget_row (rows : list ca_row) (id : Z) : list ca_row :=
  filter (fun r => kr_id r <> id) rows.

Definition known_add (c : character) (rows : list ca_row) (id rank : Z) : M (list pystr) :=
  let rows := learn_row rows id rank in
  set_known_m (c_guid c) rows ;;
  send_known_entries c ;;
  text ← lift match dget id CA_INDEX with
              | Some e => entry_text e ", " ""
              | None => Ok (lit "not in the DBC export, sent anyway")
              end;
  mret [cat [lit "Learned "; dec id; lit " ("; text; lit ") at rank "; dec rank; lit " -- ";
             dec (pylen rows); lit " total."]].

Definition known_remove (c : character) (rows : list ca_row) (id : Z) : M (list pystr) :=
  let kept := forget_row rows id in
  if pylen kept =? pylen rows then mret [cat [dec id; lit " was not learned."]]
  else
    set_known_m (c_guid c) kept ;;
    send_known_entries c ;;
    mret [cat [lit "Forgot "; dec id; lit " -- "; dec (pylen kept); lit " left."]].

(** [sorted({...})]. *)
Definition sorted_set (l : list pystr) : list pystr := py_sort str_leb (remove_dups l).

Definition picked_entries (want_class : pystr) (want_tab : option pystr) : list csv_row :=
  filter (fun e => uni_lower (csv_str e (lit "ClassType")) = want_class
                   /\ default (uni_lower (csv_str e (lit "TabType"))) want_tab
                      = uni_lower (csv_str e (lit "TabType")))
    (map snd CA_INDEX).

(** The known rows with every picked entry at rank 1. *)
Definition learn_rows (rows : list ca_row) (ids : list Z) : list ca_row :=
  let have := fold_left (fun d r => dset (kr_id r) r d) rows ([] : list (Z * ca_row)) in
  py_sort row_leb (map snd (fold_left (fun d i => dset i (CaRow i 1) d) ids have)).

Definition known_class (c : character) (rows : list ca_row) (args : list pystr) : M (list pystr) :=
  match args with
  | _ :: clas :: rest =>
      match CA_INDEX with
      | [] => mret [lit "The CA entry index is unavailable -- see the server log."]
      | _ =>
          let picked := picked_entries (uni_lower clas) (uni_lower <$> rest !! 0%nat) in
          match picked with
          | [] =>
              let names := sorted_set (map (fun '(_, e) => csv_str e (lit "ClassType")) CA_INDEX) in
              mret [cat [lit "No entries for class "; repr_str clas;
                         match rest !! 0%nat with
                         | Some t => match uni_lower t with [] => [] | _ => lit " tab " ++ repr_str t end
                         | None => []
                         end; lit "."];
                    lit "Known classes: " ++ join (lit ", ") (filter (fun n => n <> []) names)]
          | e :: _ =>
              ids ← lift (res_map (fun e => int_of_str (csv_str e (lit "ID"))) picked);
              let rows := learn_rows rows ids in
              set_known_m (c_guid c) rows ;;
              send_known_entries c ;;
              let tabs := sorted_set (map (fun e => str_or (csv_str e (lit "TabType")) (lit "?")) picked) in
              mret [cat [lit "Learned "; dec (pylen picked); lit " "; str_or (csv_str e (lit "ClassType")) clas;
                         lit " entry/entries ("; join (lit ", ") (take 6 tabs);
                         if pylen tabs >? 6 then lit " ..." else []; lit ") -- "; dec (pylen rows); lit " total."];
                    lit "Reopen the Character Advancement panel to see them."]
          end
      end
  | _ => mret known_usage
  end.

Definition cmd_known (c : character) (args : list pystr) : M (list pystr) :=
  rows ← known_for_m (c_guid c);
  let sub := sub_arg "list" args in
  if is_one_of sub ["list"; "show"]%string then known_list rows
  else if bool_decide (sub = lit "clear") then
    set_known_m (c_guid c) [] ;;
    send_known_entries c ;;
    mret [cat [lit "Forgot "; dec (pylen rows); lit " entry/entries. The client diffs the new set itself."]]
  else if is_one_of sub ["add"; "learn"]%string then
    match try_int (arg 1 args), (if pylen args >? 2 then try_int (arg 2 args) else Some 1) with
    | Some id, Some rank => known_add c rows id rank
    | _, _ => mret known_usage
    end
  else if is_one_of sub ["remove"; "forget"]%string then
    match try_int (arg 1 args) with
    | Some id => known_remove c rows id
    | None => mret known_usage
    end
  else if bool_decide (sub = lit "class") then known_class c rows args
  else mret known_usage.

(** ** The dispatcher *)

Definition run_command (c : character) (cmdline : pystr) : M (list pystr) :=
  match split_ws cmdline with
  | [] => mret COMMAND_HELP
  | p :: args =>
      let cmd := uni_lower p in
      if is_one_of cmd ["help"; "commands"]%string then mret COMMAND_HELP
      else if bool_decide (cmd = lit "info") then cmd_info c
      else if bool_decide (cmd = lit "essence") then cmd_essence c args
      else if bool_decide (cmd = lit "essprobe") then cmd_essprobe c args
      else if bool_decide (cmd = lit "level") then cmd_level c args
      else if bool_decide (cmd = lit "build") then cmd_build c args
      else if is_one_of cmd ["power"; "mana"; "hp"; "health"]%string then cmd_power c cmd args
      else if bool_decide (cmd = lit "cost") then cmd_cost c args
      else if is_one_of cmd ["aura"; "auras"]%string then cmd_aura c args
      else if bool_decide (cmd = lit "dummy") then cmd_dummy c args
      else if bool_decide (cmd = lit "bars") then cmd_bars c args
      else if bool_decide (cmd = lit "class") then cmd_class c args
      else if bool_decide (cmd = lit "known") then cmd_known c args
      else mret [cat [lit "Unknown command '."; cmd; lit "' -- try .help"]]
  end.
End Commands.
