(* ===== verification/Session.v ===== *)
(** * A session (world_server.py, [handle_client])

    The opening of a connection, the header of every packet the client sends,
    the idle clock, and one definition per opcode: what its branch of the
    dispatch changes and sends.  A branch that raises closes the connection
    with what it did so far done. *)
From S2P Require Import Prelude Wire PyFloat Text Format Json Consts Rc4 Framing Chars Account.
From S2P Require Import Dbc Classes Spells Known Builders Builds World Bars Combat.
From S2P Require Import Player Commands.

(** ** Reading a body *)

(** [struct.unpack_from("<Q", cbody, 0)[0] if len(cbody) >= 8 else 0]. *)
Definition body_guid (b : bytes) : Z := if pylen b >=? 8 then unle (take 8 b) else 0.
Definition body_u32 (dflt : Z) (b : bytes) : Z := if pylen b >=? 4 then unle (take 4 b) else dflt.
Definition body_4 (b : bytes) : bytes := if pylen b >=? 4 then take 4 b else [0; 0; 0; 0].

(** The bytes up to the first NUL, or all of them, as text. *)
Definition body_cstr (b : bytes) : pystr :=
  utf8_decode_replace (match find_byte 0 b with Some z => take z b | None => b end).

(** Whole seconds of [time.time()]. *)
Definition wall_s (w : world) : Z := ck_wall (w_clock w) / 1000000000.

Section Session.
Context `{Env}.

Definition my_chars : M (list character) := gets (fun w => default [] (dget (w_account w) (w_db w))).

Definition find_char (guid : Z) : M (option character) :=
  cs ← my_chars; mret (find (fun c => c_guid c =? guid) cs).

Definition save_chars_db : M unit := modify (fun w => set_w_chars_file (w_db w) w).

Definition burst_send (part : string) : bool := bool_decide (lit part ∉ BURST_SKIP).

Definition cur_guid : M Z := gets (fun w => match w_cur w with Some c => c_guid c | None => 0 end).

Definition cur_name : M pystr := gets (fun w => match w_cur w with Some c => c_name c | None => [] end).

(** ** The CA block *)

Definition ca_mode_is (l : list string) : bool := is_one_of ARCHIVE_CA_MODE l.

(** [flush_ca].  The character owed its block is always the session's own: both
    are set by the login and cleared by the logout. *)
Definition flush_ca : M unit :=
  modify (set_w_ca_pending false) ;;
  if ca_mode_is ["none"]%string then mret tt
  else
    cur ← gets w_cur;
    match cur with
    | None => mret tt
    | Some c =>
        send_r SMSG_CA_ACTIVE_SPEC (smsg_ca_active_spec 0 1) ;;
        (if ca_mode_is ["full"; "budget"]%string then send_essence_budget ;; mret tt else mret tt) ;;
        (if ca_mode_is ["full"; "known"]%string then send_known_entries c ;; mret tt else mret tt) ;;
        (match default [] (c_activeBuild c) with
         | [] => mret tt
         | b => send_pkt SMSG_BUILD_ACTIVE_BUILD_UPDATE
                  (smsg_build_active_build_update py_repr ARCHIVE_ACTIVE_SPEC b 0 0)
         end) ;;
        ack ← gets w_ca_ack;
        (match ack with
         | None => mret tt
         | Some _ => send_pkt SMSG_BUILD_ACTIVATE_RESULT
                       (smsg_build_activate_result py_repr (lit "ACTIVATE_BUILD_OK")) ;;
                     modify (set_w_ca_ack None)
         end) ;;
        essence_m (c_level c) (c_class c) ;;
        mret tt
    end.

(** ** Clocks *)

(** [_idle], and the same call at the head of every packet. *)
Definition idle : M unit :=
  w ← get;
  match w_cur w with
  | Some c => when_ (w_in_world w) (aura_tick c ;; mret tt)
  | None => mret tt
  end.

(** ** Character select *)

Definition on_char_enum : M unit := cs ← my_chars; send_r SMSG_CHAR_ENUM (smsg_char_enum cs).

Definition name_in_use (cs : list character) (name : pystr) : bool :=
  existsb (fun c => bool_decide (uni_lower (c_name c) = uni_lower (strip name))) cs.

Definition on_char_create (body : bytes) : M unit :=
  match parse_char_create body with
  | Err _ => send_r SMSG_CHAR_CREATE (smsg_char_create CHAR_CREATE_ERROR)
  | Ok cc =>
      cs ← my_chars;
      if name_in_use cs (cc_name cc) then send_r SMSG_CHAR_CREATE (smsg_char_create CHAR_CREATE_NAME_IN_USE)
      else
        modify (fun w => set_w_db (add_char (w_db w) (w_account w) (make_character (w_db w) cc)) w) ;;
        save_chars_db ;;
        send_r SMSG_CHAR_CREATE (smsg_char_create CHAR_CREATE_SUCCESS)
  end.

(** [db[account].remove(victim)] for the victim [find_char] returned. *)
Fixpoint remove_char (guid : Z) (l : list character) : list character :=
  match l with
  | [] => []
  | c :: l => if c_guid c =? guid then l else c :: remove_char guid l
  end.

Definition on_char_delete (body : bytes) : M unit :=
  let guid := body_guid body in
  victim ← find_char guid;
  match victim with
  | None => send_r SMSG_CHAR_DELETE (smsg_char_delete CHAR_DELETE_FAILED)
  | Some _ =>
      modify (fun w =>
        let w := set_w_db (dset (w_account w)
                   (remove_char guid (default [] (dget (w_account w) (w_db w)))) (w_db w)) w in
        if bool_decide (c_guid <$> w_cur w = Some guid) then set_w_linked false w else w) ;;
      save_chars_db ;;
      send_r SMSG_CHAR_DELETE (smsg_char_delete CHAR_DELETE_SUCCESS)
  end.

(** ** Entering and leaving the world *)

Definition send_acct_times (guid mask : Z) : M unit :=
  w ← get;
  modify (set_w_acct (fst (acctdata_seed_bindings default_bindings (wall_s w) (w_acct w) (w_account w) guid))) ;;
  db ← gets w_acct;
  send_r SMSG_ACCOUNT_DATA_TIMES
    (smsg_account_data_times (wall_s w) mask (acctdata_times db (w_account w) guid mask)).

Definition part (name : string) (m : M unit) : M unit := when_ (burst_send name) m.

Definition login_burst (c : character) : M unit :=
  send_r SMSG_LOGIN_VERIFY_WORLD (smsg_login_verify_world c) ;;
  part "acctdata" (send_acct_times (c_guid c) PER_CHARACTER_CACHE_MASK) ;;
  part "tutorial" (send_pkt SMSG_TUTORIAL_FLAGS smsg_tutorial_flags) ;;
  part "spells" (send_spellbook c ;; mret tt) ;;
  part "bind" (send_r SMSG_BINDPOINTUPDATE (smsg_bindpoint_update c)) ;;
  part "timespeed" (lt ← gets (fun w => ck_local (w_clock w));
                    send_r SMSG_LOGIN_SETTIMESPEED (smsg_login_settimespeed lt)) ;;
  part "create" (b ← build_player_create_object c; send_pkt SMSG_UPDATE_OBJECT b) ;;
  part "timesync" (send_r SMSG_TIME_SYNC_REQ (smsg_time_sync_req 0)) ;;
  part "motd" (send_r SMSG_MOTD
    (smsg_motd [cat [lit "Local Ascension archive -- welcome, "; c_name c; lit "."]])).

Definition enter_world (c : character) : M unit :=
  t ← now;
  modify (fun w => set_w_ca_pending_at (if burst_send "ca" then t else 0)
                     (set_w_ca_pending (burst_send "ca") w)) ;;
  essence_m (c_level c) (c_class c) ;;
  modify (fun w => set_w_ts_last t (set_w_linked true (set_w_cur (Some c) (set_w_in_world true w)))).

Definition on_player_login (body : bytes) : M unit :=
  c ← find_char (body_guid body);
  match c with
  | None => send_r SMSG_CHARACTER_LOGIN_FAILED (mkbytes [CHAR_LOGIN_FAILED])
  | Some c =>
      modify (set_w_dummies []) ;;
      login_burst c ;;
      enter_world c
  end.

Definition on_logout_request : M unit :=
  send_pkt SMSG_LOGOUT_RESPONSE (le 4 0 ++ [1]) ;;
  send_pkt SMSG_LOGOUT_COMPLETE [] ;;
  modify (fun w => set_w_ca_pending false (set_w_linked false (set_w_cur None (set_w_in_world false w)))).

(** ** Small queries *)

Definition on_name_query (body : bytes) : M unit :=
  c ← find_char (body_guid body);
  match c with
  | Some c => send_r SMSG_NAME_QUERY_RESPONSE (smsg_name_query_response c)
  | None => mret tt
  end.

Definition on_query_time : M unit :=
  t ← gets wall_s; send_r SMSG_QUERY_TIME_RESPONSE (smsg_query_time_response t).

Definition time_sync_due (t : Z) (w : world) : bool :=
  w_in_world w && (t - w_ts_last w >=? 10000000000).

Definition regen_due (t : Z) (w : world) : bool :=
  w_in_world w && (t - w_regen_last w >=? ARCHIVE_REGEN_INTERVAL).

Definition on_ping (body : bytes) : M unit :=
  send_pkt SMSG_PONG (smsg_pong (body_4 body)) ;;
  t ← now;
  sync ← gets (time_sync_due t);
  when_ sync
    (n ← gets w_ts_counter;
     send_r SMSG_TIME_SYNC_REQ (smsg_time_sync_req n) ;;
     modify (fun w => set_w_ts_last t (set_w_ts_counter (n + 1) w))) ;;
  cur ← gets w_cur;
  regen ← gets (regen_due t);
  (match cur with
   | Some c => when_ regen (modify (set_w_regen_last t) ;; regen_tick c ;; dummy_tick)
   | None => mret tt
   end) ;;
  w ← get;
  when_ (w_ca_pending w && (t - w_ca_pending_at w >=? 10000000000)) flush_ca.

(** ** Chat *)

Record chat := Chat { ch_type : Z; ch_lang : Z; ch_target : pystr; ch_msg : pystr }.

Definition parse_messagechat (body : bytes) : res chat :=
  mtype ← unpackI body 0;
  lang ← unpackI body 4;
  let rest := drop 8 body in
  let '(target, rest) :=
    if bool_decide (mtype ∈ [CHAT_MSG_WHISPER; 0x11]) then
      match find_byte 0 rest with
      | Some z => (utf8_decode_replace (take z rest), drop (S z) rest)
      | None => ([], rest)
      end
    else ([], rest) in
  Ok (Chat mtype lang target (body_cstr rest)).

Definition do_chat (body : bytes) : M unit :=
  m ← lift (parse_messagechat body);
  cur ← gets w_cur;
  match cur with
  | None => mret tt
  | Some c =>
      if starts_with 46 (ch_msg m) && (ARCHIVE_GM_LEVEL >? 0) then
        lines ← run_command c (drop 1 (ch_msg m));
        mapM_ (fun l => send_r SMSG_MESSAGECHAT (smsg_system_message l)) lines
      else if (ch_lang m =? LANG_ADDON) && (ch_type m =? CHAT_MSG_WHISPER) then
        if bool_decide (uni_lower (ch_target m) = uni_lower (c_name c))
        then send_r SMSG_MESSAGECHAT (smsg_addon_whisper (c_guid c) (ch_msg m))
        else mret tt
      else mret tt
  end.

Definition on_messagechat (body : bytes) : M unit := try_ (do_chat body) (mret tt).

(** ** The Character Advancement tree *)

(** The upload's records by id, at the best rank of each. *)
Definition keep_best (best : list (Z * ca_row)) (r : ca_record) : list (Z * ca_row) :=
  let put := dset (cr_id r) (CaRow (cr_id r) (cr_rank r)) best in
  match dget (cr_id r) best with
  | Some cur => if kr_rank cur <? cr_rank r then put else best
  | None => put
  end.

Definition best_ranks (recs : list ca_record) : list (Z * ca_row) := fold_left keep_best recs [].

Definition upload_rows (recs : list ca_record) : list ca_row :=
  py_sort row_leb (map snd (best_ranks recs)).

(** What the log of an upload names: the entry of every change. *)
Definition upload_log (was rows : list ca_row) : res (list pystr) :=
  let changed := filter (fun i => i ∉ map kr_id was) (map kr_id rows)
                 ++ filter (fun i => i ∉ map kr_id rows) (map kr_id was) in
  res_map (fun i => match dget i CA_INDEX with
                    | Some e => entry_text e ", " ""
                    | None => Ok (lit "not in the DBC export")
                    end) changed.

Definition on_known_entries_upload (body : bytes) : M unit :=
  recs ← lift (parse_cmsg_ca_known_entries body);
  cur ← gets w_cur;
  match cur with
  | None => mret tt
  | Some c =>
      was ← known_for_m (c_guid c);
      let rows := upload_rows recs in
      set_known_m (c_guid c) rows ;;
      send_known_entries c ;;
      lift (upload_log was rows) ;;
      mret tt
  end.

(** *** Builds *)

Definition unknown_build : bytes := smsg_build_activate_result py_repr (lit "ACTIVATE_BUILD_UNKNOWN_BUILD").

(** [cur_char["activeBuild"] = build_id] and [set_active_build], which reads,
    edits and writes the file. *)
Definition mark_active_build (c : character) (build_id : pystr) : M unit :=
  edit_cur (set_build (Some build_id)) ;;
  modify (fun w => let '(file, hit) := set_active_build (w_chars_file w) (c_guid c) build_id in
                   if hit : bool then set_w_chars_file file w else w).

(** While the client is on the loading screen: record it, answer later. *)
Definition defer_activation (c : character) (build_id : pystr) (build : option json) : M unit :=
  match build with
  | None => send_pkt SMSG_BUILD_ACTIVATE_RESULT unknown_build
  | Some b =>
      rows ← lift (build_rows b);
      set_known_m (c_guid c) rows ;;
      mark_active_build c build_id ;;
      modify (fun w => set_w_sent (ddel (c_guid c) (w_sent w)) w) ;;
      modify (set_w_ca_ack (Some build_id)) ;;
      lift (jget b (lit "name") (JStr build_id)) ;;
      mret tt
  end.

Definition activate_now (c : character) (build_id : pystr) (build : option json) : M unit :=
  match build with
  | None =>
      send_known_entries c ;;
      send_pkt SMSG_BUILD_ACTIVATE_RESULT unknown_build
  | Some b =>
      rows ← lift (build_rows b);
      set_known_m (c_guid c) rows ;;
      send_known_entries c ;;
      send_pkt SMSG_BUILD_ACTIVE_BUILD_UPDATE
        (smsg_build_active_build_update py_repr ARCHIVE_ACTIVE_SPEC build_id 0 0) ;;
      mark_active_build c build_id ;;
      send_pkt SMSG_BUILD_ACTIVATE_RESULT (smsg_build_activate_result py_repr (lit "ACTIVATE_BUILD_OK")) ;;
      lift (jget b (lit "name") (JStr build_id)) ;;
      mret tt
  end.

Definition on_build_activate (body : bytes) : M unit :=
  let build_id := body_cstr body in
  w ← get;
  match w_cur w with
  | None => mret tt
  | Some c =>
      let build := stored_build (w_builds w) build_id in
      if w_ca_pending w then defer_activation c build_id build else activate_now c build_id build
  end.

Definition on_build_query_category (body : bytes) : M unit :=
  let category := body_cstr body in
  author ← cur_name;
  w ← get;
  recs ← lift (build_records_for py_repr CA_INDEX CLASS_TYPES (wall_s w) (w_builds w) category author None);
  send_r SMSG_BUILD_CATEGORY_RESULT (smsg_build_category_result category recs 0 1).

Definition on_build_query (body : bytes) : M unit :=
  let bid := body_cstr body in
  author ← cur_name;
  w ← get;
  let record := smsg_build_record py_repr CA_INDEX CLASS_TYPES (wall_s w) in
  let answer status rec := send_pkt SMSG_BUILD_RESULT (smsg_build_result py_repr (lit status) rec) in
  let unknown := rec ← lift (record [] (JDict [(lit "class", JInt 0)]) 0 author None);
                 answer "VIEW_BUILD_UNKNOWN"%string rec in
  match stored_build (w_builds w) bid with
  | None => unknown
  | Some b =>
      spells ← lift (build_spell_rows CA_INDEX b);
      match spells with
      | [] => unknown
      | _ => rec ← lift (record bid b 0 author None); answer "VIEW_BUILD_OK"%string rec
      end
  end.

(** ** Account data *)

Definition on_request_account_data (body : bytes) : M unit :=
  let atype := body_u32 0xFF body in
  if atype >=? NUM_ACCOUNT_DATA_TYPES then mret tt
  else
    g ← cur_guid;
    w ← get;
    r ← lift (acctdata_get (w_acct w) (w_account w) g atype);
    send_r SMSG_UPDATE_ACCOUNT_DATA (smsg_update_account_data zlib_compress g atype (fst r) (snd r)).

(** The text of the upload; the name the inflated bytes are bound to is the
    session's decryptor. *)
Definition inflate_upload (rawlen : Z) (payload : bytes) : M (option pystr) :=
  if rawlen =? 0 then mret (Some [])
  else
    match zlib_decompress payload with
    | None => mret None
    | Some d => modify (set_w_dec (DecBytes d)) ;; mret (Some (body_cstr d))
    end.

Definition on_update_account_data (body : bytes) : M unit :=
  if pylen body <? 12 then mret tt
  else
    atype ← lift (unpackI body 0);
    tstamp ← lift (unpackI body 4);
    rawlen ← lift (unpackI body 8);
    if atype >=? NUM_ACCOUNT_DATA_TYPES then mret tt
    else
      g ← cur_guid;
      text ← inflate_upload rawlen (drop 12 body);
      match text with
      | None => mret tt
      | Some text =>
          modify (fun w => set_w_acct (acctdata_set (w_acct w) (w_account w) g atype tstamp text) w) ;;
          send_r SMSG_UPDATE_ACCOUNT_DATA_COMPLETE (a ← packI atype; Ok (a ++ le 4 0))
      end.

(** ** Spells *)

Definition on_cast_spell (body : bytes) : M unit :=
  p ← lift (parse_cmsg_cast_spell body);
  let '(cast_count, spell_id, cast_flags, targets) := p in
  w ← get;
  match w_cur w with
  | None => mret tt
  | Some c =>
      if negb (w_in_world w) then mret tt
      else
        spells ← known_spells (c_guid c);
        let info := spell_info spell_id in
        let '(_, tguid) := parse_spell_targets targets in
        if bool_decide (spell_id ∈ map ks_spell spells) then
          let cost := power_cost info c in
          st ← unit_state c;
          if cost >? u_power st then
            send_r SMSG_CAST_FAILED (smsg_cast_failed cast_count spell_id SPELL_FAILED_NO_POWER)
          else
            put_unit (c_guid c) (UnitSt (u_hp st) (u_power st - cost)) ;;
            ms ← gets mstime;
            send_r SMSG_SPELL_GO (smsg_spell_go ms c cast_count spell_id targets tguid) ;;
            when_ (negb (cost =? 0)) (send_power_update c) ;;
            apply_spell_effects c info tguid ;;
            mret tt
        else send_r SMSG_CAST_FAILED (smsg_cast_failed cast_count spell_id SPELL_FAILED_NOT_KNOWN)
  end.

Definition on_cancel_aura (body : bytes) : M unit :=
  let sid := body_u32 0 body in
  cur ← gets w_cur;
  match cur with
  | None => mret tt
  | Some c =>
      held ← gets (fun w => held_auras w (c_guid c));
      mapM_ (fun '(slot, a) => when_ (a_spell a =? sid) (remove_aura (c_guid c) slot ;; mret tt)) held
  end.

Definition on_set_action_button (body : bytes) : M unit :=
  g ← cur_guid;
  cid ← gets w_cid;
  bars_note_packet cid g body ;;
  mret tt.

(** ** The rest *)

Definition on_item_query_single (body : bytes) : M unit :=
  send_r SMSG_ITEM_QUERY_SINGLE_RESPONSE (smsg_item_query_single_response (body_u32 0 body)).

Definition on_creature_query (body : bytes) : M unit :=
  send_r SMSG_CREATURE_QUERY_RESPONSE (smsg_creature_query_response (body_u32 0 body)).

Definition on_standstatechange (body : bytes) : M unit :=
  let st := Z.land (body_u32 0 body) 0xFF in
  t ← now;
  w ← get;
  if negb (st =? w_stand_state w) || (t - w_stand_last w >=? 1000000000) then
    modify (fun w => set_w_stand_last t (set_w_stand_state st w)) ;;
    (match w_cur w with
     | Some c => send_field (c_guid c) UNIT_FIELD_BYTES_1 st
     | None => mret tt
     end) ;;
    send_r SMSG_STANDSTATE_UPDATE (mkbytes [st])
  else mret tt.

Definition on_set_active_mover : M unit := p ← gets w_ca_pending; when_ p flush_ca.

(** ** The dispatch *)

Definition handle_packet (opc : Z) (body : bytes) : M unit :=
  idle ;;
  if opc =? CMSG_CHAR_ENUM then on_char_enum
  else if opc =? CMSG_CHAR_CREATE then on_char_create body
  else if opc =? CMSG_CHAR_DELETE then on_char_delete body
  else if opc =? CMSG_PLAYER_LOGIN then on_player_login body
  else if opc =? CMSG_LOGOUT_REQUEST then on_logout_request
  else if opc =? CMSG_LOGOUT_CANCEL then send_pkt SMSG_LOGOUT_CANCEL_ACK []
  else if opc =? CMSG_NAME_QUERY then on_name_query body
  else if opc =? CMSG_QUERY_TIME then on_query_time
  else if opc =? CMSG_REALM_SPLIT then send_pkt SMSG_REALM_SPLIT (smsg_realm_split (body_4 body))
  else if opc =? CMSG_PING then on_ping body
  else if opc =? CMSG_READY_FOR_ACCOUNT_DATA_TIMES then send_acct_times 0 GLOBAL_CACHE_MASK
  else if opc =? CMSG_MESSAGECHAT then on_messagechat body
  else if opc =? CMSG_ITEM_QUERY_SINGLE then on_item_query_single body
  else if opc =? CMSG_CA_KNOWN_ENTRIES_UPLOAD then on_known_entries_upload body
  else if opc =? CMSG_BUILD_ACTIVATE then on_build_activate body
  else if opc =? CMSG_BUILD_QUERY_CATEGORY then on_build_query_category body
  else if opc =? CMSG_BUILD_QUERY then on_build_query body
  else if opc =? CMSG_REQUEST_ACCOUNT_DATA then on_request_account_data body
  else if opc =? CMSG_UPDATE_ACCOUNT_DATA then on_update_account_data body
  else if opc =? CMSG_CAST_SPELL then on_cast_spell body
  else if opc =? CMSG_CREATURE_QUERY then on_creature_query body
  else if opc =? CMSG_SET_ACTION_BUTTON then on_set_action_button body
  else if opc =? CMSG_CANCEL_AURA then on_cancel_aura body
  else if opc =? CMSG_CANCEL_CAST then mret tt
  else if opc =? CMSG_STANDSTATECHANGE then on_standstatechange body
  else if opc =? CMSG_SET_ACTIVE_MOVER then on_set_active_mover
  else mret tt.

(** ** Headers *)

Definition rc4_of (d : decryptor) : option rc4 := match d with DecRc4 st => Some st | _ => None end.

(** The header of a packet: [None] drops the connection.  A decryptor that is
    no longer one raises as soon as it is called. *)
Definition read_header (eh : bytes) : M (option bytes) :=
  w ← get;
  match w_dec w with
  | DecBytes _ =>
      if negb (w_crypt_in w) && plausible eh then mret (Some eh) else lift (Err AttributeError)
  | d =>
      match accept_header (w_crypt_in w) (rc4_of d) eh with
      | None => if w_crypt_in w then lift (Err AttributeError) else mret None
      | Some (crypt_in, dec', chdr) =>
          modify (fun w => set_w_dec (match dec' with Some st => DecRc4 st | None => DecNone end)
                             (set_w_crypt_in crypt_in w)) ;;
          mret (Some chdr)
      end
  end.

(** ** The loop *)

(** What [_recv] hands to the loop: a quiet period, a header with its body
    (read with the size the header gives), or the end of the connection. *)
Inductive event :=
  | Quiet (t : clock)
  | Arrived (t : clock) (header body : bytes)
  | Closed (t : clock).

Fixpoint serve (events : list event) : M unit :=
  match events with
  | [] => mret tt
  | Quiet t :: events => modify (set_w_clock t) ;; idle ;; serve events
  | Arrived t header body :: events =>
      modify (set_w_clock t) ;;
      h ← read_header header;
      match h with
      | None => mret tt
      | Some chdr => handle_packet (unle (slice 2 6 chdr)) body ;; serve events
      end
  | Closed t :: _ => modify (set_w_clock t) ;; save_bars true
  end.

(** ** The opening *)

Section Opening.
(** [hmac.new(seed, key, sha1).digest()]. *)
Context (hmac_sha1 : bytes -> bytes -> bytes).

(** The locals of a new session, on the character file as it is on disk. *)
Definition new_session (account : pystr) (d : decryptor) (w : world) : world :=
  let db := snd (dsetdefault account [] (w_chars_file w)) in
  World (w_clock w) (w_out w) db (w_chars_file w) (w_acct w) (w_known w) (w_builds w) (w_bars w)
    (w_bars_dirty w) (w_bars_flush w) (w_bars_file w) (w_burst w) (w_sent w) (w_units w)
    (w_dummies w) (w_dummy_seq w) (w_auras w) (w_aura_last w) (w_override w) (w_rolls w)
    (w_cid w) account false None false 1 0 0 false 0 None STAND_STATE_STAND 0 d false.

(** From CMSG_AUTH_SESSION, which follows the challenge, to the first packet:
    [false] is a refused opening.  [key40] is the session key when it could be
    read.  The connection has its own number. *)
Definition open_session (header body : bytes) (key40 : option bytes) : M bool :=
  modify (fun w => set_w_cid (w_cid w + 1) w) ;;
  if negb (unle (slice 2 6 header) =? CMSG_AUTH_SESSION) then mret false
  else
    f ← lift (parse_auth_session body);
    send_r SMSG_AUTH_RESPONSE (mkbytes ([AUTH_OK] ++ le 4 0 ++ [0] ++ le 4 0 ++ [EXPANSION_WOTLK])) ;;
    send_pkt SMSG_ADDON_INFO (fst (build_addon_info zlib_decompress (as_addon_raw f))) ;;
    send_r SMSG_CLIENTCACHE_VERSION (smsg_clientcache_version 0) ;;
    send_pkt SMSG_TUTORIAL_FLAGS smsg_tutorial_flags ;;
    send_r SMSG_REALM_INFO (smsg_realm_info ARCHIVE_REALM_NAME 2 1 11 None 0 0) ;;
    send_r SMSG_UPDATE_CONFIGS (smsg_update_configs None None None None) ;;
    modify (new_session (utf8_decode_replace (as_account f))
              (match key40 with Some k => DecRc4 (snd (make_crypt hmac_sha1 k)) | None => DecNone end)) ;;
    mret true.
End Opening.
End Session.
