(* ===== verification/Invariant.v ===== *)
(** * The session's invariant

    What every packet and every idle tick preserves, whatever the client sends
    and whether or not the handler raises: the combat state and the action
    bars stay well-formed, GUIDs stay distinct in the loaded and in the saved
    character store, and the session is in the world exactly while it plays a
    character.

    A component's operations touch only the component's fields: the frame
    lemmas say so through a projection that blanks those fields, so that an
    invariant of the other fields is carried over by conversion. *)
From S2P Require Import Prelude Wire PyFloat Text Format Json Consts Rc4 Framing Chars Account.
From S2P Require Import Dbc Classes Spells Known Builders Builds World Bars Combat.
From S2P Require Import Player Commands Session.

(** ** Frames *)

(** Everything but the output and the live units, dummies and auras. *)
Definition sans_combat (w : world) : world :=
  set_w_out [] (set_w_units [] (set_w_dummies [] (set_w_dummy_seq 0 (set_w_auras []
    (set_w_aura_last 0 (set_w_rolls 0 w)))))).

(** Everything but the output, the bars and the record of what was sent. *)
Definition sans_bars (w : world) : world :=
  set_w_out [] (set_w_bars [] (set_w_bars_dirty false (set_w_bars_flush 0 (set_w_bars_file []
    (set_w_burst [] (set_w_sent [] w)))))).

Notation frames core m := (forall k, keeps (fun w => core w = k) m).

Create HintDb frames.

Ltac frame_leaf := apply keeps_modify; intros ? Hframe; exact Hframe.
Ltac frame := intros; repeat first [ solve [auto with frames] | frame_leaf | keep_step | progress cbv zeta
  | match goal with |- keeps _ (match ?x with _ => _ end _) => destruct x end; cbv beta ].

Lemma frame_send_pkt_combat o b : frames sans_combat (send_pkt o b).
Proof. frame. Qed.
Lemma frame_send_r_combat o b : frames sans_combat (send_r o b).
Proof. unfold send_r. frame. Qed.
Lemma frame_send_pkt_bars o b : frames sans_bars (send_pkt o b).
Proof. frame. Qed.
Lemma frame_send_r_bars o b : frames sans_bars (send_r o b).
Proof. unfold send_r. frame. Qed.
#[export] Hint Resolve frame_send_pkt_combat frame_send_r_combat frame_send_pkt_bars frame_send_r_bars
  : frames.

(** Everything but what entering the world changes before the character is the
    session's. *)
Definition sans_login (w : world) : world :=
  World (w_clock w) [] (w_db w) (w_chars_file w) empty_acctdb (w_known w) (w_builds w) [] false 0 [] [] []
    [] [] 0 [] 0 (w_override w) 0 (w_cid w) (w_account w) (w_in_world w) (w_cur w) (w_linked w)
    (w_ts_counter w) (w_ts_last w) (w_regen_last w) (w_ca_pending w) (w_ca_pending_at w) (w_ca_ack w)
    (w_stand_state w) (w_stand_last w) (w_dec w) (w_crypt_in w).

Lemma sans_login_combat w : sans_login (sans_combat w) = sans_login w.
Proof. exact eq_refl. Qed.
Lemma sans_login_bars w : sans_login (sans_bars w) = sans_login w.
Proof. exact eq_refl. Qed.

Lemma frame_login_combat {A} (m : M A) : frames sans_combat m -> frames sans_login m.
Proof.
  intros Hf k w Hw. rewrite <- Hw, <- sans_login_combat, <- (sans_login_combat w).
  f_equal. exact (Hf (sans_combat w) w eq_refl).
Qed.
Lemma frame_login_bars {A} (m : M A) : frames sans_bars m -> frames sans_login m.
Proof.
  intros Hf k w Hw. rewrite <- Hw, <- sans_login_bars, <- (sans_login_bars w).
  f_equal. exact (Hf (sans_bars w) w eq_refl).
Qed.

(** *** Combat *)

Lemma frame_unit_state c : frames sans_combat (unit_state c).
Proof. unfold unit_state, put_unit. frame. Qed.
#[export] Hint Resolve frame_unit_state : frames.

Lemma frame_put_unit g st : frames sans_combat (put_unit g st).
Proof. frame. Qed.
Lemma frame_put_dummy g d : frames sans_combat (put_dummy g d).
Proof. frame. Qed.
Lemma frame_put_aura t s a : frames sans_combat (put_aura t s a).
Proof. frame. Qed.
#[export] Hint Resolve frame_put_unit frame_put_dummy frame_put_aura : frames.

Lemma frame_send_power_update c : frames sans_combat (send_power_update c).
Proof. unfold send_power_update. frame. Qed.
Lemma frame_send_dummy_health g d : frames sans_combat (send_dummy_health g d).
Proof. unfold send_dummy_health. frame. Qed.
#[export] Hint Resolve frame_send_power_update frame_send_dummy_health : frames.

Lemma frame_regen_tick c : frames sans_combat (regen_tick c).
Proof. unfold regen_tick. frame. Qed.
Lemma frame_dummy_tick : frames sans_combat dummy_tick.
Proof. unfold dummy_tick. frame. Qed.
Lemma frame_despawn_dummies : frames sans_combat despawn_dummies.
Proof. unfold despawn_dummies, despawn_one. frame. Qed.
Lemma frame_remove_aura t s : frames sans_combat (remove_aura t s).
Proof. unfold remove_aura. frame. Qed.
#[export] Hint Resolve frame_regen_tick frame_dummy_tick frame_despawn_dummies frame_remove_aura : frames.

Section CombatFrames.
Context `{Env}.

Lemma frame_effect_amount e : frames sans_combat (effect_amount e).
Proof. unfold effect_amount, roll. frame. Qed.
#[local] Hint Resolve frame_effect_amount : frames.

Lemma frame_spawn_dummy c d r s : frames sans_combat (spawn_dummy c d r s).
Proof. unfold spawn_dummy. frame. Qed.

Lemma frame_hurt_dummy g n d o log : frames sans_combat (hurt_dummy g n d o log).
Proof. unfold hurt_dummy. frame. Qed.
Lemma frame_hurt_self c n o log : frames sans_combat (hurt_self c n o log).
Proof. unfold hurt_self. frame. Qed.
Lemma frame_heal_dummy g n d o log : frames sans_combat (heal_dummy g n d o log).
Proof. unfold heal_dummy. frame. Qed.
Lemma frame_heal_self c n o log : frames sans_combat (heal_self c n o log).
Proof. unfold heal_self. frame. Qed.
#[local] Hint Resolve frame_hurt_dummy frame_hurt_self frame_heal_dummy frame_heal_self : frames.

Lemma frame_aura_effects t n es : frames sans_combat (aura_effects t n es).
Proof.
  revert n. induction es as [|e es IH]; intros n k; cbn [aura_effects]; unfold periodic_part; frame.
Qed.
#[local] Hint Resolve frame_aura_effects : frames.

Lemma frame_apply_aura c info g : frames sans_combat (apply_aura c info g).
Proof. unfold apply_aura, free_aura_slot. frame. Qed.

Lemma frame_periodic_apply c a tk : frames sans_combat (aura_periodic_apply c a tk).
Proof. unfold aura_periodic_apply. frame. Qed.
#[local] Hint Resolve frame_apply_aura frame_periodic_apply : frames.

Lemma frame_catch_up fuel c t g s a i tk : frames sans_combat (catch_up fuel c t g s a i tk).
Proof.
  revert tk. induction fuel as [|fuel IH]; intros tk k; cbn [catch_up]; unfold store_next; frame.
Qed.
#[local] Hint Resolve frame_catch_up : frames.

Lemma frame_tick_all c t g s a i l : frames sans_combat (tick_all c t g s a i l).
Proof. revert i. induction l as [|tk l IH]; intros i k; cbn [tick_all]; frame. Qed.
#[local] Hint Resolve frame_tick_all : frames.

Lemma frame_aura_tick c : frames sans_combat (aura_tick c).
Proof. unfold aura_tick, tick_target, tick_aura. frame. Qed.

Lemma frame_apply_spell_effects c info g : frames sans_combat (apply_spell_effects c info g).
Proof. unfold apply_spell_effects, apply_effect. frame. Qed.
End CombatFrames.
#[export] Hint Resolve frame_spawn_dummy frame_aura_tick frame_apply_spell_effects : frames.

(** *** Bars *)

Lemma frame_save_bars f : frames sans_bars (save_bars f).
Proof. unfold save_bars. frame. Qed.
Lemma frame_bars_set g s p : frames sans_bars (bars_set g s p).
Proof. unfold bars_set. frame. Qed.
#[export] Hint Resolve frame_save_bars frame_bars_set : frames.
Lemma frame_bars_adopt g l : frames sans_bars (bars_adopt g l).
Proof. unfold bars_adopt. frame. Qed.
#[export] Hint Resolve frame_bars_adopt : frames.

Section BarsFrames.
Context `{Env}.

Lemma frame_known_spells g : frames sans_bars (known_spells g).
Proof. unfold known_spells. frame. Qed.
#[local] Hint Resolve frame_known_spells : frames.
Lemma frame_bars_autofill c : frames sans_bars (bars_autofill c).
Proof. unfold bars_autofill. frame. Qed.
#[local] Hint Resolve frame_bars_autofill : frames.
Lemma frame_bars_note_packet cid g b : frames sans_bars (bars_note_packet cid g b).
Proof. unfold bars_note_packet. frame. Qed.
Lemma frame_send_action_buttons c : frames sans_bars (send_action_buttons c).
Proof. unfold send_action_buttons, smsg_action_buttons, bars_for. frame. Qed.
#[local] Hint Resolve frame_send_action_buttons : frames.
Lemma frame_send_spellbook c : frames sans_bars (send_spellbook c).
Proof. unfold send_spellbook. frame. Qed.
Lemma frame_sync_spellbook c : frames sans_bars (sync_spellbook c).
Proof. unfold sync_spellbook, unbind_stale, bars_for. frame. Qed.
End BarsFrames.
#[export] Hint Resolve frame_bars_note_packet frame_send_action_buttons frame_send_spellbook
  frame_sync_spellbook : frames.

(** ** The bars stay well-formed *)

Definition bars_inv (w : world) : Prop := bars_ok (w_bars w).

Lemma bars_inv_send o b : keeps bars_inv (send_pkt o b).
Proof. by apply keeps_send_pkt. Qed.
Lemma bars_inv_send_r o b : keeps bars_inv (send_r o b).
Proof. by apply keeps_send_r. Qed.
Lemma bars_inv_save f : keeps bars_inv (save_bars f).
Proof. intros w Hw. destruct (save_bars_spec f w) as (w' & -> & _ & Hb). unfold bars_inv. cbn. by rewrite Hb. Qed.
Lemma bars_inv_set g s p : 0 <= p < 2 ^ 32 -> keeps bars_inv (bars_set g s p).
Proof. intros Hp w Hw. by destruct (bars_set_run w g s p Hw Hp) as (w' & -> & _ & Hb & _). Qed.
Lemma bars_inv_clear g s : keeps bars_inv (bars_set g s 0).
Proof. apply bars_inv_set. lia. Qed.
Lemma bars_inv_adopt g l : slots_ok l -> keeps bars_inv (bars_adopt g l).
Proof.
  intros Hl w Hw. destruct (bars_adopt_run w g l) as (w' & -> & _ & Hb). unfold bars_inv. cbn.
  rewrite Hb. by apply bars_ok_dset.
Qed.
#[export] Hint Resolve bars_inv_send bars_inv_send_r bars_inv_save bars_inv_set bars_inv_clear bars_inv_adopt
  : keeps.

Section BarsInv.
Context `{Env}.

Lemma bars_inv_known g {B} (f : list known_spell -> M B) :
  (forall l, (exists db, ca_known_spells CA_INDEX db g = Ok l) -> keeps bars_inv (f l)) ->
  keeps bars_inv (known_spells g ≫= f).
Proof.
  intros Hf. apply (keeps_bind_val _ (fun l => exists db, ca_known_spells CA_INDEX db g = Ok l)); [|done].
  intros w Hw. unfold known_spells. m_run. cbn. split; [done|]. intros l Hl. by exists (w_known w).
Qed.

Lemma bars_inv_autofill c {B} (f : layout -> M B) :
  (forall l, slots_ok l -> keeps bars_inv (f l)) -> keeps bars_inv (bars_autofill c ≫= f).
Proof.
  intros Hf. apply (keeps_bind_val _ slots_ok); [|done].
  intros w Hw. unfold bars_autofill, known_spells. m_run.
  destruct (ca_known_spells _ _ _) as [l|e] eqn:E; m_run; cbn; (split; [done|]); [|done].
  intros l' [= <-]. by eapply autofill_ok.
Qed.

Lemma bars_inv_for g {B} (f : layout -> M B) :
  (forall l, slots_ok l -> keeps bars_inv (f l)) -> keeps bars_inv (bars_for g ≫= f).
Proof.
  intros Hf. apply (keeps_bind_val _ slots_ok); [|done].
  intros w Hw. unfold bars_for. m_run. cbn. split; [done|]. intros l [= <-]. by apply bars_ok_slots.
Qed.

Lemma bars_inv_action_buttons c : keeps bars_inv (send_action_buttons c).
Proof.
  unfold send_action_buttons. apply keeps_bind; [|intros; keep]. unfold smsg_action_buttons.
  case_match; [auto with keeps|]. apply bars_inv_for. intros saved Hs.
  apply keeps_bind; [|intros; keep]. destruct saved; [|auto with keeps].
  apply bars_inv_autofill. intros l Hl. keep.
Qed.
#[local] Hint Resolve bars_inv_action_buttons : keeps.

#[local] Hint Extern 3 (keeps bars_inv (modify _)) => by apply keeps_modify : keeps.

Lemma bars_inv_spellbook c : keeps bars_inv (send_spellbook c).
Proof. unfold send_spellbook. apply bars_inv_known. intros l Hl. keep. Qed.

Lemma bars_inv_sync c : keeps bars_inv (sync_spellbook c).
Proof.
  unfold sync_spellbook, unbind_stale. cbv zeta. apply bars_inv_known. intros l Hl. keep.
Qed.

Lemma bars_inv_note cid g body : is_bytes body -> keeps bars_inv (bars_note_packet cid g body).
Proof.
  intros Hb. unfold bars_note_packet. case_match; [auto with keeps|].
  apply keeps_bind; [auto with keeps|]. intros slot.
  apply (keeps_bind_val _ (fun p => 0 <= p < 2 ^ 32)).
  - intros w Hw. m_run. cbn. split; [done|]. intros p Hp. by apply (unpack_u_bound 4 body 1).
  - intros p Hp. apply keeps_bind; [by apply bars_inv_set|]. intros changed. keep.
Qed.
End BarsInv.
#[export] Hint Resolve bars_inv_action_buttons bars_inv_spellbook bars_inv_sync bars_inv_note : keeps.

(** ** The store and the session's own state *)

Definition store_inv (db file : chars_db) (account : pystr) (cur : option character)
    (in_world pending linked : bool) : Prop :=
  dict_ok db /\ chars_ok db /\ dict_ok file /\ chars_ok file
  /\ (in_world = true <-> cur <> None)
  /\ (pending = true -> cur <> None)
  /\ (linked = true -> exists c, cur = Some c /\ c ∈ default [] (dget account db)).

Definition store_ok (w : world) : Prop :=
  store_inv (w_db w) (w_chars_file w) (w_account w) (w_cur w) (w_in_world w) (w_ca_pending w) (w_linked w).

Definition session_ok (w : world) : Prop := combat_ok w /\ bars_inv w /\ store_ok w.

Lemma combat_ok_fields w w' :
  w_units w' = w_units w -> w_dummies w' = w_dummies w -> w_auras w' = w_auras w ->
  combat_ok w -> combat_ok w'.
Proof. intros Eu Ed Ea [? ? ? ?]. constructor; rewrite ?Eu, ?Ed, ?Ea; done. Qed.

Lemma combat_ok_sans w w' : sans_bars w' = sans_bars w -> combat_ok w -> combat_ok w'.
Proof.
  intros E. apply combat_ok_fields.
  - exact (f_equal w_units E).
  - exact (f_equal w_dummies E).
  - exact (f_equal w_auras E).
Qed.

Lemma store_ok_sans (core : world -> world) w w' :
  (forall v, w_db (core v) = w_db v) -> (forall v, w_chars_file (core v) = w_chars_file v) ->
  (forall v, w_account (core v) = w_account v) -> (forall v, w_cur (core v) = w_cur v) ->
  (forall v, w_in_world (core v) = w_in_world v) -> (forall v, w_ca_pending (core v) = w_ca_pending v) ->
  (forall v, w_linked (core v) = w_linked v) ->
  core w' = core w -> store_ok w -> store_ok w'.
Proof.
  intros H1 H2 H3 H4 H5 H6 H7 E. unfold store_ok.
  rewrite <- (H1 w'), <- (H2 w'), <- (H3 w'), <- (H4 w'), <- (H5 w'), <- (H6 w'), <- (H7 w'), E.
  by rewrite H1, H2, H3, H4, H5, H6, H7.
Qed.

(** An operation of one component keeps the whole invariant when it keeps its
    own part. *)
Lemma session_of_combat {A} (m : M A) :
  keeps combat_ok m -> frames sans_combat m -> keeps session_ok m.
Proof.
  intros Hk Hf w (Hc & Hb & Hs). specialize (Hf (sans_combat w) w eq_refl). cbv beta in Hf.
  split_and!.
  - by apply Hk.
  - unfold bars_inv in *. by rewrite (f_equal w_bars Hf : w_bars (snd (m w)) = w_bars w).
  - by apply (store_ok_sans sans_combat w).
Qed.

Lemma session_of_bars {A} (m : M A) :
  keeps bars_inv m -> frames sans_bars m -> keeps session_ok m.
Proof.
  intros Hk Hf w (Hc & Hb & Hs). specialize (Hf (sans_bars w) w eq_refl). cbv beta in Hf.
  split_and!; [by eapply combat_ok_sans|by apply Hk|by apply (store_ok_sans sans_bars w)].
Qed.

(** A field no part of the invariant reads. *)
Ltac session_leaf :=
  apply keeps_modify; intros w (Hcombat & Hbars & Hstore);
  split; [by apply (combat_ok_fields w) | exact (conj Hbars Hstore)].

Create HintDb session.

Ltac session_of := intros; first [ solve [apply session_of_combat; [auto with keeps | auto with frames]]
                                 | solve [apply session_of_bars; [auto with keeps | auto with frames]] ].

Ltac session := intros;
  repeat first [ solve [auto with session] | session_leaf | keep_step | progress cbv zeta
  | match goal with |- keeps _ (match ?x with _ => _ end _) => destruct x end; cbv beta ].

Lemma session_send o b : keeps session_ok (send_pkt o b).
Proof. session_of. Qed.
Lemma session_send_r o b : keeps session_ok (send_r o b).
Proof. session_of. Qed.
#[export] Hint Resolve session_send session_send_r : session.

Lemma session_unit_state c : keeps session_ok (unit_state c).
Proof.
  apply session_of_combat; [|auto with frames]. intros w Hw.
  pose proof (keeps_unit_state c (fun st => mret st) (fun st _ => keeps_ret _ st) w Hw) as Hk.
  unfold mbind, M_bind in Hk. destruct (unit_state c w) as [[st|e] w']; exact Hk.
Qed.
Lemma session_put_unit g st : unit_ok st -> keeps session_ok (put_unit g st).
Proof. session_of. Qed.
Lemma session_power c : keeps session_ok (send_power_update c).
Proof. session_of. Qed.
Lemma session_regen c : keeps session_ok (regen_tick c).
Proof. apply session_of_combat; [apply keeps_regen_tick | auto with frames]. Qed.
Lemma session_dummy_tick : keeps session_ok dummy_tick.
Proof. apply session_of_combat; [apply keeps_dummy_tick | auto with frames]. Qed.
Lemma session_despawn : keeps session_ok despawn_dummies.
Proof. apply session_of_combat; [apply keeps_despawn_dummies | auto with frames]. Qed.
Lemma session_remove_aura t s : keeps session_ok (remove_aura t s).
Proof. apply session_of_combat; [apply keeps_remove_aura | auto with frames]. Qed.
Lemma session_save_bars f : keeps session_ok (save_bars f).
Proof. session_of. Qed.
Lemma session_bars_set g s p : 0 <= p < 2 ^ 32 -> keeps session_ok (bars_set g s p).
Proof. session_of. Qed.
Lemma session_bars_adopt g l : slots_ok l -> keeps session_ok (bars_adopt g l).
Proof. session_of. Qed.
#[export] Hint Resolve session_unit_state session_put_unit session_power session_regen session_dummy_tick
  session_despawn session_remove_aura session_save_bars session_bars_set session_bars_adopt : session.

Section SessionParts.
Context `{Env}.

Lemma session_spawn c d r s : keeps session_ok (spawn_dummy c d r s).
Proof. apply session_of_combat; [apply keeps_spawn_dummy | auto with frames]. Qed.
Lemma session_aura_tick c : keeps session_ok (aura_tick c).
Proof. apply session_of_combat; [apply keeps_aura_tick | auto with frames]. Qed.
Lemma session_effects c i g : keeps session_ok (apply_spell_effects c i g).
Proof. apply session_of_combat; [apply keeps_apply_spell_effects | auto with frames]. Qed.
Lemma session_buttons c : keeps session_ok (send_action_buttons c).
Proof. session_of. Qed.
Lemma session_spellbook c : keeps session_ok (send_spellbook c).
Proof. session_of. Qed.
Lemma session_sync c : keeps session_ok (sync_spellbook c).
Proof. session_of. Qed.
Lemma session_note cid g b : is_bytes b -> keeps session_ok (bars_note_packet cid g b).
Proof. session_of. Qed.
#[local] Hint Resolve session_spawn session_aura_tick session_effects session_buttons session_spellbook
  session_sync session_note : session.

Lemma session_known_entries c : keeps session_ok (send_known_entries c).
Proof. unfold send_known_entries. session. Qed.
Lemma session_essence_budget : keeps session_ok send_essence_budget.
Proof. unfold send_essence_budget, send_batch_pkts. session. Qed.
Lemma session_stacks c : keeps session_ok (send_stacks c).
Proof. unfold send_stacks, essence_m. session. Qed.
Lemma session_create c : keeps session_ok (build_player_create_object c).
Proof. unfold build_player_create_object, essence_m. session. Qed.
End SessionParts.
#[export] Hint Resolve session_spawn session_aura_tick session_effects session_buttons session_spellbook
  session_sync session_note session_known_entries session_essence_budget session_stacks session_create
  : session.

(** ** Editing the character *)

Lemma update_first_elem f l (c : character) :
  NoDup (map c_guid l) -> c ∈ l -> f c ∈ update_first (c_guid c) f l.
Proof.
  induction l as [|x l IH]; cbn; intros Hn Hc; [by apply not_elem_of_nil in Hc|].
  apply NoDup_cons in Hn as [Hx Hn]. apply elem_of_cons in Hc as [->|Hc].
  - rewrite Z.eqb_refl. left.
  - destruct (Z.eqb_spec (c_guid x) (c_guid c)) as [E|E].
    + exfalso. apply Hx. rewrite E. by apply list_elem_of_fmap_2.
    + right. auto.
Qed.

Lemma update_first_guids guid f l :
  (forall c : character, c_guid (f c) = c_guid c) ->
  map c_guid (update_first guid f l) = map c_guid l.
Proof.
  intros Hf. induction l as [|x l IH]; [done|]. cbn. case_match; cbn; [by rewrite Hf | by rewrite IH].
Qed.

Lemma session_edit_cur f :
  (forall c, c_guid (f c) = c_guid c) -> keeps session_ok (edit_cur f).
Proof.
  intros Hf. apply keeps_modify. intros w (Hc & Hb & Hd & Hk & Hfd & Hfk & Hw & Hp & Hl).
  destruct (w_cur w) as [c|] eqn:Ec; [|by split_and!; unfold store_ok; rewrite ?Ec].
  assert (w_in_world w = true <-> Some (f c) <> None) as Hw' by (rewrite Hw; split; done).
  destruct (w_linked w) eqn:El;
    (split; [by apply (combat_ok_fields w)|]; split; [exact Hb|]);
    unfold store_ok, store_inv; cbn; rewrite ?El.
  - split; [by apply dict_ok_dset|].
    split; [eapply chars_ok_guids; [|exact Hk]; by apply guids_dset, update_first_guids|].
    do 2 (split; [done|]). split; [exact Hw'|]. split; [done|].
    intros _. exists (f c). split; [done|]. rewrite dget_dset, decide_True by done. cbn.
    destruct (Hl eq_refl) as (c' & [= <-] & Hin). apply update_first_elem; [|done].
    by apply account_guids.
  - do 4 (split; [done|]). split; [exact Hw'|]. by split.
Qed.

Lemma session_edit_file guid f :
  (forall c, c_guid (f c) = c_guid c) -> keeps session_ok (edit_file guid f).
Proof.
  intros Hf. apply keeps_modify. intros w (Hc & Hb & Hd & Hk & Hfd & Hfk & Hrest).
  split_and!; [by apply (combat_ok_fields w)|done|].
  unfold store_ok, store_inv in *. cbn. split_and!; try done; try apply Hrest.
  - unfold dict_ok, dkeys in *. rewrite map_map. erewrite map_ext; [exact Hfd|]. by intros [].
  - eapply chars_ok_guids; [|exact Hfk].
    apply (guids_map (fun c => if c_guid c =? guid then f c else c)). intros c. by case_match.
Qed.

(** The level, the class and the build are the fields the commands edit. *)
Lemma set_level_guid n c : c_guid (set_level n c) = c_guid c. Proof. done. Qed.
Lemma set_class_guid n c : c_guid (set_class n c) = c_guid c. Proof. done. Qed.
Lemma set_build_guid b c : c_guid (set_build b c) = c_guid c. Proof. done. Qed.
#[export] Hint Resolve session_edit_cur session_edit_file set_level_guid set_class_guid set_build_guid
  : session.

(** ** The commands *)

Lemma session_set_known g rows : keeps session_ok (set_known_m g rows).
Proof. unfold set_known_m. session. Qed.
#[export] Hint Resolve session_set_known : session.

Section SessionCommands.
Context `{Env}.

Lemma session_known_for g : keeps session_ok (known_for_m g).
Proof. unfold known_for_m. session. Qed.
Lemma session_report c : keeps session_ok (class_report c).
Proof. unfold class_report, essence_m. session. Qed.
Lemma session_field g f v : keeps session_ok (send_field g f v).
Proof. unfold send_field. session. Qed.
#[local] Hint Resolve session_known_for session_report session_field : session.

Lemma session_cmd_essence c args : keeps session_ok (cmd_essence c args).
Proof. unfold cmd_essence, essence_m. session. Qed.
Lemma session_cmd_essprobe c args : keeps session_ok (cmd_essprobe c args).
Proof. unfold cmd_essprobe. session. Qed.
Lemma session_cmd_level c args : keeps session_ok (cmd_level c args).
Proof. unfold cmd_level, essence_m. session. Qed.
Lemma session_cmd_build c args : keeps session_ok (cmd_build c args).
Proof. unfold cmd_build. session. Qed.
Lemma session_cmd_aura c args : keeps session_ok (cmd_aura c args).
Proof. unfold cmd_aura, clear_auras. session. Qed.
Lemma session_cmd_dummy c args : keeps session_ok (cmd_dummy c args).
Proof. unfold cmd_dummy. session. Qed.
Lemma session_cmd_class c args : keeps session_ok (cmd_class c args).
Proof. unfold cmd_class, change_class. session. Qed.
Lemma session_cmd_known c args : keeps session_ok (cmd_known c args).
Proof. unfold cmd_known, known_list, known_add, known_remove, known_class. session. Qed.

Lemma session_bind_unit {B} c (f : unit_st -> M B) :
  (forall st, full_ok c st -> keeps session_ok (f st)) -> keeps session_ok (unit_state c ≫= f).
Proof.
  intros Hf. apply (keeps_bind_val _ (full_ok c)); [|exact Hf].
  intros w Hw. split; [by apply session_unit_state|]. intros st Hst.
  destruct (unit_state_run c w) as (st' & E & Hok). rewrite E in Hst. cbn in Hst.
  injection Hst as <-. by apply Hok, Hw.
Qed.

Lemma session_bind_autofill {B} c (f : layout -> M B) :
  (forall l, slots_ok l -> keeps session_ok (f l)) -> keeps session_ok (bars_autofill c ≫= f).
Proof.
  intros Hf. apply (keeps_bind_val _ slots_ok); [|done].
  intros w Hw. unfold bars_autofill, known_spells. m_run.
  destruct (ca_known_spells _ _ _) as [l|e] eqn:E; m_run; cbn; (split; [done|]); [|done].
  intros l' [= <-]. by eapply autofill_ok.
Qed.

Lemma session_cmd_power c cmd args : keeps session_ok (cmd_power c cmd args).
Proof.
  unfold cmd_power. apply session_bind_unit. intros st Hst. unfold full_ok in Hst.
  pose proof (max_pools_pos c) as Hpos. destruct (max_pools c) as [maxhp maxp]. cbn in Hst, Hpos. cbv zeta. destruct args as [|a args]; [session|].
  match goal with |- keeps _ (match ?o with Some _ => _ | None => _ end) =>
    assert (forall n, o = Some n -> 0 <= n) as Hn; [|destruct o as [n|]; [specialize (Hn n eq_refl)|]]
  end.
  - intros n. destruct (is_one_of (uni_lower a) _); [intros [= <-]; destruct (is_one_of cmd _); lia|].
    destruct (try_int _) as [v|]; cbn; [intros [= <-]; lia|done].
  - apply keeps_bind; [|intros; session]. apply session_put_unit. unfold unit_ok.
    destruct (is_one_of cmd _); cbn; lia.
  - session.
Qed.

Lemma session_bars_set_cmd c args : keeps session_ok (bars_set_cmd c args).
Proof.
  unfold bars_set_cmd. cbv zeta. destruct (negb _); [session|].
  destruct (try_int (arg 1 args)) as [slot|]; [|session].
  destruct (try_int (arg 2 args)) as [sid|]; [|session].
  destruct (negb _); [session|]. destruct (Z.gtb_spec sid ACTION_BUTTON_ACTION_MAX) as [|Hs]; [session|].
  destruct (Z.eqb_spec sid 0) as [->|Hz].
  { apply keeps_bind; [apply session_bars_set; lia|]. session. }
  destruct (spell_info sid) as [info|] eqn:Ei; [|session]. apply spell_info_range in Ei.
  apply keeps_bind; [apply session_bars_set|session].
  change (Z.shiftl ACTION_BUTTON_SPELL 24) with 0. rewrite Z.lor_0_r.
  unfold ACTION_BUTTON_ACTION_MAX in Hs. lia.
Qed.
#[local] Hint Resolve session_bars_set_cmd session_cmd_power session_cmd_essence session_cmd_essprobe
  session_cmd_level session_cmd_build session_cmd_aura session_cmd_dummy session_cmd_class
  session_cmd_known : session.

Lemma session_cmd_bars c args : keeps session_ok (cmd_bars c args).
Proof.
  unfold cmd_bars. cbv zeta. destruct (bool_decide _); [auto with session|].
  destruct (is_one_of _ _); [|unfold bars_for; session].
  assert (forall l, slots_ok l -> keeps session_ok (bars_adopt (c_guid c) l)) as Hadopt
    by (intros; by apply session_bars_adopt).
  destruct (bool_decide (sub_arg "" args = lit "auto")).
  - apply session_bind_autofill. intros l Hl. apply keeps_bind; [auto|]. session.
  - apply (keeps_bind_val _ (fun l => l = [])); [intros w Hw; split; [done | by intros ? [= <-]]|].
    intros l ->. apply keeps_bind; [apply Hadopt, slots_ok_nil|]. session.
Qed.
#[local] Hint Resolve session_cmd_bars : session.

Lemma session_run_command c line : keeps session_ok (run_command c line).
Proof. unfold run_command, cmd_info, cmd_cost, essence_m. session. Qed.
End SessionCommands.
#[export] Hint Resolve session_known_for session_field session_run_command : session.

(** ** The handlers *)

Lemma remove_char_sublist guid l : remove_char guid l `sublist_of` l.
Proof.
  induction l as [|c l IH]; cbn; [done|]. case_match; [by apply sublist_cons | by apply sublist_skip].
Qed.

Lemma remove_char_elem guid l (c : character) :
  c ∈ l -> c_guid c <> guid -> c ∈ remove_char guid l.
Proof.
  induction l as [|x l IH]; cbn; intros Hc Hg; [by apply not_elem_of_nil in Hc|].
  apply elem_of_cons in Hc as [->|Hc].
  - destruct (Z.eqb_spec (c_guid x) guid); [done|left].
  - case_match; [done|]. right. auto.
Qed.

Section SessionHandlers.
Context `{Env}.

Lemma session_save_chars : keeps session_ok save_chars_db.
Proof.
  apply keeps_modify. intros w (Hc & Hb & Hd & Hk & _ & _ & Hr).
  split; [by apply (combat_ok_fields w)|]. split; [done|]. by repeat (split; [done|]).
Qed.
#[local] Hint Resolve session_save_chars : session.

Lemma session_char_create body : keeps session_ok (on_char_create body).
Proof.
  unfold on_char_create, my_chars. destruct (parse_char_create body) as [cc|]; [|auto with session].
  apply keeps_bind; [auto with keeps|]. intros cs. destruct (name_in_use _ _); [auto with session|].
  apply keeps_bind; [|session]. apply keeps_modify.
  intros w (Hc & Hb & Hd & Hk & Hfd & Hfk & Hw & Hp & Hl).
  split; [by apply (combat_ok_fields w)|]. split; [done|].
  split; [by apply dict_ok_dset|]. split; [by apply add_char_ok|]. do 4 (split; [done|]).
  cbn. intros E. destruct (Hl E) as (c & Hcur & Hin). exists c. split; [done|].
  unfold add_char. rewrite dget_dset, decide_True by done. apply elem_of_app. by left.
Qed.

Lemma session_char_delete body : keeps session_ok (on_char_delete body).
Proof.
  unfold on_char_delete, find_char, my_chars. cbv zeta.
  apply keeps_bind; [session|]. intros victim. destruct victim as [v|]; [|auto with session].
  apply keeps_bind; [|session]. apply keeps_modify.
  intros w (Hc & Hb & Hd & Hk & Hfd & Hfk & Hw & Hp & Hl). cbn [set_w_db w_cur].
  set (guid := body_guid body). set (db := dset _ (remove_char guid _) _).
  assert (dict_ok db) as Hd' by by apply dict_ok_dset.
  assert (chars_ok db) as Hk'
    by (eapply chars_ok_sublist; [apply dset_sublist, remove_char_sublist | exact Hk]).
  case_bool_decide as Eg; (split; [by apply (combat_ok_fields w)|]; split; [done|];
    do 6 (split; [done|])); [done|]. cbn.
  intros E. destruct (Hl E) as (c & Hcur & Hin). exists c. split; [done|]. unfold db.
  rewrite dget_dset, decide_True by done. cbn. apply remove_char_elem; [done|].
  intros E2. apply Eg. rewrite Hcur. cbn. by rewrite E2.
Qed.

Lemma session_idle : keeps session_ok idle.
Proof. unfold idle. session. Qed.

Lemma session_acct_times g m : keeps session_ok (send_acct_times g m).
Proof. unfold send_acct_times. session. Qed.
#[local] Hint Resolve session_acct_times : session.

Lemma session_login_burst c : keeps session_ok (login_burst c).
Proof. unfold login_burst, part. session. Qed.

(** Entering the world cannot fail. *)
Lemma enter_world_run c w :
  enter_world c w
  = (Ok tt, set_w_ts_last (ck_mono (w_clock w)) (set_w_linked true (set_w_cur (Some c) (set_w_in_world true
      (set_w_ca_pending_at (if burst_send "ca" then ck_mono (w_clock w) else 0)
        (set_w_ca_pending (burst_send "ca") w)))))).
Proof.
  unfold enter_world, essence_m, essence_of. m_run.
  match goal with |- context [essence_for ?o ?r ?l ?k] => destruct (essence_for_ok o r l k) as [p ->] end.
  by m_run.
Qed.

Lemma frame_login_burst c : frames sans_login (login_burst c).
Proof.
  assert (forall o b, frames sans_login (send_pkt o b)) as Hs
    by (intros; apply frame_login_combat; auto with frames).
  assert (forall o b, frames sans_login (send_r o b)) as Hr
    by (intros; apply frame_login_combat; auto with frames).
  assert (frames sans_login (send_spellbook c)) as Hb by (apply frame_login_bars; auto with frames).
  assert (frames sans_login (unit_state c)) as Hu by (apply frame_login_combat; auto with frames).
  unfold login_burst, part, send_acct_times, build_player_create_object, essence_m. frame.
Qed.

Lemma session_player_login body : keeps session_ok (on_player_login body).
Proof.
  intros w Hw. unfold on_player_login, find_char, my_chars. m_run.
  destruct (find _ _) as [c|] eqn:Ef; [|m_run; by apply session_send_r]. m_run.
  apply find_some in Ef as [Hin _]. apply list_elem_of_In in Hin.
  set (w1 := set_w_dummies [] w).
  assert (session_ok w1 /\ c ∈ default [] (dget (w_account w1) (w_db w1))) as [Hw1 Hin1].
  { split; [|done]. destruct Hw as ([? ? ? ?] & Hb & Hs). split; [|done]. by constructor. }
  pose proof (session_login_burst c w1 Hw1) as Hw2.
  assert (default [] (dget (w_account (snd (login_burst c w1))) (w_db (snd (login_burst c w1))))
          = default [] (dget (w_account w1) (w_db w1))) as Hdb.
  { pose proof (frame_login_burst c (sans_login w1) w1 eq_refl) as Hf. cbv beta in Hf.
    by rewrite (f_equal w_account Hf : w_account (snd (login_burst c w1)) = w_account w1),
      (f_equal w_db Hf : w_db (snd (login_burst c w1)) = w_db w1). }
  destruct (login_burst c w1) as [[[]|e] w2]; [|exact Hw2]. m_run. rewrite enter_world_run. cbn [snd] in *.
  destruct Hw2 as (Hc & Hb & Hd & Hk & Hfd & Hfk & _).
  split; [by apply (combat_ok_fields w2)|]. split; [done|]. do 4 (split; [done|]). cbn.
  split; [done|]. split; [done|]. intros _. exists c. split; [done|]. by rewrite Hdb.
Qed.

Lemma session_logout : keeps session_ok on_logout_request.
Proof.
  unfold on_logout_request. apply keeps_bind; [auto with session|]. intros _.
  apply keeps_bind; [auto with session|]. intros _. apply keeps_modify.
  intros w (Hc & Hb & Hd & Hk & Hfd & Hfk & Hw & Hp & Hl).
  split; [by apply (combat_ok_fields w)|]. split; [done|]. by do 4 (split; [done|]).
Qed.

Lemma session_flush_ca : keeps session_ok flush_ca.
Proof.
  unfold flush_ca. apply keeps_bind.
  - apply keeps_modify. intros w (Hc & Hb & Hd & Hk & Hfd & Hfk & Hw & Hp & Hl).
    split; [by apply (combat_ok_fields w)|]. split; [done|]. by do 5 (split; [done|]).
  - unfold essence_m. session.
Qed.
#[local] Hint Resolve session_flush_ca : session.

Lemma session_ping body : keeps session_ok (on_ping body).
Proof. unfold on_ping. session. Qed.

Lemma session_mark_build c b : keeps session_ok (mark_active_build c b).
Proof.
  unfold mark_active_build. apply keeps_bind; [auto with session|]. intros _. apply keeps_modify.
  intros w Hw. unfold set_active_build. case_match; [|exact Hw].
  destruct Hw as (Hc & Hb & Hd & Hk & Hfd & Hfk & Hr).
  split; [by apply (combat_ok_fields w)|]. split; [done|]. do 2 (split; [done|]). split; [|split; [|exact Hr]].
  - unfold dict_ok, dkeys in *. cbn. rewrite map_map. erewrite map_ext; [exact Hfd|]. by intros [].
  - eapply chars_ok_guids; [|exact Hfk]. apply (guids_map _ (w_chars_file w)). intros c'. by case_match.
Qed.
#[local] Hint Resolve session_mark_build session_char_create session_char_delete session_player_login
  session_logout session_ping session_note : session.

Lemma session_chat body : keeps session_ok (on_messagechat body).
Proof. unfold on_messagechat, do_chat. session. Qed.
Lemma session_upload body : keeps session_ok (on_known_entries_upload body).
Proof. unfold on_known_entries_upload. session. Qed.
Lemma session_activate body : keeps session_ok (on_build_activate body).
Proof. unfold on_build_activate, defer_activation, activate_now. session. Qed.
Lemma session_query body : keeps session_ok (on_build_query body).
Proof. unfold on_build_query, cur_name. session. Qed.
Lemma session_account body : keeps session_ok (on_update_account_data body).
Proof. unfold on_update_account_data, cur_guid, inflate_upload. session. Qed.

Lemma session_cast body : keeps session_ok (on_cast_spell body).
Proof.
  unfold on_cast_spell, known_spells. apply keeps_bind; [session|]. intros [[[count sid] flags] targets].
  apply keeps_bind; [session|]. intros w. destruct (w_cur w) as [c|]; [|session].
  destruct (negb _); [session|]. apply keeps_bind; [session|]. intros spells. cbv zeta.
  destruct (parse_spell_targets targets) as [? tguid]. case_bool_decide; [|session].
  apply session_bind_unit. intros st Hst. unfold full_ok in Hst.
  destruct (Z.gtb_spec (power_cost (spell_info sid) c) (u_power st)); [session|].
  apply keeps_bind; [apply session_put_unit|session]. unfold unit_ok. cbn. lia.
Qed.

Lemma session_cancel_aura body : keeps session_ok (on_cancel_aura body).
Proof. unfold on_cancel_aura. session. Qed.
Lemma session_stand body : keeps session_ok (on_standstatechange body).
Proof. unfold on_standstatechange. session. Qed.
Lemma session_button body : is_bytes body -> keeps session_ok (on_set_action_button body).
Proof. intros Hb. unfold on_set_action_button, cur_guid. session. Qed.
#[local] Hint Resolve session_chat session_upload session_activate session_query session_account
  session_cast session_cancel_aura session_stand session_button session_idle : session.

Lemma session_packet opc body : is_bytes body -> keeps session_ok (handle_packet opc body).
Proof.
  intros Hb. unfold handle_packet, on_char_enum, on_name_query, find_char, my_chars, on_query_time,
    on_item_query_single, on_build_query_category, cur_name, on_request_account_data, cur_guid,
    on_creature_query, on_set_active_mover.
  apply keeps_bind; [auto with session|]. intros _.
  repeat (match goal with |- keeps _ (if ?b then _ else _) => destruct b end; [session|]). session.
Qed.

Lemma session_header eh : keeps session_ok (read_header eh).
Proof. unfold read_header. session. Qed.

(** What the socket delivers. *)
Definition event_ok (e : event) : Prop :=
  match e with Arrived _ _ body => is_bytes body | _ => True end.

Lemma session_serve events : Forall event_ok events -> keeps session_ok (serve events).
Proof.
  induction 1 as [|e events He _ IH]; cbn [serve]; [auto with keeps|].
  destruct e as [t|t header body|t].
  - apply keeps_bind; [session_leaf|]. intros _. apply keeps_bind; [auto with session|done].
  - apply keeps_bind; [session_leaf|]. intros _. apply keeps_bind; [apply session_header|].
    intros h. destruct h; [|auto with keeps]. apply keeps_bind; [by apply session_packet|done].
  - apply keeps_bind; [session_leaf|auto with session].
Qed.

Lemma new_session_ok account d w :
  combat_ok w -> bars_ok (w_bars w) -> dict_ok (w_chars_file w) -> chars_ok (w_chars_file w) ->
  session_ok (new_session account d w).
Proof.
  intros Hc Hb Hd Hk. split; [by apply (combat_ok_fields w)|]. split; [done|].
  unfold store_ok, store_inv, new_session, dsetdefault. cbn.
  destruct (dget account (w_chars_file w)) as [l|] eqn:E; cbn; [done|].
  split; [by apply dict_ok_dset|]. split; [|done].
  eapply chars_ok_guids; [|exact Hk]. apply guids_dset. by rewrite E.
Qed.
End SessionHandlers.

(** ** The property *)

Section SessionInvariant.
Context `{Env}.

(** C1: whatever a client sends, in any order and with any bodies, and however
    long it stays quiet, a session started on a well-formed store keeps: every
    pool, dummy and aura slot well-formed, no stored button zero or wider than
    its word, GUIDs distinct in memory and on disk, a character exactly while
    the session is in the world, no CA block owed outside of it, and the
    played character an entry of its own account until it is deleted; also on
    the paths that raise. *)
Theorem session_invariant account d w events :
  combat_ok w -> bars_ok (w_bars w) -> dict_ok (w_chars_file w) -> chars_ok (w_chars_file w) ->
  Forall event_ok events ->
  session_ok (snd (serve events (new_session account d w))).
Proof. intros. apply session_serve; [done|]. by apply new_session_ok. Qed.
End SessionInvariant.

(** A packet as the client writes it: the size counts the opcode. *)
Definition packet_event (t : clock) (opc : Z) (body : bytes) : event :=
  let size := pylen body + 4 in
  Arrived t ([Z.land (Z.shiftr size 8) 0xFF; Z.land size 0xFF] ++ le 4 opc) body.

Definition at_second (n : Z) : clock := Clock (n * 1000000000) (1700000000000000000 + n * 1000000000)
  (LocalTime 2024 1 2 3 4 1).

(** Logging in, casting, deleting the played character and making another. *)
Definition sample_events : list event :=
  [packet_event (at_second 2) CMSG_PLAYER_LOGIN (le 8 7);
   packet_event (at_second 3) CMSG_SET_ACTIVE_MOVER (le 8 7);
   packet_event (at_second 4) CMSG_CAST_SPELL ([1] ++ le 4 705781 ++ [0] ++ le 4 0);
   Quiet (at_second 5);
   packet_event (at_second 6) CMSG_CHAR_DELETE (le 8 7);
   packet_event (at_second 7) CMSG_CHAR_CREATE (lit "Bea" ++ [0; 1; 4; 0; 1; 2; 3; 4; 5; 0])].

Lemma sample_world_combat : combat_ok sample_world.
Proof.
  split; [constructor | constructor | apply NoDup_nil_2 | intros t h Hin].
  by apply not_elem_of_nil in Hin.
Qed.

Lemma sample_world_store : dict_ok (w_chars_file sample_world) /\ chars_ok (w_chars_file sample_world).
Proof. split; [by_decide|]. split; [by_decide | repeat constructor; cbn; lia]. Qed.

Lemma session_invariant_witness :
  let w := snd (serve (H:=sample_env) sample_events (new_session (lit "bob") DecNone sample_world)) in
  session_ok w /\ map c_guid (all_chars (w_db w)) = [1].
Proof.
  cbv zeta. split.
  - apply session_invariant.
    + apply sample_world_combat.
    + apply sample_bars_ok.
    + apply sample_world_store.
    + apply sample_world_store.
    + repeat (apply Forall_cons; split); try exact I; vm_compute; repeat constructor; discriminate.
  - vm_compute. reflexivity.
Defined.
