(* ===== verification/SessionSpec.v ===== *)
(** * What the handlers of a session promise

    The contract of the packets with state behind them: what is changed, what
    is sent and in which order, on every branch. *)
From S2P Require Import Prelude Wire PyFloat Text Format Json Consts Rc4 Framing Chars Account.
From S2P Require Import Dbc Classes Spells Known Builders Builds World Bars Combat.
From S2P Require Import Player Commands Session Invariant.

(** ** Which packets an operation may send *)

Definition sends {A} (ops : list Z) (m : M A) : Prop :=
  forall o, keeps (fun w => exists l, w_out w = o ++ l /\ Forall (fun p => fst p ∈ ops) l) m.

Lemma sends_pkt ops o b : o ∈ ops -> sends ops (send_pkt o b).
Proof.
  intros Ho out. apply keeps_modify. intros w (l & E & Hl). exists (l ++ [(o, b)]). cbn.
  rewrite E, app_assoc. split; [done|]. apply Forall_app. split; [done|]. by constructor.
Qed.

Lemma sends_r ops o b : o ∈ ops -> sends ops (send_r o b).
Proof.
  intros Ho out. apply keeps_bind; [apply keeps_lift|]. intros. by apply (sends_pkt ops).
Qed.

Lemma sends_run {A} ops (m : M A) w :
  sends ops m -> exists l, w_out (snd (m w)) = w_out w ++ l /\ Forall (fun p => fst p ∈ ops) l.
Proof. intros Hm. apply (Hm (w_out w)). exists []. by rewrite app_nil_r. Qed.

Ltac sends :=
  let o := fresh in intros o; cbv zeta;
  repeat first [ solve [apply sends_pkt; by_decide] | solve [apply sends_r; by_decide]
               | solve [auto with keeps] | apply keeps_modify; intros ? Hsent; exact Hsent
               | match goal with Hs : context [sends _ _] |- _ => solve [apply Hs] end
               | keep_step | progress cbv zeta
               | match goal with |- keeps _ (match ?x with _ => _ end _) => destruct x end; cbv beta ].

Section Sends.
Context `{Env}.

Definition sync_opcodes : list Z := [SMSG_LEARNED_SPELL; SMSG_REMOVED_SPELL; SMSG_ACTION_BUTTONS].

Lemma sends_sync c : sends sync_opcodes (sync_spellbook c).
Proof.
  unfold sync_spellbook, known_spells, unbind_stale, bars_for, bars_set, save_bars, send_action_buttons,
    smsg_action_buttons, bars_autofill, known_spells, bars_for, bars_adopt, save_bars. sends.
Qed.

(** ** The known set, sent *)

(** The spells a known set grants. *)
Definition granted (rows : list ca_row) : gset Z :=
  list_to_set (map ks_spell (ca_known_spells_go CA_INDEX rows [])).

Lemma send_known_run w c rows :
  known_for (w_known w) (c_guid c) = Ok rows -> pylen rows < 2 ^ 32 ->
  bars_ok (w_bars w) -> in_step w (c_guid c) ->
  exists w' b mid,
    send_known_entries c w = (Ok (pylen rows), w')
    /\ smsg_ca_known_entries (map known_record rows) = Ok b
    /\ w_out w' = w_out w ++ (SMSG_CA_KNOWN_ENTRIES, b) :: mid
    /\ Forall (fun p => fst p ∈ sync_opcodes) mid
    /\ client_spells (w_out w') = granted rows
    /\ in_step w' (c_guid c) /\ bars_ok (w_bars w') /\ sans_bars w' = sans_bars w.
Proof.
  intros Hk Hn Hb Hi.
  assert (exists b, smsg_ca_known_entries (map known_record rows) = Ok b) as [b Eb].
  { unfold smsg_ca_known_entries. rewrite packI_ok; [by eexists|].
    unfold pylen in *. rewrite length_map. lia. }
  unfold send_known_entries. m_run. rewrite Hk. m_run. rewrite (run_send_r _ _ _ _ Eb). m_run.
  set (w1 := set_w_out (w_out w ++ [(SMSG_CA_KNOWN_ENTRIES, b)]) w).
  set (spells := ca_known_spells_go CA_INDEX rows []).
  assert (known_ok w1 (c_guid c) spells) as Hk1
    by (unfold known_ok, ca_known_spells; cbn; by rewrite Hk).
  assert (in_step w1 (c_guid c)) as Hi1.
  { destruct Hi as [H1 H2]. split; [done|]. unfold w1. cbn [w_out set_w_out]. rewrite client_spells_app.
    cbn [fold_left].
    by rewrite client_other. }
  pose proof (sync_run w1 c spells Hb Hk1 Hi1) as Hrun. cbv zeta in Hrun.
  destruct Hrun as (w2 & E & Hb2 & Hkn & Hs & Hc & _).
  destruct (sends_run sync_opcodes (sync_spellbook c) w1 (sends_sync c)) as (mid & Hout & Hmid).
  pose proof (frame_sync_spellbook c (sans_bars w1) w1 eq_refl) as Hf. cbv beta in Hf.
  rewrite E in Hout, Hf. cbn [snd] in Hout, Hf. rewrite E. m_run.
  exists w2, b, mid. split; [done|]. split; [done|]. split.
  { rewrite Hout. unfold w1. cbn [w_out set_w_out]. by rewrite <- app_assoc. }
  split; [done|]. split; [done|]. split.
  - unfold in_step, sent_of. rewrite Hs, dget_dset_eq. cbn. split; [by eapply known_words | done].
  - split; [done|]. exact Hf.
Qed.
End Sends.

(** ** Builds *)

Section Builds.
Context `{Env}.

Lemma client_spells_others out l :
  Forall (fun p => client_step (client_spells out) p = client_spells out) l ->
  client_spells (out ++ l) = client_spells out.
Proof.
  rewrite client_spells_app. induction l as [|p l IH]; [done|]. intros [Hp Hl]%Forall_cons.
  cbn [fold_left]. rewrite Hp. auto.
Qed.

Lemma build_rows_sorted build rows : build_rows build = Ok rows -> py_sort row_leb rows = rows.
Proof.
  unfold build_rows. destruct (or_dict build); [|done]. apply rows_of_json_sorted.
Qed.

Lemma active_in_file db guid build_id :
  let db' := fst (set_active_build db guid build_id) in
  let hit := snd (set_active_build db guid build_id) in
  forall c, c ∈ all_chars (if hit then db' else db) -> c_guid c = guid ->
    c_activeBuild c = match build_id with [] => None | _ => Some build_id end.
Proof.
  cbv zeta. unfold set_active_build. cbn [fst snd]. intros c Hc Hg.
  destruct (existsb _ _) eqn:E.
  - unfold all_chars in Hc. apply list_elem_of_In, in_flat_map in Hc as ([a cs] & Ha & Hc).
    apply in_map_iff in Ha as ([a' cs'] & [= <- <-] & Ha). cbn in Hc.
    apply in_map_iff in Hc as (c' & <- & Hc). revert Hg.
    destruct (c_guid c' =? guid) eqn:Eg; [done|]. by apply Z.eqb_neq in Eg.
  - exfalso. assert (existsb (fun c => c_guid c =? guid) (all_chars db) = true) as E'; [|congruence].
    apply existsb_exists. exists c. split; [by apply list_elem_of_In | by apply Z.eqb_eq].
Qed.
Lemma app_then_two {A} (o mid : list A) k a b :
  ((o ++ k :: mid) ++ [a]) ++ [b] = o ++ k :: mid ++ [a; b].
Proof. by rewrite <- !app_assoc. Qed.

(** What remembering the active build does, and what it leaves alone. *)
Lemma mark_active_run w c id :
  w_cur w = Some c ->
  exists w', mark_active_build c id w = (Ok tt, w')
    /\ w_out w' = w_out w /\ w_known w' = w_known w /\ w_sent w' = w_sent w
    /\ w_ca_pending w' = w_ca_pending w
    /\ w_cur w' = Some (set_build (Some id) c)
    /\ forall c', c' ∈ all_chars (w_chars_file w') -> c_guid c' = c_guid c ->
         c_activeBuild c' = match id with [] => None | _ => Some id end.
Proof.
  intros Hcur. unfold mark_active_build, edit_cur. m_run. rewrite Hcur.
  set (w1 := set_w_cur _ _).
  assert (w_out w1 = w_out w /\ w_known w1 = w_known w /\ w_sent w1 = w_sent w
    /\ w_ca_pending w1 = w_ca_pending w /\ w_cur w1 = Some (set_build (Some id) c))
    as (H1 & H2 & H3 & H4 & H5) by (unfold w1; by destruct (w_linked w)).
  pose proof (active_in_file (w_chars_file w1) (c_guid c) id) as Hf. cbv zeta in Hf.
  destruct (set_active_build (w_chars_file w1) (c_guid c) id) as [file hit]. cbn [fst snd] in Hf.
  eexists. split; [reflexivity|]. destruct hit; cbn; by split_and!.
Qed.

End Builds.

(** ** The upload of a tree *)

(** What the fold of [best_ranks] has found among the records seen so far. *)
Definition best_so_far (best : list (Z * ca_row)) (seen : list ca_record) : Prop :=
  forall id,
    match dget id best with
    | None => forall r, r ∈ seen -> cr_id r <> id
    | Some row =>
        kr_id row = id
        /\ (exists r, r ∈ seen /\ cr_id r = id /\ cr_rank r = kr_rank row)
        /\ forall r, r ∈ seen -> cr_id r = id -> cr_rank r <= kr_rank row
    end.

(** One more record changes what is said of its own id only. *)
Lemma best_other best seen r id :
  best_so_far best seen -> cr_id r <> id ->
  match dget id best with
  | None => forall r', r' ∈ seen ++ [r] -> cr_id r' <> id
  | Some row =>
      kr_id row = id /\ (exists r', r' ∈ seen ++ [r] /\ cr_id r' = id /\ cr_rank r' = kr_rank row)
      /\ forall r', r' ∈ seen ++ [r] -> cr_id r' = id -> cr_rank r' <= kr_rank row
  end.
Proof.
  intros Hb Hid. specialize (Hb id). destruct (dget id best) as [row|].
  - destruct Hb as (H1 & (r' & Hr' & H2 & H3) & H4). split; [done|]. split.
    + exists r'. split; [apply elem_of_app; by left|done].
    + intros r1 [H5|H5]%elem_of_app; [by apply H4|]. apply list_elem_of_singleton in H5 as ->. done.
  - intros r' [Hr'|Hr']%elem_of_app; [by apply Hb|]. apply list_elem_of_singleton in Hr' as ->. done.
Qed.

Lemma keep_best_spec best seen r : best_so_far best seen -> best_so_far (keep_best best r) (seen ++ [r]).
Proof.
  intros Hb id. unfold keep_best. cbv zeta. destruct (decide (cr_id r = id)) as [<-|Hid].
  2:{ pose proof (best_other best seen r id Hb Hid) as Ho.
      assert (forall row, dget id (dset (cr_id r) row best) = dget id best) as Hd
        by (intros; rewrite dget_dset, decide_False; congruence).
      destruct (dget (cr_id r) best) as [cur|]; [destruct (_ <? _)|]; by rewrite ?Hd. }
  pose proof (Hb (cr_id r)) as Hr.
  assert (r ∈ seen ++ [r]) as Hin by (apply elem_of_app; right; left).
  assert (forall k, (forall r', r' ∈ seen -> cr_id r' = cr_id r -> cr_rank r' <= k) -> cr_rank r <= k ->
            forall r', r' ∈ seen ++ [r] -> cr_id r' = cr_id r -> cr_rank r' <= k) as Hmax.
  { intros k H1 H2 r' [H3|H3]%elem_of_app Hid; [by apply H1|].
    by apply list_elem_of_singleton in H3 as ->. }
  destruct (dget (cr_id r) best) as [cur|] eqn:E.
  - destruct Hr as (Hk & (r' & Hr' & H2 & H3) & H4). destruct (Z.ltb_spec (kr_rank cur) (cr_rank r)).
    + rewrite dget_dset_eq. cbn. split; [done|]. split; [by exists r|].
      apply Hmax; [|lia]. intros r1 Hr1 Hid. specialize (H4 r1 Hr1 Hid). lia.
    + rewrite E. split; [done|]. split; [|by apply Hmax].
      exists r'. split; [apply elem_of_app; by left|done].
  - rewrite dget_dset_eq. cbn. split; [done|]. split; [by exists r|].
    apply Hmax; [|lia]. intros r1 Hr1 Hid. by destruct (Hr r1 Hr1).
Qed.

Lemma keep_best_ok best r : dict_ok best -> dict_ok (keep_best best r).
Proof. intros Hd. unfold keep_best. repeat case_match; try done; by apply dict_ok_dset. Qed.

Lemma best_ranks_spec recs : best_so_far (best_ranks recs) recs /\ dict_ok (best_ranks recs).
Proof.
  unfold best_ranks.
  assert (forall best seen, best_so_far best seen -> dict_ok best ->
    best_so_far (fold_left keep_best recs best) (seen ++ recs) /\ dict_ok (fold_left keep_best recs best)) as Hgo.
  { induction recs as [|r recs IH]; intros best seen Hb Hd; [by rewrite app_nil_r|].
    cbn [fold_left]. specialize (IH _ _ (keep_best_spec best seen r Hb) (keep_best_ok best r Hd)).
    by rewrite <- app_assoc in IH. }
  apply (Hgo [] []); [|apply dict_ok_nil]. intros id r Hr. by apply not_elem_of_nil in Hr.
Qed.

Lemma sort_rows_strict l :
  NoDup (map kr_id l) -> StronglySorted Z.lt (map kr_id (py_sort row_leb l)).
Proof.
  intros Hn. assert (NoDup (map kr_id (py_sort row_leb l))) as Hn'
    by (rewrite (Permutation_map kr_id (py_sort_perm row_leb l)); done).
  pose proof (py_sort_sorted row_leb row_leb_total row_leb_trans l) as Hs.
  revert Hn'. induction Hs as [|x k _ IH Hx]; [constructor|]. cbn.
  intros [Hnx Hn']%NoDup_cons. constructor; [auto|]. apply Forall_forall. rewrite Forall_forall in Hx.
  intros i (y & -> & Hy)%list_elem_of_fmap. specialize (Hx y Hy). unfold row_leb in Hx.
  apply Z.leb_le in Hx. assert (kr_id x <> kr_id y); [|lia].
  intros E. apply Hnx. rewrite E. by apply list_elem_of_fmap_2.
Qed.

(** An uploaded tree keeps every entry once, at the highest rank any of its
    records gives it, and nothing else, in increasing order of the ids. *)
Theorem upload_rows_best recs id rank :
  (CaRow id rank ∈ upload_rows recs <->
     (exists r, r ∈ recs /\ cr_id r = id /\ cr_rank r = rank)
     /\ forall r, r ∈ recs -> cr_id r = id -> cr_rank r <= rank)
  /\ StronglySorted Z.lt (map kr_id (upload_rows recs)).
Proof.
  destruct (best_ranks_spec recs) as [Hb Hd].
  assert (forall row, row ∈ upload_rows recs <-> dget (kr_id row) (best_ranks recs) = Some row) as Hin.
  { intros row. unfold upload_rows. rewrite py_sort_elem, list_elem_of_fmap. split.
    - intros ([i row'] & -> & H1). cbn. apply elem_of_dget in H1; [|done].
      pose proof (Hb i) as Hi. rewrite H1 in Hi. destruct Hi as (<- & _). done.
    - intros H1. exists (kr_id row, row). split; [done|]. by apply dget_elem_of. }
  split.
  - rewrite Hin. cbn. specialize (Hb id). destruct (dget id (best_ranks recs)) as [[i k]|] eqn:E; cbn in *.
    + destruct Hb as (-> & Hex & Hmax). split.
      * intros [= <-]. by split.
      * intros [(r & Hr & H1 & H2) H3]. destruct Hex as (r' & Hr' & H4 & H5).
        specialize (Hmax r Hr H1). specialize (H3 r' Hr' H4). do 2 f_equal. lia.
    + split; [done|]. intros [(r & Hr & H1 & _) _]. by destruct (Hb r Hr).
  - apply sort_rows_strict.
    assert (map kr_id (map snd (best_ranks recs)) = dkeys (best_ranks recs)) as ->; [|exact Hd].
    unfold dkeys. rewrite map_map. apply map_ext_in. intros [i row] Hir. cbn.
    apply list_elem_of_In, elem_of_dget in Hir; [|done]. specialize (Hb i). rewrite Hir in Hb.
    by destruct Hb as (-> & _).
Qed.

Section Upload.
Context `{Env}.

(** A tree the client uploads in the world replaces the stored one, is
    echoed back as the known set, and leaves the client with exactly the spells
    the new set grants; before the world it changes nothing. *)
Theorem known_entries_upload w body recs was labels :
  parse_cmsg_ca_known_entries body = Ok recs ->
  let rows := upload_rows recs in
  (w_cur w = None -> on_known_entries_upload body w = (Ok tt, w))
  /\ forall c, w_cur w = Some c -> known_for (w_known w) (c_guid c) = Ok was ->
     upload_log was rows = Ok labels ->
     dict_ok (w_known w) -> pylen rows < 2 ^ 32 -> bars_ok (w_bars w) -> in_step w (c_guid c) ->
     exists w' b mid,
       on_known_entries_upload body w = (Ok tt, w')
       /\ known_for (w_known w') (c_guid c) = Ok rows
       /\ smsg_ca_known_entries (map known_record rows) = Ok b
       /\ w_out w' = w_out w ++ (SMSG_CA_KNOWN_ENTRIES, b) :: mid
       /\ Forall (fun p => fst p ∈ sync_opcodes) mid
       /\ client_spells (w_out w') = granted rows
       /\ in_step w' (c_guid c).
Proof.
  intros Hp. cbv zeta. unfold on_known_entries_upload. split.
  - intros Hcur. m_run. rewrite Hp. m_run. by rewrite Hcur.
  - intros c Hcur Hwas Hlog Hd Hn Hb Hi. m_run. rewrite Hp. m_run. rewrite Hcur.
    unfold known_for_m, set_known_m. m_run. rewrite Hwas. m_run.
    set (rows := upload_rows recs) in *. set (w1 := set_w_known _ w).
    assert (known_for (w_known w1) (c_guid c) = Ok rows) as Hk1.
    { unfold w1. cbn [w_known set_w_known]. rewrite known_for_set by done. f_equal.
      apply py_sort_id, py_sort_sorted; [apply row_leb_total | apply row_leb_trans]. }
    destruct (send_known_run w1 c rows Hk1 Hn Hb Hi) as (w2 & b & mid & E & Eb & Hout & Hmid & Hc & Hi2 & _ & Hf).
    rewrite E. m_run. rewrite Hlog. m_run. exists w2, b, mid.
    assert (w_known w2 = w_known w1) as Hk2 by exact (f_equal w_known Hf).
    split_and!; try done. by rewrite Hk2.
Qed.
End Upload.

(** ** The CA block *)

Section Flush.
Context `{Env}.

Lemma run_batch pkts w :
  send_batch_pkts pkts w = (Ok (pylen pkts), set_w_out (w_out w ++ pkts) w).
Proof.
  unfold send_batch_pkts.
  assert (forall w, mapM_ (fun '(o, b) => send_pkt o b) pkts w = (Ok tt, set_w_out (w_out w ++ pkts) w)) as Hgo.
  { induction pkts as [|[o b] pkts IH]; intros v; cbn [mapM_]; m_run.
    - rewrite app_nil_r. by destruct v.
    - rewrite IH. cbn [w_out set_w_out]. by rewrite <- app_assoc. }
  m_run. rewrite Hgo. by m_run.
Qed.

Lemma essence_packets_opcode override rows pkts :
  essence_packets override rows = Ok pkts -> Forall (fun p => fst p = SMSG_CA_ESSENCE_BUDGET) pkts.
Proof.
  unfold essence_packets. revert pkts. induction rows as [|r rows IH]; cbn; intros pkts E.
  - apply Ok_inj in E. subst. constructor.
  - inv_binds E. apply Ok_inj in E. subst. constructor; [|by apply IH].
    unfold essence_packet in E0. destruct (default _ override) as [ae te]. cbv zeta in E0.
    inv_binds E0. apply Ok_inj in E0. by subst.
Qed.

Definition active_marker (c : character) : list packet :=
  match default [] (c_activeBuild c) with
  | [] => []
  | id => [(SMSG_BUILD_ACTIVE_BUILD_UPDATE, smsg_build_active_build_update py_repr ARCHIVE_ACTIVE_SPEC id 0 0)]
  end.

Definition owed_ack (w : world) : list packet :=
  match w_ca_ack w with
  | None => []
  | Some _ => [(SMSG_BUILD_ACTIVATE_RESULT, smsg_build_activate_result py_repr (lit "ACTIVATE_BUILD_OK"))]
  end.

(** The deferred block goes out in the one order the client can use: the
    active spec that builds the container, every essence row, the known set
    with the spellbook changes, the active-build marker if there is one, and
    last the acknowledgement of an activation that came during loading, if one
    is owed; afterwards nothing is owed any more and the client has exactly the
    granted spells. *)
Theorem flush_ca_order w c rows pkts :
  w_cur w = Some c -> ARCHIVE_CA_MODE = lit "full" ->
  essence_packets (w_override w) ESSENCE_ROWS = Ok pkts ->
  known_for (w_known w) (c_guid c) = Ok rows -> pylen rows < 2 ^ 32 ->
  bars_ok (w_bars w) -> in_step w (c_guid c) ->
  exists w' b mid,
    flush_ca w = (Ok tt, w')
    /\ w_out w' = (((w_out w ++ (SMSG_CA_ACTIVE_SPEC, le 4 0 ++ le 4 1) :: pkts)
                    ++ (SMSG_CA_KNOWN_ENTRIES, b) :: mid) ++ active_marker c) ++ owed_ack w
    /\ Forall (fun p => fst p ∈ sync_opcodes) mid
    /\ w_ca_pending w' = false /\ w_ca_ack w' = None
    /\ client_spells (w_out w') = granted rows.
Proof.
  intros Hcur Hmode Hpk Hk Hn Hb [Hw Hc]. unfold flush_ca, ca_mode_is, send_essence_budget.
  rewrite Hmode. m_run.
  change (is_one_of (lit "full") ["none"]%string) with false.
  change (is_one_of (lit "full") ["full"; "budget"]%string) with true.
  change (is_one_of (lit "full") ["full"; "known"]%string) with true. cbv iota. m_run.
  cbn [w_cur set_w_ca_pending]. rewrite Hcur. m_run.
  rewrite (run_send_r _ _ _ (le 4 0 ++ le 4 1)) by done. m_run.
  cbn [w_override set_w_out set_w_ca_pending]. rewrite Hpk. m_run. rewrite run_batch. m_run.
  match goal with |- context [send_known_entries c ?v] => set (w1 := v) end.
  pose proof (essence_packets_opcode _ _ _ Hpk) as Hop.
  assert (w_out w1 = w_out w ++ (SMSG_CA_ACTIVE_SPEC, le 4 0 ++ le 4 1) :: pkts) as Hout1
    by (unfold w1; cbn [w_out set_w_out set_w_ca_pending]; by rewrite <- app_assoc).
  assert (in_step w1 (c_guid c)) as Hi1.
  { split; [exact Hw|]. rewrite Hout1, client_spells_others; [exact Hc|].
    constructor; [by apply client_other|]. eapply Forall_impl; [exact Hop|].
    intros [o b] Ho. cbn in Ho. subst o. by apply client_other. }
  destruct (send_known_run w1 c rows Hk Hn Hb Hi1) as (w2 & b & mid & E & _ & Hout & Hmid & Hc2 & _ & _ & Hf).
  rewrite E. m_run.
  assert (w_ca_ack w2 = w_ca_ack w) as Hack by exact (f_equal w_ca_ack Hf).
  assert (w_ca_pending w2 = false) as Hpend by exact (f_equal w_ca_pending Hf).
  rewrite Hout1 in Hout.
  set (w3 := set_w_out (w_out w2 ++ active_marker c) w2).
  match goal with |- context [match ?m w2 with _ => _ end] => assert (m w2 = (Ok tt, w3)) as -> end.
  { unfold w3, active_marker. destruct (default [] (c_activeBuild c)); m_run; [|done].
    rewrite app_nil_r. by destruct w2. }
  m_run.
  assert (client_spells (w_out w3) = granted rows) as Hc3.
  { unfold w3. cbn [w_out set_w_out]. rewrite client_spells_others; [done|]. unfold active_marker.
    destruct (default [] (c_activeBuild c)); [constructor|].
    constructor; [by apply client_other | constructor]. }
  assert (forall v, exists p, essence_m (c_level c) (c_class c) v = (Ok p, v)) as Hess.
  { intros v. unfold essence_m, essence_of. m_run.
    destruct (essence_for_ok (w_override v) ESSENCE_ROWS (c_level c) (Some (c_class c))) as [p ->]. by exists p. }
  change (w_ca_ack w3) with (w_ca_ack w2). unfold owed_ack. rewrite Hack.
  destruct (w_ca_ack w) as [ack|]; m_run;
    match goal with |- context [essence_m _ _ ?v] => destruct (Hess v) as [p ->] end; m_run;
    eexists _, b, mid; (split; [reflexivity|]); cbn [w_out w_ca_pending w_ca_ack set_w_out set_w_ca_ack].
  - split; [unfold w3; cbn [w_out set_w_out]; by rewrite Hout|]. split; [done|]. split; [done|]. split; [done|].
    rewrite client_spells_others; [done|]. constructor; [by apply client_other | constructor].
  - split; [unfold w3; cbn [w_out set_w_out]; by rewrite app_nil_r, Hout|]. split; [done|].
    split; [done|]. split; [|done]. unfold w3. cbn. exact Hack.
Qed.
End Flush.

(** ** Casting *)

(** The pools as [unit_state] finds them: full for a character not seen yet,
    never above the maximum. *)
Definition live_unit (w : world) (c : character) : unit_st :=
  let '(hp, mp) := max_pools c in
  let st := default (UnitSt hp mp) (dget (c_guid c) (w_units w)) in
  UnitSt (Z.min (u_hp st) hp) (Z.min (u_power st) mp).

(** The character's power is [p]. *)
Definition power_is (c : character) (p : Z) (w : world) : Prop :=
  p <= snd (max_pools c) /\ exists st, dget (c_guid c) (w_units w) = Some st /\ u_power st = p.

Lemma power_bind_unit c p {B} (f : unit_st -> M B) :
  (forall st, u_power st = p -> keeps (power_is c p) (f st)) -> keeps (power_is c p) (unit_state c ≫= f).
Proof.
  intros Hf. apply (keeps_bind_val _ (fun st => u_power st = p)); [|exact Hf].
  intros w [Hp (st & Hst & Hu)]. destruct (unit_state_run c w) as (st' & -> & Est & _).
  rewrite Hst in Est. destruct (max_pools c) as [hp mp] eqn:Em. cbn [default from_option id] in Est.
  assert (u_power st' = p) as Hp' by (rewrite Est; cbn in *; lia). cbn. split; [|by intros ? [= <-]].
  unfold power_is. rewrite Em. split; [done|]. exists st'. cbn. by rewrite dget_dset_eq.
Qed.

Lemma power_put_unit c p st : u_power st = p -> keeps (power_is c p) (put_unit (c_guid c) st).
Proof.
  intros Hu. apply keeps_modify. intros w [Hp _]. split; [done|]. exists st. cbn. by rewrite dget_dset_eq.
Qed.

Create HintDb power.
Ltac power_leaf := apply keeps_modify; intros ? Hpower; exact Hpower.
Ltac power := intros;
  repeat first [ solve [auto with power keeps] | power_leaf | apply power_bind_unit; intros ? ?
               | apply power_put_unit; assumption | keep_step | progress cbv zeta
  | match goal with |- keeps _ (match ?x with _ => _ end _) => destruct x end; cbv beta ].

Lemma power_send_pkt c p o b : keeps (power_is c p) (send_pkt o b).
Proof. power. Qed.
Lemma power_send_r c p o b : keeps (power_is c p) (send_r o b).
Proof. unfold send_r. power. Qed.
#[local] Hint Resolve power_send_pkt power_send_r : power.
Lemma power_update c p : keeps (power_is c p) (send_power_update c).
Proof. unfold send_power_update. power. Qed.
#[local] Hint Resolve power_update : power.

Section Cast.
Context `{Env}.

Lemma power_amount c p e : keeps (power_is c p) (effect_amount e).
Proof. unfold effect_amount, roll. power. Qed.
#[local] Hint Resolve power_amount : power.

Lemma power_aura_effects c p t n es : keeps (power_is c p) (aura_effects t n es).
Proof.
  revert n. induction es as [|e es IH]; intros n; cbn [aura_effects]; unfold periodic_part; power.
Qed.
#[local] Hint Resolve power_aura_effects : power.

Lemma power_effects c p info g : keeps (power_is c p) (apply_spell_effects c info g).
Proof.
  unfold apply_spell_effects, apply_effect, apply_aura, free_aura_slot, put_aura, hurt_dummy, heal_dummy,
    send_dummy_health, put_dummy, hurt_self, heal_self. power.
Qed.

Definition cast_opcodes : list Z :=
  [SMSG_UPDATE_OBJECT; SMSG_POWER_UPDATE; SMSG_SPELLNONMELEEDAMAGELOG; SMSG_SPELLHEALLOG; SMSG_AURA_UPDATE].

Lemma sends_power c : sends cast_opcodes (send_power_update c).
Proof. unfold send_power_update, unit_state, put_unit. sends. Qed.

Lemma sends_aura_effects t n es : sends cast_opcodes (aura_effects t n es).
Proof.
  revert n. induction es as [|e es IH]; intros n; cbn [aura_effects];
    unfold periodic_part, effect_amount, roll; sends.
Qed.

Lemma sends_effects c info g : sends cast_opcodes (apply_spell_effects c info g).
Proof.
  pose proof sends_aura_effects as Ha. pose proof sends_power as Hp.
  unfold apply_spell_effects, apply_effect, apply_aura, free_aura_slot, put_aura, hurt_dummy, heal_dummy,
    send_dummy_health, put_dummy, hurt_self, heal_self, unit_state, put_unit, effect_amount, roll. sends.
Qed.

Lemma power_cost_nonneg info c : 0 <= power_cost info c.
Proof.
  unfold power_cost. destruct info as [info|]; [|lia].
  destruct (si_powerType info =? ptype_of c); cbn [negb]; [apply Z.le_max_l | lia].
Qed.

Lemma unit_state_live c w :
  unit_state c w = (Ok (live_unit w c), set_w_units (dset (c_guid c) (live_unit w c) (w_units w)) w).
Proof. destruct (unit_state_run c w) as (st & -> & -> & _). done. Qed.

(** A cast of a spell the character does not know is refused, and one that
    costs more power than it has is refused before anything happens; any other
    cast starts with SMSG_SPELL_GO and takes exactly its cost, whatever its
    effects do. *)
Theorem cast_spell_gate w c body n sid flags targets spells :
  is_bytes body -> parse_cmsg_cast_spell body = Ok (n, sid, flags, targets) ->
  w_cur w = Some c -> w_in_world w = true ->
  ca_known_spells CA_INDEX (w_known w) (c_guid c) = Ok spells ->
  let cost := power_cost (spell_info sid) c in
  let st := live_unit w c in
  let failed code := (SMSG_CAST_FAILED, [Z.land n 0xFF] ++ le 4 sid ++ [code]) in
  let w' := snd (on_cast_spell body w) in
  (sid ∉ map ks_spell spells ->
     on_cast_spell body w = (Ok tt, set_w_out (w_out w ++ [failed SPELL_FAILED_NOT_KNOWN]) w))
  /\ (sid ∈ map ks_spell spells -> u_power st < cost ->
     fst (on_cast_spell body w) = Ok tt /\ w_out w' = w_out w ++ [failed SPELL_FAILED_NO_POWER]
     /\ dget (c_guid c) (w_units w') = Some st /\ w_dummies w' = w_dummies w /\ w_auras w' = w_auras w)
  /\ (sid ∈ map ks_spell spells -> cost <= u_power st -> forall go,
     smsg_spell_go (mstime w) c n sid targets (snd (parse_spell_targets targets)) = Ok go ->
     exists rest st', w_out w' = w_out w ++ (SMSG_SPELL_GO, go) :: rest
       /\ dget (c_guid c) (w_units w') = Some st' /\ u_power st' = u_power st - cost).
Proof.
  intros Hb Hp Hcur Hin Hk. cbv zeta.
  assert (0 <= sid < 2 ^ 32) as Hsid.
  { unfold parse_cmsg_cast_spell in Hp. destruct (_ <? _); [injection Hp as <- <- <- <-; lia|].
    inv_binds Hp. injection Hp as <- <- <- <-. by apply (unpack_u_bound 4 body 1). }
  assert (forall code, 0 <= code < 256 ->
    smsg_cast_failed n sid code = Ok ([Z.land n 0xFF] ++ le 4 sid ++ [code])) as Hf.
  { intros code Hc. unfold smsg_cast_failed. rewrite packI_ok by done. cbn [mbind res_bind].
    rewrite (land_byte code) by exact Hc. done. }
  unfold on_cast_spell. m_run. rewrite Hp. m_run. rewrite Hcur, Hin. cbn [negb]. m_run.
  rewrite (known_spells_run w _ _ Hk). m_run.
  destruct (parse_spell_targets targets) as [mask tguid]. cbn [snd].
  split; [|split].
  - intros Hn. rewrite bool_decide_eq_false_2 by done.
    apply run_send_r, Hf. unfold SPELL_FAILED_NOT_KNOWN. lia.
  - intros Hy Hcost. rewrite bool_decide_eq_true_2 by done. m_run. rewrite unit_state_live. m_run.
    rewrite (proj2 (Z.gtb_lt _ _)) by lia.
    rewrite (run_send_r _ _ _ _ (Hf SPELL_FAILED_NO_POWER ltac:(unfold SPELL_FAILED_NO_POWER; lia))).
    cbn. rewrite dget_dset_eq. done.
  - intros Hy Hcost go Hgo. rewrite bool_decide_eq_true_2 by done. m_run. rewrite unit_state_live. m_run.
    destruct (Z.gtb_spec (power_cost (spell_info sid) c) (u_power (live_unit w c))) as [|_]; [lia|].
    set (p := u_power (live_unit w c) - power_cost (spell_info sid) c). unfold put_unit. m_run.
    rewrite (run_send_r _ _ _ go) by exact Hgo. m_run.
    set (tail := when_ (negb (power_cost (spell_info sid) c =? 0)) (send_power_update c) ;;
                 apply_spell_effects c (spell_info sid) tguid ;; mret tt).
    match goal with |- context [when_ _ _ ?v] => set (w1 := v) end.
    change (exists rest st', w_out (snd (tail w1)) = w_out w ++ (SMSG_SPELL_GO, go) :: rest
      /\ dget (c_guid c) (w_units (snd (tail w1))) = Some st' /\ u_power st' = p).
    assert (power_is c p w1) as Hw1.
    { split.
      - pose proof (max_pools_pos c). unfold p, live_unit.
        pose proof (power_cost_nonneg (spell_info sid) c) as Hc.
        destruct (max_pools c) as [hp mp]. cbn [u_power snd]. lia.
      - eexists. unfold w1. cbn. rewrite dget_dset_eq. done. }
    assert (keeps (power_is c p) tail) as Hkeep.
    { pose proof (power_effects c p (spell_info sid) tguid). unfold tail. power. }
    destruct (Hkeep w1 Hw1) as [_ (st' & Hst' & Hp')].
    destruct (sends_run cast_opcodes tail w1) as (l & Hl & _).
    { pose proof (sends_effects c (spell_info sid) tguid). pose proof (sends_power c).
      unfold tail. sends. }
    exists l, st'. rewrite Hl. split; [|done]. unfold w1. cbn [w_out set_w_out set_w_units].
    by rewrite <- app_assoc.
Qed.
End Cast.

(** ** Account data *)

Section AccountData.
Context `{Env}.

Lemma body_u32_le d v rest : 0 <= v < 2 ^ 32 -> body_u32 d (le 4 v ++ rest) = v.
Proof.
  intros Hv. unfold body_u32. rewrite pylen_app. pose proof (pylen_nonneg rest).
  change (pylen (le 4 v)) with 4. destruct (Z.geb_spec (4 + pylen rest) 4); [|lia].
  change 4%nat with (length (le 4 v)). rewrite take_app_length. by apply (unle_le_id 4).
Qed.

Definition session_guid (w : world) : Z := match w_cur w with Some c => c_guid c | None => 0 end.

(** The run of an upload whose payload inflates to [d]. *)
Lemma update_run w atype tstamp rawlen payload d :
  0 <= atype < NUM_ACCOUNT_DATA_TYPES -> 0 <= tstamp < 2 ^ 32 -> 0 < rawlen < 2 ^ 32 ->
  zlib_decompress payload = Some d ->
  on_update_account_data (le 4 atype ++ le 4 tstamp ++ le 4 rawlen ++ payload) w
  = (Ok tt, set_w_out (w_out w ++ [(SMSG_UPDATE_ACCOUNT_DATA_COMPLETE, le 4 atype ++ le 4 0)])
      (set_w_acct (acctdata_set (w_acct w) (w_account w) (session_guid w) atype tstamp (body_cstr d))
        (set_w_dec (DecBytes d) w))).
Proof.
  intros Hat Hts Hlen Hz. unfold NUM_ACCOUNT_DATA_TYPES in Hat.
  set (upload := le 4 atype ++ le 4 tstamp ++ le 4 rawlen ++ payload).
  assert (pylen upload <? 12 = false) as Hl12.
  { apply Z.ltb_ge. unfold upload. rewrite !pylen_app. pose proof (pylen_nonneg payload).
    change (pylen (le 4 atype)) with 4. change (pylen (le 4 tstamp)) with 4.
    change (pylen (le 4 rawlen)) with 4. lia. }
  assert (unpackI upload 0 = Ok atype) as U0
    by (apply (unpackI_at []); [done | unfold is_word; lia]).
  assert (unpackI upload 4 = Ok tstamp) as U4 by (apply (unpackI_at (le 4 atype)); done).
  assert (unpackI upload 8 = Ok rawlen) as U8
    by (apply (unpackI_at (le 4 atype ++ le 4 tstamp)); [done | unfold is_word; lia]).
  unfold on_update_account_data. rewrite Hl12. m_run. rewrite U0, U4, U8. m_run.
  destruct (Z.geb_spec atype NUM_ACCOUNT_DATA_TYPES); [unfold NUM_ACCOUNT_DATA_TYPES in *; lia|].
  unfold cur_guid. m_run. unfold inflate_upload.
  rewrite (proj2 (Z.eqb_neq _ _)) by lia. change (drop 12 upload) with payload. rewrite Hz. m_run.
  by rewrite (run_send_r _ _ _ (le 4 atype ++ le 4 0)) by (by rewrite packI_ok by lia).
Qed.

(** A cache file the client uploads comes back, byte for byte and with its
    time stamp, when the client asks for it again. *)
Theorem account_data_roundtrip w atype tstamp s raw payload :
  Forall is_char s -> 0 ∉ s -> utf8_encode s = Ok raw -> raw <> [] ->
  zlib_decompress payload = Some raw ->
  0 <= atype < NUM_ACCOUNT_DATA_TYPES -> 0 <= tstamp < 2 ^ 32 -> pylen raw < 2 ^ 32 ->
  0 <= session_guid w < 2 ^ 64 ->
  let upload := le 4 atype ++ le 4 tstamp ++ le 4 (pylen raw) ++ payload in
  exists w1,
    on_update_account_data upload w = (Ok tt, w1)
    /\ w_out w1 = w_out w ++ [(SMSG_UPDATE_ACCOUNT_DATA_COMPLETE, le 4 atype ++ le 4 0)]
    /\ on_request_account_data (le 4 atype) w1
       = (Ok tt, set_w_out (w_out w1 ++ [(SMSG_UPDATE_ACCOUNT_DATA,
            le 8 (session_guid w) ++ le 4 atype ++ le 4 tstamp ++ le 4 (pylen raw) ++ zlib_compress raw)]) w1).
Proof.
  intros Hs H0 Henc Hraw Hz Hat Hts Hlen Hg. cbv zeta.
  assert (0 < pylen raw) as Hl1 by (destruct raw; [done|]; rewrite pylen_cons; pose proof (pylen_nonneg raw); lia).
  rewrite (update_run w atype tstamp (pylen raw) payload raw) by (done || lia).
  eexists. split; [reflexivity|]. split; [done|]. unfold NUM_ACCOUNT_DATA_TYPES in Hat.
  assert (body_cstr raw = s) as ->.
  { unfold body_cstr. rewrite find_byte_none by (by apply (utf8_encode_nul s)). by apply utf8_roundtrip. }
  assert (body_u32 0xFF (le 4 atype) = atype) as Hu
    by (pose proof (body_u32_le 0xFF atype []) as Hu; rewrite app_nil_r in Hu; apply Hu; lia).
  unfold on_request_account_data. rewrite Hu.
  destruct (Z.geb_spec atype NUM_ACCOUNT_DATA_TYPES); [unfold NUM_ACCOUNT_DATA_TYPES in *; lia|].
  unfold cur_guid. m_run. cbn [w_cur w_acct w_account set_w_out set_w_acct set_w_dec]. fold (session_guid w).
  rewrite acctdata_get_lookup, acct_lookup_set by lia. rewrite decide_True by apply same_slot_refl.
  cbn [ar_data ar_time]. rewrite Henc. cbn [mbind res_bind]. m_run. cbn [fst snd].
  apply run_send_r. unfold smsg_update_account_data, packIs. cbn [res_map].
  rewrite packQ_ok, !packI_ok by lia. cbn [mbind res_bind concat]. rewrite app_nil_r, <- !app_assoc.
  by destruct raw.
Qed.

(** The inflated upload is bound to the name the header cipher has.  In a
    session whose headers are encrypted, the next header after a cache upload
    therefore raises, and the connection is lost. *)
Theorem upload_clobbers_decryptor w st d payload atype tstamp rawlen eh :
  w_dec w = DecRc4 st -> w_crypt_in w = true -> zlib_decompress payload = Some d ->
  0 <= atype < NUM_ACCOUNT_DATA_TYPES -> 0 <= tstamp < 2 ^ 32 -> 0 < rawlen < 2 ^ 32 ->
  let upload := le 4 atype ++ le 4 tstamp ++ le 4 rawlen ++ payload in
  (exists chdr, fst (read_header eh w) = Ok (Some chdr))
  /\ fst (read_header eh (snd (on_update_account_data upload w))) = Err AttributeError.
Proof.
  intros Hd Hc Hz Hat Hts Hlen. cbv zeta. split.
  - unfold read_header. m_run. rewrite Hd, Hc. unfold accept_header. cbn [rc4_of].
    destruct (crypt st eh) as [st' chdr]. m_run. by exists chdr.
  - rewrite (update_run w atype tstamp rawlen payload d) by done. unfold read_header. cbn [snd]. m_run.
    cbn [w_dec w_crypt_in set_w_out set_w_acct set_w_dec]. by rewrite Hc.
Qed.
End AccountData.

(** ** Character select *)

Section CharSelect.
Context `{Env}.

Definition own_chars (w : world) : list character := default [] (dget (w_account w) (w_db w)).

(** Creating a character answers one packet on every path.  A body without
    a name is an error and a name the account already uses is refused, both
    without touching the store; otherwise the account gains one level-1
    character at the end of its list, under a GUID above every other, and the
    saved store is the loaded one. *)
Theorem char_create_handler w body :
  let answer code := w_out w ++ [(SMSG_CHAR_CREATE, [code])] in
  match parse_char_create body with
  | Err _ => on_char_create body w = (Ok tt, set_w_out (answer CHAR_CREATE_ERROR) w)
  | Ok cc =>
      if name_in_use (own_chars w) (cc_name cc)
      then on_char_create body w = (Ok tt, set_w_out (answer CHAR_CREATE_NAME_IN_USE) w)
      else exists w' c,
        on_char_create body w = (Ok tt, w')
        /\ w_out w' = answer CHAR_CREATE_SUCCESS
        /\ own_chars w' = own_chars w ++ [c] /\ w_chars_file w' = w_db w'
        /\ (forall a, a <> w_account w -> dget a (w_db w') = dget a (w_db w))
        /\ Forall (fun o => c_guid o < c_guid c) (all_chars (w_db w))
        /\ c_level c = 1 /\ c_name c <> []
        /\ c_race c = cc_race cc /\ c_class c = cc_class cc /\ c_gender c = cc_gender cc
  end.
Proof.
  cbv zeta. unfold on_char_create, my_chars. destruct (parse_char_create body) as [cc|e].
  2:{ by apply run_send_r. }
  m_run. fold (own_chars w). destruct (name_in_use _ _); [by apply run_send_r|].
  unfold save_chars_db. m_run. rewrite (run_send_r _ _ _ [CHAR_CREATE_SUCCESS]) by done.
  eexists _, (make_character (w_db w) cc). split; [reflexivity|].
  cbn [w_out w_db w_chars_file set_w_out set_w_db set_w_chars_file].
  unfold own_chars, add_char. cbn [w_out w_db w_account w_chars_file set_w_out set_w_db set_w_chars_file].
  split; [done|]. split; [by rewrite dget_dset_eq|]. split; [done|].
  split; [intros a Ha; by rewrite dget_dset, decide_False|]. split; [apply all_below_next|].
  split; [done|]. split; [|done]. cbn. by destruct (strip (cc_name cc)).
Qed.

Lemma filter_keep {A} (P : A -> Prop) `{forall x, Decision (P x)} (l : list A) :
  (forall x, x ∈ l -> P x) -> filter P l = l.
Proof.
  induction l as [|x l IH]; intros Hl; [done|]. rewrite filter_cons, decide_True by (apply Hl; left).
  f_equal. apply IH. intros y Hy. apply Hl. by right.
Qed.

(** Deleting removes exactly the named character of the account and saves
    the store; a GUID the account does not have is refused and nothing moves. *)
Theorem char_delete_handler w body :
  chars_ok (w_db w) ->
  let guid := body_guid body in
  if existsb (fun c => c_guid c =? guid) (own_chars w)
  then exists w',
    on_char_delete body w = (Ok tt, w')
    /\ w_out w' = w_out w ++ [(SMSG_CHAR_DELETE, [CHAR_DELETE_SUCCESS])]
    /\ own_chars w' = filter (fun c => c_guid c <> guid) (own_chars w)
    /\ (forall a, a <> w_account w -> dget a (w_db w') = dget a (w_db w))
    /\ w_chars_file w' = w_db w'
  else on_char_delete body w
       = (Ok tt, set_w_out (w_out w ++ [(SMSG_CHAR_DELETE, [CHAR_DELETE_FAILED])]) w).
Proof.
  intros Hok. cbv zeta. set (guid := body_guid body).
  assert (remove_char guid (own_chars w) = filter (fun c => c_guid c <> guid) (own_chars w)) as Hrm.
  { pose proof (account_guids (w_db w) (w_account w) Hok) as Hn. fold (own_chars w) in Hn. revert Hn.
    induction (own_chars w) as [|c l IH]; [done|]. cbn [map remove_char]. intros [Hc Hn]%NoDup_cons.
    rewrite filter_cons. destruct (Z.eqb_spec (c_guid c) guid) as [E|E].
    - rewrite decide_False by tauto. symmetry. apply filter_keep.
      intros c' Hc' E'. apply Hc. rewrite E, <- E'. by apply list_elem_of_fmap_2.
    - rewrite decide_True by done. by rewrite (IH Hn). }
  assert (find (fun c => c_guid c =? guid) (own_chars w) = None
          <-> existsb (fun c => c_guid c =? guid) (own_chars w) = false) as Hfind.
  { clear Hrm. induction (own_chars w) as [|c l IH]; [done|]. cbn. destruct (c_guid c =? guid); done. }
  unfold on_char_delete, find_char, my_chars. m_run. fold (own_chars w). fold guid.
  destruct (existsb _ _) eqn:Ee.
  - destruct (find _ (own_chars w)) as [v|] eqn:Ef; [|by discriminate (proj1 Hfind eq_refl)].
    m_run. unfold save_chars_db. m_run. rewrite (run_send_r _ _ _ [CHAR_DELETE_SUCCESS]) by done.
    eexists. split; [reflexivity|].
    unfold own_chars in Hrm |- *. cbn [w_cur set_w_db w_out w_db w_account w_chars_file set_w_out set_w_chars_file].
    destruct (bool_decide _);
      cbn [w_cur set_w_db w_out w_db w_account w_chars_file set_w_out set_w_chars_file set_w_linked];
      (split; [done|]; split; [rewrite dget_dset_eq; exact Hrm|]; split; [|done];
       intros a Ha; by rewrite dget_dset, decide_False).
  - rewrite (proj2 Hfind eq_refl). m_run. by apply run_send_r.
Qed.
End CharSelect.

(** ** Concrete sessions *)

Section Witnesses.
#[local] Existing Instance sample_env.

Definition empty_tree : json := JDict [(lit "name", JStr (lit "none")); (lit "entries", JList [])].

(** Bob's session, with a stored build that grants nothing. *)
Definition bob_session : world :=
  set_w_builds [(lit "b1", empty_tree); (lit "b2", sample_build)]
    (new_session (lit "bob") DecNone sample_world).

(** A build activated while the client is still loading does not take away
    the spells it no longer grants.  The bulk list has already gone out, and
    dropping the record of it makes the flush compare against nothing: at the
    end the server knows no spell and the client still holds one. *)
Theorem deferred_activation_keeps_old_spells :
  let w := snd (serve
    [packet_event (at_second 2) CMSG_PLAYER_LOGIN (le 8 7);
     packet_event (at_second 3) CMSG_BUILD_ACTIVATE (lit "b1" ++ [0; 1; 1]);
     packet_event (at_second 4) CMSG_SET_ACTIVE_MOVER (le 8 7)] bob_session) in
  ca_known_spells CA_INDEX (w_known w) 7 = Ok []
  /\ client_spells (w_out w) = list_to_set [705781]
  /\ w_ca_ack w = None /\ w_ca_pending w = false.
Proof. cbv zeta. split_and!; [by vm_compute | by_decide | by vm_compute | by vm_compute]. Qed.

(** An activation that is owed its answer survives the logout: the next
    login, which activated nothing, is told ACTIVATE_BUILD_OK. *)
Theorem owed_ack_survives_logout :
  let logged := snd (serve
    [packet_event (at_second 2) CMSG_PLAYER_LOGIN (le 8 7);
     packet_event (at_second 3) CMSG_BUILD_ACTIVATE (lit "b1" ++ [0]);
     packet_event (at_second 4) CMSG_LOGOUT_REQUEST []] bob_session) in
  let again := snd (serve
    [packet_event (at_second 5) CMSG_PLAYER_LOGIN (le 8 7);
     packet_event (at_second 6) CMSG_SET_ACTIVE_MOVER (le 8 7)] logged) in
  let acks w := filter (fun p => fst p = SMSG_BUILD_ACTIVATE_RESULT) (w_out w) in
  acks logged = []
  /\ acks again = [(SMSG_BUILD_ACTIVATE_RESULT, smsg_build_activate_result py_repr (lit "ACTIVATE_BUILD_OK"))].
Proof. cbv zeta. split; by vm_compute. Qed.

(** Names made of spaces pass the name check and are all stored as the same
    name. *)
Theorem blank_names_collide :
  let create := lit "  " ++ [0; 1; 4; 0; 1; 2; 3; 4; 5; 0] in
  let w := snd (serve [packet_event (at_second 2) CMSG_CHAR_CREATE create;
                       packet_event (at_second 3) CMSG_CHAR_CREATE create] bob_session) in
  map c_name (own_chars w) = [lit "Ada"; lit "Archivist"; lit "Archivist"].
Proof. by vm_compute. Qed.

(** Bob plays Ada; the client and the record agree on her one spell. *)
Definition playing : world :=
  set_w_sent [(7, [705781])] (set_w_out [(SMSG_LEARNED_SPELL, le 4 705781 ++ le 2 0)]
    (set_w_cur (Some sample_char) (set_w_in_world true bob_session))).

Lemma playing_in_step : in_step playing 7.
Proof. split; [repeat constructor; cbn; lia | by_decide]. Qed.

Lemma playing_known : dict_ok (w_known playing).
Proof. unfold dict_ok. by_decide. Qed.

Lemma playing_rows : known_for (w_known playing) (c_guid sample_char) = Ok [CaRow 40 1].
Proof. by vm_compute. Qed.


Definition sample_upload : bytes :=
  le 4 2 ++ pack_ca_record (CaRecord 40 1 0 0 0 0) ++ pack_ca_record (CaRecord 40 2 0 0 0 0).

Lemma known_entries_upload_witness :
  exists w', on_known_entries_upload sample_upload playing = (Ok tt, w')
    /\ known_for (w_known w') 7 = Ok [CaRow 40 2].
Proof.
  destruct (known_entries_upload playing sample_upload
    [CaRecord 40 1 0 0 0 0; CaRecord 40 2 0 0 0 0] [CaRow 40 1] []) as [_ Hu]; [by vm_compute|].
  destruct (Hu sample_char) as (w' & b & mid & E & Hk & _);
    [reflexivity | exact playing_rows | by vm_compute | exact playing_known | by vm_compute
    | exact sample_bars_ok | exact playing_in_step|].
  exists w'. exact (conj E Hk).
Defined.

Lemma flush_ca_order_witness :
  exists w' b mid pkts, flush_ca playing = (Ok tt, w')
    /\ w_out w' = (((w_out playing ++ (SMSG_CA_ACTIVE_SPEC, le 4 0 ++ le 4 1) :: pkts)
                    ++ (SMSG_CA_KNOWN_ENTRIES, b) :: mid) ++ []) ++ [].
Proof.
  destruct (essence_packets (w_override playing) ESSENCE_ROWS) as [pkts|] eqn:E;
    [|vm_compute in E; discriminate E].
  destruct (flush_ca_order playing sample_char [CaRow 40 1] pkts) as (w' & b & mid & Ef & Ho & _);
    [reflexivity | reflexivity | exact E | exact playing_rows | reflexivity | exact sample_bars_ok
    | exact playing_in_step|].
  exists w', b, mid, pkts. exact (conj Ef Ho).
Defined.

Lemma cast_spell_gate_witness :
  let body := [3] ++ le 4 4242 ++ [0] ++ le 4 0 in
  on_cast_spell body playing
  = (Ok tt, set_w_out (w_out playing ++ [(SMSG_CAST_FAILED, [3] ++ le 4 4242 ++ [63])]) playing).
Proof.
  cbv zeta.
  destruct (cast_spell_gate playing sample_char ([3] ++ le 4 4242 ++ [0] ++ le 4 0) 3 4242 0 (le 4 0)
    [KnownSpell 40 1 705781 (lit "Spell") false]) as [Hn _];
    [| by vm_compute | reflexivity | reflexivity | by vm_compute |].
  - vm_compute. repeat constructor; discriminate.
  - apply Hn. by_decide.
Defined.

Lemma account_data_roundtrip_witness :
  exists w1, on_update_account_data (le 4 2 ++ le 4 99 ++ le 4 6 ++ lit "bind W") playing = (Ok tt, w1)
    /\ w_out w1 = w_out playing ++ [(SMSG_UPDATE_ACCOUNT_DATA_COMPLETE, le 4 2 ++ le 4 0)].
Proof.
  destruct (account_data_roundtrip playing 2 99 (lit "bind W") (lit "bind W") (lit "bind W"))
    as (w1 & E & Ho & _).
  - unfold is_char. repeat constructor; cbn; lia.
  - by_decide.
  - reflexivity.
  - discriminate.
  - reflexivity.
  - unfold NUM_ACCOUNT_DATA_TYPES. lia.
  - lia.
  - reflexivity.
  - vm_compute. split; [discriminate | reflexivity].
  - exists w1. exact (conj E Ho).
Defined.

Definition encrypted : world :=
  set_w_dec (DecRc4 (rc4_init [1; 2; 3])) (set_w_crypt_in true playing).

Lemma upload_clobbers_decryptor_witness :
  fst (read_header (replicate 6 0)
         (snd (on_update_account_data (le 4 2 ++ le 4 99 ++ le 4 6 ++ lit "bind W") encrypted)))
  = Err AttributeError.
Proof.
  apply (upload_clobbers_decryptor encrypted (rc4_init [1; 2; 3]) (lit "bind W"));
    [reflexivity | reflexivity | reflexivity | unfold NUM_ACCOUNT_DATA_TYPES; lia | lia | lia].
Defined.

Lemma char_delete_handler_witness :
  exists w', on_char_delete (le 8 7) playing = (Ok tt, w') /\ own_chars w' = [].
Proof.
  assert (chars_ok (w_db playing)) as Hok by (split; [by_decide | repeat constructor; cbn; lia]).
  pose proof (char_delete_handler playing (le 8 7) Hok) as Hd. cbv zeta in Hd.
  destruct Hd as (w' & E & _ & Hc & _). exists w'. split; [exact E|]. rewrite Hc. reflexivity.
Defined.
End Witnesses.
