(* ===== verification/Lua.v ===== *)
(** * SavedVariables values (cache-consolidator/tools/luaser.py)

    The tree a SavedVariables file holds: scalars, the placeholder a submitter
    left in a redacted file, and [Table] with its array part and its keyed
    part.  A key can be any value the parser returns, so the keyed part is a
    dictionary under Python's equality of keys, where [1], [1.0] and [True]
    are one key and two tables never are.  [repr] of a float is here too, and
    the serialiser with its sorted globals and keys, and the plain-Python view
    of a tree that the database tools read. *)
From S2P Require Import Prelude PyFloat Text Format.
From Stdlib Require Import SpecFloat.

#[warnings="-register-all"]
Inductive lua : Type :=
  | VNone
  | VBool (b : bool)
  | VInt (n : Z)
  | VFloat (x : f64)
  | VStr (s : pystr)
  | VRedacted (s : pystr)
  | VTable (array : list lua) (hash : list (lua * lua)).

Abbreviation lua_hash := (list (lua * lua)) (only parsing).

(** Induction through both parts of a table; the keys are values as well. *)
Section LuaInd.
Context (P : lua -> Prop) (Hnone : P VNone) (Hbool : forall b, P (VBool b))
  (Hint : forall n, P (VInt n)) (Hfloat : forall x, P (VFloat x)) (Hstr : forall s, P (VStr s))
  (Hred : forall s, P (VRedacted s))
  (Htable : forall a h, Forall P a -> Forall (fun kv => P (fst kv) /\ P (snd kv)) h -> P (VTable a h)).

Fixpoint lua_tree_ind (v : lua) : P v :=
  match v with
  | VNone => Hnone
  | VBool b => Hbool b
  | VInt n => Hint n
  | VFloat x => Hfloat x
  | VStr s => Hstr s
  | VRedacted s => Hred s
  | VTable a h =>
      Htable a h
        ((fix go l : Forall P l :=
            match l with
            | [] => Forall_nil_2 _
            | x :: l => Forall_cons_2 _ _ _ (lua_tree_ind x) (go l)
            end) a)
        ((fix go l : Forall (fun kv => P (fst kv) /\ P (snd kv)) l :=
            match l with
            | [] => Forall_nil_2 _
            | kv :: l => Forall_cons_2 _ _ _ (conj (lua_tree_ind (fst kv)) (lua_tree_ind (snd kv))) (go l)
            end) h)
  end.
End LuaInd.

(** ** Numbers as keys *)

(** A number as Python compares it: exactly, whatever its type. *)
Inductive num := NegInf | Fin (m e : Z) | PosInf | NotNum.

Definition num_of (v : lua) : num :=
  match v with
  | VBool b => Fin (if b then 1 else 0) 0
  | VInt n => Fin n 0
  | VFloat (S754_zero _) => Fin 0 0
  | VFloat (S754_finite s m e) => Fin (f64_signed s m) e
  | VFloat (S754_infinity s) => if s then NegInf else PosInf
  | _ => NotNum
  end.

(** [m1 * 2^e1] against [m2 * 2^e2]. *)
Definition fin_compare (m1 e1 m2 e2 : Z) : comparison :=
  let e := Z.min e1 e2 in (m1 * 2 ^ (e1 - e) ?= m2 * 2 ^ (e2 - e)).

Definition num_ltb (a b : num) : bool :=
  match a, b with
  | Fin m1 e1, Fin m2 e2 => match fin_compare m1 e1 m2 e2 with Lt => true | _ => false end
  | NegInf, (Fin _ _ | PosInf) => true
  | Fin _ _, PosInf => true
  | _, _ => false
  end.

Definition num_eqb (a b : num) : bool :=
  match a, b with
  | Fin m1 e1, Fin m2 e2 => match fin_compare m1 e1 m2 e2 with Eq => true | _ => false end
  | NegInf, NegInf | PosInf, PosInf => true
  | _, _ => false
  end.

(** [k1 == k2] for dictionary keys: a redacted placeholder is a string, and a
    table is only equal to itself, which a parsed file never has twice. *)
Definition key_eqb (a b : lua) : bool :=
  match a, b with
  | VNone, VNone => true
  | (VStr s | VRedacted s), (VStr t | VRedacted t) => bool_decide (s = t)
  | (VBool _ | VInt _ | VFloat _), (VBool _ | VInt _ | VFloat _) => num_eqb (num_of a) (num_of b)
  | _, _ => false
  end.

(** [hash.get(k)] and [hash[k] = v]: the key first stored stays. *)
Fixpoint hget (k : lua) (h : lua_hash) : option lua :=
  match h with
  | [] => None
  | (k', v) :: h => if key_eqb k' k then Some v else hget k h
  end.

Fixpoint hset (k v : lua) (h : lua_hash) : lua_hash :=
  match h with
  | [] => [(k, v)]
  | (k', v') :: h => if key_eqb k' k then (k', v) :: h else (k', v') :: hset k v h
  end.

(** ** [repr] of a float *)

(** Whether the decimal [d * 10^q] reads back as [x]. *)
Definition reads_back (x : f64) (d q : Z) : bool := bool_decide (f64_dec d q = x).

(** The [n]-digit decimal that reads back as the positive [num / den] and is
    the nearest one, the even one between two: its digits and its exponent. *)
Definition digits_at (x : f64) (num den k n : Z) : option (Z * Z) :=
  let q := k - n in
  let '(a, b) := if 0 <=? q then (num, den * 10 ^ q) else (num * 10 ^ (- q), den) in
  let d := a / b in
  let r := 2 * (a mod b) in
  let up := if r =? b then Z.odd d else b <? r in
  match reads_back x d q, reads_back x (d + 1) q with
  | true, true => Some (if up then d + 1 else d, q)
  | true, false => Some (d, q)
  | false, true => Some (d + 1, q)
  | false, false => None
  end.

Fixpoint shortest_go (fuel : nat) (x : f64) (num den k n : Z) : Z * Z :=
  match fuel with
  | O => (0, 0)
  | S fuel => match digits_at x num den k n with
              | Some dq => dq
              | None => shortest_go fuel x num den k (n + 1)
              end
  end.

(** The shortest decimal of a positive finite float: seventeen digits always
    are enough, and no float is below 10^-400. *)
Definition shortest (m : positive) (e : Z) : Z * Z :=
  let '(num, den) := if 0 <=? e then (Zpos m * 2 ^ e, 1) else (Zpos m, 2 ^ (- e)) in
  let k := pylen (str_of_Z (num * 10 ^ 400 / den)) - 400 in
  shortest_go 17 (S754_finite false m e) num den k 1.

Definition zeros_text (n : Z) : pystr := replicate (Z.to_nat n) 48.

(** A decimal of digits [ds] with the point after the first [point] of them:
    with an exponent from 1e16 on and below 1e-4. *)
Definition float_text (ds : pystr) (point : Z) : pystr :=
  let n := pylen ds in
  if (-4 <? point) && (point <=? 16) then
    if point <=? 0 then lit "0." ++ zeros_text (- point) ++ ds
    else if n <=? point then ds ++ zeros_text (point - n) ++ lit ".0"
    else take (Z.to_nat point) ds ++ [46] ++ drop (Z.to_nat point) ds
  else
    let x := point - 1 in
    let xs := str_of_Z (Z.abs x) in
    take 1 ds ++ (if n =? 1 then [] else 46 :: drop 1 ds)
      ++ [101; if x <? 0 then 45 else 43] ++ (if pylen xs <? 2 then 48 :: xs else xs).

(** Digits without their trailing zeros (one digit stays). *)
Fixpoint trim_zeros (fuel : nat) (d q : Z) : Z * Z :=
  match fuel with
  | O => (d, q)
  | S fuel => if (d mod 10 =? 0) && (10 <=? d) then trim_zeros fuel (d / 10) (q + 1) else (d, q)
  end.

Definition float_repr (x : f64) : pystr :=
  match x with
  | S754_zero s => if s then lit "-0.0" else lit "0.0"
  | S754_infinity s => if s then lit "-inf" else lit "inf"
  | S754_nan => lit "nan"
  | S754_finite s m e =>
      let '(d, q) := shortest m e in
      let '(d, q) := trim_zeros 20 d q in
      let ds := str_of_Z d in
      (if s then [45] else []) ++ float_text ds (pylen ds + q)
  end.

Example repr_ex :
  map float_repr [f64_dec 1 (-1); f64_dec 15 0; f64_dec 1 16; f64_dec 1 (-5); f64_dec (-25) (-2);
                  f64_dec 314159 (-5); f64_dec 123456789012345678 0; f64_dec 5 (-324);
                  f64_pos 1 0; f64_dec 17976931348623157 292; S754_finite false (2 ^ 52) (-96)]
  = [lit "0.1"; lit "15.0"; lit "1e+16"; lit "1e-05"; lit "-0.25"; lit "3.14159";
     lit "1.2345678901234568e+17"; lit "5e-324"; lit "1.0"; lit "1.7976931348623157e+308";
     lit "5.684341886080802e-14"].
Proof. vm_compute. reflexivity. Qed.

(** ** The order of the keys *)

(** [str(k)] of a key that is not a number. *)
Definition key_str (k : lua) : pystr :=
  match k with
  | VNone => lit "None"
  | VBool b => if b then lit "True" else lit "False"
  | VInt n => str_of_Z n
  | VFloat x => float_repr x
  | VStr s | VRedacted s => s
  | VTable a h => cat [lit "<Table array="; str_of_Z (pylen a); lit " hash="; str_of_Z (pylen h); lit ">"]
  end.

Definition is_number_key (k : lua) : bool := match k with VInt _ | VFloat _ => true | _ => false end.

(** [_key_order(a) <= _key_order(b)], as [not (b < a)]. *)
Definition lua_key_leb (a b : lua) : bool :=
  match is_number_key a, is_number_key b with
  | true, true => negb (num_ltb (num_of b) (num_of a))
  | true, false => true
  | false, true => false
  | false, false => str_leb (key_str a) (key_str b)
  end.

Definition entry_leb {A} (a b : lua * A) : bool := lua_key_leb (fst a) (fst b).

(** ** Writing *)

(** One character of a quoted string. *)
Definition quote_char (c : Z) : pystr :=
  if c =? 34 then [92; 34]
  else if c =? 92 then [92; 92]
  else if c =? 10 then [92; 110]
  else if c =? 13 then [92; 114]
  else if c <? 32 then 92 :: [48; 48 + c / 10; 48 + c mod 10]
  else [c].

(** The text between the quotes [_q] writes. *)
Definition quote_body (s : pystr) : pystr := flat_map quote_char s.
Definition _q (s : pystr) : pystr := [34] ++ quote_body s ++ [34].

(** [_num]: of anything that is not a number it is [repr]. *)
Definition _num (v : lua) : pystr :=
  match v with
  | VBool b => if b then lit "true" else lit "false"
  | _ => key_str v
  end.

Definition tabs (n : nat) : pystr := replicate n 9.

(** A key between its brackets. *)
Definition key_text (k : lua) : pystr :=
  match k with VStr s | VRedacted s => _q s | _ => _num k end.

(** The array part: [i] counts from 1. *)
Fixpoint array_lines (inner : pystr) (i : Z) (items : list pystr) : pystr :=
  match items with
  | [] => []
  | x :: items => inner ++ x ++ lit ", -- [" ++ str_of_Z i ++ [93; 10] ++ array_lines inner (i + 1) items
  end.

Definition hash_line (inner : pystr) (kx : lua * pystr) : pystr :=
  inner ++ [91] ++ key_text (fst kx) ++ lit "] = " ++ snd kx ++ [44; 10].

Fixpoint _write (v : lua) (depth : nat) : pystr :=
  match v with
  | VTable [] [] => [123; 10] ++ tabs depth ++ [125]
  | VTable array hash =>
      let inner := tabs (S depth) in
      [123; 10]
        ++ array_lines inner 1 (map (fun x => _write x (S depth)) array)
        ++ flat_map (hash_line inner)
             (py_sort entry_leb (map (fun kv => (fst kv, _write (snd kv) (S depth))) hash))
        ++ tabs depth ++ [125]
  | VRedacted s => [123] ++ s ++ [125]
  | VStr s => _q s
  | VNone => lit "nil"
  | _ => _num v
  end.

(** [sorted(globals_dict)]: the names are strings. *)
Definition name_leb {A} (a b : pystr * A) : bool := str_leb (fst a) (fst b).

Definition dumps (globals : list (pystr * lua)) : pystr :=
  flat_map (fun gv => fst gv ++ lit " = " ++ _write (snd gv) 0 ++ [10]) (py_sort name_leb globals).

(** [table_from]. *)
Definition table_from (mapping : lua_hash) (array : list lua) : lua :=
  VTable array (fold_left (fun h kv => hset (fst kv) (snd kv) h) mapping []).

(** ** The plain view *)

#[warnings="-register-all"]
Inductive py :=
  | PScalar (v : lua)
  | PList (l : list py)
  | PDict (d : list (lua * py)).

(** [out.setdefault(i, x)] for the array items, under Python's key equality. *)
Fixpoint fold_items (i : Z) (items : list py) (d : list (lua * py)) : list (lua * py) :=
  match items with
  | [] => d
  | x :: items =>
      fold_items (i + 1) items
        (if existsb (fun kv => key_eqb (fst kv) (VInt i)) d then d else d ++ [(VInt i, x)])
  end.

Fixpoint to_py (v : lua) : py :=
  match v with
  | VTable array hash =>
      match array, hash with
      | _ :: _, [] => PList (map to_py array)
      | _, _ => PDict (fold_items 1 (map to_py array) (map (fun kv => (fst kv, to_py (snd kv))) hash))
      end
  | _ => PScalar v
  end.

(** [walk]: the leaves with their paths, keys in order. *)
Fixpoint walk (v : lua) : list (list lua * lua) :=
  match v with
  | VTable array hash =>
      concat (imap (fun i sub => map (fun pv => (VInt (Z.of_nat i + 1) :: fst pv, snd pv)) sub)
                (map walk array))
      ++ flat_map (fun ks => map (fun pv => (fst ks :: fst pv, snd pv)) (snd ks))
           (py_sort entry_leb (map (fun kv => (fst kv, walk (snd kv))) hash))
  | _ => [([], v)]
  end.

Example write_ex :
  dumps [(lit "B", VTable [VInt 1; VStr [97; 34]] []);
         (lit "A", VTable [] [(VStr (lit "k"), VBool true); (VInt 10, VNone); (VFloat (f64_dec 5 (-1)), VTable [] [])])]
  = lit "A = {" ++ [10; 9] ++ lit "[0.5] = {" ++ [10; 9] ++ lit "}," ++ [10; 9] ++ lit "[10] = nil,"
    ++ [10; 9; 91; 34] ++ lit "k" ++ [34] ++ lit "] = true," ++ [10] ++ lit "}" ++ [10]
    ++ lit "B = {" ++ [10; 9] ++ lit "1, -- [1]" ++ [10; 9; 34; 97; 92; 34; 34] ++ lit ", -- [2]" ++ [10] ++ lit "}" ++ [10].
Proof. vm_compute. reflexivity. Qed.
