(* ===== verification/LuaParse.v ===== *)
(** * Reading SavedVariables (cache-consolidator/tools/luaser.py)

    The tokeniser, one alternative of the [_TOKEN] pattern at a time, the
    string escapes, and the parser with its one token of lookahead.  The
    tokens come from a generator, so a character nothing matches raises when
    the lookahead reaches it: [TBad] stands for that point of the stream. *)
From S2P Require Import Prelude Wire PyFloat Text Format Lua.

(** ** Characters *)

Definition is_hex (c : Z) : bool := in_range 48 57 c || in_range 65 70 c || in_range 97 102 c.
Definition hex_val (c : Z) : Z := if c <? 58 then c - 48 else if c <? 71 then c - 55 else c - 87.
Definition name_start (c : Z) : bool := in_range 65 90 c || in_range 97 122 c || (c =? 95).
Definition name_char (c : Z) : bool := name_start c || is_digit c.
(** The characters of the [punct] alternative. *)
Definition is_punct (c : Z) : bool :=
  (c =? 91) || (c =? 93) || (c =? 123) || (c =? 125) || (c =? 61) || (c =? 44) || (c =? 59).

(** The longest prefix whose characters satisfy [p], and the rest. *)
Fixpoint span (p : Z -> bool) (s : pystr) : pystr * pystr :=
  match s with
  | c :: t => if p c then let '(a, b) := span p t in (c :: a, b) else ([], s)
  | [] => ([], [])
  end.

(** What follows the first "]]". *)
Fixpoint after_close (s : pystr) : option pystr :=
  match s with
  | c :: t => match t with
              | c2 :: u => if (c =? 93) && (c2 =? 93) then Some u else after_close t
              | [] => None
              end
  | [] => None
  end.

(** The body of a literal up to the quote [q], with its escapes as written. *)
Fixpoint str_body (q : Z) (s : pystr) : option (pystr * pystr) :=
  match s with
  | [] => None
  | c :: t =>
      if c =? q then Some ([], t)
      else if c =? 92 then
        match t with
        | d :: u => match str_body q u with Some (b, r) => Some (c :: d :: b, r) | None => None end
        | [] => None
        end
      else match str_body q t with Some (b, r) => Some (c :: b, r) | None => None end
  end.

(** ** Tokens *)

Inductive token := TEof | TStr (raw : pystr) | TNum (text : pystr) | TName (text : pystr) | TPunct (c : Z) | TBad.

Section Parse.
Context `{Unicode}.

(** [\d] of a text pattern: a decimal digit of any script. *)
Definition is_decimal (c : Z) : bool := match uni_decimal c with Some _ => true | None => false end.

(** [(?:\d+\.?\d*|\.\d+)]. *)
Definition lex_mantissa (s : pystr) : option (pystr * pystr) :=
  let '(ds, r) := span is_decimal s in
  match r with
  | c :: t =>
      if c =? 46 then
        let '(fs, r') := span is_decimal t in
        match ds, fs with [], [] => None | _, _ => Some (ds ++ c :: fs, r') end
      else match ds with [] => None | _ => Some (ds, r) end
  | [] => match ds with [] => None | _ => Some (ds, r) end
  end.

(** [(?:[eE][+-]?\d+)?]. *)
Definition lex_exponent (s : pystr) : pystr * pystr :=
  match s with
  | c :: t =>
      if (c =? 101) || (c =? 69) then
        let '(sg, u) := match t with
                        | d :: u => if (d =? 43) || (d =? 45) then ([d], u) else ([], t)
                        | [] => ([], t)
                        end in
        let '(ds, r) := span is_decimal u in
        match ds with [] => ([], s) | _ => (c :: sg ++ ds, r) end
      else ([], s)
  | [] => ([], s)
  end.

(** The unsigned part of [num]: hexadecimal if it can be. *)
Definition lex_magnitude (s : pystr) : option (pystr * pystr) :=
  let decimal := match lex_mantissa s with
                 | Some (m, r) => let '(x, r) := lex_exponent r in Some (m ++ x, r)
                 | None => None
                 end in
  match s with
  | z :: c :: t =>
      if (z =? 48) && ((c =? 120) || (c =? 88)) then
        let '(hs, r) := span is_hex t in
        match hs with [] => decimal | _ => Some (z :: c :: hs, r) end
      else decimal
  | _ => decimal
  end.

Definition lex_num (s : pystr) : option (pystr * pystr) :=
  match s with
  | c :: t => if c =? 45
              then match lex_magnitude t with Some (m, r) => Some (c :: m, r) | None => None end
              else lex_magnitude s
  | [] => None
  end.

(** The comment that starts after "--". *)
Definition skip_comment (s : pystr) : pystr :=
  let line := snd (span (fun c => negb (c =? 10)) s) in
  match s with
  | c :: d :: t => if (c =? 91) && (d =? 91) then default line (after_close t) else line
  | _ => line
  end.

(** [_TOKEN.match] on a non-empty text: what it matched, white space and
    comments as [None], and the rest. *)
Definition lex_one (s : pystr) : option (option token * pystr) :=
  match s with
  | [] => None
  | c :: t =>
      if is_space c then Some (None, snd (span is_space t))
      else if (c =? 45) && match t with d :: _ => d =? 45 | [] => false end
      then Some (None, skip_comment (drop 1 t))
      else if (c =? 34) || (c =? 39)
      then match str_body c t with Some (b, r) => Some (Some (TStr b), r) | None => None end
      else match lex_num s with
      | Some (x, r) => Some (Some (TNum x), r)
      | None =>
          if name_start c then let '(n, r) := span name_char s in Some (Some (TName n), r)
          else if is_punct c then Some (Some (TPunct c), t)
          else None
      end
  end.

Fixpoint tokens_go (fuel : nat) (s : pystr) : list token :=
  match s with
  | [] => [TEof]
  | _ => match fuel with
         | O => [TBad]
         | S fuel => match lex_one s with
                     | None => [TBad]
                     | Some (None, r) => tokens_go fuel r
                     | Some (Some t, r) => t :: tokens_go fuel r
                     end
         end
  end.

(** [_tokens]: every match consumes at least one character. *)
Definition _tokens (src : pystr) : list token := tokens_go (length src) src.

(** ** Escapes *)

(** [bytes.decode("utf-8")]. *)
Fixpoint utf8_decode_strict_go (fuel : nat) (l : bytes) : res pystr :=
  match l, fuel with
  | [], _ => Ok []
  | _, O => Err OutOfFuel
  | b :: l, S fuel =>
      match utf8_next b l with
      | (Some c, r) => s ← utf8_decode_strict_go fuel r; Ok (c :: s)
      | (None, _) => Err DecodeError
      end
  end.
Definition utf8_decode_strict (l : bytes) : res pystr := utf8_decode_strict_go (length l) l.

(** [_ESCAPES.get(e, e)]. *)
Definition escape_char (e : Z) : Z :=
  default e (dget e [(97, 7); (98, 8); (102, 12); (110, 10); (114, 13); (116, 9); (118, 11)]).

(** Up to three digit characters at the front. *)
Definition escape_digits (s : pystr) : pystr := fst (span uni_isdigit (take 3 s)).

(** The loop of [_unescape]: the bytes it collects. *)
Fixpoint unescape_go (fuel : nat) (s : pystr) : res bytes :=
  match s, fuel with
  | [], _ => Ok []
  | _, O => Err OutOfFuel
  | c :: t, S fuel =>
      if negb (c =? 92) then
        b ← utf8_encode [c]; out ← unescape_go fuel t; Ok (b ++ out)
      else
        match t with
        | [] => Ok []
        | e :: u =>
            if uni_isdigit e then
              let ds := escape_digits t in
              v ← int_of_str ds;
              if v >? 255 then Err LuaError
              else out ← unescape_go fuel (drop (length ds) t); Ok (v :: out)
            else if e =? 120 then
              match u with
              | h1 :: h2 :: u =>
                  if is_hex h1 && is_hex h2 then
                    out ← unescape_go fuel u; Ok (hex_val h1 * 16 + hex_val h2 :: out)
                  else Err LuaError
              | _ => Err LuaError
              end
            else
              b ← utf8_encode [escape_char e]; out ← unescape_go fuel u; Ok (b ++ out)
        end
  end.

(** [_unescape]: bytes that are not UTF-8 make it raise. *)
Definition _unescape (raw : pystr) : res pystr :=
  out ← unescape_go (length raw) raw;
  match utf8_decode_strict out with
  | Ok s => Ok s
  | Err _ => Err LuaError
  end.

(** ** The parser *)

(** The stream from the current token on. *)
Abbreviation stream := (list token) (only parsing).

Definition cur (ts : stream) : token := match ts with t :: _ => t | [] => TEof end.
Definition ahead (ts : stream) : token := match ts with _ :: t :: _ => t | _ => TEof end.

(** [_next]: the lookahead moves on as well. *)
Definition _next (ts : stream) : res (token * stream) :=
  match ts with
  | _ :: _ :: TBad :: _ => Err LuaError
  | t :: ts => Ok (t, ts)
  | [] => Ok (TEof, [])
  end.

Definition is_punct_tok (c : Z) (t : token) : bool :=
  match t with TPunct d => c =? d | _ => false end.

(** [_expect("punct", c)] and [_expect("name")]. *)
Definition expect_punct (c : Z) (ts : stream) : res stream :=
  '(t, ts) ← _next ts; if is_punct_tok c t then Ok ts else Err LuaError.
Definition expect_name (ts : stream) : res (pystr * stream) :=
  '(t, ts) ← _next ts; match t with TName n => Ok (n, ts) | _ => Err LuaError end.

Definition is_hex_text (text : pystr) : bool :=
  let t := match text with c :: t => if c =? 45 then t else text | [] => text end in
  match t with
  | z :: c :: _ => (z =? 48) && ((c =? 120) || (c =? 88))
  | _ => false
  end.

(** [int(text, 16)] of a text the pattern admits. *)
Definition int_hex (text : pystr) : Z :=
  let '(neg, t) := sign_of text in
  let v := fold_left (fun v c => v * 16 + hex_val c) (drop 2 t) 0 in
  if (neg : bool) then - v else v.

Definition is_float_text (text : pystr) : bool :=
  existsb (fun c => (c =? 46) || (c =? 101) || (c =? 69)) text.

Definition num_value (text : pystr) : res lua :=
  if is_hex_text text then Ok (VInt (int_hex text))
  else if is_float_text text then x ← float_of_str text; Ok (VFloat x)
  else n ← int_of_str text; Ok (VInt n).

Definition name_value (text : pystr) : res lua :=
  if bool_decide (text = lit "true") then Ok (VBool true)
  else if bool_decide (text = lit "false") then Ok (VBool false)
  else if bool_decide (text = lit "nil") then Ok VNone
  else if bool_decide (uni_lower text ∈ [lit "redacted"; lit "scrubbed"; lit "removed"])
  then Ok (VRedacted (uni_lower text))
  else Err LuaError.

Definition scalar_value (t : token) : res lua :=
  match t with
  | TStr raw => s ← _unescape raw; Ok (VStr s)
  | TNum text => num_value text
  | TName text => name_value text
  | _ => Err LuaError
  end.

(** [_peek_is_assign]. *)
Definition _peek_is_assign (ts : stream) : bool := is_punct_tok 61 (ahead ts).

(** The optional separator after an entry. *)
Definition skip_sep (ts : stream) : res stream :=
  if is_punct_tok 44 (cur ts) || is_punct_tok 59 (cur ts)
  then '(_, ts) ← _next ts; Ok ts else Ok ts.

(** [value] and [table]; every call consumes a token of the stream. *)
Fixpoint value (fuel : nat) (ts : stream) : res (lua * stream) :=
  match fuel with
  | O => Err OutOfFuel
  | S fuel =>
      if is_punct_tok 123 (cur ts) then ts ← expect_punct 123 ts; table fuel [] [] ts
      else '(t, ts) ← _next ts; v ← scalar_value t; Ok (v, ts)
  end
with table (fuel : nat) (array : list lua) (hash : lua_hash) (ts : stream) : res (lua * stream) :=
  match fuel with
  | O => Err OutOfFuel
  | S fuel =>
      if is_punct_tok 125 (cur ts) then '(_, ts) ← _next ts; Ok (VTable array hash, ts)
      else if is_punct_tok 91 (cur ts) then
        '(_, ts) ← _next ts;
        '(k, ts) ← value fuel ts;
        ts ← expect_punct 93 ts;
        ts ← expect_punct 61 ts;
        '(v, ts) ← value fuel ts;
        ts ← skip_sep ts;
        table fuel array (hset k v hash) ts
      else
        match cur ts, _peek_is_assign ts with
        | TName k, true =>
            '(_, ts) ← _next ts;
            ts ← expect_punct 61 ts;
            '(v, ts) ← value fuel ts;
            ts ← skip_sep ts;
            table fuel array (hset (VStr k) v hash) ts
        | _, _ =>
            '(v, ts) ← value fuel ts;
            ts ← skip_sep ts;
            table fuel (array ++ [v]) hash ts
        end
  end.

Fixpoint loads_go (fuel : nat) (out : list (pystr * lua)) (ts : stream) : res (list (pystr * lua)) :=
  match cur ts with
  | TEof => Ok out
  | _ =>
      match fuel with
      | O => Err OutOfFuel
      | S fuel =>
          if is_punct_tok 59 (cur ts) then '(_, ts) ← _next ts; loads_go fuel out ts
          else
            '(name, ts) ← expect_name ts;
            ts ← expect_punct 61 ts;
            '(v, ts) ← value (S (2 * length ts)) ts;
            loads_go fuel (dset name v out) ts
      end
  end.

(** [loads]: the constructor of the parser primes two tokens. *)
Definition loads (src : pystr) : res (list (pystr * lua)) :=
  let ts := _tokens src in
  match ts with
  | TBad :: _ | _ :: TBad :: _ => Err LuaError
  | _ => loads_go (length ts) [] ts
  end.
End Parse.
