(* ===== verification/LuaLex.v ===== *)
(** * The tokens of what the serialiser writes (cache-consolidator/tools/luaser.py)

    How the tokeniser reads each piece of a written file: white space, the
    index comments, quoted strings, numbers, names and punctuation.  The
    tokeniser itself never runs out of rounds, whatever the text. *)
From S2P Require Import Prelude Wire PyFloat Text Format Lua LuaParse.

(** ** Progress *)

Lemma span_shorter p s : (length (snd (span p s)) <= length s)%nat.
Proof.
  induction s as [|c s IH]; [done|]. cbn. destruct (p c); [|done].
  destruct (span p s). cbn in *. lia.
Qed.

Lemma span_app p s : fst (span p s) ++ snd (span p s) = s.
Proof.
  induction s as [|c s IH]; [done|]. cbn. destruct (p c); [|done].
  destruct (span p s). cbn in *. by rewrite IH.
Qed.

Lemma span_all p s c r :
  Forall (fun d => p d = true) s -> p c = false -> span p (s ++ c :: r) = (s, c :: r).
Proof. induction 1 as [|d s Hd _ IH]; intros Hc; cbn; [by rewrite Hc|]. by rewrite Hd, IH. Qed.

Lemma after_close_shorter s r : after_close s = Some r -> (length r < length s)%nat.
Proof.
  induction s as [|c [|d u] IH]; cbn; [done..|].
  destruct ((c =? 93) && (d =? 93)); [intros [= ->]; lia|]. intros Hr%IH. cbn in *. lia.
Qed.

Lemma skip_comment_shorter s : (length (skip_comment s) <= length s)%nat.
Proof.
  unfold skip_comment. pose proof (span_shorter (fun c => negb (c =? 10)) s) as Hl.
  destruct s as [|c [|d t]]; [exact Hl..|].
  destruct ((c =? 91) && (d =? 91)); [|exact Hl].
  destruct (after_close t) eqn:E; cbn [default from_option]; [|exact Hl].
  apply after_close_shorter in E. cbn. lia.
Qed.

Section Lex.
Context `{Unicode}.

Lemma str_body_shorter q s b r : str_body q s = Some (b, r) -> (length r < length s)%nat.
Proof.
  assert (forall n s b r, (length s <= n)%nat -> str_body q s = Some (b, r) -> (length r < length s)%nat) as Hg.
  { clear. induction n as [|n IH]; intros [|c t] b r Hn; cbn in *; try (done || lia).
    destruct (c =? q); [intros [= <- <-]; lia|].
    destruct (c =? 92).
    - destruct t as [|d u]; [done|]. destruct (str_body q u) as [[b' r']|] eqn:E; [|done].
      intros [= <- <-]. apply IH in E; cbn in *; lia.
    - destruct (str_body q t) as [[b' r']|] eqn:E; [|done].
      intros [= <- <-]. apply IH in E; cbn in *; lia. }
  by apply (Hg (length s)).
Qed.

Lemma mantissa_shorter s m r : lex_mantissa s = Some (m, r) -> (length r < length s)%nat.
Proof.
  unfold lex_mantissa. pose proof (span_shorter is_decimal s) as Hs. pose proof (span_app is_decimal s) as Ha.
  destruct (span is_decimal s) as [ds r1]. cbn in Hs, Ha.
  assert (ds <> [] -> length r1 < length s)%nat as Hd.
  { intros Hne. rewrite <- Ha, length_app. destruct ds; [done|]. cbn. lia. }
  destruct r1 as [|c t]; [destruct ds; [done|]; intros [= <- <-]; by apply Hd|].
  destruct (c =? 46); [|destruct ds; [done|]; intros [= <- <-]; by apply Hd].
  pose proof (span_shorter is_decimal t) as Ht. destruct (span is_decimal t) as [fs r2]. cbn in *.
  destruct ds, fs; intros [= <- <-] || done; lia.
Qed.

Lemma exponent_shorter s : (length (snd (lex_exponent s)) <= length s)%nat.
Proof.
  unfold lex_exponent. destruct s as [|c t]; [done|]. destruct ((c =? 101) || (c =? 69)); [|done].
  assert (forall u, length u <= length t -> length (snd (let '(ds, r) := span is_decimal u in
    match ds with [] => ([], c :: t) | _ => (c :: [] ++ ds, r) end)) <= S (length t))%nat as Hu.
  { intros u Hu. pose proof (span_shorter is_decimal u). destruct (span is_decimal u) as [[] r]; cbn in *; lia. }
  destruct t as [|d u]; [apply (Hu []); cbn; lia|].
  destruct ((d =? 43) || (d =? 45)); [|apply (Hu (d :: u)); done].
  pose proof (span_shorter is_decimal u). destruct (span is_decimal u) as [[] r]; cbn in *; lia.
Qed.

Lemma magnitude_shorter s m r : lex_magnitude s = Some (m, r) -> (length r < length s)%nat.
Proof.
  unfold lex_magnitude. set (decimal := match lex_mantissa s with Some _ => _ | None => None end).
  assert (decimal = Some (m, r) -> length r < length s)%nat as Hd.
  { unfold decimal. destruct (lex_mantissa s) as [[m1 r1]|] eqn:E; [|done].
    apply mantissa_shorter in E. pose proof (exponent_shorter r1).
    destruct (lex_exponent r1). cbn in *. intros [= <- <-]. lia. }
  destruct s as [|z [|c t]]; [exact Hd..|].
  destruct ((z =? 48) && ((c =? 120) || (c =? 88))); [|exact Hd].
  pose proof (span_shorter is_hex t). destruct (span is_hex t) as [[] r1]; [exact Hd|].
  cbn in *. intros [= <- <-]. lia.
Qed.

Lemma lex_one_shorter s o r : lex_one s = Some (o, r) -> (length r < length s)%nat.
Proof.
  unfold lex_one. destruct s as [|c t]; [done|].
  destruct (is_space c); [intros [= <- <-]; pose proof (span_shorter is_space t); cbn; lia|].
  destruct ((c =? 45) && _).
  { intros [= <- <-]. pose proof (skip_comment_shorter (drop 1 t)). rewrite length_drop in *. cbn. lia. }
  destruct ((c =? 34) || (c =? 39)).
  { destruct (str_body c t) as [[b r']|] eqn:E; [|done]. intros [= <- <-].
    apply str_body_shorter in E. cbn. lia. }
  destruct (lex_num (c :: t)) as [[x r']|] eqn:E.
  { intros [= <- <-]. unfold lex_num in E. destruct (c =? 45).
    - destruct (lex_magnitude t) as [[m r1]|] eqn:E1; [|done]. apply magnitude_shorter in E1.
      injection E as <- <-. cbn. lia.
    - by apply magnitude_shorter in E. }
  destruct (name_start c) eqn:En.
  { assert (name_char c = true) as Hc by (unfold name_char; by rewrite En).
    cbn [span]. rewrite Hc. pose proof (span_shorter name_char t).
    destruct (span name_char t). cbn in *. intros [= <- <-]. lia. }
  destruct (is_punct c); [|done]. intros [= <- <-]. cbn. lia.
Qed.

Lemma tokens_go_fuel n s : (length s <= n)%nat -> tokens_go n s = _tokens s.
Proof.
  unfold _tokens. revert s.
  assert (forall n m s, (length s <= n)%nat -> (length s <= m)%nat -> tokens_go n s = tokens_go m s) as Hg.
  { clear n. induction n as [|n IH]; intros m [|c t] Hn Hm; [by destruct m|cbn in Hn; lia|by destruct m|].
    destruct m as [|m]; [cbn in Hm; lia|]. cbn [tokens_go].
    destruct (lex_one (c :: t)) as [[[tk|] r]|] eqn:E; [| |done];
      apply lex_one_shorter in E; cbn in *; [f_equal|]; apply IH; lia. }
  intros s Hn. apply Hg; lia.
Qed.

(** One match of the pattern. *)
Lemma tokens_step s o r :
  lex_one s = Some (o, r) ->
  _tokens s = match o with Some t => t :: _tokens r | None => _tokens r end.
Proof.
  intros E. pose proof (lex_one_shorter _ _ _ E) as Hl.
  rewrite <- (tokens_go_fuel (S (length s)) s) by lia. destruct s as [|c t]; [done|].
  cbn [tokens_go]. rewrite E. rewrite (tokens_go_fuel _ r) by lia. done.
Qed.

(** ** White space and punctuation *)

Lemma tokens_space c t : is_space c = true -> _tokens (c :: t) = _tokens t.
Proof.
  intros Hc. assert (forall c t, is_space c = true -> _tokens (c :: t) = _tokens (snd (span is_space t))) as Hs.
  { clear c t Hc. intros c t Hc. apply (tokens_step _ None). unfold lex_one. by rewrite Hc. }
  rewrite (Hs c t Hc). destruct t as [|d u]; [done|]. cbn [span].
  destruct (is_space d) eqn:Ed; [|done]. rewrite (Hs d u Ed). by destruct (span is_space u).
Qed.

Lemma tokens_spaces l t : Forall (fun c => is_space c = true) l -> _tokens (l ++ t) = _tokens t.
Proof. induction 1 as [|c l Hc _ IH]; [done|]. cbn [app]. by rewrite tokens_space. Qed.

Lemma tabs_space n : Forall (fun c => is_space c = true) (tabs n).
Proof. by apply Forall_replicate. Qed.

Lemma decimal_ascii c : 0 <= c < 0x80 -> is_decimal c = is_digit c.
Proof.
  intros Hc. unfold is_decimal. rewrite uni_decimal_ascii by done. unfold is_digit.
  by destruct (in_range 48 57 c).
Qed.

Lemma digit_ascii c : is_digit c = true -> 48 <= c <= 57.
Proof. unfold is_digit, in_range. intros Hc. zbool. lia. Qed.

Lemma digit_decimal c : is_digit c = true -> is_decimal c = true.
Proof. intros Hc. apply digit_ascii in Hc as Hr. by rewrite decimal_ascii by lia. Qed.

Lemma digits_decimal ds :
  Forall (fun c => is_digit c = true) ds -> Forall (fun c => is_decimal c = true) ds.
Proof. intros Hd. eapply Forall_impl; [exact Hd|]. apply digit_decimal. Qed.

(** A character no number can start with. *)
Lemma not_number c t :
  0 <= c < 0x80 -> is_digit c = false -> c <> 45 -> c <> 46 -> lex_num (c :: t) = None.
Proof.
  intros Hc Hd H45 H46. unfold lex_num. rewrite (proj2 (Z.eqb_neq c 45)) by done.
  assert (lex_mantissa (c :: t) = None) as Hm.
  { unfold lex_mantissa. cbn [span]. rewrite decimal_ascii, Hd by done.
    by rewrite (proj2 (Z.eqb_neq c 46)) by done. }
  unfold lex_magnitude. rewrite Hm. destruct t as [|d u]; [done|].
  destruct (Z.eqb_spec c 48) as [->|]; [by vm_compute in Hd|done].
Qed.

Lemma tokens_punct c t : is_punct c = true -> _tokens (c :: t) = TPunct c :: _tokens t.
Proof.
  intros Hc. apply (tokens_step _ (Some (TPunct c))).
  assert (c = 91 \/ c = 93 \/ c = 123 \/ c = 125 \/ c = 61 \/ c = 44 \/ c = 59) as Hin.
  { unfold is_punct in Hc. rewrite !orb_true_iff, !Z.eqb_eq in Hc. lia. }
  assert (lex_num (c :: t) = None) as Hn.
  { apply not_number; destruct_or! Hin; subst; done || lia. }
  unfold lex_one. rewrite Hn. by destruct_or! Hin; subst.
Qed.

(** ** The index comments *)

Lemma tokens_index i t : _tokens (lit "-- [" ++ str_of_Z i ++ [93; 10] ++ t) = _tokens t.
Proof.
  rewrite (tokens_step _ None (10 :: t)); [by apply tokens_space|].
  cbn [app]. unfold lit. cbn [map String.list_ascii_of_string app lex_one].
  change (Some (None, skip_comment (32 :: 91 :: str_of_Z i ++ [93; 10] ++ t)) = Some (None : option token, 10 :: t)).
  f_equal. f_equal. unfold skip_comment. change (32 =? 91) with false. cbn [andb].
  rewrite (app_comm_cons (str_of_Z i)). change (32 :: (91 :: str_of_Z i) ++ [93; 10] ++ t)
    with ((32 :: 91 :: str_of_Z i) ++ [93] ++ 10 :: t). rewrite app_assoc.
  rewrite span_all; [done| |done]. apply Forall_app. split; [|by repeat constructor].
  repeat (constructor; [done|]). unfold str_of_Z.
  assert (forall fuel n acc, 0 <= n -> Forall (fun d => negb (d =? 10) = true) acc ->
    Forall (fun d => negb (d =? 10) = true) (digits_go fuel n acc)) as Hg.
  { clear. induction fuel as [|fuel IH]; intros n acc Hn Ha; [done|]. cbn.
    pose proof (Z.mod_pos_bound n 10). assert (negb (48 + n mod 10 =? 10) = true)
      by (apply negb_true_iff, Z.eqb_neq; lia).
    destruct (n / 10 =? 0); [by constructor|]. apply IH; [apply Z.div_pos; lia | by constructor]. }
  destruct (Z.ltb_spec i 0); [constructor; [done|]|]; apply Hg; (lia || constructor).
Qed.

(** ** Quoted strings *)

Lemma str_body_quote s t :
  Forall is_char s -> str_body 34 (quote_body s ++ 34 :: t) = Some (quote_body s, t).
Proof.
  induction 1 as [|c s Hc _ IH]; [done|]. unfold quote_body in *. cbn [flat_map]. rewrite <- app_assoc.
  assert (forall d, d <> 34 -> d <> 92 -> forall u b r, str_body 34 u = Some (b, r) ->
    str_body 34 (d :: u) = Some (d :: b, r)) as Hd.
  { clear. intros d H1 H2 u b r E. cbn. rewrite !(proj2 (Z.eqb_neq d _)) by done. by rewrite E. }
  assert (forall d u b r, str_body 34 u = Some (b, r) ->
    str_body 34 (92 :: d :: u) = Some (92 :: d :: b, r)) as He by (clear; intros d u b r E; cbn; by rewrite E).
  unfold quote_char. unfold is_char in Hc.
  destruct (Z.eqb_spec c 34) as [->|H34]; [by apply He|].
  destruct (Z.eqb_spec c 92) as [->|H92]; [by apply He|].
  destruct (Z.eqb_spec c 10) as [->|H10]; [by apply He|].
  destruct (Z.eqb_spec c 13) as [->|H13]; [by apply He|].
  destruct (Z.ltb_spec c 32) as [Hl|Hl]; [|by apply Hd].
  pose proof (Z.div_lt_upper_bound c 10 4 ltac:(lia) ltac:(lia)). pose proof (Z.div_pos c 10 ltac:(lia) ltac:(lia)). pose proof (Z.mod_pos_bound c 10 ltac:(lia)).
  apply He, Hd; [lia | lia |]. by apply Hd; [lia | lia |].
Qed.

Lemma tokens_quote s t :
  Forall is_char s -> _tokens (_q s ++ t) = TStr (quote_body s) :: _tokens t.
Proof.
  intros Hs. unfold _q. rewrite <- !app_assoc. apply (tokens_step _ (Some (TStr (quote_body s)))).
  cbn [app lex_one]. change (is_space 34) with false. change (34 =? 45) with false. cbn [andb orb].
  change (34 =? 34) with true. cbn [orb]. by rewrite str_body_quote.
Qed.

(** ** Names *)

Definition is_name (s : pystr) : Prop :=
  match s with c :: t => name_start c = true /\ Forall (fun d => name_char d = true) t | [] => False end.

Lemma tokens_name s c t :
  is_name s -> name_char c = false -> _tokens (s ++ c :: t) = TName s :: _tokens (c :: t).
Proof.
  destruct s as [|d s]; [done|]. intros [Hd Hs] Hc. apply (tokens_step _ (Some (TName (d :: s)))).
  assert (65 <= d <= 90 \/ 97 <= d <= 122 \/ d = 95) as Hr.
  { unfold name_start, in_range in Hd. rewrite !orb_true_iff, !andb_true_iff, !Z.leb_le, Z.eqb_eq in Hd. lia. }
  cbn [app lex_one]. rewrite not_number; [| lia | | lia | lia].
  2: { unfold is_digit. by rewrite in_range_false by lia. }
  assert (is_space d = false) as ->.
  { unfold is_space. rewrite !in_range_false by lia. rewrite !(proj2 (Z.eqb_neq d _)) by lia. done. }
  rewrite !(proj2 (Z.eqb_neq d _)) by lia. cbn [andb orb]. rewrite Hd.
  change (d :: s ++ c :: t) with ((d :: s) ++ c :: t). rewrite span_all; [done| |done].
  constructor; [|done]. unfold name_char. by rewrite Hd.
Qed.

(** ** Numbers *)

(** What follows a value or a key in a written file. *)
Definition stops (c : Z) : Prop := c = 44 \/ c = 93 \/ c = 10.

Definition digits (s : pystr) : Prop := Forall (fun c => is_digit c = true) s.
Definition fraction (s : pystr) : Prop := s = [] \/ exists fs, digits fs /\ s = 46 :: fs.
Definition exponent (s : pystr) : Prop :=
  s = [] \/ exists sg es, (sg = 43 \/ sg = 45) /\ digits es /\ es <> [] /\ s = 101 :: sg :: es.

(** An unsigned number of the pattern. *)
Definition magnitude (ip fp ex : pystr) : Prop :=
  digits ip /\ ip <> [] /\ fraction fp /\ exponent ex.

Lemma stops_not c : stops c -> is_decimal c = false /\ c <> 46 /\ c <> 101 /\ c <> 69 /\ c <> 120 /\ c <> 88.
Proof.
  intros Hc. split; [|unfold stops in Hc; lia].
  unfold stops in Hc. rewrite decimal_ascii by lia. unfold is_digit. by rewrite in_range_false by lia.
Qed.

Lemma span_digits ds c t : digits ds -> is_decimal c = false -> span is_decimal (ds ++ c :: t) = (ds, c :: t).
Proof. intros Hd Hc. apply span_all; [by apply digits_decimal | done]. Qed.

Lemma lex_exponent_ok ex c t :
  exponent ex -> stops c -> lex_exponent (ex ++ c :: t) = (ex, c :: t).
Proof.
  intros He Hc. destruct (stops_not c Hc) as (Hd & _ & H1 & H2 & _). unfold lex_exponent.
  destruct He as [->|(sg & es & Hsg & Hes & Hne & ->)].
  - cbn [app]. by rewrite !(proj2 (Z.eqb_neq c _)) by done.
  - cbn [app]. change ((101 =? 101) || (101 =? 69)) with true. cbn iota.
    assert ((sg =? 43) || (sg =? 45) = true) as -> by (destruct Hsg as [->| ->]; done).
    rewrite span_digits by done. by destruct es.
Qed.

(** What starts an exponent or ends the number is no digit and no point. *)
Lemma exponent_head ex c t :
  exponent ex -> stops c ->
  exists d u, ex ++ c :: t = d :: u /\ is_decimal d = false /\ d <> 46 /\ d <> 120 /\ d <> 88.
Proof.
  intros [->|(sg & es & Hsg & Hes & Hne & ->)] Hc.
  - exists c, t. destruct (stops_not c Hc) as (? & ? & ? & ? & ? & ?). done.
  - eexists _, _. split; [reflexivity|]. rewrite decimal_ascii by lia. by split_and!.
Qed.

Lemma lex_mantissa_ok ip fp ex c t :
  magnitude ip fp ex -> stops c ->
  lex_mantissa (ip ++ fp ++ ex ++ c :: t) = Some (ip ++ fp, ex ++ c :: t).
Proof.
  intros (Hi & Hne & Hf & He) Hc. destruct (exponent_head ex c t He Hc) as (d & u & -> & Hd & H46 & _).
  unfold lex_mantissa. destruct Hf as [->|(fs & Hfs & ->)].
  - cbn [app]. rewrite span_digits, app_nil_r by done. rewrite (proj2 (Z.eqb_neq d 46)) by done. by destruct ip.
  - cbn [app]. rewrite span_digits by (done || rewrite decimal_ascii by lia; done).
    change (46 =? 46) with true. cbn iota. rewrite span_digits by done. by destruct ip.
Qed.

Lemma lex_magnitude_ok ip fp ex c t :
  magnitude ip fp ex -> stops c ->
  lex_magnitude (ip ++ fp ++ ex ++ c :: t) = Some (ip ++ fp ++ ex, c :: t).
Proof.
  intros Hm Hc. unfold lex_magnitude. rewrite lex_mantissa_ok by done.
  destruct Hm as (Hi & Hne & Hf & He). rewrite lex_exponent_ok, <- app_assoc by done.
  destruct (exponent_head ex c t He Hc) as (d & u & E & _ & _ & H1 & H2).
  assert (forall x y r, ip ++ fp ++ ex ++ c :: t = x :: y :: r -> y <> 120 /\ y <> 88) as Hx.
  { intros x y r. destruct Hi as [|a ip' _ Ha']; [done|].
    cbn [app]. intros [= -> Hr]. destruct Ha' as [|b ip' Hb _]; cbn [app] in Hr.
    - destruct Hf as [->|(fs & _ & ->)]; cbn [app] in Hr; [|by simplify_eq].
      rewrite E in Hr. by simplify_eq.
    - apply digit_ascii in Hb. simplify_eq. lia. }
  destruct (ip ++ fp ++ ex ++ c :: t) as [|x [|y r]] eqn:El; [done..|].
  destruct (Hx _ _ _ eq_refl) as [Hy1 Hy2].
  by rewrite !(proj2 (Z.eqb_neq y _)), andb_false_r by done.
Qed.

Definition signed (neg : bool) (s : pystr) : pystr := if neg then 45 :: s else s.

Lemma tokens_num neg ip fp ex c t :
  magnitude ip fp ex -> stops c ->
  _tokens (signed neg (ip ++ fp ++ ex) ++ c :: t) = TNum (signed neg (ip ++ fp ++ ex)) :: _tokens (c :: t).
Proof.
  intros Hm Hc. apply (tokens_step _ (Some (TNum (signed neg (ip ++ fp ++ ex))))).
  pose proof (lex_magnitude_ok _ _ _ c t Hm Hc) as Hl.
  destruct Hm as (Hi & Hne & _). destruct Hi as [|a ip Ha Hi]; [done|]. apply digit_ascii in Ha.
  assert (forall d, d = 45 \/ 48 <= d <= 57 -> is_space d = false /\ d <> 34 /\ d <> 39) as Hd.
  { intros d Hd. unfold is_space. rewrite !in_range_false by lia.
    rewrite !(proj2 (Z.eqb_neq d _)) by lia. split; [done|lia]. }
  assert (lex_num (signed neg ((a :: ip) ++ fp ++ ex) ++ c :: t)
          = Some (signed neg ((a :: ip) ++ fp ++ ex), c :: t)) as En.
  { unfold lex_num. destruct neg; cbn [signed app] in *.
    - change (45 =? 45) with true. cbn iota. rewrite <- !app_assoc. by rewrite Hl.
    - rewrite (proj2 (Z.eqb_neq a 45)) by lia. rewrite <- !app_assoc. by rewrite Hl. }
  destruct neg; cbn [signed app] in *; unfold lex_one.
  - destruct (Hd 45 (or_introl eq_refl)) as (-> & _). cbn [andb orb].
    rewrite (proj2 (Z.eqb_neq a 45)) by lia. change (45 =? 34) with false. change (45 =? 39) with false.
    rewrite andb_false_r. cbn [orb]. by rewrite En.
  - destruct (Hd a (or_intror Ha)) as (-> & H1 & H2). rewrite !(proj2 (Z.eqb_neq a _)) by lia.
    cbn [andb orb]. by rewrite En.
Qed.
End Lex.
