(* ===== verification/LuaSpec.v ===== *)
(** * What is written can be read (cache-consolidator/tools/luaser.py)

    The promise of the serialiser: a written file parses back to the tree it
    was written from, with globals and keys in order, and writing that tree
    again gives the same text.  The parser ends on every text. *)
From S2P Require Import Prelude Wire PyFloat Text Format Lua LuaParse LuaLex.
From Stdlib Require Import SpecFloat.

(** ** The texts of numbers *)

Lemma int_text n : exists neg ip, str_of_Z n = signed neg ip /\ magnitude ip [] [].
Proof.
  destruct (decide (n < 0)) as [Hn|Hn].
  - destruct (str_of_Z_nonneg (- n) ltac:(lia)) as (_ & Hd & Hne). exists true, (str_of_Z (- n)). split.
    + unfold str_of_Z. rewrite (proj2 (Z.ltb_lt n 0)), (proj2 (Z.ltb_ge (- n) 0)) by lia. done.
    + by repeat split; [..|left|left].
  - destruct (str_of_Z_nonneg n ltac:(lia)) as (_ & Hd & Hne). exists false, (str_of_Z n).
    split; [done|]. by repeat split; [..|left|left].
Qed.

Lemma shortest_nonneg m e : 0 <= fst (shortest m e).
Proof.
  unfold shortest. set (nd := if 0 <=? e then _ else _).
  assert (0 <= fst nd /\ 0 < snd nd) as Hnd.
  { unfold nd. destruct (Z.leb_spec 0 e); cbn [fst snd].
    - pose proof (Z.pow_pos_nonneg 2 e). lia.
    - pose proof (Z.pow_pos_nonneg 2 (- e)). lia. }
  destruct nd as [num den]. cbn [fst snd] in Hnd.
  generalize (S754_finite false m e). generalize (pylen (str_of_Z (num * 10 ^ 400 / den)) - 400).
  generalize 1. generalize 17%nat. induction n as [|fuel IH]; intros n k x; [done|]. cbn [shortest_go].
  destruct (digits_at x num den k n) as [dq|] eqn:E; [|apply IH].
  unfold digits_at in E. set (ab := if 0 <=? k - n then _ else _) in E.
  assert (0 <= fst ab /\ 0 < snd ab) as Hab.
  { unfold ab. destruct (Z.leb_spec 0 (k - n)); cbn [fst snd].
    - pose proof (Z.pow_pos_nonneg 10 (k - n)). nia.
    - pose proof (Z.pow_pos_nonneg 10 (- (k - n))). nia. }
  destruct ab as [a b]. cbn [fst snd] in Hab. pose proof (Z.div_pos a b ltac:(lia) ltac:(lia)).
  repeat case_match; simplify_eq; cbn [fst]; lia.
Qed.

Lemma trim_zeros_nonneg fuel d q : 0 <= d -> 0 <= fst (trim_zeros fuel d q).
Proof.
  revert d q. induction fuel as [|fuel IH]; intros d q Hd; [done|]. cbn.
  destruct (_ && _); [|done]. apply IH. by apply Z.div_pos.
Qed.

Lemma zeros_digits n : digits (zeros_text n).
Proof. by apply Forall_replicate. Qed.

Lemma float_text_shape ds point :
  digits ds -> ds <> [] ->
  exists ip fp ex, float_text ds point = ip ++ fp ++ ex /\ magnitude ip fp ex /\ (fp <> [] \/ ex <> []).
Proof.
  intros Hd Hne. unfold float_text.
  destruct ((-4 <? point) && (point <=? 16)) eqn:Er.
  - destruct (Z.leb_spec point 0).
    + exists [48], (46 :: zeros_text (- point) ++ ds), []. rewrite app_nil_r. split; [done|]. split; [|by left].
      split_and!; [by repeat constructor | done | right | by left].
      eexists. split; [|done]. apply Forall_app. split; [apply zeros_digits | done].
    + destruct (Z.leb_spec (pylen ds) point).
      * exists (ds ++ zeros_text (point - pylen ds)), [46; 48], []. split; [by rewrite <- app_assoc|].
        split; [|by left]. split_and!; [| by destruct ds | | by left].
        -- apply Forall_app. split; [done | apply zeros_digits].
        -- right. exists [48]. split; [by repeat constructor | done].
      * exists (take (Z.to_nat point) ds), (46 :: drop (Z.to_nat point) ds), []. rewrite app_nil_r.
        split; [done|]. split; [|by left].
        split_and!; [by apply Forall_take | | right; eexists; split; [by apply Forall_drop|done] | by left].
        destruct ds; [done|]. destruct (Z.to_nat point) eqn:E; [lia|done].
  - set (x := point - 1). destruct (str_of_Z_nonneg (Z.abs x) ltac:(lia)) as (_ & Hx & Hxne).
    exists (take 1 ds), (if pylen ds =? 1 then [] else 46 :: drop 1 ds),
      (101 :: (if x <? 0 then 45 else 43) :: if pylen (str_of_Z (Z.abs x)) <? 2 then 48 :: str_of_Z (Z.abs x) else str_of_Z (Z.abs x)).
    split; [done|]. split; [|by right].
    split_and!; [by apply Forall_take | by destruct ds | |].
    + destruct (pylen ds =? 1); [by left|]. right. exists (drop 1 ds). split; [by apply Forall_drop | done].
    + right. eexists _, _. split; [|split; [|split; [|done]]].
      * destruct (x <? 0); [by right | by left].
      * destruct (_ <? 2); [by constructor | done].
      * by destruct (_ <? 2).
Qed.

(** A float [repr] writes as a decimal. *)
Definition is_finite (x : f64) : Prop :=
  match x with S754_zero _ | S754_finite _ _ _ => True | _ => False end.

Lemma float_repr_shape x :
  is_finite x ->
  exists neg ip fp ex, float_repr x = signed neg (ip ++ fp ++ ex) /\ magnitude ip fp ex /\ (fp <> [] \/ ex <> []).
Proof.
  destruct x as [s| | |s m e]; try done; intros _.
  - exists s, [48], [46; 48], []. split; [by destruct s|]. split; [|by left].
    split_and!; [by repeat constructor | done | right | by left].
    exists [48]. split; [by repeat constructor | done].
  - unfold float_repr. pose proof (shortest_nonneg m e) as Hs. destruct (shortest m e) as [d q].
    pose proof (trim_zeros_nonneg 20 d q Hs) as Ht. destruct (trim_zeros 20 d q) as [d' q'].
    destruct (str_of_Z_nonneg d' Ht) as (_ & Hd & Hne).
    destruct (float_text_shape (str_of_Z d') (pylen (str_of_Z d') + q') Hd Hne) as (ip & fp & ex & -> & Hm & Hf).
    exists s, ip, fp, ex. split; [by destruct s|]. done.
Qed.

Section NumValue.
Context `{Unicode}.

Lemma not_hex neg ip fp ex : magnitude ip fp ex -> is_hex_text (signed neg (ip ++ fp ++ ex)) = false.
Proof.
  intros (Hi & Hne & Hf & He). destruct Hi as [|a ip Ha Hi]; [done|]. apply digit_ascii in Ha.
  assert (forall y u, ip ++ fp ++ ex = y :: u -> y <> 120 /\ y <> 88) as Hy.
  { intros y u. destruct Hi as [|b ip Hb _]; cbn [app]; [|apply digit_ascii in Hb; intros; simplify_eq; lia].
    destruct Hf as [->|(fs & _ & ->)]; cbn [app]; [|intros; by simplify_eq].
    destruct He as [->|(sg & es & _ & _ & _ & ->)]; intros; by simplify_eq. }
  unfold is_hex_text.
  assert (match signed neg ((a :: ip) ++ fp ++ ex) with c :: t => if c =? 45 then t else signed neg ((a :: ip) ++ fp ++ ex) | [] => signed neg ((a :: ip) ++ fp ++ ex) end
          = a :: ip ++ fp ++ ex) as ->.
  { destruct neg; cbn [signed app]; [done|]. by rewrite (proj2 (Z.eqb_neq a 45)) by lia. }
  destruct (ip ++ fp ++ ex) as [|y u] eqn:E; [done|]. destruct (Hy _ _ eq_refl).
  by rewrite !(proj2 (Z.eqb_neq y _)), andb_false_r by done.
Qed.

Lemma existsb_digits p ds : digits ds -> (forall c, 48 <= c <= 57 -> p c = false) -> existsb p ds = false.
Proof.
  intros Hd Hp. induction Hd as [|c ds Hc _ IH]; [done|]. cbn. apply digit_ascii in Hc. by rewrite Hp.
Qed.

Lemma float_text_iff neg ip fp ex :
  magnitude ip fp ex ->
  is_float_text (signed neg (ip ++ fp ++ ex)) = negb (bool_decide (fp = [] /\ ex = [])).
Proof.
  intros (Hi & _ & Hf & He). unfold is_float_text.
  assert (forall s, existsb (fun c => (c =? 46) || (c =? 101) || (c =? 69)) (signed neg s)
    = existsb (fun c => (c =? 46) || (c =? 101) || (c =? 69)) s) as -> by (by destruct neg).
  rewrite existsb_app, (existsb_digits _ ip Hi).
  2: { intros c Hc. rewrite !(proj2 (Z.eqb_neq c _)) by lia. done. }
  destruct Hf as [->|(fs & _ & ->)]; [|by rewrite bool_decide_eq_false_2 by naive_solver].
  destruct He as [->|(sg & es & _ & _ & _ & ->)]; [by rewrite bool_decide_eq_true_2|].
  by rewrite bool_decide_eq_false_2 by naive_solver.
Qed.

Lemma int_of_text n : int_of_str (str_of_Z n) = Ok n.
Proof.
  destruct (decide (n < 0)) as [Hn|Hn]; [|apply int_of_str_of_Z; lia].
  destruct (str_of_Z_nonneg (- n) ltac:(lia)) as (Hv & Hd & Hne).
  assert (str_of_Z n = 45 :: str_of_Z (- n)) as ->.
  { unfold str_of_Z. by rewrite (proj2 (Z.ltb_lt n 0)), (proj2 (Z.ltb_ge (- n) 0)) by lia. }
  unfold int_of_str, strip, rstrip. change (lstrip (45 :: str_of_Z (- n))) with (45 :: str_of_Z (- n)).
  assert (lstrip (rev (45 :: str_of_Z (- n))) = rev (45 :: str_of_Z (- n))) as ->.
  { cbn [rev]. assert (Forall (fun c => is_digit c = true) (rev (str_of_Z (- n)))) as Hr by (by apply Forall_rev).
    destruct (rev (str_of_Z (- n))) as [|c t]; [done|]. inversion_clear Hr. cbn.
    pose proof (lstrip_digit [c] ltac:(by constructor)) as E. cbn in E.
    by destruct (is_space c). }
  rewrite rev_involutive. change (45 =? 45) with true. cbn iota beta.
  rewrite int_digits_val by (done || by right). unfold digits_val in Hv. rewrite Hv.
  f_equal. lia.
Qed.

Lemma num_value_int n : num_value (str_of_Z n) = Ok (VInt n).
Proof.
  destruct (int_text n) as (neg & ip & E & Hm). unfold num_value. rewrite int_of_text. rewrite E.
  rewrite <- (app_nil_r ip). pose proof (not_hex neg _ _ _ Hm) as Hh. pose proof (float_text_iff neg _ _ _ Hm) as Hf.
  cbn [app] in Hh, Hf. rewrite Hh, Hf. done.
Qed.

Lemma num_value_float x :
  is_finite x -> float_of_str (float_repr x) = Ok x -> num_value (float_repr x) = Ok (VFloat x).
Proof.
  intros Hx E. destruct (float_repr_shape x Hx) as (neg & ip & fp & ex & Er & Hm & Hne).
  unfold num_value. rewrite E. rewrite Er, not_hex, float_text_iff by done.
  rewrite bool_decide_eq_false_2 by naive_solver. done.
Qed.
End NumValue.

(** ** Quoted strings *)

(** A text UTF-8 can carry. *)
Definition text_ok (s : pystr) : Prop := Forall (fun c => is_char c /\ is_surrogate c = false) s.

Lemma text_ok_chars s : text_ok s -> Forall is_char s.
Proof. intros Hs. eapply Forall_impl; [exact Hs|]. by intros c []. Qed.

Lemma decode_strict_ok s n :
  text_ok s -> (length (flat_map utf8_char s) <= n)%nat ->
  utf8_decode_strict_go n (flat_map utf8_char s) = Ok s.
Proof.
  intros Hs. revert n. induction Hs as [|c s [Hc Hn] _ IH]; intros n Hl; [by destruct n|].
  cbn [flat_map] in *. pose proof (utf8_next_char c (flat_map utf8_char s) Hc Hn) as E.
  destruct (utf8_char c) as [|b l]; [done|]. cbn [app length] in *. rewrite length_app in Hl.
  destruct n as [|n]; [lia|]. cbn [utf8_decode_strict_go]. rewrite E, IH by lia. done.
Qed.

Section Unescape.
Context `{Unicode}.

Lemma encode_one c : is_surrogate c = false -> utf8_encode [c] = Ok (utf8_char c).
Proof. intros Hc. unfold utf8_encode. cbn [existsb]. rewrite Hc. cbn. by rewrite app_nil_r. Qed.

(** One written character, read back. *)
Lemma unescape_char n c t out :
  is_char c -> is_surrogate c = false ->
  unescape_go n t = Ok out -> unescape_go (S n) (quote_char c ++ t) = Ok (utf8_char c ++ out).
Proof.
  intros Hc Hs E. unfold is_char in Hc.
  assert (forall e, 0 <= e < 0x80 -> is_digit e = false -> e <> 120 ->
    unescape_go (S n) (92 :: e :: t) = Ok (utf8_char (escape_char e) ++ out)) as He.
  { intros e H0 Hd Hx. cbn [unescape_go]. change (92 =? 92) with true. cbn [negb].
    rewrite uni_isdigit_ascii by lia. unfold is_digit in Hd. rewrite Hd.
    rewrite (proj2 (Z.eqb_neq e 120)) by done. rewrite encode_one; [cbn [mbind res_bind]; by rewrite E|].
    unfold escape_char, is_surrogate. cbn [dget]. repeat case_decide; cbn [default from_option id]; try done.
    by rewrite (proj2 (Z.leb_gt _ _)) by lia. }
  unfold quote_char.
  destruct (Z.eqb_spec c 34) as [->|H34]; [by apply (He 34)|].
  destruct (Z.eqb_spec c 92) as [->|H92]; [by apply (He 92)|].
  destruct (Z.eqb_spec c 10) as [->|H10]; [by apply (He 110)|].
  destruct (Z.eqb_spec c 13) as [->|H13]; [by apply (He 114)|].
  destruct (Z.ltb_spec c 32) as [Hl|Hl].
  - pose proof (Z.div_lt_upper_bound c 10 4 ltac:(lia) ltac:(lia)). pose proof (Z.div_pos c 10 ltac:(lia) ltac:(lia)).
    pose proof (Z.mod_pos_bound c 10 ltac:(lia)). pose proof (Z.div_mod c 10 ltac:(lia)).
    cbn [app unescape_go]. change (92 =? 92) with true. cbn [negb].
    rewrite uni_isdigit_ascii, in_range_true by lia.
    assert (escape_digits (48 :: 48 + c / 10 :: 48 + c mod 10 :: t) = [48; 48 + c / 10; 48 + c mod 10]) as ->.
    { unfold escape_digits. cbn [take span]. rewrite !uni_isdigit_ascii, !in_range_true by lia. done. }
    unfold int_of_str, strip, rstrip. rewrite (lstrip_digit [48; 48 + c / 10; 48 + c mod 10]).
    2: { repeat (constructor; [apply in_range_true; lia|]). constructor. }
    rewrite (lstrip_digit (rev _)).
    2: { apply Forall_rev. repeat (constructor; [apply in_range_true; lia|]). constructor. }
    rewrite rev_involutive. cbv beta iota zeta. change (48 =? 45) with false. change (48 =? 43) with false. cbv iota.
    rewrite int_digits_val.
    2: { repeat (constructor; [apply in_range_true; lia|]). constructor. }
    2: { by right. }
    cbn [fold_left mbind res_bind length drop].
    replace (10 * (10 * (10 * 0 + (48 - 48)) + (48 + c / 10 - 48)) + (48 + c mod 10 - 48)) with c by lia.
    destruct (Z.gtb_spec c 255); [lia|].
    match goal with |- context [unescape_go n ?l] => change l with t end. rewrite E. cbn [mbind res_bind].
    unfold utf8_char. by rewrite (proj2 (Z.ltb_lt c 128)) by lia.
  - cbn [app unescape_go]. rewrite (proj2 (Z.eqb_neq c 92)) by done. cbn [negb].
    rewrite encode_one by done. cbn [mbind res_bind]. by rewrite E.
Qed.

Lemma unescape_more n m l out : unescape_go n l = Ok out -> (n <= m)%nat -> unescape_go m l = Ok out.
Proof.
  revert m l out. induction n as [|n IH]; intros m l out E Hm.
  - destruct l; [|done]. by destruct m.
  - destruct m as [|m]; [lia|]. destruct l as [|c t]; [done|]. cbn [unescape_go] in *.
    assert (forall l out, unescape_go n l = Ok out -> unescape_go m l = Ok out) as Hr by (intros; apply IH; [done|lia]).
    revert E. destruct (negb (c =? 92)).
    { destruct (utf8_encode [c]); [cbn [mbind res_bind]|done]. destruct (unescape_go n t) eqn:E; [|done]. cbn [mbind res_bind]. by rewrite (Hr _ _ E). }
    destruct t as [|e u]; [done|]. destruct (uni_isdigit e).
    { destruct (int_of_str _); [cbn [mbind res_bind]|done]. destruct (a >? 255); [done|].
      destruct (unescape_go n (drop _ (e :: u))) eqn:E; [|done]. cbn [mbind res_bind]. by rewrite (Hr _ _ E). }
    destruct (e =? 120).
    { destruct u as [|h1 [|h2 u]]; [done..|]. destruct (is_hex h1 && is_hex h2); [|done].
      destruct (unescape_go n u) eqn:E; [|done]. cbn [mbind res_bind]. by rewrite (Hr _ _ E). }
    destruct (utf8_encode [escape_char e]); [cbn [mbind res_bind]|done]. destruct (unescape_go n u) eqn:E; [|done].
    cbn [mbind res_bind]. by rewrite (Hr _ _ E).
Qed.

Lemma unescape_quote s : text_ok s -> _unescape (quote_body s) = Ok s.
Proof.
  intros Hs. unfold _unescape.
  assert (exists n, (n <= length (quote_body s))%nat /\ unescape_go n (quote_body s) = Ok (flat_map utf8_char s)) as (n & Hn & E).
  { induction Hs as [|c s [Hc Hn] _ (n & Hl & IH)]; [by exists 0%nat|].
    exists (S n). unfold quote_body in *. cbn [flat_map]. split; [|by apply unescape_char].
    rewrite length_app. assert (1 <= length (quote_char c))%nat; [|lia].
    unfold quote_char. repeat case_match; cbn; lia. }
  rewrite (unescape_more _ _ _ _ E Hn). cbn [mbind res_bind]. unfold utf8_decode_strict.
  by rewrite decode_strict_ok.
Qed.
End Unescape.

(** ** Trees a file can hold *)

Definition keys_distinct {A} (h : list (lua * A)) : Prop :=
  ForallOrdPairs (fun a b => key_eqb (fst a) (fst b) = false) h.

(** The values and sub-trees in the order and under the keys they come back. *)
Fixpoint norm (v : lua) : lua :=
  match v with
  | VTable a h => VTable (map norm a) (py_sort entry_leb (map (fun kv => (fst kv, norm (snd kv))) h))
  | _ => v
  end.

Section Tree.
Context `{Unicode}.

(** A float whose [repr] reads back, which [repr] promises of finite ones. *)
Definition float_ok (x : f64) : Prop := is_finite x /\ float_of_str (float_repr x) = Ok x.

Inductive key_ok : lua -> Prop :=
  | kok_bool b : key_ok (VBool b)
  | kok_int n : key_ok (VInt n)
  | kok_float x : float_ok x -> key_ok (VFloat x)
  | kok_str s : text_ok s -> key_ok (VStr s).

(** A tree without placeholders, whose keys are scalars, none twice. *)
Inductive lua_ok : lua -> Prop :=
  | ok_none : lua_ok VNone
  | ok_key k : key_ok k -> lua_ok k
  | ok_table a h :
      Forall lua_ok a -> Forall (fun kv => key_ok (fst kv) /\ lua_ok (snd kv)) h ->
      keys_distinct h -> lua_ok (VTable a h).

Lemma lua_ok_table a h :
  lua_ok (VTable a h) ->
  Forall lua_ok a /\ Forall (fun kv => key_ok (fst kv) /\ lua_ok (snd kv)) h /\ keys_distinct h.
Proof. by inversion 1 as [|k Hk|]; [inversion Hk|]. Qed.

Lemma lua_ok_scalar v :
  lua_ok v -> match v with VTable _ _ => True | VNone => True | _ => key_ok v end.
Proof. by inversion 1 as [|k Hk|]; [|inversion Hk; subst|]. Qed.

(** ** Sorting by key *)

Lemma sort_map_value {A B} (f : A -> B) (h : list (lua * A)) :
  py_sort entry_leb (map (fun kv => (fst kv, f (snd kv))) h)
  = map (fun kv => (fst kv, f (snd kv))) (py_sort entry_leb h).
Proof.
  assert (forall x (l : list (lua * A)),
    py_insert entry_leb (fst x, f (snd x)) (map (fun kv => (fst kv, f (snd kv))) l)
    = map (fun kv => (fst kv, f (snd kv))) (py_insert entry_leb x l)) as Hi.
  { intros x l. induction l as [|y l IH]; [done|]. cbn [map py_insert].
    change (entry_leb (fst x, f (snd x)) (fst y, f (snd y))) with (entry_leb x y).
    destruct (entry_leb x y); [done|]. cbn [map]. by rewrite IH. }
  induction h as [|x h IH]; [done|].
  change (py_sort entry_leb (map (fun kv => (fst kv, f (snd kv))) (x :: h)))
    with (py_insert entry_leb (fst x, f (snd x)) (py_sort entry_leb (map (fun kv => (fst kv, f (snd kv))) h))).
  rewrite IH. apply Hi.
Qed.

(** The text of a table that is not empty. *)
Lemma write_table a h depth :
  a <> [] \/ h <> [] ->
  _write (VTable a h) depth
  = [123; 10] ++ array_lines (tabs (S depth)) 1 (map (fun x => _write x (S depth)) a)
    ++ flat_map (hash_line (tabs (S depth)))
         (map (fun kv => (fst kv, _write (snd kv) (S depth))) (py_sort entry_leb h))
    ++ tabs depth ++ [125].
Proof.
  intros Hne. rewrite <- (sort_map_value (fun x => _write x (S depth)) h).
  destruct a, h; [naive_solver|done..].
Qed.

Lemma fin_compare_antisym m1 e1 m2 e2 : fin_compare m2 e2 m1 e1 = CompOpp (fin_compare m1 e1 m2 e2).
Proof. unfold fin_compare. rewrite (Z.min_comm e2 e1). apply Z.compare_antisym. Qed.

Lemma num_eqb_sym a b : num_eqb a b = num_eqb b a.
Proof.
  destruct a as [|m1 e1| |], b as [|m2 e2| |]; try done. cbn.
  rewrite (fin_compare_antisym m2 e2). by destruct (fin_compare m2 e2 m1 e1).
Qed.

Lemma key_eqb_sym a b : key_eqb a b = key_eqb b a.
Proof.
  assert (forall s t : pystr, bool_decide (s = t) = bool_decide (t = s)) as Hs
    by (intros s t; apply bool_decide_ext; done).
  destruct a, b; try done; cbn -[num_eqb num_of]; (apply Hs || apply num_eqb_sym).
Qed.

Lemma keys_distinct_perm {A} (h k : list (lua * A)) : h ≡ₚ k -> keys_distinct h -> keys_distinct k.
Proof.
  unfold keys_distinct. induction 1 as [|x h k Hp IH|x y h|h k l _ IH1 _ IH2]; intros Hd; [done| | |eauto].
  - inversion_clear Hd as [|? ? Hx Hr]. constructor; [|auto]. by rewrite <- Hp.
  - inversion_clear Hd as [|? ? Hx Hr]. inversion_clear Hr as [|? ? Hy Hr'].
    inversion_clear Hx as [|? ? Hxy Hx']. constructor; [|by constructor].
    constructor; [by rewrite key_eqb_sym | done].
Qed.

Lemma keys_distinct_map {A B} (f : A -> B) (h : list (lua * A)) :
  keys_distinct h -> keys_distinct (map (fun kv => (fst kv, f (snd kv))) h).
Proof.
  unfold keys_distinct. induction 1 as [|x h Hx _ IH]; [constructor|]. cbn [map]. constructor; [|done].
  apply Forall_map. exact Hx.
Qed.

Lemma hset_new k v h :
  Forall (fun kv => key_eqb (fst kv) k = false) h -> hset k v h = h ++ [(k, v)].
Proof. induction 1 as [|[k' v'] h Hk _ IH]; [done|]. cbn in *. by rewrite Hk, IH. Qed.

(** ** Tokens of a tree *)

Definition key_tok (k : lua) : token :=
  match k with
  | VStr s => TStr (quote_body s)
  | VBool b => TName (if b then lit "true" else lit "false")
  | _ => TNum (key_str k)
  end.

Definition entry_toks (kt : lua * list token) : list token :=
  [TPunct 91; key_tok (fst kt); TPunct 93; TPunct 61] ++ snd kt ++ [TPunct 44].

Fixpoint toks (v : lua) : list token :=
  match v with
  | VNone => [TName (lit "nil")]
  | VTable a h =>
      TPunct 123 :: flat_map (fun ts => ts ++ [TPunct 44]) (map toks a)
        ++ flat_map entry_toks (py_sort entry_leb (map (fun kv => (fst kv, toks (snd kv))) h))
        ++ [TPunct 125]
  | _ => [key_tok v]
  end.

(** What the tokens of one written piece are, before anything that ends it. *)
Definition reads (x : pystr) (ts : list token) : Prop :=
  forall c t, stops c -> _tokens (x ++ c :: t) = ts ++ _tokens (c :: t).

Lemma name_stops c : stops c -> name_char c = false.
Proof.
  unfold stops, name_char, name_start, is_digit. intros Hc. rewrite !in_range_false by lia.
  rewrite (proj2 (Z.eqb_neq c 95)) by lia. done.
Qed.

Lemma reads_key k : key_ok k -> reads (key_text k) [key_tok k].
Proof.
  intros Hk c t Hc. destruct Hk as [b|n|x [Hx _]|s Hs]; cbn [key_text key_tok _num key_str].
  - apply (tokens_name (if b then lit "true" else lit "false")); [|by apply name_stops].
    by destruct b; (split; [done|repeat constructor]).
  - destruct (int_text n) as (neg & ip & -> & Hm). rewrite <- (app_nil_r ip). apply (tokens_num neg ip [] []); done.
  - destruct (float_repr_shape x Hx) as (neg & ip & fp & ex & -> & Hm & _). by apply tokens_num.
  - apply tokens_quote. by apply text_ok_chars.
Qed.

Lemma reads_array n i items tss rest :
  Forall2 reads items tss ->
  _tokens (array_lines (tabs n) i items ++ rest)
  = flat_map (fun ts => ts ++ [TPunct 44]) tss ++ _tokens rest.
Proof.
  intros Hr. revert i. induction Hr as [|x ts items tss Hx _ IH]; intros i; [done|].
  cbn [array_lines flat_map]. rewrite <- !app_assoc, tokens_spaces by apply tabs_space.
  change (lit ", -- [" ++ str_of_Z i ++ [93; 10] ++ array_lines (tabs n) (i + 1) items ++ rest)
    with (44 :: 32 :: lit "-- [" ++ str_of_Z i ++ [93; 10] ++ array_lines (tabs n) (i + 1) items ++ rest).
  rewrite (Hx 44) by (by left). rewrite tokens_punct, tokens_space, tokens_index, IH by done.
  done.
Qed.

Lemma hash_line_eq inner k x rest :
  hash_line inner (k, x) ++ rest
  = inner ++ 91 :: key_text k ++ 93 :: 32 :: 61 :: 32 :: x ++ 44 :: 10 :: rest.
Proof. unfold hash_line. cbn [fst snd]. by rewrite <- !app_assoc. Qed.

Lemma reads_hash n (h : list (lua * (pystr * list token))) rest :
  Forall (fun e => key_ok (fst e) /\ reads (fst (snd e)) (snd (snd e))) h ->
  _tokens (flat_map (hash_line (tabs n)) (map (fun e => (fst e, fst (snd e))) h) ++ rest)
  = flat_map entry_toks (map (fun e => (fst e, snd (snd e))) h) ++ _tokens rest.
Proof.
  induction 1 as [|[k [x ts]] h [Hk Hx] _ IH]; [done|]. cbn [map flat_map fst snd] in *.
  rewrite <- (app_assoc (hash_line _ _)), hash_line_eq, tokens_spaces by apply tabs_space.
  rewrite tokens_punct by done. rewrite (reads_key k Hk 93) by (right; by left). cbn [app].
  rewrite tokens_punct, tokens_space, tokens_punct, tokens_space by done.
  rewrite (Hx 44) by (by left). rewrite tokens_punct, tokens_space, IH by done.
  unfold entry_toks at 2. cbn [fst snd app]. by rewrite <- !app_assoc.
Qed.

Lemma reads_write v : lua_ok v -> forall depth, reads (_write v depth) (toks v).
Proof.
  induction v as [|b|n|x|s|s|a h IHa IHh] using lua_tree_ind; intros Hok depth.
  1: { intros c t Hc. apply tokens_name; [by split; [|repeat constructor]|by apply name_stops]. }
  1-4: apply lua_ok_scalar in Hok as Hk; apply (reads_key _ Hk).
  1: by apply lua_ok_scalar in Hok; inversion Hok.
  intros c t Hc. destruct (lua_ok_table _ _ Hok) as (Hoa & Hoh & _).
  destruct (decide (a = [] /\ h = [])) as [[-> ->]|Hne].
  { cbn [_write toks map flat_map app]. rewrite tokens_punct, tokens_space by done.
    rewrite <- app_assoc, tokens_spaces by apply tabs_space. cbn [app]. by rewrite tokens_punct. }
  rewrite write_table by (destruct a, h; naive_solver). rewrite <- !app_assoc. cbn [app].
  rewrite tokens_punct, tokens_space by done.
  rewrite (reads_array _ _ _ (map toks a)).
  2: { apply Forall2_fmap, Forall_Forall2_diag. rewrite Forall_forall in *. intros x Hx.
       apply (IHa x Hx). by apply Hoa. }
  pose proof (reads_hash (S depth) (map (fun kv => (fst kv, (_write (snd kv) (S depth), toks (snd kv))))
    (py_sort entry_leb h)) (tabs depth ++ 125 :: c :: t)) as Hh.
  rewrite !map_map in Hh. cbn [fst snd] in Hh. rewrite Hh.
  2: { apply Forall_map. cbn [fst snd]. rewrite Forall_forall in *. intros kv Hkv.
       rewrite py_sort_elem in Hkv. destruct (Hoh kv Hkv). split; [done|]. by apply (proj2 (IHh kv Hkv)). }
  rewrite tokens_spaces by apply tabs_space. rewrite tokens_punct by done.
  cbn [toks app]. rewrite (sort_map_value toks h). by rewrite <- !app_assoc.
Qed.

Lemma reads_dumps g rest :
  Forall (fun gv => is_name (fst gv) /\ lua_ok (snd gv)) g ->
  _tokens (flat_map (fun gv => fst gv ++ lit " = " ++ _write (snd gv) 0 ++ [10]) g ++ rest)
  = flat_map (fun gv => TName (fst gv) :: TPunct 61 :: toks (snd gv)) g ++ _tokens rest.
Proof.
  induction 1 as [|[n v] g [Hn Hv] _ IH]; [done|]. cbn [flat_map fst snd] in *. rewrite <- !app_assoc.
  change (n ++ lit " = " ++ ?l) with (n ++ 32 :: 61 :: 32 :: l).
  rewrite tokens_name, tokens_space, tokens_punct, tokens_space by done.
  cbn [app]. rewrite (reads_write v Hv 0 10) by (right; by right).
  rewrite tokens_space, IH by done. done.
Qed.

(** ** Reading the tokens back *)

Lemma next_ok t ts : TBad ∉ t :: ts -> _next (t :: ts) = Ok (t, ts).
Proof. intros Hb. destruct ts as [|u [|[] ts]]; try done. exfalso. apply Hb. do 2 right. by left. Qed.

Lemma expect_punct_ok c ts : TBad ∉ ts -> expect_punct c (TPunct c :: ts) = Ok ts.
Proof.
  intros Hb. unfold expect_punct. rewrite next_ok by (by apply not_elem_of_cons). cbn. by rewrite Z.eqb_refl.
Qed.

Lemma skip_sep_ok ts : TBad ∉ ts -> skip_sep (TPunct 44 :: ts) = Ok ts.
Proof.
  intros Hb. transitivity ('(_, ts) ← _next (TPunct 44 :: ts); Ok ts); [reflexivity|].
  by rewrite next_ok by (by apply not_elem_of_cons).
Qed.

Lemma scalar_key k : key_ok k -> scalar_value (key_tok k) = Ok k.
Proof.
  intros [b|n|x [Hx E]|s Hs]; cbn [key_tok scalar_value key_str].
  - by destruct b.
  - apply num_value_int.
  - by apply num_value_float.
  - by rewrite unescape_quote.
Qed.

Lemma value_scalar fuel k ts :
  key_ok k -> TBad ∉ ts -> value (S fuel) (key_tok k :: ts) = Ok (k, ts).
Proof.
  intros Hk Hb. cbn [value].
  assert (is_punct_tok 123 (cur (key_tok k :: ts)) = false) as -> by (by destruct Hk).
  rewrite next_ok by (apply not_elem_of_cons; split; [by destruct Hk|done]).
  cbn [mbind res_bind]. by rewrite scalar_key.
Qed.

(** The first token of a value is no bracket, and a name stands alone. *)
Lemma toks_head v :
  lua_ok v -> exists t u, toks v = t :: u /\ is_punct_tok 125 t = false /\ is_punct_tok 91 t = false
    /\ match t with TName _ => u = [] | _ => True end.
Proof.
  intros Hv. destruct v as [|b|n|x|s|s|a h].
  6: by apply lua_ok_scalar in Hv; inversion Hv.
  all: eexists _, _; split; [reflexivity|]; done.
Qed.

Lemma toks_clean v : lua_ok v -> TBad ∉ toks v.
Proof.
  induction v as [|b|n|x|s|s|a h IHa IHh] using lua_tree_ind; intros Hok.
  1-5: cbn [toks key_tok]; intros ?%list_elem_of_singleton; congruence.
  1: by apply lua_ok_scalar in Hok; inversion Hok.
  destruct (lua_ok_table _ _ Hok) as (Ha & Hh & _). cbn [toks]. rewrite (sort_map_value toks h).
  rewrite elem_of_cons, !elem_of_app, !list_elem_of_In, !in_flat_map.
  intros [?|[(ts & Hts & Hin)|[(e & He & Hin)|[?|?]]]]; try done.
  - apply list_elem_of_In, list_elem_of_fmap in Hts as (x & -> & Hx).
    apply list_elem_of_In, elem_of_app in Hin as [Hin|Hin%list_elem_of_singleton]; [|done].
    rewrite Forall_forall in IHa, Ha. by apply (IHa x Hx (Ha x Hx)).
  - apply list_elem_of_In, list_elem_of_fmap in He as (kv & -> & Hkv%py_sort_elem).
    rewrite Forall_forall in IHh, Hh. destruct (Hh kv Hkv) as [Hk Hv]. unfold entry_toks in Hin. cbn [fst snd] in Hin.
    apply list_elem_of_In, elem_of_app in Hin as [Hin|[Hin|Hin%list_elem_of_singleton]%elem_of_app]; [| |done].
    + rewrite !elem_of_cons in Hin. destruct_or! Hin; try done; [by destruct Hk | by apply elem_of_nil in Hin].
    + by apply (proj2 (IHh kv Hkv) Hv).
Qed.

(** A value is read back from its tokens. *)
Definition parses (v : lua) : Prop :=
  forall fuel ts, (2 * length (toks v) < fuel)%nat -> TBad ∉ ts ->
    value fuel (toks v ++ ts) = Ok (norm v, ts).

Lemma table_array items fuel array hash ts :
  Forall (fun v => lua_ok v /\ parses v) items -> TBad ∉ ts ->
  (2 * length (flat_map (fun ts => ts ++ [TPunct 44]) (map toks items)) <= fuel)%nat ->
  table fuel array hash (flat_map (fun ts => ts ++ [TPunct 44]) (map toks items) ++ ts)
  = table (fuel - length items) (array ++ map norm items) hash ts.
Proof.
  intros Hi Hb. revert fuel array. induction Hi as [|v items [Hv Hp] Hi IH]; intros fuel array Hf.
  { cbn. by rewrite app_nil_r, Nat.sub_0_r. }
  cbn [map flat_map] in *. rewrite !length_app in Hf. cbn [length] in Hf.
  destruct fuel as [|fuel]; [lia|]. rewrite <- !app_assoc. cbn [app].
  set (rest := flat_map (fun ts => ts ++ [TPunct 44]) (map toks items) ++ ts) in *.
  assert (TBad ∉ rest) as Hrest.
  { unfold rest. intros [Hin|?]%elem_of_app; [|done].
    apply list_elem_of_In, in_flat_map in Hin as (l & Hl & Hin).
    apply list_elem_of_In, list_elem_of_fmap in Hl as (x & -> & Hx).
    apply list_elem_of_In, elem_of_app in Hin as [Hin|Hin%list_elem_of_singleton]; [|done].
    rewrite Forall_forall in Hi. by apply (toks_clean x (proj1 (Hi x Hx))). }
  assert (TBad ∉ TPunct 44 :: rest) as Hrest' by (by apply not_elem_of_cons).
  destruct (toks_head v Hv) as (t & u & E & H1 & H2 & Hn).
  cbn [table]. rewrite E. cbn [app cur]. rewrite H1, H2.
  assert (_peek_is_assign (t :: u ++ TPunct 44 :: rest) = false \/ forall k, t <> TName k) as Hpk.
  { destruct t; [by right..| | |by right]; [by left; subst u|by right]. }
  change (t :: u ++ TPunct 44 :: rest) with ((t :: u) ++ TPunct 44 :: rest) in *. rewrite <- E in *.
  assert (forall X : res (lua * list token), forall Y : pystr -> res (lua * list token),
    match t with TName k => if _peek_is_assign (toks v ++ TPunct 44 :: rest) then Y k else X | _ => X end = X) as Hm.
  { intros X Y. destruct t; try done. destruct Hpk as [->|Hk]; [done|]. by destruct (Hk text). }
  etransitivity; [apply (Hm (_ ← value fuel _; _) (fun k => _))|].
  rewrite Hp by (done || lia). cbn [mbind res_bind]. rewrite skip_sep_ok by done. cbn [mbind res_bind].
  rewrite IH by lia. rewrite <- app_assoc. done.
Qed.

Definition tree_entry (kv : lua * lua) : lua * list token := (fst kv, toks (snd kv)).
Definition norm_entry (kv : lua * lua) : lua * lua := (fst kv, norm (snd kv)).

Lemma entry_clean es :
  Forall (fun kv => key_ok (fst kv) /\ lua_ok (snd kv)) es -> TBad ∉ flat_map entry_toks (map tree_entry es).
Proof.
  intros He Hin. apply list_elem_of_In, in_flat_map in Hin as (e & Hin & Ht).
  apply list_elem_of_In, list_elem_of_fmap in Hin as (kv & -> & Hkv).
  rewrite Forall_forall in He. destruct (He kv Hkv) as [Hk Hv]. apply list_elem_of_In in Ht.
  unfold entry_toks, tree_entry in Ht. cbn [fst snd] in Ht.
  apply elem_of_app in Ht as [Ht|[Ht|Ht%list_elem_of_singleton]%elem_of_app]; [| |done].
  - rewrite !elem_of_cons in Ht. destruct_or! Ht; try done; [by destruct Hk | by apply elem_of_nil in Ht].
  - by apply (toks_clean _ Hv).
Qed.

Lemma table_hash es fuel array hash ts :
  Forall (fun kv => (key_ok (fst kv) /\ lua_ok (snd kv)) /\ parses (snd kv)) es -> TBad ∉ ts ->
  Forall (fun e => Forall (fun kv => key_eqb (fst kv) (fst e) = false) hash) es -> keys_distinct es ->
  (2 * length (flat_map entry_toks (map tree_entry es)) <= fuel)%nat ->
  table fuel array hash (flat_map entry_toks (map tree_entry es) ++ ts)
  = table (fuel - length es) array (hash ++ map norm_entry es) ts.
Proof.
  intros He Hb. revert fuel hash. induction He as [|[k v] es [[Hk Hv] Hp] He IH]; intros fuel hash Hn Hd Hf.
  { cbn. by rewrite app_nil_r, Nat.sub_0_r. }
  cbn [map flat_map] in *. rewrite length_app in Hf.
  assert (length (entry_toks (tree_entry (k, v))) = 5 + length (toks v))%nat as Hlen.
  { unfold entry_toks, tree_entry. cbn [fst snd]. rewrite !length_app. cbn. lia. }
  rewrite Hlen in Hf. unfold entry_toks at 1. cbn [tree_entry fst snd app length] in *.
  destruct fuel as [|fuel]; [lia|]. rewrite <- !app_assoc. cbn [app].
  set (rest := flat_map entry_toks (map tree_entry es) ++ ts) in *.
  assert (TBad ∉ rest) as Hr.
  { unfold rest. intros [Hin|?]%elem_of_app; [|done]. revert Hin. apply entry_clean.
    eapply Forall_impl; [exact He|]. by intros ? []. }
  assert (TBad ∉ TPunct 44 :: rest) as H44 by (by apply not_elem_of_cons).
  assert (TBad ∉ toks v ++ TPunct 44 :: rest) as Hvr.
  { intros [Hin|?]%elem_of_app; [|done]. by apply (toks_clean v Hv). }
  assert (TBad ∉ TPunct 61 :: toks v ++ TPunct 44 :: rest) as H61 by (by apply not_elem_of_cons).
  assert (TBad ∉ TPunct 93 :: TPunct 61 :: toks v ++ TPunct 44 :: rest) as H93 by (by apply not_elem_of_cons).
  assert (TBad ∉ key_tok k :: TPunct 93 :: TPunct 61 :: toks v ++ TPunct 44 :: rest) as Hkt
    by (apply not_elem_of_cons; split; [by destruct Hk|done]).
  cbn [table cur is_punct_tok]. change (125 =? 91) with false. change (91 =? 91) with true. cbn iota.
  rewrite next_ok by (by apply not_elem_of_cons). cbn [mbind res_bind].
  destruct fuel as [|fuel]; [lia|]. rewrite value_scalar by done. cbn [mbind res_bind].
  rewrite !expect_punct_ok by done. cbn [mbind res_bind]. rewrite expect_punct_ok by done. cbn [mbind res_bind].
  rewrite Hp by (done || lia). cbn [mbind res_bind]. rewrite skip_sep_ok by done. cbn [mbind res_bind].
  inversion_clear Hn as [|? ? Hnk Hn']. inversion_clear Hd as [|? ? Hdk Hd'].
  rewrite hset_new by done. rewrite IH; [| |done|lia].
  - cbn [length Nat.sub map norm_entry fst snd]. by rewrite <- app_assoc.
  - rewrite Forall_forall in *. intros e Hin. apply Forall_app. split; [by apply Hn'|].
    constructor; [|done]. apply (Hdk e Hin).
Qed.

Lemma parses_ok v : lua_ok v -> parses v.
Proof.
  induction v as [|b|n|x|s|s|a h IHa IHh] using lua_tree_ind; intros Hok fuel ts Hf Hb.
  1: { destruct fuel as [|fuel]; [lia|]. cbn [toks app value cur is_punct_tok].
       rewrite next_ok by (by apply not_elem_of_cons). done. }
  1-4: apply lua_ok_scalar in Hok as Hk; destruct fuel as [|fuel]; [cbn in Hf; lia|];
       apply (value_scalar fuel _ ts Hk Hb).
  1: by apply lua_ok_scalar in Hok; inversion Hok.
  destruct (lua_ok_table _ _ Hok) as (Hoa & Hoh & Hd). revert Hf. cbn [toks norm].
  rewrite (sort_map_value toks h), (sort_map_value norm h). change (map (fun kv => (fst kv, toks (snd kv)))) with (map tree_entry).
  change (map (fun kv => (fst kv, norm (snd kv)))) with (map norm_entry).
  set (es := py_sort entry_leb h). cbn [length]. rewrite !length_app. cbn [length]. intros Hf.
  assert (Forall (fun kv => (key_ok (fst kv) /\ lua_ok (snd kv)) /\ parses (snd kv)) es) as Hes.
  { rewrite Forall_forall in *. intros kv Hkv%py_sort_elem. split; [by apply Hoh|]. by apply IHh, Hoh. }
  assert (keys_distinct es) as Hde by (by eapply keys_distinct_perm; [symmetry; apply py_sort_perm|]).
  assert (TBad ∉ TPunct 125 :: ts) as H125 by (by apply not_elem_of_cons).
  set (rest := flat_map entry_toks (map tree_entry es) ++ [TPunct 125] ++ ts).
  assert (TBad ∉ rest) as Hrest.
  { unfold rest. intros [Hin|?]%elem_of_app; [|done]. revert Hin. apply entry_clean.
    eapply Forall_impl; [exact Hes|]. by intros ? []. }
  set (arr := flat_map (fun ts => ts ++ [TPunct 44]) (map toks a)) in *.
  assert (TBad ∉ TPunct 123 :: arr ++ rest) as Hall.
  { pose proof (toks_clean _ Hok) as Hc. cbn [toks] in Hc. rewrite (sort_map_value toks h) in Hc.
    apply not_elem_of_cons. split; [done|]. intros [Hin|?]%elem_of_app; [|done]. apply Hc.
    right. apply elem_of_app. by left. }
  destruct fuel as [|fuel]; [lia|]. cbn [app]. rewrite <- !app_assoc. fold rest.
  cbn [value cur is_punct_tok]. change (123 =? 123) with true. cbn iota.
  rewrite expect_punct_ok by (by apply not_elem_of_cons in Hall as [_ Hall]). cbn [mbind res_bind].
  unfold arr, rest. rewrite table_array; [| |done|].
  2: { rewrite Forall_forall in *. intros x Hx. split; [by apply Hoa|]. by apply IHa, Hoa. }
  2: { fold arr. lia. }
  assert (length a <= length arr)%nat as Hla.
  { unfold arr. clear. induction a as [|x a IH]; [done|]. cbn [map flat_map length]. rewrite !length_app. cbn. lia. }
  assert (length es <= length (flat_map entry_toks (map tree_entry es)))%nat as Hle.
  { clear. induction es as [|x es IH]; [done|]. cbn [map flat_map length]. rewrite length_app.
    unfold entry_toks at 1. cbn. lia. }
  rewrite table_hash; [| exact Hes | exact H125 | by apply Forall_true | exact Hde | lia].
  cbn [app]. destruct (fuel - length a - length es)%nat as [|f] eqn:Ef; [lia|].
  cbn [table cur is_punct_tok]. change (125 =? 125) with true. cbn iota. by rewrite next_ok.
Qed.

(** ** A whole file *)

Definition global_toks (gv : pystr * lua) : list token := TName (fst gv) :: TPunct 61 :: toks (snd gv).
Definition norm_global (gv : pystr * lua) : pystr * lua := (fst gv, norm (snd gv)).

(** The globals as they come back. *)
Definition norm_globals (g : list (pystr * lua)) : list (pystr * lua) := map norm_global (py_sort name_leb g).

Definition global_ok (gv : pystr * lua) : Prop := is_name (fst gv) /\ lua_ok (snd gv).

Lemma globals_clean g : Forall global_ok g -> TBad ∉ flat_map global_toks g ++ [TEof].
Proof.
  intros Hg [Hin|Hin%list_elem_of_singleton]%elem_of_app; [|done].
  apply list_elem_of_In, in_flat_map in Hin as (gv & Hgv & Hin). apply list_elem_of_In in Hgv, Hin.
  rewrite Forall_forall in Hg. destruct (Hg gv Hgv) as [_ Hv].
  unfold global_toks in Hin. rewrite !elem_of_cons in Hin. destruct_or! Hin; try done. by apply (toks_clean _ Hv).
Qed.

Lemma loads_globals g fuel out :
  Forall global_ok g -> dict_ok (out ++ g) -> (length g < fuel)%nat ->
  loads_go fuel out (flat_map global_toks g ++ [TEof]) = Ok (out ++ map norm_global g).
Proof.
  intros Hg. revert fuel out. induction Hg as [|[n v] g [Hn Hv] Hg IH]; intros fuel out Hd Hf.
  { destruct fuel; [lia|]. cbn. by rewrite app_nil_r. }
  destruct fuel as [|fuel]; [cbn in Hf; lia|]. cbn [flat_map]. rewrite <- app_assoc.
  pose proof (globals_clean g Hg) as Hr. set (rest := flat_map global_toks g ++ [TEof]) in *.
  unfold global_toks at 1. cbn [fst snd app]. cbn [fst snd] in Hv.
  assert (TBad ∉ toks v ++ rest) as Hvr.
  { intros [Hin|?]%elem_of_app; [|done]. by apply (toks_clean v Hv). }
  assert (TBad ∉ TPunct 61 :: toks v ++ rest) as H61 by (by apply not_elem_of_cons).
  cbn [loads_go cur is_punct_tok]. unfold expect_name. rewrite next_ok by (by apply not_elem_of_cons).
  cbn [mbind res_bind]. rewrite expect_punct_ok by done. cbn [mbind res_bind].
  rewrite (parses_ok v Hv) by (done || (rewrite length_app; lia)). cbn [mbind res_bind].
  assert (dset n (norm v) out = out ++ [(n, norm v)]) as ->.
  { apply dset_fresh. unfold dict_ok, dkeys in Hd. rewrite map_app in Hd. cbn [map fst] in Hd.
    apply NoDup_app in Hd as (_ & Hd & _). intros Hin. apply (Hd n Hin). by left. }
  rewrite IH; [by rewrite <- app_assoc | | cbn in Hf; lia].
  unfold dict_ok, dkeys in *. rewrite !map_app in *. cbn [map fst] in *. by rewrite <- app_assoc.
Qed.

Lemma sort_id {A} (leb : A -> A -> bool) l : Sorted (fun a b => leb a b = true) l -> py_sort leb l = l.
Proof.
  induction 1 as [|x l Hl IH Hx]; [done|]. change (py_sort leb (x :: l)) with (py_insert leb x (py_sort leb l)).
  rewrite IH. destruct Hx as [|y l Hx]; [done|]. cbn. by rewrite Hx.
Qed.

(** Sorting needs no more than that any two elements compare one way. *)
Lemma py_sort_Sorted {A} (leb : A -> A -> bool) l :
  (forall x y, leb x y = false -> leb y x = true) -> Sorted (fun a b => leb a b = true) (py_sort leb l).
Proof.
  intros Ht. assert (forall x l, Sorted (fun a b => leb a b = true) l ->
    Sorted (fun a b => leb a b = true) (py_insert leb x l)) as Hi.
  { clear l. intros x l. induction 1 as [|y l Hl IH Hy]; cbn; [by repeat constructor|].
    destruct (leb x y) eqn:E; [by repeat constructor|]. constructor; [done|].
    destruct Hy as [|z l Hz]; cbn; [constructor; auto|]. destruct (leb x z); constructor; auto. }
  induction l as [|x l IH]; [constructor|]. by apply Hi.
Qed.

Lemma sort_twice {A} (leb : A -> A -> bool) l :
  (forall x y, leb x y = false -> leb y x = true) -> py_sort leb (py_sort leb l) = py_sort leb l.
Proof. intros Ht. by apply sort_id, py_sort_Sorted. Qed.

Lemma num_ltb_asym a b : num_ltb a b = true -> num_ltb b a = false.
Proof.
  destruct a as [|m1 e1| |], b as [|m2 e2| |]; try done. cbn.
  rewrite (fin_compare_antisym m1 e1). by destruct (fin_compare m1 e1 m2 e2).
Qed.

Lemma entry_leb_total {A} (x y : lua * A) : entry_leb x y = false -> entry_leb y x = true.
Proof.
  unfold entry_leb, lua_key_leb. destruct (is_number_key _), (is_number_key _); try done.
  - intros Hx%negb_false_iff. by rewrite num_ltb_asym.
  - apply str_leb_total.
Qed.

Lemma name_leb_total {A} (x y : pystr * A) : name_leb x y = false -> name_leb y x = true.
Proof. apply str_leb_total. Qed.

(** Ordering a tree does not change its text. *)
Lemma write_norm v depth : _write (norm v) depth = _write v depth.
Proof.
  revert depth. induction v as [|b|n|x|s|s|a h IHa IHh] using lua_tree_ind; intros depth; try done.
  assert (map (fun kv => (fst kv, _write (norm (snd kv)) (S depth))) (py_sort entry_leb h)
    = map (fun kv => (fst kv, _write (snd kv) (S depth))) (py_sort entry_leb h)) as Eh.
  { apply map_ext_Forall. rewrite Forall_forall in *. intros kv Hkv%py_sort_elem. f_equal. by apply IHh. }
  assert (map (fun x => _write (norm x) (S depth)) a = map (fun x => _write x (S depth)) a) as Ea.
  { apply map_ext_Forall. rewrite Forall_forall in *. intros x Hx. by apply IHa. }
  destruct (decide (a = [] /\ h = [])) as [[-> ->]|Hne]; [done|].
  assert (a <> [] \/ h <> []) as Hne' by (destruct a, h; naive_solver).
  rewrite (write_table a h) by done. cbn [norm]. rewrite write_table.
  2: { destruct Hne' as [Ha|Hh]; [left; by destruct a|right]. intros E.
       pose proof (py_sort_perm entry_leb (map (fun kv => (fst kv, norm (snd kv))) h)) as Hp.
       rewrite E in Hp. apply Permutation_nil_l in Hp. by destruct h. }
  rewrite map_map, Ea, sort_twice by apply entry_leb_total.
  rewrite (sort_map_value norm h), map_map. cbn [fst snd]. by rewrite Eh.
Qed.

Lemma dumps_norm g : dumps (norm_globals g) = dumps g.
Proof.
  unfold dumps, norm_globals.
  assert (py_sort name_leb (map norm_global (py_sort name_leb g)) = map norm_global (py_sort name_leb g)) as ->.
  { apply sort_id. pose proof (py_sort_Sorted name_leb g name_leb_total) as Hs.
    induction Hs as [|x l Hl IH Hx]; [constructor|]. cbn [map]. constructor; [done|].
    by destruct Hx; constructor. }
  induction (py_sort name_leb g) as [|gv l IH]; [done|]. cbn [map flat_map norm_global fst snd].
  by rewrite write_norm, IH.
Qed.

(** A written file parses back. *)
Lemma loads_dumps g :
  Forall global_ok g -> dict_ok g ->
  loads (dumps g) = Ok (norm_globals g).
Proof.
  intros Hg Hd.
  assert (Forall global_ok (py_sort name_leb g)) as Hs by (by rewrite py_sort_perm).
  assert (dict_ok (py_sort name_leb g)) as Hds by (unfold dict_ok, dkeys; by rewrite py_sort_perm).
  unfold loads, dumps. set (l := py_sort name_leb g) in *.
  pose proof (reads_dumps l [] Hs) as E. rewrite app_nil_r in E. rewrite E.
  change (_tokens []) with [TEof].
  change (flat_map (fun gv => TName (fst gv) :: TPunct 61 :: toks (snd gv)) l) with (flat_map global_toks l).
  pose proof (globals_clean l Hs) as Hc.
  rewrite (loads_globals l _ [] Hs Hds).
  2: { rewrite length_app. clear. induction l as [|gv l IH]; [cbn; lia|].
       cbn [flat_map length]. rewrite length_app. unfold global_toks at 1. cbn [length] in *. lia. }
  destruct (flat_map global_toks l ++ [TEof]) as [|t [|u r]]; [done| |].
  - destruct t; try done. exfalso. apply Hc. by left.
  - destruct t, u; try done; exfalso; apply Hc; (by left) || (right; by left).
Qed.
End Tree.

(** ** A file with every kind of value *)

Definition sample_globals : list (pystr * lua) :=
  [(lit "DB", VTable [VInt (-5); VBool true; VNone; VStr [97; 34; 92; 10; 13; 7; 0x20AC]]
      [(VStr (lit "k"), VTable [] []); (VInt 10, VFloat (f64_dec 1 20)); (VFloat (f64_dec 5 (-1)), VInt 1)]);
   (lit "A_1", VStr [])].

Lemma sample_globals_ok : Forall (@global_ok latin_unicode) sample_globals.
Proof.
  assert (forall s, Forall (fun c => 0 <= c < 0xD800) s -> text_ok s) as Ht.
  { intros s Hs. eapply Forall_impl; [exact Hs|]. cbn beta. intros c Hc. split; [unfold is_char; lia|].
    unfold is_surrogate. by rewrite (proj2 (Z.leb_gt _ _)) by lia. }
  assert (forall s, Forall (fun c => 0 <= c < 0xD800) s -> @lua_ok latin_unicode (VStr s)) as Hs
    by (intros; by apply ok_key, kok_str, Ht).
  repeat (constructor; [split; [by split; [|repeat constructor]|]|]); [| |constructor].
  - apply ok_table.
    + constructor; [apply ok_key, kok_int|]. constructor; [apply ok_key, kok_bool|].
      constructor; [apply ok_none|]. constructor; [|constructor].
      apply Hs. repeat (constructor; [cbn; lia|]). constructor.
    + repeat (constructor; [split|]).
      * apply kok_str, Ht. repeat (constructor; [cbn; lia|]). constructor.
      * apply ok_table; constructor.
      * apply kok_int.
      * apply ok_key, kok_float. split; [exact I | vm_compute; reflexivity].
      * apply kok_float. split; [exact I | vm_compute; reflexivity].
      * apply ok_key, kok_int.
      * constructor.
    + unfold keys_distinct. repeat constructor.
  - apply Hs. constructor.
Qed.

