(* ===== verification/LuaTotal.v ===== *)
(** * The parser ends, and the text depends on the data only (luaser.py)

    Every text is parsed to the end or refused with one of three exceptions.
    The text of a tree does not depend on the order in which its entries were
    stored, as long as no key is a boolean.  A redaction placeholder is the
    exception to the stable round trip: it grows with every rewrite. *)
From stdpp Require Import sorting.
From S2P Require Import Prelude Wire PyFloat Text Format Lua LuaParse LuaLex LuaSpec.
From Stdlib Require Import SpecFloat.

(** ** Termination *)

(** What [loads] can raise: its own error, and two other kinds of ValueError. *)
Definition parse_error (e : exn) : Prop := e = LuaError \/ e = ValueError \/ e = EncodeError.

Definition ends {A} (P : A -> Prop) (r : res A) : Prop :=
  match r with Ok a => P a | Err e => parse_error e end.

Lemma ends_bind {A B} (P : A -> Prop) (Q : B -> Prop) (r : res A) (f : A -> res B) :
  ends P r -> (forall a, P a -> ends Q (f a)) -> ends Q (a ← r; f a).
Proof. destruct r; cbn; auto. Qed.

Section Total.
Context `{Unicode}.

Lemma int_of_str_ends s : ends (fun _ => True) (int_of_str s).
Proof. unfold int_of_str. repeat case_match; cbn; auto; right; by left. Qed.

Lemma float_of_str_ends s : ends (fun _ => True) (float_of_str s).
Proof.
  unfold float_of_str. repeat case_match; cbn; auto; right; by left.
Qed.

Lemma utf8_encode_ends s : ends (fun _ => True) (utf8_encode s).
Proof. unfold utf8_encode. destruct (existsb _ s); cbn; auto. right. by right. Qed.

Lemma unescape_go_ends n s : (length s <= n)%nat -> ends (fun _ => True) (unescape_go n s).
Proof.
  revert s. induction n as [|n IH]; intros [|c t] Hn; cbn in Hn; try (done || lia). cbn [unescape_go].
  assert (forall (a : bytes) u, (length u <= n)%nat -> ends (fun _ => True) (out ← unescape_go n u; Ok (a ++ out))) as Hr.
  { intros a u Hu. eapply ends_bind; [by apply IH|]. done. }
  destruct (negb (c =? 92)).
  { eapply ends_bind; [apply utf8_encode_ends|]. intros b _. apply Hr. lia. }
  destruct t as [|e u]; [done|]. cbn in Hn. destruct (uni_isdigit e).
  { eapply ends_bind; [apply int_of_str_ends|]. intros v _. destruct (v >? 255); [by left|].
    apply (Hr [v]). rewrite length_drop. cbn. lia. }
  destruct (e =? 120).
  { destruct u as [|h1 [|h2 u]]; [by left..|]. cbn in Hn. destruct (is_hex h1 && is_hex h2); [|by left].
    apply (Hr [_]). lia. }
  eapply ends_bind; [apply utf8_encode_ends|]. intros b _. apply Hr. lia.
Qed.

Lemma unescape_ends raw : ends (fun _ => True) (_unescape raw).
Proof.
  unfold _unescape. eapply ends_bind; [by apply unescape_go_ends|]. intros out _.
  destruct (utf8_decode_strict out); [done | by left].
Qed.

Lemma scalar_ends t : ends (fun _ => True) (scalar_value t).
Proof.
  destruct t; cbn [scalar_value]; try by left.
  - eapply ends_bind; [apply unescape_ends|]. done.
  - unfold num_value. destruct (is_hex_text text); [done|]. destruct (is_float_text text).
    + eapply ends_bind; [apply float_of_str_ends|]. done.
    + eapply ends_bind; [apply int_of_str_ends|]. done.
  - unfold name_value. repeat (destruct (bool_decide _); [done|]). by left.
Qed.

(** What a step leaves of the stream. *)
Lemma next_ends ts :
  ends (fun r => length (snd r) = pred (length ts) /\ (ts = [] -> fst r = TEof)) (_next ts).
Proof.
  destruct ts as [|t [|u [|[] ts]]]; cbn; try (split; [done|done]). by left.
Qed.

Lemma expect_punct_ends c ts : ends (fun ts' => S (length ts') = length ts) (expect_punct c ts).
Proof.
  unfold expect_punct. eapply ends_bind; [apply next_ends|]. intros [t ts'] [Hl He]. cbn [fst snd] in *.
  destruct (is_punct_tok c t) eqn:E; [|by left]. cbn. destruct ts; [|cbn in *; lia].
  by rewrite He in E.
Qed.

Lemma skip_sep_ends ts : ends (fun ts' => length ts' <= length ts)%nat (skip_sep ts).
Proof.
  unfold skip_sep. destruct (_ || _); [|cbn; lia].
  eapply ends_bind; [apply next_ends|]. intros [t ts'] [Hl _]. cbn in *. lia.
Qed.

Lemma value_ends fuel :
  (forall ts, (2 * length ts < fuel)%nat -> ends (fun r => length (snd r) < length ts)%nat (value fuel ts))
  /\ (forall array hash ts, (2 * length ts + 1 < fuel)%nat ->
        ends (fun r => length (snd r) < length ts)%nat (table fuel array hash ts)).
Proof.
  induction fuel as [|fuel [IHv IHt]]; [split; intros; lia|].
  assert (forall array hash ts n, (2 * length ts + 1 < fuel)%nat -> (length ts < n)%nat ->
    ends (fun r => length (snd r) < n)%nat (table fuel array hash ts)) as Ht.
  { intros array hash ts n Hf Hn. specialize (IHt array hash ts Hf).
    destruct (table fuel array hash ts) as [[v ts']|]; cbn in *; [lia|done]. }
  split.
  - intros ts Hf. cbn [value]. destruct (is_punct_tok 123 (cur ts)).
    + eapply ends_bind; [apply expect_punct_ends|]. intros ts' Hl. cbn beta in Hl. apply Ht; lia.
    + eapply ends_bind; [apply next_ends|]. intros [t ts'] [Hl He]. cbn [fst snd] in *.
      destruct ts as [|t0 ts]; [rewrite He by done; by left|].
      eapply ends_bind; [apply scalar_ends|]. intros v _. cbn in *. lia.
  - intros array hash ts Hf. cbn [table].
    assert (forall k ts1, (S (length ts1) <= length ts)%nat ->
      ends (fun r => length (snd r) < length ts)%nat
        ('(v, ts) ← value fuel ts1; ts ← skip_sep ts; table fuel array (hset k v hash) ts)) as Hentry.
    { intros k ts1 Hl. eapply ends_bind; [apply IHv; lia|]. intros [v ts2] H2. cbn [snd] in H2.
      eapply ends_bind; [apply skip_sep_ends|]. intros ts3 H3. cbn beta in H3. apply Ht; lia. }
    assert (ends (fun r => length (snd r) < length ts)%nat
        ('(v, ts) ← value fuel ts; ts ← skip_sep ts; table fuel (array ++ [v]) hash ts)) as Hitem.
    { eapply ends_bind; [apply IHv; lia|]. intros [v ts2] H2. cbn [snd] in H2.
      eapply ends_bind; [apply skip_sep_ends|]. intros ts3 H3. cbn beta in H3. apply Ht; lia. }
    destruct (is_punct_tok 125 (cur ts)) eqn:E125.
    { eapply ends_bind; [apply next_ends|]. intros [t ts1] [Hl _]. cbn in *. destruct ts; [done|]. cbn in *. lia. }
    destruct (is_punct_tok 91 (cur ts)) eqn:E91.
    { eapply ends_bind; [apply next_ends|]. intros [t ts1] [Hl _]. cbn [snd] in Hl.
      destruct ts as [|t0 ts]; [done|]. cbn [length] in *.
      eapply ends_bind; [apply IHv; cbn in Hl; lia|]. intros [k ts2] H2. cbn [snd] in H2.
      eapply ends_bind; [apply expect_punct_ends|]. intros ts3 H3.
      eapply ends_bind; [apply expect_punct_ends|]. intros ts4 H4. cbn beta in *. apply Hentry. lia. }
    destruct (cur ts) as [| | |k| |] eqn:Ec; try exact Hitem. destruct (_peek_is_assign ts); [|exact Hitem].
    eapply ends_bind; [apply next_ends|]. intros [t ts1] [Hl _]. cbn [snd] in Hl.
    destruct ts as [|t0 ts]; [done|]. cbn [length] in *.
    eapply ends_bind; [apply expect_punct_ends|]. intros ts3 H3. cbn beta in *. apply Hentry. lia.
Qed.

Lemma loads_go_ends fuel out ts : (length ts <= fuel)%nat -> ends (fun _ => True) (loads_go fuel out ts).
Proof.
  revert out ts. induction fuel as [|fuel IH]; intros out ts Hf; [by destruct ts; [|cbn in Hf; lia]|].
  cbn [loads_go]. destruct (cur ts) eqn:Ec; [done|..].
  all: destruct ts as [|t0 ts]; [done|]; cbn [length] in Hf.
  all: match goal with |- ends _ (if ?b then _ else _) => destruct b end.
  all: try (eapply ends_bind; [apply next_ends|]; intros [t ts1] [Hl _]; cbn in Hl; apply IH; cbn; lia).
  all: unfold expect_name; eapply (ends_bind (fun r => length (snd r) <= length ts)%nat);
    [eapply ends_bind; [apply next_ends|]; intros [t ts1] [Hl _]; cbn [snd length pred] in Hl;
     destruct t; try (by left); cbn; lia|].
  all: intros [name ts1] H1; cbn [snd] in H1.
  all: eapply ends_bind; [apply expect_punct_ends|]; intros ts2 H2; cbn beta in H2.
  all: eapply ends_bind; [apply (proj1 (value_ends _)); lia|]; intros [v ts3] H3; cbn [snd] in H3.
  all: apply IH; lia.
Qed.

End Total.

(** ** The order of the entries *)

(** Keys whose order is a real one: numbers and strings. *)
Definition plain_key (k : lua) : Prop :=
  match k with VInt _ | VStr _ => True | VFloat x => is_finite x | _ => False end.

Lemma fin_compare_scale m1 e1 m2 e2 e :
  e <= e1 -> e <= e2 -> (m1 * 2 ^ (e1 - e) ?= m2 * 2 ^ (e2 - e)) = fin_compare m1 e1 m2 e2.
Proof.
  intros H1 H2. unfold fin_compare. set (m := Z.min e1 e2).
  assert (forall x ex, m <= ex -> x * 2 ^ (ex - e) = x * 2 ^ (ex - m) * 2 ^ (m - e)) as Hs.
  { intros x ex Hx. rewrite <- Z.mul_assoc, <- Z.pow_add_r by lia. do 2 f_equal. lia. }
  rewrite (Hs m1 e1), (Hs m2 e2) by lia. symmetry. apply Zmult_compare_compat_r.
  pose proof (Z.pow_pos_nonneg 2 (m - e)). lia.
Qed.

Lemma plain_num k : plain_key k -> is_number_key k = true -> exists m e, num_of k = Fin m e.
Proof. destruct k as [| |n|[]| | |]; try done; cbn; eauto. Qed.

Lemma key_leb_trans a b c :
  plain_key a -> plain_key b -> plain_key c ->
  lua_key_leb a b = true -> lua_key_leb b c = true -> lua_key_leb a c = true.
Proof.
  intros Ha Hb Hc. unfold lua_key_leb.
  destruct (is_number_key a) eqn:Na, (is_number_key b) eqn:Nb, (is_number_key c) eqn:Nc; try done.
  - destruct (plain_num a Ha Na) as (ma & ea & ->), (plain_num b Hb Nb) as (mb & eb & ->),
      (plain_num c Hc Nc) as (mc & ec & ->). cbn [num_ltb].
    set (e := Z.min ea (Z.min eb ec)).
    rewrite <- (fin_compare_scale mb eb ma ea e), <- (fin_compare_scale mc ec mb eb e),
      <- (fin_compare_scale mc ec ma ea e) by lia.
    destruct (Z.compare_spec (mb * 2 ^ (eb - e)) (ma * 2 ^ (ea - e)));
    destruct (Z.compare_spec (mc * 2 ^ (ec - e)) (mb * 2 ^ (eb - e)));
    destruct (Z.compare_spec (mc * 2 ^ (ec - e)) (ma * 2 ^ (ea - e))); try done; lia.
  - apply str_leb_trans.
Qed.

Lemma key_leb_antisym a b :
  plain_key a -> plain_key b -> lua_key_leb a b = true -> lua_key_leb b a = true -> key_eqb a b = true.
Proof.
  intros Ha Hb. unfold lua_key_leb.
  destruct (is_number_key a) eqn:Na, (is_number_key b) eqn:Nb; try done.
  - destruct (plain_num a Ha Na) as (ma & ea & Ea), (plain_num b Hb Nb) as (mb & eb & Eb).
    assert (key_eqb a b = num_eqb (num_of a) (num_of b)) as -> by (by destruct a, b).
    rewrite Ea, Eb. cbn [num_ltb num_eqb]. rewrite (fin_compare_antisym ma ea mb eb).
    by destruct (fin_compare ma ea mb eb).
  - intros H1 H2. pose proof (str_leb_antisym _ _ H1 H2).
    destruct a, b; try done; cbn in *; by apply bool_decide_eq_true_2.
Qed.

Lemma keys_distinct_elem {A} (h : list (lua * A)) x y :
  keys_distinct h -> x ∈ h -> y ∈ h -> key_eqb (fst x) (fst y) = true -> x = y.
Proof.
  induction 1 as [|z h Hz _ IH]; [intros []%not_elem_of_nil|]. rewrite Forall_forall in Hz.
  intros [->|Hx]%elem_of_cons [->|Hy]%elem_of_cons E; [done| | |auto].
  - by rewrite (Hz y Hy) in E.
  - rewrite key_eqb_sym in E. by rewrite (Hz x Hx) in E.
Qed.

(** One dictionary has one order. *)
Lemma sort_unique {A} (h k : list (lua * A)) :
  h ≡ₚ k -> Forall (fun kv => plain_key (fst kv)) h -> keys_distinct h ->
  py_sort entry_leb h = py_sort entry_leb k.
Proof.
  intros Hp Hk Hd. apply (StronglySorted_unique_strong (fun a b => entry_leb a b = true)).
  - intros x y Hx%py_sort_elem Hy%py_sort_elem H1 H2. rewrite <- Hp in Hy. rewrite Forall_forall in Hk.
    eapply keys_distinct_elem; [exact Hd|done|done|]. apply key_leb_antisym; auto.
  - apply (py_sort_sorted_on _ (fun kv => plain_key (fst kv))); [apply entry_leb_total| |done].
    intros x y z. apply key_leb_trans.
  - apply (py_sort_sorted_on _ (fun kv => plain_key (fst kv))); [apply entry_leb_total| |by rewrite <- Hp].
    intros x y z. apply key_leb_trans.
  - by rewrite !py_sort_perm.
Qed.

(** The same data: the entries of any table may be stored in another order. *)
Inductive same_tree : lua -> lua -> Prop :=
  | same_value v : same_tree v v
  | same_table a a' h h1 h' :
      Forall2 same_tree a a' -> h ≡ₚ h1 ->
      Forall2 (fun x y => fst x = fst y /\ same_tree (snd x) (snd y)) h1 h' ->
      Forall (fun kv => plain_key (fst kv)) h -> keys_distinct h ->
      same_tree (VTable a h) (VTable a' h').

(** The text is a function of the data: two trees with the same values
    under the same keys are written the same, whatever order a merge stored
    their entries in, at every level. *)
Theorem write_order_independent v w depth : same_tree v w -> _write v depth = _write w depth.
Proof.
  revert w depth. induction v as [|b|n|x|s|s|a h IHa IHh] using lua_tree_ind; intros w depth Hs.
  1-6: by inversion Hs.
  inversion Hs as [|? a' ? h1 h' Ha Hp Hh Hk Hd]; subst; [done|].
  assert (map (fun x => _write x (S depth)) a = map (fun x => _write x (S depth)) a') as Ea.
  { clear - IHa Ha. induction Ha as [|x y a a' Hx _ IH]; [done|]. inversion_clear IHa. cbn. f_equal; auto. }
  assert (map (fun kv => (fst kv, _write (snd kv) (S depth))) h1
          = map (fun kv => (fst kv, _write (snd kv) (S depth))) h') as Eh.
  { assert (Forall (fun kv => forall w d, same_tree (snd kv) w -> _write (snd kv) d = _write w d) h1) as IH1.
    { rewrite <- Hp. eapply Forall_impl; [exact IHh|]. by intros kv []. }
    clear - IH1 Hh. induction Hh as [|x y h1 h' [Hf Hx] _ IH]; [done|]. inversion_clear IH1. cbn.
    rewrite Hf. f_equal; [f_equal; auto|auto]. }
  destruct (decide (a = [] /\ h = [])) as [[-> ->]|Hne].
  { apply Permutation_nil_l in Hp. subst h1. inversion Ha; subst. inversion Hh; subst. done. }
  rewrite !write_table.
  - rewrite Ea, (sort_unique h h1 Hp Hk Hd).
    by rewrite <- !(sort_map_value (fun x => _write x (S depth))), Eh.
  - destruct a' as [|y a']; [right|by left]. intros ->. inversion Ha; subst. inversion Hh; subst.
    symmetry in Hp. apply Permutation_nil_l in Hp. naive_solver.
  - destruct a, h; naive_solver.
Qed.

(** ** What does not come back *)

(** A placeholder is written between braces and read back as a table that
    holds it: every rewrite nests it one deeper, so the file never settles. *)
Lemma redacted_grows :
  let rewrite_file text := g ← @loads latin_unicode text; Ok (dumps g) in
  let once := lit "x = {" ++ [10; 9] ++ lit "{redacted}, -- [1]" ++ [10] ++ lit "}" ++ [10] in
  let twice := lit "x = {" ++ [10; 9] ++ lit "{" ++ [10; 9; 9] ++ lit "{redacted}, -- [1]" ++ [10; 9]
               ++ lit "}, -- [1]" ++ [10] ++ lit "}" ++ [10] in
  rewrite_file (lit "x = {redacted}") = Ok once /\ rewrite_file once = Ok twice.
Proof. vm_compute. split; reflexivity. Qed.

(** A boolean key and the string of the same name take the same place in the
    order, so the text of such a table does depend on the order of storing. *)
Lemma true_key_order :
  _write (VTable [] [(VBool true, VInt 1); (VStr (lit "True"), VInt 2)]) 0
  <> _write (VTable [] [(VStr (lit "True"), VInt 2); (VBool true, VInt 1)]) 0.
Proof. vm_compute. discriminate. Qed.

(** An infinity, which a long exponent parses to, is written as a word the
    parser refuses; so is a key that is nil. *)
Lemma not_reloadable :
  let rewrite_file text := g ← @loads latin_unicode text; @loads latin_unicode (dumps g) in
  rewrite_file (lit "x = 1e999") = Err LuaError /\ rewrite_file (lit "x = {[nil] = 1}") = Err LuaError.
Proof. vm_compute. split; reflexivity. Qed.

Lemma write_order_independent_witness :
  let v := VTable [] [(VStr (lit "b"), VInt 1); (VInt 3, VNone)] in
  let w := VTable [] [(VInt 3, VNone); (VStr (lit "b"), VInt 1)] in
  v <> w /\ _write v 0 = _write w 0.
Proof.
  cbv zeta. split; [discriminate|]. apply write_order_independent.
  eapply same_table; [constructor | apply Permutation_swap | | by repeat constructor | by repeat constructor].
  repeat (constructor; [split; [done|constructor]|]). constructor.
Defined.
