(* ===== verification/Modes.v ===== *)
(** * Realms and game modes (cache-consolidator/tools/modes.py)

    The name of the folder a cache came from says which realm and which game
    mode it was recorded on.  The patterns are read alternative by alternative;
    MODE_TABLE is state: a mode never seen before is added to it. *)
From S2P Require Import Prelude Text Format.

Definition UNKNOWN : pystr := lit "unknown".
Definition COA : pystr := lit "Conquest of Azeroth".
Definition VOLJIN : pystr := lit "Vol'jin".

(** group folder name -> (realm, mode). *)
Definition OVERRIDES : list (pystr * (pystr * pystr)) :=
  [(lit "CoA QA", (lit "CoA QA", COA));
   (lit "Voljin- Conquest of Azeroth", (VOLJIN, COA));
   (VOLJIN, (VOLJIN, UNKNOWN));
   (lit "enUS", ([], UNKNOWN));
   (lit "enUS (realm root)", ([], UNKNOWN));
   (lit "WDB", ([], UNKNOWN));
   (lit "(root)", ([], UNKNOWN));
   (lit "VolJin_COA_wdb_-_Coin", (VOLJIN, COA));
   (lit "discord resources", ([], UNKNOWN))].

Record mode_row := ModeRow { m_slug : pystr; m_family : pystr; m_season : pystr }.
Abbreviation mode_table := (list (pystr * mode_row)) (only parsing).

Definition row3 (slug family season : string) : mode_row := ModeRow (lit slug) (lit family) (lit season).

Definition MODE_TABLE : mode_table :=
  [(COA, row3 "conquest-of-azeroth" "conquest-of-azeroth" "");
   (lit "Free-Pick", row3 "free-pick" "free-pick" "");
   (lit "Season 10 Freepick", row3 "season-10-freepick" "free-pick" "10");
   (lit "Season 10 Wildcard", row3 "season-10-wildcard" "wildcard" "10");
   (lit "Season 9", row3 "season-9" "season-9" "9");
   (lit "Warcraft Reborn", row3 "warcraft-reborn" "warcraft-reborn" "");
   (lit "Warcraft Reborn_Horde", row3 "warcraft-reborn-horde" "warcraft-reborn" "");
   (lit "Stress Test", row3 "stress-test" "stress-test" "");
   (lit "Development", row3 "development" "conquest-of-azeroth" "");
   (lit "Live QA", row3 "live-qa" "free-pick" "");
   (lit "CoA Beta", row3 "coa-beta" "conquest-of-azeroth" "");
   (lit "CoA Alpha - Development", row3 "coa-alpha" "conquest-of-azeroth" "");
   (lit "CoA PTR", row3 "coa-ptr" "conquest-of-azeroth" "");
   (UNKNOWN, row3 "unknown" "unknown" "")].

(** The labels of the table as the module defines it. *)
Definition CANONICAL_MODE_LABELS : list pystr := filter (fun m => m <> UNKNOWN) (dkeys MODE_TABLE).

(** ** The patterns *)

(** The run of white space at the front, and the rest. *)
Fixpoint span_space (s : pystr) : pystr * pystr :=
  match s with
  | c :: t => if is_space c then let '(a, b) := span_space t in (c :: a, b) else ([], s)
  | [] => ([], [])
  end.

(** Up to the first closing bracket. *)
Fixpoint span_bracket (s : pystr) : pystr * pystr :=
  match s with
  | c :: t => if c =? 93 then ([], s) else let '(a, b) := span_bracket t in (c :: a, b)
  | [] => ([], [])
  end.

(** QUALIFIER at the front of the text: what it leaves ([$] also holds before
    a final line feed). *)
Definition qualifier_at (s : pystr) : option pystr :=
  match snd (span_space s) with
  | c :: t =>
      if c =? 91 then
        match span_bracket t with
        | (_ :: _, d :: r) => if bool_decide (r = [] \/ r = [10]) then Some r else None
        | _ => None
        end
      else None
  | [] => None
  end.

Fixpoint drop_qualifier (s : pystr) : pystr :=
  match qualifier_at s with
  | Some r => r
  | None => match s with c :: t => c :: drop_qualifier t | [] => [] end
  end.

Definition base_group (group : pystr) : pystr := strip (drop_qualifier group).

(** SPLIT at the front of the text: what follows the separator. *)
Definition separator_at (s : pystr) : option pystr :=
  match snd (span_space s) with
  | c :: t =>
      if c =? 45 then match span_space t with (_ :: _, r) => Some r | _ => None end else None
  | [] => None
  end.

(** [SPLIT.split(s, 1)] when it splits. *)
Fixpoint split_once (s : pystr) : option (pystr * pystr) :=
  match separator_at s with
  | Some r => Some ([], r)
  | None => match s with
            | c :: t => match split_once t with Some (a, b) => Some (c :: a, b) | None => None end
            | [] => None
            end
  end.

Definition slug_char (c : Z) : bool := in_range 97 122 c || in_range 48 57 c.

(** [re.sub("[^a-z0-9]+", "-", s)]; [gap] holds inside a run that is replaced. *)
Fixpoint dashes (s : pystr) (gap : bool) : pystr :=
  match s with
  | [] => []
  | c :: t => if slug_char c then c :: dashes t false
              else if gap then dashes t true else 45 :: dashes t true
  end.

Fixpoint ldash (s : pystr) : pystr :=
  match s with
  | c :: t => if c =? 45 then ldash t else s
  | [] => []
  end.
(** [s.strip("-")]. *)
Definition strip_dash (s : pystr) : pystr := rev (ldash (rev (ldash s))).

Section Modes.
Context `{Unicode}.

Definition slug_of (mode : pystr) : pystr :=
  match strip_dash (dashes (uni_lower mode) false) with [] => UNKNOWN | s => s end.

(** ** Classification *)

Record mode_class := ModeClass {
  mc_realm : pystr; mc_mode : pystr; mc_slug : pystr; mc_family : pystr; mc_season : pystr;
  mc_source : pystr }.

(** An entry of modes.json: the realm and the mode it gives, where it does. *)
Abbreviation user_modes := (list (pystr * (option pystr * option pystr))) (only parsing).

(** The realm, the mode, and how they were decided. *)
Definition decide_mode (user : user_modes) (group : pystr) : pystr * pystr * pystr :=
  let bare := base_group group in
  let of_user u := (default [] (fst u), default UNKNOWN (snd u), lit "modes.json") in
  match dget group user, dget bare user, dget bare OVERRIDES with
  | Some u, _, _ => of_user u
  | None, Some u, _ => of_user u
  | None, None, Some (realm, mode) => (realm, mode, lit "override")
  | None, None, None =>
      match split_once bare with
      | Some (a, b) =>
          match strip b with
          | [] => (strip bare, UNKNOWN, lit "unknown")
          | mode => (strip a, mode, lit "path")
          end
      | None => (strip bare, UNKNOWN, lit "unknown")
      end
  end.

(** [MODE_TABLE[mode]], added if the mode is new. *)
Definition mode_entry (table : mode_table) (mode : pystr) : mode_row * mode_table :=
  dsetdefault mode (let slug := slug_of mode in ModeRow slug slug []) table.

Definition classify (user : user_modes) (group : pystr) (table : mode_table) : mode_class * mode_table :=
  let '(realm, mode, how) := decide_mode user group in
  let '(row, table) := mode_entry table mode in
  (ModeClass realm mode (m_slug row) (m_family row) (m_season row)
     (if bool_decide (mode = UNKNOWN) then lit "unknown" else how), table).
End Modes.

Example classify_ex :
  let c g := let r := fst (@classify latin_unicode [] g MODE_TABLE) in (mc_realm r, mc_mode r, mc_slug r, mc_source r) in
  c (lit "Rexxar - Conquest of Azeroth") = (lit "Rexxar", COA, lit "conquest-of-azeroth", lit "path")
  /\ c (lit "Area 52 - Free-Pick") = (lit "Area 52", lit "Free-Pick", lit "free-pick", lit "path")
  /\ c (lit "enUS (realm root) [WDB__f8cd0267]") = ([], UNKNOWN, UNKNOWN, lit "unknown")
  /\ c (lit "Thrall - Season 12 (Beta)!") = (lit "Thrall", lit "Season 12 (Beta)!", lit "season-12-beta", lit "path")
  /\ c (lit "Free-Pick") = (lit "Free-Pick", UNKNOWN, UNKNOWN, lit "unknown").
Proof. vm_compute. repeat split; reflexivity. Qed.

(** ** Slugs *)

Definition slug_text (s : pystr) : Prop :=
  s <> [] /\ Forall (fun c => slug_char c = true \/ c = 45) s
  /\ (forall c t, s = c :: t -> c <> 45) /\ (forall c t, s = t ++ [c] -> c <> 45).

Lemma dashes_chars s gap : Forall (fun c => slug_char c = true \/ c = 45) (dashes s gap).
Proof.
  revert gap. induction s as [|c s IH]; intros gap; [constructor|]. cbn.
  destruct (slug_char c) eqn:E; [by constructor; auto|]. destruct gap; [done|]. by constructor; auto.
Qed.

Lemma ldash_suffix s : exists p, s = p ++ ldash s.
Proof.
  induction s as [|c s [p IH]]; [by exists []|]. cbn. destruct (c =? 45); [|by exists []].
  exists (c :: p). cbn. by rewrite <- IH.
Qed.

Lemma ldash_head s c t : ldash s = c :: t -> c <> 45.
Proof.
  induction s as [|d s IH]; [done|]. cbn. destruct (Z.eqb_spec d 45); [done|]. by intros [= <- _].
Qed.

Lemma strip_dash_ok s :
  Forall (fun c => slug_char c = true \/ c = 45) s -> strip_dash s <> [] -> slug_text (strip_dash s).
Proof.
  intros Hs Hne. unfold strip_dash in *. destruct (ldash_suffix s) as [p Hp].
  destruct (ldash_suffix (rev (ldash s))) as [q Hq]. split_and!; [done| | |].
  - apply Forall_rev. rewrite Hp in Hs. apply Forall_app in Hs as [_ Hs].
    apply Forall_rev in Hs. rewrite Hq in Hs. by apply Forall_app in Hs as [_ Hs].
  - intros c t E. apply (ldash_head s c (t ++ rev q)). rewrite <- (rev_involutive (ldash s)), Hq, rev_app_distr.
    by rewrite E.
  - intros c t E. apply (ldash_head (rev (ldash s)) c (rev t)).
    rewrite <- (rev_involutive (ldash (rev (ldash s)))), E. by rewrite rev_app_distr.
Qed.

Section ModeLaws.
Context `{Unicode}.

Lemma slug_of_text mode : slug_text (slug_of mode).
Proof.
  unfold slug_of. destruct (strip_dash (dashes (uni_lower mode) false)) as [|c t] eqn:E.
  - split_and!; [done | by repeat (constructor; [by left|]) | |].
    + by intros c t [= <- _].
    + intros c t E'. assert (rev UNKNOWN = c :: rev t) as Hr by (by rewrite E', rev_app_distr).
      vm_compute in Hr. by injection Hr as <- _.
  - rewrite <- E. apply strip_dash_ok; [apply dashes_chars | by rewrite E].
Qed.

(** Every entry of the table has a slug that can name a folder. *)
Definition table_ok (table : mode_table) : Prop := Forall (fun mr => slug_text (m_slug (snd mr))) table.

(** The table only ever grows at its end. *)
Lemma mode_entry_grows table mode :
  let '(row, table') := mode_entry table mode in
  dget mode table' = Some row /\ (forall m r, dget m table = Some r -> dget m table' = Some r).
Proof.
  unfold mode_entry, dsetdefault. destruct (dget mode table) as [row|] eqn:E; [done|].
  split; [apply dget_dset_eq|]. intros m r Hm. rewrite dget_dset_ne; [done|]. intros ->. by rewrite E in Hm.
Qed.

Lemma mode_entry_ok table mode :
  table_ok table -> slug_text (m_slug (fst (mode_entry table mode))) /\ table_ok (snd (mode_entry table mode)).
Proof.
  unfold mode_entry, dsetdefault, table_ok. intros Ht. destruct (dget mode table) as [row|] eqn:E; cbn [fst snd].
  - split; [|done]. apply dget_elem_of in E. rewrite Forall_forall in Ht. apply (Ht _ E).
  - split; [apply slug_of_text|]. rewrite dset_fresh by (by apply dget_None_keys).
    apply Forall_app. split; [done|]. constructor; [apply slug_of_text | done].
Qed.

(** Classification never fails and never changes its mind: the slug can
    name a folder whatever the label, a mode that had an entry keeps it, and
    the same folder is classified the same again, with nothing more to add to
    the table. *)
Theorem classify_stable user group table :
  table_ok table ->
  let '(c, table') := classify user group table in
  slug_text (mc_slug c) /\ table_ok table'
  /\ (forall m r, dget m table = Some r -> dget m table' = Some r)
  /\ classify user group table' = (c, table').
Proof.
  intros Ht. unfold classify. destruct (decide_mode user group) as [[realm mode] how].
  pose proof (mode_entry_ok table mode Ht) as [Hs Ht']. pose proof (mode_entry_grows table mode) as Hg.
  destruct (mode_entry table mode) as [row table']. cbn [fst snd] in *. destruct Hg as [Hm Hg].
  split_and!; [done|done|done|]. unfold mode_entry, dsetdefault. by rewrite Hm.
Qed.
End ModeLaws.

Lemma slug_text_by s :
  forallb (fun c => slug_char c || (c =? 45)) s = true ->
  bool_decide (head s <> Some 45) = true -> bool_decide (head (rev s) <> Some 45) = true ->
  bool_decide (s <> []) = true -> slug_text s.
Proof.
  rewrite !bool_decide_eq_true. intros Ha Hh Hl Hn. split_and!; [done| | |].
  - rewrite Forall_forall. intros c Hc. apply list_elem_of_In in Hc.
    apply (proj1 (forallb_forall _ _)) with (x := c) in Ha; [|done].
    rewrite orb_true_iff, Z.eqb_eq in Ha. done.
  - by intros c t -> ->.
  - intros c t -> ->. apply Hl. by rewrite rev_app_distr.
Qed.

Lemma MODE_TABLE_ok : table_ok MODE_TABLE.
Proof. unfold table_ok. repeat (constructor; [apply slug_text_by; vm_compute; reflexivity|]). constructor. Qed.

Lemma classify_stable_witness :
  let '(c, table') := @classify latin_unicode [] (lit "Thrall - Season 12 (Beta)!") MODE_TABLE in
  mc_slug c = lit "season-12-beta" /\ length table' = 15%nat
  /\ @classify latin_unicode [] (lit "Thrall - Season 12 (Beta)!") table' = (c, table').
Proof.
  pose proof (@classify_stable latin_unicode [] (lit "Thrall - Season 12 (Beta)!") MODE_TABLE MODE_TABLE_ok) as Hs.
  destruct (@classify latin_unicode [] (lit "Thrall - Season 12 (Beta)!") MODE_TABLE) as [c table'] eqn:E.
  destruct Hs as (_ & _ & _ & Hs). vm_compute in E. injection E as <- <-.
  split; [reflexivity|]. split; [reflexivity|]. exact Hs.
Defined.
