(* ===== verification/LuaMerge.v ===== *)
(** * Merging SavedVariables (cache-consolidator/tools/luamerge.py)

    The rules a leaf is combined by, and the mergers of mob spells, pushed
    addon code and gather nodes.  The merged state is the store the tool keeps
    in memory; a conflict is reported as the path, the value kept and the value
    observed. *)
From S2P Require Import Prelude Wire PyFloat Text Format Lua Modes.
From Stdlib Require Import SpecFloat.

(** ** Leaves *)

(** The rules; NEWEST and DROP are only in some specs. *)
Inductive rule := MIN | MAX | OR | FIRST | NEWEST | DROP.
#[export] Instance rule_eq_dec : EqDecision rule.
Proof. solve_decision. Defined.

(** [bool(v)]. *)
Definition lua_truthy (v : lua) : bool :=
  match v with
  | VNone => false
  | VBool b => b
  | VInt n => negb (n =? 0)
  | VFloat (S754_zero _) => false
  | VFloat _ => true
  | VStr s | VRedacted s => match s with [] => false | _ => true end
  | VTable a h => negb (match a, h with [], [] => true | _, _ => false end)
  end.

(** [a < b]: [None] where Python raises TypeError. *)
Definition py_ltb (a b : lua) : option bool :=
  match a, b with
  | (VBool _ | VInt _ | VFloat _), (VBool _ | VInt _ | VFloat _) => Some (num_ltb (num_of a) (num_of b))
  | (VStr s | VRedacted s), (VStr t | VRedacted t) => Some (negb (str_leb t s))
  | _, _ => None
  end.

(** [combine]; [VNone] is None.  [min(old, new)] and [max(old, new)] keep the
    old one between equals. *)
Definition combine (r : rule) (old new : lua) : lua :=
  match r with
  | DROP => VNone
  | _ =>
      match old, new with
      | VNone, _ => new
      | _, VNone => old
      | _, _ =>
          match r with
          | MIN => match py_ltb new old with Some true => new | _ => old end
          | MAX => match py_ltb old new with Some true => new | _ => old end
          | OR => VBool (lua_truthy old || lua_truthy new)
          | NEWEST => new
          | _ => old
          end
      end
  end.

(** The fields of the MobSpells spec. *)
Definition MOBSPELLS_FIELDS : list (pystr * rule) :=
  map (fun '(n, r) => (lit n, r))
    [("lastGUID", DROP); ("lastTime", DROP); ("amountMin", MIN); ("minSpeed", MIN);
     ("amountMax", MAX); ("maxSpeed", MAX); ("critical", OR); ("resisted", OR); ("missing", OR);
     ("dodge", OR); ("parry", OR); ("glancing", OR); ("blocked", OR); ("resist", OR);
     ("reflect", OR); ("interruptable", OR); ("immune", OR); ("absorbed", OR);
     ("school", FIRST); ("schoolName", FIRST)]%string.

(** [_rule_for]: a key that is no string is no field. *)
Definition _rule_for (fields : list (pystr * rule)) (field : lua) : rule :=
  match field with
  | VStr s | VRedacted s => default FIRST (dget s fields)
  | _ => FIRST
  end.

Definition is_table (v : lua) : bool := match v with VTable _ _ => true | _ => false end.

(** A disagreement: where, the value kept, the value observed. *)
Definition conflict : Type := list lua * lua * lua.

(** One field of a leaf table: the dictionary and what it reports. *)
Definition merge_field (fields : list (pystr * rule)) (where_ : list lua) (dst : lua_hash) (k v : lua)
    : lua_hash * list conflict :=
  let r := _rule_for fields k in
  if bool_decide (r = DROP) then (dst, [])
  else if is_table v then (dst, [])
  else
    match r, hget k dst with
    | FIRST, Some old =>
        if key_eqb old v
        then (match combine r old v with VNone => dst | merged => hset k merged dst end, [])
        else (dst, [(where_ ++ [k], old, v)])
    | _, old =>
        (match combine r (default VNone old) v with VNone => dst | merged => hset k merged dst end, [])
    end.

(** [merge_leaf]. *)
Fixpoint merge_leaf (fields : list (pystr * rule)) (where_ : list lua) (dst : lua_hash)
    (src : lua_hash) : lua_hash * list conflict :=
  match src with
  | [] => (dst, [])
  | (k, v) :: src =>
      let '(dst, c) := merge_field fields where_ dst k v in
      let '(dst, cs) := merge_leaf fields where_ dst src in
      (dst, c ++ cs)
  end.

(** ** MobSpells *)

Record mob_rec := MobRec {
  mr_name : option pystr; mr_spells : list (pystr * lua_hash); mr_srcs : list pystr }.
Definition no_mob : mob_rec := MobRec None [] [].

Abbreviation zone_store := (list (pystr * mob_rec)) (only parsing).
Abbreviation mob_store := (list (pystr * zone_store)) (only parsing).

(** [t.get(k)] of a table, and of anything else nothing. *)
Definition lua_get (v : lua) (k : string) : lua :=
  match v with VTable _ h => default VNone (hget (VStr (lit k)) h) | _ => VNone end.

Definition lua_hash_of (v : lua) : lua_hash := match v with VTable _ h => h | _ => [] end.

Definition add_src (sid : pystr) (srcs : list pystr) : list pystr :=
  if bool_decide (sid ∈ srcs) then srcs else srcs ++ [sid].

(** The name: the first one stays, another is a conflict. *)
Definition merge_name (where_ : list lua) (name : option pystr) (v : lua) : option pystr * list conflict :=
  match v with
  | VStr s | VRedacted s =>
      match name with
      | None => (Some s, [])
      | Some old => if bool_decide (old = s) then (name, []) else (name, [(where_ ++ [VStr (lit "name")], VStr old, VStr s)])
      end
  | _ => (name, [])
  end.

(** The spells of one mob: how many leaves went in. *)
Fixpoint merge_spells (where_ : list lua) (spells : list (pystr * lua_hash)) (src : lua_hash)
    : list (pystr * lua_hash) * list conflict * Z :=
  match src with
  | [] => (spells, [], 0)
  | (spell, st) :: src =>
      match st with
      | VTable _ h =>
          let d := default [] (dget (key_str spell) spells) in
          let '(d, c) := merge_leaf MOBSPELLS_FIELDS (where_ ++ [spell]) d h in
          let '(spells, cs, n) := merge_spells where_ (dset (key_str spell) d spells) src in
          (spells, c ++ cs, n + 1)
      | _ => merge_spells where_ spells src
      end
  end.

Definition merge_mob (zone : lua) (sid : pystr) (entry : lua) (rec : mob_rec) (mt : lua)
    : mob_rec * list conflict * Z :=
  let where_ := [VStr (lit "mob"); zone; entry] in
  let '(name, c1) := merge_name where_ (mr_name rec) (lua_get mt "name") in
  let '(spells, c2, n) := merge_spells where_ (mr_spells rec) (lua_hash_of (lua_get mt "spells")) in
  (MobRec name spells (add_src sid (mr_srcs rec)), c1 ++ c2, n).

(** One zone, and all of them. *)
Fixpoint merge_zone (zone : lua) (sid : pystr) (z : zone_store) (src : lua_hash)
    : zone_store * list conflict * Z :=
  match src with
  | [] => (z, [], 0)
  | (entry, mt) :: src =>
      if is_table mt then
        let key := key_str entry in
        let '(rec, c, n) := merge_mob zone sid entry (default no_mob (dget key z)) mt in
        let '(z, cs, m) := merge_zone zone sid (dset key rec z) src in
        (z, c ++ cs, n + m)
      else merge_zone zone sid z src
  end.

Fixpoint merge_zones (sid : pystr) (store : mob_store) (src : lua_hash)
    : mob_store * list conflict * Z :=
  match src with
  | [] => (store, [], 0)
  | (zone, zt) :: src =>
      match zt with
      | VTable _ h =>
          let key := key_str zone in
          let '(z, c, n) := merge_zone zone sid (default [] (dget key store)) h in
          let '(store, cs, m) := merge_zones sid (dset key z store) src in
          (store, c ++ cs, n + m)
      | _ => merge_zones sid store src
      end
  end.

(** [merge_mobspells]: the payload is [MobSpellsDB.global.mobs]; without it the
    state is not touched. *)
Definition merge_mobspells (store : mob_store) (g : list (pystr * lua)) (sid : pystr)
    : mob_store * list conflict * Z :=
  let db := default VNone (dget (lit "MobSpellsDB") g) in
  match lua_get (lua_get db "global") "mobs" with
  | VTable _ h => merge_zones sid store h
  | _ => (store, [], 0)
  end.

(** ** Pushed addon code *)

(** One build of one addon file. *)
Record aio_build := AioBuild {
  ab_code : pystr; ab_crc : lua; ab_srcs : list pystr; ab_bytes : Z }.

Abbreviation build_store := (list (pystr * aio_build)) (only parsing).
Abbreviation aio_store := (list (pystr * build_store)) (only parsing).

Definition py_string (v : lua) : option pystr :=
  match v with VStr s | VRedacted s => Some s | _ => None end.

Section Aio.
(** [hashlib.sha1(b).hexdigest()]. *)
Context (sha1_hex : list Z -> pystr).

Definition build_id (code : pystr) : res pystr := b ← utf8_encode code; Ok (take 16 (sha1_hex b)).

Definition see_build (sid : pystr) (b : aio_build) : aio_build :=
  AioBuild (ab_code b) (ab_crc b) (add_src sid (ab_srcs b)) (ab_bytes b).

(** One pushed file. *)
Definition merge_build (store : aio_store) (sid fname code : pystr) (crc : lua) : res aio_store :=
  vid ← build_id code;
  let builds := default [] (dget fname store) in
  let b := default (AioBuild code crc [] (pylen code)) (dget vid builds) in
  Ok (dset fname (dset vid (see_build sid b) builds) store).

Fixpoint merge_builds (sid : pystr) (store : aio_store) (src : lua_hash) : res (aio_store * Z) :=
  match src with
  | [] => Ok (store, 0)
  | (fname, ft) :: src =>
      match is_table ft, py_string (lua_get ft "code") with
      | true, Some code =>
          store ← merge_build store sid (key_str fname) code (lua_get ft "crc");
          '(store, n) ← merge_builds sid store src;
          Ok (store, n + 1)
      | _, _ => merge_builds sid store src
      end
  end.

(** [merge_aio]. *)
Definition merge_aio (store : aio_store) (g : list (pystr * lua)) (sid : pystr) : res (aio_store * Z) :=
  match dget (lit "AIO_sv_Addons") g with
  | Some (VTable _ h) => merge_builds sid store h
  | _ => Ok (store, 0)
  end.
End Aio.

(** ** Gather nodes *)

Definition _NODE_DBS : list pystr :=
  map lit ["GatherMate2HerbDB"; "GatherMate2MineDB"; "GatherMate2FishDB";
           "GatherMate2GasDB"; "GatherMate2TreeDB"; "GatherMate2TreasureDB"]%string.

Abbreviation node_zone := (list (pystr * lua)) (only parsing).
Abbreviation node_db := (list (pystr * node_zone)) (only parsing).
Abbreviation node_store := (list (pystr * node_db)) (only parsing).

(** One spot: what stood there first stays, unless a replay names the other
    one as the winner. *)
Definition merge_node (where_ : list lua) (prior : node_zone) (z : node_zone) (coord node : lua)
    : node_zone * list conflict * Z :=
  let key := key_str coord in
  match dget key z with
  | Some old =>
      if key_eqb old node then (dset key node z, [], 1)
      else (match dget key prior with
            | Some won => if key_eqb node won then dset key node z else z
            | None => z
            end, [(where_ ++ [coord], old, node)], 0)
  | None => (dset key node z, [], 1)
  end.

Fixpoint merge_nodes (where_ : list lua) (prior : node_zone) (z : node_zone) (src : lua_hash)
    : node_zone * list conflict * Z :=
  match src with
  | [] => (z, [], 0)
  | (coord, node) :: src =>
      if is_table node then merge_nodes where_ prior z src
      else
        let '(z, c, n) := merge_node where_ prior z coord node in
        let '(z, cs, m) := merge_nodes where_ prior z src in
        (z, c ++ cs, n + m)
  end.

Fixpoint merge_node_zones (dbname : pystr) (prior : node_db) (db : node_db) (src : lua_hash)
    : node_db * list conflict * Z :=
  match src with
  | [] => (db, [], 0)
  | (zone, VTable _ h) :: src =>
      let key := key_str zone in
      let '(z, c, n) := merge_nodes [VStr dbname; zone] (default [] (dget key prior)) (default [] (dget key db)) h in
      let '(db, cs, m) := merge_node_zones dbname prior (dset key z db) src in
      (db, c ++ cs, n + m)
  | _ :: src => merge_node_zones dbname prior db src
  end.

(** The databases in the order of [_NODE_DBS]. *)
Fixpoint merge_node_dbs (names : list pystr) (prior : node_store) (store : node_store)
    (g : list (pystr * lua)) : node_store * list conflict * Z :=
  match names with
  | [] => (store, [], 0)
  | dbname :: names =>
      match dget dbname g with
      | Some (VTable _ h) =>
          let '(db, c, n) := merge_node_zones dbname (default [] (dget dbname prior)) (default [] (dget dbname store)) h in
          let '(store, cs, m) := merge_node_dbs names prior (dset dbname db store) g in
          (store, c ++ cs, n + m)
      | _ => merge_node_dbs names prior store g
      end
  end.

(** [merge_gathermate]; [prior] is [meta["replay_gathermate"]], empty outside a
    replay. *)
Definition merge_gathermate (prior : node_store) (store : node_store) (g : list (pystr * lua))
    : node_store * list conflict * Z :=
  merge_node_dbs _NODE_DBS prior store g.
