(* ===== verification/LuaAuction.v ===== *)
(** * Merging auction prices (cache-consolidator/tools/luamerge.py)

    A market branch is read whole before any of it is kept: the parse either
    gives every price of the branch, or the branch is held back under a digest.
    The newest capture of a price wins; complete market records are also kept
    as observations, by the digest of their canonical JSON. *)
From S2P Require Import Prelude PyFloat Text Format Lua LuaParse Modes LuaMerge.
From Stdlib Require Import SpecFloat.

(** ** The market record *)

Definition RECORD_KEYS : list pystr := map lit ["id"; "mr"; "cc"; "sc"; "lastScan"]%string.
Definition NUMBER_KEYS : list pystr := map lit ["mr"; "cc"; "sc"; "lastScan"]%string.

Definition all_digits (s : pystr) : bool := match s with [] => false | _ => forallb is_digit s end.

(** The part before the first colon, and the part after it. *)
Fixpoint split_colon (s : pystr) : pystr * option pystr :=
  match s with
  | [] => ([], None)
  | c :: t => if c =? 58 then ([], Some t) else let '(a, b) := split_colon t in (c :: a, b)
  end.

(** [re.fullmatch("[0-9]+(?::[0-9]+)?", s)]. *)
Definition is_item_id (s : pystr) : bool :=
  let '(a, b) := split_colon s in
  all_digits a && match b with None => true | Some b => all_digits b end.

(** [re.fullmatch("[HL][0-9]+", s)]. *)
Definition is_history_key (s : pystr) : bool :=
  match s with c :: t => ((c =? 72) || (c =? 76)) && all_digits t | [] => false end.

(** A key of the record and its value, checked. *)
Definition record_field (key field : lua) : res (pystr * lua) :=
  match py_string key with
  | Some k =>
      if bool_decide (k = lit "id") then
        match py_string field with
        | Some s => if is_item_id s then Ok (k, VStr s) else Err LuaError
        | None => Err LuaError
        end
      else if bool_decide (k ∈ NUMBER_KEYS) || is_history_key k then
        match field with
        | VInt n => if n <? 0 then Err LuaError else Ok (k, VInt n)
        | _ => Err LuaError
        end
      else Err LuaError
  | None => Err LuaError
  end.

Abbreviation market_record := (list (pystr * lua)) (only parsing).

(** [auctionator_record] of a table. *)
Definition auctionator_record (array : list lua) (hash : lua_hash) : res market_record :=
  match array with
  | _ :: _ => Err LuaError
  | [] =>
      if forallb (fun k => match hget (VStr k) hash with Some _ => true | None => false end) RECORD_KEYS
      then res_map (fun kv => record_field (fst kv) (snd kv)) hash
      else Err LuaError
  end.

(** [json.dumps(observation, sort_keys=True, separators=(",", ":"))]: the
    strings of a checked record are ASCII without anything to escape. *)
Definition json_field (kv : pystr * lua) : pystr :=
  [34] ++ fst kv ++ [34; 58]
    ++ match snd kv with VStr s => [34] ++ s ++ [34] | v => _num v end.

Definition record_json (r : market_record) : pystr :=
  [123] ++ join [44] (map json_field (py_sort name_leb r)) ++ [125].

(** ** One branch *)

(** [math.isfinite(price)]: an integer that no float can hold makes it raise. *)
Definition FLOAT_LIMIT : Z := 2 ^ 1024 - 2 ^ 970.

Definition price_ok (price : lua) : res bool :=
  match price with
  | VInt n => if FLOAT_LIMIT <=? Z.abs n then Err OverflowError else Ok (0 <=? n)
  | VFloat (S754_zero _) => Ok true
  | VFloat (S754_finite s _ _) => Ok (negb s)
  | _ => Ok false
  end.

Record price_entry := PriceEntry {
  pe_item : pystr; pe_price : lua; pe_record : option market_record }.

(** One item of the branch. *)
Definition parse_price (item value : lua) : res price_entry :=
  obs ← match value with
        | VTable a h => r ← auctionator_record a h; Ok (Some r)
        | _ => Ok None
        end;
  let price := match obs with Some r => default VNone (dget (lit "mr") r) | None => value end in
  match py_string item with
  | None => Err LuaError
  | Some it => ok ← price_ok price; if (ok : bool) then Ok (PriceEntry it price obs) else Err LuaError
  end.

Definition observed (e : price_entry) : bool := match pe_record e with Some _ => true | None => false end.

(** Scalars and records are not mixed in one branch. *)
Definition one_shape (l : list price_entry) : bool := forallb observed l || forallb (fun e => negb (observed e)) l.

Definition parse_branch (mode : pystr) (array : list lua) (hash : lua_hash) : res (list price_entry) :=
  match array with
  | _ :: _ => Err LuaError
  | [] =>
      if bool_decide (mode ∈ CANONICAL_MODE_LABELS) then
        l ← res_map (fun kv => parse_price (fst kv) (snd kv)) hash;
        if one_shape l then Ok l else Err LuaError
      else Err LuaError
  end.

(** ** The store *)

Record price_bucket := PriceBucket {
  pb_mode : pystr; pb_realm : pystr; pb_group : pystr; pb_items : list (pystr * (lua * option pystr)) }.

(** A capture of one record: the record, and when each source had it. *)
Record price_capture := PriceCapture {
  pc_record : market_record; pc_sources : list (pystr * option pystr) }.

(** A branch or record that is kept back from publication. *)
Record held_record := HeldRecord { hr_branch : pystr; hr_digest : pystr; hr_reason : pystr }.
#[export] Instance held_record_eq_dec : EqDecision held_record.
Proof. solve_decision. Defined.

Abbreviation price_store := (list (pystr * price_bucket)) (only parsing).
Abbreviation item_captures := (list (pystr * list (pystr * price_capture))) (only parsing).
Abbreviation capture_store := (list (pystr * list (pystr * list (pystr * price_capture)))) (only parsing).
Abbreviation held_store := (list (pystr * list held_record)) (only parsing).

(** [when or ""], compared. *)
Definition not_older (captured prev : option pystr) : bool := str_leb (default [] prev) (default [] captured).

(** The price of one item. *)
Definition put_price (captured : option pystr) (b : price_bucket) (e : price_entry) : price_bucket :=
  let items := pb_items b in
  let newer := match dget (pe_item e) items with
               | None => true
               | Some (_, when_) => not_older captured when_
               end in
  if newer
  then PriceBucket (pb_mode b) (pb_realm b) (pb_group b) (dset (pe_item e) (pe_price e, captured) items)
  else b.

Section Auction.
Context `{Unicode}.
(** [hashlib.sha256(b).hexdigest()]. *)
Context (sha256_hex : list Z -> pystr).

Definition text_digest (s : pystr) : res pystr := b ← utf8_encode s; Ok (sha256_hex b).

(** The observation of one item, if it is a record. *)
Definition put_capture (slug sid : pystr) (captured : option pystr) (store : capture_store)
    (e : price_entry) : res capture_store :=
  match pe_record e with
  | None => Ok store
  | Some r =>
      digest ← text_digest (record_json r);
      let items := default [] (dget slug store) in
      let variants := default [] (dget (pe_item e) items) in
      let cap := default (PriceCapture r []) (dget digest variants) in
      let cap := PriceCapture (pc_record cap) (dset sid captured (pc_sources cap)) in
      Ok (dset slug (dset (pe_item e) (dset digest cap variants) items) store)
  end.

Definition hold_branch (sid digest : pystr) (held : held_store) : held_store :=
  let hold := HeldRecord (lit "auctionator") digest (lit "unsupported_market_schema") in
  let l := default [] (dget sid held) in
  dset sid (if bool_decide (hold ∈ l) then l else l ++ [hold]) held.

Record auction_state := AuctionState {
  as_prices : price_store; as_captures : capture_store; as_held : held_store; as_modes : mode_table }.

(** A branch that was read: its prices and its observations. *)
Definition put_branch (sid : pystr) (captured : option pystr) (cls : mode_class) (group : pystr)
    (l : list price_entry) (st : auction_state) : res auction_state :=
  let bucket := default (PriceBucket (mc_mode cls) (mc_realm cls) group []) (dget (mc_slug cls) (as_prices st)) in
  let bucket := fold_left (put_price captured) l bucket in
  captures ← res_fold (put_capture (mc_slug cls) sid captured) (as_captures st) l;
  Ok (AuctionState (dset (mc_slug cls) bucket (as_prices st)) captures (as_held st) (as_modes st)).

(** A branch that was not: only its digest. *)
Definition hold_market (sid : pystr) (gt : lua) (st : auction_state) : res auction_state :=
  digest ← text_digest (dumps [(lit "observation", gt)]);
  Ok (AuctionState (as_prices st) (as_captures st) (hold_branch sid digest (as_held st)) (as_modes st)).

(** One entry of the root table. *)
Definition merge_market (user : list (pystr * (option pystr * option pystr))) (sid : pystr)
    (captured : option pystr) (st : auction_state) (group gt : lua) : res (auction_state * Z) :=
  match gt with
  | VTable [] [] => Ok (st, 0)
  | VTable array hash =>
      let '(cls, modes) := classify user (key_str group) (as_modes st) in
      let st := AuctionState (as_prices st) (as_captures st) (as_held st) modes in
      match parse_branch (mc_mode cls) array hash with
      | Ok l => st ← put_branch sid captured cls (key_str group) l st; Ok (st, pylen l)
      | Err LuaError => st ← hold_market sid gt st; Ok (st, 0)
      | Err e => Err e
      end
  | _ => if key_eqb group (VStr (lit "__dbversion")) then Ok (st, 0) else Err LuaError
  end.

Fixpoint merge_markets (user : list (pystr * (option pystr * option pystr))) (sid : pystr)
    (captured : option pystr) (st : auction_state) (src : lua_hash) : res (auction_state * Z) :=
  match src with
  | [] => Ok (st, 0)
  | (group, gt) :: src =>
      '(st, n) ← merge_market user sid captured st group gt;
      '(st, m) ← merge_markets user sid captured st src;
      Ok (st, n + m)
  end.

(** [merge_auctionator]. *)
Definition merge_auctionator (user : list (pystr * (option pystr * option pystr))) (sid : pystr)
    (captured : option pystr) (st : auction_state) (g : list (pystr * lua)) : res (auction_state * Z) :=
  match dget (lit "AUCTIONATOR_PRICE_DATABASE") g with
  | Some (VTable _ h) => merge_markets user sid captured st h
  | _ => Ok (st, 0)
  end.
End Auction.

(** ** What the auction store keeps

    Only finite, non-negative prices of known modes are stored, whatever a
    submission holds; a price is never replaced by an older one; and a branch
    is merged whole or held back. *)

(** ** The invariant of the price store *)

Definition price_valid (v : lua) : Prop := price_ok v = Ok true.
Definition bucket_wf (b : price_bucket) : Prop :=
  pb_mode b ∈ CANONICAL_MODE_LABELS /\ Forall (fun iw => price_valid (fst (snd iw))) (pb_items b).
Definition prices_wf (store : price_store) : Prop := Forall (fun sb => bucket_wf (snd sb)) store.

(** When a price of the store was captured. *)
Definition price_of (store : price_store) (slug item : pystr) : option (lua * option pystr) :=
  b ← dget slug store; dget item (pb_items b).

(** Every price is still there, or one that is not older. *)
Definition not_staler (a b : price_store) : Prop :=
  forall slug item p w, price_of a slug item = Some (p, w) ->
  exists p' w', price_of b slug item = Some (p', w') /\ not_older w' w = true.

Lemma not_older_refl w : not_older w w = true.
Proof.
  unfold not_older. destruct (str_leb (default [] w) (default [] w)) eqn:E; [done|]. by apply str_leb_total in E as E'; congruence.
Qed.
Lemma not_older_trans a b c : not_older c b = true -> not_older b a = true -> not_older c a = true.
Proof. unfold not_older. intros H1 H2. by eapply str_leb_trans. Qed.

Lemma not_staler_refl a : not_staler a a.
Proof. intros slug item p w E. exists p, w. split; [done | apply not_older_refl]. Qed.
Lemma not_staler_trans a b c : not_staler a b -> not_staler b c -> not_staler a c.
Proof.
  intros H1 H2 slug item p w (p1 & w1 & E1 & L1)%H1. apply H2 in E1 as (p2 & w2 & E2 & L2).
  exists p2, w2. split; [done|]. by apply (not_older_trans w w1).
Qed.

(** ** One branch *)

Lemma parse_price_ok item value e : parse_price item value = Ok e -> price_valid (pe_price e).
Proof.
  unfold parse_price. intros E. inv_bind E. destruct (py_string item); [|done]. inv_bind E.
  destruct v0; [|done]. by injection E as <-.
Qed.

Lemma parse_branch_ok mode array hash l :
  parse_branch mode array hash = Ok l -> mode ∈ CANONICAL_MODE_LABELS /\ Forall (fun e => price_valid (pe_price e)) l.
Proof.
  unfold parse_branch. intros E. destruct array; [|done]. case_bool_decide; [|done]. inv_bind E.
  destruct (one_shape v); [|done]. injection E as <-. split; [done|]. clear -E0. revert v E0.
  induction hash as [|[k x] hash IH]; intros l E; cbn [res_map] in E; [by injection E as <-|].
  inv_binds E. injection E as <-. constructor; [by eapply parse_price_ok | by apply IH].
Qed.

Lemma put_price_spec captured b e :
  bucket_wf b -> price_valid (pe_price e) ->
  bucket_wf (put_price captured b e)
  /\ (forall item p w, dget item (pb_items b) = Some (p, w) ->
        exists p' w', dget item (pb_items (put_price captured b e)) = Some (p', w') /\ not_older w' w = true)
  /\ (exists p' w', dget (pe_item e) (pb_items (put_price captured b e)) = Some (p', w') /\ not_older w' captured = true).
Proof.
  intros [Hm Hi] He. unfold put_price.
  destruct (match dget (pe_item e) (pb_items b) with None => true | Some (_, w) => not_older captured w end) eqn:En.
  - cbn [pb_items]. split; [split; [done | by apply Forall_dset]|]. split.
    + intros item p w Ei. rewrite dget_dset. case_decide as Ed; [|exists p, w; split; [done | apply not_older_refl]].
      subst item. rewrite Ei in En. by do 2 eexists.
    + rewrite dget_dset_eq. do 2 eexists. split; [done | apply not_older_refl].
  - split; [done|]. split; [intros item p w Ei; exists p, w; split; [done | apply not_older_refl]|].
    destruct (dget (pe_item e) (pb_items b)) as [[p w]|]; [|done]. exists p, w. split; [done|]. by apply str_leb_total.
Qed.

Lemma put_prices_spec captured l : forall b,
  bucket_wf b -> Forall (fun e => price_valid (pe_price e)) l ->
  bucket_wf (fold_left (put_price captured) l b)
  /\ (forall item p w, dget item (pb_items b) = Some (p, w) ->
        exists p' w', dget item (pb_items (fold_left (put_price captured) l b)) = Some (p', w') /\ not_older w' w = true)
  /\ (forall e, e ∈ l -> exists p' w', dget (pe_item e) (pb_items (fold_left (put_price captured) l b)) = Some (p', w')
        /\ not_older w' captured = true).
Proof.
  induction l as [|e l IH]; intros b Hb Hl; cbn [fold_left].
  { split; [done|]. split; [|by intros e []%not_elem_of_nil]. intros item p w E. exists p, w. split; [done | apply not_older_refl]. }
  inversion_clear Hl as [|? ? He Hl']. destruct (put_price_spec captured b e Hb He) as (Hb1 & Hk1 & Hn1).
  destruct (IH _ Hb1 Hl') as (Hb2 & Hk2 & Hn2).
  assert (forall item p w, dget item (pb_items b) = Some (p, w) ->
    exists p' w', dget item (pb_items (fold_left (put_price captured) l (put_price captured b e))) = Some (p', w') /\ not_older w' w = true) as Hk.
  { intros item p w (p1 & w1 & E1 & L1)%Hk1. apply Hk2 in E1 as (p2 & w2 & E2 & L2). exists p2, w2. split; [done|].
    by apply (not_older_trans w w1). }
  split; [done|]. split; [done|]. intros e' [->|Hin]%elem_of_cons; [|auto].
  destruct Hn1 as (p1 & w1 & E1 & L1). apply Hk2 in E1 as (p2 & w2 & E2 & L2). exists p2, w2. split; [done|].
  by apply (not_older_trans captured w1).
Qed.

(** ** A whole submission *)

Section AuctionLaws.
Context `{Unicode} (sha256_hex : list Z -> pystr).
Context (user : list (pystr * (option pystr * option pystr))).

(** What one branch leaves: all of it, or nothing of it. *)
Definition branch_done (captured : option pystr) (gt : lua) (st st' : auction_state) (n : Z) : Prop :=
  (n = 0 /\ as_prices st' = as_prices st /\ as_captures st' = as_captures st)
  \/ exists slug mode array hash l, gt = VTable array hash /\ parse_branch mode array hash = Ok l /\ n = pylen l
      /\ as_held st' = as_held st
      /\ forall e, e ∈ l -> exists p w, price_of (as_prices st') slug (pe_item e) = Some (p, w) /\ not_older w captured = true.

Lemma put_branch_spec sid captured cls group array hash l st st' :
  parse_branch (mc_mode cls) array hash = Ok l -> prices_wf (as_prices st) ->
  put_branch sha256_hex sid captured cls group l st = Ok st' ->
  prices_wf (as_prices st') /\ not_staler (as_prices st) (as_prices st')
  /\ branch_done captured (VTable array hash) st st' (pylen l).
Proof.
  intros Hl Hw E. unfold put_branch in E. inv_bind E. injection E as <-.
  destruct (parse_branch_ok _ _ _ _ Hl) as [Hm Hv].
  set (b0 := default _ (dget (mc_slug cls) (as_prices st))) in *.
  assert (bucket_wf b0) as Hb0.
  { unfold b0. destruct (dget (mc_slug cls) (as_prices st)) as [b|] eqn:Eb; [|by split].
    unfold prices_wf in Hw. rewrite Forall_forall in Hw. apply (Hw _ (dget_elem_of _ _ _ Eb)). }
  destruct (put_prices_spec captured l b0 Hb0 Hv) as (Hb & Hk & Hn). cbn [as_prices as_held as_captures].
  split; [by apply Forall_dset|]. split.
  - intros slug item p w Ep. unfold price_of in *. rewrite dget_dset. case_decide as Es; [|exists p, w; split; [done | apply not_older_refl]].
    subst slug. cbn [mbind option_bind]. apply (Hk item p w). unfold b0. by destruct (dget (mc_slug cls) (as_prices st)).
  - right. exists (mc_slug cls), (mc_mode cls), array, hash, l. cbn [as_held as_prices]. split_and!; [done..|].
    intros e He. unfold price_of. rewrite dget_dset_eq. cbn [mbind option_bind]. auto.
Qed.

Lemma merge_market_spec sid captured st group gt st' n :
  prices_wf (as_prices st) -> merge_market sha256_hex user sid captured st group gt = Ok (st', n) ->
  prices_wf (as_prices st') /\ not_staler (as_prices st) (as_prices st') /\ branch_done captured gt st st' n.
Proof.
  intros Hw E. unfold merge_market in E.
  assert (forall s k, Ok (s, k) = Ok (st', n) -> as_prices s = as_prices st -> as_captures s = as_captures st -> k = 0 ->
    prices_wf (as_prices st') /\ not_staler (as_prices st) (as_prices st') /\ branch_done captured gt st st' n) as Hskip.
  { intros s k [= -> ->] Ep Ec ->. rewrite Ep. split; [done|]. split; [apply not_staler_refl|]. by left. }
  assert (forall array hash, gt = VTable array hash ->
    (let '(cls, modes) := classify user (key_str group) (as_modes st) in
     let st := AuctionState (as_prices st) (as_captures st) (as_held st) modes in
     match parse_branch (mc_mode cls) array hash with
     | Ok l => st ← put_branch sha256_hex sid captured cls (key_str group) l st; Ok (st, pylen l)
     | Err LuaError => st ← hold_market sha256_hex sid gt st; Ok (st, 0)
     | Err e => Err e
     end) = Ok (st', n) ->
    prices_wf (as_prices st') /\ not_staler (as_prices st) (as_prices st') /\ branch_done captured gt st st' n) as Htable.
  { intros array hash Eg. destruct (classify user (key_str group) (as_modes st)) as [cls modes]. cbv zeta.
    destruct (parse_branch (mc_mode cls) array hash) as [l|e] eqn:El.
    - intros E'. inv_bind E'. injection E' as <- <-. subst gt.
      apply (put_branch_spec _ _ _ _ _ _ _ (AuctionState (as_prices st) (as_captures st) (as_held st) modes) _ El Hw E0).
    - destruct e; try done. intros E'. inv_bind E'. unfold hold_market in E0. inv_bind E0. injection E0 as <-.
      by apply (Hskip _ _ E'). }
  destruct gt as [| | | | | |[|x a] [|y h]]; try (apply (Htable _ _ eq_refl E)); try (by apply (Hskip _ _ E));
    (destruct (key_eqb _ _); [by apply (Hskip _ _ E) | done]).
Qed.

(** Whatever a submission holds, the price store stays sound: only finite,
    non-negative numbers of known game modes are in it, and every price it had
    is still there or was replaced by one that is not older. *)
Theorem auction_store_sound sid captured st g st' n :
  prices_wf (as_prices st) -> merge_auctionator sha256_hex user sid captured st g = Ok (st', n) ->
  prices_wf (as_prices st') /\ not_staler (as_prices st) (as_prices st').
Proof.
  unfold merge_auctionator. intros Hw E.
  destruct (dget _ g) as [[| | | | | |a h]|]; try (injection E as <- <-; split; [done | apply not_staler_refl]).
  revert st st' n Hw E. induction h as [|[group gt] h IH]; intros st st' n Hw E; cbn [merge_markets] in E.
  { injection E as <- <-. split; [done | apply not_staler_refl]. }
  inv_bind E. destruct v as [st1 n1]. destruct (merge_market_spec _ _ _ _ _ _ _ Hw E0) as (Hw1 & Hs1 & _).
  inv_bind E. destruct v as [st2 n2]. injection E as <- <-. destruct (IH _ _ _ Hw1 E1) as [Hw2 Hs2].
  split; [done | by apply (not_staler_trans _ (as_prices st1))].
Qed.

(** A market branch is merged whole or not at all: either every price of it
    is in the store under its mode, at its own capture date or a later one,
    and nothing is held back; or no price and no observation has changed. *)
Theorem market_branch_whole sid captured st group gt st' n :
  prices_wf (as_prices st) -> merge_market sha256_hex user sid captured st group gt = Ok (st', n) ->
  branch_done captured gt st st' n.
Proof. intros Hw E. apply (merge_market_spec _ _ _ _ _ _ _ Hw E). Qed.
End AuctionLaws.

(** A market of one price and of a price that is none. *)
Definition market (group : string) (price : Z) : list (pystr * lua) :=
  [(lit "AUCTIONATOR_PRICE_DATABASE", VTable [] [(VStr (lit "__dbversion"), VInt 4);
     (VStr (lit group), VTable [] [(VStr (lit "2589"), VInt price)])])].
Definition no_prices : auction_state := AuctionState [] [] [] MODE_TABLE.
Definition merge_sample (captured : string) (st : auction_state) (g : list (pystr * lua)) : res (auction_state * Z) :=
  @merge_auctionator latin_unicode (fun _ => []) [] (lit "s") (Some (lit captured)) st g.

Lemma auction_store_sound_witness :
  exists st n st' n', merge_sample "2026-09-11" no_prices (market "Rexxar - Conquest of Azeroth" 77) = Ok (st, n)
  /\ merge_sample "2026-09-10" st (market "Rexxar - Conquest of Azeroth" 70) = Ok (st', n')
  /\ prices_wf (as_prices st') /\ not_staler (as_prices st) (as_prices st')
  /\ price_of (as_prices st') (lit "conquest-of-azeroth") (lit "2589") = Some (VInt 77, Some (lit "2026-09-11")).
Proof.
  destruct (merge_sample "2026-09-11" no_prices (market "Rexxar - Conquest of Azeroth" 77)) as [[st n]|] eqn:E1;
    [|vm_compute in E1; discriminate].
  destruct (merge_sample "2026-09-10" st (market "Rexxar - Conquest of Azeroth" 70)) as [[st' n']|] eqn:E2;
    [|vm_compute in E1; injection E1 as <- <-; vm_compute in E2; discriminate].
  exists st, n, st', n'. split; [reflexivity|]. split; [exact E2|].
  assert (prices_wf (as_prices no_prices)) as H0 by constructor.
  destruct (@auction_store_sound latin_unicode _ _ _ _ _ _ _ _ H0 E1) as [H1 _].
  destruct (@auction_store_sound latin_unicode _ _ _ _ _ _ _ _ H1 E2) as [H2 H3].
  split; [exact H2|]. split; [exact H3|].
  vm_compute in E1. injection E1 as <- <-. vm_compute in E2. injection E2 as <- <-. reflexivity.
Defined.

Lemma market_branch_whole_witness :
  exists st', @merge_market latin_unicode (fun _ => []) [] (lit "s") None no_prices (VStr (lit "Rexxar - Free-Pick"))
    (VTable [] [(VStr (lit "1"), VInt 5); (VStr (lit "2"), VInt (-5))]) = Ok (st', 0)
  /\ branch_done None (VTable [] [(VStr (lit "1"), VInt 5); (VStr (lit "2"), VInt (-5))]) no_prices st' 0
  /\ as_prices st' = [] /\ length (as_held st') = 1%nat.
Proof.
  eexists. split; [vm_compute; reflexivity|]. split; [|split; reflexivity].
  eapply (@market_branch_whole latin_unicode (fun _ => []) [] (lit "s") None no_prices (VStr (lit "Rexxar - Free-Pick"))).
  - constructor.
  - vm_compute. reflexivity.
Defined.

(** Two realms of one mode share a bucket: the second realm's price replaces
    the first one's, under the first realm's name. *)
Lemma realms_share_prices :
  exists st n st' n', merge_sample "2026-09-11" no_prices (market "Rexxar - Free-Pick" 77) = Ok (st, n)
  /\ merge_sample "2026-09-12" st (market "Laughing Skull - Free-Pick" 5) = Ok (st', n')
  /\ map (fun sb => (pb_group (snd sb), pb_items (snd sb))) (as_prices st')
     = [(lit "Rexxar - Free-Pick", [(lit "2589", (VInt 5, Some (lit "2026-09-12")))])].
Proof. do 4 eexists. split; [vm_compute; reflexivity|]. split; [vm_compute; reflexivity|]. reflexivity. Qed.

(** An integer price that no float can hold ends the run. *)
Lemma huge_price : merge_sample "2026-09-11" no_prices (market "Rexxar - Free-Pick" (2 ^ 1024)) = Err OverflowError.
Proof. vm_compute. reflexivity. Qed.
