(* ===== verification/LuaBuild.v ===== *)
(** * Which build of a pushed addon is published (cache-consolidator/tools/luamerge.py)

    A build is ranked by how many separate submissions carried it, then by the
    age of its oldest capture; what those two cannot separate is not published. *)
From stdpp Require Import sorting.
From S2P Require Import Prelude Text Format Lua LuaMerge.

(** ** Provenance *)

(** What a source row says of a file: [None] where the field is missing. *)
Record source_info := SourceInfo { si_submission : option pystr; si_captured : option pystr }.
Abbreviation source_infos := (list (pystr * source_info)) (only parsing).
Definition no_source : source_info := SourceInfo None None.

Definition source_of (srcinfo : source_infos) (sid : pystr) : source_info :=
  default no_source (dget sid srcinfo).

(** The submission a file came in, or the file itself. *)
Definition submission_name (srcinfo : source_infos) (sid : pystr) : pystr :=
  match si_submission (source_of srcinfo sid) with
  | Some (c :: s) => c :: s
  | _ => lit "file:" ++ take 12 sid
  end.

(** [submissions(v)], as a list without repetitions. *)
Definition submissions (srcinfo : source_infos) (v : aio_build) : list pystr :=
  remove_dups (map (submission_name srcinfo) (ab_srcs v)).

Definition captures_of (srcinfo : source_infos) (v : aio_build) : list pystr :=
  omap (fun sid => match si_captured (source_of srcinfo sid) with Some (c :: s) => Some (c :: s) | _ => None end)
    (ab_srcs v).

(** [earliest(v)]. *)
Definition earliest (srcinfo : source_infos) (v : aio_build) : pystr :=
  default [] (head (py_sort str_leb (captures_of srcinfo v))).

(** ** Ranks *)

(** [s.split("-")]. *)
Fixpoint split_dash (s cur : pystr) : list pystr :=
  match s with
  | [] => [rev cur]
  | c :: t => if c =? 45 then rev cur :: split_dash t [] else split_dash t (c :: cur)
  end.

(** [a < b] of two tuples of integers. *)
Fixpoint tuple_ltb (a b : list Z) : bool :=
  match a, b with
  | [], [] => false
  | [], _ :: _ => true
  | _ :: _, [] => false
  | x :: a, y :: b => if x =? y then tuple_ltb a b else x <? y
  end.

Section Choose.
Context `{Unicode}.

(** [_neg_date]: a part that is not a number makes it raise. *)
Definition _neg_date (d : pystr) : res (list Z) :=
  match d with
  | [] => Ok [-9999]
  | _ => res_map (fun x => n ← int_of_str x; Ok (- n)) (split_dash d [])
  end.

(** The sort key: submissions, then age. *)
Definition rank (srcinfo : source_infos) (v : aio_build) : res (Z * list Z) :=
  age ← _neg_date (earliest srcinfo v); Ok (pylen (submissions srcinfo v), age).

Definition rank_ltb (a b : Z * list Z) : bool := tuple_ltb (fst a :: snd a) (fst b :: snd b).

(** [sorted(..., reverse=True)]: the best first, equal ones in their order. *)
Definition ranked_leb {A} (a b : (Z * list Z) * A) : bool := negb (rank_ltb (fst a) (fst b)).

Definition UNRESOLVED : pystr := lit "UNRESOLVED".
Definition CORROBORATED : pystr := lit "corroborated".
Definition SINGLE : pystr := lit "single submission".

Definition same_rank (srcinfo : source_infos) (v w : aio_build) : bool :=
  bool_decide (pylen (submissions srcinfo v) = pylen (submissions srcinfo w)
               /\ earliest srcinfo v = earliest srcinfo w).

Record addon_choice := AddonChoice {
  ac_vid : pystr; ac_build : aio_build; ac_note : pystr; ac_tied : list (pystr * aio_build) }.

(** [choose_addon_build]. *)
Definition choose_addon_build (srcinfo : source_infos) (variants : list (pystr * aio_build))
    : res addon_choice :=
  keyed ← res_map (fun kv => r ← rank srcinfo (snd kv); Ok (r, kv)) variants;
  let ranked := map snd (py_sort ranked_leb keyed) in
  top ← index ranked 0;
  let tied := filter (fun kv => same_rank srcinfo (snd kv) (snd top) = true) ranked in
  let note := if 1 <? pylen tied then UNRESOLVED
              else if 2 <=? pylen (submissions srcinfo (snd top)) then CORROBORATED else SINGLE in
  Ok (AddonChoice (fst top) (snd top) note tied).

(** [addon_stats]. *)
Definition addon_stats (srcinfo : source_infos) (v : aio_build) : Z * Z * pystr :=
  (pylen (submissions srcinfo v), pylen (ab_srcs v), earliest srcinfo v).
End Choose.

(** Two builds of one addon; the second one came in two submissions. *)
Example choose_ex :
  let b c srcs := AioBuild c VNone srcs 0 in
  let info := [(lit "s1", SourceInfo (Some (lit "archive:a")) (Some (lit "2026-09-11")));
               (lit "s2", SourceInfo (Some (lit "archive:b")) (Some (lit "2026-09-12")));
               (lit "s3", SourceInfo (Some (lit "archive:c")) (Some (lit "2026-09-10")))] in
  let note vs := match @choose_addon_build latin_unicode info vs with Ok c => Some (ac_vid c, ac_note c) | Err _ => None end in
  note [(lit "x", b [] [lit "s3"]); (lit "y", b [] [lit "s1"; lit "s2"])] = Some (lit "y", CORROBORATED)
  /\ note [(lit "x", b [] [lit "s1"]); (lit "y", b [] [lit "s3"])] = Some (lit "y", SINGLE)
  /\ note [(lit "x", b [] [lit "s1"]); (lit "y", b [] [lit "s1"])] = Some (lit "x", UNRESOLVED)
  /\ note [] = None.
Proof. vm_compute. repeat split; reflexivity. Qed.

(** ** The order of the ranks *)

Lemma tuple_ltb_irrefl a : tuple_ltb a a = false.
Proof. induction a as [|x a IH]; [done|]. cbn. by rewrite Z.eqb_refl. Qed.

Lemma tuple_ltb_asym a b : tuple_ltb a b = true -> tuple_ltb b a = false.
Proof.
  revert b. induction a as [|x a IH]; intros [|y b]; cbn; try done.
  rewrite (Z.eqb_sym y x). destruct (Z.eqb_spec x y) as [->|?]; [apply IH|].
  intros ?%Z.ltb_lt. apply Z.ltb_ge. lia.
Qed.

Lemma tuple_ltb_total a b : tuple_ltb a b = false -> tuple_ltb b a = false -> a = b.
Proof.
  revert b. induction a as [|x a IH]; intros [|y b]; cbn; try done.
  rewrite (Z.eqb_sym y x). destruct (Z.eqb_spec x y) as [->|?]; [intros; f_equal; auto|].
  intros ?%Z.ltb_ge ?%Z.ltb_ge. lia.
Qed.

Lemma tuple_ltb_trans a b c : tuple_ltb a b = false -> tuple_ltb b c = false -> tuple_ltb a c = false.
Proof.
  revert b c. induction a as [|x a IH]; intros [|y b] [|z c]; cbn; try done.
  destruct (Z.eqb_spec x y), (Z.eqb_spec y z), (Z.eqb_spec x z);
    rewrite ?Z.ltb_ge; try lia; try done; eauto.
Qed.

Lemma rank_ltb_total a b : rank_ltb a b = false -> rank_ltb b a = false -> a = b.
Proof. intros E1 E2. pose proof (tuple_ltb_total _ _ E1 E2). destruct a, b. cbn in *. by simplify_eq. Qed.

Lemma ranked_leb_total {A} (x y : (Z * list Z) * A) : ranked_leb x y = false -> ranked_leb y x = true.
Proof. unfold ranked_leb, rank_ltb. intros E%negb_false_iff. by rewrite tuple_ltb_asym. Qed.

Lemma ranked_leb_trans {A} (x y z : (Z * list Z) * A) :
  ranked_leb x y = true -> ranked_leb y z = true -> ranked_leb x z = true.
Proof. unfold ranked_leb, rank_ltb. rewrite !negb_true_iff. apply tuple_ltb_trans. Qed.

(** ** The choice *)

Section ChoiceLaws.
Context `{Unicode} (srcinfo : source_infos).

(** Captures that are equally old are the same text, as ISO dates are. *)
Definition dates_faithful (variants : list (pystr * aio_build)) : Prop :=
  forall kv kw, kv ∈ variants -> kw ∈ variants ->
  _neg_date (earliest srcinfo (snd kv)) = _neg_date (earliest srcinfo (snd kw)) ->
  earliest srcinfo (snd kv) = earliest srcinfo (snd kw).

(** [w] is ranked strictly below [v]. *)
Definition outranks (v w : aio_build) : Prop :=
  exists a b, rank srcinfo v = Ok a /\ rank srcinfo w = Ok b /\ rank_ltb b a = true.

Lemma same_rank_rank v w : same_rank srcinfo v w = true -> rank srcinfo v = rank srcinfo w.
Proof. unfold same_rank, rank. by intros [-> ->]%bool_decide_eq_true. Qed.

Lemma rank_same variants kv kw :
  dates_faithful variants -> kv ∈ variants -> kw ∈ variants -> forall r,
  rank srcinfo (snd kv) = Ok r -> rank srcinfo (snd kw) = Ok r -> same_rank srcinfo (snd kv) (snd kw) = true.
Proof.
  intros Hd Hv Hw r E1 E2. unfold rank in E1, E2. inv_bind E1. inv_bind E2. simplify_eq.
  apply bool_decide_eq_true. split; [congruence|]. apply (Hd kv kw Hv Hw). congruence.
Qed.

(** The ranked list: the variants, each with its rank, the best first. *)
Lemma ranked_ok (variants : list (pystr * aio_build)) keyed :
  res_map (fun kv => r ← rank srcinfo (snd kv); Ok (r, kv)) variants = Ok keyed ->
  map snd keyed = variants /\ Forall (fun rk => rank srcinfo (snd (snd rk)) = Ok (fst rk)) keyed.
Proof.
  revert keyed. induction variants as [|kv l IH]; intros keyed E; cbn in E; [by simplify_eq|].
  destruct (rank srcinfo (snd kv)) as [r|] eqn:Er; [|done]. cbn [mbind res_bind] in E. inv_bind E.
  simplify_eq. destruct (IH _ eq_refl) as [<- Hf]. split; [done|]. by constructor.
Qed.

(** The first of the ranked list is not below any other. *)
Lemma ranked_top keyed top rest :
  py_sort ranked_leb keyed = top :: rest ->
  forall rk : (Z * list Z) * (pystr * aio_build), rk ∈ keyed -> rank_ltb (fst top) (fst rk) = false.
Proof.
  intros E rk Hrk. pose proof (py_sort_sorted ranked_leb ranked_leb_total ranked_leb_trans keyed) as Hs.
  rewrite E in Hs. apply StronglySorted_inv in Hs as [_ Hs].
  rewrite <- (py_sort_elem ranked_leb), E in Hrk. apply elem_of_cons in Hrk as [->|Hrk].
  - apply tuple_ltb_irrefl.
  - rewrite Forall_forall in Hs. apply negb_true_iff, (Hs rk Hrk).
Qed.

Lemma choose_unfold variants c :
  choose_addon_build srcinfo variants = Ok c ->
  exists ranked kv rest r,
    ranked = kv :: rest /\ ranked ≡ₚ variants /\ kv = (ac_vid c, ac_build c)
    /\ rank srcinfo (snd kv) = Ok r
    /\ (forall kw, kw ∈ variants -> exists s, rank srcinfo (snd kw) = Ok s /\ rank_ltb r s = false)
    /\ ac_tied c = filter (fun kw => same_rank srcinfo (snd kw) (snd kv) = true) ranked
    /\ ac_note c = (if 1 <? pylen (ac_tied c) then UNRESOLVED
                    else if 2 <=? pylen (submissions srcinfo (ac_build c)) then CORROBORATED else SINGLE).
Proof.
  unfold choose_addon_build. intros E. inv_bind E. destruct (ranked_ok _ _ E0) as [Hv Hr].
  destruct (py_sort ranked_leb v) as [|top rest] eqn:Es; [done|].
  destruct top as [r [vid b]]. cbn in E. simplify_eq E. intros <-. cbn [ac_vid ac_build ac_note ac_tied].
  assert (map snd ((r, (vid, b)) :: rest) ≡ₚ variants) as Hp
    by (rewrite <- Es, <- Hv; apply fmap_Permutation, py_sort_perm).
  assert ((r, (vid, b)) ∈ v) as Hin by (rewrite <- (py_sort_elem ranked_leb), Es; left).
  rewrite Forall_forall in Hr. exists (map snd ((r, (vid, b)) :: rest)), (vid, b), (map snd rest), r.
  split_and!; try done; [apply (Hr _ Hin)|].
  intros kw Hkw. rewrite <- Hv in Hkw. apply list_elem_of_fmap in Hkw as ([s kw'] & -> & Hs).
  exists s. split; [apply (Hr _ Hs)|]. apply (ranked_top _ _ _ Es _ Hs).
Qed.

(** Every other variant is tied with the choice or ranked below it. *)
Lemma choose_best variants c :
  dates_faithful variants -> choose_addon_build srcinfo variants = Ok c ->
  (ac_vid c, ac_build c) ∈ variants
  /\ (forall kw, kw ∈ ac_tied c <-> kw ∈ variants /\ same_rank srcinfo (snd kw) (ac_build c) = true)
  /\ (forall kw, kw ∈ variants -> kw ∈ ac_tied c \/ outranks (ac_build c) (snd kw)).
Proof.
  intros Hd (ranked & kv & rest & r & Er & Hp & -> & Hr & Hk & Ht & _)%choose_unfold.
  assert ((ac_vid c, ac_build c) ∈ variants) as Hin by (rewrite <- Hp, Er; left).
  assert (forall kw, kw ∈ ac_tied c <-> kw ∈ variants /\ same_rank srcinfo (snd kw) (ac_build c) = true) as Htied.
  { intros kw. rewrite Ht, list_elem_of_filter, Hp. naive_solver. }
  split_and!; [done..|]. intros kw Hkw. destruct (Hk kw Hkw) as (s & Hs & Hle).
  destruct (rank_ltb s r) eqn:E; [right; by exists r, s|]. left. apply Htied. split; [done|].
  assert (s = r) as -> by (by apply rank_ltb_total).
  by apply (rank_same variants kw (ac_vid c, ac_build c) Hd Hkw Hin r).
Qed.

Lemma same_rank_equiv v w u : same_rank srcinfo v w = true -> same_rank srcinfo v u = same_rank srcinfo w u.
Proof. unfold same_rank. intros [E1 E2]%bool_decide_eq_true. by rewrite E1, E2. Qed.

Lemma same_rank_refl v : same_rank srcinfo v v = true.
Proof. unfold same_rank. by apply bool_decide_eq_true. Qed.

(** A choice exists when there is a variant and every date is one. *)
Lemma choose_exists variants :
  variants <> [] -> (forall kw, kw ∈ variants -> exists r, rank srcinfo (snd kw) = Ok r) ->
  exists c, choose_addon_build srcinfo variants = Ok c.
Proof.
  intros Hne Hr. unfold choose_addon_build.
  assert (exists keyed, res_map (fun kv => r ← rank srcinfo (snd kv); Ok (r, kv)) variants = Ok keyed) as [keyed E].
  { clear Hne. induction variants as [|kv l IH]; [by eexists|]. cbn [res_map].
    destruct (Hr kv) as [r Er]; [by left|]. rewrite Er. cbn [mbind res_bind].
    destruct IH as [k Ek]; [intros kw Hw; apply Hr; by right|]. rewrite Ek. by eexists. }
  destruct (ranked_ok _ _ E) as [Hv _]. rewrite E. cbn [mbind res_bind].
  destruct (py_sort ranked_leb keyed) as [|[r kv] rest] eqn:Es.
  - pose proof (py_sort_perm ranked_leb keyed) as Hp. rewrite Es in Hp. apply Permutation_nil_l in Hp. by subst.
  - cbn. by eexists.
Qed.

(** The status follows from how many are tied. *)
Lemma note_unresolved variants c :
  choose_addon_build srcinfo variants = Ok c -> (ac_note c = UNRESOLVED <-> 1 < pylen (ac_tied c)).
Proof.
  intros (? & ? & ? & ? & _ & _ & _ & _ & _ & _ & ->)%choose_unfold.
  destruct (Z.ltb_spec 1 (pylen (ac_tied c))); [done|]. split; [|lia].
  by destruct (2 <=? pylen (submissions srcinfo (ac_build c))).
Qed.

Lemma choice_tied variants c :
  dates_faithful variants -> choose_addon_build srcinfo variants = Ok c -> (ac_vid c, ac_build c) ∈ ac_tied c.
Proof. intros Hd Hc. destruct (choose_best _ _ Hd Hc) as (Hin & Ht & _). apply Ht. split; [done|]. apply same_rank_refl. Qed.

(** The tied builds are without repetitions, as the dictionary is. *)
Lemma tied_NoDup variants c :
  dict_ok variants -> choose_addon_build srcinfo variants = Ok c -> NoDup (ac_tied c).
Proof.
  intros Hd (ranked & ? & ? & ? & _ & Hp & _ & _ & _ & -> & _)%choose_unfold.
  apply NoDup_filter. rewrite Hp. by apply (NoDup_fmap_1 fst).
Qed.

(** Two orders of the same builds choose builds of one rank. *)
Lemma choice_order variants variants' c c' :
  dates_faithful variants -> variants' ≡ₚ variants ->
  choose_addon_build srcinfo variants = Ok c -> choose_addon_build srcinfo variants' = Ok c' ->
  same_rank srcinfo (ac_build c') (ac_build c) = true.
Proof.
  intros Hd Hp Hc Hc'.
  destruct (choose_unfold _ _ Hc) as (k & kv & rest & r & -> & Hpk & -> & Hr & Hk & _).
  destruct (choose_unfold _ _ Hc') as (k' & kv' & rest' & r' & -> & Hpk' & -> & Hr' & Hk' & _).
  assert ((ac_vid c, ac_build c) ∈ variants) as Hin by (rewrite <- Hpk; left).
  assert ((ac_vid c', ac_build c') ∈ variants) as Hin' by (rewrite <- Hp, <- Hpk'; left).
  destruct (Hk _ Hin') as (s & Hs & H1). destruct (Hk' (ac_vid c, ac_build c)) as (s' & Hs' & H2); [by rewrite Hp|].
  cbn [snd] in *. assert (s = r') as -> by congruence. assert (s' = r) as -> by congruence.
  assert (r = r') as <- by (by apply rank_ltb_total).
  by apply (rank_same variants (ac_vid c', ac_build c') (ac_vid c, ac_build c) Hd Hin' Hin r).
Qed.

(** One build is tied with itself only: it is the choice. *)
Lemma tied_single variants c kw :
  dates_faithful variants -> choose_addon_build srcinfo variants = Ok c -> ac_note c <> UNRESOLVED ->
  kw ∈ ac_tied c -> kw = (ac_vid c, ac_build c).
Proof.
  intros Hd Hc Hn Hk. pose proof (choice_tied _ _ Hd Hc) as Hin. rewrite (note_unresolved _ _ Hc) in Hn.
  destruct (ac_tied c) as [|x [|y l]]; [by apply not_elem_of_nil in Hk| |autorewrite with pylen in Hn; pose proof (pylen_nonneg l); lia].
  apply list_elem_of_singleton in Hk, Hin. congruence.
Qed.

(** The build that is published is decided by the evidence alone.  Unless
    the addon is unresolved, every other build came in fewer submissions or
    was first captured later; an unresolved one has another build that neither
    criterion separates from it; and whatever order the builds were merged in,
    the status is the same, the same builds are tied, and the same build is
    published. *)
Theorem addon_choice_sound variants variants' c :
  dict_ok variants -> dates_faithful variants ->
  choose_addon_build srcinfo variants = Ok c -> variants' ≡ₚ variants ->
  (ac_note c <> UNRESOLVED ->
     forall kw, kw ∈ variants -> fst kw <> ac_vid c -> outranks (ac_build c) (snd kw))
  /\ (ac_note c = UNRESOLVED ->
        exists kw, kw ∈ variants /\ fst kw <> ac_vid c /\ same_rank srcinfo (snd kw) (ac_build c) = true)
  /\ exists c', choose_addon_build srcinfo variants' = Ok c'
       /\ ac_note c' = ac_note c /\ ac_tied c' ≡ₚ ac_tied c
       /\ (ac_note c <> UNRESOLVED -> ac_vid c' = ac_vid c /\ ac_build c' = ac_build c).
Proof.
  intros Hok Hd Hc Hp. destruct (choose_best _ _ Hd Hc) as (Hin & Ht & Hb). split_and!.
  - intros Hn kw Hkw Hne. destruct (Hb kw Hkw) as [Hk|]; [|done].
    by rewrite (tied_single _ _ kw Hd Hc Hn Hk) in Hne.
  - intros Hn. apply (note_unresolved _ _ Hc) in Hn. pose proof (tied_NoDup _ _ Hok Hc) as Hnd.
    destruct (ac_tied c) as [|x [|y l]] eqn:E; [unfold pylen in Hn; cbn in Hn; lia..|].
    assert (forall kw, kw ∈ x :: y :: l -> fst kw <> ac_vid c -> exists kw, kw ∈ variants
      /\ fst kw <> ac_vid c /\ same_rank srcinfo (snd kw) (ac_build c) = true) as Hw.
    { intros kw Hk Hne. exists kw. apply Ht in Hk. naive_solver. }
    assert (forall kw, kw ∈ x :: y :: l -> fst kw = ac_vid c -> kw = (ac_vid c, ac_build c)) as Hu.
    { intros [v b] Hk%Ht E'. cbn in E'. subst v. f_equal. destruct Hk as [Hk _].
      apply (elem_of_dget _ _ _ Hok) in Hk, Hin. congruence. }
    destruct (decide (fst x = ac_vid c)) as [Ex|]; [|apply (Hw x); [left|done]].
    destruct (decide (fst y = ac_vid c)) as [Ey|]; [|apply (Hw y); [right; left|done]].
    apply Hu in Ex; [|left]. apply Hu in Ey; [|right; left]. subst x y.
    apply NoDup_cons in Hnd as [[]%not_elem_of_cons _]. done.
  - destruct (choose_exists variants') as [c' Hc'].
    { intros ->. apply Permutation_nil_l in Hp. subst. by apply not_elem_of_nil in Hin. }
    { intros kw Hkw. rewrite Hp in Hkw. destruct (choose_unfold _ _ Hc) as (k & kv & rest & r & _ & _ & _ & _ & Hk & _).
      destruct (Hk _ Hkw) as (s & Hs & _). by exists s. }
    exists c'. assert (dates_faithful variants') as Hd'.
    { intros kv kw Hv Hw. apply Hd; by rewrite <- Hp. }
    assert (dict_ok variants') as Hok' by (unfold dict_ok, dkeys in *; by rewrite Hp).
    pose proof (choice_order _ _ _ _ Hd Hp Hc Hc') as Hs.
    destruct (choose_best _ _ Hd' Hc') as (Hin' & Ht' & _).
    assert (ac_tied c' ≡ₚ ac_tied c) as Etied.
    { apply NoDup_Permutation; [exact (tied_NoDup _ _ Hok' Hc') | exact (tied_NoDup _ _ Hok Hc) |]. intros kw. rewrite Ht, Ht', Hp.
      assert (same_rank srcinfo (snd kw) (ac_build c') = same_rank srcinfo (snd kw) (ac_build c)) as ->; [|done].
      revert Hs. unfold same_rank. intros [-> ->]%bool_decide_eq_true. done. }
    pose proof (note_unresolved _ _ Hc) as Hn. pose proof (note_unresolved _ _ Hc') as Hn'.
    assert (pylen (ac_tied c') = pylen (ac_tied c)) as El by (unfold pylen; by rewrite Etied).
    split_and!; [done| |done|].
    + destruct (choose_unfold _ _ Hc) as (? & ? & ? & ? & _ & _ & _ & _ & _ & _ & ->).
      destruct (choose_unfold _ _ Hc') as (? & ? & ? & ? & _ & _ & _ & _ & _ & _ & ->).
      revert Hs. unfold same_rank. intros [-> _]%bool_decide_eq_true. by rewrite El.
    + intros Hu. pose proof (choice_tied _ _ Hd' Hc') as Hin2. rewrite Etied in Hin2.
      apply (tied_single _ _ _ Hd Hc Hu) in Hin2. by simplify_eq.
Qed.
End ChoiceLaws.

(** Three builds of one addon, in two orders of merging. *)
Definition sample_infos : source_infos :=
  [(lit "s1", SourceInfo (Some (lit "archive:a")) (Some (lit "2026-09-11")));
   (lit "s2", SourceInfo (Some (lit "archive:b")) (Some (lit "2026-09-12")));
   (lit "s3", SourceInfo None (Some (lit "2026-09-10")))].
Definition sample_builds : list (pystr * aio_build) :=
  [(lit "x", AioBuild [120] VNone [lit "s3"] 1); (lit "y", AioBuild [121] VNone [lit "s1"; lit "s2"] 1);
   (lit "z", AioBuild [122] VNone [] 1)].

Lemma addon_choice_sound_witness :
  exists c', @choose_addon_build latin_unicode sample_infos (rev sample_builds) = Ok c'
    /\ ac_note c' = CORROBORATED /\ ac_vid c' = lit "y".
Proof.
  destruct (@choose_addon_build latin_unicode sample_infos sample_builds) as [c|] eqn:E; [|discriminate].
  destruct (@addon_choice_sound latin_unicode sample_infos sample_builds (rev sample_builds) c)
    as (_ & _ & c' & Hc' & Hn & _ & Hv).
  - by_decide.
  - intros kv kw Hkv Hkw. unfold sample_builds in *. rewrite !elem_of_cons, elem_of_nil in Hkv, Hkw.
    destruct_or! Hkv; destruct_or! Hkw; subst; try done; vm_compute; discriminate.
  - exact E.
  - symmetry. apply Permutation_rev.
  - vm_compute in E. injection E as <-. exists c'. split; [exact Hc'|]. split; [exact Hn|].
    apply Hv. discriminate.
Defined.
