(* ===== verification/LuaMergeSpec.v ===== *)
(** * What merging SavedVariables keeps

    A merge step absorbs an observation when taking it in again changes
    nothing, and nothing taken in later undoes that.  Absorbing steps compose:
    through a loop over a table, through a dictionary of records.  So the whole
    mob store is one: replaying a submission never changes what was merged. *)
From S2P Require Import Prelude PyFloat Text Format Lua Modes LuaMerge LuaSpec LuaTotal.

(** ** Equality of keys *)

Lemma num_eqb_trans a b c : num_eqb a b = true -> num_eqb b c = true -> num_eqb a c = true.
Proof.
  destruct a as [|m1 e1| |], b as [|m2 e2| |], c as [|m3 e3| |]; try done. cbn [num_eqb].
  set (e := Z.min e1 (Z.min e2 e3)).
  rewrite <- (fin_compare_scale m1 e1 m2 e2 e), <- (fin_compare_scale m2 e2 m3 e3 e),
    <- (fin_compare_scale m1 e1 m3 e3 e) by lia.
  destruct (Z.compare_spec (m1 * 2 ^ (e1 - e)) (m2 * 2 ^ (e2 - e))) as [->| |]; try done.
Qed.

Lemma num_ltb_trans a b c : num_ltb a b = true -> num_ltb b c = true -> num_ltb a c = true.
Proof.
  destruct a as [|m1 e1| |], b as [|m2 e2| |], c as [|m3 e3| |]; try done. cbn [num_ltb].
  set (e := Z.min e1 (Z.min e2 e3)).
  rewrite <- (fin_compare_scale m1 e1 m2 e2 e), <- (fin_compare_scale m2 e2 m3 e3 e),
    <- (fin_compare_scale m1 e1 m3 e3 e) by lia.
  destruct (Z.compare_spec (m1 * 2 ^ (e1 - e)) (m2 * 2 ^ (e2 - e))); try done.
  destruct (Z.compare_spec (m2 * 2 ^ (e2 - e)) (m3 * 2 ^ (e3 - e))); try done.
  destruct (Z.compare_spec (m1 * 2 ^ (e1 - e)) (m3 * 2 ^ (e3 - e))); try done; lia.
Qed.

Lemma key_eqb_trans a b c : key_eqb a b = true -> key_eqb b c = true -> key_eqb a c = true.
Proof.
  destruct a, b; try done; destruct c; try done; cbn -[num_eqb num_of];
    solve [rewrite !bool_decide_eq_true; congruence | apply num_eqb_trans].
Qed.

(** Equal keys are alike to the third. *)
Lemma key_eqb_same a b c : key_eqb a b = true -> key_eqb a c = key_eqb b c.
Proof.
  intros E. destruct (key_eqb b c) eqn:E2; [by apply (key_eqb_trans a b)|].
  destruct (key_eqb a c) eqn:E3; [|done]. rewrite <- E2. symmetry.
  apply (key_eqb_trans b a); [by rewrite key_eqb_sym | done].
Qed.

Lemma hget_same k k' h : key_eqb k k' = true -> hget k h = hget k' h.
Proof.
  intros E. induction h as [|[a b] h IH]; [done|]. cbn.
  by rewrite !(key_eqb_sym a), (key_eqb_same k k' a E), IH.
Qed.

Lemma hget_hset k k' x h : hget k (hset k' x h) = if key_eqb k' k then Some x else hget k h.
Proof.
  induction h as [|[a b] h IH]; [done|]. cbn. destruct (key_eqb a k') eqn:E; cbn.
  - rewrite (key_eqb_same a k' k E). by destruct (key_eqb k' k).
  - destruct (key_eqb a k) eqn:E2; [|done]. destruct (key_eqb k' k) eqn:E3; [|done].
    assert (key_eqb a k' = true); [|congruence]. apply (key_eqb_trans a k); [done | by rewrite key_eqb_sym].
Qed.

Lemma hset_same k v h : hget k h = Some v -> hset k v h = h.
Proof.
  induction h as [|[a b] h IH]; [done|]. cbn. destruct (key_eqb a k); [by intros [= ->]|].
  intros E. by rewrite IH.
Qed.

Lemma dset_same `{EqDecision K} {V} (k : K) (v : V) d : dget k d = Some v -> dset k v d = d.
Proof.
  induction d as [|[a b] d IH]; [done|]. cbn. case_decide; [by intros [= ->]|]. intros E. by rewrite IH.
Qed.

(** ** Absorbing steps *)

(** [A s x]: [x] is absorbed in [s].  What is absorbed changes nothing; what was
    taken in is absorbed; and it stays so. *)
Record absorbing {S X} (step : S -> X -> S) (A : S -> X -> Prop) (ok : X -> Prop) : Prop := {
  ab_done s x : A s x -> step s x = s;
  ab_after s x : ok x -> A (step s x) x;
  ab_keep s x y : A s x -> A (step s y) x }.

Section Absorb.
Context {S X : Type} (step : S -> X -> S) (A : S -> X -> Prop) (ok : X -> Prop).
Context (Hab : absorbing step A ok).

Lemma fold_keep s x l : A s x -> A (fold_left step l s) x.
Proof. revert s. induction l as [|y l IH]; intros s Hs; [done|]. cbn. apply IH, (ab_keep _ _ _ Hab), Hs. Qed.

(** A loop over a list of observations. *)
Lemma absorbing_fold :
  absorbing (fun s l => fold_left step l s) (fun s l => Forall (A s) l) (Forall ok).
Proof.
  split.
  - intros s l. induction l as [|x l IH]; intros Hl; [done|]. inversion_clear Hl as [|? ? Hx Hr].
    cbn. rewrite (ab_done _ _ _ Hab _ _ Hx). auto.
  - intros s l Hl. revert s. induction Hl as [|x l Hx Hl IH]; intros s; [done|]. cbn.
    constructor; [apply fold_keep, (ab_after _ _ _ Hab), Hx | apply IH].
  - intros s x y Hs. eapply Forall_impl; [exact Hs|]. intros z Hz. by apply fold_keep.
Qed.

(** The record of a dictionary that a key names. *)
Lemma absorbing_dict (s0 : S) :
  absorbing (fun d (kx : pystr * X) => dset (fst kx) (step (default s0 (dget (fst kx) d)) (snd kx)) d)
    (fun d kx => exists s, dget (fst kx) d = Some s /\ A s (snd kx)) (fun kx => ok (snd kx)).
Proof.
  split.
  - intros d [k x] (s & Hs & Ha). cbn [fst snd] in *. rewrite Hs. change (default s0 (Some s)) with s.
    rewrite (ab_done _ _ _ Hab _ _ Ha). by apply dset_same.
  - intros d [k x] Hx. cbn [fst snd] in *. eexists. rewrite dget_dset_eq. split; [done|].
    by apply (ab_after _ _ _ Hab).
  - intros d [k x] [k' y] (s & Hs & Ha). cbn [fst snd] in *. rewrite dget_dset. case_decide as E; [|eauto].
    subst k'. rewrite Hs. eexists. split; [done|]. by apply (ab_keep _ _ _ Hab).
Qed.

(** Only the items that are tables of a shape count. *)
Lemma absorbing_filter {Y} (part : Y -> option X) :
  absorbing (fun s y => match part y with Some x => step s x | None => s end)
    (fun s y => match part y with Some x => A s x | None => True end)
    (fun y => match part y with Some x => ok x | None => True end).
Proof.
  split.
  - intros s y. destruct (part y); [apply (ab_done _ _ _ Hab)|done].
  - intros s y. destruct (part y); [apply (ab_after _ _ _ Hab)|done].
  - intros s x y. destruct (part x) as [x'|], (part y); try done. apply (ab_keep _ _ _ Hab).
Qed.
End Absorb.

(** ** One field *)

(** A merged reading is stored unless it is None. *)
Definition store_reading (old : option lua) (x : lua) : option lua :=
  match x with VNone => old | _ => Some x end.

(** What a field holds after one more reading. *)
Definition cell_step (r : rule) (old : option lua) (v : lua) : option lua :=
  if bool_decide (r = DROP) || is_table v then old
  else if bool_decide (r = FIRST) && match old with Some o => negb (key_eqb o v) | None => false end then old
  else store_reading old (combine r (default VNone old) v).

Lemma merge_field_cell fields w dst k v :
  fst (merge_field fields w dst k v)
  = match cell_step (_rule_for fields k) (hget k dst) v with Some m => hset k m dst | None => dst end.
Proof.
  unfold merge_field, cell_step. set (r := _rule_for fields k).
  assert (forall o, hget k dst = o -> match o with Some m => hset k m dst | None => dst end = dst) as Hsame.
  { intros [m|] E; [by apply hset_same | done]. }
  case_bool_decide as Ed; [cbn; symmetry; by apply Hsame|]. destruct (is_table v); cbn [orb]; [symmetry; by apply Hsame|].
  assert (forall o, hget k dst = o -> fst
      (match combine r (default VNone o) v with VNone => dst | m => hset k m dst end, @nil conflict)
      = match store_reading o (combine r (default VNone o) v) with
        | Some m => hset k m dst | None => dst end) as Hc.
  { intros o E. destruct (combine r (default VNone o) v); cbn; try done. symmetry. by apply Hsame. }
  destruct r eqn:Er; try (rewrite bool_decide_eq_false_2 by done; cbn [andb]; by apply Hc).
  rewrite bool_decide_eq_true_2 by done. cbn [andb]. destruct (hget k dst) as [old|] eqn:E; [|by apply Hc].
  destruct (key_eqb old v); cbn [negb]; [by apply (Hc (Some old))|].
  cbn. symmetry. by apply hset_same.
Qed.

(** A flag is read as a boolean. *)
Definition reading_ok (r : rule) (v : lua) : Prop :=
  match r with OR => is_table v = true \/ v = VNone \/ exists b, v = VBool b | NEWEST => False | _ => True end.

Lemma py_ltb_irrefl v : py_ltb v v <> Some true.
Proof.
  destruct v; try done; cbn -[num_ltb num_of]; intros E; apply Some_inj in E.
  1-3: by rewrite (num_ltb_asym _ _ E) in E.
  all: apply negb_true_iff in E; by rewrite (str_leb_total _ _ E) in E.
Qed.

Lemma py_ltb_trans a b c : py_ltb a b = Some true -> py_ltb b c = Some true -> py_ltb a c = Some true.
Proof.
  destruct a, b; try done; destruct c; try done; cbn -[num_ltb num_of];
    intros E1%Some_inj E2%Some_inj; f_equal;
    first [by eapply num_ltb_trans | rewrite !negb_true_iff in *].
  all: destruct (str_leb _ _) eqn:E3 in |- *; [|done].
  all: rewrite <- E1; symmetry; eapply str_leb_trans; [|exact E3]; by apply str_leb_total.
Qed.

(** The two bounds: a reading that does not improve one never will. *)
Lemma min_keep m v w : py_ltb v m <> Some true -> py_ltb v (match py_ltb w m with Some true => w | _ => m end) <> Some true.
Proof.
  intros Hv. destruct (py_ltb w m) as [[]|] eqn:Ew; try done. intros E. by apply Hv, (py_ltb_trans v w m).
Qed.

Lemma max_keep m v w : py_ltb m v <> Some true -> py_ltb (match py_ltb m w with Some true => w | _ => m end) v <> Some true.
Proof.
  intros Hv. destruct (py_ltb m w) as [[]|] eqn:Ew; try done. intros E. by apply Hv, (py_ltb_trans m w v).
Qed.

Lemma lua_none (v : lua) : {v = VNone} + {v <> VNone}.
Proof. by destruct v; (left; reflexivity) || (right; discriminate). Qed.

(** [combine] of two readings that are there. *)
Definition join_readings (r : rule) (o v : lua) : lua :=
  match r with
  | MIN => match py_ltb v o with Some true => v | _ => o end
  | MAX => match py_ltb o v with Some true => v | _ => o end
  | OR => VBool (lua_truthy o || lua_truthy v)
  | NEWEST => v
  | _ => o
  end.

Lemma combine_both r o v : r <> DROP -> o <> VNone -> v <> VNone -> combine r o v = join_readings r o v.
Proof. by destruct r, o, v. Qed.
Lemma combine_none_new r v : r <> DROP -> combine r VNone v = v.
Proof. by destruct r. Qed.
Lemma combine_none_old r v : r <> DROP -> combine r v VNone = v.
Proof. by destruct r, v. Qed.

Lemma some_unless (x : lua) o : x <> VNone -> store_reading o x = Some x.
Proof. by destruct x. Qed.

Lemma join_not_none r o v : o <> VNone -> v <> VNone -> join_readings r o v <> VNone.
Proof. intros. destruct r; cbn; repeat case_match; done. Qed.

(** What [o] holds covers the reading [v]. *)
Definition covers (r : rule) (o v : lua) : Prop :=
  match r with
  | FIRST => True
  | NEWEST | DROP => False
  | MIN => o <> VNone /\ py_ltb v o <> Some true
  | MAX => o <> VNone /\ py_ltb o v <> Some true
  | OR => exists b, o = VBool b /\ (lua_truthy v = true -> b = true)
  end.

(** The rule has nothing more to take from [v]. *)
Definition settled (r : rule) (old : option lua) (v : lua) : Prop :=
  is_table v = true \/ r = DROP \/ v = VNone \/ exists o, old = Some o /\ covers r o v.

Lemma covers_join r o v : covers r o v -> r <> FIRST -> o <> VNone /\ join_readings r o v = o.
Proof.
  destruct r; try done; cbn [covers join_readings].
  - intros [Ho Hc] _. split; [done|]. by destruct (py_ltb v o) as [[]|].
  - intros [Ho Hc] _. split; [done|]. by destruct (py_ltb o v) as [[]|].
  - intros (b & -> & Hb) _. split; [done|]. cbn. destruct (lua_truthy v); [by rewrite Hb, orb_true_r | by rewrite orb_false_r].
Qed.

Lemma join_covers r o v : reading_ok r v -> r <> DROP -> is_table v = false -> o <> VNone -> v <> VNone ->
  covers r (join_readings r o v) v.
Proof.
  destruct r; try done; cbn [covers join_readings reading_ok]; intros Hok _ Ht Ho Hv.
  - destruct (py_ltb v o) as [[]|] eqn:E; (split; [done|]); try (by rewrite E); apply py_ltb_irrefl.
  - destruct (py_ltb o v) as [[]|] eqn:E; (split; [done|]); try (by rewrite E); apply py_ltb_irrefl.
  - eexists. split; [done|]. intros ->. by rewrite orb_true_r.
Qed.

Lemma self_covers r v : reading_ok r v -> r <> DROP -> is_table v = false -> v <> VNone -> covers r v v.
Proof.
  destruct r; try done; cbn [covers reading_ok]; intros Hok _ Ht Hv; try (split; [done|apply py_ltb_irrefl]).
  destruct Hok as [?|[?|[b ->]]]; try congruence. by exists b.
Qed.

Lemma covers_keep r o v w : covers r o v -> r <> DROP -> w <> VNone -> covers r (join_readings r o w) v.
Proof.
  destruct r; try done; cbn [covers join_readings]; intros Hc _ Hw.
  - destruct Hc as [Ho Hc]. split; [by repeat case_match|]. by apply min_keep.
  - destruct Hc as [Ho Hc]. split; [by repeat case_match|]. by apply max_keep.
  - destruct Hc as (b & -> & Hb). eexists. split; [done|]. cbn. intros Hv. by rewrite Hb.
Qed.

(** The step by cases: nothing to do, the first reading, one more reading. *)
Lemma cell_step_cases r old v :
  cell_step r old v =
    if bool_decide (r = DROP) || is_table v then old
    else if lua_none v then old
    else match old with
         | Some o => if bool_decide (r = FIRST) then Some o
                     else Some (if lua_none o then v else join_readings r o v)
         | None => Some v
         end.
Proof.
  unfold cell_step. case_bool_decide as Hr; [done|]. cbn [orb]. destruct (is_table v); [done|].
  destruct (lua_none v) as [->|Hv].
  - rewrite combine_none_old by done. destruct old as [[]|]; cbn; by repeat case_match.
  - destruct old as [o|]; cycle 1.
    { rewrite andb_false_r. change (default VNone None) with VNone. by rewrite combine_none_new, some_unless. }
    change (default VNone (Some o)) with o. destruct (lua_none o) as [->|Ho].
    + destruct (decide (r = FIRST)) as [->|Hf]; [by destruct v|].
      rewrite (bool_decide_eq_false_2 (r = FIRST)) by done. cbn [andb]. by rewrite combine_none_new, some_unless.
    + rewrite combine_both by done. rewrite some_unless by (by apply join_not_none).
      destruct (decide (r = FIRST)) as [->|Hf]; [|by rewrite (bool_decide_eq_false_2 (r = FIRST))].
      cbn. by destruct (key_eqb o v).
Qed.

Lemma settled_done r old v : settled r old v -> cell_step r old v = old.
Proof.
  rewrite cell_step_cases. intros [->|[->|[->|(o & -> & Hc)]]]; [by rewrite orb_true_r|done| |].
  - destruct (bool_decide (r = DROP) || is_table VNone); [done|]. by destruct (lua_none VNone).
  - destruct (_ || _); [done|]. destruct (lua_none v); [done|]. case_bool_decide; [done|].
    destruct (covers_join r o v Hc) as [Ho ->]; [done|]. by destruct (lua_none o).
Qed.

Lemma settled_after r old v : reading_ok r v -> settled r (cell_step r old v) v.
Proof.
  intros Hok. rewrite cell_step_cases. unfold settled.
  destruct (decide (r = DROP)) as [->|Hr]; [by right; left|]. rewrite (bool_decide_eq_false_2 (r = DROP)) by done. cbn [orb].
  destruct (is_table v) eqn:Ht; [by left|]. destruct (lua_none v) as [->|Hv]; [by right; right; left|].
  do 3 right. destruct old as [o|]; [|exists v; split; [done | by apply self_covers]].
  case_bool_decide as Hf; [by exists o; rewrite ?Hf|]. eexists. split; [done|].
  destruct (lua_none o); [by apply self_covers | by apply join_covers].
Qed.

Lemma settled_keep r old v w : settled r old v -> settled r (cell_step r old w) v.
Proof.
  intros [?|[?|[?|(o & -> & Hc)]]]; [by left | by right; left | by right; right; left|].
  do 3 right. rewrite cell_step_cases. destruct (_ || _); [by eexists|]. destruct (lua_none w); [by eexists|].
  case_bool_decide; [by eexists|]. eexists. split; [done|].
  destruct (covers_join r o v Hc) as [Ho _]; [done|]. destruct (lua_none o); [done|].
  apply covers_keep; [done| |done]. by intros ->.
Qed.

(** ** The mob store *)

Definition field_step (fields : list (pystr * rule)) (dst : lua_hash) (kv : lua * lua) : lua_hash :=
  fst (merge_field fields [] dst (fst kv) (snd kv)).

Lemma field_rule fields k k' : key_eqb k k' = true -> _rule_for fields k = _rule_for fields k'.
Proof. destruct k, k'; try done; cbn -[num_eqb num_of]; by intros ->%bool_decide_eq_true. Qed.

Lemma absorbing_field fields :
  absorbing (field_step fields) (fun dst kv => settled (_rule_for fields (fst kv)) (hget (fst kv) dst) (snd kv))
    (fun kv => key_eqb (fst kv) (fst kv) = true /\ reading_ok (_rule_for fields (fst kv)) (snd kv)).
Proof.
  unfold field_step. split.
  - intros dst [k v] Hs%settled_done. cbn [fst snd] in *. rewrite merge_field_cell, Hs.
    destruct (hget k dst) eqn:E; [by apply hset_same | done].
  - intros dst [k v] [Hk Hok]. cbn [fst snd] in *. rewrite merge_field_cell.
    pose proof (settled_after _ (hget k dst) v Hok) as Hs.
    destruct (cell_step _ _ _) eqn:E; [by rewrite hget_hset, Hk|].
    rewrite cell_step_cases in E. destruct (hget k dst); [|done]. by repeat case_match.
  - intros dst [k v] [k' w] Hs. cbn [fst snd] in *. rewrite merge_field_cell.
    destruct (cell_step _ (hget k' dst) w) as [m|] eqn:E; [|done]. rewrite hget_hset.
    destruct (key_eqb k' k) eqn:Ek; [|done]. rewrite <- E.
    rewrite (field_rule _ k' k Ek), (hget_same k' k _ Ek). by apply settled_keep.
Qed.

(** The state alone: the loops without their reports. *)
Lemma merge_field_where fields w w' dst k v : fst (merge_field fields w dst k v) = fst (merge_field fields w' dst k v).
Proof. by rewrite !merge_field_cell. Qed.

Lemma merge_leaf_fold fields w dst src : fst (merge_leaf fields w dst src) = fold_left (field_step fields) src dst.
Proof.
  revert dst. induction src as [|[k v] src IH]; intros dst; [done|]. cbn [merge_leaf fold_left].
  unfold field_step at 2. cbn [fst snd]. rewrite (merge_field_where fields [] w).
  destruct (merge_field fields w dst k v) as [d c]. cbn [fst].
  specialize (IH d). by destruct (merge_leaf fields w d src).
Qed.

Definition leaf_step (d : lua_hash) (h : lua_hash) : lua_hash := fold_left (field_step MOBSPELLS_FIELDS) h d.

(** One item of a loop that files it under a key, if it is of the shape. *)
Definition dict_step {S X Y} (s0 : S) (step : S -> X -> S) (part : Y -> option (pystr * X))
    (d : list (pystr * S)) (y : Y) : list (pystr * S) :=
  match part y with
  | Some kx => dset (fst kx) (step (default s0 (dget (fst kx) d)) (snd kx)) d
  | None => d
  end.

Definition dict_A {S X Y} (A : S -> X -> Prop) (part : Y -> option (pystr * X)) (d : list (pystr * S)) (y : Y) : Prop :=
  match part y with Some kx => exists s, dget (fst kx) d = Some s /\ A s (snd kx) | None => True end.

Definition part_ok {X Y} (ok : X -> Prop) (part : Y -> option (pystr * X)) (y : Y) : Prop :=
  match part y with Some kx => ok (snd kx) | None => True end.

Lemma absorbing_dict_step {S X Y} (s0 : S) (step : S -> X -> S) A ok (part : Y -> option (pystr * X)) :
  absorbing step A ok -> absorbing (dict_step s0 step part) (dict_A A part) (part_ok ok part).
Proof. intros Hab. exact (absorbing_filter _ _ _ (absorbing_dict _ _ _ Hab s0) part). Qed.

(** The spells of a mob. *)
Definition spell_part (kv : lua * lua) : option (pystr * lua_hash) :=
  match snd kv with VTable _ h => Some (key_str (fst kv), h) | _ => None end.
Definition spell_step := dict_step [] leaf_step spell_part.

Lemma merge_spells_fold w spells src :
  fst (fst (merge_spells w spells src)) = fold_left spell_step src spells.
Proof.
  revert spells. induction src as [|[k v] src IH]; intros spells; [done|]. cbn [merge_spells fold_left].
  unfold spell_step at 2, dict_step, spell_part. cbn [fst snd]. destruct v; try apply IH. cbn [fst snd].
  unfold leaf_step. rewrite <- (merge_leaf_fold _ (w ++ [k])).
  destruct (merge_leaf _ _ _ _) as [d c]. cbn [fst].
  specialize (IH (dset (key_str k) d spells)). by destruct (merge_spells _ _ _) as [[? ?] ?].
Qed.

(** A mob of one source. *)
Definition mob_step (rec : mob_rec) (sm : pystr * lua) : mob_rec :=
  MobRec (fst (merge_name [] (mr_name rec) (lua_get (snd sm) "name")))
    (fold_left spell_step (lua_hash_of (lua_get (snd sm) "spells")) (mr_spells rec)) (add_src (fst sm) (mr_srcs rec)).

Lemma merge_mob_step zone sid entry rec mt : fst (fst (merge_mob zone sid entry rec mt)) = mob_step rec (sid, mt).
Proof.
  unfold merge_mob, mob_step. cbn [fst snd]. set (w := [VStr (lit "mob"); zone; entry]).
  assert (forall w w' n v, fst (merge_name w n v) = fst (merge_name w' n v)) as Hw.
  { intros w1 w2 n v. destruct v; try done; destruct n; try done; cbn; by case_bool_decide. }
  rewrite (Hw [] w), <- (merge_spells_fold w).
  destruct (merge_name _ _ _) as [n c1]. by destruct (merge_spells _ _ _) as [[sp c2] m].
Qed.

Definition mob_part (se : pystr * (lua * lua)) : option (pystr * (pystr * lua)) :=
  let '(sid, (entry, mt)) := se in if is_table mt then Some (key_str entry, (sid, mt)) else None.
Definition zone_step (z : zone_store) (sh : pystr * lua_hash) : zone_store :=
  fold_left (dict_step no_mob mob_step mob_part) (map (pair (fst sh)) (snd sh)) z.

Lemma merge_zone_step zone sid z src : fst (fst (merge_zone zone sid z src)) = zone_step z (sid, src).
Proof.
  unfold zone_step. cbn [fst snd]. revert z. induction src as [|[entry mt] src IH]; intros z; [done|].
  cbn [merge_zone map fold_left]. unfold dict_step at 2, mob_part. destruct (is_table mt); [|apply IH].
  cbn [fst snd]. rewrite <- (merge_mob_step zone sid entry). destruct (merge_mob _ _ _ _ _) as [[r c] n]. cbn [fst].
  specialize (IH (dset (key_str entry) r z)). by destruct (merge_zone _ _ _ _) as [[? ?] ?].
Qed.

Definition zone_part (sz : pystr * (lua * lua)) : option (pystr * (pystr * lua_hash)) :=
  let '(sid, (zone, zt)) := sz in
  match zt with VTable _ h => Some (key_str zone, (sid, h)) | _ => None end.
Definition zones_step (store : mob_store) (sh : pystr * lua_hash) : mob_store :=
  fold_left (dict_step [] zone_step zone_part) (map (pair (fst sh)) (snd sh)) store.

Lemma merge_zones_step sid store src : fst (fst (merge_zones sid store src)) = zones_step store (sid, src).
Proof.
  unfold zones_step. cbn [fst snd]. revert store. induction src as [|[zone zt] src IH]; intros store; [done|].
  cbn [merge_zones map fold_left]. unfold dict_step at 2, zone_part. destruct zt; try apply IH.
  cbn [fst snd]. rewrite <- (merge_zone_step zone). destruct (merge_zone _ _ _ _) as [[z c] n]. cbn [fst].
  specialize (IH (dset (key_str zone) z store)). by destruct (merge_zones _ _ _) as [[? ?] ?].
Qed.

(** ** Replays change nothing *)

(** A leaf: keys that are themselves, and booleans in the flags. *)
Definition leaf_ok (h : lua_hash) : Prop :=
  Forall (fun kv => key_eqb (fst kv) (fst kv) = true /\ reading_ok (_rule_for MOBSPELLS_FIELDS (fst kv)) (snd kv)) h.
Definition mob_ok (sm : pystr * lua) : Prop := Forall (part_ok leaf_ok spell_part) (lua_hash_of (lua_get (snd sm) "spells")).
Definition zone_ok (sh : pystr * lua_hash) : Prop := Forall (part_ok mob_ok mob_part) (map (pair (fst sh)) (snd sh)).
Definition zones_ok (sh : pystr * lua_hash) : Prop := Forall (part_ok zone_ok zone_part) (map (pair (fst sh)) (snd sh)).

Definition leaf_A (d : lua_hash) (h : lua_hash) : Prop :=
  Forall (fun kv => settled (_rule_for MOBSPELLS_FIELDS (fst kv)) (hget (fst kv) d) (snd kv)) h.
Definition mob_A (rec : mob_rec) (sm : pystr * lua) : Prop :=
  (py_string (lua_get (snd sm) "name") <> None -> mr_name rec <> None)
  /\ Forall (dict_A leaf_A spell_part (mr_spells rec)) (lua_hash_of (lua_get (snd sm) "spells"))
  /\ fst sm ∈ mr_srcs rec.
Definition zone_A (z : zone_store) (sh : pystr * lua_hash) : Prop :=
  Forall (dict_A mob_A mob_part z) (map (pair (fst sh)) (snd sh)).
Definition zones_A (store : mob_store) (sh : pystr * lua_hash) : Prop :=
  Forall (dict_A zone_A zone_part store) (map (pair (fst sh)) (snd sh)).

Lemma absorbing_leaf : absorbing leaf_step leaf_A leaf_ok.
Proof. exact (absorbing_fold _ _ _ (absorbing_field MOBSPELLS_FIELDS)). Qed.

Lemma absorbing_spells :
  absorbing (fun d h => fold_left spell_step h d) (fun d => Forall (dict_A leaf_A spell_part d)) (Forall (part_ok leaf_ok spell_part)).
Proof. exact (absorbing_fold _ _ _ (absorbing_dict_step [] _ _ _ spell_part absorbing_leaf)). Qed.

Lemma add_src_in sid srcs : sid ∈ add_src sid srcs.
Proof. unfold add_src. case_bool_decide; [done|]. apply elem_of_app. right. by left. Qed.
Lemma add_src_keep sid sid' srcs : sid ∈ srcs -> sid ∈ add_src sid' srcs.
Proof. unfold add_src. intros. case_bool_decide; [done|]. apply elem_of_app. by left. Qed.

Lemma absorbing_mob : absorbing mob_step mob_A mob_ok.
Proof.
  split.
  - intros [n sp ss] [sid mt] (Hn & Hs & Hi). unfold mob_step. cbn [mr_name mr_spells mr_srcs fst snd] in *. f_equal.
    + destruct (lua_get mt "name"); try done; destruct n; try (by destruct (Hn ltac:(done))); cbn; by case_bool_decide.
    + by apply (ab_done _ _ _ absorbing_spells).
    + unfold add_src. by rewrite bool_decide_eq_true_2.
  - intros [n sp ss] [sid mt] Hok. unfold mob_step, mob_A. cbn [mr_name mr_spells mr_srcs fst snd]. split_and!.
    + destruct (lua_get mt "name"); try done; intros _; destruct n; try done; cbn; by case_bool_decide.
    + by apply (ab_after _ _ _ absorbing_spells).
    + apply add_src_in.
  - intros [n sp ss] [sid mt] [sid' mt'] (Hn & Hs & Hi). unfold mob_step, mob_A. cbn [mr_name mr_spells mr_srcs fst snd] in *.
    split_and!.
    + intros Hm. specialize (Hn Hm). destruct n; [|done]. destruct (lua_get mt' "name"); try done; cbn; by case_bool_decide.
    + by apply (ab_keep _ _ _ absorbing_spells).
    + by apply add_src_keep.
Qed.

Lemma absorbing_zone : absorbing zone_step zone_A zone_ok.
Proof.
  pose proof (absorbing_fold _ _ _ (absorbing_dict_step no_mob _ _ _ mob_part absorbing_mob)) as Hab. split; intros.
  - by apply (ab_done _ _ _ Hab).
  - by apply (ab_after _ _ _ Hab).
  - by apply (ab_keep _ _ _ Hab).
Qed.

Lemma absorbing_zones : absorbing zones_step zones_A zones_ok.
Proof.
  pose proof (absorbing_fold _ _ _ (absorbing_dict_step [] _ _ _ zone_part absorbing_zone)) as Hab. split; intros.
  - by apply (ab_done _ _ _ Hab).
  - by apply (ab_after _ _ _ Hab).
  - by apply (ab_keep _ _ _ Hab).
Qed.

(** The mobs of a submission. *)
Definition mobs_of (g : list (pystr * lua)) : lua :=
  lua_get (lua_get (default VNone (dget (lit "MobSpellsDB") g)) "global") "mobs".
Definition mobs_merged (store : mob_store) (gs : list (pystr * lua) * pystr) : mob_store :=
  fst (fst (merge_mobspells store (fst gs) (snd gs))).

Lemma mobs_merged_step store gs :
  mobs_merged store gs = match mobs_of (fst gs) with VTable _ h => zones_step store (snd gs, h) | _ => store end.
Proof.
  unfold mobs_merged, merge_mobspells. change (lua_get (lua_get _ "global") "mobs") with (mobs_of (fst gs)).
  destruct (mobs_of (fst gs)); try done. apply merge_zones_step.
Qed.

(** The flags a submission saw are booleans, in every spell of every mob. *)
Definition submission_ok (g : list (pystr * lua)) : Prop :=
  match mobs_of g with VTable _ h => zones_ok ([], h) | _ => True end.

Lemma zones_ok_sid sid h : zones_ok ([], h) -> zones_ok (sid, h).
Proof.
  unfold zones_ok. cbn [fst snd]. rewrite !Forall_map. intros Hf. eapply Forall_impl; [exact Hf|]. clear Hf. intros [zone zt]. unfold part_ok, zone_part.
  destruct zt; try done. cbn [snd fst]. unfold zone_ok. cbn [fst snd]. rewrite !Forall_map. intros Hf. eapply Forall_impl; [exact Hf|].
  intros [entry mt]. unfold part_ok, mob_part. by destruct (is_table mt).
Qed.


(** Two submissions of one spell, and the order of a replay. *)
Definition spell_file (lo : Z) (crit : bool) (name : string) : list (pystr * lua) :=
  let str k := VStr (lit k) in
  [(lit "MobSpellsDB", VTable [] [(str "global"%string, VTable [] [(str "mobs"%string, VTable [] [(str "Elwynn"%string,
     VTable [] [(VInt 42, VTable [] [(str "name"%string, str name);
       (str "spells"%string, VTable [] [(VInt 133, VTable [] [(str "amountMin"%string, VInt lo);
          (str "critical"%string, VBool crit); (str "lastTime"%string, VInt 7); (str "school"%string, str "Fire"%string)])])])])])])])].


(** A flag that is no boolean turns into one when it is read again. *)
Lemma flag_drift :
  let leaf := [(VStr (lit "missing"), VInt 3)] in
  let once := fst (merge_leaf MOBSPELLS_FIELDS [] [] leaf) in
  once = leaf /\ fst (merge_leaf MOBSPELLS_FIELDS [] once leaf) = [(VStr (lit "missing"), VBool true)].
Proof. vm_compute. split; reflexivity. Qed.

(** ** Nodes

    The node databases seen as one map from database, zone and spot to node:
    merging a file is union, what stood at a spot stays, and every node of the
    file is either counted or reported. *)

(** ** Unions of maps *)

(** The same node, as Python compares the two. *)
Definition same_node (a b : lua) : Prop := a = b \/ key_eqb a b = true.

Lemma same_node_trans a b c : same_node a b -> same_node b c -> same_node a c.
Proof. intros [->|E1] [->|E2]; [by left | by right | by right | right; by apply (key_eqb_trans a b)]. Qed.

(** [v'] is [v] with the observations added. *)
Record unions {I} (v v' : I -> option lua) (obs : I -> lua -> Prop) : Prop := {
  un_keep i old : v i = Some old -> exists x, v' i = Some x /\ same_node old x;
  un_from i x : v' i = Some x -> v i = Some x \/ obs i x;
  un_all i x : obs i x -> is_Some (v' i) }.

Lemma unions_refl {I} (v : I -> option lua) (obs : I -> lua -> Prop) : (forall i x, ~ obs i x) -> unions v v obs.
Proof.
  intros Hn. split.
  - intros i old E. exists old. split; [done | by left].
  - by left.
  - by intros i x []%Hn.
Qed.

Lemma unions_trans {I} (v v1 v2 : I -> option lua) (o1 o2 : I -> lua -> Prop) :
  unions v v1 o1 -> unions v1 v2 o2 -> unions v v2 (fun i x => o1 i x \/ o2 i x).
Proof.
  intros [K1 F1 A1] [K2 F2 A2]. split.
  - intros i old (x & E1 & S1)%K1. destruct (K2 i x E1) as (y & E2 & S2).
    exists y. split; [done | by apply (same_node_trans old x)].
  - intros i x [[|]%F1|]%F2; auto.
  - intros i x [[y Ey]%A1|?]; [|eauto]. destruct (K2 i y Ey) as (z & Ez & _). eauto.
Qed.

Lemma unions_obs {I} (v v' : I -> option lua) (o o' : I -> lua -> Prop) :
  (forall i x, o i x <-> o' i x) -> unions v v' o -> unions v v' o'.
Proof. intros Ho [K F A]. split; [exact K| |]; intros i x; rewrite <- Ho; [apply F | apply A]. Qed.

(** One record of a dictionary is replaced. *)
Lemma unions_dict {S J} (sv : S -> J -> option lua) (s0 : S) (d : list (pystr * S)) key s' obs :
  unions (sv (default s0 (dget key d))) (sv s') obs ->
  unions (fun kj => sv (default s0 (dget (fst kj) d)) (snd kj))
    (fun kj => sv (default s0 (dget (fst kj) (dset key s' d))) (snd kj))
    (fun kj x => fst kj = key /\ obs (snd kj) x).
Proof.
  intros [K F A]. split; intros [k j]; cbn [fst snd]; intros x.
  - rewrite dget_dset. case_decide as E; [subst k; apply K|]. intros Ex. exists x. split; [done | by left].
  - rewrite dget_dset. case_decide as E; [subst k; intros [|]%F; auto|]. by left.
  - intros [-> Hx]. rewrite dget_dset_eq. by apply (A j x).
Qed.

(** ** The three levels *)

Definition zone_view (z : node_zone) (key : pystr) : option lua := dget key z.
Definition db_view (db : node_db) (i : pystr * pystr) : option lua := zone_view (default [] (dget (fst i) db)) (snd i).
Definition store_view (store : node_store) (i : pystr * (pystr * pystr)) : option lua :=
  db_view (default [] (dget (fst i) store)) (snd i).

(** What a file says of a spot. *)
Definition zone_obs (src : lua_hash) (key : pystr) (x : lua) : Prop :=
  exists coord, (coord, x) ∈ src /\ is_table x = false /\ key_str coord = key.
Definition db_obs (src : lua_hash) (i : pystr * pystr) (x : lua) : Prop :=
  exists zone a h, (zone, VTable a h) ∈ src /\ key_str zone = fst i /\ zone_obs h (snd i) x.
Definition file_obs (names : list pystr) (g : list (pystr * lua)) (i : pystr * (pystr * pystr)) (x : lua) : Prop :=
  fst i ∈ names /\ exists a h, dget (fst i) g = Some (VTable a h) /\ db_obs h (snd i) x.

(** The nodes of a file. *)
Definition zone_nodes (src : lua_hash) : Z := pylen (filter (fun kv => is_table (snd kv) = false) src).
Fixpoint db_nodes (src : lua_hash) : Z :=
  match src with
  | [] => 0
  | (_, VTable _ h) :: src => zone_nodes h + db_nodes src
  | _ :: src => db_nodes src
  end.
Fixpoint file_nodes (names : list pystr) (g : list (pystr * lua)) : Z :=
  match names with
  | [] => 0
  | n :: names => match dget n g with Some (VTable _ h) => db_nodes h | _ => 0 end + file_nodes names g
  end.

(** What a merge reports: disagreements, and every node once. *)
Definition reports (cs : list conflict) (n total : Z) : Prop :=
  n + pylen cs = total /\ Forall (fun c => key_eqb (snd (fst c)) (snd c) = false) cs.

Lemma reports_app c cs n m a b : reports c n a -> reports cs m b -> reports (c ++ cs) (n + m) (a + b).
Proof. intros [E1 F1] [E2 F2]. split; [rewrite pylen_app; lia | by apply Forall_app]. Qed.

Lemma merge_node_spec w z coord node z' cs n :
  is_table node = false -> merge_node w [] z coord node = (z', cs, n) ->
  unions (zone_view z) (zone_view z') (fun key x => key = key_str coord /\ x = node) /\ reports cs n 1.
Proof.
  intros Ht. unfold merge_node, zone_view. destruct (dget (key_str coord) z) as [old|] eqn:E; cycle 1.
  { intros [= <- <- <-]. split; [|split; [done|constructor]]. split.
    - intros k x Ex. rewrite dget_dset. case_decide; [congruence|]. exists x. split; [done | by left].
    - intros k x. rewrite dget_dset. case_decide; [intros [= ->]; by right | by left].
    - intros k x [-> ->]. rewrite dget_dset_eq. eauto. }
  destruct (key_eqb old node) eqn:Ek; intros [= <- <- <-].
  - split; [|split; [done|constructor]]. split.
    + intros k x Ex. rewrite dget_dset. case_decide as Ed; [|exists x; split; [done | by left]].
      subst k. exists node. split; [done|]. right. congruence.
    + intros k x. rewrite dget_dset. case_decide; [intros [= ->]; by right | by left].
    + intros k x [-> ->]. rewrite dget_dset_eq. eauto.
  - split; [|split; [done | by constructor]]. split.
    + intros k x Ex. exists x. split; [done | by left].
    + by left.
    + intros k x [-> ->]. by rewrite E.
Qed.

Lemma merge_nodes_spec w z src z' cs n :
  merge_nodes w [] z src = (z', cs, n) ->
  unions (zone_view z) (zone_view z') (zone_obs src) /\ reports cs n (zone_nodes src).
Proof.
  revert z z' cs n. induction src as [|[coord node] src IH]; intros z z' cs n; cbn [merge_nodes].
  { intros [= <- <- <-]. split; [|by split]. apply unions_refl. intros k x (c & Hc & _). by apply not_elem_of_nil in Hc. }
  unfold zone_nodes. rewrite filter_cons. cbn [snd]. destruct (is_table node) eqn:Ht.
  - intros [Hu Hr]%IH. rewrite decide_False by done. split; [|done]. eapply unions_obs; [|exact Hu].
    intros k x. unfold zone_obs. setoid_rewrite elem_of_cons. split; [naive_solver|]. intros (c & [[= -> ->]|?] & ? & ?); [congruence|eauto].
  - destruct (merge_node w [] z coord node) as [[z1 c1] n1] eqn:E1. destruct (merge_nodes w [] z1 src) as [[z2 c2] n2] eqn:E2.
    intros [= <- <- <-]. rewrite decide_True by done. rewrite pylen_cons.
    destruct (merge_node_spec _ _ _ _ _ _ _ Ht E1) as [Hu1 Hr1]. destruct (IH _ _ _ _ E2) as [Hu2 Hr2].
    split; [|by apply reports_app]. eapply unions_obs; [|exact (unions_trans _ _ _ _ _ Hu1 Hu2)].
    intros k x. unfold zone_obs. setoid_rewrite elem_of_cons. split.
    + intros [[-> ->]|(c & ? & ? & ?)]; eauto 10.
    + intros (c & [[= -> ->]|?] & ? & ?); eauto 10.
Qed.

Lemma merge_node_zones_spec dbname db src db' cs n :
  merge_node_zones dbname [] db src = (db', cs, n) ->
  unions (db_view db) (db_view db') (db_obs src) /\ reports cs n (db_nodes src).
Proof.
  revert db db' cs n. induction src as [|[zone zt] src IH]; intros db db' cs n; cbn [merge_node_zones].
  { intros [= <- <- <-]. split; [|by split]. apply unions_refl. intros i x (c & ? & ? & Hc & _). by apply not_elem_of_nil in Hc. }
  assert (forall i x, (forall a h, zt <> VTable a h) -> db_obs src i x <-> db_obs ((zone, zt) :: src) i x) as Hskip.
  { intros i x Hn. unfold db_obs. setoid_rewrite elem_of_cons. split; [naive_solver|].
    intros (z & a & h & [[= -> <-]|?] & ? & ?); [by destruct (Hn a h)|]. eauto 10. }
  destruct zt as [| | | | | |a h]; cbn [db_nodes];
    try (intros [Hu Hr]%IH; split; [|done]; eapply unions_obs; [|exact Hu]; intros; by apply Hskip). clear Hskip.
  destruct (merge_nodes _ _ _ h) as [[z1 c1] n1] eqn:E1. destruct (merge_node_zones _ _ _ src) as [[z2 c2] n2] eqn:E2.
  intros [= <- <- <-]. change (default [] (dget (key_str zone) (@nil (pystr * node_zone)))) with (@nil (pystr * lua)) in E1.
  destruct (merge_nodes_spec _ _ _ _ _ _ E1) as [Hu1 Hr1]. destruct (IH _ _ _ _ E2) as [Hu2 Hr2].
  split; [|by apply reports_app]. apply (unions_dict zone_view []) in Hu1.
  eapply unions_obs; [|exact (unions_trans _ _ _ _ _ Hu1 Hu2)].
  intros i x. unfold db_obs. setoid_rewrite elem_of_cons. split.
  - intros [[? ?]|(z & a' & h' & ? & ? & ?)]; [exists zone, a, h | exists z, a', h']; auto.
  - intros (z & a' & h' & [[= -> -> ->]|?] & ? & ?); [left; auto | right; eauto 10].
Qed.

Lemma merge_node_dbs_spec names store g store' cs n :
  merge_node_dbs names [] store g = (store', cs, n) ->
  unions (store_view store) (store_view store') (file_obs names g) /\ reports cs n (file_nodes names g).
Proof.
  revert store store' cs n. induction names as [|name names IH]; intros store store' cs n; cbn [merge_node_dbs file_nodes].
  { intros [= <- <- <-]. split; [|by split]. apply unions_refl. intros i x [Hi _]. by apply not_elem_of_nil in Hi. }
  assert (forall i x, (forall a h, dget name g <> Some (VTable a h)) ->
    file_obs names g i x <-> file_obs (name :: names) g i x) as Hskip.
  { intros i x Hn. unfold file_obs. rewrite elem_of_cons. split; [naive_solver|].
    intros ([->|?] & a & h & E & ?); [by destruct (Hn a h)|]. eauto 10. }
  destruct (dget name g) as [[| | | | | |a h]|] eqn:E;
    try (intros [Hu Hr]%IH; split; [|done]; eapply unions_obs; [|exact Hu]; intros; by apply Hskip). clear Hskip.
  destruct (merge_node_zones _ _ _ h) as [[z1 c1] n1] eqn:E1. destruct (merge_node_dbs names _ _ g) as [[z2 c2] n2] eqn:E2.
  intros [= <- <- <-]. change (default [] (dget name (@nil (pystr * node_db)))) with (@nil (pystr * node_zone)) in E1.
  destruct (merge_node_zones_spec _ _ _ _ _ _ E1) as [Hu1 Hr1]. destruct (IH _ _ _ _ E2) as [Hu2 Hr2].
  split; [|by apply reports_app]. apply (unions_dict db_view []) in Hu1.
  eapply unions_obs; [|exact (unions_trans _ _ _ _ _ Hu1 Hu2)].
  intros i x. unfold file_obs. rewrite elem_of_cons. split.
  - intros [[-> ?]|(? & a' & h' & ? & ?)]; [eauto 10 | eauto 10].
  - intros ([->|?] & a' & h' & E' & ?); [left; split; [done|]; by simplify_eq | right; eauto 10].
Qed.

(** Merging a file of gather nodes is union.  A spot that had a node keeps
    it, a spot holds nothing that neither the store nor the file had, every
    node of the file has its spot in the result, and each of them is either
    counted as merged or reported as a conflict, which is always a real
    disagreement. *)
Theorem gather_union store g :
  let '(store', cs, n) := merge_gathermate [] store g in
  (forall i old, store_view store i = Some old -> exists x, store_view store' i = Some x /\ same_node old x)
  /\ (forall i x, store_view store' i = Some x -> store_view store i = Some x \/ file_obs _NODE_DBS g i x)
  /\ (forall i x, file_obs _NODE_DBS g i x -> is_Some (store_view store' i))
  /\ n + pylen cs = file_nodes _NODE_DBS g
  /\ Forall (fun c => key_eqb (snd (fst c)) (snd c) = false) cs.
Proof.
  destruct (merge_gathermate [] store g) as [[store' cs] n] eqn:E.
  destruct (merge_node_dbs_spec _ _ _ _ _ _ E) as [[K F A] [En Fc]]. done.
Qed.

(** One spot agreed on, one disputed, one new. *)
Example gather_ex :
  let file kvs := [(lit "GatherMate2HerbDB", VTable [] [(VInt 12, VTable [] (map (fun kv => (VInt (fst kv), VInt (snd kv))) kvs))])] in
  let '(s1, c1, n1) := merge_gathermate [] [] (file [(100, 401); (200, 402)]) in
  let '(s2, c2, n2) := merge_gathermate [] s1 (file [(100, 401); (200, 409); (300, 403)]) in
  (n1, n2) = (2, 2) /\ c1 = []
  /\ c2 = [([VStr (lit "GatherMate2HerbDB"); VInt 12; VInt 200], VInt 402, VInt 409)]
  /\ map (fun k => store_view s2 (lit "GatherMate2HerbDB", (lit "12", lit k))) ["100"; "200"; "300"; "400"]%string
     = [Some (VInt 401); Some (VInt 402); Some (VInt 403); None].
Proof. vm_compute. repeat split; reflexivity. Qed.
