(* ===== verification/LuaRun.v ===== *)
(** * One run over the submissions and its export (cache-consolidator/tools/luamerge.py)

    Every file is merged into a copy of the state, which replaces the state
    only when the merge consumed something or the file was really empty.  The
    specs of the mob, addon, auction and node databases are here; the harvest,
    the reference and the sniffer specs are not.  So are the writers of the mob,
    addon, auction and node stores, and the check that reads back what they
    wrote: a written file is its text, the extracted addon sources are a
    directory from file name to code. *)
From stdpp Require Import sorting.
From S2P Require Import Prelude Text Format Lua LuaParse Modes LuaMerge LuaAuction LuaBuild.

(** ** Publishing *)

Abbreviation lua_globals := (list (pystr * lua)) (only parsing).
Definition lstr (s : string) : lua := VStr (lit s).

Section Publishing.
Context `{Unicode}.

(** [_key]: an integer key that JSON turned into a string. *)
Definition _key (s : pystr) : lua :=
  match int_of_str s with Ok n => VInt n | Err _ => VStr s end.

(** [for k, x in store.items(): t.hash[key(k)] = value(x)]. *)
Definition table_of {A} (key : pystr -> lua) (value : A -> lua) (store : list (pystr * A)) : lua :=
  VTable [] (fold_left (fun h kx => hset (key (fst kx)) (value (snd kx)) h) store []).

(** [write_mobspells]. *)
Definition spell_table (d : lua_hash) : lua := table_from d [].
Definition mob_table (rec : mob_rec) : lua :=
  let spells := table_of _key spell_table (mr_spells rec) in
  let mt := [(lstr "spells", spells)] in
  VTable [] (match mr_name rec with
             | Some (c :: s) => hset (lstr "name") (VStr (c :: s)) mt
             | _ => mt
             end).
Definition zone_table (entries : zone_store) : lua := table_of _key mob_table entries.

Definition write_mobspells (store : mob_store) : option lua_globals :=
  match store with
  | [] => None
  | _ => Some [(lit "MobSpellsDB",
                table_from [(lstr "global", table_from [(lstr "mobs", table_of _key zone_table store)] [])] [])]
  end.

(** [write_gathermate]: one global per database. *)
Definition node_table (z : node_zone) : lua := table_of _key id z.
Definition write_gathermate (store : node_store) : option lua_globals :=
  match store with
  | [] => None
  | _ => Some (map (fun dz => (fst dz, table_of _key node_table (snd dz))) store)
  end.

(** [write_auctionator]: a bucket without prices is left out. *)
Definition price_table (b : price_bucket) : lua := table_of VStr fst (pb_items b).
Definition scanned (sb : pystr * price_bucket) : bool := match pb_items (snd sb) with [] => false | _ => true end.
Definition write_auctionator (store : price_store) : option lua_globals :=
  match store with
  | [] => None
  | _ => Some [(lit "AUCTIONATOR_PRICE_DATABASE",
                table_of VStr price_table (map (fun sb => (pb_group (snd sb), snd sb)) (List.filter scanned store)))]
  end.

(** ** Addon sources *)

(** [_SAFE_NAME.sub("_", fname)]. *)
Definition safe_char (c : Z) : bool :=
  in_range 65 90 c || in_range 97 122 c || is_digit c || (c =? 46) || (c =? 95) || (c =? 45).
Definition safe_name (fname : pystr) : pystr := map (fun c => if safe_char c then c else 95) fname.

Definition ends_with (suffix s : pystr) : bool := bool_decide (drop (length s - length suffix) s = suffix).
Definition addon_path (fname : pystr) : pystr :=
  let safe := safe_name fname in
  if ends_with (lit ".lua") (uni_lower safe) then safe else safe ++ lit ".lua".

Definition unresolved_path (fname vid : pystr) : pystr := cat [safe_name fname; lit "__"; vid; lit ".lua"].

(** What the addon writer leaves: the entries of the merged file, the
    extracted sources, the builds nobody could separate, and the report. *)
Record aio_export := AioExport {
  ae_addons : lua_hash; ae_sources : list (pystr * pystr); ae_unresolved : list (pystr * pystr);
  ae_report : list (pystr * Z * Z * Z * pystr * pystr) }.

Definition addon_table (fname : pystr) (v : aio_build) : lua :=
  table_from [(lstr "name", VStr fname); (lstr "crc", ab_crc v); (lstr "code", VStr (ab_code v))] [].

(** One addon. *)
Definition export_addon (srcinfo : source_infos) (out : aio_export) (fv : pystr * build_store) : res aio_export :=
  let '(fname, variants) := fv in
  c ← choose_addon_build srcinfo variants;
  let '(nsub, nsrc, when_) := addon_stats srcinfo (ac_build c) in
  let report := ae_report out ++ [(fname, pylen variants, nsub, nsrc, when_, ac_note c)] in
  if bool_decide (ac_note c = UNRESOLVED) then
    Ok (AioExport (ae_addons out) (ae_sources out)
          (fold_left (fun d kv => dset (unresolved_path fname (fst kv)) (ab_code (snd kv)) d) (ac_tied c) (ae_unresolved out))
          report)
  else
    Ok (AioExport (hset (VStr fname) (addon_table fname (ac_build c)) (ae_addons out))
          (dset (addon_path fname) (ab_code (ac_build c)) (ae_sources out)) (ae_unresolved out) report).

Definition export_addons (srcinfo : source_infos) (store : aio_store) : res aio_export :=
  res_fold (export_addon srcinfo) (AioExport [] [] [] []) store.
Definition aio_globals (out : aio_export) : lua_globals := [(lit "AIO_sv_Addons", VTable [] (ae_addons out))].

(** [write_aio]. *)
Definition write_aio (srcinfo : source_infos) (store : aio_store) : res (option aio_export) :=
  match store with
  | [] => Ok None
  | _ => out ← export_addons srcinfo store; Ok (Some out)
  end.

(** ** Reading back *)

(** One written file: it parses, and writing what was parsed is the file. *)
Definition stable_text (text : pystr) : res bool :=
  match loads text with
  | Ok g => Ok (bool_decide (dumps g = text))
  | Err LuaError => Ok false
  | Err e => Err e
  end.

(** One extracted source against the code in the store. *)
Definition source_matches (srcinfo : source_infos) (sources : list (pystr * pystr)) (fv : pystr * build_store) : res bool :=
  c ← choose_addon_build srcinfo (snd fv);
  if bool_decide (ac_note c = UNRESOLVED) then Ok true
  else Ok (bool_decide (dget (addon_path (fst fv)) sources = Some (ab_code (ac_build c)))).

(** [verify]. *)
Definition verify (srcinfo : source_infos) (store : aio_store) (files : list pystr)
    (sources : list (pystr * pystr)) : res bool :=
  bs ← res_map stable_text files;
  cs ← res_map (source_matches srcinfo sources) store;
  Ok (forallb id bs && forallb id cs).
End Publishing.

Definition PROCESSING_REVISION : pystr := lit "2026-09-11.3".

(** ** The state *)

(** A row of [state["sources"]]; a field the row lacks is [None]. *)
Record source_row := SourceRow {
  sr_filename : pystr; sr_spec : pystr; sr_records : Z;
  sr_error : option pystr; sr_status : option pystr; sr_revision : option pystr;
  sr_class : option (pystr * pystr * pystr * pystr);      (* group, realm, mode, slug *)
  sr_captured : option pystr; sr_submission : option pystr; sr_retained : option Z }.

(** A conflict as the state keeps it: the path as text. *)
Definition conflict_row : Type := list pystr * lua * lua.

Record lua_state := LuaState {
  ls_mobs : mob_store; ls_aio : aio_store; ls_prices : price_store; ls_captures : capture_store;
  ls_nodes : node_store; ls_retained : held_store;
  ls_sources : list (pystr * source_row); ls_conflicts : list (pystr * list conflict_row);
  ls_revision : option pystr }.

(** The state of a first run. *)
Definition fresh_state : lua_state := LuaState [] [] [] [] [] [] [] [] None.
Definition is_fresh (st : lua_state) : bool :=
  match st with LuaState [] [] [] [] [] [] [] [] None => true | _ => false end.

Definition set_row (sid : pystr) (row : source_row) (st : lua_state) : lua_state :=
  LuaState (ls_mobs st) (ls_aio st) (ls_prices st) (ls_captures st) (ls_nodes st) (ls_retained st)
    (dset sid row (ls_sources st)) (ls_conflicts st) (ls_revision st).
Definition set_conflicts (cs : list (pystr * list conflict_row)) (st : lua_state) : lua_state :=
  LuaState (ls_mobs st) (ls_aio st) (ls_prices st) (ls_captures st) (ls_nodes st) (ls_retained st)
    (ls_sources st) cs (ls_revision st).
Definition set_retained (held : held_store) (st : lua_state) : lua_state :=
  LuaState (ls_mobs st) (ls_aio st) (ls_prices st) (ls_captures st) (ls_nodes st) held
    (ls_sources st) (ls_conflicts st) (ls_revision st).
Definition set_revision (st : lua_state) : lua_state :=
  LuaState (ls_mobs st) (ls_aio st) (ls_prices st) (ls_captures st) (ls_nodes st) (ls_retained st)
    (ls_sources st) (ls_conflicts st) (Some PROCESSING_REVISION).

(** ** Files *)

(** A file that [discover] found, and what its path says: its spec, its text
    ([None] when its bytes are not UTF-8), the group, the submission and the
    capture date of the path. *)
Record saved_file := SavedFile {
  f_spec : pystr; f_sid : pystr; f_name : pystr; f_text : option pystr;
  f_group : pystr; f_submission : pystr; f_captured : pystr }.

(** What a replay prescribes for a source: the fields its row has. *)
Record replay_row := ReplayRow {
  rp_group : option pystr; rp_realm : option pystr; rp_mode : option pystr; rp_slug : option pystr;
  rp_captured : option (option pystr); rp_submission : option (option pystr) }.
Definition no_replay : replay_row := ReplayRow None None None None None None.

(** [SPECS[key]["globals"]]. *)
Definition SPEC_GLOBALS : list (pystr * list pystr) :=
  [(lit "mobspells.lua", [lit "MobSpellsDB"]); (lit "aio_client.lua", [lit "AIO_sv_Addons"]);
   (lit "auctionator_price_database.lua", [lit "AUCTIONATOR_PRICE_DATABASE"]); (lit "gathermate2.lua", _NODE_DBS)].

(** ** Merging one file *)

Section Run.
Context `{Unicode}.
Context (sha1_hex sha256_hex : list Z -> pystr).
Context (user_modes : list (pystr * (option pystr * option pystr))).

(** [meta]. *)
Record merge_meta := MergeMeta { mm_captured : option pystr; mm_prior : node_store }.

(** [MERGERS[key]]: the state, what disagreed, and how many records. *)
Definition run_merger (key : pystr) (st : lua_state) (modes : mode_table) (g : list (pystr * lua))
    (sid : pystr) (meta : merge_meta) : res (lua_state * mode_table * list conflict * Z) :=
  if bool_decide (key = lit "mobspells.lua") then
    let '(mobs, cs, n) := merge_mobspells (ls_mobs st) g sid in
    Ok (LuaState mobs (ls_aio st) (ls_prices st) (ls_captures st) (ls_nodes st) (ls_retained st)
          (ls_sources st) (ls_conflicts st) (ls_revision st), modes, cs, n)
  else if bool_decide (key = lit "aio_client.lua") then
    '(aio, n) ← merge_aio sha1_hex (ls_aio st) g sid;
    Ok (LuaState (ls_mobs st) aio (ls_prices st) (ls_captures st) (ls_nodes st) (ls_retained st)
          (ls_sources st) (ls_conflicts st) (ls_revision st), modes, [], n)
  else if bool_decide (key = lit "auctionator_price_database.lua") then
    '(a, n) ← merge_auctionator sha256_hex user_modes sid (mm_captured meta)
                (AuctionState (ls_prices st) (ls_captures st) (ls_retained st) modes) g;
    Ok (LuaState (ls_mobs st) (ls_aio st) (as_prices a) (as_captures a) (ls_nodes st) (as_held a)
          (ls_sources st) (ls_conflicts st) (ls_revision st), as_modes a, [], n)
  else if bool_decide (key = lit "gathermate2.lua") then
    let '(nodes, cs, n) := merge_gathermate (mm_prior meta) (ls_nodes st) g in
    Ok (LuaState (ls_mobs st) (ls_aio st) (ls_prices st) (ls_captures st) nodes (ls_retained st)
          (ls_sources st) (ls_conflicts st) (ls_revision st), modes, cs, n)
  else Err KeyError.

Definition is_empty_table (v : lua) : bool := match v with VTable [] [] => true | _ => false end.

Definition is_version_label (label : lua) : bool := bool_decide (uni_lower (key_str label) = lit "__dbversion").

(** The payload that must be there and empty when nothing was consumed. *)
Definition expected_payload (key : pystr) (names : list pystr) (g : list (pystr * lua)) : list lua :=
  if bool_decide (key = lit "mobspells.lua") then
    [lua_get (lua_get (default VNone (dget (lit "MobSpellsDB") g)) "global") "mobs"]
  else
    let present := omap (fun n => dget n g) names in
    if bool_decide (key = lit "auctionator_price_database.lua") then
      match dget (lit "AUCTIONATOR_PRICE_DATABASE") g with
      | Some (VTable [] h) =>
          match map snd (List.filter (fun kv => negb (is_version_label (fst kv))) h) with
          | [] => [VTable [] []]
          | values => values
          end
      | _ => present
      end
    else present.

(** Nothing consumed from something: the merge fails. *)
Definition consumed (key : pystr) (names : list pystr) (g : list (pystr * lua)) (n : Z) : res unit :=
  if n =? 0 then
    match expected_payload key names g with
    | [] => Err LuaError
    | values => if forallb is_empty_table values then Ok tt else Err LuaError
    end
  else Ok tt.

(** [type(exc).__name__] of what the loop catches; the others end the run. *)
Definition retained_error (e : exn) : option pystr :=
  match e with
  | LuaError => Some (lit "LuaError")
  | ValueError => Some (lit "ValueError")
  | TypeError => Some (lit "TypeError")
  | DecodeError => Some (lit "UnicodeDecodeError")
  | EncodeError => Some (lit "UnicodeEncodeError")
  | _ => None
  end.

(** [grp], the realm, mode and slug, and the table of modes. *)
Definition file_class (f : saved_file) (original : replay_row) (modes : mode_table)
    : pystr * pystr * pystr * pystr * mode_table :=
  let grp := default (f_group f) (rp_group original) in
  let '(realm, mode, slug, modes) :=
    match grp with
    | [] => ([], UNKNOWN, UNKNOWN, modes)
    | _ => let '(c, modes) := classify user_modes grp modes in (mc_realm c, mc_mode c, mc_slug c, modes)
    end in
  (grp, default realm (rp_realm original), default mode (rp_mode original), default slug (rp_slug original), modes).

Definition conflict_rows (cs : list conflict) : list conflict_row :=
  map (fun c => (map key_str (fst (fst c)), snd (fst c), snd c)) cs.

(** The trial: the copy of the state the file is merged into. *)
Definition trial (st : lua_state) (sid : pystr) : lua_state := set_retained (ddel sid (ls_retained st)) st.

(** What one file does: the state after it, the modes, and its conflicts.  A
    mode that a failed trial added to the table is not in the modes of the
    result: looking it up again adds the same entry. *)
Definition merge_file (replay : option (list (pystr * replay_row))) (prior : option node_store)
    (st : lua_state) (modes : mode_table) (f : saved_file) (g : list (pystr * lua)) (names : list pystr)
    : res (lua_state * mode_table * list conflict) :=
  let sid := f_sid f in
  let original := default no_replay (dget sid (default [] replay)) in
  let '(grp, realm, mode, slug, modes) := file_class f original modes in
  let captured := default (Some (f_captured f)) (rp_captured original) in
  let meta := MergeMeta captured (default [] prior) in
  let attempt := '(st', modes', cs, n) ← run_merger (f_spec f) (trial st sid) modes g sid meta;
                 _ ← consumed (f_spec f) names g n; Ok (st', modes', cs, n) in
  match attempt with
  | Ok (st', modes', cs, n) =>
      let st' := set_conflicts (dset sid (conflict_rows cs) (ls_conflicts st')) st' in
      let held := pylen (default [] (dget sid (ls_retained st'))) in
      let status := if negb (held =? 0) then lit "processed_with_retained"
                    else if n =? 0 then lit "empty_supported" else lit "processed" in
      let row := SourceRow (f_name f) (f_spec f) n None (Some status) (Some PROCESSING_REVISION)
                   (Some (grp, realm, mode, slug)) captured
                   (default (Some (f_submission f)) (rp_submission original)) (Some held) in
      Ok (set_row sid row st', modes', cs)
  | Err e =>
      match retained_error e with
      | Some name =>
          let st := set_conflicts (ddel sid (ls_conflicts st)) st in
          let row := SourceRow (f_name f) (f_spec f) 0 (Some name) (Some (lit "needs_review"))
                       (Some PROCESSING_REVISION) None None None None in
          Ok (set_row sid row st, modes, [])
      | None => Err e
      end
  end.

(** A row that is done with: without an error, under these rules. *)
Definition settled_row (row : source_row) : bool :=
  match sr_error row with
  | Some (_ :: _) => false
  | _ => bool_decide (sr_revision row = Some PROCESSING_REVISION)
  end.

(** The row of a file that was not read, or has none of its globals; the text
    of a message is reduced to what was raised. *)
Definition error_row (f : saved_file) (msg : pystr) : source_row :=
  SourceRow (f_name f) (f_spec f) 0 (Some msg) None None None None None None.

Definition NO_GLOBAL : pystr := lit "unsupported_schema: expected global missing".

(** [luaser.load]: the file is read as UTF-8. *)
Definition load_file (f : saved_file) : res (list (pystr * lua)) :=
  match f_text f with Some text => loads text | None => Err DecodeError end.

Record run_state := RunState {
  rs_state : lua_state; rs_modes : mode_table; rs_conflicts : list conflict; rs_added : Z; rs_skipped : Z }.

(** One turn of the loop over the files. *)
Definition run_file (replay : option (list (pystr * replay_row))) (prior : option node_store)
    (rs : run_state) (f : saved_file) : res run_state :=
  let st := rs_state rs in
  let keep st := Ok (RunState st (rs_modes rs) (rs_conflicts rs) (rs_added rs) (rs_skipped rs)) in
  if match dget (f_sid f) (ls_sources st) with Some row => settled_row row | None => false end
  then Ok (RunState st (rs_modes rs) (rs_conflicts rs) (rs_added rs) (rs_skipped rs + 1))
  else
    match load_file f with
    | Err LuaError => keep (set_row (f_sid f) (error_row f (lit "LuaError")) st)
    | Err DecodeError => keep (set_row (f_sid f) (error_row f (lit "UnicodeDecodeError")) st)
    | Err EncodeError => keep (set_row (f_sid f) (error_row f (lit "UnicodeEncodeError")) st)
    | Err e => Err e
    | Ok g =>
        names ← res_of_option KeyError (dget (f_spec f) SPEC_GLOBALS);
        if existsb (fun n => dmem n g) names then
          '(st', modes, cs) ← merge_file replay prior st (rs_modes rs) f g names;
          let merged := match dget (f_sid f) (ls_sources st') with Some row => settled_row row | None => false end in
          Ok (RunState st' modes (rs_conflicts rs ++ cs) (if merged then rs_added rs + 1 else rs_added rs) (rs_skipped rs))
        else keep (set_row (f_sid f) (error_row f NO_GLOBAL) st)
    end.

(** [backfill_submissions]. *)
Definition lacks_submission (row : source_row) : bool :=
  match sr_submission row with Some (_ :: _) => false | _ => true end.

Definition set_submission (s : pystr) (row : source_row) : source_row :=
  SourceRow (sr_filename row) (sr_spec row) (sr_records row) (sr_error row) (sr_status row) (sr_revision row)
    (sr_class row) (sr_captured row) (Some s) (sr_retained row).

Definition backfill_submissions (files : list saved_file) (st : lua_state) : lua_state :=
  let want := omap (fun sr => if lacks_submission (snd sr) then Some (fst sr) else None) (ls_sources st) in
  fold_left (fun st f =>
    match dget (f_sid f) (ls_sources st) with
    | Some row => if bool_decide (f_sid f ∈ want) then set_row (f_sid f) (set_submission (f_submission f) row) st else st
    | None => st
    end) files st.

Definition is_some {A} (o : option A) : bool := match o with Some _ => true | None => false end.

(** [run_merge], from the state it loads to the state it saves. *)
Definition run_merge (replay : option (list (pystr * replay_row))) (prior : option node_store)
    (st : lua_state) (modes : mode_table) (files : list saved_file) : res run_state :=
  if (is_some replay || is_some prior) && negb (is_fresh st) then Err RuntimeError
  else if match ls_sources st with [] => false | _ => negb (bool_decide (ls_revision st = Some PROCESSING_REVISION)) end
  then Err RuntimeError
  else
    rs ← res_fold (run_file replay prior) (RunState (set_revision st) modes [] 0 0) files;
    Ok (RunState (backfill_submissions files (rs_state rs)) (rs_modes rs) (rs_conflicts rs) (rs_added rs) (rs_skipped rs)).
End Run.
