(* ===== verification/LuaRunSpec.v ===== *)
(** * What a run over the submissions guarantees

    A file whose merge fails leaves nothing behind but its own row; every file
    gets a row; and a second run over files that are done with does nothing. *)
From S2P Require Import Prelude Text Format Lua LuaParse Modes LuaMerge LuaAuction LuaBuild LuaRun.

(** ** Which parts a step may touch *)

(** The stores that are published, and what is held back from them. *)
Definition same_stores (a b : lua_state) : Prop :=
  ls_mobs a = ls_mobs b /\ ls_aio a = ls_aio b /\ ls_prices a = ls_prices b /\ ls_captures a = ls_captures b
  /\ ls_nodes a = ls_nodes b /\ ls_retained a = ls_retained b /\ ls_revision a = ls_revision b.

(** Only the row and the conflicts of [sid] differ. *)
Definition same_others (sid : pystr) (a b : lua_state) : Prop :=
  forall other, other <> sid ->
  dget other (ls_sources a) = dget other (ls_sources b) /\ dget other (ls_conflicts a) = dget other (ls_conflicts b).

Definition row_of (st : lua_state) (sid : pystr) : option source_row := dget sid (ls_sources st).

Section RunLaws.
Context `{Unicode}.
Context (sha1_hex sha256_hex : list Z -> pystr).
Context (user_modes : list (pystr * (option pystr * option pystr))).

Abbreviation merger := (run_merger sha1_hex sha256_hex user_modes) (only parsing).
Abbreviation file := (run_file sha1_hex sha256_hex user_modes) (only parsing).

(** A merger never touches the rows or the conflicts. *)
Lemma merger_rows key st modes g sid meta st' modes' cs n :
  merger key st modes g sid meta = Ok (st', modes', cs, n) ->
  ls_sources st' = ls_sources st /\ ls_conflicts st' = ls_conflicts st /\ ls_revision st' = ls_revision st.
Proof.
  unfold run_merger. intros E. repeat case_bool_decide.
  - destruct (merge_mobspells _ _ _) as [[m c] k]. by simplify_eq.
  - inv_bind E. destruct v as [a k]. by simplify_eq.
  - inv_bind E. destruct v as [a k]. by simplify_eq.
  - destruct (merge_gathermate _ _ _) as [[m c] k]. by simplify_eq.
  - done.
Qed.

Lemma merge_file_spec replay prior st modes f g names st' modes' cs :
  merge_file sha1_hex sha256_hex user_modes replay prior st modes f g names = Ok (st', modes', cs) ->
  ls_revision st' = ls_revision st /\ same_others (f_sid f) st' st
  /\ exists row, row_of st' (f_sid f) = Some row /\ sr_revision row = Some PROCESSING_REVISION
    /\ (sr_error row = None \/ (exists c t, sr_error row = Some (c :: t)) /\ same_stores st' st /\ cs = []).
Proof.
  unfold merge_file. destruct (file_class _ _ _ _) as [[[[grp realm] mode] slug] modes1].
  set (captured := default (Some (f_captured f)) _). set (meta := MergeMeta _ _). intros E.
  destruct (merger (f_spec f) (trial st (f_sid f)) modes1 g (f_sid f) meta) as [[[[s m] c] n]|e] eqn:Em; cbn [mbind res_bind] in E.
  - apply merger_rows in Em as (E1 & E2 & E3). unfold trial in *. cbn [ls_sources ls_conflicts ls_revision set_retained] in *.
    destruct (consumed _ _ _ _) as [u|e]; cbn [mbind res_bind] in E.
    + injection E as <- _ _. split; [done|]. split.
      * intros other Ho. cbn. rewrite !dget_dset_ne by done. by rewrite E1, E2.
      * eexists. unfold row_of. cbn. rewrite dget_dset_eq. split; [done|]. split; [done|]. by left.
    + destruct (retained_error e) as [name|] eqn:Er; [|done]. injection E as <- _ <-.
      split; [done|]. split.
      * intros other Ho. cbn. by rewrite dget_dset_ne, dget_ddel_ne.
      * eexists. unfold row_of. cbn. rewrite dget_dset_eq. split; [done|]. split; [done|]. right.
        split; [|done]. destruct e; simplify_eq/=; by do 2 eexists.
  - destruct (retained_error e) as [name|] eqn:Er; [|done]. injection E as <- _ <-.
    split; [done|]. split.
    + intros other Ho. cbn. by rewrite dget_dset_ne, dget_ddel_ne.
    + eexists. unfold row_of. cbn. rewrite dget_dset_eq. split; [done|]. split; [done|]. right.
      split; [|done]. destruct e; simplify_eq/=; by do 2 eexists.
Qed.

Lemma others_refl sid st : same_others sid st st.
Proof. by intros. Qed.
Lemma stores_refl st : same_stores st st.
Proof. done. Qed.

Lemma set_row_spec sid row st :
  same_others sid (set_row sid row st) st /\ same_stores (set_row sid row st) st /\ row_of (set_row sid row st) sid = Some row.
Proof.
  split; [|split; [done | unfold row_of; cbn; apply dget_dset_eq]].
  intros other Ho. cbn. by rewrite dget_dset_ne.
Qed.

(** What one turn of the loop does, whatever the file holds. *)
Definition turn_ok (sid : pystr) (rs rs' : run_state) : Prop :=
  ls_revision (rs_state rs') = ls_revision (rs_state rs) /\ same_others sid (rs_state rs') (rs_state rs)
  /\ exists row, row_of (rs_state rs') sid = Some row
    /\ (settled_row row = true \/ same_stores (rs_state rs') (rs_state rs) /\ rs_conflicts rs' = rs_conflicts rs).

Lemma error_turn sid msg f st rs :
  st = rs_state rs -> sid = f_sid f ->
  turn_ok sid rs (RunState (set_row sid (error_row f msg) st) (rs_modes rs) (rs_conflicts rs) (rs_added rs) (rs_skipped rs)).
Proof.
  intros -> ->. destruct (set_row_spec (f_sid f) (error_row f msg) (rs_state rs)) as (Ho & Hs & Hr).
  split; [done|]. split; [done|]. eexists. split; [exact Hr|]. by right.
Qed.

Lemma run_file_turn replay prior rs f rs' : file replay prior rs f = Ok rs' -> turn_ok (f_sid f) rs rs'.
Proof.
  unfold run_file. destruct (match dget (f_sid f) (ls_sources (rs_state rs)) with Some row => settled_row row | None => false end) eqn:Es.
  - intros [= <-]. split; [done|]. split; [apply others_refl|]. cbn [rs_state rs_conflicts].
    unfold row_of. destruct (dget _ _) as [row|]; [|done]. exists row. split; [done|]. by left.
  - destruct (load_file f) as [g|e].
    + intros E. inv_bind E. destruct (existsb _ _).
      * inv_bind E. destruct v0 as [[st' modes'] cs]. injection E as <-.
        destruct (merge_file_spec _ _ _ _ _ _ _ _ _ _ E1) as (Hr & Ho & row & Hrow & Hrev & Hc).
        split; [done|]. split; [done|]. exists row. split; [done|]. cbn [rs_state rs_conflicts].
        destruct Hc as [Hn|(_ & Hs & ->)]; [|right; split; [done | by rewrite app_nil_r]].
        left. unfold settled_row. rewrite Hn, Hrev. by apply bool_decide_eq_true.
      * injection E as <-. by apply error_turn.
    + destruct e; intros E; try done; injection E as <-; by apply error_turn.
Qed.


(** ** A whole run *)

Lemma fold_turn replay prior files : forall rs rs',
  res_fold (file replay prior) rs files = Ok rs' ->
  ls_revision (rs_state rs') = ls_revision (rs_state rs)
  /\ (forall sid, is_Some (row_of (rs_state rs) sid) -> is_Some (row_of (rs_state rs') sid))
  /\ (forall f, f ∈ files -> is_Some (row_of (rs_state rs') (f_sid f))).
Proof.
  induction files as [|f files IH]; intros rs rs' E; cbn [res_fold] in E.
  { injection E as <-. split; [done|]. split; [done|]. by intros f []%not_elem_of_nil. }
  inv_bind E. destruct (run_file_turn _ _ _ _ _ E0) as (Hrev & Ho & row & Hrow & _).
  destruct (IH _ _ E) as (Hrev' & Hk & Hf).
  assert (forall sid, is_Some (row_of (rs_state rs) sid) -> is_Some (row_of (rs_state v) sid)) as Hkeep.
  { intros sid Hs. destruct (decide (sid = f_sid f)) as [->|Hn]; [by eexists|].
    unfold row_of in *. by rewrite (proj1 (Ho sid Hn)). }
  split; [congruence|]. split; [auto|]. intros f' [->|Hin]%elem_of_cons; [|auto].
  apply Hk. by eexists.
Qed.

(** The backfill gives a row of a file a submission, and changes nothing else. *)
Definition backfill_one (want : list pystr) (st : lua_state) (f : saved_file) : lua_state :=
  match dget (f_sid f) (ls_sources st) with
  | Some row => if bool_decide (f_sid f ∈ want) then set_row (f_sid f) (set_submission (f_submission f) row) st else st
  | None => st
  end.

Lemma backfill_rows want files st sid :
  ls_revision (fold_left (backfill_one want) files st) = ls_revision st
  /\ (is_Some (row_of st sid) -> is_Some (row_of (fold_left (backfill_one want) files st) sid))
  /\ (row_of st sid = None -> row_of (fold_left (backfill_one want) files st) sid = None).
Proof.
  revert st. induction files as [|f files IH]; intros st; [done|]. cbn [fold_left].
  destruct (IH (backfill_one want st f)) as (H1 & H2 & H3). unfold backfill_one in *.
  destruct (dget (f_sid f) (ls_sources st)) as [row|] eqn:E; [|done]. case_bool_decide; [|done].
  split; [done|]. unfold row_of in *. cbn [ls_sources set_row] in *. rewrite dget_dset in H2, H3.
  case_decide as Ed; [subst sid|done]. rewrite E. split; [auto|done].
Qed.

Lemma backfill_noop files st :
  dict_ok (ls_sources st) ->
  (forall f, f ∈ files -> exists row, row_of st (f_sid f) = Some row /\ lacks_submission row = false) ->
  backfill_submissions files st = st.
Proof.
  intros Hd Hf. unfold backfill_submissions. set (want := omap _ _).
  change (fold_left (backfill_one want) files st = st).
  assert (forall f, f ∈ files -> f_sid f ∉ want) as Hw.
  { intros f Hin Hx. destruct (Hf f Hin) as (row & Hr & Hl). unfold want in Hx.
    apply list_elem_of_omap in Hx as ([sid row'] & Hin' & Hs). cbn [fst snd] in Hs.
    destruct (lacks_submission row') eqn:El; [|done]. injection Hs as ->.
    apply (elem_of_dget _ _ _ Hd) in Hin'. unfold row_of in Hr. congruence. }
  clearbody want. clear Hf. induction files as [|f files IH]; [done|]. cbn [fold_left].
  assert (backfill_one want st f = st) as ->.
  { unfold backfill_one. destruct (dget _ _); [|done]. rewrite bool_decide_eq_false_2; [done|]. apply Hw. by left. }
  apply IH. intros f' Hin. apply Hw. by right.
Qed.

(** Files that are done with are skipped. *)
Lemma skip_turn replay prior rs f row :
  row_of (rs_state rs) (f_sid f) = Some row -> settled_row row = true ->
  file replay prior rs f
  = Ok (RunState (rs_state rs) (rs_modes rs) (rs_conflicts rs) (rs_added rs) (rs_skipped rs + 1)).
Proof. unfold row_of, run_file. by intros -> ->. Qed.

Lemma fold_skip replay prior files : forall rs,
  (forall f, f ∈ files -> exists row, row_of (rs_state rs) (f_sid f) = Some row /\ settled_row row = true) ->
  res_fold (file replay prior) rs files
  = Ok (RunState (rs_state rs) (rs_modes rs) (rs_conflicts rs) (rs_added rs) (rs_skipped rs + pylen files)).
Proof.
  induction files as [|f files IH]; intros rs Hf; cbn [res_fold].
  { rewrite pylen_nil, Z.add_0_r. by destruct rs. }
  destruct (Hf f) as (row & Hr & Hs); [by left|]. rewrite (skip_turn _ _ _ _ row Hr Hs).
  cbn [mbind res_bind]. rewrite IH by (intros f' Hin; apply Hf; by right). cbn [rs_state rs_modes rs_conflicts rs_added rs_skipped].
  rewrite pylen_cons. do 2 f_equal. lia.
Qed.

(** A run accounts for every file, and running again changes nothing.
    After a run every file it was given has a row; and a second run over files
    whose rows are settled and name their submission skips them all, merges
    nothing, reports nothing, and saves the state it loaded. *)
Theorem run_again replay prior st modes files rs files' :
  run_merge sha1_hex sha256_hex user_modes replay prior st modes files = Ok rs ->
  dict_ok (ls_sources (rs_state rs)) ->
  (forall f, f ∈ files' -> exists row, row_of (rs_state rs) (f_sid f) = Some row
     /\ settled_row row = true /\ lacks_submission row = false) ->
  (forall f, f ∈ files -> is_Some (row_of (rs_state rs) (f_sid f)))
  /\ run_merge sha1_hex sha256_hex user_modes None None (rs_state rs) (rs_modes rs) files'
     = Ok (RunState (rs_state rs) (rs_modes rs) [] 0 (pylen files')).
Proof.
  intros E Hd Hf. unfold run_merge in E. destruct (_ && _) in E; [done|].
  destruct (match ls_sources st with [] => false | _ => _ end) in E; [done|]. inv_bind E. injection E as <-.
  cbn [rs_state rs_modes] in *. destruct (fold_turn _ _ _ _ _ E0) as (Hrev & _ & Hrows). cbn in Hrev.
  set (want := omap (fun sr => if lacks_submission (snd sr) then Some (fst sr) else None) (ls_sources (rs_state v))).
  change (backfill_submissions files (rs_state v)) with (fold_left (backfill_one want) files (rs_state v)) in *.
  set (st' := fold_left (backfill_one want) files (rs_state v)) in *.
  assert (ls_revision st' = Some PROCESSING_REVISION) as Hr' by (unfold st'; by rewrite (proj1 (backfill_rows want files (rs_state v) []))).
  split. { intros f Hin. apply backfill_rows, Hrows, Hin. }
  unfold run_merge. cbn [is_some orb andb]. rewrite Hr', bool_decide_eq_true_2 by done.
  assert (set_revision st' = st') as Hs by (unfold set_revision; rewrite <- Hr'; by destruct st').
  rewrite Hs. cbn [negb].
  assert ((match ls_sources st' with [] => false | _ :: _ => false end) = false) as -> by (by destruct (ls_sources st')).
  rewrite fold_skip by (intros f Hin; destruct (Hf f Hin) as (row & ? & ? & _); eauto).
  cbn [mbind res_bind rs_state rs_modes rs_conflicts rs_added rs_skipped].
  by rewrite backfill_noop by (done || (intros f Hin; destruct (Hf f Hin) as (row & ? & _ & ?); eauto)).
Qed.
End RunLaws.

(** Two files: a node file, and one that no parser accepts. *)
Definition node_file (sid : string) (text : string) : saved_file :=
  SavedFile (lit "gathermate2.lua") (lit sid) (lit "GatherMate2.lua") (Some (lit text)) [] (lit "loose:GatherMate2.lua") (lit "2026-09-11").
Definition good_nodes : saved_file := node_file "aa" "GatherMate2HerbDB = { [12] = { [100] = 401, }, }".
Definition bad_nodes : saved_file := node_file "bb" "GatherMate2HerbDB = { [12] = { [100] = 402, }".

Definition sample_run (files : list saved_file) : res run_state :=
  @run_merge latin_unicode (fun _ => []) (fun _ => []) [] None None fresh_state MODE_TABLE files.


Lemma run_again_witness :
  exists rs, sample_run [good_nodes; bad_nodes; good_nodes] = Ok rs /\ rs_added rs = 1 /\ rs_skipped rs = 1
  /\ @run_merge latin_unicode (fun _ => []) (fun _ => []) [] None None (rs_state rs) (rs_modes rs) [good_nodes]
     = Ok (RunState (rs_state rs) (rs_modes rs) [] 0 1).
Proof.
  destruct (sample_run [good_nodes; bad_nodes; good_nodes]) as [rs|] eqn:E; [|vm_compute in E; discriminate].
  exists rs. split; [reflexivity|]. pose proof E as E'. vm_compute in E'. injection E' as E'.
  split; [by rewrite <- E'|]. split; [by rewrite <- E'|].
  apply (@run_again latin_unicode _ _ _ _ _ _ _ _ _ [good_nodes] E).
  - rewrite <- E'. by_decide.
  - intros f ->%list_elem_of_singleton. rewrite <- E'. eexists. split; [vm_compute; reflexivity|]. split; reflexivity.
Defined.
