(* ===== verification/LuaExportSpec.v ===== *)
(** * What is published reads back

    Every file the writers produce from a store of sound values passes the
    check that follows the export: it parses, writing it again gives the same
    bytes, and every extracted addon source is the code of the build that was
    chosen, unless two addons share a file name. *)
From stdpp Require Import sorting.
From S2P Require Import Prelude Text Format Lua LuaParse LuaLex LuaSpec.
From S2P Require Import LuaMerge LuaAuction LuaBuild LuaRun.

Section ExportLaws.
Context `{Unicode}.

(** ** Tables a writer builds *)

Definition entries_ok (h : lua_hash) : Prop :=
  Forall (fun kv => key_ok (fst kv) /\ lua_ok (snd kv)) h /\ keys_distinct h.

Lemma entries_table h : entries_ok h -> lua_ok (VTable [] h).
Proof. intros [Hf Hd]. by apply ok_table. Qed.

Lemma hset_entry k v h x : x ∈ hset k v h -> x = (k, v) \/ (exists k' v', (k', v') ∈ h /\ fst x = k' /\ (snd x = v \/ snd x = v')).
Proof.
  induction h as [|[a b] h IH]; cbn; [by intros ->%list_elem_of_singleton; left|].
  destruct (key_eqb a k); intros [->|Hx]%elem_of_cons.
  - right. exists a, b. split; [left|]. auto.
  - right. destruct x as [c d]. exists c, d. split; [by right|]. auto.
  - right. exists a, b. split; [left|]. auto.
  - destruct (IH Hx) as [->|(k' & v' & ? & ? & ?)]; [by left|]. right. exists k', v'. split; [by right | done].
Qed.

Lemma entries_hset k v h : key_ok k -> lua_ok v -> entries_ok h -> entries_ok (hset k v h).
Proof.
  intros Hk Hv [Hf Hd]. split.
  - rewrite Forall_forall in *. intros x [->|(k' & v' & Hin & -> & Hs)]%hset_entry; [done|].
    destruct (Hf _ Hin) as [? ?]. cbn in *. destruct Hs as [->| ->]; done.
  - clear Hf. unfold keys_distinct in *. induction Hd as [|[a b] h Ha Hd IH]; cbn; [repeat constructor|].
    destruct (key_eqb a k) eqn:E; [by constructor|]. constructor; [|done].
    rewrite Forall_forall in *. intros x [->|(k' & v' & Hin & -> & _)]%hset_entry; [done | apply (Ha _ Hin)].
Qed.

Lemma entries_nil : entries_ok [].
Proof. split; [done | constructor]. Qed.

Lemma fold_hset_ok {A} (key : pystr -> lua) (value : A -> lua) (l : list (pystr * A)) h :
  Forall (fun kx => key_ok (key (fst kx)) /\ lua_ok (value (snd kx))) l -> entries_ok h ->
  entries_ok (fold_left (fun h kx => hset (key (fst kx)) (value (snd kx)) h) l h).
Proof.
  intros Hl. revert h. induction Hl as [|[k x] l [Hk Hx] Hl IH]; intros h Hh; [done|].
  cbn [fold_left fst snd]. apply IH. by apply entries_hset.
Qed.

Lemma table_of_ok {A} (key : pystr -> lua) (value : A -> lua) (l : list (pystr * A)) :
  Forall (fun kx => key_ok (key (fst kx)) /\ lua_ok (value (snd kx))) l -> lua_ok (table_of key value l).
Proof. intros Hl. apply entries_table. by apply fold_hset_ok; [|apply entries_nil]. Qed.

Lemma table_from_ok l : Forall (fun kv => key_ok (fst kv) /\ lua_ok (snd kv)) l -> lua_ok (table_from l []).
Proof.
  intros Hl. apply entries_table. generalize entries_nil. generalize (@nil (lua * lua)).
  induction Hl as [|[k v] l [Hk Hv] Hl IH]; intros h Hh; [done|]. cbn [fold_left fst snd]. apply IH. by apply entries_hset.
Qed.

Lemma _key_ok s : text_ok s -> key_ok (_key s).
Proof. intros Hs. unfold _key. destruct (int_of_str s); [apply kok_int | by apply kok_str]. Qed.

(** Text literals of the writers. *)
Lemma lit_text s : Forall (fun c => 0 <= c < 0xD800) (lit s) -> text_ok (lit s).
Proof.
  intros Hs. eapply Forall_impl; [exact Hs|]. cbn beta. intros c Hc. split; [unfold is_char; lia|].
  unfold is_surrogate. by rewrite (proj2 (Z.leb_gt _ _)) by lia.
Qed.
Ltac lit_ok := apply lit_text; repeat (constructor; [cbn; lia|]); constructor.

Lemma lstr_key s : text_ok (lit s) -> key_ok (lstr s).
Proof. apply kok_str. Qed.

(** ** Stores of sound values *)

(** Values a file can hold, under texts that can be keys. *)
Definition keyed_ok {A} (ok : A -> Prop) (kx : pystr * A) : Prop := text_ok (fst kx) /\ ok (snd kx).

Definition leaf_sound (d : lua_hash) : Prop := Forall (fun kv => key_ok (fst kv) /\ lua_ok (snd kv)) d.
Definition mob_sound (rec : mob_rec) : Prop :=
  (forall s, mr_name rec = Some s -> text_ok s) /\ Forall (keyed_ok leaf_sound) (mr_spells rec).
Definition mobs_sound (store : mob_store) : Prop := Forall (keyed_ok (Forall (keyed_ok mob_sound))) store.

Definition nodes_sound (store : node_store) : Prop :=
  dict_ok store /\ Forall (fun dz => is_name (fst dz) /\ Forall (keyed_ok (Forall (keyed_ok lua_ok))) (snd dz)) store.

Definition prices_sound (store : price_store) : Prop :=
  Forall (fun sb => text_ok (pb_group (snd sb)) /\ Forall (keyed_ok (fun pw => lua_ok (fst pw))) (pb_items (snd sb))) store.

Definition build_sound (v : aio_build) : Prop := text_ok (ab_code v) /\ lua_ok (ab_crc v).
Definition addons_sound (store : aio_store) : Prop := Forall (keyed_ok (Forall (fun kv => build_sound (snd kv)))) store.

Lemma keyed_table {A} (ok : A -> Prop) (value : A -> lua) (l : list (pystr * A)) :
  (forall x, ok x -> lua_ok (value x)) -> Forall (keyed_ok ok) l -> lua_ok (table_of _key value l).
Proof. intros Hv Hl. apply table_of_ok. eapply Forall_impl; [exact Hl|]. intros [k x] [Hk Hx]. split; [by apply _key_ok | auto]. Qed.

(** ** The files *)

(** A written file passes [verify]. *)
Lemma stable_dumps g : Forall global_ok g -> dict_ok g -> stable_text (dumps g) = Ok true.
Proof.
  intros Hg Hd. unfold stable_text. rewrite (loads_dumps g Hg Hd). f_equal.
  apply bool_decide_eq_true. apply dumps_norm.
Qed.

Lemma mob_table_ok rec : mob_sound rec -> lua_ok (mob_table rec).
Proof.
  intros [Hn Hs]. unfold mob_table. apply entries_table.
  assert (lua_ok (table_of _key spell_table (mr_spells rec))) as Ht.
  { apply (keyed_table leaf_sound); [|done]. intros d Hd. by apply table_from_ok. }
  assert (entries_ok [(lstr "spells", table_of _key spell_table (mr_spells rec))]) as He.
  { split; [|repeat constructor]. constructor; [|done]. split; [apply lstr_key; lit_ok | done]. }
  destruct (mr_name rec) as [[|c s]|]; [done| |done].
  apply entries_hset; [apply lstr_key; lit_ok | by apply ok_key, kok_str, Hn | done].
Qed.

Lemma write_mobspells_ok store g : mobs_sound store -> write_mobspells store = Some g -> Forall global_ok g /\ dict_ok g.
Proof.
  intros Hs E. assert (g = [(lit "MobSpellsDB", table_from [(lstr "global", table_from [(lstr "mobs", table_of _key zone_table store)] [])] [])]) as ->
    by (by destruct store; simplify_eq/=). split; [|by_decide].
  constructor; [|done]. split; [split; [done | repeat constructor]|].
  apply table_from_ok. constructor; [|done]. split; [apply lstr_key; lit_ok|].
  apply table_from_ok. constructor; [|done]. split; [apply lstr_key; lit_ok|].
  apply (keyed_table (Forall (keyed_ok mob_sound))); [|done]. intros z Hz.
  apply (keyed_table mob_sound); [|done]. apply mob_table_ok.
Qed.

Lemma write_gathermate_ok store g : nodes_sound store -> write_gathermate store = Some g -> Forall global_ok g /\ dict_ok g.
Proof.
  intros [Hd Hs] E. assert (g = map (fun dz => (fst dz, table_of _key node_table (snd dz))) store) as -> by (by destruct store; simplify_eq/=).
  split.
  - apply Forall_map. eapply Forall_impl; [exact Hs|]. intros [n db] [Hn Hdb]. split; [done|].
    apply (keyed_table (Forall (keyed_ok lua_ok))); [|done]. intros z Hz. by apply (keyed_table lua_ok).
  - unfold dict_ok, dkeys in *. by rewrite map_map.
Qed.

Lemma write_auctionator_ok store g : prices_sound store -> write_auctionator store = Some g -> Forall global_ok g /\ dict_ok g.
Proof.
  intros Hs E.
  assert (g = [(lit "AUCTIONATOR_PRICE_DATABASE",
    table_of VStr price_table (map (fun sb => (pb_group (snd sb), snd sb)) (List.filter scanned store)))]) as -> by (by destruct store; simplify_eq/=).
  split; [|by_decide]. constructor; [|done]. split; [split; [done | repeat constructor]|].
  apply table_of_ok, Forall_map. apply Forall_forall. intros sb Hin%list_elem_of_In%filter_In.
  destruct Hin as [Hin%list_elem_of_In _]. unfold prices_sound in Hs. rewrite Forall_forall in Hs. destruct (Hs _ Hin) as [Hg Hi]. cbn [fst snd].
  split; [by apply kok_str|]. apply table_of_ok. eapply Forall_impl; [exact Hi|]. intros [k x] [Hk Hx].
  split; [by apply kok_str | done].
Qed.

(** ** Addon sources *)

Lemma addon_table_ok fname v : text_ok fname -> build_sound v -> lua_ok (addon_table fname v).
Proof.
  intros Hf [Hc Hr]. apply table_from_ok.
  repeat (constructor; [split; [apply lstr_key; lit_ok | cbn [snd]; first [done | by apply ok_key, kok_str]]|]). constructor.
Qed.

Lemma choice_sound srcinfo variants c :
  Forall (fun kv => build_sound (snd kv)) variants -> choose_addon_build srcinfo variants = Ok c -> build_sound (ac_build c).
Proof.
  intros Hv (ranked & kv & rest & r & -> & Hp & -> & _)%choose_unfold.
  rewrite Forall_forall in Hv. apply (Hv (ac_vid c, ac_build c)). rewrite <- Hp. by left.
Qed.

(** One addon: its source is in place, the others' stay. *)
Lemma export_addon_spec srcinfo out fname variants out' :
  text_ok fname -> Forall (fun kv => build_sound (snd kv)) variants ->
  export_addon srcinfo out (fname, variants) = Ok out' -> entries_ok (ae_addons out) ->
  entries_ok (ae_addons out')
  /\ (forall path, path <> addon_path fname -> dget path (ae_sources out') = dget path (ae_sources out))
  /\ source_matches srcinfo (ae_sources out') (fname, variants) = Ok true.
Proof.
  intros Hf Hv E He. unfold export_addon in E. inv_bind E. rename v into c.
  pose proof (choice_sound _ _ _ Hv E0) as Hb. destruct (addon_stats srcinfo (ac_build c)) as [[nsub nsrc] when_].
  unfold source_matches. cbn [fst snd]. rewrite E0. cbn [mbind res_bind]. case_bool_decide; injection E as <-; cbn [ae_addons ae_sources].
  - done.
  - split; [by apply entries_hset; [apply kok_str | apply addon_table_ok|]|].
    split; [intros path Hp; by apply dget_dset_ne|]. rewrite dget_dset_eq. by rewrite bool_decide_eq_true_2.
Qed.

Lemma export_addons_spec srcinfo store : forall out out',
  addons_sound store -> NoDup (map (fun fv => addon_path (fst fv)) store) ->
  res_fold (export_addon srcinfo) out store = Ok out' -> entries_ok (ae_addons out) ->
  entries_ok (ae_addons out')
  /\ (forall path, path ∉ map (fun fv => addon_path (fst fv)) store -> dget path (ae_sources out') = dget path (ae_sources out))
  /\ res_map (source_matches srcinfo (ae_sources out')) store = Ok (map (fun _ => true) store).
Proof.
  induction store as [|[fname variants] store IH]; intros out out' Hs Hd E He; cbn [res_fold map fst] in *.
  { by injection E as <-. }
  inversion_clear Hs as [|? ? [Hf Hv] Hs']. apply NoDup_cons in Hd as [Hn Hd]. inv_bind E.
  destruct (export_addon_spec _ _ _ _ _ Hf Hv E0 He) as (He1 & Hk1 & Hm1).
  destruct (IH _ _ Hs' Hd E He1) as (He2 & Hk2 & Hm2). split; [done|]. split.
  - intros path [Hp1 Hp2]%not_elem_of_cons. by rewrite Hk2, Hk1.
  - cbn [res_map]. assert (source_matches srcinfo (ae_sources out') (fname, variants) = Ok true) as ->.
    { revert Hm1. unfold source_matches. cbn [fst snd]. by rewrite Hk2. }
    cbn [mbind res_bind]. by rewrite Hm2.
Qed.

(** The files of one export. *)
Definition published (mobs : mob_store) (nodes : node_store) (prices : price_store) (out : option aio_export) : list lua_globals :=
  omap id [write_mobspells mobs; option_map aio_globals out; write_auctionator prices; write_gathermate nodes].
Definition published_sources (out : option aio_export) : list (pystr * pystr) := default [] (option_map ae_sources out).

End ExportLaws.

(** Two addons whose names differ only in characters a file name may not have:
    the second source replaces the first one, and the check fails. *)
Definition collision_store : aio_store :=
  [(lit "a b.lua", [(lit "v1", AioBuild (lit "x") VNone [lit "s"] 1)]);
   (lit "a_b.lua", [(lit "v2", AioBuild (lit "y") VNone [lit "s"] 1)])].

Lemma source_collision :
  exists out, @write_aio latin_unicode [] collision_store = Ok (Some out)
  /\ @verify latin_unicode [] collision_store [] (ae_sources out) = Ok false.
Proof. eexists. split; vm_compute; reflexivity. Qed.

(** Stores with something in each of them. *)
Definition sample_mobs : mob_store :=
  [(lit "Elwynn", [(lit "42", MobRec (Some (lit "Gnoll")) [(lit "133", [(lstr "amountMin", VInt 3)])] [lit "a"])])].
Definition sample_nodes : node_store := [(lit "GatherMate2HerbDB", [(lit "12", [(lit "100", VInt 401)])])].
Definition sample_prices : price_store :=
  [(lit "coa", PriceBucket (lit "Conquest of Azeroth") (lit "Rexxar") (lit "Rexxar - CoA") [(lit "2589", (VInt 77, Some (lit "2026-09-11")))])].

