(* ===== verification/LuaRef.v ===== *)
(** * Reference snapshots (cache-consolidator/tools/reference_merge.py)

    The branches of the two reader addons that are kept, the scrubbing of
    their texts, and the captures by digest.  A regular expression is read as
    what its matcher does at one place of the text. *)
From S2P Require Import Prelude Text Format Lua LuaParse LuaMerge.

(** ** Tables *)

(** [pairs]: the array items under 1, 2, ..., then the keyed ones. *)
Definition pairs (v : lua) : list (lua * lua) :=
  match v with
  | VTable a h => imap (fun i x => (VInt (Z.of_nat i + 1), x)) a ++ h
  | _ => []
  end.

(** [table({k: v for ...})]: a key that comes again keeps its place. *)
Definition table_pairs (l : list (lua * lua)) : lua := table_from l [].

Definition pick (t : lua) (keys : list string) : lua :=
  table_pairs (omap (fun k => match lua_get t k with VNone => None | v => Some (VStr (lit k), v) end) keys).
Definition nonempty (t : lua) : bool := match pairs t with [] => false | _ => true end.

(** [re.fullmatch("[1-9][0-9]*", s)]. *)
Definition is_positive_text (s : pystr) : bool :=
  match s with c :: t => in_range 49 57 c && forallb is_digit t | [] => false end.

Definition is_id (k : lua) : bool :=
  match k with
  | VInt n => 0 <? n
  | VStr s | VRedacted s => is_positive_text s
  | _ => false
  end.

Definition is_string (v : lua) : bool := match py_string v with Some _ => true | None => false end.

Definition ids (t : lua) (strings : bool) : lua :=
  table_pairs (List.filter (fun kv => is_id (fst kv) && (negb strings || is_string (snd kv))) (pairs t)).

(** ** Substitution *)

(** [re.sub] of a matcher that says how long the match at the front is; [skip]
    counts what is left of a match that was replaced. *)
Fixpoint sub_go (f : pystr -> option nat) (rep : pystr) (skip : nat) (s : pystr) : pystr :=
  match s with
  | [] => []
  | c :: t =>
      match skip with
      | S skip => sub_go f rep skip t
      | O => match f s with
             | Some n => rep ++ sub_go f rep (pred n) t
             | None => c :: sub_go f rep 0 t
             end
      end
  end.

(** The captures of a file name, by digest. *)
Abbreviation reference_store := (list (pystr * list (pystr * pystr))) (only parsing).

Section Scrub.
Context `{Unicode}.
(** [\w]. *)
Context (is_word : Z -> bool).

Definition local_char (c : Z) : bool := is_word c || (c =? 46) || (c =? 43) || (c =? 45).
Definition domain_char (c : Z) : bool := is_word c || (c =? 46) || (c =? 45).

(** A dot with something before and after it. *)
Fixpoint dot_inside (s : pystr) : bool :=
  match s with
  | _ :: ((d :: _ :: _) as t) => (d =? 46) || dot_inside t
  | _ => false
  end.

(** The address at the front: the run before the at sign takes all it can, and
    so does the domain, which needs a dot inside. *)
Definition email_at (s : pystr) : option nat :=
  match span local_char s with
  | ((_ :: _) as a, c :: r) =>
      if c =? 64 then
        let d := fst (span domain_char r) in
        if dot_inside d then Some (length a + 1 + length d)%nat else None
      else None
  | _ => None
  end.

(** [0x] and sixteen hexadecimal digits, in either case. *)
Definition guid_at (s : pystr) : option nat :=
  match s with
  | z :: x :: t =>
      if (z =? 48) && ((x =? 120) || (x =? 88)) && bool_decide (length (take 16 t) = 16%nat) && forallb is_hex (take 16 t)
      then Some 18%nat else None
  | _ => None
  end.

Definition EMAIL_TEXT : pystr := lit "<redacted-email>".
Definition GUID_TEXT : pystr := lit "<redacted-guid>".
Definition scrub_text (s : pystr) : pystr := sub_go guid_at GUID_TEXT 0 (sub_go email_at EMAIL_TEXT 0 s).

(** ** Scrubbing a tree *)

Definition DROP : list pystr :=
  split_ws (lit "profilekeys profiles identity spellsbychar lastguid lasttime player playername character charactername account accountname chat whispers macros hotbars toons calls tokens rapidrollingstate eligibility eligibilityreasons startingchoice").

Definition dropped (k : lua) : bool :=
  match py_string k with Some s => bool_decide (uni_lower s ∈ DROP) | None => false end.

(** One entry of a table; [rec] is [scrub] one level further down. *)
Definition scrub_entry (rec : lua -> res lua) (out : lua_hash) (kx : lua * lua) : res lua_hash :=
  let '(k, x) := kx in
  if dropped k then Ok out
  else
    k ← rec k;
    match hget k out with
    | Some _ => Err ValueError
    | None => x ← rec x; Ok (hset k x out)
    end.

(** [scrub]: [levels] is how many levels are still allowed, 65 of them. *)
Fixpoint scrub_levels (levels : nat) (v : lua) : res lua :=
  match levels with
  | O => Err ValueError
  | S levels =>
      match v with
      | VTable _ _ => out ← res_fold (scrub_entry (scrub_levels levels)) [] (pairs v); Ok (VTable [] out)
      | VStr s | VRedacted s => Ok (VStr (scrub_text s))
      | _ => Ok v
      end
  end.
Definition scrub (v : lua) : res lua := scrub_levels 65 v.

(** ** The branches that are kept *)

Definition keep_if (k : string) (t : lua) : lua_hash := if nonempty t then [(VStr (lit k), t)] else [].

(** One realm of one branch. *)
Definition clean_record (branch : string) (record : lua) : lua_hash :=
  if String.eqb branch "realms" then keep_if "items" (ids (lua_get record "items") false) ++ keep_if "tips" (ids (lua_get record "tips") false)
  else if String.eqb branch "sweeps" then
    flat_map (fun k => let data := ids (lua_get (lua_get record k) "data") false in
                       if nonempty data then [(VStr (lit k), table_pairs [(VStr (lit "data"), data)])] else [])
      ["quest"; "questtitle"]%string
  else keep_if "spells" (ids (lua_get record "spells") true).

Definition clean_branch (value : lua) (branch : string) : lua_hash :=
  let realms := omap (fun kr => match py_string (fst kr), clean_record branch (snd kr) with
                                | Some realm, ((_ :: _) as clean) => Some (fst kr, table_pairs clean)
                                | _, _ => None
                                end) (pairs (lua_get value branch)) in
  match realms with [] => [] | _ => [(VStr (lit branch), table_pairs realms)] end.

(** [filtered]; [GLOBALS] is the pair of a file name and its global. *)
Definition READER_FILE : pystr := lit "ascension_coareader.lua".
Definition GLOBALS : list (pystr * pystr) :=
  [(READER_FILE, lit "CoAReaderDB"); (lit "ascensionharvest.lua", lit "AscensionHarvestDB")].

Definition kept_branches (name : pystr) (value : lua) : option lua :=
  if bool_decide (name = READER_FILE) then
    let refs := pick value ["edges"; "edgeStats"; "tree"]%string in
    if nonempty (lua_get refs "edges") || nonempty (lua_get refs "tree") then Some refs else None
  else
    match flat_map (clean_branch value) ["realms"; "sweeps"; "watch"]%string with
    | [] => None
    | branches => Some (table_pairs branches)
    end.

Definition filtered (name : pystr) (g : list (pystr * lua)) : res (option (pystr * lua)) :=
  global ← res_of_option KeyError (dget name GLOBALS);
  match kept_branches name (default VNone (dget global g)) with
  | None => Ok None
  | Some refs => v ← scrub refs; Ok (Some (global, v))
  end.

(** ** Captures *)

(** [hashlib.sha256(b).hexdigest()]. *)
Context (sha256_hex : list Z -> pystr).

(** [merge]: the number of leaves of the snapshot. *)
Definition merge_reference (name : pystr) (store : reference_store) (g : list (pystr * lua)) : res (reference_store * Z) :=
  refs ← filtered name g;
  match refs with
  | None => Ok (store, 0)
  | Some (global, v) =>
      let text := dumps [(global, v)] in
      b ← utf8_encode text;
      Ok (dset name (dset (sha256_hex b) text (default [] (dget name store))) store, pylen (walk v))
  end.

(** One capture, checked before it is written. *)
Definition check_capture (dt : pystr * pystr) : res (pystr * pystr) :=
  b ← utf8_encode (snd dt);
  if bool_decide (sha256_hex b = fst dt) then
    g ← loads (snd dt);
    if bool_decide (dumps g = snd dt) then Ok (fst dt ++ lit ".lua", snd dt) else Err ValueError
  else Err ValueError.

(** [write]: the files of one name, in the order of their digests. *)
Definition write_reference (nc : pystr * list (pystr * pystr)) : res (pystr * list (pystr * pystr)) :=
  if dmem (fst nc) GLOBALS then
    files ← res_map check_capture (py_sort name_leb (snd nc));
    Ok (take (length (fst nc) - 4) (fst nc), files)
  else Err ValueError.

Definition write_references (store : reference_store) : res (list (pystr * list (pystr * pystr))) :=
  res_map write_reference (py_sort name_leb store).
End Scrub.

(** The ASCII part of [\w]. *)
Definition ascii_word (c : Z) : bool := in_range 48 57 c || in_range 65 90 c || in_range 97 122 c || (c =? 95).

Example scrub_ex :
  map (scrub_text ascii_word)
    [lit "mail a.b+c@ex-a.co.uk now"; lit "x@y and z@.com"; lit "at 0xF130000000ABCDEF!"; lit "a@0x0123456789abcdef.de"]
  = [lit "mail <redacted-email> now"; lit "x@y and z@.com"; lit "at <redacted-guid>!"; lit "<redacted-email>"].
Proof. vm_compute. reflexivity. Qed.

Example filtered_ex :
  @filtered latin_unicode ascii_word READER_FILE
    [(lit "CoAReaderDB", VTable [] [(VStr (lit "edges"), VTable [VInt 1; VStr (lit "me@x.org")] [(VStr (lit "Player"), VInt 2)]);
                                    (VStr (lit "chat"), VInt 3)])]
  = Ok (Some (lit "CoAReaderDB", VTable [] [(VStr (lit "edges"), VTable [] [(VInt 1, VInt 1); (VInt 2, VStr (lit "<redacted-email>"))])])).
Proof. vm_compute. reflexivity. Qed.
