(* ===== verification/LuaRefSpec.v ===== *)
(** * What a reference snapshot cannot hold

    After scrubbing no text of the snapshot, key or value, has an e-mail
    address or an object GUID anywhere in it, and no dropped branch is left. *)
From S2P Require Import Prelude Text Format Lua LuaParse LuaLex LuaSpec LuaMerge LuaRun LuaExportSpec LuaRef.

(** ** Substitution leaves nothing behind *)

(** No place of the text where the matcher matches. *)
Definition free (g : list Z -> option nat) (s : pystr) : Prop := forall p q, s = p ++ q -> g q = None.

Lemma free_cons g c s : g (c :: s) = None -> free g s -> free g (c :: s).
Proof. intros Hc Hs [|x p] q; cbn; [by intros <- | intros [= _ E]; by apply (Hs p)]. Qed.

Lemma free_tail g c s : free g (c :: s) -> g (c :: s) = None /\ free g s.
Proof. intros Hf. split; [by apply (Hf [])|]. intros p q ->. by apply (Hf (c :: p)). Qed.

Lemma free_app g a s : (forall p w, a = p ++ w -> w <> [] -> g (w ++ s) = None) -> free g s -> free g (a ++ s).
Proof.
  intros Ha Hs. induction a as [|c a IH]; [done|]. cbn. apply free_cons.
  - apply (Ha [] (c :: a)); done.
  - apply IH. intros p w -> Hw. by apply (Ha (c :: p)).
Qed.

Section Sub.
Context (f g : list Z -> option nat) (rep : pystr).
Context (Hrep : exists r, rep = 60 :: r).
(** What stands after a less-than sign does not matter to a match before it. *)
Context (Hcut : forall u r m, g (u ++ m) = None -> g (u ++ 60 :: r) = None).
(** The replacement starts no match. *)
Context (Hdead : forall p w s, rep = p ++ w -> w <> [] -> g (w ++ s) = None).

Context (Hnil : g [] = None).

(** Up to the first match the text is copied. *)
Lemma sub_shape s : sub_go f rep 0 s = s \/ exists p m r, s = p ++ m /\ sub_go f rep 0 s = p ++ 60 :: r.
Proof.
  induction s as [|c t IH]; [by left|]. cbn [sub_go]. destruct (f (c :: t)) as [n|].
  - right. destruct Hrep as [r0 ->]. exists [], (c :: t), (r0 ++ sub_go f (60 :: r0) (pred n) t). done.
  - destruct IH as [->|(p & m & r & -> & ->)]; [by left|]. right. exists (c :: p), m, r. done.
Qed.

Lemma sub_free s : (forall p q, s = p ++ q -> f q = None -> g q = None) -> forall k, free g (sub_go f rep k s).
Proof.
  induction s as [|c t IH]; intros Hs k.
  { intros p q E. symmetry in E. apply app_nil in E as [-> ->]. done. }
  assert (forall k, free g (sub_go f rep k t)) as Ht by (apply IH; intros p q ->; apply (Hs (c :: p) q); done).
  cbn [sub_go]. destruct k as [|k]; [|done]. destruct (f (c :: t)) as [n|] eqn:E.
  - apply free_app; [|done]. intros p w Ep Hw. by apply (Hdead p).
  - apply free_cons; [|done]. apply (Hs [] (c :: t)) in E; [|done].
    destruct (sub_shape t) as [->|(p & m & r & -> & ->)]; [done|]. by apply (Hcut (c :: p) r m).
Qed.
End Sub.

(** ** The two matchers *)

Lemma span_cut (P : Z -> bool) u x r m a b :
  P x = false -> span P (u ++ x :: r) = (a, b) ->
  exists u', u = a ++ u' /\ b = u' ++ x :: r
    /\ (u' <> [] -> span P (u ++ m) = (a, u' ++ m))
    /\ exists more, fst (span P (u ++ m)) = a ++ more.
Proof.
  intros Hx. revert a b. induction u as [|c u IH]; intros a b; cbn.
  { rewrite Hx. intros [= <- <-]. exists []. split_and!; [done..|]. by eexists. }
  destruct (P c) eqn:Ec.
  - destruct (span P (u ++ x :: r)) as [a' b'] eqn:E. intros [= <- <-].
    destruct (IH _ _ eq_refl) as (u' & -> & -> & Hs & more & Hm). exists u'. split_and!; [done..| |].
    + intros Hu. by rewrite (Hs Hu).
    + exists more. destruct (span P (_ ++ m)). cbn in *. by rewrite Hm.
  - intros [= <- <-]. exists (c :: u). split_and!; [done..|]. by exists [].
Qed.

Lemma dot_inside_app d more : dot_inside d = true -> dot_inside (d ++ more) = true.
Proof.
  induction d as [|x [|y [|z d]] IH]; try done. cbn -[dot_inside] in *. intros Hd.
  change (((y =? 46) || dot_inside (y :: z :: d ++ more)) = true). change (((y =? 46) || dot_inside (y :: z :: d)) = true) in Hd.
  rewrite orb_true_iff in *. destruct Hd as [?|Hd]; [by left|]. right. by apply IH.
Qed.

Section Matchers.
Context (is_word : Z -> bool).
(** [\w] on ASCII: letters, digits, the underscore. *)
Context (Hword : forall c, 0 <= c < 128 -> is_word c = ascii_word c).

Lemma email_cut u r m : email_at is_word (u ++ m) = None -> email_at is_word (u ++ 60 :: r) = None.
Proof.
  assert (local_char is_word 60 = false) as H1 by (unfold local_char; rewrite Hword by lia; reflexivity).
  assert (domain_char is_word 60 = false) as H2 by (unfold domain_char; rewrite Hword by lia; reflexivity).
  unfold email_at. destruct (span (local_char is_word) (u ++ 60 :: r)) as [a b] eqn:E. intros Hn.
  destruct (span_cut _ _ _ _ m _ _ H1 E) as (u' & -> & -> & Hs & _).
  destruct a as [|x a]; [done|]. destruct u' as [|y u']; [done|]. rewrite (Hs ltac:(done)) in Hn. cbn [app] in *.
  destruct (y =? 64); [|done].
  destruct (span (domain_char is_word) (u' ++ 60 :: r)) as [d b] eqn:Ed. cbn [fst].
  destruct (span_cut _ _ _ _ m _ _ H2 Ed) as (_ & _ & _ & _ & more & Hm). rewrite Hm in Hn.
  destruct (dot_inside d) eqn:Hd; [|done]. by rewrite (dot_inside_app d more Hd) in Hn.
Qed.

(** A run of local characters before a greater-than sign is no address. *)
Lemma email_dead_run w s : Forall (fun c => local_char is_word c = true) w -> email_at is_word (w ++ 62 :: s) = None.
Proof.
  intros Hw. unfold email_at. assert (span (local_char is_word) (w ++ 62 :: s) = (w, 62 :: s)) as ->.
  { induction Hw as [|c w Hc Hw IH]; cbn.
    - unfold local_char. by rewrite Hword by lia.
    - by rewrite Hc, IH. }
  by destruct w.
Qed.

Lemma email_dead_start s x : local_char is_word x = false -> email_at is_word (x :: s) = None.
Proof. intros Hx. unfold email_at. cbn. by rewrite Hx. Qed.

(** A replacement in angle brackets. *)
Lemma email_dead_text body p w s :
  Forall (fun c => local_char is_word c = true) body -> 60 :: body ++ [62] = p ++ w -> w <> [] ->
  email_at is_word (w ++ s) = None.
Proof.
  intros Hb E Hw. destruct p as [|x p]; cbn in E.
  { subst w. apply email_dead_start. unfold local_char. by rewrite Hword by lia. }
  injection E as <- E. destruct (exists_last Hw) as (w' & y & ->). rewrite app_assoc in E.
  apply app_inj_tail in E as [-> <-]. apply Forall_app in Hb as [_ Hb]. rewrite <- app_assoc. by apply email_dead_run.
Qed.

Lemma guid_cut u r m : guid_at (u ++ m) = None -> guid_at (u ++ 60 :: r) = None.
Proof.
  destruct u as [|z [|x u]]; [intros _; by destruct r | intros _; cbn; by destruct (z =? 48) |]. cbn [app guid_at].
  destruct ((z =? 48) && _); [|done]. cbn [andb].
  destruct (decide (16 <= length u)%nat) as [Hl|Hl]; [by rewrite !take_app_le by lia|].
  intros _. assert (forallb is_hex (take 16 (u ++ 60 :: r)) = false) as ->; [|by rewrite andb_false_r].
  rewrite take_app_ge by lia. destruct (16 - length u)%nat eqn:El; [lia|]. cbn [take].
  rewrite forallb_app. cbn. by rewrite andb_false_r.
Qed.

Lemma guid_dead_text body p w s :
  Forall (fun c => c <> 48) body -> body = p ++ w -> w <> [] -> guid_at (w ++ s) = None.
Proof.
  intros Hb -> Hw. apply Forall_app in Hb as [_ Hb]. destruct Hb as [|c w Hc _]; [done|]. cbn.
  destruct (w ++ s); [done|]. by rewrite (proj2 (Z.eqb_neq c 48)).
Qed.

Lemma text_local s : forallb ascii_word (filter (fun c => c <> 45) s) = true -> Forall (fun c => 0 <= c < 128) s ->
  Forall (fun c => local_char is_word c = true) s.
Proof.
  intros Hs Hr. apply Forall_forall. intros c Hc. rewrite Forall_forall in Hr. unfold local_char.
  destruct (decide (c = 45)) as [->|Hne]; [by rewrite orb_true_r|]. rewrite Hword by (by apply Hr).
  rewrite (proj1 (forallb_forall _ _) Hs c); [done|]. apply list_elem_of_In, list_elem_of_filter. done.
Qed.

(** No text is left with an address or a GUID in it. *)
Lemma scrub_text_free s :
  free (email_at is_word) (scrub_text is_word s) /\ free guid_at (scrub_text is_word s).
Proof.
  unfold scrub_text. set (s1 := sub_go (email_at is_word) EMAIL_TEXT 0 s).
  assert (forall b p w t, b = lit "redacted-email" \/ b = lit "redacted-guid" -> 60 :: b ++ [62] = p ++ w -> w <> [] ->
    email_at is_word (w ++ t) = None) as Hdead.
  { intros b p w t Hb. apply email_dead_text. apply text_local; [by destruct Hb; subst b|].
    destruct Hb; subst b; repeat (constructor; [cbn; lia|]); constructor. }
  assert (free (email_at is_word) s1) as H1.
  { apply sub_free; try done; [by eexists | apply email_cut |]. intros p w t. apply (Hdead (lit "redacted-email")). by left. }
  split.
  - apply sub_free; [by eexists | apply email_cut | | done |].
    + intros p w t. apply (Hdead (lit "redacted-guid")). by right.
    + intros p q E _. by apply (H1 p).
  - apply sub_free; try done; [by eexists | apply guid_cut |]. intros p w t. apply guid_dead_text.
    repeat (constructor; [cbn; lia|]). constructor.
Qed.

End Matchers.

(** ** A scrubbed tree *)

Section Tree.
Context `{Unicode} (is_word : Z -> bool).
Context (Hword : forall c, 0 <= c < 128 -> is_word c = ascii_word c).

Definition clean_text (s : pystr) : Prop := free (email_at is_word) s /\ free guid_at s.

(** A text key comes from one that is not dropped. *)
Definition key_kept (k : lua) : Prop :=
  forall s, k = VStr s -> exists t, uni_lower t ∉ DROP /\ s = scrub_text is_word t.

(** Nothing private at any depth, in values and in keys. *)
Inductive published_ok : lua -> Prop :=
  | po_text s : clean_text s -> published_ok (VStr s)
  | po_scalar v : py_string v = None -> is_table v = false -> published_ok v
  | po_table h :
      Forall (fun kx => key_kept (fst kx) /\ published_ok (fst kx) /\ published_ok (snd kx)) h -> published_ok (VTable [] h).

Lemma scrub_string v s levels : py_string v = Some s -> scrub_levels is_word (S levels) v = Ok (VStr (scrub_text is_word s)).
Proof. by destruct v; intros [= ->]. Qed.

(** The loop over the entries keeps what holds of every entry it adds. *)
Lemma scrub_fold (rec : lua -> res lua) (P : lua * lua -> Prop) l : forall out out',
  (forall k x k' x', (k, x) ∈ l -> dropped k = false -> rec k = Ok k' -> rec x = Ok x' -> P (k', x')) ->
  Forall P out -> res_fold (scrub_entry rec) out l = Ok out' -> Forall P out'.
Proof.
  induction l as [|[k x] l IH]; intros out out' Hp Ho E; cbn [res_fold] in E; [by injection E as <-|].
  inv_bind E. refine (IH _ _ _ _ E); [intros; eapply Hp; eauto; by right|].
  unfold scrub_entry in E0. destruct (dropped k) eqn:Ed; [by injection E0 as <-|]. inv_bind E0.
  destruct (hget v0 out) eqn:Eh; [done|]. inv_bind E0. injection E0 as <-.
  assert (P (v0, v1)) as Hn by (by apply (Hp k x); [left| | |]).
  clear -Ho Hn Eh. induction Ho as [|[a b] h Hab Ho IH]; cbn in *; [by constructor|].
  destruct (key_eqb a v0); [done|]. constructor; [done | by apply IH].
Qed.

Lemma scrub_ok levels : forall v w, scrub_levels is_word levels v = Ok w -> published_ok w.
Proof.
  induction levels as [|levels IH]; intros v w E; [done|].
  destruct (py_string v) as [s|] eqn:Es.
  { rewrite (scrub_string _ _ _ Es) in E. injection E as <-. apply po_text. by apply scrub_text_free. }
  destruct v as [| | | |s|s|a h]; try done; try (injection E as <-; by apply po_scalar).
  cbn [scrub_levels] in E. inv_bind E. injection E as <-. apply po_table.
  eapply scrub_fold; [|constructor|exact E0]. intros k x k' x' _ Hk Ek Ex. cbn [fst snd].
  split; [|split; by eapply IH]. intros s ->. destruct levels; [done|].
  destruct (py_string k) as [t|] eqn:Et.
  - rewrite (scrub_string _ _ _ Et) in Ek. injection Ek as <-. exists t. split; [|done].
    unfold dropped in Hk. rewrite Et in Hk. by case_bool_decide.
  - destruct k; try done. cbn [scrub_levels] in Ek. by inv_bind Ek.
Qed.

(** C37: A reference snapshot is private.  Whatever the uploaded file holds, the
    tree that is captured has no e-mail address and no object GUID in any
    text, key or value, at any depth, and every text key in it comes from a
    key that is not one of the dropped branches. *)
Theorem reference_private name g global v :
  filtered is_word name g = Ok (Some (global, v)) -> published_ok v.
Proof.
  unfold filtered. intros E. inv_bind E. destruct (kept_branches _ _); [|done]. inv_bind E. injection E as <- <-.
  by eapply scrub_ok.
Qed.

(** ** Captures are written back as they are *)

Lemma lua_get_ok v k : lua_ok v -> lua_ok (lua_get v k).
Proof.
  intros Hv. unfold lua_get. destruct v as [| | | | | |a h]; try apply ok_none. apply lua_ok_table in Hv as (_ & Hh & _).
  induction Hh as [|[k' x] h [_ Hx] Hh IH]; cbn; [apply ok_none|]. by destruct (key_eqb _ _).
Qed.

Definition pairs_ok (l : list (lua * lua)) : Prop := Forall (fun kv => key_ok (fst kv) /\ lua_ok (snd kv)) l.

Lemma pairs_of_ok v : lua_ok v -> pairs_ok (pairs v).
Proof.
  intros Hv. destruct v as [| | | | | |a h]; try constructor. apply lua_ok_table in Hv as (Ha & Hh & _).
  apply Forall_app. split; [|done]. apply Forall_forall. intros [k x] Hin.
  apply elem_of_lookup_imap in Hin as (i & y & [= -> ->] & Hy). split; [apply kok_int|].
  by apply (Forall_lookup_1 _ _ _ _ Ha Hy).
Qed.

Lemma filter_ok P l : pairs_ok l -> pairs_ok (List.filter P l).
Proof. unfold pairs_ok. rewrite !Forall_forall. intros Hl x [Hx _]%list_elem_of_In%filter_In. by apply Hl, list_elem_of_In. Qed.

Lemma ids_ok t strings : lua_ok t -> lua_ok (ids t strings).
Proof. intros Ht. by apply table_from_ok, filter_ok, pairs_of_ok. Qed.

Ltac key_lit := apply kok_str, lit_text; repeat (constructor; [cbn; lia|]); constructor.

Lemma clean_record_ok branch record : lua_ok record -> pairs_ok (clean_record branch record).
Proof.
  intros Hr. unfold clean_record, keep_if. pose proof (fun k b => ids_ok _ b (lua_get_ok record k Hr)) as Hi.
  pose proof (fun k => ids_ok _ false (lua_get_ok _ "data" (lua_get_ok record k Hr))) as Hd. destruct (String.eqb branch "realms").
  - apply Forall_app. split; (destruct (nonempty _); [|constructor]); (constructor; [|constructor]); (split; [key_lit | apply Hi]).
  - destruct (String.eqb branch "sweeps"); cbn [flat_map].
    + repeat (apply Forall_app; split); try constructor; (destruct (nonempty _); [|constructor]); (constructor; [|constructor]);
        (split; [key_lit|]); apply table_from_ok; (constructor; [|constructor]); (split; [key_lit | apply Hd]).
    + destruct (nonempty _); [|constructor]. constructor; [|constructor]. split; [key_lit | apply Hi].
Qed.

Lemma clean_branch_ok value branch : branch ∈ ["realms"; "sweeps"; "watch"]%string -> lua_ok value -> pairs_ok (clean_branch value branch).
Proof.
  intros Hb Hv. unfold clean_branch. set (realms := omap _ _). assert (pairs_ok realms) as Hr.
  { apply Forall_forall. intros kx Hin. unfold realms in Hin. apply list_elem_of_omap in Hin as ([k x] & Hin & Hs). cbn [fst snd] in Hs.
    pose proof (pairs_of_ok _ (lua_get_ok _ branch Hv)) as Hp. unfold pairs_ok in Hp. rewrite Forall_forall in Hp.
    destruct (Hp _ Hin) as [Hk Hx]. cbn [fst snd] in *. destruct (py_string k); [|done].
    pose proof (clean_record_ok branch x Hx) as Hc. destruct (clean_record branch x) as [|y cl]; [done|]. injection Hs as <-.
    split; [done | by apply table_from_ok]. }
  clearbody realms. destruct realms as [|y l]; [constructor|]. constructor; [|constructor]. split; [|by apply table_from_ok].
  rewrite !elem_of_cons, elem_of_nil in Hb. destruct_or! Hb; try done; subst branch; key_lit.
Qed.

Lemma pick_ok t keys : lua_ok t -> Forall (fun k => text_ok (lit k)) keys -> lua_ok (pick t keys).
Proof.
  intros Ht Hk. apply table_from_ok, Forall_forall. intros [k x] Hin. apply list_elem_of_omap in Hin as (key & Hin & Hs).
  rewrite Forall_forall in Hk. pose proof (lua_get_ok _ key Ht) as Hg.
  destruct (lua_get t key); try done; injection Hs as <- <-; (split; [by apply kok_str, Hk | exact Hg]).
Qed.

Lemma kept_ok name value v : lua_ok value -> kept_branches name value = Some v -> lua_ok v.
Proof.
  intros Hv. unfold kept_branches. case_bool_decide.
  - destruct (_ || _); [|done]. intros [= <-]. apply pick_ok; [done|].
    repeat (constructor; [apply lit_text; repeat (constructor; [cbn; lia|]); constructor|]). constructor.
  - set (l := flat_map _ _). assert (pairs_ok l) as Hl.
    { apply Forall_forall. intros kx Hin%list_elem_of_In. apply in_flat_map in Hin as (b & Hb%list_elem_of_In & Hin%list_elem_of_In).
      pose proof (clean_branch_ok value b Hb Hv) as Hc. unfold pairs_ok in Hc. rewrite Forall_forall in Hc. by apply Hc. }
    clearbody l. destruct l; [done|]. intros [= <-]. by apply table_from_ok.
Qed.

Lemma sub_text_ok f rep k s : text_ok rep -> text_ok s -> text_ok (sub_go f rep k s).
Proof.
  intros Hr Hs. revert k. induction Hs as [|c t Hc Ht IH]; intros k; [constructor|]. cbn [sub_go].
  destruct k; [|apply IH]. destruct (f (c :: t)).
  - apply Forall_app. split; [exact Hr | apply IH].
  - constructor; [done | apply IH].
Qed.

Lemma scrub_text_ok s : text_ok s -> text_ok (scrub_text is_word s).
Proof.
  intros Hs. unfold scrub_text. repeat apply sub_text_ok; try done;
    apply lit_text; repeat (constructor; [cbn; lia|]); constructor.
Qed.

Lemma scrub_key_ok levels k k' : key_ok k -> scrub_levels is_word levels k = Ok k' -> key_ok k'.
Proof.
  destruct levels; [done|]. intros Hk E. destruct Hk as [b|n|x Hx|s Hs]; injection E as <-.
  - apply kok_bool.
  - apply kok_int.
  - by apply kok_float.
  - by apply kok_str, scrub_text_ok.
Qed.

Lemma scrub_lua_ok levels : forall v w, lua_ok v -> scrub_levels is_word levels v = Ok w -> lua_ok w.
Proof.
  induction levels as [|levels IH]; intros v w Hv E; [done|]. destruct Hv as [|k Hk|a h Ha Hh Hd].
  - injection E as <-. apply ok_none.
  - by apply ok_key, (scrub_key_ok (S levels) k).
  - cbn [scrub_levels] in E. inv_bind E. injection E as <-.
    pose proof (pairs_of_ok _ (ok_table _ _ Ha Hh Hd)) as Hp. apply entries_table.
    generalize dependent v. generalize entries_nil. generalize (@nil (lua * lua)). clear Ha Hh Hd.
    induction Hp as [|[k x] l [Hk Hx] Hp IHl]; intros out Ho out' E; cbn [res_fold] in E; [by injection E as <-|].
    inv_bind E. refine (IHl _ _ _ E). unfold scrub_entry in E0. destruct (dropped k); [by injection E0 as <-|].
    inv_bind E0. destruct (hget v0 out); [done|]. inv_bind E0. injection E0 as <-.
    apply entries_hset; [by eapply scrub_key_ok | by eapply IH | done].
Qed.

(** A capture under its digest. *)
Context (sha256_hex : list Z -> pystr).

Definition capture_ok (dt : pystr * pystr) : Prop :=
  exists g b, Forall global_ok g /\ dict_ok g /\ snd dt = dumps g /\ utf8_encode (snd dt) = Ok b /\ sha256_hex b = fst dt.
Definition captures_ok (store : reference_store) : Prop :=
  Forall (fun nc => dmem (fst nc) GLOBALS = true /\ Forall capture_ok (snd nc)) store.

(** The files of a store of captures. *)
Definition reference_files (store : reference_store) : list (pystr * list (pystr * pystr)) :=
  map (fun nc => (take (length (fst nc) - 4) (fst nc),
                  map (fun dt => (fst dt ++ lit ".lua", snd dt)) (py_sort name_leb (snd nc)))) (py_sort name_leb store).

Lemma write_captures store : captures_ok store -> write_references sha256_hex store = Ok (reference_files store).
Proof.
  intros Hs. unfold write_references, reference_files. apply res_map_ok. intros [name caps] Hin%py_sort_elem.
  unfold captures_ok in Hs. rewrite Forall_forall in Hs. destruct (Hs _ Hin) as [Hn Hc]. unfold write_reference. cbn [fst snd] in *.
  rewrite Hn. rewrite (res_map_ok _ (fun dt => (fst dt ++ lit ".lua", snd dt))); [done|].
  intros [d text] Hd%py_sort_elem. rewrite Forall_forall in Hc. destruct (Hc _ Hd) as (g & b & Hg & Hdict & Et & Eb & Esha).
  unfold check_capture. cbn [fst snd] in *. rewrite Eb. cbn [mbind res_bind]. rewrite bool_decide_eq_true_2 by done.
  rewrite Et, (loads_dumps g Hg Hdict). cbn [mbind res_bind]. by rewrite bool_decide_eq_true_2 by apply dumps_norm.
Qed.

(** What is captured is written.  From a file whose global is a tree a
    SavedVariables file can hold, a capture that was taken in passes its
    checksum and its round trip, and so do all the captures there were: the
    export writes every one of them and never rejects its own store. *)
Theorem reference_written name store g store' n :
  captures_ok store -> Forall (fun gv => lua_ok (snd gv)) g ->
  merge_reference is_word sha256_hex name store g = Ok (store', n) ->
  captures_ok store' /\ write_references sha256_hex store' = Ok (reference_files store').
Proof.
  intros Hs Hg E. assert (captures_ok store') as Hs'; [|split; [done | by apply write_captures]].
  unfold merge_reference in E. inv_bind E. destruct v as [[global v]|]; [|by injection E as <- _]. inv_bind E. injection E as <- _.
  rename v0 into b. unfold filtered in E0. destruct (dget name GLOBALS) as [x|] eqn:En; [|done]. cbn [res_of_option mbind res_bind] in E0.
  destruct (kept_branches _ _) as [refs|] eqn:Ek; [|done]. destruct (scrub is_word refs) as [y|] eqn:Esc; [|done].
  cbn [mbind res_bind] in E0. injection E0 as -> ->.
  assert (lua_ok v) as Hv.
  { refine (scrub_lua_ok _ _ _ _ Esc). refine (kept_ok _ _ _ _ Ek).
    destruct (dget global g) as [t|] eqn:Et; [|apply ok_none]. rewrite Forall_forall in Hg. exact (Hg _ (dget_elem_of _ _ _ Et)). }
  assert (dmem name GLOBALS = true /\ is_name global) as [Hn Hglobal].
  { unfold dmem. rewrite En. split; [done|].
    apply dget_elem_of in En. unfold GLOBALS in En. rewrite !elem_of_cons, elem_of_nil in En.
    destruct_or! En; try done; injection En as _ ->; (split; [done | repeat constructor]). }
  apply Forall_dset; [|done]. split; [done|]. apply Forall_dset.
  - exists [(global, v)], b. cbn [fst snd]. split_and!; try done; [|unfold dict_ok, dkeys; apply NoDup_singleton].
    by constructor; [split|].
  - destruct (dget name store) as [caps|] eqn:Ec; [|constructor]. unfold captures_ok in Hs. rewrite Forall_forall in Hs.
    exact (proj2 (Hs _ (dget_elem_of _ _ _ Ec))).
Qed.
End Tree.

(** A reader file with an address, a GUID, a dropped branch and a dropped key. *)
Definition sample_reader : list (pystr * lua) :=
  [(lit "CoAReaderDB", VTable []
     [(VStr (lit "edges"), VTable [VStr (lit "me@x.org"); VInt 7] [(VStr (lit "player"), VInt 2); (VStr (lit "q0xF130000000ABCDEF"), VBool true)]);
      (VStr (lit "chat"), VStr (lit "hello"))])].

Lemma ascii_word_ok c : 0 <= c < 128 -> ascii_word c = ascii_word c.
Proof. done. Qed.

Lemma reference_private_witness :
  exists v, @filtered latin_unicode ascii_word READER_FILE sample_reader = Ok (Some (lit "CoAReaderDB", v))
  /\ @published_ok latin_unicode ascii_word v.
Proof.
  eexists. split; [vm_compute; reflexivity|].
  apply (@reference_private latin_unicode ascii_word ascii_word_ok READER_FILE sample_reader (lit "CoAReaderDB")).
  vm_compute. reflexivity.
Defined.

Lemma reference_written_witness :
  exists store n, @merge_reference latin_unicode ascii_word (fun b => take 4 b) READER_FILE [] sample_reader = Ok (store, n)
  /\ n = 3 /\ @write_references latin_unicode (fun b => take 4 b) store = Ok (reference_files store).
Proof.
  destruct (@merge_reference latin_unicode ascii_word (fun b => take 4 b) READER_FILE [] sample_reader) as [[store n]|] eqn:E;
    [|vm_compute in E; discriminate].
  exists store, n. split; [reflexivity|]. split; [vm_compute in E; by injection E as _ <-|].
  apply (@reference_written latin_unicode ascii_word (fun b => take 4 b) READER_FILE [] sample_reader store n); [by constructor | | exact E].
  constructor; [|constructor]. cbn [snd].
  assert (forall s, forallb (fun c => in_range 0 127 c) s = true -> text_ok s) as Ht.
  { intros s Hs. apply Forall_forall. intros c Hc%list_elem_of_In. apply (proj1 (forallb_forall _ _) Hs) in Hc.
    unfold in_range, is_char, is_surrogate in *. zbool. split; [lia|]. by rewrite (proj2 (Z.leb_gt _ _)) by lia. }
  repeat first [apply Ht; reflexivity | apply ok_table | constructor].
Defined.

