(* ===== verification/Checkpoint.v ===== *)
(** * Committing a generation of tables (cache-consolidator/tools/merge_checkpoint.py)

    The store is a directory tree, the prepared generation a directory beside
    it.  A program is the list of file operations it performs; a crash stops it
    before any of them, or inside a write, and leaves a file with any content
    there.  ready.json is the tree it holds. *)
From S2P Require Import Prelude Text Format.

(** ** Files *)

(** A path under the store, as its components. *)
Abbreviation path := (list pystr) (only parsing).

(** An entry of ready.json. *)
Record entry := Entry { e_path : path; e_file : pystr; e_sha : pystr }.

Inductive blob := TextFile (t : pystr) | Manifest (es : list entry).

(** The files of the store, and of the transaction directory if there is one. *)
Record disk := Disk { d_store : list (path * blob); d_txn : option (list (pystr * blob)) }.

Definition READY : pystr := lit "ready.json".
Definition READY_TMP : pystr := lit "ready.tmp".
Definition TXN : pystr := lit ".merge-transaction".

(** One operation.  [os.replace] and [rename] are atomic; a write is not. *)
Inductive io :=
  | WriteStore (p : path) (b : blob)
  | ReplaceStore (a b : path)
  | MkTxn
  | WriteTxn (n : pystr) (b : blob)
  | ReplaceTxn (a b : pystr)
  | UnlinkTxn (n : pystr)
  | RmdirTxn.

(** Its effect; [None] where it raises OSError. *)
Definition step (op : io) (d : disk) : option disk :=
  match op with
  | WriteStore p b => Some (Disk (dset p b (d_store d)) (d_txn d))
  | ReplaceStore a b =>
      x ← dget a (d_store d); Some (Disk (dset b x (ddel a (d_store d))) (d_txn d))
  | MkTxn => match d_txn d with None => Some (Disk (d_store d) (Some [])) | Some _ => None end
  | WriteTxn n b => t ← d_txn d; Some (Disk (d_store d) (Some (dset n b t)))
  | ReplaceTxn a b =>
      t ← d_txn d; x ← dget a t; Some (Disk (d_store d) (Some (dset b x (ddel a t))))
  | UnlinkTxn n => t ← d_txn d; _ ← dget n t; Some (Disk (d_store d) (Some (ddel n t)))
  | RmdirTxn => match d_txn d with Some [] => Some (Disk (d_store d) None) | _ => None end
  end.

Fixpoint run (ops : list io) (d : disk) : option disk :=
  match ops with
  | [] => Some d
  | op :: ops => d ← step op d; run ops d
  end.

(** What a crash inside an operation can leave. *)
Inductive torn : io -> disk -> disk -> Prop :=
  | torn_store p b d t : torn (WriteStore p b) d (Disk (dset p (TextFile t) (d_store d)) (d_txn d))
  | torn_txn n b d f t : d_txn d = Some f -> torn (WriteTxn n b) d (Disk (d_store d) (Some (dset n (TextFile t) f))).

(** What a crash of a program can leave, completion included. *)
Inductive crashed : list io -> disk -> disk -> Prop :=
  | crash_here ops d : crashed ops d d
  | crash_inside op ops d d' : torn op d d' -> crashed (op :: ops) d d'
  | crash_later op ops d d1 d' : step op d = Some d1 -> crashed ops d1 d' -> crashed (op :: ops) d d'.

(** ** Recovery *)

(** [Path.resolve] of a path below a directory, both as components: ".." of
    the root is the root. *)
Fixpoint resolve_go (seen p : path) : path :=
  match p with
  | [] => rev seen
  | c :: p =>
      if bool_decide (c = [] \/ c = lit ".") then resolve_go seen p
      else if bool_decide (c = lit "..") then resolve_go (tail seen) p
      else resolve_go (c :: seen) p
  end.

(** [is_relative_to]. *)
Fixpoint relative_to (p base : path) : bool :=
  match base, p with
  | [], _ => true
  | b :: base, c :: p => bool_decide (b = c) && relative_to p base
  | _ :: _, [] => false
  end.

Definition safe_target (store p : path) : bool :=
  let target := resolve_go (rev store) p in
  relative_to target store && negb (relative_to target (store ++ [TXN])).

(** [target.with_name(target.name + ".recovering")]. *)
Definition RECOVERING : pystr := lit ".recovering".
Definition temp_of (p : path) : path :=
  match rev p with c :: r => rev ((c ++ RECOVERING) :: r) | [] => [] end.

Section Hash.
(** [hashlib.sha256(b).hexdigest()] of the bytes of a file. *)
Context (sha256_hex : blob -> pystr).
(** Where the store is. *)
Context (store : path).

(** A prepared file, verified. *)
Definition prepared (txn : list (pystr * blob)) (e : entry) : res blob :=
  if negb (safe_target store (e_path e)) then Err ValueError
  else
    match dget (e_file e) txn with
    | None => Err OSError
    | Some b => if bool_decide (sha256_hex b = e_sha e) then Ok b else Err RuntimeError
    end.

Definition install (e : entry) (b : blob) : list io :=
  [WriteStore (temp_of (e_path e)) b; ReplaceStore (temp_of (e_path e)) (e_path e)].

(** [shutil.rmtree(txn)]. *)
Definition rmtree (txn : list (pystr * blob)) : list io := map UnlinkTxn (dkeys txn) ++ [RmdirTxn].

(** [recover]: everything is verified before anything is installed. *)
Definition recover (d : disk) : res (list io) :=
  match d_txn d with
  | None => Ok []
  | Some txn =>
      match dget READY txn with
      | None => Ok []
      | Some (TextFile _) => Err ValueError
      | Some (Manifest es) =>
          bs ← res_map (prepared txn) es;
          Ok (concat (zip_with install es bs) ++ [UnlinkTxn READY] ++ rmtree (ddel READY txn))
      end
  end.

(** ** Commit *)

Abbreviation generation := (list (path * pystr)) (only parsing).

Definition prepared_name (i : Z) : pystr := str_of_Z i ++ lit ".tsv".
Definition prepared_tmp (i : Z) : pystr := prepared_name i ++ lit ".tmp".

(** [write_tsv] of the prepared file: through a file of its own. *)
Fixpoint prepare (i : Z) (tables : generation) : list io :=
  match tables with
  | [] => []
  | (_, t) :: tables =>
      [WriteTxn (prepared_tmp i) (TextFile t); ReplaceTxn (prepared_tmp i) (prepared_name i)] ++ prepare (i + 1) tables
  end.

Fixpoint entries_of (i : Z) (tables : generation) : list entry :=
  match tables with
  | [] => []
  | (p, t) :: tables => Entry p (prepared_name i) (sha256_hex (TextFile t)) :: entries_of (i + 1) tables
  end.

(** The preparation, up to the rename that makes it the next generation. *)
Definition preparation (d : disk) (tables : generation) : list io :=
  match d_txn d with Some txn => rmtree txn | None => [] end
  ++ [MkTxn] ++ prepare 0 tables
  ++ [WriteTxn READY_TMP (Manifest (entries_of 0 tables)); ReplaceTxn READY_TMP READY].

(** [commit]: all its operations. *)
Definition commit (d : disk) (tables : generation) : res (list io) :=
  before ← recover d;
  d0 ← res_of_option OSError (run before d);
  d1 ← res_of_option OSError (run (preparation d0 tables) d0);
  after ← recover d1;
  Ok (before ++ preparation d0 tables ++ after).
End Hash.

(** Two tables over an older generation. *)
Example commit_ex :
  let sha (b : blob) := match b with TextFile t => take 3 t | Manifest _ => [] end in
  let d := Disk [([lit "sources.tsv"], TextFile (lit "old"))] (Some [(lit "0.tsv", TextFile (lit "stale"))]) in
  let tables := [([lit "itemcache"; lit "index.tsv"], lit "items"); ([lit "sources.tsv"], lit "new")] in
  match commit sha [lit "srv"; lit "store"] d tables with
  | Ok ops => run ops d = Some (Disk [([lit "sources.tsv"], TextFile (lit "new")); ([lit "itemcache"; lit "index.tsv"], TextFile (lit "items"))] None)
              /\ length ops = 17%nat
  | Err _ => False
  end.
Proof. vm_compute. split; reflexivity. Qed.

(** ** A commit is all or nothing, whenever it is interrupted

    The transaction directory has no ready.json, or it has the whole next
    generation; the store then has the old tables, a mixture that recovery
    finishes, or the new ones.  Every operation and every torn write keeps one
    of these, so a recovery that is left to finish ends in one generation. *)

(** ** Running and crashing lists of operations *)

Lemma run_app a b d : run (a ++ b) d = (d1 ← run a d; run b d1).
Proof. revert d. induction a as [|op a IH]; intros d; [done|]. cbn. destruct (step op d); [apply IH | done]. Qed.

Lemma crashed_app a b d d' :
  crashed (a ++ b) d d' -> crashed a d d' \/ exists d1, run a d = Some d1 /\ crashed b d1 d'.
Proof.
  revert d. induction a as [|op a IH]; intros d Hc; [right; by exists d|]. cbn in Hc.
  inversion Hc as [|? ? ? ? Ht|? ? ? d1 ? Hs Hr]; subst.
  - left. apply crash_here.
  - left. by apply crash_inside.
  - destruct (IH _ Hr) as [?|(d2 & E & ?)]; [left; by eapply crash_later|].
    right. exists d2. split; [|done]. cbn. by rewrite Hs.
Qed.

Lemma crashed_run ops d d' : run ops d = Some d' -> crashed ops d d'.
Proof.
  revert d. induction ops as [|op ops IH]; intros d; cbn; [intros [= ->]; apply crash_here|].
  destruct (step op d) as [d1|] eqn:E; [|done]. intros Hr. eapply crash_later; [exact E | by apply IH].
Qed.

(** A property every operation and every torn write keeps. *)
Lemma crashed_keeps (P : disk -> Prop) ops d d' :
  (forall op d d', op ∈ ops -> P d -> step op d = Some d' -> P d') ->
  (forall op d d', op ∈ ops -> P d -> torn op d d' -> P d') ->
  P d -> crashed ops d d' -> P d'.
Proof.
  intros Hs Ht Hp Hc. revert Hs Ht Hp. induction Hc as [|op ops d d' H|op ops d d1 d' H Hc IH]; intros Hs Ht Hp; [done| |].
  - apply (Ht op d); [left|done..].
  - apply IH; [intros ? ? ? ?; apply Hs; by right | intros ? ? ? ?; apply Ht; by right | by apply (Hs op d); [left|..]].
Qed.

(** ** What is visible of the store *)

Definition is_temp (p : list pystr) : bool :=
  match rev p with c :: _ => bool_decide (drop (length c - length RECOVERING) c = RECOVERING) | [] => false end.

(** A file, except the ones that are being written. *)
Definition visible (d : disk) (p : list pystr) : option blob := if is_temp p then None else dget p (d_store d).

Lemma is_temp_of p : p <> [] -> is_temp (temp_of p) = true.
Proof.
  intros Hp. unfold is_temp, temp_of. destruct (rev p) as [|c r] eqn:E.
  { by apply (f_equal (@rev pystr)) in E; rewrite rev_involutive in E. }
  rewrite rev_involutive. apply bool_decide_eq_true. rewrite length_app.
  replace (length c + length RECOVERING - length RECOVERING)%nat with (length c) by lia. apply drop_app_length.
Qed.

Lemma visible_write d p b q : is_temp p = true -> visible (Disk (dset p b (d_store d)) (d_txn d)) q = visible d q.
Proof.
  intros Hp. unfold visible. destruct (is_temp q) eqn:E; [done|]. cbn. rewrite dget_dset_ne; [done|]. intros ->. congruence.
Qed.

(** ** Names of the prepared files *)

Lemma prepared_name_inj i j : 0 <= i -> 0 <= j -> prepared_name i = prepared_name j -> i = j.
Proof. intros Hi Hj E%app_inv_tail. by apply str_of_Z_inj. Qed.

Lemma prepared_head i : 0 <= i -> exists c r, prepared_name i = c :: r /\ is_digit c = true.
Proof.
  intros Hi. destruct (str_of_Z_nonneg i Hi) as (_ & Hd & Hn). unfold prepared_name.
  destruct Hd as [|c r Hc _]; [done|]. by exists c, (r ++ lit ".tsv").
Qed.

Lemma prepared_not_ready i n : 0 <= i -> head n = Some 114 -> prepared_name i <> n /\ prepared_tmp i <> n.
Proof.
  intros Hi Hn. destruct (prepared_head i Hi) as (c & r & E & Hc). unfold prepared_tmp. rewrite E.
  split; intros <-; cbn in Hn; injection Hn as ->; done.
Qed.

Lemma name_not_tmp i j : prepared_name i <> prepared_tmp j.
Proof.
  unfold prepared_tmp, prepared_name. intros E. apply (f_equal (@rev Z)) in E. rewrite !rev_app_distr in E. done.
Qed.

(** ** Operations that prepare *)

(** No next generation is ready. *)
Definition no_ready (d : disk) : Prop := match d_txn d with Some t => dget READY t = None | None => True end.

Definition quiet_op (op : io) : Prop :=
  match op with
  | WriteStore _ _ | ReplaceStore _ _ => False
  | WriteTxn n _ | ReplaceTxn _ n => n <> READY
  | _ => True
  end.

(** Such operations never touch the store nor make a generation ready. *)
Lemma ddel_none `{EqDecision K} {V} (k k' : K) (d : list (K * V)) : dget k d = None -> dget k (ddel k' d) = None.
Proof.
  induction d as [|[a b] d IH]; cbn; [done|]. case_decide; [done|]. intros E. case_decide; [done|]. cbn.
  rewrite decide_False by done. auto.
Qed.

Lemma quiet_crash ops d d' :
  Forall quiet_op ops -> no_ready d -> crashed ops d d' -> no_ready d' /\ d_store d' = d_store d.
Proof.
  intros Hq Hn. rewrite Forall_forall in Hq.
  apply (crashed_keeps (fun x => no_ready x /\ d_store x = d_store d)); [| |done].
  - intros op x x' Hop [Hx Hs] E. specialize (Hq op Hop). unfold no_ready in *.
    destruct op; try done; cbn in E.
    + destruct (d_txn x); [done|]. by injection E as <-.
    + destruct (d_txn x) as [t|]; [|done]. cbn in E. injection E as <-. split; [|done]. cbn. by rewrite dget_dset_ne.
    + destruct (d_txn x) as [t|]; [|done]. cbn in E. destruct (dget a t) as [y|]; [|done]. injection E as <-. split; [|done].
      cbn. rewrite dget_dset_ne by done. by apply ddel_none.
    + destruct (d_txn x) as [t|]; [|done]. cbn in E. destruct (dget n t) as [y|]; [|done]. injection E as <-. split; [|done].
      cbn. by apply ddel_none.
    + destruct (d_txn x) as [[|? t]|]; try done. by injection E as <-.
  - intros op x x' Hop [Hx Hs] Ht. specialize (Hq op Hop). inversion Ht as [|n b d1 f t Hf]; subst; [done|].
    split; [|done]. unfold no_ready in *. rewrite Hf in Hx. cbn. by rewrite dget_dset_ne.
Qed.

Lemma rmtree_quiet txn : Forall quiet_op (rmtree txn).
Proof. apply Forall_app. split; [by apply Forall_map, Forall_true | by repeat constructor]. Qed.

Lemma rmtree_run txn s : run (rmtree txn) (Disk s (Some txn)) = Some (Disk s None).
Proof.
  unfold rmtree. induction txn as [|[n b] txn IH]; [done|]. cbn. rewrite decide_True by done. cbn.
  rewrite decide_True by done. exact IH.
Qed.

Lemma prepare_quiet tables : forall i, 0 <= i -> Forall quiet_op (prepare i tables).
Proof.
  induction tables as [|[p t] tables IH]; intros i Hi; [constructor|]. cbn [prepare].
  destruct (prepared_not_ready i READY Hi eq_refl). repeat (constructor; [done|]). apply IH. lia.
Qed.

(** The prepared files are in the directory, under their numbers. *)
Lemma prepare_run tables : forall i s txn, 0 <= i ->
  exists txn', run (prepare i tables) (Disk s (Some txn)) = Some (Disk s (Some txn')) /\ (dict_ok txn -> dict_ok txn')
  /\ (forall k p t, tables !! k = Some (p, t) -> dget (prepared_name (i + Z.of_nat k)) txn' = Some (TextFile t))
  /\ (forall n, (forall j, i <= j -> n <> prepared_name j /\ n <> prepared_tmp j) -> dget n txn' = dget n txn).
Proof.
  induction tables as [|[p t] tables IH]; intros i s txn Hi; cbn [prepare]; [by exists txn|].
  set (txn1 := dset (prepared_name i) (TextFile t) (ddel (prepared_tmp i) (dset (prepared_tmp i) (TextFile t) txn))).
  destruct (IH (i + 1) s txn1) as (txn' & E & Hd & Hf & Ho); [lia|]. exists txn'.
  assert (forall n, n <> prepared_tmp i -> n <> prepared_name i -> dget n txn1 = dget n txn) as H1.
  { intros n Ht Hn. unfold txn1. by rewrite dget_dset_ne, dget_ddel_ne, dget_dset_ne. }
  assert (dget (prepared_name i) txn' = Some (TextFile t)) as Hi'.
  { rewrite Ho; [apply dget_dset_eq|]. intros j Hj. split; [|apply name_not_tmp]. intros E1%prepared_name_inj; lia. }
  split; [|split; [|split]].
  - cbn [app run step d_txn d_store mbind option_bind]. rewrite dget_dset_eq. exact E.
  - intros Hok. apply Hd. unfold txn1. auto with pybytes.
  - intros [|k] p' t' Hk; cbn in Hk; [injection Hk as <- <-; by rewrite Z.add_0_r|].
    replace (i + Z.of_nat (S k)) with (i + 1 + Z.of_nat k) by lia. by apply (Hf k p').
  - intros n Hn. rewrite Ho by (intros j Hj; apply Hn; lia). destruct (Hn i) as [? ?]; [lia|]. by apply H1.
Qed.

(** ** Installing *)

Definition install_at (pt : list pystr * pystr) : list io := install (Entry (fst pt) [] []) (TextFile (snd pt)).
Definition path_ok (store p : list pystr) : Prop := p <> [] /\ is_temp p = false /\ safe_target store p = true.

Lemma install_run store p t d : path_ok store p ->
  exists d', run (install_at (p, t)) d = Some d' /\ d_txn d' = d_txn d
  /\ forall q, visible d' q = if decide (q = p) then Some (TextFile t) else visible d q.
Proof.
  intros (Hp & Ht & _). pose proof (is_temp_of p Hp) as Htmp. unfold install_at, install. cbn [fst snd e_path run step].
  cbn [mbind option_bind d_store d_txn]. rewrite dget_dset_eq. eexists. split; [done|]. split; [done|].
  intros q. unfold visible. cbn [d_store]. destruct (is_temp q) eqn:Eq; [case_decide; congruence|].
  rewrite dget_dset. case_decide; [done|]. rewrite dget_ddel_ne, dget_dset_ne by congruence. done.
Qed.

Lemma install_crash store p t d d' : path_ok store p -> crashed (install_at (p, t)) d d' ->
  d_txn d' = d_txn d /\ forall q, visible d' q = visible d q \/ q = p /\ visible d' q = Some (TextFile t).
Proof.
  intros Hok Hc. destruct (install_run store p t d Hok) as (d2 & E & Htxn & Hv). destruct Hok as (Hp & Ht & _).
  pose proof (is_temp_of p Hp) as Htmp. unfold install_at, install in *. cbn [fst snd e_path] in *.
  inversion Hc as [|? ? ? ? H|? ? ? d1 ? H Hc1]; subst.
  - by split; [|left].
  - inversion H; subst. split; [done|]. left. by apply visible_write.
  - cbn in H. injection H as <-. inversion Hc1 as [|? ? ? ? H|? ? ? d3 ? H Hc2]; subst.
    + split; [done|]. left. by apply visible_write.
    + inversion H.
    + cbn in E, H. rewrite dget_dset_eq in E, H. injection E as <-. injection H as <-.
      inversion Hc2; subst. split; [done|]. intros q. rewrite Hv. case_decide; [by right | by left].
Qed.

Lemma installs_run store tables : forall d, Forall (fun pt => path_ok store (fst pt)) tables -> dict_ok tables ->
  exists d', run (flat_map install_at tables) d = Some d' /\ d_txn d' = d_txn d
  /\ forall q, visible d' q = match dget q tables with Some t => Some (TextFile t) | None => visible d q end.
Proof.
  induction tables as [|[p t] tables IH]; intros d Hok Hd; [by exists d|].
  inversion_clear Hok as [|? ? Hp Hok']. apply NoDup_cons in Hd as [Hn Hd].
  destruct (install_run store p t d Hp) as (d1 & E1 & T1 & V1). destruct (IH d1 Hok' Hd) as (d2 & E2 & T2 & V2).
  exists d2. cbn [flat_map]. rewrite run_app, E1. split; [exact E2|]. split; [congruence|].
  intros q. rewrite V2, V1. cbn [dget]. case_decide as Eq; [|done]. subst q.
  apply dget_None_keys in Hn. cbn [fst] in Hn. by rewrite Hn.
Qed.

Lemma installs_crash store tables : forall d d', Forall (fun pt => path_ok store (fst pt)) tables -> dict_ok tables ->
  crashed (flat_map install_at tables) d d' ->
  d_txn d' = d_txn d /\ forall q, visible d' q = visible d q \/ exists t, dget q tables = Some t /\ visible d' q = Some (TextFile t).
Proof.
  induction tables as [|[p t] tables IH]; intros d d' Hok Hd Hc.
  { inversion Hc; subst. by split; [|left]. }
  inversion_clear Hok as [|? ? Hp Hok']. apply NoDup_cons in Hd as [Hn Hd].
  cbn [flat_map] in Hc. apply crashed_app in Hc as [Hc|(d1 & E & Hc)].
  - destruct (install_crash _ _ _ _ _ Hp Hc) as [T V]. split; [done|]. intros q. destruct (V q) as [?|[-> ?]]; [by left|].
    right. exists t. cbn. by rewrite decide_True.
  - destruct (install_run store p t d Hp) as (d1' & E' & T1 & V1). rewrite E in E'. injection E' as <-.
    destruct (IH _ _ Hok' Hd Hc) as [T2 V2]. split; [congruence|]. intros q. cbn [dget].
    destruct (V2 q) as [Hv|(t' & Hg & Hv)].
    + rewrite Hv, V1. case_decide; [right; by exists t | by left].
    + right. case_decide as Eq; [|by exists t']. subst q. apply dget_None_keys in Hn. cbn [fst] in Hn. congruence.
Qed.

(** ** The three states a store can be in *)

Section Commit.
Context (sha256_hex : blob -> pystr) (store : list pystr).
Context (d0 : disk) (tables : list (list pystr * pystr)).
(** Distinct tables, inside the store, none under the name of a temporary file. *)
Context (Hpaths : Forall (fun pt => path_ok store (fst pt)) tables) (Hdistinct : dict_ok tables).
Context (Hquiet : no_ready d0).

(** The store with the new tables in it. *)
Definition installed (q : list pystr) : option blob :=
  match dget q tables with Some t => Some (TextFile t) | None => visible d0 q end.

Definition old_state (d : disk) : Prop := no_ready d /\ forall q, visible d q = visible d0 q.
Definition new_state (d : disk) : Prop := no_ready d /\ forall q, visible d q = installed q.

(** The next generation is ready; some of its tables may be installed. *)
Definition mixed_state (d : disk) : Prop :=
  (exists txn, d_txn d = Some txn /\ dict_ok txn /\ dget READY txn = Some (Manifest (entries_of sha256_hex 0 tables))
     /\ forall k p t, tables !! k = Some (p, t) -> dget (prepared_name (Z.of_nat k)) txn = Some (TextFile t))
  /\ forall q, visible d q = visible d0 q \/ visible d q = installed q.

Lemma prepared_all l txn : forall i, Forall (fun pt => path_ok store (fst pt)) l ->
  (forall k p t, l !! k = Some (p, t) -> dget (prepared_name (i + Z.of_nat k)) txn = Some (TextFile t)) ->
  res_map (prepared sha256_hex store txn) (entries_of sha256_hex i l) = Ok (map (fun pt => TextFile (snd pt)) l).
Proof.
  induction l as [|[p t] l IH]; intros i Hok Hf; [done|]. inversion_clear Hok as [|? ? (_ & _ & Hs) Hok'].
  cbn [fst] in Hs.
  assert (prepared sha256_hex store txn (Entry p (prepared_name i) (sha256_hex (TextFile t))) = Ok (TextFile t)) as E.
  { unfold prepared. cbn [e_path e_file e_sha]. rewrite Hs. cbn [negb].
    assert (dget (prepared_name i) txn = Some (TextFile t)) as ->.
    { rewrite <- (Z.add_0_r i). by apply (Hf 0%nat p t). }
    by rewrite bool_decide_eq_true_2. }
  cbn [entries_of res_map map]. rewrite E. cbn [mbind res_bind]. rewrite IH; [done|done|].
  intros k p' t' Hk. replace (i + 1 + Z.of_nat k) with (i + Z.of_nat (S k)) by lia. by apply (Hf (S k) p' t').
Qed.

Lemma installs_eq l : forall i,
  concat (zip_with install (entries_of sha256_hex i l) (map (fun pt => TextFile (snd pt)) l)) = flat_map install_at l.
Proof. induction l as [|[p t] l IH]; intros i; [done|]. cbn. by rewrite IH. Qed.

(** Recovery finishes the generation, and a crash of it is harmless. *)
Lemma recover_mixed d : mixed_state d ->
  exists ops d', recover sha256_hex store d = Ok ops /\ run ops d = Some d' /\ new_state d' /\ d_txn d' = None
  /\ forall d'', crashed ops d d'' -> mixed_state d'' \/ new_state d''.
Proof.
  intros [(txn & Et & Hok & Er & Ef) Hv]. unfold recover. rewrite Et, Er.
  rewrite (prepared_all tables txn 0 Hpaths) by (intros k p t; apply Ef). cbn [mbind res_bind]. rewrite installs_eq.
  destruct (installs_run store tables d Hpaths Hdistinct) as (d1 & E1 & T1 & V1).
  assert (forall q, visible d1 q = installed q) as Hi.
  { intros q. rewrite V1. unfold installed. destruct (Hv q) as [Hq|Hq]; [by rewrite Hq|].
    rewrite Hq. unfold installed. by destruct (dget q tables). }
  assert (d_txn d1 = Some txn) as T1' by congruence.
  set (tail := [UnlinkTxn READY] ++ rmtree (ddel READY txn)).
  assert (step (UnlinkTxn READY) d1 = Some (Disk (d_store d1) (Some (ddel READY txn)))) as Es.
  { cbn [step]. rewrite T1'. cbn [mbind option_bind]. by rewrite Er. }
  assert (run tail d1 = Some (Disk (d_store d1) None)) as Etail.
  { unfold tail. cbn [app run]. rewrite Es. cbn [mbind option_bind]. apply rmtree_run. }
  eexists _, _. split; [done|]. split; [rewrite run_app, E1; exact Etail|].
  split; [split; [done | exact Hi]|]. split; [done|]. intros d'' [Hc|(d2 & E2 & Hc)]%crashed_app.
  - left. destruct (installs_crash store tables d d'' Hpaths Hdistinct Hc) as [T V]. split; [exists txn; split_and!; congruence || done|].
    intros q. destruct (V q) as [Hq|(t & Hg & Hq)].
    + rewrite Hq. apply Hv.
    + right. rewrite Hq. unfold installed. by rewrite Hg.
  - rewrite E1 in E2. injection E2 as <-. unfold tail in Hc. cbn [app] in Hc.
    inversion Hc as [|? ? ? ? Ht|? ? ? d3 ? H Hc2]; subst.
    + left. split; [exists txn; split_and!; congruence || done|]. intros q. right. apply Hi.
    + inversion Ht.
    + rewrite Es in H. injection H as <-. right.
      destruct (quiet_crash _ _ _ (rmtree_quiet _) (dget_ddel_eq READY txn Hok : no_ready (Disk (d_store d1) (Some (ddel READY txn)))) Hc2) as [Hr Hs].
      split; [done|]. intros q. rewrite <- Hi. unfold visible. by rewrite Hs.
Qed.

Lemma recover_quiet d : no_ready d -> recover sha256_hex store d = Ok [].
Proof. unfold no_ready, recover. destruct (d_txn d) as [t|]; [by intros ->|done]. Qed.

(** The preparation ends with the whole generation; a crash of it leaves the
    old one. *)
Lemma preparation_run : exists d1, run (preparation sha256_hex d0 tables) d0 = Some d1 /\ mixed_state d1
  /\ forall d, crashed (preparation sha256_hex d0 tables) d0 d -> old_state d \/ mixed_state d.
Proof.
  set (clear := match d_txn d0 with Some txn => rmtree txn | None => [] end).
  assert (run clear d0 = Some (Disk (d_store d0) None)) as Ec.
  { unfold clear. destruct d0 as [s [txn|]]; [apply rmtree_run | done]. }
  destruct (prepare_run tables 0 (d_store d0) []) as (txn & Ep & Hok & Hf & Ho); [done|].
  set (quiet := clear ++ [MkTxn] ++ prepare 0 tables ++ [WriteTxn READY_TMP (Manifest (entries_of sha256_hex 0 tables))]).
  assert (preparation sha256_hex d0 tables = quiet ++ [ReplaceTxn READY_TMP READY]) as ->.
  { unfold preparation, quiet. fold clear. by rewrite <- !app_assoc. }
  set (m := Manifest (entries_of sha256_hex 0 tables)). set (txn1 := dset READY_TMP m txn).
  assert (run quiet d0 = Some (Disk (d_store d0) (Some txn1))) as Eq.
  { unfold quiet. rewrite run_app, Ec. cbn [mbind option_bind app run step d_txn d_store]. by rewrite run_app, Ep. }
  assert (Forall quiet_op quiet) as Hq.
  { unfold quiet. apply Forall_app. split; [unfold clear; destruct (d_txn d0); [apply rmtree_quiet | constructor]|].
    cbn [app]. constructor; [done|]. apply Forall_app. split; [by apply prepare_quiet|]. by repeat constructor. }
  set (txn2 := dset READY m (ddel READY_TMP txn1)).
  assert (step (ReplaceTxn READY_TMP READY) (Disk (d_store d0) (Some txn1)) = Some (Disk (d_store d0) (Some txn2))) as Es.
  { cbn [step d_txn]. cbn [mbind option_bind]. assert (dget READY_TMP txn1 = Some m) as -> by apply dget_dset_eq. done. }
  assert (forall d, crashed quiet d0 d -> old_state d) as Hold.
  { intros d Hc. destruct (quiet_crash _ _ _ Hq Hquiet Hc) as [Hn Hs]. split; [done|]. intros q. unfold visible. by rewrite Hs. }
  assert (mixed_state (Disk (d_store d0) (Some txn2))) as Hmix.
  { split; [|by left]. exists txn2. split; [done|]. split.
    { unfold txn2, txn1. specialize (Hok dict_ok_nil). auto with pybytes. }
    split; [apply dget_dset_eq|]. intros k p t Hk. unfold txn2, txn1.
    destruct (prepared_not_ready (Z.of_nat k) READY) as [? _]; [lia|done|].
    destruct (prepared_not_ready (Z.of_nat k) READY_TMP) as [? _]; [lia|done|].
    rewrite dget_dset_ne, dget_ddel_ne, dget_dset_ne by done. by apply (Hf k p). }
  eexists. split; [rewrite run_app, Eq; cbn [mbind option_bind run]; rewrite Es; done|]. split; [exact Hmix|].
  intros d [Hc|(d1 & E1 & Hc)]%crashed_app; [left; by apply Hold|]. rewrite Eq in E1. injection E1 as <-.
  inversion Hc as [|? ? ? ? Ht|? ? ? d2 ? H Hc2]; subst; [left; by apply Hold, crashed_run|inversion Ht|].
  rewrite Es in H. injection H as <-. inversion Hc2; subst. by right.
Qed.

(** What a machine can find on its disk: the commit was interrupted, and then
    any number of recoveries were. *)
Inductive outage (ops : list io) : disk -> Prop :=
  | outage_first d : crashed ops d0 d -> outage ops d
  | outage_again d ops' d' : outage ops d -> recover sha256_hex store d = Ok ops' -> crashed ops' d d' -> outage ops d'.

(** C4: a commit is all or nothing.  It runs to its end and leaves exactly the
    new tables in the store, with the transaction gone.  And whenever it is
    interrupted -- between two operations or inside a write, and the
    recoveries after it as well, any number of times -- a recovery that is left
    to finish succeeds, and the store then shows all of the old tables or all
    of the new ones. *)
Theorem commit_atomic :
  exists ops, commit sha256_hex store d0 tables = Ok ops
  /\ (exists d', run ops d0 = Some d' /\ d_txn d' = None /\ forall q, visible d' q = installed q)
  /\ forall d, outage ops d -> exists ops' d', recover sha256_hex store d = Ok ops' /\ run ops' d = Some d'
       /\ ((forall q, visible d' q = visible d0 q) \/ (forall q, visible d' q = installed q)).
Proof.
  destruct preparation_run as (d1 & Ep & Hm & Hpc). destruct (recover_mixed d1 Hm) as (after & d2 & Er & Ea & [_ Hv] & Ht & Hac).
  exists (preparation sha256_hex d0 tables ++ after). split.
  { unfold commit. rewrite (recover_quiet d0 Hquiet). cbn [mbind res_bind run res_of_option]. rewrite Ep.
    cbn [mbind res_bind res_of_option]. by rewrite Er. }
  split; [exists d2; split; [by rewrite run_app, Ep | done]|].
  assert (forall d, outage (preparation sha256_hex d0 tables ++ after) d -> old_state d \/ mixed_state d \/ new_state d) as Hinv.
  { intros d Ho. induction Ho as [d [Hc|(d3 & E3 & Hc)]%crashed_app|d ops' d' _ IH E Hc].
    - destruct (Hpc d Hc); auto.
    - rewrite Ep in E3. injection E3 as <-. destruct (Hac d Hc); auto.
    - destruct IH as [Hs|[Hs|Hs]].
      + rewrite (recover_quiet d) in E by apply Hs. injection E as <-. inversion Hc; subst. by left.
      + destruct (recover_mixed d Hs) as (ops2 & d4 & E2 & _ & _ & _ & Hc2). rewrite E2 in E. injection E as <-.
        destruct (Hc2 d' Hc); auto.
      + rewrite (recover_quiet d) in E by apply Hs. injection E as <-. inversion Hc; subst. by right; right. }
  intros d Ho. destruct (Hinv d Ho) as [[Hn Hs]|[Hs|[Hn Hs]]].
  - exists [], d. split; [by apply recover_quiet|]. split; [done|]. by left.
  - destruct (recover_mixed d Hs) as (ops2 & d4 & E2 & E4 & [_ Hn] & _). exists ops2, d4. auto.
  - exists [], d. split; [by apply recover_quiet|]. split; [done|]. by right.
Qed.
End Commit.

(** Two tables, over an older generation and an abandoned preparation. *)
Definition SAMPLE : list pystr := [lit "srv"; lit "store"].
Definition sample_disk : disk := Disk [([lit "sources.tsv"], TextFile (lit "old"))] (Some [(lit "0.tsv", TextFile (lit "stale"))]).
Definition sample_tables : list (list pystr * pystr) :=
  [([lit "itemcache"; lit "index.tsv"], lit "items"); ([lit "sources.tsv"], lit "new")].

Lemma commit_atomic_witness :
  exists ops, commit (fun _ => []) SAMPLE sample_disk sample_tables = Ok ops /\ length ops = 17%nat
  /\ forall d, outage (fun _ => []) SAMPLE sample_disk ops d ->
     exists ops' d', recover (fun _ => []) SAMPLE d = Ok ops' /\ run ops' d = Some d'
     /\ ((forall q, visible d' q = visible sample_disk q) \/ (forall q, visible d' q = installed sample_disk sample_tables q)).
Proof.
  destruct (commit_atomic (fun _ => []) SAMPLE sample_disk sample_tables) as (ops & E & _ & Ho).
  - repeat constructor; discriminate.
  - by_decide.
  - reflexivity.
  - exists ops. split; [exact E|]. split; [|exact Ho]. vm_compute in E. injection E as <-. reflexivity.
Defined.
