(* ===== verification/Wdb.v ===== *)
(** * Records of a client cache (cache-consolidator/tools/wdblib.py)

    A .wdb file is a 24-byte header and records [entry][size][payload], ended
    by a zero record or the end of the file.  [iter_records] and [inspect] walk
    it; their loops get one round per byte and one more, and end before that. *)
From S2P Require Import Prelude Wire Text.

(** ** The header *)

(** The cache and the label of a magic. *)
Definition MAGIC : list (bytes * (pystr * pystr)) :=
  [(lit "WIDB", (lit "itemcache", lit "item definitions"));
   (lit "WGOB", (lit "gameobjectcache", lit "gameobject definitions"));
   (lit "WMOB", (lit "creaturecache", lit "creature/mob definitions"));
   (lit "WNPC", (lit "npccache", lit "npc gossip/vendor"));
   (lit "WQST", (lit "questcache", lit "quest definitions"));
   (lit "WPTX", (lit "pagetextcache", lit "page/book text"));
   (lit "WITX", (lit "itemtextcache", lit "item text (letters)"));
   (lit "WNDB", (lit "itemnamecache", lit "item names (search)"));
   (lit "WRDN", (lit "wowcache", lit "misc client cache"))].

Definition HEADER_LEN : Z := 24.

(** The bytes of Latin-1 are its code points. *)
Definition decode_str (s : bytes) : pystr := match utf8_decode s with Ok t => t | Err _ => s end.

(** The magic, the build and the locale. *)
Definition read_header_wdb (b : bytes) : res (bytes * Z * pystr) :=
  let raw := slice 0 4 b in
  build ← unpackI b 4;
  Ok (rev raw, build, rev (slice 8 12 b)).

(** ** The records *)

Definition MAX_SIZE : Z := 5000000.

(** One round of the loop at [off]. *)
Inductive wdb_step := WdbStop | WdbTerminator | WdbBad | WdbRecord (entry size : Z).

Definition wdb_next (b : bytes) (off : Z) : res wdb_step :=
  let n := pylen b in
  if off + 8 <=? n then
    entry ← unpackI b off;
    size ← unpackI b (off + 4);
    Ok (if (entry =? 0) && (size =? 0) then WdbTerminator
        else if (size >? MAX_SIZE) || (off + 8 + size >? n) then WdbBad
        else WdbRecord entry size)
  else Ok WdbStop.

Fixpoint iter_go (fuel : nat) (b : bytes) (off : Z) : res (list (Z * Z * bytes)) :=
  match fuel with
  | O => Err OutOfFuel
  | S fuel =>
      step ← wdb_next b off;
      match step with
      | WdbRecord entry size =>
          rest ← iter_go fuel b (off + 8 + size);
          Ok ((entry, size, slice (off + 8) (off + 8 + size) b) :: rest)
      | _ => Ok []
      end
  end.

Definition iter_records (b : bytes) (header_len : Z) : res (list (Z * Z * bytes)) :=
  iter_go (S (length b)) b header_len.

(** ** Inspection *)

Record wdb_info := WdbInfo {
  wi_path : pystr; wi_magic : pystr; wi_cache : pystr; wi_label : pystr; wi_build : Z; wi_locale : pystr;
  wi_records : Z; wi_payload_bytes : Z; wi_standard : bool; wi_note : pystr; wi_clean_end : bool }.

(** The records, their bytes, and whether the walk ended at a terminator or at
    the end of the file. *)
Fixpoint count_go (fuel : nat) (b : bytes) (off recs pay : Z) : res (Z * Z * bool) :=
  match fuel with
  | O => Err OutOfFuel
  | S fuel =>
      step ← wdb_next b off;
      match step with
      | WdbStop => Ok (recs, pay, off =? pylen b)
      | WdbTerminator => Ok (recs, pay, true)
      | WdbBad => Ok (recs, pay, false)
      | WdbRecord _ size => count_go fuel b (off + 8 + size) (recs + 1) (pay + size)
      end
  end.

(** [s.rstrip("\x00")]. *)
Fixpoint lstrip_nul (s : pystr) : pystr :=
  match s with c :: t => if c =? 0 then lstrip_nul t else s | [] => [] end.
Definition rstrip_nul (s : pystr) : pystr := rev (lstrip_nul (rev s)).

(** What [inspect] says of a header it knows. *)
Definition known_magic (b : bytes) : option (pystr * pystr) :=
  match read_header_wdb b with
  | Ok (magic, build, _) => if (1000 <=? build) && (build <=? 60000) then dget magic MAGIC else None
  | Err _ => None
  end.

Definition inspect (path : pystr) (b : bytes) : res wdb_info :=
  if pylen b <? 12 then
    Ok (WdbInfo path [] (lit "?") (lit "?") 0 [] 0 0 false (lit "too small") false)
  else
    '(magic, build, locale) ← read_header_wdb b;
    match known_magic b with
    | Some (cache, label) =>
        '(recs, pay, clean) ← count_go (S (length b)) b HEADER_LEN 0 0;
        Ok (WdbInfo path magic cache label build locale recs pay true
              (if clean : bool then [] else lit "did not reach a clean terminator/EOF") clean)
    | None =>
        Ok (WdbInfo path (rstrip_nul (slice 0 4 b)) (lit "(non-standard)") (lit "addon/other header") build locale
              0 (Z.max 0 (pylen b - 24)) false (lit "non-standard header; needs a specialized parser") false)
    end.

(** ** What a well-formed file is *)

(** [struct.pack("<II", entry, len(payload)) + payload]. *)
Definition wdb_record (entry : Z) (payload : bytes) : bytes := le 4 entry ++ le 4 (pylen payload) ++ payload.
Definition wdb_body (recs : list (Z * bytes)) : bytes := flat_map (fun r => wdb_record (fst r) (snd r)) recs.

Definition record_ok (r : Z * bytes) : Prop :=
  0 <= fst r < 2 ^ 32 /\ pylen (snd r) <= MAX_SIZE /\ ~ (fst r = 0 /\ snd r = []).

(** The end of the records. *)
Definition clean_tail (tail : bytes) : Prop := tail = [] \/ take 8 tail = replicate 8 0.

Definition sized (r : Z * bytes) : Z * Z * bytes := (fst r, pylen (snd r), snd r).

(** ** What the walk finds

    Every file splits in one way into its header, well-formed records and a
    tail that begins with no record; [iter_records] yields the records and
    [inspect] counts them. *)

(** ** One round *)

Lemma unpack_u_shift n a b off : 0 <= off -> unpack_u n (a ++ b) (pylen a + off) = unpack_u n b off.
Proof.
  intros Ho. unfold unpack_u. pose proof (pylen_nonneg a). rewrite pylen_app.
  rewrite (proj2 (Z.leb_le 0 (pylen a + off))), (proj2 (Z.leb_le 0 off)) by lia. cbn [andb].
  replace (pylen a + off + Z.of_nat n <=? pylen a + pylen b) with (off + Z.of_nat n <=? pylen b)
    by (apply eq_true_iff_eq; rewrite !Z.leb_le; lia).
  destruct (_ <=? _); [|done]. unfold slice.
  replace (pylen a + off + Z.of_nat n - (pylen a + off)) with (off + Z.of_nat n - off) by lia.
  replace (Z.to_nat (pylen a + off)) with (length a + Z.to_nat off)%nat by (unfold pylen in *; lia).
  by rewrite drop_app_add.
Qed.

Lemma wdb_next_app a b : wdb_next (a ++ b) (pylen a) = wdb_next b 0.
Proof.
  unfold wdb_next, unpackI.
  assert (unpack_u 4 (a ++ b) (pylen a) = unpack_u 4 b 0) as -> by (rewrite <- (unpack_u_shift 4 a b 0), Z.add_0_r; done).
  change (0 + 4) with 4. rewrite (unpack_u_shift 4 a b 4), pylen_app by lia.
  replace (pylen a + 8 <=? pylen a + pylen b) with (0 + 8 <=? pylen b) by (apply eq_true_iff_eq; rewrite !Z.leb_le; lia).
  destruct (0 + 8 <=? pylen b); [|done].
  destruct (unpack_u 4 b 0) as [e|]; [|done]. cbn [mbind res_bind]. destruct (unpack_u 4 b 4) as [s|]; [|done].
  cbn [mbind res_bind].
  replace (pylen a + 8 + s >? pylen a + pylen b) with (0 + 8 + s >? pylen b); [done|].
  apply eq_true_iff_eq. rewrite !Z.gtb_lt. lia.
Qed.

(** The first eight bytes are two words. *)
Lemma two_words b : is_bytes b -> 8 <= pylen b ->
  exists e s c, b = le 4 e ++ le 4 s ++ c /\ 0 <= e < 2 ^ 32 /\ 0 <= s < 2 ^ 32 /\ is_bytes c.
Proof.
  intros Hb Hl. unfold pylen in Hl. exists (unle (take 4 b)), (unle (take 4 (drop 4 b))), (drop 8 b).
  assert (length (take 4 b) = 4%nat) as H1 by (rewrite length_take; lia).
  assert (length (take 4 (drop 4 b)) = 4%nat) as H2 by (rewrite length_take, length_drop; lia).
  pose proof (unle_bound (take 4 b)) as B1. pose proof (unle_bound (take 4 (drop 4 b))) as B2.
  unfold pylen in B1, B2. rewrite H1 in B1. rewrite H2 in B2.
  pose proof (le_unle (take 4 b)) as E1. rewrite H1 in E1. pose proof (le_unle (take 4 (drop 4 b))) as E2. rewrite H2 in E2.
  rewrite E1, E2 by auto with pybytes. split; [|split; [apply B1|split; [apply B2|]]]; auto with pybytes.
  rewrite <- (take_drop 4 b) at 1. f_equal. rewrite <- (take_drop 4 (drop 4 b)) at 1. by rewrite drop_drop.
Qed.

Lemma wdb_next_words e s c : 0 <= e < 2 ^ 32 -> 0 <= s < 2 ^ 32 ->
  wdb_next (le 4 e ++ le 4 s ++ c) 0
  = Ok (if (e =? 0) && (s =? 0) then WdbTerminator
        else if (s >? MAX_SIZE) || (s >? pylen c) then WdbBad else WdbRecord e s).
Proof.
  intros He Hs. unfold wdb_next, unpackI. pose proof (pylen_nonneg c).
  assert (pylen (le 4 e ++ le 4 s ++ c) = 8 + pylen c) as -> by (rewrite !pylen_app, !pylen_le; lia).
  rewrite (proj2 (Z.leb_le _ _)) by lia.
  rewrite (unpack_u_app 4 [] e (le 4 s ++ c) 0 eq_refl He : unpack_u 4 (le 4 e ++ le 4 s ++ c) 0 = Ok e). cbn [mbind res_bind].
  rewrite (unpack_u_app 4 (le 4 e) s c (0 + 4)) by (rewrite ?pylen_le; done || exact Hs). cbn [mbind res_bind].
  replace (0 + 8 + s >? 8 + pylen c) with (s >? pylen c); [done|]. apply eq_true_iff_eq. rewrite !Z.gtb_lt. lia.
Qed.

(** A tail at which the walk stops. *)
Definition no_record (tail : bytes) : Prop := forall r rest, record_ok r -> tail <> wdb_record (fst r) (snd r) ++ rest.

Lemma wdb_next_record r c : record_ok r -> wdb_next (wdb_record (fst r) (snd r) ++ c) 0 = Ok (WdbRecord (fst r) (pylen (snd r))).
Proof.
  intros (He & Hp & Hz). unfold wdb_record. rewrite <- !app_assoc. pose proof (pylen_nonneg (snd r)). pose proof (pylen_nonneg c).
  assert (pylen (snd r) < 2 ^ 32) by (unfold MAX_SIZE in Hp; lia).
  rewrite wdb_next_words by lia. rewrite pylen_app. destruct (_ && _) eqn:E.
  { exfalso. apply Hz. zbool. split; [done|]. unfold pylen in *. destruct (snd r); [done|cbn in *; lia]. }
  destruct (_ || _) eqn:E2; [|done]. exfalso. rewrite orb_true_iff, !Z.gtb_lt in E2. lia.
Qed.

Lemma wdb_next_cases b : is_bytes b ->
  (exists r c, b = wdb_record (fst r) (snd r) ++ c /\ record_ok r /\ wdb_next b 0 = Ok (WdbRecord (fst r) (pylen (snd r))))
  \/ (no_record b /\ exists st, wdb_next b 0 = Ok st /\ match st with
        | WdbStop => pylen b < 8 | WdbTerminator => take 8 b = replicate 8 0
        | WdbBad => 8 <= pylen b /\ take 8 b <> replicate 8 0 | WdbRecord _ _ => False end).
Proof.
  intros Hb. destruct (Z.le_gt_cases 8 (pylen b)) as [Hl|Hl].
  2:{ right. split.
      - intros r c Hr E. subst b. unfold wdb_record in Hl. rewrite !pylen_app, !pylen_le in Hl.
        pose proof (pylen_nonneg (snd r)). pose proof (pylen_nonneg c). lia.
      - exists WdbStop. split; [|done]. unfold wdb_next. by rewrite (proj2 (Z.leb_gt _ _)) by lia. }
  destruct (two_words b Hb Hl) as (e & s & c & -> & He & Hs & Hc).
  pose proof (wdb_next_words e s c He Hs) as E.
  assert (forall P : Prop, (forall st, wdb_next (le 4 e ++ le 4 s ++ c) 0 = Ok st -> match st with WdbRecord _ _ => False | _ => True end) ->
            no_record (le 4 e ++ le 4 s ++ c)) as Hno.
  { intros _ Hst r c' Hr E'. pose proof (wdb_next_record r c' Hr) as E2. rewrite <- E' in E2. by apply Hst in E2. }
  assert (take 8 (le 4 e ++ le 4 s ++ c) = le 4 e ++ le 4 s) as Ht.
  { rewrite app_assoc. apply take_app_exact. by rewrite length_app, !length_le. }
  rewrite Ht. destruct ((e =? 0) && (s =? 0)) eqn:Ez.
  { right. split; [apply (Hno True); rewrite E; by intros st [= <-]|]. eexists. split; [exact E|]. zbool. by subst. }
  destruct ((s >? MAX_SIZE) || (s >? pylen c)) eqn:Eb.
  { right. split; [apply (Hno True); rewrite E; by intros st [= <-]|]. eexists. split; [exact E|]. split; [done|].
    intros Hz. change (replicate 8 0) with (le 4 0 ++ le 4 0) in Hz. apply app_inj_1 in Hz as [Z1 Z2]; [|by rewrite !length_le].
    apply (f_equal unle) in Z1, Z2. rewrite !unle_le_id in Z1, Z2 by lia. by subst. }
  left. apply orb_false_iff in Eb as [E1 E2]. rewrite Z.gtb_ltb, Z.ltb_ge in E1, E2.
  assert (pylen (take (Z.to_nat s) c) = s) as Hp by (unfold pylen in *; rewrite length_take; lia).
  exists (e, take (Z.to_nat s) c), (drop (Z.to_nat s) c). cbn [fst snd]. rewrite Hp. split; [|split; [|exact E]].
  - unfold wdb_record. by rewrite Hp, <- !app_assoc, take_drop.
  - unfold record_ok. cbn [fst snd]. split; [lia|]. split; [lia|]. intros [-> Hn]. rewrite Hn in Hp. subst s. done.
Qed.

(** ** The whole walk *)

Definition payload_sum (recs : list (Z * bytes)) : Z := foldr (fun r n => pylen (snd r) + n) 0 recs.

Lemma pylen_record e p : pylen (wdb_record e p) = 8 + pylen p.
Proof. unfold wdb_record. rewrite !pylen_app, !pylen_le. lia. Qed.

Lemma slice_record pre e p c : slice (pylen pre + 8) (pylen pre + 8 + pylen p) (pre ++ wdb_record e p ++ c) = p.
Proof.
  replace (pre ++ wdb_record e p ++ c) with ((pre ++ le 4 e ++ le 4 (pylen p)) ++ p ++ c)
    by (unfold wdb_record; by rewrite <- !app_assoc).
  apply slice_app_mid; rewrite !pylen_app, !pylen_le; lia.
Qed.

(** Where the walk stops. *)
Definition stops_clean (tail : bytes) : bool := bool_decide (tail = []) || bool_decide (take 8 tail = replicate 8 0).

Lemma walk recs tail : forall pre fuel, Forall record_ok recs -> is_bytes tail -> no_record tail ->
  (length recs < fuel)%nat -> let b := pre ++ wdb_body recs ++ tail in
  iter_go fuel b (pylen pre) = Ok (map sized recs)
  /\ forall n p, count_go fuel b (pylen pre) n p = Ok (n + pylen recs, p + payload_sum recs, stops_clean tail).
Proof.
  induction recs as [|r recs IH]; intros pre [|fuel] Hok Ht Hno Hf; cbn [length] in Hf; try lia; intros b.
  - unfold b. cbn [wdb_body flat_map app iter_go count_go]. rewrite wdb_next_app.
    destruct (wdb_next_cases tail Ht) as [(r & c & -> & Hr & _)|(_ & st & -> & Hst)]; [by destruct (Hno r c Hr)|].
    cbn [mbind res_bind]. unfold stops_clean, payload_sum. cbn [foldr]. rewrite pylen_nil, pylen_app.
    destruct st; (split; [done|]); intros n p; rewrite !Z.add_0_r; do 2 f_equal.
    + apply eq_true_iff_eq. rewrite Z.eqb_eq, orb_true_iff, !bool_decide_eq_true.
      pose proof (pylen_nonneg pre). split; [intros E; left; destruct tail; [done|rewrite pylen_cons in E; pose proof (pylen_nonneg tail); lia]|].
      intros [->|E]; [by rewrite pylen_nil, Z.add_0_r|]. apply (f_equal length) in E. rewrite length_take, length_replicate in E.
      unfold pylen in Hst. lia.
    + symmetry. apply orb_true_iff. right. by apply bool_decide_eq_true.
    + destruct Hst as [H8 Hz]. symmetry. apply orb_false_iff. split; apply bool_decide_eq_false; [|done].
      intros ->. done.
    + done.
  - inversion_clear Hok as [|? ? Hr Hok']. unfold b. cbn [wdb_body flat_map iter_go count_go]. fold (wdb_body recs).
    rewrite <- app_assoc, wdb_next_app, wdb_next_record by done. cbn [mbind res_bind]. rewrite slice_record.
    assert (pylen pre + 8 + pylen (snd r) = pylen (pre ++ wdb_record (fst r) (snd r))) as -> by (rewrite pylen_app, pylen_record; lia).
    rewrite (app_assoc pre). destruct (IH (pre ++ wdb_record (fst r) (snd r)) fuel Hok' Ht Hno) as [E1 E2]; [lia|].
    split; [by rewrite E1|]. intros n p. rewrite E2. unfold payload_sum. cbn [foldr]. rewrite pylen_cons. do 3 f_equal; lia.
Qed.

(** The two loops agree, on any bytes. *)
Lemma count_iter fuel b : forall off n p r q clean, count_go fuel b off n p = Ok (r, q, clean) ->
  exists recs, iter_go fuel b off = Ok recs /\ r = n + pylen recs /\ q = p + foldr (fun x t => snd (fst x) + t) 0 recs.
Proof.
  induction fuel as [|fuel IH]; intros off n p r q clean E; cbn [count_go iter_go] in *; [done|].
  destruct (wdb_next b off) as [st|]; [|done]. cbn [mbind res_bind] in *.
  destruct st; [apply Ok_inj in E; injection E as <- <- <-; exists []; split; [done|]; rewrite pylen_nil; cbn [foldr]; split; lia..|].
  destruct (IH _ _ _ _ _ _ E) as (recs & Er & -> & ->). rewrite Er. cbn [mbind res_bind].
  eexists. split; [done|]. rewrite pylen_cons. cbn [foldr fst snd]. split; lia.
Qed.

(** What [inspect] says and what [iter_records] yields. *)
Lemma inspect_reads path b info : inspect path b = Ok info ->
  (if wi_standard info && negb (wi_records info =? 0) then iter_records b HEADER_LEN else Ok [])
  = (if known_magic b then iter_records b HEADER_LEN else Ok [])
  /\ (wi_standard info = true -> exists label, known_magic b = Some (wi_cache info, label)).
Proof.
  unfold inspect. intros E. destruct (pylen b <? 12) eqn:El.
  - apply Ok_inj in E. subst info. cbn. split; [|done]. destruct (known_magic b); [|done].
    unfold iter_records. cbn [iter_go]. unfold wdb_next. zbool. rewrite (proj2 (Z.leb_gt _ _)); [done|]. unfold HEADER_LEN. lia.
  - inv_bind E. destruct v as [[magic build] locale]. destruct (known_magic b) as [[cache label]|].
    + inv_bind E. destruct v as [[r q] clean]. apply Ok_inj in E. subst info. cbn [wi_standard wi_records wi_cache andb]. split; [|by exists label].
      destruct (count_iter _ _ _ _ _ _ _ _ E1) as (recs & Er & -> & _). unfold iter_records. rewrite Er.
      destruct recs as [|x recs]; [done|]. rewrite pylen_cons. pose proof (pylen_nonneg recs).
      by rewrite (proj2 (Z.eqb_neq _ _)) by lia.
    + apply Ok_inj in E. by subst info.
Qed.

(** Every list of bytes splits. *)
Lemma split_records n : forall b, (length b <= n)%nat -> is_bytes b ->
  exists recs tail, b = wdb_body recs ++ tail /\ Forall record_ok recs /\ no_record tail /\ is_bytes tail.
Proof.
  induction n as [|n IH]; intros b Hn Hb; (destruct (wdb_next_cases b Hb) as [(r & c & -> & Hr & _)|[Hno _]]; [|exists [], b; auto]).
  - unfold wdb_record in Hn. rewrite !length_app, length_le in Hn. lia.
  - apply is_bytes_app in Hb as [_ Hc]. destruct (IH c) as (recs & tail & -> & Hrs & Ht & Hb); [|done|].
    { unfold wdb_record in Hn. rewrite !length_app, length_le in Hn. lia. }
    exists (r :: recs), tail. split; [cbn; by rewrite <- app_assoc|]. auto.
Qed.

Lemma length_body recs : (length recs <= length (wdb_body recs))%nat.
Proof.
  induction recs as [|r recs IH]; [done|]. cbn [wdb_body flat_map length]. fold (wdb_body recs).
  unfold wdb_record. rewrite !length_app, !length_le. lia.
Qed.

(** A clean end is a terminator or the end of the file. *)
Lemma stops_clean_spec tail : stops_clean tail = true <-> clean_tail tail.
Proof. unfold stops_clean, clean_tail. by rewrite orb_true_iff, !bool_decide_eq_true. Qed.

(** Reading back what a client wrote.  Whatever the 24 bytes of the header
    are, the records that follow are read in order, each with its entry, its
    size and its bytes, up to a terminator, the end of the file or anything
    that is no record. *)
Theorem iter_records_roundtrip header recs tail :
  pylen header = HEADER_LEN -> Forall record_ok recs -> is_bytes tail -> no_record tail ->
  iter_records (header ++ wdb_body recs ++ tail) HEADER_LEN = Ok (map sized recs).
Proof.
  intros Hh Hr Ht Hno. unfold iter_records. rewrite <- Hh. apply walk; [done..|].
  rewrite !length_app. pose proof (length_body recs). lia.
Qed.

Lemma iter_records_roundtrip_witness :
  iter_records (replicate 24 7 ++ wdb_body [(17, [1; 2; 3]); (18, []); (0, [9])] ++ le 4 0 ++ le 4 0 ++ [1; 2]) HEADER_LEN
  = Ok [(17, 3, [1; 2; 3]); (18, 0, []); (0, 1, [9])].
Proof.
  apply (iter_records_roundtrip (replicate 24 7) [(17, [1; 2; 3]); (18, []); (0, [9])]).
  - reflexivity.
  - repeat constructor; cbn; try lia; try (vm_compute; discriminate); intros []; discriminate.
  - by_decide.
  - intros r rest (He & Hp & Hz) E. cbn in Hz.
    pose proof (wdb_next_record r rest (conj He (conj Hp Hz))) as E2. rewrite <- E in E2. vm_compute in E2. discriminate.
Defined.

(** The walk over any file, damaged ones included.  The bytes after the
    header are well-formed records and a tail that begins with no record, in
    exactly this way; [iter_records] yields these records, and [inspect] always
    ends, counts them and their bytes, and says of a file of a known kind that
    it is complete exactly when the tail is empty or a terminator. *)
Theorem inspect_walk path b :
  is_bytes b -> HEADER_LEN <= pylen b ->
  exists recs tail info, b = slice_to HEADER_LEN b ++ wdb_body recs ++ tail /\ Forall record_ok recs /\ no_record tail
    /\ iter_records b HEADER_LEN = Ok (map sized recs) /\ inspect path b = Ok info
    /\ match known_magic b with
       | Some (cache, label) => wi_standard info = true /\ wi_cache info = cache /\ wi_records info = pylen recs
                                /\ wi_payload_bytes info = payload_sum recs /\ (wi_clean_end info = true <-> clean_tail tail)
       | None => wi_standard info = false /\ wi_records info = 0 /\ wi_clean_end info = false
       end.
Proof.
  intros Hb Hl. set (h := slice_to HEADER_LEN b). set (rest := drop (Z.to_nat HEADER_LEN) b).
  assert (b = h ++ rest) as Eb by (symmetry; apply take_drop).
  assert (pylen h = HEADER_LEN) as Eh by (unfold h, slice_to, pylen, HEADER_LEN in *; rewrite length_take; lia).
  destruct (split_records (length rest) rest) as (recs & tail & Er & Hok & Hno & Ht); [done|apply is_bytes_drop, Hb|].
  destruct (walk recs tail h (S (length b)) Hok Ht Hno) as [E1 E2].
  { rewrite Eb, Er, !length_app. pose proof (length_body recs). lia. }
  rewrite <- Er, <- Eb, Eh in E1, E2. exists recs, tail.
  unfold inspect. rewrite (proj2 (Z.ltb_ge _ _)) by (unfold HEADER_LEN in Hl; lia).
  assert (exists build, unpackI b 4 = Ok build) as [build Eu].
  { unfold unpackI, unpack_u. rewrite (proj2 (Z.leb_le (4 + Z.of_nat 4) (pylen b))); [by eexists | unfold HEADER_LEN in Hl; lia]. }
  assert (read_header_wdb b = Ok (rev (slice 0 4 b), build, rev (slice 8 12 b))) as ->.
  { unfold read_header_wdb. by rewrite Eu. }
  cbn [mbind res_bind]. destruct (known_magic b) as [[cache label]|].
  - rewrite E2. cbn [mbind res_bind]. eexists. split; [rewrite <- Er; exact Eb|]. split; [done|]. split; [done|]. split; [exact E1|].
    split; [done|]. cbn. split_and!; [done|done|lia|lia|]. apply stops_clean_spec.
  - eexists. split; [rewrite <- Er; exact Eb|]. split; [done|]. split; [done|]. split; [exact E1|]. by split.
Qed.

Lemma inspect_walk_witness :
  exists info, inspect (lit "x.wdb") (lit "BDIW" ++ le 4 12340 ++ lit "SUne" ++ replicate 12 0 ++ wdb_body [(17, [1; 2; 3])] ++ replicate 8 0) = Ok info
    /\ wi_records info = 1 /\ wi_payload_bytes info = 3 /\ wi_clean_end info = true /\ wi_cache info = lit "itemcache".
Proof.
  destruct (inspect_walk (lit "x.wdb") (lit "BDIW" ++ le 4 12340 ++ lit "SUne" ++ replicate 12 0 ++ wdb_body [(17, [1; 2; 3])] ++ replicate 8 0))
    as (recs & tail & info & _ & _ & _ & _ & E & _).
  - by_decide.
  - vm_compute. discriminate.
  - exists info. split; [exact E|]. vm_compute in E. injection E as <-. repeat split.
Defined.

(** ** Text *)

(** A string the client wrote is read as it was, whatever characters it
    has; the fallback to Latin-1 never applies to it. *)
Theorem decode_str_utf8 s b : Forall is_char s -> utf8_encode s = Ok b -> decode_str b = s.
Proof. intros Hs Hb. unfold decode_str. by rewrite (utf8_decode_encode s b). Qed.

Lemma decode_str_utf8_witness : decode_str [0x48; 0xE2; 0x80; 0x99] = [0x48; 0x2019].
Proof. apply (decode_str_utf8 [0x48; 0x2019]); [repeat constructor; cbv; intros; discriminate | reflexivity]. Defined.
