(* ===== verification/Tsv.v ===== *)
(** * The tables of the record store (cache-consolidator/tools/merge.py)

    [write_tsv] and [read_tsv]: a line of column names and a line per row, in
    UTF-8.  A row is a dict of text; a number is held as the text [str] makes
    of it, since the code only prints numbers and reads them back with
    [int]. *)
From S2P Require Import Prelude Text Format.

Abbreviation tsv_row := (list (pystr * pystr)) (only parsing).

(** [s.split(sep)] for one character. *)
Fixpoint split_on (sep : Z) (s : pystr) : list pystr :=
  match s with
  | [] => [[]]
  | c :: s =>
      if c =? sep then [] :: split_on sep s
      else match split_on sep s with w :: ws => (c :: w) :: ws | [] => [[c]] end
  end.

(** Text mode reads "\r\n" and "\r" as "\n". *)
Fixpoint newlines (s : pystr) : pystr :=
  match s with
  | [] => []
  | c :: t =>
      if c =? 13 then 10 :: match t with
                            | d :: u => if d =? 10 then newlines u else newlines t
                            | [] => []
                            end
      else c :: newlines t
  end.

(** [dict(zip(head, vals))]. *)
Definition zip_dict (head vals : list pystr) : tsv_row :=
  foldl (fun d kv => dset (fst kv) (snd kv) d) [] (combine head vals).

Fixpoint read_lines (head : list pystr) (lines : list pystr) : res (list tsv_row) :=
  match lines with
  | [] => Ok []
  | line :: lines =>
      match strip line with
      | [] => read_lines head lines
      | _ =>
          let vals := split_on 9 line in
          if bool_decide (length vals = length head) then
            rows ← read_lines head lines; Ok (zip_dict head vals :: rows)
          else Err ValueError
      end
  end.

(** [None] is a file that is not there. *)
Definition read_tsv (file : option bytes) : res (list tsv_row) :=
  match file with
  | None => Ok []
  | Some b =>
      s ← utf8_decode b;
      match split_on 10 (newlines s) with
      | line :: lines => read_lines (split_on 9 line) lines
      | [] => Ok []
      end
  end.

Definition unsafe_char (c : Z) : bool := (c =? 9) || (c =? 13) || (c =? 10).

Definition tsv_values (cols : list pystr) (r : tsv_row) : list pystr := map (fun c => default [] (dget c r)) cols.

Definition tsv_line (cols : list pystr) (r : tsv_row) : res pystr :=
  let values := tsv_values cols r in
  if existsb (existsb unsafe_char) values then Err ValueError else Ok (join [9] values ++ [10]).

Definition write_tsv (cols : list pystr) (rows : list tsv_row) : res bytes :=
  lines ← res_map (tsv_line cols) rows;
  utf8_encode (join [9] cols ++ [10] ++ concat lines).

(** ** Splitting what was joined *)

Lemma split_on_free sep s : sep ∉ s -> split_on sep s = [s].
Proof.
  induction s as [|c s IH]; [done|]. intros Hn. apply not_elem_of_cons in Hn as [Hc Hn]. cbn [split_on].
  rewrite (proj2 (Z.eqb_neq c sep)) by congruence. by rewrite IH.
Qed.

Lemma split_on_app sep w s : sep ∉ w -> split_on sep (w ++ sep :: s) = w :: split_on sep s.
Proof.
  induction w as [|c w IH]; intros Hn; cbn [app split_on]; [by rewrite Z.eqb_refl|].
  apply not_elem_of_cons in Hn as [Hc Hn]. rewrite (proj2 (Z.eqb_neq c sep)) by congruence. by rewrite IH.
Qed.

Lemma split_on_join sep l : l <> [] -> Forall (fun w => sep ∉ w) l -> split_on sep (join [sep] l) = l.
Proof.
  intros Hne Hl. destruct l as [|w l]; [done|]. clear Hne. unfold join. revert w Hl.
  induction l as [|v l IH]; intros w Hl; inversion_clear Hl as [|? ? Hw Hr]; cbn [map concat].
  - rewrite app_nil_r. by apply split_on_free.
  - cbn [app]. rewrite split_on_app by done. f_equal. by apply IH.
Qed.

Lemma newlines_id s : 13 ∉ s -> newlines s = s.
Proof.
  induction s as [|c s IH]; [done|]. intros Hn. apply not_elem_of_cons in Hn as [Hc Hn]. cbn [newlines].
  rewrite (proj2 (Z.eqb_neq c 13)) by congruence. by rewrite IH.
Qed.

(** ** The round trip *)

Lemma lstrip_keeps c s : c ∈ s -> is_space c = false -> c ∈ lstrip s.
Proof.
  induction s as [|d s IH]; [done|]. intros [->|Hc]%elem_of_cons Hs; cbn [lstrip].
  - rewrite Hs. left.
  - destruct (is_space d); [by apply IH | by right].
Qed.

Lemma strip_keeps c s : c ∈ s -> is_space c = false -> strip s <> [].
Proof.
  intros Hc Hs E. unfold strip, rstrip in E. pose proof (lstrip_keeps c s Hc Hs) as H1.
  apply (not_elem_of_nil c). rewrite <- E. apply elem_of_reverse_2 in H1 as H2.
  rewrite list_elem_of_In, <- in_rev, <- list_elem_of_In. apply lstrip_keeps; [|done].
  by rewrite list_elem_of_In, <- in_rev, <- list_elem_of_In.
Qed.

Lemma foldl_zip kvs : forall acc : list (pystr * pystr), NoDup (dkeys (acc ++ kvs)) ->
  foldl (fun d kv => dset (fst kv) (snd kv) d) acc kvs = acc ++ kvs.
Proof.
  induction kvs as [|[k v] kvs IH]; intros acc Hn; [by rewrite app_nil_r|]. cbn [foldl fst snd].
  rewrite dset_fresh.
  - rewrite IH; rewrite <- app_assoc; done.
  - unfold dkeys in *. rewrite map_app in Hn. cbn in Hn. intros Hk. apply NoDup_app in Hn as (_ & Hd & _).
    by apply (Hd k Hk), list_elem_of_here.
Qed.

Lemma zip_dict_nodup head vals : NoDup head -> length vals = length head -> zip_dict head vals = combine head vals.
Proof.
  intros Hn Hl. unfold zip_dict. rewrite foldl_zip; [done|]. unfold dkeys. cbn [app].
  assert (map fst (combine head vals) = head) as ->; [|done]. clear Hn.
  revert vals Hl. induction head as [|h head IH]; intros [|v vals] Hl; try done. cbn. by rewrite IH by (cbn in Hl; lia).
Qed.

Lemma join_Forall (P : Z -> Prop) sep l : P sep -> Forall (Forall P) l -> Forall P (join [sep] l).
Proof.
  intros Hs Hl. destruct Hl as [|w l Hw Hl]; [constructor|]. cbn [join]. apply Forall_app. split; [done|].
  induction Hl as [|v l Hv _ IH]; [constructor|]. cbn [map concat app]. constructor; [done|]. apply Forall_app. auto.
Qed.

(** Text a cell can hold. *)
Definition cell_ok (s : pystr) : Prop := Forall (fun c => is_char c /\ unsafe_char c = false) s.

Lemma cell_ok_free s c : cell_ok s -> unsafe_char c = true -> c ∉ s.
Proof. unfold cell_ok. rewrite Forall_forall. intros Hs Hc Hin. destruct (Hs c Hin). congruence. Qed.

Lemma tsv_line_cells cols r line : tsv_line cols r = Ok line -> Forall (Forall is_char) (tsv_values cols r) ->
  line = join [9] (tsv_values cols r) ++ [10] /\ Forall cell_ok (tsv_values cols r).
Proof.
  unfold tsv_line. intros H Hc. destruct (existsb _ _) eqn:E; [done|]. apply Ok_inj in H. split; [done|].
  apply existsb_false_forall in E. rewrite Forall_forall in *. intros v Hv. specialize (E v Hv). cbv beta in E.
  apply existsb_false_forall in E. unfold cell_ok. specialize (Hc v Hv). rewrite Forall_forall in *. intros c Hin. auto.
Qed.

Lemma cells_ok_by l :
  forallb (forallb (fun c => (0 <=? c) && (c <=? 0x10FFFF) && negb (unsafe_char c))) l = true -> Forall cell_ok l.
Proof.
  rewrite forallb_forall, Forall_forall. intros H w Hw%list_elem_of_In. specialize (H w Hw).
  rewrite forallb_forall in H. unfold cell_ok. rewrite Forall_forall. intros c Hc%list_elem_of_In. specialize (H c Hc).
  unfold is_char. zbool. split; [lia|]. by destruct (unsafe_char c).
Qed.

(** A row as it is read back: the columns of the file. *)
Definition tsv_read_row (cols : list pystr) (r : tsv_row) : tsv_row := combine cols (tsv_values cols r).
Definition row_visible (cols : list pystr) (r : tsv_row) : Prop :=
  exists v c, v ∈ tsv_values cols r /\ c ∈ v /\ is_space c = false.

Lemma read_lines_written cols rows lines : cols <> [] -> NoDup cols ->
  Forall (fun r => Forall (Forall is_char) (tsv_values cols r) /\ row_visible cols r) rows ->
  res_map (tsv_line cols) rows = Ok lines ->
  Forall (fun c => is_char c /\ c <> 13) (concat lines)
  /\ read_lines cols (split_on 10 (concat lines)) = Ok (map (tsv_read_row cols) rows).
Proof.
  intros Hc Hn Hr. revert lines. induction Hr as [|r rows [Hv (v & c & Hvis & Hcv & Hsp)] _ IH]; intros lines H.
  { apply Ok_inj in H. subst lines. by split. }
  cbn [res_map] in H. inv_bind H. inv_bind H. apply Ok_inj in H. subst lines.
  destruct (tsv_line_cells _ _ _ E Hv) as [-> Hcells].
  destruct (IH _ eq_refl) as [Hch Hrd]. clear E IH. cbn [concat map]. set (vals := tsv_values cols r) in *.
  assert (length vals = length cols) as Hlen by (unfold vals, tsv_values; by rewrite length_map).
  assert (vals <> []) as Hne by (intros E; rewrite E in Hlen; destruct cols; done).
  assert (Forall (fun x => is_char x /\ x <> 13 /\ x <> 10) (join [9] vals)) as Hj.
  { apply join_Forall; [unfold is_char; lia|]. eapply Forall_impl; [exact Hcells|]. intros w Hw.
    eapply Forall_impl; [exact Hw|]. intros x [Hx Hu]. unfold unsafe_char in Hu. zbool. auto. }
  split.
  { apply Forall_app. split; [|done]. apply Forall_app. split; [|by repeat constructor; unfold is_char; lia].
    eapply Forall_impl; [exact Hj|]. intros x (? & ? & ?). auto. }
  rewrite <- app_assoc. cbn [app]. rewrite split_on_app by (rewrite Forall_forall in Hj; intros Hin; by destruct (Hj 10 Hin) as (_ & _ & ?)).
  cbn [read_lines].
  assert (c ∈ join [9] vals) as Hin.
  { clear -Hvis Hcv. destruct vals as [|w l]; [by apply elem_of_nil in Hvis|]. cbn [join].
    apply elem_of_cons in Hvis as [->|Hl]; [apply elem_of_app; by left|]. apply elem_of_app. right.
    induction l as [|u l IH]; [by apply elem_of_nil in Hl|]. cbn [map concat app]. right.
    apply elem_of_cons in Hl as [->|Hl]; apply elem_of_app; [by left | right; by apply IH]. }
  destruct (strip (join [9] vals)) eqn:E; [by destruct (strip_keeps c _ Hin Hsp)|]. clear E.
  rewrite split_on_join; [|done|].
  2:{ eapply Forall_impl; [exact Hcells|]. intros w Hw. by apply (cell_ok_free w 9). }
  rewrite bool_decide_eq_true_2 by done. rewrite Hrd. cbn [mbind res_bind]. by rewrite zip_dict_nodup.
Qed.

Lemma read_tsv_written cols rows b :
  cols <> [] -> NoDup cols -> Forall cell_ok cols ->
  Forall (fun r => Forall (Forall is_char) (tsv_values cols r) /\ row_visible cols r) rows ->
  write_tsv cols rows = Ok b -> read_tsv (Some b) = Ok (map (tsv_read_row cols) rows).
Proof.
  intros Hc Hn Hcols Hrows H. unfold write_tsv in H. inv_bind H.
  destruct (read_lines_written _ _ _ Hc Hn Hrows E) as [Hch Hrd]. cbn [read_tsv].
  assert (Forall (fun x => is_char x /\ x <> 13 /\ x <> 10) (join [9] cols)) as Hj.
  { apply join_Forall; [unfold is_char; lia|]. eapply Forall_impl; [exact Hcols|]. intros w Hw.
    eapply Forall_impl; [exact Hw|]. intros x [Hx Hu]. unfold unsafe_char in Hu. zbool. auto. }
  rewrite (utf8_decode_encode _ _) with (2 := H).
  2:{ apply Forall_app. split; [eapply Forall_impl; [exact Hj|]; intros x (? & ? & ?); auto|]. constructor; [unfold is_char; lia|].
      eapply Forall_impl; [exact Hch|]. intros x [? ?]. auto. }
  cbn [mbind res_bind]. rewrite newlines_id.
  2:{ intros Hin. apply elem_of_app in Hin as [Hin|Hin].
      - rewrite Forall_forall in Hj. by destruct (Hj 13 Hin) as (_ & ? & _).
      - apply elem_of_cons in Hin as [?|Hin]; [done|]. rewrite Forall_forall in Hch. by destruct (Hch 13 Hin). }
  cbn [app]. rewrite split_on_app by (rewrite Forall_forall in Hj; intros Hin; by destruct (Hj 10 Hin) as (_ & _ & ?)).
  rewrite split_on_join; [exact Hrd|done|]. eapply Forall_impl; [exact Hcols|]. intros w Hw. by apply (cell_ok_free w 9).
Qed.

(** The tables of the store are read back as they were written: whenever
    [write_tsv] accepts the rows, [read_tsv] returns, in order, the columns of
    every row, as long as no row is blank. *)
Theorem tsv_roundtrip cols rows b :
  cols <> [] -> NoDup cols -> Forall cell_ok cols ->
  Forall (fun r => Forall (Forall is_char) (tsv_values cols r) /\ row_visible cols r) rows ->
  write_tsv cols rows = Ok b -> read_tsv (Some b) = Ok (map (tsv_read_row cols) rows).
Proof. apply read_tsv_written. Qed.

Lemma tsv_roundtrip_witness :
  exists b, write_tsv [lit "id"; lit "group"] [[(lit "group", [0xE9]); (lit "id", lit "1")]] = Ok b
  /\ read_tsv (Some b) = Ok [[(lit "id", lit "1"); (lit "group", [0xE9])]].
Proof.
  eexists. split; [reflexivity|].
  refine (tsv_roundtrip [lit "id"; lit "group"] [[(lit "group", [0xE9]); (lit "id", lit "1")]] _ _ _ _ _ eq_refl).
  - discriminate.
  - by_decide.
  - by apply cells_ok_by.
  - constructor; [|constructor]. unfold row_visible.
    change (tsv_values _ _) with [[49]; [0xE9]]. split; [repeat constructor; unfold is_char; lia|].
    exists (lit "1"), 49. split_and!; [by left | by left | done].
Defined.
