(* ===== verification/WdbStore.v ===== *)
(** * The store of cache records (cache-consolidator/tools/merge.py)

    Every record of every submitted cache file is kept once, under its entry
    and the SHA-1 of its payload, in a pack per cache that only grows; an index
    per cache says where it is and which sources and modes have it.  The rows
    of the sources and the indexes are read and written as tables; dates come
    from capture_dates.py.  The walk over folders ([scan_disk]) gives the
    argument [disk]; counters that are only printed are left out. *)
From Stdlib Require Import SpecFloat.
From S2P Require Import Prelude Wire PyFloat Text Format Json Modes Tsv Wdb.

Definition PARSER_REVISION : pystr := lit "2026-09-11.2".

Definition SRC_COLS : list pystr :=
  [lit "id"; lit "sha256"; lit "cache"; lit "filename"; lit "group"; lit "realm"; lit "mode"; lit "slug";
   lit "mode_source"; lit "records"; lit "captured"; lit "path"; lit "locale"; lit "build"; lit "header_hex";
   lit "parser_revision"].
Definition IDX_COLS : list pystr :=
  [lit "entry"; lit "sha1"; lit "size"; lit "offset"; lit "modes"; lit "srcs"; lit "first_captured";
   lit "last_captured"; lit "locales"].

Definition INFER_MIN_SHARED : Z := 500.
Definition INFER_MIN_AGREE : f64 := f64_dec 90 (-2).
Definition INFER_MIN_MARGIN : f64 := f64_dec 1 (-4).

(** ** State *)

(** A source is a file's SHA-256 and the group it was found in. *)
Abbreviation src_key := (pystr * pystr)%type (only parsing).
Abbreviation src_row := (list (pystr * pystr)) (only parsing).
Abbreviation rec_key := (Z * pystr)%type (only parsing).

Record idx_row := IdxRow {
  ix_size : Z; ix_offset : Z; ix_modes : list pystr; ix_srcs : list pystr; ix_first : pystr; ix_last : pystr }.

Abbreviation cache_index := (list (rec_key * idx_row)) (only parsing).

(** [r[k]]. *)
Definition row_item (k : string) (r : src_row) : res pystr := res_of_option KeyError (dget (lit k) r).

(** ** Capture dates *)

Definition web_hex (c : Z) : bool := in_range 97 102 c || in_range 48 57 c.

(** [web-[a-f0-9]{32}(?:/|$)] at the beginning of the text. *)
Definition web_at (s : pystr) : bool :=
  let run := take 32 (drop 4 s) in let rest := drop 36 s in
  bool_decide (take 4 s = lit "web-") && bool_decide (length run = 32%nat) && forallb web_hex run
  && match rest with [] => true | c :: t => (c =? 47) || ((c =? 10) && bool_decide (t = [])) end.

Fixpoint web_after_slash (s : pystr) : bool :=
  match s with [] => false | c :: t => ((c =? 47) && web_at t) || web_after_slash t end.

Definition slashes (path : pystr) : pystr := map (fun c => if c =? 92 then 47 else c) path.

Definition is_web_source (path : pystr) : bool := web_at (slashes path) || web_after_slash (slashes path).

(** ** Locales *)

Definition clean_locale (v : json) : pystr :=
  match v with
  | JStr s => match s with
              | [a; b; c; d] => if in_range 97 122 a && in_range 97 122 b && in_range 65 90 c && in_range 65 90 d
                                then s else lit "unknown"
              | _ => lit "unknown"
              end
  | _ => lit "unknown"
  end.

Section Store.
Context `{Unicode}.
(** [str] of a JSON float or container. *)
Context (py_repr : json -> pystr).
(** [hashlib.sha1(b).hexdigest()]. *)
Context (sha1_hex : bytes -> pystr).
(** The bytes of a file, and the day of its modification time. *)
Context (file_bytes : pystr -> bytes) (file_date : pystr -> pystr).

(** ** Loading *)

Definition load_sources (file : option bytes) : res (list (src_key * src_row)) :=
  rows ← read_tsv file;
  res_fold (fun srcs r =>
    sha ← row_item "sha256" r;
    group ← row_item "group" r;
    Ok (dset (sha, group) r srcs)) [] rows.

(** [set(filter(None, text.split(",")))]. *)
Definition comma_set (s : pystr) : list pystr :=
  foldl (fun acc x => match x with [] => acc | _ => set_add x acc end) [] (split_on 44 s).

Definition load_idx_row (r : src_row) : res (rec_key * idx_row) :=
  entry ← (x ← row_item "entry" r; int_of_str x);
  sha1 ← row_item "sha1" r;
  size ← (x ← row_item "size" r; int_of_str x);
  offset ← (x ← row_item "offset" r; int_of_str x);
  modes ← row_item "modes" r;
  srcs ← row_item "srcs" r;
  first ← row_item "first_captured" r;
  last ← row_item "last_captured" r;
  Ok ((entry, sha1), IdxRow size offset (comma_set modes) (comma_set srcs) first last).

Definition load_index (file : bytes) : res cache_index :=
  rows ← read_tsv (Some file);
  res_fold (fun idx r => '(k, x) ← load_idx_row r; Ok (dset k x idx)) [] rows.

(** [int(r["id"])]. *)
Definition row_id (r : src_row) : res Z := x ← row_item "id" r; int_of_str x.

Definition next_id (srcs : list (src_key * src_row)) : res Z :=
  ids ← res_map (fun kr => row_id (snd kr)) srcs;
  Ok (1 + match ids with [] => 0 | x :: l => foldl Z.max x l end).

(** ** Rows the user or the ledger corrects *)

Definition refresh_row (user : list (pystr * (option pystr * option pystr))) (ledger : list (pystr * json))
    (table : mode_table) (r : src_row) : res (src_row * mode_table) :=
  sha ← row_item "sha256" r;
  let record := default (JDict []) (dget sha ledger) in
  locale ← match dget (lit "locale") r with
           | Some ((_ :: _) as s) => Ok (JStr s)
           | _ => jget record (lit "locale") JNull
           end;
  let r := dset (lit "locale") (clean_locale locale) r in
  build ← match dget (lit "build") r with
          | Some ((_ :: _) as s) => Ok s
          | _ => v ← jget record (lit "build") JNull; Ok (if py_truthy v then py_str py_repr v else [])
          end;
  let r := dset (lit "build") build r in
  group ← row_item "group" r;
  let '(cls, table) := classify user group table in
  let fixed := bool_decide (mc_source cls = lit "override" \/ mc_source cls = lit "modes.json") in
  Ok (if fixed then
        dset (lit "mode_source") (mc_source cls)
          (dset (lit "slug") (mc_slug cls) (dset (lit "realm") (mc_realm cls) (dset (lit "mode") (mc_mode cls) r)))
      else r, table).

Fixpoint refresh_rows (user : list (pystr * (option pystr * option pystr))) (ledger : list (pystr * json))
    (table : mode_table) (srcs : list (src_key * src_row)) : res (list (src_key * src_row) * mode_table) :=
  match srcs with
  | [] => Ok ([], table)
  | (k, r) :: srcs =>
      '(r, table) ← refresh_row user ledger table r;
      '(srcs, table) ← refresh_rows user ledger table srcs;
      Ok ((k, r) :: srcs, table)
  end.

(** [modes.seed_json]: every group gets an entry of modes.json. *)
Definition seed_json (user : list (pystr * (option pystr * option pystr))) (groups : list pystr) (table : mode_table)
  : list (pystr * (option pystr * option pystr)) * mode_table :=
  foldl (fun acc g =>
    let '(user', table) := acc in
    if decide (g ∈ dkeys user') then acc
    else let '(cls, table) := classify user g table in
         (dset g (Some (mc_realm cls), Some (mc_mode cls)) user', table))
    (user, table) (py_sort str_leb (foldl (fun s g => set_add g s) [] groups)).

(** [srcs[k]["path"] = disk[k]] for the sources that are still there. *)
Definition move_paths (disk : list (src_key * pystr)) (srcs : list (src_key * src_row)) : list (src_key * src_row) :=
  map (fun kr => match dget (fst kr) disk with
                 | Some p => (fst kr, dset (lit "path") p (snd kr))
                 | None => kr
                 end) srcs.

(** ** Reading the new files *)

Record pending := Pending {
  pd_key : src_key; pd_row : src_row; pd_recs : list (Z * pystr * bytes);
  pd_fp : list (Z * pystr) }.      (* [fingerprints[key]]; absent is empty *)

Definition is_new (srcs : list (src_key * src_row)) (k : src_key) : bool :=
  match dget k srcs with
  | None => true
  | Some r => negb (bool_decide (dget (lit "parser_revision") r = Some PARSER_REVISION))
  end.

Definition new_keys (srcs : list (src_key * src_row)) (disk : list (src_key * pystr)) : list (src_key * pystr) :=
  py_sort (fun a b => str_leb (snd a) (snd b)) (filter (fun kp => is_new srcs (fst kp) = true) disk).

Definition source_date (path : pystr) : pystr := if is_web_source path then [] else file_date path.

(** [os.path.basename]. *)
Definition basename (path : pystr) : pystr := List.last (split_on 47 path) [].

(** [b.hex()]. *)
Definition hex_lower (d : Z) : Z := if d <? 10 then 48 + d else 87 + d.
Definition hex_text (b : bytes) : pystr := flat_map (fun c => [hex_lower (c / 16); hex_lower (c mod 16)]) b.

Definition read_source (user : list (pystr * (option pystr * option pystr))) (srcs : list (src_key * src_row))
    (table : mode_table) (key : src_key) (p : pystr) : res (pending * mode_table) :=
  let b := file_bytes p in
  info ← inspect p b;
  let '(cls, table) := classify user (snd key) table in
  captured ← match dget key srcs with Some prior => row_item "captured" prior | None => Ok (source_date p) end;
  let readable := wi_standard info && negb (wi_records info =? 0) in
  recs ← (if readable then iter_records b HEADER_LEN else Ok []);
  let recs := map (fun r : Z * Z * bytes => (fst (fst r), sha1_hex (snd r), snd r)) recs in
  let row := [(lit "id", []); (lit "sha256", fst key); (lit "cache", wi_cache info); (lit "filename", basename p);
              (lit "group", snd key); (lit "realm", mc_realm cls); (lit "mode", mc_mode cls); (lit "slug", mc_slug cls);
              (lit "mode_source", mc_source cls); (lit "records", str_of_Z (wi_records info));
              (lit "captured", captured); (lit "path", p); (lit "locale", clean_locale (JStr (wi_locale info)));
              (lit "build", str_of_Z (wi_build info));
              (lit "header_hex", if readable then hex_text (slice_to HEADER_LEN b) else []);
              (lit "parser_revision", PARSER_REVISION)] in
  Ok (Pending key row recs (foldl (fun fp r => dset (fst (fst r)) (snd (fst r)) fp) [] recs), table).

Fixpoint read_sources (user : list (pystr * (option pystr * option pystr))) (srcs : list (src_key * src_row))
    (table : mode_table) (keys : list (src_key * pystr)) : res (list pending) :=
  match keys with
  | [] => Ok []
  | (key, p) :: keys =>
      '(pd, table) ← read_source user srcs table key p;
      rest ← read_sources user srcs table keys;
      Ok (pd :: rest)
  end.

(** ** Which mode an unknown source is of *)

(** cache -> slug -> entry -> digests. *)
Abbreviation slug_profile := (list (Z * list pystr)) (only parsing).
Abbreviation profiles := (list (pystr * list (pystr * slug_profile))) (only parsing).

(** [prof[cache][slug][entry].add(sha1)]. *)
Definition prof_add (cache slug : pystr) (entry : Z) (sha1 : pystr) (prof : profiles) : profiles :=
  let by_slug := default [] (dget cache prof) in
  let by_entry := default [] (dget slug by_slug) in
  dset cache (dset slug (dset entry (set_add sha1 (default [] (dget entry by_entry))) by_entry) by_slug) prof.

Definition build_profiles (index : list (pystr * cache_index)) : profiles :=
  foldl (fun prof ci =>
    foldl (fun prof kr =>
      foldl (fun prof slug =>
        if decide (slug = UNKNOWN) then prof else prof_add (fst ci) slug (fst (fst kr)) (snd (fst kr)) prof)
        prof (ix_modes (snd kr))) prof (snd ci)) [] index.

(** The new sources whose mode is known are references too. *)
Definition add_references (prof : profiles) (pds : list pending) : profiles :=
  foldl (fun prof pd =>
    let slug := default [] (dget (lit "slug") (pd_row pd)) in
    let cache := default [] (dget (lit "cache") (pd_row pd)) in
    if decide (slug = UNKNOWN) then prof
    else foldl (fun prof es => prof_add cache slug (fst es) (snd es) prof) prof (pd_fp pd)) prof pds.

Record verdict := Verdict { v_slug : option pystr; v_agree : f64; v_shared : Z; v_margin : f64 }.

(** A scored mode: the share of agreeing entries, how many are shared, the slug. *)
Abbreviation score := (f64 * Z * pystr)%type (only parsing).

Definition shared_entries (fp : list (Z * pystr)) (prof : slug_profile) : list (Z * pystr * list pystr) :=
  omap (fun es => ds ← dget (fst es) prof; Some (es, ds)) fp.

Definition score_mode (fp : list (Z * pystr)) (sp : pystr * slug_profile) : option score :=
  let shared := shared_entries fp (snd sp) in
  if pylen shared <? INFER_MIN_SHARED then None
  else
    let agreeing := filter (fun x => snd (fst x) ∈ snd x) shared in
    Some (f64_div (f64_of_Z (pylen agreeing)) (f64_of_Z (pylen shared)), pylen shared, fst sp).

(** Tuples compare from the left. *)
Definition score_leb (a b : score) : bool :=
  let '(x, n, s) := a in let '(y, m, t) := b in
  if f64_ltb x y then true else if f64_ltb y x then false
  else if n <? m then true else if m <? n then false else str_leb s t.

Definition infer_mode (cache : pystr) (fp : list (Z * pystr)) (prof : profiles) : verdict :=
  let scored := omap (score_mode fp) (default [] (dget cache prof)) in
  match py_sort (fun a b => score_leb b a) scored with
  | [] => Verdict None (f64_of_Z 0) 0 (f64_of_Z 0)
  | (agree, shared, slug) :: rest =>
      match filter (fun x : score => snd x <> slug) rest with
      | [] => Verdict (Some slug) agree shared agree
      | (rival, _, _) :: _ =>
          let margin := f64_sub agree rival in
          if f64_ltb margin INFER_MIN_MARGIN then Verdict None agree shared margin
          else Verdict (Some slug) agree shared margin
      end
  end.

(** ["%.3f"] of a number. *)
Definition fmt_f3 (x : f64) : pystr :=
  let sgn (s : bool) := if s then [45] else [] in
  match x with
  | S754_nan => lit "nan"
  | S754_infinity s => sgn s ++ lit "inf"
  | S754_zero s => sgn s ++ lit "0.000"
  | S754_finite s m e =>
      let t := if 0 <=? e then Zpos m * 1000 * 2 ^ e else round_half_even (Zpos m * 1000) (2 ^ (- e)) in
      sgn s ++ str_of_Z (t / 1000) ++ [46] ++ drop 1 (str_of_Z (1000 + t mod 1000))
  end.

(** The verdicts of the groups: the file that discriminates best decides. *)
Definition infer_groups (prof : profiles) (pds : list pending) : list (pystr * verdict) :=
  foldl (fun inferred pd =>
    let field k := default [] (dget (lit k) (pd_row pd)) in
    if negb (bool_decide (field "slug"%string = UNKNOWN)) || bool_decide (pd_fp pd = []) then inferred
    else
      let v := infer_mode (field "cache"%string) (pd_fp pd) prof in
      match v_slug v with
      | Some (_ :: _) =>
          if f64_leb INFER_MIN_AGREE (v_agree v) then
            match dget (field "group"%string) inferred with
            | Some prev => if f64_ltb (v_margin prev) (v_margin v) then dset (field "group"%string) v inferred else inferred
            | None => dset (field "group"%string) v inferred
            end
          else inferred
      | _ => inferred
      end) [] pds.

Definition apply_verdict (inferred : list (pystr * verdict)) (pd : pending) : pending :=
  let field k := default [] (dget (lit k) (pd_row pd)) in
  if negb (bool_decide (field "slug"%string = UNKNOWN)) then pd
  else
    match dget (field "group"%string) inferred with
    | Some v =>
        let slug := default [] (v_slug v) in
        let how := lit "inferred:" ++ fmt_f3 (v_agree v) ++ [47] ++ str_of_Z (v_shared v) in
        Pending (pd_key pd)
          (dset (lit "mode_source") how (dset (lit "mode") slug (dset (lit "slug") slug (pd_row pd))))
          (pd_recs pd) (pd_fp pd)
    | None => pd
    end.

(** ** Merging the records *)

Record store := Store {
  st_srcs : list (src_key * src_row); st_index : list (pystr * cache_index); st_packs : list (pystr * bytes);
  st_next : Z }.

Definition min_str (a b : pystr) : pystr := if str_leb a b then a else b.
Definition max_str (a b : pystr) : pystr := if str_leb b a then a else b.

(** One record: appended to the pack when its payload is new, then credited to
    the source and its mode. *)
Definition merge_record (slug id captured : pystr) (acc : cache_index * bytes) (rec : Z * pystr * bytes)
  : res (cache_index * bytes) :=
  let '(idx, pack) := acc in let '(entry, s1, payload) := rec in
  '(r, pack) ←
    match dget (entry, s1) idx with
    | Some r => Ok (r, pack)
    | None =>
        e ← packI entry; n ← packI (pylen payload);
        Ok (IdxRow (pylen payload) (pylen pack) [] [] captured captured, pack ++ e ++ n ++ payload)
    end;
  Ok (dset (entry, s1)
        (IdxRow (ix_size r) (ix_offset r) (set_add slug (ix_modes r)) (set_add id (ix_srcs r))
           (min_str (ix_first r) captured) (max_str (ix_last r) captured)) idx, pack).

(** [all(row[field] == old[field] for field in fields)]. *)
Fixpoint same_fields (fields : list string) (row old : src_row) : res bool :=
  match fields with
  | [] => Ok true
  | k :: fields =>
      a ← row_item k row; b ← row_item k old;
      if bool_decide (a = b) then same_fields fields row old else Ok false
  end.

(** The row of a source, numbered: a source that is read again keeps its
    number, its curated mode, and may not lose records. *)
Definition number_row (srcs : list (src_key * src_row)) (next : Z) (pd : pending) : res (src_row * Z) :=
  let row := pd_row pd in
  match dget (pd_key pd) srcs with
  | Some old =>
      id ← row_item "id" old;
      let row := dset (lit "id") id row in
      same ← same_fields ["slug"; "mode"; "realm"]%string row old;
      row ← (if same : bool then how ← row_item "mode_source" old; Ok (dset (lit "mode_source") how row) else Ok row);
      now ← (x ← row_item "records" row; int_of_str x);
      before ← (x ← row_item "records" old; int_of_str x);
      if now <? before then Err RuntimeError else Ok (row, next)
  | None => Ok (dset (lit "id") (str_of_Z next) row, next + 1)
  end.

Definition merge_pending (st : store) (pd : pending) : res store :=
  '(row, next) ← number_row (st_srcs st) (st_next st) pd;
  let srcs := dset (pd_key pd) row (st_srcs st) in
  match pd_recs pd with
  | [] => Ok (Store srcs (st_index st) (st_packs st) next)
  | recs =>
      cache ← row_item "cache" row; slug ← row_item "slug" row; id ← row_item "id" row; captured ← row_item "captured" row;
      '(idx, pack) ← res_fold (merge_record slug id captured)
                       (default [] (dget cache (st_index st)), default [] (dget cache (st_packs st))) recs;
      Ok (Store srcs (dset cache idx (st_index st)) (dset cache pack (st_packs st)) next)
  end.

(** ** Dates *)

(** [{r["id"]: r for r in srcs.values()}], as the keys of the rows. *)
Definition rows_by_id (srcs : list (src_key * src_row)) : res (list (pystr * src_key)) :=
  res_fold (fun d kr => id ← row_item "id" (snd kr); Ok (dset id (fst kr) d)) [] srcs.

(** A date of a web upload is the date of its arrival, and is removed. *)
Definition repair_row (r : src_row) : res src_row :=
  path ← row_item "path" r;
  if is_web_source path then
    captured ← row_item "captured" r;
    Ok (match captured with [] => r | _ => dset (lit "captured") [] r end)
  else Ok r.

Definition repair_sources (srcs : list (src_key * src_row)) (keys : list src_key) : res (list (src_key * src_row)) :=
  res_fold (fun srcs k => r ← res_of_option KeyError (dget k srcs); r ← repair_row r; Ok (dset k r srcs)) srcs keys.

(** [by_id[sid]]. *)
Definition source_by_id (srcs : list (src_key * src_row)) (by_id : list (pystr * src_key)) (sid : pystr) : res src_row :=
  k ← res_of_option KeyError (dget sid by_id); res_of_option KeyError (dget k srcs).

(** The known dates among them. *)
Fixpoint dates_of (srcs : list (src_key * src_row)) (by_id : list (pystr * src_key)) (ids : list pystr) : res (list pystr) :=
  match ids with
  | [] => Ok []
  | sid :: ids =>
      r ← source_by_id srcs by_id sid;
      captured ← row_item "captured" r;
      rest ← dates_of srcs by_id ids;
      Ok (match captured with [] => rest | _ => captured :: rest end)
  end.

(** [min(dates, default="")], [max(dates, default="")]. *)
Definition min_date (dates : list pystr) : pystr := match dates with [] => [] | x :: l => foldl min_str x l end.
Definition max_date (dates : list pystr) : pystr := match dates with [] => [] | x :: l => foldl max_str x l end.

Definition redate (srcs : list (src_key * src_row)) (by_id : list (pystr * src_key)) (kr : rec_key * idx_row)
  : res (rec_key * idx_row) :=
  let r := snd kr in
  dates ← dates_of srcs by_id (ix_srcs r);
  Ok (fst kr, IdxRow (ix_size r) (ix_offset r) (ix_modes r) (ix_srcs r) (min_date dates) (max_date dates)).

Definition redate_index (srcs : list (src_key * src_row)) (by_id : list (pystr * src_key)) (ci : pystr * cache_index)
  : res (pystr * cache_index) :=
  idx ← res_map (redate srcs by_id) (snd ci); Ok (fst ci, idx).

Definition repair_dates (srcs : list (src_key * src_row)) (index : list (pystr * cache_index))
  : res (list (src_key * src_row) * list (pystr * cache_index)) :=
  by_id ← rows_by_id srcs;
  srcs ← repair_sources srcs (map snd by_id);
  index ← res_map (redate_index srcs by_id) index;
  Ok (srcs, index).

(** ** The tables *)

(** [sorted(ids, key=int)]. *)
Definition sort_by_int {A} (num : A -> res Z) (l : list A) : res (list A) :=
  tagged ← res_map (fun x => n ← num x; Ok (n, x)) l;
  Ok (map snd (py_sort (fun a b => fst a <=? fst b) tagged)).

(** [",".join(sorted({...}))]. *)
Definition comma_sorted (l : list pystr) : pystr :=
  join [44] (py_sort str_leb (foldl (fun s x => set_add x s) [] l)).

Definition rec_leb (a b : rec_key * idx_row) : bool :=
  let '(e, s) := fst a in let '(f, t) := fst b in
  if e <? f then true else if f <? e then false else str_leb s t.

(** A row of index.tsv; its modes are those of its sources now. *)
Definition index_line (srcs : list (src_key * src_row)) (by_id : list (pystr * src_key)) (kr : rec_key * idx_row)
  : res src_row :=
  let r := snd kr in
  ids ← sort_by_int int_of_str (ix_srcs r);
  locales ← res_map (fun sid => s ← source_by_id srcs by_id sid;
              Ok (match dget (lit "locale") s with Some ((_ :: _) as l) => l | _ => lit "unknown" end)) (ix_srcs r);
  slugs ← res_map (fun sid => s ← source_by_id srcs by_id sid; row_item "slug" s) (split_on 44 (join [44] ids));
  Ok [(lit "entry", str_of_Z (fst (fst kr))); (lit "sha1", snd (fst kr)); (lit "size", str_of_Z (ix_size r));
      (lit "offset", str_of_Z (ix_offset r)); (lit "modes", comma_sorted slugs); (lit "srcs", join [44] ids);
      (lit "first_captured", ix_first r); (lit "last_captured", ix_last r); (lit "locales", comma_sorted locales)].

Definition index_table (srcs : list (src_key * src_row)) (by_id : list (pystr * src_key)) (ci : pystr * cache_index)
  : res (list pystr * bytes) :=
  rows ← res_map (index_line srcs by_id) (py_sort rec_leb (snd ci));
  text ← write_tsv IDX_COLS rows;
  Ok ([fst ci; lit "index.tsv"], text).

Definition sources_table (srcs : list (src_key * src_row)) : res (list pystr * bytes) :=
  rows ← sort_by_int row_id (map snd srcs);
  text ← write_tsv SRC_COLS rows;
  Ok ([lit "sources.tsv"], text).

(** The generation that [merge_checkpoint.commit] installs. *)
Definition store_tables (srcs : list (src_key * src_row)) (index : list (pystr * cache_index))
  : res (list (list pystr * bytes)) :=
  by_id ← rows_by_id srcs;
  tables ← res_map (index_table srcs by_id) index;
  last ← sources_table srcs;
  Ok (tables ++ [last]).

(** ** A run *)

(** What the run is given: modes.json, the ledger, the files found, and the
    store (sources.tsv, the indexes in the order of their names, the packs). *)
Record merge_input := MergeInput {
  mi_user : list (pystr * (option pystr * option pystr)); mi_ledger : list (pystr * json);
  mi_disk : list (src_key * pystr);
  mi_sources : option bytes; mi_indexes : list (pystr * bytes); mi_packs : list (pystr * bytes) }.

(** The sources, with what the user and the disk say now, and the new files. *)
Definition collect (inp : merge_input) (srcs : list (src_key * src_row)) (index : list (pystr * cache_index))
  : res (list (src_key * src_row) * list pending) :=
  '(srcs, table) ← refresh_rows (mi_user inp) (mi_ledger inp) MODE_TABLE srcs;
  let keys := new_keys srcs (mi_disk inp) in
  let srcs := move_paths (mi_disk inp) srcs in
  let '(user, table) := seed_json (mi_user inp) (map (fun kp => snd (fst kp)) (mi_disk inp)) table in
  pds ← read_sources user srcs table keys;
  let inferred := infer_groups (add_references (build_profiles index) pds) pds in
  Ok (srcs, map (apply_verdict inferred) pds).

Definition main (inp : merge_input) : res (list (list pystr * bytes) * list (pystr * bytes)) :=
  srcs ← load_sources (mi_sources inp);
  index ← res_map (fun cf => idx ← load_index (snd cf); Ok (fst cf, idx)) (mi_indexes inp);
  next ← next_id srcs;
  '(srcs, pds) ← collect inp srcs index;
  st ← res_fold merge_pending (Store srcs index (mi_packs inp) next) pds;
  '(srcs, index) ← repair_dates (st_srcs st) (st_index st);
  tables ← store_tables srcs index;
  Ok (tables, st_packs st).
End Store.
