(* ===== verification/WdbStoreSpec.v ===== *)
(** * What the record store keeps

    A pack only grows, and the index finds every record in it; every record
    read is in the index, credited to its source; nothing else is. *)
From S2P Require Import Prelude Wire PyFloat Text Format Json Modes Tsv Wdb WdbStore.

Lemma pack_record e p b c : packI e = Ok b -> packI (pylen p) = Ok c -> b ++ c ++ p = wdb_record e p.
Proof. intros [_ ->]%pack_u_inv [_ ->]%pack_u_inv. done. Qed.

Section Spec.
Context `{Unicode} (sha1_hex : bytes -> pystr).

(** ** The pack *)

(** A record is where its row says. *)
Definition stored (pack : bytes) (k : Z * pystr) (r : idx_row) : Prop :=
  exists pre payload rest, pack = pre ++ wdb_record (fst k) payload ++ rest
    /\ ix_offset r = pylen pre /\ ix_size r = pylen payload /\ sha1_hex payload = snd k.

Definition pack_ok (idx : list ((Z * pystr) * idx_row)) (pack : bytes) : Prop :=
  dict_ok idx /\ forall k r, dget k idx = Some r -> stored pack k r.

Definition store_ok (index : list (pystr * list ((Z * pystr) * idx_row))) (packs : list (pystr * bytes)) : Prop :=
  forall cache, pack_ok (default [] (dget cache index)) (default [] (dget cache packs)).

(** What is appended later, by a run or by one that was interrupted, is no
    concern. *)
Lemma stored_app pack more k r : stored pack k r -> stored (pack ++ more) k r.
Proof.
  intros (pre & p & rest & -> & ? & ? & ?). exists pre, p, (rest ++ more). by rewrite <- !app_assoc.
Qed.

(** One index is another one with more in it. *)
Definition grows (idx idx' : list ((Z * pystr) * idx_row)) : Prop :=
  forall k r, dget k idx = Some r -> exists r', dget k idx' = Some r' /\ ix_size r' = ix_size r /\ ix_offset r' = ix_offset r
    /\ ix_srcs r ⊆ ix_srcs r' /\ ix_modes r ⊆ ix_modes r'.

Lemma grows_refl idx : grows idx idx.
Proof. intros k r E. by exists r. Qed.

Lemma grows_trans a b c : grows a b -> grows b c -> grows a c.
Proof.
  intros H1 H2 k r E. destruct (H1 k r E) as (r1 & E1 & ? & ? & ? & ?). destruct (H2 k r1 E1) as (r2 & E2 & ? & ? & ? & ?).
  exists r2. split_and!; [done|congruence|congruence|set_solver|set_solver].
Qed.

(** ** The records of one file *)

Section File.
Context (slug id captured : pystr).

Definition rec_key_of (rec : Z * pystr * bytes) : Z * pystr := fst rec.
Definition credited (idx : list ((Z * pystr) * idx_row)) (k : Z * pystr) : Prop :=
  exists r, dget k idx = Some r /\ id ∈ ix_srcs r /\ slug ∈ ix_modes r.

Lemma merge_record_spec idx pack rec idx' pack' :
  merge_record slug id captured (idx, pack) rec = Ok (idx', pack') ->
  (exists more, pack' = pack ++ more)
  /\ grows idx idx' /\ credited idx' (rec_key_of rec)
  /\ (forall k, k <> rec_key_of rec -> dget k idx' = dget k idx)
  /\ (forall r', dget (rec_key_of rec) idx' = Some r' -> forall x, x ∈ ix_srcs r' -> x = id
        \/ exists r, dget (rec_key_of rec) idx = Some r /\ x ∈ ix_srcs r)
  /\ (snd (fst rec) = sha1_hex (snd rec) -> pack_ok idx pack -> pack_ok idx' pack').
Proof.
  destruct rec as [[e s1] p]. unfold merge_record, rec_key_of. cbn [fst snd]. intros E. inv_bind E.
  destruct v as [r pk]. apply Ok_inj in E. injection E as <- <-.
  set (r' := IdxRow _ _ _ _ _ _).
  assert (exists more, pk = pack ++ more /\ (dget (e, s1) idx = Some r /\ more = []
    \/ dget (e, s1) idx = None /\ more = wdb_record e p /\ ix_srcs r = [] /\ ix_modes r = []
       /\ ix_size r = pylen p /\ ix_offset r = pylen pack)) as (more & -> & Hcase).
  { destruct (dget (e, s1) idx) as [r0|].
    - apply Ok_inj in E0. injection E0 as <- <-. exists []. rewrite app_nil_r. auto.
    - inv_bind E0. inv_bind E0. apply Ok_inj in E0. injection E0 as <- <-. eexists. split; [done|]. right.
      by rewrite (pack_record e p _ _ E E1). }
  split_and!.
  - by exists more.
  - intros k x Hx. destruct (decide (k = (e, s1))) as [->|Hne].
    + exists r'. rewrite dget_dset_eq. destruct Hcase as [[Hr ->]|[Hr _]]; [|congruence]. rewrite Hr in Hx. injection Hx as ->.
      unfold r'. cbn. split_and!; try done; intros y Hy; apply set_add_elem; by right.
    + exists x. by rewrite dget_dset_ne.
  - exists r'. rewrite dget_dset_eq. unfold r'. cbn. split_and!; [done|apply set_add_elem; by left..].
  - intros k Hk. by rewrite dget_dset_ne.
  - intros x Hx y Hy. rewrite dget_dset_eq in Hx. injection Hx as <-. unfold r' in Hy. cbn in Hy. apply set_add_elem in Hy as [->|Hy]; [by left|].
    right. exists r. destruct Hcase as [[Hr _]|(_ & _ & Hs & _)]; [done|]. rewrite Hs in Hy. by apply elem_of_nil in Hy.
  - intros Hsha [Hd Hok]. split; [by apply dict_ok_dset|]. intros k x Hx. rewrite dget_dset in Hx. case_decide as Hk.
    + injection Hx as <-. subst k. destruct Hcase as [[Hr ->]|(_ & -> & _ & _ & Hsz & Hoff)].
      * destruct (Hok _ _ Hr) as (pre & q & rest & -> & ? & ? & ?). exists pre, q, rest. by rewrite app_nil_r.
      * exists pack, p, []. rewrite app_nil_r. done.
    + apply stored_app. by apply Hok.
Qed.

(** The source of a record is one that had it. *)
Lemma merge_records_spec recs : forall idx pack idx' pack',
  res_fold (merge_record slug id captured) (idx, pack) recs = Ok (idx', pack') ->
  (exists more, pack' = pack ++ more)
  /\ grows idx idx' /\ Forall (fun rec => credited idx' (rec_key_of rec)) recs
  /\ (forall k r', dget k idx' = Some r' -> forall x, x ∈ ix_srcs r' ->
        (x = id /\ k ∈ map rec_key_of recs) \/ exists r, dget k idx = Some r /\ x ∈ ix_srcs r)
  /\ (forall k, dget k idx = None -> k ∉ map rec_key_of recs -> dget k idx' = None)
  /\ (Forall (fun rec => snd (fst rec) = sha1_hex (snd rec)) recs -> pack_ok idx pack -> pack_ok idx' pack').
Proof.
  induction recs as [|rec recs IH]; intros idx pack idx' pack' E; cbn [res_fold] in E.
  { apply Ok_inj in E. injection E as <- <-. split_and!; auto using grows_refl.
    - exists []. by rewrite app_nil_r.
    - intros k r' Hr x Hx. right. by exists r'. }
  inv_bind E. destruct v as [idx1 pack1]. destruct (merge_record_spec _ _ _ _ _ E0) as ([m1 ->] & G1 & C1 & O1 & S1 & P1).
  destruct (IH _ _ _ _ E) as ([m2 ->] & G2 & C2 & S2 & N2 & P2). split_and!.
  - exists (m1 ++ m2). by rewrite app_assoc.
  - by eapply grows_trans.
  - constructor; [|done]. destruct C1 as (r & Hr & Hi & Hs). destruct (G2 _ _ Hr) as (r2 & Hr2 & _ & _ & Hs2 & Hm2).
    exists r2. split_and!; [done|by apply Hs2|by apply Hm2].
  - intros k r' Hr x Hx. cbn [map]. destruct (S2 k r' Hr x Hx) as [[-> Hk]|(r & Hr1 & Hx1)]; [left; split; [done|by right]|].
    destruct (decide (k = rec_key_of rec)) as [->|Hne].
    + destruct (S1 _ Hr1 _ Hx1) as [->|?]; [left; split; [done|left]|by right].
    + right. exists r. by rewrite O1 in Hr1.
  - intros k Hk Hn. cbn [map] in Hn. apply not_elem_of_cons in Hn as [Hne Hn]. apply N2; [|done]. by rewrite O1.
  - intros Hsha Hok. inversion_clear Hsha. auto.
Qed.
End File.

(** ** The sources of a run *)

(** What a merge step does to the tables of one cache. *)
Definition cache_of (pd : pending) : pystr := default [] (dget (lit "cache") (pd_row pd)).
Definition has_record (pd : pending) (cache : pystr) (k : Z * pystr) : Prop :=
  cache_of pd = cache /\ k ∈ map rec_key_of (pd_recs pd).

Definition index_at (st : store) (cache : pystr) := default [] (dget cache (st_index st)).
Definition pack_at (st : store) (cache : pystr) : bytes := default [] (dget cache (st_packs st)).

(** The records of a source are in the index, under its number and slug. *)
Definition source_credited (st : store) (pd : pending) : Prop :=
  exists row id slug, dget (pd_key pd) (st_srcs st) = Some row /\ dget (lit "id") row = Some id
    /\ dget (lit "slug") row = Some slug
    /\ Forall (fun rec => credited slug id (index_at st (cache_of pd)) (rec_key_of rec)) (pd_recs pd).

Lemma row_item_inv k r v : row_item k r = Ok v -> dget (lit k) r = Some v.
Proof. unfold row_item. destruct (dget _ r); [|done]. by intros [= ->]. Qed.

(** The number and perhaps the way the mode was found are all that changes. *)
Lemma number_row_shape srcs next pd row next' :
  number_row srcs next pd = Ok (row, next') ->
  exists id, dget (lit "id") row = Some id
  /\ forall k, k <> lit "id" -> k <> lit "mode_source" -> dget k row = dget k (pd_row pd).
Proof.
  unfold number_row. intros E. destruct (dget (pd_key pd) srcs) as [old|].
  - inv_bind E. inv_bind E. exists v. destruct v0.
    + destruct (row_item "mode_source" old) as [how|]; [|done]. cbn [mbind res_bind] in E.
      inv_binds E. destruct (_ <? _); [done|]. apply Ok_inj in E. injection E as <- <-.
      split; [by rewrite dget_dset_ne, dget_dset_eq|]. intros k Hi Hm. by rewrite !dget_dset_ne.
    + cbn [mbind res_bind] in E. inv_binds E. destruct (_ <? _); [done|]. apply Ok_inj in E. injection E as <- <-.
      split; [apply dget_dset_eq|]. intros k Hi Hm. by rewrite dget_dset_ne.
  - apply Ok_inj in E. injection E as <- <-. eexists. split; [apply dget_dset_eq|]. intros k Hi Hm. by rewrite dget_dset_ne.
Qed.

(** A source whose digests are those of its payloads. *)
Definition pending_ok (pd : pending) : Prop :=
  Forall (fun rec => snd (fst rec) = sha1_hex (snd rec)) (pd_recs pd)
  /\ is_Some (dget (lit "slug") (pd_row pd)).

Record step_spec (st : store) (pds : list pending) (st' : store) : Prop := StepSpec {
  ss_pack cache : exists more, pack_at st' cache = pack_at st cache ++ more;
  ss_grows cache : grows (index_at st cache) (index_at st' cache);
  ss_trace cache k r x : dget k (index_at st' cache) = Some r -> x ∈ ix_srcs r ->
    (exists pd, pd ∈ pds /\ has_record pd cache k) \/ exists r0, dget k (index_at st cache) = Some r0 /\ x ∈ ix_srcs r0;
  ss_none cache k : dget k (index_at st cache) = None -> (forall pd, pd ∈ pds -> ~ has_record pd cache k) ->
    dget k (index_at st' cache) = None;
  ss_others k : k ∉ map pd_key pds -> dget k (st_srcs st') = dget k (st_srcs st);
  ss_ok : store_ok (st_index st) (st_packs st) -> store_ok (st_index st') (st_packs st') }.

Lemma at_dset {A} (k k' : pystr) (v : list A) d : default [] (dget k (dset k' v d)) = if decide (k = k') then v else default [] (dget k d).
Proof. rewrite dget_dset. by case_decide. Qed.

Lemma merge_pending_spec st pd st' :
  pending_ok pd -> merge_pending st pd = Ok st' -> step_spec st [pd] st' /\ source_credited st' pd.
Proof.
  intros [Hsha [slug Hslug]] E. unfold merge_pending in E. inv_bind E. destruct v as [row next].
  destruct (number_row_shape _ _ _ _ _ E0) as (id & Hid & Hrow).
  assert (forall k, k ∉ map pd_key [pd] -> dget k (dset (pd_key pd) row (st_srcs st)) = dget k (st_srcs st)) as Hoth.
  { intros k Hk. rewrite dget_dset_ne; [done|]. set_solver. }
  destruct (pd_recs pd) as [|rec recs] eqn:Er.
  - apply Ok_inj in E. subst st'. split.
    + split; intros *; unfold pack_at, index_at; cbn; auto using grows_refl.
      * exists []. by rewrite app_nil_r.
      * intros Hr Hx. right. by exists r.
    + exists row, id, slug. cbn [st_srcs]. rewrite dget_dset_eq, Er, (Hrow (lit "slug")) by done. split_and!; auto.
  - rewrite <- Er in *. inv_bind E. inv_bind E. inv_bind E. inv_bind E. inv_bind E. destruct v3 as [idx pack].
    apply Ok_inj in E. subst st'. apply row_item_inv in E1, E2, E3. rewrite Hrow in E1, E2 by done.
    assert (v = cache_of pd) as -> by (unfold cache_of; by rewrite E1).
    rewrite Hslug in E2. injection E2 as ->. rewrite Hid in E3. injection E3 as ->.
    destruct (merge_records_spec _ _ _ _ _ _ _ _ E5) as (Hp & Hg & Hc & Ht & Hn & Hok).
    split.
    + split; unfold pack_at, index_at; cbn; intros *; rewrite ?at_dset.
      * case_decide; [subst; done | exists []; by rewrite app_nil_r].
      * case_decide; [subst; done | apply grows_refl].
      * case_decide; [subst cache|intros; right; by exists r]. intros Hr Hx. destruct (Ht k r Hr x Hx) as [[-> Hk]|?]; [|by right].
        left. exists pd. split; [left|by split].
      * case_decide; [subst cache|done]. intros Hk Hno. apply Hn; [done|]. intros Hin. apply (Hno pd); [left|by split].
      * apply Hoth.
      * intros Hst cache. rewrite !at_dset. case_decide; [subst cache|apply Hst]. apply Hok; [done|apply Hst].
    + eexists row, _, _. unfold index_at. cbn [st_srcs st_index]. rewrite dget_dset_eq, at_dset, decide_True, (Hrow (lit "slug")) by done. eauto.
Qed.

Lemma step_spec_app st1 a st2 b st3 : step_spec st1 a st2 -> step_spec st2 b st3 -> step_spec st1 (a ++ b) st3.
Proof.
  intros A B. split.
  - intros cache. destruct (ss_pack _ _ _ B cache) as [m2 ->], (ss_pack _ _ _ A cache) as [m1 ->].
    exists (m1 ++ m2). by rewrite app_assoc.
  - intros cache. eapply grows_trans; [apply A | apply B].
  - intros cache k r x Hr Hx. destruct (ss_trace _ _ _ B _ _ _ _ Hr Hx) as [(pd & ? & ?)|(r0 & Hr0 & Hx0)].
    + left. exists pd. split; [set_solver|done].
    + destruct (ss_trace _ _ _ A _ _ _ _ Hr0 Hx0) as [(pd & ? & ?)|?]; [|by right]. left. exists pd. split; [set_solver|done].
  - intros cache k Hk Hno. apply (ss_none _ _ _ B); [apply (ss_none _ _ _ A); [done|]|]; intros pd Hpd; apply Hno; set_solver.
  - intros k Hk. rewrite map_app in Hk. rewrite (ss_others _ _ _ B), (ss_others _ _ _ A); [done|set_solver..].
  - intros Hok. by apply (ss_ok _ _ _ B), (ss_ok _ _ _ A).
Qed.

(** Later sources leave what a source brought. *)
Lemma source_credited_keep st pds st' pd :
  step_spec st pds st' -> pd_key pd ∉ map pd_key pds -> source_credited st pd -> source_credited st' pd.
Proof.
  intros S Hk (row & id & slug & Hr & Hid & Hs & Hc). exists row, id, slug. rewrite (ss_others _ _ _ S) by done.
  split_and!; [done..|]. eapply Forall_impl; [exact Hc|]. intros rec (r & Hg & Hi & Hm).
  destruct (ss_grows _ _ _ S _ _ _ Hg) as (r' & Hg' & _ & _ & Hi' & Hm'). exists r'. auto.
Qed.

Lemma merge_all_spec pds : forall st st', Forall pending_ok pds -> NoDup (map pd_key pds) ->
  res_fold merge_pending st pds = Ok st' -> step_spec st pds st' /\ Forall (source_credited st') pds.
Proof.
  induction pds as [|pd pds IH]; intros st st' Hok Hn E; cbn [res_fold] in E.
  { apply Ok_inj in E. subst st'. split; [|done]. split; intros *; auto using grows_refl.
    - exists []. by rewrite app_nil_r.
    - intros Hr Hx. right. by exists r. }
  inversion_clear Hok as [|? ? Hpd Hok']. cbn [map] in Hn. apply NoDup_cons in Hn as [Hk Hn]. inv_bind E.
  destruct (merge_pending_spec _ _ _ Hpd E0) as [S1 C1]. destruct (IH _ _ Hok' Hn E) as [S2 C2].
  split; [exact (step_spec_app _ [pd] _ _ _ S1 S2)|]. constructor; [|done]. by eapply source_credited_keep.
Qed.

(** ** What is read *)

Context (py_repr : json -> pystr) (file_bytes : pystr -> bytes) (file_date : pystr -> pystr).

(** The cache a file belongs to, if it is of a known kind, and its records. *)
Definition file_records (p : pystr) : res (list (Z * Z * bytes)) :=
  if known_magic (file_bytes p) then iter_records (file_bytes p) HEADER_LEN else Ok [].

(** A source that holds what is in its file. *)
Definition read_from (p : pystr) (pd : pending) : Prop :=
  exists recs, file_records p = Ok recs
  /\ pd_recs pd = map (fun r : Z * Z * bytes => (fst (fst r), sha1_hex (snd r), snd r)) recs
  /\ (recs <> [] -> exists label, known_magic (file_bytes p) = Some (cache_of pd, label))
  /\ dget (lit "parser_revision") (pd_row pd) = Some PARSER_REVISION
  /\ dget (lit "sha256") (pd_row pd) = Some (fst (pd_key pd)) /\ dget (lit "group") (pd_row pd) = Some (snd (pd_key pd)).

Lemma read_source_spec user srcs table key p pd table' :
  read_source sha1_hex file_bytes file_date user srcs table key p = Ok (pd, table') ->
  pd_key pd = key /\ pending_ok pd /\ read_from p pd.
Proof.
  unfold read_source. intros E. inv_bind E. destruct (classify user (snd key) table) as [cls t1]. inv_bind E.
  destruct (inspect_reads _ _ _ E0) as [Hr Hc]. rewrite Hr in E. inv_bind E. apply Ok_inj in E. injection E as <- <-.
  split; [done|]. split.
  - split; [|by eexists]. cbn [pd_recs]. apply Forall_map, Forall_true. done.
  - exists v1. split; [exact E2|]. split; [done|]. split; [|done]. intros Hne. unfold cache_of. cbn [pd_row].
    change (default [] _) with (wi_cache v). destruct (wi_standard v) eqn:Es; [by apply Hc|].
    cbn [andb] in Hr. congruence.
Qed.

Lemma read_sources_spec user srcs keys : forall table pds,
  read_sources sha1_hex file_bytes file_date user srcs table keys = Ok pds ->
  map pd_key pds = map fst keys /\ Forall pending_ok pds
  /\ Forall (fun kp => exists pd, pd ∈ pds /\ pd_key pd = fst kp /\ read_from (snd kp) pd) keys
  /\ Forall (fun pd => exists p, (pd_key pd, p) ∈ keys /\ read_from p pd) pds.
Proof.
  induction keys as [|[key p] keys IH]; intros table pds E; cbn [read_sources] in E.
  { apply Ok_inj in E. by subst pds. }
  inv_bind E. destruct v as [pd t1]. inv_bind E. apply Ok_inj in E. subst pds.
  destruct (read_source_spec _ _ _ _ _ _ _ E0) as (Hk & Ho & Hr). destruct (IH _ _ E1) as (Hks & Hos & Hrs & Hps).
  cbn [map fst]. split; [by rewrite Hk, Hks|]. split; [by constructor|]. split; constructor.
  - exists pd. split; [left|done].
  - eapply Forall_impl; [exact Hrs|]. intros kp (x & ? & ?). exists x. split; [by right|done].
  - exists p. rewrite Hk. split; [left|done].
  - eapply Forall_impl; [exact Hps|]. intros x (q & ? & ?). exists q. split; [by right|done].
Qed.

(** A verdict changes the mode, the slug and how they were found. *)
Lemma apply_verdict_row inferred pd k : k <> lit "slug" -> k <> lit "mode" -> k <> lit "mode_source" ->
  dget k (pd_row (apply_verdict inferred pd)) = dget k (pd_row pd).
Proof.
  intros. unfold apply_verdict. destruct (negb _); [done|]. destruct (dget _ inferred); [|done]. cbn [pd_row].
  by rewrite !dget_dset_ne.
Qed.

Lemma apply_verdict_same inferred pd :
  pd_key (apply_verdict inferred pd) = pd_key pd /\ pd_recs (apply_verdict inferred pd) = pd_recs pd.
Proof. unfold apply_verdict. destruct (negb _); [done|]. by destruct (dget _ inferred). Qed.

Lemma apply_verdict_ok inferred pd : pending_ok pd -> pending_ok (apply_verdict inferred pd).
Proof.
  intros [Hs Hg]. unfold pending_ok. rewrite (proj2 (apply_verdict_same inferred pd)). split; [done|].
  unfold apply_verdict. destruct (negb _); [done|]. destruct (dget _ inferred); [|done]. cbn [pd_row].
  rewrite !dget_dset_ne, dget_dset_eq by done. by eexists.
Qed.

Lemma apply_verdict_from inferred p pd : read_from p pd -> read_from p (apply_verdict inferred pd).
Proof.
  intros (recs & Hf & Hr & Hc & Hp & Hs & Hg). exists recs. destruct (apply_verdict_same inferred pd) as [-> ->].
  unfold cache_of in *. rewrite !apply_verdict_row by done. by split_and!.
Qed.

(** ** What refreshing leaves alone *)

Definition curated : list pystr := [lit "locale"; lit "build"; lit "mode"; lit "realm"; lit "slug"; lit "mode_source"; lit "path"].
Definition row_kept (r r' : list (pystr * pystr)) : Prop := forall k, k ∉ curated -> dget k r' = dget k r.

Lemma refresh_row_kept user ledger table r r' table' :
  refresh_row py_repr user ledger table r = Ok (r', table') -> row_kept r r'.
Proof.
  unfold refresh_row. intros E k Hk. unfold curated in Hk. inv_bind E. inv_bind E. inv_bind E. inv_bind E.
  destruct (classify _ _ _) as [cls t1]. apply Ok_inj in E. injection E as <- <-. rewrite !not_elem_of_cons in Hk.
  destruct Hk as (?&?&?&?&?&?&?&?). case_bool_decide; by rewrite !dget_dset_ne.
Qed.

Definition rows_kept (a b : list ((pystr * pystr) * list (pystr * pystr))) : Prop :=
  Forall2 (fun x y => fst x = fst y /\ row_kept (snd x) (snd y)) a b.

Lemma refresh_rows_kept user ledger srcs : forall table srcs' table',
  refresh_rows py_repr user ledger table srcs = Ok (srcs', table') -> rows_kept srcs srcs'.
Proof.
  induction srcs as [|[k r] srcs IH]; intros table srcs' table' E; cbn [refresh_rows] in E.
  { apply Ok_inj in E. injection E as <- <-. constructor. }
  inv_bind E. destruct v as [r1 t1]. inv_bind E. destruct v as [s1 t2]. apply Ok_inj in E. injection E as <- <-.
  constructor; [split; [done|by eapply refresh_row_kept]|by eapply IH].
Qed.

Lemma rows_kept_dget a b k : rows_kept a b ->
  match dget k a with Some r => exists r', dget k b = Some r' /\ row_kept r r' | None => dget k b = None end.
Proof.
  induction 1 as [|[k1 r1] [k2 r2] a b [Hk Hr] _ IH]; [done|]. cbn [fst snd] in *. subst k2. cbn [dget].
  case_decide; [by exists r2 | exact IH].
Qed.

Lemma rows_kept_new a b k : rows_kept a b -> is_new b k = is_new a k.
Proof.
  intros Hab. pose proof (rows_kept_dget a b k Hab) as Hk. unfold is_new. destruct (dget k a) as [r|].
  - destruct Hk as (r' & -> & Hr). by rewrite Hr by (unfold curated; by_decide).
  - by rewrite Hk.
Qed.

Lemma move_paths_kept disk srcs : rows_kept srcs (move_paths disk srcs).
Proof.
  unfold move_paths. induction srcs as [|[k r] srcs IH]; [constructor|]. cbn [map fst snd]. constructor; [|exact IH].
  destruct (dget k disk) as [p|]; cbn [fst snd]; (split; [done|]); intros x Hx; [|done].
  unfold curated in Hx. rewrite !not_elem_of_cons in Hx. destruct Hx as (?&?&?&?&?&?&?&?). by rewrite dget_dset_ne.
Qed.

Lemma rows_kept_trans a b c : rows_kept a b -> rows_kept b c -> rows_kept a c.
Proof.
  intros Hab. revert c. induction Hab as [|x y a b [E1 R1] _ IH]; intros c Hbc; inversion Hbc as [|? z ? c' [E2 R2] Hbc']; subst; constructor.
  - split; [congruence|]. intros k Hk. by rewrite R2, R1.
  - by apply IH.
Qed.

(** ** A run *)

Lemma sorted_keys srcs disk : dict_ok disk -> NoDup (map fst (new_keys srcs disk)).
Proof.
  intros Hd. unfold new_keys. rewrite (Permutation_map fst (py_sort_perm _ _)). unfold dict_ok, dkeys in Hd.
  eapply sublist_NoDup; [exact Hd|]. apply (fmap_sublist fst), sublist_filter.
Qed.

Lemma collect_spec inp srcs index srcs1 pds :
  collect py_repr sha1_hex file_bytes file_date inp srcs index = Ok (srcs1, pds) -> dict_ok (mi_disk inp) ->
  rows_kept srcs srcs1 /\ Forall pending_ok pds /\ NoDup (map pd_key pds)
  /\ (forall k p, (k, p) ∈ mi_disk inp -> is_new srcs k = true -> exists pd, pd ∈ pds /\ pd_key pd = k /\ read_from p pd)
  /\ Forall (fun pd => exists p, (pd_key pd, p) ∈ mi_disk inp /\ is_new srcs (pd_key pd) = true /\ read_from p pd) pds.
Proof.
  unfold collect. intros E Hd. inv_bind E. destruct v as [s1 t1].
  destruct (seed_json _ _ _) as [user t2]. inv_bind E. apply Ok_inj in E. injection E as <- <-.
  set (inferred := infer_groups _ _) in *. pose proof (refresh_rows_kept _ _ _ _ _ _ E0) as Hk.
  destruct (read_sources_spec _ _ _ _ _ E1) as (Hkeys & Hok & Hall & Hfrom).
  assert (map pd_key (map (apply_verdict inferred) v) = map pd_key v) as Hsame.
  { rewrite map_map. apply map_ext. intros pd. apply apply_verdict_same. }
  split; [eapply rows_kept_trans; [exact Hk|apply move_paths_kept]|]. split.
  { apply Forall_map. eapply Forall_impl; [exact Hok|]. intros pd. apply apply_verdict_ok. }
  rewrite Hsame, Hkeys. split; [by apply sorted_keys|].
  assert (forall kp, kp ∈ new_keys s1 (mi_disk inp) <-> is_new srcs (fst kp) = true /\ kp ∈ mi_disk inp) as Hin.
  { intros kp. unfold new_keys. rewrite py_sort_elem, list_elem_of_filter. by rewrite (rows_kept_new _ _ (fst kp) Hk). }
  split.
  - intros k p Hkp Hnew. rewrite Forall_forall in Hall. destruct (Hall (k, p)) as (pd & Hpd & Hpk & Hr); [by apply Hin|].
    exists (apply_verdict inferred pd). split; [by apply list_elem_of_fmap_2|]. split.
    + by rewrite (proj1 (apply_verdict_same inferred pd)).
    + by apply apply_verdict_from.
  - apply Forall_map. eapply Forall_impl; [exact Hfrom|]. intros pd (p & Hp & Hr). apply Hin in Hp as [Hnew Hp].
    exists p. rewrite (proj1 (apply_verdict_same inferred pd)). split_and!; [done..|]. by apply apply_verdict_from.
Qed.

Definition digest_key (r : Z * Z * bytes) : Z * pystr := (fst (fst r), sha1_hex (snd r)).

Lemma read_keys pd recs : pd_recs pd = map (fun r : Z * Z * bytes => (fst (fst r), sha1_hex (snd r), snd r)) recs ->
  map rec_key_of (pd_recs pd) = map digest_key recs.
Proof. intros ->. by rewrite map_map. Qed.

(** C10: A merge loses nothing and invents nothing.  In a store whose index
    finds its records, after the new files are merged: every record of the
    index still is where it was, with the sources and modes it had; packs are
    only appended to; the index finds every record in its pack, with the
    payload its digest names; every record of every new file is in the index
    of its cache, credited to that source's number and mode; and a source that
    a record is newly credited to has a file with that record. *)
Theorem records_kept inp srcs index next srcs1 pds st :
  dict_ok (mi_disk inp) -> store_ok index (mi_packs inp) ->
  collect py_repr sha1_hex file_bytes file_date inp srcs index = Ok (srcs1, pds) ->
  res_fold merge_pending (Store srcs1 index (mi_packs inp) next) pds = Ok st ->
  store_ok (st_index st) (st_packs st)
  /\ (forall cache, grows (default [] (dget cache index)) (index_at st cache)
        /\ exists more, pack_at st cache = default [] (dget cache (mi_packs inp)) ++ more)
  /\ (forall k p, (k, p) ∈ mi_disk inp -> is_new srcs k = true ->
        exists row id slug recs, dget k (st_srcs st) = Some row /\ dget (lit "id") row = Some id
        /\ dget (lit "slug") row = Some slug /\ file_records p = Ok recs
        /\ (recs <> [] -> exists cache label, known_magic (file_bytes p) = Some (cache, label)
             /\ Forall (fun r => credited slug id (index_at st cache) (digest_key r)) recs))
  /\ (forall cache k r x, dget k (index_at st cache) = Some r -> x ∈ ix_srcs r ->
        (exists r0, dget k (default [] (dget cache index)) = Some r0 /\ x ∈ ix_srcs r0)
        \/ exists key p recs, (key, p) ∈ mi_disk inp /\ is_new srcs key = true /\ file_records p = Ok recs
             /\ k ∈ map digest_key recs).
Proof.
  intros Hd Hst Ec Em. destruct (collect_spec _ _ _ _ _ Ec Hd) as (_ & Hok & Hn & Hall & Hfrom).
  destruct (merge_all_spec _ _ _ Hok Hn Em) as [S C]. split; [by apply (ss_ok _ _ _ S)|].
  split; [intros cache; split; [apply (ss_grows _ _ _ S)|apply (ss_pack _ _ _ S)]|]. split.
  - intros k p Hkp Hnew. destruct (Hall k p Hkp Hnew) as (pd & Hpd & <- & recs & Hf & Hr & Hc & _).
    rewrite Forall_forall in C. destruct (C pd Hpd) as (row & id & slug & Hrow & Hid & Hs & Hcr).
    exists row, id, slug, recs. split_and!; [done..|]. intros Hne. destruct (Hc Hne) as [label Hl]. exists (cache_of pd), label.
    split; [done|]. apply (proj2 (Forall_map rec_key_of _ _)) in Hcr. rewrite (read_keys pd recs Hr) in Hcr.
    exact (proj1 (Forall_map digest_key _ _) Hcr).
  - intros cache k r x Hr Hx. destruct (ss_trace _ _ _ S _ _ _ _ Hr Hx) as [(pd & Hpd & _ & Hk)|?]; [right|by left].
    rewrite Forall_forall in Hfrom. destruct (Hfrom pd Hpd) as (p & Hp & Hnew & recs & Hf & Hrs & _).
    exists (pd_key pd), p, recs. split_and!; [done..|]. by rewrite <- (read_keys pd).
Qed.

(** ** Running again *)

(** Every row is under its own hash and group. *)
Definition row_keyed (kr : (pystr * pystr) * list (pystr * pystr)) : Prop :=
  dget (lit "sha256") (snd kr) = Some (fst (fst kr)) /\ dget (lit "group") (snd kr) = Some (snd (fst kr)).
Definition srcs_keyed (srcs : list ((pystr * pystr) * list (pystr * pystr))) : Prop := dict_ok srcs /\ Forall row_keyed srcs.

Lemma srcs_keyed_dset k r srcs : srcs_keyed srcs -> row_keyed (k, r) -> srcs_keyed (dset k r srcs).
Proof. intros [Hd Hk] Hr. split; [by apply dict_ok_dset|]. by apply Forall_dset. Qed.

Lemma load_sources_keyed file srcs : load_sources file = Ok srcs -> srcs_keyed srcs.
Proof.
  unfold load_sources. intros E. inv_bind E. revert E. apply res_fold_keeps; [|split; [apply dict_ok_nil | constructor]].
  intros x y r _ Hx Ey. inv_bind Ey. inv_bind Ey. apply Ok_inj in Ey. subst y. apply row_item_inv in E, E1.
  apply srcs_keyed_dset; [done|]. by split.
Qed.

Lemma rows_kept_keyed a b : rows_kept a b -> srcs_keyed a -> srcs_keyed b.
Proof.
  intros Hab [Hd Hk]. assert (dkeys b = dkeys a) as Hkeys.
  { clear -Hab. induction Hab as [|x y a b [Ek _] _ IH]; [done|]. unfold dkeys in *. cbn [map]. by rewrite IH, Ek. }
  split; [unfold dict_ok; by rewrite Hkeys|]. clear Hd Hkeys.
  induction Hab as [|[k r] [k' r'] a b [Ek Hr] _ IH]; inversion_clear Hk as [|? ? [Hs Hg] Hk']; constructor; auto.
  cbn [fst snd] in *. subst k'. unfold row_keyed. cbn [fst snd]. by rewrite !Hr by (unfold curated; by_decide).
Qed.

(** Once merged, a source is not new. *)
Definition settled (srcs : list ((pystr * pystr) * list (pystr * pystr))) (k : pystr * pystr) : Prop := is_new srcs k = false.

Lemma merge_pending_srcs st pd st' p : merge_pending st pd = Ok st' -> read_from p pd -> srcs_keyed (st_srcs st) ->
  srcs_keyed (st_srcs st') /\ settled (st_srcs st') (pd_key pd)
  /\ forall k, settled (st_srcs st) k -> settled (st_srcs st') k.
Proof.
  intros E (recs & _ & _ & _ & Hp & Hs & Hg) Hk. unfold merge_pending in E. inv_bind E. destruct v as [row next].
  destruct (number_row_shape _ _ _ _ _ E0) as (id & _ & Hrow).
  assert (st_srcs st' = dset (pd_key pd) row (st_srcs st)) as ->.
  { destruct (pd_recs pd); [by apply Ok_inj in E; subst st'|]. inv_binds E. destruct v3. apply Ok_inj in E. by subst st'. }
  assert (dget (lit "parser_revision") row = Some PARSER_REVISION) as Hrev by (by rewrite Hrow).
  split; [apply srcs_keyed_dset; [done|]; unfold row_keyed; cbn [fst snd]; by rewrite !Hrow|].
  unfold settled, is_new. split; [by rewrite dget_dset_eq, Hrev, bool_decide_eq_true_2|].
  intros k. rewrite dget_dset. case_decide; [by rewrite Hrev, bool_decide_eq_true_2|done].
Qed.

Lemma merge_all_srcs pds : forall st st', Forall (fun pd => exists p, read_from p pd) pds -> srcs_keyed (st_srcs st) ->
  res_fold merge_pending st pds = Ok st' ->
  srcs_keyed (st_srcs st') /\ Forall (fun pd => settled (st_srcs st') (pd_key pd)) pds
  /\ forall k, settled (st_srcs st) k -> settled (st_srcs st') k.
Proof.
  induction pds as [|pd pds IH]; intros st st' Hr Hk E; cbn [res_fold] in E; [apply Ok_inj in E; by subst st'|].
  inversion_clear Hr as [|? ? [p Hp] Hr']. inv_bind E. destruct (merge_pending_srcs _ _ _ _ E0 Hp Hk) as (K1 & S1 & M1).
  destruct (IH _ _ Hr' K1 E) as (K2 & S2 & M2). split; [done|]. split; [constructor; auto|auto].
Qed.

(** Repairing changes dates alone. *)
Lemma repair_row_kept r r' k : repair_row r = Ok r' -> k <> lit "captured" -> dget k r' = dget k r.
Proof.
  unfold repair_row. intros E Hk. inv_bind E. destruct (is_web_source v); [|apply Ok_inj in E; by subst].
  inv_bind E. apply Ok_inj in E. subst r'. destruct v0; [done|]. by rewrite dget_dset_ne.
Qed.

Lemma repair_sources_spec keys srcs srcs' : repair_sources srcs keys = Ok srcs' -> srcs_keyed srcs ->
  srcs_keyed srcs' /\ forall k, settled srcs k -> settled srcs' k.
Proof.
  intros E Hk. revert E. unfold repair_sources. apply (res_fold_keeps (fun s => srcs_keyed s /\ forall k, settled srcs k -> settled s k));
    [|by split].
  intros s s' key _ [Hs Hm] E. inv_bind E. inv_bind E. apply Ok_inj in E. subst s'.
  destruct (dget key s) as [r|] eqn:Er; [|done]. apply Ok_inj in E0. subst v.
  pose proof (dget_elem_of _ _ _ Er) as Hin. destruct Hs as [Hd Hf]. rewrite Forall_forall in Hf.
  destruct (Hf _ Hin) as [Hsha Hgrp]. cbn [fst snd] in *. split.
  - apply srcs_keyed_dset; [split; [done|by apply Forall_forall]|]. unfold row_keyed. cbn [fst snd].
    by rewrite !(repair_row_kept r v0) by done.
  - intros k Hsk. specialize (Hm k Hsk). unfold settled, is_new in *. rewrite dget_dset. case_decide; [subst k|done].
    rewrite Er in Hm. by rewrite (repair_row_kept r v0).
Qed.

(** ** The table of sources *)

Lemma sort_by_int_perm {A} (num : A -> res Z) l k : sort_by_int num l = Ok k -> k ≡ₚ l /\ Forall (fun x => is_ok (num x) = true) l.
Proof.
  unfold sort_by_int. intros E. inv_bind E. apply Ok_inj in E. subst k.
  assert (map snd v = l /\ Forall (fun x => is_ok (num x) = true) l) as [<- Hok].
  { revert v E0. induction l as [|x l IH]; intros v E; cbn [res_map] in E; [apply Ok_inj in E; by subst|].
    inv_bind E. inv_bind E. apply Ok_inj in E. subst v. inv_bind E0. apply Ok_inj in E0. subst v0.
    destruct (IH _ eq_refl) as [<- ?]. split; [done|]. constructor; [by rewrite E|done]. }
  split; [|done]. apply Permutation_map, py_sort_perm.
Qed.

Lemma dget_read_row cols r c : c ∈ cols -> dget c (tsv_read_row cols r) = Some (default [] (dget c r)).
Proof.
  unfold tsv_read_row, tsv_values. induction cols as [|d cols IH]; intros Hc; [by apply elem_of_nil in Hc|].
  cbn [map combine dget]. case_decide; [by subst|]. apply elem_of_cons in Hc as [?|?]; [done|by apply IH].
Qed.

(** A number is not blank. *)
Lemma int_visible s n : int_of_str s = Ok n -> exists c, c ∈ s /\ is_space c = false.
Proof.
  intros E. destruct (decide (Exists (fun c => is_space c = false) s)) as [Hx|Hx].
  { apply Exists_exists in Hx as (c & ? & ?). by exists c. }
  exfalso. apply not_Exists_Forall in Hx; [|intros c; apply _].
  assert (lstrip s = []) as Hl.
  { clear E. induction Hx as [|c s Hc _ IH]; [done|]. cbn [lstrip]. cbv beta in Hc. destruct (is_space c) eqn:E; [exact IH|done]. }
  unfold int_of_str, strip in E. rewrite Hl in E. cbn in E. discriminate E.
Qed.

Definition key_of_row (r : list (pystr * pystr)) : pystr * pystr :=
  (default [] (dget (lit "sha256") r), default [] (dget (lit "group") r)).

Lemma load_rows rows : forall acc : list ((pystr * pystr) * list (pystr * pystr)), NoDup (map key_of_row rows) ->
  exists loaded, res_fold (fun srcs r => sha ← row_item "sha256" r; group ← row_item "group" r; Ok (dset (sha, group) r srcs))
                   acc (map (tsv_read_row SRC_COLS) rows) = Ok loaded
  /\ (forall r, r ∈ rows -> dget (key_of_row r) loaded = Some (tsv_read_row SRC_COLS r))
  /\ (forall k, k ∉ map key_of_row rows -> dget k loaded = dget k acc).
Proof.
  induction rows as [|r rows IH]; intros acc Hn; [exists acc; split_and!; [done|by intros ? ?%elem_of_nil|done]|].
  cbn [map res_fold] in *. apply NoDup_cons in Hn as [Hr Hn].
  assert (forall c, c ∈ [lit "sha256"; lit "group"] -> dget c (tsv_read_row SRC_COLS r) = Some (default [] (dget c r))) as Hc.
  { intros c Hin. apply dget_read_row. revert Hin. rewrite !elem_of_cons. unfold SRC_COLS.
    intros [->|[->|Hin]]; [by_decide..|by apply elem_of_nil in Hin]. }
  assert (row_item "sha256" (tsv_read_row SRC_COLS r) = Ok (fst (key_of_row r))) as -> by (unfold row_item; by rewrite Hc by (by left)).
  assert (row_item "group" (tsv_read_row SRC_COLS r) = Ok (snd (key_of_row r))) as -> by (unfold row_item; by rewrite Hc by (by right; left)).
  cbn [mbind res_bind]. change (fst (key_of_row r), snd (key_of_row r)) with (key_of_row r).
  destruct (IH (dset (key_of_row r) (tsv_read_row SRC_COLS r) acc) Hn) as (loaded & E & Hl & Ho).
  exists loaded. split; [exact E|]. split.
  - intros x Hx. apply elem_of_cons in Hx as [->|Hx]; [|by apply Hl]. rewrite Ho by done. apply dget_dset_eq.
  - intros k Hk. apply not_elem_of_cons in Hk as [Hk1 Hk]. rewrite Ho by done. by apply dget_dset_ne.
Qed.

Lemma SRC_COLS_ok : NoDup SRC_COLS /\ Forall cell_ok SRC_COLS.
Proof. split; [by_decide|by apply cells_ok_by]. Qed.

(** What [write_tsv] wrote of the sources, [load_sources] finds under the same
    keys. *)
Lemma sources_reload srcs name text :
  sources_table srcs = Ok (name, text) -> srcs_keyed srcs ->
  Forall (fun kr => Forall (Forall is_char) (tsv_values SRC_COLS (snd kr))) srcs ->
  exists loaded, load_sources (Some text) = Ok loaded
  /\ forall k r, dget k srcs = Some r -> dget k loaded = Some (tsv_read_row SRC_COLS r).
Proof.
  unfold sources_table. intros E [Hd Hk] Hch. inv_bind E. inv_bind E. apply Ok_inj in E. injection E as _ <-.
  destruct (sort_by_int_perm _ _ _ E0) as [Hp Hid].
  assert (Forall (fun r => Forall (Forall is_char) (tsv_values SRC_COLS r) /\ row_visible SRC_COLS r) v) as Hrows.
  { rewrite Hp. apply Forall_map. rewrite Forall_map in Hid. rewrite Forall_forall in *. intros kr Hin. split; [by apply Hch|].
    specialize (Hid kr Hin). cbv beta in Hid. unfold row_id in Hid. destruct (row_item "id" (snd kr)) as [x|] eqn:Ex; [|done].
    apply row_item_inv in Ex. cbn [mbind res_bind] in Hid. destruct (int_of_str x) as [n|] eqn:En; [|done].
    destruct (int_visible x n En) as (c & Hc & Hs). exists x, c. split_and!; [|done..].
    unfold tsv_values. apply list_elem_of_In, in_map_iff. exists (lit "id"). rewrite Ex. split; [done|by left]. }
  destruct SRC_COLS_ok as [Hnd Hcols].
  assert (read_tsv (Some v0) = Ok (map (tsv_read_row SRC_COLS) v)) as Er.
  { by eapply read_tsv_written. }
  assert (map key_of_row (map snd srcs) = dkeys srcs) as Hkeys.
  { clear -Hk. unfold dkeys. induction Hk as [|[k r] srcs [Hs Hg] _ IH]; [done|]. cbn [map fst snd] in *. f_equal; [|done].
    unfold key_of_row. rewrite Hs, Hg. by destruct k. }
  destruct (load_rows v []) as (loaded & El & Hl & _).
  { rewrite Hp, Hkeys. exact Hd. }
  exists loaded. unfold load_sources. rewrite Er. split; [exact El|]. intros k r Hkr. apply dget_elem_of in Hkr.
  rewrite Forall_forall in Hk. destruct (Hk _ Hkr) as [Hs Hg]. cbn [fst snd] in *.
  assert (key_of_row r = k) as <- by (unfold key_of_row; rewrite Hs, Hg; by destruct k).
  apply Hl. rewrite Hp. apply list_elem_of_In, in_map_iff. exists (key_of_row r, r). split; [done|]. apply list_elem_of_In.
  exact Hkr.
Qed.

(** A run that finds every file settled reads none of them. *)
Lemma settled_run inp srcs tables packs :
  dict_ok (mi_disk inp) -> load_sources (mi_sources inp) = Ok srcs ->
  (forall k p, (k, p) ∈ mi_disk inp -> settled srcs k) ->
  main py_repr sha1_hex file_bytes file_date inp = Ok (tables, packs) -> packs = mi_packs inp.
Proof.
  intros Hd Hs Hall E. unfold main in E. rewrite Hs in E. cbn [mbind res_bind] in E. inv_bind E. inv_bind E. inv_bind E.
  destruct v1 as [srcs1 pds]. destruct (collect_spec _ _ _ _ _ E2 Hd) as (_ & _ & _ & _ & Hfrom).
  destruct pds as [|pd pds].
  - cbn [res_fold mbind res_bind] in E. inv_bind E. destruct v1 as [a b]. inv_bind E. apply Ok_inj in E. by injection E as _ <-.
  - inversion_clear Hfrom as [|? ? (p & Hp & Hnew & _) _]. specialize (Hall _ _ Hp). unfold settled in Hall. congruence.
Qed.

(** C11: Merging again is idle.  After a run has written its table of sources,
    a run over the same files finds each of them settled in that table: it
    reads none and appends nothing to any pack, whatever modes.json, the ledger
    or the indexes say by then. *)
Theorem rerun_idle inp srcs index next srcs1 pds st srcs2 index2 name text :
  dict_ok (mi_disk inp) -> load_sources (mi_sources inp) = Ok srcs ->
  collect py_repr sha1_hex file_bytes file_date inp srcs index = Ok (srcs1, pds) ->
  res_fold merge_pending (Store srcs1 index (mi_packs inp) next) pds = Ok st ->
  repair_dates (st_srcs st) (st_index st) = Ok (srcs2, index2) ->
  sources_table srcs2 = Ok (name, text) ->
  Forall (fun kr => Forall (Forall is_char) (tsv_values SRC_COLS (snd kr))) srcs2 ->
  forall inp' tables packs, mi_disk inp' = mi_disk inp -> mi_sources inp' = Some text ->
    main py_repr sha1_hex file_bytes file_date inp' = Ok (tables, packs) -> packs = mi_packs inp'.
Proof.
  intros Hd Hl Ec Em Er Et Hch inp' tables packs Hdisk Hsrc Emain.
  destruct (collect_spec _ _ _ _ _ Ec Hd) as (Hkept & _ & _ & Hall & Hfrom).
  pose proof (rows_kept_keyed _ _ Hkept (load_sources_keyed _ _ Hl)) as K1.
  destruct (merge_all_srcs pds (Store srcs1 index (mi_packs inp) next) st) as (K2 & S2 & M2);
    [eapply Forall_impl; [exact Hfrom|]; intros pd (p & _ & _ & Hp); by exists p | exact K1 | exact Em |].
  unfold repair_dates in Er. inv_bind Er. inv_bind Er. inv_bind Er. apply Ok_inj in Er. injection Er as <- <-.
  destruct (repair_sources_spec _ _ _ E0 K2) as [K3 S3].
  destruct (sources_reload _ _ _ Et K3 Hch) as (loaded & El & Hload).
  eapply (settled_run inp' loaded); [by rewrite Hdisk | by rewrite Hsrc | | exact Emain].
  intros k p Hkp. rewrite Hdisk in Hkp. assert (settled v0 k) as Hset.
  { apply S3. destruct (is_new srcs k) eqn:En.
    - destruct (Hall k p Hkp En) as (pd & Hpd & <- & _). rewrite Forall_forall in S2. by apply S2.
    - apply M2. unfold settled. cbn [st_srcs]. by rewrite (rows_kept_new _ _ k Hkept). }
  unfold settled, is_new in *. destruct (dget k v0) as [r|] eqn:Ek; [|done]. rewrite (Hload k r Ek).
  rewrite dget_read_row by (unfold SRC_COLS; by_decide).
  destruct (bool_decide (dget (lit "parser_revision") r = _)) eqn:Eb; [|done]. apply bool_decide_eq_true in Eb.
  rewrite Eb. done.
Qed.
End Spec.

(** ** A small store *)

Definition sample_header : bytes := lit "BDIW" ++ le 4 12340 ++ lit "SUne" ++ replicate 12 0.
Definition sample_sha (b : bytes) : pystr := map (fun c => 97 + c mod 26) b.
Definition sample_files (p : pystr) : bytes :=
  if decide (p = lit "/a.wdb") then sample_header ++ wdb_body [(17, [1; 2; 3]); (9, [5])] ++ replicate 8 0
  else sample_header ++ wdb_body [(17, [1; 2; 3]); (17, [4])].
Definition sample_date (_ : pystr) : pystr := lit "2024-01-01".
Definition sample_input : merge_input :=
  MergeInput [] [] [((lit "s2", lit "Area 52 - Free-Pick"), lit "/b.wdb"); ((lit "s1", lit "Elune - Draft"), lit "/a.wdb")] None [] [].

(** The steps of a first run. *)
Definition sample_collected := Eval vm_compute in
  match collect (fun _ => []) sample_sha sample_files sample_date sample_input [] [] with Ok x => x | Err _ => ([], []) end.
Definition sample_merged := Eval vm_compute in
  match res_fold merge_pending (Store (fst sample_collected) [] [] 1) (snd sample_collected) with
  | Ok st => st | Err _ => Store [] [] [] 0 end.
Definition sample_repaired := Eval vm_compute in
  match repair_dates (st_srcs sample_merged) (st_index sample_merged) with Ok x => x | Err _ => ([], []) end.
Definition sample_table := Eval vm_compute in
  match sources_table (fst sample_repaired) with Ok x => x | Err _ => ([], []) end.

Lemma records_kept_witness :
  store_ok sample_sha (st_index sample_merged) (st_packs sample_merged)
  /\ exists r, dget (17, lit "bcd") (index_at sample_merged (lit "itemcache")) = Some r /\ ix_srcs r = [lit "1"; lit "2"].
Proof.
  destruct (records_kept sample_sha (fun _ => []) sample_files sample_date sample_input [] [] 1
              (fst sample_collected) (snd sample_collected) sample_merged) as [Hok _].
  - by_decide.
  - intros cache. split; [apply dict_ok_nil | done].
  - vm_compute. reflexivity.
  - vm_compute. reflexivity.
  - split; [exact Hok|]. eexists. split; [vm_compute; reflexivity | reflexivity].
Defined.

Lemma chars_by l : forallb (forallb (forallb (fun c => (0 <=? c) && (c <=? 0x10FFFF)))) l = true -> Forall (Forall (Forall is_char)) l.
Proof.
  intros H. apply Forall_forall. intros ws Hws%list_elem_of_In. rewrite forallb_forall in H. specialize (H ws Hws).
  apply Forall_forall. intros w Hw%list_elem_of_In. rewrite forallb_forall in H. specialize (H w Hw).
  apply Forall_forall. intros c Hc%list_elem_of_In. rewrite forallb_forall in H. specialize (H c Hc).
  unfold is_char. zbool. lia.
Qed.

(** The second run, with the tables and the packs of the first. *)
Definition sample_again : merge_input :=
  MergeInput [] [] (mi_disk sample_input) (Some (snd sample_table)) [] (st_packs sample_merged).

Definition rerun_packs (r : res (list (list pystr * bytes) * list (pystr * bytes))) : option (list (pystr * bytes)) :=
  match r with Ok (_, packs) => Some packs | Err _ => None end.

Lemma rerun_idle_witness :
  rerun_packs (main (fun _ => []) sample_sha sample_files sample_date sample_again) = Some (st_packs sample_merged).
Proof.
  destruct (main (fun _ => []) sample_sha sample_files sample_date sample_again) as [[tables packs]|] eqn:E;
    [|vm_compute in E; discriminate]. cbn [rerun_packs]. f_equal. revert E.
  apply (rerun_idle sample_sha (fun _ => []) sample_files sample_date sample_input [] [] 1 (fst sample_collected) (snd sample_collected)
           sample_merged (fst sample_repaired) (snd sample_repaired) (fst sample_table) (snd sample_table)).
  - by_decide.
  - reflexivity.
  - vm_compute. reflexivity.
  - vm_compute. reflexivity.
  - vm_compute. reflexivity.
  - vm_compute. reflexivity.
  - apply (Forall_map (fun kr => tsv_values SRC_COLS (snd kr))), chars_by. vm_compute. reflexivity.
  - reflexivity.
  - reflexivity.
Defined.
