(* ===== verification/WdbInferSpec.v ===== *)
(** * When an unknown source is given a mode

    The verdict of [infer_mode] names the mode that agrees most, and only when
    no other mode with enough entries in common comes near it.  At the end, the
    dates of the records. *)
From Stdlib Require Import SpecFloat.
From S2P Require Import Prelude PyFloat Text Format Json Modes Tsv Wdb WdbStore.

(** ** The order of shares *)

(** A number that is not negative: zero, or a positive binary64. *)
Definition is_share (x : f64) : bool :=
  match x with S754_zero false | S754_finite false _ _ => true | _ => false end.

Definition share_key (x : f64) : Z * Z * Z :=
  match x with S754_finite _ m e => (1, e, Zpos m) | _ => (0, 0, 0) end.

Definition key_lt (a b : Z * Z * Z) : Prop :=
  let '(x, e, m) := a in let '(y, f, n) := b in x < y \/ x = y /\ (e < f \/ e = f /\ m < n).

Lemma ltb_key x y : is_share x = true -> is_share y = true -> f64_ltb x y = true <-> key_lt (share_key x) (share_key y).
Proof.
  destruct x as [[]| | |[] m e], y as [[]| | |[] n f]; try done; intros _ _; cbn; try (split; [done|lia]); [split; [lia|done]|].
  destruct (Z.compare_spec e f) as [->|Hlt|Hgt].
  - change (Pos.compare_cont Eq m n) with (Pos.compare m n). destruct (Pos.compare_spec m n); split; try done; lia.
  - split; [lia|done].
  - split; [done|lia].
Qed.

Lemma key_same x y : is_share x = true -> is_share y = true -> share_key x = share_key y -> x = y.
Proof. destruct x as [[]| | |[] m e], y as [[]| | |[] n f]; try done. intros _ _ [= -> ->]. done. Qed.

Lemma key_trichotomy a b : key_lt a b \/ a = b \/ key_lt b a.
Proof.
  destruct a as [[x e] m], b as [[y f] n]. cbn. destruct (Z.lt_trichotomy x y) as [?|[->|?]]; [lia| |lia].
  destruct (Z.lt_trichotomy e f) as [?|[->|?]]; [lia| |lia]. destruct (Z.lt_trichotomy m n) as [?|[->|?]]; [lia|auto|lia].
Qed.

(** A share leaves nothing of itself. *)
Lemma no_margin x : is_share x = true -> f64_ltb (f64_sub x x) INFER_MIN_MARGIN = true.
Proof.
  destruct x as [[]| | |[] m e]; try done. intros _.
  unfold f64_sub, SFsub. rewrite Z.sub_diag. reflexivity.
Qed.

Abbreviation score := (f64 * Z * pystr)%type (only parsing).
Definition scored_ok (x : score) : Prop := is_share (fst (fst x)) = true.

Lemma score_leb_total a b : score_leb a b = false -> score_leb b a = true.
Proof.
  destruct a as [[x n] s], b as [[y m] t]. unfold score_leb. destruct (f64_ltb x y); [done|]. destruct (f64_ltb y x); [done|].
  destruct (n <? m) eqn:E1; [done|]. destruct (m <? n); [done|]. apply str_leb_total.
Qed.

(** The share comes first. *)
Lemma score_leb_share a b : scored_ok a -> scored_ok b -> score_leb a b = true ->
  key_lt (share_key (fst (fst a))) (share_key (fst (fst b)))
  \/ fst (fst a) = fst (fst b) /\ (snd (fst a) < snd (fst b) \/ snd (fst a) = snd (fst b) /\ str_leb (snd a) (snd b) = true).
Proof.
  destruct a as [[x n] s], b as [[y m] t]. unfold scored_ok, score_leb. cbn [fst snd]. intros Hx Hy.
  destruct (f64_ltb x y) eqn:E1; [left; by apply ltb_key|]. destruct (f64_ltb y x) eqn:E2; [done|].
  assert (x = y) as ->.
  { apply key_same; [done..|]. destruct (key_trichotomy (share_key x) (share_key y)) as [K|[K|K]]; [|done|];
      apply ltb_key in K; congruence. }
  destruct (n <? m) eqn:E3; [right; zbool; auto|]. destruct (m <? n) eqn:E4; [done|]. zbool. right. split; [done|]. right.
  split; [lia|done].
Qed.

Lemma score_leb_of a b : scored_ok a -> scored_ok b ->
  (key_lt (share_key (fst (fst a))) (share_key (fst (fst b)))
   \/ fst (fst a) = fst (fst b) /\ (snd (fst a) < snd (fst b) \/ snd (fst a) = snd (fst b) /\ str_leb (snd a) (snd b) = true)) ->
  score_leb a b = true.
Proof.
  destruct a as [[x n] s], b as [[y m] t]. unfold scored_ok, score_leb. cbn [fst snd]. intros Hx Hy [K|[-> K]].
  - apply ltb_key in K; [|done..]. by rewrite K.
  - assert (f64_ltb y y = false) as ->.
    { apply not_true_iff_false. intros K'. apply ltb_key in K'; [|done..]. destruct (share_key y) as [[? ?] ?]. cbn in K'. lia. }
    destruct K as [K|[-> K]]; [by rewrite (proj2 (Z.ltb_lt _ _))|]. by rewrite Z.ltb_irrefl.
Qed.

Lemma key_lt_trans a b c : key_lt a b -> key_lt b c -> key_lt a c.
Proof. destruct a as [[? ?] ?], b as [[? ?] ?], c as [[? ?] ?]. cbn. lia. Qed.

Lemma key_lt_irrefl a : ~ key_lt a a.
Proof. destruct a as [[? ?] ?]. cbn. lia. Qed.

Lemma score_leb_trans a b c : scored_ok a -> scored_ok b -> scored_ok c ->
  score_leb b a = true -> score_leb c b = true -> score_leb c a = true.
Proof.
  intros Ha Hb Hc H1%score_leb_share H2%score_leb_share; [|done..]. apply score_leb_of; [done..|].
  destruct H2 as [K2|[E2 K2]].
  - left. destruct H1 as [K1|[E1 _]]; [by eapply key_lt_trans|by rewrite <- E1].
  - destruct H1 as [K1|[E1 K1]]; [left; by rewrite E2|]. right. split; [congruence|].
    destruct K2 as [K2|[K2 K2']], K1 as [K1|[K1 K1']]; [lia..|]. right. split; [lia|]. by eapply str_leb_trans.
Qed.

(** ** The verdict *)

(** The share of the entries in common that agree. *)
Definition share_of (fp : list (Z * pystr)) (prof : list (Z * list pystr)) : f64 :=
  let shared := shared_entries fp prof in
  f64_div (f64_of_Z (pylen (filter (fun x => snd (fst x) ∈ snd x) shared))) (f64_of_Z (pylen shared)).

Definition enough (fp : list (Z * pystr)) (prof : list (Z * list pystr)) : Prop :=
  INFER_MIN_SHARED <= pylen (shared_entries fp prof).

Lemma scored_elem fp (by_slug : list (pystr * list (Z * list pystr))) (x : score) : x ∈ omap (score_mode fp) by_slug <->
  exists slug sp, (slug, sp) ∈ by_slug /\ enough fp sp /\ x = (share_of fp sp, pylen (shared_entries fp sp), slug).
Proof.
  rewrite list_elem_of_omap. unfold enough, score_mode. split.
  - intros ([slug sp] & Hin & E). cbn [fst snd] in E. destruct (_ <? _) eqn:El; [done|]. injection E as <-. zbool.
    exists slug, sp. split_and!; [done|lia|done].
  - intros (slug & sp & Hin & Hen & ->). exists (slug, sp). split; [done|]. cbn [fst snd].
    by rewrite (proj2 (Z.ltb_ge _ _)) by lia.
Qed.

(** *** The ranking of the modes *)

Section Ranking.
Context (fp : list (Z * pystr)) (by_slug : list (pystr * list (Z * list pystr))).
Context (Hd : dict_ok by_slug).
Context (Hnum : forall s sp, dget s by_slug = Some sp -> enough fp sp -> is_share (share_of fp sp) = true).

Definition score_of (s : pystr) (sp : list (Z * list pystr)) : score := (share_of fp sp, pylen (shared_entries fp sp), s).

Lemma in_scored x : x ∈ omap (score_mode fp) by_slug <-> exists s sp, dget s by_slug = Some sp /\ enough fp sp /\ x = score_of s sp.
Proof.
  rewrite scored_elem. split; intros (t & sp & H1 & H2); exists t, sp; (split; [|done]).
  - by apply elem_of_dget.
  - by apply dget_elem_of.
Qed.

Lemma scored_all_ok : Forall scored_ok (omap (score_mode fp) by_slug).
Proof. apply Forall_forall. intros x (t & sp & H1 & H2 & ->)%in_scored. by apply (Hnum t sp). Qed.

(** A score that ranks no higher has no larger share. *)
Lemma not_more x y : scored_ok x -> scored_ok y -> score_leb x y = true -> f64_ltb (fst (fst y)) (fst (fst x)) = false.
Proof.
  intros Hx Hy Hxy. apply not_true_iff_false. intros K. apply ltb_key in K; [|done..]. apply score_leb_share in Hxy; [|done..].
  destruct Hxy as [Hxy|[Hxy _]]; [by eapply key_lt_irrefl, key_lt_trans|]. rewrite Hxy in K. by eapply key_lt_irrefl.
Qed.

Context (top : score) (rest : list score).
Context (Hsort : py_sort (fun a b => score_leb b a) (omap (score_mode fp) by_slug) = top :: rest).

Lemma ranked x : x ∈ omap (score_mode fp) by_slug <-> x = top \/ x ∈ rest.
Proof. rewrite <- (py_sort_perm (fun a b => score_leb b a)), Hsort. apply elem_of_cons. Qed.

Lemma ranking_sorted : Forall (fun x => score_leb x top = true) rest /\ StronglySorted (fun a b => score_leb b a = true) rest.
Proof.
  pose proof (py_sort_sorted_on (fun a b => score_leb b a) scored_ok _
    (fun x y => score_leb_total y x) (fun x y z Hx Hy Hz => score_leb_trans x y z Hx Hy Hz) scored_all_ok) as Hs.
  rewrite Hsort in Hs. by inversion_clear Hs.
Qed.

Definition rivals : list score := filter (fun x : score => snd x <> snd top) rest.

Lemma in_rivals s sp : s <> snd top -> dget s by_slug = Some sp -> enough fp sp -> score_of s sp ∈ rivals.
Proof.
  intros Hne Hsp Hen. apply list_elem_of_filter. split; [done|].
  destruct (proj1 (ranked (score_of s sp))) as [E|?]; [apply in_scored; by exists s, sp| |done]. by rewrite <- E in Hne.
Qed.

Lemma rival_scored x : x ∈ rivals -> snd x <> snd top /\ exists s sp, dget s by_slug = Some sp /\ enough fp sp /\ x = score_of s sp.
Proof. intros [Hne Hx]%list_elem_of_filter. split; [done|]. apply in_scored, ranked. by right. Qed.

(** The first rival is the best one. *)
Lemma first_rival r others x : rivals = r :: others -> x ∈ rivals -> f64_ltb (fst (fst r)) (fst (fst x)) = false.
Proof.
  intros E Hx. assert (StronglySorted (fun a b => score_leb b a = true) rivals) as Hss.
  { destruct ranking_sorted as [_ Hs]. unfold rivals. clear -Hs. induction Hs as [|y l Hl IH Hy]; [constructor|].
    rewrite filter_cons. case_decide; [|done]. constructor; [done|]. rewrite Forall_forall in *. intros z Hz. apply Hy.
    by apply list_elem_of_filter in Hz as [_ ?]. }
  assert (forall y, y ∈ rivals -> scored_ok y) as Hok.
  { intros y (_ & s & sp & H1 & H2 & ->)%rival_scored. by apply (Hnum s sp). }
  rewrite E in Hss, Hx. inversion_clear Hss as [|? ? _ Hfa]. apply elem_of_cons in Hx as [->|Hx].
  - apply not_true_iff_false. intros K. apply ltb_key in K; [|by apply Hok; rewrite E; left..].
    by eapply key_lt_irrefl.
  - rewrite Forall_forall in Hfa. apply not_more; [apply Hok; rewrite E; by right|apply Hok; rewrite E; left|by apply Hfa].
Qed.

(** A rival's share is smaller, unless it is the same. *)
Lemma rival_below x : scored_ok top -> x ∈ rivals ->
  key_lt (share_key (fst (fst x))) (share_key (fst (fst top))) \/ fst (fst x) = fst (fst top).
Proof.
  intros Htop Hx. destruct (rival_scored x Hx) as (_ & s & sp & H1 & H2 & E). apply list_elem_of_filter in Hx as [_ Hx].
  destruct ranking_sorted as [Hfa _]. rewrite Forall_forall in Hfa.
  destruct (score_leb_share x top) as [?|[? _]]; auto. rewrite E. by apply (Hnum s sp).
Qed.
End Ranking.

(** A mode is only inferred when it stands out.  If [infer_mode] names a
    mode, that mode has at least 500 entries in common with the source, the
    reported agreement is its own, and every other mode with that many entries
    in common agrees strictly less -- the best of them by the reported margin,
    which is not below the threshold.  A tie is never decided. *)
Theorem infer_mode_stands_out cache fp prof slug :
  dict_ok (default [] (dget cache prof)) ->
  (forall s sp, dget s (default [] (dget cache prof)) = Some sp -> enough fp sp -> is_share (share_of fp sp) = true) ->
  v_slug (infer_mode cache fp prof) = Some slug ->
  let v := infer_mode cache fp prof in
  exists sp, dget slug (default [] (dget cache prof)) = Some sp /\ enough fp sp
    /\ v_agree v = share_of fp sp /\ v_shared v = pylen (shared_entries fp sp)
    /\ ((forall s q, s <> slug -> dget s (default [] (dget cache prof)) = Some q -> ~ enough fp q) /\ v_margin v = share_of fp sp
        \/ exists s q, s <> slug /\ dget s (default [] (dget cache prof)) = Some q /\ enough fp q
           /\ v_margin v = f64_sub (share_of fp sp) (share_of fp q) /\ f64_ltb (v_margin v) INFER_MIN_MARGIN = false
           /\ forall s' q', s' <> slug -> dget s' (default [] (dget cache prof)) = Some q' -> enough fp q' ->
                f64_ltb (share_of fp q') (share_of fp sp) = true /\ f64_ltb (share_of fp q) (share_of fp q') = false).
Proof.
  set (by_slug := default [] (dget cache prof)). intros Hd Hnum. unfold infer_mode. fold by_slug.
  destruct (py_sort _ (omap (score_mode fp) by_slug)) as [|top rest] eqn:Es; [done|].
  destruct (proj1 (in_scored fp by_slug Hd top)) as (t & sp & Hsp & Hen & ->); [apply (ranked _ _ _ _ Es); by left|].
  pose proof (Hnum t sp Hsp Hen) as Htop. unfold score_of. cbv beta iota.
  change (filter _ rest) with (rivals (score_of fp t sp) rest).
  pose proof (in_rivals fp by_slug Hd _ _ Es) as Hothers. cbn [score_of snd] in Hothers.
  destruct (rivals (score_of fp t sp) rest) as [|r others] eqn:Ef.
  - cbn [v_slug v_agree v_shared v_margin]. intros [= <-]. exists sp. split_and!; [done..|]. left. split; [|done].
    intros s q Hne Hq Henq. apply (not_elem_of_nil (score_of fp s q)). by apply Hothers.
  - destruct (rival_scored fp by_slug Hd _ _ Es r) as (Hst & s & q & Hq & Henq & ->); [rewrite Ef; left|].
    unfold score_of. destruct (f64_ltb (f64_sub _ _) INFER_MIN_MARGIN) eqn:Em; [done|].
    cbn [v_slug v_agree v_shared v_margin]. intros [= <-]. exists sp. split_and!; [done..|]. right.
    exists s, q. split_and!; [done..|]. intros s' q' Hne Hq' Hen'. specialize (Hothers s' q' Hne Hq' Hen'). rewrite <- Ef in Hothers.
    pose proof (first_rival fp by_slug Hd Hnum _ _ Es _ _ _ Ef Hothers) as Hbest. split; [|exact Hbest].
    assert (score_of fp s q ∈ rivals (score_of fp t sp) rest) as Hr by (rewrite Ef; left).
    apply ltb_key; [by apply (Hnum s' q')|done|].
    destruct (rival_below fp by_slug Hd Hnum _ _ Es _ Htop Hothers) as [?|E']; [done|]. exfalso. cbn [score_of fst snd] in *.
    destruct (rival_below fp by_slug Hd Hnum _ _ Es _ Htop Hr) as [K|E2]; cbn [score_of fst snd] in *.
    + rewrite <- E' in K. apply ltb_key in K; [congruence|by apply (Hnum s q)|by apply (Hnum s' q')].
    + rewrite E2, no_margin in Em by done. done.
Qed.

(** Five hundred entries; one mode agrees on all of them, the other on all but
    one. *)
Definition sample_print : list (Z * pystr) := map (fun i => (Z.of_nat i, lit "a")) (seq 0 500).
Definition sample_draft : list (Z * list pystr) := (0, [lit "b"]) :: map (fun i => (Z.of_nat i, [lit "a"])) (seq 1 499).
Definition sample_free : list (Z * list pystr) := map (fun i => (Z.of_nat i, [lit "a"; lit "b"])) (seq 0 500).
Definition sample_profiles : list (pystr * list (pystr * list (Z * list pystr))) :=
  [(lit "itemcache", [(lit "draft", sample_draft); (lit "free-pick", sample_free)])].

Lemma infer_mode_stands_out_witness :
  v_slug (infer_mode (lit "itemcache") sample_print sample_profiles) = Some (lit "free-pick")
  /\ exists sp, dget (lit "free-pick") (default [] (dget (lit "itemcache") sample_profiles)) = Some sp /\ enough sample_print sp.
Proof.
  split; [vm_compute; reflexivity|].
  destruct (infer_mode_stands_out (lit "itemcache") sample_print sample_profiles (lit "free-pick")) as (sp & Hsp & Hen & _).
  - by_decide.
  - intros s sp E%dget_elem_of _. change (default [] _) with [(lit "draft", sample_draft); (lit "free-pick", sample_free)] in E.
    rewrite !elem_of_cons in E. destruct E as [E|[E|E%elem_of_nil]]; [injection E as -> ->; vm_compute; reflexivity..|done].
  - vm_compute. reflexivity.
  - by exists sp.
Defined.

(** ** Dates

    A web upload has no capture date; a record is dated by the earliest and
    the latest of its dated sources. *)

(** ** Least and greatest *)

Lemma foldl_min l : forall x, foldl min_str x l ∈ x :: l /\ Forall (fun d => str_leb (foldl min_str x l) d = true) (x :: l).
Proof.
  induction l as [|y l IH]; intros x; cbn [foldl]; [split; [left|by repeat constructor; apply str_leb_refl]|].
  destruct (IH (min_str x y)) as [Hin Hle]. inversion_clear Hle as [|? ? Hm Hl].
  assert (min_str x y = x /\ str_leb x y = true \/ min_str x y = y /\ str_leb y x = true) as Hc.
  { unfold min_str. destruct (str_leb x y) eqn:E; [auto|]. right. split; [done|]. by apply str_leb_total. }
  split.
  - apply elem_of_cons in Hin as [->|Hin]; [|by right; right]. destruct Hc as [[-> _]|[-> _]]; [left|right; left].
  - constructor; [|constructor; [|done]]; (eapply str_leb_trans; [exact Hm|]);
      destruct Hc as [[-> ?]|[-> ?]]; auto using str_leb_refl.
Qed.

Lemma foldl_max l : forall x, foldl max_str x l ∈ x :: l /\ Forall (fun d => str_leb d (foldl max_str x l) = true) (x :: l).
Proof.
  induction l as [|y l IH]; intros x; cbn [foldl]; [split; [left|by repeat constructor; apply str_leb_refl]|].
  destruct (IH (max_str x y)) as [Hin Hle]. inversion_clear Hle as [|? ? Hm Hl].
  assert (max_str x y = x /\ str_leb y x = true \/ max_str x y = y /\ str_leb x y = true) as Hc.
  { unfold max_str. destruct (str_leb y x) eqn:E; [auto|]. right. split; [done|]. by apply str_leb_total. }
  split.
  - apply elem_of_cons in Hin as [->|Hin]; [|by right; right]. destruct Hc as [[-> _]|[-> _]]; [left|right; left].
  - constructor; [|constructor; [|done]]; (eapply str_leb_trans; [|exact Hm]);
      destruct Hc as [[-> ?]|[-> ?]]; auto using str_leb_refl.
Qed.

(** The earliest and the latest of some dates; none of none. *)
Definition spans (dates : list pystr) (first last : pystr) : Prop :=
  (dates = [] /\ first = [] /\ last = [])
  \/ first ∈ dates /\ last ∈ dates /\ Forall (fun d => str_leb first d = true /\ str_leb d last = true) dates.

Lemma min_max_spans dates : spans dates (min_date dates) (max_date dates).
Proof.
  destruct dates as [|x l]; [by left|]. right. cbn [min_date max_date].
  destruct (foldl_min l x) as [Hi Hl], (foldl_max l x) as [Hj Hk]. split_and!; [done..|]. by apply Forall_and.
Qed.

(** ** Rows by number *)

Section Dates.
Context (srcs : list ((pystr * pystr) * list (pystr * pystr))).

Lemma row_item_ok k r v : row_item k r = Ok v <-> dget (lit k) r = Some v.
Proof. unfold row_item. destruct (dget _ r); cbn; split; congruence. Qed.

Lemma rows_by_id_spec by_id : rows_by_id srcs = Ok by_id ->
  dict_ok by_id /\ (forall sid k, dget sid by_id = Some k -> exists r, (k, r) ∈ srcs /\ dget (lit "id") r = Some sid)
  /\ (forall k r, (k, r) ∈ srcs -> exists sid, dget (lit "id") r = Some sid /\ is_Some (dget sid by_id)).
Proof.
  unfold rows_by_id. set (f := fun d kr => _). 
  assert (forall l (acc by_id : list (pystr * (pystr * pystr))), res_fold f acc l = Ok by_id -> dict_ok acc ->
    dict_ok by_id /\ (forall sid k, dget sid by_id = Some k -> dget sid acc = Some k \/ exists r, (k, r) ∈ l /\ dget (lit "id") r = Some sid)
    /\ (forall sid, is_Some (dget sid acc) -> is_Some (dget sid by_id))
    /\ (forall k r, (k, r) ∈ l -> exists sid, dget (lit "id") r = Some sid /\ is_Some (dget sid by_id))) as Hgo.
  { induction l as [|[k r] l IH]; intros acc out E Hd; cbn [res_fold] in E.
    { apply Ok_inj in E. subst out. split_and!; [done|by left|done|]. by intros ? ? ?%elem_of_nil. }
    inv_bind E. unfold f in E0. cbn [fst snd] in E0. inv_bind E0. apply Ok_inj in E0. subst v. apply row_item_ok in E1.
    destruct (IH _ _ E (dict_ok_dset _ _ _ Hd)) as (Hd' & H1 & H2 & H3). split_and!; [done|..].
    - intros sid k' Hk. destruct (H1 _ _ Hk) as [Hk'|(r' & ? & ?)]; [|right; exists r'; split; [by right|done]].
      rewrite dget_dset in Hk'. case_decide; [|by left]. injection Hk' as <-. subst. right. exists r. split; [left|done].
    - intros sid Hs. apply H2. rewrite dget_dset. case_decide; [by eexists|done].
    - intros k' r' [[= -> ->]|Hin]%elem_of_cons; [|by apply (H3 k')]. exists v0. split; [done|]. apply H2. by rewrite dget_dset_eq. }
  intros E. destruct (Hgo _ _ _ E dict_ok_nil) as (Hd & H1 & _ & H3). split_and!; [done| |done].
  intros sid k Hk. destruct (H1 _ _ Hk) as [?|?]; done.
Qed.

(** ** Repaired rows *)

(** A row without the date of its arrival. *)
Definition undated (r r' : list (pystr * pystr)) : Prop :=
  exists path, dget (lit "path") r = Some path
  /\ (forall c, c <> lit "captured" -> dget c r' = dget c r)
  /\ (if is_web_source path then exists d, dget (lit "captured") r = Some d /\ dget (lit "captured") r' = Some []
      else dget (lit "captured") r' = dget (lit "captured") r).

Lemma repair_row_undated r r' : repair_row r = Ok r' -> undated r r'.
Proof.
  unfold repair_row. intros E. inv_bind E. apply row_item_ok in E0. exists v. split; [done|].
  destruct (is_web_source v); [|apply Ok_inj in E; by subst r'].
  inv_bind E. apply row_item_ok in E1. apply Ok_inj in E. destruct v0 as [|c t]; subst r'.
  - split; [done|]. by exists [].
  - split; [intros c' Hc; by rewrite dget_dset_ne|]. exists (c :: t). by rewrite dget_dset_eq.
Qed.

Lemma undated_again r r' r'' : undated r r' -> undated r' r'' -> undated r r''.
Proof.
  intros (p & Hp & Ho & Hc) (p' & Hp' & Ho' & Hc'). rewrite Ho in Hp' by done. assert (p' = p) as -> by congruence.
  exists p. split; [done|]. split; [intros c Hcc; by rewrite Ho', Ho|].
  destruct (is_web_source p); [|by rewrite Hc', Hc]. destruct Hc as (d & Hd & _), Hc' as (d' & _ & Hd'). by exists d.
Qed.

Lemma repair_sources_undated keys out : repair_sources srcs keys = Ok out ->
  forall k r, dget k srcs = Some r -> exists r', dget k out = Some r' /\ (k ∈ keys -> undated r r') /\ (k ∉ keys -> r' = r).
Proof.
  unfold repair_sources. set (f := fun srcs k => _).
  assert (forall keys s out, res_fold f s keys = Ok out -> forall k r, dget k s = Some r ->
    exists r', dget k out = Some r' /\ (k ∈ keys -> undated r r') /\ (k ∉ keys -> r' = r)) as Hgo; [|apply Hgo].
  clear. induction keys as [|key keys IH]; intros s out E k r Hk; cbn [res_fold] in E.
  { apply Ok_inj in E. subst out. exists r. split_and!; [done|by intros ?%elem_of_nil|done]. }
  inv_bind E. unfold f in E0. inv_bind E0. inv_bind E0. apply Ok_inj in E0. subst v.
  destruct (dget key s) as [r0|] eqn:Er; [|done]. apply Ok_inj in E1. subst v0. apply repair_row_undated in E2.
  destruct (decide (k = key)) as [->|Hne].
  - assert (r0 = r) as -> by congruence. destruct (IH _ _ E key v1) as (r' & Hr' & H1 & H2); [by rewrite dget_dset_eq|].
    exists r'. split; [done|]. split; [|intros Hn; exfalso; apply Hn; left]. intros _.
    destruct (decide (key ∈ keys)) as [Hin|Hin]; [by eapply undated_again; [|apply H1]|by rewrite (H2 Hin)].
  - destruct (IH _ _ E k r) as (r' & Hr' & H1 & H2); [by rewrite dget_dset_ne|]. exists r'. split; [done|].
    rewrite elem_of_cons. split; [intros [?|?]; [done|by apply H1]|intros Hn; apply H2; tauto].
Qed.
End Dates.

(** ** Redated records *)

Lemma dates_of_spec srcs by_id ids : forall dates, dates_of srcs by_id ids = Ok dates ->
  forall d, d ∈ dates <-> d <> [] /\ exists sid r, sid ∈ ids /\ source_by_id srcs by_id sid = Ok r /\ dget (lit "captured") r = Some d.
Proof.
  induction ids as [|sid ids IH]; intros dates E d; cbn [dates_of] in E.
  { apply Ok_inj in E. subst dates. rewrite elem_of_nil. split; [done|]. by intros (_ & sid & r & ?%elem_of_nil & _). }
  inv_bind E. inv_bind E. inv_bind E. apply Ok_inj in E. apply row_item_ok in E1. specialize (IH _ eq_refl d).
  assert (d ∈ dates <-> d <> [] /\ d = v0 \/ d ∈ v1) as ->.
  { destruct v0 as [|c t]; subst dates.
    - split; [by right|]. by intros [[? ->]|?].
    - rewrite elem_of_cons. split; [intros [->|?]; auto|intros [[_ ->]|?]; auto]. }
  rewrite IH. split.
  - intros [[Hd ->]|(Hd & s & r & Hs & Hr & Hc)].
    + split; [done|]. exists sid, v. split_and!; [left|done..].
    + split; [done|]. exists s, r. split_and!; [by right|done..].
  - intros (Hd & s & r & Hs & Hr & Hc). apply elem_of_cons in Hs as [->|Hs].
    + left. split; [done|]. congruence.
    + right. split; [done|]. by exists s, r.
Qed.

(** No two sources have the same number. *)
Definition ids_unique (srcs : list ((pystr * pystr) * list (pystr * pystr))) : Prop :=
  forall k1 r1 k2 r2 id, dget k1 srcs = Some r1 -> dget k2 srcs = Some r2 ->
    dget (lit "id") r1 = Some id -> dget (lit "id") r2 = Some id -> k1 = k2.

(** The date of a source, after the repair. *)
Definition source_date_is (srcs srcs' : list ((pystr * pystr) * list (pystr * pystr))) (sid d : pystr) : Prop :=
  exists k r r', dget k srcs = Some r /\ dget (lit "id") r = Some sid
    /\ dget k srcs' = Some r' /\ dget (lit "captured") r' = Some d.

(** A record with the dates of its sources and everything else as it was. *)
Definition redated (srcs srcs' : list ((pystr * pystr) * list (pystr * pystr))) (x y : (Z * pystr) * idx_row) : Prop :=
  fst y = fst x /\ ix_size (snd y) = ix_size (snd x) /\ ix_offset (snd y) = ix_offset (snd x)
  /\ ix_modes (snd y) = ix_modes (snd x) /\ ix_srcs (snd y) = ix_srcs (snd x)
  /\ exists dates, spans dates (ix_first (snd y)) (ix_last (snd y))
     /\ forall d, d ∈ dates <-> d <> [] /\ exists sid, sid ∈ ix_srcs (snd x) /\ source_date_is srcs srcs' sid d.

(** The dates are repaired from where a file came from, and nothing else
    is touched.  Every source keeps its row, except that an upload through the
    web site has no capture date; every record keeps its place, its modes and
    its sources, and its dates become the earliest and the latest of those of
    its sources that have one -- none if none has. *)
Theorem repair_dates_exact srcs index srcs' index' :
  dict_ok srcs -> ids_unique srcs -> repair_dates srcs index = Ok (srcs', index') ->
  (forall k r, dget k srcs = Some r -> exists r', dget k srcs' = Some r' /\ undated r r')
  /\ Forall2 (fun ci ci' => fst ci' = fst ci /\ Forall2 (redated srcs srcs') (snd ci) (snd ci')) index index'.
Proof.
  intros Hd Hu E. unfold repair_dates in E. inv_bind E. inv_bind E. inv_bind E. apply Ok_inj in E. injection E as <- <-.
  destruct (rows_by_id_spec _ _ E0) as (Hdb & Hid & Hall). pose proof (repair_sources_undated _ _ _ E1) as Hrep.
  assert (forall k r, dget k srcs = Some r -> exists r', dget k v0 = Some r' /\ undated r r') as Hrow.
  { intros k r Hk. destruct (Hrep k r Hk) as (r' & Hr' & H1 & _). exists r'. split; [done|]. apply H1.
    destruct (Hall k r (dget_elem_of _ _ _ Hk)) as (sid & Hs & [k' Hk']). destruct (Hid sid k' Hk') as (r2 & Hin & Hs2).
    assert (k = k') as <- by (eapply (Hu k r k' r2 sid); [done|by apply elem_of_dget|done..]).
    apply list_elem_of_In, in_map_iff. exists (sid, k). split; [done|]. apply list_elem_of_In. by apply dget_elem_of. }
  split; [exact Hrow|]. apply res_map_Forall2 in E2. eapply Forall2_impl; [exact E2|]. clear E2.
  intros ci ci' Ec. unfold redate_index in Ec. inv_bind Ec. apply Ok_inj in Ec. subst ci'. split; [done|]. cbn [snd].
  apply res_map_Forall2 in E. eapply Forall2_impl; [exact E|]. intros x y Exy. unfold redate in Exy. inv_bind Exy.
  apply Ok_inj in Exy. subst y. unfold redated. cbn [fst snd ix_size ix_offset ix_modes ix_srcs ix_first ix_last].
  split_and!; [done..|]. exists v3. split; [apply min_max_spans|]. intros d. rewrite (dates_of_spec _ _ _ _ E2 d).
  enough (forall sid, (exists r, source_by_id v0 v sid = Ok r /\ dget (lit "captured") r = Some d) <-> source_date_is srcs v0 sid d) as Hs.
  { split; intros (Hne & sid & H1); (split; [done|]).
    - destruct H1 as (r & Hsid & Hr & Hc). exists sid. split; [done|]. apply Hs. by exists r.
    - destruct H1 as (Hsid & Hsd). apply Hs in Hsd as (r & ? & ?). by exists sid, r. }
  intros sid. unfold source_by_id, source_date_is. split.
  - intros (r' & Er & Hc). inv_bind Er. destruct (dget sid v) as [k|] eqn:Ek; [|done]. apply Ok_inj in E3. subst v4.
    destruct (dget k v0) as [r1|] eqn:Er1; [|done]. apply Ok_inj in Er. subst r1. destruct (Hid sid k Ek) as (r & Hin & Hsid).
    exists k, r, r'. split_and!; [by apply elem_of_dget|done..].
  - intros (k & r & r' & Hk & Hsid & Hr' & Hc). destruct (Hall k r (dget_elem_of _ _ _ Hk)) as (sid' & Hs & [k' Hk']).
    assert (sid' = sid) as -> by congruence. destruct (Hid sid k' Hk') as (r2 & Hin & Hs2).
    assert (k = k') as <- by (eapply (Hu k r k' r2 sid); [done|by apply elem_of_dget|done..]).
    rewrite Hk'. cbn [res_of_option mbind res_bind]. rewrite Hr'. by exists r'.
Qed.

(** A record of a dated file and of a web upload. *)
Definition sample_row (id path captured : string) : list (pystr * pystr) :=
  [(lit "id", lit id); (lit "path", lit path); (lit "captured", lit captured)].
Definition sample_sources : list ((pystr * pystr) * list (pystr * pystr)) :=
  [((lit "s1", lit "g"), sample_row "1" "/in/a.wdb" "2024-03-01");
   ((lit "s2", lit "g"), sample_row "2" "/in/web-0123456789abcdef0123456789abcdef/a.wdb" "2025-01-01")].
Definition sample_index : list (pystr * list ((Z * pystr) * idx_row)) :=
  [(lit "itemcache", [((17, lit "aa"), IdxRow 3 0 [] [lit "1"; lit "2"] (lit "2024-03-01") (lit "2025-01-01"));
                      ((18, lit "bb"), IdxRow 3 11 [] [lit "2"] (lit "2025-01-01") (lit "2025-01-01"))])].

Lemma repair_dates_exact_witness :
  exists srcs index, repair_dates sample_sources sample_index = Ok (srcs, index)
  /\ (exists r, dget (lit "s2", lit "g") srcs = Some r /\ dget (lit "captured") r = Some [])
  /\ map (fun x => (ix_first (snd x), ix_last (snd x))) (default [] (dget (lit "itemcache") index))
     = [(lit "2024-03-01", lit "2024-03-01"); ([], [])].
Proof.
  eexists _, _. split; [vm_compute; reflexivity|].
  destruct (repair_dates_exact sample_sources sample_index _ _ ltac:(by_decide)
    ltac:(intros k1 r1 k2 r2 id E1%dget_elem_of E2%dget_elem_of H1 H2; unfold sample_sources in E1, E2;
          rewrite !elem_of_cons in E1, E2;
          destruct E1 as [[= -> ->]|[[= -> ->]|E1%elem_of_nil]], E2 as [[= -> ->]|[[= -> ->]|E2%elem_of_nil]];
          try done; vm_compute in H1, H2; congruence)
    ltac:(vm_compute; reflexivity)) as [Hrow _].
  split; [|vm_compute; reflexivity].
  destruct (Hrow (lit "s2", lit "g") _ eq_refl) as (r & Hr & _). exists r. split; [exact Hr|].
  vm_compute in Hr. injection Hr as <-. reflexivity.
Defined.
