(* ===== verification/CoaMode.v ===== *)
(** * The class tables and state of the CoA realm (server/coa_mode.py)

    What the bridge reads from the client's files (the WDBC reader with its
    string block, the class table joined by name, the advancement tree, the
    essence curves), the three wire formats it ports from world_server.py, the
    rewriting of SMSG_CHAR_ENUM, and the store of each character's class.  A
    file is its bytes.  The environment only chooses paths, so the readers take
    the bytes found there. *)
From S2P Require Import Prelude Wire PyFloat Text Format Json Consts Chars Dbc Known Builders Tsv.

Definition CA_COL_ID : Z := 0.
Definition CA_COL_SPELL : Z := 5.
Definition CA_COL_CLASSTYPE : Z := 32.
Definition CA_COL_TABTYPE : Z := 33.
Definition CA_COL_NAME : Z := 47.
Definition CHR_COL_NAME : Z := 4.
Definition CHR_COL_FILE : Z := 55.

(** ** The classes the core can build *)

Definition AC_VALID_CLASSES : list Z := [1; 2; 3; 4; 5; 6; 7; 8; 9; 11].

(** [range(lo, hi)]. *)
Definition py_range (lo hi : Z) : list Z := map (fun k => lo + Z.of_nat k) (seq 0 (Z.to_nat (hi - lo))).

Section ClassSet.
Context `{Unicode}.

(** One comma-separated part: a range, a single class or nothing. *)
Definition parse_class_part (part : pystr) : res (list Z) :=
  let part := strip part in
  match part with
  | [] => Ok []
  | _ =>
      match split_at (fun c => c =? 45) part with
      | (lo, Some hi) => a ← int_of_str lo; b ← int_of_str hi; Ok (py_range a (b + 1))
      | (_, None) => a ← int_of_str part; Ok [a]
      end
  end.

(** A set, here as the list of what is added to it. *)
Definition _parse_class_set (spec : pystr) : res (list Z) :=
  ls ← res_map parse_class_part (split_on 44 spec); Ok (concat ls).

(** ASC_AC_VALID_CLASSES, when it is set and parses, replaces the set. *)
Definition ac_valid_classes (env : pystr) : res (list Z) :=
  match strip env with
  | [] => Ok AC_VALID_CLASSES
  | e => match _parse_class_set e with
         | Ok s => Ok s
         | Err ValueError => Ok AC_VALID_CLASSES
         | Err e => Err e
         end
  end.
End ClassSet.

(** ** Reading a WDBC file *)

Record dbc := DbcFile { db_recs : list (list Z); db_block : bytes; db_ncol : Z }.

(** The offsets at which a string starts: the block's beginning, and behind
    every NUL but the last byte's. *)
Fixpoint starts_from (i : Z) (blk : bytes) : list Z :=
  match blk with
  | [] => []
  | b :: blk =>
      if (b =? 0) && negb (bool_decide (blk = [])) then (i + 1) :: starts_from (i + 1) blk
      else starts_from (i + 1) blk
  end.

Definition starts (blk : bytes) : list Z := 0 :: starts_from 0 blk.

(** [blk.find(b"\x00", off)]. *)
Definition find_nul (blk : bytes) (off : Z) : option Z :=
  (fun k => off + Z.of_nat k) <$> find_byte 0 (slice_from off blk).

(** The reader [s] that [_read_dbc] returns; -1 is never above [off]. *)
Definition dbc_str (d : dbc) (off : Z) : option pystr :=
  if bool_decide (off ∈ starts (db_block d)) then
    match find_nul (db_block d) off with
    | Some e => if e <=? off then None else Some (utf8_decode_replace (slice off e (db_block d)))
    | None => None
    end
  else None.

Definition _read_dbc (data : bytes) : res dbc :=
  if negb (bool_decide (slice_to 4 data = WDBC)) then Err ValueError
  else
    hdr ← unpack_Is 4 data 4;
    let rc := col hdr 0 in let rs := col hdr 2 in let ss := col hdr 3 in
    let ncol := rs / 4 in
    let sb := 20 + rc * rs in
    let blk := slice sb (sb + ss) data in
    if negb (20 + rc * rs + ss =? pylen data) then Err ValueError
    else
      recs ← res_map (fun i => unpack_Is (Z.to_nat ncol) data (20 + i * rs)) (seqZ_from rc);
      Ok (DbcFile recs blk ncol).

(** [_chrclasses_path] takes a candidate only when it has a row above id 11. *)
Definition is_ascension_classes (d : dbc) : res bool :=
  ids ← res_map (fun r => index r 0) (db_recs d); Ok (existsb (fun i => i >? 11) ids).

(** ** The class table *)

(** [info]: the classtype is what the join found, an integer of the file or the
    value of the public export. *)
Record class_info := ClassInfo {
  ci_class_byte : Z; ci_name : pystr; ci_internal : pystr; ci_classtype : option json }.

Definition set_ci_classtype (v : option json) (i : class_info) : class_info :=
  ClassInfo (ci_class_byte i) (ci_name i) (ci_internal i) v.

(** Where the class types come from. *)
Inductive ct_source : Type :=
  | CtDbc (data : bytes)
  | CtExport (rows : json)
  | CtMissing.

Definition read_class_row (d : dbc) (by_byte : list (Z * class_info)) (r : list Z)
    : res (list (Z * class_info)) :=
  i ← index r 0;
  if i <=? 11 then Ok by_byte
  else
    n ← index r CHR_COL_NAME;
    match dbc_str d n with
    | Some name =>
        f ← index r CHR_COL_FILE;
        Ok (dset i (ClassInfo i name (default [] (dbc_str d f)) None) by_byte)
    | None => Ok by_byte
    end.

Section ClassTable.
Context `{Unicode}.

(** [nm.strip().lower()]. *)
Definition name_key (nm : pystr) : pystr := uni_lower (strip nm).

Definition add_ct_name (v : json) (by_name : list (pystr * json)) (nm : option pystr)
    : list (pystr * json) :=
  match nm with
  | Some nm => snd (dsetdefault (name_key nm) v by_name)
  | None => by_name
  end.

Definition ct_of_dbc_row (d : dbc) (by_name : list (pystr * json)) (r : list Z)
    : res (list (pystr * json)) :=
  a ← index r 6; b ← index r 1;
  let na := dbc_str d a in let nb := dbc_str d b in
  k ← index r 0;
  Ok (add_ct_name (JInt k) (add_ct_name (JInt k) by_name na) nb).

(** A name of the export: falsy values are skipped, and only a string has
    [strip]. *)
Definition add_ct_json (row : json) (by_name : list (pystr * json)) (nm : json)
    : res (list (pystr * json)) :=
  if py_truthy nm then
    match nm with
    | JStr s => v ← jitem row (lit "ID"); Ok (snd (dsetdefault (name_key s) v by_name))
    | _ => Err AttributeError
    end
  else Ok by_name.

Definition ct_of_json_row (by_name : list (pystr * json)) (row : json) : res (list (pystr * json)) :=
  a ← jget row (lit "Display") JNull; b ← jget row (lit "Name") JNull;
  d ← add_ct_json row by_name a; add_ct_json row d b.

(** A missing table ends the program ([SystemExit]). *)
Definition classtypes (src : ct_source) : res (list (pystr * json)) :=
  match src with
  | CtDbc data => d ← _read_dbc data; res_fold (ct_of_dbc_row d) [] (db_recs d)
  | CtExport rows => l ← py_iter rows; res_fold ct_of_json_row [] l
  | CtMissing => Err RuntimeError
  end.

(** The join: the display name first, then the internal one. *)
Fixpoint join_names (by_name : list (pystr * json)) (keys : list pystr) : option json :=
  match keys with
  | [] => None
  | [] :: keys => join_names by_name keys
  | key :: keys =>
      match dget (name_key key) by_name with
      | Some JNull | None => join_names by_name keys
      | Some hit => Some hit
      end
  end.

Definition join_class (by_name : list (pystr * json)) (i : class_info) : class_info :=
  match join_names by_name [ci_name i; ci_internal i] with
  | Some hit => set_ci_classtype (Some hit) i
  | None => i
  end.

Definition coa_classes (chr : bytes) (src : ct_source) : res (list (Z * class_info)) :=
  d ← _read_dbc chr;
  by_byte ← res_fold (read_class_row d) [] (db_recs d);
  by_name ← classtypes src;
  Ok (map (fun bi => (fst bi, join_class by_name (snd bi))) by_byte).
End ClassTable.

Definition unmatched (by_byte : list (Z * class_info)) : list class_info :=
  filter (fun i => ci_classtype i = None) (map snd by_byte).

Definition class_names (by_byte : list (Z * class_info)) : list (Z * pystr) :=
  map (fun bi => (fst bi, ci_name (snd bi))) by_byte.

(** ** The advancement tree *)

Record ca_node := CaNode { cn_id : Z; cn_spell : Z; cn_tab : Z; cn_name : pystr }.

Definition add_node (d : dbc) (by_classtype : list (Z * list ca_node)) (r : list Z)
    : res (list (Z * list ca_node)) :=
  ct ← index r CA_COL_CLASSTYPE;
  let '(old, by_classtype) := dsetdefault ct [] by_classtype in
  i ← index r CA_COL_ID; sp ← index r CA_COL_SPELL; tab ← index r CA_COL_TABTYPE;
  nm ← index r CA_COL_NAME;
  Ok (dset ct (old ++ [CaNode i sp tab (default [] (dbc_str d nm))]) by_classtype).

Definition ca_tree (data : bytes) : res (list (Z * list ca_node)) :=
  d ← _read_dbc data; res_fold (add_node d) [] (db_recs d).

Definition entries_for (by_classtype : list (Z * list ca_node)) (classtype : Z) : list ca_node :=
  default [] (dget classtype by_classtype).

(** ** Essence *)

Definition essence_rows (data : bytes) : res (list (list Z)) := d ← _read_dbc data; Ok (db_recs d).

(** [r[3] or r[4] or r[5] or r[6]], from left to right. *)
Fixpoint any_flag (r : list Z) (cols : list Z) : res bool :=
  match cols with
  | [] => Ok false
  | c :: cols => v ← index r c; if v =? 0 then any_flag r cols else Ok true
  end.

Definition curve_row (family : Z) (d : list (Z * (Z * Z))) (r : list Z) : res (list (Z * (Z * Z))) :=
  k ← index r 2;
  if k =? family then
    fl ← any_flag r [3; 4; 5; 6];
    if (fl : bool) then Ok d
    else l ← index r 1; a ← index r 7; t ← index r 8; Ok (dset l (a, t) d)
  else Ok d.

(** [Essence.curve]; the memo it keeps has no other effect. *)
Definition curve (rows : list (list Z)) (family : Z) : res (list (Z * (Z * Z))) :=
  res_fold (curve_row family) [] rows.

Definition budget (rows : list (list Z)) (family level : Z) : res (Z * Z) :=
  c ← curve rows family;
  match c with
  | [] => Ok (0, 0)
  | _ =>
      match dget level c with
      | Some p => Ok p
      | None =>
          lo ← min_key c; hi ← max_key c;
          res_of_option KeyError (dget (if level >? hi then hi else lo) c)
      end
  end.

Definition rows_for (rows : list (list Z)) (family : Z) : res (list (list Z)) :=
  ks ← res_map (fun r => index r 2) rows;
  Ok (map snd (filter (fun kr => fst kr = family) (zip ks rows))).

(** ** The wire formats ported from world_server.py *)

Definition coa_essence_budget (row_id level family ability talent combo : Z) : res bytes :=
  packIs [row_id; level; family;
          Z.land (Z.shiftr combo 0) 1; Z.land (Z.shiftr combo 1) 1;
          Z.land (Z.shiftr combo 2) 1; Z.land (Z.shiftr combo 3) 1; ability; talent].

Definition coa_known_entries (records : list ca_record) : res bytes :=
  n ← packI (pylen records);
  res_fold (fun out r =>
    h ← packIs [Z.land (cr_id r) 0xFFFFFFFF; Z.land (cr_rank r) 0xFFFFFFFF; Z.land (cr_unk0c r) 0xFFFFFFFF];
    f ← packB (Z.land (cr_flag r) 0xFF);
    t ← packIs [Z.land (cr_unk18 r) 0xFFFFFFFF; Z.land (cr_unk1c r) 0xFFFFFFFF];
    Ok (out ++ h ++ f ++ t)) n records.

Fixpoint coa_parse_records (n : nat) (body : bytes) (off : Z) : res (list ca_record) :=
  match n with
  | O => Ok []
  | S n =>
      h ← unpack_Is 3 body off;
      flag ← index body (off + 12);
      t ← unpack_Is 2 body (off + 13);
      rest ← coa_parse_records n body (off + 21);
      Ok (CaRecord (col h 0) (col h 1) (col h 2) flag (col t 0) (col t 1) :: rest)
  end.

Definition coa_parse_known_entries (body : bytes) : res (list ca_record) :=
  if pylen body <? 4 then Ok []
  else
    count ← unpackI body 0;
    coa_parse_records (Z.to_nat (Z.min count ((pylen body - 4) / 21))) body 4.

(** ** The character list *)

Record enum_acc := EnumAcc {
  ea_off : Z; ea_out : bytes; ea_changed : list (pystr * Z * Z);
  ea_roster : list (Z * pystr); ea_looks : list (Z * (Z * Z)) }.

(** [rec[class_off - start] = want] on a bytearray. *)
Definition set_byte (l : bytes) (i v : Z) : res bytes :=
  if (0 <=? v) && (v <? 256) then Ok (<[Z.to_nat i := v]> l) else Err ValueError.

(** One record of the list. *)
Definition enum_record (class_for_name : pystr -> option Z) (body : bytes) (acc : enum_acc)
    : res enum_acc :=
  let start := ea_off acc in
  guid ← unpackQ body start;
  z ← res_of_option ValueError (find_nul body (start + 8));
  let name := utf8_decode_replace (slice (start + 8) z body) in
  let race_off := z + 1 in
  let class_off := z + 2 in
  let off := z + 1 + 3 + 5 + 1 + (4 + 4) + 12 + 4 + (4 + 4) + 1 + 12 + 23 * 9 in
  if off >? pylen body then Err ValueError
  else
    let rec := slice start off body in
    was ← index rec (class_off - start);
    rc ← match class_for_name name with
         | Some want =>
             if was =? want then Ok (rec, [])
             else r ← set_byte rec (class_off - start) want; Ok (r, [(name, was, want)])
         | None => Ok (rec, [])
         end;
    race ← index body race_off;
    gender ← index body (race_off + 2);
    Ok (EnumAcc off (ea_out acc ++ fst rc) (ea_changed acc ++ snd rc)
          (dset guid name (ea_roster acc)) (dset guid (race, gender) (ea_looks acc))).

Fixpoint enum_records (class_for_name : pystr -> option Z) (body : bytes) (n : nat) (acc : enum_acc)
    : res enum_acc :=
  match n with
  | O => Ok acc
  | S n => a ← enum_record class_for_name body acc; enum_records class_for_name body n a
  end.

(** The four results; [Err] stands for the single "parse failed" entry. *)
Record enum_result := EnumResult {
  er_body : bytes; er_changed : res (list (pystr * Z * Z));
  er_roster : list (Z * pystr); er_looks : list (Z * (Z * Z)) }.

Definition rewrite_char_enum (body : bytes) (class_for_name : pystr -> option Z) : res enum_result :=
  match body with
  | [] => Ok (EnumResult body (Ok []) [] [])
  | count :: _ =>
      match (acc ← enum_records class_for_name body (Z.to_nat count) (EnumAcc 1 [count] [] [] []);
             if ea_off acc =? pylen body then Ok acc else Err ValueError) with
      | Ok acc => Ok (EnumResult (ea_out acc) (Ok (ea_changed acc)) (ea_roster acc) (ea_looks acc))
      | Err (IndexError as e) | Err (ValueError as e) | Err (StructError as e) =>
          Ok (EnumResult body (Err e) [] [])
      | Err e => Err e
      end
  end.

(** race, class, gender and power in one word. *)
Definition bytes0_for (race clas gender power : Z) : Z :=
  Z.lor (Z.lor (Z.lor (Z.land race 0xFF) (Z.shiftl (Z.land clas 0xFF) 8))
               (Z.shiftl (Z.land gender 0xFF) 16))
        (Z.shiftl (Z.land power 0xFF) 24).

(** ** The state store *)

(** {"class": byte, "entries": [...]}: both writers leave "entries" present. *)
Record coa_entry := CoaEntry { ce_class : option Z; ce_entries : list ca_record }.

Abbreviation coa_data := (list (pystr * coa_entry)) (only parsing).

Section StateStore.
Context `{Unicode}.

Definition coa_set_class (data : coa_data) (name : pystr) (class_byte : Z) : coa_data :=
  let key := uni_lower name in
  let e := default (CoaEntry None []) (dget key data) in
  dset key (CoaEntry (Some class_byte) (ce_entries e)) data.

Definition coa_get_class (data : coa_data) (name : pystr) : option Z :=
  e ← dget (uni_lower name) data; ce_class e.

Definition coa_set_entries (data : coa_data) (name : pystr) (records : list ca_record) : coa_data :=
  let key := uni_lower name in
  let e := default (CoaEntry None []) (dget key data) in
  dset key (CoaEntry (ce_class e) records) data.

Definition coa_get_entries (data : coa_data) (name : pystr) : list ca_record :=
  match dget (uni_lower name) data with Some e => ce_entries e | None => [] end.
End StateStore.

(** [json.dump] of the store and what [CoAState.__init__] reads back: the file
    is written by [_flush] alone, so the reader is defined on its image. *)
Definition ca_record_json (r : ca_record) : json :=
  JList [JInt (cr_id r); JInt (cr_rank r); JInt (cr_unk0c r); JInt (cr_flag r); JInt (cr_unk18 r); JInt (cr_unk1c r)].

Definition entry_json (e : coa_entry) : json :=
  JDict (match ce_class e with Some c => [(lit "class", JInt c)] | None => [] end
         ++ [(lit "entries", JList (map ca_record_json (ce_entries e)))]).

Definition state_json (data : coa_data) : jdict := map (fun ke => (fst ke, entry_json (snd ke))) data.

Definition record_of_json (v : json) : option ca_record :=
  match v with
  | JList [JInt a; JInt b; JInt c; JInt d; JInt e; JInt f] => Some (CaRecord a b c d e f)
  | _ => None
  end.

Definition entry_of_json (v : json) : option coa_entry :=
  match v with
  | JDict d =>
      match dget (lit "entries") d with
      | Some (JList rows) =>
          rs ← mapM record_of_json rows;
          match dget (lit "class") d with
          | Some (JInt c) => Some (CoaEntry (Some c) rs)
          | Some _ => None
          | None => Some (CoaEntry None rs)
          end
      | _ => None
      end
  | _ => None
  end.

Definition state_of_json (d : jdict) : option coa_data :=
  mapM (fun kv => e ← entry_of_json (snd kv); Some (fst kv, e)) d.
