(* ===== verification/CoaModeSpec.v ===== *)
(** * The CoA tables and state: theorems

    The ported wire formats and essence curves are world_server.py's; the class
    join pairs rows by name; SMSG_CHAR_ENUM is either rewritten record by record
    with the class byte alone replaced, or left as it came; the store keeps one
    entry per name in lower case. *)
From S2P Require Import Prelude Wire PyFloat Text Format Json Consts Chars Dbc Known Builders Tsv CoaMode.

(** ** The ports *)

Lemma coa_essence_budget_eq row_id level family ability talent combo :
  coa_essence_budget row_id level family ability talent combo
  = smsg_ca_essence_budget row_id level ability talent combo (Some family).
Proof. reflexivity. Qed.

Lemma packI_word v : packI (Z.land v 0xFFFFFFFF) = Ok (u32le v).
Proof. by rewrite packI_land, u32le_eq. Qed.

Lemma packB_byte v : packB (Z.land v 0xFF) = Ok [Z.land v 0xFF].
Proof.
  unfold packB. rewrite pack_u_ok.
  - f_equal. cbn [le]. f_equal. rewrite land_ones8. by rewrite Z.mod_mod.
  - rewrite land_ones8. apply Z.mod_pos_bound. lia.
Qed.

Lemma coa_known_entries_fold rs out :
  res_fold (fun out r =>
    h ← packIs [Z.land (cr_id r) 0xFFFFFFFF; Z.land (cr_rank r) 0xFFFFFFFF; Z.land (cr_unk0c r) 0xFFFFFFFF];
    f ← packB (Z.land (cr_flag r) 0xFF);
    t ← packIs [Z.land (cr_unk18 r) 0xFFFFFFFF; Z.land (cr_unk1c r) 0xFFFFFFFF];
    Ok (out ++ h ++ f ++ t)) out rs
  = Ok (out ++ concat (map pack_ca_record rs)).
Proof.
  revert out. induction rs as [|r rs IH]; intros out; cbn [res_fold map concat]; [by rewrite app_nil_r|].
  unfold packIs. cbn [res_map]. rewrite !packI_word, packB_byte. cbn [mbind res_bind concat].
  rewrite IH. unfold pack_ca_record. by rewrite ?app_nil_r, <- !app_assoc.
Qed.

Lemma coa_known_entries_eq rs : coa_known_entries rs = smsg_ca_known_entries rs.
Proof.
  unfold coa_known_entries, smsg_ca_known_entries. destruct (packI (pylen rs)); [|done].
  cbn [mbind res_bind]. by rewrite coa_known_entries_fold.
Qed.

(** Words read one at a time are words read together, in value and in error. *)
Lemma unpack_Is_S n b off :
  0 <= off -> unpack_Is (S n) b off = (v ← unpackI b off; l ← unpack_Is n b (off + 4); Ok (v :: l)).
Proof.
  intros Ho. unfold unpack_Is, unpackI, unpack_u. rewrite (proj2 (Z.leb_le 0 off)) by lia.
  rewrite (proj2 (Z.leb_le 0 (off + 4))) by lia. cbn [andb].
  change (Z.of_nat 4) with 4.
  destruct (Z.leb_spec (off + 4 * Z.of_nat (S n)) (pylen b)) as [H|H];
  destruct (Z.leb_spec (off + 4) (pylen b)); cbn [mbind res_bind]; try lia.
  - rewrite (proj2 (Z.leb_le (off + 4 + 4 * Z.of_nat n) (pylen b))) by lia. cbn [mbind res_bind].
    cbn [seq map]. change (4 * Z.of_nat 0) with 0. rewrite !Z.add_0_r. f_equal. f_equal.
    rewrite <- seq_shift, map_map. apply map_ext. intros k. f_equal. f_equal; lia.
  - by rewrite (proj2 (Z.leb_gt (off + 4 + 4 * Z.of_nat n) (pylen b))) by lia.
  - done.
Qed.

Lemma unpack_Is_0 b off : 0 <= off -> off <= pylen b -> unpack_Is 0 b off = Ok [].
Proof.
  intros H1 H2. unfold unpack_Is. change (4 * Z.of_nat 0) with 0.
  by rewrite (proj2 (Z.leb_le 0 off)), (proj2 (Z.leb_le (off + 0) _)) by lia.
Qed.

Lemma unpackI_fits b off v : unpackI b off = Ok v -> 0 <= off /\ off + 4 <= pylen b.
Proof.
  unfold unpackI, unpack_u. change (Z.of_nat 4) with 4. split_match; [|done]. zbool. lia.
Qed.

Lemma unpack_Is_2 b off :
  0 <= off -> unpack_Is 2 b off = (x ← unpackI b off; y ← unpackI b (off + 4); Ok [x; y]).
Proof.
  intros Ho. rewrite unpack_Is_S by lia. destruct (unpackI b off) as [x|]; cbn [mbind res_bind]; [|done].
  rewrite unpack_Is_S by lia. destruct (unpackI b (off + 4)) as [y|] eqn:E; cbn [mbind res_bind]; [|done].
  apply unpackI_fits in E. by rewrite unpack_Is_0 by lia.
Qed.

Lemma unpack_Is_3 b off :
  0 <= off ->
  unpack_Is 3 b off
  = (x ← unpackI b off; y ← unpackI b (off + 4); z ← unpackI b (off + 8); Ok [x; y; z]).
Proof.
  intros Ho. rewrite unpack_Is_S by lia. destruct (unpackI b off) as [x|]; cbn [mbind res_bind]; [|done].
  rewrite unpack_Is_2 by lia. replace (off + 4 + 4) with (off + 8) by lia.
  destruct (unpackI b (off + 4)); cbn [mbind res_bind]; [|done].
  by destruct (unpackI b (off + 8)).
Qed.

Lemma coa_parse_records_eq n body off :
  0 <= off -> coa_parse_records n body off = parse_records n body off.
Proof.
  revert off. induction n as [|n IH]; intros off Ho; [done|]. cbn [coa_parse_records parse_records].
  rewrite unpack_Is_3, unpack_Is_2, IH by lia. replace (off + 13 + 4) with (off + 17) by lia.
  destruct (unpackI body off); cbn [mbind res_bind]; [|done].
  destruct (unpackI body (off + 4)); cbn [mbind res_bind]; [|done].
  destruct (unpackI body (off + 8)); cbn [mbind res_bind]; [|done].
  destruct (index body (off + 12)); cbn [mbind res_bind]; [|done].
  destruct (unpackI body (off + 13)); cbn [mbind res_bind]; [|done].
  by destruct (unpackI body (off + 17)).
Qed.

Lemma coa_parse_known_entries_eq body :
  coa_parse_known_entries body = parse_cmsg_ca_known_entries body.
Proof.
  unfold coa_parse_known_entries, parse_cmsg_ca_known_entries.
  destruct (pylen body <? 4); [done|]. destruct (unpackI body 0); [|done]. cbn [mbind res_bind].
  by apply coa_parse_records_eq.
Qed.

(** *** Essence *)

Lemma index_col r i : 0 <= i < pylen r -> index r i = Ok (col r i).
Proof.
  intros H. unfold index, col. rewrite (proj2 (Z.ltb_ge _ _)) by lia. unfold pylen in H.
  destruct (lookup_lt_is_Some_2 r (Z.to_nat i)) as [v Hv]; [lia|].
  rewrite Hv. cbn [res_of_option]. by rewrite (nth_lookup_Some r (Z.to_nat i) 0 v Hv).
Qed.

Lemma any_flag_cols r cols :
  Forall (fun c => 0 <= c < pylen r) cols ->
  any_flag r cols = Ok (existsb (fun c => negb (col r c =? 0)) cols).
Proof.
  induction 1 as [|c cols Hc _ IH]; [done|]. cbn [any_flag existsb].
  rewrite (index_col r c Hc). cbn [mbind res_bind]. destruct (col r c =? 0); [exact IH|done].
Qed.

Lemma curve_eq rows family :
  Forall (fun r => 9 <= pylen r) rows -> curve rows family = Ok (essence_curve rows (Some family)).
Proof.
  intros H. unfold curve, essence_curve. cbn [default from_option id]. generalize (@nil (Z * (Z * Z))).
  induction H as [|r rows Hr _ IH]; intros acc; [done|]. cbn [res_fold fold_left].
  assert (curve_row family acc r = Ok (if (col r 2 =? family)
         && negb (negb (col r 3 =? 0) || negb (col r 4 =? 0) || negb (col r 5 =? 0)
                  || negb (col r 6 =? 0))
      then dset (col r 1) (col r 7, col r 8) acc else acc)) as ->.
  { unfold curve_row. rewrite !index_col, any_flag_cols by (repeat constructor; lia).
    cbn [mbind res_bind existsb]. rewrite orb_false_r. destruct (col r 2 =? family); [|done].
    cbn [mbind res_bind andb]. rewrite !orb_assoc. by destruct (_ || _). }
  cbn [mbind res_bind]. apply IH.
Qed.

Lemma budget_eq rows family level :
  Forall (fun r => 9 <= pylen r) rows -> budget rows family level = essence_for None rows level (Some family).
Proof. intros H. unfold budget, essence_for. rewrite (curve_eq rows family H). done. Qed.

(** The functions coa_mode.py says it ports from world_server.py are
    world_server.py's, on every input: the two packet builders, the reader of
    uploads, and the essence curve of rows that have their nine columns. *)
Theorem ports_agree :
  (forall row_id level family ability talent combo,
     coa_essence_budget row_id level family ability talent combo
     = smsg_ca_essence_budget row_id level ability talent combo (Some family))
  /\ (forall rs, coa_known_entries rs = smsg_ca_known_entries rs)
  /\ (forall body, coa_parse_known_entries body = parse_cmsg_ca_known_entries body)
  /\ (forall rows family level, Forall (fun r => 9 <= pylen r) rows ->
        budget rows family level = essence_for None rows level (Some family)).
Proof.
  split; [exact coa_essence_budget_eq|]. split; [exact coa_known_entries_eq|].
  split; [exact coa_parse_known_entries_eq|]. intros rows family level. apply budget_eq.
Qed.

(** ** The character list *)

(** A record of the list: what the layout names, the 258 bytes behind the
    gender as they are. *)
Record enum_char := EnumChar {
  ec_guid : Z; ec_name : bytes; ec_race : Z; ec_class : Z; ec_gender : Z; ec_rest : bytes }.

Definition enum_char_ok (c : enum_char) : Prop :=
  0 <= ec_guid c < 2 ^ 64 /\ 0 ∉ ec_name c /\ pylen (ec_rest c) = 258.

Definition enum_char_bytes (c : enum_char) : bytes :=
  le 8 (ec_guid c) ++ ec_name c ++ [0] ++ [ec_race c; ec_class c; ec_gender c] ++ ec_rest c.

Definition enum_body (cs : list enum_char) : bytes :=
  pylen cs :: concat (map enum_char_bytes cs).

Definition ec_text (c : enum_char) : pystr := utf8_decode_replace (ec_name c).

(** The record with the class its name is known under. *)
Definition project (f : pystr -> option Z) (c : enum_char) : enum_char :=
  EnumChar (ec_guid c) (ec_name c) (ec_race c) (default (ec_class c) (f (ec_text c))) (ec_gender c) (ec_rest c).

Definition change_of (f : pystr -> option Z) (c : enum_char) : list (pystr * Z * Z) :=
  match f (ec_text c) with
  | Some want => if ec_class c =? want then [] else [(ec_text c, ec_class c, want)]
  | None => []
  end.

Definition roster_of (cs : list enum_char) (d : list (Z * pystr)) : list (Z * pystr) :=
  fold_left (fun d c => dset (ec_guid c) (ec_text c) d) cs d.

Definition looks_of (cs : list enum_char) (d : list (Z * (Z * Z))) : list (Z * (Z * Z)) :=
  fold_left (fun d c => dset (ec_guid c) (ec_race c, ec_gender c) d) cs d.

Definition byte_classes (f : pystr -> option Z) : Prop := forall n w, f n = Some w -> is_byte w.

Lemma pylen_enum_char c : pylen (ec_rest c) = 258 -> pylen (enum_char_bytes c) = 270 + pylen (ec_name c).
Proof. intros H. unfold enum_char_bytes. rewrite !pylen_app, H. autorewrite with pylen. cbn. lia. Qed.

Lemma insert_mid {A} (a b : list A) x y i : i = length a -> <[i := y]> (a ++ x :: b) = a ++ y :: b.
Proof. intros ->. induction a as [|z a IH]; [done|]. exact (f_equal (cons z) IH). Qed.

Lemma enum_record_ok f pre c post out ch ro lo :
  byte_classes f -> enum_char_ok c ->
  enum_record f (pre ++ enum_char_bytes c ++ post) (EnumAcc (pylen pre) out ch ro lo)
  = Ok (EnumAcc (pylen (pre ++ enum_char_bytes c)) (out ++ enum_char_bytes (project f c)) (ch ++ change_of f c)
          (dset (ec_guid c) (ec_text c) ro) (dset (ec_guid c) (ec_race c, ec_gender c) lo)).
Proof.
  intros Hf (Hg & Hn & Hr). unfold enum_record. cbn [ea_off ea_out ea_changed ea_roster ea_looks].
  set (body := pre ++ enum_char_bytes c ++ post).
  pose proof (pylen_nonneg pre) as P0. pose proof (pylen_nonneg (ec_name c)) as P1.
  pose proof (pylen_nonneg post) as P2.
  set (fields := [ec_race c; ec_class c; ec_gender c] ++ ec_rest c).
  assert (body = pre ++ le 8 (ec_guid c) ++ ec_name c ++ [0] ++ fields ++ post) as Eb
    by (unfold body, enum_char_bytes, fields; by rewrite <- !app_assoc).
  assert (unpackQ body (pylen pre) = Ok (ec_guid c)) as ->
    by (rewrite Eb; by apply (unpack_u_app 8)).
  cbn [mbind res_bind].
  assert (find_nul body (pylen pre + 8) = Some (pylen pre + 8 + pylen (ec_name c))) as ->.
  { unfold find_nul. rewrite Eb, app_assoc, slice_from_app by (autorewrite with pylen; lia).
    cbn [app]. rewrite find_byte_app by done. done. }
  cbn [res_of_option mbind res_bind].
  set (z := pylen pre + 8 + pylen (ec_name c)).
  assert (slice (pylen pre + 8) z body = ec_name c) as ->.
  { rewrite Eb, app_assoc. apply slice_app_mid; autorewrite with pylen; unfold z; lia. }
  fold (ec_text c).
  assert (z + 1 + 3 + 5 + 1 + (4 + 4) + 12 + 4 + (4 + 4) + 1 + 12 + 23 * 9
          = pylen (pre ++ enum_char_bytes c)) as Hoff.
  { rewrite pylen_app, pylen_enum_char by done. unfold z. lia. }
  rewrite Hoff.
  assert (pylen body = pylen (pre ++ enum_char_bytes c) + pylen post) as Hlen
    by (unfold body; rewrite app_assoc; apply pylen_app).
  rewrite Z.gtb_ltb, (proj2 (Z.ltb_ge _ _)) by lia.
  assert (slice (pylen pre) (pylen (pre ++ enum_char_bytes c)) body = enum_char_bytes c) as ->.
  { apply slice_app_mid; rewrite ?pylen_app; lia. }
  set (head := le 8 (ec_guid c) ++ ec_name c ++ [0; ec_race c]).
  assert (enum_char_bytes c = head ++ ec_class c :: [ec_gender c] ++ ec_rest c) as Ec
    by (unfold enum_char_bytes, head; rewrite <- !app_assoc; done).
  assert (z + 2 - pylen pre = pylen head) as Ez
    by (unfold head, z; rewrite !pylen_app; autorewrite with pylen; cbn; lia).
  rewrite Ez. rewrite Ec at 1. rewrite index_app by done. cbn [mbind res_bind].
  assert (exists r, (match f (ec_text c) with
         | Some want =>
             if ec_class c =? want then Ok (enum_char_bytes c, [])
             else r ← set_byte (enum_char_bytes c) (pylen head) want; Ok (r, [(ec_text c, ec_class c, want)])
         | None => Ok (enum_char_bytes c, [])
         end) = Ok r /\ fst r = enum_char_bytes (project f c) /\ snd r = change_of f c) as (r & -> & Er1 & Er2).
  { unfold project, change_of. destruct (f (ec_text c)) as [want|] eqn:Ef; cbn [default from_option id].
    - destruct (Z.eqb_spec (ec_class c) want) as [<-|Hne]; [eexists; split; [reflexivity|]; by destruct c|].
      unfold set_byte. specialize (Hf _ _ Ef). unfold is_byte in Hf.
      rewrite (proj2 (Z.leb_le 0 want)), (proj2 (Z.ltb_lt want 256)) by lia. cbn [andb mbind res_bind].
      eexists. split; [reflexivity|]. split; [|done]. cbn [fst]. rewrite Ec, insert_mid by (unfold pylen; lia).
      unfold head, enum_char_bytes. cbn [ec_guid ec_name ec_race ec_class ec_gender ec_rest].
      rewrite <- !app_assoc. done.
    - eexists; split; [reflexivity|]; by destruct c. }
  cbn [mbind res_bind]. rewrite Er1, Er2.
  assert (forall k v post', fields ++ post = k ++ v :: post' -> index body (z + 1 + pylen k) = Ok v) as Hix.
  { intros k v post' E. rewrite Eb, E, !app_assoc. apply index_app. unfold z. autorewrite with pylen. lia. }
  pose proof (Hix [] (ec_race c) _ eq_refl) as H1. pose proof (Hix [ec_race c; ec_class c] (ec_gender c) _ eq_refl) as H2.
  rewrite pylen_nil, Z.add_0_r in H1. rewrite H1. cbn [mbind res_bind].
  change (pylen [ec_race c; ec_class c]) with 2 in H2. rewrite H2. done.
Qed.

Lemma enum_records_ok f cs : byte_classes f -> Forall enum_char_ok cs -> forall pre post out ch ro lo,
  enum_records f (pre ++ concat (map enum_char_bytes cs) ++ post) (length cs) (EnumAcc (pylen pre) out ch ro lo)
  = Ok (EnumAcc (pylen (pre ++ concat (map enum_char_bytes cs)))
          (out ++ concat (map enum_char_bytes (map (project f) cs))) (ch ++ flat_map (change_of f) cs)
          (roster_of cs ro) (looks_of cs lo)).
Proof.
  intros Hf. induction 1 as [|c cs Hc _ IH]; intros pre post out ch ro lo.
  - cbn. by rewrite !app_nil_r.
  - cbn [length enum_records map concat flat_map]. rewrite <- (app_assoc (enum_char_bytes c)).
    rewrite enum_record_ok by done. cbn [mbind res_bind].
    rewrite (app_assoc pre (enum_char_bytes c)), IH. rewrite <- !app_assoc. done.
Qed.

(** What a record that was read looks like. *)
Lemma enum_record_inv f pre b out ch ro lo acc :
  is_bytes b -> enum_record f (pre ++ b) (EnumAcc (pylen pre) out ch ro lo) = Ok acc ->
  exists c post, b = enum_char_bytes c ++ post /\ enum_char_ok c.
Proof.
  intros Hb H. unfold enum_record in H. cbn [ea_off] in H. inv_bind H. rename E into Eg, v into gv.
  assert (8 <= pylen b) as H8.
  { unfold unpackQ, unpack_u in Eg. destruct (_ && _) eqn:E1; [|done]. zbool. rewrite pylen_app in *. lia. }
  destruct (split_at_len b 8 H8) as (g & b1 & -> & Lg). clear Eg H8.
  apply is_bytes_app in Hb as [Hg Hb1].
  inv_bind H. unfold find_nul in E. rewrite app_assoc, slice_from_app in E
    by (rewrite pylen_app; unfold pylen; lia).
  destruct (find_byte 0 b1) as [k|] eqn:Ek; [|done]. cbn in E. apply Ok_inj in E. subst v.
  destruct (find_byte_split _ _ _ Ek) as (nm & b2 & -> & Hnul & Lk).
  destruct (_ >? _) eqn:Eo in H; [done|]. rewrite Z.gtb_ltb in Eo. zbool. clear H.
  assert (Z.of_nat 3 <= pylen b2) as H3
    by (rewrite !pylen_app, pylen_cons in Eo; unfold pylen in *; lia).
  destruct (split_at_len b2 3 H3) as ([|r [|c [|s [|]]]] & b3 & -> & L3); cbn in L3; try lia.
  assert (Z.of_nat 258 <= pylen b3) as H258
    by (rewrite !pylen_app, pylen_cons, pylen_app, !pylen_cons, pylen_nil in Eo; unfold pylen in *; lia).
  destruct (split_at_len b3 258 H258) as (rest & post & -> & Lr).
  exists (EnumChar (unle g) nm r c s rest), post. split.
  - unfold enum_char_bytes. cbn [ec_guid ec_name ec_race ec_class ec_gender ec_rest].
    rewrite <- Lg, le_unle by done. by rewrite <- !app_assoc.
  - split; [|split]; cbn [ec_guid ec_name ec_rest]; [|done|unfold pylen; lia].
    pose proof (unle_bound g Hg) as Hu. unfold pylen in Hu. rewrite Lg in Hu. exact Hu.
Qed.

Lemma enum_records_inv f n : byte_classes f -> forall pre b out ch ro lo acc,
  is_bytes b -> enum_records f (pre ++ b) n (EnumAcc (pylen pre) out ch ro lo) = Ok acc ->
  exists cs post, b = concat (map enum_char_bytes cs) ++ post /\ length cs = n /\ Forall enum_char_ok cs.
Proof.
  intros Hf. induction n as [|n IH]; intros pre b out ch ro lo acc Hb H.
  - exists [], b. done.
  - cbn [enum_records] in H. inv_bind H.
    destruct (enum_record_inv _ _ _ _ _ _ _ _ Hb E) as (c & post & -> & Hc).
    rewrite enum_record_ok in E by done. apply Ok_inj in E. subst v.
    apply is_bytes_app in Hb as [_ Hp]. rewrite app_assoc in H.
    destruct (IH _ _ _ _ _ _ _ Hp H) as (cs & post' & -> & Hl & Hcs).
    exists (c :: cs), post'. cbn [map concat length]. rewrite <- app_assoc, Hl. auto.
Qed.

Definition well_formed_enum (body : bytes) (cs : list enum_char) : Prop :=
  body = enum_body cs /\ Forall enum_char_ok cs /\ pylen cs < 256.

(** Errors of the loop are all of the kinds the handler catches. *)
Definition caught (e : exn) : Prop := e = IndexError \/ e = ValueError \/ e = StructError.

Lemma index_caught {A} (l : list A) i e : index l i = Err e -> caught e.
Proof.
  unfold index, caught. destruct (i <? 0); [intros [= <-]; auto|].
  destruct (l !! _); cbn; [done|]. intros [= <-]; auto.
Qed.

Lemma enum_record_caught f body acc e : enum_record f body acc = Err e -> caught e.
Proof.
  unfold enum_record. cbv zeta.
  destruct (unpackQ body (ea_off acc)) as [g|e1] eqn:E1; cbn [mbind res_bind].
  2:{ intros [= <-]. unfold unpackQ, unpack_u in E1. destruct (_ && _); [done|]. injection E1 as <-. unfold caught; auto. }
  destruct (find_nul body (ea_off acc + 8)) as [z|]; cbn [res_of_option mbind res_bind]; [|intros [= <-]; unfold caught; auto].
  destruct (_ >? _); [intros [= <-]; unfold caught; auto|].
  destruct (index (slice _ _ body) _) as [was|e2] eqn:E2; cbn [mbind res_bind];
    [|intros [= <-]; by eapply index_caught].
  set (rc := match f _ with Some _ => _ | None => _ end).
  assert (forall e, rc = Err e -> caught e) as Hrc.
  { intros e'. unfold rc. destruct (f _) as [w|]; [|done]. destruct (was =? w); [done|].
    unfold set_byte. destruct (_ && _); cbn [mbind res_bind]; [done|]. intros [= <-]. unfold caught; auto. }
  destruct rc as [[rec chg]|e3] eqn:E3; cbn [mbind res_bind]; [|intros [= <-]; by apply Hrc].
  destruct (index body (z + 1)) eqn:E4; cbn [mbind res_bind]; [|intros [= <-]; by eapply index_caught].
  destruct (index body (z + 1 + 2)) eqn:E5; cbn [mbind res_bind]; [done|intros [= <-]; by eapply index_caught].
Qed.

Lemma enum_records_caught f body n : forall acc e, enum_records f body n acc = Err e -> caught e.
Proof.
  induction n as [|n IH]; intros acc e; cbn [enum_records]; [done|].
  destruct (enum_record f body acc) as [a|e1] eqn:E; cbn [mbind res_bind]; [apply IH|].
  intros [= <-]. by eapply enum_record_caught.
Qed.

(** What the rewriting of [enum_body cs] returns. *)
Definition projected (f : pystr -> option Z) (cs : list enum_char) : enum_result :=
  EnumResult (enum_body (map (project f) cs)) (Ok (flat_map (change_of f) cs)) (roster_of cs []) (looks_of cs []).

Lemma rewrite_char_enum_form f body cs :
  byte_classes f -> well_formed_enum body cs -> rewrite_char_enum body f = Ok (projected f cs).
Proof.
  intros Hf (-> & Hcs & Hn). unfold rewrite_char_enum, enum_body.
  replace (Z.to_nat (pylen cs)) with (length cs) by (unfold pylen; lia).
  pose proof (enum_records_ok f cs Hf Hcs [pylen cs] [] [pylen cs] [] [] []) as E.
  rewrite app_nil_r in E. cbn [app] in E.
  change (pylen [pylen cs]) with 1 in E. rewrite E. cbn [mbind res_bind ea_off].
  rewrite Z.eqb_refl. unfold projected, enum_body. cbn [ea_out ea_changed ea_roster ea_looks app].
  do 3 f_equal. unfold pylen. by rewrite length_map.
Qed.

(** C24: Any list the core can send is handled without an exception: a well-formed
    one comes back with the class byte of the characters the store knows
    replaced and nothing else, together with who was changed, the roster and the
    appearances; anything else comes back as it came, with one failure entry
    and empty tables. *)
Theorem char_enum_projected body f :
  is_bytes body -> body <> [] -> byte_classes f ->
  (exists cs, well_formed_enum body cs /\ rewrite_char_enum body f = Ok (projected f cs))
  \/ ((forall cs, ~ well_formed_enum body cs)
      /\ exists e, rewrite_char_enum body f = Ok (EnumResult body (Err e) [] [])).
Proof.
  intros Hb Hne Hf. destruct body as [|count b]; [done|].
  apply Forall_cons in Hb as [Hc Hb]. unfold is_byte in Hc.
  destruct (rewrite_char_enum (count :: b) f) as [r|e0] eqn:Er.
  - destruct (er_changed r) as [ch|e] eqn:Ech.
    + left. pose proof Er as Er0. unfold rewrite_char_enum in Er.
      destruct (enum_records f (count :: b) (Z.to_nat count) _) as [acc|e] eqn:E; cbn [mbind res_bind] in Er;
        [|destruct e; try discriminate; apply Ok_inj in Er; subst r; done].
      destruct (Z.eqb_spec (ea_off acc) (pylen (count :: b))) as [Hoff|]; [|apply Ok_inj in Er; subst r; done].
      clear Er. change (count :: b) with ([count] ++ b) in E. change 1 with (pylen [count]) in E.
      destruct (enum_records_inv f _ Hf _ _ _ _ _ _ _ Hb E) as (cs & post & -> & Hl & Hcs).
      rewrite <- Hl, (enum_records_ok f cs Hf Hcs) in E. apply Ok_inj in E. subst acc. cbn [ea_off] in Hoff.
      assert (post = []) as ->.
      { change (count :: concat (map enum_char_bytes cs) ++ post)
          with ([count] ++ concat (map enum_char_bytes cs) ++ post) in Hoff.
        rewrite !pylen_app in Hoff. destruct post as [|p post]; [done|]. rewrite (pylen_cons p post) in Hoff.
        pose proof (pylen_nonneg post). lia. }
      exists cs. assert (well_formed_enum (count :: concat (map enum_char_bytes cs) ++ []) cs) as Hw.
      { split; [|split]; [|done|unfold pylen; lia]. unfold enum_body. rewrite app_nil_r. f_equal. unfold pylen. lia. }
      split; [exact Hw|]. rewrite <- Er0. by apply rewrite_char_enum_form.
    + right. split.
      * intros cs Hw. rewrite (rewrite_char_enum_form f _ cs Hf Hw) in Er. apply Ok_inj in Er. by subst r.
      * exists e. unfold rewrite_char_enum in Er. revert Er.
        destruct (_ ≫= _) as [acc|e1] eqn:E; [intros Er; apply Ok_inj in Er; by subst r|].
        destruct e1; intros Er; try discriminate; apply Ok_inj in Er; subst r; cbn in Ech; by simplify_eq.
  - exfalso. unfold rewrite_char_enum in Er.
    destruct (enum_records f (count :: b) (Z.to_nat count) _) as [acc|e] eqn:E; cbn [mbind res_bind] in Er.
    + destruct (_ =? _); discriminate.
    + apply enum_records_caught in E. destruct E as [-> | [-> | ->]]; discriminate.
Qed.

Definition sample_char (guid : Z) (name : string) (race class gender : Z) : enum_char :=
  EnumChar guid (lit name) race class gender (replicate 258 7).

Definition sample_enum : bytes := enum_body [sample_char 1 "Bob" 1 1 0; sample_char 2 "Ann" 10 2 1].

Definition sample_classes (n : pystr) : option Z := if decide (n = lit "Ann") then Some 28 else None.

Lemma sample_classes_bytes : byte_classes sample_classes.
Proof. intros n w. unfold sample_classes. destruct (decide _); [|done]. intros [= <-]. unfold is_byte. lia. Qed.

Lemma char_enum_projected_witness :
  rewrite_char_enum sample_enum sample_classes
  = Ok (projected sample_classes [sample_char 1 "Bob" 1 1 0; sample_char 2 "Ann" 10 2 1])
  /\ flat_map (change_of sample_classes) [sample_char 1 "Bob" 1 1 0; sample_char 2 "Ann" 10 2 1] = [(lit "Ann", 2, 28)].
Proof.
  split; [|vm_compute; reflexivity].
  assert (is_bytes sample_enum) as Hb.
  { apply Forall_forall. intros x Hx. assert (forallb (fun v => (0 <=? v) && (v <? 256)) sample_enum = true) as H
      by (vm_compute; reflexivity).
    rewrite forallb_forall in H. apply list_elem_of_In in Hx. specialize (H x Hx). unfold is_byte. zbool. lia. }
  destruct (char_enum_projected sample_enum sample_classes Hb ltac:(discriminate) sample_classes_bytes)
    as [(cs & Hw & E) | (Hno & _)].
  - rewrite E. f_equal. apply (Ok_inj (projected sample_classes cs)). rewrite <- E. vm_compute. reflexivity.
  - exfalso. apply (Hno [sample_char 1 "Bob" 1 1 0; sample_char 2 "Ann" 10 2 1]). split; [reflexivity|].
    split; [|vm_compute; reflexivity].
    repeat constructor; try (vm_compute; congruence); by_decide.
Defined.

(** ** Strings of a WDBC file *)

(** A block of strings, each with its NUL; string [k] starts behind the
    [k] before it. *)
Definition string_block (ws : list bytes) : bytes := concat (map (fun w => w ++ [0]) ws).

Lemma starts_from_app a b i : (b <> []) ->
  0 ∉ a -> starts_from i (a ++ 0 :: b) = (i + pylen a + 1) :: starts_from (i + pylen a + 1) b.
Proof.
  intros Hb. revert i. induction a as [|x a IH]; intros i Hn; cbn [app starts_from].
  - rewrite bool_decide_false by done. change (pylen []) with 0. by rewrite Z.add_0_r.
  - apply not_elem_of_cons in Hn as [Hx Hn]. rewrite (proj2 (Z.eqb_neq x 0)) by congruence. cbn [andb].
    rewrite IH, pylen_cons by done. by replace (i + 1 + pylen a + 1) with (i + (1 + pylen a) + 1) by lia.
Qed.

Lemma string_block_app ws w ws' :
  string_block (ws ++ w :: ws') = string_block ws ++ w ++ 0 :: string_block ws'.
Proof. unfold string_block. rewrite map_app, concat_app. cbn [map concat]. by rewrite <- app_assoc. Qed.

Lemma string_starts ws i w ws' :
  Forall (fun w => 0 ∉ w) ws -> ws <> [] ->
  i + pylen (string_block ws) ∈ starts_from i (string_block (ws ++ w :: ws')).
Proof.
  intros Hn. revert i. induction Hn as [|v ws Hv _ IH]; intros i Hne; [done|].
  change ((v :: ws) ++ w :: ws') with ([] ++ v :: (ws ++ w :: ws')).
  rewrite (string_block_app [] v). change (v :: ws) with ([] ++ v :: ws). rewrite (string_block_app [] v ws).
  cbn [string_block map concat app].
  rewrite starts_from_app; [|rewrite string_block_app; destruct (string_block ws), w; done|done].
  rewrite pylen_app, pylen_cons. destruct ws as [|u ws].
  - replace (i + (pylen v + (1 + pylen (string_block [])))) with (i + pylen v + 1) by (change (pylen (string_block [])) with 0; lia). left.
  - right. replace (i + (pylen v + (1 + pylen (string_block (u :: ws)))))
      with (i + pylen v + 1 + pylen (string_block (u :: ws))) by lia. apply IH. done.
Qed.

(** Every string of a block whose strings have no NUL of their own is read back
    from the offset it starts at, and an empty one reads as absent. *)
Lemma dbc_str_block recs ncol ws w ws' :
  Forall (fun w => 0 ∉ w) (ws ++ w :: ws') ->
  dbc_str (DbcFile recs (string_block (ws ++ w :: ws')) ncol) (pylen (string_block ws))
  = match w with [] => None | _ => Some (utf8_decode_replace w) end.
Proof.
  intros Hn. unfold dbc_str. cbn [db_block].
  apply Forall_app in Hn as [Hn1 Hn2]. apply Forall_cons in Hn2 as [Hw Hn2].
  rewrite bool_decide_true.
  2:{ unfold starts. destruct ws as [|v ws]; [left|right]. by apply (string_starts (v :: ws) 0 w ws'). }
  rewrite string_block_app. unfold find_nul. rewrite slice_from_app by done.
  rewrite find_byte_app by done. cbn [fmap option_fmap option_map].
  destruct w as [|x w].
  - by rewrite (proj2 (Z.leb_le _ _)) by (cbn; lia).
  - rewrite (proj2 (Z.leb_gt _ _)) by (cbn; lia). f_equal. f_equal.
    apply slice_app_mid; unfold pylen; lia.
Qed.

(** ** The join by name *)

Section Join.
Context `{Unicode}.

(** A class type is only ever taken from a row whose own name, cleaned, is the
    class's display or internal name, cleaned: numbers are never compared. *)
Definition joined_by_name (by_name : list (pystr * json)) (i : class_info) : Prop :=
  forall v, ci_classtype i = Some v ->
    exists nm, nm <> [] /\ (nm = ci_name i \/ nm = ci_internal i) /\ dget (name_key nm) by_name = Some v.

Lemma join_names_sound by_name keys v :
  join_names by_name keys = Some v -> exists nm, nm <> [] /\ nm ∈ keys /\ dget (name_key nm) by_name = Some v.
Proof.
  induction keys as [|[|c k] keys IH]; cbn [join_names]; [done| |].
  - intros E. destruct (IH E) as (nm & Hne & Hin & Hd). exists nm. split; [done|]. split; [by right|done].
  - assert (join_names by_name keys = Some v ->
            exists nm, nm <> [] /\ nm ∈ (c :: k) :: keys /\ dget (name_key nm) by_name = Some v) as Hrest.
    { intros E. destruct (IH E) as (nm & Hne & Hin & Hd). exists nm. split; [done|]. split; [by right|done]. }
    destruct (dget (name_key (c :: k)) by_name) as [hit|] eqn:E; [|exact Hrest].
    assert (Some hit = Some v -> exists nm, nm <> [] /\ nm ∈ (c :: k) :: keys /\ dget (name_key nm) by_name = Some v) as Hhit.
    { intros [= ->]. exists (c :: k). split; [done|]. split; [left|done]. }
    destruct hit; [exact Hrest|exact Hhit..].
Qed.

(** Every name the table of a file knows comes from one of the file's rows, with
    that row's id. *)
Definition from_row (d : dbc) (key : pystr) (v : json) : Prop :=
  exists r k off nm, r ∈ db_recs d /\ index r 0 = Ok k /\ v = JInt k
    /\ (index r 6 = Ok off \/ index r 1 = Ok off) /\ dbc_str d off = Some nm /\ key = name_key nm.

Lemma setdefault_inv {K V} `{EqDecision K} (k k' : K) (v v' : V) d :
  dget k' (snd (dsetdefault k v d)) = Some v' -> dget k' d = Some v' \/ (k' = k /\ v' = v).
Proof.
  unfold dsetdefault. destruct (dget k d) eqn:E; cbn [snd]; [auto|].
  rewrite dget_dset. destruct (decide _) as [->|]; [|auto]. intros [= ->]; auto.
Qed.

Lemma add_ct_name_inv v by_name nm key v' :
  dget key (add_ct_name v by_name nm) = Some v' ->
  dget key by_name = Some v' \/ exists s, nm = Some s /\ key = name_key s /\ v' = v.
Proof.
  destruct nm as [s|]; cbn [add_ct_name]; [|auto].
  intros [Hd | [-> ->]]%setdefault_inv; eauto.
Qed.

Lemma ct_dbc_sound d rows by_name by_name' :
  (forall r, r ∈ rows -> r ∈ db_recs d) -> (forall key v, dget key by_name = Some v -> from_row d key v) ->
  res_fold (ct_of_dbc_row d) by_name rows = Ok by_name' ->
  forall key v, dget key by_name' = Some v -> from_row d key v.
Proof.
  revert by_name. induction rows as [|r rows IH]; intros by_name Hin Hi Hf; cbn [res_fold] in Hf.
  - apply Ok_inj in Hf. by subst.
  - inv_bind Hf. refine (IH _ _ _ Hf); [intros r' Hr'; apply Hin; by right|].
    unfold ct_of_dbc_row in E. do 3 inv_bind E. apply Ok_inj in E. subst v.
    intros key v Hk. apply add_ct_name_inv in Hk as [Hk | (s & Hs & -> & ->)].
    + apply add_ct_name_inv in Hk as [Hk | (s & Hs & -> & ->)]; [by apply Hi|].
      exists r, v2, v0, s. repeat split; auto. apply Hin. left.
    + exists r, v2, v1, s. repeat split; auto. apply Hin. left.
Qed.

Definition class_row_ok (b : Z) (i : class_info) : Prop :=
  11 < b /\ ci_class_byte i = b /\ ci_classtype i = None.

Lemma class_rows_ok d rows tbl tbl' :
  res_fold (read_class_row d) tbl rows = Ok tbl' ->
  (forall b i, dget b tbl = Some i -> class_row_ok b i) -> forall b i, dget b tbl' = Some i -> class_row_ok b i.
Proof.
  revert tbl. induction rows as [|r rows IH]; intros tbl Hf Hi; cbn [res_fold] in Hf.
  - apply Ok_inj in Hf. by subst.
  - inv_bind Hf. refine (IH _ Hf _). unfold read_class_row in E. inv_bind E.
    destruct (Z.leb_spec v0 11) as [|H11]; [apply Ok_inj in E; by subst|].
    inv_bind E. destruct (dbc_str d v1) as [name|]; [|apply Ok_inj in E; by subst].
    inv_bind E. apply Ok_inj in E. subst v. intros b i. rewrite dget_dset.
    destruct (decide _) as [->|]; [|apply Hi]. by intros [= <-].
Qed.

(** The class table of the CoA realm holds only ids above 11, each under its own
    id, and a class type in it belongs to a row of the class-type file with the
    same name: the two id spaces are never compared. *)
Theorem classes_joined_by_name chr data d by_byte b i :
  _read_dbc data = Ok d -> coa_classes chr (CtDbc data) = Ok by_byte -> dget b by_byte = Some i ->
  11 < b /\ ci_class_byte i = b
  /\ forall v, ci_classtype i = Some v ->
       exists nm, nm <> [] /\ (nm = ci_name i \/ nm = ci_internal i) /\ from_row d (name_key nm) v.
Proof.
  intros Hd Hc Hb. unfold coa_classes in Hc. inv_bind Hc. rename v into c. inv_bind Hc. rename v into tbl.
  inv_bind Hc. rename v into by_name. apply Ok_inj in Hc. subst by_byte.
  assert (exists j, dget b tbl = Some j /\ i = join_class by_name j) as (j & Hj & ->).
  { clear -Hb. induction tbl as [|[b' j] tbl IH]; cbn [map dget fst snd] in *; [done|].
    destruct (decide _); [|by apply IH]. injection Hb as <-. eauto. }
  destruct (class_rows_ok c _ _ _ E0 (fun b i H => ltac:(done)) b j Hj) as (H11 & Hbyte & Hnone).
  split; [done|]. unfold join_class. destruct (join_names by_name [ci_name j; ci_internal j]) as [hit|] eqn:Ej.
  - split; [done|]. cbn [set_ci_classtype ci_classtype ci_name ci_internal]. intros v [= <-].
    destruct (join_names_sound _ _ _ Ej) as (nm & Hne & Hin & Hn). exists nm. split; [done|].
    split; [apply elem_of_cons in Hin as [Hin|Hin%list_elem_of_singleton]; auto|].
    unfold classtypes in E1. rewrite Hd in E1. cbn [mbind res_bind] in E1.
    refine (ct_dbc_sound d (db_recs d) [] by_name _ _ E1 _ _ Hn); [done|]. intros ? ? [=].
  - split; [done|]. rewrite Hnone. intros v [=].
Qed.
End Join.

(** ** Reading a file back *)

Definition row_bytes (r : list Z) : bytes := concat (map (le 4) r).

(** A WDBC file of [n] columns with the string block [blk]. *)
Definition wdbc_image (n : nat) (rows : list (list Z)) (blk : bytes) : bytes :=
  WDBC ++ le 4 (pylen rows) ++ le 4 (Z.of_nat n) ++ le 4 (4 * Z.of_nat n) ++ le 4 (pylen blk)
  ++ concat (map row_bytes rows) ++ blk.

Lemma pylen_row_bytes r : pylen (row_bytes r) = 4 * pylen r.
Proof.
  unfold row_bytes. induction r as [|v r IH]; [done|]. cbn [map concat].
  rewrite pylen_app, IH, pylen_le, pylen_cons. lia.
Qed.

Lemma pylen_rows n rows :
  Forall (fun r => length r = n) rows -> pylen (concat (map row_bytes rows)) = pylen rows * (4 * Z.of_nat n).
Proof.
  induction 1 as [|r rows Hr _ IH]; [done|]. cbn [map concat].
  rewrite pylen_app, IH, pylen_row_bytes, pylen_cons. unfold pylen at 1. lia.
Qed.

Lemma unpack_Is_row r : Forall is_word r -> forall pre post,
  unpack_Is (length r) (pre ++ row_bytes r ++ post) (pylen pre) = Ok r.
Proof.
  induction 1 as [|v r Hv _ IH]; intros pre post.
  - cbn [length]. apply unpack_Is_0; [apply pylen_nonneg|]. rewrite pylen_app. pose proof (pylen_nonneg (row_bytes [] ++ post)). lia.
  - cbn [length]. rewrite unpack_Is_S by apply pylen_nonneg. unfold row_bytes. cbn [map concat].
    rewrite <- app_assoc. unfold unpackI. rewrite (unpack_u_app 4 pre v) by done. cbn [mbind res_bind].
    rewrite (app_assoc pre (le 4 v)). specialize (IH (pre ++ le 4 v) post). unfold row_bytes in IH.
    replace (pylen (pre ++ le 4 v)) with (pylen pre + 4) in IH by (autorewrite with pylen; lia).
    rewrite IH. done.
Qed.

Lemma read_rows_image n todo : Forall (fun r => length r = n /\ Forall is_word r) todo -> forall fetched head post,
  Forall (fun r => length r = n) fetched -> pylen head = 20 ->
  res_map (fun i => unpack_Is n (head ++ concat (map row_bytes fetched) ++ concat (map row_bytes todo) ++ post)
                      (20 + i * (4 * Z.of_nat n)))
    (map Z.of_nat (seq (length fetched) (length todo))) = Ok todo.
Proof.
  induction 1 as [|r todo [Hr Hw] _ IH]; intros fetched head post Hf Hh; [done|].
  cbn [length seq map res_map concat].
  replace (20 + Z.of_nat (length fetched) * (4 * Z.of_nat n)) with (pylen (head ++ concat (map row_bytes fetched)))
    by (rewrite pylen_app, Hh, (pylen_rows n) by done; reflexivity).
  rewrite <- (app_assoc (row_bytes r)). rewrite (app_assoc head).
  rewrite <- Hr at 1. rewrite unpack_Is_row by done. cbn [mbind res_bind].
  specialize (IH (fetched ++ [r]) head post).
  rewrite length_app in IH. cbn [length] in IH. rewrite Nat.add_comm in IH. cbn [Nat.add] in IH.
  rewrite map_app, concat_app in IH. cbn [map concat] in IH. rewrite app_nil_r in IH.
  rewrite <- !app_assoc in IH |- *. rewrite IH; [done| |done]. apply Forall_app. auto.
Qed.

Lemma read_dbc_image n rows blk :
  Forall (fun r => length r = n /\ Forall is_word r) rows ->
  is_word (pylen rows) -> is_word (4 * Z.of_nat n) -> is_word (pylen blk) ->
  _read_dbc (wdbc_image n rows blk) = Ok (DbcFile rows blk (Z.of_nat n)).
Proof.
  intros Hr H1 H2 H3. unfold _read_dbc. set (data := wdbc_image n rows blk).
  set (h := [pylen rows; Z.of_nat n; 4 * Z.of_nat n; pylen blk]).
  assert (data = WDBC ++ row_bytes h ++ concat (map row_bytes rows) ++ blk) as Ed
    by (unfold data, wdbc_image, h, row_bytes; cbn [map concat]; by rewrite <- !app_assoc).
  assert (slice_to 4 data = WDBC) as -> by (rewrite Ed; by apply take_app_exact).
  rewrite bool_decide_true by done. cbn [negb].
  assert (unpack_Is 4 data 4 = Ok h) as ->.
  { rewrite Ed. apply (unpack_Is_row h); unfold h. repeat constructor; try apply H1; try apply H2; try apply H3; unfold is_word in *; lia. }
  cbn [mbind res_bind]. change (col h 0) with (pylen rows). change (col h 2) with (4 * Z.of_nat n).
  change (col h 3) with (pylen blk).
  assert (pylen (concat (map row_bytes rows)) = pylen rows * (4 * Z.of_nat n)) as Hl
    by (apply pylen_rows; eapply Forall_impl; [exact Hr|]; by intros ? []).
  assert (pylen (WDBC ++ row_bytes h) = 20) as Hh by (rewrite pylen_app, pylen_row_bytes; reflexivity).
  assert (20 + pylen rows * (4 * Z.of_nat n) + pylen blk =? pylen data = true) as ->.
  { apply Z.eqb_eq. rewrite Ed, app_assoc, pylen_app, Hh, pylen_app, Hl. lia. }
  cbn [negb].
  replace (4 * Z.of_nat n / 4) with (Z.of_nat n) by (rewrite Z.mul_comm, Z.div_mul; lia).
  rewrite Nat2Z.id. unfold seqZ_from. replace (Z.to_nat (pylen rows)) with (length rows) by (unfold pylen; lia).
  pose proof (read_rows_image n rows Hr [] (WDBC ++ row_bytes h) blk ltac:(done) Hh) as E.
  cbn [length map concat app] in E. rewrite <- app_assoc, <- Ed in E. rewrite E. cbn [mbind res_bind].
  f_equal. f_equal. rewrite Ed, app_assoc, app_assoc.
  rewrite <- (app_nil_r (_ ++ blk)), <- app_assoc. apply slice_app_mid; rewrite pylen_app, Hl, Hh; lia.
Qed.

(** A class file and a class-type file in which Tinker is class 28 and class
    type 30, and class 30 has no row of its name. *)
Definition sample_block : bytes := string_block [[]; lit "Tinker"; lit "TINKER"; lit " tinker "; lit "Chronomancer"].

Definition chr_row (id name file : Z) : list Z := [id; 0; 0; 0; name] ++ replicate 50 0 ++ [file].

Definition sample_chr : bytes :=
  wdbc_image 56 [chr_row 1 1 1; chr_row 28 1 8; chr_row 30 24 0] sample_block.

Definition sample_ct : bytes := wdbc_image 7 [[30; 8; 0; 0; 0; 0; 15]; [28; 0; 0; 0; 0; 0; 0]] sample_block.

Definition res_get {A} (d : A) (r : res A) : A := match r with Ok a => a | Err _ => d end.

Lemma classes_joined_by_name_witness :
  exists i, coa_classes sample_chr (CtDbc sample_ct)
    = Ok [(28, i); (30, ClassInfo 30 (lit "Chronomancer") [] None)]
  /\ ci_classtype i = Some (JInt 30)
  /\ exists nm, nm <> [] /\ (nm = ci_name i \/ nm = ci_internal i)
      /\ from_row (res_get (DbcFile [] [] 0) (_read_dbc sample_ct)) (name_key nm) (JInt 30).
Proof.
  eexists. split; [vm_compute; reflexivity|]. split; [reflexivity|].
  refine (proj2 (proj2 (classes_joined_by_name sample_chr sample_ct _ _ 28 _ _ _ _)) (JInt 30) _);
    [vm_compute; reflexivity|vm_compute; reflexivity|reflexivity|reflexivity].
Defined.

(** ** The budget rows that are served *)

(** A row without flags is sent as world_server.py sends it. *)
Lemma budget_row_agrees r :
  any_flag r [3; 4; 5; 6] = Ok false ->
  (SMSG_CA_ESSENCE_BUDGET,.) <$> coa_essence_budget (col r 0) (col r 1) (col r 2) (col r 7) (col r 8) 0
  = essence_packet None r.
Proof.
  intros H. unfold essence_packet. cbn [default from_option id].
  assert (forall cols, any_flag r cols = Ok false -> Forall (fun c => col r c = 0) cols) as Hz.
  { clear. induction cols as [|c cols IH]; cbn [any_flag]; [done|]. intros H. inv_bind H.
    destruct (Z.eqb_spec v 0) as [->|]; [|done]. constructor; [|by apply IH].
    unfold index in E. destruct (c <? 0); [done|]. destruct (r !! _) eqn:El; [|done]. apply Ok_inj in E. subst.
    unfold col. by erewrite nth_lookup_Some. }
  apply Hz in H. rewrite !Forall_cons in H. destruct H as (H3 & H4 & H5 & H6 & _).
  rewrite H3, H4, H5, H6. reflexivity.
Qed.

(** A row with flags is sent without them: two rows of a family that differ in
    their flags reach the client as two budgets for the same flags. *)
Lemma budget_flags_dropped :
  let r := [7; 80; 28; 1; 0; 0; 0; 50; 40] in
  (SMSG_CA_ESSENCE_BUDGET,.) <$> coa_essence_budget (col r 0) (col r 1) (col r 2) (col r 7) (col r 8) 0
    <> essence_packet None r
  /\ rows_for [r] 28 = Ok [r] /\ curve [r] 28 = Ok [].
Proof. cbn zeta. split; [vm_compute; congruence|]. split; reflexivity. Qed.

(** ** UNIT_FIELD_BYTES_0 *)

Lemma bytes0_fields race clas gender power :
  is_byte race -> is_byte clas -> is_byte gender -> is_byte power ->
  u32le (bytes0_for race clas gender power) = [race; clas; gender; power].
Proof.
  intros H1 H2 H3 H4. rewrite u32le_eq. unfold bytes0_for. rewrite !land_byte by done.
  unfold is_byte in *.
  pose proof lor_above as Hor.
  rewrite (Hor race), (Hor (race + _)), (Hor (race + _ + _)) by (cbn; lia).
  change (2 ^ 8) with 256. change (2 ^ 16) with 65536. change (2 ^ 24) with 16777216.
  rewrite <- (le_unle [race; clas; gender; power]) by (repeat constructor; unfold is_byte; lia).
  cbn [length unle]. f_equal. lia.
Qed.

(** ** The store *)

Section Store.
Context `{Unicode}.

Lemma get_set_class d n c m :
  coa_get_class (coa_set_class d n c) m
  = if decide (uni_lower m = uni_lower n) then Some c else coa_get_class d m.
Proof.
  unfold coa_get_class, coa_set_class. rewrite dget_dset. by destruct (decide _).
Qed.

Lemma get_class_set_entries d n rs m : coa_get_class (coa_set_entries d n rs) m = coa_get_class d m.
Proof.
  unfold coa_get_class, coa_set_entries. rewrite dget_dset. destruct (decide _) as [->|]; [|done].
  cbn [mbind option_bind ce_class]. by destruct (dget (uni_lower n) d).
Qed.

Lemma get_set_entries d n rs m :
  coa_get_entries (coa_set_entries d n rs) m
  = if decide (uni_lower m = uni_lower n) then rs else coa_get_entries d m.
Proof.
  unfold coa_get_entries, coa_set_entries. rewrite dget_dset. by destruct (decide _).
Qed.

Lemma get_entries_set_class d n c m : coa_get_entries (coa_set_class d n c) m = coa_get_entries d m.
Proof.
  unfold coa_get_entries, coa_set_class. rewrite dget_dset. destruct (decide _) as [->|]; [|done].
  cbn [ce_entries]. by destruct (dget (uni_lower n) d).
Qed.
End Store.

(** The file the store writes is read back as the same store. *)
Lemma state_roundtrip d : state_of_json (state_json d) = Some d.
Proof.
  unfold state_of_json, state_json. induction d as [|[n e] d IH]; [done|].
  cbn [map mapM fst snd].
  assert (entry_of_json (entry_json e) = Some e) as ->.
  { destruct e as [cl rs]. unfold entry_json, entry_of_json. cbn [ce_class ce_entries].
    assert (mapM record_of_json (map ca_record_json rs) = Some rs) as Hr
      by (induction rs as [|[] rs IHr]; [done|]; cbn [map mapM]; rewrite IHr; done).
    destruct cl; cbn [app dget]; repeat (destruct (decide _) as [?|?]; [try discriminate|try done]);
      rewrite Hr; done. }
  cbn [mbind option_bind]. unfold mbind, option_bind in IH |- *. rewrite IH. done.
Qed.

Lemma class_set_examples :
  _parse_class_set (lit "1-9,11-32") = Ok (py_range 1 10 ++ py_range 11 33)
  /\ _parse_class_set (lit " 3 ,, 5-4") = Ok [3]
  /\ _parse_class_set (lit "-5") = Err ValueError
  /\ ac_valid_classes (lit "-5") = Ok AC_VALID_CLASSES.
Proof. repeat split; vm_compute; reflexivity. Qed.
