(* ===== verification/BridgeWire.v ===== *)
(** * The bridge's wire formats (server/ascension_bridge.py)

    Frames in both directions, read and written with the header cipher on the
    core's side; CMSG_AUTH_SESSION taken apart and put together again; the chat
    line; the class tables that decide which carrier class a character is built
    with.  [recv_exact] is the function of the same name of world_server.py. *)
From S2P Require Import Prelude Wire PyFloat Text Consts Rc4 Framing.

Definition FIRST_CUSTOM_OPCODE : Z := 0x521.
Definition SMSG_TRAINER_LIST : Z := 0x1B1.
Definition SMSG_SET_FLAT_SPELL_MODIFIER : Z := 0x266.
Definition SMSG_SET_PCT_SPELL_MODIFIER : Z := 0x267.
Definition SPELLMOD_BODY_BYTES : Z := 16.
Definition CLIENT_AUTH_SEED : bytes := [0x11; 0x22; 0x33; 0x44].
Definition BRIDGE_CHALLENGE_TAIL : bytes := replicate 32 0.

(** ** Frames *)

Definition frame_s2c (opcode : Z) (body : bytes) (enc : option rc4) : option rc4 * bytes :=
  let size := pylen body + 2 in
  let hdr :=
    if size >? 0x7FFF then
      [Z.lor 0x80 (Z.land (Z.shiftr size 16) 0xFF); Z.land (Z.shiftr size 8) 0xFF; Z.land size 0xFF;
       Z.land opcode 0xFF; Z.land (Z.shiftr opcode 8) 0xFF]
    else
      [Z.land (Z.shiftr size 8) 0xFF; Z.land size 0xFF; Z.land opcode 0xFF; Z.land (Z.shiftr opcode 8) 0xFF] in
  let '(enc', h) := crypt_opt enc hdr in
  (enc', h ++ body).

(** The size has 16 bits and the opcode 32; more is a [struct.error], raised
    before the cipher moves. *)
Definition frame_c2s (opcode : Z) (body : bytes) (enc : option rc4) : res (option rc4 * bytes) :=
  let size := pylen body + 4 in
  s ← pack_be16 size;
  o ← packI opcode;
  let '(enc', h) := crypt_opt enc (s ++ o) in
  Ok (enc', h ++ body).

(** [recv_exact(sock, n)]. *)
Definition rx_get (n : Z) (conn : list rx) : res (option bytes) * list rx :=
  match recv_exact conn n with
  | Some (r, conn') => (Ok r, conn')
  | None => (Err OutOfFuel, conn)
  end.

(** A socket with the cipher its headers are decrypted by. *)
Abbreviation rx_side := (list rx * option rc4)%type (only parsing).

(** The body behind a header whose length is [blen]. *)
Definition read_body (opcode blen limit : Z) (conn : list rx) (dec : option rc4)
    : rx_side * res (option packet) :=
  if (blen <? 0) || (blen >? limit) then ((conn, dec), Err ValueError)
  else if blen =? 0 then ((conn, dec), Ok (Some (opcode, [])))
  else
    let '(r, conn) := rx_get blen conn in
    ((conn, dec), match r with
                  | Ok (Some body) => Ok (Some (opcode, body))
                  | Ok None => Ok None
                  | Err e => Err e
                  end).

Definition read_c2s (conn : list rx) (dec : option rc4) : rx_side * res (option packet) :=
  let '(r, conn) := rx_get 6 conn in
  match r with
  | Err e => ((conn, dec), Err e)
  | Ok None => ((conn, dec), Ok None)
  | Ok (Some hdr) =>
      let '(dec, hdr) := crypt_opt dec hdr in
      match (size ← unpack_be16 (slice 0 2 hdr); opcode ← unpackI hdr 2; Ok (size, opcode)) with
      | Err e => ((conn, dec), Err e)
      | Ok (size, opcode) => read_body opcode (size - 4) 0x10000 conn dec
      end
  end.

(** The first byte is decrypted alone: its top bit says how long the header is. *)
Definition read_s2c (conn : list rx) (dec : option rc4) : rx_side * res (option packet) :=
  let '(r, conn) := rx_get 1 conn in
  match r with
  | Err e => ((conn, dec), Err e)
  | Ok None => ((conn, dec), Ok None)
  | Ok (Some b0) =>
      let '(dec, b0) := crypt_opt dec b0 in
      match index b0 0 with
      | Err e => ((conn, dec), Err e)
      | Ok t =>
          let long := negb (Z.land t 0x80 =? 0) in
          let '(r, conn) := rx_get (if long then 4 else 3) conn in
          match r with
          | Err e => ((conn, dec), Err e)
          | Ok None => ((conn, dec), Ok None)
          | Ok (Some rest) =>
              let '(dec, rest) := crypt_opt dec rest in
              match res_map (index rest) (if long then [0; 1; 2; 3] else [0; 1; 2]) with
              | Ok [r0; r1; r2; r3] =>
                  let size := Z.lor (Z.lor (Z.shiftl (Z.land t 0x7F) 16) (Z.shiftl r0 8)) r1 in
                  read_body (Z.lor r2 (Z.shiftl r3 8)) (size - 2) 0x800000 conn dec
              | Ok [r0; r1; r2] =>
                  let size := Z.lor (Z.shiftl t 8) r0 in
                  read_body (Z.lor r1 (Z.shiftl r2 8)) (size - 2) 0x800000 conn dec
              | Ok _ => ((conn, dec), Err IndexError)
              | Err e => ((conn, dec), Err e)
              end
          end
      end
  end.

(** ** CMSG_AUTH_SESSION *)

Record bridge_auth := BridgeAuth {
  ba_build : Z; ba_loginServerID : Z; ba_account : bytes; ba_loginServerType : Z; ba_clientSeed : bytes;
  ba_regionID : Z; ba_battlegroupID : Z; ba_realmID : Z; ba_dosResponse : bytes; ba_digest : bytes;
  ba_addon_raw : bytes }.

Definition parse_bridge_auth (body : bytes) : res bridge_auth :=
  build ← unpackI body 0;
  loginServerID ← unpackI body 4;
  z ← res_of_option ValueError ((fun k => 8 + Z.of_nat k) <$> find_byte 0 (slice_from 8 body));
  let account := slice 8 z body in
  let p := z + 1 in
  loginServerType ← unpackI body p;
  let p := p + 4 in
  let clientSeed := slice p (p + 4) body in
  let p := p + 4 in
  regionID ← unpackI body p;
  battlegroupID ← unpackI body (p + 4);
  realmID ← unpackI body (p + 8);
  let p := p + 12 in
  let dosResponse := slice p (p + 8) body in
  let p := p + 8 in
  let digest := slice p (p + 20) body in
  let p := p + 20 in
  Ok (BridgeAuth build loginServerID account loginServerType clientSeed regionID battlegroupID realmID
        dosResponse digest (slice_from p body)).

Definition build_bridge_auth (f : bridge_auth) (build realm_id : Z) (digest : bytes) : res bytes :=
  a ← packI build;
  b ← packI (ba_loginServerID f);
  c ← packI (ba_loginServerType f);
  d ← packI (ba_regionID f);
  e ← packI (ba_battlegroupID f);
  r ← packI realm_id;
  Ok (a ++ b ++ (ba_account f ++ [0]) ++ c ++ ba_clientSeed f ++ d ++ e ++ r
      ++ ba_dosResponse f ++ digest ++ ba_addon_raw f).

(** ** The chat line *)

Definition smsg_system_chat (text : pystr) : res bytes :=
  t ← utf8_encode text;
  let msg := t ++ [0] in
  n ← packI (pylen msg);
  Ok (([CHAT_MSG_SYSTEM] ++ le 4 LANG_UNIVERSAL ++ le 8 0 ++ le 4 0 ++ le 8 0 ++ n) ++ msg ++ [0]).

Definition ARCHIVE_TOKEN : pystr := lit "ASCARCHIVE-LOCAL-REALM".
Definition ARCHIVE_HELLO : pystr :=
  lit "Ascension archive realm (" ++ ARCHIVE_TOKEN ++ lit ").  /asctal opens the talent tree.".

(** ** Carrier classes *)

Definition AC_RACE_CLASSES : list (Z * list Z) :=
  [(1, [1; 2; 4; 5; 6; 8; 9]); (2, [1; 3; 4; 5; 6; 7; 9]); (3, [1; 2; 3; 4; 5; 6]);
   (4, [1; 3; 4; 5; 6; 11]); (5, [1; 4; 5; 6; 8; 9]); (6, [1; 3; 6; 7; 11]); (7, [1; 4; 6; 8; 9]);
   (8, [1; 3; 4; 5; 6; 8; 9]); (10, [2; 3; 4; 5; 6; 8; 9]); (11, [1; 2; 3; 5; 6; 8])].

(** [valid] is AC_VALID_CLASSES, [fallback] AC_FALLBACK_CLASS. *)
Definition carrier_class_for (valid : list Z) (fallback race : Z) : Z :=
  match dget race AC_RACE_CLASSES with
  | None => fallback
  | Some allowed =>
      if bool_decide (fallback ∈ allowed) then fallback
      else
        match sort_Z (filter (fun c => c ∈ valid) allowed) with
        | c :: _ => c
        | [] => fallback
        end
  end.

(** The pure half of [fix_char_create]: what it does with the body.  [None]
    where the body is returned as it came, otherwise the name's bytes, the class
    chosen, the race and the class the core is asked to build. *)
Record create_fix := CreateFix { cx_name : bytes; cx_class : Z; cx_race : Z; cx_carrier : Z }.

Definition char_create_fix (valid : list Z) (fallback : Z) (body : bytes) : option create_fix :=
  match find_byte 0 body with
  | None => None
  | Some k =>
      match drop (S k) body with
      | race :: clas :: _ =>
          if bool_decide (clas ∈ valid) then None
          else Some (CreateFix (take k body) clas race (carrier_class_for valid fallback race))
      | _ => None
      end
  end.

(** [tail[1] = carrier] on a bytearray, then the body again. *)
Definition with_carrier (body : bytes) (c : create_fix) : res bytes :=
  let z := length (cx_name c) in
  if (0 <=? cx_carrier c) && (cx_carrier c <? 256)
  then Ok (take (S z) body ++ <[1%nat := cx_carrier c]> (drop (S z) body))
  else Err ValueError.

(** ** Names of the realm flavours *)

Section Flavour.
Context `{Unicode}.

(** ASC_REALM_FLAVOUR, or what the mode needs. *)
Definition bridge_realm_flavour (env : pystr) (coa : bool) : list Z :=
  default (if coa then REALM_FLAVOUR_DEV else REALM_FLAVOUR_WCR)
    (dget (uni_lower (strip env))
       [(lit "coa", REALM_FLAVOUR_COA); (lit "dev", REALM_FLAVOUR_DEV); (lit "wcr", REALM_FLAVOUR_WCR)]).
End Flavour.

Section Crypto.
Context (sha1 : bytes -> bytes) (hmac_sha1 : bytes -> bytes -> bytes).

Definition auth_digest (account client_seed server_seed key40 : bytes) : bytes :=
  sha1 (account ++ [0; 0; 0; 0] ++ client_seed ++ server_seed ++ key40).

(** The stream states for talking to the core as a client: [s2c] decrypts what
    the core encrypted, [c2s] encrypts what it decrypts. *)
Definition bridge_crypt (session_key40 : bytes) : rc4 * rc4 :=
  let s2c := rc4_init (hmac_sha1 SERVER_ENC_SEED session_key40) in
  let c2s := rc4_init (hmac_sha1 SERVER_DEC_SEED session_key40) in
  (fst (crypt s2c (replicate 1024 0)), fst (crypt c2s (replicate 1024 0))).
End Crypto.
