(* ===== verification/Bridge.v ===== *)
(** * The bridged session (server/ascension_bridge.py)

    One session: the state its threads share, the programs they run, and the
    scheduler that interleaves them.  A program is a tree of atomic accesses to
    the state ([Act]); between two accesses any other thread may run.  The
    accesses are those of the code: one attribute read or written, one critical
    section, one call on a socket, one write of the store.

    The environment is scripted in the state: what each socket delivers
    ([b_client_in], [b_core_in]), whether each write succeeds ([b_client_ok],
    [b_core_ok]) and whether each flush of the store does ([b_flush_ok]; an
    exhausted script succeeds).  Log lines and the reason of a close, which is
    only logged, are left out. *)
From S2P Require Import Prelude Wire PyFloat Text Consts Rc4 Framing Chars Builders CoaMode BridgeWire.

(** ** Configuration *)

(** The module's constants that the environment sets, and the tables loaded in
    CoA mode: COA_CLASS_NAMES and the rows of COA_ESSENCE. *)
Record bridge_cfg := BridgeCfg {
  cf_coa_mode : bool; cf_write_class_byte : bool; cf_ca_bootstrap : bool;
  cf_ca_active_index : Z; cf_ca_spec_slots : Z; cf_trainer_type : Z; cf_spellmod_mode : pystr;
  cf_drop_opcodes : list Z; cf_valid_classes : list Z; cf_fallback_class : Z; cf_flavour : list Z;
  cf_ac_build : Z; cf_ac_realm : Z; cf_class_names : list (Z * pystr); cf_essence : list (list Z) }.

(** ** The state *)

(** What a timer will call. *)
Inductive timer_kind : Set := HelloTimer | BootstrapTimer.

(** Keys of [spellmod_seen]: (opcode, op), (opcode, op, eff, val) and "n". *)
Inductive seen_key : Set :=
  | SeenOp (opcode op : Z)
  | SeenTriple (opcode op eff val : Z)
  | SeenCount.

#[export] Instance seen_key_eq_dec : EqDecision seen_key.
Proof. solve_decision. Defined.

(** Whether a packet the bridge writes is one it passes on or one of its own. *)
Inductive origin : Set := Forwarded | Originated.

#[export] Instance origin_eq_dec : EqDecision origin.
Proof. solve_decision. Defined.

(** One completed write: whose packet, the packet, the bytes. *)
Record sent := Sent { sn_origin : origin; sn_packet : packet; sn_wire : bytes }.

(** The attributes of the session object and the store it shares
    ([b_store] in memory, [b_file] on disk); [b_timers] are the timers that
    have been started and neither fired nor been cancelled; the two logs of
    packets read are history. *)
Record bsession := BSession {
  b_alive : bool;
  b_account : bytes;
  b_customs_sent : bool;
  b_pending : option (pystr * Z);
  b_armed : bool;
  b_timer : option nat;
  b_timers : list (nat * timer_kind);
  b_next_timer : nat;
  b_roster : list (Z * pystr);
  b_looks : list (Z * (Z * Z));
  b_guid : option Z;
  b_name : option pystr;
  b_seen : list (seen_key * Z);
  b_store : coa_data;
  b_file : coa_data;
  b_s2c : option rc4;
  b_c2s : option rc4;
  b_client_in : list rx;
  b_core_in : list rx;
  b_client_ok : list bool;
  b_core_ok : list bool;
  b_flush_ok : list bool;
  b_to_client : list sent;
  b_to_core : list sent;
  b_from_client : list packet;
  b_from_core : list packet }.

Definition set_b_alive (v : bool) (s : bsession) : bsession :=
  BSession v (b_account s) (b_customs_sent s) (b_pending s) (b_armed s) (b_timer s) (b_timers s) (b_next_timer s)
    (b_roster s) (b_looks s) (b_guid s) (b_name s) (b_seen s) (b_store s) (b_file s) (b_s2c s) (b_c2s s)
    (b_client_in s) (b_core_in s) (b_client_ok s) (b_core_ok s) (b_flush_ok s) (b_to_client s) (b_to_core s)
    (b_from_client s) (b_from_core s).
Definition set_b_account (v : bytes) (s : bsession) : bsession :=
  BSession (b_alive s) v (b_customs_sent s) (b_pending s) (b_armed s) (b_timer s) (b_timers s) (b_next_timer s)
    (b_roster s) (b_looks s) (b_guid s) (b_name s) (b_seen s) (b_store s) (b_file s) (b_s2c s) (b_c2s s)
    (b_client_in s) (b_core_in s) (b_client_ok s) (b_core_ok s) (b_flush_ok s) (b_to_client s) (b_to_core s)
    (b_from_client s) (b_from_core s).
Definition set_b_customs_sent (v : bool) (s : bsession) : bsession :=
  BSession (b_alive s) (b_account s) v (b_pending s) (b_armed s) (b_timer s) (b_timers s) (b_next_timer s)
    (b_roster s) (b_looks s) (b_guid s) (b_name s) (b_seen s) (b_store s) (b_file s) (b_s2c s) (b_c2s s)
    (b_client_in s) (b_core_in s) (b_client_ok s) (b_core_ok s) (b_flush_ok s) (b_to_client s) (b_to_core s)
    (b_from_client s) (b_from_core s).
Definition set_b_pending (v : option (pystr * Z)) (s : bsession) : bsession :=
  BSession (b_alive s) (b_account s) (b_customs_sent s) v (b_armed s) (b_timer s) (b_timers s) (b_next_timer s)
    (b_roster s) (b_looks s) (b_guid s) (b_name s) (b_seen s) (b_store s) (b_file s) (b_s2c s) (b_c2s s)
    (b_client_in s) (b_core_in s) (b_client_ok s) (b_core_ok s) (b_flush_ok s) (b_to_client s) (b_to_core s)
    (b_from_client s) (b_from_core s).
Definition set_b_armed (v : bool) (s : bsession) : bsession :=
  BSession (b_alive s) (b_account s) (b_customs_sent s) (b_pending s) v (b_timer s) (b_timers s) (b_next_timer s)
    (b_roster s) (b_looks s) (b_guid s) (b_name s) (b_seen s) (b_store s) (b_file s) (b_s2c s) (b_c2s s)
    (b_client_in s) (b_core_in s) (b_client_ok s) (b_core_ok s) (b_flush_ok s) (b_to_client s) (b_to_core s)
    (b_from_client s) (b_from_core s).
Definition set_b_timer (v : option nat) (s : bsession) : bsession :=
  BSession (b_alive s) (b_account s) (b_customs_sent s) (b_pending s) (b_armed s) v (b_timers s) (b_next_timer s)
    (b_roster s) (b_looks s) (b_guid s) (b_name s) (b_seen s) (b_store s) (b_file s) (b_s2c s) (b_c2s s)
    (b_client_in s) (b_core_in s) (b_client_ok s) (b_core_ok s) (b_flush_ok s) (b_to_client s) (b_to_core s)
    (b_from_client s) (b_from_core s).
Definition set_b_timers (v : list (nat * timer_kind)) (s : bsession) : bsession :=
  BSession (b_alive s) (b_account s) (b_customs_sent s) (b_pending s) (b_armed s) (b_timer s) v (b_next_timer s)
    (b_roster s) (b_looks s) (b_guid s) (b_name s) (b_seen s) (b_store s) (b_file s) (b_s2c s) (b_c2s s)
    (b_client_in s) (b_core_in s) (b_client_ok s) (b_core_ok s) (b_flush_ok s) (b_to_client s) (b_to_core s)
    (b_from_client s) (b_from_core s).
Definition set_b_next_timer (v : nat) (s : bsession) : bsession :=
  BSession (b_alive s) (b_account s) (b_customs_sent s) (b_pending s) (b_armed s) (b_timer s) (b_timers s) v
    (b_roster s) (b_looks s) (b_guid s) (b_name s) (b_seen s) (b_store s) (b_file s) (b_s2c s) (b_c2s s)
    (b_client_in s) (b_core_in s) (b_client_ok s) (b_core_ok s) (b_flush_ok s) (b_to_client s) (b_to_core s)
    (b_from_client s) (b_from_core s).
Definition set_b_roster (v : list (Z * pystr)) (s : bsession) : bsession :=
  BSession (b_alive s) (b_account s) (b_customs_sent s) (b_pending s) (b_armed s) (b_timer s) (b_timers s)
    (b_next_timer s) v (b_looks s) (b_guid s) (b_name s) (b_seen s) (b_store s) (b_file s) (b_s2c s) (b_c2s s)
    (b_client_in s) (b_core_in s) (b_client_ok s) (b_core_ok s) (b_flush_ok s) (b_to_client s) (b_to_core s)
    (b_from_client s) (b_from_core s).
Definition set_b_looks (v : list (Z * (Z * Z))) (s : bsession) : bsession :=
  BSession (b_alive s) (b_account s) (b_customs_sent s) (b_pending s) (b_armed s) (b_timer s) (b_timers s)
    (b_next_timer s) (b_roster s) v (b_guid s) (b_name s) (b_seen s) (b_store s) (b_file s) (b_s2c s) (b_c2s s)
    (b_client_in s) (b_core_in s) (b_client_ok s) (b_core_ok s) (b_flush_ok s) (b_to_client s) (b_to_core s)
    (b_from_client s) (b_from_core s).
Definition set_b_guid (v : option Z) (s : bsession) : bsession :=
  BSession (b_alive s) (b_account s) (b_customs_sent s) (b_pending s) (b_armed s) (b_timer s) (b_timers s)
    (b_next_timer s) (b_roster s) (b_looks s) v (b_name s) (b_seen s) (b_store s) (b_file s) (b_s2c s) (b_c2s s)
    (b_client_in s) (b_core_in s) (b_client_ok s) (b_core_ok s) (b_flush_ok s) (b_to_client s) (b_to_core s)
    (b_from_client s) (b_from_core s).
Definition set_b_name (v : option pystr) (s : bsession) : bsession :=
  BSession (b_alive s) (b_account s) (b_customs_sent s) (b_pending s) (b_armed s) (b_timer s) (b_timers s)
    (b_next_timer s) (b_roster s) (b_looks s) (b_guid s) v (b_seen s) (b_store s) (b_file s) (b_s2c s) (b_c2s s)
    (b_client_in s) (b_core_in s) (b_client_ok s) (b_core_ok s) (b_flush_ok s) (b_to_client s) (b_to_core s)
    (b_from_client s) (b_from_core s).
Definition set_b_seen (v : list (seen_key * Z)) (s : bsession) : bsession :=
  BSession (b_alive s) (b_account s) (b_customs_sent s) (b_pending s) (b_armed s) (b_timer s) (b_timers s)
    (b_next_timer s) (b_roster s) (b_looks s) (b_guid s) (b_name s) v (b_store s) (b_file s) (b_s2c s) (b_c2s s)
    (b_client_in s) (b_core_in s) (b_client_ok s) (b_core_ok s) (b_flush_ok s) (b_to_client s) (b_to_core s)
    (b_from_client s) (b_from_core s).
Definition set_b_store (v : coa_data) (s : bsession) : bsession :=
  BSession (b_alive s) (b_account s) (b_customs_sent s) (b_pending s) (b_armed s) (b_timer s) (b_timers s)
    (b_next_timer s) (b_roster s) (b_looks s) (b_guid s) (b_name s) (b_seen s) v (b_file s) (b_s2c s) (b_c2s s)
    (b_client_in s) (b_core_in s) (b_client_ok s) (b_core_ok s) (b_flush_ok s) (b_to_client s) (b_to_core s)
    (b_from_client s) (b_from_core s).
Definition set_b_file (v : coa_data) (s : bsession) : bsession :=
  BSession (b_alive s) (b_account s) (b_customs_sent s) (b_pending s) (b_armed s) (b_timer s) (b_timers s)
    (b_next_timer s) (b_roster s) (b_looks s) (b_guid s) (b_name s) (b_seen s) (b_store s) v (b_s2c s) (b_c2s s)
    (b_client_in s) (b_core_in s) (b_client_ok s) (b_core_ok s) (b_flush_ok s) (b_to_client s) (b_to_core s)
    (b_from_client s) (b_from_core s).
Definition set_b_s2c (v : option rc4) (s : bsession) : bsession :=
  BSession (b_alive s) (b_account s) (b_customs_sent s) (b_pending s) (b_armed s) (b_timer s) (b_timers s)
    (b_next_timer s) (b_roster s) (b_looks s) (b_guid s) (b_name s) (b_seen s) (b_store s) (b_file s) v (b_c2s s)
    (b_client_in s) (b_core_in s) (b_client_ok s) (b_core_ok s) (b_flush_ok s) (b_to_client s) (b_to_core s)
    (b_from_client s) (b_from_core s).
Definition set_b_c2s (v : option rc4) (s : bsession) : bsession :=
  BSession (b_alive s) (b_account s) (b_customs_sent s) (b_pending s) (b_armed s) (b_timer s) (b_timers s)
    (b_next_timer s) (b_roster s) (b_looks s) (b_guid s) (b_name s) (b_seen s) (b_store s) (b_file s) (b_s2c s) v
    (b_client_in s) (b_core_in s) (b_client_ok s) (b_core_ok s) (b_flush_ok s) (b_to_client s) (b_to_core s)
    (b_from_client s) (b_from_core s).
Definition set_b_client_in (v : list rx) (s : bsession) : bsession :=
  BSession (b_alive s) (b_account s) (b_customs_sent s) (b_pending s) (b_armed s) (b_timer s) (b_timers s)
    (b_next_timer s) (b_roster s) (b_looks s) (b_guid s) (b_name s) (b_seen s) (b_store s) (b_file s) (b_s2c s)
    (b_c2s s) v (b_core_in s) (b_client_ok s) (b_core_ok s) (b_flush_ok s) (b_to_client s) (b_to_core s)
    (b_from_client s) (b_from_core s).
Definition set_b_core_in (v : list rx) (s : bsession) : bsession :=
  BSession (b_alive s) (b_account s) (b_customs_sent s) (b_pending s) (b_armed s) (b_timer s) (b_timers s)
    (b_next_timer s) (b_roster s) (b_looks s) (b_guid s) (b_name s) (b_seen s) (b_store s) (b_file s) (b_s2c s)
    (b_c2s s) (b_client_in s) v (b_client_ok s) (b_core_ok s) (b_flush_ok s) (b_to_client s) (b_to_core s)
    (b_from_client s) (b_from_core s).
Definition set_b_client_ok (v : list bool) (s : bsession) : bsession :=
  BSession (b_alive s) (b_account s) (b_customs_sent s) (b_pending s) (b_armed s) (b_timer s) (b_timers s)
    (b_next_timer s) (b_roster s) (b_looks s) (b_guid s) (b_name s) (b_seen s) (b_store s) (b_file s) (b_s2c s)
    (b_c2s s) (b_client_in s) (b_core_in s) v (b_core_ok s) (b_flush_ok s) (b_to_client s) (b_to_core s)
    (b_from_client s) (b_from_core s).
Definition set_b_core_ok (v : list bool) (s : bsession) : bsession :=
  BSession (b_alive s) (b_account s) (b_customs_sent s) (b_pending s) (b_armed s) (b_timer s) (b_timers s)
    (b_next_timer s) (b_roster s) (b_looks s) (b_guid s) (b_name s) (b_seen s) (b_store s) (b_file s) (b_s2c s)
    (b_c2s s) (b_client_in s) (b_core_in s) (b_client_ok s) v (b_flush_ok s) (b_to_client s) (b_to_core s)
    (b_from_client s) (b_from_core s).
Definition set_b_flush_ok (v : list bool) (s : bsession) : bsession :=
  BSession (b_alive s) (b_account s) (b_customs_sent s) (b_pending s) (b_armed s) (b_timer s) (b_timers s)
    (b_next_timer s) (b_roster s) (b_looks s) (b_guid s) (b_name s) (b_seen s) (b_store s) (b_file s) (b_s2c s)
    (b_c2s s) (b_client_in s) (b_core_in s) (b_client_ok s) (b_core_ok s) v (b_to_client s) (b_to_core s)
    (b_from_client s) (b_from_core s).
Definition set_b_to_client (v : list sent) (s : bsession) : bsession :=
  BSession (b_alive s) (b_account s) (b_customs_sent s) (b_pending s) (b_armed s) (b_timer s) (b_timers s)
    (b_next_timer s) (b_roster s) (b_looks s) (b_guid s) (b_name s) (b_seen s) (b_store s) (b_file s) (b_s2c s)
    (b_c2s s) (b_client_in s) (b_core_in s) (b_client_ok s) (b_core_ok s) (b_flush_ok s) v (b_to_core s)
    (b_from_client s) (b_from_core s).
Definition set_b_to_core (v : list sent) (s : bsession) : bsession :=
  BSession (b_alive s) (b_account s) (b_customs_sent s) (b_pending s) (b_armed s) (b_timer s) (b_timers s)
    (b_next_timer s) (b_roster s) (b_looks s) (b_guid s) (b_name s) (b_seen s) (b_store s) (b_file s) (b_s2c s)
    (b_c2s s) (b_client_in s) (b_core_in s) (b_client_ok s) (b_core_ok s) (b_flush_ok s) (b_to_client s) v
    (b_from_client s) (b_from_core s).
Definition set_b_from_client (v : list packet) (s : bsession) : bsession :=
  BSession (b_alive s) (b_account s) (b_customs_sent s) (b_pending s) (b_armed s) (b_timer s) (b_timers s)
    (b_next_timer s) (b_roster s) (b_looks s) (b_guid s) (b_name s) (b_seen s) (b_store s) (b_file s) (b_s2c s)
    (b_c2s s) (b_client_in s) (b_core_in s) (b_client_ok s) (b_core_ok s) (b_flush_ok s) (b_to_client s)
    (b_to_core s) v (b_from_core s).
Definition set_b_from_core (v : list packet) (s : bsession) : bsession :=
  BSession (b_alive s) (b_account s) (b_customs_sent s) (b_pending s) (b_armed s) (b_timer s) (b_timers s)
    (b_next_timer s) (b_roster s) (b_looks s) (b_guid s) (b_name s) (b_seen s) (b_store s) (b_file s) (b_s2c s)
    (b_c2s s) (b_client_in s) (b_core_in s) (b_client_ok s) (b_core_ok s) (b_flush_ok s) (b_to_client s)
    (b_to_core s) (b_from_client s) v.

(** ** Programs *)

#[warnings="-register-all"]
Inductive prog (A : Type) : Type :=
  | Ret (a : A)
  | Raise (e : exn)
  | Act {B : Type} (f : bsession -> bsession * B) (k : B -> prog A).
Arguments Ret {A} a.
Arguments Raise {A} e.
Arguments Act {A B} f k.

Fixpoint prog_bind {A B} (p : prog A) (q : A -> prog B) : prog B :=
  match p with
  | Ret a => q a
  | Raise e => Raise e
  | Act f k => Act f (fun b => prog_bind (k b) q)
  end.

Declare Scope prog_scope.
Delimit Scope prog_scope with prog.
Notation "x <~ p ;; q" := (prog_bind p (fun x => q))
  (at level 100, p at next level, right associativity) : prog_scope.
Notation "p ;;; q" := (prog_bind p (fun _ => q))
  (at level 100, right associativity) : prog_scope.
Local Open Scope prog_scope.

Definition lift {A} (r : res A) : prog A :=
  match r with Ok a => Ret a | Err e => Raise e end.

(** One read and one write of an attribute. *)
Definition get {A} (f : bsession -> A) : prog A := Act (fun s => (s, f s)) Ret.
Definition upd (f : bsession -> bsession) : prog () := Act (fun s => (f s, ())) Ret.

(** The next outcome of a script. *)
Definition pop (l : list bool) : bool * list bool :=
  match l with [] => (true, []) | b :: l => (b, l) end.

(** The program run alone, to its end. *)
Fixpoint exec {A} (p : prog A) (s : bsession) : bsession * res A :=
  match p with
  | Ret a => (s, Ok a)
  | Raise e => (s, Err e)
  | Act f k => let '(s', b) := f s in exec (k b) s'
  end.

(** ** Sockets, the store, timers *)

(** [send_client]: one frame under the lock, or False. *)
Definition send_client (o : origin) (opcode : Z) (body : bytes) : prog bool :=
  Act (fun s =>
    let '(ok, rest) := pop (b_client_ok s) in
    let s := set_b_client_ok rest s in
    (if ok then set_b_to_client (b_to_client s ++ [Sent o (opcode, body) (snd (frame_s2c opcode body None))]) s
     else s, ok)) Ret.

(** [self.core.sendall(frame_c2s(opcode, body, self.c2s))]. *)
Definition send_core (o : origin) (opcode : Z) (body : bytes) : prog (res ()) :=
  Act (fun s =>
    match frame_c2s opcode body (b_c2s s) with
    | Err e => (s, Err e)
    | Ok (enc, wire) =>
        let '(ok, rest) := pop (b_core_ok s) in
        let s := set_b_core_ok rest (set_b_c2s enc s) in
        if ok then (set_b_to_core (b_to_core s ++ [Sent o (opcode, body) wire]) s, Ok ())
        else (s, Err OSError)
    end) Ret.

Definition log_packet (r : res (option packet)) : list packet :=
  match r with Ok (Some p) => [p] | _ => [] end.

Definition read_client : prog (res (option packet)) :=
  Act (fun s =>
    let '((conn, _), r) := read_c2s (b_client_in s) None in
    (set_b_from_client (b_from_client s ++ log_packet r) (set_b_client_in conn s), r)) Ret.

Definition read_core : prog (res (option packet)) :=
  Act (fun s =>
    let '((conn, dec), r) := read_s2c (b_core_in s) (b_s2c s) in
    (set_b_from_core (b_from_core s ++ log_packet r) (set_b_s2c dec (set_b_core_in conn s)), r)) Ret.

(** A change of the store under its lock, with the flush behind it. *)
Definition store_write (f : coa_data -> coa_data) : prog () :=
  r <~ Act (fun s =>
    let d := f (b_store s) in
    let '(ok, rest) := pop (b_flush_ok s) in
    let s := set_b_flush_ok rest (set_b_store d s) in
    (if ok then set_b_file d s else s, if ok then Ok () else Err OSError)) Ret;;
  lift r.

(** [Timer(...).start()]. *)
Definition start_timer (k : timer_kind) (s : bsession) : nat * bsession :=
  let id := b_next_timer s in
  (id, set_b_timers (b_timers s ++ [(id, k)]) (set_b_next_timer (S id) s)).

(** [self.ca_timer.cancel()] where there is one: a timer that has fired is no
    longer among the pending ones. *)
Definition cancel_ca_timer (s : bsession) : bsession :=
  match b_timer s with
  | Some id => set_b_timer None (set_b_timers (ddel id (b_timers s)) s)
  | None => s
  end.

(** ** The pure halves of the core-to-client pump *)

Section Rewrites.
Context `{Unicode} (c : bridge_cfg).

(** A CLASS trainer list (type 0) takes the configured type. *)
Definition retype_trainer_list (body : bytes) : res bytes :=
  if negb (cf_trainer_type c =? 0) && (12 <=? pylen body) then
    t ← unpackI body 8;
    if t =? 0 then w ← packI (cf_trainer_type c); Ok (slice_to 8 body ++ w ++ slice_from 12 body)
    else Ok body
  else Ok body.

Definition is_spellmod (opcode : Z) : bool :=
  (opcode =? SMSG_SET_FLAT_SPELL_MODIFIER) || (opcode =? SMSG_SET_PCT_SPELL_MODIFIER).

Definition pad_spellmod (opcode : Z) (body : bytes) : bytes :=
  if is_spellmod opcode && (pylen body <? SPELLMOD_BODY_BYTES)
     && negb (bool_decide (cf_spellmod_mode c = lit "raw"))
  then body ++ replicate (Z.to_nat (SPELLMOD_BODY_BYTES - pylen body)) 0
  else body.

(** [s.startswith(p)]. *)
Definition starts_with (p s : pystr) : bool := bool_decide (take (length p) s = p).

(** [bytes(n)]. *)
Definition zero_bytes (n : Z) : res bytes := if n <? 0 then Err ValueError else Ok (replicate (Z.to_nat n) 0).

(** The packet and the tally behind ASC_SPELLMOD_MODE; [None] is withheld. *)
Definition spellmod (opcode : Z) (body : bytes) (seen : list (seen_key * Z))
    : res (option bytes * list (seen_key * Z)) :=
  let mode := cf_spellmod_mode c in
  if bool_decide (mode = []) || negb (is_spellmod opcode) || (pylen body <? 6) then Ok (Some body, seen)
  else
    eff ← index body 0; op ← index body 1; val ← unpacki body 2;
    let keep (drop : bool) seen := Ok (if drop then None else Some body, seen) in
    if bool_decide (mode = lit "firstop") then
      let '(owner, seen) := dsetdefault (SeenOp opcode op) eff seen in
      keep (negb (owner =? eff)) seen
    else if bool_decide (mode = lit "eff0") then Ok (Some ([0] ++ slice_from 1 body), seen)
    else if bool_decide (mode = lit "uniq") then
      let key := SeenTriple opcode op eff val in
      keep (dmem key seen) (dset key 1 seen)
    else if starts_with (lit "pad") mode then
      n ← int_of_str (slice_from 3 mode); z ← zero_bytes n; Ok (Some (body ++ z), seen)
    else if starts_with (lit "op") mode then
      n ← int_of_str (slice_from 2 mode); b ← mkbytes [n];
      Ok (Some (slice_to 1 body ++ b ++ slice_from 2 body), seen)
    else if bool_decide (mode = lit "one") || starts_with (lit "n") mode then
      limit ← (if bool_decide (mode = lit "one") then Ok 1 else int_of_str (slice_from 1 mode));
      let n := default 0 (dget SeenCount seen) in
      keep (n >=? limit) (dset SeenCount (n + 1) seen)
    else keep false seen.
End Rewrites.

(** ** Operations of the session *)

Section Bridge.
Context `{Unicode} (c : bridge_cfg).

(** [bool(name)] for a name or None. *)
Definition named (n : option pystr) : bool := match n with Some (_ :: _) => true | _ => false end.

Definition send_class_byte (clas : Z) : prog () :=
  if negb (cf_write_class_byte c) then Ret ()
  else
    g <~ get b_guid;;
    looks <~ get b_looks;;
    match g with
    | Some guid =>
        match dget guid looks with
        | Some (race, gender) =>
            let power := Z.land (power_for (cf_fallback_class c)) 0xFF in
            let bytes0 := bytes0_for race clas gender power in
            body <~ lift (build_values_update guid [(UNIT_FIELD_BYTES_0, u32le bytes0)] PLAYER_END);;
            send_client Originated SMSG_UPDATE_OBJECT body;;; Ret ()
        | None => Ret ()
        end
    | None => Ret ()
    end.

(** One budget packet per row; False once the socket is gone. *)
Fixpoint send_budgets (rows : list (list Z)) : prog bool :=
  match rows with
  | [] => Ret true
  | r :: rows =>
      body <~ lift (a ← index r 0; b ← index r 1; f ← index r 2; x ← index r 7; y ← index r 8;
                    coa_essence_budget a b f x y 0);;
      ok <~ send_client Originated SMSG_CA_ESSENCE_BUDGET body;;
      if (ok : bool) then send_budgets rows else Ret false
  end.

Definition send_coa_state : prog () :=
  name <~ get b_name;;
  store <~ get b_store;;
  match name with
  | Some ((_ :: _) as n) =>
      match coa_get_class store n with
      | Some clas =>
          if dmem clas (cf_class_names c) then
            send_class_byte clas;;;
            rows <~ lift (rows_for (cf_essence c) clas);;
            go <~ match rows with
                  | [] => Ret true
                  | _ => ok <~ send_budgets rows;;
                         if (ok : bool) then lift (budget (cf_essence c) clas 80);;; Ret true else Ret false
                  end;;
            if (go : bool) then
              store <~ get b_store;;
              body <~ lift (coa_known_entries (coa_get_entries store n));;
              send_client Originated SMSG_CA_KNOWN_ENTRIES body;;; Ret ()
            else Ret ()
          else Ret ()
      | None => Ret ()
      end
  | _ => Ret ()
  end.

(** The test and the disarming are one critical section. *)
Definition send_ca_bootstrap : prog () :=
  owed <~ Act (fun s => if b_armed s then (cancel_ca_timer (set_b_armed false s), true) else (s, false)) Ret;;
  if (owed : bool) then
    body <~ lift (smsg_ca_active_spec (cf_ca_active_index c) (cf_ca_spec_slots c));;
    ok <~ send_client Originated SMSG_CA_ACTIVE_SPEC body;;
    if (ok : bool) then (if cf_coa_mode c then send_coa_state else Ret ()) else Ret ()
  else Ret ().

Definition arm_ca_bootstrap : prog () :=
  if cf_ca_bootstrap c then
    upd (fun s =>
      let '(id, s) := start_timer BootstrapTimer (cancel_ca_timer (set_b_armed true s)) in
      set_b_timer (Some id) s)
  else Ret ().

Definition send_archive_hello : prog () :=
  body <~ lift (smsg_system_chat ARCHIVE_HELLO);;
  send_client Originated SMSG_MESSAGECHAT body;;; Ret ().

Definition send_customs : prog () :=
  upd (set_b_customs_sent true);;;
  body <~ lift (smsg_realm_info ARCHIVE_REALM_NAME 2 1 11 (Some (cf_flavour c)) 0 0);;
  send_client Originated SMSG_REALM_INFO body;;; Ret ().

Definition handle_custom (opcode : Z) (body : bytes) : prog () :=
  name <~ get b_name;;
  if cf_coa_mode c && (opcode =? CMSG_CA_KNOWN_ENTRIES_UPLOAD) && named name then
    records <~ lift (coa_parse_known_entries body);;
    store_write (fun d => coa_set_entries d (default [] name) records);;;
    out <~ lift (coa_known_entries records);;
    send_client Originated SMSG_CA_KNOWN_ENTRIES out;;; Ret ()
  else Ret ().

Definition fix_char_create (body : bytes) : prog bytes :=
  match char_create_fix (cf_valid_classes c) (cf_fallback_class c) body with
  | None => Ret body
  | Some cx =>
      (if cf_coa_mode c then
         let name := utf8_decode_replace (cx_name cx) in
         match name with
         | [] => Ret ()
         | _ => if dmem (cx_class cx) (cf_class_names c)
                then upd (set_b_pending (Some (name, cx_class cx)))
                else upd (set_b_pending None)
         end
       else Ret ());;;
      lift (with_carrier body cx)
  end.

Definition close : prog () :=
  alive <~ get b_alive;;
  if negb alive then Ret ()
  else
    upd (set_b_alive false);;;
    upd (fun s => cancel_ca_timer (set_b_armed false s)).

(** ** The pumps *)

(** Whether a pump's loop goes on. *)
Inductive turn_end : Set := Continue | Break.

(** The work on one packet of the client. *)
Definition client_packet (opcode : Z) (body : bytes) : prog turn_end :=
  (if cf_coa_mode c && (opcode =? CMSG_PLAYER_LOGIN) && (8 <=? pylen body) then
     guid <~ lift (unpackQ body 0);;
     upd (set_b_guid (Some guid));;;
     upd (fun s => set_b_name (dget guid (b_roster s)) s)
   else Ret ());;;
  if FIRST_CUSTOM_OPCODE <=? opcode then handle_custom opcode body;;; Ret Continue
  else
    body <~ (if opcode =? CMSG_CHAR_CREATE then fix_char_create body else Ret body);;
    r <~ send_core Forwarded opcode body;;
    match r with
    | Err OSError => Ret Break
    | Err e => Raise e
    | Ok () =>
        if opcode =? CMSG_SET_ACTIVE_MOVER then
          armed <~ get b_armed;;
          (if (armed : bool) then send_ca_bootstrap else Ret ());;;
          Ret Continue
        else Ret Continue
    end.

(** One round of [pump_client_to_core]. *)
Definition client_iter : prog turn_end :=
  alive <~ get b_alive;;
  if negb alive then Ret Break
  else
    r <~ read_client;;
    match r with
    | Err (ValueError | OSError) | Ok None => Ret Break
    | Err e => Raise e
    | Ok (Some (opcode, body)) => client_packet opcode body
    end.

(** What SMSG_CHAR_CREATE does to the class that waits for it. *)
Definition settle_pending (code : Z) : prog () :=
  pending <~ get b_pending;;
  match pending with
  | Some (pname, pclass) =>
      (if code =? CHAR_CREATE_SUCCESS
       then store_write (fun d => coa_set_class d pname pclass) else Ret ());;;
      upd (set_b_pending None)
  | None => Ret ()
  end.

(** What is done to a packet of the core before it is forwarded; [None] is not
    forwarded. *)
Definition core_rewrite (opcode : Z) (body : bytes) : prog (option bytes) :=
  body <~ (if ((opcode =? SMSG_CHAR_CREATE) || (opcode =? SMSG_CHARACTER_LOGIN_FAILED))
              && negb (bool_decide (body = [])) then
             (if opcode =? SMSG_CHAR_CREATE then code <~ lift (index body 0);; settle_pending code else Ret ());;;
             Ret body
           else if opcode =? SMSG_TRAINER_LIST then lift (retype_trainer_list c body)
           else Ret body);;
  seen <~ get b_seen;;
  m <~ lift (spellmod c opcode (pad_spellmod c opcode body) seen);;
  upd (set_b_seen (snd m));;;
  match fst m with
  | None => Ret None
  | Some body =>
      if bool_decide (opcode ∈ cf_drop_opcodes c) then Ret None
      else if cf_coa_mode c && (opcode =? SMSG_CHAR_ENUM) && negb (bool_decide (body = [])) then
        store <~ get b_store;;
        r <~ lift (rewrite_char_enum body (coa_get_class store));;
        upd (fun s => set_b_roster (fold_left (fun d kv => dset (fst kv) (snd kv) d) (er_roster r) (b_roster s)) s);;;
        upd (fun s => set_b_looks (fold_left (fun d kv => dset (fst kv) (snd kv) d) (er_looks r) (b_looks s)) s);;;
        Ret (Some (er_body r))
      else Ret (Some body)
  end.

Definition core_packet (opcode : Z) (body : bytes) : prog turn_end :=
  o <~ core_rewrite opcode body;;
  match o with
  | None => Ret Continue
  | Some body =>
      ok <~ send_client Forwarded opcode body;;
      if negb ok then Ret Break
      else
        (if opcode =? SMSG_TUTORIAL_FLAGS then
           done_ <~ get b_customs_sent;;
           if (done_ : bool) then Ret () else send_customs
         else Ret ());;;
        (if opcode =? SMSG_LOGIN_VERIFY_WORLD then
           upd (fun s => snd (start_timer HelloTimer s));;;
           arm_ca_bootstrap
         else Ret ());;;
        Ret Continue
  end.

(** One round of [pump_core_to_client]. *)
Definition core_iter : prog turn_end :=
  alive <~ get b_alive;;
  if negb alive then Ret Break
  else
    r <~ read_core;;
    match r with
    | Err (ValueError | OSError) | Ok None => Ret Break
    | Err e => Raise e
    | Ok (Some (opcode, body)) => core_packet opcode body
    end.
End Bridge.

(** ** The handshake *)

Section Handshake.
Context `{Unicode} (c : bridge_cfg) (sha1 : bytes -> bytes) (hmac_sha1 : bytes -> bytes -> bytes).
(** [stage_session_key] (the core's account table) and the connection to the
    core; [key40] is what [os.urandom] returned. *)
Context (stage : pystr -> bytes -> res Z) (connect : res ()) (key40 : bytes).

(** [self.client.sendall]: here an error is not caught. *)
Definition must_send_client (o : origin) (opcode : Z) (body : bytes) : prog () :=
  ok <~ send_client o opcode body;; if (ok : bool) then Ret () else Raise OSError.

(** A packet, or a RuntimeError at the end of the stream. *)
Definition must_read (p : prog (res (option packet))) : prog packet :=
  r <~ p;;
  match r with
  | Ok (Some pkt) => Ret pkt
  | Ok None => Raise RuntimeError
  | Err e => Raise e
  end.

(** Forward until the verdict arrives. *)
Fixpoint await_verdict (n : nat) : prog () :=
  match n with
  | O => Raise RuntimeError
  | S n =>
      pkt <~ must_read read_core;;
      let '(opcode, rbody) := pkt in
      must_send_client Forwarded opcode rbody;;;
      if opcode =? SMSG_AUTH_RESPONSE then
        if match rbody with b :: _ => b | [] => 0xFF end =? AUTH_OK then Ret () else Raise RuntimeError
      else await_verdict n
  end.

Definition handshake : prog () :=
  must_send_client Originated SMSG_AUTH_CHALLENGE (le 4 1 ++ CLIENT_AUTH_SEED ++ BRIDGE_CHALLENGE_TAIL);;;
  pkt <~ must_read read_client;;
  let '(opcode, abody) := pkt in
  if negb (opcode =? CMSG_AUTH_SESSION) then Raise RuntimeError
  else
    f <~ lift (parse_bridge_auth abody);;
    upd (set_b_account (ba_account f));;;
    lift (stage (utf8_decode_replace (ba_account f)) key40);;;
    lift connect;;;
    pkt <~ must_read read_core;;
    let '(opcode, cbody) := pkt in
    if negb (opcode =? SMSG_AUTH_CHALLENGE) then Raise RuntimeError
    else
      let server_seed := slice 4 8 cbody in
      let digest := auth_digest sha1 (ba_account f) (ba_clientSeed f) server_seed key40 in
      out <~ lift (build_bridge_auth f (cf_ac_build c) (cf_ac_realm c) digest);;
      r <~ send_core Originated CMSG_AUTH_SESSION out;;
      lift r;;;
      upd (fun s => let '(s2c, c2s) := bridge_crypt hmac_sha1 key40 in
                    set_b_s2c (Some s2c) (set_b_c2s (Some c2s) s));;;
      await_verdict 8.
End Handshake.

(** ** Threads *)

(** What a thread is: a pump (whose program is one round, started again while
    it answers [Continue]), a pump that is closing the session, the thread of a
    fired timer, or one that has ended. *)
Inductive role : Set := ClientPump | CorePump | Closing | TimerThread | Ended.

Record thread := Thread { th_role : role; th_prog : prog turn_end }.

Record config := Config { cf_sess : bsession; cf_threads : list thread }.

Section Schedule.
Context `{Unicode} (c : bridge_cfg).

(** The session is closed behind both pumps; only [run] also closes it when its
    pump, the client's, ends with an exception ([_guarded] swallows it). *)
Definition close_thread : thread := Thread Closing (close;;; Ret Break).
Definition ended : thread := Thread Ended (Ret Break).

(** What becomes of a thread whose program has come to its end. *)
Definition next_round (t : thread) (r : res turn_end) : thread :=
  match th_role t, r with
  | ClientPump, Ok Continue => Thread ClientPump (client_iter c)
  | ClientPump, _ => close_thread
  | CorePump, Ok Continue => Thread CorePump (core_iter c)
  | CorePump, Ok Break => close_thread
  | _, _ => ended
  end.

(** One atomic access, or the turn of a loop. *)
Definition thread_step (s : bsession) (t : thread) : bsession * thread :=
  match th_prog t with
  | Ret v => (s, next_round t (Ok v))
  | Raise e => (s, next_round t (Err e))
  | Act f k => let '(s', b) := f s in (s', Thread (th_role t) (k b))
  end.

Definition timer_prog (k : timer_kind) : prog turn_end :=
  match k with
  | HelloTimer => send_archive_hello;;; Ret Break
  | BootstrapTimer => send_ca_bootstrap c;;; Ret Break
  end.

(** The scheduler's choices: a thread takes a step, or a pending timer fires. *)
Inductive choice : Set := Turn (i : nat) | Fire (id : nat).

Definition sched_step (cf : config) (ch : choice) : config :=
  match ch with
  | Turn i =>
      match cf_threads cf !! i with
      | Some t => let '(s, t') := thread_step (cf_sess cf) t in Config s (<[i := t']> (cf_threads cf))
      | None => cf
      end
  | Fire id =>
      match dget id (b_timers (cf_sess cf)) with
      | Some k => Config (set_b_timers (ddel id (b_timers (cf_sess cf))) (cf_sess cf))
                    (cf_threads cf ++ [Thread TimerThread (timer_prog k)])
      | None => cf
      end
  end.

Definition run_schedule (cf : config) (chs : list choice) : config := fold_left sched_step chs cf.

(** The two pumps of an accepted session. *)
Definition pumping (s : bsession) : config :=
  Config s [Thread ClientPump (client_iter c); Thread CorePump (core_iter c)].
End Schedule.

(** [Session.run]: a failed handshake only closes. *)
Definition start_session `{Unicode} (c : bridge_cfg) (hs : prog ()) (s : bsession) : config :=
  match exec hs s with
  | (s, Ok ()) => pumping c s
  | (s, Err _) => Config (fst (exec close s)) []
  end.

(** [Session.__init__] over the given sockets and store. *)
Definition new_bridge_session (store : coa_data) (client_in core_in : list rx)
    (client_ok core_ok flush_ok : list bool) : bsession :=
  BSession true [63] false None false None [] 0 [] [] None None [] store store None None
    client_in core_in client_ok core_ok flush_ok [] [] [] [].
