(* ===== verification/BridgeWireSpec.v ===== *)
(** * The bridge's wire formats: theorems

    Each direction's reader returns the packet the other side framed, however
    the network cut the stream and whatever the state of the header cipher; the
    auth session is rebuilt with three fields changed and nothing else; a
    character-creation packet loses at most its class byte, to a class its race
    can be. *)
From S2P Require Import Prelude Wire PyFloat Text Consts Rc4 Framing Builders BridgeWire.

(** ** Framing *)

Lemma frame_s2c_eq opcode body enc : frame_s2c opcode body enc = frame_pkt enc opcode body.
Proof. reflexivity. Qed.

Lemma rx_get_ok n conn rest b :
  0 <= n -> rx_bytes conn = b ++ rest -> pylen b = n ->
  exists conn', rx_get n conn = (Ok (Some b), conn') /\ rx_bytes conn' = rest.
Proof.
  intros Hn Hb Hl. destruct (recv_exact_spec conn n Hn) as (r & conn' & E & Hok & _).
  destruct Hok as [-> Hr]; [rewrite Hb, pylen_app; pose proof (pylen_nonneg rest); lia|].
  exists conn'. unfold rx_get. rewrite E, Hr, Hb. unfold slice_to, slice_from, pylen in *.
  rewrite take_app_exact, drop_app_exact by lia. done.
Qed.

Lemma read_body_ok opcode body limit conn dec rest :
  pylen body <= limit -> rx_bytes conn = body ++ rest ->
  exists conn', read_body opcode (pylen body) limit conn dec = ((conn', dec), Ok (Some (opcode, body)))
    /\ rx_bytes conn' = rest.
Proof.
  intros Hl Hb. pose proof (pylen_nonneg body) as Hn. unfold read_body.
  rewrite (proj2 (Z.ltb_ge _ _)), Z.gtb_ltb, (proj2 (Z.ltb_ge _ _)) by lia. cbn [orb].
  destruct (Z.eqb_spec (pylen body) 0) as [H0|H0].
  - destruct body; [|rewrite pylen_cons in H0; pose proof (pylen_nonneg body); lia].
    exists conn. done.
  - destruct (rx_get_ok (pylen body) conn rest body Hn Hb eq_refl) as (conn' & -> & Hr).
    exists conn'. done.
Qed.

Lemma be16_bytes v : 0 <= v < 2 ^ 16 -> exists x y, rev (le 2 v) = [x; y] /\ 256 * x + y = v.
Proof.
  intros H. cbn [le rev app]. do 2 eexists. split; [reflexivity|].
  change (2 ^ 16) with 65536 in H. rewrite (Z.mod_small (v / 256))
    by (split; [apply Z.div_pos | apply Z.div_lt_upper_bound]; lia).
  pose proof (Z.div_mod v 256 ltac:(lia)). lia.
Qed.

(** The reader of client packets returns what [frame_c2s] wrote, and its cipher
    ends where the writer's did. *)
Lemma read_c2s_frame conn enc opcode body enc' wire rest :
  frame_c2s opcode body enc = Ok (enc', wire) -> rx_bytes conn = wire ++ rest ->
  exists conn', read_c2s conn enc = ((conn', enc'), Ok (Some (opcode, body))) /\ rx_bytes conn' = rest.
Proof.
  unfold frame_c2s. intros H Hb. inv_bind H. rename v into s. inv_bind H. rename v into o.
  destruct (crypt_opt enc (s ++ o)) as [e h] eqn:Ec. apply Ok_inj in H. injection H as <- <-.
  unfold pack_be16 in E. inv_bind E. apply Ok_inj in E. subst s. apply pack_u_inv in E1 as [Hs ->].
  apply pack_u_inv in E0 as [Ho ->]. change (256 ^ Z.of_nat 2) with (2 ^ 16) in Hs.
  destruct (be16_bytes _ Hs) as (x & y & Exy & Hxy). rewrite Exy in Ec.
  pose proof (crypt_opt_back enc ([x; y] ++ le 4 opcode)) as Hback. rewrite Ec in Hback. cbn [fst snd] in Hback.
  pose proof (length_crypt_opt enc ([x; y] ++ le 4 opcode)) as Hlen. rewrite Ec in Hlen. cbn [snd] in Hlen.
  rewrite length_app, length_le in Hlen. cbn in Hlen.
  rewrite <- app_assoc in Hb.
  destruct (rx_get_ok 6 conn (body ++ rest) h ltac:(lia) Hb ltac:(unfold pylen; lia)) as (conn1 & Eg & Hb1).
  unfold read_c2s. rewrite Eg, Hback.
  change (slice 0 2 ([x; y] ++ le 4 opcode)) with [x; y]. cbn [unpack_be16 mbind res_bind].
  assert (unpackI ([x; y] ++ le 4 opcode) 2 = Ok opcode) as ->.
  { pose proof (unpack_u_app 4 [x; y] opcode [] 2 eq_refl Ho) as Hu. rewrite app_nil_r in Hu. exact Hu. }
  cbn [mbind res_bind]. rewrite Hxy. replace (pylen body + 4 - 4) with (pylen body) by lia.
  apply read_body_ok; [lia|exact Hb1].
Qed.

(** The core's frames: [frame_pkt] is what an AzerothCore server sends. *)
Lemma land_7 t : 0 <= t < 256 -> negb (Z.land t 0x80 =? 0) = Z.testbit t 7.
Proof.
  intros H. apply (finite_forall (fun t => Bool.eqb (negb (Z.land t 0x80 =? 0)) (Z.testbit t 7)) 256) in H;
    [|vm_compute; reflexivity].
  by apply Bool.eqb_prop.
Qed.

Lemma shift_lor a b k : 0 <= k -> 0 <= a < 2 ^ k -> 0 <= b -> Z.lor (Z.shiftl b k) a = Z.shiftl b k + a.
Proof. intros Hk Ha Hb. rewrite Z.lor_comm, lor_above, Z.shiftl_mul_pow2 by lia. lia. Qed.

Lemma is_bytes_frame_header opcode size : is_bytes (frame_header opcode size).
Proof.
  assert (forall v, is_byte (Z.land v 0xFF)) as Hb
    by (intros v; unfold is_byte; rewrite land_ones8; apply Z.mod_pos_bound; lia).
  unfold frame_header. destruct (_ >? _).
  - repeat constructor; try apply Hb; unfold is_byte;
      apply (lor_bound 0x80 (Z.land (Z.shiftr size 16) 0xFF) 8); try lia; apply Hb.
  - repeat (constructor; [apply Hb|]). constructor.
Qed.

Lemma lor_sum a b : is_byte a -> 0 <= b -> Z.lor a (Z.shiftl b 8) = a + Z.shiftl b 8.
Proof. intros Ha Hb. rewrite lor_above, Z.shiftl_mul_pow2 by (unfold is_byte in Ha; lia). done. Qed.

Lemma land_ones7 v : Z.land v 0x7F = v mod 128.
Proof. change 0x7F with (Z.ones 7). rewrite Z.land_ones by lia. done. Qed.

Lemma lor3_sum m a b :
  0 <= m < 128 -> is_byte a -> is_byte b ->
  Z.lor (Z.lor (Z.shiftl m 16) (Z.shiftl a 8)) b = Z.shiftl m 16 + Z.shiftl a 8 + b.
Proof.
  unfold is_byte. intros Hm Ha Hb. rewrite (shift_lor (Z.shiftl a 8)) by (rewrite ?Z.shiftl_mul_pow2; lia).
  assert (Z.shiftl m 16 + Z.shiftl a 8 = Z.shiftl (m * 256 + a) 8) as -> by (rewrite !Z.shiftl_mul_pow2; lia).
  apply shift_lor; lia.
Qed.

(** The reader of core packets returns what a 3.3.5a server framed. *)
Lemma read_s2c_frame conn enc opcode body rest :
  frameable (opcode, body) -> rx_bytes conn = snd (frame_pkt enc opcode body) ++ rest ->
  exists conn', read_s2c conn enc = ((conn', fst (frame_pkt enc opcode body)), Ok (Some (opcode, body)))
    /\ rx_bytes conn' = rest.
Proof.
  intros [Ho Hl] Hb. cbn in Ho, Hl. unfold frame_pkt in Hb |- *. pose proof (pylen_nonneg body) as Hn.
  pose proof (is_bytes_frame_header opcode (pylen body + 2)) as Hby.
  destruct (frame_header_cases opcode (pylen body + 2) Ho) as (top & h & Eh & Hlh & Hs & Hop); [lia|].
  rewrite Eh in Hby, Hb |- *. pose proof (crypt_opt_split enc [top] h) as Hc.
  change (top :: h) with ([top] ++ h) in Hb |- *.
  destruct (crypt_opt enc [top]) as [e1 oa] eqn:E1. destruct (crypt_opt e1 h) as [e2 ob] eqn:E2.
  destruct Hc as (Hc & Ha & Hb2 & La & Lb). rewrite Hc in Hb |- *. cbn [fst snd] in Hb |- *.
  rewrite <- !app_assoc in Hb. apply Forall_cons in Hby as [Ht Hh]. cbn [length] in La.
  destruct (rx_get_ok 1 conn _ oa ltac:(lia) Hb ltac:(unfold pylen; lia)) as (conn1 & Eg & Hb1).
  unfold read_s2c. rewrite Eg, Ha. change (index [top] 0) with (Ok (A := Z) top). cbn iota beta.
  rewrite (land_7 top Ht).
  assert (forall n : Z, n = pylen ob ->
    exists conn2, rx_get n conn1 = (Ok (Some ob), conn2) /\ rx_bytes conn2 = body ++ rest) as Hget.
  { intros n ->. exact (rx_get_ok (pylen ob) conn1 (body ++ rest) ob ltac:(apply pylen_nonneg) Hb1 eq_refl). }
  destruct (Z.testbit top 7) eqn:Et; cbn [negb].
  - destruct h as [|h0 [|h1 [|h2 [|h3 [|]]]]]; cbn in Hlh; try lia.
    destruct (Hget 4 ltac:(unfold pylen; cbn in Lb; lia)) as (conn2 & -> & Hb3). rewrite Hb2.
    change (res_map (index [h0; h1; h2; h3]) [0; 1; 2; 3]) with (Ok [h0; h1; h2; h3]). cbn iota beta.
    cbn [nth] in Hs, Hop. rewrite !Forall_cons in Hh. destruct Hh as (B0 & B1 & B2 & B3 & _).
    assert (0 <= Z.land top 0x7F < 128) as Hm by (rewrite land_ones7; apply Z.mod_pos_bound; lia).
    rewrite lor3_sum, Hs, lor_sum, Hop by (unfold is_byte in *; lia).
    replace (pylen body + 2 - 2) with (pylen body) by lia. apply read_body_ok; [lia|exact Hb3].
  - destruct h as [|h0 [|h1 [|h2 [|]]]]; cbn in Hlh; try lia.
    destruct (Hget 3 ltac:(unfold pylen; cbn in Lb; lia)) as (conn2 & -> & Hb3). rewrite Hb2.
    change (res_map (index [h0; h1; h2]) [0; 1; 2]) with (Ok [h0; h1; h2]). cbn iota beta.
    cbn [nth] in Hs, Hop. rewrite !Forall_cons in Hh. destruct Hh as (B0 & B1 & B2 & _).
    rewrite (shift_lor h0 top 8), Hs, lor_sum, Hop by (unfold is_byte in *; lia).
    replace (pylen body + 2 - 2) with (pylen body) by lia. apply read_body_ok; [lia|exact Hb3].
Qed.

(** ** The auth session *)

Definition auth_form (build lid : Z) (acc : bytes) (ty : Z) (seed : bytes) (rg bg rl : Z) (tail : bytes) : bytes :=
  le 4 build ++ le 4 lid ++ (acc ++ [0]) ++ le 4 ty ++ seed ++ le 4 rg ++ le 4 bg ++ le 4 rl ++ tail.

Lemma parse_auth_form build lid acc ty seed rg bg rl tail :
  Forall is_word [build; lid; ty; rg; bg; rl] -> 0 ∉ acc -> pylen seed = 4 ->
  parse_bridge_auth (auth_form build lid acc ty seed rg bg rl tail)
  = Ok (BridgeAuth build lid acc ty seed rg bg rl (slice 0 8 tail) (slice 8 28 tail) (slice_from 28 tail)).
Proof.
  rewrite !Forall_cons. intros (H1 & H2 & H3 & H4 & H5 & H6 & _) Ha Hs.
  set (b := auth_form build lid acc ty seed rg bg rl tail). unfold auth_form in b.
  set (A := pylen acc). pose proof (pylen_nonneg acc : 0 <= A) as HA.
  set (front := le 4 build ++ le 4 lid ++ acc ++ [0]).
  set (mid := le 4 ty ++ seed ++ le 4 rg ++ le 4 bg ++ le 4 rl).
  assert (b = front ++ mid ++ tail) as Eb by (unfold b, front, mid; by rewrite <- !app_assoc).
  assert (pylen front = 9 + A) as Lf by (unfold front; autorewrite with pylen; fold A; lia).
  assert (pylen mid = 20) as Lm by (unfold mid; autorewrite with pylen; lia).
  assert (forall pre v post off, b = pre ++ le 4 v ++ post -> off = pylen pre -> is_word v -> unpackI b off = Ok v) as Hu
    by (intros pre v post off E Eo Hv; by apply (unpack_u_at 4 pre v post)).
  clearbody b. unfold parse_bridge_auth.
  rewrite (Hu [] build (le 4 lid ++ (acc ++ [0]) ++ mid ++ tail) 0)
    by (done || (rewrite Eb; unfold front; by rewrite <- !app_assoc)). cbn [mbind res_bind].
  rewrite (Hu (le 4 build) lid ((acc ++ [0]) ++ mid ++ tail) 4)
    by (done || (rewrite Eb; unfold front; by rewrite <- !app_assoc)). cbn [mbind res_bind].
  assert (slice_from 8 b = acc ++ 0 :: mid ++ tail) as ->.
  { rewrite Eb. unfold front. rewrite <- !app_assoc, app_assoc. apply slice_from_app. by autorewrite with pylen. }
  rewrite find_byte_app by done. cbn [fmap option_fmap option_map res_of_option mbind res_bind].
  change (Z.of_nat (length acc)) with A.
  assert (slice 8 (8 + A) b = acc) as ->.
  { rewrite Eb. unfold front. rewrite <- !app_assoc, app_assoc. apply slice_app_mid; autorewrite with pylen; fold A; lia. }
  set (p := front ++ le 4 ty). assert (pylen p = 13 + A) as Lp by (unfold p; autorewrite with pylen; lia).
  rewrite (Hu front ty (seed ++ le 4 rg ++ le 4 bg ++ le 4 rl ++ tail) (8 + A + 1))
    by (done || lia || (rewrite Eb; unfold mid; by rewrite <- !app_assoc)). cbn [mbind res_bind].
  assert (slice (8 + A + 1 + 4) (8 + A + 1 + 4 + 4) b = seed) as ->.
  { rewrite Eb. unfold mid. rewrite <- !app_assoc, app_assoc. fold p. apply slice_app_mid; lia. }
  rewrite (Hu (p ++ seed) rg (le 4 bg ++ le 4 rl ++ tail) (8 + A + 1 + 4 + 4))
    by (done || (rewrite pylen_app; lia) || (rewrite Eb; unfold mid, p; by rewrite <- !app_assoc)). cbn [mbind res_bind].
  rewrite (Hu (p ++ seed ++ le 4 rg) bg (le 4 rl ++ tail) (8 + A + 1 + 4 + 4 + 4))
    by (done || (autorewrite with pylen; lia) || (rewrite Eb; unfold mid, p; by rewrite <- !app_assoc)). cbn [mbind res_bind].
  rewrite (Hu (p ++ seed ++ le 4 rg ++ le 4 bg) rl tail (8 + A + 1 + 4 + 4 + 8))
    by (done || (autorewrite with pylen; lia) || (rewrite Eb; unfold mid, p; by rewrite <- !app_assoc)). cbn [mbind res_bind].
  set (o := 8 + A + 1 + 4 + 4 + 12). assert (o = pylen (front ++ mid)) as Eo by (rewrite pylen_app; unfold o; lia).
  assert (forall i j, 0 <= i -> 0 <= j -> slice (o + i) (o + j) b = slice i j tail) as Hsl.
  { intros i j Hi Hj. rewrite Eb, app_assoc. unfold slice. replace (o + j - (o + i)) with (j - i) by lia.
    rewrite Eo. unfold pylen. rewrite Z2Nat.inj_add, Nat2Z.id by lia. by rewrite drop_app_add. }
  rewrite <- (Z.add_0_r o) at 1. rewrite (Hsl 0 8) by lia.
  rewrite <- Z.add_assoc, (Hsl 8 (8 + 20)) by lia.
  unfold slice_from at 1. replace (Z.to_nat (o + (8 + 20))) with (length (front ++ mid) + 28)%nat
    by (rewrite Eo; unfold pylen; lia).
  rewrite Eb, app_assoc, drop_app_add. done.
Qed.

Lemma word_split (b : bytes) : is_bytes b -> 4 <= pylen b -> exists v t, b = le 4 v ++ t /\ is_word v /\ is_bytes t.
Proof.
  intros Hb Hl. destruct (split_at_len b 4 Hl) as (w & t & -> & Lw). apply is_bytes_app in Hb as [Hw Ht].
  exists (unle w), t. rewrite <- Lw at 1. rewrite le_unle by done. split; [done|]. split; [|done].
  pose proof (unle_bound w Hw) as Hu. unfold pylen in Hu. rewrite Lw in Hu. exact Hu.
Qed.

(** Whatever is parsed has the packet's form. *)
Lemma parse_auth_inv body f :
  is_bytes body -> parse_bridge_auth body = Ok f ->
  exists build lid acc ty seed rg bg rl tail,
    body = auth_form build lid acc ty seed rg bg rl tail
    /\ Forall is_word [build; lid; ty; rg; bg; rl] /\ 0 ∉ acc /\ pylen seed = 4.
Proof.
  intros Hb H. unfold parse_bridge_auth in H.
  assert (forall b off v, unpackI b off = Ok v -> 0 <= off /\ off + 4 <= pylen b) as Hfit.
  { intros b off v. unfold unpackI, unpack_u. change (Z.of_nat 4) with 4. split_match; [|done]. zbool. lia. }
  inv_bind H. apply Hfit in E as [_ Hl0]. inv_bind H. apply Hfit in E as [_ Hl1].
  destruct (word_split body Hb ltac:(lia)) as (build & b1 & -> & W1 & Hb1).
  rewrite pylen_app, pylen_le in *. destruct (word_split b1 Hb1 ltac:(lia)) as (lid & b2 & -> & W2 & Hb2).
  rewrite app_assoc in H. rewrite slice_from_app in H by (autorewrite with pylen; lia).
  destruct (find_byte 0 b2) as [k|] eqn:Ek; cbn [fmap option_fmap option_map res_of_option mbind res_bind] in H; [|done].
  destruct (find_byte_split 0 b2 k Ek) as (acc & b3 & -> & Hacc & Lk).
  apply is_bytes_app in Hb2 as [_ Hb2]. apply Forall_cons in Hb2 as [_ Hb3].
  inv_bind H. clear E. inv_bind H. clear E. inv_bind H. clear E. inv_bind H. apply Hfit in E as [_ Hl].
  rewrite !pylen_app, !pylen_le, pylen_cons in Hl. unfold pylen in Hl at 1. rewrite Lk in Hl. clear H.
  assert (20 <= pylen b3) as H24 by (unfold pylen in *; lia).
  destruct (word_split b3 Hb3 ltac:(lia)) as (ty & b4 & -> & W3 & Hb4). rewrite pylen_app, pylen_le in H24.
  destruct (split_at_len b4 4 ltac:(lia)) as (seed & b5 & -> & Ls). apply is_bytes_app in Hb4 as [_ Hb5].
  rewrite pylen_app in H24. unfold pylen in H24 at 1. rewrite Ls in H24.
  destruct (word_split b5 Hb5 ltac:(lia)) as (rg & b6 & -> & W4 & Hb6). rewrite pylen_app, pylen_le in H24.
  destruct (word_split b6 Hb6 ltac:(lia)) as (bg & b7 & -> & W5 & Hb7). rewrite pylen_app, pylen_le in H24.
  destruct (word_split b7 Hb7 ltac:(lia)) as (rl & tail & -> & W6 & _).
  exists build, lid, acc, ty, seed, rg, bg, rl, tail. split; [unfold auth_form; by rewrite <- !app_assoc|].
  split; [repeat constructor; try apply W1; try apply W2; try apply W3; try apply W4; try apply W5; apply W6|].
  split; [done|unfold pylen; lia].
Qed.

Lemma take_drop_28 (l : bytes) : slice 0 8 l ++ slice 8 28 l ++ slice_from 28 l = l.
Proof.
  unfold slice, slice_from. change (Z.to_nat (8 - 0)) with 8%nat. change (Z.to_nat 0) with 0%nat.
  change (Z.to_nat (28 - 8)) with 20%nat. change (Z.to_nat 8) with 8%nat. change (Z.to_nat 28) with (8 + 20)%nat.
  rewrite drop_0, <- (drop_drop l 20 8), take_drop. apply take_drop.
Qed.

Lemma build_auth_form f build realm digest :
  Forall is_word [build; ba_loginServerID f; ba_loginServerType f; ba_regionID f; ba_battlegroupID f; realm] ->
  build_bridge_auth f build realm digest
  = Ok (auth_form build (ba_loginServerID f) (ba_account f) (ba_loginServerType f) (ba_clientSeed f)
          (ba_regionID f) (ba_battlegroupID f) realm (ba_dosResponse f ++ digest ++ ba_addon_raw f)).
Proof.
  rewrite !Forall_cons. intros (H1 & H2 & H3 & H4 & H5 & H6 & _).
  unfold build_bridge_auth. rewrite !packI_ok by done. done.
Qed.

(** A login packet is put together again with a new build, realm and digest and
    nothing else touched: with the packet's own three values it is the packet
    byte for byte, and with others the core reads those and the client's account,
    seed, challenge response and addon block. *)
Theorem auth_rewritten body f build realm digest :
  is_bytes body -> parse_bridge_auth body = Ok f -> pylen (ba_digest f) = 20 ->
  is_word build -> is_word realm -> pylen digest = 20 ->
  build_bridge_auth f (ba_build f) (ba_realmID f) (ba_digest f) = Ok body
  /\ exists out, build_bridge_auth f build realm digest = Ok out
     /\ parse_bridge_auth out
        = Ok (BridgeAuth build (ba_loginServerID f) (ba_account f) (ba_loginServerType f) (ba_clientSeed f)
                (ba_regionID f) (ba_battlegroupID f) realm (ba_dosResponse f) digest (ba_addon_raw f)).
Proof.
  intros Hb Hp Hd Hbu Hr Hdig.
  destruct (parse_auth_inv body f Hb Hp) as (bu & lid & acc & ty & seed & rg & bg & rl & tail & -> & Hw & Ha & Hs).
  rewrite parse_auth_form in Hp by done. apply Ok_inj in Hp. subst f. cbn [ba_digest] in Hd.
  rewrite !build_auth_form by (cbn; rewrite !Forall_cons in Hw |- *; tauto).
  cbn [ba_build ba_loginServerID ba_account ba_loginServerType ba_clientSeed ba_regionID ba_battlegroupID
       ba_realmID ba_dosResponse ba_digest ba_addon_raw].
  split; [by rewrite take_drop_28|]. eexists. split; [reflexivity|].
  rewrite parse_auth_form by (rewrite ?Forall_cons in Hw |- *; tauto).
  assert (length (slice 0 8 tail) = 8%nat) as L8.
  { unfold slice, pylen in *. rewrite length_take, length_drop in *. lia. }
  f_equal. f_equal.
  - rewrite <- (app_nil_l (slice 0 8 tail ++ _)). apply slice_app_mid; unfold pylen; rewrite ?L8; done.
  - apply slice_app_mid; unfold pylen in *; lia.
  - rewrite app_assoc. apply slice_from_app. rewrite pylen_app, Hdig. unfold pylen. lia.
Qed.

Definition sample_auth : bytes :=
  auth_form 12344 0 (lit "BOB") 0 [1; 2; 3; 4] 1 2 11 (replicate 8 5 ++ replicate 20 0xAB ++ [9; 9]).

Lemma auth_rewritten_witness :
  exists f, parse_bridge_auth sample_auth = Ok f
    /\ build_bridge_auth f (ba_build f) (ba_realmID f) (ba_digest f) = Ok sample_auth
    /\ exists out, build_bridge_auth f 12340 1 (replicate 20 1) = Ok out
       /\ parse_bridge_auth out = Ok (BridgeAuth 12340 0 (lit "BOB") 0 [1; 2; 3; 4] 1 2 1 (replicate 8 5) (replicate 20 1) [9; 9]).
Proof.
  eexists. split; [vm_compute; reflexivity|].
  refine (auth_rewritten sample_auth _ 12340 1 (replicate 20 1) _ _ _ _ _ _).
  - apply (proj2 (mkbytes_inv sample_auth sample_auth ltac:(vm_compute; reflexivity))).
  - vm_compute. reflexivity.
  - reflexivity.
  - unfold is_word; lia.
  - unfold is_word; lia.
  - reflexivity.
Defined.

(** ** Character creation *)

(** With the stock classes every race of the table has a class it can be. *)
Lemma race_has_class race allowed :
  dget race AC_RACE_CLASSES = Some allowed ->
  exists c, c ∈ allowed /\ c ∈ [1; 2; 3; 4; 5; 6; 7; 8; 9; 11].
Proof.
  intros H. apply dget_elem_of in H.
  assert (Forall (fun ra => Exists (fun c => c ∈ [1; 2; 3; 4; 5; 6; 7; 8; 9; 11]) (snd ra)) AC_RACE_CLASSES) as Hall
    by by_decide.
  rewrite Forall_forall in Hall. specialize (Hall _ H). apply Exists_exists in Hall as (x & Hx & Hv).
  exists x. done.
Qed.

Lemma carrier_allowed valid fallback race allowed :
  dget race AC_RACE_CLASSES = Some allowed -> (exists c, c ∈ allowed /\ c ∈ valid) ->
  carrier_class_for valid fallback race ∈ allowed.
Proof.
  intros Hr (x & Hx & Hv). unfold carrier_class_for. rewrite Hr.
  destruct (bool_decide_reflect (fallback ∈ allowed)) as [|_]; [done|].
  destruct (sort_Z (filter (fun c => c ∈ valid) allowed)) as [|y l] eqn:E.
  - exfalso. assert (x ∈ sort_Z (filter (fun c => c ∈ valid) allowed)) as Hin
      by (apply sort_Z_elem, list_elem_of_filter; done).
    rewrite E in Hin. by apply not_elem_of_nil in Hin.
  - assert (y ∈ sort_Z (filter (fun c => c ∈ valid) allowed)) as Hin by (rewrite E; left).
    by apply sort_Z_elem, list_elem_of_filter in Hin as [_ ?].
Qed.

(** A creation packet is rewritten only when its class is none the core can
    build, and then only in the class byte; the class it gets is one its race
    can be, for every race of the table. *)
Theorem char_create_carrier valid fallback body cx :
  char_create_fix valid fallback body = Some cx -> is_byte (cx_carrier cx) ->
  (forall x, x ∈ [1; 2; 3; 4; 5; 6; 7; 8; 9; 11] -> x ∈ valid) ->
  exists rest,
    body = cx_name cx ++ [0; cx_race cx; cx_class cx] ++ rest /\ 0 ∉ cx_name cx
    /\ with_carrier body cx = Ok (cx_name cx ++ [0; cx_race cx; cx_carrier cx] ++ rest)
    /\ cx_class cx ∉ valid
    /\ forall allowed, dget (cx_race cx) AC_RACE_CLASSES = Some allowed -> cx_carrier cx ∈ allowed.
Proof.
  unfold char_create_fix. intros H Hc Hv. destruct (find_byte 0 body) as [k|] eqn:Ek; [|done].
  destruct (find_byte_split 0 body k Ek) as (nm & t & -> & Hn & Lk).
  assert (drop (S k) (nm ++ 0 :: t) = t) as Ed.
  { change (0 :: t) with ([0] ++ t). rewrite app_assoc. apply drop_app_exact. rewrite length_app. cbn. lia. }
  rewrite Ed in H. destruct t as [|race [|clas rest]]; try done.
  destruct (bool_decide_reflect (clas ∈ valid)) as [|Hnv]; [done|].
  injection H as <-. cbn [cx_name cx_class cx_race cx_carrier] in *.
  rewrite take_app_exact by done. exists rest. split; [done|]. split; [done|]. split; [|split; [done|]].
  - unfold with_carrier. cbn [cx_name cx_carrier]. unfold is_byte in Hc.
    rewrite (proj2 (Z.leb_le 0 _)), (proj2 (Z.ltb_lt _ 256)) by lia. cbn [andb]. f_equal.
    rewrite Lk, Ed. change (0 :: race :: clas :: rest) with ([0] ++ race :: clas :: rest) at 1.
    rewrite app_assoc, take_app_exact by (rewrite length_app; cbn; lia). rewrite <- app_assoc. done.
  - intros allowed Hr. apply carrier_allowed; [done|].
    destruct (race_has_class _ _ Hr) as (x & Hx & Hs). exists x. auto.
Qed.

Lemma char_create_carrier_witness :
  exists rest, lit "Ann" ++ [0; 10; 28; 1; 0] = lit "Ann" ++ [0; 10; 28] ++ rest /\ 0 ∉ lit "Ann"
    /\ with_carrier (lit "Ann" ++ [0; 10; 28; 1; 0]) (CreateFix (lit "Ann") 28 10 2)
       = Ok (lit "Ann" ++ [0; 10; 2] ++ rest)
    /\ 28 ∉ [1; 2; 3; 4; 5; 6; 7; 8; 9; 11]
    /\ forall allowed, dget 10 AC_RACE_CLASSES = Some allowed -> 2 ∈ allowed.
Proof.
  apply (char_create_carrier [1; 2; 3; 4; 5; 6; 7; 8; 9; 11] 1 (lit "Ann" ++ [0; 10; 28; 1; 0]) (CreateFix (lit "Ann") 28 10 2)).
  - vm_compute. reflexivity.
  - unfold is_byte. cbn. lia.
  - auto.
Defined.
