(* ===== verification/BridgeLogic.v ===== *)
(** * A logic for the bridge's threads

    A protocol gives every thread a token and says, with one invariant over the
    state and all tokens, what the tokens entitle their holders to.  [wp p t Q]
    holds when each access of the program [p], started with token [t], keeps the
    invariant whatever the other threads have done in between, and leaves a
    token that suits the rest; [schedule_sound] concludes that the invariant
    survives every schedule.  Three protocols are derived: a part of the state
    one pump alone changes, credits for packets owed, and facts that stay true
    once they hold. *)
From S2P Require Import Prelude Wire PyFloat Text Consts Rc4 Framing Chars Builders CoaMode BridgeWire Bridge.

Section Protocol.
Context {T : Type} (Inv : bsession -> list T -> Prop).

Fixpoint wp {A} (p : prog A) (t : T) (Q : res A -> T -> Prop) : Prop :=
  match p with
  | Ret a => Q (Ok a) t
  | Raise e => Q (Err e) t
  | Act f k =>
      forall s ts i, Inv s ts -> ts !! i = Some t ->
      exists t', Inv (fst (f s)) (<[i := t']> ts) /\ wp (k (snd (f s))) t' Q
  end.

Lemma wp_mono {A} (p : prog A) t (Q Q' : res A -> T -> Prop) :
  (forall r t', Q r t' -> Q' r t') -> wp p t Q -> wp p t Q'.
Proof.
  intros HQ. revert t. induction p as [a|e|B f k IH]; intros t; cbn [wp]; [apply HQ..|].
  intros H s ts i Hi Ht. destruct (H s ts i Hi Ht) as (t' & Hs & Hk). exists t'. split; [done|by apply IH].
Qed.

Lemma wp_bind {A B} (p : prog A) (q : A -> prog B) t (Q : res B -> T -> Prop) :
  wp p t (fun r t' => match r with Ok a => wp (q a) t' Q | Err e => Q (Err e) t' end) ->
  wp (prog_bind p q) t Q.
Proof.
  revert t. induction p as [a|e|C f k IH]; intros t; cbn [wp prog_bind]; [done..|].
  intros H s ts i Hi Ht. destruct (H s ts i Hi Ht) as (t' & Hs & Hk). exists t'. split; [done|by apply IH].
Qed.

(** ** Schedules *)

Section Sound.
Context `{Unicode} (c : bridge_cfg) (t0 : T) (Jclient Jcore Jclose : T -> Prop).

Definition client_post (r : res turn_end) (t : T) : Prop :=
  match r with Ok Continue => Jclient t | _ => Jclose t end.

Definition core_post (r : res turn_end) (t : T) : Prop :=
  match r with Ok Continue => Jcore t | Ok Break => Jclose t | Err _ => True end.

Definition thread_ok (th : thread) (t : T) : Prop :=
  match th_role th with
  | ClientPump => wp (th_prog th) t client_post
  | CorePump => wp (th_prog th) t core_post
  | _ => wp (th_prog th) t (fun _ _ => True)
  end.

Context (client_ok : forall t, Jclient t -> wp (client_iter c) t client_post).
Context (core_ok : forall t, Jcore t -> wp (core_iter c) t core_post).
Context (close_ok : forall t, Jclose t -> wp close t (fun _ _ => True)).
Context (timer_ok : forall k, wp (timer_prog c k) t0 (fun _ _ => True)).
Context (fire_ok : forall s ts l, Inv s ts -> Inv (set_b_timers l s) (ts ++ [t0])).

Definition sound (cf : config) : Prop :=
  exists ts, Inv (cf_sess cf) ts /\ Forall2 thread_ok (cf_threads cf) ts.

Lemma closing_ok t : Jclose t -> thread_ok close_thread t.
Proof.
  intros Ht. unfold thread_ok, close_thread. cbn [th_role th_prog]. apply wp_bind.
  eapply wp_mono; [|by apply close_ok]. by intros [a|e].
Qed.

Lemma round_ok th t r :
  (match th_role th with ClientPump => client_post r t | CorePump => core_post r t | _ => True end) ->
  thread_ok (next_round c th r) t.
Proof.
  unfold next_round. destruct (th_role th); try done.
  - destruct r as [[|]|e]; cbn [client_post]; [apply client_ok|apply closing_ok|apply closing_ok].
  - destruct r as [[|]|e]; cbn [core_post]; [apply core_ok|apply closing_ok|done].
Qed.

Lemma sound_step cf ch : sound cf -> sound (sched_step c cf ch).
Proof.
  intros (ts & Hi & Hth). destruct ch as [i|id]; cbn [sched_step].
  - destruct (cf_threads cf !! i) as [th|] eqn:Eth; [|by exists ts].
    destruct (Forall2_lookup_l _ _ _ _ _ Hth Eth) as (t & Et & Hok).
    assert (exists t', Inv (fst (thread_step c (cf_sess cf) th)) (<[i := t']> ts)
             /\ thread_ok (snd (thread_step c (cf_sess cf) th)) t') as (t' & Hi' & Hok').
    { unfold thread_ok in Hok. unfold thread_step. destruct (th_prog th) as [v|e|B f k] eqn:Ep.
      - exists t. rewrite list_insert_id by done. split; [done|]. apply round_ok.
        destruct (th_role th); try done; exact Hok.
      - exists t. rewrite list_insert_id by done. split; [done|]. apply round_ok.
        destruct (th_role th); try done; exact Hok.
      - assert (forall Q, wp (Act f k) t Q -> exists t', Inv (fst (f (cf_sess cf))) (<[i:=t']> ts)
                  /\ wp (k (snd (f (cf_sess cf)))) t' Q) as Hstep by (intros Q Hq; exact (Hq _ _ _ Hi Et)).
        unfold thread_ok. destruct (f (cf_sess cf)) as [s' b]. cbn [th_role th_prog fst snd] in *.
        destruct (th_role th); by apply Hstep. }
    destruct (thread_step c (cf_sess cf) th) as [s' th']. exists (<[i := t']> ts). cbn [cf_sess cf_threads fst snd] in *.
    split; [done|]. by apply Forall2_insert.
  - destruct (dget id (b_timers (cf_sess cf))) as [k|]; [|by exists ts].
    exists (ts ++ [t0]). cbn [cf_sess cf_threads]. split; [by apply fire_ok|].
    apply Forall2_app; [done|]. constructor; [|constructor]. apply timer_ok.
Qed.

Theorem schedule_sound s tc tk chs :
  Inv s [tc; tk] -> Jclient tc -> Jcore tk -> sound (run_schedule c (pumping c s) chs).
Proof.
  intros Hi Hc Hk. unfold run_schedule.
  assert (sound (pumping c s)) as Hs.
  { exists [tc; tk]. split; [done|]. repeat constructor; [by apply client_ok|by apply core_ok]. }
  generalize dependent (pumping c s). induction chs as [|ch chs IH]; intros cf Hs; [done|].
  cbn [fold_left]. by apply IH, sound_step.
Qed.
End Sound.
End Protocol.

(** ** Programs that leave a view of the state alone *)

Section Quiet.
Context {V : Type} (own : bsession -> V).

(** Every access keeps [own], and every result satisfies [R]. *)
Fixpoint quiet {A} (p : prog A) (R : res A -> Prop) : Prop :=
  match p with
  | Ret a => R (Ok a)
  | Raise e => R (Err e)
  | Act f k => forall s, own (fst (f s)) = own s /\ quiet (k (snd (f s))) R
  end.

Lemma quiet_bind {A B} (p : prog A) (q : A -> prog B) (R : res B -> Prop) :
  quiet p (fun r => match r with Ok a => quiet (q a) R | Err e => R (Err e) end) -> quiet (prog_bind p q) R.
Proof.
  induction p as [a|e|C f k IH]; cbn [quiet prog_bind]; [done..|].
  intros H s. destruct (H s) as [Hs Hk]. split; [done|]. by apply IH.
Qed.

Lemma quiet_mono {A} (p : prog A) (R R' : res A -> Prop) :
  (forall r, R r -> R' r) -> quiet p R -> quiet p R'.
Proof.
  intros HR. induction p as [a|e|C f k IH]; cbn [quiet]; [apply HR..|].
  intros H s. destruct (H s) as [Hs Hk]. split; [done|]. by apply IH.
Qed.

Lemma quiet_lift {A} (x : res A) (R : res A -> Prop) : R x -> quiet (lift x) R.
Proof. by destruct x. Qed.

Lemma quiet_get {A} (f : bsession -> A) (R : res A -> Prop) : (forall s, R (Ok (f s))) -> quiet (get f) R.
Proof. intros HR s. by split; [|apply HR]. Qed.

Lemma quiet_upd f (R : res () -> Prop) : (forall s, own (f s) = own s) -> R (Ok ()) -> quiet (upd f) R.
Proof. intros Hf HR s. by split; [apply Hf|]. Qed.

(** Whatever the result. *)
Definition silent {A} (p : prog A) : Prop := quiet p (fun _ => True).

Lemma silent_bind {A B} (p : prog A) (q : A -> prog B) :
  silent p -> (forall a, silent (q a)) -> silent (prog_bind p q).
Proof.
  intros Hp Hq. apply quiet_bind. eapply quiet_mono; [|exact Hp]. intros [a|e] _; [apply Hq|done].
Qed.

Lemma quiet_after {A B} (p : prog A) (q : A -> prog B) (R : res B -> Prop) :
  silent p -> (forall a, quiet (q a) R) -> (forall e, R (Err e)) -> quiet (prog_bind p q) R.
Proof.
  intros Hp Hq He. apply quiet_bind. eapply quiet_mono; [|exact Hp]. intros [a|e] _; [apply Hq|apply He].
Qed.
End Quiet.

(** ** A view one pump alone changes *)

Section Owner.
Context {V : Type} (own : bsession -> V) (P : V -> Prop).

(** The owner's token is the view itself; the others have none. *)
Definition owned (s : bsession) (ts : list (option V)) : Prop :=
  P (own s) /\ forall i v, ts !! i = Some (Some v) ->
    v = own s /\ forall j w, ts !! j = Some (Some w) -> j = i.

Lemma owned_insert_None s s' ts i :
  owned s ts -> ts !! i = Some None -> own s' = own s -> owned s' (<[i := None]> ts).
Proof.
  intros [HP Ho] Hi Hs. rewrite list_insert_id by done. unfold owned. by rewrite Hs.
Qed.

Lemma wp_owned_act {A B} (f : bsession -> bsession * B) (k : B -> prog A) v Q :
  (forall s, own s = v -> P v -> P (own (fst (f s))) /\ wp owned (k (snd (f s))) (Some (own (fst (f s)))) Q) ->
  wp owned (Act f k) (Some v) Q.
Proof.
  intros H s ts i [HP Ho] Hi. destruct (Ho i v Hi) as [Hv Hu]. subst v.
  destruct (H s eq_refl HP) as [HP' Hk]. exists (Some (own (fst (f s)))). split; [|done].
  split; [done|]. intros j w Hj. apply list_lookup_insert_Some in Hj as [(<- & [= <-] & _) | (Hne & Hj)].
  - split; [done|]. intros j w Hj. apply list_lookup_insert_Some in Hj as [(<- & _) | (Hne & Hj)]; [done|].
    by specialize (Hu _ _ Hj).
  - by specialize (Hu _ _ Hj).
Qed.

Lemma wp_owned_quiet {A} (p : prog A) v (R : res A -> Prop) :
  quiet own p R -> wp owned p (Some v) (fun r t => R r /\ t = Some v).
Proof.
  induction p as [a|e|B f k IH]; cbn [quiet]; [done..|]. intros H. apply wp_owned_act.
  intros s Hs HP. destruct (H s) as [Hf Hk]. rewrite Hf, Hs. split; [done|]. by apply IH.
Qed.

Lemma wp_owned_silent {A} (p : prog A) : silent own p -> wp owned p None (fun _ t => t = None).
Proof.
  unfold silent. induction p as [a|e|B f k IH]; cbn [quiet wp]; [done..|]. intros H s ts i Hi Ht.
  destruct (H s) as [Hf Hk]. exists None. split; [by eapply owned_insert_None|]. by apply IH.
Qed.

Lemma wp_owned_any {A} (p : prog A) t : silent own p -> wp owned p t (fun _ _ => True).
Proof.
  intros Hp. destruct t as [v|]; (eapply wp_mono; [|first [by apply wp_owned_silent|by apply wp_owned_quiet]]; done).
Qed.

Lemma owned_fire s ts l : own (set_b_timers l s) = own s -> owned s ts -> owned (set_b_timers l s) (ts ++ [None]).
Proof.
  intros Hs [HP Ho]. unfold owned. rewrite Hs. split; [done|].
  assert (forall j w, (ts ++ [None]) !! j = Some (Some w) -> ts !! j = Some (Some w)) as Hlk.
  { intros j w Hj. apply lookup_app_Some in Hj as [Hj|[_ Hj]]; [done|].
    apply list_lookup_singleton_Some in Hj as [_ Hj]. done. }
  intros i v Hi. destruct (Ho i v (Hlk _ _ Hi)) as [Hv Hu]. split; [done|]. intros j w Hj. by eapply Hu, Hlk.
Qed.

Lemma owned_client s : P (own s) -> owned s [Some (own s); None].
Proof.
  intros HP. split; [done|]. intros [|[|i]] v Hi; cbn in Hi; try done. injection Hi as <-.
  split; [done|]. intros [|[|j]] w Hj; cbn in Hj; done.
Qed.

Lemma owned_core s : P (own s) -> owned s [None; Some (own s)].
Proof.
  intros HP. split; [done|]. intros [|[|i]] v Hi; cbn in Hi; try done. injection Hi as <-.
  split; [done|]. intros [|[|j]] w Hj; cbn in Hj; done.
Qed.
End Owner.

(** ** Credits *)

Section Credit.
Context (debt : bsession -> Z).

(** What the state owes is covered by what the threads still hold. *)
Definition funded (s : bsession) (ts : list Z) : Prop :=
  debt s + foldr Z.add 0 ts <= 0 /\ Forall (fun n => 0 <= n) ts.

Lemma sum_insert ts i n n' :
  ts !! i = Some n -> foldr Z.add 0 (<[i := n']> ts) = foldr Z.add 0 ts - n + n'.
Proof.
  revert i. induction ts as [|x ts IH]; intros [|i] Hi; try done.
  - injection Hi as ->. change (<[0%nat := n']> (n :: ts)) with (n' :: ts). cbn [foldr]. lia.
  - change (<[S i := n']> (x :: ts)) with (x :: <[i := n']> ts). cbn [foldr]. rewrite (IH _ Hi). lia.
Qed.

Lemma wp_credit_act {A B} (f : bsession -> bsession * B) (k : B -> prog A) n Q :
  (forall s, 0 <= n -> exists n', 0 <= n' /\ debt (fst (f s)) + n' <= debt s + n /\ wp funded (k (snd (f s))) n' Q) ->
  wp funded (Act f k) n Q.
Proof.
  intros H s ts i [Hd Hp] Hi. assert (0 <= n) as Hn by (rewrite Forall_forall in Hp; by eapply Hp, list_elem_of_lookup_2).
  destruct (H s Hn) as (n' & Hn' & Hd' & Hk). exists n'. split; [|done].
  split; [rewrite (sum_insert _ _ n) by done; lia|]. by apply Forall_insert.
Qed.

Lemma wp_credit_quiet {A} (p : prog A) n (R : res A -> Prop) :
  quiet debt p R -> wp funded p n (fun r t => R r /\ t = n).
Proof.
  induction p as [a|e|B f k IH]; cbn [quiet]; [done..|]. intros H. apply wp_credit_act.
  intros s Hn. destruct (H s) as [Hf Hk]. exists n. split; [done|]. split; [lia|]. by apply IH.
Qed.

Lemma funded_fire s ts l : debt (set_b_timers l s) = debt s -> funded s ts -> funded (set_b_timers l s) (ts ++ [0]).
Proof.
  intros Hs [Hd Hp]. unfold funded. rewrite Hs, foldr_app. cbn. split; [done|].
  apply Forall_app. split; [done|]. constructor; [lia|constructor].
Qed.
End Credit.

(** ** Facts that last *)

Section Facts.
Context (I : bsession -> Prop).

(** A thread's token is a fact about the state; no step of anyone undoes it. *)
Definition informed (s : bsession) (ts : list (bsession -> Prop)) : Prop := I s /\ Forall (fun F => F s) ts.

Context (le_state : bsession -> bsession -> Prop).

(** A fact that every step forward in [le_state] keeps. *)
Definition lasting (F : bsession -> Prop) : Prop := forall s s', le_state s s' -> F s -> F s'.

Definition informed_lasting (s : bsession) (ts : list (bsession -> Prop)) : Prop :=
  informed s ts /\ Forall lasting ts.

Lemma wp_facts_act {A B} (f : bsession -> bsession * B) (k : B -> prog A) (F : bsession -> Prop) Q :
  (forall s, I s -> F s -> lasting F ->
     I (fst (f s)) /\ le_state s (fst (f s))
     /\ exists F' : bsession -> Prop, F' (fst (f s)) /\ lasting F' /\ wp informed_lasting (k (snd (f s))) F' Q) ->
  wp informed_lasting (Act f k) F Q.
Proof.
  intros H s ts i [[HI HF] HL] Hi.
  assert (F s) as Hs by (rewrite Forall_forall in HF; by eapply (HF F), list_elem_of_lookup_2).
  assert (lasting F) as Hl by (rewrite Forall_forall in HL; by eapply (HL F), list_elem_of_lookup_2).
  destruct (H s HI Hs Hl) as (HI' & Hle & F' & HF' & HL' & Hk). exists F'. split; [|done].
  split; [split; [done|]|by apply Forall_insert].
  apply Forall_insert; [|done]. rewrite Forall_forall in HF, HL |- *. intros G HG.
  by apply (HL G HG s), (HF G HG).
Qed.
End Facts.
