(* ===== verification/BridgeSpec.v ===== *)
(** * The bridged session: theorems

    Under every schedule of the pumps and timers: what reaches the core is the
    client's packets in order, without the Ascension opcodes and decodable with
    the core's cipher; what is forwarded to the client is the core's packets in
    order; SMSG_CA_ACTIVE_SPEC is never sent more often than the world was
    entered; a class enters the store only through a creation the client asked
    for and the core confirmed. *)
From S2P Require Import Prelude Wire PyFloat Text Consts Rc4 Framing Chars Builders CoaMode CoaModeSpec BridgeWire BridgeWireSpec Bridge BridgeLogic.

(** ** Which programs leave what alone *)

Ltac act_same :=
  intros ?; split; [|exact Logic.I];
  cbn [fst snd];
  repeat (match goal with
          | |- context [match ?x with _ => _ end] =>
              lazymatch x with context [match _ with _ => _ end] => fail | _ => destruct x end
          | |- context [let '(_, _) := ?x in _] => destruct x
          end; cbn [fst snd]); reflexivity.

Ltac silent_step :=
  lazymatch goal with
  | |- silent _ (prog_bind _ _) => apply silent_bind; [|intros ?]
  | |- silent _ (lift _) => apply quiet_lift; exact Logic.I
  | |- silent _ (Ret _) => exact Logic.I
  | |- silent _ (Raise _) => exact Logic.I
  | |- silent _ (get _) => apply quiet_get; intros; exact Logic.I
  | |- silent _ (upd _) => apply quiet_upd; [intros ?; try reflexivity|exact Logic.I]
  | |- silent _ (match ?x with _ => _ end) => destruct x
  | |- silent _ (let '(_, _) := ?x in _) => destruct x
  end.

Ltac silent_go := repeat silent_step.

(** *** The view of the pump that writes to the core *)

Section ClientOwner.
Context `{Unicode} (c : bridge_cfg).

Definition core_view (s : bsession) : list packet * list sent * option rc4 :=
  (b_from_client s, b_to_core s, b_c2s s).

Lemma core_view_send o opcode body : silent core_view (send_client o opcode body).
Proof. unfold send_client. act_same. Qed.

Lemma core_view_store f : silent core_view (store_write f).
Proof. unfold store_write. silent_go. act_same. Qed.

Lemma core_view_cancel s : core_view (cancel_ca_timer s) = core_view s.
Proof. unfold cancel_ca_timer. by destruct (b_timer s). Qed.

Lemma core_view_budgets rows : silent core_view (send_budgets rows).
Proof.
  induction rows as [|r rows IH]; cbn [send_budgets]; silent_go; [apply core_view_send|exact IH].
Qed.

Lemma core_view_class_byte clas : silent core_view (send_class_byte c clas).
Proof. unfold send_class_byte. silent_go; apply core_view_send. Qed.

Lemma core_view_coa_state : silent core_view (send_coa_state c).
Proof.
  unfold send_coa_state. silent_go; try apply core_view_class_byte; try apply core_view_send.
  apply core_view_budgets.
Qed.

Lemma core_view_bootstrap : silent core_view (send_ca_bootstrap c).
Proof.
  unfold send_ca_bootstrap. silent_go; [|apply core_view_send|apply core_view_coa_state].
  intros s. split; [|exact Logic.I]. destruct (b_armed s); cbn [fst]; [|done]. by rewrite core_view_cancel.
Qed.

Lemma core_view_custom opcode body : silent core_view (handle_custom c opcode body).
Proof. unfold handle_custom. silent_go; [apply core_view_store|apply core_view_send]. Qed.

Lemma core_view_close : silent core_view close.
Proof. unfold close. silent_go. by rewrite core_view_cancel. Qed.

Lemma core_view_timer k : silent core_view (timer_prog c k).
Proof.
  destruct k; cbn [timer_prog]; [unfold send_archive_hello|]; silent_go;
    [apply core_view_send|apply core_view_bootstrap].
Qed.

Lemma core_view_rewrite opcode body : silent core_view (core_rewrite c opcode body).
Proof.
  unfold core_rewrite, settle_pending. silent_go. all: try apply core_view_store.
Qed.

Lemma core_view_core_iter : silent core_view (core_iter c).
Proof.
  unfold core_iter, core_packet, arm_ca_bootstrap, send_customs. silent_go.
  all: try apply core_view_send; try apply core_view_rewrite.
  - unfold read_core. act_same.
  - match goal with |- core_view ?x = core_view ?s =>
      change (core_view (cancel_ca_timer (set_b_armed true s)) = core_view s) end.
    by rewrite core_view_cancel.
Qed.
End ClientOwner.

(** ** What reaches the core *)

Section ToCore.
Context `{Unicode} (c : bridge_cfg).

(** What the bridge makes of one client packet: nothing of an Ascension opcode,
    the packet otherwise, a creation with its carrier class. *)
Definition translate (p : packet) : list packet :=
  let '(opcode, body) := p in
  if FIRST_CUSTOM_OPCODE <=? opcode then []
  else if opcode =? CMSG_CHAR_CREATE then
    match char_create_fix (cf_valid_classes c) (cf_fallback_class c) body with
    | Some cx => match with_carrier body cx with Ok out => [(opcode, out)] | Err _ => [] end
    | None => [(opcode, body)]
    end
  else [(opcode, body)].

(** The writes are the frames of their packets, the cipher running from one to
    the next. *)
Inductive framed : option rc4 -> list sent -> option rc4 -> Prop :=
  | framed_nil e : framed e [] e
  | framed_snoc e0 ws e1 w e2 :
      framed e0 ws e1 -> frame_c2s (fst (sn_packet w)) (snd (sn_packet w)) e1 = Ok (e2, sn_wire w) ->
      framed e0 (ws ++ [w]) e2.

(** [fc] has been read and [tc] written; at most the last packet read is missing. *)
Definition relayed (e0 : option rc4) (v : list packet * list sent * option rc4) : Prop :=
  let '(fc, tc, _) := v in
  exists done_ last_ e, fc = done_ ++ last_ /\ (length last_ <= 1)%nat
    /\ map sn_packet tc = flat_map translate done_ /\ framed e0 tc e.

(** Between two rounds nothing is missing. *)
Definition settled (e0 : option rc4) (v : list packet * list sent * option rc4) : Prop :=
  let '(fc, tc, e) := v in map sn_packet tc = flat_map translate fc /\ framed e0 tc e.

(** The core's reader, packet after packet. *)
Fixpoint read_n (n : nat) (conn : list rx) (dec : option rc4) : option (list packet * (list rx * option rc4)) :=
  match n with
  | O => Some ([], (conn, dec))
  | S n =>
      match read_n n conn dec with
      | Some (ps, (conn, dec)) =>
          match read_c2s conn dec with
          | (side, Ok (Some p)) => Some (ps ++ [p], side)
          | _ => None
          end
      | None => None
      end
  end.

Lemma framed_read e0 ws e : framed e0 ws e -> forall conn rest,
  rx_bytes conn = concat (map sn_wire ws) ++ rest ->
  exists conn', read_n (length ws) conn e0 = Some (map sn_packet ws, (conn', e)) /\ rx_bytes conn' = rest.
Proof.
  induction 1 as [e|e0 ws e1 w e2 _ IH Hw]; intros conn rest Hb; [by exists conn|].
  rewrite map_app, concat_app in Hb. cbn [map concat] in Hb. rewrite app_nil_r, <- app_assoc in Hb.
  destruct (IH conn _ Hb) as (conn1 & E1 & Hb1).
  destruct (read_c2s_frame conn1 e1 _ _ e2 _ rest Hw Hb1) as (conn2 & E2 & Hb2).
  exists conn2. rewrite length_app, Nat.add_comm. cbn [length Nat.add read_n]. rewrite E1, E2, map_app.
  split; [|done]. cbn [map]. by destruct (sn_packet w).
Qed.

Lemma settled_relayed e0 v : settled e0 v -> relayed e0 v.
Proof. destruct v as [[fc tc] e]. intros [Hm Hf]. exists fc, [], e. rewrite app_nil_r. auto with lia. Qed.

(** The repaired creation packet, as a result. *)
Lemma fix_char_create_result body :
  quiet core_view (fix_char_create c body) (fun r =>
    forall b, r = Ok b -> translate (CMSG_CHAR_CREATE, body) = [(CMSG_CHAR_CREATE, b)]).
Proof.
  unfold fix_char_create, translate. rewrite Z.eqb_refl.
  change (FIRST_CUSTOM_OPCODE <=? CMSG_CHAR_CREATE) with false. cbn iota.
  destruct (char_create_fix _ _ body) as [cx|]; [|by intros b [= ->]].
  apply quiet_after; [silent_go| |done]. intros []. apply quiet_lift. by intros b ->.
Qed.

Lemma wp_after_silent {A B} e0 (p : prog A) (q : A -> prog B) v Q :
  silent core_view p -> (forall a, wp (owned core_view (relayed e0)) (q a) (Some v) Q) ->
  (forall e, Q (Err e) (Some v)) ->
  wp (owned core_view (relayed e0)) (prog_bind p q) (Some v) Q.
Proof.
  intros Hp Hq He. apply wp_bind. eapply wp_mono; [|apply wp_owned_quiet, Hp].
  intros [a|e] t [_ ->]; [apply Hq|apply He].
Qed.

(** The loop invariant of the pump's token. *)
Definition client_token (e0 : option rc4) (t : option (list packet * list sent * option rc4)) : Prop :=
  exists v, t = Some v /\ settled e0 v.

Abbreviation round_post e0 :=
  (client_post (client_token e0) (fun _ => True)) (only parsing).

Lemma client_iter_relays e0 t :
  client_token e0 t ->
  wp (owned core_view (relayed e0)) (client_iter c) t (round_post e0).
Proof.
  intros (v & -> & Hv). unfold client_iter.
  apply wp_after_silent; [silent_go| |done]. intros [|]; cbn [negb]; [|done].
  apply wp_bind. unfold read_client. apply wp_owned_act. intros s Hs _.
  destruct (read_c2s (b_client_in s) None) as [[conn dec] r] eqn:Er. cbn [fst snd].
  destruct v as [[fc tc] e]. destruct Hv as [Hm Hf]. unfold core_view in Hs. injection Hs as Efc Etc Ee.
  assert (forall v', core_view (set_b_from_client v' (set_b_client_in conn s)) = (v', tc, e)) as Ev
    by (intros v'; unfold core_view; cbn; by rewrite Etc, Ee).
  rewrite Ev, Efc. split.
  { exists fc, (log_packet r), e. repeat split; auto. destruct r as [[|]|]; cbn; lia. }
  cbn [wp]. destruct r as [[[opcode body]|]|ex]; cbn [log_packet].
  - unfold client_packet.
    apply wp_after_silent; [silent_go| |done]. intros _.
    assert (forall out, translate (opcode, body) = out -> map sn_packet tc ++ out = flat_map translate (fc ++ [(opcode, body)])) as Hout.
    { intros out <-. rewrite flat_map_app, Hm. cbn [flat_map]. by rewrite app_nil_r. }
    destruct (FIRST_CUSTOM_OPCODE <=? opcode) eqn:Ecust.
    + apply wp_after_silent; [apply core_view_custom| |done]. intros _. cbn.
      eexists. split; [done|]. split; [|exact Hf]. rewrite <- (app_nil_r (map sn_packet tc)). apply Hout.
      unfold translate. by rewrite Ecust.
    + apply wp_bind. eapply wp_mono; [|apply (wp_owned_quiet core_view (relayed e0) _ _ (fun r =>
        forall b, r = Ok b -> translate (opcode, body) = [(opcode, b)]))].
      2:{ destruct (Z.eqb_spec opcode CMSG_CHAR_CREATE) as [->|Hne]; [apply fix_char_create_result|].
          intros b [= <-]. unfold translate. by rewrite Ecust, (proj2 (Z.eqb_neq _ _) Hne). }
      intros [b|ex] t' [Hb ->]; [|done]. specialize (Hb b eq_refl).
      apply wp_bind. unfold send_core. apply wp_owned_act. intros s2 Hs2 HP2.
      unfold core_view in Hs2. injection Hs2 as Efc2 Etc2 Ee2. rewrite Ee2.
      assert (relayed e0 (fc ++ [(opcode, body)], tc, e)) as Hlate
        by (exists fc, [(opcode, body)], e; cbn; auto with lia).
      destruct (frame_c2s opcode b e) as [[e2 wire]|ex] eqn:Efr; cbn [fst snd].
      2:{ unfold core_view. rewrite Efc2, Etc2, Ee2. split; [exact Hlate|]. cbn [wp]. by destruct ex. }
      destruct (pop (b_core_ok s2)) as [ok rest]. destruct ok; cbn [fst snd].
      2:{ unfold core_view. cbn. rewrite Efc2, Etc2. split; [|done].
          exists fc, [(opcode, body)], e. cbn. auto with lia. }
      set (w := Sent Forwarded (opcode, b) wire).
      assert (settled e0 (fc ++ [(opcode, body)], tc ++ [w], e2)) as Hset.
      { split; [rewrite map_app; by apply Hout|]. by eapply framed_snoc. }
      match goal with |- relayed e0 (core_view ?x) /\ _ =>
        assert (core_view x = (fc ++ [(opcode, body)], tc ++ [w], e2)) as ->
          by (unfold core_view; cbn; by rewrite Efc2, Etc2) end.
      split; [by apply settled_relayed|]. cbn [wp].
      destruct (opcode =? CMSG_SET_ACTIVE_MOVER); [|by eexists].
      apply wp_after_silent; [silent_go| |done]. intros armed.
      apply wp_after_silent; [destruct armed; [apply core_view_bootstrap|silent_go]| |done].
      intros _. by eexists.
  - done.
  - by destruct ex.
Qed.

(** C7: Under every schedule of the pumps and timers, what the core has received
    is what the bridge makes of the client's packets, in their order and without
    the opcodes of Ascension's own, at most the last packet read still missing;
    and a core that starts from the same cipher state reads exactly those packets
    off the bytes written, however the network cuts them. *)
Theorem core_receives s chs :
  b_from_client s = [] -> b_to_core s = [] ->
  let s' := cf_sess (run_schedule c (pumping c s) chs) in
  (exists done_ last_, b_from_client s' = done_ ++ last_ /\ (length last_ <= 1)%nat
     /\ map sn_packet (b_to_core s') = flat_map translate done_)
  /\ Forall (fun p => fst p < FIRST_CUSTOM_OPCODE) (map sn_packet (b_to_core s'))
  /\ forall conn, rx_bytes conn = concat (map sn_wire (b_to_core s')) ->
       exists conn' e, read_n (length (b_to_core s')) conn (b_c2s s)
                       = Some (map sn_packet (b_to_core s'), (conn', e)).
Proof.
  intros Hfc Htc s'.
  assert (settled (b_c2s s) (core_view s)) as Hset
    by (unfold core_view; rewrite Hfc, Htc; split; [done|constructor]).
  destruct (schedule_sound (owned core_view (relayed (b_c2s s))) c None
              (client_token (b_c2s s)) (fun t => t = None) (fun _ => True)
              ltac:(intros t; apply client_iter_relays)
              ltac:(intros t ->; eapply wp_mono; [|apply wp_owned_silent, core_view_core_iter]; by intros [[]|] ? ->)
              ltac:(intros t _; apply wp_owned_any, core_view_close)
              ltac:(intros k; apply wp_owned_any, core_view_timer)
              ltac:(intros s0 ts l; by apply owned_fire)
              s (Some (core_view s)) None chs) as (ts & [HP _] & _).
  - apply owned_client. by apply settled_relayed.
  - by eexists.
  - done.
  - fold s' in HP. unfold core_view in HP. destruct HP as (done_ & last_ & e & Ef & Hl & Hm & Hfr).
    split; [eauto|]. split.
    2:{ intros conn Hb. rewrite <- (app_nil_r (concat _)) in Hb.
        destruct (framed_read _ _ _ Hfr conn [] Hb) as (conn' & E & _). eauto. }
    rewrite Hm. apply Forall_flat_map. apply Forall_forall. intros [opcode body] _.
    unfold translate. destruct (Z.leb_spec FIRST_CUSTOM_OPCODE opcode); [constructor|].
    destruct (opcode =? CMSG_CHAR_CREATE); [|by repeat constructor].
    destruct (char_create_fix _ _ body) as [cx|]; [|by repeat constructor].
    destruct (with_carrier body cx); by repeat constructor.
Qed.
End ToCore.

(** ** What reaches the client *)

Section ToClient.
Context `{Unicode} (c : bridge_cfg).

Definition forwarded (ws : list sent) : list sent := filter (fun w => sn_origin w = Forwarded) ws.

Lemma forwarded_snoc ws p b : forwarded (ws ++ [Sent Forwarded p b]) = forwarded ws ++ [Sent Forwarded p b].
Proof. unfold forwarded. by rewrite filter_app. Qed.

Definition client_view (s : bsession) : list packet * list sent := (b_from_core s, forwarded (b_to_client s)).

Lemma client_view_send opcode body : silent client_view (send_client Originated opcode body).
Proof.
  intros s. split; [|exact Logic.I]. destruct (pop (b_client_ok s)) as [[|] rest]; cbn [fst]; [|done].
  unfold client_view, forwarded. cbn. by rewrite filter_app, app_nil_r.
Qed.

Lemma client_view_core o opcode body : silent client_view (send_core o opcode body).
Proof. unfold send_core. act_same. Qed.

Lemma client_view_store f : silent client_view (store_write f).
Proof. unfold store_write. silent_go. act_same. Qed.

Lemma client_view_cancel s : client_view (cancel_ca_timer s) = client_view s.
Proof. unfold cancel_ca_timer. by destruct (b_timer s). Qed.

Lemma client_view_budgets rows : silent client_view (send_budgets rows).
Proof.
  induction rows as [|r rows IH]; cbn [send_budgets]; silent_go; [apply client_view_send|exact IH].
Qed.

Lemma client_view_class_byte clas : silent client_view (send_class_byte c clas).
Proof. unfold send_class_byte. silent_go; apply client_view_send. Qed.

Lemma client_view_coa_state : silent client_view (send_coa_state c).
Proof.
  unfold send_coa_state. silent_go; try apply client_view_class_byte; try apply client_view_send.
  apply client_view_budgets.
Qed.

Lemma client_view_bootstrap : silent client_view (send_ca_bootstrap c).
Proof.
  unfold send_ca_bootstrap. silent_go; [|apply client_view_send|apply client_view_coa_state].
  intros s. split; [|exact Logic.I]. destruct (b_armed s); cbn [fst]; [|done]. by rewrite client_view_cancel.
Qed.

Lemma client_view_close : silent client_view close.
Proof. unfold close. silent_go. by rewrite client_view_cancel. Qed.

Lemma client_view_timer k : silent client_view (timer_prog c k).
Proof.
  destruct k; cbn [timer_prog]; [unfold send_archive_hello|]; silent_go;
    [apply client_view_send|apply client_view_bootstrap].
Qed.

Lemma client_view_client_iter : silent client_view (client_iter c).
Proof.
  unfold client_iter, client_packet, handle_custom, fix_char_create, read_client. silent_go.
  all: try apply client_view_store; try apply client_view_send; try apply client_view_core; try apply client_view_bootstrap.
  act_same.
Qed.

(** The opcodes whose body the bridge may change on the way to the client. *)
Definition reshaped : list Z :=
  [SMSG_TRAINER_LIST; SMSG_SET_FLAT_SPELL_MODIFIER; SMSG_SET_PCT_SPELL_MODIFIER; SMSG_CHAR_ENUM].

Definition same_packet (p q : packet) : Prop := fst p = fst q /\ (fst p ∉ reshaped -> snd p = snd q).

(** What was forwarded is a selection of what was read, in order. *)
Definition passed (v : list packet * list sent) : Prop :=
  exists kept, kept `sublist_of` fst v /\ Forall2 same_packet kept (map sn_packet (snd v)).

Lemma passed_read fc fw l : passed (fc, fw) -> passed (fc ++ l, fw).
Proof. intros (kept & Hs & Hf). exists kept. split; [|done]. cbn [fst] in *. by apply sublist_inserts_r. Qed.

Lemma not_reshaped opcode :
  opcode ∉ reshaped ->
  (opcode =? SMSG_TRAINER_LIST) = false /\ is_spellmod opcode = false /\ (opcode =? SMSG_CHAR_ENUM) = false.
Proof.
  unfold reshaped. rewrite !not_elem_of_cons. intros (H1 & H2 & H3 & H4 & _). unfold is_spellmod.
  by rewrite !(proj2 (Z.eqb_neq opcode _)) by done.
Qed.

Lemma core_rewrite_same opcode body :
  quiet client_view (core_rewrite c opcode body) (fun r =>
    forall b, r = Ok (Some b) -> same_packet (opcode, body) (opcode, b)).
Proof.
  unfold core_rewrite. apply quiet_bind.
  apply (quiet_mono _ _ (fun r => forall b, r = Ok b -> opcode ∉ reshaped -> b = body)).
  - intros [b|e] Hb; [|done]. specialize (Hb b eq_refl).
    apply quiet_bind, quiet_get. intros s. apply quiet_bind, quiet_lift.
    destruct (spellmod c opcode (pad_spellmod c opcode b) (b_seen s)) as [[m seen]|e] eqn:Em; [|done].
    apply quiet_after; [silent_go| |done]. intros []. cbn [fst].
    assert (opcode ∉ reshaped -> m = Some body) as Hm.
    { intros Hn. destruct (not_reshaped opcode Hn) as (_ & Hsm & _). specialize (Hb Hn). subst b.
      unfold spellmod, pad_spellmod in Em. rewrite Hsm in Em. cbn [andb negb] in Em.
      rewrite orb_true_r in Em. cbn [orb] in Em. by injection Em as <- <-. }
    destruct m as [b'|]; [|done]. case_bool_decide; [done|].
    destruct (cf_coa_mode c && (opcode =? SMSG_CHAR_ENUM) && _) eqn:Ec.
    + apply quiet_after; [silent_go| |done]. intros d. apply quiet_bind, quiet_lift.
      destruct (rewrite_char_enum b' _) as [r|]; [|done].
      apply quiet_after; [silent_go| |done]. intros _. apply quiet_after; [silent_go| |done]. intros _.
      intros b1 [= <-]. split; [done|]. intros Hn. destruct (not_reshaped opcode Hn) as (_ & _ & He).
      by rewrite He, andb_false_r in Ec.
    + intros b1 [= <-]. split; [done|]. intros Hn. specialize (Hm Hn). by injection Hm as ->.
  - destruct (_ && _); [|destruct (opcode =? SMSG_TRAINER_LIST) eqn:Et].
    + apply quiet_after; [|by intros _ b [= <-]|done]. unfold settle_pending. silent_go; apply client_view_store.
    + apply quiet_lift. intros b Hb Hn. destruct (not_reshaped opcode Hn) as (Ht & _). congruence.
    + by intros b [= <-].
Qed.

Definition core_token (t : option (list packet * list sent)) : Prop := exists v, t = Some v /\ passed v.

Lemma core_wp_silent {A B} (p : prog A) (q : A -> prog B) v Q :
  silent client_view p -> (forall a, wp (owned client_view passed) (q a) (Some v) Q) ->
  (forall e, Q (Err e) (Some v)) ->
  wp (owned client_view passed) (prog_bind p q) (Some v) Q.
Proof.
  intros Hp Hq He. apply wp_bind. eapply wp_mono; [|apply wp_owned_quiet, Hp].
  intros [a|e] t [_ ->]; [apply Hq|apply He].
Qed.

(** What a round does behind a packet that went out. *)
Lemma after_send_silent opcode :
  silent client_view
    ((if opcode =? SMSG_TUTORIAL_FLAGS then
        prog_bind (get b_customs_sent) (fun done_ : bool => if done_ then Ret () else send_customs c) else Ret ())).
Proof. unfold send_customs. silent_go. apply client_view_send. Qed.

Lemma arm_silent : silent client_view (arm_ca_bootstrap c).
Proof.
  unfold arm_ca_bootstrap. silent_go. match goal with |- client_view _ = client_view ?s =>
    change (client_view (cancel_ca_timer (set_b_armed true s)) = client_view s) end.
  by rewrite client_view_cancel.
Qed.

Lemma core_iter_passes t :
  core_token t ->
  wp (owned client_view passed) (core_iter c) t (core_post core_token (fun _ => True)).
Proof.
  intros (v & -> & Hv). unfold core_iter.
  apply core_wp_silent; [silent_go| |done]. intros [|]; cbn [negb]; [|done].
  apply wp_bind. unfold read_core. apply wp_owned_act. intros s Hs _.
  destruct (read_s2c (b_core_in s) (b_s2c s)) as [[conn dec] r]. cbn [fst snd].
  destruct v as [fc fw]. unfold client_view in Hs. injection Hs as Efc Efw.
  match goal with |- passed (client_view ?x) /\ _ =>
    assert (client_view x = (fc ++ log_packet r, fw)) as -> by (unfold client_view; cbn [b_from_core b_to_client set_b_from_core set_b_s2c set_b_core_in set_b_client_ok]; by rewrite Efc, Efw) end.
  split; [by apply passed_read|]. cbn [wp]. destruct r as [[[opcode body]|]|ex]; cbn [log_packet].
  2:{ done. }
  2:{ by destruct ex. }
  unfold core_packet. apply wp_bind.
  eapply wp_mono; [|apply wp_owned_quiet, core_rewrite_same].
  intros [[b|]|e] t' [Hb ->]; [|eexists; split; [done|by apply passed_read]|done].
  specialize (Hb b eq_refl). apply wp_bind. unfold send_client. apply wp_owned_act. intros s2 Hs2 _.
  unfold client_view in Hs2. injection Hs2 as Efc2 Efw2.
  destruct (pop (b_client_ok s2)) as [[|] rest]; cbn [fst snd].
  2:{ match goal with |- passed (client_view ?x) /\ _ =>
        assert (client_view x = (fc ++ [(opcode, body)], fw)) as -> by (unfold client_view; cbn [b_from_core b_to_client set_b_from_core set_b_s2c set_b_core_in set_b_client_ok]; by rewrite Efc2, Efw2) end.
      split; [by apply passed_read|done]. }
  set (w := Sent Forwarded (opcode, b) (snd (frame_s2c opcode b None))).
  match goal with |- passed (client_view ?x) /\ _ =>
    assert (client_view x = (fc ++ [(opcode, body)], fw ++ [w])) as -> end.
  { unfold client_view. cbn [b_from_core b_to_client set_b_to_client set_b_client_ok].
    unfold w. by rewrite forwarded_snoc, Efc2, Efw2. }
  assert (passed (fc ++ [(opcode, body)], fw ++ [w])) as Hp.
  { destruct Hv as (kept & Hk & Hf). exists (kept ++ [(opcode, body)]). cbn [fst snd] in *. split.
    - by apply sublist_app.
    - rewrite map_app. apply Forall2_app; [done|]. constructor; [exact Hb|constructor]. }
  split; [exact Hp|]. cbn [wp negb].
  apply core_wp_silent; [apply after_send_silent| |done]. intros _.
  apply core_wp_silent; [destruct (_ =? _); [|silent_go]|intros _; by eexists|done].
  apply silent_bind; [silent_go|intros _; apply arm_silent].
Qed.

(** C27: Under every schedule, the packets the bridge passes on to the client are
    packets the core sent, in the core's order, none twice; outside the trainer
    list, the two spell-modifier packets and the character list their bodies are
    the core's. *)
Theorem client_receives s chs :
  b_from_core s = [] -> forwarded (b_to_client s) = [] ->
  let s' := cf_sess (run_schedule c (pumping c s) chs) in
  exists kept, kept `sublist_of` b_from_core s'
    /\ Forall2 same_packet kept (map sn_packet (forwarded (b_to_client s'))).
Proof.
  intros Hfc Hfw s'.
  assert (passed (client_view s)) as Hset
    by (unfold client_view; rewrite Hfc, Hfw; exists []; split; [apply sublist_nil_l|constructor]).
  destruct (schedule_sound (owned client_view passed) c None (fun t => t = None) core_token (fun _ => True)
              ltac:(intros t ->; eapply wp_mono; [|apply wp_owned_silent, client_view_client_iter]; by intros [[]|] ? ->)
              ltac:(intros t; apply core_iter_passes)
              ltac:(intros t _; apply wp_owned_any, client_view_close)
              ltac:(intros k; apply wp_owned_any, client_view_timer)
              ltac:(intros s0 ts l; by apply owned_fire)
              s None (Some (client_view s)) chs) as (ts & [HP _] & _).
  - by apply owned_core.
  - done.
  - by eexists.
  - exact HP.
Qed.
End ToClient.

(** ** The bootstrap is owed once per world entry *)

Section Debt.
Context `{Unicode} (c : bridge_cfg).

Definition n_sent (o : origin) (opcode : Z) (ws : list sent) : Z :=
  pylen (filter (fun w => sn_origin w = o /\ fst (sn_packet w) = opcode) ws).

Definition bootstraps (s : bsession) : Z := n_sent Originated SMSG_CA_ACTIVE_SPEC (b_to_client s).
Definition world_entries (s : bsession) : Z := n_sent Forwarded SMSG_LOGIN_VERIFY_WORLD (b_to_client s).
Definition owed (s : bsession) : Z := if b_armed s then 1 else 0.

(** 0x725 sent or still owed, less the world entries passed on. *)
Definition debt (s : bsession) : Z := bootstraps s + owed s - world_entries s.

Lemma n_sent_snoc o opcode ws w :
  n_sent o opcode (ws ++ [w])
  = n_sent o opcode ws + (if decide (sn_origin w = o /\ fst (sn_packet w) = opcode) then 1 else 0).
Proof. unfold n_sent. rewrite filter_app, pylen_app. cbn [filter list_filter]. by destruct (decide _). Qed.

Lemma owed_range s : 0 <= owed s <= 1.
Proof. unfold owed. destruct (b_armed s); lia. Qed.

(** A write that is neither of the two. *)
Lemma debt_send o opcode body :
  ~ (o = Originated /\ opcode = SMSG_CA_ACTIVE_SPEC) -> ~ (o = Forwarded /\ opcode = SMSG_LOGIN_VERIFY_WORLD) ->
  silent debt (send_client o opcode body).
Proof.
  intros H1 H2 s. split; [|exact Logic.I]. destruct (pop (b_client_ok s)) as [[|] rest]; cbn [fst]; [|done].
  unfold debt, bootstraps, world_entries, owed. cbn [b_to_client b_armed set_b_to_client set_b_client_ok].
  rewrite !n_sent_snoc. cbn [sn_origin sn_packet fst].
  destruct (decide _) as [?|_]; [by destruct H1|]. destruct (decide _) as [?|_]; [by destruct H2|]. lia.
Qed.

Lemma debt_core o opcode body : silent debt (send_core o opcode body).
Proof. unfold send_core. act_same. Qed.

Lemma debt_store f : silent debt (store_write f).
Proof. unfold store_write. silent_go. act_same. Qed.

Lemma debt_cancel s : debt (cancel_ca_timer s) = debt s.
Proof. unfold cancel_ca_timer. by destruct (b_timer s). Qed.

Ltac other_opcode := apply debt_send; intros [? ?]; discriminate.

Lemma debt_budgets rows : silent debt (send_budgets rows).
Proof.
  induction rows as [|r rows IH]; cbn [send_budgets]; silent_go; [other_opcode|exact IH].
Qed.

Lemma debt_coa_state : silent debt (send_coa_state c).
Proof.
  unfold send_coa_state, send_class_byte. silent_go; try other_opcode. apply debt_budgets.
Qed.

Lemma debt_after_silent {A B} (p : prog A) (q : A -> prog B) n Q :
  silent debt p -> (forall a, wp (funded debt) (q a) n Q) -> (forall e, Q (Err e) n) ->
  wp (funded debt) (prog_bind p q) n Q.
Proof.
  intros Hp Hq He. apply wp_bind. eapply wp_mono; [|apply wp_credit_quiet, Hp].
  intros [a|e] t [_ ->]; [apply Hq|apply He].
Qed.

Lemma debt_any {A} (p : prog A) n : silent debt p -> wp (funded debt) p n (fun _ _ => True).
Proof. intros Hp. eapply wp_mono; [|apply wp_credit_quiet, Hp]. done. Qed.

(** The disarming earns the credit that the packet costs. *)
Lemma bootstrap_pays n : wp (funded debt) (send_ca_bootstrap c) n (fun _ _ => True).
Proof.
  unfold send_ca_bootstrap. apply wp_bind, wp_credit_act. intros s Hn.
  destruct (b_armed s) eqn:Ea; cbn [fst snd].
  - exists (n + 1). split; [lia|]. split.
    { rewrite debt_cancel. unfold debt, bootstraps, world_entries, owed.
      cbn [b_to_client b_armed set_b_armed]. rewrite Ea. lia. }
    cbn [wp]. apply debt_after_silent; [silent_go| |done]. intros body.
    apply wp_bind, wp_credit_act. intros s2 Hn2. destruct (pop (b_client_ok s2)) as [[|] rest]; cbn [fst snd].
    + exists n. split; [done|]. split.
      { unfold debt, bootstraps, world_entries, owed. cbn [b_to_client b_armed set_b_to_client set_b_client_ok].
        rewrite !n_sent_snoc. cbn [sn_origin sn_packet fst]. rewrite decide_True by done.
        rewrite decide_False by (intros [? ?]; discriminate). lia. }
      cbn [wp]. destruct (cf_coa_mode c); [apply debt_any, debt_coa_state|done].
    + exists (n + 1). split; [done|]. split; [|done].
      unfold debt, bootstraps, world_entries, owed. cbn [b_to_client b_armed set_b_client_ok]. lia.
  - exists n. split; [done|]. split; [lia|done].
Qed.

Lemma client_iter_pays n : wp (funded debt) (client_iter c) n (fun _ _ => True).
Proof.
  unfold client_iter. apply debt_after_silent; [silent_go| |done]. intros [|]; cbn [negb]; [|done].
  apply debt_after_silent; [unfold read_client; act_same| |done].
  intros [[[opcode body]|]|ex]; [|done|by destruct ex].
  unfold client_packet. apply debt_after_silent; [silent_go| |done]. intros _.
  destruct (FIRST_CUSTOM_OPCODE <=? opcode).
  - apply debt_any. unfold handle_custom. silent_go; [apply debt_store|other_opcode].
  - apply debt_after_silent; [unfold fix_char_create; silent_go| |done]. intros b.
    apply debt_after_silent; [apply debt_core| |done]. intros [[]|ex]; [|by destruct ex].
    destruct (opcode =? CMSG_SET_ACTIVE_MOVER); [|done].
    apply debt_after_silent; [silent_go| |done]. intros [|]; [|done].
    apply wp_bind. eapply wp_mono; [|apply bootstrap_pays]. by intros [a|e].
Qed.

Lemma core_iter_pays n : wp (funded debt) (core_iter c) n (fun _ _ => True).
Proof.
  unfold core_iter. apply debt_after_silent; [silent_go| |done]. intros [|]; cbn [negb]; [|done].
  apply debt_after_silent; [unfold read_core; act_same| |done].
  intros [[[opcode body]|]|ex]; [|done|by destruct ex].
  unfold core_packet. apply debt_after_silent; [unfold core_rewrite, settle_pending; silent_go; apply debt_store| |done].
  intros [b|]; [|done]. destruct (Z.eqb_spec opcode SMSG_LOGIN_VERIFY_WORLD) as [->|Hne].
  - apply wp_bind, wp_credit_act. intros s Hn. destruct (pop (b_client_ok s)) as [[|] rest]; cbn [fst snd].
    2:{ exists n. split; [done|]. split; [|done].
        unfold debt, bootstraps, world_entries, owed. cbn [b_to_client b_armed set_b_client_ok]. lia. }
    exists (n + 1). split; [lia|]. split.
    { unfold debt, bootstraps, world_entries, owed. cbn [b_to_client b_armed set_b_to_client set_b_client_ok].
      rewrite !n_sent_snoc. cbn [sn_origin sn_packet fst]. rewrite decide_False by (intros [? ?]; discriminate).
      rewrite decide_True by done. lia. }
    cbn [wp negb]. change (SMSG_LOGIN_VERIFY_WORLD =? SMSG_TUTORIAL_FLAGS) with false. cbn iota.
    apply debt_after_silent; [silent_go| |done]. intros _.
    apply wp_bind. apply debt_after_silent; [silent_go| |done]. intros _.
    unfold arm_ca_bootstrap. destruct (cf_ca_bootstrap c); [|done].
    apply wp_credit_act. intros s3 Hn3. exists n. split; [lia|]. split; [|done].
    match goal with |- debt ?x + _ <= _ =>
      assert (debt x = debt (cancel_ca_timer (set_b_armed true s3))) as -> by reflexivity end.
    rewrite debt_cancel. pose proof (owed_range s3).
    unfold debt, bootstraps, world_entries, owed in *. cbn [b_to_client b_armed set_b_armed]. lia.
  - apply debt_any. silent_go; try other_opcode.
    + apply debt_send; intros [? ?]; [discriminate|done].
    + unfold send_customs. silent_go. other_opcode.
Qed.

(** Closing forgives what is owed. *)
Lemma close_pays n : wp (funded debt) close n (fun _ _ => True).
Proof.
  unfold close. apply debt_after_silent; [silent_go| |done]. intros [|]; cbn [negb]; [|done].
  apply debt_after_silent; [silent_go| |done]. intros _. apply wp_credit_act. intros s Hn.
  exists n. split; [done|]. split; [|done]. cbn [fst]. rewrite debt_cancel. pose proof (owed_range s).
  unfold debt, bootstraps, world_entries, owed in *. cbn [b_to_client b_armed set_b_armed]. lia.
Qed.

Lemma timer_pays k : wp (funded debt) (timer_prog c k) 0 (fun _ _ => True).
Proof.
  destruct k; cbn [timer_prog].
  - apply debt_any. unfold send_archive_hello. silent_go. other_opcode.
  - apply wp_bind. eapply wp_mono; [|apply bootstrap_pays]. by intros [a|e].
Qed.

(** C8: However pumps and timers interleave, SMSG_CA_ACTIVE_SPEC is sent at most
    once for every world entry passed on to the client, the SET_ACTIVE_MOVER
    path and the fallback timer together. *)
Theorem bootstrap_once_per_entry s chs :
  debt s <= 0 ->
  let s' := cf_sess (run_schedule c (pumping c s) chs) in
  bootstraps s' + owed s' <= world_entries s'.
Proof.
  intros Hd s'.
  destruct (schedule_sound (funded debt) c 0 (fun _ => True) (fun _ => True) (fun _ => True)
              ltac:(intros t _; eapply wp_mono; [|apply client_iter_pays]; by intros [[]|])
              ltac:(intros t _; eapply wp_mono; [|apply core_iter_pays]; by intros [[]|])
              ltac:(intros t _; apply close_pays)
              timer_pays
              ltac:(intros s0 ts l; by apply funded_fire)
              s 0 0 chs) as (ts & [Hi Hp] & _).
  - split; [cbn; lia|]. by repeat constructor.
  - done.
  - done.
  - assert (0 <= foldr Z.add 0 ts) as Hsum by (clear -Hp; induction Hp; cbn; lia).
    fold s' in Hi. unfold debt in Hi. lia.
Qed.
End Debt.

(** ** Where a stored class comes from *)

Section Provenance.
Context `{Unicode} (c : bridge_cfg) (store0 : coa_data).

(** The client asked for a character of this name and CoA class, a class the
    core cannot build. *)
Definition chosen (nm : pystr) (cl : Z) (s : bsession) : Prop :=
  exists body cx, (CMSG_CHAR_CREATE, body) ∈ b_from_client s
    /\ char_create_fix (cf_valid_classes c) (cf_fallback_class c) body = Some cx
    /\ utf8_decode_replace (cx_name cx) = nm /\ cx_class cx = cl /\ dmem cl (cf_class_names c) = true.

(** The core has confirmed a creation. *)
Definition confirmed (s : bsession) : Prop :=
  exists body, (SMSG_CHAR_CREATE, CHAR_CREATE_SUCCESS :: body) ∈ b_from_core s.

Definition provenance (s : bsession) : Prop :=
  (forall nm cl, b_pending s = Some (nm, cl) -> chosen nm cl s)
  /\ forall n cl, coa_get_class (b_store s) n = Some cl ->
       coa_get_class store0 n = Some cl
       \/ exists nm, uni_lower nm = uni_lower n /\ chosen nm cl s /\ confirmed s.

Definition heard (s s' : bsession) : Prop :=
  (forall p, p ∈ b_from_client s -> p ∈ b_from_client s') /\ (forall p, p ∈ b_from_core s -> p ∈ b_from_core s').

Lemma chosen_lasting nm cl : lasting heard (chosen nm cl).
Proof. intros s s' [Hc _] (body & cx & Hin & Hr). exists body, cx. split; [by apply Hc|done]. Qed.

Lemma confirmed_lasting : lasting heard confirmed.
Proof. intros s s' [_ Hc] (body & Hin). exists body. by apply Hc. Qed.

Lemma true_lasting : lasting heard (fun _ => True).
Proof. by intros s s' _ _. Qed.

Lemma and_lasting F G : lasting heard F -> lasting heard G -> lasting heard (fun s => F s /\ G s).
Proof. intros HF HG s s' Hle [HFs HGs]. split; [by eapply HF|by eapply HG]. Qed.

(** What the invariant speaks of. *)
Definition prov_view (s : bsession) := (b_from_client s, b_from_core s, b_pending s, b_store s).

Lemma provenance_later s s' :
  heard s s' -> b_pending s' = b_pending s ->
  (forall n, coa_get_class (b_store s') n = coa_get_class (b_store s) n) -> provenance s -> provenance s'.
Proof.
  intros Hle Hp Hst [H1 H2]. split.
  - intros nm cl E. rewrite Hp in E. by eapply chosen_lasting, H1.
  - intros n cl E. rewrite Hst in E. destruct (H2 n cl E) as [Hl | (nm & Hn & Hc & Hf)]; [by left|right].
    exists nm. split; [done|]. split; [by eapply chosen_lasting|by eapply confirmed_lasting].
Qed.

Lemma prov_view_later s s' : prov_view s' = prov_view s -> heard s s'.
Proof. unfold prov_view. intros [= E1 E2 E3 E4]. split; intros p; [by rewrite E1|by rewrite E2]. Qed.

Lemma prov_view_inv s s' : prov_view s' = prov_view s -> provenance s -> provenance s'.
Proof.
  intros E. apply provenance_later; [by apply prov_view_later|..]; unfold prov_view in E; injection E as E1 E2 E3 E4.
  - done.
  - intros n. by rewrite E4.
Qed.

Abbreviation facts := (informed_lasting provenance heard) (only parsing).

Lemma facts_quiet {A} (p : prog A) F (R : res A -> Prop) :
  quiet prov_view p R -> wp facts p F (fun r t => R r /\ t = F).
Proof.
  induction p as [a|e|B f k IH]; cbn [quiet]; [done..|]. intros Hq. apply wp_facts_act.
  intros s HI HF HL. destruct (Hq s) as [Hf Hk]. split; [by eapply prov_view_inv|].
  split; [by apply prov_view_later|]. exists F. split; [eapply HL, HF; by apply prov_view_later|].
  split; [done|]. by apply IH.
Qed.

Lemma facts_after {A B} (p : prog A) (q : A -> prog B) F Q :
  silent prov_view p -> (forall a, wp facts (q a) F Q) -> (forall e, Q (Err e) F) -> wp facts (prog_bind p q) F Q.
Proof.
  intros Hp Hq He. apply wp_bind. eapply wp_mono; [|apply facts_quiet, Hp].
  intros [a|e] t [_ ->]; [apply Hq|apply He].
Qed.

Lemma facts_any {A} (p : prog A) F : silent prov_view p -> wp facts p F (fun _ _ => True).
Proof. intros Hp. eapply wp_mono; [|apply facts_quiet, Hp]. done. Qed.

Lemma prov_cancel s : prov_view (cancel_ca_timer s) = prov_view s.
Proof. unfold cancel_ca_timer. by destruct (b_timer s). Qed.

Lemma prov_send o opcode body : silent prov_view (send_client o opcode body).
Proof. unfold send_client. act_same. Qed.

Lemma prov_core o opcode body : silent prov_view (send_core o opcode body).
Proof. unfold send_core. act_same. Qed.

Lemma prov_budgets rows : silent prov_view (send_budgets rows).
Proof. induction rows as [|r rows IH]; cbn [send_budgets]; silent_go; [apply prov_send|exact IH]. Qed.

Lemma prov_bootstrap : silent prov_view (send_ca_bootstrap c).
Proof.
  unfold send_ca_bootstrap, send_coa_state, send_class_byte. silent_go; try apply prov_send; try apply prov_budgets.
  intros s. split; [|exact Logic.I]. destruct (b_armed s); cbn [fst]; [|done]. by rewrite prov_cancel.
Qed.

(** A write of the store: on disk or not, it is in memory. *)
Lemma facts_store_write f F Q :
  (forall s, provenance s -> F s -> provenance (set_b_store (f (b_store s)) s)) ->
  Q (Ok ()) F -> (forall e, Q (Err e) F) -> wp facts (store_write f) F Q.
Proof.
  intros Hf HQ He. unfold store_write. apply wp_bind, wp_facts_act. intros s HI HF HL.
  destruct (pop (b_flush_ok s)) as [[|] rest]; cbn [fst snd];
    (split; [exact (prov_view_inv _ _ eq_refl (Hf s HI HF))|]; split; [done|]; exists F;
     split; [by eapply HL, HF|]; split; [done|]; cbn [wp lift]; done).
Qed.

Lemma heard_client s l : heard s (set_b_from_client (b_from_client s ++ l) s).
Proof. split; intros p Hp; [by apply elem_of_app; left|done]. Qed.

Lemma heard_core s l : heard s (set_b_from_core (b_from_core s ++ l) s).
Proof. split; intros p Hp; [done|by apply elem_of_app; left]. Qed.

Definition from_client_has (p : packet) (s : bsession) : Prop := p ∈ b_from_client s.
Definition from_core_has (p : packet) (s : bsession) : Prop := p ∈ b_from_core s.

Lemma from_client_lasting p : lasting heard (from_client_has p).
Proof. intros s s' [Hc _]. apply Hc. Qed.

Lemma from_core_lasting p : lasting heard (from_core_has p).
Proof. intros s s' [_ Hc]. apply Hc. Qed.

Lemma custom_prov opcode body F : wp facts (handle_custom c opcode body) F (fun _ _ => True).
Proof.
  unfold handle_custom. apply facts_after; [silent_go| |done]. intros name.
  destruct (_ && _); [|done]. apply facts_after; [silent_go| |done]. intros records.
  apply wp_bind, facts_store_write; [|apply facts_any; silent_go; apply prov_send|done].
  intros s HI _. apply (provenance_later s); [done|done| |done]. intros n. apply get_class_set_entries.
Qed.

Lemma create_prov body :
  wp facts (fix_char_create c body) (from_client_has (CMSG_CHAR_CREATE, body)) (fun _ _ => True).
Proof.
  unfold fix_char_create. destruct (char_create_fix _ _ body) as [cx|] eqn:Ecx; [|done].
  apply wp_bind. apply (wp_mono _ _ _ (fun _ _ => True)).
  { intros [[]|e] t' _; [|done]. by destruct (with_carrier body cx). }
  destruct (cf_coa_mode c); [|done].
  destruct (utf8_decode_replace (cx_name cx)) as [|x name] eqn:En; [done|].
  destruct (dmem (cx_class cx) (cf_class_names c)) eqn:Ed; unfold upd; apply wp_facts_act; intros s HI HF HL;
    (split; [|split; [done|]; exists (from_client_has (CMSG_CHAR_CREATE, body)); split; [exact HF|]; split; [exact HL|done]]); destruct HI as [_ H2]; split; try exact H2.
  - intros nm cl [= <- <-]. exists body, cx. split; [exact HF|]. done.
  - done.
Qed.

Lemma client_iter_prov F : wp facts (client_iter c) F (fun _ _ => True).
Proof.
  unfold client_iter. apply facts_after; [silent_go| |done]. intros [|]; cbn [negb]; [|done].
  apply wp_bind. unfold read_client. apply wp_facts_act. intros s HI HF HL.
  destruct (read_c2s (b_client_in s) None) as [[conn dec] r]. cbn [fst snd].
  pose proof (heard_client s (log_packet r)) as Hle.
  split; [exact (provenance_later _ _ Hle eq_refl (fun _ => eq_refl) HI)|]. split; [exact Hle|].
  destruct r as [[[opcode body]|]|ex];
    [|exists (fun _ => True); split; [done|]; split; [exact true_lasting|]; by try destruct ex ..].
  exists (from_client_has (opcode, body)). split; [apply elem_of_app; right; left|].
  split; [apply from_client_lasting|]. cbn [wp]. unfold client_packet.
  apply facts_after; [silent_go| |done]. intros _. destruct (FIRST_CUSTOM_OPCODE <=? opcode).
  - apply wp_bind. eapply wp_mono; [|apply custom_prov]. by intros [a|e].
  - apply wp_bind. apply (wp_mono _ _ _ (fun _ _ => True)).
    2:{ destruct (Z.eqb_spec opcode CMSG_CHAR_CREATE) as [->|]; [apply create_prov|done]. }
    intros [b|e] t' _; [|done]. apply facts_any. silent_go.
    all: first [apply prov_core|apply prov_bootstrap|idtac].
Qed.

Lemma settle_prov code body :
  wp facts (settle_pending code) (from_core_has (SMSG_CHAR_CREATE, code :: body)) (fun _ _ => True).
Proof.
  unfold settle_pending. apply wp_bind, wp_facts_act. intros s HI HF HL. cbn [fst snd].
  split; [done|]. split; [done|].
  destruct (b_pending s) as [[pname pclass]|] eqn:Ep; [|by exists (fun _ => True)].
  assert (chosen pname pclass s) as Hch by (by apply (proj1 HI)).
  exists (fun s => from_core_has (SMSG_CHAR_CREATE, code :: body) s /\ chosen pname pclass s).
  split; [done|]. split; [apply and_lasting; [done|apply chosen_lasting]|]. cbn [wp].
  assert (forall F, wp facts (upd (set_b_pending None)) F (fun _ _ => True)) as Hclear.
  { intros F. apply wp_facts_act. intros s' [H1 H2] HF' HL'. split; [by split|]. split; [done|].
    exists (fun _ => True). done. }
  destruct (Z.eqb_spec code CHAR_CREATE_SUCCESS) as [->|]; [|by apply wp_bind, Hclear].
  apply wp_bind, facts_store_write; [|apply Hclear|done].
  intros s' [H1 H2] [Hcore Hchosen]. split; [done|]. intros n cl Hget.
  change (coa_get_class (coa_set_class (b_store s') pname pclass) n = Some cl) in Hget.
  rewrite get_set_class in Hget. destruct (decide _) as [En|_]; [|by apply H2].
  injection Hget as <-. right. exists pname. split; [done|]. split; [done|]. by exists body.
Qed.

Lemma core_iter_prov F : wp facts (core_iter c) F (fun _ _ => True).
Proof.
  unfold core_iter. apply facts_after; [silent_go| |done]. intros [|]; cbn [negb]; [|done].
  apply wp_bind. unfold read_core. apply wp_facts_act. intros s HI HF HL.
  destruct (read_s2c (b_core_in s) (b_s2c s)) as [[conn dec] r]. cbn [fst snd].
  pose proof (heard_core s (log_packet r)) as Hle.
  split; [exact (provenance_later _ _ Hle eq_refl (fun _ => eq_refl) HI)|]. split; [exact Hle|].
  destruct r as [[[opcode body]|]|ex];
    [|exists (fun _ => True); split; [done|]; split; [exact true_lasting|]; by try destruct ex ..].
  exists (from_core_has (opcode, body)). split; [apply elem_of_app; right; left|].
  split; [apply from_core_lasting|]. cbn [wp]. unfold core_packet, core_rewrite.
  apply wp_bind, wp_bind. apply (wp_mono _ _ _ (fun _ _ => True)).
  - intros [b|e] t' _; [|done]. apply (wp_mono _ _ _ (fun _ _ => True)).
    2:{ apply facts_any. silent_go. }
    intros [[b'|]|e] t1 _; [|done..]. apply facts_any. unfold send_customs, arm_ca_bootstrap. silent_go; try apply prov_send.
    match goal with |- prov_view _ = prov_view ?s =>
      change (prov_view (cancel_ca_timer (set_b_armed true s)) = prov_view s) end.
    by rewrite prov_cancel.
  - destruct (_ && _); [|apply facts_any; silent_go].
    destruct (Z.eqb_spec opcode SMSG_CHAR_CREATE) as [->|]; [|done].
    destruct body as [|code body]; [done|]. apply wp_bind.
    change (lift (index (code :: body) 0)) with (Ret (A := Z) code). cbn [prog_bind].
    apply (wp_mono _ _ _ (fun _ _ => True)); [by intros [a|e]|apply settle_prov].
Qed.

Lemma facts_fire s ts l :
  informed_lasting provenance heard s ts -> informed_lasting provenance heard (set_b_timers l s) (ts ++ [fun _ => True]).
Proof.
  intros [[HI HF] HL]. assert (heard s (set_b_timers l s)) as Hle by done.
  split; [split; [exact HI|]|]; apply Forall_app; (split; [|repeat constructor; exact true_lasting]); [|done].
  rewrite Forall_forall in HF, HL |- *. intros F HFin. by apply (HL F HFin s), HF.
Qed.

(** C9: Under every schedule, each class the store holds was there at the start,
    or is a CoA class the client chose, in a creation packet it sent, for a
    character of that name, and the core has confirmed a creation; the class
    that waits for the core's verdict was chosen in the same way. *)
Theorem class_provenance s chs :
  b_store s = store0 -> b_pending s = None -> provenance (cf_sess (run_schedule c (pumping c s) chs)).
Proof.
  intros Hst Hpe.
  destruct (schedule_sound facts c (fun _ => True) (fun _ => True) (fun _ => True) (fun _ => True)
              ltac:(intros t _; eapply wp_mono; [|apply client_iter_prov]; by intros [[]|])
              ltac:(intros t _; eapply wp_mono; [|apply core_iter_prov]; by intros [[]|])
              ltac:(intros t _; apply facts_any; unfold close; silent_go; by rewrite prov_cancel)
              ltac:(intros [|]; apply facts_any; cbn [timer_prog]; [unfold send_archive_hello|]; silent_go;
                    first [apply prov_send|apply prov_bootstrap])
              ltac:(intros s0 ts l; apply facts_fire)
              s (fun _ => True) (fun _ => True) chs) as (ts & [[HI _] _] & _); [|done..].
  split; [split|].
  - split; [intros nm cl E; by rewrite Hpe in E|]. intros n cl E. rewrite Hst in E. by left.
  - by repeat constructor.
  - repeat constructor; exact true_lasting.
Qed.
End Provenance.
