(* ===== verification/BridgeExec.v ===== *)
(** * The bridge run on inputs

    What one payment of the bootstrap sends, in order; the handshake's packet to
    the core; and sessions evaluated step by step: a class that outlives its
    character, a confirmation taken for another creation, a pump that dies of a
    failed flush. *)
From S2P Require Import Prelude Wire PyFloat Text Consts Rc4 Framing Chars Dbc Builders CoaMode CoaModeSpec BridgeWire BridgeWireSpec Bridge BridgeLogic BridgeSpec.

Lemma exec_bind {A B} (p : prog A) (q : A -> prog B) s :
  exec (prog_bind p q) s
  = match exec p s with (s', Ok a) => exec (q a) s' | (s', Err e) => (s', Err e) end.
Proof.
  revert s. induction p as [a|e|C f k IH]; intros s; [done..|]. cbn [prog_bind exec].
  destruct (f s) as [s' b]. apply IH.
Qed.

(** A packet of the bridge's own, as it is written. *)
Definition own_packet (p : packet) : sent := Sent Originated p (snd (frame_s2c (fst p) (snd p) None)).

(** [s] with packets of the bridge's own behind what it has sent. *)
Definition with_sent (l : list packet) (s : bsession) : bsession :=
  set_b_to_client (b_to_client s ++ map own_packet l) (set_b_client_ok [] s).

Lemma exec_send s l opcode body :
  exec (send_client Originated opcode body) (with_sent l s) = (with_sent (l ++ [(opcode, body)]) s, Ok true).
Proof.
  unfold with_sent. rewrite map_app, app_assoc. destruct s. reflexivity.
Qed.

Lemma exec_get {A} (f : bsession -> A) s : exec (get f) s = (s, Ok (f s)).
Proof. reflexivity. Qed.

Lemma exec_lift {A} (r : res A) s : exec (lift r) s = (s, r).
Proof. by destruct r. Qed.

Section Burst.
Context `{Unicode} (c : bridge_cfg).

(** The budget of one row, all flags clear. *)
Definition budget_packet (r : list Z) : packet :=
  (SMSG_CA_ESSENCE_BUDGET,
   concat (map (le 4) [col r 0; col r 1; col r 2; 0; 0; 0; 0; col r 7; col r 8])).

Definition budget_row (r : list Z) : Prop := 9 <= pylen r /\ Forall is_word r.

Lemma budget_row_body r :
  budget_row r ->
  (a ← index r 0; b ← index r 1; f ← index r 2; x ← index r 7; y ← index r 8; coa_essence_budget a b f x y 0)
  = Ok (snd (budget_packet r)).
Proof.
  intros [Hl Hw]. rewrite !index_col by lia. cbn [mbind res_bind].
  assert (forall i, 0 <= i < pylen r -> is_word (col r i)) as Hc.
  { intros i Hi. unfold col, pylen in *. rewrite Forall_forall in Hw. apply Hw, list_elem_of_In, nth_In. lia. }
  change (coa_essence_budget (col r 0) (col r 1) (col r 2) (col r 7) (col r 8) 0)
    with (packIs [col r 0; col r 1; col r 2; 0; 0; 0; 0; col r 7; col r 8]).
  unfold packIs. rewrite res_map_packI_words; [done|].
  repeat (constructor; [first [apply Hc; lia|unfold is_word; lia]|]). constructor.
Qed.

Lemma exec_budgets rows s : Forall budget_row rows -> forall l,
  exec (send_budgets rows) (with_sent l s) = (with_sent (l ++ map budget_packet rows) s, Ok true).
Proof.
  induction 1 as [|r rows Hr _ IH]; intros l; cbn [send_budgets].
  - by rewrite app_nil_r.
  - rewrite exec_bind, exec_lift, budget_row_body by done. rewrite exec_bind, exec_send. rewrite IH.
    by rewrite <- app_assoc.
Qed.

(** The class word: race and gender of the character, its CoA class, and the
    power the carrier class uses. *)
Definition class_word (clas race gender : Z) : bytes :=
  [race; clas; gender; power_for (cf_fallback_class c)].

Lemma class_update_ok guid w : exists b, build_values_update guid [(UNIT_FIELD_BYTES_0, w)] PLAYER_END = Ok b.
Proof.
  unfold build_values_update.
  destruct (build_values_block_total [(UNIT_FIELD_BYTES_0, w)] (Some PLAYER_END) UNIT_FIELD_BYTES_0) as (v & ->);
    [reflexivity|by repeat constructor|reflexivity|]. by eexists.
Qed.

Lemma exec_class_byte s l clas guid race gender :
  cf_write_class_byte c = true -> b_guid s = Some guid -> dget guid (b_looks s) = Some (race, gender) ->
  is_byte race -> is_byte clas -> is_byte gender ->
  exists b, build_values_update guid [(UNIT_FIELD_BYTES_0, class_word clas race gender)] PLAYER_END = Ok b
    /\ exec (send_class_byte c clas) (with_sent l s) = (with_sent (l ++ [(SMSG_UPDATE_OBJECT, b)]) s, Ok ()).
Proof.
  intros Hw Hg Hl Br Bc Bg. destruct (class_update_ok guid (class_word clas race gender)) as (b & Hb).
  exists b. split; [done|]. unfold send_class_byte. rewrite Hw. cbn [negb].
  rewrite exec_bind, exec_get, exec_bind, exec_get.
  change (b_guid (with_sent l s)) with (b_guid s). change (b_looks (with_sent l s)) with (b_looks s).
  rewrite Hg, Hl. pose proof (power_for_range (cf_fallback_class c)) as Hp.
  assert (Z.land (power_for (cf_fallback_class c)) 0xFF = power_for (cf_fallback_class c)) as ->
    by (apply land_byte; unfold is_byte; lia).
  rewrite bytes0_fields by (done || (unfold is_byte; lia)). fold (class_word clas race gender).
  rewrite exec_bind, exec_lift, Hb, exec_bind, exec_send. done.
Qed.

(** The rows served are those of the family asked for. *)
Lemma rows_for_family rows family served : Forall budget_row rows ->
  rows_for rows family = Ok served -> served = filter (fun r => col r 2 = family) rows.
Proof.
  intros Hr Hf. unfold rows_for in Hf.
  assert (res_map (fun r => index r 2) rows = Ok (map (fun r => col r 2) rows)) as E.
  { apply res_map_ok. intros r Hin. rewrite Forall_forall in Hr. destruct (Hr r Hin). apply index_col. lia. }
  rewrite E in Hf. cbn [mbind res_bind] in Hf. apply Ok_inj in Hf. subst served. clear.
  induction rows as [|r rows IH]; [done|]. cbn [map zip zip_with]. rewrite !filter_cons. cbn [fst].
  destruct (decide (col r 2 = family)); cbn [map snd]; by rewrite IH.
Qed.

End Burst.

(** ** The handshake *)

Section HandshakeSpec.
Context `{Unicode} (c : bridge_cfg) (sha1 : bytes -> bytes) (hmac_sha1 : bytes -> bytes -> bytes).
Context (stage : pystr -> bytes -> res Z) (connect : res ()) (key40 : bytes).

(** A packet as it is written to the client. *)
Definition written (o : origin) (p : packet) : sent := Sent o p (snd (frame_s2c (fst p) (snd p) None)).

Lemma exec_read_client s p wire rest :
  frame_c2s (fst p) (snd p) None = Ok (None, wire) -> rx_bytes (b_client_in s) = wire ++ rest ->
  exists conn, rx_bytes conn = rest
    /\ exec (must_read read_client) s
       = (set_b_from_client (b_from_client s ++ [p]) (set_b_client_in conn s), Ok p).
Proof.
  destruct p as [opcode body]. intros Hf Hb.
  destruct (read_c2s_frame (b_client_in s) None opcode body None wire rest Hf Hb) as (conn & E & Hr).
  exists conn. split; [done|]. unfold must_read, read_client. cbn [prog_bind exec]. by rewrite E.
Qed.

Lemma exec_read_core s enc p rest :
  b_s2c s = enc -> frameable p -> rx_bytes (b_core_in s) = snd (frame_pkt enc (fst p) (snd p)) ++ rest ->
  exists conn, rx_bytes conn = rest
    /\ exec (must_read read_core) s
       = (set_b_from_core (b_from_core s ++ [p])
            (set_b_s2c (fst (frame_pkt enc (fst p) (snd p))) (set_b_core_in conn s)), Ok p).
Proof.
  destruct p as [opcode body]. intros He Hf Hb.
  destruct (read_s2c_frame (b_core_in s) enc opcode body rest Hf Hb) as (conn & E & Hr).
  exists conn. split; [done|]. unfold must_read, read_core. cbn [prog_bind exec]. by rewrite He, E.
Qed.

Lemma exec_must_send s o opcode body :
  b_client_ok s = [] ->
  exec (must_send_client o opcode body) s
  = (set_b_to_client (b_to_client s ++ [written o (opcode, body)]) (set_b_client_ok [] s), Ok ()).
Proof. intros E. unfold must_send_client, send_client. cbn [prog_bind exec]. by rewrite E. Qed.

(** The verdict may be preceded by other packets, up to seven. *)
Lemma exec_await pre code t enc rest : forall s n,
  (length pre < n)%nat -> Forall frameable (pre ++ [(SMSG_AUTH_RESPONSE, AUTH_OK :: t)]) ->
  Forall (fun p => fst p <> SMSG_AUTH_RESPONSE) pre -> code = AUTH_OK ->
  b_s2c s = enc -> b_client_ok s = [] ->
  rx_bytes (b_core_in s) = concat (snd (send_each enc (pre ++ [(SMSG_AUTH_RESPONSE, code :: t)]))) ++ rest ->
  exists s', exec (await_verdict n) s = (s', Ok ())
    /\ rx_bytes (b_core_in s') = rest
    /\ b_s2c s' = fst (send_each enc (pre ++ [(SMSG_AUTH_RESPONSE, code :: t)]))
    /\ b_to_client s' = b_to_client s ++ map (written Forwarded) (pre ++ [(SMSG_AUTH_RESPONSE, code :: t)])
    /\ b_to_core s' = b_to_core s /\ b_c2s s' = b_c2s s /\ b_client_in s' = b_client_in s
    /\ b_account s' = b_account s.
Proof.
  intros s n Hn Hf Hpre ->. revert s enc n Hn Hf.
  induction Hpre as [|[opcode body] pre Hop _ IH]; intros s enc n Hn Hf He Hok Hb;
    destruct n as [|n]; cbn [length] in Hn; try lia; cbn [await_verdict app send_each] in *;
    apply Forall_cons in Hf as [Hf0 Hf].
  - destruct (frame_pkt enc SMSG_AUTH_RESPONSE (AUTH_OK :: t)) as [e1 b] eqn:Efr.
    cbn [snd concat] in Hb. rewrite app_nil_r in Hb.
    destruct (exec_read_core s enc (SMSG_AUTH_RESPONSE, AUTH_OK :: t) rest He Hf0) as (conn & Hr & E);
      [cbn [fst snd]; by rewrite Efr|].
    rewrite exec_bind, E, exec_bind, exec_must_send by done. cbn [fst snd]. rewrite Efr.
    eexists. split; [reflexivity|]. done.
  - destruct (frame_pkt enc opcode body) as [e1 b] eqn:Efr.
    destruct (send_each e1 (pre ++ _)) as [e2 bs] eqn:Ees. cbn [fst snd concat] in Hb |- *.
    rewrite <- app_assoc in Hb.
    destruct (exec_read_core s enc (opcode, body) (concat bs ++ rest) He Hf0) as (conn & Hr & E);
      [cbn [fst snd]; by rewrite Efr|].
    rewrite exec_bind, E, exec_bind, exec_must_send by done. cbn [fst snd] in Hop |- *. rewrite Efr.
    rewrite (proj2 (Z.eqb_neq _ _) Hop). cbn [fst].
    match goal with |- context [exec (await_verdict n) ?x] => set (s1 := x) end.
    destruct (IH s1 e1 n ltac:(lia) Hf eq_refl eq_refl) as (s' & E' & Hr' & Hs' & Hc' & Hrest).
    { unfold s1. cbn [b_core_in set_b_to_client set_b_client_ok set_b_from_core set_b_s2c set_b_core_in]. by rewrite Ees, Hr. }
    exists s'. rewrite Ees in Hs'. split; [exact E'|]. split; [exact Hr'|]. split; [exact Hs'|].
    split; [|exact Hrest]. rewrite Hc'. unfold s1.
    cbn [b_to_client set_b_to_client set_b_client_ok set_b_from_core set_b_s2c set_b_core_in].
    by rewrite <- app_assoc.
Qed.

Lemma frame_c2s_plain opcode body :
  is_word opcode -> pylen body + 4 < 2 ^ 16 -> exists wire, frame_c2s opcode body None = Ok (None, wire).
Proof.
  intros Ho Hl. unfold frame_c2s, pack_be16. pose proof (pylen_nonneg body).
  rewrite packH_ok by lia. cbn [mbind res_bind]. rewrite packI_ok by done. cbn [mbind res_bind crypt_opt]. eauto.
Qed.

(** C26: A client whose login packet parses, and a core that challenges and then,
    behind at most seven other packets, answers AUTH_OK, are connected: the core
    is sent one packet, the client's login with the core's build and realm and a
    digest over the core's own seed and the staged key; the client has had the
    bridge's challenge and everything the core said; and both ciphers stand where
    the core's stand. *)
Theorem handshake_connects s body f cbody pre t out wire rest rest2 acct :
  let s2c := fst (bridge_crypt hmac_sha1 key40) in
  let verdict := pre ++ [(SMSG_AUTH_RESPONSE, AUTH_OK :: t)] in
  b_client_ok s = [] -> b_core_ok s = [] -> b_s2c s = None -> b_c2s s = None ->
  parse_bridge_auth body = Ok f ->
  frame_c2s CMSG_AUTH_SESSION body None = Ok (None, wire) -> rx_bytes (b_client_in s) = wire ++ rest ->
  stage (utf8_decode_replace (ba_account f)) key40 = Ok acct -> connect = Ok () ->
  build_bridge_auth f (cf_ac_build c) (cf_ac_realm c)
    (auth_digest sha1 (ba_account f) (ba_clientSeed f) (slice 4 8 cbody) key40) = Ok out ->
  pylen out + 4 < 2 ^ 16 ->
  frameable (SMSG_AUTH_CHALLENGE, cbody) -> Forall frameable verdict -> (length pre < 8)%nat ->
  Forall (fun p => fst p <> SMSG_AUTH_RESPONSE) pre ->
  rx_bytes (b_core_in s) = snd (frame_pkt None SMSG_AUTH_CHALLENGE cbody)
                           ++ concat (snd (send_each (Some s2c) verdict)) ++ rest2 ->
  exists s', exec (handshake c sha1 hmac_sha1 stage connect key40) s = (s', Ok ())
    /\ b_account s' = ba_account f
    /\ map sn_packet (b_to_core s') = map sn_packet (b_to_core s) ++ [(CMSG_AUTH_SESSION, out)]
    /\ b_to_client s' = b_to_client s
         ++ written Originated (SMSG_AUTH_CHALLENGE, le 4 1 ++ CLIENT_AUTH_SEED ++ BRIDGE_CHALLENGE_TAIL)
         :: map (written Forwarded) verdict
    /\ b_s2c s' = fst (send_each (Some s2c) verdict)
    /\ b_c2s s' = Some (snd (bridge_crypt hmac_sha1 key40))
    /\ rx_bytes (b_client_in s') = rest /\ rx_bytes (b_core_in s') = rest2.
Proof.
  intros s2c verdict Hok Hcok Hs Hc Hp Hf Hb Hst Hcon Hout Hlen Hch Hv Hpre Hne Hcb.
  unfold handshake. rewrite exec_bind, exec_must_send by done.
  set (s1 := set_b_to_client _ _).
  destruct (exec_read_client s1 (CMSG_AUTH_SESSION, body) wire rest Hf Hb) as (conn & Hr & E1).
  rewrite exec_bind, E1. change (CMSG_AUTH_SESSION =? CMSG_AUTH_SESSION) with true. cbn [negb].
  rewrite exec_bind, exec_lift, Hp, exec_bind. cbn [exec upd].
  rewrite exec_bind, exec_lift, Hst, exec_bind, exec_lift, Hcon, exec_bind.
  set (s2 := set_b_account _ _).
  destruct (exec_read_core s2 None (SMSG_AUTH_CHALLENGE, cbody) _ Hs Hch Hcb) as (conn2 & Hr2 & E2).
  rewrite E2. change (SMSG_AUTH_CHALLENGE =? SMSG_AUTH_CHALLENGE) with true. cbn [negb].
  rewrite exec_bind, exec_lift, Hout, exec_bind. unfold send_core. cbn [exec].
  destruct (frame_c2s_plain CMSG_AUTH_SESSION out ltac:(unfold is_word, CMSG_AUTH_SESSION; lia) Hlen) as (w & Ew).
  set (s3 := set_b_from_core _ _). assert (b_c2s s3 = None) as -> by exact Hc.
  rewrite Ew. assert (b_core_ok s3 = []) as -> by exact Hcok. cbn [pop].
  rewrite exec_bind, exec_lift, exec_bind. cbn [exec upd].
  destruct (bridge_crypt hmac_sha1 key40) as [k1 k2] eqn:Ek. cbn [fst snd] in *.
  match goal with |- context [exec (await_verdict 8) ?x] => set (s4 := x) end.
  destruct (exec_await pre AUTH_OK t (Some k1) rest2 s4 8%nat Hpre Hv Hne eq_refl eq_refl eq_refl Hr2)
    as (s' & E' & Q1 & Q2 & Q3 & Q4 & Q5 & Q6 & Q7).
  exists s'. split; [exact E'|]. split; [|split; [|split; [|split; [exact Q2|split; [exact Q5|split; [|exact Q1]]]]]].
  - by rewrite Q7.
  - rewrite Q4. unfold s4. cbn [b_to_core set_b_s2c set_b_c2s set_b_to_core set_b_core_ok]. by rewrite map_app.
  - rewrite Q3. unfold s4, s3, s2, s1. cbn. by rewrite <- app_assoc.
  - by rewrite Q6.
Qed.
End HandshakeSpec.

(** ** Sessions evaluated *)

Definition sample_cfg : bridge_cfg :=
  BridgeCfg true true true 0 1 2 [] [] AC_VALID_CLASSES 1 REALM_FLAVOUR_DEV 12340 1
    [(28, lit "Tinker")] [[1; 80; 28; 0; 0; 0; 0; 36; 35]; [2; 80; 10; 0; 0; 0; 0; 140; 71]].

(** A socket that delivers these bytes at once. *)
Definition stream (b : bytes) : list rx := match b with [] => [] | x :: t => [RxData x t 0] end.

Definition client_stream (ps : list packet) : list rx :=
  stream (concat (map (fun p => res_get [] (snd <$> frame_c2s (fst p) (snd p) None)) ps)).

Definition core_stream (ps : list packet) : list rx :=
  stream (concat (map (fun p => snd (frame_s2c (fst p) (snd p) None)) ps)).

Definition sample_session (store : coa_data) (client core : list packet) (flush : list bool) : bsession :=
  new_bridge_session store (client_stream client) (core_stream core) [] [] flush.

(** CMSG_CHAR_CREATE: name, race, class and seven more bytes. *)
Definition create_packet (name : string) (race class : Z) : packet :=
  (CMSG_CHAR_CREATE, lit name ++ [0; race; class; 0; 1; 2; 3; 4; 5; 0]).

Definition run_turns (s : bsession) (turns : list (nat * nat)) : config :=
  run_schedule sample_cfg (pumping sample_cfg s)
    (concat (map (fun t => replicate (snd t) (Turn (fst t))) turns)).

(** One world entry: the fallback timer fires while the client's pump pays. *)
Definition entry_session : bsession :=
  sample_session [] [(CMSG_SET_ACTIVE_MOVER, replicate 8 0)] [(SMSG_LOGIN_VERIFY_WORLD, replicate 20 0)] [].

Definition entry_schedule : list choice :=
  replicate 12 (Turn 1) ++ [Fire 1] ++ replicate 6 (Turn 0) ++ replicate 6 (Turn 2) ++ replicate 6 (Turn 0).

Lemma bootstrap_once_per_entry_witness :
  debt entry_session <= 0
  /\ bootstraps (cf_sess (run_schedule sample_cfg (pumping sample_cfg entry_session) entry_schedule)) = 1
  /\ bootstraps (cf_sess (run_schedule sample_cfg (pumping sample_cfg entry_session) entry_schedule))
     + owed (cf_sess (run_schedule sample_cfg (pumping sample_cfg entry_session) entry_schedule))
     <= world_entries (cf_sess (run_schedule sample_cfg (pumping sample_cfg entry_session) entry_schedule)).
Proof.
  split; [vm_compute; congruence|]. split; [vm_compute; reflexivity|].
  apply (bootstrap_once_per_entry sample_cfg entry_session entry_schedule). vm_compute. congruence.
Defined.

(** A session that lists, creates and forwards a custom opcode. *)
Definition create_session (store : coa_data) (flush : list bool) : bsession :=
  sample_session store [create_packet "Ann" 10 28; (0x62E, [1]); (CMSG_PING, replicate 8 1)]
    [(SMSG_CHAR_CREATE, [CHAR_CREATE_SUCCESS]); (SMSG_PONG, [1; 2; 3; 4])] flush.

Definition create_schedule : list choice := replicate 13 (Turn 0) ++ replicate 40 (Turn 1).

Abbreviation created :=
  (cf_sess (run_schedule sample_cfg (pumping sample_cfg (create_session [] [])) create_schedule)) (only parsing).

(** The three packets are read, two are passed on, the creation with class 2,
    which a Blood Elf can be. *)
Lemma core_receives_witness :
  map sn_packet (b_to_core created) = [create_packet "Ann" 10 2; (CMSG_PING, replicate 8 1)]
  /\ Forall (fun p => fst p < FIRST_CUSTOM_OPCODE) (map sn_packet (b_to_core created)).
Proof.
  split; [vm_compute; reflexivity|].
  exact (proj1 (proj2 (core_receives sample_cfg (create_session [] []) create_schedule eq_refl eq_refl))).
Defined.

Lemma client_receives_witness :
  map sn_packet (forwarded (b_to_client created)) = [(SMSG_CHAR_CREATE, [CHAR_CREATE_SUCCESS]); (SMSG_PONG, [1; 2; 3; 4])]
  /\ exists kept, kept `sublist_of` b_from_core created
       /\ Forall2 same_packet kept (map sn_packet (forwarded (b_to_client created))).
Proof.
  split; [vm_compute; reflexivity|].
  exact (client_receives sample_cfg (create_session [] []) create_schedule eq_refl eq_refl).
Defined.

Lemma class_provenance_witness :
  coa_get_class (b_store created) (lit "ANN") = Some 28
  /\ (coa_get_class [] (lit "ANN") = Some 28
      \/ exists nm, uni_lower nm = uni_lower (lit "ANN") /\ chosen sample_cfg nm 28 created /\ confirmed created).
Proof.
  split; [vm_compute; reflexivity|].
  apply (proj2 (class_provenance sample_cfg [] (create_session [] []) create_schedule eq_refl eq_refl)).
  vm_compute. reflexivity.
Defined.

(** A Tinker whose container is owed. *)
Definition owed_session : bsession :=
  set_b_armed true (set_b_guid (Some 7) (set_b_looks [(7, (10, 1))] (set_b_name (Some (lit "Ann"))
    (sample_session [(lit "ann", CoaEntry (Some 28) [CaRecord 31113 1 0 0 0 0])] [] [] [])))).


(** *** What the store remembers *)

Definition enum_of (name : string) (race class : Z) : packet :=
  (SMSG_CHAR_ENUM, enum_body [sample_char 7 name race class 0]).

(** The class of the only character in the list the client was last shown. *)
Definition shown_class (s : bsession) : option Z :=
  match last (map sn_packet (b_to_client s)) with
  | Some (_, body) => body !! 14%nat
  | None => None
  end.

(** A stock Warrior made under the name of a deleted Tinker is shown as a
    Tinker: a creation the core can build leaves the stored class alone. *)
Lemma class_outlives_character :
  let s := sample_session [(lit "bob", CoaEntry (Some 28) [])] [create_packet "Bob" 1 1]
             [(SMSG_CHAR_CREATE, [CHAR_CREATE_SUCCESS]); enum_of "Bob" 1 1] [] in
  let s' := cf_sess (run_turns s [(0%nat, 4%nat); (1%nat, 40%nat)]) in
  map sn_packet (b_to_core s') = [create_packet "Bob" 1 1] /\ shown_class s' = Some 28.
Proof. split; vm_compute; reflexivity. Qed.

(** The same with the Free-Pick class 10, which the code means to serve as no
    CoA class. *)
Lemma class_outlives_free_pick :
  let s := sample_session [(lit "bob", CoaEntry (Some 28) [])] [create_packet "Bob" 1 10]
             [(SMSG_CHAR_CREATE, [CHAR_CREATE_SUCCESS]); enum_of "Bob" 1 1] [] in
  let s' := cf_sess (run_turns s [(0%nat, 4%nat); (1%nat, 40%nat)]) in
  map sn_packet (b_to_core s') = [create_packet "Bob" 1 1] /\ shown_class s' = Some 28.
Proof. split; vm_compute; reflexivity. Qed.

(** Two creations on their way at once: the confirmation of the first commits
    the class of the second, which the core refuses. *)
Lemma other_confirmation :
  let s := sample_session [] [create_packet "Bob" 1 1; create_packet "Ann" 10 28]
             [(SMSG_CHAR_CREATE, [CHAR_CREATE_SUCCESS]); (SMSG_CHAR_CREATE, [CHAR_CREATE_NAME_IN_USE])] [] in
  coa_get_class (b_store (cf_sess (run_turns s [(0%nat, 9%nat); (1%nat, 40%nat)]))) (lit "Ann") = Some 28.
Proof. vm_compute. reflexivity. Qed.

(** A flush that fails ends the core's pump with the session still open: the
    confirmation and everything behind it never reach the client. *)
Lemma failed_flush_silences :
  let cf := run_turns (create_session [] [false]) [(0%nat, 12%nat); (1%nat, 80%nat)] in
  b_alive (cf_sess cf) = true /\ b_to_client (cf_sess cf) = []
  /\ (th_role <$> cf_threads cf !! 1%nat) = Some Ended
  /\ (th_role <$> cf_threads cf !! 0%nat) = Some ClientPump.
Proof. repeat split; vm_compute; reflexivity. Qed.

(** *** A login *)

Definition sample_sha1 (b : bytes) : bytes := le 20 (unle b).
Definition sample_hmac (k b : bytes) : bytes := le 20 (unle k + unle b + 1).
Definition sample_key : bytes := replicate 40 3.

Definition sample_login : bridge_auth := res_get (BridgeAuth 0 0 [] 0 [] 0 0 0 [] [] []) (parse_bridge_auth sample_auth).

Definition sample_challenge : bytes := le 4 1 ++ [9; 8; 7; 6] ++ replicate 32 0.

Definition sample_verdict : list packet := [(SMSG_ADDON_INFO, [1; 2; 3]); (SMSG_AUTH_RESPONSE, [AUTH_OK; 0])].

Definition login_out : bytes :=
  res_get [] (build_bridge_auth sample_login 12340 1
    (auth_digest sample_sha1 (ba_account sample_login) (ba_clientSeed sample_login) (slice 4 8 sample_challenge) sample_key)).

Definition login_wire : bytes := res_get [] (snd <$> frame_c2s CMSG_AUTH_SESSION sample_auth None).

Definition login_core : bytes :=
  snd (frame_pkt None SMSG_AUTH_CHALLENGE sample_challenge)
  ++ concat (snd (send_each (Some (fst (bridge_crypt sample_hmac sample_key))) sample_verdict)) ++ [].

Definition login_session : bsession := new_bridge_session [] (stream (login_wire ++ [])) (stream login_core) [] [] [].

Lemma handshake_connects_witness :
  exists s', exec (handshake sample_cfg sample_sha1 sample_hmac (fun _ _ => Ok 1) (Ok ()) sample_key) login_session = (s', Ok ())
    /\ b_account s' = ba_account sample_login
    /\ map sn_packet (b_to_core s') = map sn_packet (b_to_core login_session) ++ [(CMSG_AUTH_SESSION, login_out)]
    /\ b_to_client s' = b_to_client login_session
         ++ written Originated (SMSG_AUTH_CHALLENGE, le 4 1 ++ CLIENT_AUTH_SEED ++ BRIDGE_CHALLENGE_TAIL)
         :: map (written Forwarded) sample_verdict
    /\ b_s2c s' = fst (send_each (Some (fst (bridge_crypt sample_hmac sample_key))) sample_verdict)
    /\ b_c2s s' = Some (snd (bridge_crypt sample_hmac sample_key))
    /\ rx_bytes (b_client_in s') = [] /\ rx_bytes (b_core_in s') = [].
Proof.
  simple apply (handshake_connects sample_cfg sample_sha1 sample_hmac (fun _ _ => Ok 1) (Ok ()) sample_key login_session
           sample_auth sample_login sample_challenge [(SMSG_ADDON_INFO, [1; 2; 3])] [0] login_out login_wire [] [] 1).
  all: lazymatch goal with
       | |- rx_bytes (b_core_in _) = _ => vm_compute; reflexivity
       | |- _ = _ => vm_compute; reflexivity
       | |- _ < _ => vm_compute; reflexivity
       | |- (_ < _)%nat => cbn; lia
       | |- frameable _ => split; vm_compute; [split; congruence|reflexivity]
       | |- Forall frameable _ =>
           constructor; [split; vm_compute; [split; congruence|reflexivity]|];
           constructor; [split; vm_compute; [split; congruence|reflexivity]|constructor]
       | |- Forall _ _ => constructor; [discriminate|constructor]
       end.
Defined.
