(* ===== verification/WdbDecode.v ===== *)
(** * Decoders of cache records (cache-consolidator/tools/wdb_decode_*.py)

    One decoder per cache: it reads the payload of a record from the left and
    fills a row, a dict from column to value.  Where the code is a run of
    [d["col"] = c.u32()], the model is the list of columns with their types in
    the order of the wire, and [read_cols] assigns them one after the other.
    A decoder returns the row and the number of bytes it consumed, which the
    callers compare with the size of the record.  [main] of each script is
    modelled from the files found to the text of its table and its counters. *)
From Stdlib Require Import SpecFloat.
From S2P Require Import Prelude Wire PyFloat Text Format Lua Wdb.

(** ** Numbers *)

(** [struct.unpack("<f", b)]: the double of a binary32 pattern. *)
Definition f64_of_bits (w : Z) : f64 :=
  let s := 2 ^ 31 <=? w in
  let e := (w / 2 ^ 23) mod 256 in let m := w mod 2 ^ 23 in
  if e =? 255 then (if m =? 0 then S754_infinity s else S754_nan)
  else
    let m' := if e =? 0 then m else m + 2 ^ 23 in
    let e' := if e =? 0 then -149 else e - 150 in
    match m' with
    | Zpos p => binary_round 53 1024 s p e'
    | _ => S754_zero s
    end.

Definition unpackf (b : bytes) (off : Z) : res f64 := w ← unpackI b off; Ok (f64_of_bits w).

(** [round(v, n)] of a float: the exact value to [n] decimals, ties to even. *)
Definition round_nd (n : Z) (x : f64) : f64 :=
  match x with
  | S754_finite s m e =>
      if 0 <=? e then x
      else
        let t := round_half_even (Zpos m * 10 ^ n) (2 ^ (- e)) in
        if t =? 0 then S754_zero s else f64_dec (if s then - t else t) (- n)
  | _ => x
  end.

(** [round(v)]. *)
Definition round_int (x : f64) : res Z :=
  match x with
  | S754_finite s m e =>
      let t := if 0 <=? e then Zpos m * 2 ^ e else round_half_even (Zpos m) (2 ^ (- e)) in
      Ok (if s then - t else t)
  | S754_zero _ => Ok 0
  | S754_infinity _ => Err OverflowError
  | S754_nan => Err ValueError
  end.

(** ["%.6f"] of a finite number. *)
Definition fmt_f6 (x : f64) : pystr :=
  match x with
  | S754_finite s m e =>
      let t := if 0 <=? e then Zpos m * 10 ^ 6 * 2 ^ e else round_half_even (Zpos m * 10 ^ 6) (2 ^ (- e)) in
      (if s then [45] else []) ++ str_of_Z (t / 10 ^ 6) ++ [46] ++ drop 1 (str_of_Z (10 ^ 6 + t mod 10 ^ 6))
  | S754_zero s => (if s then [45] else []) ++ lit "0.000000"
  | S754_infinity s => (if s then [45] else []) ++ lit "inf"
  | S754_nan => lit "nan"
  end.

(** [s.rstrip(c)]. *)
Fixpoint lstrip_of (c : Z) (s : pystr) : pystr :=
  match s with d :: t => if d =? c then lstrip_of c t else s | [] => [] end.
Definition rstrip_of (c : Z) (s : pystr) : pystr := rev (lstrip_of c (rev s)).

(** [v == int(v)] for a finite number. *)
Definition integral (x : f64) : bool :=
  match x with
  | S754_finite _ m e => (0 <=? e) || (Zpos m mod 2 ^ (- e) =? 0)
  | S754_zero _ => true
  | _ => false
  end.

(** The text of a float for the table. *)
Definition fnum (x : f64) : pystr :=
  match int_of_f64 x with
  | Err _ => lit "0"
  | Ok n => if integral x then str_of_Z n else rstrip_of 46 (rstrip_of 48 (fmt_f6 x))
  end.

(** The creature decoder's: [int(v)] raises on an infinity. *)
Definition fmtf (x : f64) : res pystr :=
  n ← int_of_f64 x;
  Ok (if integral x then fmt_f1 x else float_repr (round_nd 6 x)).

(** ** The cursor *)

Definition sanitize (s : pystr) : pystr :=
  map (fun c => if (c =? 9) || (c =? 13) || (c =? 10) then 32 else if c =? 92 then 47 else c) s.

(** A method of [Cur]: the buffer and the offset, the value and the next
    offset. *)
Abbreviation cursor A := (bytes -> Z -> res (A * Z)) (only parsing).

Definition cur_u32 : cursor Z := fun b o => v ← unpackI b o; Ok (v, o + 4).
Definition cur_i32 : cursor Z := fun b o => v ← unpacki b o; Ok (v, o + 4).
Definition cur_f32 : cursor f64 := fun b o => v ← unpackf b o; Ok (v, o + 4).
Definition cur_u8 : cursor Z := fun b o => v ← index b o; Ok (v, o + 1).

(** Up to the NUL, or to the end of the buffer. *)
Definition cur_cstr : cursor pystr := fun b o =>
  let e := match find_byte 0 (slice_from o b) with Some k => o + Z.of_nat k | None => pylen b end in
  Ok (decode_str (slice o e b), e + 1).

(** ** Rows *)

Inductive cell := CInt (n : Z) | CText (s : pystr) | CFloat (x : f64).

Definition cell_text (v : cell) : pystr :=
  match v with CInt n => str_of_Z n | CText s => s | CFloat x => float_repr x end.

Abbreviation wdb_row := (list (pystr * cell)) (only parsing).

(** [{k: 0 for k in COLS}], then empty text for the text columns. *)
Definition blank_row (cols textcols : list pystr) : wdb_row :=
  foldl (fun d k => dset k (CText []) d) (map (fun k => (k, CInt 0)) cols) textcols.

(** How a field is read and what is stored. *)
Inductive fkind := KU32 | KI32 | KU8 | KText | KNum | KFmt | KRound (n : Z) | KSkipText.

(** A field of the wire with its column; a skipped one has none. *)
Abbreviation field := (pystr * fkind)%type (only parsing).

Definition read_field (k : fkind) : cursor (option cell) := fun b o =>
  match k with
  | KU32 => '(v, o) ← cur_u32 b o; Ok (Some (CInt v), o)
  | KI32 => '(v, o) ← cur_i32 b o; Ok (Some (CInt v), o)
  | KU8 => '(v, o) ← cur_u8 b o; Ok (Some (CInt v), o)
  | KText => '(s, o) ← cur_cstr b o; Ok (Some (CText (sanitize s)), o)
  | KNum => '(x, o) ← cur_f32 b o; Ok (Some (CText (fnum x)), o)
  | KFmt => '(x, o) ← cur_f32 b o; t ← fmtf x; Ok (Some (CText t), o)
  | KRound n => '(x, o) ← cur_f32 b o; Ok (Some (CFloat (round_nd n x)), o)
  | KSkipText => '(_, o) ← cur_cstr b o; Ok (None, o)
  end.

Definition set_cell (col : pystr) (v : option cell) (d : wdb_row) : wdb_row :=
  match v with Some v => dset col v d | None => d end.

Fixpoint read_cols (l : list field) (d : wdb_row) : cursor wdb_row := fun b o =>
  match l with
  | [] => Ok (d, o)
  | (col, k) :: l => '(v, o) ← read_field k b o; read_cols l (set_cell col v d) b o
  end.

(** [f"{name}{i}"] for a range of numbers. *)
Definition numbered (name : string) (i : Z) : pystr := lit name ++ str_of_Z i.
Definition each (lo n : nat) (f : Z -> list field) : list field := concat (map (fun i => f (Z.of_nat i)) (seq lo n)).
Definition u32s (names : list string) : list field := map (fun n => (lit n, KU32)) names.
Definition skip : field := ([], KSkipText).

(** ** Creatures *)

Definition creature_fields : list field :=
  [(lit "name", KText); skip; skip; skip; (lit "subname", KText); (lit "IconName", KText)]
  ++ u32s ["type_flags"; "type"; "family"; "rank"; "KillCredit1"; "KillCredit2";
           "modelid1"; "modelid2"; "modelid3"; "modelid4"]%string
  ++ [(lit "HealthModifier", KFmt); (lit "ManaModifier", KFmt); (lit "RacialLeader", KU8)]
  ++ each 1 6 (fun i => [(numbered "questItem" i, KU32)])
  ++ [(lit "movementId", KU32)].

Definition CREATURE_COLS : list pystr :=
  map lit ["entry"; "name"; "subname"; "IconName"; "type_flags"; "type"; "family"; "rank"; "KillCredit1"; "KillCredit2";
           "modelid1"; "modelid2"; "modelid3"; "modelid4"; "HealthModifier"; "ManaModifier"; "RacialLeader";
           "movementId"]%string
  ++ map (fun i => numbered "questItem" (Z.of_nat i)) (seq 1 6).

Definition decode_creature (entry : Z) (payload : bytes) : res (wdb_row * Z) :=
  read_cols creature_fields (dset (lit "entry") (CInt entry) (blank_row CREATURE_COLS [])) payload 0.

(** ** Game objects *)

Definition TAIL_QUESTITEMS : nat := 6.
Definition DATA_N : nat := 24.

Definition go_fields : list field :=
  [(lit "type", KU32); (lit "displayId", KU32); (lit "name", KText); skip; skip; skip;
   (lit "IconName", KText); (lit "castBarCaption", KText); (lit "unk1", KText)]
  ++ each 0 DATA_N (fun i => [(numbered "Data" i, KU32)])
  ++ [(lit "size", KNum)]
  ++ each 1 TAIL_QUESTITEMS (fun i => [(numbered "questItem" i, KU32)]).

Definition GO_COLS : list pystr :=
  map lit ["entry"; "type"; "displayId"; "name"; "IconName"; "castBarCaption"; "unk1"; "size"]%string
  ++ map (fun i => numbered "Data" (Z.of_nat i)) (seq 0 DATA_N)
  ++ map (fun i => numbered "questItem" (Z.of_nat i)) (seq 1 TAIL_QUESTITEMS).

(** With the tail the callers pass, the default. *)
Definition decode_go (entry : Z) (payload : bytes) : res (wdb_row * Z) :=
  read_cols go_fields (dset (lit "entry") (CInt entry) (blank_row GO_COLS [])) payload 0.

(** ** Items *)

Definition ITEM_TEXTCOLS : list pystr := [lit "name"; lit "description"].

Definition item_head : list field :=
  [(lit "class", KU32); (lit "subclass", KU32); (lit "SoundOverrideSubclass", KI32); (lit "name", KText); skip; skip; skip]
  ++ u32s ["displayid"; "Quality"; "Flags"; "FlagsExtra"]%string
  ++ [(lit "BuyPrice", KI32); (lit "SellPrice", KU32); (lit "InventoryType", KU32); (lit "AllowableClass", KI32);
      (lit "AllowableRace", KI32)]
  ++ u32s ["ItemLevel"; "RequiredLevel"; "RequiredSkill"; "RequiredSkillRank"; "requiredspell"; "requiredhonorrank";
           "RequiredCityRank"; "RequiredReputationFaction"; "RequiredReputationRank"]%string
  ++ [(lit "maxcount", KI32); (lit "stackable", KI32); (lit "ContainerSlots", KU32)].

(** [for i in range(sc)]: a pair for every stat the record announces, of which
    the first ten have columns.  Each round reads eight bytes, so rounds beyond
    the length of the payload are never reached. *)
Fixpoint read_stats (fuel : nat) (i sc : Z) (d : wdb_row) : cursor wdb_row := fun b o =>
  if i <? sc then
    match fuel with
    | O => Err OutOfFuel
    | S fuel =>
        '(t, o) ← cur_u32 b o;
        '(v, o) ← cur_i32 b o;
        read_stats fuel (i + 1) sc
          (if i <? 10 then dset (numbered "stat_value" (i + 1)) (CInt v) (dset (numbered "stat_type" (i + 1)) (CInt t) d)
           else d) b o
    end
  else Ok (d, o).

Definition item_resistances : list string :=
  ["holy_res"; "fire_res"; "nature_res"; "frost_res"; "shadow_res"; "arcane_res"]%string.

Definition item_body : list field :=
  [(lit "armor", KI32)] ++ map (fun n => (lit n, KI32)) item_resistances
  ++ [(lit "delay", KU32); (lit "ammo_type", KU32); (lit "RangedModRange", KNum)]
  ++ each 1 5 (fun i => [(numbered "spellid_" i, KI32); (numbered "spelltrigger_" i, KU32);
                         (numbered "spellcharges_" i, KI32); (numbered "spellcooldown_" i, KI32);
                         (numbered "spellcategory_" i, KU32); (numbered "spellcategorycooldown_" i, KI32)])
  ++ [(lit "bonding", KU32); (lit "description", KText)]
  ++ u32s ["PageText"; "LanguageID"; "PageMaterial"; "startquest"; "lockid"]%string
  ++ [(lit "Material", KI32)]
  ++ u32s ["sheath"; "RandomProperty"; "RandomSuffix"; "block"; "itemset"; "MaxDurability"; "area"; "Map"; "BagFamily";
           "TotemCategory"]%string
  ++ each 1 3 (fun i => [(numbered "socketColor_" i, KU32); (numbered "socketContent_" i, KU32)])
  ++ [(lit "socketBonus", KU32); (lit "GemProperties", KU32); (lit "RequiredDisenchantSkill", KI32);
      (lit "ArmorDamageModifier", KNum); (lit "duration", KU32); (lit "ItemLimitCategory", KI32); (lit "HolidayId", KU32)].

Definition ITEM_COLS : list pystr :=
  map lit ["entry"; "class"; "subclass"; "SoundOverrideSubclass"; "name"; "displayid"; "Quality"; "Flags"; "FlagsExtra";
           "BuyPrice"; "SellPrice"; "InventoryType"; "AllowableClass"; "AllowableRace"; "ItemLevel"; "RequiredLevel";
           "RequiredSkill"; "RequiredSkillRank"; "requiredspell"; "requiredhonorrank"; "RequiredCityRank";
           "RequiredReputationFaction"; "RequiredReputationRank"; "maxcount"; "stackable"; "ContainerSlots";
           "StatsCount"]%string
  ++ map fst (each 1 10 (fun i => [(numbered "stat_type" i, KU32); (numbered "stat_value" i, KI32)]))
  ++ map lit ["ScalingStatDistribution"; "ScalingStatValue"; "dmg_min1"; "dmg_max1"; "dmg_type1"; "dmg_min2"; "dmg_max2";
              "dmg_type2"; "armor"; "holy_res"; "fire_res"; "nature_res"; "frost_res"; "shadow_res"; "arcane_res"; "delay";
              "ammo_type"; "RangedModRange"]%string
  ++ map fst (each 1 5 (fun i => [(numbered "spellid_" i, KI32); (numbered "spelltrigger_" i, KU32);
                         (numbered "spellcharges_" i, KI32); (numbered "spellcooldown_" i, KI32);
                         (numbered "spellcategory_" i, KU32); (numbered "spellcategorycooldown_" i, KI32)]))
  ++ map lit ["bonding"; "description"; "PageText"; "LanguageID"; "PageMaterial"; "startquest"; "lockid"; "Material";
              "sheath"; "RandomProperty"; "RandomSuffix"; "block"; "itemset"; "MaxDurability"; "area"; "Map"; "BagFamily";
              "TotemCategory"]%string
  ++ map fst (each 1 3 (fun i => [(numbered "socketColor_" i, KU32); (numbered "socketContent_" i, KU32)]))
  ++ map lit ["socketBonus"; "GemProperties"; "RequiredDisenchantSkill"; "ArmorDamageModifier"; "duration";
              "ItemLimitCategory"; "HolidayId"]%string.

(** [round(dmg[0][0])] to [dmg[1][2]]. *)
Definition damage_row (d : wdb_row) (mn1 mx1 : f64) (ty1 : Z) (mn2 mx2 : f64) (ty2 : Z) : res wdb_row :=
  a1 ← round_int mn1; z1 ← round_int mx1; a2 ← round_int mn2; z2 ← round_int mx2;
  Ok (foldl (fun d kv => dset (lit (fst kv)) (CInt (snd kv)) d) d
        [("dmg_min1", a1); ("dmg_max1", z1); ("dmg_type1", ty1); ("dmg_min2", a2); ("dmg_max2", z2); ("dmg_type2", ty2)]%string).

(** Both damage lines are read before their bounds are rounded. *)
Definition read_damage (d : wdb_row) : cursor wdb_row := fun b o =>
  '(mn1, o) ← cur_f32 b o; '(mx1, o) ← cur_f32 b o; '(ty1, o) ← cur_u32 b o;
  '(mn2, o) ← cur_f32 b o; '(mx2, o) ← cur_f32 b o; '(ty2, o) ← cur_u32 b o;
  d ← damage_row d mn1 mx1 ty1 mn2 mx2 ty2; Ok (d, o).

Definition decode_item (entry : Z) (payload : bytes) : res (wdb_row * Z) :=
  let d := dset (lit "entry") (CInt entry) (blank_row ITEM_COLS ITEM_TEXTCOLS) in
  '(d, o) ← read_cols item_head d payload 0;
  '(sc, o) ← cur_u32 payload o;
  '(d, o) ← read_stats (length payload) 0 sc (dset (lit "StatsCount") (CInt sc) d) payload o;
  '(d, o) ← read_cols (u32s ["ScalingStatDistribution"; "ScalingStatValue"]%string) d payload o;
  '(d, o) ← read_damage d payload o;
  read_cols item_body d payload o.

(** ** Quests *)

Definition QUEST_TEXTCOLS : list pystr :=
  map lit ["Title"; "Objectives"; "Details"; "EndText"; "CompletedText"; "ObjectiveText1"; "ObjectiveText2";
           "ObjectiveText3"; "ObjectiveText4"]%string.

(** Behind the repeated quest id. *)
Definition quest_head : list field :=
  [(lit "Method", KU32); (lit "QuestLevel", KI32); (lit "MinLevel", KU32); (lit "ZoneOrSort", KI32)]
  ++ u32s ["Type"; "SuggestedPlayers"; "RepObjectiveFaction"; "RepObjectiveValue"; "RepObjectiveFaction2";
           "RepObjectiveValue2"; "NextQuestInChain"; "RewXPId"]%string
  ++ [(lit "RewOrReqMoney", KI32); (lit "RewMoneyMaxLevel", KU32); (lit "RewSpell", KU32); (lit "RewSpellCast", KI32);
      (lit "RewHonor", KU32); (lit "RewHonorMultiplier", KNum)]
  ++ u32s ["SrcItemId"; "Flags"; "RewTitleId"; "RequiredPlayerKills"; "RewTalents"; "RewArenaPoints"; "RewRepMask"]%string
  ++ each 1 4 (fun i => [(numbered "RewardItem" i, KU32); (numbered "RewardAmount" i, KU32)])
  ++ each 1 6 (fun i => [(numbered "RewardChoiceItemId" i, KU32); (numbered "RewardChoiceItemCount" i, KU32)])
  ++ each 1 5 (fun i => [(numbered "RewardFactionId" i, KU32)])
  ++ each 1 5 (fun i => [(numbered "RewardFactionValueId" i, KI32)])
  ++ each 1 5 (fun i => [(numbered "RewardFactionValueIdOverride" i, KU32)])
  ++ [(lit "PointMapId", KU32); (lit "PointX", KNum); (lit "PointY", KNum); (lit "PointOpt", KU32)].

Definition quest_texts : list field :=
  map (fun n => (lit n, KText)) ["Title"; "Objectives"; "Details"; "EndText"; "CompletedText"]%string.

(** The four objectives, each with its npc and its item together. *)
Definition quest_objectives : list field :=
  each 1 4 (fun i => [(numbered "RequiredNpcOrGo" i, KI32); (numbered "RequiredNpcOrGoCount" i, KU32);
                      (numbered "RequiredSourceItemId" i, KU32); (numbered "RequiredSourceItemCount" i, KU32)])
  ++ each 1 6 (fun i => [(numbered "RequiredItemId" i, KU32); (numbered "RequiredItemCount" i, KU32)]).

Definition quest_fields : list field :=
  quest_head ++ quest_texts ++ quest_objectives ++ each 1 4 (fun i => [(numbered "ObjectiveText" i, KText)]).

Definition QUEST_COLS : list pystr :=
  map lit ["entry"; "Method"; "QuestLevel"; "MinLevel"; "ZoneOrSort"; "Type"; "SuggestedPlayers"; "RepObjectiveFaction";
           "RepObjectiveValue"; "RepObjectiveFaction2"; "RepObjectiveValue2"; "NextQuestInChain"; "RewXPId";
           "RewOrReqMoney"; "RewMoneyMaxLevel"; "RewSpell"; "RewSpellCast"; "RewHonor"; "RewHonorMultiplier"; "SrcItemId";
           "Flags"; "RewTitleId"; "RequiredPlayerKills"; "RewTalents"; "RewArenaPoints"; "RewRepMask"]%string
  ++ map fst (each 1 4 (fun i => [(numbered "RewardItem" i, KU32); (numbered "RewardAmount" i, KU32)]))
  ++ map fst (each 1 6 (fun i => [(numbered "RewardChoiceItemId" i, KU32); (numbered "RewardChoiceItemCount" i, KU32)]))
  ++ map (fun i => numbered "RewardFactionId" (Z.of_nat i)) (seq 1 5)
  ++ map (fun i => numbered "RewardFactionValueId" (Z.of_nat i)) (seq 1 5)
  ++ map (fun i => numbered "RewardFactionValueIdOverride" (Z.of_nat i)) (seq 1 5)
  ++ map lit ["PointMapId"; "PointX"; "PointY"; "PointOpt"; "Title"; "Objectives"; "Details"; "EndText";
              "CompletedText"]%string
  ++ map fst (each 1 4 (fun i => [(numbered "RequiredNpcOrGo" i, KI32); (numbered "RequiredNpcOrGoCount" i, KU32)]))
  ++ map fst (each 1 4 (fun i => [(numbered "RequiredSourceItemId" i, KU32); (numbered "RequiredSourceItemCount" i, KU32)]))
  ++ map fst (each 1 6 (fun i => [(numbered "RequiredItemId" i, KU32); (numbered "RequiredItemCount" i, KU32)]))
  ++ map (fun i => numbered "ObjectiveText" (Z.of_nat i)) (seq 1 4).

(** Row, bytes consumed, and the id the payload repeats. *)
Definition decode_quest (entry : Z) (payload : bytes) : res (wdb_row * Z * Z) :=
  let d := dset (lit "entry") (CInt entry) (blank_row QUEST_COLS QUEST_TEXTCOLS) in
  '(quest_id, o) ← cur_u32 payload 0;
  '(d, o) ← read_cols quest_fields d payload o;
  Ok (d, o, quest_id).

(** ** Gossip *)

Definition NBLOCK : nat := 8.
Definition NEMOTE : nat := 3.

Record npc_block := NpcBlock { nb_prob : f64; nb_t0 : pystr; nb_t1 : pystr; nb_lang : Z; nb_emotes : list (Z * Z) }.

(** [[f(c) for _ in range(n)]]. *)
Fixpoint cur_times {A} (n : nat) (f : cursor A) : cursor (list A) := fun b o =>
  match n with
  | O => Ok ([], o)
  | S n => '(x, o) ← f b o; '(l, o) ← cur_times n f b o; Ok (x :: l, o)
  end.

Definition cur_emote : cursor (Z * Z) := fun b o => '(d, o) ← cur_u32 b o; '(e, o) ← cur_u32 b o; Ok ((d, e), o).

Definition cur_block : cursor npc_block := fun b o =>
  '(prob, o) ← cur_f32 b o; '(t0, o) ← cur_cstr b o; '(t1, o) ← cur_cstr b o; '(lang, o) ← cur_u32 b o;
  '(emotes, o) ← cur_times NEMOTE cur_emote b o;
  Ok (NpcBlock prob (sanitize t0) (sanitize t1) lang emotes, o).

Definition text_col (b k : nat) : pystr := lit "text" ++ str_of_Z (Z.of_nat b) ++ lit "_" ++ str_of_Z (Z.of_nat k).

Definition NPCTEXT_COLS : list pystr :=
  map lit ["entry"; "prob0"; "lang0"]%string ++ map (fun b => text_col b 0) (seq 0 NBLOCK) ++ [text_col 0 1].

(** wdb_decode_npctext.py: the first block, and the first text of each. *)
Definition decode_npctext (entry : Z) (payload : bytes) : res (wdb_row * Z) :=
  '(blocks, o) ← cur_times NBLOCK cur_block payload 0;
  match blocks with
  | [] => Err IndexError
  | b0 :: _ =>
      Ok ([(lit "entry", CInt entry); (lit "prob0", CFloat (round_nd 4 (nb_prob b0))); (lit "lang0", CInt (nb_lang b0))]
          ++ imap (fun i bl => (text_col i 0, CText (nb_t0 bl))) blocks
          ++ [(text_col 0 1, CText (nb_t1 b0))], o)
  end.

Definition emote_col (b k : nat) : pystr := lit "em" ++ str_of_Z (Z.of_nat b) ++ lit "_" ++ str_of_Z (Z.of_nat k).

Definition block_fields (b : nat) : list field :=
  [(numbered "Probability" (Z.of_nat b), KRound 6); (text_col b 0, KText); (text_col b 1, KText);
   (numbered "lang" (Z.of_nat b), KU32)]
  ++ map (fun k => (emote_col b k, KU32)) (seq 0 (2 * NEMOTE)).

Definition NPCTEXT_FULL_COLS : list pystr :=
  lit "entry" :: concat (map (fun b =>
    [text_col b 0; text_col b 1; numbered "BroadcastTextID" (Z.of_nat b); numbered "lang" (Z.of_nat b);
     numbered "Probability" (Z.of_nat b)] ++ map (emote_col b) (seq 0 (2 * NEMOTE))) (seq 0 NBLOCK)).

Fixpoint read_blocks (bs : list nat) (d : wdb_row) : cursor wdb_row := fun b o =>
  match bs with
  | [] => Ok (d, o)
  | n :: bs =>
      '(d, o) ← read_cols (block_fields n) d b o;
      read_blocks bs (dset (numbered "BroadcastTextID" (Z.of_nat n)) (CInt 0) d) b o
  end.

(** wdb_decode_npctext_full.py: all eight blocks. *)
Definition decode_npctext_full (entry : Z) (payload : bytes) : res (wdb_row * Z) :=
  read_blocks (seq 0 NBLOCK) [(lit "entry", CInt entry)] payload 0.

(** ** Pages and item names *)

Definition PAGETEXT_COLS : list pystr := map lit ["entry"; "NextPageId"; "Text"]%string.

Definition decode_pagetext (entry : Z) (payload : bytes) : res (wdb_row * Z) :=
  read_cols [(lit "Text", KText); (lit "NextPageId", KU32)] [(lit "entry", CInt entry)] payload 0.

Definition ITEMNAME_COLS : list pystr := map lit ["entry"; "name"; "InventoryType"]%string.

(** Of export.py: backslashes stay. *)
Definition decode_itemname (entry : Z) (payload : bytes) : res (wdb_row * Z) :=
  match find_byte 0 payload with
  | None => Ok ([(lit "entry", CInt entry); (lit "name", CText []); (lit "InventoryType", CInt 0)], 0)
  | Some z =>
      let z := Z.of_nat z in
      inv ← (if z + 5 <=? pylen payload then unpackI payload (z + 1) else Ok 0);
      let name := map (fun c => if (c =? 9) || (c =? 13) || (c =? 10) then 32 else c) (decode_str (slice_to z payload)) in
      Ok ([(lit "entry", CInt entry); (lit "name", CText name); (lit "InventoryType", CInt inv)], z + 5)
  end.

(** ** The scripts *)

(** Records whose size is what was consumed, is more, is less, and those that
    could not be decoded where they are counted apart. *)
Record tally := Tally { ta_exact : Z; ta_leftover : Z; ta_overrun : Z; ta_err : Z }.

Definition count_record (size : Z) (r : res Z) (err_apart : bool) (t : tally) : tally :=
  match r with
  | Ok consumed =>
      if consumed =? size then Tally (ta_exact t + 1) (ta_leftover t) (ta_overrun t) (ta_err t)
      else if consumed <? size then Tally (ta_exact t) (ta_leftover t + 1) (ta_overrun t) (ta_err t)
      else Tally (ta_exact t) (ta_leftover t) (ta_overrun t + 1) (ta_err t)
  | Err _ =>
      if err_apart then Tally (ta_exact t) (ta_leftover t) (ta_overrun t) (ta_err t + 1)
      else Tally (ta_exact t) (ta_leftover t) (ta_overrun t + 1) (ta_err t)
  end.

(** entry -> row: the first snapshot wins. *)
Abbreviation wdb_union := (list (Z * wdb_row)) (only parsing).

Section Script.
Context (decode : Z -> bytes -> res (wdb_row * Z)) (err_apart : bool) (cols : list pystr).
(** Which files of the cache are read. *)
Context (readable : pystr -> bytes -> res bool).

Definition union_record (acc : wdb_union * tally) (r : Z * Z * bytes) : wdb_union * tally :=
  let '(entry, size, payload) := r in
  let d := decode entry payload in
  (match d with
   | Ok (row, _) => if dmem entry (fst acc) then fst acc else dset entry row (fst acc)
   | Err _ => fst acc
   end, count_record size (snd <$> d) err_apart (snd acc)).

Definition union_file (acc : wdb_union * tally) (file : pystr * bytes) : res (wdb_union * tally) :=
  go ← readable (fst file) (snd file);
  if (go : bool) then recs ← iter_records (snd file) HEADER_LEN; Ok (foldl union_record acc recs) else Ok acc.

Definition row_line (row : wdb_row) : res pystr :=
  cells ← res_map (fun c => cell_text <$> res_of_option KeyError (dget c row)) cols; Ok (join [9] cells ++ [10]).

Definition union_tsv (u : wdb_union) : res bytes :=
  rows ← res_map (fun e => res_of_option KeyError (dget e u)) (sort_Z (dkeys u));
  lines ← res_map row_line rows;
  utf8_encode (join [9] cols ++ [10] ++ concat lines).

(** The files in the order of the walk, without repetitions. *)
Definition decode_main (files : list (pystr * bytes)) : res (bytes * tally) :=
  '(u, t) ← res_fold union_file ([], Tally 0 0 0 0) files; text ← union_tsv u; Ok (text, t).
End Script.

Definition any_file (_ : pystr) (_ : bytes) : res bool := Ok true.
Definition standard_file (path : pystr) (b : bytes) : res bool := wi_standard <$> inspect path b.
Definition filled_file (path : pystr) (b : bytes) : res bool :=
  i ← inspect path b; Ok (wi_standard i && negb (wi_records i =? 0)).
(** More than a header. *)
Definition long_file (_ : pystr) (b : bytes) : res bool := Ok (HEADER_LEN <? pylen b).

Definition creature_main := decode_main decode_creature true CREATURE_COLS standard_file.
Definition go_main := decode_main decode_go false GO_COLS filled_file.
Definition item_main := decode_main decode_item false ITEM_COLS any_file.
Definition quest_main :=
  decode_main (fun e p => '(d, o, _) ← decode_quest e p; Ok (d, o)) false QUEST_COLS standard_file.
Definition npctext_main := decode_main decode_npctext false NPCTEXT_COLS any_file.
Definition npctext_full_main := decode_main decode_npctext_full false NPCTEXT_FULL_COLS long_file.
Definition pagetext_main := decode_main decode_pagetext false PAGETEXT_COLS any_file.
