(* ===== verification/WdbDecodeSpec.v ===== *)
(** * What the decoders accept

    A format says which bytes are a wire form of which value; [reads] ties a
    cursor to a format, and is proved once for every primitive and for
    sequencing.  Each decoder then consumes exactly its payload if and only if
    the payload has the format of its layout. *)
From S2P Require Import Prelude Wire PyFloat Text Format Wdb WdbDecode.

(** ** Formats *)

Definition format (A : Type) : Type := bytes -> A -> Prop.

Definition u32_fmt : format Z := fun s v => 0 <= v < 2 ^ 32 /\ s = le 4 v.
Definition i32_fmt : format Z := fun s v => - 2 ^ 31 <= v < 2 ^ 31 /\ s = le 4 v.
Definition f32_fmt : format f64 := fun s x => exists w, 0 <= w < 2 ^ 32 /\ s = le 4 w /\ x = f64_of_bits w.
Definition u8_fmt : format Z := fun s v => is_byte v /\ s = [v].
Definition cstr_fmt : format pystr := fun s t => exists r, 0 ∉ r /\ s = r ++ [0] /\ t = decode_str r.

Definition ret_fmt {A} (r : res A) : format A := fun s x => s = [] /\ r = Ok x.
Definition seq_fmt {A B} (F : format A) (G : A -> format B) : format B :=
  fun s y => exists s1 s2 x, s = s1 ++ s2 /\ F s1 x /\ G x s2 y.

(** Whatever stands in the format is read, wherever it stands. *)
Definition accepts {A} (p : bytes -> Z -> res (A * Z)) (F : format A) : Prop :=
  forall pre s post x, F s x -> p (pre ++ s ++ post) (pylen pre) = Ok (x, pylen pre + pylen s).

(** What is read and ends inside the buffer stood there in the format. *)
Definition sound_for {A} (p : bytes -> Z -> res (A * Z)) (F : format A) : Prop :=
  forall b o x o', is_bytes b -> 0 <= o <= pylen b + 1 -> p b o = Ok (x, o') ->
    o <= o' <= pylen b + 1
    /\ (o' <= pylen b -> exists pre s post, b = pre ++ s ++ post /\ pylen pre = o /\ o' = o + pylen s /\ F s x).

Definition reads {A} (p : bytes -> Z -> res (A * Z)) (F : format A) : Prop := accepts p F /\ sound_for p F.

Lemma split_read (b : bytes) o n : 0 <= o -> o + Z.of_nat n <= pylen b ->
  exists pre s post, b = pre ++ s ++ post /\ pylen pre = o /\ length s = n /\ slice o (o + Z.of_nat n) b = s.
Proof.
  intros Ho Hl. destruct (split_at_len b (Z.to_nat o)) as (pre & r & -> & Hpre); [lia|].
  rewrite pylen_app in Hl. assert (pylen pre = o) as Hp by (unfold pylen; lia).
  destruct (split_at_len r n) as (s & post & -> & Hs); [lia|]. exists pre, s, post. split_and!; [done..|].
  apply slice_app_mid; unfold pylen in *; lia.
Qed.

Lemma unpack_u_split n (b : bytes) o v : is_bytes b -> unpack_u n b o = Ok v ->
  exists pre s post, b = pre ++ s ++ post /\ pylen pre = o /\ s = le n v /\ 0 <= v < 256 ^ Z.of_nat n
    /\ 0 <= o /\ o + Z.of_nat n <= pylen b.
Proof.
  intros Hb H. unfold unpack_u in H. destruct (_ && _) eqn:E; [|done]. zbool. apply Ok_inj in H.
  destruct (split_read b o n) as (pre & s & post & -> & Hp & Hs & Hsl); [lia..|]. rewrite Hsl in H. subst v.
  apply is_bytes_app in Hb as [_ Hb]. apply is_bytes_app in Hb as [Hb _]. exists pre, s, post.
  split_and!; [done..| |by apply unle_bound| |lia|lia]; [|].
  - rewrite <- Hs. by rewrite le_unle.
  - pose proof (unle_bound s Hb). unfold pylen in *. rewrite Hs in *. lia.
Qed.

(** ** The primitives *)

Lemma reads_u32 : reads cur_u32 u32_fmt.
Proof.
  split.
  - intros pre s post x [Hx ->]. unfold cur_u32, unpackI. rewrite unpack_u_app by done. cbn [mbind res_bind].
    by rewrite pylen_le.
  - intros b o x o' Hb Ho H. unfold cur_u32 in H. inv_bind H. apply Ok_inj in H. injection H as -> <-.
    destruct (unpack_u_split _ _ _ _ Hb E) as (pre & s & post & -> & Hp & -> & Hv & _ & Hl).
    split; [lia|]. intros _. exists pre, (le 4 x), post. rewrite pylen_le. by split_and!.
Qed.

(** A cursor that maps what another reads. *)
Lemma reads_map {A B} (p : bytes -> Z -> res (A * Z)) F (f : A -> B) (q : bytes -> Z -> res (B * Z)) G :
  reads p F -> (forall b o, q b o = ('(x, o) ← p b o; Ok (f x, o))) ->
  (forall s y, G s y <-> exists x, F s x /\ y = f x) -> reads q G.
Proof.
  intros [H1 H2] Hq HG. split.
  - intros pre s post y (x & Hx & ->)%HG. rewrite Hq, (H1 _ _ _ _ Hx). done.
  - intros b o y o' Hb Ho. rewrite Hq. intros H. inv_bind H. destruct v as [x o1]. apply Ok_inj in H. injection H as <- <-.
    destruct (H2 _ _ _ _ Hb Ho E) as [? Hw]. split; [done|]. intros Hl. destruct (Hw Hl) as (pre & s & post & ? & ? & ? & Hs).
    exists pre, s, post. split_and!; [done..|]. apply HG. eauto.
Qed.

Lemma reads_i32 : reads cur_i32 i32_fmt.
Proof.
  apply (reads_map cur_u32 u32_fmt (fun v => if v <? 2 ^ 31 then v else v - 2 ^ 32)); [exact reads_u32| |].
  - intros b o. unfold cur_i32, unpacki, cur_u32. by destruct (unpackI b o).
  - intros s y. unfold i32_fmt, u32_fmt. split.
    + intros [Hy ->]. exists (y mod 2 ^ 32). split_and!.
      * by apply Z.mod_pos_bound.
      * apply Z.mod_pos_bound; lia.
      * symmetry. apply (le_mod 4).
      * destruct (Z.ltb_spec y 0).
        -- rewrite <- (Z.mod_add y 1), Z.mod_small by lia. rewrite (proj2 (Z.ltb_ge _ _)) by lia. lia.
        -- rewrite Z.mod_small by lia. by rewrite (proj2 (Z.ltb_lt _ _)) by lia.
    + intros (x & [Hx ->] & ->). destruct (Z.ltb_spec x (2 ^ 31)); (split; [lia|]); [done|].
      rewrite <- (le_mod 4 (x - 2 ^ 32)). change (256 ^ Z.of_nat 4) with (2 ^ 32).
      replace (x - 2 ^ 32) with (x + (-1) * 2 ^ 32) by lia. by rewrite Z.mod_add, Z.mod_small by lia.
Qed.

Lemma reads_f32 : reads cur_f32 f32_fmt.
Proof.
  apply (reads_map cur_u32 u32_fmt f64_of_bits); [exact reads_u32| |].
  - intros b o. unfold cur_f32, unpackf, cur_u32. by destruct (unpackI b o).
  - intros s y. unfold f32_fmt, u32_fmt. naive_solver.
Qed.

Lemma reads_u8 : reads cur_u8 u8_fmt.
Proof.
  split.
  - intros pre s post x [Hx ->]. unfold cur_u8, index. pose proof (pylen_nonneg pre).
    rewrite (proj2 (Z.ltb_ge _ _)) by done. unfold pylen. rewrite Nat2Z.id, lookup_app_r, Nat.sub_diag by lia. done.
  - intros b o x o' Hb Ho H. unfold cur_u8, index in H. destruct (o <? 0) eqn:E; [done|]. zbool.
    destruct (b !! Z.to_nat o) as [y|] eqn:El; [|done]. apply Ok_inj in H. injection H as -> <-.
    apply list_elem_of_split_length in El as Hs. destruct Hs as (pre & post & -> & Hlen).
    assert (pylen pre = o) as Hp by (unfold pylen; lia). autorewrite with pylen.
    pose proof (pylen_nonneg post). split; [lia|]. intros _. exists pre, [x], post. split_and!; try done.
    split; [|done]. rewrite is_bytes_app in Hb. destruct Hb as [_ Hb]. by inversion Hb.
Qed.

Lemma reads_cstr : reads cur_cstr cstr_fmt.
Proof.
  split.
  - intros pre s post x (r & Hr & -> & ->). unfold cur_cstr. rewrite slice_from_app by done.
    rewrite <- app_assoc. cbn [app]. rewrite find_byte_app by done.
    rewrite slice_app_mid; [|done|unfold pylen; lia]. autorewrite with pylen. cbn. do 2 f_equal. unfold pylen. lia.
  - intros b o x o' Hb Ho H. unfold cur_cstr in H. apply Ok_inj in H.
    destruct (find_byte 0 (slice_from o b)) as [k|] eqn:E.
    + injection H as <- <-. apply find_byte_split in E as (r & post & E & Hr & Hk).
      assert (o <= pylen b) as Hl.
      { destruct (Z.le_gt_cases o (pylen b)); [done|]. unfold slice_from in E.
        rewrite drop_ge in E by (unfold pylen in *; lia). by destruct r. }
      destruct (split_at_len b (Z.to_nat o)) as (pre & tl & -> & Hpre); [lia|].
      assert (pylen pre = o) as Hp by (unfold pylen; lia). rewrite slice_from_app in E by done. subst tl.
      autorewrite with pylen in *. pose proof (pylen_nonneg post).
      assert (pylen r = Z.of_nat k) as Hpr by (unfold pylen; lia). split; [lia|]. intros _.
      exists pre, (r ++ [0]), post. autorewrite with pylen. cbn. split_and!; [by rewrite <- app_assoc|done|lia|].
      exists r. split_and!; [done..|]. f_equal. apply slice_app_mid; lia.
    + injection H as <- <-. split; [lia|]. intros Hl. lia.
Qed.

(** ** Sequencing *)

Lemma reads_ret {A} (r : res A) : reads (fun _ o => x ← r; Ok (x, o)) (ret_fmt r).
Proof.
  split.
  - intros pre s post x [-> ->]. cbn. by rewrite Z.add_0_r.
  - intros b o x o' Hb Ho H. inv_bind H. apply Ok_inj in H. injection H as -> <-. split; [lia|]. intros Hl.
    destruct (split_at_len b (Z.to_nat o)) as (pre & post & -> & Hpre); [lia|].
    exists pre, [], post. split_and!; [done|unfold pylen; lia|by rewrite pylen_nil, Z.add_0_r|done].
Qed.

Lemma sound_seq {A B} (p : bytes -> Z -> res (A * Z)) (q : A -> bytes -> Z -> res (B * Z)) F G :
  sound_for p F -> (forall x, sound_for (q x) (G x)) -> sound_for (fun b o => '(x, o) ← p b o; q x b o) (seq_fmt F G).
Proof.
  intros P2 HQ b o y o' Hb Ho H. inv_bind H. destruct v as [x o1]. destruct (P2 _ _ _ _ Hb Ho E) as [Ho1 W1].
  destruct (HQ x b o1 y o' Hb) as [Ho2 W2]; [lia|exact H|]. split; [lia|]. intros Hl.
  destruct W1 as (pre & s1 & post1 & -> & <- & -> & F1); [lia|]. destruct (W2 Hl) as (pre2 & s2 & post2 & E2 & Hp2 & -> & F2).
  rewrite app_assoc in E2. apply app_inj_1 in E2 as [<- ->]; [|unfold pylen in *; rewrite length_app; lia].
  exists pre, (s1 ++ s2), post2. rewrite <- app_assoc, pylen_app, Z.add_assoc. split_and!; [done..|]. exists s1, s2, x. auto.
Qed.

Lemma reads_seq {A B} (p : bytes -> Z -> res (A * Z)) (q : A -> bytes -> Z -> res (B * Z)) F G :
  reads p F -> (forall x, reads (q x) (G x)) -> reads (fun b o => '(x, o) ← p b o; q x b o) (seq_fmt F G).
Proof.
  intros [P1 P2] HQ. split; [|apply sound_seq; [done|intros x; apply HQ]].
  intros pre s post y (s1 & s2 & x & -> & H1 & H2). rewrite <- app_assoc, (P1 _ _ _ _ H1). cbn [mbind res_bind].
  rewrite (app_assoc pre), <- pylen_app. rewrite (proj1 (HQ x) _ _ _ _ H2). by rewrite !pylen_app, Z.add_assoc.
Qed.

Lemma reads_ext {A} (p q : bytes -> Z -> res (A * Z)) F : (forall b o, p b o = q b o) -> reads p F -> reads q F.
Proof. intros He [H1 H2]. split; [intros pre s post x; rewrite <- He; apply H1 | intros b o x o'; rewrite <- He; apply H2]. Qed.

(** A payload is consumed exactly when it has the format. *)
Lemma reads_exact {A} (p : bytes -> Z -> res (A * Z)) F b x :
  reads p F -> is_bytes b -> p b 0 = Ok (x, pylen b) <-> F b x.
Proof.
  intros [H1 H2] Hb. split.
  - intros H. destruct (H2 b 0 x (pylen b) Hb) as [_ W]; [pose proof (pylen_nonneg b); lia|done|].
    destruct W as (pre & s & post & -> & Hp & Hl & HF); [lia|]. autorewrite with pylen in Hl.
    pose proof (pylen_nonneg pre). pose proof (pylen_nonneg post).
    assert (pre = []) as -> by (apply length_zero_iff_nil; unfold pylen in *; lia).
    assert (post = []) as -> by (apply length_zero_iff_nil; unfold pylen in *; cbn in *; lia). by rewrite app_nil_r.
  - intros H. pose proof (H1 [] b [] x H) as E. rewrite app_nil_r in E. exact E.
Qed.

Lemma reads_equiv {A} (p : bytes -> Z -> res (A * Z)) F G : reads p F -> (forall s x, F s x <-> G s x) -> reads p G.
Proof.
  intros H He. apply (reads_map p F id); [done| |].
  - intros b o. by destruct (p b o) as [[x o']|].
  - intros s y. rewrite <- He. unfold id. naive_solver.
Qed.

(** ** The layouts *)

Definition field_fmt (k : fkind) : format (option cell) := fun s c =>
  match k with
  | KU32 => exists v, u32_fmt s v /\ c = Some (CInt v)
  | KI32 => exists v, i32_fmt s v /\ c = Some (CInt v)
  | KU8 => exists v, u8_fmt s v /\ c = Some (CInt v)
  | KText => exists t, cstr_fmt s t /\ c = Some (CText (sanitize t))
  | KNum => exists x, f32_fmt s x /\ c = Some (CText (fnum x))
  | KFmt => exists x t, f32_fmt s x /\ fmtf x = Ok t /\ c = Some (CText t)
  | KRound n => exists x, f32_fmt s x /\ c = Some (CFloat (round_nd n x))
  | KSkipText => exists t, cstr_fmt s t /\ c = None
  end.

Fixpoint fields_fmt (l : list (pystr * fkind)) (d : list (pystr * cell)) : format (list (pystr * cell)) :=
  match l with
  | [] => ret_fmt (Ok d)
  | (col, k) :: l => seq_fmt (field_fmt k) (fun v => fields_fmt l (set_cell col v d))
  end.

Lemma reads_field k : reads (read_field k) (field_fmt k).
Proof.
  destruct k.
  6:{ apply (reads_equiv _ (seq_fmt f32_fmt (fun x => ret_fmt (t ← fmtf x; Ok (Some (CText t)))))).
    - eapply reads_ext; [|exact (reads_seq _ _ _ _ reads_f32 (fun x => reads_ret _))]. intros b o. cbn [read_field].
      destruct (cur_f32 b o) as [[x o']|]; [|done]. cbn [mbind res_bind]. by destruct (fmtf x).
    - intros s c. cbn [field_fmt]. split.
      + intros (s1 & s2 & x & -> & Hx & -> & Hr). inv_bind Hr. apply Ok_inj in Hr. rewrite app_nil_r. eauto.
      + intros (x & t & Hx & Ht & ->). exists s, [], x. rewrite app_nil_r, Ht. done. }
  - exact (reads_map _ _ (fun v => Some (CInt v)) _ _ reads_u32 (fun b o => eq_refl) (fun s y => iff_refl _)).
  - exact (reads_map _ _ (fun v => Some (CInt v)) _ _ reads_i32 (fun b o => eq_refl) (fun s y => iff_refl _)).
  - exact (reads_map _ _ (fun v => Some (CInt v)) _ _ reads_u8 (fun b o => eq_refl) (fun s y => iff_refl _)).
  - exact (reads_map _ _ (fun t => Some (CText (sanitize t))) _ _ reads_cstr (fun b o => eq_refl) (fun s y => iff_refl _)).
  - exact (reads_map _ _ (fun x => Some (CText (fnum x))) _ _ reads_f32 (fun b o => eq_refl) (fun s y => iff_refl _)).
  - exact (reads_map _ _ (fun x => Some (CFloat (round_nd n x))) _ _ reads_f32 (fun b o => eq_refl) (fun s y => iff_refl _)).
  - exact (reads_map _ _ (fun _ => None) _ _ reads_cstr (fun b o => eq_refl) (fun s y => iff_refl _)).
Qed.

Lemma reads_fields l : forall d, reads (read_cols l d) (fields_fmt l d).
Proof.
  induction l as [|[col k] l IH]; intros d; cbn [fields_fmt].
  - exact (reads_ret (Ok d)).
  - exact (reads_seq _ _ _ _ (reads_field k) (fun v => IH (set_cell col v d))).
Qed.

Lemma reads_pure {A B} (p : bytes -> Z -> res (A * Z)) F (f : A -> res B) :
  reads p F -> reads (fun b o => '(x, o) ← p b o; y ← f x; Ok (y, o)) (seq_fmt F (fun x => ret_fmt (f x))).
Proof. intros H. exact (reads_seq p (fun x _ o => y ← f x; Ok (y, o)) F _ H (fun x => reads_ret (f x))). Qed.

(** *** Items *)

(** As many stats as announced; the first ten have columns. *)
Fixpoint stats_fmt (n : nat) (i : Z) (d : list (pystr * cell)) : format (list (pystr * cell)) :=
  match n with
  | O => ret_fmt (Ok d)
  | S n => seq_fmt u32_fmt (fun t => seq_fmt i32_fmt (fun v =>
      stats_fmt n (i + 1)
        (if i <? 10 then dset (numbered "stat_value" (i + 1)) (CInt v) (dset (numbered "stat_type" (i + 1)) (CInt t) d)
         else d)))
  end.

Lemma read_stats_more n : forall i sc d pre s post d' fuel, stats_fmt n i d s d' -> sc = i + Z.of_nat n ->
  (length s <= fuel)%nat -> read_stats fuel i sc d (pre ++ s ++ post) (pylen pre) = Ok (d', pylen pre + pylen s).
Proof.
  induction n as [|n IH]; intros i sc d pre s post d' fuel Hs -> Hf; cbn [stats_fmt] in Hs.
  - destruct Hs as [-> Hd]. apply Ok_inj in Hd. subst d'. destruct fuel; cbn [read_stats];
      rewrite (proj2 (Z.ltb_ge _ _)) by lia; by rewrite pylen_nil, Z.add_0_r.
  - destruct Hs as (s1 & s2 & t & -> & [Ht ->] & s3 & s4 & v & -> & [Hv ->] & Hs).
    rewrite !length_app, !length_le in Hf. destruct fuel as [|fuel]; [lia|]. cbn [read_stats].
    rewrite (proj2 (Z.ltb_lt _ _)) by lia. rewrite <- !app_assoc.
    rewrite (proj1 reads_u32 _ _ _ t) by done. cbn [mbind res_bind]. rewrite (app_assoc pre), <- pylen_app.
    rewrite (proj1 reads_i32 _ _ _ v) by done. cbn [mbind res_bind]. rewrite (app_assoc _ (le 4 v)), <- pylen_app.
    rewrite (IH _ _ _ _ _ _ _ _ Hs) by lia. rewrite !pylen_app. do 2 f_equal. lia.
Qed.

Lemma read_stats_sound fuel : forall i sc d, sound_for (read_stats fuel i sc d) (stats_fmt (Z.to_nat (sc - i)) i d).
Proof.
  induction fuel as [|fuel IH]; intros i sc d b o d' o' Hb Ho H; cbn [read_stats] in H; destruct (i <? sc) eqn:Ei; zbool;
    try discriminate; [replace (Z.to_nat (sc - i)) with O by lia; exact (proj2 (reads_ret (Ok d)) b o d' o' Hb Ho H)| |
                       replace (Z.to_nat (sc - i)) with O by lia; exact (proj2 (reads_ret (Ok d)) b o d' o' Hb Ho H)].
  replace (Z.to_nat (sc - i)) with (S (Z.to_nat (sc - (i + 1)))) by lia.
  exact (sound_seq cur_u32 (fun t b o => '(v, o) ← cur_i32 b o; _) _ _ (proj2 reads_u32)
           (fun t => sound_seq cur_i32 _ _ _ (proj2 reads_i32) (fun v => IH (i + 1) sc _)) b o d' o' Hb Ho H).
Qed.

Lemma reads_stats sc d : reads (fun b o => read_stats (length b) 0 sc d b o) (stats_fmt (Z.to_nat sc) 0 d).
Proof.
  split.
  - intros pre s post d' Hs. destruct (Z.le_gt_cases 0 sc).
    + apply (read_stats_more _ _ _ _ _ _ _ _ _ Hs); [lia|]. rewrite !length_app. lia.
    + replace (Z.to_nat sc) with O in Hs by lia. destruct Hs as [-> Hd]. apply Ok_inj in Hd. subst.
      destruct (length _); cbn [read_stats]; rewrite (proj2 (Z.ltb_ge _ _)) by lia; by rewrite pylen_nil, Z.add_0_r.
  - intros b o d' o' Hb Ho H. pose proof (read_stats_sound (length b) 0 sc d b o d' o' Hb Ho H) as R.
    by rewrite Z.sub_0_r in R.
Qed.

(** The damage lines, with the bounds rounded. *)
Definition damage_fmt (d : list (pystr * cell)) : format (list (pystr * cell)) :=
  seq_fmt f32_fmt (fun mn1 => seq_fmt f32_fmt (fun mx1 => seq_fmt u32_fmt (fun ty1 =>
  seq_fmt f32_fmt (fun mn2 => seq_fmt f32_fmt (fun mx2 => seq_fmt u32_fmt (fun ty2 =>
    ret_fmt (damage_row d mn1 mx1 ty1 mn2 mx2 ty2))))))).

(** Proves [reads] of a chain of binds, the parts by hypotheses or hints. *)
Create HintDb reads.
#[export] Hint Resolve reads_u32 reads_i32 reads_f32 reads_u8 reads_cstr reads_fields reads_stats reads_ret : reads.
Ltac reads_chain := repeat (refine (reads_seq _ _ _ _ _ _); [solve [auto with reads] | intros ?]); auto with reads.

Lemma reads_damage d : reads (read_damage d) (damage_fmt d).
Proof. unfold read_damage, damage_fmt. reads_chain. Qed.
#[export] Hint Resolve reads_damage : reads.

(** *** The seven caches *)

Definition creature_fmt (entry : Z) : format (list (pystr * cell)) :=
  fields_fmt creature_fields (dset (lit "entry") (CInt entry) (blank_row CREATURE_COLS [])).

Definition go_fmt (entry : Z) : format (list (pystr * cell)) :=
  fields_fmt go_fields (dset (lit "entry") (CInt entry) (blank_row GO_COLS [])).

Definition item_fmt (entry : Z) : format (list (pystr * cell)) :=
  seq_fmt (fields_fmt item_head (dset (lit "entry") (CInt entry) (blank_row ITEM_COLS ITEM_TEXTCOLS))) (fun d =>
  seq_fmt u32_fmt (fun sc =>
  seq_fmt (stats_fmt (Z.to_nat sc) 0 (dset (lit "StatsCount") (CInt sc) d)) (fun d =>
  seq_fmt (fields_fmt (u32s ["ScalingStatDistribution"; "ScalingStatValue"]%string) d) (fun d =>
  seq_fmt (damage_fmt d) (fun d => fields_fmt item_body d))))).

(** The row, and the id the payload repeats. *)
Definition quest_fmt (entry : Z) : format (list (pystr * cell) * Z) :=
  seq_fmt u32_fmt (fun qid =>
  seq_fmt (fields_fmt quest_fields (dset (lit "entry") (CInt entry) (blank_row QUEST_COLS QUEST_TEXTCOLS))) (fun d =>
    ret_fmt (Ok (d, qid)))).

Fixpoint blocks_fmt (bs : list nat) (d : list (pystr * cell)) : format (list (pystr * cell)) :=
  match bs with
  | [] => ret_fmt (Ok d)
  | n :: bs => seq_fmt (fields_fmt (block_fields n) d)
                 (fun d => blocks_fmt bs (dset (numbered "BroadcastTextID" (Z.of_nat n)) (CInt 0) d))
  end.

Definition npctext_fmt (entry : Z) : format (list (pystr * cell)) := blocks_fmt (seq 0 NBLOCK) [(lit "entry", CInt entry)].

Definition pagetext_fmt (entry : Z) : format (list (pystr * cell)) :=
  fields_fmt [(lit "Text", KText); (lit "NextPageId", KU32)] [(lit "entry", CInt entry)].

(** A name and an inventory type; an empty payload passes as an empty name. *)
Definition itemname_fmt (entry : Z) : format (list (pystr * cell)) := fun s d =>
  exists name inv,
    d = [(lit "entry", CInt entry);
         (lit "name", CText (map (fun c => if (c =? 9) || (c =? 13) || (c =? 10) then 32 else c) name));
         (lit "InventoryType", CInt inv)]
    /\ ((s = [] /\ name = [] /\ inv = 0)
        \/ exists s1 s2, s = s1 ++ s2 /\ cstr_fmt s1 name /\ u32_fmt s2 inv).

Lemma reads_blocks bs : forall d, reads (read_blocks bs d) (blocks_fmt bs d).
Proof.
  induction bs as [|n bs IH]; intros d; cbn [blocks_fmt]; [exact (reads_ret (Ok d))|].
  exact (reads_seq _ _ _ _ (reads_fields (block_fields n) d) (fun d => IH (dset _ _ d))).
Qed.

Lemma creature_exact entry b row : is_bytes b -> decode_creature entry b = Ok (row, pylen b) <-> creature_fmt entry b row.
Proof. intros Hb. exact (reads_exact _ _ b row (reads_fields creature_fields _) Hb). Qed.

Lemma go_exact entry b row : is_bytes b -> decode_go entry b = Ok (row, pylen b) <-> go_fmt entry b row.
Proof. intros Hb. exact (reads_exact _ _ b row (reads_fields go_fields _) Hb). Qed.

Lemma pagetext_exact entry b row : is_bytes b -> decode_pagetext entry b = Ok (row, pylen b) <-> pagetext_fmt entry b row.
Proof. intros Hb. exact (reads_exact _ _ b row (reads_fields _ _) Hb). Qed.

Lemma npctext_full_exact entry b row :
  is_bytes b -> decode_npctext_full entry b = Ok (row, pylen b) <-> npctext_fmt entry b row.
Proof. intros Hb. exact (reads_exact _ _ b row (reads_blocks _ _) Hb). Qed.

Lemma item_exact entry b row : is_bytes b -> decode_item entry b = Ok (row, pylen b) <-> item_fmt entry b row.
Proof.
  intros Hb. unfold item_fmt. refine (reads_exact (fun b o => '(d, o) ← read_cols item_head _ b o; '(sc, o) ← cur_u32 b o;
    '(d, o) ← read_stats (length b) 0 sc (dset (lit "StatsCount") (CInt sc) d) b o;
    '(d, o) ← read_cols (u32s ["ScalingStatDistribution"; "ScalingStatValue"]%string) d b o;
    '(d, o) ← read_damage d b o; read_cols item_body d b o) _ b row _ Hb).
  do 2 (refine (reads_seq _ _ _ _ _ _); [solve [auto with reads] | intros ?]).
  refine (reads_seq _ _ _ _ (reads_stats _ _) _). intros ?. reads_chain.
Qed.

Lemma quest_exact entry b row qid :
  is_bytes b -> decode_quest entry b = Ok (row, pylen b, qid) <-> quest_fmt entry b (row, qid).
Proof.
  intros Hb. transitivity ((('(qid, o) ← cur_u32 b 0; '(d, o) ← read_cols quest_fields
      (dset (lit "entry") (CInt entry) (blank_row QUEST_COLS QUEST_TEXTCOLS)) b o; Ok ((d, qid), o))) = Ok ((row, qid), pylen b)).
  - unfold decode_quest. destruct (cur_u32 b 0) as [[q o]|]; [|done]. cbn [mbind res_bind].
    destruct (read_cols _ _ _ _) as [[d o']|]; [|done]. cbn [mbind res_bind]. naive_solver.
  - refine (reads_exact (fun b o => '(qid, o) ← cur_u32 b o; _) _ b (row, qid) _ Hb). unfold quest_fmt.
    refine (reads_seq _ _ _ _ reads_u32 _). intros q.
    exact (reads_seq _ (fun d _ o => Ok ((d, q), o)) _ _ (reads_fields _ _) (fun d => reads_ret (Ok (d, q)))).
Qed.

Lemma itemname_exact entry b row : is_bytes b -> decode_itemname entry b = Ok (row, pylen b) <-> itemname_fmt entry b row.
Proof.
  intros Hb. unfold decode_itemname, itemname_fmt. destruct (find_byte 0 b) as [k|] eqn:E.
  - apply find_byte_split in E as (r & t & -> & Hr & Hk). unfold slice_to. rewrite Nat2Z.id.
    rewrite (take_app_exact r) by done. assert (pylen r = Z.of_nat k) as Hp by (unfold pylen; lia).
    rewrite pylen_app, pylen_cons. rewrite is_bytes_app in Hb. destruct Hb as [_ [_ Ht]%Forall_cons].
    replace (r ++ 0 :: t) with ((r ++ [0]) ++ t) by (by rewrite <- app_assoc).
    assert (Z.of_nat k + 1 = pylen (r ++ [0])) as Hoff by (rewrite pylen_app, pylen_cons, pylen_nil; lia).
    split.
    + intros H. inv_bind H. apply Ok_inj in H. injection H as <- Hlen. rewrite (proj2 (Z.leb_le _ _)) in E by lia.
      assert (length t = 4%nat) as H4 by (unfold pylen in *; lia).
      assert (v = unle t) as ->.
      { assert (t = le 4 (unle t)) as Et by (rewrite <- H4; by rewrite le_unle).
        pose proof (unle_bound t Ht) as Hu. unfold pylen in Hu. rewrite H4 in Hu.
        unfold unpackI in E. rewrite Et, <- (app_nil_r (le 4 _)), unpack_u_app in E by done. by apply Ok_inj in E. }
      eexists _, _. split; [reflexivity|]. right. exists (r ++ [0]), t. split_and!; [done| |].
      * exists r. done.
      * pose proof (unle_bound t Ht) as Hu. unfold pylen in Hu. rewrite H4 in Hu. split; [done|].
        by rewrite <- H4, le_unle.
    + intros (name & inv & -> & [[Hnil _]|(s1 & s2 & Es & (r' & Hr' & -> & ->) & [Hi ->])]); [by destruct r|].
      rewrite <- !app_assoc in Es. cbn [app] in Es.
      assert (r = r') as <-.
      { pose proof (find_byte_app 0 r t Hr) as F1. pose proof (find_byte_app 0 r' (le 4 inv) Hr') as F2.
        rewrite Es in F1. rewrite F1 in F2. injection F2 as F2. apply app_inj_1 in Es as [? _]; done. }
      apply app_inv_head in Es. assert (t = le 4 inv) as -> by (by injection Es). rewrite pylen_le. rewrite (proj2 (Z.leb_le _ _)) by lia.
      unfold unpackI. rewrite <- (app_nil_r (le 4 inv)), unpack_u_app by done. cbn [mbind res_bind]. do 2 f_equal. lia.
  - split.
    + intros H. apply Ok_inj in H. injection H as <- H. exists [], 0. split; [done|]. left. split_and!; [|done..].
      apply length_zero_iff_nil. unfold pylen in H. lia.
    + intros (name & inv & -> & [(-> & -> & ->)|(s1 & s2 & -> & (r & Hr & -> & _) & _)]); [done|].
      rewrite <- app_assoc in E. cbn [app] in E. rewrite find_byte_app in E by done. done.
Qed.

(** ** Every record is decoded or rejected *)

Definition never_stuck {A} (r : res A) : Prop := r <> Err OutOfFuel.

Lemma never_stuck_bind {A B} (r : res A) (f : A -> res B) :
  never_stuck r -> (forall x, r = Ok x -> never_stuck (f x)) -> never_stuck (r ≫= f).
Proof. unfold never_stuck. destruct r as [x|e]; cbn [mbind res_bind]; [eauto|congruence]. Qed.

Lemma unpack_u_stuck n b o : never_stuck (unpack_u n b o).
Proof. unfold never_stuck, unpack_u. by destruct (_ && _). Qed.

Lemma cur_u32_stuck b o : never_stuck (cur_u32 b o).
Proof. unfold cur_u32. apply never_stuck_bind; [apply unpack_u_stuck|done]. Qed.

Lemma cur_i32_stuck b o : never_stuck (cur_i32 b o).
Proof. unfold cur_i32, unpacki. do 2 (apply never_stuck_bind; [|done]). apply unpack_u_stuck. Qed.

Lemma cur_f32_stuck b o : never_stuck (cur_f32 b o).
Proof. unfold cur_f32, unpackf. do 2 (apply never_stuck_bind; [|done]). apply unpack_u_stuck. Qed.

Lemma round_int_stuck x : never_stuck (round_int x).
Proof. by destruct x. Qed.

Lemma read_field_stuck k b o : never_stuck (read_field k b o).
Proof.
  destruct k; cbn [read_field]; try (apply never_stuck_bind; [|by intros [? ?]]);
    first [apply cur_u32_stuck | apply cur_i32_stuck | apply cur_f32_stuck | done | idtac].
  - unfold cur_u8, index. apply never_stuck_bind; [|done]. unfold never_stuck. destruct (o <? 0); [done|]. by destruct (b !! _).
  - apply never_stuck_bind; [apply cur_f32_stuck|]. intros [x ?] _. apply never_stuck_bind; [|done]. unfold fmtf.
    apply never_stuck_bind; [|done]. by destruct x.
Qed.

Lemma read_cols_stuck l : forall d b o, never_stuck (read_cols l d b o).
Proof.
  induction l as [|[col k] l IH]; intros d b o; cbn [read_cols]; [done|].
  apply never_stuck_bind; [apply read_field_stuck|]. intros [v o1] _. apply IH.
Qed.

Lemma cur_u32_moves b o v o' : cur_u32 b o = Ok (v, o') -> o' = o + 4 /\ 0 <= o /\ o' <= pylen b.
Proof.
  unfold cur_u32. intros H. inv_bind H. apply Ok_inj in H. injection H as <- <-. unfold unpackI, unpack_u in E.
  destruct (_ && _) eqn:Eb; [|done]. zbool. lia.
Qed.

(** A round of the stats reads eight bytes. *)
Lemma read_stats_stuck fuel : forall i sc d b o, 0 <= o <= pylen b -> pylen b < o + 8 * Z.of_nat fuel ->
  never_stuck (read_stats fuel i sc d b o).
Proof.
  induction fuel as [|fuel IH]; intros i sc d b o Ho Hf; cbn [read_stats]; destruct (i <? sc); try done; [lia|].
  apply never_stuck_bind; [apply cur_u32_stuck|]. intros [t o1] (-> & _ & ?)%cur_u32_moves.
  apply never_stuck_bind; [apply cur_i32_stuck|]. intros [v o2] H2.
  assert (cur_u32 b (o + 4) = ('(v, o') ← cur_u32 b (o + 4); Ok (v, o'))) as E by (by destruct (cur_u32 b _) as [[]|]).
  unfold cur_i32, unpacki in H2. unfold cur_u32 in E. destruct (unpackI b (o + 4)) as [w|] eqn:Ew; [|done].
  apply Ok_inj in H2. injection H2 as _ <-. destruct (cur_u32_moves b (o + 4) w (o + 4 + 4)) as (_ & _ & ?).
  { unfold cur_u32. by rewrite Ew. }
  apply IH; lia.
Qed.

(** The bound on the rounds of the stats is never the reason that a record is
    rejected. *)
Lemma decode_item_ends entry b : decode_item entry b <> Err OutOfFuel.
Proof.
  change (never_stuck (decode_item entry b)). unfold decode_item.
  apply never_stuck_bind; [apply read_cols_stuck|]. intros [d o] _.
  apply never_stuck_bind; [apply cur_u32_stuck|]. intros [sc o1] (-> & ? & ?)%cur_u32_moves.
  apply never_stuck_bind; [apply read_stats_stuck; [lia|unfold pylen in *; lia]|]. intros [d2 o2] _.
  apply never_stuck_bind; [apply read_cols_stuck|]. intros [d3 o3] _.
  apply never_stuck_bind; [|intros [? ?] _; apply read_cols_stuck]. unfold read_damage, damage_row.
  do 6 (apply never_stuck_bind; [first [apply cur_f32_stuck | apply cur_u32_stuck]|intros [? ?] _]).
  apply never_stuck_bind; [|done]. do 4 (apply never_stuck_bind; [apply round_int_stuck|intros ? _]). done.
Qed.

(** ** The oracle proves the width, not the alignment *)

Inductive width := W4 | W1 | WText.

(** What a field takes from the wire; the creature's float may raise. *)
Definition width_of (k : fkind) : option width :=
  match k with
  | KU32 | KI32 | KNum | KRound _ => Some W4
  | KU8 => Some W1
  | KText | KSkipText => Some WText
  | KFmt => None
  end.

Lemma read_field_width k k' b o : width_of k = width_of k' -> width_of k <> None ->
  snd <$> read_field k b o = snd <$> read_field k' b o.
Proof.
  intros He Hn. destruct k, k'; try discriminate He; try done; cbn [read_field];
    unfold cur_u32, cur_i32, cur_f32, unpackf, unpacki; try (destruct (unpackI b o); done); by destruct (cur_u8 b o) as [[]|].
Qed.

(** Two layouts whose fields take the same from the wire consume the same bytes
    of every payload and fail on the same payloads: counting the bytes cannot
    tell them apart. *)
Lemma width_decides l : forall l' d d' b o, map (width_of ∘ snd) l = map (width_of ∘ snd) l' ->
  Forall (fun f => width_of (snd f) <> None) l -> snd <$> read_cols l d b o = snd <$> read_cols l' d' b o.
Proof.
  induction l as [|[c k] l IH]; intros [|[c' k'] l'] d d' b o He Hn; try done.
  injection He as Hk He. inversion_clear Hn as [|? ? Hk1 Hl]. cbn [snd] in *. cbn [read_cols].
  pose proof (read_field_width k k' b o Hk Hk1) as E.
  destruct (read_field k b o) as [[v o1]|], (read_field k' b o) as [[v' o1']|]; try discriminate E; [|by injection E as ->].
  injection E as ->. cbn [mbind res_bind]. by apply IH.
Qed.

(** The reading of the quest's objectives as two arrays, which the decoder
    had before. *)
Definition quest_arrays : list (pystr * fkind) :=
  quest_head ++ quest_texts
  ++ each 1 4 (fun i => [(numbered "RequiredNpcOrGo" i, KI32); (numbered "RequiredNpcOrGoCount" i, KU32)])
  ++ each 1 4 (fun i => [(numbered "RequiredSourceItemId" i, KU32); (numbered "RequiredSourceItemCount" i, KU32)])
  ++ each 1 6 (fun i => [(numbered "RequiredItemId" i, KU32); (numbered "RequiredItemCount" i, KU32)])
  ++ each 1 4 (fun i => [(numbered "ObjectiveText" i, KText)]).

(** Both readings of a quest's objectives, interleaved or as two arrays, pass
    or fail the test of the consumed bytes together, on every payload. *)
Lemma quest_oracle_blind d d' b o : snd <$> read_cols quest_fields d b o = snd <$> read_cols quest_arrays d' b o.
Proof.
  apply width_decides; [by vm_compute|].
  apply (Forall_impl (fun f => bool_decide (width_of (snd f) = None) = false)); [|by intros f Hf%bool_decide_eq_false].
  apply Forall_forall. intros f Hf. pattern f. revert f Hf. apply Forall_forall. vm_compute. repeat constructor.
Qed.
