(* ===== verification/WdbExport.v ===== *)
(** * Publishing the record store (cache-consolidator/tools/export.py, rebuild.py)

    From the tables and packs that merge.py wrote to what is published: for each
    entry the observation that wins (pick_winners, with the ranking of
    capture_dates.py), the decoded views, the raw packs, and the cache files
    rebuilt for the client, each read back and compared.  A file of the store
    is its bytes, [None] when it is not there; gzip is a parameter.  The cache
    of finished outputs (build_cache.py) is taken to be empty. *)
From S2P Require Import Prelude Wire PyFloat Text Format Json Tsv Wdb WdbStore WdbDecode.

(** ** Capture dates of an observation (capture_dates.py) *)

(** [_dated_modes], [_first_observed] and [_mode_dates] of a row. *)
Record capture := Capture {
  cp_dated : list pystr; cp_first : list (pystr * Z); cp_dates : list (pystr * pystr) }.

(** A row of index.tsv with its context, and an observation of an entry. *)
Record obs := Obs { ob_row : src_row; ob_cap : capture }.
Abbreviation observation := (Z * pystr * obs * bytes)%type (only parsing).
Abbreviation win := (pystr * obs * bytes)%type (only parsing).

(** sid -> row. *)
Abbreviation by_sid := (list (pystr * src_row)) (only parsing).

Definition STAR : pystr := [42].

Section Capture.
Context `{Unicode}.

(** [first[mode] = min(sid, first.get(mode, sid))]. *)
Definition first_seen (sid : Z) (first : list (pystr * Z)) (mode : pystr) : list (pystr * Z) :=
  dset mode (Z.min sid (default sid (dget mode first))) first.

Definition first_of_ref (first : list (pystr * Z)) (source : src_row) : res (list (pystr * Z)) :=
  sid ← row_id source;
  slug ← row_item "slug" source;
  Ok (foldl (first_seen sid) first [STAR; slug]).

(** [(slug, captured)] of each source, in their order. *)
Definition slug_dates (refs : list src_row) : res (list (pystr * pystr)) :=
  res_map (fun r => c ← row_item "captured" r; s ← row_item "slug" r; Ok (s, c)) refs.

Definition attach_context (row : src_row) (sources : by_sid) : res capture :=
  srcs ← row_item "srcs" row;
  refs ← res_map (fun sid => res_of_option KeyError (dget sid sources)) (filter (fun sid => sid <> []) (split_on 44 srcs));
  sd ← slug_dates refs;
  first ← res_fold first_of_ref [] refs;
  Ok (Capture (foldl (fun s x => match snd x with [] => s | _ => set_add (fst x) s end) [] sd) first
        (map (fun mode => (mode, max_date (map snd (filter (fun x => fst x = mode) sd))))
           (filter (fun mode => mode <> STAR) (dkeys first)))).

(** [if mode]. *)
Definition truthy_mode (mode : option pystr) : option pystr := match mode with Some [] => None | m => m end.

Definition winner_date (o : obs) (mode : option pystr) : res pystr :=
  match truthy_mode mode with
  | Some m => Ok (default [] (dget m (cp_dates (ob_cap o))))
  | None => row_item "last_captured" (ob_row o)
  end.

(** The date, then among the undated the earliest arrival, then the digest. *)
Abbreviation rank_t := (pystr * Z * pystr)%type (only parsing).

Definition winner_rank (o : obs) (digest : pystr) (mode : option pystr) : res rank_t :=
  date ← winner_date o mode;
  let first := default 0 (dget (default STAR (truthy_mode mode)) (cp_first (ob_cap o))) in
  Ok (date, match date with [] => - first | _ => 0 end, digest).
End Capture.

(** ** Loading *)

Definition obs_leb (a b : observation) : bool :=
  let '(e, s, _, _) := a in let '(f, t, _, _) := b in
  if e <? f then true else if f <? e then false else str_leb s t.

(** [r.get("locales") or ",".join(sorted({...}))]. *)
Definition obs_locales (r : src_row) (sources : by_sid) : res pystr :=
  match dget (lit "locales") r with
  | Some ((_ :: _) as l) => Ok l
  | _ =>
      srcs ← row_item "srcs" r;
      ls ← res_map (fun sid => s ← res_of_option KeyError (dget sid sources);
                               Ok (match dget (lit "locale") s with Some ((_ :: _) as l) => l | _ => lit "unknown" end))
             (split_on 44 srcs);
      Ok (comma_sorted ls)
  end.

Section Publish.
Context `{Unicode}.

(** [{r["id"]: r for r in read_tsv(SOURCES)}]. *)
Definition sources_by_id (rows : list src_row) : res by_sid :=
  res_fold (fun d r => id ← row_item "id" r; Ok (dset id r d)) [] rows.

(** The offsets are those the pack was written with. *)
Definition load_obs (blob : bytes) (sources : by_sid) (r : src_row) : res observation :=
  cap ← attach_context r sources;
  locales ← obs_locales r sources;
  let r := dset (lit "locales") locales r in
  off ← (x ← row_item "offset" r; int_of_str x);
  size ← (x ← row_item "size" r; int_of_str x);
  entry ← (x ← row_item "entry" r; int_of_str x);
  sha1 ← row_item "sha1" r;
  Ok (entry, sha1, Obs r cap, slice (off + 8) (off + 8 + size) blob).

Definition load_cache (index pack : option bytes) (sources : by_sid) : res (list observation) :=
  idx ← read_tsv index;
  match idx with
  | [] => Ok []
  | _ =>
      blob ← res_of_option OSError pack;
      out ← res_map (load_obs blob sources) idx;
      Ok (py_sort obs_leb out)
  end.

(** ** Which observation wins *)

Definition win_ltb (a b : bool * (pystr * Z * pystr)) : bool :=
  let '(p, (d, n, s)) := a in let '(q, (e, m, t)) := b in
  if negb p && q then true else if p && negb q then false
  else if negb (str_leb e d) then true else if negb (str_leb d e) then false
  else if n <? m then true else if m <? n then false else negb (str_leb t s).

(** [max(v, key=...)]: the first of the greatest. *)
Definition py_max {A} (key : A -> res (bool * (pystr * Z * pystr))) (l : list A) : res A :=
  keyed ← res_map (fun x => k ← key x; Ok (k, x)) l;
  match keyed with
  | [] => Err ValueError
  | kx :: rest => Ok (snd (foldl (fun best kx => if win_ltb (fst best) (fst kx) then kx else best) kx rest))
  end.

Definition split_field (k : string) (r : src_row) : res (list pystr) := x ← row_item k r; Ok (split_on 44 x).

(** [r.get("locales", "unknown").split(",")]. *)
Definition supported (r : src_row) : list pystr := split_on 44 (default (lit "unknown") (dget (lit "locales") r)).

(** The sources of a row that are of the locale and, with a mode, of the mode. *)
Fixpoint locale_ids (mode : option pystr) (locale : pystr) (sources : by_sid) (ids : list pystr) : res (list pystr) :=
  match ids with
  | [] => Ok []
  | sid :: ids =>
      s ← res_of_option KeyError (dget sid sources);
      let here := bool_decide (match dget (lit "locale") s with Some ((_ :: _) as l) => l | _ => lit "unknown" end = locale) in
      ok ← match mode with
           | Some m => if (here : bool) then slug ← row_item "slug" s; Ok (bool_decide (slug = m)) else Ok false
           | None => Ok here
           end;
      rest ← locale_ids mode locale sources ids;
      Ok (if (ok : bool) then sid :: rest else rest)
  end.

(** The row as the locale's sources alone would have it; [None] skips it. *)
Definition localize (mode : option pystr) (locale : pystr) (sources : by_sid) (o : obs) : res (option obs) :=
  let r := ob_row o in
  all ← split_field "srcs" r;
  ids ← locale_ids mode locale sources all;
  match ids with
  | [] => Ok None
  | _ =>
      rows ← res_map (fun sid => res_of_option KeyError (dget sid sources)) ids;
      dates ← res_map (row_item "captured") rows;
      let dates := filter (fun d => d <> []) dates in
      slugs ← res_map (row_item "slug") rows;
      let r := dset (lit "last_captured") (max_date dates) (dset (lit "first_captured") (min_date dates)
                 (dset (lit "modes") (comma_sorted slugs) (dset (lit "locales") locale
                   (dset (lit "srcs") (join [44] ids) r)))) in
      cap ← attach_context r sources;
      Ok (Some (Obs r cap))
  end.

(** What a record contributes: [None] where it is skipped. *)
Definition candidate (mode locale : option pystr) (sources : by_sid) (rec : observation) : res (option (Z * win)) :=
  let '(entry, sha1, o, payload) := rec in
  skip ← match mode with
         | Some m => ms ← split_field "modes" (ob_row o); Ok (negb (bool_decide (m ∈ ms)))
         | None => Ok false
         end;
  if (skip : bool) then Ok None
  else
    match locale with
    | None => Ok (Some (entry, (sha1, o, payload)))
    | Some l =>
        if negb (bool_decide (l ∈ supported (ob_row o))) then Ok None
        else
          match sources with
          | [] => Ok (Some (entry, (sha1, o, payload)))
          | _ => o' ← localize mode l sources o; Ok ((fun o => (entry, (sha1, o, payload))) <$> o')
          end
    end.

(** [by_entry[entry].append(...)]. *)
Definition group_entries (cs : list (Z * win)) : list (Z * list win) :=
  foldl (fun d ew => dset (fst ew) (default [] (dget (fst ew) d) ++ [snd ew]) d) [] cs.

Definition win_key (mode locale : option pystr) (w : win) : res (bool * (pystr * Z * pystr)) :=
  let '(sha1, o, _) := w in
  rk ← winner_rank o sha1 mode;
  Ok (match locale with
      | None => bool_decide (lit "enUS" ∈ split_on 44 (default [] (dget (lit "locales") (ob_row o))))
      | Some _ => true
      end, rk).

(** The candidates of the records, in their order. *)
Definition candidates (mode locale : option pystr) (sources : by_sid) (recs : list observation) : res (list (Z * win)) :=
  cs ← res_map (candidate mode locale sources) recs; Ok (omap (M:=list) (fun c => c) cs).

Definition pick_winners (recs : list observation) (mode locale : option pystr) (sources : by_sid)
  : res (list (Z * win)) :=
  cs ← candidates mode locale sources recs;
  res_map (fun ev => w ← py_max (win_key mode locale) (snd ev); Ok (fst ev, w)) (group_entries cs).

(** ** The decoded views *)

Definition DECODERS : list (pystr * ((Z -> bytes -> res (list (pystr * cell) * Z)) * list pystr)) :=
  [(lit "itemcache", (decode_item, ITEM_COLS)); (lit "creaturecache", (decode_creature, CREATURE_COLS));
   (lit "gameobjectcache", (decode_go, GO_COLS));
   (lit "questcache", (fun e p => '(d, o, _) ← decode_quest e p; Ok (d, o), QUEST_COLS));
   (lit "pagetextcache", (decode_pagetext, PAGETEXT_COLS)); (lit "npccache", (decode_npctext_full, NPCTEXT_FULL_COLS));
   (lit "itemnamecache", (decode_itemname, ITEMNAME_COLS))].

Definition PROV : list pystr := map lit ["_modes"; "_captured"; "_sources"; "_locales"]%string.

(** [str(d.get(c, ...))], with spaces for tabs and ends of lines. *)
Definition view_cell (d : list (pystr * cell)) (c : pystr) : pystr :=
  map (fun x => if (x =? 9) || (x =? 10) then 32 else x) (match dget c d with Some v => cell_text v | None => [] end).

(** The columns of provenance. *)
Definition with_prov (mode : option pystr) (o : obs) (d : list (pystr * cell)) : res (list (pystr * cell)) :=
  modes ← row_item "modes" (ob_row o);
  date ← winner_date o mode;
  ids ← split_field "srcs" (ob_row o);
  Ok (dset (lit "_locales") (CText (default (lit "unknown") (dget (lit "locales") (ob_row o))))
       (dset (lit "_sources") (CInt (pylen ids)) (dset (lit "_captured") (CText date) (dset (lit "_modes") (CText modes) d)))).

Record view := View { vw_lines : list pystr; vw_bad : Z; vw_inexact : Z }.

(** One winner of the view. *)
Definition view_entry (fn : Z -> bytes -> res (list (pystr * cell) * Z)) (allcols : list pystr) (note_cols : bool)
    (mode : option pystr) (winners : list (Z * win)) (v : view) (entry : Z) : res view :=
  '(_, o, payload) ← res_of_option KeyError (dget entry winners);
  match fn entry payload with
  | Err _ => Ok (View (vw_lines v) (vw_bad v + 1) (vw_inexact v))
  | Ok (d, consumed) =>
      d ← (if note_cols then with_prov mode o d else Ok d);
      Ok (View (vw_lines v ++ [join [9] (map (view_cell d) allcols) ++ [10]]) (vw_bad v)
            (if consumed =? pylen payload then vw_inexact v else vw_inexact v + 1))
  end.

(** The text of a view and its counts; a view that is not exact stops the
    publication. *)
Definition write_view (cache : pystr) (winners : list (Z * win)) (note_cols : bool) (mode : option pystr)
  : res (bytes * (Z * Z * Z)) :=
  '(fn, cols) ← res_of_option KeyError (dget cache DECODERS);
  let allcols := cols ++ (if note_cols then PROV else []) in
  v ← res_fold (view_entry fn allcols note_cols mode winners) (View [] 0 0) (sort_Z (dkeys winners));
  text ← utf8_encode (join [9] allcols ++ [10] ++ concat (vw_lines v));
  if (vw_bad v =? 0) && (vw_inexact v =? 0) then Ok (text, (pylen winners - vw_bad v, vw_bad v, vw_inexact v))
  else Err RuntimeError.

(** ** The export of a cache *)

Context (gzip : bytes -> bytes).

(** A published file: its folders and name, and its bytes. *)
Abbreviation outfile := (list pystr * bytes)%type (only parsing).

Definition tsv_gz (cache : pystr) : pystr := cache ++ lit ".tsv.gz".

(** [by-mode/<slug>] or [union]. *)
Definition view_dir (mode : option pystr) : list pystr :=
  match mode with Some m => [lit "by-mode"; m] | None => [lit "union"] end.

(** The winners' view, unless nothing wins. *)
Definition export_view (cache : pystr) (recs : list observation) (sources : by_sid) (root : list pystr)
    (mode locale : option pystr) : res (list outfile) :=
  w ← pick_winners recs mode locale sources;
  match w with
  | [] => Ok []
  | _ => '(text, _) ← write_view cache w true mode; Ok [(root ++ view_dir mode ++ [tsv_gz cache], gzip text)]
  end.

(** [sorted({loc for ... in row["locales"].split(",")})], all of them well
    formed. *)
Definition all_locales (recs : list observation) : res (list pystr) :=
  ls ← res_map (fun rec : observation => split_field "locales" (ob_row (snd (fst rec)))) recs;
  Ok (py_sort str_leb (foldl (fun s l => set_add l s) [] (concat ls))).

Definition locale_ok (l : pystr) : bool := bool_decide (clean_locale (JStr l) = l).

(** Every payload with its entry and size, in order. *)
Definition raw_pack (recs : list observation) : res bytes :=
  ps ← res_map (fun rec : observation => let '(entry, _, _, payload) := rec in
         e ← packI entry; n ← packI (pylen payload); Ok (e ++ n ++ payload)) recs;
  Ok (concat ps).

Definition raw_index_line (rec : observation) : res pystr :=
  let '(entry, sha1, o, _) := rec in let r := ob_row o in
  size ← row_item "size" r; modes ← row_item "modes" r; f ← row_item "first_captured" r; l ← row_item "last_captured" r;
  ids ← split_field "srcs" r; locales ← row_item "locales" r;
  Ok (join [9] [str_of_Z entry; sha1; size; modes; f; l; str_of_Z (pylen ids); locales] ++ [10]).

Definition raw_index (recs : list observation) : res bytes :=
  lines ← res_map raw_index_line recs;
  utf8_encode (join [9] (map lit ["entry"; "sha1"; "size"; "modes"; "first_captured"; "last_captured"; "n_sources";
                                  "locales"]%string) ++ [10] ++ concat lines).

(** The files of one cache: the union, the modes, the locales, the raw pack and
    its index. *)
Definition export_cache (cache : pystr) (recs : list observation) (sources : by_sid) (slugs : list pystr)
  : res (list outfile) :=
  match recs with
  | [] => Ok []
  | _ =>
      w ← pick_winners recs None None sources;
      '(text, _) ← write_view cache w true None;
      modes ← res_map (fun slug => export_view cache recs sources [] (Some slug) None) slugs;
      ls ← all_locales recs;
      locales ← res_map (fun l =>
        if negb (locale_ok l) then Err RuntimeError
        else vs ← res_map (fun m => export_view cache recs sources [lit "by-locale"; l] m (Some l)) (None :: map Some slugs);
             Ok (concat vs)) ls;
      pack ← raw_pack recs;
      index ← raw_index recs;
      Ok ([(view_dir None ++ [tsv_gz cache], gzip text)] ++ concat modes ++ concat locales
          ++ [([lit "raw"; cache ++ lit ".pack.gz"], gzip pack); ([lit "raw"; cache ++ lit ".index.tsv.gz"], gzip index)])
  end.

(** ** Rebuilding cache files (rebuild.py) *)

(** [bytes.fromhex]: pairs of digits, white space between the pairs. *)
Definition hex_value (c : Z) : option Z :=
  if in_range 48 57 c then Some (c - 48) else if in_range 97 102 c then Some (c - 87)
  else if in_range 65 70 c then Some (c - 55) else None.

Definition hex_space (c : Z) : bool := in_range 9 13 c || (c =? 32).

Fixpoint from_hex (s : pystr) : res bytes :=
  match s with
  | [] => Ok []
  | c :: t =>
      if hex_space c then from_hex t
      else
        match t with
        | d :: u =>
            match hex_value c, hex_value d with
            | Some a, Some b => rest ← from_hex u; Ok (16 * a + b :: rest)
            | _, _ => Err ValueError
            end
        | [] => Err ValueError
        end
  end.

(** The bytes of a submitted file, where it still can be opened. *)
Context (read_file : pystr -> option bytes).

(** The header a source offers, [None] where the loop continues. *)
Definition donor (locale : pystr) (s : src_row) : res (option bytes) :=
  match from_hex (default [] (dget (lit "header_hex") s)) with
  | Err ValueError => Ok None
  | Err e => Err e
  | Ok h =>
      h ← (if pylen h =? HEADER_LEN then Ok (Some h)
           else path ← row_item "path" s; Ok (slice_to HEADER_LEN <$> read_file path));
      match h with
      | None => Ok None
      | Some h =>
          if pylen h =? HEADER_LEN then
            '(_, _, l) ← read_header_wdb h; Ok (if bool_decide (l = locale) then Some h else None)
          else Ok None
      end
  end.

(** The first of the pool, the newest captures first. *)
Fixpoint first_donor (locale : pystr) (pool : list src_row) : res (option bytes) :=
  match pool with
  | [] => Ok None
  | s :: pool => h ← donor locale s; match h with Some h => Ok (Some h) | None => first_donor locale pool end
  end.

Definition by_captured (pool : list src_row) : res (list src_row) :=
  keyed ← res_map (fun s => c ← row_item "captured" s; Ok (c, s)) pool;
  Ok (map snd (py_sort (fun a b => str_leb (fst b) (fst a)) keyed)).

Fixpoint res_filter {A} (f : A -> res bool) (l : list A) : res (list A) :=
  match l with
  | [] => Ok []
  | x :: l => b ← f x; rest ← res_filter f l; Ok (if (b : bool) then x :: rest else rest)
  end.

Definition header_for (cache slug : pystr) (srcs : list src_row) (locale : pystr) : res (option bytes) :=
  cands ← res_filter (fun s =>
    c ← row_item "cache" s;
    if bool_decide (c = cache) then n ← row_item "records" s; Ok (negb (bool_decide (n = lit "0"))) else Ok false) srcs;
  same ← res_filter (fun s => g ← row_item "slug" s; Ok (bool_decide (g = slug))) cands;
  p1 ← by_captured same;
  h ← first_donor locale p1;
  match h with
  | Some h => Ok (Some h)
  | None => p2 ← by_captured cands; first_donor locale p2
  end.

(** The bytes a client would find on disk. *)
Definition build_wdb (header : bytes) (winners : list (Z * win)) : res bytes :=
  ps ← res_map (fun entry =>
         '(_, _, payload) ← res_of_option KeyError (dget entry winners);
         e ← packI entry; n ← packI (pylen payload); Ok (e ++ n ++ payload)) (sort_Z (dkeys winners));
  Ok (header ++ concat ps ++ replicate 8 0).

(** Why a rebuilt file is refused. *)
Inductive wdb_fault := BadHeader | BadCount | NoTerminator | UnknownEntry (entry : Z) | BadPayload (entry : Z).

Fixpoint verify_records (winners : list (Z * win)) (recs : list (Z * Z * bytes)) : option wdb_fault :=
  match recs with
  | [] => None
  | (entry, _, payload) :: recs =>
      match dget entry winners with
      | None => Some (UnknownEntry entry)
      | Some (_, _, want) => if bool_decide (want = payload) then verify_records winners recs else Some (BadPayload entry)
      end
  end.

Definition verify_wdb (b : bytes) (winners : list (Z * win)) (path : pystr) : res (option wdb_fault) :=
  info ← inspect path b;
  if negb (wi_standard info) then Ok (Some BadHeader)
  else if negb (wi_records info =? pylen winners) then Ok (Some BadCount)
  else if negb (wi_clean_end info) then Ok (Some NoTerminator)
  else recs ← iter_records b HEADER_LEN; Ok (verify_records winners recs).

(** ** The two scripts *)

(** The store: sources.tsv, and index.tsv and pack.bin of every cache, in the
    order of their names. *)
Record store_files := StoreFiles {
  sf_sources : option bytes; sf_caches : list (pystr * (option bytes * option bytes)) }.

(** The slugs that carry records. *)
Definition slugs_of (srcs : list src_row) : res (list pystr) :=
  ks ← res_map (fun s => g ← row_item "slug" s;
                 match g with
                 | [] => Ok None
                 | _ => n ← row_item "records" s; Ok (if bool_decide (n = lit "0") then None else Some g)
                 end) srcs;
  Ok (py_sort str_leb (foldl (fun s g => set_add g s) [] (omap (M:=list) (fun k => k) ks))).

Definition hex64 (s : pystr) : bool :=
  (pylen s =? 64) && forallb (fun c => in_range 48 57 c || in_range 97 102 c) s.

(** [sid.isascii() and sid.isdigit()]. *)
Definition ascii_digits (s : pystr) : bool := negb (bool_decide (s = [])) && forallb is_digit s.

(** The rows of sources.tsv with an opaque path. *)
Definition public_source_row (row : src_row) : res src_row :=
  sid ← row_item "id" row; digest ← row_item "sha256" row;
  if ascii_digits sid && hex64 digest
  then Ok (dset (lit "path") (lit "sources/" ++ sid ++ [47] ++ digest ++ lit ".wdb") row)
  else Err ValueError.

Definition public_source_rows (srcs : list src_row) : res (list src_row) := res_map public_source_row srcs.

Definition export_main (st : store_files) : res (list outfile) :=
  srcs ← read_tsv (sf_sources st);
  slugs ← slugs_of srcs;
  files ← res_map (fun ci : pystr * (option bytes * option bytes) =>
    if dmem (fst ci) DECODERS then
      sources ← sources_by_id srcs;
      recs ← load_cache (fst (snd ci)) (snd (snd ci)) sources;
      export_cache (fst ci) recs sources slugs
    else Ok []) (sf_caches st);
  rows ← public_source_rows srcs;
  text ← write_tsv SRC_COLS rows;
  Ok (concat files ++ [([lit "sources.tsv"], text)]).

Definition NEVER_PUBLISH : list pystr := map lit ["itemtextcache"; "wowcache"; "lua"; ".merge-transaction"]%string.

(** What a mode of a cache was not published for. *)
Inductive rebuild_failure := NoDonor | Refused (f : wdb_fault) | GzipChanged.

Context (gunzip : bytes -> bytes).

Definition wdb_path (locale : option pystr) (slug cache : pystr) : list pystr :=
  match locale with Some l => [lit "by-locale"; l] | None => [] end ++ [slug; cache ++ lit ".wdb.gz"].

(** A mode's file, with what is wrong with it; [None] where nothing wins. *)
Definition rebuild_mode (cache slug : pystr) (recs : list observation) (sources : by_sid) (header : option bytes)
  : res (option (list outfile * list rebuild_failure)) :=
  w ← pick_winners recs (Some slug) (Some (lit "enUS")) sources;
  match w with
  | [] => Ok None
  | _ =>
      match header with
      | None => Ok (Some ([], [NoDonor]))
      | Some h =>
          let p := wdb_path None slug cache in
          data ← build_wdb h w;
          fault ← verify_wdb data w [];
          Ok (Some ([(p, gzip data)],
                    match fault with
                    | Some f => [Refused f]
                    | None => if bool_decide (gunzip (gzip data) = data) then [] else [GzipChanged]
                    end))
      end
  end.

(** A locale's file is written only after it is verified. *)
Definition rebuild_locale (cache locale slug : pystr) (recs : list observation) (sources : by_sid) (srcs : list src_row)
  : res (option (list outfile * list rebuild_failure)) :=
  w ← pick_winners recs (Some slug) (Some locale) sources;
  match w with
  | [] => Ok None
  | _ =>
      header ← header_for cache slug srcs locale;
      match header with
      | None => Ok (Some ([], [NoDonor]))
      | Some h =>
          data ← build_wdb h w;
          fault ← verify_wdb data w [];
          match fault with
          | Some f => Ok (Some ([], [Refused f]))
          | None => if bool_decide (gunzip (gzip data) = data)
                    then Ok (Some ([(wdb_path (Some locale) slug cache, gzip data)], [])) else Err RuntimeError
          end
      end
  end.

Definition rebuild_cache (cache : pystr) (recs : list observation) (sources : by_sid) (srcs : list src_row)
    (slugs : list pystr) : res (list outfile * list rebuild_failure) :=
  donors ← res_map (fun slug => header_for cache slug srcs (lit "enUS")) slugs;
  match recs with
  | [] => Ok ([], [])
  | _ =>
      modes ← res_map (fun sh => rebuild_mode cache (fst sh) recs sources (snd sh)) (zip slugs donors);
      ls ← all_locales recs;
      let ls := filter (fun l => l <> lit "enUS" /\ l <> lit "unknown") ls in
      locales ← res_map (fun l =>
        if negb (locale_ok l) then Err RuntimeError
        else res_map (fun slug => rebuild_locale cache l slug recs sources srcs) slugs) ls;
      let all := omap (M:=list) (fun r => r) (modes ++ concat locales) in
      Ok (concat (map fst all), concat (map snd all))
  end.

(** The files; a failure makes the run fail. *)
Definition rebuild_main (st : store_files) : res (list outfile * list rebuild_failure) :=
  srcs ← read_tsv (sf_sources st);
  slugs ← slugs_of srcs;
  rs ← res_map (fun ci : pystr * (option bytes * option bytes) =>
    if bool_decide (fst ci ∈ NEVER_PUBLISH) then Ok ([], [])
    else sources ← sources_by_id srcs;
         recs ← load_cache (fst (snd ci)) (snd (snd ci)) sources;
         rebuild_cache (fst ci) recs sources srcs slugs) (sf_caches st);
  Ok (concat (map fst rs), concat (map snd rs)).
End Publish.
