(* ===== verification/WdbExportSpec.v ===== *)
(** * What the publication promises

    The choice of winners does not depend on the order of the records; a view
    is published only when every record decodes exactly; a rebuilt cache file is
    read back by the client's walk as the winners it was built from; and what
    was merged is what is published, with the digest it was stored under. *)
From S2P Require Import Prelude Wire PyFloat Text Format Json Tsv.
From S2P Require Import Wdb WdbStore WdbStoreSpec WdbInferSpec WdbDecode WdbDecodeSpec WdbExport.

(** ** The order of the ranks *)

Abbreviation rank_key := (bool * (pystr * Z * pystr))%type (only parsing).

(** Equal dates, numbers and digests are equal ranks. *)
Lemma win_ltb_total (a b : rank_key) : win_ltb a b = false -> win_ltb b a = false -> a = b.
Proof.
  destruct a as [p [[d n] s]], b as [q [[e m] t]]. unfold win_ltb.
  destruct p, q; cbn [negb andb]; try done;
    destruct (str_leb e d) eqn:E1, (str_leb d e) eqn:E2; cbn [negb]; try done;
    intros H1 H2; (assert (d = e) as -> by (by apply str_leb_antisym) || (pose proof (str_leb_total _ _ E1); congruence));
    destruct (Z.ltb_spec n m), (Z.ltb_spec m n); try done; try lia; assert (n = m) as -> by lia;
    apply negb_false_iff in H1, H2; f_equal; f_equal; by apply str_leb_antisym.
Qed.

Lemma str_ltb_trans a b c : str_leb b a = false -> str_leb c b = false -> str_leb c a = false.
Proof.
  intros H1 H2. apply not_true_iff_false. intros H3. pose proof (str_leb_total _ _ H1) as H4.
  pose proof (str_leb_trans _ _ _ H3 H4). congruence.
Qed.

(** [a <= b], as the negation of [b < a]. *)
Lemma win_leb_trans (a b c : rank_key) : win_ltb b a = false -> win_ltb c b = false -> win_ltb c a = false.
Proof.
  destruct a as [p [[d n] s]], b as [q [[e m] t]], c as [r [[f k] u]]. unfold win_ltb.
  destruct p, q, r; cbn [negb andb]; try done; intros H1 H2;
    (destruct (str_leb d e) eqn:E1; cbn [negb] in H1; [|done]); (destruct (str_leb e f) eqn:E2; cbn [negb] in H2; [|done]);
    rewrite (str_leb_trans _ _ _ E1 E2); cbn [negb];
    destruct (str_leb e d) eqn:E3, (str_leb f e) eqn:E4; cbn [negb] in *; try done;
    try (rewrite (str_ltb_trans d e f) by done; done).
  all: try (assert (str_leb f d = false) as -> by
         (apply not_true_iff_false; intros E5; pose proof (str_leb_trans _ _ _ E5 E1); pose proof (str_leb_trans _ _ _ E2 E5);
          congruence); done).
  all: assert (d = e) as -> by (by apply str_leb_antisym); assert (e = f) as -> by (by apply str_leb_antisym);
    rewrite str_leb_refl; cbn [negb];
    destruct (Z.ltb_spec m n), (Z.ltb_spec n m), (Z.ltb_spec k m), (Z.ltb_spec m k), (Z.ltb_spec k n), (Z.ltb_spec n k);
    try done; try lia; apply negb_false_iff in H1, H2; apply negb_false_iff; by eapply str_leb_trans.
Qed.

Lemma win_ltb_irrefl (a : rank_key) : win_ltb a a = false.
Proof.
  destruct a as [p [[d n] s]]. unfold win_ltb. rewrite !str_leb_refl, Z.ltb_irrefl. by destruct p.
Qed.

Lemma win_ltb_asym (a b : rank_key) : win_ltb a b = true -> win_ltb b a = false.
Proof.
  destruct a as [p [[d n] s]], b as [q [[e m] t]]. unfold win_ltb.
  destruct p, q; cbn [negb andb]; try done;
    destruct (str_leb e d) eqn:E1, (str_leb d e) eqn:E2; cbn [negb]; try done;
    try (pose proof (str_leb_total _ _ E1); congruence);
    destruct (Z.ltb_spec n m), (Z.ltb_spec m n); try done; try lia; intros Hs%negb_true_iff;
    apply negb_false_iff; by apply str_leb_total.
Qed.

(** ** The greatest *)

Section Max.
Context {A : Type} (key : A -> res rank_key).

(** Among the elements, with the key that none exceeds. *)
Definition greatest (l : list A) (x : A) : Prop :=
  x ∈ l /\ exists k, key x = Ok k /\ forall y, y ∈ l -> exists k', key y = Ok k' /\ win_ltb k k' = false.

Definition step_max (best kx : rank_key * A) : rank_key * A := if win_ltb (fst best) (fst kx) then kx else best.

Lemma step_max_spec b x : (step_max b x = b \/ step_max b x = x)
  /\ win_ltb (fst (step_max b x)) (fst b) = false /\ win_ltb (fst (step_max b x)) (fst x) = false.
Proof.
  unfold step_max. destruct (win_ltb (fst b) (fst x)) eqn:E; split_and!; auto using win_ltb_irrefl, win_ltb_asym.
Qed.

Lemma foldl_max_spec l : forall b,
  foldl step_max b l ∈ b :: l /\ forall y, y ∈ b :: l -> win_ltb (fst (foldl step_max b l)) (fst y) = false.
Proof.
  induction l as [|x l IH]; intros b; cbn [foldl].
  - split; [left|]. intros y ->%list_elem_of_singleton. apply win_ltb_irrefl.
  - destruct (IH (step_max b x)) as [Hin Hmax]. destruct (step_max_spec b x) as (Hs & Hb & Hx).
    pose proof (Hmax _ (list_elem_of_here _ _)) as Hself. split.
    + apply elem_of_cons in Hin as [E|Hin]; [rewrite E|right; by right]. destruct Hs as [-> | ->]; [left|right; left].
    + intros y [->|[->|Hy]%elem_of_cons]%elem_of_cons; [exact (win_leb_trans _ _ _ Hb Hself)|exact (win_leb_trans _ _ _ Hx Hself)|].
      apply Hmax. by right.
Qed.

Lemma res_map_keyed l kl : res_map (fun x => k ← key x; Ok (k, x)) l = Ok kl ->
  map snd kl = l /\ Forall (fun kx => key (snd kx) = Ok (fst kx)) kl.
Proof.
  revert kl. induction l as [|x l IH]; intros kl Hm; cbn [res_map] in Hm; [apply Ok_inj in Hm; subst; auto|].
  inv_bind Hm. inv_bind Hm. apply Ok_inj in Hm. subst kl. destruct (IH _ eq_refl) as [<- Hk].
  inv_bind E. apply Ok_inj in E. subst. cbn [map snd]. split; [done|]. constructor; [done|done].
Qed.

Lemma py_max_greatest l x : py_max key l = Ok x -> greatest l x.
Proof.
  unfold py_max. intros Hm. inv_bind Hm. destruct (res_map_keyed _ _ E) as [<- Hk]. destruct v as [|b rest]; [done|].
  apply Ok_inj in Hm. change (snd (foldl step_max b rest) = x) in Hm. destruct (foldl_max_spec rest b) as [Hin Hmax].
  rewrite Forall_forall in Hk. subst x. split; [by apply list_elem_of_fmap_2|].
  eexists. split; [by apply Hk|]. intros y (kx & -> & Hy)%list_elem_of_fmap. eauto.
Qed.

Lemma greatest_unique l x y : (forall a b k, a ∈ l -> b ∈ l -> key a = Ok k -> key b = Ok k -> a = b) ->
  greatest l x -> greatest l y -> x = y.
Proof.
  intros Hd (Hx & k & Ek & Mx) (Hy & k' & Ek' & My). destruct (Mx y Hy) as (? & E1 & H1). destruct (My x Hx) as (? & E2 & H2).
  rewrite E1 in Ek'. apply Ok_inj in Ek'. rewrite E2 in Ek. apply Ok_inj in Ek. subst.
  apply (Hd x y k'); try done. by rewrite (win_ltb_total _ _ H1 H2) in E2.
Qed.

Lemma py_max_total l : l <> [] -> Forall (fun x => is_ok (key x) = true) l -> exists x, py_max key l = Ok x.
Proof.
  intros Hne Hk. assert (exists kl, res_map (fun x => k ← key x; Ok (k, x)) l = Ok kl) as [kl E].
  { clear Hne. induction Hk as [|x l Hx _ [kl IH]]; [eexists; reflexivity|]. cbn [res_map]. destruct (key x); [|done].
    cbn [mbind res_bind]. rewrite IH. eexists. reflexivity. }
  unfold py_max. rewrite E. cbn [mbind res_bind]. destruct kl; [|by eexists].
  apply res_map_length in E. destruct l; [done|discriminate].
Qed.
End Max.

(** ** Lists *)

Lemma res_map_perm {A B} (f : A -> res B) l l' : l ≡ₚ l' -> forall k, res_map f l = Ok k -> exists k', res_map f l' = Ok k' /\ k ≡ₚ k'.
Proof.
  induction 1 as [|x l l' _ IH|x y l|l1 l2 l3 _ IH1 _ IH2]; intros k Hk.
  - exists k. done.
  - cbn [res_map] in *. inv_bind Hk. inv_bind Hk. apply Ok_inj in Hk. subst k. destruct (IH _ eq_refl) as (k' & -> & Hp).
    eexists. split; [reflexivity|]. by constructor.
  - cbn [res_map] in *. destruct (f x) as [a|], (f y) as [b|], (res_map f l) as [c|]; try discriminate Hk.
    apply Ok_inj in Hk. subst k. eexists. split; [reflexivity|]. constructor.
  - destruct (IH1 _ Hk) as (k2 & E2 & P2). destruct (IH2 _ E2) as (k3 & E3 & P3). exists k3. split; [done|]. by transitivity k2.
Qed.

Lemma NoDup_image {A B} (f : A -> B) l x y : NoDup (map f l) -> x ∈ l -> y ∈ l -> f x = f y -> x = y.
Proof.
  intros Hn Hx Hy He. apply list_elem_of_lookup in Hx as [i Hi], Hy as [j Hj].
  assert (i = j) as ->; [|congruence]. eapply NoDup_lookup; [exact Hn| |]; apply list_lookup_fmap_Some; eauto.
Qed.

Lemma res_map_values {A B} (f : A -> res B) (d : list (Z * A)) w :
  res_map (fun ev => v ← f (snd ev); Ok (fst ev, v)) d = Ok w ->
  dkeys w = dkeys d /\ forall e v, dget e w = Some v <-> exists l, dget e d = Some l /\ f l = Ok v.
Proof.
  revert w. induction d as [|[e0 l0] d IH]; intros w Hw; cbn [res_map] in Hw.
  - apply Ok_inj in Hw. subst. split; [done|]. intros e v. split; [done|]. by intros (? & ? & ?).
  - inv_bind Hw. inv_bind Hw. apply Ok_inj in Hw. subst w. inv_bind E. apply Ok_inj in E. subst v.
    destruct (IH _ eq_refl) as [Hk Hg]. cbn [fst snd] in *. split; [unfold dkeys in *; cbn [map fst]; by rewrite Hk|].
    intros e v. cbn [dget]. destruct (decide (e = e0)) as [->|Hne].
    + split; [intros [= <-]; eauto|]. intros (l & [= <-] & Hl). congruence.
    + apply Hg.
Qed.

(** ** Grouping *)

Definition of_entry (e : Z) (cs : list (Z * win)) : list win := map snd (filter (fun c => fst c = e) cs).

Lemma group_spec cs e :
  dget e (group_entries cs) = match of_entry e cs with [] => None | l => Some l end.
Proof.
  unfold group_entries. enough (forall d,
    dget e (foldl (fun d ew => dset (fst ew) (default [] (dget (fst ew) d) ++ [snd ew]) d) d cs)
    = match of_entry e cs with [] => dget e d | l => Some (default [] (dget e d) ++ l) end) as G.
  { rewrite G. by destruct (of_entry e cs). }
  induction cs as [|[e1 w1] cs IH]; intros d; [done|]. cbn [foldl fst snd]. rewrite IH. unfold of_entry in *. clear IH.
  rewrite filter_cons. cbn [fst]. rewrite dget_dset. destruct (decide (e = e1)) as [->|Hne].
  - rewrite decide_True by done. cbn [map snd default]. destruct (map snd (filter _ cs)); [done|].
    unfold id. by rewrite <- app_assoc.
  - rewrite decide_False by congruence. done.
Qed.

Lemma group_ok cs : dict_ok (group_entries cs).
Proof.
  unfold group_entries. assert (dict_ok (@nil (Z * list win))) as Hd by apply dict_ok_nil. revert Hd.
  generalize (@nil (Z * list win)). induction cs as [|c cs IH]; intros d Hd; [done|]. cbn [foldl]. apply IH, dict_ok_dset, Hd.
Qed.

(** ** Winners *)

Definition obs_key (r : observation) : Z * pystr := fst (fst r).
Definition cand_key (c : Z * win) : Z * pystr := (fst c, fst (fst (snd c))).

Section Winners.
Context `{Unicode} (mode locale : option pystr) (sources : list (pystr * list (pystr * pystr))).

(** A candidate keeps the entry, the digest and the payload of its record. *)
Lemma candidate_keeps r c : candidate mode locale sources r = Ok (Some c) ->
  cand_key c = obs_key r /\ snd (snd c) = snd r.
Proof.
  destruct r as [[[e s] o] p]. unfold candidate. intros Hc. inv_bind Hc. destruct v; [done|].
  destruct locale as [l|]; [|by injection Hc as <-]. destruct (negb _); [done|].
  destruct sources; [by injection Hc as <-|]. inv_bind Hc. apply Ok_inj in Hc. destruct v as [o1|]; [|done]. by injection Hc as <-.
Qed.

Lemma candidates_perm recs recs' cs : recs ≡ₚ recs' -> candidates mode locale sources recs = Ok cs ->
  exists cs', candidates mode locale sources recs' = Ok cs' /\ cs ≡ₚ cs'.
Proof.
  unfold candidates. intros Hp Hc. inv_bind Hc. apply Ok_inj in Hc. subst cs.
  destruct (res_map_perm _ _ _ Hp _ E) as (k' & -> & Hk). eexists. split; [reflexivity|]. by rewrite Hk.
Qed.

Lemma candidates_from recs cs c : candidates mode locale sources recs = Ok cs ->
  c ∈ cs <-> exists r, r ∈ recs /\ candidate mode locale sources r = Ok (Some c).
Proof.
  unfold candidates. intros Hc. inv_bind Hc. apply Ok_inj in Hc. subst cs. apply res_map_Forall2 in E.
  rewrite list_elem_of_omap. split.
  - intros (x & Hx & ->). apply list_elem_of_lookup in Hx as [i Hi]. destruct (Forall2_lookup_r _ _ _ _ _ E Hi) as (r & Hr & Hc).
    exists r. split; [by eapply list_elem_of_lookup_2|done].
  - intros (r & Hr & Hc). apply list_elem_of_lookup in Hr as [i Hi]. destruct (Forall2_lookup_l _ _ _ _ _ E Hi) as (x & Hx & Ex).
    rewrite Hc in Ex. apply Ok_inj in Ex. subst x. exists (Some c). split; [by eapply list_elem_of_lookup_2|done].
Qed.

Lemma candidates_nodup recs cs : candidates mode locale sources recs = Ok cs -> NoDup (map obs_key recs) -> NoDup (map cand_key cs).
Proof.
  unfold candidates. intros Hc Hn. inv_bind Hc. apply Ok_inj in Hc. subst cs. revert v E.
  induction recs as [|r recs IH]; intros v E; cbn [res_map] in E; [apply Ok_inj in E; subst; constructor|].
  inv_bind E. inv_bind E. apply Ok_inj in E. subst v. apply NoDup_cons in Hn as [Hr Hn]. destruct v0 as [c|]; cbn [omap list_omap map];
    [|by apply IH]. constructor; [|by apply IH]. destruct (candidate_keeps r c E0) as [-> _]. intros Hin. apply Hr.
  apply list_elem_of_fmap in Hin as (c' & -> & Hc'). assert (candidates mode locale sources recs = Ok (omap (M:=list) (fun c => c) v1)) as Ec
    by (unfold candidates; rewrite E1; done).
  apply (candidates_from _ _ _ Ec) in Hc' as (r' & Hr' & Hcand). apply candidate_keeps in Hcand as [-> _]. by apply list_elem_of_fmap_2.
Qed.

Lemma of_entry_elem e cs w : w ∈ of_entry e cs <-> (e, w) ∈ cs.
Proof.
  unfold of_entry. rewrite list_elem_of_fmap. split.
  - intros ([e' w'] & -> & [Hf Hin]%list_elem_of_filter). cbn in *. by subst.
  - intros Hin. exists (e, w). split; [done|]. by apply list_elem_of_filter.
Qed.

(** An entry is published when it has a candidate, with one that none of its
    candidates outranks. *)
Lemma pick_winners_spec recs w : pick_winners recs mode locale sources = Ok w ->
  exists cs, candidates mode locale sources recs = Ok cs /\ dict_ok w
  /\ forall e, match dget e w with
               | Some x => greatest (win_key mode locale) (of_entry e cs) x
               | None => of_entry e cs = []
               end.
Proof.
  unfold pick_winners. intros Hw. inv_bind Hw. exists v. split; [done|].
  destruct (res_map_values (py_max (win_key mode locale)) _ _ Hw) as [Hk Hg]. split; [unfold dict_ok; rewrite Hk; apply group_ok|].
  intros e. destruct (dget e w) as [x|] eqn:Ex.
  - apply Hg in Ex as (l & Hl & Hm). rewrite group_spec in Hl. destruct (of_entry e v) as [|y l'] eqn:El; [done|].
    injection Hl as <-. by apply py_max_greatest.
  - apply dget_None_keys in Ex. rewrite Hk in Ex. apply dget_None_keys in Ex. rewrite group_spec in Ex.
    by destruct (of_entry e v).
Qed.

Lemma winners_unique recs cs e : candidates mode locale sources recs = Ok cs -> NoDup (map obs_key recs) ->
  forall a b k, a ∈ of_entry e cs -> b ∈ of_entry e cs -> win_key mode locale a = Ok k -> win_key mode locale b = Ok k -> a = b.
Proof.
  intros Hc Hn a b k Ha%of_entry_elem Hb%of_entry_elem Ka Kb.
  assert ((e, a) = (e, b)) as E; [|by injection E].
  apply (NoDup_image cand_key cs); [by eapply candidates_nodup|done..|]. unfold cand_key. cbn [fst snd]. f_equal.
  destruct a as [[sa oa] pa], b as [[sb ob] pb]. unfold win_key, winner_rank in *. cbn [fst].
  inv_bind Ka. inv_bind E. apply Ok_inj in E. apply Ok_inj in Ka. inv_bind Kb. inv_bind E1. apply Ok_inj in E1. apply Ok_inj in Kb.
  subst. injection Kb as _ <-. congruence.
Qed.

Lemma pick_winners_exists recs cs : candidates mode locale sources recs = Ok cs ->
  (forall e x, (e, x) ∈ cs -> is_ok (win_key mode locale x) = true) -> exists w, pick_winners recs mode locale sources = Ok w.
Proof.
  intros Hc Hk. unfold pick_winners. rewrite Hc. cbn [mbind res_bind].
  assert (Forall (fun ev => exists x, py_max (win_key mode locale) (snd ev) = Ok x) (group_entries cs)) as Hg.
  { apply Forall_forall. intros [e l] Hin. apply elem_of_dget in Hin; [|apply group_ok]. rewrite group_spec in Hin.
    cbn [snd]. apply py_max_total; [by destruct (of_entry e cs); simplify_eq|]. apply Forall_forall. intros x Hx. apply (Hk e).
    apply of_entry_elem. by destruct (of_entry e cs); simplify_eq. }
  induction Hg as [|ev d [x Hx] _ [w IH]]; [eexists; reflexivity|]. cbn [res_map]. rewrite Hx. cbn [mbind res_bind].
  rewrite IH. eexists. reflexivity.
Qed.

Lemma of_entry_perm e cs cs' : cs ≡ₚ cs' -> of_entry e cs ≡ₚ of_entry e cs'.
Proof. intros Hp. unfold of_entry. apply Permutation_map. by rewrite Hp. Qed.

Lemma winner_keyed recs cs w : candidates mode locale sources recs = Ok cs -> pick_winners recs mode locale sources = Ok w ->
  forall e x, (e, x) ∈ cs -> is_ok (win_key mode locale x) = true.
Proof.
  intros Hc Hw e x Hx%of_entry_elem. destruct (pick_winners_spec _ _ Hw) as (cs' & Hc' & _ & Hg). rewrite Hc in Hc'.
  apply Ok_inj in Hc'. subst cs'. specialize (Hg e). destruct (dget e w) as [y|].
  - destruct Hg as (_ & k & _ & Hm). destruct (Hm x Hx) as (k' & -> & _). done.
  - rewrite Hg in Hx. by apply elem_of_nil in Hx.
Qed.

(** C23: The published table does not depend on the order in which records were
    collected: whatever the order, the same observation wins for every entry,
    as long as no record is listed twice. *)
Theorem winners_order_free recs recs' w :
  recs ≡ₚ recs' -> NoDup (map obs_key recs) -> pick_winners recs mode locale sources = Ok w ->
  exists w', pick_winners recs' mode locale sources = Ok w' /\ forall e, dget e w' = dget e w.
Proof.
  intros Hp Hn Hw. destruct (pick_winners_spec _ _ Hw) as (cs & Hc & _ & Hg).
  destruct (candidates_perm _ _ _ Hp Hc) as (cs' & Hc' & Hcs).
  destruct (pick_winners_exists recs' cs' Hc') as [w' Hw'].
  { intros e x Hx. apply (winner_keyed _ _ _ Hc Hw e). by rewrite Hcs. }
  exists w'. split; [done|]. intros e. destruct (pick_winners_spec _ _ Hw') as (cs2 & Hc2 & _ & Hg').
  rewrite Hc' in Hc2. apply Ok_inj in Hc2. subst cs2. specialize (Hg e). specialize (Hg' e).
  pose proof (of_entry_perm e _ _ Hcs) as He. destruct (dget e w) as [x|].
  - destruct (dget e w') as [y|].
    + f_equal. refine (greatest_unique _ _ _ _ (winners_unique recs cs e Hc Hn) _ Hg).
      destruct Hg' as (Hy & k & Ek & Hm). split; [by rewrite He|]. exists k. split; [done|]. intros z Hz. apply Hm. by rewrite <- He.
    + rewrite Hg' in He. apply Permutation_nil_r in He. destruct Hg as [Hx _]. rewrite He in Hx. by apply elem_of_nil in Hx.
  - rewrite Hg in He. apply Permutation_nil_l in He. destruct (dget e w') as [y|]; [|done]. destruct Hg' as [Hy _].
    rewrite <- He in Hy. by apply elem_of_nil in Hy.
Qed.

(** What an undated observation may not do: it has no date, a winner without a
    date was seen earlier, and it is of the preferred locale only if the winner
    is. *)
Definition undated_after (x y : win) : Prop :=
  exists bx dx nx sx byy sy ny,
    win_key mode locale x = Ok (bx, (dx, nx, sx)) /\ win_key mode locale y = Ok (byy, ([], ny, sy))
    /\ (byy = true -> bx = true) /\ (dx <> [] \/ ny < nx).

Lemma undated_below x y k k' : undated_after x y -> win_key mode locale x = Ok k -> win_key mode locale y = Ok k' ->
  win_ltb k k' = false.
Proof.
  intros (bx & dx & nx & sx & byy & sy & ny & -> & -> & Hb & Hd) Ek Ek'. apply Ok_inj in Ek, Ek'. subst. unfold win_ltb.
  assert (str_leb [] dx = true) as -> by done. cbn [negb].
  destruct bx, byy; cbn [negb andb]; try done; try (by specialize (Hb eq_refl));
    (destruct dx; [destruct Hd as [Hd|Hd]; [done|]; rewrite (proj2 (Z.ltb_ge _ _)) by lia; by rewrite (proj2 (Z.ltb_lt _ _)) by lia
                  |done]).
Qed.

(** An undated observation that arrives later never replaces what is
    published: neither a dated observation nor one that was seen before it. *)
Theorem selected_stays recs r e x y w w' :
  NoDup (map obs_key (r :: recs)) -> pick_winners recs mode locale sources = Ok w -> dget e w = Some x ->
  candidate mode locale sources r = Ok (Some (e, y)) -> undated_after x y ->
  pick_winners (recs ++ [r]) mode locale sources = Ok w' -> dget e w' = Some x.
Proof.
  intros Hn Hw Hx Hr Hu Hw'. destruct (pick_winners_spec _ _ Hw) as (cs & Hc & _ & Hg). specialize (Hg e). rewrite Hx in Hg.
  destruct (pick_winners_spec _ _ Hw') as (cs2 & Hc2 & _ & Hg2). specialize (Hg2 e).
  assert (r :: recs ≡ₚ recs ++ [r]) as Hp by (rewrite Permutation_app_comm; done).
  destruct (candidates_perm _ (r :: recs) cs2 (Permutation_sym Hp) Hc2) as (cs1 & Hc1 & P1).
  assert (cs1 = (e, y) :: cs) as ->.
  { unfold candidates in *. cbn [res_map] in Hc1. rewrite Hr in Hc1. cbn [mbind res_bind] in Hc1.
    destruct (res_map _ recs) as [l|]; [|done]. apply Ok_inj in Hc, Hc1. by subst. }
  assert (greatest (win_key mode locale) (of_entry e ((e, y) :: cs)) x) as G.
  { unfold of_entry. rewrite filter_cons_True by done. cbn [map snd]. destruct Hg as (Hin & k & Ek & Hm).
    split; [by right|]. exists k. split; [done|]. intros z [->|Hz]%elem_of_cons; [|by apply Hm].
    destruct (win_key mode locale y) as [k'|] eqn:Ey; [|by destruct Hu as (? & ? & ? & ? & ? & ? & ? & _ & E & _); rewrite Ey in E].
    exists k'. split; [done|]. by eapply undated_below. }
  pose proof (of_entry_perm e _ _ P1) as He. destruct (dget e w') as [z|].
  - f_equal. refine (greatest_unique _ _ _ _ (winners_unique (r :: recs) ((e, y) :: cs) e Hc1 Hn) _ G). destruct Hg2 as (Hz & k & Ek & Hm).
    split; [by rewrite <- He|]. exists k. split; [done|]. intros u Hu'. apply Hm. by rewrite He.
  - rewrite Hg2 in He. apply Permutation_nil_l in He. destruct G as [Hin _]. rewrite <- He in Hin. by apply elem_of_nil in Hin.
Qed.
End Winners.

(** ** The small store, published *)

Definition sample_by_id := Eval vm_compute in match rows_by_id (fst sample_repaired) with Ok x => x | Err _ => [] end.
Definition sample_index := Eval vm_compute in default [] (dget (lit "itemcache") (snd sample_repaired)).
Definition sample_index_text := Eval vm_compute in
  match index_table (fst sample_repaired) sample_by_id (lit "itemcache", sample_index) with Ok (_, t) => t | Err _ => [] end.
Definition sample_pack := Eval vm_compute in pack_at sample_merged (lit "itemcache").
Definition sample_sources := Eval vm_compute in
  match rows ← read_tsv (Some (snd sample_table)); sources_by_id rows with Ok x => x | Err _ => [] end.
Definition sample_obs := Eval vm_compute in
  match load_cache (Some sample_index_text) (Some sample_pack) sample_sources with Ok x => x | Err _ => [] end.

(** The digest that wins an entry. *)
Definition digest_of (e : Z) (w : list (Z * win)) : option pystr := fst ∘ fst <$> dget e w.

Definition sample_won := Eval vm_compute in
  match pick_winners sample_obs (Some (lit "free-pick")) (Some (lit "enUS")) sample_sources with Ok w => w | Err _ => [] end.

Lemma winners_order_free_witness :
  exists w, pick_winners (rev sample_obs) (Some (lit "free-pick")) (Some (lit "enUS")) sample_sources = Ok w
  /\ digest_of 17 w = Some (lit "e").
Proof.
  destruct (winners_order_free (Some (lit "free-pick")) (Some (lit "enUS")) sample_sources sample_obs (rev sample_obs) sample_won)
    as (w & Hw & Hg).
  - apply Permutation_rev.
  - by_decide.
  - vm_compute. reflexivity.
  - exists w. split; [exact Hw|]. unfold digest_of. rewrite Hg. reflexivity.
Defined.

(** An upload that carries no date, of an entry already published. *)
Definition sample_upload : observation :=
  (17, lit "zz", Obs [(lit "modes", lit "draft"); (lit "srcs", lit "5"); (lit "last_captured", []); (lit "locales", lit "enUS")]
                     (Capture [] [(STAR, 5)] []), [7]).

Definition digest_after (r : res (list (Z * win))) (e : Z) : option pystr := match r with Ok w => digest_of e w | Err _ => None end.

Lemma selected_stays_witness : digest_after (pick_winners (sample_obs ++ [sample_upload]) None None sample_sources) 17 = Some (lit "e").
Proof.
  destruct (pick_winners sample_obs None None sample_sources) as [w|] eqn:Ew; [|vm_compute in Ew; discriminate].
  destruct (pick_winners (sample_obs ++ [sample_upload]) None None sample_sources) as [w'|] eqn:Ew'; [|vm_compute in Ew'; discriminate].
  destruct (dget 17 w) as [x|] eqn:Ex.
  - unfold digest_after, digest_of.
    rewrite (selected_stays None None sample_sources sample_obs sample_upload 17 x (snd (fst (fst sample_upload)), snd (fst sample_upload), [7]) w w').
    + vm_compute in Ew. injection Ew as <-. vm_compute in Ex. injection Ex as <-. reflexivity.
    + by_decide.
    + exact Ew.
    + exact Ex.
    + reflexivity.
    + vm_compute in Ew. injection Ew as <-. vm_compute in Ex. injection Ex as <-.
      do 7 eexists. split; [vm_compute; reflexivity|]. split; [vm_compute; reflexivity|]. split; [done|]. by left.
    + exact Ew'.
  - vm_compute in Ew. injection Ew as <-. vm_compute in Ex. discriminate.
Defined.
