(* ===== verification/WdbPublishSpec.v ===== *)
(** * From the store to the client

    A view is published only when every winner decodes exactly; a rebuilt
    cache file is read back by the client's walk as the winners it was built
    from; and what export and rebuild load is what the merge stored, each
    payload with the digest it is filed under. *)
From S2P Require Import Prelude Wire PyFloat Text Format Json LuaLex LuaSpec Tsv.
From S2P Require Import Wdb WdbStore WdbStoreSpec WdbInferSpec WdbDecode WdbDecodeSpec WdbExport WdbExportSpec.

(** ** The decoder of each cache *)

(** The format of the records of a published cache. *)
Definition RECORD_FORMATS : list (pystr * (Z -> format (list (pystr * cell)))) :=
  [(lit "itemcache", item_fmt); (lit "creaturecache", creature_fmt); (lit "gameobjectcache", go_fmt);
   (lit "questcache", fun e s row => exists qid, quest_fmt e s (row, qid)); (lit "pagetextcache", pagetext_fmt);
   (lit "npccache", npctext_fmt); (lit "itemnamecache", itemname_fmt)].

Lemma quest_view_exact e b row : is_bytes b ->
  ('(d, o, _) ← decode_quest e b; Ok (d, o)) = Ok (row, pylen b) <-> exists qid, quest_fmt e b (row, qid).
Proof.
  intros Hb. split.
  - intros Hd. inv_bind Hd. destruct v as [[d o] qid]. apply Ok_inj in Hd. injection Hd as -> ->. exists qid. by apply quest_exact.
  - intros [qid Hq%quest_exact]; [|done]. by rewrite Hq.
Qed.

Definition decodes_as (dec : (Z -> bytes -> res (list (pystr * cell) * Z)) * list pystr)
    (fmt : Z -> format (list (pystr * cell))) : Prop :=
  forall e b row, is_bytes b -> fst dec e b = Ok (row, pylen b) <-> fmt e b row.

Lemma exact_all : Forall2 (fun de fe => fst de = fst fe /\ decodes_as (snd de) (snd fe)) DECODERS RECORD_FORMATS.
Proof.
  unfold DECODERS, RECORD_FORMATS.
  apply Forall2_cons_2; [split; [reflexivity|exact item_exact]|].
  apply Forall2_cons_2; [split; [reflexivity|exact creature_exact]|].
  apply Forall2_cons_2; [split; [reflexivity|exact go_exact]|].
  apply Forall2_cons_2; [split; [reflexivity|exact quest_view_exact]|].
  apply Forall2_cons_2; [split; [reflexivity|exact pagetext_exact]|].
  apply Forall2_cons_2; [split; [reflexivity|exact npctext_full_exact]|].
  apply Forall2_cons_2; [split; [reflexivity|exact itemname_exact]|].
  apply Forall2_nil_2.
Qed.

Lemma dget_Forall2 {A B} (R : A -> B -> Prop) (l : list (pystr * A)) (k : list (pystr * B)) cache x :
  Forall2 (fun a b => fst a = fst b /\ R (snd a) (snd b)) l k -> dget cache l = Some x ->
  exists y, dget cache k = Some y /\ R x y.
Proof.
  induction 1 as [|[c a] [c' b] l k [Hc Hr] _ IH]; [done|]. cbn in Hc, Hr |- *. subst c'. cbn [dget].
  case_decide; [|done]. intros [= <-]. eauto.
Qed.

(** C22: Which records a publication takes as they are.  A payload of any of
    the seven published caches is decoded with nothing missing and nothing left
    over exactly when it is a wire form of the cache's layout, and then the row
    is the one this form spells. *)
Theorem exact_records cache fn cols entry b row :
  dget cache DECODERS = Some (fn, cols) -> is_bytes b ->
  fn entry b = Ok (row, pylen b) <-> exists fmt, dget cache RECORD_FORMATS = Some fmt /\ fmt entry b row.
Proof.
  intros Hc Hb. destruct (dget_Forall2 _ _ _ _ _ exact_all Hc) as (fmt & Hf & He). rewrite (He entry b row Hb : fn entry b = _ <-> _). split; [eauto|].
  intros (f & Ef & Hr). rewrite Hf in Ef. by injection Ef as <-.
Qed.

Lemma exact_records_witness :
  decode_pagetext 9 (lit "Dear" ++ [0] ++ le 4 17)
  = Ok ([(lit "entry", CInt 9); (lit "Text", CText (lit "Dear")); (lit "NextPageId", CInt 17)], 9).
Proof.
  apply (exact_records (lit "pagetextcache") decode_pagetext PAGETEXT_COLS).
  - reflexivity.
  - by_decide.
  - eexists. split; [reflexivity|]. apply pagetext_exact; [by_decide|reflexivity].
Defined.

(** ** The text of a view *)

Lemma view_cell_free d c x : x = 9 \/ x = 10 -> x ∉ view_cell d c.
Proof.
  intros Hx Hin. unfold view_cell in Hin. apply list_elem_of_fmap in Hin as (y & -> & _).
  destruct ((y =? 9) || (y =? 10)) eqn:E; [lia|]. apply orb_false_iff in E as [?%Z.eqb_neq ?%Z.eqb_neq]. lia.
Qed.

(** No column has a tab or an end of line in its name. *)
Lemma columns_free : Forall (fun de : pystr * ((Z -> bytes -> res (list (pystr * cell) * Z)) * list pystr) =>
  forall x, x = 9 \/ x = 10 -> Forall (fun c => x ∉ c) (snd (snd de) ++ PROV)) DECODERS.
Proof.
  assert (forallb (fun de : pystr * ((Z -> bytes -> res (list (pystr * cell) * Z)) * list pystr) =>
    forallb (forallb (fun c => negb (c =? 9) && negb (c =? 10))) (snd (snd de) ++ PROV)) DECODERS = true) as E by by_decide.
  rewrite Forall_forall. intros de Hin%list_elem_of_In x Hx. rewrite forallb_forall in E. specialize (E de Hin).
  rewrite forallb_forall in E. apply Forall_forall. intros c Hc%list_elem_of_In Hbad%list_elem_of_In. specialize (E c Hc).
  rewrite forallb_forall in E. specialize (E x Hbad). cbv beta in E. destruct Hx as [-> | ->]; done.
Qed.

(** A joined line has no end of line. *)
Lemma join_free (l : list pystr) : Forall (fun c => 10 ∉ c) l -> 10 ∉ join [9] l.
Proof.
  intros Hl Hin. assert (Forall (fun x => x <> 10) (join [9] l)) as Hj.
  { apply join_Forall; [done|]. eapply Forall_impl; [exact Hl|]. intros c Hc. apply Forall_forall. intros x Hx ->. done. }
  rewrite Forall_forall in Hj. by apply (Hj 10).
Qed.

(** Lines that were joined are split into their cells again. *)
Lemma split_table (rows : list (list pystr)) :
  Forall (fun r => r <> [] /\ Forall (fun c => 9 ∉ c) r /\ Forall (fun c => 10 ∉ c) r) rows ->
  map (split_on 9) (split_on 10 (concat (map (fun r => join [9] r ++ [10]) rows))) = rows ++ [[[]]].
Proof.
  induction 1 as [|r rows (Hne & H9 & H10) _ IH]; [done|]. cbn [map concat]. rewrite <- app_assoc. cbn [app].
  rewrite split_on_app by (by apply join_free). cbn [map]. rewrite split_on_join by done. cbn [app]. by rewrite IH.
Qed.

Section View.
Context `{Unicode} (fn : Z -> bytes -> res (list (pystr * cell) * Z)) (allcols : list pystr) (note_cols : bool)
  (mode : option pystr) (winners : list (Z * (pystr * obs * bytes))).

(** The row of a winner that decodes exactly. *)
Definition exact_row (e : Z) (row : list (pystr * cell)) : Prop :=
  exists s o payload d, dget e winners = Some (s, o, payload) /\ fn e payload = Ok (d, pylen payload)
    /\ (if note_cols then with_prov mode o d else Ok d) = Ok row.

Lemma view_entry_grows v e v' : view_entry fn allcols note_cols mode winners v e = Ok v' ->
  vw_bad v <= vw_bad v' /\ vw_inexact v <= vw_inexact v'
  /\ (vw_bad v' = vw_bad v -> vw_inexact v' = vw_inexact v ->
      exists row, exact_row e row /\ vw_lines v' = vw_lines v ++ [join [9] (map (view_cell row) allcols) ++ [10]]).
Proof.
  unfold view_entry. intros Hv. inv_bind Hv. destruct v0 as [[s o] payload].
  assert (dget e winners = Some (s, o, payload)) as Ew by (destruct (dget e winners); [by apply Ok_inj in E; subst|done]).
  destruct (fn e payload) as [[d consumed]|] eqn:Ed; cbn [vw_bad vw_inexact] in *.
  - inv_bind Hv. apply Ok_inj in Hv. subst v'. cbn [vw_bad vw_inexact vw_lines]. destruct (Z.eqb_spec consumed (pylen payload)); split_and!; try lia.
    intros _ _. exists v0. split; [|done]. exists s, o, payload, d. split_and!; [done|by subst|done].
  - apply Ok_inj in Hv. subst v'. cbn. split_and!; lia.
Qed.

Lemma view_lines es : forall v v', res_fold (view_entry fn allcols note_cols mode winners) v es = Ok v' ->
  vw_bad v <= vw_bad v' /\ vw_inexact v <= vw_inexact v'
  /\ (vw_bad v' = vw_bad v -> vw_inexact v' = vw_inexact v ->
      exists rows, Forall2 exact_row es rows
        /\ vw_lines v' = vw_lines v ++ map (fun row => join [9] (map (view_cell row) allcols) ++ [10]) rows).
Proof.
  induction es as [|e es IH]; intros v v' Hv; cbn [res_fold] in Hv.
  - apply Ok_inj in Hv. subst. split_and!; [lia..|]. intros _ _. exists []. rewrite app_nil_r. auto.
  - inv_bind Hv. destruct (view_entry_grows _ _ _ E) as (B1 & I1 & R1). destruct (IH _ _ Hv) as (B2 & I2 & R2).
    split_and!; [lia..|]. intros Hb Hi. destruct R1 as (row & Hr & L1); [lia..|]. destruct R2 as (rows & Hrs & L2); [lia..|].
    exists (row :: rows). split; [by constructor|]. rewrite L2, L1. cbn [map]. by rewrite <- app_assoc.
Qed.
End View.


(** ** The rebuilt file *)

Section Rebuilt.
Context (winners : list (Z * (pystr * obs * bytes))).

(** The payload that won an entry. *)
Definition won (e : Z) : Z * bytes := (e, match dget e winners with Some (_, _, p) => p | None => [] end).
Definition won_all : list (Z * bytes) := map won (sort_Z (dkeys winners)).

Lemma build_wdb_ok header : (forall e, e ∈ dkeys winners -> record_ok (won e)) ->
  build_wdb header winners = Ok (header ++ wdb_body won_all ++ replicate 8 0).
Proof.
  intros Hr. unfold build_wdb. set (f := fun entry : Z => _).
  assert (forall es, Forall (fun e => e ∈ dkeys winners) es ->
    res_map f es = Ok (map (fun e => wdb_record (fst (won e)) (snd (won e))) es)) as Hm.
  { induction 1 as [|e es He _ IH]; [done|]. cbn [res_map map]. rewrite IH. destruct (Hr e He) as (B & L & _).
    unfold f at 1. unfold won in *. cbn [fst snd] in *. destruct (dget e winners) as [[[s o] p]|] eqn:Ee; [|by apply dget_None_keys in Ee].
    cbn [res_of_option mbind res_bind]. rewrite (packI_ok e) by exact B. cbn [mbind res_bind].
    rewrite (packI_ok (pylen p)) by (pose proof (pylen_nonneg p); unfold MAX_SIZE in L; lia). done. }
  rewrite Hm by (apply Forall_forall; intros e He; by apply sort_Z_elem). cbn [mbind res_bind]. do 3 f_equal.
  unfold won_all, wdb_body. by rewrite flat_map_concat_map, map_map.
Qed.

(** Eight zero bytes are no record. *)
Lemma terminator_ends : no_record (replicate 8 0).
Proof.
  intros r c Hr E. pose proof (wdb_next_record r c Hr) as E2. rewrite <- E in E2. vm_compute in E2. discriminate.
Qed.

(** A header is known by its first twelve bytes. *)
Lemma header_read h b : 12 <= pylen h -> read_header_wdb (h ++ b) = read_header_wdb h.
Proof.
  intros Hl. unfold read_header_wdb, unpackI, unpack_u. rewrite pylen_app. pose proof (pylen_nonneg b).
  rewrite !(proj2 (Z.leb_le _ _)) by lia. cbn [andb]. unfold slice.
  assert (forall n k, (n + k <= 12)%nat -> take k (drop n (h ++ b)) = take k (drop n h)) as Ht.
  { intros n k Hn. unfold pylen in Hl. rewrite drop_app_le by lia. rewrite take_app_le; [done|]. rewrite length_drop. lia. }
  rewrite !Ht by (vm_compute; lia). done.
Qed.

Lemma verify_won es : Forall (fun e => e ∈ dkeys winners) es -> verify_records winners (map sized (map won es)) = None.
Proof.
  induction 1 as [|e es He _ IH]; [done|]. cbn [map verify_records]. unfold sized at 1, won at 1. cbn [fst snd].
  destruct (dget e winners) as [[[s o] p]|] eqn:Ee; [|by apply dget_None_keys in Ee].
  cbn [fst snd]. unfold won at 1 2. rewrite Ee. rewrite bool_decide_eq_true_2 by done. exact IH.
Qed.

(** What [verify_wdb] finds in the file that was built. *)
Lemma verify_built header kl : (forall e, e ∈ dkeys winners -> record_ok (won e)) -> NoDup (dkeys winners) ->
  pylen header = HEADER_LEN -> known_magic header = Some kl ->
  let b := header ++ wdb_body won_all ++ replicate 8 0 in
  iter_records b HEADER_LEN = Ok (map sized won_all)
  /\ forall path, exists info, inspect path b = Ok info /\ wi_standard info = true /\ wi_records info = pylen winners
      /\ wi_clean_end info = true /\ verify_wdb b winners path = Ok None.
Proof.
  intros Hr Hn Hh Hk b. assert (Forall record_ok won_all) as Hok.
  { apply Forall_map, Forall_forall. intros e He. by apply Hr, sort_Z_elem. }
  assert (is_bytes (replicate 8 0)) as Hz by by_decide.
  destruct (walk won_all (replicate 8 0) header (S (length b)) Hok Hz terminator_ends) as [E1 E2].
  { unfold b. rewrite !length_app. pose proof (length_body won_all). lia. }
  fold b in E1, E2. rewrite Hh in E1, E2. split; [exact E1|]. intros path.
  assert (read_header_wdb b = read_header_wdb header) as Eh by (apply header_read; rewrite Hh; unfold HEADER_LEN; lia).
  assert (known_magic b = Some kl) as Ek by (unfold known_magic in *; by rewrite Eh).
  assert (exists info, inspect path b = Ok info /\ wi_standard info = true /\ wi_records info = pylen winners /\ wi_clean_end info = true)
    as (info & Ei & Es & Er & Ec).
  { unfold inspect. assert (pylen b <? 12 = false) as ->.
    { unfold b. rewrite pylen_app, Hh. pose proof (pylen_nonneg (wdb_body won_all ++ replicate 8 0)). unfold HEADER_LEN. apply Z.ltb_ge. lia. }
    rewrite Ek. assert (exists x, read_header_wdb b = Ok x) as [[[m bd] l] ->].
    { unfold known_magic in Ek. destruct (read_header_wdb b); [by eexists|done]. }
    cbn [mbind res_bind]. destruct kl as [cache label]. rewrite E2. cbn [mbind res_bind]. eexists. split; [reflexivity|].
    cbn [wi_standard wi_records wi_clean_end]. split_and!; [done| |done].
    unfold won_all, pylen. rewrite length_map. unfold sort_Z. rewrite py_sort_perm. unfold dkeys. rewrite length_map. lia. }
  exists info. split_and!; [done..|]. unfold verify_wdb. rewrite Ei. cbn [mbind res_bind].
  rewrite Es, Er, Ec, Z.eqb_refl. cbn [negb]. rewrite (E1 : iter_records b HEADER_LEN = _). cbn [mbind res_bind]. f_equal.
  apply verify_won, Forall_forall. intros e. apply sort_Z_elem.
Qed.
End Rebuilt.

Lemma winner_from `{Unicode} mode locale sources recs w e s o p :
  pick_winners recs mode locale sources = Ok w -> dget e w = Some (s, o, p) -> exists o', (e, s, o', p) ∈ recs.
Proof.
  intros Hw He. destruct (pick_winners_spec _ _ _ _ _ Hw) as (cs & Hc & _ & Hg). specialize (Hg e). rewrite He in Hg.
  destruct Hg as [Hin%of_entry_elem _]. apply (candidates_from _ _ _ _ _ _ Hc) in Hin as ([[[e' s'] o'] p'] & Hr & Hcand).
  apply candidate_keeps in Hcand as [Hk Hp]. unfold cand_key, obs_key in Hk. cbn in Hk, Hp. injection Hk as -> ->. subst p. eauto.
Qed.

(** C13: A rebuilt cache file is what the client finds.  For every mode with a
    winner and a donor header of a known kind the rebuild succeeds without a
    complaint, and the client's walk over the published bytes reads exactly one
    record per entry that has a winner, in the order of the entries, each with
    the winner's bytes. *)
Theorem rebuilt_reads_back `{Unicode} gzip gunzip cache slug recs sources header kl w :
  pick_winners recs (Some slug) (Some (lit "enUS")) sources = Ok w -> w <> [] ->
  Forall (fun r : Z * pystr * obs * bytes => let '(e, _, _, p) := r in record_ok (e, p)) recs ->
  pylen header = HEADER_LEN -> known_magic header = Some kl -> (forall b, gunzip (gzip b) = b) ->
  exists data, rebuild_mode gzip gunzip cache slug recs sources (Some header)
               = Ok (Some ([(wdb_path None slug cache, gzip data)], []))
    /\ iter_records data HEADER_LEN = Ok (map sized (won_all w))
    /\ (forall e p, (e, p) ∈ won_all w <-> exists s o, dget e w = Some (s, o, p))
    /\ StronglySorted Z.lt (map fst (won_all w)).
Proof.
  intros Hw Hne Hr Hh Hk Hz. destruct (pick_winners_spec _ _ _ _ _ Hw) as (_ & _ & Hd & _).
  assert (forall e, e ∈ dkeys w -> record_ok (won w e)) as Hok.
  { intros e He. unfold won. destruct (dget e w) as [[[s o] p]|] eqn:Ee; [|by apply dget_None_keys in Ee].
    destruct (winner_from _ _ _ _ _ _ _ _ _ Hw Ee) as [o' Hin]. rewrite Forall_forall in Hr. exact (Hr _ Hin). }
  destruct (verify_built w header kl Hok Hd Hh Hk) as [Hi Hv]. exists (header ++ wdb_body (won_all w) ++ replicate 8 0).
  split; [|split; [exact Hi|split]].
  - unfold rebuild_mode. rewrite Hw. cbn [mbind res_bind]. destruct w as [|x w]; [done|]. rewrite (build_wdb_ok _ header Hok).
    cbn [mbind res_bind]. destruct (Hv []) as (info & _ & _ & _ & _ & ->). cbn [mbind res_bind].
    by rewrite Hz, bool_decide_eq_true_2 by done.
  - intros e p. unfold won_all. rewrite list_elem_of_fmap. split.
    + intros (e' & He & Hin). rewrite sort_Z_elem in Hin. unfold won in He. destruct (dget e' w) as [[[s o] q]|] eqn:Ee;
        [injection He as -> ->; eauto|by apply dget_None_keys in Ee].
    + intros (s & o & He). exists e. split; [by unfold won; rewrite He|]. apply sort_Z_elem.
      destruct (decide (e ∈ dkeys w)) as [?|Hn]; [done|]. apply dget_None_keys in Hn. congruence.
  - unfold won_all. rewrite map_map. unfold won. cbn [fst]. rewrite map_id. by apply sort_Z_strict.
Qed.

(** ** What is loaded is what was merged *)

Section Loaded.
Context `{Unicode} (sha1_hex : bytes -> pystr).

(** Where a record is, its payload is. *)
Lemma stored_slice pack k r : stored sha1_hex pack k r ->
  exists payload, slice (ix_offset r + 8) (ix_offset r + 8 + ix_size r) pack = payload /\ sha1_hex payload = snd k.
Proof.
  intros (pre & payload & rest & -> & -> & -> & Hs). exists payload. by rewrite slice_record.
Qed.

(** The row of a record, as it is read back, has its number, its digest and
    its place. *)
Lemma index_line_fields srcs by_id kr row : index_line srcs by_id kr = Ok row ->
  map (fun c => dget c row) [lit "entry"; lit "sha1"; lit "size"; lit "offset"]
  = [Some (str_of_Z (fst (fst kr))); Some (snd (fst kr)); Some (str_of_Z (ix_size (snd kr))); Some (str_of_Z (ix_offset (snd kr)))].
Proof.
  unfold index_line. intros Hl. inv_bind Hl. inv_bind Hl. inv_bind Hl. apply Ok_inj in Hl. by subst row.
Qed.

Lemma load_obs_line blob sources srcs by_id kr row rec :
  index_line srcs by_id kr = Ok row -> load_obs blob sources (tsv_read_row IDX_COLS row) = Ok rec ->
  obs_key rec = fst kr
  /\ snd rec = slice (ix_offset (snd kr) + 8) (ix_offset (snd kr) + 8 + ix_size (snd kr)) blob.
Proof.
  intros Hl Hr. apply index_line_fields in Hl. cbn [map] in Hl. injection Hl as He Hs Hz Ho. unfold load_obs in Hr.
  inv_bind Hr. inv_bind Hr.
  assert (forall k v c, lit k <> lit "locales" -> lit k ∈ IDX_COLS -> dget (lit k) row = Some c ->
    row_item k (dset (lit "locales") v (tsv_read_row IDX_COLS row)) = Ok c) as Hg.
  { intros k v' c Hk Hc Hd. unfold row_item. rewrite dget_dset_ne by done. rewrite dget_read_row by done. by rewrite Hd. }
  rewrite (Hg "offset"%string _ _ ltac:(by_decide) ltac:(by_decide) Ho) in Hr. cbn [mbind res_bind] in Hr. rewrite int_of_text in Hr.
  rewrite (Hg "size"%string _ _ ltac:(by_decide) ltac:(by_decide) Hz) in Hr. cbn [mbind res_bind] in Hr. rewrite int_of_text in Hr.
  rewrite (Hg "entry"%string _ _ ltac:(by_decide) ltac:(by_decide) He) in Hr. cbn [mbind res_bind] in Hr. rewrite int_of_text in Hr.
  rewrite (Hg "sha1"%string _ _ ltac:(by_decide) ltac:(by_decide) Hs) in Hr. cbn [mbind res_bind] in Hr. apply Ok_inj in Hr.
  subst rec. cbn. split; [by destruct (fst kr)|done].
Qed.

(** The rows of an index, loaded from the blob. *)
Lemma load_obs_lines blob sources srcs by_id krs : forall rows recs,
  res_map (index_line srcs by_id) krs = Ok rows -> res_map (load_obs blob sources) (map (tsv_read_row IDX_COLS) rows) = Ok recs ->
  Forall2 (fun kr rec => obs_key rec = fst kr
    /\ snd rec = slice (ix_offset (snd kr) + 8) (ix_offset (snd kr) + 8 + ix_size (snd kr)) blob) krs recs.
Proof.
  induction krs as [|kr krs IH]; intros rows recs Hr Hl; cbn [res_map] in Hr.
  - apply Ok_inj in Hr. subst rows. apply Ok_inj in Hl. subst recs. constructor.
  - inv_bind Hr. inv_bind Hr. apply Ok_inj in Hr. subst rows. cbn [map res_map] in Hl. inv_bind Hl. inv_bind Hl.
    apply Ok_inj in Hl. subst recs. constructor; [by eapply load_obs_line|]. by eapply IH.
Qed.

Lemma index_line_visible srcs by_id kr row : index_line srcs by_id kr = Ok row -> row_visible IDX_COLS row.
Proof.
  intros Hl. apply index_line_fields in Hl. injection Hl as He _ _ _. destruct (int_visible _ _ (int_of_text (fst (fst kr)))) as (c & Hc & Hs).
  exists (str_of_Z (fst (fst kr))), c. split_and!; [|done..]. unfold tsv_values. apply list_elem_of_fmap. exists (lit "entry").
  rewrite He. split; [done|]. unfold IDX_COLS. left.
Qed.

(** C12: What is published is what was merged.  Of an index and its pack as the
    merge wrote them, whatever was appended to the pack since, export and
    rebuild load one observation per record of the index, each with the payload
    that has the digest it is filed under. *)
Theorem merged_is_loaded srcs by_id cache idx pack more name text sources recs :
  pack_ok sha1_hex idx pack -> index_table srcs by_id (cache, idx) = Ok (name, text) ->
  Forall (fun kr => forall row, index_line srcs by_id kr = Ok row -> Forall (Forall is_char) (tsv_values IDX_COLS row)) idx ->
  load_cache (Some text) (Some (pack ++ more)) sources = Ok recs ->
  map obs_key recs ≡ₚ dkeys idx /\ NoDup (map obs_key recs) /\ Forall (fun rec => sha1_hex (snd rec) = snd (obs_key rec)) recs.
Proof.
  intros [Hd Hp] Ht Hch Hl. unfold index_table in Ht. cbn [fst snd] in Ht. inv_bind Ht. inv_bind Ht. apply Ok_inj in Ht.
  injection Ht as _ <-. set (krs := py_sort rec_leb idx) in *. assert (krs ≡ₚ idx) as Hperm by apply py_sort_perm.
  assert (read_tsv (Some v0) = Ok (map (tsv_read_row IDX_COLS) v)) as Er.
  { eapply read_tsv_written; [done|by_decide|by apply cells_ok_by| |exact E0]. apply Forall_forall. intros row Hrow.
    apply list_elem_of_lookup in Hrow as [i Hi]. destruct (Forall2_lookup_r _ _ _ _ _ (res_map_Forall2 _ _ _ E) Hi) as (kr & Hkr & Hline).
    split; [|by eapply index_line_visible]. rewrite Forall_forall in Hch. apply (Hch kr); [|done]. rewrite <- Hperm. by eapply list_elem_of_lookup_2. }
  assert (exists out, res_map (load_obs (pack ++ more) sources) (map (tsv_read_row IDX_COLS) v) = Ok out /\ recs ≡ₚ out) as (out & Eo & Po).
  { unfold load_cache in Hl. rewrite Er in Hl. cbn [mbind res_bind] in Hl. destruct (map _ v) eqn:Ev.
    - apply Ok_inj in Hl. subst recs. exists []. done.
    - cbn [res_of_option mbind res_bind] in Hl. inv_bind Hl. apply Ok_inj in Hl. subst recs. eexists. split; [reflexivity|]. apply py_sort_perm. }
  pose proof (load_obs_lines _ _ _ _ _ _ _ E Eo) as Hf.
  assert (map obs_key out = dkeys krs) as Hk.
  { clear -Hf. unfold dkeys. induction Hf as [|kr rec krs out [Hk _] _ IH]; [done|]. cbn [map]. by rewrite Hk, IH. }
  assert (map obs_key recs ≡ₚ dkeys idx) as Hkeys.
  { rewrite Po, Hk. unfold dkeys. by rewrite Hperm. }
  split; [exact Hkeys|]. split; [rewrite Hkeys; exact Hd|]. rewrite Po. apply Forall_forall. intros rec Hrec.
  apply list_elem_of_lookup in Hrec as [i Hi]. destruct (Forall2_lookup_r _ _ _ _ _ Hf Hi) as ([k r] & Hkr & Ho & Hs).
  cbn [fst snd] in Ho, Hs. apply list_elem_of_lookup_2 in Hkr. rewrite Hperm in Hkr.
  destruct (stored_slice _ _ _ (stored_app sha1_hex pack more k r (Hp k r (elem_of_dget _ _ _ Hd Hkr)))) as (payload & Epl & Hsha).
  by rewrite Ho, Hs, Epl.
Qed.
End Loaded.

(** ** The small store, published *)

Definition sample_page : list (Z * win) :=
  [(9, (lit "zz", snd (fst sample_upload), lit "Dear" ++ [9; 0] ++ le 4 17))].

Definition sample_view := Eval vm_compute in
  match write_view (lit "pagetextcache") sample_page true None with Ok (t, _) => t | Err _ => [] end.


Lemma rebuilt_reads_back_witness :
  exists data, rebuild_mode (fun b => b) (fun b => b) (lit "itemcache") (lit "free-pick") sample_obs sample_sources (Some sample_header)
               = Ok (Some ([(wdb_path None (lit "free-pick") (lit "itemcache"), data)], []))
  /\ iter_records data HEADER_LEN = Ok [(17, 1, [4])].
Proof.
  destruct (rebuilt_reads_back (fun b => b) (fun b => b) (lit "itemcache") (lit "free-pick") sample_obs sample_sources sample_header
              (lit "itemcache", lit "item definitions") sample_won) as (data & Hd & Hi & _).
  - vm_compute. reflexivity.
  - discriminate.
  - unfold sample_obs. repeat apply Forall_cons_2; [..|apply Forall_nil_2]; (split; [cbn; lia|split; [vm_compute; discriminate|intros [_ E]; discriminate E]]).
  - reflexivity.
  - reflexivity.
  - reflexivity.
  - exists data. split; [exact Hd|exact Hi].
Defined.

Lemma stored_by sha pack k r : let o := ix_offset r in let payload := slice (o + 8) (o + 8 + ix_size r) pack in
  pack = take (Z.to_nat o) pack ++ wdb_record (fst k) payload ++ drop (Z.to_nat (o + 8 + ix_size r)) pack ->
  o = pylen (take (Z.to_nat o) pack) -> ix_size r = pylen payload -> sha payload = snd k -> stored sha pack k r.
Proof. intros o payload Hp Ho Hs Hk. exists (take (Z.to_nat o) pack), payload, (drop (Z.to_nat (o + 8 + ix_size r)) pack). auto. Qed.

Lemma merged_is_loaded_witness : Forall (fun rec => sample_sha (snd rec) = snd (obs_key rec)) sample_obs.
Proof.
  destruct (merged_is_loaded sample_sha (fst sample_repaired) sample_by_id (lit "itemcache") sample_index sample_pack []
              [lit "itemcache"; lit "index.tsv"] sample_index_text sample_sources sample_obs) as (_ & _ & Hs).
  - split; [by_decide|]. intros k r Hk%dget_elem_of. unfold sample_index in Hk.
    repeat (apply elem_of_cons in Hk as [[= -> ->]|Hk]; [apply stored_by; reflexivity|]); by apply elem_of_nil in Hk.
  - vm_compute. reflexivity.
  - unfold sample_index. repeat apply Forall_cons_2; [..|apply Forall_nil_2]; intros row Hr; vm_compute in Hr; apply Ok_inj in Hr; subst row;
      repeat constructor; by_decide.
  - rewrite app_nil_r. vm_compute. reflexivity.
  - exact Hs.
Defined.
