(* ===== verification/JsonText.v ===== *)
(** * JSON as text

    What [json.loads] reads and [json.dumps] writes: the grammar of the standard
    library's decoder, with its NaN and infinities and its surrogate pairs, and
    the encoder's separators, escapes and order of keys.  What is written is
    read back. *)
From S2P Require Import Prelude Wire PyFloat Text Format Json Lua LuaParse LuaLex.

Definition json_space (c : Z) : bool := (c =? 32) || (c =? 9) || (c =? 10) || (c =? 13).
Fixpoint json_ws (s : pystr) : pystr := match s with c :: t => if json_space c then json_ws t else s | [] => [] end.

Fixpoint strip_prefix (w s : pystr) : option pystr :=
  match w, s with
  | [], _ => Some s
  | a :: w, c :: s => if a =? c then strip_prefix w s else None
  | _, [] => None
  end.

(** ** Strings *)

Definition hex4 (a b c d : Z) : option Z :=
  if is_hex a && is_hex b && is_hex c && is_hex d
  then Some (hex_val a * 4096 + hex_val b * 256 + hex_val c * 16 + hex_val d) else None.

Definition json_escapes : list (Z * Z) := [(34, 34); (92, 92); (47, 47); (98, 8); (102, 12); (110, 10); (114, 13); (116, 9)].

Definition high_surrogate (u : Z) : bool := in_range 0xD800 0xDBFF u.
Definition low_surrogate (u : Z) : bool := in_range 0xDC00 0xDFFF u.
Definition joined (u v : Z) : Z := 0x10000 + Z.lor (Z.shiftl (u - 0xD800) 10) (v - 0xDC00).

(** The low half that may follow a high one. *)
Definition low_half (s : pystr) : option (Z * pystr) :=
  match s with
  | x :: y :: a :: b :: c :: d :: t =>
      if (x =? 92) && (y =? 117) then
        match hex4 a b c d with Some v => if low_surrogate v then Some (v, t) else None | None => None end
      else None
  | _ => None
  end.

(** One character of a string behind a backslash. *)
Definition json_escape (s : pystr) : option (Z * pystr) :=
  match s with
  | e :: t =>
      if e =? 117 then
        match t with
        | a :: b :: c :: d :: t =>
            match hex4 a b c d with
            | Some u =>
                match (if high_surrogate u then low_half t else None) with
                | Some (v, t') => Some (joined u v, t')
                | None => Some (u, t)
                end
            | None => None
            end
        | _ => None
        end
      else match dget e json_escapes with Some c => Some (c, t) | None => None end
  | [] => None
  end.

(** The body of a string and what follows its quote. *)
Fixpoint json_string (fuel : nat) (s : pystr) : option (pystr * pystr) :=
  match fuel, s with
  | S fuel, c :: t =>
      if c =? 34 then Some ([], t)
      else if c <? 32 then None
      else
        '(c, t) ← (if c =? 92 then json_escape t else Some (c, t));
        '(body, r) ← json_string fuel t;
        Some (c :: body, r)
  | _, _ => None
  end.

Section Text.
Context `{Unicode}.

(** ** Numbers *)

(** [(\.[0-9]+)?] and [([eE][-+]?[0-9]+)?]. *)
Definition json_frac (s : pystr) : pystr * pystr :=
  match s with
  | c :: t => if c =? 46 then match span is_digit t with ([], _) => ([], s) | (ds, r) => (c :: ds, r) end else ([], s)
  | [] => ([], s)
  end.

Definition json_exp (s : pystr) : pystr * pystr :=
  match s with
  | c :: t =>
      if (c =? 101) || (c =? 69) then
        let '(sg, u) := match t with
                        | d :: u => if (d =? 43) || (d =? 45) then ([d], u) else ([], t)
                        | [] => ([], t)
                        end in
        match span is_digit u with ([], _) => ([], s) | (ds, r) => (c :: sg ++ ds, r) end
      else ([], s)
  | [] => ([], s)
  end.

(** The digits before the point: no number starts with a superfluous zero. *)
Definition json_whole (s : pystr) : option (pystr * pystr) :=
  match s with
  | c :: t => if c =? 48 then Some ([c], t) else match span is_digit s with ([], _) => None | r => Some r end
  | [] => None
  end.

Definition json_number (s : pystr) : option (json * pystr) :=
  let '(neg, t) := match s with c :: t => if c =? 45 then (true, t) else (false, s) | [] => (false, s) end in
  '(ds, r) ← json_whole t;
  let '(frac, r) := json_frac r in
  let '(ex, r) := json_exp r in
  match frac ++ ex with
  | [] => Some (JInt (if (neg : bool) then - digits_val ds else digits_val ds), r)
  | more => match float_of_str (ds ++ more) with
            | Ok x => Some (JFloat (if neg then SpecFloat.SFopp x else x), r)
            | Err _ => None
            end
  end.

(** ** Values *)

Definition json_words : list (pystr * json) :=
  [(lit "null", JNull); (lit "true", JBool true); (lit "false", JBool false); (lit "NaN", JFloat SpecFloat.S754_nan);
   (lit "Infinity", JFloat (SpecFloat.S754_infinity false)); (lit "-Infinity", JFloat (SpecFloat.S754_infinity true))].

Fixpoint json_word (words : list (pystr * json)) (s : pystr) : option (json * pystr) :=
  match words with
  | [] => json_number s
  | (w, v) :: words => match strip_prefix w s with Some r => Some (v, r) | None => json_word words s end
  end.

(** A malformed text is a ValueError, as [JSONDecodeError] is one. *)
Definition or_malformed {A} (o : option A) : res A := res_of_option ValueError o.

Definition json_expect (c : Z) (s : pystr) : res pystr :=
  match s with d :: t => if d =? c then Ok t else Err ValueError | [] => Err ValueError end.

Definition is_next (c : Z) (s : pystr) : bool := match s with d :: _ => d =? c | [] => false end.

Fixpoint json_value (fuel : nat) (s : pystr) : res (json * pystr) :=
  match fuel with
  | O => Err OutOfFuel
  | S fuel =>
      if is_next 34 s then
        '(str, r) ← or_malformed (json_string (length s) (tail s)); Ok (JStr str, r)
      else if is_next 123 s then
        let t := json_ws (tail s) in
        if is_next 125 t then Ok (JDict [], tail t) else json_members fuel [] t
      else if is_next 91 s then
        let t := json_ws (tail s) in
        if is_next 93 t then Ok (JList [], tail t) else json_elements fuel [] t
      else or_malformed (json_word json_words s)
  end
with json_members (fuel : nat) (acc : list (pystr * json)) (s : pystr) : res (json * pystr) :=
  match fuel with
  | O => Err OutOfFuel
  | S fuel =>
      r ← json_expect 34 s;
      '(k, r) ← or_malformed (json_string (length s) r);
      r ← json_expect 58 (json_ws r);
      '(v, r) ← json_value fuel (json_ws r);
      let acc := dset k v acc in
      let r := json_ws r in
      if is_next 44 r then json_members fuel acc (json_ws (tail r))
      else r ← json_expect 125 r; Ok (JDict acc, r)
  end
with json_elements (fuel : nat) (acc : list json) (s : pystr) : res (json * pystr) :=
  match fuel with
  | O => Err OutOfFuel
  | S fuel =>
      '(v, r) ← json_value fuel s;
      let acc := acc ++ [v] in
      let r := json_ws r in
      if is_next 44 r then json_elements fuel acc (json_ws (tail r))
      else r ← json_expect 93 r; Ok (JList acc, r)
  end.

(** [json.loads(s)]: two rounds for each character are enough. *)
Definition json_loads (s : pystr) : res json :=
  if is_next 0xFEFF s then Err ValueError
  else
    '(v, r) ← json_value (2 * length s + 2) (json_ws s);
    match json_ws r with [] => Ok v | _ => Err ValueError end.
End Text.

(** ** Writing *)

Definition hex_low (d : Z) : Z := if d <? 10 then 48 + d else 87 + d.
Definition u_escape (u : Z) : pystr :=
  [92; 117; hex_low (u / 4096 mod 16); hex_low (u / 256 mod 16); hex_low (u / 16 mod 16); hex_low (u mod 16)].

Definition short_escapes : list (Z * Z) := [(34, 34); (92, 92); (10, 110); (13, 114); (9, 116); (12, 102); (8, 98)].

(** A character of a text; with [ascii], one outside of " " to "~" as
    hexadecimal, in two halves when it needs them. *)
Definition json_char (ascii : bool) (c : Z) : pystr :=
  match dget c short_escapes with
  | Some e => [92; e]
  | None =>
      if c <? 32 then u_escape c
      else if ascii && negb (c <=? 126) then
        if c <? 0x10000 then u_escape c
        else u_escape (0xD800 + Z.shiftr (c - 0x10000) 10) ++ u_escape (0xDC00 + Z.land (c - 0x10000) 0x3FF)
      else [c]
  end.

Definition json_quote (ascii : bool) (s : pystr) : pystr := 34 :: concat (map (json_char ascii) s) ++ [34].

Definition key_leb {A} (a b : pystr * A) : bool := str_leb (fst a) (fst b).

Definition json_float (x : f64) : pystr :=
  match x with
  | SpecFloat.S754_nan => lit "NaN"
  | SpecFloat.S754_infinity s => if s then lit "-Infinity" else lit "Infinity"
  | _ => float_repr x
  end.

(** [json.dumps(v, sort_keys=sort, ensure_ascii=ascii)]. *)
Fixpoint json_dumps (sort ascii : bool) (v : json) : pystr :=
  match v with
  | JNull => lit "null"
  | JBool b => if b then lit "true" else lit "false"
  | JInt n => str_of_Z n
  | JFloat x => json_float x
  | JStr s => json_quote ascii s
  | JList l => [91] ++ join (lit ", ") (map (json_dumps sort ascii) l) ++ [93]
  | JDict d =>
      let kvs := map (fun kv => (fst kv, json_dumps sort ascii (snd kv))) d in
      let kvs := if sort then py_sort key_leb kvs else kvs in
      [123] ++ join (lit ", ") (map (fun kv => json_quote ascii (fst kv) ++ lit ": " ++ snd kv) kvs) ++ [125]
  end.

(** ** What is written is read back *)

(** Induction through lists and dictionaries. *)
Section JsonInd.
Context (P : json -> Prop) (Hnull : P JNull) (Hbool : forall b, P (JBool b)) (Hint : forall n, P (JInt n))
  (Hfloat : forall x, P (JFloat x)) (Hstr : forall s, P (JStr s)) (Hlist : forall l, Forall P l -> P (JList l))
  (Hdict : forall d, Forall (fun kv => P (snd kv)) d -> P (JDict d)).

Fixpoint json_tree_ind (v : json) : P v :=
  match v with
  | JNull => Hnull
  | JBool b => Hbool b
  | JInt n => Hint n
  | JFloat x => Hfloat x
  | JStr s => Hstr s
  | JList l =>
      Hlist l ((fix go l : Forall P l := match l with [] => Forall_nil_2 _ | x :: l => Forall_cons_2 _ _ _ (json_tree_ind x) (go l) end) l)
  | JDict d =>
      Hdict d ((fix go l : Forall (fun kv => P (snd kv)) l :=
                  match l with [] => Forall_nil_2 _ | kv :: l => Forall_cons_2 _ _ _ (json_tree_ind (snd kv)) (go l) end) d)
  end.
End JsonInd.

(** A text of Unicode characters. *)
Definition unicode_scalar (c : Z) : Prop := 0 <= c < 0x110000 /\ ~ (0xD800 <= c <= 0xDFFF).

(** A tree without floats, whose dictionaries have distinct keys. *)
Inductive plain : json -> Prop :=
  | plain_null : plain JNull
  | plain_bool b : plain (JBool b)
  | plain_int n : plain (JInt n)
  | plain_str s : Forall unicode_scalar s -> plain (JStr s)
  | plain_list l : Forall plain l -> plain (JList l)
  | plain_dict d : NoDup (map fst d) -> Forall (fun kv => Forall unicode_scalar (fst kv) /\ plain (snd kv)) d -> plain (JDict d).

Lemma hex_low_ok d : 0 <= d < 16 -> is_hex (hex_low d) = true /\ hex_val (hex_low d) = d.
Proof.
  intros Hd. assert (d ∈ map Z.of_nat (seq 0 16)) as Hin.
  { apply list_elem_of_fmap. exists (Z.to_nat d). split; [lia|]. apply elem_of_seq. lia. }
  repeat (apply elem_of_cons in Hin as [->|Hin]; [done|]). by apply elem_of_nil in Hin.
Qed.

Lemma hex4_u u : 0 <= u < 65536 ->
  hex4 (hex_low (u / 4096 mod 16)) (hex_low (u / 256 mod 16)) (hex_low (u / 16 mod 16)) (hex_low (u mod 16)) = Some u.
Proof.
  intros Hu. unfold hex4.
  destruct (hex_low_ok (u / 4096 mod 16)) as [-> ->]; [apply Z.mod_pos_bound; lia|].
  destruct (hex_low_ok (u / 256 mod 16)) as [-> ->]; [apply Z.mod_pos_bound; lia|].
  destruct (hex_low_ok (u / 16 mod 16)) as [-> ->]; [apply Z.mod_pos_bound; lia|].
  destruct (hex_low_ok (u mod 16)) as [-> ->]; [apply Z.mod_pos_bound; lia|]. cbn [andb]. f_equal.
  rewrite (Z.mod_small (u / 4096)) by (split; [apply Z.div_pos; lia|apply Z.div_lt_upper_bound; lia]).
  replace (u / 4096) with (u / 16 / 16 / 16) by (rewrite !Z.div_div by lia; f_equal).
  replace (u / 256) with (u / 16 / 16) by (rewrite !Z.div_div by lia; f_equal).
  pose proof (Z.div_mod u 16). pose proof (Z.div_mod (u / 16) 16). pose proof (Z.div_mod (u / 16 / 16) 16). lia.
Qed.

Lemma escape_u u t : 0 <= u < 65536 -> high_surrogate u = false ->
  json_escape (tail (u_escape u) ++ t) = Some (u, t).
Proof. intros Hu Hh. unfold u_escape. cbn [tail app]. unfold json_escape. cbn [Z.eqb Pos.eqb]. by rewrite hex4_u, Hh. Qed.

Lemma escape_pair hi lo t : 0xD800 <= hi <= 0xDBFF -> 0xDC00 <= lo <= 0xDFFF ->
  json_escape (tail (u_escape hi ++ u_escape lo) ++ t) = Some (joined hi lo, t).
Proof.
  intros Hh Hl. unfold u_escape. cbn [tail app]. unfold json_escape. cbn [Z.eqb Pos.eqb]. rewrite hex4_u by lia.
  unfold high_surrogate. rewrite in_range_true by lia. unfold low_half. cbn [Z.eqb Pos.eqb andb].
  rewrite hex4_u by lia. unfold low_surrogate. by rewrite in_range_true by lia.
Qed.

Lemma joined_halves c : 0x10000 <= c < 0x110000 ->
  joined (0xD800 + Z.shiftr (c - 0x10000) 10) (0xDC00 + Z.land (c - 0x10000) 0x3FF) = c.
Proof.
  intros Hc. unfold joined. set (v := c - 0x10000). replace (0xD800 + Z.shiftr v 10 - 0xD800) with (Z.shiftr v 10) by lia.
  replace (0xDC00 + Z.land v 0x3FF - 0xDC00) with (Z.land v 0x3FF) by lia.
  change 0x3FF with (Z.ones 10). transitivity (0x10000 + v); [f_equal|unfold v; lia]. apply Z.bits_inj'. intros i Hi.
  rewrite Z.lor_spec, Z.land_spec, Z.testbit_ones, Z.shiftl_spec by lia. destruct (decide (i < 10)).
  - rewrite Z.testbit_neg_r by lia. rewrite (proj2 (Z.leb_le 0 i)), (proj2 (Z.ltb_lt i 10)) by lia. by rewrite andb_true_r.
  - rewrite Z.shiftr_spec by lia. rewrite (proj2 (Z.ltb_ge i 10)), andb_false_r, andb_false_r, orb_false_r by lia. f_equal. lia.
Qed.

(** One character of a string. *)
Lemma json_char_read ascii c : unicode_scalar c -> forall fuel t, 
  json_string (S fuel) (json_char ascii c ++ t) = ('(body, r) ← json_string fuel t; Some (c :: body, r)).
Proof.
  intros [Hc Hs] fuel t. unfold json_char.
  destruct (dget c short_escapes) as [e|] eqn:Ee.
  { apply dget_elem_of in Ee. unfold short_escapes in Ee.
    repeat (apply elem_of_cons in Ee as [[= -> ->]|Ee]; [done|]). by apply elem_of_nil in Ee. }
  assert (c <> 34 /\ c <> 92) as [H34 H92] by (split; intros ->; discriminate).
  destruct (c <? 32) eqn:Hlow; zbool.
  { change (u_escape c ++ t) with (92 :: (tail (u_escape c) ++ t)). cbn [json_string Z.eqb Pos.eqb Z.ltb Z.compare Pos.compare Pos.compare_cont].
    rewrite escape_u; [done|lia|]. unfold high_surrogate. by rewrite in_range_false by lia. }
  destruct (ascii && negb (c <=? 126)) eqn:Ha.
  - destruct (c <? 0x10000) eqn:Hb; zbool.
    + change (u_escape c ++ t) with (92 :: (tail (u_escape c) ++ t)). cbn [json_string Z.eqb Pos.eqb Z.ltb Z.compare Pos.compare Pos.compare_cont].
      rewrite escape_u; [done|lia|]. unfold high_surrogate. by rewrite in_range_false by lia.
    + set (hi := 0xD800 + _). set (lo := 0xDC00 + _).
      change ((u_escape hi ++ u_escape lo) ++ t) with (92 :: (tail (u_escape hi ++ u_escape lo) ++ t)).
      cbn [json_string Z.eqb Pos.eqb Z.ltb Z.compare Pos.compare Pos.compare_cont].
      assert (0 <= Z.shiftr (c - 0x10000) 10 < 1024).
      { rewrite Z.shiftr_div_pow2 by lia. split; [apply Z.div_pos; lia|]. apply Z.div_lt_upper_bound; lia. }
      assert (0 <= Z.land (c - 0x10000) 0x3FF < 1024).
      { change 0x3FF with (Z.ones 10). rewrite Z.land_ones by lia. apply Z.mod_pos_bound. lia. }
      rewrite escape_pair by (unfold hi, lo; lia). cbn [mbind option_bind]. unfold hi, lo. by rewrite joined_halves by lia.
  - cbn [app json_string]. by rewrite (proj2 (Z.eqb_neq c 34)), (proj2 (Z.ltb_ge c 32)), (proj2 (Z.eqb_neq c 92)) by lia.
Qed.

Lemma json_string_read ascii s : Forall unicode_scalar s -> forall fuel t, (length s < fuel)%nat ->
  json_string fuel (concat (map (json_char ascii) s) ++ 34 :: t) = Some (s, t).
Proof.
  induction 1 as [|c s Hc _ IH]; intros [|fuel] t Hf; try (cbn in Hf; lia); [done|].
  cbn [map concat]. rewrite <- app_assoc, json_char_read by done. cbn in Hf. by rewrite IH by lia.
Qed.

(** The first digit of a positive number is not zero. *)
Lemma digits_go_first : forall fuel n acc, 0 < n < 10 ^ Z.of_nat fuel ->
  exists d ds, digits_go fuel n acc = d :: ds /\ d <> 48 /\ is_digit d = true.
Proof.
  induction fuel as [|fuel IH]; intros n acc Hn; [cbn in Hn; lia|]. cbn [digits_go].
  rewrite Nat2Z.inj_succ, Z.pow_succ_r in Hn by lia.
  pose proof (Z.div_mod n 10 ltac:(lia)). pose proof (Z.mod_pos_bound n 10 ltac:(lia)).
  destruct (Z.eqb_spec (n / 10) 0) as [E|E].
  - exists (48 + n mod 10), acc. split_and!; [done|lia|]. apply in_range_true. lia.
  - apply IH. assert (0 <= n / 10) by (apply Z.div_pos; lia). split; [lia|]. apply Z.div_lt_upper_bound; lia.
Qed.

Definition stops (t : pystr) : Prop := match t with [] => True | c :: _ => c ∈ [44; 93; 125] end.

Lemma span_stops ds t : Forall (fun c => is_digit c = true) ds -> stops t -> span is_digit (ds ++ t) = (ds, t).
Proof.
  intros Hd Ht. destruct t as [|c t].
  - rewrite app_nil_r. clear Ht. induction Hd as [|d ds Hd _ IH]; [done|]. cbn. by rewrite Hd, IH.
  - apply span_all; [done|]. cbn in Ht. repeat (apply elem_of_cons in Ht as [->|Ht]; [done|]). by apply elem_of_nil in Ht.
Qed.

Lemma whole_read n t : 0 <= n -> stops t -> json_whole (str_of_Z n ++ t) = Some (str_of_Z n, t).
Proof.
  intros Hn Ht. destruct (decide (n = 0)) as [->|Hnz]; [done|].
  destruct (str_of_Z_nonneg n Hn) as (_ & Hd & _). pose proof (span_stops _ _ Hd Ht) as Hs.
  unfold str_of_Z in *. rewrite (proj2 (Z.ltb_ge n 0)) in * by lia.
  destruct (digits_go_first (S (Z.to_nat (Z.log2 n))) n []) as (d & ds & E & Hd48 & _); [split; [lia|by apply log2_digits]|].
  rewrite E in *. cbn [app json_whole]. rewrite (proj2 (Z.eqb_neq d 48)) by done. cbn [app] in Hs. by rewrite Hs.
Qed.

Lemma strip_prefix_first w c s : w <> [] -> head w <> Some c -> strip_prefix w (c :: s) = None.
Proof. destruct w as [|a w]; [done|]. intros _ Hne. cbn in *. by rewrite (proj2 (Z.eqb_neq a c)) by congruence. Qed.

Lemma strip_minus d s : d <> 73 -> strip_prefix (lit "-Infinity") (45 :: d :: s) = None.
Proof.
  intros Hd. change (strip_prefix (lit "-Infinity") (45 :: d :: s)) with (if 73 =? d then strip_prefix (lit "nfinity") s else None).
  by rewrite (proj2 (Z.eqb_neq 73 d)) by done.
Qed.

Section Read.
Context `{Unicode}.

Lemma no_more t : stops t -> json_frac t = ([], t) /\ json_exp t = ([], t).
Proof.
  intros Ht. destruct t as [|c t]; [done|]. cbn in Ht.
  repeat (apply elem_of_cons in Ht as [->|Ht]; [done|]). by apply elem_of_nil in Ht.
Qed.

Lemma number_read n t : stops t -> json_number (str_of_Z n ++ t) = Some (JInt n, t).
Proof.
  intros Ht. destruct (no_more t Ht) as [Hf He]. unfold json_number. destruct (decide (n < 0)) as [Hn|Hn].
  - assert (str_of_Z n = 45 :: str_of_Z (- n)) as ->.
    { unfold str_of_Z. by rewrite (proj2 (Z.ltb_lt n 0)), (proj2 (Z.ltb_ge (- n) 0)) by lia. }
    cbn [app Z.eqb Pos.eqb]. rewrite whole_read by (done || lia). cbn [mbind option_bind]. rewrite Hf, He. cbn [app].
    rewrite (proj1 (str_of_Z_nonneg (- n) ltac:(lia))). do 3 f_equal. lia.
  - destruct (str_of_Z_nonneg n) as (Hv & Hd & Hne); [lia|]. pose proof (whole_read n t ltac:(lia) Ht) as Hw.
    destruct (str_of_Z n) as [|d ds] eqn:E; [done|]. cbn [app] in *.
    assert (d <> 45) as H45 by (pose proof (Forall_inv Hd); intros ->; done).
    rewrite (proj2 (Z.eqb_neq d 45)) by done. rewrite Hw. cbn [mbind option_bind]. rewrite Hf, He. cbn [app]. by rewrite Hv.
Qed.

(** The first character of an integer. *)
Lemma int_first n : exists c r, str_of_Z n = c :: r /\ (c = 45 /\ (exists d r', r = d :: r' /\ is_digit d = true) \/ is_digit c = true).
Proof.
  unfold str_of_Z. destruct (n <? 0) eqn:E; zbool.
  - destruct (digits_go_first (S (Z.to_nat (Z.log2 (- n)))) (- n) []) as (d & ds & -> & _ & Hd); [split; [lia|apply log2_digits; lia]|].
    eexists 45, _. split; [done|]. left. split; [done|]. by eexists d, ds.
  - destruct (str_of_Z_nonneg n E) as (_ & Hd & Hne). unfold str_of_Z in *. rewrite (proj2 (Z.ltb_ge n 0)) in * by lia.
    destruct (digits_go _ n []) as [|d ds]; [done|]. exists d, ds. split; [done|]. right. by apply Forall_inv in Hd.
Qed.

Lemma int_word n t : stops t -> json_word json_words (str_of_Z n ++ t) = Some (JInt n, t).
Proof.
  intros Ht. pose proof (number_read n t Ht) as Hn. destruct (int_first n) as (c & r & E & Hc). rewrite E in *. cbn [app] in *.
  unfold json_words. cbn [json_word].
  assert (c <> 110 /\ c <> 116 /\ c <> 102 /\ c <> 78 /\ c <> 73) as (? & ? & ? & ? & ?).
  { destruct Hc as [[-> _]|Hc]; [done|]. unfold is_digit, in_range in Hc. zbool. lia. }
  do 5 (rewrite strip_prefix_first by (intros E0; vm_compute in E0; congruence)). destruct Hc as [[-> (d & r' & -> & Hd)]|Hc].
  - cbn [app]. rewrite strip_minus; [exact Hn|]. by intros ->.
  - rewrite strip_prefix_first; [exact Hn|done|]. intros E0. vm_compute in E0. injection E0 as <-. done.
Qed.

(** ** Values *)

(** What a text of a value starts with. *)
Definition value_start (s : pystr) : Prop :=
  exists c r, s = c :: r /\ json_space c = false /\ c <> 93 /\ c <> 125 /\ c <> 0xFEFF.

Lemma dumps_start ascii v t : plain v -> value_start (json_dumps false ascii v ++ t).
Proof.
  intros Hp. destruct v as [|b|n|x|s|l|d]; try (inversion Hp; fail); try (eexists _, _; split; [reflexivity|done]).
  - destruct b; eexists _, _; (split; [reflexivity|done]).
  - cbn [json_dumps]. destruct (int_first n) as (c & r & -> & Hc). exists c, (r ++ t). split; [done|].
    destruct Hc as [[-> _]|Hc]; [done|]. unfold is_digit, in_range in Hc. zbool.
    split_and!; [|lia..]. unfold json_space. by rewrite !(proj2 (Z.eqb_neq c _)) by lia.
Qed.

Lemma start_ws s : value_start s -> json_ws s = s /\ is_next 93 s = false /\ is_next 125 s = false /\ is_next 0xFEFF s = false.
Proof.
  intros (c & r & -> & Hc & H1 & H2 & H3). cbn [json_ws is_next]. rewrite Hc, !(proj2 (Z.eqb_neq c _)) by done. done.
Qed.

Lemma start_blank s : value_start s -> json_ws (32 :: s) = s.
Proof. intros Hs. cbn. by apply start_ws. Qed.

Lemma char_length ascii s : (length s <= length (concat (map (json_char ascii) s)))%nat.
Proof.
  induction s as [|c s IH]; [done|]. cbn [map concat]. rewrite length_app. cbn.
  assert (1 <= length (json_char ascii c))%nat; [|lia]. unfold json_char. repeat (case_match; cbn; try lia).
Qed.

Lemma quote_read ascii s t fuel : Forall unicode_scalar s -> (length (json_quote ascii s) <= fuel)%nat ->
  json_string fuel (tail (json_quote ascii s ++ t)) = Some (s, t).
Proof.
  intros Hs Hf. unfold json_quote in *. cbn [app tail]. rewrite <- app_assoc. apply json_string_read; [done|].
  pose proof (char_length ascii s). cbn in Hf. rewrite length_app in Hf. cbn in Hf. lia.
Qed.

(** What is read of a written value, at enough rounds. *)
Definition reads_back (ascii : bool) (v : json) : Prop := plain v ->
  forall fuel t, (2 * length (json_dumps false ascii v) <= fuel)%nat -> stops t ->
    json_value fuel (json_dumps false ascii v ++ t) = Ok (v, t).

Lemma join_two (sep x y : pystr) l : join sep (x :: y :: l) = x ++ sep ++ join sep (y :: l).
Proof. cbn. by rewrite <- !app_assoc. Qed.

(** Behind a value, a comma or the end. *)
Lemma elements_read ascii l : Forall (reads_back ascii) l -> Forall plain l -> l <> [] -> forall fuel acc t,
  (2 * length (join (lit ", ") (map (json_dumps false ascii) l) ++ [93%Z]) <= fuel)%nat ->
  json_elements fuel acc (join (lit ", ") (map (json_dumps false ascii) l) ++ 93 :: t) = Ok (JList (acc ++ l), t).
Proof.
  intros Hr. induction Hr as [|v l Hv _ IH]; intros Hp Hne fuel acc t Hf; [done|]. apply Forall_cons in Hp as [Hpv Hp].
  destruct fuel as [|fuel]; [rewrite length_app in Hf; cbn in Hf; lia|]. cbn [json_elements]. destruct l as [|v' l].
  - cbn [map join] in *. cbn [concat] in *. rewrite app_nil_r in *. rewrite length_app in Hf. cbn in Hf.
    rewrite Hv by (done || lia || (cbn; set_solver)). reflexivity.
  - cbn [map] in *. rewrite join_two in *. rewrite !length_app in Hf. cbn [length] in Hf. change (length (lit ", ")) with 2%nat in Hf.
    rewrite <- !app_assoc. rewrite Hv by (done || lia || (cbn; set_solver)). cbn [mbind res_bind].
    change (lit ", " ++ ?x) with (44 :: 32 :: x). change (json_ws (44 :: ?x)) with (44 :: x). cbn [is_next Z.eqb Pos.eqb tail].
    rewrite start_blank.
    + rewrite (IH Hp ltac:(done)); [by rewrite <- app_assoc|]. cbn [map]. rewrite length_app. cbn [length]. lia.
    + destruct l as [|v'' l].
      * cbn [map join concat]. rewrite app_nil_r. apply dumps_start. by apply Forall_inv in Hp.
      * cbn [map]. rewrite join_two, <- !app_assoc. apply dumps_start. by apply Forall_inv in Hp.
Qed.

Definition member_text (ascii : bool) (kv : pystr * json) : pystr :=
  json_quote ascii (fst kv) ++ lit ": " ++ json_dumps false ascii (snd kv).

Lemma member_length ascii k v :
  length (member_text ascii (k, v)) = (length (json_quote ascii k) + 2 + length (json_dumps false ascii v))%nat.
Proof. unfold member_text. rewrite !length_app. cbn [fst snd]. change (length (lit ": ")) with 2%nat. lia. Qed.

Lemma members_join ascii d t : exists r, join (lit ", ") (map (member_text ascii) d) ++ 125 :: t = r /\ (d <> [] -> exists r', r = 34 :: r').
Proof.
  eexists. split; [reflexivity|]. destruct d as [|kv [|kv' d]]; [done|..]; intros _; cbn [map]; [|rewrite join_two];
    unfold member_text at 1, json_quote; by eexists.
Qed.

Lemma members_read ascii d : Forall (fun kv => reads_back ascii (snd kv)) d ->
  Forall (fun kv => Forall unicode_scalar (fst kv) /\ plain (snd kv)) d -> d <> [] -> forall fuel acc t,
  NoDup (map fst (acc ++ d)) ->
  (2 * length (join (lit ", ") (map (member_text ascii) d) ++ [125%Z]) <= fuel)%nat ->
  json_members fuel acc (join (lit ", ") (map (member_text ascii) d) ++ 125 :: t) = Ok (JDict (acc ++ d), t).
Proof.
  intros Hr. induction Hr as [|[k v] d Hv _ IH]; intros Hp Hne fuel acc t Hnd Hf; [done|].
  apply Forall_cons in Hp as [[Hk Hpv] Hp]. cbn [fst snd] in *.
  assert (forall r, stops r -> (length (json_quote ascii k) + 2 + length (json_dumps false ascii v) < fuel)%nat ->
    (2 * length (json_dumps false ascii v) < fuel)%nat ->
    json_members fuel acc (member_text ascii (k, v) ++ r) =
      (let r := json_ws r in
       if is_next 44 r then json_members (pred fuel) (acc ++ [(k, v)]) (json_ws (tail r))
       else r ← json_expect 125 r; Ok (JDict (acc ++ [(k, v)]), r))) as Hone.
  { intros r Hs Hl Hl2. destruct fuel as [|fuel]; [lia|]. unfold member_text. cbn [fst snd pred]. rewrite <- !app_assoc. cbn [json_members].
    assert (forall x, json_expect 34 (json_quote ascii k ++ x) = Ok (tail (json_quote ascii k ++ x))) as -> by done.
    cbn [mbind res_bind]. rewrite quote_read by (done || (rewrite length_app; lia)). cbn [or_malformed res_of_option mbind res_bind].
    change (lit ": " ++ ?x) with (58 :: 32 :: x). change (json_expect 58 (json_ws (58 :: ?x))) with (Ok (A:=pystr) x). cbn [mbind res_bind].
    rewrite start_blank by (by apply dumps_start). rewrite Hv by (done || lia). cbn [mbind res_bind].
    rewrite dset_fresh; [done|]. rewrite map_app in Hnd. apply NoDup_app in Hnd as (_ & Hnd & _). intros Hin. apply (Hnd k Hin). cbn. by left. }
  destruct d as [|kv' d].
  - cbn [map join concat] in *. rewrite app_nil_r in *. rewrite length_app, member_length in Hf. cbn [length] in Hf.
    rewrite Hone by (lia || (by left) || (right; right; by left)). reflexivity.
  - cbn [map] in *. rewrite join_two in *. rewrite !length_app, member_length in Hf. cbn [length] in Hf. change (length (lit ", ")) with 2%nat in Hf.
    rewrite <- !app_assoc. rewrite Hone by (lia || by left).
    change (lit ", " ++ ?x) with (44 :: 32 :: x). change (json_ws (44 :: ?x)) with (44 :: x). cbn zeta. cbn [is_next Z.eqb Pos.eqb tail].
    destruct (members_join ascii (kv' :: d) t) as (r & Er & Hr'). cbn [map] in Er. destruct (Hr' ltac:(done)) as [r' ->].
    assert (json_ws (32 :: join (lit ", ") (member_text ascii kv' :: map (member_text ascii) d) ++ 125 :: t)
      = join (lit ", ") (member_text ascii kv' :: map (member_text ascii) d) ++ 125 :: t) as -> by (rewrite Er; done).
    rewrite (IH Hp ltac:(done)); [by rewrite <- app_assoc| |].
    + by rewrite <- app_assoc.
    + rewrite length_app. cbn [length]. lia.
Qed.

Lemma dumps_read ascii v : reads_back ascii v.
Proof.
  induction v as [|b|n|x|s|l IH|d IH] using json_tree_ind; intros Hp fuel t Hf Ht;
    (destruct fuel as [|fuel]; [exfalso; destruct (dumps_start ascii _ [] Hp) as (c & r & E & _); rewrite app_nil_r in E; rewrite E in Hf; cbn in Hf; lia|]).
  - done.
  - by destruct b.
  - cbn [json_dumps json_value]. destruct (int_first n) as (c & r & E & Hc).
    assert (c <> 34 /\ c <> 123 /\ c <> 91) as (? & ? & ?).
    { destruct Hc as [[-> _]|Hc]; [done|]. unfold is_digit, in_range in Hc. zbool. lia. }
    pose proof (int_word n t Ht) as Hw. rewrite E in *. cbn [app is_next] in *.
    rewrite !(proj2 (Z.eqb_neq c _)) by done. by rewrite Hw.
  - inversion Hp.
  - cbn [json_dumps json_value] in *. inversion Hp as [| | |s' Hs| |]; subst.
    assert (is_next 34 (json_quote ascii s ++ t) = true) as -> by done. rewrite quote_read; [done..|]. rewrite length_app. lia.
  - inversion Hp as [| | | |l' Hl|]; subst. cbn [json_dumps] in *. cbn [app json_value is_next Z.eqb Pos.eqb tail] in *.
    destruct l as [|v l]; [done|]. rewrite <- app_assoc. cbn [app].
    assert (value_start (join (lit ", ") (map (json_dumps false ascii) (v :: l)) ++ 93 :: t)) as Hst.
    { destruct l as [|v' l]; cbn [map].
      - cbn [join concat]. rewrite app_nil_r. apply dumps_start. by apply Forall_inv in Hl.
      - rewrite join_two, <- !app_assoc. apply dumps_start. by apply Forall_inv in Hl. }
    destruct (start_ws _ Hst) as (-> & -> & _). apply (elements_read ascii (v :: l) IH Hl ltac:(done) fuel []). cbn [length] in Hf. lia.
  - inversion Hp as [| | | | |d' Hnd Hd]; subst. cbn [json_dumps] in *. cbn zeta in *.
    assert (map (fun kv : pystr * pystr => json_quote ascii (fst kv) ++ lit ": " ++ snd kv)
              (map (fun kv : pystr * json => (fst kv, json_dumps false ascii (snd kv))) d) = map (member_text ascii) d) as E
      by (rewrite map_map; apply map_ext; by intros []).
    rewrite E in *. cbn [app json_value is_next Z.eqb Pos.eqb tail] in *. destruct d as [|kv d]; [done|]. rewrite <- app_assoc. cbn [app].
    destruct (members_join ascii (kv :: d) t) as (r & Er & Hr). destruct (Hr ltac:(done)) as [r' ->].
    rewrite Er. cbn [json_ws is_next Z.eqb Pos.eqb]. change (json_ws (34 :: r')) with (34 :: r'). cbn [is_next Z.eqb Pos.eqb]. rewrite <- Er.
    apply (members_read ascii (kv :: d) IH Hd ltac:(done) fuel []); [done|]. cbn [length] in Hf. lia.
Qed.

(** What [json.dumps] writes, [json.loads] reads back. *)
Theorem json_roundtrip ascii v : plain v -> json_loads (json_dumps false ascii v) = Ok v.
Proof.
  intros Hp. unfold json_loads. pose proof (dumps_start ascii v [] Hp) as Hst. rewrite app_nil_r in Hst.
  destruct (start_ws _ Hst) as (-> & _ & _ & ->).
  pose proof (dumps_read ascii v Hp (2 * length (json_dumps false ascii v) + 2)%nat []) as Hr. rewrite app_nil_r in Hr.
  rewrite Hr; [done|lia|done].
Qed.

(** ** Every text is read or refused *)

(** A reader's answer: at most [n] characters are left, or a failure of the kind [E]. *)
Definition leaves {A} (E : exn -> Prop) (rest : A -> pystr) (n : nat) (r : res A) : Prop :=
  match r with Ok x => (length (rest x) <= n)%nat | Err e => E e end.

Lemma leaves_bind {A B} E (f : A -> pystr) (g : B -> pystr) n m (r : res A) (k : A -> res B) :
  leaves E f n r -> (forall x, (length (f x) <= n)%nat -> leaves E g m (k x)) -> leaves E g m (r ≫= k).
Proof. destruct r as [x|e]; cbn [leaves mbind res_bind]; eauto. Qed.

Lemma leaves_le {A} E (f : A -> pystr) n m (r : res A) : leaves E f n r -> (n <= m)%nat -> leaves E f m r.
Proof. destruct r; cbn; [lia|done]. Qed.

Lemma leaves_option {A} (E : exn -> Prop) (f : A -> pystr) n e (o : option A) :
  E e -> (forall x, o = Some x -> (length (f x) <= n)%nat) -> leaves E f n (res_of_option e o).
Proof. destruct o; cbn; eauto. Qed.

Lemma json_ws_shorter s : (length (json_ws s) <= length s)%nat.
Proof. induction s as [|c s IH]; cbn; [done|]. destruct (json_space c); cbn; lia. Qed.

Lemma strip_prefix_length w s r : strip_prefix w s = Some r -> length s = (length w + length r)%nat.
Proof.
  revert s. induction w as [|a w IH]; intros s; cbn [strip_prefix]; [intros [= ->]; done|]. destruct s as [|c s]; [done|].
  destruct (a =? c); [|done]. intros Hr%IH. cbn [length]. lia.
Qed.

Lemma json_escape_shorter s c r : json_escape s = Some (c, r) -> (length r < length s)%nat.
Proof.
  unfold json_escape. destruct s as [|e t]; [done|]. destruct (e =? 117).
  - do 4 (destruct t as [|? t]; [done|]). destruct (hex4 _ _ _ _) as [u|]; [|done].
    destruct (if high_surrogate u then low_half t else None) as [[v t']|] eqn:E; intros [= <- <-]; cbn; [|lia].
    destruct (high_surrogate u); [|done]. unfold low_half in E. do 6 (destruct t as [|? t]; [done|]).
    destruct (_ && _); [|done]. destruct (hex4 _ _ _ _); [|done]. destruct (low_surrogate _); [|done]. injection E as <- <-. cbn. lia.
  - destruct (dget e json_escapes); [|done]. intros [= <- <-]. cbn. lia.
Qed.

Lemma json_string_shorter fuel : forall s b r, json_string fuel s = Some (b, r) -> (length r < length s)%nat.
Proof.
  induction fuel as [|fuel IH]; intros [|c t] b r; cbn [json_string]; try done.
  destruct (c =? 34); [intros [= <- <-]; cbn; lia|]. destruct (c <? 32); [done|]. destruct (c =? 92).
  - destruct (json_escape t) as [[d u]|] eqn:E; [|done]. apply json_escape_shorter in E. cbn [mbind option_bind].
    destruct (json_string fuel u) as [[b' r']|] eqn:E'; [|done]. intros [= <- <-]. apply IH in E'. cbn. lia.
  - cbn [mbind option_bind]. destruct (json_string fuel t) as [[b' r']|] eqn:E'; [|done]. intros [= <- <-]. apply IH in E'. cbn. lia.
Qed.

Lemma json_frac_shorter s : (length (snd (json_frac s)) <= length s)%nat.
Proof.
  destruct s as [|c t]; [done|]. cbn [json_frac]. destruct (c =? 46); [|done]. pose proof (span_shorter is_digit t).
  destruct (span is_digit t) as [[|? ?] ?]; cbn in *; lia.
Qed.

Lemma json_exp_shorter s : (length (snd (json_exp s)) <= length s)%nat.
Proof.
  destruct s as [|c t]; [done|]. cbn [json_exp]. destruct (_ || _); [|done].
  destruct (match t with [] => _ | _ => _ end) as [sg u] eqn:E.
  assert (length u <= length t)%nat by (destruct t as [|d t']; [by injection E as <- <-|]; destruct (_ || _); injection E as <- <-; cbn; lia).
  pose proof (span_shorter is_digit u). destruct (span is_digit u) as [[|? ?] ?]; cbn in *; lia.
Qed.

Lemma json_number_shorter s v r : json_number s = Some (v, r) -> (length r <= length s)%nat.
Proof.
  unfold json_number. destruct (match s with [] => _ | _ => _ end) as [neg t] eqn:Et.
  assert (length t <= length s)%nat by (destruct s as [|c s]; [by injection Et as <- <-|]; destruct (c =? 45); injection Et as <- <-; cbn; lia).
  destruct (json_whole t) as [[ds r0]|] eqn:Ew; [|done]. cbn [mbind option_bind].
  assert (length r0 <= length t)%nat.
  { unfold json_whole in Ew. destruct t as [|c t]; [done|]. destruct (c =? 48); [injection Ew as <- <-; cbn; lia|].
    pose proof (span_shorter is_digit (c :: t)). destruct (span is_digit (c :: t)) as [[|? ?] ?]; [done|]. by injection Ew as <- <-. }
  pose proof (json_frac_shorter r0). destruct (json_frac r0) as [frac r1].
  pose proof (json_exp_shorter r1). destruct (json_exp r1) as [ex r2]. cbn in *.
  destruct (frac ++ ex); [|destruct (float_of_str _); [|done]]; intros [= <- <-]; lia.
Qed.

Lemma json_word_shorter words s v r : json_word words s = Some (v, r) -> (length r <= length s)%nat.
Proof.
  induction words as [|[w x] words IH]; cbn; [apply json_number_shorter|].
  destruct (strip_prefix w s) eqn:E; [|done]. apply strip_prefix_length in E. intros [= <- <-]. lia.
Qed.

Lemma json_expect_leaves c s : leaves (eq ValueError) id (pred (length s)) (json_expect c s).
Proof. destruct s as [|d t]; cbn; [done|]. destruct (d =? c); cbn; [unfold id; lia|done]. Qed.

Lemma string_leaves (s t : pystr) : leaves (eq ValueError) snd (pred (length t)) (or_malformed (json_string (length s) t)).
Proof. apply leaves_option; [done|]. intros [b r] E. apply json_string_shorter in E. cbn. lia. Qed.

Lemma json_value_leaves fuel :
  (forall s, (2 * length s < fuel)%nat -> leaves (eq ValueError) snd (length s) (json_value fuel s)) /\
  (forall acc s, (2 * length s < fuel)%nat -> leaves (eq ValueError) snd (length s) (json_members fuel acc s)) /\
  (forall acc s, (S (2 * length s) < fuel)%nat -> leaves (eq ValueError) snd (length s) (json_elements fuel acc s)).
Proof.
  induction fuel as [|fuel (IHv & IHm & IHe)]; [split_and!; lia|]. split_and!; [intros s Hf|intros acc s Hf..].
  - cbn [json_value]. destruct (is_next 34 s) eqn:H34.
    { eapply leaves_bind; [apply string_leaves|]. intros [b r] Hr. destruct s; [done|]. cbn in *. lia. }
    destruct (is_next 123 s) eqn:H123; [destruct s as [|c s]; [done|]|destruct (is_next 91 s) eqn:H91; [destruct s as [|c s]; [done|]|]].
    + cbn [tail]. pose proof (json_ws_shorter s). destruct (is_next 125 (json_ws s)); [destruct (json_ws s); cbn in *; lia|].
      eapply leaves_le; [apply IHm|]; cbn in *; lia.
    + cbn [tail]. pose proof (json_ws_shorter s). destruct (is_next 93 (json_ws s)); [destruct (json_ws s); cbn in *; lia|].
      eapply leaves_le; [apply IHe|]; cbn in *; lia.
    + apply leaves_option; [done|]. intros [v r] E. by apply json_word_shorter in E.
  - cbn [json_members]. destruct s as [|c0 s]; [done|]. eapply leaves_bind; [apply json_expect_leaves|].
    intros r Hr. unfold id in Hr. cbn in Hr, Hf. cbn zeta.
    eapply leaves_bind; [apply string_leaves|]. intros [k r1] Hr1. cbn [snd] in Hr1. pose proof (json_ws_shorter r1).
    eapply leaves_bind; [apply json_expect_leaves|]. intros r2 Hr2. unfold id in Hr2. pose proof (json_ws_shorter r2).
    eapply leaves_bind; [apply IHv; lia|]. intros [v r3] Hr3. cbn [snd] in Hr3. pose proof (json_ws_shorter r3).
    destruct (is_next 44 (json_ws r3)) eqn:E.
    + destruct (json_ws r3) as [|c t]; [done|]. cbn [tail]. pose proof (json_ws_shorter t). cbn in *. eapply leaves_le; [apply IHm|]; lia.
    + eapply leaves_bind; [apply json_expect_leaves|]. intros r4 Hr4. unfold id in Hr4. cbn. lia.
  - cbn [json_elements]. eapply leaves_bind; [apply IHv; lia|]. intros [v r] Hr. cbn [snd] in Hr. pose proof (json_ws_shorter r). cbn zeta.
    destruct (is_next 44 (json_ws r)) eqn:E.
    + destruct (json_ws r) as [|c t]; [done|]. cbn [tail]. pose proof (json_ws_shorter t). cbn in *. eapply leaves_le; [apply IHe|]; lia.
    + eapply leaves_bind; [apply json_expect_leaves|]. intros r4 Hr4. unfold id in Hr4. cbn. lia.
Qed.

(** The rounds [json_loads] takes are enough for any text. *)
Lemma json_loads_ends s e : json_loads s = Err e -> e = ValueError.
Proof.
  unfold json_loads. destruct (is_next 0xFEFF s); [by intros [= <-]|]. pose proof (json_ws_shorter s).
  pose proof (proj1 (json_value_leaves (2 * length s + 2)) (json_ws s) ltac:(lia)) as Hv.
  destruct (json_value _ _) as [[v r]|e']; cbn [mbind res_bind leaves] in *; [destruct (json_ws r); [done|]|]; by intros [= <-].
Qed.
End Read.
