(* ===== verification/BmsMap.v ===== *)
(** * Mapping a checkpoint to AzerothCore's schema (character-importer/bms_map.py)

    A checkpoint is the JSON a client add-on captured of a character.  This
    file holds what Python does with such values ([v or d], iteration, [int] of
    anything) and the pure mapping of identity, items and places.  A value that
    cannot be represented is a [MappingError]; its text is the data it is made
    of, [map_error]. *)
From S2P Require Import Prelude Wire PyFloat Text Format Json Tsv.

(** ** More of Python's text *)

(** [str.upper], [str.casefold] and [str.isalnum] for one character, by their
    ASCII part. *)
Class Casing := {
  uni_upper : pystr -> pystr;
  uni_casefold : pystr -> pystr;
  uni_isalnum : Z -> bool;
  uni_upper_ascii s : Forall (fun c => 0 <= c < 0x80) s ->
    uni_upper s = map (fun c => if in_range 97 122 c then c - 32 else c) s;
  uni_casefold_ascii s : Forall (fun c => 0 <= c < 0x80) s ->
    uni_casefold s = map (fun c => if in_range 65 90 c then c + 32 else c) s;
  uni_isalnum_ascii c : 0 <= c < 0x80 -> uni_isalnum c = in_range 48 57 c || in_range 65 90 c || in_range 97 122 c;
}.

(** Enough for text of ASCII. *)
#[export] Program Instance ascii_casing : Casing := {|
  uni_upper := map (fun c => if in_range 97 122 c then c - 32 else c);
  uni_casefold := map (fun c => if in_range 65 90 c then c + 32 else c);
  uni_isalnum c := in_range 48 57 c || in_range 65 90 c || in_range 97 122 c;
|}.
Solve All Obligations with done.

(** [s.replace(old, new, 1)] and [old in s], for a text that is not empty. *)
Fixpoint replace_first (old new s : pystr) : pystr :=
  if bool_decide (old = take (length old) s) then new ++ drop (length old) s
  else match s with [] => [] | c :: s => c :: replace_first old new s end.

(** ** Values of a checkpoint *)

(** [v or d], [d.get(k)]. *)
Definition or_else (v d : json) : json := if py_truthy v then v else d.
Definition jval (d : list (pystr * json)) (k : string) : json := default JNull (dget (lit k) d).

(** [v or []], iterated. *)
Definition iter_or (v : json) : res (list json) := py_iter (or_else v (JList [])).

(** [(v or {}).get(k)]. *)
Definition get_or (v : json) (k : string) : res json := jget (or_else v (JDict [])) (lit k) JNull.

(** What [repr] makes of a float or a container. *)
Section Map.
Context `{Unicode} `{Casing} (repr_of : json -> pystr).

(** [int(v or n)]. *)
Definition int_or (v : json) (n : Z) : res Z := if py_truthy v then py_int v else Ok n.

(** [str(v or "")]. *)
Definition text_or (v : json) (s : pystr) : pystr := if py_truthy v then py_str repr_of v else s.

(** [_int]: the text of anything but an integer or a text is no number. *)
Definition _int (v : json) (dflt : Z) : Z :=
  match v with
  | JInt n => n
  | JStr s => match int_of_str s with Ok n => n | Err _ => dflt end
  | _ => dflt
  end.

(** ** Errors *)

Inductive map_error :=
  | UnknownRace (token : pystr) | CustomClass (token : pystr) | UnknownClass (token : pystr) | BadSex (v : json)
  | NoName | NoFreeName (base : pystr) | NoItemId (name : json) | BadSlotId (v : json) | NoBagSlot (name : json)
  | BeyondBackpack (slot : Z) | BeyondKeyring (slot : Z) | BadBagId (n : Z) | BadContainer (v : json).

(** A result or a [MappingError]. *)
Abbreviation mapped A := (map_error + A)%type (only parsing).

(** ** Constants *)

Definition EQUIPMENT_SLOT_END : Z := 19.
Definition INVENTORY_SLOT_BAG_START : Z := 19.
Definition INVENTORY_SLOT_BAG_END : Z := 23.
Definition INVENTORY_SLOT_ITEM_START : Z := 23.
Definition INVENTORY_SLOT_ITEM_END : Z := 39.
Definition KEYRING_SLOT_START : Z := 86.
Definition KEYRING_SLOT_END : Z := 118.
Definition BACKPACK_CONTAINER : Z := 0.
Definition KEYRING_CONTAINER : Z := -2.
Definition MAX_ENCHANTMENT_SLOT : nat := 12.
Definition PERM_ENCHANTMENT_SLOT : nat := 0.
Definition SOCK_ENCHANTMENT_SLOT : nat := 2.
Definition PRISMATIC_ENCHANTMENT_SLOT : nat := 6.
Definition AT_LOGIN_RENAME : Z := 1.
Definition AT_LOGIN_CUSTOMIZE : Z := 8.
Definition MAX_CHARACTER_NAME : Z := 12.

(** ** Identity *)

Definition RACE_IDS : list (pystr * Z) :=
  [(lit "Human", 1); (lit "Orc", 2); (lit "Dwarf", 3); (lit "NightElf", 4); (lit "Scourge", 5); (lit "Undead", 5);
   (lit "Tauren", 6); (lit "Gnome", 7); (lit "Troll", 8); (lit "Goblin", 9); (lit "BloodElf", 10); (lit "Draenei", 11)].

Definition CLASS_IDS : list (pystr * Z) :=
  [(lit "WARRIOR", 1); (lit "PALADIN", 2); (lit "HUNTER", 3); (lit "ROGUE", 4); (lit "PRIEST", 5); (lit "DEATHKNIGHT", 6);
   (lit "SHAMAN", 7); (lit "MAGE", 8); (lit "WARLOCK", 9); (lit "DRUID", 11)].

Definition CUSTOM_CLASS_TOKENS : list pystr := map lit ["HERO"; "TINKER"; "ADVENTURER"]%string.

Definition race_id (race_token : json) : mapped Z :=
  let token := strip (text_or race_token []) in
  match dget token RACE_IDS with
  | Some v => inr v
  | None =>
      let folded := foldl (fun d kv => dset (uni_lower (fst kv)) (snd kv) d) [] RACE_IDS in
      match dget (uni_lower token) folded with Some v => inr v | None => inl (UnknownRace token) end
  end.

Definition class_id (class_token : json) : mapped Z :=
  let token := uni_upper (strip (text_or class_token [])) in
  match dget token CLASS_IDS with
  | Some v => inr v
  | None => inl (if bool_decide (token ∈ CUSTOM_CLASS_TOKENS) then CustomClass token else UnknownClass token)
  end.

Definition gender_id (sex_id : json) : mapped Z :=
  match sex_id with
  | JInt n => if (n =? 2) || (n =? 3) then inr (n - 2) else inl (BadSex sex_id)
  | _ => inl (BadSex sex_id)
  end.

(** The first of the numbered names that is free. *)
Fixpoint numbered_name (base : pystr) (lowered : list pystr) (counters : list Z) : option pystr :=
  match counters with
  | [] => None
  | counter :: counters =>
      let suffix := str_of_Z counter in
      let candidate := slice_to (MAX_CHARACTER_NAME - pylen suffix) base ++ suffix in
      if bool_decide (uni_lower candidate ∈ lowered) then numbered_name base lowered counters else Some candidate
  end.

(** A free name, and whether it is another one. *)
Definition allocate_name (desired : pystr) (taken : list pystr) : mapped (pystr * bool) :=
  let base := strip desired in
  match base with
  | [] => inl NoName
  | _ =>
      let lowered := map (fun n => uni_lower (strip n)) taken in
      if negb (bool_decide (uni_lower base ∈ lowered)) then inr (slice_to MAX_CHARACTER_NAME base, false)
      else match numbered_name base lowered (map Z.of_nat (seq 2 998)) with
           | Some n => inr (n, true)
           | None => inl (NoFreeName base)
           end
  end.

(** ** Items *)

Record item_fields := ItemFields {
  if_item : Z; if_enchant : Z; if_gems : list Z; if_suffix : Z; if_unique : Z; if_level : Z }.

(** [[-0-9:]]. *)
Definition link_char (c : Z) : bool := (c =? 45) || (c =? 58) || is_digit c.

Fixpoint take_while (f : Z -> bool) (s : pystr) : pystr :=
  match s with c :: t => if f c then c :: take_while f t else [] | [] => [] end.

(** [_ITEM_LINK_RE.search]: the group of the first match. *)
Fixpoint search_link (s : pystr) : option pystr :=
  let here :=
    if bool_decide (lit "|Hitem:" = take 7 s) then
      let w := take_while link_char (drop 7 s) in
      if negb (bool_decide (w = [])) && bool_decide (lit "|h" = take 2 (drop (7 + length w) s)) then Some w else None
    else None in
  match here with
  | Some w => Some w
  | None => match s with [] => None | _ :: t => search_link t end
  end.

Definition split_colons (s : pystr) : list json := map JStr (split_on 58 s).

(** The parts of the item link, from the first source that has them. *)
Definition item_parts (record : list (pystr * json)) : list json :=
  match jval record "itemLinkFields" with
  | JList ((_ :: _) as l) => l
  | _ =>
      match jval record "itemString" with
      | JStr ((_ :: _) as s) => split_colons (replace_first (lit "item:") [] s)
      | _ =>
          match jval record "itemLink" with
          | JStr s => match search_link s with Some w => split_colons w | None => [] end
          | _ => []
          end
      end
  end.

(** [at(index)]. *)
Definition part_at (parts : list json) (i : nat) : Z := match parts !! i with Some p => _int p 0 | None => 0 end.

Definition or_int (a b : Z) : Z := if a =? 0 then b else a.

Definition parse_item_fields (record : list (pystr * json)) : mapped item_fields :=
  let parts := item_parts record in
  let at_ := part_at parts in
  let item_id := or_int (at_ 0%nat) (_int (jval record "itemId") 0) in
  if item_id <=? 0 then inl (NoItemId (jval record "name"))
  else
    let gems := map at_ [2; 3; 4; 5]%nat in
    let gems := if forallb (fun g => g =? 0) gems then
                  match jval record "gemIds" with
                  | JList observed => map (fun g => _int g 0) (take 4 observed) ++ replicate (4 - length observed) 0
                  | _ => gems
                  end
                else gems in
    inr (ItemFields item_id (or_int (at_ 1%nat) (_int (jval record "enchantId") 0)) gems
           (at_ 6%nat) (at_ 7%nat) (at_ 8%nat)).

(** [if gem: slots[i][0] = gem]. *)
Definition put_enchant (i : nat) (v : Z) (slots : list (list Z)) : list (list Z) :=
  if v =? 0 then slots else alter (fun slot => <[0%nat := v]> slot) i slots.

Definition enchant_slots (f : item_fields) : list (list Z) :=
  let slots := replicate MAX_ENCHANTMENT_SLOT [0; 0; 0] in
  let slots := put_enchant PERM_ENCHANTMENT_SLOT (if_enchant f) slots in
  let slots := foldl (fun slots og => put_enchant (SOCK_ENCHANTMENT_SLOT + fst og) (snd og) slots) slots
                 (imap (fun i g => (i, g)) (take 3 (if_gems f))) in
  match if_gems f !! 3%nat with Some g => put_enchant PRISMATIC_ENCHANTMENT_SLOT g slots | None => slots end.

(** item_instance.enchantments: 12 slots of an id, a duration and charges. *)
Definition enchantments_blob (f : item_fields) : pystr := join [32] (map str_of_Z (concat (enchant_slots f))).

(** ** Places *)

Definition equipped_db_slot (client_slot_id : json) : mapped Z :=
  let value := _int client_slot_id (-1) in
  if (1 <=? value) && (value <=? EQUIPMENT_SLOT_END) then inr (value - 1) else inl (BadSlotId client_slot_id).

(** The container the client counts, and the slot of the database. *)
Definition split_bag_placement (record : list (pystr * json)) : mapped (Z * Z) :=
  let bag_id := _int (jval record "bagId") (-99) in
  let bag_slot := _int (jval record "bagSlot") (-1) in
  if bag_slot <? 1 then inl (NoBagSlot (jval record "name"))
  else if bag_id =? BACKPACK_CONTAINER then
    let slot := INVENTORY_SLOT_ITEM_START + (bag_slot - 1) in
    if INVENTORY_SLOT_ITEM_END <=? slot then inl (BeyondBackpack bag_slot) else inr (0, slot)
  else if bag_id =? KEYRING_CONTAINER then
    let slot := KEYRING_SLOT_START + (bag_slot - 1) in
    if KEYRING_SLOT_END <=? slot then inl (BeyondKeyring bag_slot) else inr (0, slot)
  else if (1 <=? bag_id) && (bag_id <=? 4) then inr (bag_id, bag_slot - 1)
  else inl (BadBagId bag_id).

Definition equipped_bag_db_slot (bag_id : json) : mapped Z :=
  let value := _int bag_id (-1) in
  if (1 <=? value) && (value <=? 4) then inr (INVENTORY_SLOT_BAG_START + (value - 1)) else inl (BadContainer bag_id).

(** ** The rest *)

(** Gold, silver, copper. *)
Definition money_parts (copper : json) : Z * Z * Z :=
  let value := Z.max 0 (_int copper 0) in
  let rest := value mod 10000 in (value / 10000, rest / 100, rest mod 100).

Definition at_login_flags (renamed customize : bool) : Z :=
  let flags := if renamed then Z.lor 0 AT_LOGIN_RENAME else 0 in
  if customize then Z.lor flags AT_LOGIN_CUSTOMIZE else flags.
End Map.
