(* ===== verification/BmsParse.v ===== *)
(** * Checkpoints in a SavedVariables file (character-importer/bms_parse.py)

    A parser of its own for the Lua subset of a SavedVariables file, the codes
    it holds and the envelope of a checkpoint with its checks.  A Python dict is
    a [VTable] without an array part, a list one without a keyed part; the
    parser makes no empty list.  Of an error the message is left out. *)
From S2P Require Import Prelude Wire PyFloat Text Format Json Lua LuaParse LuaLex JsonText BmsMap.

Definition CHECKPOINT_SCHEMA : pystr := lit "bind-my-soul/preservation-checkpoint".
Definition MAX_CHECKPOINT_BYTES : Z := 4000000.

(** prefix -> (version, coverage standard, permitted encodings). *)
Definition _PREFIXES : list (pystr * (Z * pystr * list Z)) :=
  [(lit "BMSP2", (2, lit "bms-character-v2", [106])); (lit "BMSP1", (1, lit "bms-character-v1", [100]))].

Definition _SIMPLE_ESCAPES : list (Z * Z) :=
  [(97, 7); (98, 8); (102, 12); (110, 10); (114, 13); (116, 9); (118, 11); (92, 92); (34, 34); (39, 39); (10, 10)].

Definition lua_blank (c : Z) : bool := (c =? 32) || (c =? 9) || (c =? 13) || (c =? 10).

(** [s.find(w)]: what is before the first [w] and what is behind it. *)
Fixpoint cut_at (w s : pystr) : option (pystr * pystr) :=
  match strip_prefix w s with
  | Some r => Some ([], r)
  | None => match s with [] => None | c :: s => '(a, r) ← cut_at w s; Some (c :: a, r) end
  end.

(** [_LONG_OPEN_RE.match]: the level and what follows the brackets. *)
Definition long_open (s : pystr) : option (nat * pystr) :=
  if is_next 91 s then
    let '(eqs, r) := span (fun c => c =? 61) (tail s) in
    if is_next 91 r then Some (length eqs, tail r) else None
  else None.

(** Behind the opening brackets: the contents and the rest. *)
Definition _long_bracket (level : nat) (s : pystr) : res (pystr * pystr) :=
  let s := if is_next 10 s then tail s else s in
  res_of_option BmsError (cut_at (93 :: replicate level 61 ++ [93]) s).

(** Blanks and comments. *)
Fixpoint skip_go (fuel : nat) (s : pystr) : res pystr :=
  match fuel, s with
  | _, [] => Ok []
  | O, _ => Err OutOfFuel
  | S fuel, c :: t =>
      if lua_blank c then skip_go fuel t
      else if (c =? 45) && is_next 45 t then
        let u := tail t in
        match long_open u with
        | Some (level, r) => '(_, r) ← _long_bracket level r; skip_go fuel r
        | None => match cut_at [10] u with Some (_, r) => skip_go fuel r | None => Ok [] end
        end
      else Ok s
  end.
Definition _skip (s : pystr) : res pystr := skip_go (length s) s.

(** [_NAME_RE.match]. *)
Definition match_name (s : pystr) : option (pystr * pystr) :=
  match s with c :: _ => if name_start c then Some (span name_char s) else None | [] => None end.

Section Parse.
Context `{Unicode} `{Casing} (repr_of : json -> pystr).

(** ** Scalars *)

(** Behind a backslash: one character and the rest. *)
Definition string_escape (s : pystr) : res (Z * pystr) :=
  match s with
  | [] => Err BmsError
  | e :: t =>
      match dget e _SIMPLE_ESCAPES with
      | Some c => Ok (c, t)
      | None =>
          if uni_isdigit e then
            let ds := escape_digits s in
            v ← int_of_str ds;
            if v >? 255 then Err BmsError else Ok (v, drop (length ds) s)
          else if (e =? 120) || (e =? 88) then
            match t with
            | a :: b :: r => if is_hex a && is_hex b then Ok (hex_val a * 16 + hex_val b, r) else Err BmsError
            | _ => Err BmsError
            end
          else Ok (e, t)
      end
  end.

(** Behind the opening quote. *)
Fixpoint string_go (fuel : nat) (quote : Z) (s : pystr) : res (pystr * pystr) :=
  match fuel, s with
  | _, [] => Err BmsError
  | O, _ => Err OutOfFuel
  | S fuel, c :: t =>
      if c =? quote then Ok ([], t)
      else
        '(c, t) ← (if c =? 92 then string_escape t else Ok (c, t));
        '(body, r) ← string_go fuel quote t;
        Ok (c :: body, r)
  end.
Definition _string (quote : Z) (s : pystr) : res (pystr * pystr) := string_go (length s) quote s.

Definition _number (s : pystr) : res (lua * pystr) :=
  '(text, r) ← res_of_option BmsError (lex_num s);
  v ← num_value text;
  Ok (v, r).

(** The words that are values. *)
Definition lua_words : list (pystr * lua) :=
  [(lit "true", VBool true); (lit "false", VBool false); (lit "nil", VNone);
   (lit "inf", VFloat (SpecFloat.S754_infinity false)); (lit "nan", VFloat SpecFloat.S754_nan)].

(** A value that is no table. *)
Definition plain_value (s : pystr) : res (lua * pystr) :=
  match s with
  | [] => Err BmsError
  | ch :: t =>
      if (ch =? 34) || (ch =? 39) then '(str, r) ← _string ch t; Ok (VStr str, r)
      else if ch =? 91 then
        match long_open s with
        | Some (level, r) => '(str, r) ← _long_bracket level r; Ok (VStr str, r)
        | None => Err BmsError
        end
      else if (ch =? 45) && negb (is_next 45 t) then _number s
      else if uni_isdigit ch || (ch =? 46) then _number s
      else
        '(word, r) ← res_of_option BmsError (match_name s);
        v ← res_of_option BmsError (dget word lua_words);
        Ok (v, r)
  end.

(** ** Tables *)

(** [items[key] = v]: a table is no key. *)
Definition set_item (key v : lua) (items : lua_hash) : res lua_hash :=
  match key with VTable _ _ => Err TypeError | _ => Ok (hset key v items) end.

Definition int_keys (items : lua_hash) : option (list Z) :=
  mapM (fun kv => match fst kv with VInt n => Some n | _ => None end) items.

(** A table whose keys are exactly 1 to n is a list. *)
Definition arrayified (items : lua_hash) : option (list lua) :=
  match items with
  | [] => None
  | _ =>
      keys ← int_keys items;
      if bool_decide (sort_Z keys = map (fun k => 1 + k) (seqZ_from (pylen keys))) then
        mapM (fun k => hget (VInt k) items) (sort_Z keys)
      else None
  end.

Definition as_table (arrayify : bool) (items : lua_hash) : lua :=
  match (if arrayify then arrayified items else None) with Some l => VTable l [] | None => VTable [] items end.

(** [name =] at the front: the name and what follows the sign. *)
Definition keyed_name (s : pystr) : option (pystr * pystr) :=
  '(name, r) ← match_name s;
  let r := snd (span lua_blank r) in
  if is_next 61 r && negb (is_next 61 (tail r)) then Some (name, tail r) else None.

Definition expect (c : Z) (s : pystr) : res pystr := if is_next c s then Ok (tail s) else Err BmsError.

Fixpoint _value (arrayify : bool) (fuel : nat) (s : pystr) : res (lua * pystr) :=
  match fuel with
  | O => Err OutOfFuel
  | S fuel =>
      s ← _skip s;
      if is_next 123 s then _table arrayify fuel [] 1 (tail s) else plain_value s
  end
with _table (arrayify : bool) (fuel : nat) (items : lua_hash) (positional : Z) (s : pystr) : res (lua * pystr) :=
  match fuel with
  | O => Err OutOfFuel
  | S fuel =>
      s ← _skip s;
      match s with
      | [] => Err BmsError
      | ch :: t =>
          if ch =? 125 then Ok (as_table arrayify items, t)
          else if (ch =? 44) || (ch =? 59) then _table arrayify fuel items positional t
          else if ch =? 91 then
            match long_open s with
            | Some (level, r) =>
                '(str, r) ← _long_bracket level r;
                _table arrayify fuel (hset (VInt positional) (VStr str) items) (positional + 1) r
            | None =>
                '(key, r) ← _value arrayify fuel t;
                r ← _skip r; r ← expect 93 r;
                r ← _skip r; r ← expect 61 r;
                '(v, r) ← _value arrayify fuel r;
                items ← set_item key v items;
                _table arrayify fuel items positional r
            end
          else
            match keyed_name s with
            | Some (name, r) =>
                '(v, r) ← _value arrayify fuel r;
                _table arrayify fuel (hset (VStr name) v items) positional r
            | None =>
                '(v, r) ← _value arrayify fuel s;
                _table arrayify fuel (hset (VInt positional) v items) (positional + 1) r
            end
      end
  end.

(** Enough for any text: every call consumes a character, or is the value of a
    position. *)
Definition rounds (s : pystr) : nat := 2 * length s + 2.

Fixpoint chunk_go (arrayify : bool) (fuel : nat) (globals : list (pystr * lua)) (s : pystr) : res (list (pystr * lua)) :=
  match fuel with
  | O => Err OutOfFuel
  | S fuel =>
      s ← _skip s;
      match s with
      | [] => Ok globals
      | ch :: t =>
          if ch =? 59 then chunk_go arrayify fuel globals t
          else
            '(name, r) ← res_of_option BmsError (match_name s);
            if bool_decide (name = lit "local") then chunk_go arrayify fuel globals r
            else
              r ← _skip r; r ← expect 61 r;
              '(v, r) ← _value arrayify (rounds r) r;
              chunk_go arrayify fuel (dset name v globals) r
      end
  end.

Definition parse_lua (text : pystr) (arrayify : bool) : res (list (pystr * lua)) :=
  chunk_go arrayify (S (length text)) [] text.

(** ** The file *)

(** The code page the fallback decodes; five bytes mean nothing in it. *)
Definition CP1252_HIGH : list (option Z) :=
  [Some 0x20AC; None; Some 0x201A; Some 0x0192; Some 0x201E; Some 0x2026; Some 0x2020; Some 0x2021; Some 0x02C6; Some 0x2030;
   Some 0x0160; Some 0x2039; Some 0x0152; None; Some 0x017D; None; None; Some 0x2018; Some 0x2019; Some 0x201C; Some 0x201D;
   Some 0x2022; Some 0x2013; Some 0x2014; Some 0x02DC; Some 0x2122; Some 0x0161; Some 0x203A; Some 0x0153; None; Some 0x017E;
   Some 0x0178].
Definition cp1252_byte (b : Z) : option Z :=
  if in_range 0x80 0x9F b then mjoin (CP1252_HIGH !! Z.to_nat (b - 0x80)) else Some b.

(** The first of three encodings that decodes the bytes; latin-1 always does. *)
Definition _read_text (raw : bytes) : pystr :=
  let raw := match strip_prefix [0xEF; 0xBB; 0xBF] raw with Some r => r | None => raw end in
  match utf8_decode_strict raw with
  | Ok s => s
  | Err _ => match mapM cp1252_byte raw with Some s => s | None => raw end
  end.

Definition load_savedvariables (raw : bytes) (variable : pystr) : res lua_hash :=
  globals ← parse_lua (_read_text raw) true;
  match dget variable globals with
  | Some (VTable [] db) => Ok db
  | _ => Err BmsError
  end.

(** ** Codes *)

Definition is_code (s : pystr) : bool :=
  match strip_prefix (lit "BMSP1|") s, strip_prefix (lit "BMSP2|") s with None, None => false | _, _ => true end.

(** [add]: a code not seen yet. *)
Definition add_code (codes : list pystr) (v : lua) : list pystr :=
  match v with
  | VStr s => let candidate := strip s in if is_code candidate then set_add candidate codes else codes
  | _ => codes
  end.

(** [s.splitlines()]: a line ends at any of its terminators, CR LF being one. *)
Definition line_end (c : Z) : bool :=
  in_range 10 13 c || in_range 0x1C 0x1E c || (c =? 0x85) || (c =? 0x2028) || (c =? 0x2029).
Fixpoint splitlines_go (s cur : pystr) : list pystr :=
  match s with
  | [] => match cur with [] => [] | _ => [rev cur] end
  | c :: t =>
      if line_end c then
        match t with
        | d :: u => if (c =? 13) && (d =? 10) then rev cur :: splitlines_go u [] else rev cur :: splitlines_go t []
        | [] => [rev cur]
        end
      else splitlines_go t (c :: cur)
  end.
Definition splitlines (s : pystr) : list pystr := splitlines_go s [].

Definition db_get (db : lua_hash) (k : string) : lua := default VNone (hget (VStr (lit k)) db).

(** By [str] of the key. *)
Definition str_key_leb (a b : lua * lua) : bool := str_leb (key_str (fst a)) (key_str (fst b)).

Definition extract_checkpoint_codes (db : lua_hash) : list pystr :=
  let codes := add_code [] (db_get db "checkpointExport") in
  let codes := match db_get db "checkpointQueueExport" with
               | VStr s => foldl (fun codes line => add_code codes (VStr line)) codes (splitlines s)
               | _ => codes
               end in
  match db_get db "checkpointQueue" with
  | VTable ((_ :: _) as l) _ => foldl add_code codes l
  | VTable [] h => foldl (fun codes kv => add_code codes (snd kv)) codes (py_sort str_key_leb h)
  | _ => codes
  end.

(** ** The envelope *)

(** [percent_decode]: a sign that starts no pair is refused. *)
Fixpoint percent_decode (s : pystr) : res pystr :=
  match s with
  | [] => Ok []
  | c :: t =>
      if c =? 37 then
        match t with
        | a :: b :: r => if is_hex a && is_hex b then out ← percent_decode r; Ok (hex_val a * 16 + hex_val b :: out)
                         else Err BmsError
        | _ => Err BmsError
        end
      else out ← percent_decode t; Ok (c :: out)
  end.

(** [_ENVELOPE_RE.match] of a text that ends in no newline: prefix, stamp,
    encoding and payload. *)
Definition match_envelope (s : pystr) : option (pystr * pystr * Z * pystr) :=
  r ← strip_prefix (lit "BMSP") s;
  let '(ds, r) := span is_decimal r in
  r ← strip_prefix (lit "|g=") r;
  let '(stamp, r) := span is_decimal r in
  match ds, stamp, r with
  | _ :: _, _ :: _, ((bar :: encoding :: eq :: _ :: _) as payload) =>
      if (bar =? 124) && ((encoding =? 100) || (encoding =? 106)) && (eq =? 61)
      then Some (lit "BMSP" ++ ds, stamp, encoding, drop 3 payload) else None
  | _, _, _ => None
  end.

Record Checkpoint := MkCheckpoint {
  cp_prefix : pystr; cp_version : Z; cp_sealed_at : Z; cp_data : list (pystr * json); cp_code : pystr }.

(** [v == n] of a number of JSON. *)
Definition json_is (n : Z) (v : json) : bool :=
  match v with
  | JInt m => m =? n
  | JBool b => (if b then 1 else 0) =? n
  | JFloat x => num_eqb (num_of (VFloat x)) (Fin n 0)
  | _ => false
  end.

Definition json_text_is (t : pystr) (v : json) : bool := match v with JStr s => bool_decide (s = t) | _ => false end.

(** [not str(d.get(k) or "").strip()]. *)
Definition blank_at (d : list (pystr * json)) (k : string) : bool :=
  bool_decide (strip (text_or repr_of (jval d k) []) = []).

Definition named_character (v : json) : bool :=
  match v with JDict c => negb (blank_at c "name") && negb (blank_at c "realmName") | _ => false end.

Definition covered (standard : pystr) (v : json) : bool :=
  match v with
  | JDict c => json_text_is standard (jval c "standard") && match jval c "domains" with JList _ => true | _ => false end
  | _ => false
  end.

(** The checks on the payload, in their order. *)
Definition check_payload (version stamp : Z) (standard : pystr) (data : json) : res (list (pystr * json)) :=
  match data with
  | JDict d =>
      if negb (json_text_is CHECKPOINT_SCHEMA (jval d "schema")) || negb (json_is version (jval d "version")) then Err BmsError
      else if negb (match jval d "sealedAt" with JInt n => n =? stamp | _ => false end) then Err BmsError
      else if negb (named_character (jval d "character")) then Err BmsError
      else if negb (covered standard (jval d "coverage")) then Err BmsError
      else Ok d
  | _ => Err BmsError
  end.

Definition parse_checkpoint (code : pystr) : res Checkpoint :=
  let code := strip code in
  if MAX_CHECKPOINT_BYTES <? pylen code then Err BmsError
  else
    '(prefix, stamp, encoding, encoded) ← res_of_option BmsError (match_envelope code);
    '(version, standard, allowed) ← res_of_option BmsError (dget prefix _PREFIXES);
    if negb (bool_decide (encoding ∈ (allowed : list Z))) then Err BmsError
    else
      stamp ← int_of_str stamp;
      if negb ((1 <=? stamp) && (stamp <=? 9999999999)) then Err BmsError
      else
        payload ← (if encoding =? 100 then percent_decode encoded else Ok encoded);
        data ← (match json_loads payload with Err ValueError => Err BmsError | r => r end);
        d ← check_payload version stamp standard data;
        Ok (MkCheckpoint prefix version stamp d code).

(** [capability_map]: by key, whether the addon wrote a list or an object. *)
Definition capability_map (character : list (pystr * json)) : list (pystr * list (pystr * json)) :=
  match jval character "capabilities" with
  | JList l =>
      foldl (fun result v =>
        match v with
        | JDict record => if py_truthy (jval record "key") then dset (py_str repr_of (jval record "key")) record result else result
        | _ => result
        end) [] l
  | JDict d =>
      foldl (fun result kv =>
        match snd kv with
        | JDict record => dset (fst kv) (foldl (fun r f => dset (fst f) (snd f) r) [(lit "key", JStr (fst kv))] record) result
        | _ => result
        end) [] d
  | _ => []
  end.

(** The codes of a file that is no bundle. *)
Definition load_codes (raw : bytes) : res (list pystr) :=
  let text := _read_text raw in
  if is_code (lstrip text) then Ok (filter (fun l => l <> []) (map strip (splitlines text)))
  else db ← load_savedvariables raw (lit "BindMySoulDB"); Ok (extract_checkpoint_codes db).
End Parse.
