(* ===== verification/LuaHarvest.v ===== *)
(** * Harvest snapshots (cache-consolidator/tools/harvestmerge.py)

    One file of the harvester folded into the store: vendor and gossip pages as
    whole records, the newest counts; the trees of each realm and the client's
    reference tables by deep union, where a disagreement is a conflict, an
    answer of a probe or a reading of zero; nothing that carries a name of the
    submitter.  A Python value is a [json]; a name is searched as the regular
    expression does it, over the engine's table of equal letters ([Regex]) and
    [str.isalnum].  What a run reports is a [Tally].  The store is what
    [state["harvest"]] holds; LuaHarvestSpec has the theorems. *)
From S2P Require Import Prelude Wire PyFloat Text Format Json Lua LuaParse LuaLex LuaSpec LuaMerge LuaMergeSpec LuaAuction JsonText BmsMap.

Definition GLOBAL : pystr := lit "AscensionRebirthHarvestDB".
Definition SNAPSHOT : list string := ["vendors"; "gossips"]%string.
Definition REFERENCE : list string :=
  ["enums"; "apiSurfaces"; "dungeons"; "battlegrounds"; "skillCards"; "roleRequirements"]%string.
Definition REALM_SCOPED : list string := ["advancement"; "wildcard"]%string.
Definition UNATTRIBUTED : pystr := lit "(unattributed)".
Definition TIMESTAMP : list pystr := map lit ["captured"; "at"; "time"]%string.
Definition PROBED : list pystr :=
  map lit ["calls"; "rapidRollingState"; "eligibility"; "eligibilityReasons"; "startingChoice"; "tokens"]%string.
Definition DUPLICATE : pystr := lit "wildcardStatics".

(** ** From Lua to Python *)

Fixpoint to_plain (v : lua) : res json :=
  match v with
  | VNone => Ok JNull
  | VBool b => Ok (JBool b)
  | VInt n => Ok (JInt n)
  | VFloat x => Ok (JFloat x)
  | VStr s | VRedacted s => Ok (JStr s)
  | VTable array [] =>
      l ← (fix go (l : list lua) : res (list json) :=
             match l with [] => Ok [] | x :: l => y ← to_plain x; ys ← go l; Ok (y :: ys) end) array;
      Ok (JList l)
  | VTable array hash =>
      out ← (fix go (h : list (lua * lua)) (out : list (pystr * json)) : res (list (pystr * json)) :=
               match h with [] => Ok out | (k, x) :: h => y ← to_plain x; go h (dset (key_str k) y out) end) hash [];
      out ← (fix go (i : Z) (l : list lua) (out : list (pystr * json)) : res (list (pystr * json)) :=
               match l with
               | [] => Ok out
               | VNone :: l => go (i + 1) l out
               | x :: l =>
                   match dget (str_of_Z i) out with
                   | Some _ => Err ValueError
                   | None => y ← to_plain x; go (i + 1) l (dset (str_of_Z i) y out)
                   end
               end) 1 array out;
      Ok (JDict out)
  end.

(** [v == w]. *)
Definition num_of_json (v : json) : num :=
  match v with JBool b => num_of (VBool b) | JInt n => num_of (VInt n) | JFloat x => num_of (VFloat x) | _ => NotNum end.

Fixpoint json_eqb (v w : json) : bool :=
  match v, w with
  | JNull, JNull => true
  | JStr s, JStr t => bool_decide (s = t)
  | JList l, JList m =>
      (fix go (l m : list json) : bool :=
         match l, m with [], [] => true | x :: l, y :: m => json_eqb x y && go l m | _, _ => false end) l m
  | JDict d, JDict e =>
      bool_decide (length d = length e)
      && (fix go (d : list (pystr * json)) : bool :=
            match d with
            | [] => true
            | (k, x) :: d => match dget k e with Some y => json_eqb x y | None => false end && go d
            end) d
  | (JBool _ | JInt _ | JFloat _), (JBool _ | JInt _ | JFloat _) => num_eqb (num_of_json v) (num_of_json w)
  | _, _ => false
  end.

(** ** Deep union *)

Definition _unobserved (v : json) : bool :=
  match v with JInt n => n =? 0 | JFloat x => num_eqb (num_of (VFloat x)) (Fin 0 0) | _ => false end.

(** [_key]. *)
Definition value_key (v : json) : pystr := json_dumps true true v.

Fixpoint add_new (seen : list pystr) (b : list json) : list json :=
  match b with
  | [] => []
  | x :: b => if bool_decide (value_key x ∈ seen) then add_new seen b else x :: add_new (value_key x :: seen) b
  end.
Definition _union_list (a b : list json) : list json := a ++ add_new (map value_key a) b.

Definition _probed (path : list pystr) : bool := existsb (fun p => bool_decide (p ∈ PROBED)) path.

(** What a run reports: the conflicts with their paths, the answers seen at
    each probe with their counts, and two counters. *)
Record Tally := MkTally {
  ta_conflicts : list (list pystr * json * json); ta_observed : list (pystr * list (pystr * Z)); ta_gain : Z; ta_filled : Z }.

(** [_brief], with the text of a length; [repr] is a parameter. *)
Definition _brief (repr_of : json -> pystr) (v : json) : json :=
  match v with
  | JDict d => JStr (cat [lit "<"; str_of_Z (pylen d); lit " keys>"])
  | JList l => JStr (cat [lit "<"; str_of_Z (pylen l); lit " items>"])
  | _ => let s := repr_of v in if pylen s <=? 60 then v else JStr (take 60 s ++ lit "...")
  end.

Definition disagree (repr_of : json -> pystr) (path : list pystr) (old v : json) (t : Tally) : Tally :=
  MkTally (ta_conflicts t ++ [(path, _brief repr_of old, _brief repr_of v)]) (ta_observed t) (ta_gain t) (ta_filled t).
Definition filled (t : Tally) : Tally := MkTally (ta_conflicts t) (ta_observed t) (ta_gain t) (ta_filled t + 1).
Definition gained (n : Z) (t : Tally) : Tally := MkTally (ta_conflicts t) (ta_observed t) (ta_gain t + n) (ta_filled t).

Definition count_one (slot : list (pystr * Z)) (v : json) : list (pystr * Z) :=
  dset (value_key v) (default 0 (dget (value_key v) slot) + 1) slot.
Definition _observe (path : list pystr) (values : list json) (t : Tally) : Tally :=
  let name := join [46] path in
  MkTally (ta_conflicts t) (dset name (foldl count_one (default [] (dget name (ta_observed t))) values) (ta_observed t)) (ta_gain t) (ta_filled t).

Section Union.
Context `{Unicode} (repr_of : json -> pystr).

(** [max(str(v), str(w))]. *)
Definition later_text (v w : json) : pystr :=
  let a := py_str repr_of v in let b := py_str repr_of w in if str_leb b a then a else b.

(** Two readings that are neither two tables nor two lists.  [prior] is what
    the replayed store holds at the path. *)
Definition union_scalar (path : list pystr) (key : pystr) (prior : option json) (old v : json) (t : Tally) : json * Tally :=
  let keeps_prior := match prior with Some p => json_eqb old p | None => false end in
  if json_eqb old v then (old, t)
  else if bool_decide (key ∈ TIMESTAMP) then (JStr (later_text old v), t)
  else if _probed path then (if keeps_prior then old else v, _observe path [old; v] t)
  else if _unobserved old && negb (_unobserved v) then (v, filled t)
  else if _unobserved v && negb (_unobserved old) then (old, filled t)
  else (if keeps_prior then old else v, disagree repr_of path old v t).

(** One key of [_deep_union]: what is stored under it, if anything, and the
    value that comes in. *)
Definition prior_at (prior : option json) (k : pystr) : option json :=
  match prior with Some (JDict p) => dget k p | _ => None end.

Fixpoint union_value (path : list pystr) (key : pystr) (v : json) (prior : option json) (old : option json) (t : Tally) : json * Tally :=
  match old with
  | None => (v, t)
  | Some old =>
      match v, old with
      | JDict s, JDict d =>
          let '(d, t) := (fix go (s : list (pystr * json)) (d : list (pystr * json)) (t : Tally) : list (pystr * json) * Tally :=
                            match s with
                            | [] => (d, t)
                            | (k, x) :: s =>
                                let '(y, t) := union_value (path ++ [k]) k x (prior_at prior k) (dget k d) t in go s (dset k y d) t
                            end) s d t in
          (JDict d, t)
      | JList b, JList a =>
          let l := _union_list a b in
          (JList l, if bool_decide (length l = length a) then t else gained (pylen l - pylen a) t)
      | _, _ => union_scalar path key prior old v t
      end
  end.

(** [_deep_union] on any two values: the source must be a dict, and a target
    that is none cannot take a key. *)
Definition _deep_union (dst src : json) (path : list pystr) (prior : option json) (t : Tally) : res (json * Tally) :=
  match src with
  | JDict s =>
      match dst with
      | JDict _ => Ok (union_value path [] src prior (Some dst) t)
      | _ => match s with [] => Ok (dst, t) | _ => Err TypeError end
      end
  | _ => Err AttributeError
  end.

(** ** Names of the submitter *)

(** [max(str(v), ...)]'s text for a field that may be missing. *)
Definition at_text (d : list (pystr * json)) : pystr := py_str repr_of (default (JStr []) (dget (lit "at") d)).
End Union.

(** Whether two characters are the same under re.I, as the engine's tables say;
    for ASCII, when their lower cases are. *)
Definition ascii_low (c : Z) : Z := if in_range 65 90 c then c + 32 else c.
Class Regex := {
  re_same : Z -> Z -> bool;
  re_same_ascii a c : 0 <= a < 0x80 -> 0 <= c < 0x80 -> re_same a c = (ascii_low a =? ascii_low c);
}.
#[export] Program Instance ascii_regex : Regex := {| re_same a c := ascii_low a =? ascii_low c |}.
Next Obligation. done. Qed.

(** The last [@] of a text. *)
Fixpoint rpartition_at (s : pystr) : option (pystr * pystr) :=
  match s with
  | [] => None
  | c :: s =>
      match rpartition_at s with
      | Some (a, b) => Some (c :: a, b)
      | None => if c =? 64 then Some ([], s) else None
      end
  end.

Section Names.
Context `{Unicode} `{Casing} `{Regex}.

(** [ATKEY.match(s)], its group: [.] is no line feed, and [$] stands before one
    that ends the text. *)
Definition atkey (s : pystr) : option pystr :=
  match rpartition_at s with
  | Some (who, n) =>
      let n := match rev n with 10 :: r => rev r | _ => n end in
      if negb (bool_decide (who = [])) && negb (bool_decide (10 ∈ who)) && negb (bool_decide (n = [])) && forallb is_decimal n
      then Some who else None
  | None => None
  end.

Definition own_names (db : lua) : list pystr :=
  foldl (fun names kv =>
      let names := match atkey (key_str (fst kv)) with Some who => set_add who names | None => names end in
      match snd kv with
      | VTable _ _ =>
          match py_string (lua_get (snd kv) "name") with
          | Some (c :: s) => set_add (c :: s) names
          | _ => names
          end
      | _ => names
      end) [] (lua_hash_of (lua_get db "identity")).

Definition restore_tokens (text : pystr) (names : list pystr) : pystr * Z := (text, 0).

(** [\b] between two characters, or at an end. *)
Definition word_char (c : option Z) : bool := match c with Some c => uni_isalnum c || (c =? 95) | None => false end.
Definition boundary (prev : option Z) (s : pystr) : bool := negb (eqb (word_char prev) (word_char (head s))).

Fixpoint name_here (n : pystr) (prev : option Z) (s : pystr) : bool :=
  match n, s with
  | [], _ => boundary prev s
  | a :: n, c :: s => re_same a c && name_here n (Some c) s
  | _, [] => false
  end.
Fixpoint name_in (n : pystr) (prev : option Z) (s : pystr) : bool :=
  (boundary prev s && name_here n prev s) || match s with [] => false | c :: s => name_in n (Some c) s end.
Definition name_found (names : list pystr) (s : pystr) : bool := existsb (fun n => name_in n None s) names.

(** [re.fullmatch] of a word under re.I. *)
Fixpoint same_word (w s : pystr) : bool :=
  match w, s with [], [] => true | a :: w, c :: s => re_same a c && same_word w s | _, _ => false end.
Definition game_field (path : pystr) : bool :=
  let sp := lit "spells." in
  same_word sp (take (length sp) path)
  && match split_at (fun c => c =? 46) (drop (length sp) path) with
     | (ds, Some f) => negb (bool_decide (ds = [])) && forallb is_decimal ds && (same_word (lit "name") f || same_word (lit "schoolName") f)
     | _ => false
     end.

Definition enum_label (path k : pystr) (x : json) : bool :=
  bool_decide (take 5 (uni_lower path) = lit "enums")
  && match x with JBool _ | JInt _ | JFloat _ => true | _ => false end
  && bool_decide (uni_lower k ∈ map lit ["player"; "account"; "creature"]%string).

(** Whether [walk] raises. *)
Fixpoint leaks (names : list pystr) (v : json) (path : pystr) : bool :=
  match v with
  | JDict d => existsb (fun kv => (negb (enum_label path (fst kv) (snd kv)) && name_found names (fst kv))
                                  || leaks names (snd kv) (path ++ lit "." ++ fst kv)) d
  | JList l => (fix go (i : Z) (l : list json) : bool :=
                  match l with [] => false | x :: l => leaks names x (path ++ lit "[" ++ str_of_Z i ++ lit "]") || go (i + 1) l end) 0 l
  | JStr s => name_found names s && (negb (game_field path) || existsb (fun n => bool_decide (uni_casefold s = uni_casefold n)) names)
  | _ => false
  end.
Definition assert_clean (v : json) (names : list pystr) (path : pystr) : res unit :=
  if negb (bool_decide (names = [])) && leaks names v path then Err LeakError else Ok tt.
End Names.


(** ** Merging a file *)

Abbreviation jd := (list (pystr * json)) (only parsing).
Abbreviation page_store := (list (pystr * list (pystr * jd))) (only parsing).

(** [state["harvest"]]: the pages of each snapshot branch by realm and NPC, the
    tree of each realm, the reference tables, the spells, the version as it was
    read, and the counters of [_stats]. *)
Record Harvest := MkHarvest {
  ha_seen : Z; ha_pages : list (pystr * page_store); ha_realms : list (pystr * jd); ha_tables : jd; ha_spells : jd;
  ha_version : option lua; ha_tally : Tally }.
Definition no_tally : Tally := MkTally [] [] 0 0.
Definition no_harvest : Harvest := MkHarvest 0 [] [] [] [] None no_tally.

(** What one file may change: the store, the records held back, and how many
    records it gave.  The conflicts of the file are in the tally. *)
Record HarvestState := MkHarvestState { hs_store : Harvest; hs_held : held_store; hs_n : Z }.

Section Merge.
Context `{Unicode} `{Casing} `{Regex} (repr_of : json -> pystr) (sha256_hex : bytes -> pystr).

Definition hold_gossip (sid digest : pystr) (held : held_store) : held_store :=
  let hold := HeldRecord (lit "gossips") digest (lit "ambiguous_identity") in
  let l := default [] (dget sid held) in
  dset sid (if bool_decide (hold ∈ l) then l else l ++ [hold]) held.

(** The page of one NPC against the one of that NPC in the store. *)
Definition store_page (sid key : pystr) (py : json) (rb : list (pystr * jd)) : res (list (pystr * jd)) :=
  let keep d := dset key (dset (lit "_source") (JStr (take 12 sid)) d) rb in
  match dget key rb, py with
  | None, JDict d => Ok (keep d)
  | None, _ => Err TypeError
  | Some prev, JDict d => Ok (if str_leb (at_text repr_of prev) (at_text repr_of d) then keep d else rb)
  | Some _, _ => Err AttributeError
  end.

(** The pages of a realm as they are folded: bucket, names seen, held, count. *)
Record Paging := MkPaging { pg_realm : list (pystr * jd); pg_seen : Z; pg_held : held_store; pg_n : Z }.

Definition merge_page (branch realm sid : pystr) (names : list pystr) (p : Paging) (kv : lua * lua) : res Paging :=
  let '(npc, rec) := kv in
  if negb (is_table rec) then Ok p
  else
    py ← to_plain rec;
    '(py, seen) ← (if bool_decide (branch = lit "gossips") then
                     match py with
                     | JDict d =>
                         match dget (lit "text") d with
                         | Some (JStr txt) =>
                             let '(txt, k) := restore_tokens txt names in
                             Ok (JDict (dset (lit "text") (JStr txt) d), pg_seen p + k)
                         | _ => Ok (py, pg_seen p)
                         end
                     | _ => Err AttributeError
                     end
                   else Ok (py, pg_seen p));
    match assert_clean py names (cat [branch; lit "."; realm; lit "."; key_str npc]) with
    | Ok _ =>
        rb ← store_page sid (key_str npc) py (pg_realm p);
        Ok (MkPaging rb seen (pg_held p) (pg_n p + 1))
    | Err LeakError =>
        if bool_decide (branch = lit "gossips") then
          text ← utf8_encode (json_dumps true false py);
          Ok (MkPaging (pg_realm p) seen (hold_gossip sid (sha256_hex text) (pg_held p)) (pg_n p))
        else Err LeakError
    | Err e => Err e
    end.

(** Replaces the store, the held records and the count. *)
Definition set_pages (branch : pystr) (bucket : page_store) (st : HarvestState) : HarvestState :=
  let h := hs_store st in
  MkHarvestState (MkHarvest (ha_seen h) (dset branch bucket (ha_pages h)) (ha_realms h) (ha_tables h) (ha_spells h) (ha_version h) (ha_tally h))
    (hs_held st) (hs_n st).
Definition set_paging (branch realm : pystr) (p : Paging) (st : HarvestState) : HarvestState :=
  let h := hs_store st in
  let bucket := default [] (dget branch (ha_pages h)) in
  MkHarvestState
    (MkHarvest (pg_seen p) (dset branch (dset realm (pg_realm p) bucket) (ha_pages h)) (ha_realms h) (ha_tables h) (ha_spells h) (ha_version h) (ha_tally h))
    (pg_held p) (pg_n p).

Definition merge_realm_pages (branch sid : pystr) (names : list pystr) (st : HarvestState) (kv : lua * lua) : res HarvestState :=
  let '(realm, npcs) := kv in
  if negb (is_table npcs) then Ok st
  else
    let bucket := default [] (dget branch (ha_pages (hs_store st))) in
    let rb := default [] (dget (key_str realm) bucket) in
    p ← res_fold (merge_page branch (key_str realm) sid names) (MkPaging rb (ha_seen (hs_store st)) (hs_held st) (hs_n st)) (lua_hash_of npcs);
    Ok (set_paging branch (key_str realm) p st).

Definition merge_snapshot (db : lua) (sid : pystr) (names : list pystr) (st : HarvestState) (branch : string) : res HarvestState :=
  match lua_get db branch with
  | VTable _ realms =>
      let bucket := default [] (dget (lit branch) (ha_pages (hs_store st))) in
      res_fold (merge_realm_pages (lit branch) sid names) (set_pages (lit branch) bucket st) realms
  | _ => Ok st
  end.

(** [preferred.get("byRealm", {}).get(realm)], and below it the branch. *)
Definition prior_realm (preferred : json) (realm : pystr) (missing : json) : res json :=
  by_realm ← jget preferred (lit "byRealm") (JDict []);
  jget by_realm realm missing.
Definition prior_branch (preferred : json) (realm branch : pystr) : res json :=
  of_realm ← prior_realm preferred realm (JDict []);
  jget of_realm branch JNull.

Definition set_realm (realm : pystr) (tree : jd) (t : Tally) (st : HarvestState) : HarvestState :=
  let h := hs_store st in
  MkHarvestState (MkHarvest (ha_seen h) (ha_pages h) (dset realm tree (ha_realms h)) (ha_tables h) (ha_spells h) (ha_version h) t)
    (hs_held st) (hs_n st + 1).

(** [wildcardStatics] goes when it repeats [wildcard.statics]. *)
Definition drop_duplicate (db : lua) (py : json) : res json :=
  let other := lua_get (lua_get db "wildcard") "statics" in
  let copy := DUPLICATE in
  match py with
  | JDict d =>
      match dget copy d, other with
      | None, _ | _, VNone => Ok py
      | Some x, _ => o ← to_plain other; Ok (if json_eqb o x then JDict (ddel copy d) else py)
      end
  | JList l => if existsb (fun x => json_eqb (JStr copy) x) l && match other with VNone => false | _ => true end then o ← to_plain other; Err TypeError else Ok py
  | _ => Ok py
  end.

Definition merge_by_realm (db : lua) (names : list pystr) (preferred : json) (st : HarvestState) (kv : lua * lua) : res HarvestState :=
  let '(realm, sub) := (key_str (fst kv), snd kv) in
  if negb (is_table sub) then Ok st
  else
    py ← to_plain sub;
    _ ← assert_clean py names (lit "byRealm." ++ realm);
    py ← drop_duplicate db py;
    prior ← prior_realm preferred realm JNull;
    let tree := default [] (dget realm (ha_realms (hs_store st))) in
    '(y, t) ← _deep_union repr_of (JDict tree) py [lit "byRealm"; realm] (Some prior) (ha_tally (hs_store st));
    match y with JDict tree => Ok (set_realm realm tree t st) | _ => Err TypeError end.

(** A top-level copy of a realm's branch; without [byRealm] the realm is made. *)
Definition merge_branch (db : lua) (names : list pystr) (preferred : json) (realm : pystr) (makes : bool) (st : HarvestState) (branch : string)
    : res HarvestState :=
  match lua_get db branch with
  | VNone => Ok st
  | sub =>
      py ← to_plain sub;
      _ ← assert_clean py names (lit branch);
      tree ← match dget realm (ha_realms (hs_store st)) with Some tree => Ok tree | None => if makes then Ok [] else Err KeyError end;
      prior ← prior_branch preferred realm (lit branch);
      let old := default (JDict []) (dget (lit branch) tree) in
      '(y, t) ← _deep_union repr_of old py [lit "byRealm"; realm; lit branch] (Some prior) (ha_tally (hs_store st));
      Ok (set_realm realm (dset (lit branch) y tree) t st)
  end.

Definition merge_realms (db : lua) (names : list pystr) (preferred : json) (st : HarvestState) : res HarvestState :=
  match lua_get db "byRealm" with
  | VTable _ ((k, v) :: hash) =>
      st ← res_fold (merge_by_realm db names preferred) st ((k, v) :: hash);
      match hash with
      | [] => res_fold (merge_branch db names preferred (key_str k) false) st REALM_SCOPED
      | _ => Ok st
      end
  | _ => res_fold (merge_branch db names preferred UNATTRIBUTED true) st REALM_SCOPED
  end.

Definition set_table (branch : pystr) (v : json) (t : Tally) (st : HarvestState) : HarvestState :=
  let h := hs_store st in
  MkHarvestState (MkHarvest (ha_seen h) (ha_pages h) (ha_realms h) (dset branch v (ha_tables h)) (ha_spells h) (ha_version h) t)
    (hs_held st) (hs_n st + 1).

Definition merge_table (db : lua) (names : list pystr) (preferred : json) (st : HarvestState) (branch : string) : res HarvestState :=
  match lua_get db branch with
  | VNone => Ok st
  | tree =>
      py ← to_plain tree;
      _ ← assert_clean py names (lit branch);
      match py with
      | JDict _ =>
          let old := default (JDict []) (dget (lit branch) (ha_tables (hs_store st))) in
          prior ← jget preferred (lit branch) JNull;
          '(y, t) ← _deep_union repr_of old py [lit branch] (Some prior) (ha_tally (hs_store st));
          Ok (set_table (lit branch) y t st)
      | _ => Ok (set_table (lit branch) py (ha_tally (hs_store st)) st)
      end
  end.

Definition set_spells (spells : jd) (n : Z) (st : HarvestState) : HarvestState :=
  let h := hs_store st in
  MkHarvestState (MkHarvest (ha_seen h) (ha_pages h) (ha_realms h) (ha_tables h) spells (ha_version h) (ha_tally h))
    (hs_held st) (hs_n st + n).

Definition merge_spell (names : list pystr) (preferred : json) (st : HarvestState) (kv : lua * lua) : res HarvestState :=
  let '(spell, rec) := (key_str (fst kv), snd kv) in
  py ← to_plain rec;
  _ ← assert_clean py names (lit "spells." ++ spell);
  known ← jget preferred (lit "spells") (JDict []);
  prior ← jget known spell JNull;
  let spells := ha_spells (hs_store st) in
  Ok (set_spells (if json_eqb py prior then dset spell py spells else snd (dsetdefault spell py spells)) 1 st).

Definition merge_spells_of (names : list pystr) (preferred : json) (st : HarvestState) (kv : lua * lua) : res HarvestState :=
  if is_table (snd kv) then res_fold (merge_spell names preferred) st (lua_hash_of (snd kv)) else Ok st.

Definition set_version (v : option lua) (st : HarvestState) : HarvestState :=
  let h := hs_store st in
  MkHarvestState (MkHarvest (ha_seen h) (ha_pages h) (ha_realms h) (ha_tables h) (ha_spells h) v (ha_tally h)) (hs_held st) (hs_n st).

(** The conflicts go to a list of the caller's that is empty when a file begins;
    the other counters stay in the store. *)
Definition with_no_conflicts (h : Harvest) : Harvest :=
  let t := ha_tally h in
  MkHarvest (ha_seen h) (ha_pages h) (ha_realms h) (ha_tables h) (ha_spells h) (ha_version h) (MkTally [] (ta_observed t) (ta_gain t) (ta_filled t)).

(** [merge_wildcardharvest]: the store and the held records after the file, the
    conflicts it reports and how many records it gave. *)
Definition merge_wildcardharvest (store : option Harvest) (held : held_store) (g : list (pystr * lua)) (sid : pystr) (preferred : json)
    : res (option Harvest * held_store * list (list pystr * json * json) * Z) :=
  match dget GLOBAL g with
  | Some (VTable a hash) =>
      let db := VTable a hash in
      let names := own_names db in
      st ← res_fold (merge_snapshot db sid names) (MkHarvestState (with_no_conflicts (default no_harvest store)) held 0) SNAPSHOT;
      st ← merge_realms db names preferred st;
      st ← res_fold (merge_table db names preferred) st REFERENCE;
      st ← match lua_get db "spellsByChar" with
           | VTable _ chars => res_fold (merge_spells_of names preferred) st chars
           | _ => Ok st
           end;
      let st := match lua_get db "version" with VNone => st | v => set_version (Some v) st end in
      Ok (Some (with_no_conflicts (hs_store st)), hs_held st, ta_conflicts (ha_tally (hs_store st)), hs_n st)
  | _ => Ok (store, held, [], 0)
  end.
End Merge.
