(* ===== verification/LuaHarvestSpec.v ===== *)
(** * Harvest snapshots: what a merge keeps (cache-consolidator/tools/harvestmerge.py)

    A deep union keeps every reading of both sides or reports it, and a second
    union with the same tree changes nothing; a page is replaced only by one
    that is not older, and none with a name of the submitter comes in. *)
From S2P Require Import Prelude Wire PyFloat Text Format Json Lua LuaParse LuaLex LuaSpec LuaMerge LuaMergeSpec LuaAuction JsonText BmsMap LuaHarvest.

(** ** What a union keeps *)

(** Distinct keys throughout, and no number that differs from itself. *)
Inductive tidy : json -> Prop :=
  | tidy_null : tidy JNull
  | tidy_bool b : tidy (JBool b)
  | tidy_int n : tidy (JInt n)
  | tidy_float x : x <> SpecFloat.S754_nan -> tidy (JFloat x)
  | tidy_str s : tidy (JStr s)
  | tidy_list l : Forall tidy l -> tidy (JList l)
  | tidy_dict d : NoDup (map fst d) -> Forall (fun kv => tidy (snd kv)) d -> tidy (JDict d).

Lemma num_eqb_refl n : n <> NotNum -> num_eqb n n = true.
Proof. destruct n; try done. intros _. cbn. unfold fin_compare. by rewrite Z.compare_refl. Qed.

Lemma json_eqb_refl v : tidy v -> json_eqb v v = true.
Proof.
  induction v as [| | |x| |l IH|d IH] using json_tree_ind; intros Hv; cbn [json_eqb]; try done; inversion Hv; subst.
  - apply num_eqb_refl. cbn. congruence.
  - apply num_eqb_refl. cbn. congruence.
  - apply num_eqb_refl. destruct x as [?|[]| |]; cbn; congruence.
  - by apply bool_decide_eq_true.
  - clear Hv. induction IH as [|v l Hx _ IHl]; [done|]. inversion H0; subst. rewrite Hx by done. by apply IHl.
  - rewrite bool_decide_eq_true_2 by done. cbn [andb].
    assert (forall s, (forall k x, (k, x) ∈ s -> dget k d = Some x) -> Forall (fun kv => tidy (snd kv) -> json_eqb (snd kv) (snd kv) = true) s ->
              Forall (fun kv => tidy (snd kv)) s ->
              (fix go (d' : list (pystr * json)) : bool := match d' with [] => true
                 | (k, x) :: d' => match dget k d with Some y => json_eqb x y | None => false end && go d' end) s = true) as Hg.
    { clear. induction s as [|[k x] s IHs]; [done|]. intros Hd Hi Ht. inversion Hi; inversion Ht; subst. rewrite (Hd k x) by left. cbn [snd] in *.
      rewrite H1 by done. cbn [andb]. apply IHs; [|done|done]. intros j y Hj. apply Hd. by right. }
    apply Hg; [|done|done]. intros k x Hk. by apply elem_of_dget.
Qed.

(** *** What a file gives is tidy *)

(** No number of the value differs from itself. *)
Fixpoint nan_free (v : lua) : bool :=
  match v with
  | VFloat SpecFloat.S754_nan => false
  | VTable a h => forallb nan_free a && forallb (fun kv => nan_free (snd kv)) h
  | _ => true
  end.

Definition plain_items := fix go (l : list lua) : res (list json) :=
  match l with [] => Ok [] | x :: l => y ← to_plain x; ys ← go l; Ok (y :: ys) end.
Definition plain_hash := fix go (h : list (lua * lua)) (out : list (pystr * json)) : res (list (pystr * json)) :=
  match h with [] => Ok out | (k, x) :: h => y ← to_plain x; go h (dset (key_str k) y out) end.
Definition plain_slots := fix go (i : Z) (l : list lua) (out : list (pystr * json)) : res (list (pystr * json)) :=
  match l with
  | [] => Ok out
  | VNone :: l => go (i + 1) l out
  | x :: l =>
      match dget (str_of_Z i) out with
      | Some _ => Err ValueError
      | None => y ← to_plain x; go (i + 1) l (dset (str_of_Z i) y out)
      end
  end.

Lemma to_plain_table a h : to_plain (VTable a h)
  = match h with [] => l ← plain_items a; Ok (JList l) | _ => out ← plain_hash h []; out ← plain_slots 1 a out; Ok (JDict out) end.
Proof. by destruct h. Qed.

Definition gives_tidy (v : lua) : Prop := forall j, to_plain v = Ok j -> tidy j.
Definition tidy_table (d : list (pystr * json)) : Prop := dict_ok d /\ Forall (fun kv => tidy (snd kv)) d.

Lemma tidy_table_dset k v d : tidy v -> tidy_table d -> tidy_table (dset k v d).
Proof. intros Hv [Hd Ht]. split; [by apply dict_ok_dset|by apply (Forall_dset (fun kv => tidy (snd kv)))]. Qed.

Lemma plain_items_tidy l : Forall gives_tidy l -> forall k, plain_items l = Ok k -> Forall tidy k.
Proof.
  induction 1 as [|x l Hx _ IH]; intros k E; cbn [plain_items] in E; [by apply Ok_inj in E as <-|].
  inv_bind E. inv_bind E. apply Ok_inj in E as <-. constructor; [by apply Hx|by apply IH].
Qed.

Lemma plain_hash_tidy h : Forall (fun kv => gives_tidy (snd kv)) h -> forall d d', tidy_table d -> plain_hash h d = Ok d' -> tidy_table d'.
Proof.
  induction 1 as [|[k x] h Hx _ IH]; intros d d' Hd E; cbn [plain_hash] in E; [by apply Ok_inj in E as <-|].
  inv_bind E. eapply IH; [|exact E]. apply tidy_table_dset; [by apply Hx|done].
Qed.

Lemma plain_slots_tidy l : Forall gives_tidy l -> forall i d d', tidy_table d -> plain_slots i l d = Ok d' -> tidy_table d'.
Proof.
  induction 1 as [|x l Hx _ IH]; intros i d d' Hd E; cbn [plain_slots] in E; [by apply Ok_inj in E as <-|].
  destruct x; try (by eapply IH); (destruct (dget _ d); [done|]); inv_bind E; (eapply IH; [|exact E]); (apply tidy_table_dset; [by apply Hx|done]).
Qed.

Lemma dset_cons {V} (k : pystr) (v : V) d : dset k v d <> [].
Proof. destruct d as [|[j w] d]; [done|]. cbn [dset]. by case_decide. Qed.

Lemma plain_hash_cons h : forall d d', d <> [] -> plain_hash h d = Ok d' -> d' <> [].
Proof.
  induction h as [|[k x] h IH]; intros d d' Hd E; cbn [plain_hash] in E; [by apply Ok_inj in E as <-|]. inv_bind E. eapply IH; [|exact E]. apply dset_cons.
Qed.

Lemma plain_slots_cons l : forall i d d', d <> [] -> plain_slots i l d = Ok d' -> d' <> [].
Proof.
  induction l as [|x l IH]; intros i d d' Hd E; cbn [plain_slots] in E; [by apply Ok_inj in E as <-|].
  destruct x; try (by eapply IH); (destruct (dget _ d); [done|]); inv_bind E; (eapply IH; [|exact E]); apply dset_cons.
Qed.

(** A table with keys is a dictionary that is not empty. *)
Lemma to_plain_dict a kv h j : to_plain (VTable a (kv :: h)) = Ok j -> exists d, j = JDict d /\ d <> [].
Proof.
  rewrite to_plain_table. intros E. inv_bind E. inv_bind E. apply Ok_inj in E as <-. eexists. split; [done|]. eapply plain_slots_cons; [|exact E1].
  destruct kv as [k x]. cbn [plain_hash] in E0. inv_bind E0. eapply plain_hash_cons; [|exact E0]. apply dset_cons.
Qed.

Lemma to_plain_tidy v : nan_free v = true -> gives_tidy v.
Proof.
  induction v as [| | |x| | |a h IHa IHh] using lua_tree_ind; intros Hn j E; try (cbn in E; apply Ok_inj in E as <-; constructor).
  - by destruct x.
  - cbn [nan_free] in Hn. apply andb_true_iff in Hn as [Ha Hh]. rewrite forallb_forall in Ha, Hh.
    assert (Forall gives_tidy a) as Ga by (rewrite Forall_forall in *; intros x Hx; apply IHa; [done|]; by apply Ha, list_elem_of_In).
    assert (Forall (fun kv => gives_tidy (snd kv)) h) as Gh by (rewrite Forall_forall in *; intros x Hx; apply IHh; [done|]; by apply (Hh x), list_elem_of_In).
    rewrite to_plain_table in E. destruct h as [|kv h].
    + inv_bind E. apply Ok_inj in E as <-. constructor. by eapply plain_items_tidy.
    + inv_bind E. inv_bind E. apply Ok_inj in E as <-. eapply plain_hash_tidy in E0; [|done|by split; constructor].
      eapply plain_slots_tidy in E1 as [? ?]; [by constructor|done..].
Qed.

Section Keeps.
Context `{Unicode} (repr_of : json -> pystr).
Notation union := (union_value repr_of).

Definition union_dict (path : list pystr) (prior : option json) :=
  fix go (s : list (pystr * json)) (d : list (pystr * json)) (t : Tally) : list (pystr * json) * Tally :=
    match s with
    | [] => (d, t)
    | (k, x) :: s => let '(y, t) := union (path ++ [k]) k x (prior_at prior k) (dget k d) t in go s (dset k y d) t
    end.

Lemma union_dict_eq path key s prior d t :
  union path key (JDict s) prior (Some (JDict d)) t = let '(d, t) := union_dict path prior s d t in (JDict d, t).
Proof. done. Qed.

Lemma union_dict_cons path prior k x s d t :
  union_dict path prior ((k, x) :: s) d t
  = union_dict path prior s (dset k (fst (union (path ++ [k]) k x (prior_at prior k) (dget k d) t)) d) (snd (union (path ++ [k]) k x (prior_at prior k) (dget k d) t)).
Proof. cbn [union_dict]. by destruct (union_value _ _ _ _ _ _ _). Qed.

Lemma scalar_value path key prior old v t t' :
  fst (union_scalar repr_of path key prior old v t) = fst (union_scalar repr_of path key prior old v t').
Proof. unfold union_scalar. by repeat case_match. Qed.

(** What is stored does not depend on what was reported before. *)
Lemma union_reports_apart v : forall path key prior old t t', fst (union path key v prior old t) = fst (union path key v prior old t').
Proof.
  induction v as [| | | | |l _|s IH] using json_tree_ind; intros path key prior [old|] t t'; try done; try apply scalar_value.
  - destruct old; try apply scalar_value. done.
  - destruct old as [| | | | | |d]; try apply scalar_value. rewrite !union_dict_eq.
    assert (forall s, Forall (fun kv => forall path key prior old t t', fst (union path key (snd kv) prior old t) = fst (union path key (snd kv) prior old t')) s ->
              forall d t t', fst (union_dict path prior s d t) = fst (union_dict path prior s d t')) as Hg.
    { clear. induction 1 as [|[k x] s Hx _ IHs]; intros d t t'; [done|]. rewrite !union_dict_cons. cbn [snd] in Hx. rewrite (Hx _ _ _ _ t t'). apply IHs. }
    specialize (Hg s IH d t t'). destruct (union_dict path prior s d t), (union_dict path prior s d t'). cbn in *. by subst.
Qed.

(** What a union stores under a key: what was there, with what came in. *)
Lemma union_dict_get path prior s : NoDup (map fst s) -> forall d t t' k,
  dget k (fst (union_dict path prior s d t))
  = match dget k s with Some x => Some (fst (union (path ++ [k]) k x (prior_at prior k) (dget k d) t')) | None => dget k d end.
Proof.
  induction s as [|[j x] s IH]; intros Hn d t t' k; [done|]. cbn [map fst] in Hn. apply NoDup_cons in Hn as [Hj Hn].
  rewrite union_dict_cons, (IH Hn _ _ t'). cbn [dget]. destruct (decide (j = k)) as [->|Hne].
  - rewrite (proj2 (dget_None_keys _ _)) by done. rewrite decide_True by done. rewrite dget_dset_eq. f_equal. apply union_reports_apart.
  - rewrite decide_False by done. rewrite dget_dset_ne by done. done.
Qed.

(** ** Replays *)

Lemma add_new_covers b : forall seen x, x ∈ b -> value_key x ∈ seen \/ value_key x ∈ map value_key (add_new seen b).
Proof.
  induction b as [|y b IH]; intros seen x Hx; [by apply elem_of_nil in Hx|]. cbn [add_new]. case_bool_decide as Hy.
  - apply elem_of_cons in Hx as [->|Hx]; [by left|by apply IH].
  - cbn [map]. apply elem_of_cons in Hx as [->|Hx]; [right; by left|]. destruct (IH (value_key y :: seen) x Hx) as [Hs|?]; [|right; by right].
    apply elem_of_cons in Hs as [->|?]; [right; by left|by left].
Qed.

Lemma add_new_none b : forall seen, (forall x, x ∈ b -> value_key x ∈ seen) -> add_new seen b = [].
Proof.
  induction b as [|y b IH]; intros seen Hs; [done|]. cbn [add_new]. rewrite bool_decide_eq_true_2 by (apply Hs; by left).
  apply IH. intros x Hx. apply Hs. by right.
Qed.

Lemma union_list_covers a b x : x ∈ b -> value_key x ∈ map value_key (_union_list a b).
Proof. intros Hx. unfold _union_list. rewrite map_app. apply elem_of_app. by apply add_new_covers. Qed.

Lemma union_list_covered a b : (forall x, x ∈ b -> value_key x ∈ map value_key a) -> _union_list a b = a.
Proof. intros Hb. unfold _union_list. by rewrite add_new_none, app_nil_r. Qed.

Lemma union_list_again a b : _union_list (_union_list a b) b = _union_list a b.
Proof. apply union_list_covered. intros x. apply union_list_covers. Qed.

Lemma union_list_self a : _union_list a a = a.
Proof. apply union_list_covered. intros x Hx. by apply list_elem_of_In, in_map, list_elem_of_In. Qed.

(** A tree whose entries are all there already. *)
Lemma union_dict_settled path prior s : forall d t,
  (forall k x, (k, x) ∈ s -> exists y, dget k d = Some y /\ forall t, fst (union (path ++ [k]) k x (prior_at prior k) (Some y) t) = y) ->
  fst (union_dict path prior s d t) = d.
Proof.
  induction s as [|[k x] s IH]; intros d t Hs; [done|]. rewrite union_dict_cons.
  destruct (Hs k x) as (y & Hy & Hf); [by left|]. rewrite Hy, Hf, (dset_same _ _ _ Hy). apply IH. intros j z Hj. apply Hs. by right.
Qed.

Lemma scalar_self path key prior v t : tidy v -> fst (union_scalar repr_of path key prior v v t) = v.
Proof. intros Hv. unfold union_scalar. by rewrite json_eqb_refl. Qed.

Lemma tidy_entry k x d : tidy (JDict d) -> (k, x) ∈ d -> tidy x.
Proof. intros Hd Hk. inversion Hd; subst. by eapply Forall_forall in Hk; [|eassumption]. Qed.

Lemma tidy_keys d : tidy (JDict d) -> dict_ok d.
Proof. intros Hd. by inversion Hd. Qed.

Lemma union_self v : tidy v -> forall path key prior t, fst (union path key v prior (Some v) t) = v.
Proof.
  induction v as [| | | | |l _|s IH] using json_tree_ind; intros Hv path key prior t; try by apply scalar_self.
  - cbn [union_value fst]. by rewrite union_list_self.
  - rewrite union_dict_eq. pose proof (union_dict_settled path prior s s t) as Hg.
    destruct (union_dict path prior s s t) as [d t1]. cbn [fst] in *. rewrite Hg; [done|]. intros k x Hk. exists x.
    split; [apply elem_of_dget; [by apply tidy_keys|done]|]. intros t2. eapply Forall_forall in IH; [|exact Hk]. apply IH. by eapply tidy_entry.
Qed.

Lemma scalar_cases path key prior old v t :
  fst (union_scalar repr_of path key prior old v t) = v \/ fst (union_scalar repr_of path key prior old v t) = old
  \/ bool_decide (key ∈ TIMESTAMP) = true /\ fst (union_scalar repr_of path key prior old v t) = JStr (later_text repr_of old v).
Proof. unfold union_scalar. repeat case_match; cbn [fst]; tauto. Qed.

Lemma later_again old v : later_text repr_of (JStr (later_text repr_of old v)) v = later_text repr_of old v.
Proof.
  unfold later_text. cbn [py_str]. destruct (str_leb (py_str repr_of v) (py_str repr_of old)) eqn:El; [by rewrite El|]. by case_match.
Qed.

Lemma scalar_again path key prior old v t t' : tidy v ->
  (forall t, union path key v prior (Some old) t = union_scalar repr_of path key prior old v t) ->
  let r := fst (union path key v prior (Some old) t) in fst (union path key v prior (Some r) t') = r.
Proof.
  intros Hv Hs. cbn zeta. rewrite Hs. destruct (scalar_cases path key prior old v t) as [E|[E|[Ht E]]]; rewrite E.
  - by apply union_self.
  - rewrite Hs. by rewrite (scalar_value _ _ _ _ _ t' t).
  - assert (union path key v prior (Some (JStr (later_text repr_of old v))) t' = union_scalar repr_of path key prior (JStr (later_text repr_of old v)) v t')
      as -> by (by destruct v).
    unfold union_scalar. destruct (json_eqb (JStr _) v); [done|]. rewrite Ht. cbn [fst]. by rewrite later_again.
Qed.

(** A second union with the same tree changes nothing. *)
Lemma union_again v : tidy v -> forall path key prior old t t',
  let r := fst (union path key v prior old t) in fst (union path key v prior (Some r) t') = r.
Proof.
  induction v as [| | | | |l _|s IH] using json_tree_ind; intros Hv path key prior [old|] t t'; try (by apply union_self); try (by apply scalar_again).
  - destruct old; try by apply scalar_again. cbn [union_value fst]. by rewrite union_list_again.
  - destruct old as [| | | | | |d]; try by apply scalar_again.
    rewrite union_dict_eq. destruct (union_dict path prior s d t) as [d1 t1] eqn:E1. cbn zeta. cbn [fst]. rewrite union_dict_eq.
    pose proof (union_dict_settled path prior s d1 t') as Hg. destruct (union_dict path prior s d1 t') as [d2 t2]. cbn [fst] in *. rewrite Hg; [done|].
    intros k x Hk. pose proof (union_dict_get path prior s (tidy_keys _ Hv) d t t k) as Hd. rewrite E1 in Hd. cbn [fst] in Hd.
    rewrite (elem_of_dget _ _ _ (tidy_keys _ Hv) Hk) in Hd. eexists. split; [exact Hd|]. intros t3.
    eapply Forall_forall in IH; [|exact Hk]. apply IH. by eapply tidy_entry.
Qed.

(** ** What is kept *)

(** An answer seen at a probe. *)
Definition seen_at (t : Tally) (name key : pystr) : Prop :=
  exists slot, dget name (ta_observed t) = Some slot /\ key ∈ map fst slot.

(** What one tally reports is reported by a later one. *)
Record grows (t t' : Tally) : Prop := {
  grows_conflicts c : c ∈ ta_conflicts t -> c ∈ ta_conflicts t';
  grows_seen name key : seen_at t name key -> seen_at t' name key }.

#[export] Instance grows_preorder : PreOrder grows.
Proof. split; [by constructor|]. intros a b c [H1 H2] [H3 H4]. constructor; eauto. Qed.

(** The reading [x] at a path is in the report. *)
Definition reported (t : Tally) (path : list pystr) (x : json) : Prop :=
  (exists w, (path, _brief repr_of x, w) ∈ ta_conflicts t \/ (path, w, _brief repr_of x) ∈ ta_conflicts t)
  \/ seen_at t (join [46] path) (value_key x).

(** A reading [x] of a union whose result is [y]: it is the result or equal to
    it, it is a zero, an older clock, a list whose elements are all there, a
    table whose entries are reading_kept, or it is reported. *)
Inductive reading_kept (t : Tally) : list pystr -> pystr -> json -> json -> Prop :=
  | kept_same path key x y : x = y \/ json_eqb x y = true \/ json_eqb y x = true -> reading_kept t path key x y
  | kept_zero path key x y : _unobserved x = true -> reading_kept t path key x y
  | kept_clock path key x s : key ∈ TIMESTAMP -> str_leb (py_str repr_of x) s = true -> reading_kept t path key x (JStr s)
  | kept_list path key a b : (forall x, x ∈ a -> value_key x ∈ map value_key b) -> reading_kept t path key (JList a) (JList b)
  | kept_dict path key d e :
      (forall k x, dget k d = Some x -> exists y, dget k e = Some y /\ reading_kept t (path ++ [k]) k x y) -> reading_kept t path key (JDict d) (JDict e)
  | kept_reported path key x y : reported t path x -> reading_kept t path key x y.

Lemma dset_key {V} (k j : pystr) (v : V) d : j ∈ map fst (dset k v d) <-> j = k \/ j ∈ map fst d.
Proof.
  pose proof (dkeys_dset k v d) as E. unfold dkeys in E. rewrite E. unfold dmem. destruct (dget k d) eqn:Ed; [|set_solver].
  assert (k ∈ map fst d) by (apply dget_elem_of in Ed; by eapply list_elem_of_In, (in_map fst), list_elem_of_In in Ed). set_solver.
Qed.

Lemma counted vs : forall slot k, k ∈ map fst (foldl count_one slot vs) <-> k ∈ map fst slot \/ exists v, v ∈ vs /\ k = value_key v.
Proof.
  induction vs as [|v vs IH]; intros slot k; cbn [foldl]; [split; [by left|intros [?|(?&?&?)]; [done|set_solver]]|].
  rewrite IH. unfold count_one. rewrite dset_key. set_solver.
Qed.

Lemma observe_seen path vs t name k :
  seen_at (_observe path vs t) name k <-> seen_at t name k \/ name = join [46] path /\ exists v, v ∈ vs /\ k = value_key v.
Proof.
  unfold seen_at, _observe. cbn [ta_observed]. rewrite dget_dset. case_decide as E; split.
  - intros (slot & [= <-] & Hk). apply counted in Hk as [Hk|Hk]; [left|by right]. subst.
    destruct (dget (join [46] path) (ta_observed t)); [eauto|by apply elem_of_nil in Hk].
  - intros [(slot & Es & Hk)|[_ Hv]]; eexists; (split; [done|]); apply counted; [left|by right]. subst. by rewrite Es.
  - intros ?. by left.
  - intros [?|[-> _]]; done.
Qed.

Lemma observe_grows path vs t : grows t (_observe path vs t).
Proof. constructor; [done|]. intros name k Hk. apply observe_seen. by left. Qed.

Lemma scalar_grows path key prior old v t : grows t (snd (union_scalar repr_of path key prior old v t)).
Proof.
  unfold union_scalar. repeat case_match; cbn [snd]; try done; try apply observe_grows; constructor; cbn; try done.
  all: intros c Hc; apply elem_of_app; by left.
Qed.

Lemma dict_grows path prior s : Forall (fun kv => forall path key prior old t, grows t (snd (union path key (snd kv) prior old t))) s ->
  forall d t, grows t (snd (union_dict path prior s d t)).
Proof. induction 1 as [|[k x] s Hx _ IH]; intros d t; [done|]. rewrite union_dict_cons. etrans; [apply Hx|]. apply IH. Qed.

Lemma union_grows v : forall path key prior old t, grows t (snd (union path key v prior old t)).
Proof.
  induction v as [| | | | |l _|s IH] using json_tree_ind; intros path key prior [old|] t; try done; try apply scalar_grows.
  - destruct old; try apply scalar_grows. cbn [union_value snd]. case_bool_decide; [done|]. by constructor.
  - destruct old as [| | | | | |d]; try apply scalar_grows. rewrite union_dict_eq.
    pose proof (dict_grows path prior s IH d t) as Hg. by destruct (union_dict path prior s d t).
Qed.

(** What an entry reports is in the report of its table. *)
Lemma union_dict_reports path prior s k x : (k, x) ∈ s -> dict_ok s -> forall d t,
  exists t', grows (snd (union (path ++ [k]) k x (prior_at prior k) (dget k d) t')) (snd (union_dict path prior s d t)).
Proof.
  induction s as [|[j y] s IH]; intros Hk Hs d t; [by apply elem_of_nil in Hk|]. rewrite union_dict_cons.
  unfold dict_ok in Hs. apply NoDup_cons in Hs as [Hj Hs]. apply elem_of_cons in Hk as [[= -> ->]|Hk].
  - exists t. apply dict_grows, Forall_forall. intros; apply union_grows.
  - destruct (IH Hk Hs (dset j (fst (union (path ++ [j]) j y (prior_at prior j) (dget j d) t)) d) (snd (union (path ++ [j]) j y (prior_at prior j) (dget j d) t)))
      as (t' & Ht). exists t'. rewrite dget_dset_ne in Ht; [done|]. intros ->. apply Hj. by eapply list_elem_of_In, (in_map fst), list_elem_of_In in Hk.
Qed.

Lemma reported_grows t T path x : grows t T -> reported t path x -> reported T path x.
Proof. intros [Hc Hs] [(w & [Hw|Hw])|Hk]; [left; exists w; left|left; exists w; right|right]; auto. Qed.

Lemma disagree_reports path old v t : reported (disagree repr_of path old v t) path old /\ reported (disagree repr_of path old v t) path v.
Proof.
  split; left; eexists; [left|right]; cbn [disagree ta_conflicts]; apply elem_of_app; right; by left.
Qed.

Lemma observe_reports path old v t : reported (_observe path [old; v] t) path old /\ reported (_observe path [old; v] t) path v.
Proof. split; right; apply observe_seen; right; (split; [done|]); eexists; (split; [|done]); set_solver. Qed.

Lemma later_above v w : str_leb (py_str repr_of v) (later_text repr_of v w) = true /\ str_leb (py_str repr_of w) (later_text repr_of v w) = true.
Proof.
  pose proof str_leb_refl as Hr.
  unfold later_text. destruct (str_leb (py_str repr_of w) (py_str repr_of v)) eqn:E; split; auto. by apply str_leb_total.
Qed.

Lemma scalar_kept path key prior old v t T : grows (snd (union_scalar repr_of path key prior old v t)) T ->
  let y := fst (union_scalar repr_of path key prior old v t) in reading_kept T path key old y /\ reading_kept T path key v y.
Proof.
  unfold union_scalar. set (b := match prior with Some p => json_eqb old p | None => false end). cbn zeta. intros Hg.
  destruct (json_eqb old v) eqn:Ee; cbn [fst snd] in *; [split; apply kept_same; auto|].
  case_bool_decide as Ht; cbn [fst snd] in *; [split; apply kept_clock; try done; apply later_above|].
  destruct (_probed path); cbn [fst snd] in *.
  { destruct (observe_reports path old v t) as [Ho Hv]. split; apply kept_reported; by eapply reported_grows. }
  destruct (_unobserved old && negb (_unobserved v)) eqn:E1; cbn [fst snd] in *.
  { apply andb_true_iff in E1 as [? _]. split; [by apply kept_zero|apply kept_same; auto]. }
  destruct (_unobserved v && negb (_unobserved old)) eqn:E2; cbn [fst snd] in *.
  { apply andb_true_iff in E2 as [? _]. split; [apply kept_same; auto|by apply kept_zero]. }
  destruct (disagree_reports path old v t) as [Ho Hv]. split; apply kept_reported; by eapply reported_grows.
Qed.

Lemma union_new v path key prior t : fst (union path key v prior None t) = v.
Proof. by destruct v. Qed.

Lemma union_kept v : tidy v -> forall path key prior old t T, grows (snd (union path key v prior (Some old) t)) T ->
  let y := fst (union path key v prior (Some old) t) in reading_kept T path key old y /\ reading_kept T path key v y.
Proof.
  induction v as [| | | | |l _|s IH] using json_tree_ind; intros Hv path key prior old t T Hg; try by apply scalar_kept.
  - destruct old as [| | | | |a|]; try by apply scalar_kept. cbn [union_value fst]. split; apply kept_list; intros x Hx; [|by apply union_list_covers].
    unfold _union_list. rewrite map_app. apply elem_of_app. left. by apply list_elem_of_In, in_map, list_elem_of_In.
  - destruct old as [| | | | | |d]; try by apply scalar_kept. rewrite union_dict_eq in *. pose proof (tidy_keys _ Hv) as Hs.
    pose proof (fun k t' => union_dict_get path prior s Hs d t t' k) as Hd. pose proof (fun k x Hk => union_dict_reports path prior s k x Hk Hs d t) as Hr.
    destruct (union_dict path prior s d t) as [e t1]. cbn [fst snd] in *. cbn zeta. split; apply kept_dict; intros k x Hk.
    + destruct (dget k s) as [w|] eqn:Ew; [|exists x; rewrite (Hd k t), Ew; split; [done|]; apply kept_same; by left].
      pose proof (dget_elem_of _ _ _ Ew) as Hw. destruct (Hr k w Hw) as (t' & Ht'). eexists. rewrite (Hd k t'), Ew. split; [done|].
      rewrite Hk in *. eapply Forall_forall in IH; [|exact Hw]. apply IH; [by eapply tidy_entry|by etrans; [exact Ht'|]].
    + pose proof (dget_elem_of _ _ _ Hk) as Hw. destruct (Hr k x Hw) as (t' & Ht'). eexists. rewrite (Hd k t'), Hk. split; [done|].
      destruct (dget k d) as [o|]; [|apply kept_same; left; by rewrite union_new].
      eapply Forall_forall in IH; [|exact Hw]. apply IH; [by eapply tidy_entry|by etrans; [exact Ht'|]].
Qed.
End Keeps.

(** ** Pages *)

(** A fold in which every element leaves something that later ones keep. *)
Lemma res_fold_each {A B} (R : B -> B -> Prop) (Q : A -> B -> Prop) (f : B -> A -> res B) l :
  PreOrder R -> (forall a b b', Q a b -> R b b' -> Q a b') ->
  (forall b b' a, a ∈ l -> f b a = Ok b' -> R b b' /\ Q a b') ->
  forall b b', res_fold f b l = Ok b' -> R b b' /\ forall a, a ∈ l -> Q a b'.
Proof.
  intros HR HQ. induction l as [|a l IH]; intros Hf b b' E; cbn [res_fold] in E.
  - apply Ok_inj in E as ->. split; [done|]. intros a Ha. by apply elem_of_nil in Ha.
  - inv_bind E. destruct (Hf b v a) as [Hr Hq]; [left|done|]. destruct (IH (fun b b' a Ha => Hf b b' a (list_elem_of_further _ _ _ Ha)) _ _ E) as [Hr' Hq'].
    split; [by etrans|]. intros c [->|Hc]%elem_of_cons; [by eapply HQ|by apply Hq'].
Qed.

Lemma res_fold_app {A B} (f : B -> A -> res B) l k b : res_fold f b (l ++ k) = (b' ← res_fold f b l; res_fold f b' k).
Proof. revert b. induction l as [|a l IH]; intros b; [done|]. cbn [app res_fold]. by destruct (f b a); [apply IH|]. Qed.

Lemma res_fold_rel {A B} (R : B -> B -> Prop) (f : B -> A -> res B) l :
  PreOrder R -> (forall b b' a, f b a = Ok b' -> R b b') -> forall b b', res_fold f b l = Ok b' -> R b b'.
Proof. intros HR Hf b b' E. eapply (res_fold_each R (fun _ _ => True)) in E as [? _]; [done..|]. intros c c' a _ Hc. split; [by eapply Hf|done]. Qed.

Section Pages.
Context `{Unicode} `{Casing} `{Regex} (repr_of : json -> pystr) (sha256_hex : bytes -> pystr).
Notation at_text := (at_text repr_of).

(** The pages of a store by their keys, before and after: none goes or gets
    older, and those that came are [fresh]. *)
Record newer {K} (fresh : K -> jd -> Prop) (v v' : K -> option jd) : Prop := {
  newer_keeps k page : v k = Some page -> exists page', v' k = Some page' /\ str_leb (at_text page) (at_text page') = true;
  newer_from k page : v' k = Some page -> v k = Some page \/ fresh k page }.

#[local] Instance newer_preorder {K} (fresh : K -> jd -> Prop) : PreOrder (newer fresh).
Proof.
  split.
  - intros v. constructor; [|by left]. intros k page Hp. exists page. split; [done|apply str_leb_refl].
  - intros a b c [K1 F1] [K2 F2]. constructor.
    + intros k page Hp. destruct (K1 _ _ Hp) as (p1 & Hb & L1). destruct (K2 _ _ Hb) as (p2 & Hc & L2). exists p2. split; [done|by eapply str_leb_trans].
    + intros k page Hp. destruct (F2 _ _ Hp) as [Hb|]; [by apply F1|by right].
Qed.

(** A page as it is stored, and where it is from: a record of the file in which
    no name of the submitter is found. *)
Definition stamped (sid : pystr) (d : jd) : jd := dset (lit "_source") (JStr (take 12 sid)) d.

Lemma at_stamped sid d : at_text (stamped sid d) = at_text d.
Proof. unfold LuaHarvest.at_text, stamped. by rewrite dget_dset_ne. Qed.

Definition page_path (branch realm npc : pystr) : pystr := cat [branch; lit "."; realm; lit "."; npc].

Definition clean (names : list pystr) (branch realm npc : pystr) (d : jd) : Prop :=
  names = [] \/ leaks names (JDict d) (page_path branch realm npc) = false.

Definition from_realm (branch realm sid : pystr) (names : list pystr) (npcs : lua_hash) (k : pystr) (page : jd) : Prop :=
  exists npc rec d, (npc, rec) ∈ npcs /\ key_str npc = k /\ to_plain rec = Ok (JDict d) /\ page = stamped sid d /\ clean names branch realm k d.

Definition is_held (sid : pystr) (hold : held_record) (held : held_store) : Prop := hold ∈ default [] (dget sid held).

Lemma hold_gossip_held sid digest held :
  is_held sid (HeldRecord (lit "gossips") digest (lit "ambiguous_identity")) (hold_gossip sid digest held)
  /\ forall s h, is_held s h held -> is_held s h (hold_gossip sid digest held).
Proof.
  unfold is_held, hold_gossip. split.
  - rewrite dget_dset_eq. cbn [default]. case_bool_decide; [done|]. apply elem_of_app. right. by left.
  - intros s h Hh. rewrite dget_dset. case_decide; [|done]. subst. cbn [default]. case_bool_decide; [done|]. apply elem_of_app. by left.
Qed.

Lemma store_page_newer sid key d rb rb' (fresh : pystr -> jd -> Prop) : fresh key (stamped sid d) ->
  store_page repr_of sid key (JDict d) rb = Ok rb' ->
  newer fresh (fun k => dget k rb) (fun k => dget k rb') /\ exists page, dget key rb' = Some page /\ str_leb (at_text d) (at_text page) = true.
Proof.
  intros Hf. unfold store_page. fold (stamped sid d). intros E.
  assert (rb' = dset key (stamped sid d) rb /\ (forall prev, dget key rb = Some prev -> str_leb (at_text prev) (at_text d) = true)
    \/ rb' = rb /\ exists prev, dget key rb = Some prev /\ str_leb (at_text d) (at_text prev) = true) as [[-> Hp]|[-> (prev & Hp & Hl)]].
  { destruct (dget key rb) as [prev|] eqn:Ep; apply Ok_inj in E as <-; [|left; by split]. destruct (str_leb (at_text prev) (at_text d)) eqn:El.
    - left. split; [done|]. by intros ? [= <-].
    - right. split; [done|]. exists prev. split; [done|by apply str_leb_total]. }
  - split; [|exists (stamped sid d); by rewrite dget_dset_eq, at_stamped, str_leb_refl]. constructor; intros k page.
    + rewrite dget_dset. case_decide as Ek; [subst k|]; intros Hk; eexists; (split; [done|]); [|apply str_leb_refl]. rewrite at_stamped. by apply Hp.
    + rewrite dget_dset. case_decide as Ek; [subst k|by left]. intros [= <-]. by right.
  - split; [done|]. by exists prev.
Qed.

(** The text of a gossip page is put back as it was. *)
Lemma restored branch names (p : Paging) py py' seen :
  (if bool_decide (branch = lit "gossips") then
     match py with
     | JDict d =>
         match dget (lit "text") d with
         | Some (JStr txt) =>
             let '(txt, k) := restore_tokens txt names in
             Ok (JDict (dset (lit "text") (JStr txt) d), pg_seen p + k)
         | _ => Ok (py, pg_seen p)
         end
     | _ => Err AttributeError
     end
   else Ok (py, pg_seen p)) = Ok (py', seen) -> py' = py /\ seen = pg_seen p.
Proof.
  case_bool_decide; [|by intros [= <- <-]]. destruct py as [| | | | | |d]; try done. destruct (dget _ d) as [[]|] eqn:E; cbn [restore_tokens];
    intros [= <- <-]; try done. rewrite (dset_same _ _ _ E). split; [done|lia].
Qed.

(** What became of a record of the file: it is stored, or one at least as new;
    or it has a name of the submitter and is held. *)
Definition settled_page (branch realm sid : pystr) (names : list pystr) (npc : pystr) (d : jd) (stored : option jd) (held : held_store) : Prop :=
  (exists page, stored = Some page /\ str_leb (at_text d) (at_text page) = true)
  \/ (branch = lit "gossips" /\ leaks names (JDict d) (page_path branch realm npc) = true
      /\ exists text, utf8_encode (json_dumps true false (JDict d)) = Ok text
         /\ is_held sid (HeldRecord (lit "gossips") (sha256_hex text) (lit "ambiguous_identity")) held).

Definition keeps_held (held held' : held_store) : Prop := forall s h, is_held s h held -> is_held s h held'.

#[local] Instance keeps_held_preorder : PreOrder keeps_held.
Proof. split; [by intros ???|]. intros a b c Hab Hbc s h Hh. auto. Qed.

Lemma settled_kept {K} (fresh : K -> jd -> Prop) (v v' : K -> option jd) branch realm sid names npc d k held held' :
  settled_page branch realm sid names npc d (v k) held -> newer fresh v v' -> keeps_held held held' ->
  settled_page branch realm sid names npc d (v' k) held'.
Proof.
  intros [(page & Hp & Hl)|(Hb & Hn & text & Ht & Hh)] [Hk _] Hheld.
  - destruct (Hk _ _ Hp) as (page' & Hp' & Hl'). left. exists page'. split; [done|by eapply str_leb_trans].
  - right. eauto 10.
Qed.

Definition paged (branch realm sid : pystr) (names : list pystr) (npcs : lua_hash) (p p' : Paging) : Prop :=
  newer (from_realm branch realm sid names npcs) (fun k => dget k (pg_realm p)) (fun k => dget k (pg_realm p')) /\ keeps_held (pg_held p) (pg_held p').

#[local] Instance paged_preorder branch realm sid names npcs : PreOrder (paged branch realm sid names npcs).
Proof. split; [by split|]. intros a b c [] []. split; by etrans. Qed.

Lemma merge_page_spec branch realm sid names npcs p kv p' : kv ∈ npcs ->
  merge_page repr_of sha256_hex branch realm sid names p kv = Ok p' ->
  paged branch realm sid names npcs p p'
  /\ forall d, is_table (snd kv) = true -> to_plain (snd kv) = Ok (JDict d) ->
     settled_page branch realm sid names (key_str (fst kv)) d (dget (key_str (fst kv)) (pg_realm p')) (pg_held p').
Proof.
  destruct kv as [npc rec]. intros Hin. cbn [merge_page fst snd]. destruct (is_table rec) eqn:Et; cbn [negb]; [|intros [= <-]; by split].
  intros E. inv_bind E. rename v into py, E0 into Ep. inv_bind E. destruct v as [py' seen]. apply restored in E0 as [-> ->].
  unfold assert_clean in E. fold (page_path branch realm (key_str npc)) in E.
  destruct (negb (bool_decide (names = [])) && leaks names py (page_path branch realm (key_str npc))) eqn:El.
  - apply andb_true_iff in El as [_ El]. case_bool_decide as Hb; [|done]. inv_bind E. apply Ok_inj in E as <-. unfold paged. cbn [pg_realm pg_held].
    destruct (hold_gossip_held sid (sha256_hex v) (pg_held p)) as [Hh Hk]. split; [by split|]. intros d _ [= ->]. right. eauto 10.
  - inv_bind E. apply Ok_inj in E as <-. cbn [pg_realm pg_held]. assert (exists d, py = JDict d) as [d ->].
    { unfold store_page in E0. destruct (dget _ (pg_realm p)), py; try done; eauto. }
    edestruct (store_page_newer sid (key_str npc) d) as [Hn Hs]; [|exact E0|].
    2:{ split; [split; [exact Hn|done]|]. intros d' _ [= ->]. by left. }
    exists npc, rec, d. split_and!; try done. unfold clean. apply andb_false_iff in El as [El|El]; [|by right].
    left. apply negb_false_iff in El. by apply bool_decide_eq_true in El.
Qed.

(** The pages of a store. *)
Definition page_at (h : Harvest) (i : pystr * pystr * pystr) : option jd :=
  let '(branch, realm, npc) := i in dget npc (default [] (dget realm (default [] (dget branch (ha_pages h))))).

(** A page of the file [db]. *)
Definition from_file (db : lua) (sid : pystr) (names : list pystr) (i : pystr * pystr * pystr) (page : jd) : Prop :=
  let '(branch, realm, npc) := i in
  exists s a realms rk b npcs, s ∈ SNAPSHOT /\ branch = lit s /\ lua_get db s = VTable a realms /\ (rk, VTable b npcs) ∈ realms
    /\ realm = key_str rk /\ from_realm branch realm sid names npcs npc page.

Definition harvested (db : lua) (sid : pystr) (names : list pystr) (st st' : HarvestState) : Prop :=
  newer (from_file db sid names) (page_at (hs_store st)) (page_at (hs_store st')) /\ keeps_held (hs_held st) (hs_held st').

#[local] Instance harvested_preorder db sid names : PreOrder (harvested db sid names).
Proof. split; [by split|]. intros a b c [] []. split; by etrans. Qed.

Definition settled_in (branch realm sid : pystr) (names : list pystr) (st : HarvestState) (kv : lua * lua) : Prop :=
  forall d, is_table (snd kv) = true -> to_plain (snd kv) = Ok (JDict d) ->
    settled_page branch realm sid names (key_str (fst kv)) d (page_at (hs_store st) (branch, realm, key_str (fst kv))) (hs_held st).

Lemma settled_in_kept db branch realm sid names st st' kv :
  settled_in branch realm sid names st kv -> harvested db sid names st st' -> settled_in branch realm sid names st' kv.
Proof. intros Hs [Hn Hh] d Ht Hd. exact (settled_kept _ _ _ _ _ _ _ _ _ (branch, realm, key_str (fst kv)) _ _ (Hs d Ht Hd) Hn Hh). Qed.

Definition settled_realm (branch sid : pystr) (names : list pystr) (rk : lua * lua) (st : HarvestState) : Prop :=
  is_table (snd rk) = true -> forall kv, kv ∈ lua_hash_of (snd rk) -> settled_in branch (key_str (fst rk)) sid names st kv.

Lemma set_paging_at branch realm p st b r k :
  page_at (hs_store (set_paging branch realm p st)) (b, r, k)
  = if decide (b = branch /\ r = realm) then dget k (pg_realm p) else page_at (hs_store st) (b, r, k).
Proof.
  unfold page_at, set_paging. cbn [hs_store ha_pages]. rewrite dget_dset. destruct (decide (b = branch)) as [->|Hb]; cbn [default from_option id].
  - rewrite dget_dset. destruct (decide (r = realm)) as [->|Hr]; cbn [default from_option id].
    + by rewrite decide_True.
    + by rewrite decide_False by tauto.
  - by rewrite decide_False by tauto.
Qed.

Lemma merge_realm_pages_spec db s a realms sid names st rk st' : s ∈ SNAPSHOT -> lua_get db s = VTable a realms -> rk ∈ realms ->
  merge_realm_pages repr_of sha256_hex (lit s) sid names st rk = Ok st' ->
  harvested db sid names st st' /\ settled_realm (lit s) sid names rk st'.
Proof.
  intros Hs Hdb Hin. destruct rk as [realm npcs]. cbn [merge_realm_pages]. destruct npcs as [| | | | | |b npcs]; cbn [is_table negb].
  1-6: by intros [= <-].
  cbn [lua_hash_of]. intros E. inv_bind E. apply Ok_inj in E as <-. rename v into p'.
  edestruct (res_fold_each (paged (lit s) (key_str realm) sid names npcs)
    (fun kv p' => forall d, is_table (snd kv) = true -> to_plain (snd kv) = Ok (JDict d) ->
       settled_page (lit s) (key_str realm) sid names (key_str (fst kv)) d (dget (key_str (fst kv)) (pg_realm p')) (pg_held p')))
    as [[Hn Hh] Hq]; [|  | |exact E0|].
  { apply _. }
  { intros kv q q' Hq Hr d Ht Hd. exact (settled_kept _ _ _ _ _ _ _ _ _ (key_str (fst kv)) _ _ (Hq d Ht Hd) (proj1 Hr) (proj2 Hr)). }
  { intros q q' kv Hkv. by apply merge_page_spec. }
  assert (harvested db sid names st (set_paging (lit s) (key_str realm) p' st)) as Hst.
  { split; [|done]. constructor; intros [[c r] k] page; rewrite set_paging_at; case_decide as Hcr; try (intros ?; eauto using str_leb_refl; fail).
    - destruct Hcr as [-> ->]. intros Hp. by apply Hn.
    - destruct Hcr as [-> ->]. intros Hp. destruct (newer_from _ _ _ Hn _ _ Hp) as [?|Hf']; [by left|]. right.
      exists s, a, realms, realm, b, npcs. split_and!; try done.  }
  split; [done|]. intros _ kv Hkv d Ht Hd. rewrite set_paging_at, decide_True by done. by apply Hq.
Qed.

Lemma set_pages_at branch st i : page_at (hs_store (set_pages branch (default [] (dget branch (ha_pages (hs_store st)))) st)) i = page_at (hs_store st) i.
Proof.
  destruct i as [[b r] k]. unfold page_at, set_pages. cbn [hs_store ha_pages]. rewrite dget_dset. by case_decide; subst.
Qed.

Definition settled_branch (db : lua) (sid : pystr) (names : list pystr) (s : string) (st : HarvestState) : Prop :=
  forall a realms rk, lua_get db s = VTable a realms -> rk ∈ realms -> settled_realm (lit s) sid names rk st.

Lemma settled_branch_kept db sid names s st st' :
  settled_branch db sid names s st -> harvested db sid names st st' -> settled_branch db sid names s st'.
Proof. intros Hs Hr a realms rk Hg Hrk Ht kv Hkv. eapply settled_in_kept; [by eapply Hs|done]. Qed.

Lemma merge_snapshot_spec db sid names st s st' : s ∈ SNAPSHOT -> merge_snapshot repr_of sha256_hex db sid names st s = Ok st' ->
  harvested db sid names st st' /\ settled_branch db sid names s st'.
Proof.
  intros Hs. unfold merge_snapshot, settled_branch. destruct (lua_get db s) as [| | | | | |a realms] eqn:Eg.
  1-6: by intros [= <-].
  intros E. edestruct (res_fold_each (harvested db sid names) (settled_realm (lit s) sid names)) as [Hr Hq]; [| | |exact E|].
  { apply _. }
  { intros rk b b' Hb Hr Ht kv Hkv. eapply settled_in_kept; [by apply Hb|done]. }
  { intros b b' rk Hrk. by eapply merge_realm_pages_spec. }
  split; [|by intros a' realms' rk [= <- <-] Hrk; apply Hq]. etrans; [|exact Hr]. split; [|done].
  constructor; intros i page Hp; rewrite set_pages_at in *; [|by left]. exists page. split; [done|apply str_leb_refl].
Qed.

(** The rest of a merge leaves the pages and the held records. *)
Definition same_pages (st st' : HarvestState) : Prop := ha_pages (hs_store st') = ha_pages (hs_store st) /\ hs_held st' = hs_held st.

#[local] Instance same_pages_preorder : PreOrder same_pages.
Proof. split; [by split|]. intros a b c [] []. split; congruence. Qed.

Lemma same_pages_harvested db sid names st st' : same_pages st st' -> harvested db sid names st st'.
Proof. intros [Hp Hh]. unfold harvested, page_at. rewrite Hp, Hh. split; [|done]. by constructor; eauto using str_leb_refl. Qed.

(** A step that ends in one of the setters, in every branch of its matches. *)
Ltac by_setters := intros E; repeat (first [case_match | inv_bind E]); try discriminate; apply Ok_inj in E; subst; try reflexivity.

Lemma merge_by_realm_pages db names preferred st kv st' : merge_by_realm repr_of db names preferred st kv = Ok st' -> same_pages st st'.
Proof. unfold merge_by_realm. by_setters. by split. Qed.

Lemma merge_branch_pages db names preferred realm makes st branch st' :
  merge_branch repr_of db names preferred realm makes st branch = Ok st' -> same_pages st st'.
Proof. unfold merge_branch. by_setters; by split. Qed.

Lemma merge_reference_pages db names preferred st branch st' : merge_table repr_of db names preferred st branch = Ok st' -> same_pages st st'.
Proof. unfold merge_table. by_setters; by split. Qed.

Lemma merge_spell_pages names preferred st kv st' : merge_spell names preferred st kv = Ok st' -> same_pages st st'.
Proof. unfold merge_spell. by_setters; by split. Qed.

Lemma merge_realms_pages db names preferred st st' : merge_realms repr_of db names preferred st = Ok st' -> same_pages st st'.
Proof.
  assert (forall makes realm st st', res_fold (merge_branch repr_of db names preferred realm makes) st REALM_SCOPED = Ok st' -> same_pages st st') as Hb.
  { intros makes realm s s'. apply res_fold_rel; [apply _|]. intros b b' a. apply merge_branch_pages. }
  unfold merge_realms. destruct (lua_get db "byRealm") as [| | | | | |a [|[k v] hash]]; try apply Hb. intros E. inv_bind E. etrans.
  - eapply (res_fold_rel same_pages); [apply _| |exact E0]. intros b b' kv. apply merge_by_realm_pages.
  - destruct hash; [by apply Hb in E|]. by apply Ok_inj in E as ->.
Qed.

Lemma merge_spells_pages names preferred st kv st' : merge_spells_of names preferred st kv = Ok st' -> same_pages st st'.
Proof.
  unfold merge_spells_of. destruct (is_table _); [|by intros [= <-]]. apply res_fold_rel; [apply _|]. intros b b' a. apply merge_spell_pages.
Qed.

(** C28: One file of the harvester against the store of pages: no page of the store
    goes or gets older; a page that came in is a record of the file with the
    number of its source, and no name the submitter played under is found in
    it; and every record of the file is in the store or gave way to one at least
    as new, unless it is a gossip page with such a name, which is held under the
    digest of its JSON.  What was held before is still held. *)
Theorem pages_newest store held g sid preferred a hash h' held' cs n :
  dget GLOBAL g = Some (VTable a hash) ->
  merge_wildcardharvest repr_of sha256_hex store held g sid preferred = Ok (Some h', held', cs, n) ->
  let db := VTable a hash in let names := own_names db in
  newer (from_file db sid names) (page_at (default no_harvest store)) (page_at h') /\ keeps_held held held'
  /\ forall s ra realms rk b npcs npc rec d, s ∈ SNAPSHOT -> lua_get db s = VTable ra realms -> (rk, VTable b npcs) ∈ realms ->
     (npc, rec) ∈ npcs -> is_table rec = true -> to_plain rec = Ok (JDict d) ->
     settled_page (lit s) (key_str rk) sid names (key_str npc) d (page_at h' (lit s, key_str rk, key_str npc)) held'.
Proof.
  intros Hg E. cbn zeta. unfold merge_wildcardharvest in E. rewrite Hg in E. cbv zeta in E. set (db := VTable a hash) in *. set (names := own_names db) in *.
  inv_bind E. rename v into st1. inv_bind E. rename v into st2. inv_bind E. rename v into st3. inv_bind E. rename v into st4.
  edestruct (res_fold_each (harvested db sid names) (settled_branch db sid names)) as [Hr Hq]; [| | |exact E0|].
  { apply _. }
  { intros s b b'. apply settled_branch_kept. }
  { intros b b' s Hs. by eapply merge_snapshot_spec. }
  assert (same_pages st1 st4) as Hs.
  { etrans; [by eapply merge_realms_pages|]. etrans.
    - eapply (res_fold_rel same_pages); [apply _| |exact E2]. intros b b' s. apply merge_reference_pages.
    - destruct (lua_get db "spellsByChar"); try (by apply Ok_inj in E3 as ->). eapply (res_fold_rel same_pages); [apply _| |exact E3].
      intros b b' s. apply merge_spells_pages. }
  assert (ha_pages h' = ha_pages (hs_store st4) /\ held' = hs_held st4) as [Hp ->].
  { destruct (lua_get db "version"); injection E as <- <- _ _; by split. }
  apply (same_pages_harvested db sid names) in Hs. pose proof (transitivity Hr Hs) as Ha.
  assert (forall i, page_at h' i = page_at (hs_store st4) i) as Hat by (intros [[? ?] ?]; unfold page_at; by rewrite Hp).
  destruct Ha as [[Hn Hf] Hh]. split_and!.
  - constructor; intros i page Hi; rewrite ?Hat in *; [by apply Hn|by apply Hf].
  - exact Hh.
  - intros s ra realms rk b npcs npc rec d Hin Hd Hrk Hnpc Ht Hto. rewrite Hat.
    exact (settled_branch_kept _ _ _ _ _ _ (Hq s Hin) Hs ra realms (rk, VTable b npcs) Hd Hrk eq_refl (npc, rec) Hnpc d Ht Hto).
Qed.
End Pages.

(** ** Reference tables *)

Section Tables.
Context `{Unicode} `{Casing} `{Regex} (repr_of : json -> pystr) (sha256_hex : bytes -> pystr).

Lemma deep_union_grows dst src path prior t y t' : _deep_union repr_of dst src path prior t = Ok (y, t') -> grows t t'.
Proof.
  unfold _deep_union. destruct src as [| | | | | |s]; try done. destruct dst as [| | | | | |d]; try (by destruct s; try done; intros [= <- <-]).
  intros E. apply Ok_inj in E. pose proof (union_grows repr_of (JDict s) path [] prior (Some (JDict d)) t) as Hg. by rewrite E in Hg.
Qed.

(** A step that leaves a table, and adds to the report. *)
Definition table_kept (branch : pystr) (st st' : HarvestState) : Prop :=
  dget branch (ha_tables (hs_store st')) = dget branch (ha_tables (hs_store st)) /\ grows (ha_tally (hs_store st)) (ha_tally (hs_store st')).

#[local] Instance table_kept_preorder branch : PreOrder (table_kept branch).
Proof. split; [by split|]. intros a b c [] []. split; [congruence|by etrans]. Qed.

Ltac by_steps := intros E; repeat (first [case_match | inv_bind E]); try discriminate; apply Ok_inj in E; subst; try reflexivity;
  try (split; [done|]; cbn [set_realm set_table hs_store ha_tally]; by eapply deep_union_grows).

Lemma snapshot_table branch db sid names st s st' : merge_snapshot repr_of sha256_hex db sid names st s = Ok st' -> table_kept branch st st'.
Proof.
  unfold merge_snapshot. destruct (lua_get db s); try (by intros [= <-]). intros E. etrans; [|eapply (res_fold_rel (table_kept branch)); [apply _| |exact E]].
  - by split.
  - intros b b' [realm npcs]. unfold merge_realm_pages. destruct (negb _); [by intros [= <-]|]. intros E'. inv_bind E'. apply Ok_inj in E' as <-. by split.
Qed.

Lemma by_realm_table branch db names preferred st kv st' : merge_by_realm repr_of db names preferred st kv = Ok st' -> table_kept branch st st'.
Proof. unfold merge_by_realm. by_steps. Qed.

Lemma branch_table branch db names preferred realm makes st s st' :
  merge_branch repr_of db names preferred realm makes st s = Ok st' -> table_kept branch st st'.
Proof. unfold merge_branch. by_steps. Qed.

Lemma realms_table branch db names preferred st st' : merge_realms repr_of db names preferred st = Ok st' -> table_kept branch st st'.
Proof.
  assert (forall makes realm st st', res_fold (merge_branch repr_of db names preferred realm makes) st REALM_SCOPED = Ok st' -> table_kept branch st st') as Hb.
  { intros makes realm s s'. apply res_fold_rel; [apply _|]. intros b b' a. apply branch_table. }
  unfold merge_realms. destruct (lua_get db "byRealm") as [| | | | | |a [|[k v] hash]]; try apply Hb. intros E. inv_bind E. etrans.
  - eapply (res_fold_rel (table_kept branch)); [apply _| |exact E0]. intros b b' kv. apply by_realm_table.
  - destruct hash; [by apply Hb in E|]. by apply Ok_inj in E as ->.
Qed.

Lemma spells_table branch names preferred st kv st' : merge_spells_of names preferred st kv = Ok st' -> table_kept branch st st'.
Proof.
  unfold merge_spells_of. destruct (is_table _); [|by intros [= <-]]. apply res_fold_rel; [apply _|]. intros b b' a. unfold merge_spell. by_steps; by split.
Qed.

Lemma reference_other branch db names preferred st s st' : lit s <> branch ->
  merge_table repr_of db names preferred st s = Ok st' -> table_kept branch st st'.
Proof.
  intros Hs. unfold merge_table. by_steps; (split; [cbn [set_table hs_store ha_tables]; by rewrite dget_dset_ne by done|]);
    cbn [set_table hs_store ha_tally]; first [done|by eapply deep_union_grows].
Qed.

(** What one reference branch of a file leaves. *)
Definition joined_table (s : string) (old : json) (src : json) (st : HarvestState) : Prop :=
  exists y, dget (lit s) (ha_tables (hs_store st)) = Some y
  /\ forall T, grows (ha_tally (hs_store st)) T -> reading_kept repr_of T [lit s] [] old y /\ reading_kept repr_of T [lit s] [] src y.

Lemma reference_joined db names preferred st s a kv hash st' : lua_get db s = VTable a (kv :: hash) -> nan_free (lua_get db s) = true ->
  merge_table repr_of db names preferred st s = Ok st' ->
  exists src, to_plain (lua_get db s) = Ok src
  /\ joined_table s (default (JDict []) (dget (lit s) (ha_tables (hs_store st)))) src st'
  /\ grows (ha_tally (hs_store st)) (ha_tally (hs_store st')).
Proof.
  intros Hg Hn. unfold merge_table. rewrite Hg. intros E. inv_bind E. rename v into src. pose proof (to_plain_tidy _ Hn) as Ht. rewrite Hg in Ht.
  specialize (Ht _ E0). exists src. split; [done|]. inv_bind E. destruct (to_plain_dict _ _ _ _ E0) as (d & -> & Hd).
  inv_bind E. inv_bind E. destruct v1 as [y t']. apply Ok_inj in E as <-. split; [|by eapply deep_union_grows].
  exists y. cbn [set_table hs_store ha_tables ha_tally]. split; [by rewrite dget_dset_eq|]. intros T HT. unfold _deep_union in E3.
  destruct (default _ _) as [| | | | | |old]; try (by destruct d).
  apply Ok_inj in E3. pose proof (union_kept repr_of (JDict d) Ht [lit s] [] (Some v0) (JDict old) (ha_tally (hs_store st)) T) as Hk.
  rewrite E3 in Hk. by apply Hk.
Qed.

Lemma references_table branch db names preferred l st st' : branch ∉ map lit l ->
  res_fold (merge_table repr_of db names preferred) st l = Ok st' -> table_kept branch st st'.
Proof.
  intros Hb E. eapply (res_fold_each (table_kept branch) (fun _ _ => True)) in E as [? _]; [done|apply _|done|].
  intros b b' s Hs Hm. split; [|done]. eapply reference_other; [|exact Hm]. intros <-. by apply Hb, list_elem_of_In, in_map, list_elem_of_In.
Qed.

Lemma reference_names : NoDup (map lit REFERENCE).
Proof. apply (bool_decide_eq_true_1 _). vm_compute. reflexivity. Qed.

End Tables.

(** ** Trees *)

(** A second union with the same tree changes nothing. *)
Lemma replayed_tree_idle (repr_of : json -> pystr) dst src path prior t y t1 : tidy src ->
  _deep_union repr_of dst src path prior t = Ok (y, t1) -> forall t2, exists t3, _deep_union repr_of y src path prior t2 = Ok (y, t3).
Proof.
  intros Hs. unfold _deep_union. destruct src as [| | | | | |s]; try done. intros E t2.
  destruct dst as [| | | | | |d]; [by (destruct s; [injection E as <- <-; eauto|discriminate])..|].
  apply Ok_inj in E. pose proof (union_again repr_of _ Hs path [] prior (Some (JDict d)) t t2) as Hu. rewrite E in Hu. cbn [fst] in Hu.
  rewrite union_dict_eq in E. destruct (union_dict repr_of path prior s d t) as [e t']. injection E as <- <-.
  exists (snd (union_value repr_of path [] (JDict s) prior (Some (JDict e)) t2)). f_equal. rewrite <- Hu at 2. apply surjective_pairing.
Qed.

(** ** A file *)

Definition ltab (h : list (string * lua)) : lua := VTable [] (map (fun kv => (VStr (lit (fst kv)), snd kv)) h).

(** A vendor page, a gossip page with the name of the character who captured
    it and one without, and an enum table. *)
Definition sample_hash : list (lua * lua) := map (fun kv => (VStr (lit (fst kv)), snd kv))
  [("identity", ltab [("Zed@36", ltab [])]);
   ("vendors", ltab [("Area 52", ltab [("12:1", ltab [("at", VStr (lit "2026-01-02")); ("npcName", VStr (lit "Smith"))])])]);
   ("gossips", ltab [("Area 52", ltab [("7", ltab [("text", VStr (lit "Hello, Zed!"))]); ("8", ltab [("text", VStr (lit "Welcome"))])])]);
   ("enums", ltab [("Power", ltab [("Mana", VInt 0); ("Rage", VInt 1); ("Focus", VInt 3)])])]%string.
Definition sample_harvest : list (pystr * lua) := [(GLOBAL, VTable [] sample_hash)].

(** What was there: an older vendor page, and two readings of the enum table. *)
Definition sample_store : Harvest :=
  MkHarvest 0 [(lit "vendors", [(lit "Area 52", [(lit "12:1", [(lit "at", JStr (lit "2025-12-31"))])])])] []
    [(lit "enums", JDict [(lit "Power", JDict [(lit "Mana", JInt 5); (lit "Rage", JInt 2)])])] [] None no_tally.

Definition no_repr (v : json) : pystr := [].
Definition sample_merge := @merge_wildcardharvest latin_unicode ascii_casing ascii_regex no_repr (fun _ => lit "d1") (Some sample_store) []
  sample_harvest (lit "0123456789abcdef") (JDict []).
Definition sample_after : Harvest := match sample_merge with Ok (Some h, _, _, _) => h | _ => no_harvest end.
Definition sample_held : held_store := match sample_merge with Ok (_, held, _, _) => held | _ => [] end.
Definition sample_conflicts : list (list pystr * json * json) := match sample_merge with Ok (_, _, cs, _) => cs | _ => [] end.

Example sample_merge_ex :
  map fst (default [] (dget (lit "Area 52") (default [] (dget (lit "gossips") (ha_pages sample_after))))) = [lit "8"]
  /\ option_map (at_text no_repr) (page_at sample_after (lit "vendors", lit "Area 52", lit "12:1")) = Some (lit "2026-01-02")
  /\ dget (lit "enums") (ha_tables sample_after)
     = Some (JDict [(lit "Power", JDict [(lit "Mana", JInt 5); (lit "Rage", JInt 1); (lit "Focus", JInt 3)])])
  /\ sample_conflicts = [([lit "enums"; lit "Power"; lit "Rage"], JInt 2, JInt 1)]
  /\ sample_held = [(lit "0123456789abcdef", [HeldRecord (lit "gossips") (lit "d1") (lit "ambiguous_identity")])].
Proof. vm_compute. repeat split; reflexivity. Qed.

Lemma sample_global : dget GLOBAL sample_harvest = Some (VTable [] sample_hash).
Proof. vm_compute. reflexivity. Qed.

Lemma sample_enums : lua_get (VTable [] sample_hash) "enums"
  = VTable [] [(VStr (lit "Power"), ltab [("Mana", VInt 0); ("Rage", VInt 1); ("Focus", VInt 3)]%string)].
Proof. vm_compute. reflexivity. Qed.

Lemma sample_page :
  page_at (default no_harvest (Some sample_store)) (lit "vendors", lit "Area 52", lit "12:1") = Some [(lit "at", JStr (lit "2025-12-31"))].
Proof. vm_compute. reflexivity. Qed.

Lemma sample_merge_ok : exists n,
  @merge_wildcardharvest latin_unicode ascii_casing ascii_regex no_repr (fun _ => lit "d1") (Some sample_store) []
    sample_harvest (lit "0123456789abcdef") (JDict []) = Ok (Some sample_after, sample_held, sample_conflicts, n).
Proof. eexists. vm_compute. reflexivity. Qed.

Lemma replayed_tree_idle_witness : exists t3,
  _deep_union no_repr (JDict [(lit "a", JInt 2)]) (JDict [(lit "a", JInt 2)]) [] None no_tally = Ok (JDict [(lit "a", JInt 2)], t3).
Proof.
  apply (replayed_tree_idle no_repr (JDict [(lit "a", JInt 1)]) (JDict [(lit "a", JInt 2)]) [] None no_tally (JDict [(lit "a", JInt 2)])
           (MkTally [([lit "a"], JInt 1, JInt 2)] [] 0 0)); [|vm_compute; reflexivity].
  constructor; [apply NoDup_singleton|]. repeat constructor.
Defined.

Lemma pages_newest_witness : exists page, page_at sample_after (lit "vendors", lit "Area 52", lit "12:1") = Some page
  /\ str_leb (at_text no_repr [(lit "at", JStr (lit "2025-12-31"))]) (at_text no_repr page) = true.
Proof.
  destruct sample_merge_ok as [n E].
  destruct (@pages_newest latin_unicode ascii_casing ascii_regex no_repr (fun _ => lit "d1") (Some sample_store) [] sample_harvest (lit "0123456789abcdef")
              (JDict []) [] sample_hash sample_after sample_held sample_conflicts n sample_global E) as (Hn & _).
  destruct (newer_keeps _ _ _ _ Hn _ _ sample_page) as (page & Hp & Hl). exists page. split; [exact Hp|exact Hl].
Defined.


(** ** What the code does not say *)

Definition of_branches (h : list (string * lua)) : list (pystr * lua) := [(GLOBAL, ltab h)].
Definition merged_into (store : Harvest) (h : list (string * lua)) :=
  @merge_wildcardharvest latin_unicode ascii_casing ascii_regex no_repr (fun _ => lit "d1") (Some store) [] (of_branches h) (lit "0123456789abcdef") (JDict []).

(** An empty table of a branch, or of a part of it, is a list, and takes the
    place of what was merged: of the branch without a word, of the part with a
    conflict that tells how many keys went. *)
Lemma empty_table_replaces :
  (exists h, merged_into sample_store [("enums", ltab [])]%string = Ok (Some h, [], [], 1) /\ dget (lit "enums") (ha_tables h) = Some (JList []))
  /\ exists h, merged_into sample_store [("enums", ltab [("Power", ltab [])])]%string
       = Ok (Some h, [], [([lit "enums"; lit "Power"], JStr (lit "<2 keys>"), JStr (lit "<0 items>"))], 1)
     /\ dget (lit "enums") (ha_tables h) = Some (JDict [(lit "Power", JList [])]).
Proof. split; eexists; vm_compute; split; reflexivity. Qed.

(** A realm with an empty table, an empty advancement table, a gossip page that is empty: an
    exception that [run_merge] does not catch.  So is a realm that is no table
    next to a table of the realm's. *)
Lemma empty_realm_raises :
  merged_into sample_store [("byRealm", ltab [("Area 52", ltab [])])]%string = Err AttributeError
  /\ merged_into sample_store [("advancement", ltab [])]%string = Err AttributeError
  /\ merged_into sample_store [("gossips", ltab [("Area 52", ltab [("7", ltab [])])])]%string = Err AttributeError
  /\ merged_into sample_store [("byRealm", ltab [("Area 52", VInt 1)]); ("wildcard", ltab [("a", VInt 1)])]%string = Err KeyError.
Proof. vm_compute. repeat split; reflexivity. Qed.

(** A version that is a table is stored as it was parsed. *)
Lemma version_table_stored : exists h, merged_into sample_store [("version", ltab [("major", VInt 1)])]%string = Ok (Some h, [], [], 0)
  /\ ha_version h = Some (ltab [("major", VInt 1)])%string.
Proof. eexists. vm_compute. split; reflexivity. Qed.
