(* ===== verification/BmsEquip.v ===== *)
(** * Whether the server lets a character wear an item (character-importer/bms_equip.py)

    [equip_refusal] restates AzerothCore's checks over the rows an import is
    about to write: the reason of a refusal, by the data its text is made of, or
    none.  A row of item_template is a dict from column to value. *)
From S2P Require Import Prelude Wire PyFloat Text Json BmsMap.

Definition ITEM_CLASS_WEAPON : Z := 2.
Definition ITEM_CLASS_ARMOR : Z := 4.
Definition ITEM_QUALITY_HEIRLOOM : Z := 7.
Definition ITEM_FLAG2_FACTION_HORDE : Z := 1.
Definition ITEM_FLAG2_FACTION_ALLIANCE : Z := 2.

Definition CLASS_WARRIOR : Z := 1.
Definition CLASS_PALADIN : Z := 2.
Definition CLASS_HUNTER : Z := 3.
Definition CLASS_ROGUE : Z := 4.
Definition CLASS_PRIEST : Z := 5.
Definition CLASS_SHAMAN : Z := 7.
Definition CLASS_MAGE : Z := 8.
Definition CLASS_WARLOCK : Z := 9.
Definition CLASS_DRUID : Z := 11.
Definition FIRST_CUSTOM_CLASS : Z := 12.
Definition LAST_CUSTOM_CLASS : Z := 32.

(** The stock class a custom one falls back to. *)
Definition LEGACY_CLASS : list (Z * Z) :=
  [(12, CLASS_ROGUE); (13, CLASS_SHAMAN); (14, CLASS_ROGUE); (15, CLASS_HUNTER); (16, CLASS_SHAMAN); (17, CLASS_WARRIOR);
   (18, CLASS_WARRIOR); (19, CLASS_ROGUE); (20, CLASS_DRUID); (21, CLASS_HUNTER); (22, CLASS_PRIEST); (23, CLASS_WARLOCK);
   (24, CLASS_MAGE); (25, CLASS_PALADIN); (26, CLASS_DRUID); (27, CLASS_PRIEST); (28, CLASS_HUNTER); (29, CLASS_SHAMAN);
   (30, CLASS_ROGUE); (31, CLASS_DRUID); (32, CLASS_SHAMAN)].

Definition CUSTOM_CLASS_BITS : Z := 0xFFFFF800.
Definition CLASSLESS_CLASS_MASK : Z := 0x200.

Definition TEAM_BY_RACE : list (Z * pystr) :=
  map (fun r => (r, lit "Alliance")) [1; 3; 4; 7; 11] ++ map (fun r => (r, lit "Horde")) [2; 5; 6; 8; 10].

Definition SLOT_NAMES : list pystr :=
  map lit ["head"; "neck"; "shoulders"; "shirt"; "chest"; "waist"; "legs"; "feet"; "wrists"; "hands"; "finger 1"; "finger 2";
           "trinket 1"; "trinket 2"; "back"; "main hand"; "off hand"; "ranged"; "tabard"]%string.

(** InventoryType -> the slots of the character it goes in. *)
Definition SLOTS_BY_INVENTORY_TYPE : list (Z * list Z) :=
  [(1, [0]); (2, [1]); (3, [2]); (4, [3]); (5, [4]); (20, [4]); (6, [5]); (7, [6]); (8, [7]); (9, [8]); (10, [9]);
   (11, [10; 11]); (12, [12; 13]); (16, [14]); (13, [15; 16]); (17, [15; 16]); (21, [15]); (14, [16]); (22, [16]); (23, [16]);
   (15, [17]); (25, [17]); (26, [17]); (28, [17]); (19, [18])].

Definition WEAPON_SKILLS : list Z := [44; 172; 45; 46; 54; 160; 229; 43; 55; 0; 136; 0; 0; 473; 0; 173; 176; 253; 226; 228; 356].
Definition ARMOR_SKILLS : list Z := [0; 415; 414; 413; 293; 0; 433; 0; 0; 0; 0].
Definition SKILL_PLATE_MAIL : Z := 293.
Definition SKILL_MAIL : Z := 413.

(** Subclass -> the spell that teaches it. *)
Definition WEAPON_SPELLS : list (Z * Z) :=
  [(0, 196); (1, 197); (2, 264); (3, 266); (4, 198); (5, 199); (6, 200); (7, 201); (8, 202); (10, 227); (15, 1180); (16, 2567);
   (17, 3386); (18, 5011); (19, 5009)].
Definition ARMOR_SPELLS : list (Z * Z) := [(1, 9078); (2, 9077); (3, 8737); (4, 750); (6, 9116)].

Definition REPUTATION_RANK_FLOORS : list Z := [-42000; -6000; -3000; 0; 3000; 9000; 21000; 42000].

Definition legacy_class (class_id : Z) : Z := default class_id (dget class_id LEGACY_CLASS).

(** [1 << n]. *)
Definition shift1 (n : Z) : res Z := if n <? 0 then Err ValueError else Ok (Z.shiftl 1 n).

(** The custom classes, in order. *)
Definition CUSTOM_CLASSES : list Z :=
  map (fun k => FIRST_CUSTOM_CLASS + Z.of_nat k) (seq 0 (Z.to_nat (LAST_CUSTOM_CLASS + 1 - FIRST_CUSTOM_CLASS))).

Definition expand_legacy_class_mask (mask : Z) : Z :=
  let mask := Z.land mask 0xFFFFFFFF in
  if negb (Z.land mask CUSTOM_CLASS_BITS =? 0) then mask
  else
    foldl (fun result class_id =>
      if negb (Z.land mask (Z.shiftl 1 (legacy_class class_id - 1)) =? 0) then Z.lor result (Z.shiftl 1 (class_id - 1))
      else result) mask CUSTOM_CLASSES.

Definition item_allowable_class_mask (allowable_class : Z) : Z :=
  let mask := Z.land allowable_class 0xFFFFFFFF in
  if mask =? CLASSLESS_CLASS_MASK then Z.lor mask CUSTOM_CLASS_BITS else expand_legacy_class_mask mask.

(** [l[i] if 0 <= i < len(l)]. *)
Definition skill_at (l : list Z) (i : Z) : option Z := if 0 <=? i then l !! Z.to_nat i else None.

Definition proficiency_skill (item_class subclass : Z) : Z :=
  match (if item_class =? ITEM_CLASS_WEAPON then skill_at WEAPON_SKILLS subclass else None) with
  | Some s => s
  | None => match (if item_class =? ITEM_CLASS_ARMOR then skill_at ARMOR_SKILLS subclass else None) with
            | Some s => s
            | None => 0
            end
  end.

(** Spell -> skill; the armor table updates the weapon table. *)
Definition PROFICIENCY_BY_SPELL : list (Z * Z) :=
  let add skills d ss := dset (snd ss) (nth (Z.to_nat (fst ss)) skills 0) d in
  foldl (add ARMOR_SKILLS) (foldl (add WEAPON_SKILLS) [] WEAPON_SPELLS) ARMOR_SPELLS.

(** The highest rank whose floor is reached. *)
Fixpoint rank_from (floors : list (Z * Z)) (standing : Z) : Z :=
  match floors with
  | [] => 0
  | (rank, floor) :: floors => if floor <=? standing then rank else rank_from floors standing
  end.

Definition reputation_rank (standing : Z) : Z :=
  rank_from (rev (imap (fun i f => (Z.of_nat i, f)) REPUTATION_RANK_FLOORS)) standing.

Definition slot_name (db_slot : Z) : pystr :=
  match (if 0 <=? db_slot then SLOT_NAMES !! Z.to_nat db_slot else None) with
  | Some n => n
  | None => lit "slot " ++ str_of_Z db_slot
  end.

(** The character as the server sees it when its inventory loads. *)
Record Wearer := MkWearer {
  wr_level : Z; wr_race : Z; wr_class : Z; wr_team : pystr; wr_skills : list (Z * Z); wr_spells : list Z;
  wr_standing : option (Z -> res Z) }.

Definition skill_value (w : Wearer) (skill : Z) : Z :=
  let value := default 0 (dget skill (wr_skills w)) in
  if (value <=? 0) && existsb (fun s => bool_decide (dget s PROFICIENCY_BY_SPELL = Some skill)) (wr_spells w) then 1
  else value.

(** Why an item is taken off. *)
Inductive refusal :=
  | NotWearable (inventory_type : Z) | WrongSlot (inventory_type slot : Z) | HordeOnly | AllianceOnly
  | ClassExcluded (allowable class_id : Z) | RaceExcluded (race_mask race : Z)
  | SkillMissing (skill : Z) | SkillTooLow (skill need have : Z) | SpellMissing (spell : Z)
  | LevelTooLow (need level : Z) | HolidayOnly (holiday : Z) | NoProficiency (skill : Z)
  | ReputationTooLow (need faction have : Z).

Section Equip.
Context `{Unicode}.

(** [_num]. *)
Definition _num (item : list (pystr * json)) (key : string) (dflt : Z) : res Z :=
  match jval item key with
  | JNull => Ok dflt
  | v => match py_int v with
         | Err (TypeError | ValueError) => Ok dflt
         | r => r
         end
  end.

(** The checks in the order of the code, each refusing or passing on. *)
Definition refuse_or (r : option refusal) (next : res (option refusal)) : res (option refusal) :=
  match r with Some _ => Ok r | None => next end.

Definition refuse_if (b : bool) (r : refusal) : option refusal := if b then Some r else None.

(** The heirloom armour a class may wear without its skill. *)
Definition heirloom_allowed (quality item_class class_id skill : Z) : bool :=
  (quality =? ITEM_QUALITY_HEIRLOOM) && (item_class =? ITEM_CLASS_ARMOR)
  && (let base := legacy_class class_id in
      if (base =? CLASS_PALADIN) || (base =? CLASS_WARRIOR) then skill =? SKILL_PLATE_MAIL
      else if (base =? CLASS_HUNTER) || (base =? CLASS_SHAMAN) then skill =? SKILL_MAIL
      else false).

(** The slot, the faction, the class and the race. *)
Definition body_refusal (item : list (pystr * json)) (db_slot : Z) (w : Wearer) (next : res (option refusal))
  : res (option refusal) :=
  inventory_type ← _num item "InventoryType" 0;
  match dget inventory_type SLOTS_BY_INVENTORY_TYPE with
  | None => Ok (Some (NotWearable inventory_type))
  | Some slots =>
      refuse_or (refuse_if (negb (bool_decide (db_slot ∈ slots))) (WrongSlot inventory_type db_slot)) (
      flags ← _num item "FlagsExtra" 0;
      let flags2 := Z.land flags 0xFFFFFFFF in
      refuse_or (refuse_if (negb (bool_decide (wr_team w = [])) && negb (Z.land flags2 ITEM_FLAG2_FACTION_HORDE =? 0)
                        && negb (bool_decide (wr_team w = lit "Horde"))) HordeOnly) (
      refuse_or (refuse_if (negb (bool_decide (wr_team w = [])) && negb (Z.land flags2 ITEM_FLAG2_FACTION_ALLIANCE =? 0)
                        && negb (bool_decide (wr_team w = lit "Alliance"))) AllianceOnly) (
      allowable ← _num item "AllowableClass" (-1);
      class_bit ← shift1 (wr_class w - 1);
      refuse_or (refuse_if (Z.land (item_allowable_class_mask allowable) class_bit =? 0)
               (ClassExcluded (Z.land allowable 0xFFFFFFFF) (wr_class w))) (
      races ← _num item "AllowableRace" (-1);
      race_bit ← shift1 (wr_race w - 1);
      let race_mask := Z.land races 0xFFFFFFFF in
      refuse_or (refuse_if (Z.land race_mask race_bit =? 0) (RaceExcluded race_mask (wr_race w))) next))))
  end.

(** What the character must have learnt. *)
Definition skill_refusal (item : list (pystr * json)) (w : Wearer) (next : res (option refusal)) : res (option refusal) :=
  required_skill ← _num item "RequiredSkill" 0;
  need ← (if required_skill =? 0 then Ok 0 else _num item "RequiredSkillRank" 0);
  let have := skill_value w required_skill in
  refuse_or (refuse_if (negb (required_skill =? 0) && (have =? 0)) (SkillMissing required_skill)) (
  refuse_or (refuse_if (negb (required_skill =? 0) && (have <? need)) (SkillTooLow required_skill need have)) (
  required_spell ← _num item "requiredspell" 0;
  refuse_or (refuse_if (negb (required_spell =? 0) && negb (bool_decide (required_spell ∈ wr_spells w)))
           (SpellMissing required_spell)) (
  required_level ← _num item "RequiredLevel" 0;
  refuse_or (refuse_if (wr_level w <? required_level) (LevelTooLow required_level (wr_level w))) (
  holiday ← _num item "HolidayId" 0;
  refuse_or (refuse_if (negb (holiday =? 0)) (HolidayOnly holiday)) next)))).

(** The proficiency of its kind, and the standing with its faction. *)
Definition standing_refusal (item : list (pystr * json)) (w : Wearer) : res (option refusal) :=
  item_class ← _num item "class" 0;
  subclass ← _num item "subclass" 0;
  let skill := proficiency_skill item_class subclass in
  lacks ← (if negb (skill =? 0) && (skill_value w skill =? 0) then
             quality ← _num item "Quality" 0; Ok (negb (heirloom_allowed quality item_class (wr_class w) skill))
           else Ok false);
  refuse_or (refuse_if lacks (NoProficiency skill)) (
  faction ← _num item "RequiredReputationFaction" 0;
  match wr_standing w with
  | Some standing =>
      if faction =? 0 then Ok None
      else
        need ← _num item "RequiredReputationRank" 0;
        s ← standing faction;
        let have := reputation_rank s in
        Ok (refuse_if (have <? need) (ReputationTooLow need faction have))
  | None => Ok None
  end).

Definition equip_refusal (item : list (pystr * json)) (db_slot : Z) (w : Wearer) : res (option refusal) :=
  body_refusal item db_slot w (skill_refusal item w (standing_refusal item w)).
End Equip.
