(* ===== verification/BmsMapSpec.v ===== *)
(** * What the mapping promises

    Numbers written in a row of text are read back; the enchantments of an item
    are where the server looks for them; a name that is given is free and short
    enough; a class mask lets a custom class use what its stock class may. *)
From S2P Require Import Prelude Wire PyFloat Text Format Json LuaSpec BmsMap BmsEquip.

(** ** Numbers in a line *)

Definition word (s : pystr) : Prop := Forall (fun c => is_space c = false) s /\ s <> [].

Lemma split_ws_go_word w s : forall cur, Forall (fun c => is_space c = false) w ->
  split_ws_go (w ++ s) cur = split_ws_go s (rev w ++ cur).
Proof.
  induction w as [|c w IH]; intros cur Hw; [done|]. apply Forall_cons in Hw as [Hc Hw].
  cbn [app split_ws_go rev]. rewrite Hc, IH by done. by rewrite <- app_assoc.
Qed.

Lemma split_ws_join l : Forall word l -> split_ws (join [32] l) = l.
Proof.
  intros Hl. unfold split_ws. destruct Hl as [|w l [Hw Hne] Hl]; [done|]. cbn [join].
  rewrite split_ws_go_word, app_nil_r by done. assert (rev w <> []) as Hr by (intros E; apply Hne; by rewrite <- (rev_involutive w), E).
  rewrite <- (rev_involutive w) at 2. revert Hr. generalize (rev w) as cur. clear Hw Hne w.
  induction Hl as [|w l [Hw Hne] Hl IH]; intros cur Hcur; cbn [map concat split_ws_go app].
  - by destruct cur.
  - change (is_space 32) with true. cbn iota. destruct cur as [|c cur]; [done|]. f_equal.
    rewrite split_ws_go_word, app_nil_r by done. rewrite IH; [by rewrite rev_involutive|].
    intros E. apply Hne. by rewrite <- (rev_involutive w), E.
Qed.

Lemma digit_visible c : is_digit c = true -> is_space c = false.
Proof.
  unfold is_digit, is_space, in_range. intros Hd. zbool.
  repeat (apply orb_false_iff; split); try apply andb_false_iff; rewrite ?Z.leb_gt, ?Z.eqb_neq; lia.
Qed.

Lemma number_word n : word (str_of_Z n).
Proof.
  unfold word. destruct (decide (0 <= n)) as [Hn|Hn].
  - destruct (str_of_Z_nonneg n Hn) as (_ & Hd & Hne). split; [|done]. eapply Forall_impl; [exact Hd|]. apply digit_visible.
  - destruct (str_of_Z_nonneg (- n) ltac:(lia)) as (_ & Hd & _).
    assert (str_of_Z n = 45 :: str_of_Z (- n)) as ->.
    { unfold str_of_Z. by rewrite (proj2 (Z.ltb_lt n 0)), (proj2 (Z.ltb_ge (- n) 0)) by lia. }
    split; [|done]. constructor; [done|]. eapply Forall_impl; [exact Hd|]. apply digit_visible.
Qed.

Section Map.
Context `{Unicode} `{Casing} (repr_of : json -> pystr).

Lemma numbers_read_back l : map int_of_str (split_ws (join [32] (map str_of_Z l))) = map Ok l.
Proof.
  rewrite split_ws_join; [|apply Forall_map, Forall_true, number_word]. rewrite map_map. apply map_ext, int_of_text.
Qed.

(** ** Enchantments *)

Lemma parsed_gems record f : parse_item_fields record = inr f -> exists a b c d, if_gems f = [a; b; c; d].
Proof.
  unfold parse_item_fields. destruct (_ <=? 0); [discriminate|]. intros [= <-]. cbn [if_gems].
  match goal with |- context [if ?b then _ else _] => destruct b end; [|cbn; by eauto]. destruct (jval record "gemIds") as [| | | | |l|]; try by eauto.
  destruct l as [|v1 [|v2 [|v3 [|v4 l]]]]; cbn; eauto.
Qed.

Lemma put_enchant_length i v slots : length (put_enchant i v slots) = length slots.
Proof. unfold put_enchant. case_match; [done|]. by rewrite length_alter. Qed.

(** An item's enchantments are in the field where the server looks for
    them: twelve slots of three numbers, the permanent enchantment in the first
    slot, the gems in the third to the fifth, the prismatic one in the seventh,
    all else zero; the text reads back as exactly these numbers. *)
Theorem enchantments_read_back record f :
  parse_item_fields record = inr f ->
  exists a b c d, if_gems f = [a; b; c; d]
    /\ map int_of_str (split_ws (enchantments_blob f))
       = map Ok ([if_enchant f; 0; 0; 0; 0; 0; a; 0; 0; b; 0; 0; c; 0; 0; 0; 0; 0; d; 0; 0] ++ replicate 15 0).
Proof.
  intros (a & b & c & d & Hg)%parsed_gems. exists a, b, c, d. split; [done|].
  unfold enchantments_blob. rewrite numbers_read_back. f_equal. unfold enchant_slots. rewrite Hg. cbn [take lookup list_lookup imap].
  unfold put_enchant. destruct (if_enchant f =? 0) eqn:E0; [apply Z.eqb_eq in E0; rewrite E0|]; cbn;
  destruct (a =? 0) eqn:Ea; try (apply Z.eqb_eq in Ea; subst a); cbn;
  destruct (b =? 0) eqn:Eb; try (apply Z.eqb_eq in Eb; subst b); cbn;
  destruct (c =? 0) eqn:Ec; try (apply Z.eqb_eq in Ec; subst c); cbn;
  destruct (d =? 0) eqn:Ed; try (apply Z.eqb_eq in Ed; subst d); reflexivity.
Qed.
(** ** Names *)

Definition numbered_form (base : pystr) (counter : Z) : pystr :=
  slice_to (MAX_CHARACTER_NAME - pylen (str_of_Z counter)) base ++ str_of_Z counter.

Lemma numbered_name_spec base lowered counters :
  match numbered_name base lowered counters with
  | Some n => exists k, k ∈ counters /\ n = numbered_form base k /\ uni_lower n ∉ lowered
  | None => forall k, k ∈ counters -> uni_lower (numbered_form base k) ∈ lowered
  end.
Proof.
  induction counters as [|k counters IH]; cbn [numbered_name]; [by intros k ?%elem_of_nil|].
  fold (numbered_form base k). case_bool_decide as Hin.
  - destruct (numbered_name base lowered counters) as [n|].
    + destruct IH as (k' & ? & ? & ?). exists k'. split_and!; [by right|done..].
    + intros k' [->|Hk]%elem_of_cons; [done|by apply IH].
  - exists k. split_and!; [by left|done..].
Qed.

Lemma counter_length k : k ∈ map Z.of_nat (seq 2 998) -> pylen (str_of_Z k) <= MAX_CHARACTER_NAME.
Proof.
  assert (Forall (fun k => pylen (str_of_Z k) <= MAX_CHARACTER_NAME) (map Z.of_nat (seq 2 998))) as Hall.
  { eapply Forall_impl; [apply (forallb_True (fun k => pylen (str_of_Z k) <=? MAX_CHARACTER_NAME)); by vm_compute|]. intros x Hx. by apply Z.leb_le, Is_true_eq_true. }
  rewrite Forall_forall in Hall. auto.
Qed.
(** The character gets a name of one to twelve characters.  A name that
    had to be changed is free, and so is a wanted name of at most twelve
    characters; there is no name only if none was captured, or if all the
    numbered ones are taken. *)
Theorem allocated_name desired taken :
  let lowered := map (fun n => uni_lower (strip n)) taken in
  match allocate_name desired taken with
  | inr (n, renamed) =>
      n <> [] /\ pylen n <= 12
      /\ (renamed = true \/ pylen (strip desired) <= 12 -> uni_lower n ∉ lowered)
      /\ (renamed = false -> n = take 12 (strip desired))
  | inl NoName => strip desired = []
  | inl (NoFreeName base) =>
      base = strip desired /\ forall k, k ∈ map Z.of_nat (seq 2 998) -> uni_lower (numbered_form base k) ∈ lowered
  | inl _ => False
  end.
Proof.
  intros lowered. unfold allocate_name. fold lowered. set (base := strip desired).
  destruct base as [|c base'] eqn:Eb; [done|]. rewrite <- Eb in *. assert (base <> []) as Hne by (rewrite Eb; done). clearbody base.
  assert (forall k, pylen (take k base) <= Z.of_nat k) as Htake by (intros k; unfold pylen; rewrite length_take; lia).
  case_bool_decide as Hin; cbn [negb].
  - pose proof (numbered_name_spec base lowered (map Z.of_nat (seq 2 998))) as Hn.
    destruct (numbered_name base lowered _) as [n|]; [|by split].
    destruct Hn as (k & Hk & -> & Hfree). pose proof (counter_length k Hk) as Hlen. unfold MAX_CHARACTER_NAME in Hlen.
    unfold numbered_form in *. split_and!; [| |done|done].
    + intros [_ E]%app_nil. destruct (number_word k) as [_ Hw]. done.
    + rewrite pylen_app. unfold slice_to, MAX_CHARACTER_NAME in *. specialize (Htake (Z.to_nat (12 - pylen (str_of_Z k)))). lia.
  - unfold slice_to, MAX_CHARACTER_NAME. split_and!; [| |intros [?|Hl]|done].
    + by destruct base.
    + apply (Htake 12%nat).
    + done.
    + rewrite take_ge; [done|]. unfold pylen in Hl. change (Z.to_nat 12) with 12%nat. lia.
Qed.

(** ** Class masks *)

Lemma land_bit m k : 0 <= k -> negb (Z.land m (Z.shiftl 1 k) =? 0) = Z.testbit m k.
Proof.
  intros Hk. rewrite Z.shiftl_1_l. destruct (Z.testbit m k) eqn:E.
  - apply negb_true_iff, Z.eqb_neq. intros E0. assert (Z.testbit (Z.land m (2 ^ k)) k = false) as Hf by (by rewrite E0, Z.bits_0).
    rewrite Z.land_spec, E, Z.pow2_bits_true in Hf by done. done.
  - apply negb_false_iff, Z.eqb_eq, Z.bits_inj'. intros i Hi. rewrite Z.land_spec, Z.bits_0, Z.pow2_bits_eqb by done.
    destruct (Z.eqb_spec k i) as [->|]; [by rewrite E|by rewrite andb_false_r].
Qed.

Definition grants (m i : Z) (c : Z) : bool := (i =? c - 1) && Z.testbit m (legacy_class c - 1).

Lemma legacy_pos c : c ∈ CUSTOM_CLASSES -> 0 <= legacy_class c - 1 /\ 0 <= c - 1.
Proof.
  assert (Forall (fun c => 0 <= legacy_class c - 1 /\ 0 <= c - 1) CUSTOM_CLASSES) as Hall by (repeat constructor; vm_compute; discriminate).
  rewrite Forall_forall in Hall. apply Hall.
Qed.

Lemma expand_bits m i l : 0 <= i -> (forall c, c ∈ l -> c ∈ CUSTOM_CLASSES) -> forall r,
  Z.testbit (foldl (fun r c => if negb (Z.land m (Z.shiftl 1 (legacy_class c - 1)) =? 0) then Z.lor r (Z.shiftl 1 (c - 1)) else r) r l) i
  = Z.testbit r i || existsb (grants m i) l.
Proof.
  intros Hi. induction l as [|c l IH]; intros Hl r; cbn [foldl existsb]; [by rewrite orb_false_r|].
  destruct (legacy_pos c (Hl c ltac:(by left))) as [Hc1 Hc2]. rewrite IH by (intros; apply Hl; by right). rewrite land_bit by done.
  unfold grants at 2. destruct (Z.testbit m (legacy_class c - 1)); [|by rewrite andb_false_r].
  rewrite Z.lor_spec, Z.shiftl_1_l, Z.pow2_bits_eqb, Z.eqb_sym, andb_true_r by done. by rewrite orb_assoc.
Qed.
Lemma grants_class m c : c ∈ CUSTOM_CLASSES -> existsb (grants m (c - 1)) CUSTOM_CLASSES = Z.testbit m (legacy_class c - 1).
Proof.
  intros Hc. apply eq_true_iff_eq. rewrite existsb_exists. unfold grants. split.
  - intros (c' & _ & [E Hb]%andb_true_iff). apply Z.eqb_eq in E. by replace c with c' by lia.
  - intros Hb. exists c. split; [by apply list_elem_of_In|]. by rewrite Z.eqb_refl.
Qed.

Lemma custom_bit c : c ∈ CUSTOM_CLASSES -> Z.testbit CUSTOM_CLASS_BITS (c - 1) = true /\ 11 <= c - 1.
Proof.
  assert (Forall (fun c => Z.testbit CUSTOM_CLASS_BITS (c - 1) = true /\ 11 <= c - 1) CUSTOM_CLASSES) as Hall
    by (repeat constructor; vm_compute; try done; discriminate).
  rewrite Forall_forall in Hall. apply Hall.
Qed.

Lemma expand_spec m i : 0 <= i -> Z.land m CUSTOM_CLASS_BITS = 0 -> Z.land m 0xFFFFFFFF = m ->
  Z.testbit (expand_legacy_class_mask m) i = Z.testbit m i || existsb (grants m i) CUSTOM_CLASSES.
Proof.
  intros Hi Hz Hm. unfold expand_legacy_class_mask. rewrite Hm, Hz. change (negb (0 =? 0)) with false. cbn iota.
  by apply expand_bits.
Qed.

(** A class mask that names no custom class lets each custom class use
    what the stock class it falls back to may use -- or everything, when it is
    the mask of the classless -- and says of the stock classes what it said; a
    mask that names a custom class is taken at its word. *)
Theorem class_mask_extends_stock allowable :
  let m := Z.land allowable 0xFFFFFFFF in
  let wide := item_allowable_class_mask allowable in
  (Z.land m CUSTOM_CLASS_BITS <> 0 -> wide = m)
  /\ (Z.land m CUSTOM_CLASS_BITS = 0 ->
      (forall c, c ∈ CUSTOM_CLASSES ->
        Z.testbit wide (c - 1) = (m =? CLASSLESS_CLASS_MASK) || Z.testbit m (legacy_class c - 1))
      /\ forall i, 0 <= i < 11 -> Z.testbit wide i = Z.testbit m i).
Proof.
  intros m wide. unfold wide, item_allowable_class_mask. fold m.
  assert (Z.land m 0xFFFFFFFF = m) as Hm by (unfold m; by rewrite <- Z.land_assoc, Z.land_diag). clearbody m. split.
  - intros Hz. destruct (Z.eqb_spec m CLASSLESS_CLASS_MASK) as [->|_]; [done|]. unfold expand_legacy_class_mask.
    rewrite Hm. apply Z.eqb_neq in Hz. by rewrite Hz.
  - intros Hz. assert (forall c, c ∈ CUSTOM_CLASSES -> Z.testbit m (c - 1) = false) as Hno.
    { intros c Hc. destruct (custom_bit c Hc) as [Hb _]. assert (Z.testbit (Z.land m CUSTOM_CLASS_BITS) (c - 1) = false) as E
        by (by rewrite Hz, Z.bits_0). by rewrite Z.land_spec, Hb, andb_true_r in E. }
    split; [intros c Hc|intros i Hi]; destruct (Z.eqb_spec m CLASSLESS_CLASS_MASK) as [Em|_].
    + rewrite Z.lor_spec. destruct (custom_bit c Hc) as [-> _]. by rewrite orb_true_r.
    + destruct (custom_bit c Hc) as [_ H11]. rewrite expand_spec by (done || lia). by rewrite Hno, grants_class.
    + rewrite Z.lor_spec. replace (Z.testbit CUSTOM_CLASS_BITS i) with false; [by rewrite orb_false_r|]. symmetry.
      assert (i = 0 \/ i = 1 \/ i = 2 \/ i = 3 \/ i = 4 \/ i = 5 \/ i = 6 \/ i = 7 \/ i = 8 \/ i = 9 \/ i = 10) as Hcase by lia.
      by repeat (destruct Hcase as [->|Hcase]; [reflexivity|]); subst.
    + rewrite expand_spec by (done || lia). replace (existsb (grants m i) CUSTOM_CLASSES) with false; [by rewrite orb_false_r|].
      symmetry. apply not_true_iff_false. rewrite existsb_exists. intros (c & Hc & [E _]%andb_true_iff).
      apply list_elem_of_In in Hc. destruct (custom_bit c Hc). apply Z.eqb_eq in E. lia.
Qed.

(** ** Places *)

(** Two records go to the same slot of the character, or of the same bag,
    only if they were in the same place. *)
Theorem bag_placement_injective r1 r2 box slot :
  split_bag_placement r1 = inr (box, slot) -> split_bag_placement r2 = inr (box, slot) ->
  _int (jval r1 "bagId") (-99) = _int (jval r2 "bagId") (-99)
  /\ _int (jval r1 "bagSlot") (-1) = _int (jval r2 "bagSlot") (-1).
Proof.
  unfold split_bag_placement.
  generalize (_int (jval r1 "bagId") (-99)), (_int (jval r1 "bagSlot") (-1)), (_int (jval r2 "bagId") (-99)), (_int (jval r2 "bagSlot") (-1)).
  intros b1 s1 b2 s2. unfold BACKPACK_CONTAINER, KEYRING_CONTAINER, INVENTORY_SLOT_ITEM_START, INVENTORY_SLOT_ITEM_END,
    KEYRING_SLOT_START, KEYRING_SLOT_END. intros E1 E2.
  repeat (split_match_in E1; try discriminate); repeat (split_match_in E2; try discriminate); simplify_eq; zbool; lia.
Qed.
End Map.
