(* ===== verification/BmsCoa.v ===== *)
(** * The advancement catalogue (character-importer/bms_coa.py)

    What the custom classes can buy: entries read from a generated C++ table or
    from a JSON export, indexed by their number. *)
From S2P Require Import Prelude Wire PyFloat Text Json BmsMap.

Record CoaEntry := MkCoaEntry {
  ce_entry_id : Z; ce_class_id : Z; ce_spec_id : Z; ce_ability_cost : Z; ce_talent_cost : Z; ce_required_level : Z;
  ce_spells : list Z }.

Definition kind (e : CoaEntry) : pystr :=
  if negb (ce_talent_cost e =? 0) then lit "talent" else if negb (ce_ability_cost e =? 0) then lit "ability" else lit "automatic".

Definition cost (e : CoaEntry) : Z := or_int (ce_talent_cost e) (ce_ability_cost e).

Section Coa.
Context `{Unicode}.

(** ** The C++ table *)

(** A piece of [_ROW]: a literal character, or digits; white space may precede
    each. *)
Inductive piece := PChar (c : Z) | PNumber.

Definition is_decimal_char (c : Z) : bool := match uni_decimal c with Some _ => true | None => false end.

Fixpoint skip_space (s : pystr) : pystr := match s with c :: t => if is_space c then skip_space t else s | [] => [] end.

(** The numbers of a match and the text behind it. *)
Fixpoint match_pieces (l : list piece) (s : pystr) : option (list Z * pystr) :=
  match l with
  | [] => Some ([], s)
  | PChar c :: l =>
      match skip_space s with
      | d :: t => if d =? c then match_pieces l t else None
      | [] => None
      end
  | PNumber :: l =>
      let s := skip_space s in
      let w := take_while is_decimal_char s in
      match int_of_str w with
      | Ok n => '(ns, rest) ← match_pieces l (drop (length w) s); Some (n :: ns, rest)
      | Err _ => None
      end
  end.

(** {a, b, c, d, e, f, g, {{x, y, z}}} behind its first brace.  Between the two
    inner braces the table has no space. *)
Definition ROW_NUMBERS : list piece := concat (map (fun _ => [PNumber; PChar 44]) (seq 0 7)) ++ [PChar 123].
Definition ROW_SPELLS : list piece := [PNumber; PChar 44; PNumber; PChar 44; PNumber; PChar 125].

Definition match_row (s : pystr) : option (list Z * pystr) :=
  match s with
  | 123 :: s =>
      '(ns, s) ← match_pieces ROW_NUMBERS s;
      match s with
      | 123 :: s =>
          '(spells, s) ← match_pieces ROW_SPELLS s;
          match s with
          | 125 :: s => match skip_space s with
                        | 125 :: s => Some (ns ++ spells, s)
                        | _ => None
                        end
          | _ => None
          end
      | _ => None
      end
  | _ => None
  end.

Definition entry_of_row (values : list Z) : CoaEntry :=
  let v i := nth i values 0 in
  MkCoaEntry (v 0%nat) (v 1%nat) (v 2%nat) (v 4%nat) (v 5%nat) (v 6%nat) (filter (fun s => s <> 0) (take 3 (drop 7 values))).

(** [_ROW.finditer]: a match takes at least one character. *)
Fixpoint header_rows (fuel : nat) (s : pystr) : list CoaEntry :=
  match fuel with
  | O => []
  | S fuel =>
      match match_row s with
      | Some (values, rest) => entry_of_row values :: header_rows fuel rest
      | None => match s with [] => [] | _ :: s => header_rows fuel s end
      end
  end.

Definition parse_header (text : pystr) : list CoaEntry := header_rows (S (length text)) text.

(** ** The JSON export *)

(** The first of the names the row has. *)
Fixpoint pick_int (row : list (pystr * json)) (names : list string) : res Z :=
  match names with
  | [] => Ok 0
  | name :: names =>
      match dget (lit name) row with
      | Some v => match int_or v 0 with
                  | Err (TypeError | ValueError) => Ok 0
                  | r => r
                  end
      | None => pick_int row names
      end
  end.

(** [row.get("SpellIds") or row.get("spells") or []], as a list. *)
Definition row_spells (row : list (pystr * json)) : list json :=
  let raw := or_else (jval row "SpellIds") (or_else (jval row "spells") (JList [])) in
  match raw with JList l => l | v => [v] end.

Definition coa_of_json (row : list (pystr * json)) : res CoaEntry :=
  single ← pick_int row ["SpellID"; "spellId"; "spell"]%string;
  let spells := match row_spells row with
                | [] => if single =? 0 then [] else [JInt single]
                | l => l
                end in
  entry_id ← pick_int row ["EntryId"; "InternalID"; "entryId"; "entry"]%string;
  class_id ← pick_int row ["ClassId"; "classId"; "class"]%string;
  spec_id ← pick_int row ["SpecId"; "specId"; "spec"]%string;
  ability ← pick_int row ["AECost"; "abilityCost"]%string;
  talent ← pick_int row ["TECost"; "talentCost"]%string;
  level ← pick_int row ["RequiredLevel"; "requiredLevel"; "level"]%string;
  ids ← res_map py_int (filter (fun s => py_truthy s = true) spells);
  Ok (MkCoaEntry entry_id class_id spec_id ability talent level ids).

(** The rows of the parsed text; a CoaError has no rows. *)
Definition json_rows (data : json) : option (list json) :=
  match data with
  | JDict d => match jval d "entries" with JList l => Some l | _ => None end
  | JList l => Some l
  | _ => None
  end.

Definition parse_json (data : json) : res (list CoaEntry) :=
  rows ← res_of_option CoaError (json_rows data);
  res_map coa_of_json (omap (M:=list) (fun r => match r with JDict d => Some d | _ => None end) rows).

(** ** The catalogue *)

(** The first entry of a number stays; the others are counted. *)
Definition index_entry (acc : list (Z * CoaEntry) * Z) (e : CoaEntry) : list (Z * CoaEntry) * Z :=
  if dmem (ce_entry_id e) (fst acc) then (fst acc, snd acc + 1) else (dset (ce_entry_id e) e (fst acc), snd acc).

Record Catalogue := MkCatalogue { cat_entries : list CoaEntry; cat_by_id : list (Z * CoaEntry); cat_duplicates : Z }.

Definition catalogue (entries : list CoaEntry) : Catalogue :=
  let '(by_id, n) := foldl index_entry ([], 0) entries in MkCatalogue entries by_id n.

(** [get]: [int] of the number, unless it has none. *)
Definition cat_get (c : Catalogue) (entry_id : json) : res (option CoaEntry) :=
  match py_int entry_id with
  | Ok n => Ok (dget n (cat_by_id c))
  | Err (TypeError | ValueError) => Ok None
  | Err e => Err e
  end.

Definition for_class (c : Catalogue) (class_id : Z) : list CoaEntry := filter (fun e => ce_class_id e = class_id) (cat_entries c).

(** [sorted({...})] of the specializations that have a number. *)
Definition specs (c : Catalogue) (class_id : Z) : list Z :=
  sort_Z (foldl (fun s e => if ce_spec_id e =? 0 then s else set_add (ce_spec_id e) s) [] (for_class c class_id)).

Definition classes (c : Catalogue) : list Z := sort_Z (foldl (fun s e => set_add (ce_class_id e) s) [] (cat_entries c)).

(** Why an entry does not belong to a character. *)
Inductive mismatch_reason :=
  | OtherClass (entry its_class class_id : Z) | NeedsLevel (entry its_level level : Z) | OtherSpec (entry its_spec spec : Z).

Definition mismatch (c : Catalogue) (entry_id : json) (class_id level spec_id : Z) : res (option mismatch_reason) :=
  e ← cat_get c entry_id;
  Ok (match e with
      | None => None
      | Some e =>
          if negb (ce_class_id e =? class_id) then Some (OtherClass (ce_entry_id e) (ce_class_id e) class_id)
          else if level <? ce_required_level e then Some (NeedsLevel (ce_entry_id e) (ce_required_level e) level)
          else if negb (ce_spec_id e =? 0) && negb (spec_id =? 0) && negb (ce_spec_id e =? spec_id)
          then Some (OtherSpec (ce_entry_id e) (ce_spec_id e) spec_id)
          else None
      end).
End Coa.

(** ** The table is read back

    A row written with any blanks the C++ table allows is read as its numbers,
    whatever stands between the rows. *)

Section CoaSpec.
Context `{Unicode}.

Lemma skip_space_blanks k s : skip_space (replicate k 32 ++ s) = skip_space s.
Proof. induction k as [|k IH]; [done|exact IH]. Qed.

Lemma skip_space_solid c s : is_space c = false -> skip_space (c :: s) = c :: s.
Proof. intros Hc. cbn. by rewrite Hc. Qed.

Lemma skip_space_length s : (length (skip_space s) <= length s)%nat.
Proof. induction s as [|c s IH]; [done|]. cbn. case_match; cbn; lia. Qed.

Lemma take_while_app (f : Z -> bool) w s : Forall (fun c => f c = true) w -> (forall c t, s = c :: t -> f c = false) ->
  take_while f (w ++ s) = w.
Proof.
  intros Hw Hs. induction Hw as [|c w Hc _ IH]; cbn; [|by rewrite Hc, IH].
  destruct s as [|c s]; [done|]. cbn. by rewrite (Hs c s).
Qed.

Lemma digit_is_decimal c : is_digit c = true -> is_decimal_char c = true /\ is_space c = false.
Proof.
  unfold is_digit, in_range. intros Hc. zbool. unfold is_decimal_char. rewrite uni_decimal_ascii by lia. unfold in_range.
  rewrite (proj2 (Z.leb_le 48 c)), (proj2 (Z.leb_le c 57)) by lia. split; [done|].
  unfold is_space, in_range. repeat (rewrite orb_false_r || apply orb_false_iff; split); try apply andb_false_iff;
    rewrite ?Z.leb_gt, ?Z.eqb_neq; lia.
Qed.

Lemma blank_decimal : is_decimal_char 32 = false.
Proof. unfold is_decimal_char. by rewrite uni_decimal_ascii by lia. Qed.

(** ** Rows as text *)

(** A character that can stand behind a number. *)
Definition separator (c : Z) : Prop := c = 44 \/ c = 123 \/ c = 125.

Lemma separator_solid c : separator c -> is_space c = false /\ is_decimal_char c = false.
Proof.
  intros Hc. unfold is_decimal_char. rewrite uni_decimal_ascii by (destruct Hc as [->|[->| ->]]; lia).
  by destruct Hc as [->|[->| ->]].
Qed.

(** The texts of a list of pieces, with any blanks where they are allowed. *)
Inductive spelled : list piece -> list Z -> pystr -> Prop :=
  | spelled_end : spelled [] [] []
  | spelled_char k c l ns s : separator c -> spelled l ns s -> spelled (PChar c :: l) ns (replicate k 32 ++ c :: s)
  | spelled_number k n j c l ns s : 0 <= n -> separator c -> spelled l ns s ->
      spelled (PNumber :: PChar c :: l) (n :: ns) (replicate k 32 ++ str_of_Z n ++ replicate j 32 ++ c :: s).

Lemma match_spelled l ns s : spelled l ns s -> forall rest, match_pieces l (s ++ rest) = Some (ns, rest).
Proof.
  induction 1 as [|k c l ns s Hc _ IH|k n j c l ns s Hn Hc _ IH]; intros rest; [done| |].
  - destruct (separator_solid c Hc) as [Hs _]. rewrite <- app_assoc. cbn [match_pieces app].
    rewrite skip_space_blanks, skip_space_solid, Z.eqb_refl by done. apply IH.
  - destruct (separator_solid c Hc) as [Hs Hd]. rewrite <- !app_assoc. cbn [match_pieces app]. rewrite skip_space_blanks.
    destruct (str_of_Z_nonneg n Hn) as (_ & Hdig & Hne). pose proof (int_of_str_of_Z n Hn) as Hint.
    destruct (str_of_Z n) as [|d ds]; [done|]. pose proof (Forall_inv Hdig) as Hd0. cbn [app].
    rewrite skip_space_solid by (by apply digit_is_decimal).
    change (d :: ds ++ ?x) with ((d :: ds) ++ x). rewrite take_while_app.
    + rewrite Hint, drop_app_length. rewrite skip_space_blanks, skip_space_solid, Z.eqb_refl by done. by rewrite IH.
    + eapply Forall_impl; [exact Hdig|]. intros x Hx. by apply digit_is_decimal.
    + intros x t Ht. destruct j as [|j]; injection Ht as <- _; [done|apply blank_decimal].
Qed.

(** The text of a row of the table. *)
Definition row_text (values : list Z) (t : pystr) : Prop :=
  exists ns sp s1 s2 k, values = ns ++ sp /\ spelled ROW_NUMBERS ns s1 /\ spelled ROW_SPELLS sp s2
    /\ t = 123 :: s1 ++ 123 :: s2 ++ 125 :: replicate k 32 ++ [125].

Lemma match_row_text values t rest : row_text values t -> match_row (t ++ rest) = Some (values, rest).
Proof.
  intros (ns & sp & s1 & s2 & k & -> & H1 & H2 & ->). cbn [match_row app].
  rewrite <- app_assoc. rewrite (match_spelled _ _ _ H1). cbn [mbind option_bind app].
  rewrite <- app_assoc. rewrite (match_spelled _ _ _ H2). cbn [mbind option_bind app].
  by rewrite <- app_assoc, skip_space_blanks.
Qed.

(** ** The search *)

Lemma match_pieces_shorter l : forall s ns rest, match_pieces l s = Some (ns, rest) -> (length rest <= length s)%nat.
Proof.
  induction l as [|[c|] l IH]; intros s ns rest E; cbn in E.
  - by injection E as _ <-.
  - pose proof (skip_space_length s) as Hl. destruct (skip_space s) as [|d t]; [done|].
    destruct (d =? c); [|done]. apply IH in E. cbn in Hl. lia.
  - pose proof (skip_space_length s) as Hl. destruct (int_of_str _); [|done].
    destruct (match_pieces l _) as [[ns' rest']|] eqn:El; [|done]. apply IH in El. injection E as _ <-.
    rewrite length_drop in El. lia.
Qed.

Lemma match_row_shorter s values rest : match_row s = Some (values, rest) -> (length rest < length s)%nat.
Proof.
  unfold match_row. intros E. destruct s as [|c s]; [done|]. destruct (decide (c = 123)) as [->|]; [|by repeat (case_match; try done)].
  destruct (match_pieces ROW_NUMBERS s) as [[ns s1]|] eqn:E1; [|done]. apply match_pieces_shorter in E1. cbn [mbind option_bind] in E.
  destruct s1 as [|c s1]; [done|]. destruct (decide (c = 123)) as [->|]; [|by repeat (case_match; try done)].
  destruct (match_pieces ROW_SPELLS s1) as [[sp s2]|] eqn:E2; [|done]. apply match_pieces_shorter in E2. cbn [mbind option_bind] in E.
  destruct s2 as [|c s2]; [done|]. destruct (decide (c = 125)) as [->|]; [|by repeat (case_match; try done)].
  pose proof (skip_space_length s2) as Hl. destruct (skip_space s2) as [|c s3]; [done|].
  destruct (decide (c = 125)) as [->|]; [|by repeat (case_match; try done)]. injection E as _ <-. cbn in *. lia.
Qed.

(** More rounds than characters change nothing. *)
Lemma header_rows_fuel : forall f g s, (length s < f)%nat -> (length s < g)%nat -> header_rows f s = header_rows g s.
Proof.
  induction f as [|f IH]; intros [|g] s Hf Hg; try lia. cbn [header_rows].
  destruct (match_row s) as [[values rest]|] eqn:E.
  - apply match_row_shorter in E. f_equal. apply IH; lia.
  - destruct s as [|c s]; [done|]. cbn in Hf, Hg. apply IH; lia.
Qed.

Lemma header_rows_filler w : Forall (fun c => c <> 123) w -> forall f s, (length w + length s < f)%nat ->
  header_rows f (w ++ s) = header_rows f s.
Proof.
  induction 1 as [|c w Hc _ IH]; intros f s Hf; [done|]. destruct f as [|f]; [cbn in Hf; lia|]. cbn [header_rows app].
  assert (match_row (c :: w ++ s) = None) as ->.
  { unfold match_row. repeat (case_match; try done). }
  cbn in Hf. rewrite IH by lia. apply (header_rows_fuel f (S f)); lia.
Qed.

(** The catalogue's table is read back: with any text between the rows that
    opens no brace, and any blanks inside them, the entries read are the rows
    written, in order and none besides. *)
Theorem header_read_back (rows : list (list Z * pystr * pystr)) (w : pystr) :
  Forall (fun r => row_text (fst (fst r)) (snd (fst r)) /\ Forall (fun c => c <> 123) (snd r)) rows ->
  Forall (fun c => c <> 123) w ->
  parse_header (w ++ concat (map (fun r => snd (fst r) ++ snd r) rows)) = map (fun r => entry_of_row (fst (fst r))) rows.
Proof.
  intros Hrows Hw. unfold parse_header. generalize (Nat.lt_succ_diag_r (length (w ++ concat (map (fun r => snd (fst r) ++ snd r) rows)))).
  generalize (S (length (w ++ concat (map (fun r => snd (fst r) ++ snd r) rows)))) as f. revert w Hw.
  induction Hrows as [|[[values t] w'] rows [Hrow Hw'] _ IH]; intros w Hw f Hf; rewrite length_app in Hf;
    rewrite header_rows_filler by done.
  - by destruct f.
  - cbn [map concat fst snd] in *. destruct f as [|f]; [lia|]. cbn [header_rows]. rewrite <- app_assoc in *.
    rewrite (match_row_text _ _ _ Hrow). f_equal. apply IH; [done|].
    rewrite length_app in Hf. destruct Hrow as (? & ? & ? & ? & ? & _ & _ & _ & ->). cbn in Hf. lia.
Qed.
End CoaSpec.
