(* ===== verification/BmsDbc.v ===== *)
(** * Names resolved against a server's tables (character-importer/bms_dbc.py)

    A checkpoint names factions, skills, talents and classes; the numbers come
    from the DBC files of the server the character goes to.  The files are read
    once and never change, so each of the caches the code fills on demand is a
    function of the files.  The reasons and notes of a resolution are the data
    their text is made of. *)
From S2P Require Import Prelude Wire PyFloat Text Format Json BmsMap.

(** ** Layout *)

Definition FACTION_ID : Z := 0.
Definition FACTION_REP_LIST_ID : Z := 1.
Definition FACTION_RACE_MASK : Z := 2.
Definition FACTION_CLASS_MASK : Z := 6.
Definition FACTION_BASE_REP : Z := 10.
Definition FACTION_REP_FLAGS : Z := 14.
Definition FACTION_NAME : Z := 23.
Definition FACTION_FIELDS : Z := 57.
Definition SKILL_ID : Z := 0.
Definition SKILL_NAME : Z := 3.
Definition SKILL_FIELDS : Z := 56.
Definition TALENT_ID : Z := 0.
Definition TALENT_TAB : Z := 1.
Definition TALENT_ROW : Z := 2.
Definition TALENT_COL : Z := 3.
Definition TALENT_RANK : Z := 4.
Definition TALENT_MAX_RANK : Z := 5.
Definition TALENT_FIELDS : Z := 23.
Definition TALENTTAB_ID : Z := 0.
Definition TALENTTAB_NAME : Z := 1.
Definition TALENTTAB_CLASS_MASK : Z := 20.
Definition TALENTTAB_PAGE : Z := 22.
Definition TALENTTAB_FIELDS : Z := 24.
Definition SPELL_ID : Z := 0.
Definition SPELL_NAME : Z := 136.
Definition GLYPH_ID : Z := 0.
Definition GLYPH_SPELL_ID : Z := 1.
Definition GLYPH_FIELDS : Z := 4.
Definition CHRCLASSES_ID : Z := 0.
Definition CHRCLASSES_NAME : Z := 4.
Definition CHRCLASSES_TOKEN : Z := 55.

(** ** Resolutions *)

Inductive reason :=
  | NoReason | NoFaction | AmbiguousFaction (count : Z) (ids : list Z) | NoSkill | AmbiguousSkill (count : Z) (ids : list Z)
  | NoClassToken | NoClassNamed (token : json) | AmbiguousClass (token : json) (ids : list Z)
  | NoTabs | AmbiguousTab (name : pystr) | NoTab (name : pystr) (index count : Z)
  | RankZero | RankTooHigh (rank : Z) | NoTalentNamed (name : pystr) | NoTalentRank (name : pystr) (rank : Z)
  | AmbiguousTalent (count : Z) (name : pystr) (rank : Z) (spells : list Z) | NoGlyph.

(** Which copy of a talent was taken, and over which. *)
Inductive talent_note := NoNote | TookLive (name : pystr) (count spell : Z) (over : list Z).

Record Resolution := MkResolution { rs_ok : bool; rs_value : Z; rs_reason : reason; rs_note : talent_note }.

Definition resolved (v : Z) : Resolution := MkResolution true v NoReason NoNote.
Definition unresolved (r : reason) : Resolution := MkResolution false 0 r NoNote.

(** What the importer asks of the tables of a server. *)
Class Resolvers := {
  faction_by_name : pystr -> res Resolution;
  faction_base_rep : Z -> Z -> Z -> res Z;
  skill_by_name : pystr -> res Resolution;
  spell_exists : Z -> res bool;
  class_by_token : json -> res Resolution;
  class_name : Z -> res pystr;
  talent_rank_spells : res (list Z);
  resolve_talent_tab : Z -> pystr -> Z -> res (Resolution * bool);
  talent_spell : Z -> pystr -> pystr -> Z -> Z -> res Resolution;
}.

(** What it relies on: a talent that resolves teaches a spell some rank
    teaches, and its number is not zero. *)
Class ResolversOk (R : Resolvers) := {
  talent_spell_ranked c tab name rank index r spells :
    talent_spell c tab name rank index = Ok r -> rs_ok r = true -> talent_rank_spells = Ok spells -> rs_value r ∈ spells;
  talent_spell_rank_pos c tab name rank index r :
    talent_spell c tab name rank index = Ok r -> rs_ok r = true -> 1 <= rank <= 5;
}.

(** ** The files *)

Definition race_mask (race : Z) : res Z := if race - 1 <? 0 then Err ValueError else Ok (Z.shiftl 1 (race - 1)).
Definition class_mask (class : Z) : res Z := if class - 1 <? 0 then Err ValueError else Ok (Z.shiftl 1 (class - 1)).

Record DBC := MkDBC { dbc_count : Z; dbc_fields : Z; dbc_ints : list Z; dbc_strings : bytes }.

(** [struct.unpack_from("<%di" % n, b)]. *)
Fixpoint unpack_is (n : nat) (b : bytes) : res (list Z) :=
  match n with
  | O => Ok []
  | S n => v ← unpacki b 0; l ← unpack_is n (drop 4 b); Ok (v :: l)
  end.

(** The count is compared with the size before any integer is read. *)
Definition unpack_ints (n : Z) (b : bytes) : res (list Z) :=
  if pylen b <? 4 * n then Err StructError else unpack_is (Z.to_nat n) b.

Definition parse_dbc (data : bytes) : res DBC :=
  if pylen data <? 20 then Err DbcError
  else
    count ← unpackI data 4;
    fields ← unpackI data 8;
    record_size ← unpackI data 12;
    if negb (bool_decide (take 4 data = lit "WDBC")) then Err DbcError
    else
      let body := 20 + count * record_size in
      ints ← unpack_ints (count * fields) (slice 20 body data);
      Ok (MkDBC count fields ints (slice_from body data)).

Definition dbc_i (t : DBC) (row col : Z) : res Z := index (dbc_ints t) (row * dbc_fields t + col).

Definition dbc_u (t : DBC) (row col : Z) : res Z := v ← dbc_i t row col; Ok (Z.land v 0xFFFFFFFF).

(** The string at the offset the column holds, up to a zero byte. *)
Definition dbc_s (t : DBC) (row col : Z) : res pystr :=
  offset ← dbc_i t row col;
  Ok (if (offset <? 0) || (pylen (dbc_strings t) <=? offset) then []
      else
        let s := slice_from offset (dbc_strings t) in
        utf8_decode_replace (match find_byte 0 s with Some n => take n s | None => s end)).

(** [range(len(dbc))]. *)
Definition dbc_rows (t : DBC) : list Z := seqZ_from (dbc_count t).

(** [d.setdefault(k, []).append(v)]. *)
Definition push {K V} `{EqDecision K} (k : K) (v : V) (d : list (K * list V)) : list (K * list V) :=
  dset k (default [] (dget k d) ++ [v]) d.

(** [{... for ...}], without zero, in order. *)
Definition spell_set (l : list Z) : list Z :=
  filter (fun s => s <> 0) (sort_Z (foldl (fun s x => set_add x s) [] l)).

(** [bisect.bisect_left]. *)
Fixpoint bisect_left (l : list Z) (x : Z) : nat :=
  match l with [] => 0 | y :: l => if y <? x then S (bisect_left l x) else 0 end.

(** The gaps between neighbours, each with its place. *)
Fixpoint gaps_from (i : Z) (l : list Z) : list (Z * Z) :=
  match l with
  | a :: (b :: _) as t => (b - a, i) :: gaps_from (i + 1) t
  | _ => []
  end.

Definition pair_leb (a b : Z * Z) : bool := (fst a <? fst b) || ((fst a =? fst b) && (snd a <=? snd b)).

(** [l[0], l[-1]]. *)
Definition first_last (l : list Z) : option (Z * Z) :=
  match l, last l with a :: _, Some b => Some (a, b) | _, _ => None end.

Definition _dominant_span (ids : list Z) : option (Z * Z) :=
  let ordered := sort_Z ids in
  if pylen ordered <? 3 then first_last ordered
  else
    match rev (py_sort pair_leb (gaps_from 0 ordered)) with
    | (widest, at_) :: (runner_up, _) :: _ =>
        if (0 <? runner_up) && (10 * runner_up <=? widest) then
          let left := slice_to (at_ + 1) ordered in
          let right := slice_from (at_ + 1) ordered in
          let keep := if pylen right <=? pylen left then left else right in
          if 2 <=? pylen keep then first_last keep else first_last ordered
        else first_last ordered
    | _ => first_last ordered
    end.

Section Dbc.
Context `{Unicode} `{Casing} (repr_of : json -> pystr).
Variable isfile : pystr -> bool.
Variable contents : pystr -> res bytes.

(** [_norm] of a text, [_fold_token] of anything. *)
Definition _norm (text : pystr) : pystr := uni_casefold (join [32] (split_ws text)).

Definition _fold_token (text : json) : pystr := filter (fun c => uni_isalnum c = true) (uni_casefold (text_or repr_of text [])).

(** [_open]: a file that is absent, unreadable, malformed or too narrow is a
    DbcError. *)
Definition _open (name : pystr) (expect_fields : option Z) : res DBC :=
  if negb (isfile name) then Err DbcError
  else
    data ← (match contents name with Err OSError => Err DbcError | r => r end);
    t ← parse_dbc data;
    match expect_fields with
    | Some n => if dbc_fields t <? n then Err DbcError else Ok t
    | None => Ok t
    end.

Definition dbc_header (name : pystr) : res (option (Z * Z)) :=
  match contents name with
  | Err OSError => Ok None
  | Err e => Err e
  | Ok data =>
      let head := take 20 data in
      if (pylen head <? 20) || negb (bool_decide (take 4 head = lit "WDBC")) then Ok None
      else count ← unpackI head 4; fields ← unpackI head 8; Ok (Some (count, fields))
  end.

Definition available : list (pystr * bool) :=
  map (fun n => (lit n, isfile (lit n)))
    ["Faction.dbc"; "SkillLine.dbc"; "Talent.dbc"; "TalentTab.dbc"; "Spell.dbc"; "GlyphProperties.dbc"]%string.

(** ** Factions *)

Definition factions_dbc : res DBC := _open (lit "Faction.dbc") (Some FACTION_FIELDS).

Definition load_faction (t : DBC) (acc : list (pystr * list Z) * list (Z * Z)) (row : Z)
  : res (list (pystr * list Z) * list (Z * Z)) :=
  faction_id ← dbc_u t row FACTION_ID;
  name ← dbc_s t row FACTION_NAME;
  let name := _norm name in
  Ok (match name with [] => fst acc | _ => push name faction_id (fst acc) end, dset faction_id row (snd acc)).

Definition _load_factions : res (list (pystr * list Z) * list (Z * Z)) :=
  t ← factions_dbc; res_fold (load_faction t) ([], []) (dbc_rows t).

(** The candidates the reputation pane lists. *)
Fixpoint listed (t : DBC) (rows : list (Z * Z)) (ids : list Z) : res (list Z) :=
  match ids with
  | [] => Ok []
  | fid :: ids =>
      row ← res_of_option KeyError (dget fid rows);
      v ← dbc_i t row FACTION_REP_LIST_ID;
      l ← listed t rows ids;
      Ok (if 0 <=? v then fid :: l else l)
  end.

Definition dbc_faction_by_name (name : pystr) : res Resolution :=
  '(by_name, rows) ← _load_factions;
  t ← factions_dbc;
  match default [] (dget (_norm name) by_name) with
  | [] => Ok (unresolved NoFaction)
  | candidates =>
      l ← listed t rows candidates;
      let pool := match l with [] => candidates | _ => l end in
      Ok (match pool with
          | [fid] => resolved fid
          | _ => unresolved (AmbiguousFaction (pylen pool) (take 5 (sort_Z pool)))
          end)
  end.

(** The first of four race and class masks the character is in. *)
Fixpoint base_at (t : DBC) (row rmask cmask base_col : Z) (indices : list Z) : res Z :=
  match indices with
  | [] => Ok 0
  | i :: indices =>
      races ← dbc_u t row (FACTION_RACE_MASK + i);
      classes ← dbc_u t row (FACTION_CLASS_MASK + i);
      if (negb (Z.land races rmask =? 0) || ((races =? 0) && negb (classes =? 0)))
         && (negb (Z.land classes cmask =? 0) || (classes =? 0))
      then dbc_i t row (base_col + i)
      else base_at t row rmask cmask base_col indices
  end.

Definition _faction_base (faction_id race class base_col : Z) : res Z :=
  '(_, rows) ← _load_factions;
  match dget faction_id rows with
  | None => Ok 0
  | Some row =>
      t ← factions_dbc;
      rmask ← race_mask race;
      cmask ← class_mask class;
      base_at t row rmask cmask base_col [0; 1; 2; 3]
  end.

Definition dbc_faction_base_rep (faction_id race class : Z) : res Z := _faction_base faction_id race class FACTION_BASE_REP.
Definition faction_default_flags (faction_id race class : Z) : res Z := _faction_base faction_id race class FACTION_REP_FLAGS.

(** ** Skills *)

Definition load_skill (t : DBC) (by_name : list (pystr * list Z)) (row : Z) : res (list (pystr * list Z)) :=
  name ← dbc_s t row SKILL_NAME;
  match _norm name with
  | [] => Ok by_name
  | name => id ← dbc_u t row SKILL_ID; Ok (push name id by_name)
  end.

Definition _load_skills : res (list (pystr * list Z)) :=
  t ← _open (lit "SkillLine.dbc") (Some SKILL_FIELDS); res_fold (load_skill t) [] (dbc_rows t).

Definition dbc_skill_by_name (name : pystr) : res Resolution :=
  by_name ← _load_skills;
  Ok (match default [] (dget (_norm name) by_name) with
      | [] => unresolved NoSkill
      | [id] => resolved id
      | candidates => unresolved (AmbiguousSkill (pylen candidates) (take 5 (sort_Z candidates)))
      end).

(** ** Spells *)

Definition _load_spell_names : res (list (Z * pystr)) :=
  t ← _open (lit "Spell.dbc") None;
  if dbc_fields t <=? SPELL_NAME then Err DbcError
  else res_fold (fun d row => id ← dbc_u t row SPELL_ID; name ← dbc_s t row SPELL_NAME; Ok (dset id name d)) [] (dbc_rows t).

Definition spell_name (spell_id : Z) : res pystr := names ← _load_spell_names; Ok (default [] (dget spell_id names)).
Definition dbc_spell_exists (spell_id : Z) : res bool := names ← _load_spell_names; Ok (dmem spell_id names).

(** ** Talents *)

Definition talent_dbc : res DBC := _open (lit "Talent.dbc") (Some TALENT_FIELDS).

(** A tab: number, name, classes, page. *)
Abbreviation talent_tab := (Z * pystr * Z * Z)%type (only parsing).

Record talents := Talents {
  tl_tabs : list talent_tab;
  tl_index : list (Z * list (pystr * list Z));
  tl_cells : list (Z * list ((Z * Z) * Z)) }.

Definition load_tab (t : DBC) (row : Z) : res talent_tab :=
  id ← dbc_u t row TALENTTAB_ID;
  name ← dbc_s t row TALENTTAB_NAME;
  mask ← dbc_u t row TALENTTAB_CLASS_MASK;
  page ← dbc_u t row TALENTTAB_PAGE;
  Ok (id, name, mask, page).

Definition talent_cell (t : DBC) (row : Z) : res (Z * Z) :=
  r ← dbc_u t row TALENT_ROW; c ← dbc_u t row TALENT_COL; Ok (r, c).

(** Count the user of a cell, and file the row under the name of its first
    rank. *)
Definition load_talent (t : DBC) (names : list (Z * pystr))
    (acc : list (Z * list (pystr * list Z)) * list (Z * list ((Z * Z) * Z))) (row : Z)
  : res (list (Z * list (pystr * list Z)) * list (Z * list ((Z * Z) * Z))) :=
  let '(idx, cells) := acc in
  tab_id ← dbc_u t row TALENT_TAB;
  cell ← talent_cell t row;
  let users := default [] (dget tab_id cells) in
  let cells := dset tab_id (dset cell (default 0 (dget cell users) + 1) users) cells in
  first_rank ← dbc_u t row TALENT_RANK;
  Ok (match _norm (default [] (dget first_rank names)) with
      | [] => idx
      | name => dset tab_id (push name row (default [] (dget tab_id idx))) idx
      end, cells).

Definition _load_talents : res talents :=
  names ← _load_spell_names;
  tab_dbc ← _open (lit "TalentTab.dbc") (Some TALENTTAB_FIELDS);
  tabs ← res_map (load_tab tab_dbc) (dbc_rows tab_dbc);
  t ← talent_dbc;
  '(idx, cells) ← res_fold (load_talent t names) ([], []) (dbc_rows t);
  Ok (Talents tabs idx cells).

(** The numbers of the talents that are alone in their cell. *)
Fixpoint alone (t : DBC) (users : list ((Z * Z) * Z)) (rows : list Z) : res (list Z) :=
  match rows with
  | [] => Ok []
  | row :: rows =>
      cell ← talent_cell t row;
      if default 0 (dget cell users) =? 1 then
        id ← dbc_u t row TALENT_ID; l ← alone t users rows; Ok (id :: l)
      else alone t users rows
  end.

Definition _tab_anchors (tl : talents) (t : DBC) (tab_id : Z) : res (list Z) :=
  let rows := concat (map snd (default [] (dget tab_id (tl_index tl)))) in
  anchors ← alone t (default [] (dget tab_id (tl_cells tl))) rows;
  Ok (sort_Z (match _dominant_span anchors with
              | None => anchors
              | Some (lo, hi) => filter (fun a => lo <= a <= hi) anchors
              end)).

(** How far the nearest anchor is. *)
Definition anchor_distance (anchors : list Z) (talent_id : Z) : res Z :=
  let at_ := bisect_left anchors talent_id in
  let right := match anchors !! at_ with Some a => [a - talent_id] | None => [] end in
  let left := match at_ with O => [] | S k => match anchors !! k with Some a => [talent_id - a] | None => [] end end in
  match right ++ left with
  | [] => Err ValueError
  | d :: ds => Ok (foldl Z.min d ds)
  end.

(** The first distance of a row whose first rank is another spell. *)
Fixpoint rival_of (t : DBC) (spell : Z) (ranked : list (Z * Z)) : res (option Z) :=
  match ranked with
  | [] => Ok None
  | (d, row) :: ranked =>
      s ← dbc_u t row TALENT_RANK; if s =? spell then rival_of t spell ranked else Ok (Some d)
  end.

Definition _live_tree_rows (tl : talents) (t : DBC) (tab_id : Z) (rows : list Z) : res (list Z) :=
  anchors ← _tab_anchors tl t tab_id;
  if (pylen anchors <? 2) || (pylen rows <? 2) then Ok rows
  else
    measured ← res_map (fun row => id ← dbc_u t row TALENT_ID; d ← anchor_distance anchors id; Ok (d, row)) rows;
    let ranked := py_sort pair_leb measured in
    match ranked with
    | [] => Err IndexError
    | (best, first) :: _ =>
        spell ← dbc_u t first TALENT_RANK;
        rival ← rival_of t spell ranked;
        Ok (match rival with
            | None => rows
            | Some rival =>
                if Z.max (best * 10) 1 <=? rival then map snd (filter (fun dr => fst dr = best) ranked) else rows
            end)
    end.

(** Every spell any rank teaches. *)
Definition dbc_talent_rank_spells : res (list Z) :=
  t ← talent_dbc;
  l ← res_map (fun row => res_map (fun offset => dbc_u t row (TALENT_RANK + offset)) (seqZ_from TALENT_MAX_RANK)) (dbc_rows t);
  Ok (spell_set (concat l)).

Definition tab_id_leb (a b : talent_tab) : bool := fst (fst (fst a)) <=? fst (fst (fst b)).

Definition talent_tabs_for_class (tl : talents) (class : Z) : res (list talent_tab) :=
  cmask ← class_mask class;
  Ok (py_sort tab_id_leb (filter (fun tab : talent_tab => Z.land (snd (fst tab)) cmask <> 0) (tl_tabs tl))).

(** The tab by name or by index, and whether it was the index. *)
Definition tab_of (tl : talents) (class : Z) (tab_name : pystr) (tab_index : Z) : res (Resolution * bool) :=
  tabs ← talent_tabs_for_class tl class;
  match tabs with
  | [] => Ok (unresolved NoTabs, false)
  | _ =>
      let named := match tab_name with
                   | [] => []
                   | _ => filter (fun tab : talent_tab => _norm (snd (fst (fst tab))) = _norm tab_name) tabs
                   end in
      Ok (match named with
          | [tab] => (resolved (fst (fst (fst tab))), false)
          | _ :: _ => (unresolved (AmbiguousTab tab_name), false)
          | [] =>
              match (if (1 <=? tab_index) && (tab_index <=? pylen tabs) then tabs !! Z.to_nat (tab_index - 1) else None) with
              | Some tab => (resolved (fst (fst (fst tab))), true)
              | None => (unresolved (NoTab tab_name tab_index (pylen tabs)), false)
              end
          end)
  end.

Definition dbc_resolve_talent_tab (class : Z) (tab_name : pystr) (tab_index : Z) : res (Resolution * bool) :=
  tl ← _load_talents; tab_of tl class tab_name tab_index.

(** The spells the rows teach at a rank, when there are several, narrowed to the
    drawn tree. *)
Definition narrow (tl : talents) (t : DBC) (tab_id : Z) (name : pystr) (rank : Z) (rows spells : list Z)
  : res (list Z * talent_note) :=
  if 1 <? pylen spells then
    live ← _live_tree_rows tl t tab_id rows;
    l ← res_map (fun row => dbc_u t row (TALENT_RANK + rank - 1)) live;
    Ok (match spell_set l with
        | [s] => ([s], TookLive name (pylen rows) s (take 4 (filter (fun x => x <> s) spells)))
        | _ => (spells, NoNote)
        end)
  else Ok (spells, NoNote).

Definition dbc_talent_spell (class : Z) (tab_name talent_name : pystr) (rank tab_index : Z) : res Resolution :=
  tl ← _load_talents;
  if rank <? 1 then Ok (unresolved RankZero)
  else if TALENT_MAX_RANK <? rank then Ok (unresolved (RankTooHigh rank))
  else
    '(tab, _) ← tab_of tl class tab_name tab_index;
    if negb (rs_ok tab) then Ok tab
    else
      match default [] (dget (_norm talent_name) (default [] (dget (rs_value tab) (tl_index tl)))) with
      | [] => Ok (unresolved (NoTalentNamed talent_name))
      | rows =>
          t ← talent_dbc;
          l ← res_map (fun row => dbc_u t row (TALENT_RANK + rank - 1)) rows;
          match spell_set l with
          | [] => Ok (unresolved (NoTalentRank talent_name rank))
          | spells =>
              '(spells, note) ← narrow tl t (rs_value tab) talent_name rank rows spells;
              Ok (match spells with
                  | [s] => MkResolution true s NoReason note
                  | _ => unresolved (AmbiguousTalent (pylen rows) talent_name rank (take 4 spells))
                  end)
          end
      end.

(** ** Classes *)

(** One row of ChrClasses: its token and its name both lead to it. *)
Definition load_class (t : DBC) (acc : list (pystr * list Z) * list (Z * pystr)) (row : Z)
  : res (list (pystr * list Z) * list (Z * pystr)) :=
  class ← dbc_u t row CHRCLASSES_ID;
  token ← dbc_s t row CHRCLASSES_TOKEN;
  name ← dbc_s t row CHRCLASSES_NAME;
  let put d key :=
    match _fold_token (JStr key) with
    | [] => d
    | folded => dset folded (set_add class (default [] (dget folded d))) d
    end in
  Ok (put (put (fst acc) token) name, dset class (match name with [] => token | _ => name end) (snd acc)).

Definition _load_classes : res (list (pystr * list Z) * list (Z * pystr)) :=
  match _open (lit "ChrClasses.dbc") None with
  | Err DbcError => Ok ([], [])
  | Err e => Err e
  | Ok t => if dbc_fields t <=? CHRCLASSES_TOKEN then Ok ([], []) else res_fold (load_class t) ([], []) (dbc_rows t)
  end.

Definition dbc_class_by_token (token : json) : res Resolution :=
  '(by_token, _) ← _load_classes;
  Ok (match _fold_token token with
      | [] => unresolved NoClassToken
      | folded =>
          match default [] (dget folded by_token) with
          | [] => unresolved (NoClassNamed token)
          | [id] => resolved id
          | found => unresolved (AmbiguousClass token (sort_Z found))
          end
      end).

Definition dbc_class_name (class : Z) : res pystr := '(_, names) ← _load_classes; Ok (default [] (dget class names)).

(** ** Glyphs *)

Definition glyph_by_spell (spell_id : Z) : res Resolution :=
  t ← _open (lit "GlyphProperties.dbc") (Some GLYPH_FIELDS);
  d ← res_fold (fun d row => s ← dbc_u t row GLYPH_SPELL_ID; id ← dbc_u t row GLYPH_ID; Ok (dset s id d)) [] (dbc_rows t);
  Ok (let found := default 0 (dget spell_id d) in if found =? 0 then unresolved NoGlyph else resolved found).

(** [known_spell_filter]: present and absent. *)
Fixpoint known_spell_filter (ids : list json) : res (list Z * list Z) :=
  match ids with
  | [] => Ok ([], [])
  | raw :: ids =>
      match py_int raw with
      | Err (TypeError | ValueError) => known_spell_filter ids
      | Err e => Err e
      | Ok spell =>
          b ← dbc_spell_exists spell;
          split ← known_spell_filter ids;
          Ok (if b : bool then (spell :: fst split, snd split) else (fst split, spell :: snd split))
      end
  end.

#[export] Instance dbc_resolvers : Resolvers | 100 := {|
  faction_by_name := dbc_faction_by_name;
  faction_base_rep := dbc_faction_base_rep;
  skill_by_name := dbc_skill_by_name;
  spell_exists := dbc_spell_exists;
  class_by_token := dbc_class_by_token;
  class_name := dbc_class_name;
  talent_rank_spells := dbc_talent_rank_spells;
  resolve_talent_tab := dbc_resolve_talent_tab;
  talent_spell := dbc_talent_spell;
|}.
End Dbc.

(** ** No name is guessed

    A talent resolves to the spell the target's own table gives its rank, in a
    tab of the class, and only when the table leaves no doubt; this is what the
    importer relies on. *)

Lemma spell_set_elem x l : x ∈ spell_set l <-> x ∈ l /\ x <> 0.
Proof.
  unfold spell_set. rewrite list_elem_of_filter. unfold sort_Z. rewrite py_sort_elem.
  assert (forall l s, x ∈ foldl (fun s y => set_add y s) s l <-> x ∈ s \/ x ∈ l) as ->; [|set_solver].
  clear. induction l as [|y l IH]; intros s; cbn; [set_solver|]. rewrite IH, set_add_elem. set_solver.
Qed.

Lemma dget_push' {K V} `{EqDecision K} (k k' : K) (v : V) d :
  default [] (dget k (push k' v d)) = if decide (k = k') then default [] (dget k d) ++ [v] else default [] (dget k d).
Proof. unfold push. rewrite dget_dset. by case_decide; subst. Qed.

Section DbcSpec.
Context `{Unicode} `{Casing} (repr_of : json -> pystr).
Variable isfile : pystr -> bool.
Variable contents : pystr -> res bytes.

(** ** The index of the talents *)

(** The rows filed under a tab and a name. *)
Definition filed_rows (idx : list (Z * list (pystr * list Z))) (tab : Z) (name : pystr) : list Z :=
  default [] (dget name (default [] (dget tab idx))).

(** A row is in the tab, and the spell of its first rank has the name. *)
Definition talent_row (t : DBC) (names : list (Z * pystr)) (row tab : Z) (name : pystr) : Prop :=
  dbc_u t row TALENT_TAB = Ok tab /\ exists first, dbc_u t row TALENT_RANK = Ok first
    /\ _norm (default [] (dget first names)) = name /\ name <> [].

Lemma load_talents_index t names rows : forall acc idx cells,
  res_fold (load_talent t names) acc rows = Ok (idx, cells) ->
  forall tab name row, row ∈ filed_rows idx tab name
    <-> row ∈ filed_rows (fst acc) tab name \/ (row ∈ rows /\ talent_row t names row tab name).
Proof.
  induction rows as [|r rows IH]; intros [idx0 cells0] idx cells E tab name row; cbn [res_fold] in E.
  { apply Ok_inj in E. injection E as <- <-. cbn. set_solver. }
  inv_bind E. rename v into acc1, E0 into Estep. rewrite (IH _ _ _ E). clear IH E. unfold load_talent in Estep.
  inv_bind Estep. rename v into tab0, E into Etab. inv_bind Estep. rename v into cell, E into Ecell.
  inv_bind Estep. rename v into first, E into Efirst. apply Ok_inj in Estep.
  assert (row ∈ filed_rows (fst acc1) tab name
    <-> row ∈ filed_rows idx0 tab name \/ (row = r /\ talent_row t names r tab name)) as ->; [|set_solver].
  subst acc1. cbn [fst]. assert (talent_row t names r tab name <-> tab = tab0 /\ _norm (default [] (dget first names)) = name /\ name <> []) as ->.
  { unfold talent_row. rewrite Etab, Efirst. split; [intros ([= ->] & f & [= ->] & ? & ?)|intros (-> & ? & ?)]; eauto. }
  destruct (_norm (default [] (dget first names))) as [|c cs] eqn:En; [naive_solver|].
  unfold filed_rows. rewrite dget_dset. case_decide as Ht; [|naive_solver]. subst tab. cbn [from_option id].
  rewrite dget_push'. case_decide as Hn; [subst name; rewrite elem_of_app, list_elem_of_singleton|]; naive_solver.
Qed.

Lemma load_talents_spec tl :
  _load_talents isfile contents = Ok tl ->
  exists t names, talent_dbc isfile contents = Ok t /\ _load_spell_names isfile contents = Ok names
    /\ forall tab name row, row ∈ filed_rows (tl_index tl) tab name <-> row ∈ dbc_rows t /\ talent_row t names row tab name.
Proof.
  unfold _load_talents. intros E. inv_bind E. rename v into names. inv_bind E. inv_bind E. inv_bind E. rename v1 into t.
  inv_bind E. destruct v1 as [idx cells]. apply Ok_inj in E. subst tl. exists t, names. split_and!; [done..|].
  intros tab name row. cbn [tl_index]. rewrite (load_talents_index _ _ _ _ _ _ E4). cbn. unfold filed_rows. cbn. set_solver.
Qed.

(** ** Narrowing *)

Lemma live_tree_rows_sub tl t tab rows l : _live_tree_rows tl t tab rows = Ok l -> forall row, row ∈ l -> row ∈ rows.
Proof.
  unfold _live_tree_rows. intros E. inv_bind E. destruct (_ || _); [apply Ok_inj in E; by subst l|].
  inv_bind E. rename v0 into measured, E1 into Em. destruct (py_sort pair_leb measured) as [|[best first] ranked] eqn:Er; [discriminate|].
  inv_bind E. inv_bind E. apply Ok_inj in E. subst l. destruct v1 as [rival|]; [|done].
  destruct (_ <=? _); [|done]. intros row (dr & -> & [_ Hin]%list_elem_of_filter)%list_elem_of_fmap.
  assert (dr ∈ measured) as Hm by (apply (py_sort_elem pair_leb); rewrite Er; exact Hin).
  apply res_map_Forall2 in Em. apply list_elem_of_lookup in Hm as [i Hi].
  destruct (Forall2_lookup_r _ _ _ _ _ Em Hi) as (row & Hrow & Hd). inv_bind Hd. inv_bind Hd. apply Ok_inj in Hd. subst dr.
  by eapply list_elem_of_lookup_2.
Qed.

Lemma res_map_in {A B} (f : A -> res B) l k : res_map f l = Ok k -> forall y, y ∈ k <-> exists x, x ∈ l /\ f x = Ok y.
Proof.
  intros E%res_map_Forall2 y. split.
  - intros [i Hi]%list_elem_of_lookup. destruct (Forall2_lookup_r _ _ _ _ _ E Hi) as (x & Hx & ?). exists x.
    split; [by eapply list_elem_of_lookup_2|done].
  - intros (x & [i Hi]%list_elem_of_lookup & Hf). destruct (Forall2_lookup_l _ _ _ _ _ E Hi) as (y' & Hy & Hf').
    rewrite Hf in Hf'. injection Hf' as <-. by eapply list_elem_of_lookup_2.
Qed.

(** The rank is taught by one of the rows; without a note, by all of them. *)
Lemma narrow_spec tl t tab name rank rows l spells note :
  res_map (fun row => dbc_u t row (TALENT_RANK + rank - 1)) rows = Ok l ->
  narrow tl t tab name rank rows (spell_set l) = Ok (spells, note) ->
  (forall x, x ∈ spells -> x ∈ spell_set l) /\ (note = NoNote -> spells = spell_set l).
Proof.
  intros El E. unfold narrow in E. destruct (1 <? _); [|apply Ok_inj in E; by injection E as <- <-].
  inv_bind E. rename v into live. inv_bind E. rename v into l'. apply Ok_inj in E.
  destruct (spell_set l') as [|s [|s2 ss]] eqn:Es; injection E as <- <-; [done| |done]. split; [|discriminate].
  intros x ->%list_elem_of_singleton. assert (s ∈ spell_set l') as Hs by (rewrite Es; by left).
  apply spell_set_elem in Hs as [Hs Hz]. apply spell_set_elem. split; [|done].
  apply (res_map_in _ _ _ E1) in Hs as (row & Hrow & Hf). apply (res_map_in _ _ _ El). exists row.
  split; [by eapply live_tree_rows_sub|done].
Qed.

Lemma tab_of_ok tl class name index tab pos :
  tab_of tl class name index = Ok (tab, pos) -> rs_ok tab = true ->
  exists tabs e, talent_tabs_for_class tl class = Ok tabs /\ e ∈ tabs /\ fst (fst (fst e)) = rs_value tab
    /\ if pos then tabs !! Z.to_nat (index - 1) = Some e /\ 1 <= index
       else _norm (snd (fst (fst e))) = _norm name /\ forall e', e' ∈ tabs -> _norm (snd (fst (fst e'))) = _norm name -> e' = e.
Proof.
  unfold tab_of. intros E Hok. inv_bind E. rename v into tabs. destruct tabs as [|t0 tabs0]; [apply Ok_inj in E; injection E as <- <-; discriminate|].
  remember (t0 :: tabs0) as tabs eqn:Eq. clear Eq. apply Ok_inj in E.
  set (named := match name with [] => [] | _ => _ end) in E. destruct named as [|e [|e2 named']] eqn:En.
  - destruct ((1 <=? index) && (index <=? pylen tabs)) eqn:Hb; [|injection E as <- <-; discriminate].
    destruct (tabs !! _) as [e|] eqn:Hl; [|injection E as <- <-; discriminate]. injection E as <- <-. zbool.
    exists tabs, e. split_and!; [done|by eapply list_elem_of_lookup_2|done|done|done].
  - injection E as <- <-. destruct name as [|c cs]; [discriminate|]. exists tabs, e.
    assert (forall x, x ∈ named <-> _norm (snd (fst (fst x))) = _norm (c :: cs) /\ x ∈ tabs) as Hf
      by (intros x; unfold named; by rewrite list_elem_of_filter).
    rewrite En in Hf. destruct (proj1 (Hf e) ltac:(by left)) as [? ?]. split_and!; try done.
    intros e' He' Hn. by apply list_elem_of_singleton, Hf.
  - injection E as <- <-. discriminate.
Qed.
(** ** What a resolution means *)

(** The rows of the target that could be meant: in the tab, with the name. *)
Definition meant (t : DBC) (names : list (Z * pystr)) (tab : Z) (name : pystr) (row : Z) : Prop :=
  row ∈ dbc_rows t /\ talent_row t names row tab (_norm name).

Lemma talent_spell_spec class tab_name name rank index r :
  dbc_talent_spell isfile contents class tab_name name rank index = Ok r -> rs_ok r = true ->
  1 <= rank <= 5 /\ rs_value r <> 0
  /\ exists tl t names tab pos,
       _load_talents isfile contents = Ok tl /\ talent_dbc isfile contents = Ok t
       /\ _load_spell_names isfile contents = Ok names /\ tab_of tl class tab_name index = Ok (tab, pos) /\ rs_ok tab = true
       /\ (exists row, meant t names (rs_value tab) name row /\ dbc_u t row (TALENT_RANK + rank - 1) = Ok (rs_value r))
       /\ (rs_note r = NoNote -> forall row, meant t names (rs_value tab) name row ->
             dbc_u t row (TALENT_RANK + rank - 1) = Ok 0 \/ dbc_u t row (TALENT_RANK + rank - 1) = Ok (rs_value r)).
Proof.
  unfold dbc_talent_spell. intros E Hok. inv_bind E. rename v into tl, E0 into Etl.
  destruct (rank <? 1) eqn:H1'; [apply Ok_inj in E; subst r; discriminate|].
  destruct (TALENT_MAX_RANK <? rank) eqn:H5'; [apply Ok_inj in E; subst r; discriminate|].
  inv_bind E. destruct v as [tab pos]. rename E0 into Etab. destruct (rs_ok tab) eqn:Htab; cbn [negb] in E;
    [|apply Ok_inj in E; subst r; congruence].
  destruct (load_talents_spec _ Etl) as (t & names & Et & En & Hidx).
  fold (filed_rows (tl_index tl) (rs_value tab) (_norm name)) in E.
  destruct (filed_rows _ _ _) as [|row0 rows0] eqn:Erows; [apply Ok_inj in E; subst r; discriminate|].
  assert (forall row, row ∈ row0 :: rows0 <-> meant t names (rs_value tab) name row) as Hmeant
    by (intros row; rewrite <- Erows; apply Hidx).
  remember (row0 :: rows0) as rows eqn:Eq. clear Eq Erows.
  rewrite Et in E. cbn [mbind res_bind] in E. inv_bind E. rename v into l, E0 into El.
  destruct (spell_set l) as [|s0 ss0] eqn:Es; [apply Ok_inj in E; subst r; discriminate|]. rewrite <- Es in E.
  inv_bind E. destruct v as [spells note]. rename E0 into Enarrow. apply narrow_spec in Enarrow as [Hsub Hnote]; [|done].
  destruct spells as [|s [|? ?]]; apply Ok_inj in E; subst r; [discriminate| |discriminate]. cbn [rs_value rs_note].
  pose proof (Hsub s ltac:(by left)) as [Hs Hnz]%spell_set_elem. zbool. unfold TALENT_MAX_RANK in *.
  split_and!; [lia..|done|]. exists tl, t, names, tab, pos. split_and!; [done..| |].
  - apply (res_map_in _ _ _ El) in Hs as (row & Hrow & Hf). exists row. split; [by apply Hmeant|done].
  - intros Hn row Hrow%Hmeant. specialize (Hnote Hn). destruct (res_map_elem _ _ _ _ El Hrow) as (v & Hv & Hf). rewrite Hf.
    destruct (decide (v = 0)) as [->|Hv0]; [by left|]. right.
    assert (v ∈ spell_set l) as Hin by (by apply spell_set_elem). rewrite <- Hnote in Hin. by apply list_elem_of_singleton in Hin as ->.
Qed.

(** C19: A talent is never guessed.  What resolves is the spell that the
    target's Talent.dbc teaches at this rank, of a talent in a tab of the class
    whose first rank has the captured name; and unless the plan is told which
    copy was taken, every talent of that name in the tab teaches that spell at
    this rank, or none. *)
Theorem talent_never_guessed class tab_name name rank index r :
  dbc_talent_spell isfile contents class tab_name name rank index = Ok r -> rs_ok r = true ->
  exists tl t names tab pos,
    _load_talents isfile contents = Ok tl /\ talent_dbc isfile contents = Ok t /\ _load_spell_names isfile contents = Ok names
    /\ (exists tabs e, talent_tabs_for_class tl class = Ok tabs /\ e ∈ tabs /\ fst (fst (fst e)) = tab
          /\ if pos : bool then tabs !! Z.to_nat (index - 1) = Some e /\ 1 <= index
             else _norm (snd (fst (fst e))) = _norm tab_name
                  /\ forall e', e' ∈ tabs -> _norm (snd (fst (fst e'))) = _norm tab_name -> e' = e)
    /\ 1 <= rank <= 5 /\ rs_value r <> 0
    /\ (exists row, meant t names tab name row /\ dbc_u t row (TALENT_RANK + rank - 1) = Ok (rs_value r))
    /\ (rs_note r = NoNote -> forall row, meant t names tab name row ->
          dbc_u t row (TALENT_RANK + rank - 1) = Ok 0 \/ dbc_u t row (TALENT_RANK + rank - 1) = Ok (rs_value r)).
Proof.
  intros E Hok. destruct (talent_spell_spec _ _ _ _ _ _ E Hok) as (Hr & Hz & tl & t & names & tab & pos & Htl & Ht & Hn & Htab & Hto & Hrow & Huni).
  exists tl, t, names, (rs_value tab), pos. split_and!; [done|done|done|exact (tab_of_ok _ _ _ _ _ _ Htab Hto)|lia|lia|done|done|done].
Qed.

(** ** The interface *)

#[export] Instance dbc_resolvers_ok : ResolversOk (dbc_resolvers repr_of isfile contents).
Proof.
  split.
  - intros c tab name rank index r spells E Hok Hsp. cbn in E, Hsp.
    destruct (talent_spell_spec _ _ _ _ _ _ E Hok) as (Hr & Hz & tl & t & names & tb & pos & _ & Ht & _ & _ & _ & (row & [Hrow _] & Hu) & _).
    unfold dbc_talent_rank_spells in Hsp. rewrite Ht in Hsp. cbn [mbind res_bind] in Hsp. inv_bind Hsp. rename v into l.
    apply Ok_inj in Hsp. subst spells. apply spell_set_elem. split; [|done].
    destruct (res_map_elem _ _ _ _ E0 Hrow) as (ranks & Hranks & Hf). apply list_elem_of_In, in_concat. exists ranks.
    split; [by apply list_elem_of_In|]. apply list_elem_of_In, (res_map_in _ _ _ Hf). exists (rank - 1). split.
    + unfold seqZ_from, TALENT_MAX_RANK. apply list_elem_of_fmap. exists (Z.to_nat (rank - 1)). split; [lia|]. apply elem_of_seq. lia.
    + rewrite <- Hu. f_equal. lia.
  - intros c tab name rank index r E Hok. cbn in E. by destruct (talent_spell_spec _ _ _ _ _ _ E Hok) as (Hr & _).
Qed.
End DbcSpec.
