(* ===== verification/BmsPlan.v ===== *)
(** * The plan of an import and the schema it must fit (character-importer/bms_import.py)

    A plan is the rows an import will write, by table, with what it leaves out
    and what it tells the player.  The texts of the skips and notes are the data
    they are made of.  The database is an interface: one operation per SELECT
    of the code, and the statements of a transaction; the schema of a table is
    what information_schema says of its columns. *)
From S2P Require Import Prelude Wire PyFloat Text Format Json BmsMap BmsEquip BmsCoa BmsDbc.

(** A row: column -> value. *)
Abbreviation row := (list (pystr * json)) (only parsing).

(** ** Skips and notes *)

(** [row.get("Type") or label], and the given name or the entry's number. *)
Record purchase := Purchase { pu_type : json; pu_name : pystr; pu_entry : json }.

Inductive why_button := OutsideBar | MacroButton | UnsupportedKind (kind : pystr) | NoAction.

Inductive Skip :=
  | SkTitles (known : json)
  | SkItem (name : json) (e : map_error)
  | SkUnknownItem (name : json) (item : Z)
  | SkSpell (spell : Z)
  | SkMystic (count : Z)
  | SkTalent (tab name : pystr) (rank : Z) (why : reason)
  | SkHeldBack (tab name : pystr) (rank : Z)
  | SkMismatch (what : purchase) (why : mismatch_reason)
  | SkNoSpell (what : purchase)
  | SkPurchaseSpell (what : purchase) (spell : Z)
  | SkSkill (name : pystr) (why : reason)
  | SkReputation (name : pystr) (why : reason)
  | SkButton (slot : Z) (kind : json) (why : why_button)
  | SkQuest (title : json) (quest : Z)
  | SkQuestDone (quest : Z)
  | SkAchievements (count : Z)
  | SkSpec (spec class : Z) (known : list Z)
  | SkSection (section : pystr) (value : json).

Inductive note :=
  | NtSpawn (map zone bind : json)
  | NtAppearance
  | NtTabByPosition (tab : pystr) (index : Z)
  | NtTalentsRebuild (points : Z)
  | NtTalentsNot (failed captured points resolved : Z)
  | NtTalent (tab : pystr) (n : talent_note)
  | NtHeldBack (count : Z) (spells : list json)
  | NtPartial (landed captured landed_points points : Z)
  | NtRaised (what : purchase) (short : Z) (talent : bool) (rank : Z)
  | NtShortfall (target : Z) (talent : bool) (spent movable short : Z)
  | NtAdvancement (restored taught added : Z)
  | NtNotWorn (name : json) (item slot : Z) (why : refusal) (backpack : option Z)
  | NtHomeless (count : Z) (spilled : bool)
  | NtSynthesised (entry : Z) (name : json)
  | NtQuestCounters
  | NtSpecRestored (spec : Z)
  | NtStarterKit
  | NtStarterMarked.

(** ** The plan *)

Record Plan := MkPlan {
  pl_account : json; pl_guid : Z; pl_name : pystr; pl_renamed : bool;
  pl_rows : list (pystr * list row); pl_skips : list Skip; pl_notes : list note }.

Definition empty_plan : Plan := MkPlan (JInt 0) 0 [] false [] [] [].

(** [plan.rows.get(table, [])]. *)
Definition rows_of (table : string) (p : Plan) : list row := default [] (dget (lit table) (pl_rows p)).

Definition with_rows (rows : list (pystr * list row)) (p : Plan) : Plan :=
  MkPlan (pl_account p) (pl_guid p) (pl_name p) (pl_renamed p) rows (pl_skips p) (pl_notes p).

Definition add (table : string) (r : row) (p : Plan) : Plan := with_rows (push (lit table) r (pl_rows p)) p.

(** [plan.rows[table] = rows]. *)
Definition set_rows (table : string) (rs : list row) (p : Plan) : Plan := with_rows (dset (lit table) rs (pl_rows p)) p.

Definition add_skip (s : Skip) (p : Plan) : Plan :=
  MkPlan (pl_account p) (pl_guid p) (pl_name p) (pl_renamed p) (pl_rows p) (pl_skips p ++ [s]) (pl_notes p).

Definition add_note (n : note) (p : Plan) : Plan :=
  MkPlan (pl_account p) (pl_guid p) (pl_name p) (pl_renamed p) (pl_rows p) (pl_skips p) (pl_notes p ++ [n]).

Definition mkrow (l : list (string * json)) : row := map (fun cv => (lit (fst cv), snd cv)) l.

Definition count (table : string) (p : Plan) : Z := pylen (rows_of table p).

(** ** The schema of a table *)

(** A row of information_schema.COLUMNS. *)
Record column := Column {
  cm_nullable : pystr; cm_default : option pystr; cm_data_type : pystr; cm_extra : option pystr; cm_type : pystr;
  cm_length : option Z }.

Abbreviation schema := (list (pystr * column)) (only parsing).

Definition INT_RANGES : list (pystr * (Z * Z * Z)) :=
  [(lit "tinyint", (-128, 127, 255)); (lit "smallint", (-32768, 32767, 65535));
   (lit "mediumint", (-8388608, 8388607, 16777215)); (lit "int", (-2147483648, 2147483647, 4294967295));
   (lit "bigint", (-9223372036854775808, 9223372036854775807, 18446744073709551615))].

Definition TEXT_LIKE : list pystr :=
  map lit ["char"; "varchar"; "text"; "tinytext"; "mediumtext"; "longtext"; "blob"; "binary"; "varbinary"; "json"]%string.

(** [t in s]. *)
Fixpoint contains (t s : pystr) : bool :=
  bool_decide (t = take (length t) s) || match s with [] => false | _ :: s => contains t s end.

Section Schema.
Context `{Unicode}.

Definition column_limits (m : column) : option (Z * Z) :=
  match dget (uni_lower (cm_data_type m)) INT_RANGES with
  | None => None
  | Some (low, high, unsigned_high) =>
      Some (if contains (lit "unsigned") (uni_lower (cm_type m)) then (0, unsigned_high) else (low, high))
  end.

Definition value_fits (m : column) (v : json) : bool :=
  match v with
  | JInt n => match column_limits m with Some (low, high) => (low <=? n) && (n <=? high) | None => true end
  | JStr s => match cm_length m with Some n => (n =? 0) || (pylen s <=? n) | None => true end
  | _ => true
  end.

(** A column an INSERT must give. *)
Definition required (m : column) : bool :=
  negb (bool_decide (cm_nullable m = lit "YES")) && match cm_default m with None => true | Some _ => false end
  && negb (contains (lit "auto_increment") (default [] (cm_extra m))).

Definition neutral (m : column) : json := if bool_decide (cm_data_type m ∈ TEXT_LIKE) then JStr [] else JInt 0.

Definition fill_required_columns (columns : schema) (r : row) : row :=
  foldl (fun complete nm =>
    if dmem (fst nm) complete then complete
    else if required (snd nm) then dset (fst nm) (neutral (snd nm)) complete else complete) r columns.

(** ** Checking a plan against the schema *)

Inductive problem :=
  | NoTable (table : string) | NoColumns (table : string) (names : list pystr)
  | Unfilled (table : string) (names : list pystr) | Oversized (table : string) (name : pystr) (v : json).

(** The columns of the rows the table lacks, in order of arrival. *)
Definition unknown_columns (columns : schema) (rows : list row) : list pystr :=
  foldl (fun s (r : row) => foldl (fun s c => if dmem c columns then s else set_add c s) s (dkeys r)) [] rows.

(** The first value of each column that does not fit. *)
Definition oversized (columns : schema) (rows : list row) : list (pystr * json) :=
  foldl (fun d (r : row) =>
    foldl (fun d nv =>
      match dget (fst nv) columns with
      | Some m => if value_fits m (snd nv) then d else snd (dsetdefault (fst nv) (snd nv) d)
      | None => d
      end) d r) [] rows.

(** The condition of the code asks IS_NULLABLE for "NO". *)
Definition unfilled_columns (columns : schema) (rows : list row) : list pystr :=
  foldl (fun s (r : row) =>
    let complete := fill_required_columns columns r in
    foldl (fun s nm =>
      if negb (dmem (fst nm) complete) && bool_decide (cm_nullable (snd nm) = lit "NO")
         && match cm_default (snd nm) with None => true | Some _ => false end
         && negb (contains (lit "auto_increment") (default [] (cm_extra (snd nm))))
      then set_add (fst nm) s else s) s columns) [] rows.

Definition table_problems (table : string) (columns : schema) (rows : list row) : list problem :=
  match columns with
  | [] => [NoTable table]
  | _ =>
      let sorted := py_sort str_leb in
      match unknown_columns columns rows with [] => [] | l => [NoColumns table (sorted l)] end
      ++ match unfilled_columns columns rows with [] => [] | l => [Unfilled table (sorted l)] end
      ++ (let over := oversized columns rows in
          map (fun c => Oversized table c (default JNull (dget c over))) (sorted (dkeys over)))
  end.
End Schema.

Definition WRITE_ORDER : list string :=
  ["item_template"; "characters"; "character_homebind"; "item_instance"; "character_inventory"; "mail"; "mail_items";
   "character_spell"; "character_talent"; "character_skills"; "character_reputation"; "character_action";
   "character_queststatus"; "character_queststatus_rewarded"; "character_achievement"; "character_settings"]%string.

Definition is_world_table (table : string) : bool := bool_decide (lit table = lit "item_template").

(** ** The database *)

(** What the importer reads. *)
Class Database := {
  accounts_named : list pystr -> res (list row);            (* SELECT id FROM account WHERE username IN *)
  character_names : res (list row);                         (* SELECT name FROM characters *)
  max_guid : string -> res (list row);                      (* SELECT MAX(guid) FROM a table *)
  max_mail_id : res (list row);                             (* SELECT MAX(id) FROM mail *)
  create_info : Z -> Z -> res (list row);                   (* SELECT FROM playercreateinfo WHERE race, class *)
  equipment_caches : res (list pystr);                      (* SELECT equipmentCache FROM characters LIMIT 50 *)
  item_templates : list Z -> res (list row);                (* SELECT * FROM item_template WHERE entry IN *)
  quests_known : list Z -> res (list row);                  (* SELECT ID FROM quest_template WHERE ID IN *)
  table_columns : bool -> string -> res schema;             (* information_schema of the world or the characters *)
  online_count : res (list row);                            (* SELECT COUNT( * ) FROM characters WHERE online <> 0 *)
  schema_rows : string -> res (list row);                   (* information_schema.SCHEMATA of one of the three schemas *)
  account_named : pystr -> res (list row);                  (* SELECT id, username FROM account WHERE username= *)
  realm_rows : res (list row);                              (* SELECT FROM realmlist *)
}.

(** [scalar]: the first value of the first row. *)
Definition scalar (rows : list row) (dflt : json) : res json :=
  match rows with
  | [] => Ok dflt
  | [] :: _ => Err RuntimeError
  | ((_, v) :: _) :: _ => Ok (match v with JNull => dflt | _ => v end)
  end.

(** The command line, as far as it shapes the plan. *)
Inductive talents_mode := Auto | Import | Rebuild.

Record Args := MkArgs {
  ar_account : pystr; ar_name : option pystr; ar_synthesize : bool; ar_talents : talents_mode;
  ar_catalogue : option Catalogue; ar_starter_kit : bool; ar_allow_online : bool; ar_apply : bool; ar_rehearse : bool }.

(** ** Rows of a plan

    What adding to a plan does to the rows of each table, and the cells of a
    column. *)

Lemma dget_push {K V} `{EqDecision K} (k k' : K) (v : V) d :
  dget k (push k' v d) = if decide (k = k') then Some (default [] (dget k d) ++ [v]) else dget k d.
Proof. unfold push. rewrite dget_dset. by case_decide; subst. Qed.

Lemma rows_of_add_eq t r p : rows_of t (add t r p) = rows_of t p ++ [r].
Proof. unfold rows_of, add, with_rows. cbn. by rewrite dget_push, decide_True. Qed.

Lemma rows_of_add_ne t t' r p : lit t <> lit t' -> rows_of t (add t' r p) = rows_of t p.
Proof. intros Hne. unfold rows_of, add, with_rows. cbn. by rewrite dget_push, decide_False. Qed.

Lemma rows_of_set_eq t rs p : rows_of t (set_rows t rs p) = rs.
Proof. unfold rows_of, set_rows, with_rows. cbn. by rewrite dget_dset_eq. Qed.

Lemma rows_of_set_ne t t' rs p : lit t <> lit t' -> rows_of t (set_rows t' rs p) = rows_of t p.
Proof. intros Hne. unfold rows_of, set_rows, with_rows. cbn. by rewrite dget_dset_ne. Qed.

Lemma rows_of_skip t s p : rows_of t (add_skip s p) = rows_of t p.
Proof. done. Qed.

Lemma rows_of_note t n p : rows_of t (add_note n p) = rows_of t p.
Proof. done. Qed.

Create Rewrite HintDb plan_rows.
#[export] Hint Rewrite rows_of_add_eq rows_of_set_eq rows_of_skip rows_of_note : plan_rows.

(** Rows of one table are not touched by writing another. *)
Ltac other_table := let E := fresh in intros E; vm_compute in E; discriminate E.
Ltac plan_rows :=
  repeat first [ progress autorewrite with plan_rows
               | rewrite rows_of_add_ne by other_table
               | rewrite rows_of_set_ne by other_table ].

(** The integers of a column. *)
Definition cell_of (c : string) (r : list (pystr * json)) : option Z :=
  match jval r c with JInt n => Some n | _ => None end.

Definition cells (t c : string) (p : Plan) : list Z := omap (M:=list) (cell_of c) (rows_of t p).

Lemma cells_add_eq t c r p : cells t c (add t r p) = cells t c p ++ omap (M:=list) (cell_of c) [r].
Proof. unfold cells. by rewrite rows_of_add_eq, omap_app. Qed.

Lemma cells_add_ne t t' c r p : lit t <> lit t' -> cells t c (add t' r p) = cells t c p.
Proof. intros. unfold cells. by rewrite rows_of_add_ne. Qed.

(** The steps of a fold that only write some tables leave the others. *)
Lemma foldl_rows {A} t (f : Plan -> A -> Plan) l p :
  (forall p a, rows_of t (f p a) = rows_of t p) -> rows_of t (foldl f p l) = rows_of t p.
Proof. intros Hf. revert p. induction l as [|a l IH]; intros p; [done|]. cbn. by rewrite IH, Hf. Qed.

Lemma res_fold_rows {A} t (f : Plan -> A -> res Plan) l p p' :
  (forall p a p', f p a = Ok p' -> rows_of t p' = rows_of t p) -> res_fold f p l = Ok p' -> rows_of t p' = rows_of t p.
Proof.
  intros Hf. apply (res_fold_keeps (fun q => rows_of t q = rows_of t p)); [|done].
  intros x y a _ Hx Hy. by rewrite (Hf _ _ _ Hy).
Qed.

(** A set grown by a list of elements. *)
Lemma foldl_set_add {A} `{EqDecision A} (x : A) l : forall s, x ∈ foldl (fun s y => set_add y s) s l <-> x ∈ s \/ x ∈ l.
Proof.
  induction l as [|y l IH]; intros s; cbn; [set_solver|]. rewrite IH, set_add_elem. set_solver.
Qed.
