(* ===== verification/BmsItems.v ===== *)
(** * The belongings of a character (character-importer/bms_import.py)

    Each captured item becomes a row of item_instance, and a row of
    character_inventory where it fits; what the character cannot wear yet and
    what lay in a bag goes to free slots of the backpack, then into the mail.
    A record of the checkpoint is known by its place among the captured items,
    as the code knows it by identity. *)
From S2P Require Import Prelude Wire PyFloat Text Format Json BmsMap BmsEquip BmsCoa BmsDbc BmsPlan.

Definition TAXIMASK_SIZE : nat := 14.
Definition EXPLORED_ZONES_SIZE : nat := 128.
Definition KNOWN_TITLES_WORDS : nat := 6.
Definition EQUIPMENT_CACHE_SIZE : Z := 38.
Definition EQUIPMENT_CACHE_MAX : Z := 128.
Definition MAIL_NORMAL : Z := 0.
Definition MAIL_STATIONERY_GM : Z := 61.
Definition MAIL_CHECK_MASK_HAS_BODY : Z := 16.
Definition MAIL_ITEMS_PER_MESSAGE : nat := 12.
Definition MAIL_EXPIRY_DAYS : Z := 90.

Definition MAIL_BODY : pystr :=
  lit "These items could not be placed on your character when it was restored: they were inside bags that could not be recovered, or they are gear your character cannot wear yet. They were sent to you instead.".

(** A record, by its place. *)
Record captured := Captured { cp_id : nat; cp_record : list (pystr * json); cp_fields : item_fields }.

Section Items.
Context `{Unicode} `{Casing} `{Database} (repr_of : json -> pystr) (clock : Z).

(** [record.get("name") or "?"]. *)
Definition shown_name (record : list (pystr * json)) : json := or_else (jval record "name") (JStr [63]).

(** ** What was captured *)

(** Each record that has an item, and a skip for each that has none. *)
Fixpoint read_items (i : nat) (records : list json) (p : Plan) : res (list captured * Plan) :=
  match records with
  | [] => Ok ([], p)
  | JDict record :: records =>
      match parse_item_fields record with
      | inl e => read_items (S i) records (add_skip (SkItem (shown_name record) e) p)
      | inr fields => lp ← read_items (S i) records p; Ok (Captured i record fields :: fst lp, snd lp)
      end
  | _ :: _ => Err AttributeError
  end.

(** [record["durability"][key]], unless the addon captured none. *)
Definition _captured_durability (record : list (pystr * json)) (key : string) : res (option Z) :=
  match jval record "durability" with
  | JDict captured =>
      match jval captured key with
      | JNull => Ok None
      | v => match py_int v with
             | Ok n => Ok (Some (Z.max 0 n))
             | Err (TypeError | ValueError) => Ok None
             | Err e => Err e
             end
      end
  | _ => Ok None
  end.

Definition _durability (record : list (pystr * json)) (max_durability : Z) : res Z :=
  current ← _captured_durability record "current";
  Ok (match current with None => max_durability | Some c => Z.min c max_durability end).

(** ** The templates of the target *)

Record templates := Templates {
  tp_known : list Z; tp_rows : list (Z * list (pystr * json)); tp_durability : list (Z * Z) }.

(** The entry of a template is a number. *)
Definition add_template (t : templates) (r : list (pystr * json)) : res templates :=
  entry ← jitem (JDict r) (lit "entry");
  match entry with
  | JInt entry =>
      d ← int_or (jval r "MaxDurability") 0;
      Ok (Templates (set_add entry (tp_known t)) (dset entry r (tp_rows t)) (dset entry (Z.max 0 d) (tp_durability t)))
  | _ => Err TypeError
  end.

(** [max(0, int(record.get(k) or 0))]. *)
Definition at_least_0 (record : list (pystr * json)) (k : string) : res Z := n ← int_or (jval record k) 0; Ok (Z.max 0 n).

(** The placeholder for an entry: the last record that asks for it describes it. *)
Definition synthetic_row (columns : list (pystr * column)) (entry : Z) (record : list (pystr * json))
  : res (list (pystr * json)) :=
  let name := if py_truthy (jval record "name") then py_str repr_of (jval record "name")
              else lit "Imported item " ++ str_of_Z entry in
  quality ← at_least_0 record "quality";
  item_level ← at_least_0 record "itemLevel";
  required_level ← at_least_0 record "requiredLevel";
  durability ← _captured_durability record "maximum";
  Ok (fill_required_columns columns (mkrow
    [("entry", JInt entry); ("name", JStr (take 255 name)); ("Quality", JInt quality); ("ItemLevel", JInt item_level);
     ("RequiredLevel", JInt required_level); ("stackable", JInt 1); ("maxcount", JInt 0);
     ("MaxDurability", JInt (default 0 durability))]%string)).

(** [{f.item_id: (r, f) for r, f in parsed}]. *)
Definition by_item (parsed : list captured) : list (Z * captured) :=
  foldl (fun d c => dset (if_item (cp_fields c)) c d) [] parsed.

Definition synthesise (columns : list (pystr * column)) (by_id : list (Z * captured)) (p : Plan) (entry : Z) : res Plan :=
  c ← res_of_option KeyError (dget entry by_id);
  r ← synthetic_row columns entry (cp_record c);
  Ok (add_note (NtSynthesised entry (jval (cp_record c) "name")) (add "item_template" r p)).

Definition _plan_synthetic_items (parsed : list captured) (missing : list Z) (p : Plan) : res Plan :=
  columns ← table_columns true "item_template";
  res_fold (synthesise columns (by_item parsed)) p (sort_Z missing).

(** [templates.setdefault(row["entry"], row)] for each placeholder. *)
Definition default_template (d : list (Z * list (pystr * json))) (r : list (pystr * json))
  : res (list (Z * list (pystr * json))) :=
  entry ← jitem (JDict r) (lit "entry");
  match entry with JInt entry => Ok (snd (dsetdefault entry r d)) | _ => Err TypeError end.

Definition set_durability (missing : list Z) (d : list (Z * Z)) (c : captured) : res (list (Z * Z)) :=
  let item := if_item (cp_fields c) in
  if bool_decide (item ∈ missing) then
    m ← _captured_durability (cp_record c) "maximum"; Ok (dset item (default 0 m) d)
  else Ok d.

(** What the target knows of the wanted items, with placeholders for the rest
    on demand. *)
Definition known_items (synthesize : bool) (parsed : list captured) (p : Plan) : res (templates * Plan) :=
  let wanted := foldl (fun s c => set_add (if_item (cp_fields c)) s) [] parsed in
  rows ← (match wanted with [] => Ok [] | _ => item_templates (sort_Z wanted) end);
  t ← res_fold add_template (Templates [] [] []) rows;
  let missing := filter (fun e => e ∉ tp_known t) wanted in
  if synthesize && negb (bool_decide (missing = [])) then
    p ← _plan_synthetic_items parsed missing p;
    trows ← res_fold default_template (tp_rows t) (rows_of "item_template" p);
    d ← res_fold (set_durability missing) (tp_durability t) parsed;
    Ok (Templates (foldl (fun s e => set_add e s) (tp_known t) missing) trows d, p)
  else Ok (t, p).

(** ** Places *)

(** The first pass: an item stays where it was, cannot be worn, or has no
    container any more. *)
Record placing := Placing {
  pc_used : list Z; pc_placed : list (captured * option Z); pc_unwearable : list (captured * Z * refusal);
  pc_homeless : list captured; pc_plan : Plan }.

Definition place_at (c : captured) (slot : Z) (s : placing) : placing :=
  Placing (set_add slot (pc_used s)) (pc_placed s ++ [(c, Some slot)]) (pc_unwearable s) (pc_homeless s) (pc_plan s).

Definition place_skip (sk : Skip) (s : placing) : placing :=
  Placing (pc_used s) (pc_placed s) (pc_unwearable s) (pc_homeless s) (add_skip sk (pc_plan s)).

Definition is_equipped (record : list (pystr * json)) : bool :=
  match jval record "location" with JStr s => bool_decide (s = lit "equipped") | _ => false end.

Definition place_one (t : templates) (wearer : option Wearer) (s : placing) (c : captured) : res placing :=
  let record := cp_record c in
  let item := if_item (cp_fields c) in
  if bool_decide (item ∉ tp_known t) then Ok (place_skip (SkUnknownItem (shown_name record) item) s)
  else if is_equipped record then
    match equipped_db_slot (jval record "slotId") with
    | inl e => Ok (place_skip (SkItem (shown_name record) e) s)
    | inr slot =>
        refused ← (match wearer with
                   | Some w => equip_refusal (default [] (dget item (tp_rows t))) slot w
                   | None => Ok None
                   end);
        Ok (match refused with
            | Some why => Placing (pc_used s) (pc_placed s) (pc_unwearable s ++ [(c, slot, why)]) (pc_homeless s) (pc_plan s)
            | None => place_at c slot s
            end)
    end
  else
    match split_bag_placement record with
    | inl e => Ok (place_skip (SkItem (shown_name record) e) s)
    | inr (container, slot) =>
        Ok (if container =? 0 then place_at c slot s
            else Placing (pc_used s) (pc_placed s) (pc_unwearable s) (pc_homeless s ++ [c]) (pc_plan s))
    end.

Definition free_backpack (used : list Z) : list Z :=
  filter (fun s => s ∉ used)
    (map (fun k => INVENTORY_SLOT_ITEM_START + k) (seqZ_from (INVENTORY_SLOT_ITEM_END - INVENTORY_SLOT_ITEM_START))).

(** The second pass: the next free slot while there is one. *)
Fixpoint relocate (cs : list captured) (free : list Z) : list (captured * option Z) :=
  match cs with
  | [] => []
  | c :: cs => match free with
               | slot :: free => (c, Some slot) :: relocate cs free
               | [] => (c, None) :: relocate cs []
               end
  end.

(** [landed[id(record)]]. *)
Definition landed_at (moved : list (captured * option Z)) (c : captured) : option Z :=
  match list_find (fun m => cp_id (fst m) = cp_id c) moved with Some (_, m) => snd m | None => None end.

(** ** Rows *)

Definition instance_row (p : Plan) (guid : Z) (c : captured) (max_durability : Z) : res (list (pystr * json)) :=
  stack ← int_or (jval (cp_record c) "stackCount") 1;
  durability ← _durability (cp_record c) max_durability;
  Ok (mkrow
    [("guid", JInt guid); ("itemEntry", JInt (if_item (cp_fields c))); ("owner_guid", JInt (pl_guid p));
     ("creatorGuid", JInt 0); ("giftCreatorGuid", JInt 0); ("count", JInt (Z.max 1 stack)); ("duration", JInt 0);
     ("charges", JStr (lit "0 0 0 0 0")); ("flags", JInt 0); ("enchantments", JStr (enchantments_blob (cp_fields c)));
     ("randomPropertyId", JInt (if_suffix (cp_fields c))); ("durability", JInt durability); ("playedTime", JInt 0);
     ("text", JStr [])]%string).

Definition inventory_row (p : Plan) (slot guid : Z) : list (pystr * json) :=
  mkrow [("guid", JInt (pl_guid p)); ("bag", JInt 0); ("slot", JInt slot); ("item", JInt guid)]%string.

(** The rows of the placements in order; the guids of those without a slot
    are what the code leaves in [record["_mail_guid"]]. *)
Fixpoint write_items (t : templates) (placed : list (captured * option Z)) (guid : Z) (p : Plan)
  : res (Plan * Z * list (nat * Z)) :=
  match placed with
  | [] => Ok (p, guid, [])
  | (c, slot) :: placed =>
      r ← instance_row p guid c (default 0 (dget (if_item (cp_fields c)) (tp_durability t)));
      let p := add "item_instance" r p in
      match slot with
      | Some slot => write_items t placed (guid + 1) (add "character_inventory" (inventory_row p slot guid) p)
      | None =>
          w ← write_items t placed (guid + 1) p;
          Ok (fst w, (cp_id c, guid) :: snd w)
      end
  end.

Definition mail_row (p : Plan) (mail_id : Z) : list (pystr * json) :=
  mkrow
    [("id", JInt mail_id); ("messageType", JInt MAIL_NORMAL); ("stationery", JInt MAIL_STATIONERY_GM);
     ("mailTemplateId", JInt 0); ("sender", JInt 0); ("receiver", JInt (pl_guid p));
     ("subject", JStr (lit "Restored belongings")); ("body", JStr MAIL_BODY); ("has_items", JInt 1);
     ("expire_time", JInt (clock + MAIL_EXPIRY_DAYS * 86400)); ("deliver_time", JInt clock); ("money", JInt 0);
     ("cod", JInt 0); ("checked", JInt MAIL_CHECK_MASK_HAS_BODY)]%string.

Definition mail_item_row (p : Plan) (mail_id guid : Z) : list (pystr * json) :=
  mkrow [("mail_id", JInt mail_id); ("item_guid", JInt guid); ("receiver", JInt (pl_guid p))]%string.

Definition mail_item (guids : list (nat * Z)) (mail_id : Z) (p : Plan) (c : captured) : res Plan :=
  guid ← res_of_option KeyError (dget (cp_id c) guids);
  Ok (add "mail_items" (mail_item_row p mail_id guid) p).

(** A message for each twelve items. *)
Fixpoint _plan_mail (fuel : nat) (guids : list (nat * Z)) (mailed : list captured) (p : Plan) : res Plan :=
  match fuel, mailed with
  | _, [] => Ok p
  | O, _ => Err OutOfFuel
  | S fuel, _ =>
      let mail_id := count "mail" p + 1 in
      p ← res_fold (mail_item guids mail_id) (add "mail" (mail_row p mail_id) p) (take MAIL_ITEMS_PER_MESSAGE mailed);
      _plan_mail fuel guids (drop MAIL_ITEMS_PER_MESSAGE mailed) p
  end.

(** ** The whole *)

Definition not_worn_note (moved : list (captured * option Z)) (u : captured * Z * refusal) : note :=
  let '(c, slot, why) := u in
  NtNotWorn (shown_name (cp_record c)) (if_item (cp_fields c)) slot why
    (option_map (fun s => s - INVENTORY_SLOT_ITEM_START + 1) (landed_at moved c)).

(** The plan with the items, and the next free guid. *)
Definition _plan_items (synthesize : bool) (equipment bags : list json) (next_guid : Z) (wearer : option Wearer) (p : Plan)
  : res (Plan * Z) :=
  '(parsed, p) ← read_items 0 (equipment ++ bags) p;
  '(t, p) ← known_items synthesize parsed p;
  s ← res_fold (place_one t wearer) (Placing [] [] [] [] p) parsed;
  let moved := relocate (map (fun u => fst (fst u)) (pc_unwearable s) ++ pc_homeless s) (free_backpack (pc_used s)) in
  let p := foldl (fun p u => add_note (not_worn_note moved u) p) (pc_plan s) (pc_unwearable s) in
  let p := match pc_homeless s with
           | [] => p
           | l => add_note (NtHomeless (pylen l) (existsb (fun c => bool_decide (landed_at moved c = None)) l)) p
           end in
  '(p, guid, guids) ← write_items t (pc_placed s ++ moved) next_guid p;
  let mailed := omap (fun m => match snd m with None => Some (fst m) | Some _ => None end) moved in
  p ← _plan_mail (length mailed) guids mailed p;
  Ok (p, guid).

(** ** The look of the character *)

Definition blob (n : nat) : pystr := join [32] (replicate n (lit "0")).

(** How wide the target's caches are: the most common width, the wider of
    two. *)
Definition count_width (counts : list (Z * Z)) (cache : pystr) : list (Z * Z) :=
  let width := pylen (split_ws cache) in
  if (width mod 2 =? 0) && (EQUIPMENT_CACHE_SIZE <=? width) && (width <=? EQUIPMENT_CACHE_MAX) then
    dset width (default 0 (dget width counts) + 1) counts
  else counts.

Definition wider (best w : Z * Z) : Z * Z :=
  if (snd best <? snd w) || ((snd best =? snd w) && (fst best <? fst w)) then w else best.

Definition cache_width (caches : list pystr) : Z :=
  match foldl count_width [] caches with
  | [] => EQUIPMENT_CACHE_SIZE
  | w :: ws => fst (foldl wider w ws)
  end.

Definition equipment_cache_width : res Z := caches ← equipment_caches; Ok (cache_width caches).

(** [values[i] = v]. *)
Definition set_value (i v : Z) (l : list Z) : res (list Z) :=
  if (0 <=? i) && (i <? pylen l) then Ok (<[Z.to_nat i := v]> l) else Err IndexError.

(** The entry and the enchantment of an item row; field 0 of the blob. *)
Definition worn_pair (item : list (pystr * json)) : res (Z * Z) :=
  entry ← jitem (JDict item) (lit "itemEntry");
  entry ← py_int entry;
  let text := text_or repr_of (jval item "enchantments") [] in
  ench ← (match split_ws text with [] => Ok 0 | e :: _ => int_of_str e end);
  Ok (entry, ench).

Definition row_guid (r : list (pystr * json)) : res Z := v ← jitem (JDict r) (lit "guid"); py_int v.

(** [{row["guid"]: row for row in rows}]. *)
Definition by_guid (rows : list (list (pystr * json))) : res (list (Z * list (pystr * json))) :=
  res_fold (fun d r => g ← row_guid r; Ok (dset g r d)) [] rows.

Definition show_worn (items : list (Z * list (pystr * json))) (values : list Z) (r : list (pystr * json)) : res (list Z) :=
  slot ← jitem (JDict r) (lit "slot");
  slot ← py_int slot;
  if EQUIPMENT_SLOT_END <=? slot then Ok values
  else
    guid ← jitem (JDict r) (lit "item");
    guid ← py_int guid;
    match dget guid items with
    | None => Ok values
    | Some item =>
        '(entry, ench) ← worn_pair item;
        values ← set_value (slot * 2) entry values;
        set_value (slot * 2 + 1) ench values
    end.

Definition cache_values (p : Plan) (width : Z) : res (list Z) :=
  items ← by_guid (rows_of "item_instance" p);
  res_fold (show_worn items) (replicate (Z.to_nat width) 0) (rows_of "character_inventory" p).

Definition _equipment_cache (p : Plan) (width : Z) : res pystr :=
  values ← cache_values p width; Ok (join [32] (map str_of_Z values)).
End Items.
