(* ===== verification/BmsItemsSpec.v ===== *)
(** * No item is lost, doubled or put on another *)
From S2P Require Import Prelude Wire PyFloat Text Format Json BmsMap BmsEquip BmsCoa BmsDbc BmsPlan BmsItems.

Section Items.
Context `{Unicode} `{Casing} `{Database} (repr_of : json -> pystr) (clock : Z).

(** ** What was captured *)

Definition item_of (v : json) : option Z :=
  match v with JDict r => match parse_item_fields r with inr f => Some (if_item f) | inl _ => None end | _ => None end.

(** The place a record asks for on the character itself. *)
Definition asked_slot (r : list (pystr * json)) : option Z :=
  if is_equipped r then match equipped_db_slot (jval r "slotId") with inr s => Some s | inl _ => None end
  else match split_bag_placement r with inr (c, s) => if c =? 0 then Some s else None | inl _ => None end.

Definition asked (v : json) : option Z := match v with JDict r => asked_slot r | _ => None end.

Definition c_item (c : captured) : Z := if_item (cp_fields c).
Definition c_asked (c : captured) : option Z := asked_slot (cp_record c).

Definition same_but_skips (p p' : Plan) : Prop := pl_rows p' = pl_rows p /\ pl_guid p' = pl_guid p.

Lemma read_items_spec l : forall i p cs p',
  read_items i l p = Ok (cs, p') ->
  pylen l = pylen cs + (pylen (pl_skips p') - pylen (pl_skips p))
  /\ same_but_skips p p' /\ map c_item cs ⊆+ omap (M:=list) item_of l
  /\ sublist (omap (M:=list) c_asked cs) (omap (M:=list) asked l)
  /\ (forall c, c ∈ cs -> (i <= cp_id c)%nat /\ JDict (cp_record c) ∈ l) /\ NoDup (map cp_id cs).
Proof.
  induction l as [|v l IH]; intros i p cs p' E; cbn [read_items] in E.
  - injection E as <- <-. rewrite Z.sub_diag. split_and!; [done..| |constructor]. intros c Hc. by apply elem_of_nil in Hc.
  - destruct v as [| | | | | |r]; try discriminate.
    destruct (parse_item_fields r) as [e|f] eqn:Ef.
    + apply IH in E as (Hn & [Hr Hg] & Hi & Ha & Hc & Hd). split_and!.
      * cbn [add_skip pl_skips] in Hn. revert Hn. rewrite pylen_app, !pylen_cons, pylen_nil. lia.
      * done.
      * cbn. by rewrite Ef.
      * cbn. destruct (asked_slot r); [by apply sublist_cons|done].
      * intros c Hin. apply Hc in Hin as [? ?]. split; [lia|by right].
      * done.
    + inv_bind E. destruct v as [cs0 p0]. apply Ok_inj in E. injection E as <- <-. cbn [fst snd] in *.
      apply IH in E0 as (Hn & [Hr Hg] & Hi & Ha & Hc & Hd). split_and!.
      * rewrite !pylen_cons. lia.
      * done.
      * cbn. rewrite Ef. by apply submseteq_skip.
      * cbn. unfold c_asked at 1. cbn. destruct (asked_slot r); [by apply sublist_skip|done].
      * intros c [->|Hin]%elem_of_cons; [split; [done|by left]|]. apply Hc in Hin as [? ?]. split; [lia|by right].
      * cbn. apply NoDup_cons. split; [|done]. intros (c & Hid & Hin)%list_elem_of_fmap. apply Hc in Hin as [? _].
        cbn in Hid. lia.
Qed.
(** ** Places *)

(** An item in a worn slot passed the server's checks. *)
Definition worn_ok (t : templates) (wearer : option Wearer) (c : captured) (slot : Z) : Prop :=
  is_equipped (cp_record c) = true ->
  forall w, wearer = Some w -> equip_refusal (default [] (dget (c_item c) (tp_rows t))) slot w = Ok None.

Record placed_as (t : templates) (wearer : option Wearer) (s : placing) (cs : list captured) (s' : placing)
    (A : list (captured * option Z)) (U : list (captured * Z * refusal)) (L : list captured) : Prop := {
  pa_placed : pc_placed s' = pc_placed s ++ A;
  pa_unwearable : pc_unwearable s' = pc_unwearable s ++ U;
  pa_homeless : pc_homeless s' = pc_homeless s ++ L;
  pa_count : pylen cs = pylen A + pylen U + pylen L + (pylen (pl_skips (pc_plan s')) - pylen (pl_skips (pc_plan s)));
  pa_from : map fst A ++ map (fun u => fst (fst u)) U ++ L ⊆+ cs;
  pa_slots : sublist (omap (M:=list) snd A) (omap (M:=list) c_asked cs);
  pa_fit : forall c o, (c, o) ∈ A -> exists slot, o = Some slot /\ c_asked c = Some slot /\ slot ∈ pc_used s'
             /\ worn_ok t wearer c slot /\ c_item c ∈ tp_known t;
  pa_used : forall x, x ∈ pc_used s -> x ∈ pc_used s';
  pa_rows : same_but_skips (pc_plan s) (pc_plan s') }.

(** A step skips the item, puts it where it asks to be, or sets it aside. *)
Lemma place_one_cases t wearer s c s' :
  place_one t wearer s c = Ok s' ->
  (exists sk, s' = place_skip sk s)
  \/ (exists slot, s' = place_at c slot s /\ c_asked c = Some slot /\ worn_ok t wearer c slot /\ c_item c ∈ tp_known t)
  \/ (exists slot why, s' = Placing (pc_used s) (pc_placed s) (pc_unwearable s ++ [(c, slot, why)]) (pc_homeless s) (pc_plan s))
  \/ s' = Placing (pc_used s) (pc_placed s) (pc_unwearable s) (pc_homeless s ++ [c]) (pc_plan s).
Proof.
  unfold place_one, c_asked, asked_slot, worn_ok. case_bool_decide as Hk; [intros [= <-]; eauto|].
  destruct (is_equipped (cp_record c)) eqn:Heq.
  - destruct (equipped_db_slot _) as [e|slot]; [intros [= <-]; eauto|]. intros E. inv_bind E. rename v into refused.
    apply Ok_inj in E. destruct refused as [why|]; subst s'; [by right; right; left; eauto|].
    right. left. exists slot. split_and!; try done. intros _ w ->. done.
  - destruct (split_bag_placement _) as [e|[box slot]]; [intros [= <-]; eauto|]. intros [= <-].
    destruct (box =? 0); [|by right; right; right]. right. left. by exists slot.
Qed.

Lemma place_all_spec t wearer cs : forall s s',
  res_fold (place_one t wearer) s cs = Ok s' -> exists A U L, placed_as t wearer s cs s' A U L.
Proof.
  induction cs as [|c cs IH]; intros s s' E; cbn [res_fold] in E.
  - apply Ok_inj in E. subst s'. exists [], [], []. split; rewrite ?app_nil_r; try done.
    + unfold pylen. cbn. lia.
    + intros c o Hin. by apply elem_of_nil in Hin.
  - inv_bind E. apply IH in E as (A & U & L & HA). clear IH.
    apply place_one_cases in E0 as [[sk ->]|[(slot & -> & Ha & Hw & Hk)|[(slot & why & ->)| ->]]]; destruct HA; cbn in *.
    + exists A, U, L. split; try done.
      * revert pa_count0. rewrite pylen_app, !pylen_cons, pylen_nil. lia.
      * by apply submseteq_cons.
      * cbn. destruct (c_asked c); [by apply sublist_cons|done].
    + exists ((c, Some slot) :: A), U, L. split; try done.
      * by rewrite pa_placed0, <- app_assoc.
      * rewrite !pylen_cons. lia.
      * cbn. by apply submseteq_skip.
      * cbn. rewrite Ha. by apply sublist_skip.
      * intros c' o [[= -> ->]|Hin]%elem_of_cons; [|by apply pa_fit0].
        exists slot. split_and!; try done. apply pa_used0, set_add_elem. by left.
      * intros x Hx. apply pa_used0, set_add_elem. by right.
    + exists A, ((c, slot, why) :: U), L. split; try done.
      * by rewrite pa_unwearable0, <- app_assoc.
      * rewrite !pylen_cons. lia.
      * cbn. rewrite <- Permutation_middle. by apply submseteq_skip.
      * cbn. destruct (c_asked c); [by apply sublist_cons|done].
    + exists A, U, (c :: L). split; try done.
      * by rewrite pa_homeless0, <- app_assoc.
      * rewrite !pylen_cons. lia.
      * rewrite app_assoc, <- Permutation_middle, <- app_assoc. by apply submseteq_skip.
      * cbn. destruct (c_asked c); [by apply sublist_cons|done].
Qed.

Lemma relocate_fst cs : forall free, map fst (relocate cs free) = cs.
Proof. induction cs as [|c cs IH]; intros free; [done|]. destruct free; cbn; by rewrite IH. Qed.

Lemma relocate_snd cs : forall free, omap (M:=list) snd (relocate cs free) = take (length cs) free.
Proof.
  induction cs as [|c cs IH]; intros free; [done|]. destruct free; cbn; rewrite IH; [by rewrite take_nil|done].
Qed.

Lemma free_backpack_spec used :
  NoDup (free_backpack used) /\ forall s, s ∈ free_backpack used -> s ∉ used /\ 23 <= s < 39.
Proof.
  unfold free_backpack. split.
  - apply NoDup_filter. apply (NoDup_fmap_2_strong _); [intros; lia|]. apply (NoDup_fmap_2 Z.of_nat), NoDup_seq.
  - intros s [Hs (k & -> & (n & -> & Hn%elem_of_seq)%list_elem_of_fmap)%list_elem_of_fmap]%list_elem_of_filter.
    split; [done|]. revert Hn. unfold INVENTORY_SLOT_ITEM_START, INVENTORY_SLOT_ITEM_END. lia.
Qed.

(** ** Rows *)

(** The guid each placement gets. *)
Fixpoint stamp (placed : list (captured * option Z)) (g : Z) : list ((captured * option Z) * Z) :=
  match placed with [] => [] | m :: placed => (m, g) :: stamp placed (g + 1) end.

Definition in_bags (mg : (captured * option Z) * Z) : option (Z * Z) :=
  match snd (fst mg) with Some s => Some (s, snd mg) | None => None end.
Definition in_mail (mg : (captured * option Z) * Z) : option (nat * Z) :=
  match snd (fst mg) with Some _ => None | None => Some (cp_id (fst (fst mg)), snd mg) end.

Definition instance_of (mg : (captured * option Z) * Z) (r : list (pystr * json)) : Prop :=
  jval r "guid" = JInt (snd mg) /\ jval r "itemEntry" = JInt (c_item (fst (fst mg)))
  /\ jval r "enchantments" = JStr (enchantments_blob (cp_fields (fst (fst mg)))).

Lemma instance_row_spec p g c d r o : instance_row p g c d = Ok r -> instance_of (c, o, g) r.
Proof. unfold instance_row. intros E. inv_bind E. inv_bind E. apply Ok_inj in E. by subst r. Qed.

Record items_written (placed : list (captured * option Z)) (g : Z) (p p' : Plan) (guids : list (nat * Z)) : Prop := {
  iw_instances : exists rows, rows_of "item_instance" p' = rows_of "item_instance" p ++ rows
                   /\ Forall2 instance_of (stamp placed g) rows;
  iw_inventory : rows_of "character_inventory" p' = rows_of "character_inventory" p
                   ++ map (fun sg => inventory_row p (fst sg) (snd sg)) (omap (M:=list) in_bags (stamp placed g));
  iw_guids : guids = omap (M:=list) in_mail (stamp placed g);
  iw_plan : pl_guid p' = pl_guid p /\ pl_skips p' = pl_skips p;
  iw_others t : lit t <> lit "item_instance" -> lit t <> lit "character_inventory" -> rows_of t p' = rows_of t p }.

Lemma write_items_spec t placed : forall g p p' g' guids,
  write_items t placed g p = Ok (p', g', guids) -> g' = g + pylen placed /\ items_written placed g p p' guids.
Proof.
  induction placed as [|[c o] placed IH]; intros g p p' g' guids E; cbn [write_items] in E.
  - injection E as <- <- <-. split; [rewrite pylen_nil; lia|]. split; cbn; rewrite ?app_nil_r; try done.
    exists []. by rewrite app_nil_r.
  - inv_bind E. rename v into r, E0 into Er. apply (instance_row_spec _ _ _ _ _ o) in Er. destruct o as [slot|].
    + apply IH in E as [-> [(rows & Hi & Hf) Hv Hg [Hp Hs] Ho]]. split; [rewrite pylen_cons; lia|]. split.
      * exists (r :: rows). split; [rewrite Hi; plan_rows; by rewrite <- app_assoc|by constructor].
      * rewrite Hv. plan_rows. by rewrite <- app_assoc.
      * done.
      * done.
      * intros t' H1' H2'. rewrite Ho by done. by rewrite !rows_of_add_ne.
    + inv_bind E. destruct v as [[p1 g1] guids1]. apply Ok_inj in E. injection E as <- <- <-. cbn [fst snd] in *.
      apply IH in E0 as [-> [(rows & Hi & Hf) Hv Hg [Hp Hs] Ho]]. split; [rewrite pylen_cons; lia|]. split.
      * exists (r :: rows). split; [rewrite Hi; plan_rows; by rewrite <- app_assoc|by constructor].
      * rewrite Hv. by plan_rows.
      * cbn. by rewrite Hg.
      * done.
      * intros t' H1' H2'. rewrite Ho by done. by rewrite rows_of_add_ne.
Qed.
(** *** The guids that are handed out *)

Lemma stamp_guids placed : forall g, map snd (stamp placed g) = map (fun k => g + k) (seqZ_from (pylen placed)).
Proof.
  unfold seqZ_from, pylen. induction placed as [|m placed IH]; intros g; [done|].
  cbn [stamp map snd length]. rewrite IH, !Nat2Z.id. cbn [seq map]. f_equal; [lia|].
  rewrite <- seq_shift, !map_map. apply map_ext. lia.
Qed.

Lemma stamp_fst placed : forall g, map fst (stamp placed g) = placed.
Proof. induction placed as [|m placed IH]; intros g; [done|]. cbn. by rewrite IH. Qed.

(** A guid is in a slot or in the mail. *)
Lemma stamp_split st : map snd (omap (M:=list) in_bags st) ++ map snd (omap (M:=list) in_mail st) ≡ₚ map snd st.
Proof.
  induction st as [|[[c [o|]] g] st IH]; [done| |]; cbn.
  - by f_equiv.
  - rewrite <- Permutation_middle. by f_equiv.
Qed.

Lemma in_bags_slots placed : forall g, map fst (omap (M:=list) in_bags (stamp placed g)) = omap (M:=list) snd placed.
Proof. induction placed as [|[c [o|]] placed IH]; intros g; [done| |]; cbn; by rewrite IH. Qed.

Definition unplaced (placed : list (captured * option Z)) : list captured :=
  omap (M:=list) (fun m => match snd m with None => Some (fst m) | Some _ => None end) placed.

Lemma in_mail_ids placed : forall g, map fst (omap (M:=list) in_mail (stamp placed g)) = map cp_id (unplaced placed).
Proof. induction placed as [|[c [o|]] placed IH]; intros g; [done| |]; cbn; by rewrite IH. Qed.

(** *** Mail *)

Fixpoint number (k : Z) (chunks : list (list Z)) : list (Z * list Z) :=
  match chunks with [] => [] | ch :: chunks => (k, ch) :: number (k + 1) chunks end.

Record mail_written (guids : list (nat * Z)) (mailed : list captured) (p p' : Plan) (chunks : list (list Z)) : Prop := {
  mw_sizes : Forall (fun ch => (1 <= length ch <= MAIL_ITEMS_PER_MESSAGE)%nat) chunks;
  mw_guids : Forall2 (fun c g => dget (cp_id c) guids = Some g) mailed (concat chunks);
  mw_mail : rows_of "mail" p' = rows_of "mail" p ++ map (fun m => mail_row clock p (fst m)) (number (count "mail" p + 1) chunks);
  mw_items : rows_of "mail_items" p' = rows_of "mail_items" p
               ++ concat (map (fun m => map (mail_item_row p (fst m)) (snd m)) (number (count "mail" p + 1) chunks));
  mw_plan : pl_guid p' = pl_guid p /\ pl_skips p' = pl_skips p;
  mw_others t : lit t <> lit "mail" -> lit t <> lit "mail_items" -> rows_of t p' = rows_of t p }.

Lemma mail_fold_spec guids id cs : forall p p',
  res_fold (mail_item guids id) p cs = Ok p' ->
  exists gs, Forall2 (fun c g => dget (cp_id c) guids = Some g) cs gs
    /\ rows_of "mail_items" p' = rows_of "mail_items" p ++ map (mail_item_row p id) gs
    /\ (pl_guid p' = pl_guid p /\ pl_skips p' = pl_skips p)
    /\ forall t, lit t <> lit "mail_items" -> rows_of t p' = rows_of t p.
Proof.
  induction cs as [|c cs IH]; intros p p' E; cbn [res_fold] in E.
  - apply Ok_inj in E. subst p'. exists []. rewrite app_nil_r. by split_and!.
  - inv_bind E. unfold mail_item in E0. inv_bind E0. rename v0 into g. apply Ok_inj in E0. subst v.
    apply IH in E as (gs & Hf & Hr & Hp & Ho). exists (g :: gs). split_and!.
    + constructor; [|done]. by destruct (dget (cp_id c) guids); cbn in E1; simplify_eq.
    + rewrite Hr. plan_rows. by rewrite <- app_assoc.
    + apply Hp.
    + apply Hp.
    + intros t Ht. rewrite Ho by done. by rewrite rows_of_add_ne.
Qed.

Lemma plan_mail_spec guids fuel : forall mailed p p',
  _plan_mail clock fuel guids mailed p = Ok p' -> exists chunks, mail_written guids mailed p p' chunks.
Proof.
  induction fuel as [|fuel IH]; intros mailed p p' E; (destruct mailed as [|c mailed]; [
    injection E as <-; exists []; split; rewrite ?app_nil_r; try done; constructor|]); [discriminate|].
  remember (c :: mailed) as all eqn:Eall.
  assert (res_fold (mail_item guids (count "mail" p + 1)) (add "mail" (mail_row clock p (count "mail" p + 1)) p)
            (take MAIL_ITEMS_PER_MESSAGE all) ≫= _plan_mail clock fuel guids (drop MAIL_ITEMS_PER_MESSAGE all) = Ok p') as E'
    by (subst all; exact E).
  clear E. inv_bind E'. rename v into q. apply mail_fold_spec in E as (gs & Hf & Hr & Hp & Ho).
  apply IH in E' as (chunks & [Hs Hg Hm Hi Hp' Ho']). exists (gs :: chunks).
  assert (count "mail" q = count "mail" p + 1) as Hc.
  { unfold count. rewrite Ho by other_table. plan_rows. by rewrite pylen_app, pylen_cons, pylen_nil. }
  split.
  - constructor; [|done]. apply Forall2_length in Hf. rewrite length_take in Hf. subst all. cbn [length] in Hf. rewrite <- Hf.
    unfold MAIL_ITEMS_PER_MESSAGE. lia.
  - cbn. rewrite <- (take_drop MAIL_ITEMS_PER_MESSAGE all). by apply Forall2_app.
  - rewrite Hm, Hc, Ho by other_table. plan_rows. cbn [number map fst]. rewrite <- app_assoc. cbn. f_equal. f_equal.
    apply map_ext. intros m. unfold mail_row. destruct Hp as [-> _]. done.
  - rewrite Hi, Hc, Hr. plan_rows. cbn [number map fst snd concat]. rewrite <- app_assoc. f_equal. f_equal. f_equal.
    apply map_ext. intros m. apply map_ext. intros g. unfold mail_item_row. destruct Hp as [-> _]. done.
  - destruct Hp as [Hp1 Hp2], Hp' as [Hp1' Hp2']. cbn in *. split; congruence.
  - intros t Ht1 Ht2. rewrite Ho', Ho by done. by rewrite rows_of_add_ne.
Qed.
(** *** The templates *)

Lemma synthesise_spec columns by_id p e p' :
  synthesise repr_of columns by_id p e = Ok p' ->
  (pl_guid p' = pl_guid p /\ pl_skips p' = pl_skips p)
  /\ forall t, lit t <> lit "item_template" -> rows_of t p' = rows_of t p.
Proof.
  unfold synthesise. intros E. inv_binds E. apply Ok_inj in E. subst p'. split; [done|].
  intros t Ht. plan_rows. by rewrite rows_of_add_ne.
Qed.

Lemma known_items_plan synth parsed p t p' :
  known_items repr_of synth parsed p = Ok (t, p') ->
  (pl_guid p' = pl_guid p /\ pl_skips p' = pl_skips p)
  /\ forall tb, lit tb <> lit "item_template" -> rows_of tb p' = rows_of tb p.
Proof.
  unfold known_items. intros E. inv_bind E. inv_bind E. destruct (synth && _).
  - inv_bind E. inv_bind E. inv_bind E. apply Ok_inj in E. injection E as _ <-. unfold _plan_synthetic_items in E2.
    inv_bind E2. revert E2.
    apply (res_fold_keeps (fun q => (pl_guid q = pl_guid p /\ pl_skips q = pl_skips p)
      /\ forall tb, lit tb <> lit "item_template" -> rows_of tb q = rows_of tb p)); [|done].
    intros x y e _ [[Hx1 Hx2] Hx3] [[Hy1 Hy2] Hy3]%synthesise_spec. split; [split; congruence|].
    intros tb Htb. by rewrite Hy3, Hx3.
  - apply Ok_inj in E. injection E as _ <-. done.
Qed.

(** ** The whole *)

Record items_planned (synth : bool) (records : list json) (g : Z) (wearer : option Wearer) (p p' : Plan) (g' : Z)
    (parsed : list captured) (t : templates) (s : placing)
    (A : list (captured * option Z)) (U : list (captured * Z * refusal)) (L : list captured)
    (p1 p2 p3 p4 : Plan) (guids : list (nat * Z)) (chunks : list (list Z)) : Prop := {
  ip_parsed : read_items 0 records p = Ok (parsed, p1);
  ip_known : known_items repr_of synth parsed p1 = Ok (t, p2);
  ip_placed : placed_as t wearer (Placing [] [] [] [] p2) parsed s A U L;
  ip_notes : pl_rows p3 = pl_rows (pc_plan s) /\ pl_guid p3 = pl_guid (pc_plan s) /\ pl_skips p3 = pl_skips (pc_plan s);
  ip_written : items_written (A ++ relocate (map (fun u => fst (fst u)) U ++ L) (free_backpack (pc_used s))) g p3 p4 guids;
  ip_guid : g' = g + pylen (A ++ relocate (map (fun u => fst (fst u)) U ++ L) (free_backpack (pc_used s)));
  ip_mail : mail_written guids (unplaced (relocate (map (fun u => fst (fst u)) U ++ L) (free_backpack (pc_used s)))) p4 p' chunks }.

Lemma notes_plan {X} (f : X -> note) l p :
  let q := foldl (fun p u => add_note (f u) p) p l in
  pl_rows q = pl_rows p /\ pl_guid q = pl_guid p /\ pl_skips q = pl_skips p.
Proof. cbn. revert p. induction l as [|x l IH]; intros p; [done|]. cbn. by destruct (IH (add_note (f x) p)) as (-> & -> & ->). Qed.

Lemma plan_items_inv synth equipment bags g wearer p p' g' :
  _plan_items repr_of clock synth equipment bags g wearer p = Ok (p', g') ->
  exists parsed t s A U L p1 p2 p3 p4 guids chunks,
    items_planned synth (equipment ++ bags) g wearer p p' g' parsed t s A U L p1 p2 p3 p4 guids chunks.
Proof.
  unfold _plan_items. intros E. inv_bind E. destruct v as [parsed p1]. inv_bind E. destruct v as [t p2].
  inv_bind E. rename v into s. pose proof (place_all_spec _ _ _ _ _ E2) as (A & U & L & HA).
  rewrite (pa_unwearable _ _ _ _ _ _ _ _ HA), (pa_homeless _ _ _ _ _ _ _ _ HA), (pa_placed _ _ _ _ _ _ _ _ HA) in E.
  cbn [pc_placed pc_unwearable pc_homeless app] in E.
  set (moved := relocate _ _) in E.
  set (q := foldl _ _ U) in E. pose proof (notes_plan (not_worn_note moved) U (pc_plan s)) as Hq. fold q in Hq. cbn in Hq.
  set (p3 := match L with [] => q | _ => _ end) in E.
  assert (pl_rows p3 = pl_rows (pc_plan s) /\ pl_guid p3 = pl_guid (pc_plan s) /\ pl_skips p3 = pl_skips (pc_plan s)) as Hp3
    by (subst p3; by destruct L).
  inv_bind E. destruct v as [[p4 g4] guids]. inv_bind E. rename v into p5. apply Ok_inj in E. injection E as <- <-.
  apply write_items_spec in E3 as [-> Hw]. apply plan_mail_spec in E4 as [chunks Hm].
  by exists parsed, t, s, A, U, L, p1, p2, p3, p4, guids, chunks.
Qed.
Lemma cells_app_rows t c p p' rows : rows_of t p' = rows_of t p ++ rows ->
  cells t c p' = cells t c p ++ omap (M:=list) (cell_of c) rows.
Proof. unfold cells. intros ->. apply omap_app. Qed.

Lemma omap_map_some {A B C} (f : A -> B) (g : B -> option C) (h : A -> C) l :
  (forall a, g (f a) = Some (h a)) -> omap (M:=list) g (map f l) = map h l.
Proof. intros Hg. induction l as [|a l IH]; [done|]. cbn. by rewrite Hg, IH. Qed.

Lemma omap_none {A B} (f : A -> option B) l : (forall a, a ∈ l -> f a = None) -> omap (M:=list) f l = [].
Proof.
  intros Hf. induction l as [|a l IH]; [done|]. cbn. rewrite Hf by left. apply IH. intros. apply Hf. by right.
Qed.

Lemma submseteq_NoDup {A} (l k : list A) : l ⊆+ k -> NoDup k -> NoDup l.
Proof. intros [k' ->]%submseteq_Permutation Hk. by apply NoDup_app in Hk as [? _]. Qed.

Lemma instances_cells st rows : Forall2 instance_of st rows ->
  omap (M:=list) (cell_of "guid") rows = map snd st
  /\ omap (M:=list) (cell_of "itemEntry") rows = map (fun m => c_item (fst (fst m))) st.
Proof.
  induction 1 as [|m r st rows (Hg & He & _) _ [IH1 IH2]]; [done|].
  assert (cell_of "guid" r = Some (snd m)) as Hg' by (unfold cell_of; by rewrite Hg).
  assert (cell_of "itemEntry" r = Some (c_item (fst (fst m)))) as He' by (unfold cell_of; by rewrite He).
  cbn. by rewrite Hg', He', IH1, IH2.
Qed.

(** The mail carries the guids of its items, each once. *)
Lemma mail_guids_exact (guids : list (nat * Z)) (mailed : list captured) gs :
  map fst guids = map cp_id mailed -> NoDup (map cp_id mailed) ->
  Forall2 (fun c g => dget (cp_id c) guids = Some g) mailed gs -> gs = map snd guids.
Proof.
  revert mailed gs. induction guids as [|[k v] guids IH]; intros [|c mailed] gs Hfst Hnd Hf; try discriminate;
    inversion Hf as [|c' g mailed' gs' Hcg Hrest]; subst; [done|].
  cbn in Hfst, Hnd. injection Hfst as -> Hfst. apply NoDup_cons in Hnd as [Hni Hnd].
  cbn in Hcg. rewrite decide_True in Hcg by done. injection Hcg as ->. cbn. f_equal.
  apply (IH mailed); [done|done|]. apply Forall2_same_length_lookup. apply Forall2_same_length_lookup in Hrest as [Hl Hrest].
  split; [done|]. intros i c' g' Hc Hg. specialize (Hrest i c' g' Hc Hg). cbn in Hrest. case_decide as Hid; [|done].
  exfalso. apply Hni. rewrite <- Hid. apply list_elem_of_fmap. exists c'. split; [done|]. by eapply list_elem_of_lookup_2.
Qed.

Lemma omap_number_items (p : Plan) chunks : forall k,
  omap (M:=list) (cell_of "item_guid") (concat (map (fun m => map (mail_item_row p (fst m)) (snd m)) (number k chunks)))
  = concat chunks.
Proof.
  induction chunks as [|ch chunks IH]; intros k; [done|]. cbn [number map concat fst snd].
  rewrite omap_app, IH. f_equal. rewrite (omap_map_some _ _ id) by done. by rewrite map_id.
Qed.

(** C6: Nothing the character owns is lost or doubled.  Every captured
    record is either reported as skipped or becomes one item: the new items
    have consecutive numbers from the first free one, each is a record's own
    item, and each is in exactly one place, a slot of the character or a
    message. *)
Theorem items_conserved synth equipment bags g wearer p p' g' :
  rows_of "item_instance" p = [] -> rows_of "character_inventory" p = [] -> rows_of "mail_items" p = [] ->
  _plan_items repr_of clock synth equipment bags g wearer p = Ok (p', g') ->
  let n := count "item_instance" p' in
  g' = g + n
  /\ cells "item_instance" "guid" p' = map (fun k => g + k) (seqZ_from n)
  /\ cells "character_inventory" "item" p' ++ cells "mail_items" "item_guid" p' ≡ₚ cells "item_instance" "guid" p'
  /\ cells "item_instance" "itemEntry" p' ⊆+ omap (M:=list) item_of (equipment ++ bags)
  /\ pylen (equipment ++ bags) = n + (pylen (pl_skips p') - pylen (pl_skips p)).
Proof.
  intros Hi0 Hv0 Hm0 (parsed & t & s & A & U & L & p1 & p2 & p3 & p4 & guids & chunks &
    [Hparse Hknown Hplaced (Hn1 & Hn2 & Hn3) [(rows & Hir & Hif) Hiv Hig [Hip1 Hip2] Hio] -> [Hms Hmg Hmm Hmi [Hmp1 Hmp2] Hmo]])%plan_items_inv n.
  apply read_items_spec in Hparse as (Hcount & [Hpr Hpg] & Hitems & _ & Hids & Hnd).
  apply known_items_plan in Hknown as [[Hk1 Hk2] Hk3].
  set (moved := relocate _ _) in *. set (placed := A ++ moved) in *.
  pose proof (pa_rows _ _ _ _ _ _ _ _ Hplaced) as [Hsr Hsg]. cbn [pc_plan] in Hsr, Hsg.
  assert (forall tb, lit tb <> lit "item_template" -> rows_of tb p3 = rows_of tb p) as H3.
  { intros tb Htb. unfold rows_of at 1. rewrite Hn1, Hsr. fold (rows_of tb p2). rewrite Hk3 by done. unfold rows_of. by rewrite Hpr. }
  assert (rows_of "item_instance" p' = rows) as Hinst by (rewrite Hmo, Hir, H3, Hi0 by other_table; done).
  assert (rows_of "character_inventory" p' = map (fun sg => inventory_row p3 (fst sg) (snd sg)) (omap (M:=list) in_bags (stamp placed g)))
    as Hinv by (rewrite Hmo, Hiv, H3, Hv0 by other_table; done).
  pose proof (instances_cells _ _ Hif) as [Hcg Hce].
  assert (n = pylen placed) as ->.
  { unfold n, count. rewrite Hinst. apply Forall2_length in Hif. unfold pylen. rewrite <- Hif, <- (length_map fst). by rewrite stamp_fst. }
  assert (map fst moved = map (fun u => fst (fst u)) U ++ L) as Hmv by apply relocate_fst.
  assert (map fst placed ⊆+ parsed) as Hfrom.
  { unfold placed. rewrite map_app, Hmv. exact (pa_from _ _ _ _ _ _ _ _ Hplaced). }
  assert (concat chunks = map snd guids) as Hchunks.
  { assert (unplaced placed = unplaced moved) as Hup.
    { unfold placed, unplaced. rewrite omap_app, omap_none; [done|]. intros [c o] Hin. apply (pa_fit _ _ _ _ _ _ _ _ Hplaced) in Hin as (slot & -> & _). done. }
    eapply mail_guids_exact; [| |exact Hmg].
    - by rewrite Hig, in_mail_ids, Hup.
    - assert (map cp_id (map fst placed) ⊆+ map cp_id parsed) as Hsub by (by apply (fmap_submseteq cp_id)).
      rewrite <- Hup. eapply sublist_NoDup; [exact (submseteq_NoDup _ _ Hsub Hnd)|].
      clear. induction placed as [|[c [o|]] placed IH]; cbn; [done|by apply sublist_cons|by apply sublist_skip]. }
  split_and!.
  - done.
  - unfold cells. rewrite Hinst, Hcg. apply stamp_guids.
  - unfold cells at 1 3. rewrite Hinv, Hinst, Hcg. rewrite (omap_map_some _ _ snd) by done.
    rewrite (cells_app_rows _ _ _ _ _ Hmi). unfold cells. rewrite Hio, H3, Hm0 by other_table.
    cbn [omap list_omap app]. rewrite omap_number_items, Hchunks, Hig. apply stamp_split.
  - unfold cells. rewrite Hinst, Hce. transitivity (map c_item parsed); [|done].
    replace (map _ (stamp placed g)) with (map c_item (map fst placed)); [by apply (fmap_submseteq c_item)|].
    rewrite <- (stamp_fst placed g) at 1. by rewrite !map_map.
  - pose proof (pa_count _ _ _ _ _ _ _ _ Hplaced) as Hpc. cbn [pc_plan] in Hpc. rewrite Hmp2, Hip2, Hn3.
    assert (pylen placed = pylen A + pylen U + pylen L) as ->.
    { unfold placed. rewrite pylen_app. unfold pylen. rewrite <- (length_map fst moved), Hmv, length_app, length_map. lia. }
    rewrite Hk2 in Hpc. lia.
Qed.
(** ** The loop of the mail ends *)

Lemma mail_items_ok guids id cs : forall p, Forall (fun c => is_Some (dget (cp_id c) guids)) cs ->
  exists p', res_fold (mail_item guids id) p cs = Ok p'.
Proof.
  induction cs as [|c cs IH]; intros p Hall; [by eexists|]. apply Forall_cons in Hall as [[g Hg] Hall].
  cbn [res_fold]. unfold mail_item at 2. rewrite Hg. cbn. by apply IH.
Qed.

(** A round for each item is enough, whatever the number of items to a message:
    with a guid for each of them, the mail is written. *)
Lemma plan_mail_ends guids : forall fuel mailed p, (length mailed <= fuel)%nat ->
  Forall (fun c => is_Some (dget (cp_id c) guids)) mailed ->
  exists p', _plan_mail clock fuel guids mailed p = Ok p'.
Proof.
  induction fuel as [|fuel IH]; intros [|c mailed] p Hlen Hall; try (by eexists); [cbn in Hlen; lia|].
  cbn [_plan_mail].
  destruct (mail_items_ok guids (count "mail" p + 1) (take MAIL_ITEMS_PER_MESSAGE (c :: mailed))
    (add "mail" (mail_row clock p (count "mail" p + 1)) p)) as [p' ->]; [by apply Forall_take|]. cbn [mbind res_bind].
  apply IH; [|by apply Forall_drop]. rewrite length_drop. unfold MAIL_ITEMS_PER_MESSAGE. cbn in Hlen |- *. lia.
Qed.
End Items.
