(* ===== verification/BmsImport.v ===== *)
(** * Building the plan of an import (character-importer/bms_import.py)

    What the character knows is resolved against the target first, then the
    items are placed, because what it may wear depends on what it knows. *)
From S2P Require Import Prelude Wire PyFloat Text Format Json BmsMap BmsEquip BmsCoa BmsDbc BmsPlan BmsItems.

Definition QUEST_STATUS_COMPLETE : Z := 1.
Definition QUEST_STATUS_INCOMPLETE : Z := 3.
Definition ACTION_BUTTON_SPELL : Z := 0.
Definition ACTION_BUTTON_ITEM : Z := 0x80.
Definition MAX_ACTION_BUTTONS : Z := 144.
Definition FULL_BAR : Z := 100000000.
Definition REST_STATE_NOT_RAF_LINKED : Z := 2.
Definition WATCHED_FACTION_NONE : Z := 0xFFFFFFFF.
Definition FACTION_FLAG_VISIBLE : Z := 1.
Definition FACTION_FLAG_AT_WAR : Z := 2.
Definition ASCENSION_ACTIVE_SPEC_SETTING : pystr := lit "core.ascension_active_spec".
Definition ASCENSION_STARTER_SETTING : pystr := lit "core.ascension_starter".
Definition ASCENSION_STARTER_REVISION : Z := 1.

(** [len(v)]. *)
Definition py_len (v : json) : res Z :=
  match v with
  | JStr s => Ok (pylen s)
  | JList l => Ok (pylen l)
  | JDict d => Ok (pylen d)
  | _ => Err TypeError
  end.

(** [row.get(a, row.get(b))]. *)
Definition get2 (row : list (pystr * json)) (a b : string) : json :=
  match dget (lit a) row with Some v => v | None => jval row b end.

(** A [MappingError] of the mapping stops the plan. *)
Definition of_mapped {A} (m : map_error + A) : res A := match m with inl _ => Err MappingError | inr a => Ok a end.

(** [int(v)], unless it is no number. *)
Definition int_unless (r : res Z) (dflt : Z) : res Z :=
  match r with Err (TypeError | ValueError) => Ok dflt | _ => r end.

Section Planning.
Context `{Unicode} `{Casing} `{Database} `{Resolvers} (repr_of : json -> pystr) (clock : Z).

(** [v.get(k)] and [str(v.get(k) or "")] of an element. *)
Definition elem_get (v : json) (k : string) : res json := jget v (lit k) JNull.
Definition elem_text (v : json) (k : string) : res pystr := x ← elem_get v k; Ok (text_or repr_of x []).
Definition elem_int (v : json) (k : string) : res Z := x ← elem_get v k; int_or x 0.

(** The target's classes are asked first, for the token and then for the
    name; the stock table is what a run without DBCs has. *)
Definition resolve_class (resolvers : option Resolvers) (char : list (pystr * json)) : res Z :=
  let token := jval char "classToken" in
  let stock := of_mapped (class_id repr_of token) in
  match resolvers with
  | None => stock
  | Some r =>
      found ← class_by_token (Resolvers:=r) token;
      if rs_ok found then Ok (rs_value found)
      else
        by_name ← class_by_token (Resolvers:=r) (jval char "className");
        if rs_ok by_name then Ok (rs_value by_name) else stock
  end.

(** ** Spells *)

Definition spell_row (p : Plan) (spell : Z) : list (pystr * json) :=
  mkrow [("guid", JInt (pl_guid p)); ("spell", JInt spell); ("specMask", JInt 1)]%string.

Definition book_spell (acc : list Z * Plan) (raw : json) : res (list Z * Plan) :=
  match py_int raw with
  | Err (TypeError | ValueError) => Ok acc
  | Err e => Err e
  | Ok spell =>
      if bool_decide (spell ∈ fst acc) then Ok acc
      else
        b ← spell_exists spell;
        Ok (spell :: fst acc,
            if b : bool then add "character_spell" (spell_row (snd acc) spell) (snd acc)
            else add_skip (SkSpell spell) (snd acc))
  end.

Definition _plan_spells (char : list (pystr * json)) (p : Plan) : res Plan :=
  raws ← iter_or (jval char "knownSpellIds");
  '(_, p) ← res_fold book_spell ([], p) raws;
  let custom := or_else (jval char "knownMysticSpellIds") (JList []) in
  if py_truthy custom then n ← py_len custom; Ok (add_skip (SkMystic n) p) else Ok p.

(** ** Talents *)

(** A talent that resolved: tab, name, rank, spell; one that did not: the
    reason. *)
Record talent_run := TalentRun {
  tr_rows : list (pystr * pystr * Z * Z); tr_failures : list (pystr * pystr * Z * reason);
  tr_added : list Z; tr_points : Z; tr_plan : Plan }.

Definition try_talent (class : Z) (tab_name : pystr) (tab_index : Z) (s : talent_run) (talent : json) : res talent_run :=
  rank ← elem_int talent "rank";
  if rank <? 1 then Ok s
  else
    name ← elem_text talent "name";
    let points := tr_points s + rank in
    r ← talent_spell class tab_name name rank tab_index;
    if negb (rs_ok r) then
      Ok (TalentRun (tr_rows s) (tr_failures s ++ [(tab_name, name, rank, rs_reason r)]) (tr_added s) points (tr_plan s))
    else
      let p := match rs_note r with NoNote => tr_plan s | n => add_note (NtTalent tab_name n) (tr_plan s) end in
      if bool_decide (rs_value r ∈ tr_added s) then Ok (TalentRun (tr_rows s) (tr_failures s) (tr_added s) points p)
      else Ok (TalentRun (tr_rows s ++ [(tab_name, name, rank, rs_value r)]) (tr_failures s) (rs_value r :: tr_added s) points p).

Definition try_tab (class : Z) (s : talent_run) (tab : json) : res talent_run :=
  tab_name ← elem_text tab "name";
  tab_index ← elem_int tab "tabIndex";
  '(_, positional) ← resolve_talent_tab class tab_name tab_index;
  let p := if positional : bool then add_note (NtTabByPosition tab_name tab_index) (tr_plan s) else tr_plan s in
  talents ← elem_get tab "talents";
  talents ← iter_or talents;
  res_fold (try_talent class tab_name tab_index)
    (TalentRun (tr_rows s) (tr_failures s) (tr_added s) (tr_points s) p) talents.

Definition row_spell_in (spells : list Z) (r : list (pystr * json)) : bool :=
  match jval r "spell" with JInt s => bool_decide (s ∈ spells) | _ => false end.

(** A spell a talent grants is held back with the talents. *)
Definition withhold (p : Plan) : res Plan :=
  rank_spells ← talent_rank_spells;
  let carried := rows_of "character_spell" p in
  match filter (fun r => row_spell_in rank_spells r = true) carried with
  | [] => Ok p
  | withheld =>
      Ok (add_note (NtHeldBack (pylen withheld) (map (fun r => jval r "spell") (take 6 withheld)))
            (set_rows "character_spell" (filter (fun r => row_spell_in rank_spells r = false) carried) p))
  end.

Definition grant_talent (p : Plan) (r : pystr * pystr * Z * Z) : Plan :=
  add "character_spell" (spell_row p (snd r)) (add "character_talent" (spell_row p (snd r)) p).

Definition is_rebuilding (mode : talents_mode) (failures : list (pystr * pystr * Z * reason)) : bool :=
  match mode with Rebuild => true | Auto => negb (bool_decide (length failures = 0%nat)) | Import => false end.

Definition _plan_talents (char : list (pystr * json)) (class : Z) (mode : talents_mode) (p : Plan) : res Plan :=
  tabs ← iter_or (jval char "talentTabs");
  s ← res_fold (try_tab class) (TalentRun [] [] [] 0 p) tabs;
  let p := tr_plan s in
  let rows := tr_rows s in
  let failures := tr_failures s in
  let rebuilding := is_rebuilding mode failures in
  let all := pylen failures + pylen rows in
  let p := if rebuilding && negb (tr_points s =? 0) then
             add_note (match mode with
                       | Rebuild => NtTalentsRebuild (tr_points s)
                       | _ => NtTalentsNot (pylen failures) all (tr_points s) (pylen rows)
                       end) p
           else p in
  let p := foldl (fun p '(tab, name, rank, why) => add_skip (SkTalent tab name rank why) p) p failures in
  if rebuilding then
    withhold (foldl (fun p '(tab, name, rank, _) => add_skip (SkHeldBack tab name rank) p) p rows)
  else
    let p := match failures, mode with
             | _ :: _, Import =>
                 add_note (NtPartial (pylen rows) all (foldl (fun n '(_, _, rank, _) => n + rank) 0 rows) (tr_points s)) p
             | _, _ => p
             end in
    Ok (foldl grant_talent p rows).

(** ** Advancement *)

(** The numbers of a list that are not zero, once each. *)
Fixpoint spell_numbers (raws : list json) (spells : list Z) : res (list Z) :=
  match raws with
  | [] => Ok spells
  | v :: raws =>
      match py_int v with
      | Err (TypeError | ValueError) => spell_numbers raws spells
      | Err e => Err e
      | Ok spell => spell_numbers raws (if spell =? 0 then spells else set_add spell spells)
      end
  end.

(** The entry's number, the spells it teaches and its name. *)
Definition _advancement_fields (r : list (pystr * json)) : res (json * list Z * pystr) :=
  let entry_id := match jval r "ID" with JNull => get2 r "InternalID" "internalId" | v => v end in
  let raw := match jval r "Spells" with
             | JList l => l
             | _ => match jval r "spells" with JList l => l | _ => [] end
             end in
  let raw := match raw with
             | [] => let single := get2 r "SpellID" "spellId" in if py_truthy single then [single] else []
             | _ => raw
             end in
  spells ← spell_numbers raw [];
  Ok (entry_id, spells, strip (text_or repr_of (jval r "Name") [])).

Definition _cost (r : list (pystr * json)) (field : string) : res Z := int_unless (at_least_0 r field) 0.

(** What was bought, the spells of its ranks, its two costs. *)
Record kept := Kept { kp_what : purchase; kp_spells : list Z; kp_ability : Z; kp_talent : Z }.

Definition cost_in (talent : bool) (k : kept) : Z := if talent then kp_talent k else kp_ability k.

Definition spent_on (talent : bool) (ks : list kept) (ranks : list Z) : Z :=
  foldr (fun kr n => cost_in talent (fst kr) * snd kr + n) 0 (combine ks ranks).

(** The purchases that could have more ranks, by their places. *)
Definition is_movable (talent : bool) (ks : list kept) (ranks : list Z) (i : nat) : bool :=
  match ks !! i, ranks !! i with
  | Some k, Some r => (0 <? cost_in talent k) && (r <? pylen (kp_spells k))
  | _, _ => false
  end.

Definition movable (talent : bool) (ks : list kept) (ranks : list Z) : list nat :=
  filter (fun i => is_movable talent ks ranks i = true) (seq 0 (length ks)).

(** Those that alone would account for the shortfall. *)
Definition is_exact (talent : bool) (ks : list kept) (ranks : list Z) (short : Z) (i : nat) : bool :=
  match ks !! i, ranks !! i with
  | Some k, Some r => (short mod cost_in talent k =? 0) && (r + short / cost_in talent k <=? pylen (kp_spells k))
  | _, _ => false
  end.

Definition exact (talent : bool) (ks : list kept) (ranks : list Z) (short : Z) : list nat :=
  filter (fun i => is_exact talent ks ranks short i = true) (movable talent ks ranks).

(** One of the two essences. *)
Definition raise_rank (ks : list kept) (advancement : list (pystr * json)) (acc : list Z * list note) (talent : bool)
  : res (list Z * list note) :=
  let '(ranks, notes) := acc in
  match int_or (jval advancement (if talent then "learnedTalentEssence" else "learnedAbilityEssence")) 0 with
  | Err (TypeError | ValueError) => Ok acc
  | Err e => Err e
  | Ok target =>
      if target <=? 0 then Ok acc
      else
        let spent := spent_on talent ks ranks in
        let short := target - spent in
        if short <=? 0 then Ok acc
        else
          match exact talent ks ranks short with
          | [i] =>
              match ks !! i, ranks !! i with
              | Some k, Some r =>
                  let r := r + short / cost_in talent k in
                  Ok (<[i := r]> ranks, notes ++ [NtRaised (kp_what k) short talent r])
              | _, _ => Err IndexError
              end
          | _ => Ok (ranks, notes ++ [NtShortfall target talent spent (pylen (movable talent ks ranks)) short])
          end
  end.

Definition _advancement_ranks (ks : list kept) (advancement : list (pystr * json)) : res (list Z * list note) :=
  res_fold (raise_rank ks advancement) (map (fun _ => 1) ks, []) [false; true].

(** The spells the server has, and those it does not. *)
Fixpoint usable_spells (spells : list Z) : res (list Z) :=
  match spells with
  | [] => Ok []
  | s :: spells => b ← spell_exists s; l ← usable_spells spells; Ok (if b : bool then s :: l else l)
  end.

Definition keep_entry (catalogue : option Catalogue) (class level spec_id : Z) (label : string)
    (acc : list kept * Plan) (v : json) : res (list kept * Plan) :=
  let '(keep, p) := acc in
  match v with
  | JDict r =>
      '(entry_id, spells, given) ← _advancement_fields r;
      let what := Purchase (or_else (jval r "Type") (JStr (lit label))) given entry_id in
      wrong ← (match catalogue with Some c => mismatch c entry_id class level spec_id | None => Ok None end);
      match wrong with
      | Some why => Ok (keep, add_skip (SkMismatch what why) p)
      | None =>
          match spells with
          | [] => Ok (keep, add_skip (SkNoSpell what) p)
          | _ =>
              usable ← usable_spells spells;
              let p := foldl (fun p s => add_skip (SkPurchaseSpell what s) p) p (filter (fun s => s ∉ usable) spells) in
              match usable with
              | [] => Ok (keep, p)
              | _ =>
                  ae ← _cost r "AECost"; te ← _cost r "TECost";
                  Ok (keep ++ [Kept what usable ae te], p)
              end
          end
      end
  | _ => Ok acc
  end.

Definition keep_entries (catalogue : option Catalogue) (class level spec_id : Z) (advancement : list (pystr * json))
    (acc : list kept * Plan) (kl : string * string) : res (list kept * Plan) :=
  match jval advancement (fst kl) with
  | JList rows => res_fold (keep_entry catalogue class level spec_id (snd kl)) acc rows
  | _ => Ok acc
  end.

(** The spells of the plan. *)
Definition planned_spells (p : Plan) : list Z :=
  omap (M:=list) (fun r => match jval r "spell" with JInt s => Some s | _ => None end) (rows_of "character_spell" p).

(** The spell of a rank, and how many of them were new. *)
Definition learn_entry (acc : list Z * Z * Plan) (kr : kept * Z) : res (list Z * Z * Plan) :=
  let '(planned, added, p) := acc in
  let usable := kp_spells (fst kr) in
  spell ← index usable (Z.min (snd kr) (pylen usable) - 1);
  Ok (if bool_decide (spell ∈ planned) then acc
      else (spell :: planned, added + 1, add "character_spell" (spell_row p spell) p)).

Definition level_of (char : list (pystr * json)) : res Z :=
  n ← int_or (jval char "level") 1; Ok (Z.max 1 (Z.min 255 n)).

(** [int(spec) if spec is not None else 0], of the active specialization. *)
Definition active_spec (advancement : json) : res Z :=
  match advancement with
  | JDict d => match jval d "activeSpecializationId" with JNull => Ok 0 | v => int_unless (py_int v) 0 end
  | _ => Ok 0
  end.

Definition _plan_advancement (char : list (pystr * json)) (class : Z) (catalogue : option Catalogue) (p : Plan) : res Plan :=
  match jval char "advancement" with
  | JDict advancement =>
      if negb (py_truthy (jval advancement "available")) then Ok p
      else
        level ← level_of char;
        spec_id ← active_spec (JDict advancement);
        let planned := planned_spells p in
        '(keep, p) ← res_fold (keep_entries catalogue class level spec_id advancement) ([], p)
                       [("knownTalentEntries", "talent"); ("knownSpellEntries", "ability")]%string;
        '(ranks, shortfalls) ← _advancement_ranks keep advancement;
        '(_, added, p) ← res_fold learn_entry (planned, 0, p) (combine keep ranks);
        let p := foldl (fun p n => add_note n p) p shortfalls in
        let restored := pylen (combine keep ranks) in
        Ok (if restored =? 0 then p else add_note (NtAdvancement restored restored added) p)
  | _ => Ok p
  end.

(** ** Skills and reputations *)

Definition plan_skill (p : Plan) (skill : json) : res Plan :=
  name ← elem_text skill "name";
  r ← skill_by_name name;
  if negb (rs_ok r) then Ok (add_skip (SkSkill name (rs_reason r)) p)
  else
    rank ← elem_int skill "rank";
    maximum ← elem_int skill "maximum";
    let value := Z.max 0 rank in
    Ok (add "character_skills" (mkrow
      [("guid", JInt (pl_guid p)); ("skill", JInt (rs_value r)); ("value", JInt value);
       ("max", JInt (Z.max value maximum))]%string) p).

Definition _plan_skills (char : list (pystr * json)) (p : Plan) : res Plan :=
  skills ← iter_or (jval char "skills"); res_fold plan_skill p skills.

Definition plan_reputation (race class : Z) (p : Plan) (rep : json) : res Plan :=
  name ← elem_text rep "name";
  header ← elem_get rep "isHeader";
  has ← elem_get rep "hasReputation";
  if py_truthy header && negb (py_truthy has) then Ok p
  else
    r ← faction_by_name name;
    if negb (rs_ok r) then Ok (add_skip (SkReputation name (rs_reason r)) p)
    else
      absolute ← elem_int rep "value";
      base ← faction_base_rep (rs_value r) race class;
      war ← elem_get rep "atWarWith";
      Ok (add "character_reputation" (mkrow
        [("guid", JInt (pl_guid p)); ("faction", JInt (rs_value r)); ("standing", JInt (absolute - base));
         ("flags", JInt (if py_truthy war then Z.lor FACTION_FLAG_VISIBLE FACTION_FLAG_AT_WAR else FACTION_FLAG_VISIBLE))]%string) p).

Definition _plan_reputations (char : list (pystr * json)) (race class : Z) (p : Plan) : res Plan :=
  reps ← iter_or (jval char "reputations"); res_fold (plan_reputation race class) p reps.

(** ** Action bars *)

(** The action and its type, or why there is none. *)
Definition button_action (entry : json) (kind : pystr) : res (why_button + Z * Z) :=
  if bool_decide (kind = lit "spell") then
    spell ← elem_get entry "spellId";
    action ← elem_get entry "actionId";
    n ← int_or (or_else spell action) 0;
    Ok (inr (n, ACTION_BUTTON_SPELL))
  else if bool_decide (kind = lit "item") then n ← elem_int entry "actionId"; Ok (inr (n, ACTION_BUTTON_ITEM))
  else Ok (inl (if bool_decide (kind = lit "macro") then MacroButton else UnsupportedKind kind)).

Definition plan_button (acc : list Z * Plan) (entry : json) : res (list Z * Plan) :=
  let '(seen, p) := acc in
  slot ← elem_int entry "slot";
  let button := slot - 1 in
  kind ← elem_get entry "actionType";
  let skipped why := Ok (seen, add_skip (SkButton slot kind why) p) in
  if negb ((0 <=? button) && (button <? MAX_ACTION_BUTTONS)) then skipped OutsideBar
  else if bool_decide (button ∈ seen) then Ok acc
  else
    a ← button_action entry (text_or repr_of kind []);
    match a with
    | inl why => skipped why
    | inr (action, type) =>
        if action <=? 0 then skipped NoAction
        else Ok (button :: seen, add "character_action" (mkrow
               [("guid", JInt (pl_guid p)); ("spec", JInt 0); ("button", JInt button); ("action", JInt action);
                ("type", JInt type)]%string) p)
    end.

Definition _plan_action_bars (char : list (pystr * json)) (p : Plan) : res Plan :=
  occupied ← get_or (jval char "actionBars") "occupied";
  entries ← iter_or occupied;
  '(_, p) ← res_fold plan_button ([], p) entries;
  Ok p.

(** ** Quests and achievements *)

(** [int(q) for q in ... if str(q).isdigit()]. *)
Fixpoint digit_ints (l : list json) : res (list Z) :=
  match l with
  | [] => Ok []
  | q :: l =>
      if str_isdigit (py_str repr_of q) then n ← py_int q; ns ← digit_ints l; Ok (n :: ns) else digit_ints l
  end.

(** The numbers the active quests have. *)
Fixpoint active_ids (l : list json) : res (list Z) :=
  match l with
  | [] => Ok []
  | q :: l =>
      v ← elem_get q "questId";
      if py_truthy v then n ← py_int v; ns ← active_ids l; Ok (n :: ns) else active_ids l
  end.

Definition template_id (r : list (pystr * json)) : res Z := v ← jitem (JDict r) (lit "ID"); py_int v.

Definition plan_quest (known : list Z) (p : Plan) (quest : json) : res Plan :=
  quest_id ← elem_int quest "questId";
  if bool_decide (quest_id ∉ known) then
    title ← elem_get quest "title"; Ok (add_skip (SkQuest (or_else title (JStr [63])) quest_id) p)
  else
    complete ← elem_get quest "complete";
    let done := py_truthy complete in
    Ok (add "character_queststatus" (mkrow
      [("guid", JInt (pl_guid p)); ("quest", JInt quest_id);
       ("status", JInt (if done then QUEST_STATUS_COMPLETE else QUEST_STATUS_INCOMPLETE));
       ("explored", JInt (if done then 1 else 0)); ("timer", JInt 0)]%string) p).

Definition plan_rewarded (known : list Z) (p : Plan) (quest_id : Z) : Plan :=
  if bool_decide (quest_id ∉ known) then add_skip (SkQuestDone quest_id) p
  else add "character_queststatus_rewarded" (mkrow
         [("guid", JInt (pl_guid p)); ("quest", JInt quest_id); ("active", JInt 1)]%string) p.

Definition _plan_quests (char : list (pystr * json)) (p : Plan) : res Plan :=
  active ← get_or (jval char "quests") "active";
  active ← iter_or active;
  completed ← get_or (jval char "quests") "completedIds";
  completed ← iter_or completed;
  completed ← digit_ints completed;
  ids ← active_ids active;
  let wanted := foldl (fun s q => set_add q s) [] (ids ++ completed) in
  rows ← (match wanted with [] => Ok [] | _ => quests_known (sort_Z wanted) end);
  known ← res_map template_id rows;
  p ← res_fold (plan_quest known) p active;
  let p := match active with [] => p | _ => add_note NtQuestCounters p end in
  Ok (foldl (plan_rewarded known) p completed).

Definition plan_achievement (p : Plan) (entry : json) : res Plan :=
  id ← elem_int entry "id";
  Ok (if id <=? 0 then p
      else add "character_achievement" (mkrow
             [("guid", JInt (pl_guid p)); ("achievement", JInt id); ("date", JInt clock)]%string) p).

Definition _plan_achievements (char : list (pystr * json)) (p : Plan) : res Plan :=
  completed ← get_or (jval char "achievements") "completed";
  completed ← iter_or completed;
  p ← res_fold plan_achievement p completed;
  in_progress ← get_or (jval char "achievements") "inProgress";
  let in_progress := or_else in_progress (JList []) in
  if py_truthy in_progress then n ← py_len in_progress; Ok (add_skip (SkAchievements n) p) else Ok p.
End Planning.
