(* ===== verification/BmsApply.v ===== *)
(** * The plan as a whole, and its application (character-importer/bms_import.py)

    [build_plan] composes the parts; [validate_rows] checks the rows against
    the live schema; [apply_plan] writes them in one transaction.  What [main] does
    between them -- what stops a plan from being built and what stops it from
    being written -- ends the file. *)
From S2P Require Import Prelude Wire PyFloat Text Format Json BmsMap BmsEquip BmsCoa BmsDbc BmsPlan BmsItems BmsImport.

Section Build.
Context `{Unicode} `{Casing} `{Database} `{Resolvers} (repr_of : json -> pystr) (clock : Z).

(** ** Settings of the custom classes *)

Definition _setting_data (values : list Z) : pystr := concat (map (fun v => str_of_Z v ++ [32]) values).

Definition setting_row (p : Plan) (source : pystr) (v : Z) : list (pystr * json) :=
  mkrow [("guid", JInt (pl_guid p)); ("source", JStr source); ("data", JStr (_setting_data [v]))]%string.

Definition plan_spec (class spec_id : Z) (catalogue : option Catalogue) (p : Plan) : Plan :=
  if 0 <? spec_id then
    let known := match catalogue with Some c => specs c class | None => [] end in
    if negb (bool_decide (known = [])) && bool_decide (spec_id ∉ known) then add_skip (SkSpec spec_id class known) p
    else add_note (NtSpecRestored spec_id) (add "character_settings" (setting_row p ASCENSION_ACTIVE_SPEC_SETTING spec_id) p)
  else p.

Definition _plan_settings (char : list (pystr * json)) (class : Z) (catalogue : option Catalogue) (starter_kit : bool) (p : Plan)
  : res Plan :=
  if class <? FIRST_CUSTOM_CLASS then Ok p
  else
    spec_id ← active_spec (jval char "advancement");
    let p := plan_spec class spec_id catalogue p in
    Ok (if starter_kit then add_note NtStarterKit p
        else add_note NtStarterMarked
               (add "character_settings" (setting_row p ASCENSION_STARTER_SETTING ASCENSION_STARTER_REVISION) p)).

(** ** The wearer *)

Definition int_cell (r : list (pystr * json)) (c : string) : res Z := v ← jitem (JDict r) (lit c); py_int v.

(** [{int(row[k]): int(row[v]) for row in rows}]. *)
Definition int_table (k v : string) (rows : list (list (pystr * json))) : res (list (Z * Z)) :=
  res_fold (fun d r => a ← int_cell r k; b ← int_cell r v; Ok (dset a b d)) [] rows.

Definition team_of (char : list (pystr * json)) (race : Z) : pystr :=
  let team := text_or repr_of (jval char "faction") [] in
  if bool_decide (team = lit "Alliance") || bool_decide (team = lit "Horde") then team
  else default [] (dget race TEAM_BY_RACE).

Definition _wearer (p : Plan) (char : list (pystr * json)) (level race class : Z) : res Wearer :=
  skills ← int_table "skill" "value" (rows_of "character_skills" p);
  spells ← res_map (fun r => int_cell r "spell") (rows_of "character_spell" p);
  relative ← int_table "faction" "standing" (rows_of "character_reputation" p);
  Ok (MkWearer level race class (team_of char race) skills spells
        (Some (fun faction => base ← faction_base_rep faction race class; Ok (base + default 0 (dget faction relative))))).

(** ** The plan *)

Definition spawn_at (spawn : list (pystr * json)) (c : string) : res json := jitem (JDict spawn) (lit c).

(** [max(0, int((char.get("pvpProgress") or {}).get(k) or 0))]. *)
Definition pvp (char : list (pystr * json)) (k : string) : res Z :=
  v ← get_or (jval char "pvpProgress") k; n ← int_or v 0; Ok (Z.max 0 n).

Definition character_row (p : Plan) (char spawn : list (pystr * json)) (race class gender level width : Z)
  : res (list (pystr * json)) :=
  xp ← at_least_0 char "experience";
  money ← at_least_0 char "money";
  x ← spawn_at spawn "position_x"; y ← spawn_at spawn "position_y"; z ← spawn_at spawn "position_z";
  map_ ← spawn_at spawn "map"; o ← spawn_at spawn "orientation"; zone ← spawn_at spawn "zone";
  kills ← pvp char "lifetimeHonorableKills"; honor ← pvp char "honor"; arena ← pvp char "arena";
  Ok (mkrow ([
    ("guid", JInt (pl_guid p)); ("account", pl_account p); ("name", JStr (pl_name p)); ("race", JInt race);
    ("class", JInt class); ("gender", JInt gender); ("level", JInt level); ("xp", JInt xp); ("money", JInt money);
    ("position_x", x); ("position_y", y); ("position_z", z); ("map", map_); ("orientation", o); ("zone", zone);
    ("taximask", JStr (blob TAXIMASK_SIZE)); ("online", JInt 0); ("cinematic", JInt 1); ("totaltime", JInt 0);
    ("leveltime", JInt 0); ("logout_time", JInt clock); ("at_login", JInt (at_login_flags (pl_renamed p) true));
    ("restState", JInt REST_STATE_NOT_RAF_LINKED); ("watchedFaction", JInt WATCHED_FACTION_NONE); ("health", JInt FULL_BAR)]%string
    ++ map (fun c => (c, JInt FULL_BAR)) ["power1"; "power2"; "power3"; "power4"; "power5"; "power6"; "power7"]%string
    ++ [("talentGroupsCount", JInt 1); ("activeTalentGroup", JInt 0); ("exploredZones", JStr (blob EXPLORED_ZONES_SIZE));
    ("equipmentCache", JStr (blob (Z.to_nat width))); ("knownTitles", JStr (blob KNOWN_TITLES_WORDS)); ("chosenTitle", JInt 0);
    ("actionBars", JInt 0); ("totalKills", JInt kills); ("totalHonorPoints", JInt honor); ("arenaPoints", JInt arena)]%string)).

Definition homebind_row (p : Plan) (spawn : list (pystr * json)) : res (list (pystr * json)) :=
  map_ ← spawn_at spawn "map"; zone ← spawn_at spawn "zone";
  x ← spawn_at spawn "position_x"; y ← spawn_at spawn "position_y"; z ← spawn_at spawn "position_z";
  Ok (mkrow [("guid", JInt (pl_guid p)); ("mapId", map_); ("zoneId", zone); ("posX", x); ("posY", y); ("posZ", z)]%string).

(** [plan.rows["characters"][0]["equipmentCache"] = cache]. *)
Definition set_equipment_cache (cache : pystr) (p : Plan) : res Plan :=
  match rows_of "characters" p with
  | [] => Err IndexError
  | r :: rs => Ok (set_rows "characters" (dset (lit "equipmentCache") (JStr cache) r :: rs) p)
  end.

Definition skip_sections (char : list (pystr * json)) (p : Plan) : Plan :=
  foldl (fun p section =>
    let v := jval char section in if py_truthy v then add_skip (SkSection (lit section) v) p else p)
    p ["glyphs"; "companions"; "professionRecipes"; "currencies"]%string.

(** The names as [str] makes them. *)
Definition name_cell (r : list (pystr * json)) : res pystr := v ← jitem (JDict r) (lit "name"); Ok (py_str repr_of v).

(** Who the character is on the target: race, class, gender; account, guid and
    name. *)
Definition identify (args : Args) (char : list (pystr * json)) : res (Plan * Z * Z * Z) :=
  account ← accounts_named [uni_upper (ar_account args); ar_account args];
  account ← (match account with [] => Ok (JInt 0) | r :: _ => jitem (JDict r) (lit "id") end);
  race ← of_mapped (race_id repr_of (jval char "raceToken"));
  class ← resolve_class repr_of (Some _) char;
  gender ← of_mapped (gender_id (jval char "sexId"));
  rows ← character_names;
  taken ← res_map name_cell rows;
  let desired := match ar_name args with Some ((_ :: _) as n) => n | _ => text_or repr_of (jval char "name") [] end in
  '(name, renamed) ← of_mapped (allocate_name desired taken);
  guids ← max_guid "characters";
  top ← scalar guids (JInt 0);
  top ← int_or top 0;
  Ok (MkPlan account (top + 1) name renamed [] [] [], race, class, gender).

(** What the character knows. *)
Definition plan_knowledge (args : Args) (char : list (pystr * json)) (race class : Z) (p : Plan) : res Plan :=
  p ← _plan_spells char p;
  p ← _plan_talents repr_of char class (ar_talents args) p;
  p ← _plan_advancement repr_of char class (ar_catalogue args) p;
  p ← _plan_skills repr_of char p;
  p ← _plan_reputations repr_of char race class p;
  _plan_settings char class (ar_catalogue args) (ar_starter_kit args) p.

Definition build_plan (args : Args) (char : list (pystr * json)) : res Plan :=
  '(p, race, class, gender) ← identify args char;
  guids ← max_guid "item_instance";
  top ← scalar guids (JInt 0);
  next_item_guid ← int_or top 0;
  start ← create_info race class;
  match start with
  | [] => Err ImportError
  | spawn :: _ =>
      width ← equipment_cache_width;
      level ← level_of char;
      r ← character_row p char spawn race class gender level width;
      home ← homebind_row p spawn;
      let p := add "character_homebind" home (add "characters" r p) in
      map_ ← spawn_at spawn "map"; zone ← spawn_at spawn "zone";
      let p := add_note NtAppearance (add_note (NtSpawn map_ zone (jval char "bindLocation")) p) in
      known ← get_or (jval char "titles") "known";
      let p := if py_truthy known then add_skip (SkTitles known) p else p in
      p ← plan_knowledge args char race class p;
      w ← _wearer p char level race class;
      equipment ← iter_or (jval char "equipment");
      bags ← iter_or (jval char "bags");
      '(p, _) ← _plan_items repr_of clock (ar_synthesize args) equipment bags (next_item_guid + 1) (Some w) p;
      cache ← _equipment_cache repr_of p width;
      p ← set_equipment_cache cache p;
      p ← _plan_action_bars repr_of char p;
      p ← _plan_quests repr_of char p;
      p ← _plan_achievements clock char p;
      Ok (skip_sections char p)
  end.

(** ** Validation *)

Definition validate_table (p : Plan) (table : string) : res (list problem) :=
  match rows_of table p with
  | [] => Ok []
  | rows => columns ← table_columns (is_world_table table) table; Ok (table_problems table columns rows)
  end.

(** The problems that make the check of the schema fail. *)
Definition validate_rows (p : Plan) : res (list problem) := l ← res_map (validate_table p) WRITE_ORDER; Ok (concat l).
End Build.

(** ** The transaction *)

(** A statement: which schema, which table, which row. *)
Abbreviation statement := (bool * string * list (pystr * json))%type (only parsing).

(** A connection: what the statements of the open transaction are, what the
    database keeps; a statement or a commit may fail. *)
Class Transactions := {
  conn : Type;
  insert : statement -> conn -> res unit * conn;
  commit : conn -> res unit * conn;
  rollback : conn -> conn;
  pending : conn -> list statement;
  kept_rows : conn -> list statement;
}.

(** A transaction of MySQL: the statements are kept together or not at all, and
    the one that fails leaves no trace. *)
Class TransactionsOk (T : Transactions) := {
  insert_ok s (c c' : conn) : insert s c = (Ok tt, c') -> pending c' = pending c ++ [s] /\ kept_rows c' = kept_rows c;
  insert_err s (c c' : conn) e : insert s c = (Err e, c') -> pending c' = pending c /\ kept_rows c' = kept_rows c;
  commit_ok (c c' : conn) : commit c = (Ok tt, c') -> kept_rows c' = kept_rows c ++ pending c /\ pending c' = [];
  commit_err (c c' : conn) e : commit c = (Err e, c') -> kept_rows c' = kept_rows c;
  rollback_drops (c : conn) : pending (rollback c) = [] /\ kept_rows (rollback c) = kept_rows c;
}.

Section Apply.
Context `{Unicode} `{Database} `{Transactions}.

(** [row[k] = v] for the numbers of the messages. *)
Definition renumber_mail (base : Z) (acc : list (Z * Z) * list (list (pystr * json))) (r : list (pystr * json))
  : res (list (Z * Z) * list (list (pystr * json))) :=
  id ← jitem (JDict r) (lit "id");
  id ← py_int id;
  Ok (dset id (base + id) (fst acc), snd acc ++ [dset (lit "id") (JInt (base + id)) r]).

Definition renumber_item (remap : list (Z * Z)) (r : list (pystr * json)) : res (list (pystr * json)) :=
  id ← jitem (JDict r) (lit "mail_id");
  id ← py_int id;
  new ← res_of_option KeyError (dget id remap);
  Ok (dset (lit "mail_id") (JInt new) r).

(** Mail is numbered after the live table. *)
Definition renumber (p : Plan) : res Plan :=
  match rows_of "mail" p with
  | [] => Ok p
  | mails =>
      rows ← max_mail_id;
      top ← scalar rows (JInt 0);
      base ← int_or top 0;
      '(remap, mails) ← res_fold (renumber_mail base) ([], []) mails;
      items ← res_map (renumber_item remap) (rows_of "mail_items" p);
      let p := set_rows "mail" mails p in
      Ok (match dget (lit "mail_items") (pl_rows p) with Some _ => set_rows "mail_items" items p | None => p end)
  end.

(** The statements of some rows, one after the other, until one fails. *)
Fixpoint insert_rows (stmts : list statement) (c : conn) : res unit * conn :=
  match stmts with
  | [] => (Ok tt, c)
  | s :: stmts => match insert s c with
                  | (Ok _, c) => insert_rows stmts c
                  | (Err e, c) => (Err e, c)
                  end
  end.

Definition table_statements (columns : list (pystr * column)) (table : string) (rows : list (list (pystr * json)))
  : list statement :=
  map (fun r => (is_world_table table, table, fill_required_columns columns r)) rows.

(** The tables in order; what was written of each. *)
Fixpoint insert_tables (p : Plan) (tables : list string) (c : conn) : res (list (string * Z)) * conn :=
  match tables with
  | [] => (Ok [], c)
  | table :: tables =>
      match rows_of table p with
      | [] => insert_tables p tables c
      | rows =>
          match table_columns (is_world_table table) table with
          | Err e => (Err e, c)
          | Ok columns =>
              match insert_rows (table_statements columns table rows) c with
              | (Err e, c) => (Err e, c)
              | (Ok _, c) =>
                  match insert_tables p tables c with
                  | (Ok written, c) => (Ok ((table, pylen rows) :: written), c)
                  | r => r
                  end
              end
          end
      end
  end.

Definition apply_plan (p : Plan) (rehearse : bool) (c : conn) : res (list (string * Z)) * conn :=
  match renumber p with
  | Err e => (Err e, c)
  | Ok p =>
      match insert_tables p WRITE_ORDER c with
      | (Err e, c) => (Err e, rollback c)
      | (Ok written, c) =>
          if rehearse then (Ok written, rollback c)
          else match commit c with
               | (Ok _, c) => (Ok written, c)
               | (Err e, c) => (Err e, rollback c)
               end
      end
  end.
End Apply.

(** ** From the checkpoint to the database

    [preflight] looks for everything that speaks against the import; [import_run] is
    what [main] does with a checkpoint, an open connection and the tables of the
    target: it plans unless a check forbids it, validates, and writes only when
    it was told to and nothing failed.  Of a check the text is left out. *)

Inductive status := OK | WARN | FAIL.

#[export] Instance status_eq_dec : EqDecision status.
Proof. solve_decision. Defined.

(** What a check is called, how it went, and whether it only forbids writing. *)
Record Check := MkCheck { ck_name : string; ck_status : status; ck_write_only : bool }.

Definition blocks_planning (checks : list Check) : bool :=
  existsb (fun c => bool_decide (ck_status c = FAIL) && negb (ck_write_only c)) checks.

Definition blocks_writing (checks : list Check) : list Check := filter (fun c => ck_status c = FAIL) checks.

(** The parts of a worldserver's configuration the importer reads. *)
Record ServerConfig := MkConfig { cf_characters : option pystr; cf_dbc_dir : option pystr }.

(** The entry of a bundle's index. *)
Record BundleEntry := MkEntry { en_character : pystr; en_realm : pystr }.

Section Run.
Context `{Unicode} `{Casing} `{Database} `{Transactions} (repr_of : json -> pystr) (clock : Z).

(** ** Is the realm up? *)

Definition serves_database (c : ServerConfig) (database : pystr) : bool :=
  match cf_characters c with
  | Some d => negb (bool_decide (database = [])) && bool_decide (uni_lower d = uni_lower database)
  | None => false
  end.

(** A server whose configuration could not be read may be this realm. *)
Definition realm_looks_live (characters_db : pystr) (running : list (option ServerConfig)) : bool :=
  let online := match (rows ← online_count; scalar rows (JInt 0)) with Ok v => py_truthy v | Err _ => false end in
  online || existsb (fun c => match c with None => true | Some c => serves_database c characters_db end) running.

(** [same_dir]: the two directories, when both are given, are the same. *)
Definition dbc_conflict (same_dir : pystr -> pystr -> bool) (characters_db : pystr) (dbc_dir : pystr)
    (running : list ServerConfig) : option ServerConfig :=
  match dbc_dir with
  | [] => None
  | _ =>
      find (fun c => serves_database c characters_db
                     && negb (match cf_dbc_dir c with Some d => negb (bool_decide (d = [])) && same_dir d dbc_dir | None => false end))
        running
  end.

(** ** The checks *)

Definition realm_check (args : Args) (live : bool) : Check :=
  let name := "realm stopped"%string in
  if live && negb (ar_allow_online args) then MkCheck name FAIL true
  else if live then MkCheck name WARN false else MkCheck name OK false.

Definition ok_or_fail (name : string) (ok : bool) : Check := MkCheck name (if ok then OK else FAIL) false.

Definition schema_check (label : string) : res Check :=
  rows ← schema_rows label;
  found ← scalar rows JNull;
  Ok (ok_or_fail (label ++ " database")%string (py_truthy found)).

Definition account_check (args : Args) : res Check :=
  upper ← account_named (uni_upper (ar_account args));
  rows ← (match upper with [] => account_named (ar_account args) | _ => Ok upper end);
  Ok (ok_or_fail "target account" (negb (bool_decide (length rows = 0%nat)))).

Definition realm_names : res (list json) := rows ← realm_rows; res_map (fun r => jitem (JDict r) (lit "name")) rows.

Definition identity_check (char : list (pystr * json)) : res Check :=
  names ← realm_names;
  let captured := text_or repr_of (jval char "realmName") [] in
  Ok (MkCheck "realm identity"
        (if existsb (fun n => match n with JStr s => bool_decide (s = captured) | _ => false end) names then OK else WARN) false).

Definition bundle_check (char : list (pystr * json)) (e : BundleEntry) : Check :=
  let differs a b := negb (bool_decide (a = [])) && negb (bool_decide (a = b)) in
  let name := differs (uni_lower (en_character e)) (uni_lower (text_or repr_of (jval char "name") [])) in
  let realm := differs (en_realm e) (text_or repr_of (jval char "realmName") []) in
  MkCheck "bundle index" (if name || realm then WARN else OK) false.

(** The race and the class, when both can be mapped. *)
Definition mappable (resolvers : option Resolvers) (char : list (pystr * json)) : res (option (Z * Z)) :=
  match (race ← of_mapped (race_id repr_of (jval char "raceToken"));
         class ← resolve_class repr_of resolvers char;
         _ ← (match resolvers with Some r => class_name (Resolvers:=r) class | None => Ok [] end);
         Ok (race, class)) with
  | Ok rc => Ok (Some rc)
  | Err MappingError => Ok None
  | Err e => Err e
  end.

Definition start_check (race class : Z) : res (list Check) :=
  if (race =? 0) || (class =? 0) then Ok []
  else start ← create_info race class; Ok [ok_or_fail "start position" (negb (bool_decide (length start = 0%nat)))].

Definition name_check (args : Args) (char : list (pystr * json)) : res Check :=
  rows ← character_names;
  taken ← res_map (name_cell repr_of) rows;
  let desired := match ar_name args with Some ((_ :: _) as n) => n | _ => text_or repr_of (jval char "name") [] end in
  Ok (MkCheck "character name"
        (match allocate_name desired taken with inr (_, renamed) => if renamed then WARN else OK | inl _ => FAIL end) false).

Definition dbc_check (resolvers : option Resolvers) (available : list bool) : Check :=
  MkCheck "DBC resolvers"
    (match resolvers with None => FAIL | Some _ => if forallb id available then OK else WARN end) false.

Definition preflight (args : Args) (char : list (pystr * json)) (resolvers : option Resolvers) (available : list bool)
    (live : bool) (entry : option BundleEntry) (conflict : option ServerConfig) : res (list Check) :=
  auth ← schema_check "auth"; characters ← schema_check "characters"; world ← schema_check "world";
  account ← account_check args;
  identity ← identity_check char;
  mapped ← mappable resolvers char;
  start ← (match mapped with Some (race, class) => start_check race class | None => Ok [] end);
  name ← name_check args char;
  Ok ([realm_check args live; auth; characters; world; account; identity]
      ++ match entry with Some e => [bundle_check char e] | None => [] end
      ++ [ok_or_fail "race / class" (match mapped with Some _ => true | None => false end)]
      ++ start ++ [name; dbc_check resolvers available]
      ++ match conflict with Some _ => [MkCheck "DBC set" FAIL false] | None => [] end).

(** ** The run *)

Inductive outcome :=
  | Usage                                        (* --apply and --rehearse *)
  | Blocked (checks : list Check)
  | DryRun (p : Plan)
  | Rehearsed (written : list (string * Z))
  | Applied (p : Plan) (written : list (string * Z))
  | Failed (e : exn).

(** The plan, unless a check forbids it; a plan that cannot be made is a
    failed check. *)
Definition try_plan (args : Args) (char : list (pystr * json)) (resolvers : option Resolvers) (checks : list Check)
  : res (option Plan * list Check) :=
  match blocks_planning checks, resolvers with
  | false, Some r =>
      match build_plan (H2:=r) repr_of clock args char with
      | Ok p => Ok (Some p, checks)
      | Err (ImportError | MappingError | DbcError) => Ok (None, checks ++ [MkCheck "plan" FAIL false])
      | Err e => Err e
      end
  | _, _ => Ok (None, checks)
  end.

Definition schema_fit (p : option Plan) (checks : list Check) : res (list Check) :=
  match p with
  | None => Ok checks
  | Some p => problems ← validate_rows p; Ok (checks ++ [ok_or_fail "schema fit" (bool_decide (length problems = 0%nat))])
  end.

(** What happens to a plan that may be written. *)
Definition write_plan (args : Args) (checks : list Check) (p : Plan) (c : conn) : outcome * conn :=
  if (ar_apply args || ar_rehearse args) && negb (bool_decide (length (blocks_writing checks) = 0%nat)) then (Blocked checks, c)
  else if ar_rehearse args then
    match apply_plan p true c with (Ok written, c) => (Rehearsed written, c) | (Err e, c) => (Failed e, c) end
  else if negb (ar_apply args) then (DryRun p, c)
  else match apply_plan p false c with (Ok written, c) => (Applied p written, c) | (Err e, c) => (Failed e, c) end.

(** What [main] finds before it plans: the running servers, the files of the
    target, the bundle's entry, a server on other files. *)
Record Surroundings := MkSurroundings {
  su_characters_db : pystr; su_running : list (option ServerConfig); su_resolvers : option Resolvers;
  su_available : list bool; su_entry : option BundleEntry; su_conflict : option ServerConfig }.

Definition checks_of (args : Args) (char : list (pystr * json)) (su : Surroundings) : res (list Check) :=
  preflight args char (su_resolvers su) (su_available su) (realm_looks_live (su_characters_db su) (su_running su))
    (su_entry su) (su_conflict su).

Definition import_run (args : Args) (char : list (pystr * json)) (su : Surroundings) (c : conn) : outcome * conn :=
  if ar_apply args && ar_rehearse args then (Usage, c)
  else
    match (checks ← checks_of args char su;
           '(p, checks) ← try_plan args char (su_resolvers su) checks;
           checks ← schema_fit p checks;
           Ok (p, checks)) with
    | Err e => (Failed e, c)
    | Ok (p, checks) =>
        match p with
        | Some p => if blocks_planning checks then (Blocked checks, c) else write_plan args checks p c
        | None => (Blocked checks, c)
        end
    end.
End Run.
