(* ===== verification/BmsParseSpec.v ===== *)
(** * What reading a checkpoint promises (character-importer/bms_parse.py)

    Every SavedVariables text is parsed to its end or refused; a table becomes a
    list exactly when its keys count from 1; the codes of a file are distinct
    and keep their order; what the checks of a checkpoint let through, and that
    an envelope around a valid payload is accepted and read back. *)
From S2P Require Import Prelude Wire PyFloat Text Format Json Lua LuaParse LuaLex LuaMergeSpec LuaSpec LuaTotal JsonText BmsMap BmsMapSpec BmsParse.

(** ** Every text is parsed or refused *)

(** What the parser raises: its own error, and [int()]'s or a dict's. *)
Definition parse_failure (e : exn) : Prop := e = BmsError \/ e = ValueError \/ e = TypeError.
Lemma own_failure : parse_failure BmsError. Proof. by left. Qed.
#[local] Hint Resolve own_failure : core.

Lemma cut_at_length w : forall s a r, cut_at w s = Some (a, r) -> length s = (length a + length w + length r)%nat.
Proof.
  induction s as [|c s IH]; intros a r; cbn [cut_at].
  - destruct (strip_prefix w []) eqn:E; [|done]. apply strip_prefix_length in E. intros [= <- <-]. done.
  - destruct (strip_prefix w (c :: s)) eqn:E; [apply strip_prefix_length in E; by intros [= <- <-]|].
    destruct (cut_at w s) as [[a' r']|]; [|done]. intros [= <- <-]. specialize (IH _ _ eq_refl). cbn. lia.
Qed.

Lemma long_open_shorter s level r : long_open s = Some (level, r) -> (length r < length s)%nat.
Proof.
  unfold long_open. destruct s as [|c s]; [done|]. destruct (is_next 91 _); [|done]. cbn [tail].
  pose proof (span_shorter (fun c => c =? 61) s). destruct (span _ s) as [eqs r0]. destruct (is_next 91 r0); [|done].
  intros [= <- <-]. destruct r0; cbn in *; lia.
Qed.

Lemma bracket_leaves level s : leaves parse_failure snd (length s) (_long_bracket level s).
Proof.
  unfold _long_bracket. apply leaves_option; [done|]. intros [a r] E. apply cut_at_length in E. cbn [snd].
  destruct (is_next 10 s); [destruct s|]; cbn [tail length] in E |- *; lia.
Qed.

Lemma skip_leaves fuel : forall s, (length s <= fuel)%nat -> leaves parse_failure id (length s) (skip_go fuel s).
Proof.
  induction fuel as [|fuel IH]; intros [|c t] Hf; cbn in Hf; try lia; try (cbn; unfold id; cbn; lia).
  cbn [skip_go]. destruct (lua_blank c); [eapply leaves_le; [apply IH; lia|cbn; lia]|].
  destruct ((c =? 45) && is_next 45 t) eqn:E; [|by cbn]. zbool.
  assert (length (tail t) < length t)%nat as Ht by (destruct t; [done|cbn; lia]).
  destruct (long_open (tail t)) as [[level r]|] eqn:El.
  - apply long_open_shorter in El. eapply leaves_bind; [apply bracket_leaves|]. intros [a r'] Hr. cbn [snd] in Hr.
    eapply leaves_le; [apply IH; lia|cbn; lia].
  - destruct (cut_at [10] (tail t)) as [[a r]|] eqn:Ec; [|cbn; unfold id; cbn; lia].
    apply cut_at_length in Ec. cbn [length] in Ec. eapply leaves_le; [apply IH; lia|cbn; lia].
Qed.

Lemma _skip_leaves s : leaves parse_failure id (length s) (_skip s).
Proof. by apply skip_leaves. Qed.

Lemma match_name_shorter s n r : match_name s = Some (n, r) -> (length r < length s)%nat.
Proof.
  unfold match_name. destruct s as [|c s]; [done|]. destruct (name_start c) eqn:E; [|done]. intros [= E'].
  cbn [span] in E'. unfold name_char in E' at 1. rewrite E in E'. cbn [orb] in E'. pose proof (span_shorter name_char s).
  destruct (span name_char s). injection E' as <- <-. cbn in *. lia.
Qed.

Lemma expect_leaves c s : leaves parse_failure id (length s) (expect c s).
Proof. unfold expect. destruct (is_next c s); [|cbn; done]. destruct s; cbn; unfold id; lia. Qed.

Section Total.
Context `{Unicode}.

Lemma int_failure s e : int_of_str s = Err e -> parse_failure e.
Proof. unfold int_of_str. intros Hs. right; left. repeat case_match; congruence. Qed.

Lemma float_failure s e : float_of_str s = Err e -> parse_failure e.
Proof. unfold float_of_str. intros Hs. right; left. repeat case_match; congruence. Qed.

Lemma num_failure s e : num_value s = Err e -> parse_failure e.
Proof.
  unfold num_value. destruct (is_hex_text s); [done|]. destruct (is_float_text s).
  - destruct (float_of_str s) eqn:E; [done|]. intros [= <-]. by apply float_failure in E.
  - destruct (int_of_str s) eqn:E; [done|]. intros [= <-]. by apply int_failure in E.
Qed.

Lemma escape_leaves s : leaves parse_failure snd (pred (length s)) (string_escape s).
Proof.
  unfold string_escape. destruct s as [|e t]; [by cbn|]. destruct (dget e _SIMPLE_ESCAPES); [cbn; lia|]. destruct (uni_isdigit e) eqn:Ed.
  - destruct (int_of_str _) eqn:Ei; cbn [mbind res_bind]; [|by apply int_failure in Ei].
    destruct (_ >? 255); [by cbn|]. cbn [leaves snd]. rewrite length_drop. unfold escape_digits. cbn [take span]. rewrite Ed.
    destruct (span _ (take 2 t)). cbn. lia.
  - destruct (_ || _); [|cbn; lia]. destruct t as [|a [|b r]]; try by cbn. destruct (_ && _); [|by cbn]. cbn. lia.
Qed.

Lemma quoted_leaves fuel quote : forall s, (length s <= fuel)%nat -> leaves parse_failure snd (length s) (string_go fuel quote s).
Proof.
  induction fuel as [|fuel IH]; intros [|c t] Hf; cbn in Hf; try lia; try by cbn.
  cbn [string_go]. destruct (c =? quote); [cbn; lia|].
  eapply (leaves_bind _ snd _ (length t)); [|intros [d u] Hu; cbn [snd] in Hu].
  { destruct (c =? 92); [|cbn; lia]. eapply leaves_le; [apply escape_leaves|lia]. }
  eapply leaves_bind; [apply IH; lia|]. intros [b r] Hr. cbn in *. lia.
Qed.

Lemma number_leaves s : leaves parse_failure snd (pred (length s)) (_number s).
Proof.
  unfold _number. eapply (leaves_bind _ snd).
  { apply (leaves_option _ snd (pred (length s))); [done|]. intros [x r] E. cbn. unfold lex_num in E. destruct s as [|c t]; [done|]. destruct (c =? 45).
    - destruct (lex_magnitude t) as [[m r1]|] eqn:E1; [|done]. apply magnitude_shorter in E1. injection E as <- <-. cbn. lia.
    - apply magnitude_shorter in E. cbn in *. lia. }
  intros [text r] Hr. destruct (num_value text) eqn:E; cbn [mbind res_bind]; [exact Hr|]. by apply num_failure in E.
Qed.

Lemma plain_leaves s : leaves parse_failure snd (pred (length s)) (plain_value s).
Proof.
  unfold plain_value. destruct s as [|ch t]; [by cbn|]. destruct (_ || _).
  { eapply leaves_bind; [by apply quoted_leaves|]. by intros [str r]. }
  destruct (ch =? 91).
  { destruct (long_open _) as [[level r]|] eqn:E; [|by cbn]. apply long_open_shorter in E.
    eapply leaves_bind; [apply bracket_leaves|]. intros [str r'] Hr. cbn in *. lia. }
  destruct (_ && _); [apply number_leaves|]. destruct (_ || _); [apply number_leaves|].
  eapply (leaves_bind _ snd).
  { apply (leaves_option _ snd (length t)); [done|]. intros [n r] E. apply match_name_shorter in E. cbn in *. lia. }
  intros [word r] Hr. destruct (dget word lua_words); cbn; [exact Hr|done].
Qed.

Lemma keyed_name_shorter s n r : keyed_name s = Some (n, r) -> (length r < length s)%nat.
Proof.
  unfold keyed_name. destruct (match_name s) as [[n' r']|] eqn:E; [|done]. apply match_name_shorter in E. cbn [mbind option_bind].
  pose proof (span_shorter lua_blank r'). destruct (_ && _) eqn:Eb; [|done]. intros [= <- <-].
  destruct (snd (span lua_blank r')); cbn in *; lia.
Qed.

Lemma set_item_failure k v items e : set_item k v items = Err e -> parse_failure e.
Proof. destruct k; try done. intros [= <-]. by do 2 right. Qed.

Lemma value_leaves arrayify fuel :
  (forall s, (2 * length s < fuel)%nat -> leaves parse_failure snd (pred (length s)) (_value arrayify fuel s)) /\
  (forall items k s, (2 * length s + 1 < fuel)%nat -> leaves parse_failure snd (pred (length s)) (_table arrayify fuel items k s)).
Proof.
  induction fuel as [|fuel [IHv IHt]]; [split; lia|]. split; [intros s Hf|intros items k s Hf].
  - cbn [_value]. eapply leaves_bind; [apply _skip_leaves|]. intros s1 Hs1. unfold id in Hs1.
    destruct (is_next 123 s1) eqn:E; [|eapply leaves_le; [apply plain_leaves|lia]].
    destruct s1 as [|c t]; [done|]. cbn in Hs1. eapply leaves_le; [apply IHt; cbn; lia|cbn; lia].
  - cbn [_table]. eapply leaves_bind; [apply _skip_leaves|]. intros s1 Hs1. unfold id in Hs1.
    destruct s1 as [|ch t]; [by cbn|]. cbn in Hs1. destruct (ch =? 125); [cbn; lia|].
    destruct (_ || _); [eapply leaves_le; [apply IHt; lia|lia]|]. destruct (ch =? 91) eqn:E91.
    + destruct (long_open _) as [[level r]|] eqn:E.
      { apply long_open_shorter in E. cbn in E. eapply leaves_bind; [apply bracket_leaves|]. intros [str r'] Hr. cbn [snd] in Hr.
        eapply leaves_le; [apply IHt; lia|lia]. }
      eapply leaves_bind; [apply IHv; lia|]. intros [key r] Hr. cbn [snd] in Hr.
      eapply leaves_bind; [apply _skip_leaves|]. intros r1 H1. unfold id in H1.
      eapply leaves_bind; [apply expect_leaves|]. intros r2 H2. unfold id in H2.
      eapply leaves_bind; [apply _skip_leaves|]. intros r3 H3. unfold id in H3.
      eapply leaves_bind; [apply expect_leaves|]. intros r4 H4. unfold id in H4.
      eapply leaves_bind; [apply IHv; lia|]. intros [v r5] H5. cbn [snd] in H5.
      destruct (set_item key v items) eqn:Es; cbn [mbind res_bind]; [|by apply set_item_failure in Es].
      eapply leaves_le; [apply IHt; lia|lia].
    + destruct (keyed_name (ch :: t)) as [[name r]|] eqn:E.
      * apply keyed_name_shorter in E. cbn in E. eapply leaves_bind; [apply IHv; lia|]. intros [v r1] H1. cbn [snd] in H1.
        eapply leaves_le; [apply IHt; lia|lia].
      * eapply leaves_bind; [apply IHv; cbn; lia|]. intros [v r1] H1. cbn in H1. eapply leaves_le; [apply IHt; lia|lia].
Qed.

Lemma chunk_leaves arrayify fuel : forall globals s, (length s < fuel)%nat ->
  match chunk_go arrayify fuel globals s with Ok _ => True | Err e => parse_failure e end.
Proof.
  induction fuel as [|fuel IH]; intros globals s Hf; [lia|]. cbn [chunk_go].
  pose proof (_skip_leaves s) as Hs. destruct (_skip s) as [s1|e]; cbn [mbind res_bind leaves] in *; [|done]. unfold id in Hs.
  destruct s1 as [|ch t]; [done|]. cbn in Hs. destruct (ch =? 59); [apply IH; lia|].
  destruct (match_name (ch :: t)) as [[name r]|] eqn:E; cbn [res_of_option mbind res_bind]; [|by left]. apply match_name_shorter in E. cbn in E.
  destruct (bool_decide _); [apply IH; lia|].
  pose proof (_skip_leaves r) as H1. destruct (_skip r) as [r1|e]; cbn [mbind res_bind leaves] in *; [|done]. unfold id in H1.
  pose proof (expect_leaves 61 r1) as H2. destruct (expect 61 r1) as [r2|e]; cbn [mbind res_bind leaves] in *; [|done]. unfold id in H2.
  pose proof (proj1 (value_leaves arrayify (rounds r2)) r2) as H3. unfold rounds in *. specialize (H3 ltac:(lia)).
  destruct (_value _ _ r2) as [[v r3]|e]; cbn [mbind res_bind leaves snd] in *; [|done]. apply IH. lia.
Qed.

(** Any text is parsed to its end or refused with one of three exceptions. *)
Lemma parse_lua_ends text arrayify e : parse_lua text arrayify = Err e -> parse_failure e.
Proof.
  unfold parse_lua. intros E. pose proof (chunk_leaves arrayify (S (length text)) [] text ltac:(lia)) as Hc. by rewrite E in Hc.
Qed.
End Total.

(** ** Tables that are lists *)

Definition upto (n : Z) : list Z := map (fun k => 1 + k) (seqZ_from n).

Lemma upto_elem n k : k ∈ upto n <-> 1 <= k <= n.
Proof.
  unfold upto. rewrite list_elem_of_fmap. split.
  - intros (i & -> & Hi%elem_of_seqZ_from). lia.
  - intros Hk. exists (k - 1). rewrite elem_of_seqZ_from. lia.
Qed.

Lemma upto_length n : length (upto n) = Z.to_nat n.
Proof. unfold upto, seqZ_from. by rewrite !length_map, length_seq. Qed.

Lemma upto_sorted n : StronglySorted Z.lt (upto n).
Proof.
  unfold upto, seqZ_from. generalize (Z.to_nat n) as m, 0%nat as i. intros m. induction m as [|m IH]; intros i; cbn; constructor; [apply IH|].
  rewrite Forall_forall. intros x Hx. apply list_elem_of_fmap in Hx as (y & -> & Hy). apply list_elem_of_fmap in Hy as (z & -> & Hz%elem_of_seq). lia.
Qed.

Lemma sorted_NoDup (l : list Z) : StronglySorted Z.lt l -> NoDup l.
Proof.
  induction 1 as [|x l _ IH Hx]; constructor; [|done]. intros Hin. rewrite Forall_forall in Hx. specialize (Hx x Hin). lia.
Qed.

(** The order of distinct integers is a matter of which they are. *)
Lemma sort_upto keys n : keys ≡ₚ upto n -> sort_Z keys = upto n.
Proof.
  intros Hp. assert (NoDup keys) by (rewrite Hp; apply sorted_NoDup, upto_sorted). apply strict_sorted_unique; [by apply sort_Z_strict|apply upto_sorted|].
  intros x. rewrite sort_Z_elem. by rewrite Hp.
Qed.

Lemma int_keys_spec items keys : int_keys items = Some keys <-> map fst items = map VInt keys.
Proof.
  unfold int_keys. rewrite mapM_Some. split.
  - induction 1 as [|[k v] n items keys E _ IH]; [done|]. cbn in *. destruct k; try done. injection E as ->. by rewrite IH.
  - revert keys. induction items as [|[k v] items IH]; intros [|n keys]; cbn; try done. intros [= -> Hr]. constructor; [done|]. by apply IH.
Qed.

Lemma int_key_eqb a b : key_eqb (VInt a) (VInt b) = true -> a = b.
Proof.
  cbn. unfold num_of, num_eqb, fin_compare. rewrite Z.min_id, Z.sub_diag. cbn. rewrite !Z.mul_1_r.
  destruct (Z.compare_spec a b); [done|discriminate..].
Qed.

Lemma int_key_refl a : key_eqb (VInt a) (VInt a) = true.
Proof. cbn. unfold num_of, num_eqb, fin_compare. by rewrite Z.compare_refl. Qed.

Lemma hget_int items keys k v : map fst items = map VInt keys -> NoDup keys -> (VInt k, v) ∈ items -> hget (VInt k) items = Some v.
Proof.
  revert keys. induction items as [|[k' v'] items IH]; intros [|n keys]; cbn [map fst]; try done.
  - intros _ _ Hin. by apply elem_of_nil in Hin.
  - intros [= -> Hr] [Hn Hd]%NoDup_cons [[= <- <-]|Hin]%elem_of_cons; cbn [hget]; [by rewrite int_key_refl|].
    destruct (key_eqb (VInt n) (VInt k)) eqn:E; [|by apply (IH keys)]. apply int_key_eqb in E as <-. exfalso. apply Hn.
    assert (VInt n ∈ map VInt keys) as (m & [= ->] & Hm)%list_elem_of_fmap; [|done]. rewrite <- Hr.
    apply list_elem_of_fmap. by exists (VInt n, v).
Qed.

(** The entries [1 -> l[0]], [2 -> l[1]] and so on. *)
Definition numbered_from_one (l : list lua) : lua_hash := zip (map VInt (upto (pylen l))) l.

Lemma numbered_from_one_keys l : map fst (numbered_from_one l) = map VInt (upto (pylen l)).
Proof. unfold numbered_from_one. apply fst_zip. rewrite length_map, upto_length. unfold pylen. lia. Qed.

Lemma mapM_hget items keys : map fst items = map VInt keys -> NoDup keys -> forall ks l,
  Forall2 (fun k v => (VInt k, v) ∈ items) ks l -> mapM (fun k => hget (VInt k) items) ks = Some l.
Proof. intros Hk Hd ks l Hf. apply mapM_Some. eapply Forall2_impl; [exact Hf|]. intros k v. by apply (hget_int items keys). Qed.

Lemma zip_elem {A} (f : A -> lua) (ks : list A) (l : list lua) (items : list (lua * lua)) :
  length ks = length l -> (forall x, x ∈ zip (map f ks) l -> x ∈ items) -> Forall2 (fun k v => (f k, v) ∈ items) ks l.
Proof.
  revert l. induction ks as [|k ks IH]; intros [|v l]; cbn; try done.
  intros [= Hl] Hin. constructor; [apply Hin; left|]. apply IH; [done|]. intros x Hx. apply Hin. by right.
Qed.

Lemma entries_map items keys (f : Z -> option lua) : map fst items = map VInt keys ->
  (forall k v, (VInt k, v) ∈ items -> f k = Some v) -> items = map (fun k => (VInt k, default VNone (f k))) keys.
Proof.
  revert keys. induction items as [|[k v] items IH]; intros [|n keys]; cbn; try done. intros [= -> Hr] Hg.
  rewrite (Hg n v) by left. cbn. f_equal. apply IH; [done|]. intros. apply Hg. by right.
Qed.

(** A table of the file becomes a list exactly when it is one, numbered from 1,
    in whatever order its entries were written. *)
Lemma arrayified_iff items l : arrayified items = Some l <-> items <> [] /\ items ≡ₚ numbered_from_one l.
Proof.
  assert (forall l, items <> [] -> items ≡ₚ numbered_from_one l -> arrayified items = Some l) as Hback.
  { clear l. intros l Hne Hp. pose proof (fmap_Permutation fst _ _ Hp) as Hf. unfold fmap, list_fmap in Hf.
    change (map fst items ≡ₚ map fst (numbered_from_one l)) in Hf. rewrite numbered_from_one_keys in Hf.
    apply Permutation_map_inv in Hf as (keys & Ek & Hk). symmetry in Hk.
    assert (pylen keys = pylen l) as El by (unfold pylen; rewrite Hk, upto_length; unfold pylen; lia).
    unfold arrayified. destruct items as [|kv items']; [done|]. rewrite (proj2 (int_keys_spec (kv :: items') keys) Ek). cbn [mbind option_bind].
    rewrite El. fold (upto (pylen l)). rewrite (sort_upto keys _ Hk), bool_decide_eq_true_2 by done.
    apply (mapM_hget (kv :: items') keys); [done|rewrite Hk; apply sorted_NoDup, upto_sorted|].
    apply (zip_elem (A:=Z)); [rewrite upto_length; unfold pylen; lia|]. intros x Hx. by rewrite Hp. }
  split; [|intros []; by apply Hback]. intros E. assert (items <> []) as Hne by (by intros ->). split; [done|].
  unfold arrayified in E. destruct items as [|kv items']; [done|]. set (items := kv :: items') in *. clearbody items.
  destruct (int_keys items) as [keys|] eqn:Ek; [|done]. cbn [mbind option_bind] in E. apply int_keys_spec in Ek.
  case_bool_decide as Hs; [|done]. fold (upto (pylen keys)) in Hs. rewrite Hs in E.
  assert (keys ≡ₚ upto (pylen keys)) as Hp by (rewrite <- Hs; symmetry; apply py_sort_perm).
  assert (NoDup keys) as Hd by (rewrite Hp; apply sorted_NoDup, upto_sorted).
  assert (items = zip (map VInt keys) (map snd items)) as Ei by (rewrite <- Ek; clear; by induction items as [|[] ? IH]; cbn; f_equal).
  apply mapM_Some in E. pose proof (Forall2_length _ _ _ E) as Hlen. rewrite upto_length in Hlen. assert (pylen l = pylen keys) as El by (unfold pylen in *; lia). unfold numbered_from_one. rewrite El.
  assert (numbered_from_one l = map (fun k => (VInt k, default VNone (hget (VInt k) items))) (upto (pylen keys))) as En.
  { unfold numbered_from_one. rewrite El. clear -E. induction E as [|k v ks l Hk _ IH]; [done|]. cbn. rewrite Hk. cbn. by rewrite IH. }
  unfold numbered_from_one in En. rewrite El in En. rewrite En, <- Hp.
  assert (items = map (fun k => (VInt k, default VNone (hget (VInt k) items))) keys) as Eitems; [|by rewrite <- Eitems].
  assert (forall k v, (VInt k, v) ∈ items -> hget (VInt k) items = Some v) as Hg by (intros k v; by apply (hget_int items keys)).
  by apply (entries_map items keys (fun k => hget (VInt k) items)).
Qed.

(** ** The codes of a file *)

(** Every value the codes are taken from, in the order they are looked at. *)
Definition code_values (db : lua_hash) : list lua :=
  db_get db "checkpointExport"
  :: match db_get db "checkpointQueueExport" with VStr s => map VStr (splitlines s) | _ => [] end
  ++ match db_get db "checkpointQueue" with
     | VTable ((_ :: _) as l) _ => l
     | VTable [] h => map snd (py_sort str_key_leb h)
     | _ => []
     end.

Definition as_code (v : lua) : option pystr :=
  match v with VStr s => if is_code (strip s) then Some (strip s) else None | _ => None end.

Lemma foldl_mapped {A B C} (f : C -> B -> C) (g : A -> B) l : forall s, foldl (fun s x => f s (g x)) s l = foldl f s (map g l).
Proof. induction l as [|x l IH]; intros s; [done|]. apply IH. Qed.

Lemma extract_values db : extract_checkpoint_codes db = foldl add_code [] (code_values db).
Proof.
  unfold extract_checkpoint_codes, code_values. cbn [foldl]. rewrite foldl_app. set (c0 := add_code [] _).
  assert ((match db_get db "checkpointQueueExport" with
           | VStr s => foldl (fun codes line => add_code codes (VStr line)) c0 (splitlines s) | _ => c0 end)
          = foldl add_code c0 (match db_get db "checkpointQueueExport" with VStr s => map VStr (splitlines s) | _ => [] end)) as ->
    by (destruct (db_get db "checkpointQueueExport"); try done; apply foldl_mapped).
  destruct (db_get db "checkpointQueue") as [| | | | | |l h]; try done. destruct l as [|v l]; [apply foldl_mapped|done].
Qed.

Lemma add_code_as_code codes v : add_code codes v = match as_code v with Some c => set_add c codes | None => codes end.
Proof. destruct v; try done. unfold add_code, as_code. by destruct (is_code _). Qed.

Lemma add_codes l : forall codes, NoDup codes ->
  NoDup (foldl add_code codes l) /\ (forall c, c ∈ foldl add_code codes l <-> c ∈ codes \/ c ∈ omap as_code l)
  /\ exists more, foldl add_code codes l = codes ++ more /\ sublist more (omap as_code l).
Proof.
  induction l as [|v l IH]; intros codes Hd; cbn [foldl omap list_omap].
  { split_and!; [done|set_solver|]. exists []. split; [by rewrite app_nil_r|constructor]. }
  rewrite add_code_as_code. destruct (as_code v) as [c|] eqn:E; [|by apply IH].
  destruct (IH (set_add c codes)) as (H1 & H2 & more & H3 & H4); [by apply set_add_NoDup|]. split_and!; [done| |].
  - intros x. rewrite H2, set_add_elem, elem_of_cons. tauto.
  - rewrite H3. unfold set_add. destruct (decide (c ∈ codes)); [exists more|exists (c :: more)].
    + split; [done|]. by apply sublist_cons.
    + rewrite <- app_assoc. split; [done|]. by apply sublist_skip.
Qed.

(** The codes of a file: no code twice, exactly the values that are one, in the
    order they are looked at, the latest checkpoint first. *)
Lemma extract_codes_spec db :
  let codes := extract_checkpoint_codes db in
  NoDup codes
  /\ (forall c, c ∈ codes <-> exists v, v ∈ code_values db /\ as_code v = Some c)
  /\ sublist codes (omap as_code (code_values db))
  /\ forall c, as_code (db_get db "checkpointExport") = Some c -> head codes = Some c.
Proof.
  cbn zeta. rewrite extract_values. destruct (add_codes (code_values db) [] (NoDup_nil_2)) as (H1 & H2 & more & H3 & H4). split_and!; [done| | |].
  - intros c. rewrite H2, list_elem_of_omap. split; [intros [Hc|]; [by apply elem_of_nil in Hc|done]|by right].
  - rewrite H3. done.
  - intros c Hc. unfold code_values. cbn [foldl]. rewrite add_code_as_code, Hc. cbn [set_add].
    change (set_add c []) with [c]. clear -Hc. generalize (match db_get db "checkpointQueueExport" with VStr s => map VStr (splitlines s) | _ => [] end
       ++ match db_get db "checkpointQueue" with VTable ((_ :: _) as l) _ => l | VTable [] h => map snd (py_sort str_key_leb h) | _ => [] end) as l.
    intros l. destruct (add_codes l [c]) as (_ & _ & m & -> & _); [apply NoDup_singleton|done].
Qed.

(** ** The envelope *)

(** A text with some characters written as a sign and two hexadecimal digits. *)
Inductive spelled : pystr -> pystr -> Prop :=
  | spelled_nil : spelled [] []
  | spelled_plain c t s : c <> 37 -> spelled t s -> spelled (c :: t) (c :: s)
  | spelled_pair a b t s : is_hex a = true -> is_hex b = true -> spelled t s -> spelled (37 :: a :: b :: t) (hex_val a * 16 + hex_val b :: s).

(** The decoder reads exactly the texts so written, each as what it spells. *)
Lemma percent_decode_iff t s : percent_decode t = Ok s <-> spelled t s.
Proof.
  split.
  - revert s. assert (forall n s, (length t <= n)%nat -> percent_decode t = Ok s -> spelled t s) as Hg; [|intros s; by apply (Hg (length t))].
    intros n. revert t. induction n as [|n IH]; intros [|c t] s Hn; cbn in Hn; try lia; cbn [percent_decode]; try (intros [= <-]; constructor).
    destruct (Z.eqb_spec c 37) as [->|Hc].
    + destruct t as [|a [|b r]]; [done..|]. destruct (is_hex a) eqn:Ea, (is_hex b) eqn:Eb; try done. cbn [andb]. intros Hs. inv_bind Hs.
      injection Hs as <-. constructor; [done..|]. apply IH; [cbn in Hn; lia|done].
    + intros Hs. inv_bind Hs. injection Hs as <-. constructor; [done|]. apply IH; [lia|done].
  - induction 1 as [|c t s Hc _ IH|a b t s Ha Hb _ IH]; [done| |]; cbn [percent_decode].
    + rewrite (proj2 (Z.eqb_neq c 37)), IH by done. done.
    + cbn [Z.eqb Pos.eqb]. by rewrite Ha, Hb, IH.
Qed.

(** What is accepted as a character's record. *)
Definition identified `{Unicode} `{Casing} (repr_of : json -> pystr) (d : list (pystr * json)) : Prop :=
  exists c, jval d "character" = JDict c /\ strip (text_or repr_of (jval c "name") []) <> [] /\ strip (text_or repr_of (jval c "realmName") []) <> [].

Definition surveyed (standard : pystr) (d : list (pystr * json)) : Prop :=
  exists c l, jval d "coverage" = JDict c /\ jval c "standard" = JStr standard /\ jval c "domains" = JList l.

Definition valid_payload `{Unicode} `{Casing} repr_of (version stamp : Z) (standard : pystr) (d : list (pystr * json)) : Prop :=
  jval d "schema" = JStr CHECKPOINT_SCHEMA /\ json_is version (jval d "version") = true /\ jval d "sealedAt" = JInt stamp
  /\ identified repr_of d /\ surveyed standard d.

(** A version's prefix and standard, and how its payload is spelled. *)
Inductive envelope : pystr -> Z -> pystr -> Z -> (pystr -> pystr -> Prop) -> Prop :=
  | envelope_2 : envelope (lit "BMSP2") 2 (lit "bms-character-v2") 106 eq
  | envelope_1 : envelope (lit "BMSP1") 1 (lit "bms-character-v1") 100 spelled.

Lemma envelope_known prefix version standard encoding spells : envelope prefix version standard encoding spells ->
  exists allowed, dget prefix _PREFIXES = Some (version, standard, allowed) /\ encoding ∈ (allowed : list Z)
    /\ forall encoded payload, spells encoded payload -> (if encoding =? 100 then percent_decode encoded else Ok encoded) = Ok payload.
Proof.
  intros []; (eexists; split; [reflexivity|]; split; [by left|]); intros encoded payload Hs; cbn [Z.eqb Pos.eqb]; [by subst|by apply percent_decode_iff].
Qed.

Lemma lit_prefix w s : strip_prefix w (w ++ s) = Some s.
Proof. induction w as [|c w IH]; [done|]. cbn. by rewrite Z.eqb_refl. Qed.

Lemma prefix_eq w s r : strip_prefix w s = Some r -> s = w ++ r.
Proof.
  revert s. induction w as [|c w IH]; intros s; cbn [strip_prefix]; [by intros [= ->]|]. destruct s as [|a s]; [done|].
  destruct (Z.eqb_spec c a) as [->|]; [|done]. intros Hr%IH. cbn. by f_equal.
Qed.

Lemma json_text_is_iff t v : json_text_is t v = true <-> v = JStr t.
Proof. destruct v; cbn; try (split; congruence). rewrite bool_decide_eq_true. split; congruence. Qed.

Lemma span_forall (p : Z -> bool) s : Forall (fun c => p c = true) (fst (span p s)).
Proof. induction s as [|c s IH]; cbn; [constructor|]. destruct (p c) eqn:E; [|constructor]. destruct (span p s). by constructor. Qed.

Lemma hex_no_space c : is_hex c = true -> is_space c = false.
Proof. unfold is_hex, is_space, in_range. lia. Qed.

Section Checkpoint.
Context `{Unicode} `{Casing} (repr_of : json -> pystr).

Definition digits_of (ds : pystr) : Prop := ds <> [] /\ Forall (fun c => is_decimal c = true) ds.

Lemma blank_at_iff d k : blank_at repr_of d k = false <-> strip (text_or repr_of (jval d k) []) <> [].
Proof. unfold blank_at. by rewrite bool_decide_eq_false. Qed.

Lemma named_iff v : named_character repr_of v = true <->
  exists c, v = JDict c /\ strip (text_or repr_of (jval c "name") []) <> [] /\ strip (text_or repr_of (jval c "realmName") []) <> [].
Proof.
  destruct v as [| | | | | |c]; cbn [named_character]; try (split; [done|by intros (c & ? & _)]).
  rewrite andb_true_iff, !negb_true_iff, !blank_at_iff. split; [intros []; by exists c|by intros (? & [= <-] & ?)].
Qed.

Lemma covered_iff standard v : covered standard v = true <->
  exists c l, v = JDict c /\ jval c "standard" = JStr standard /\ jval c "domains" = JList l.
Proof.
  destruct v as [| | | | | |c]; cbn [covered]; try (split; [done|by intros (? & ? & ? & _)]).
  rewrite andb_true_iff, json_text_is_iff. split.
  - intros [Hs Hd]. exists c. destruct (jval c "domains") as [| | | | |l|]; try done. by exists l.
  - intros (? & l & [= <-] & Hs & ->). done.
Qed.

(** The checks let through exactly the valid payloads. *)
Lemma check_payload_iff version stamp standard data d :
  check_payload repr_of version stamp standard data = Ok d <-> data = JDict d /\ valid_payload repr_of version stamp standard d.
Proof.
  unfold valid_payload, identified, surveyed. unfold check_payload. destruct data as [| | | | | |d']; try (split; [done|by intros []]).
  rewrite <- json_text_is_iff, <- named_iff. rewrite <- covered_iff.
  destruct (json_text_is CHECKPOINT_SCHEMA (jval d' "schema")) eqn:E1; cbn [negb orb].
  2: { split; [done|]. intros [[= <-] [? _]]. congruence. }
  destruct (json_is version (jval d' "version")) eqn:E2; cbn [negb].
  2: { split; [done|]. intros [[= <-] (_ & ? & _)]. congruence. }
  destruct (match jval d' "sealedAt" with JInt n => n =? stamp | _ => false end) eqn:E3; cbn [negb].
  2: { split; [done|]. intros [[= <-] (_ & _ & E & _)]. rewrite E, Z.eqb_refl in E3. done. }
  assert (jval d' "sealedAt" = JInt stamp) as E3' by (destruct (jval d' "sealedAt"); try done; zbool; by subst).
  destruct (named_character repr_of (jval d' "character")) eqn:E4; cbn [negb].
  2: { split; [done|]. intros [[= <-] (_ & _ & _ & ? & _)]. congruence. }
  destruct (covered standard (jval d' "coverage")) eqn:E5; cbn [negb].
  2: { split; [done|]. intros [[= <-] (_ & _ & _ & _ & ?)]. congruence. }
  split; [intros [= <-]; done|]. by intros [[= <-] _].
Qed.

Lemma match_envelope_eq s prefix ds encoding encoded : match_envelope s = Some (prefix, ds, encoding, encoded) ->
  s = prefix ++ lit "|g=" ++ ds ++ [124; encoding; 61] ++ encoded /\ encoded <> [] /\ digits_of ds.
Proof.
  unfold match_envelope. intros E. destruct (strip_prefix (lit "BMSP") s) as [r0|] eqn:E0; [|done]. apply prefix_eq in E0. cbn [mbind option_bind] in E.
  pose proof (span_app is_decimal r0) as A0. destruct (span is_decimal r0) as [vs r1]. cbn [fst snd] in A0.
  destruct (strip_prefix (lit "|g=") r1) as [r2|] eqn:E1; [|done]. apply prefix_eq in E1. cbn [mbind option_bind] in E.
  pose proof (span_app is_decimal r2) as A1. pose proof (span_forall is_decimal r2) as F1. destruct (span is_decimal r2) as [st r3]. cbn [fst snd] in A1, F1.
  destruct vs as [|v vs]; [done|]. destruct st as [|x st]; [done|]. destruct r3 as [|bar [|en [|eqs [|p more]]]]; try done.
  destruct (_ && _) eqn:Eb; [|done]. zbool. injection E as <- <- <- <-. split_and!; [|done..]. subst s r0 r1 r2 bar eqs. by cbn [app]; rewrite <- ?app_assoc; cbn [app].
Qed.

Lemma match_envelope_complete vs ds encoding encoded :
  digits_of vs -> digits_of ds -> encoding ∈ [100; 106] -> encoded <> [] ->
  match_envelope (lit "BMSP" ++ vs ++ lit "|g=" ++ ds ++ [124; encoding; 61] ++ encoded) = Some (lit "BMSP" ++ vs, ds, encoding, encoded).
Proof.
  intros [Hv Fv] [Hs Fs] Hen Hne. assert (is_decimal 124 = false) as Hbar by (by rewrite decimal_ascii by lia).
  unfold match_envelope. rewrite lit_prefix. cbn [mbind option_bind]. change (lit "|g=" ++ ?r) with (124 :: [103; 61] ++ r).
  rewrite span_all by done. change (124 :: [103; 61] ++ ?r) with (lit "|g=" ++ r). rewrite lit_prefix. cbn [mbind option_bind].
  change ([124; encoding; 61] ++ encoded) with (124 :: encoding :: 61 :: encoded). rewrite span_all by done.
  destruct vs as [|v vs]; [done|]. destruct ds as [|x ds]; [done|]. destruct encoded as [|p more]; [done|].
  apply elem_of_cons in Hen as [->|Hen]; [done|]. by apply list_elem_of_singleton in Hen as ->.
Qed.

(** The code is an envelope of one of the two versions, whose payload is spelled
    as its version spells it, is JSON, and is valid for the version and the
    stamp on the envelope. *)
Definition accepted (code : pystr) (cp : Checkpoint) : Prop :=
  exists standard encoding spells ds encoded payload,
    envelope (cp_prefix cp) (cp_version cp) standard encoding spells
    /\ cp_code cp = strip code
    /\ strip code = cp_prefix cp ++ lit "|g=" ++ ds ++ [124; encoding; 61] ++ encoded
    /\ pylen (strip code) <= MAX_CHECKPOINT_BYTES
    /\ digits_of ds /\ int_of_str ds = Ok (cp_sealed_at cp) /\ 1 <= cp_sealed_at cp <= 9999999999
    /\ encoded <> [] /\ spells encoded payload /\ json_loads payload = Ok (JDict (cp_data cp))
    /\ valid_payload repr_of (cp_version cp) (cp_sealed_at cp) standard (cp_data cp).

Lemma checkpoint_sound code cp : parse_checkpoint repr_of code = Ok cp -> accepted code cp.
Proof.
  unfold parse_checkpoint. intros E. destruct (_ <? _) eqn:El; [done|]. zbool.
  destruct (match_envelope (strip code)) as [[[[prefix ds] encoding] encoded]|] eqn:Em; [|done]. cbn [res_of_option mbind res_bind] in E.
  apply match_envelope_eq in Em as (Em & Hne & Hds).
  destruct (dget prefix _PREFIXES) as [[[version standard] allowed]|] eqn:Ep; [|done]. cbn [res_of_option mbind res_bind] in E.
  case_bool_decide as Hen; [|done]. cbn [negb] in E. inv_bind E. rename v into stamp.
  destruct ((1 <=? stamp) && (stamp <=? 9999999999)) eqn:Es; [|done]. cbn [negb] in E. zbool.
  inv_bind E. rename v into payload. destruct (json_loads payload) as [data|[]] eqn:Ej; try done. cbn [mbind res_bind] in E.
  inv_bind E. apply check_payload_iff in E2 as [-> Hv]. apply Ok_inj in E. subst cp. cbn [cp_prefix cp_version cp_sealed_at cp_data cp_code].
  assert (exists spells, envelope prefix version standard encoding spells /\ spells encoded payload) as (spells & He & Hsp).
  { apply dget_elem_of in Ep. unfold _PREFIXES in Ep. apply elem_of_cons in Ep as [[= -> -> -> ->]|Ep].
    - apply list_elem_of_singleton in Hen as ->. exists eq. split; [constructor|]. by apply Ok_inj in E1.
    - apply list_elem_of_singleton in Ep as [= -> -> -> ->]. apply list_elem_of_singleton in Hen as ->. exists spelled.
      split; [constructor|]. by apply percent_decode_iff. }
  exists standard, encoding, spells, ds, encoded, payload. by split_and!.
Qed.
Lemma checkpoint_complete code cp : accepted code cp -> parse_checkpoint repr_of code = Ok cp.
Proof.
  intros (standard & encoding & spells & ds & encoded & payload & He & Hc & Hcode & Hlen & Hds & Hi & Hr & Hne & Hsp & Hj & Hv).
  unfold parse_checkpoint. rewrite (proj2 (Z.ltb_ge _ _)) by done. rewrite Hcode.
  destruct cp as [prefix version stamp d code']. cbn [cp_prefix cp_version cp_sealed_at cp_data cp_code] in *. subst code'.
  assert (exists vs, digits_of vs /\ prefix = lit "BMSP" ++ vs) as (vs & Hvs & Ep).
  { destruct He; [exists [50]|exists [49]]; (split; [split; [done|]; constructor; [by rewrite decimal_ascii by lia|done]|done]). }
  rewrite Ep, <- app_assoc, match_envelope_complete by (done || (destruct He; set_solver)). rewrite <- Ep. cbn [res_of_option mbind res_bind].
  destruct (envelope_known _ _ _ _ _ He) as (allowed & -> & Hen & Hpay). cbn [res_of_option mbind res_bind].
  rewrite bool_decide_eq_true_2, Hi by done. cbn [negb mbind res_bind].
  rewrite (proj2 (Z.leb_le 1 _)), (proj2 (Z.leb_le _ 9999999999)) by lia. cbn [andb negb].
  rewrite (Hpay _ _ Hsp). cbn [mbind res_bind]. rewrite Hj. cbn [mbind res_bind].
  rewrite (proj2 (check_payload_iff _ _ _ (JDict d) d) (conj eq_refl Hv)). cbn [mbind res_bind]. by rewrite Hcode, Ep, <- app_assoc.
Qed.

(** A text between two characters that are no blanks. *)
Lemma strip_between c s d : is_space c = false -> is_space d = false -> strip (c :: s ++ [d]) = c :: s ++ [d].
Proof.
  intros Hc Hd. unfold strip, rstrip. cbn [lstrip]. rewrite Hc. change (c :: s ++ [d]) with ((c :: s) ++ [d]).
  rewrite rev_app_distr. cbn [rev app lstrip]. rewrite Hd. change (d :: rev s ++ [c]) with ([d] ++ (rev s ++ [c])).
  rewrite rev_app_distr, rev_app_distr, rev_involutive. done.
Qed.

(** However the last character is written, its text ends in no blank. *)
Lemma spelled_last t s d : spelled t (s ++ [d]) -> is_space d = false -> exists u e, t = u ++ [e] /\ is_space e = false.
Proof.
  intros Hs Hd. remember (s ++ [d]) as full eqn:E. revert s E. induction Hs as [|c t full Hc Hs IH|a b t full Ha Hb Hs IH]; intros s E.
  - by destruct s.
  - destruct s as [|x s]; injection E as -> ->; [inversion Hs; subst; by exists [], d|].
    destruct (IH s eq_refl) as (u & e & -> & He). by exists (x :: u), e.
  - destruct s as [|x s]; injection E as E ->.
    + inversion Hs; subst. exists [37; a], b. split; [done|]. by apply hex_no_space.
    + destruct (IH s eq_refl) as (u & e & -> & He). by exists (37 :: a :: b :: u), e.
Qed.

Lemma dumps_dict ascii d : exists body, json_dumps false ascii (JDict d) = (123 :: body) ++ [125].
Proof. by eexists. Qed.

(** Such an envelope has no blank at either end. *)
Lemma sealed_strip ascii prefix version standard encoding spells stamp d encoded :
  envelope prefix version standard encoding spells -> spells encoded (json_dumps false ascii (JDict d)) ->
  let code := prefix ++ lit "|g=" ++ str_of_Z stamp ++ [124; encoding; 61] ++ encoded in strip code = code /\ encoded <> [].
Proof.
  intros He Hsp code. destruct (dumps_dict ascii d) as [body Eb].
  assert (exists u e, encoded = u ++ [e] /\ is_space e = false) as (u & e & Eu & Hesp).
  { rewrite Eb in Hsp. destruct He; [subst encoded; by exists (123 :: body), 125|]. by apply (spelled_last _ (123 :: body) 125). }
  split; [|rewrite Eu; by destruct u]. unfold code. rewrite Eu.
  destruct He; [change (lit "BMSP2") with (66 :: lit "MSP2")|change (lit "BMSP1") with (66 :: lit "MSP1")];
    rewrite <- app_comm_cons, !app_assoc; by apply strip_between.
Qed.

(** An envelope around the JSON of a valid payload is accepted, with the payload
    it was made of. *)
Lemma sealed_accepted ascii prefix version standard encoding spells stamp d encoded :
  let code := prefix ++ lit "|g=" ++ str_of_Z stamp ++ [124; encoding; 61] ++ encoded in
  envelope prefix version standard encoding spells -> spells encoded (json_dumps false ascii (JDict d)) ->
  plain (JDict d) -> valid_payload repr_of version stamp standard d -> 1 <= stamp <= 9999999999 -> pylen code <= MAX_CHECKPOINT_BYTES ->
  accepted code (MkCheckpoint prefix version stamp d code).
Proof.
  intros code He Hsp Hp Hv Hr Hlen. destruct (sealed_strip ascii prefix version standard encoding spells stamp d encoded He Hsp) as [Hst Hne].
  fold code in Hst. exists standard, encoding, spells, (str_of_Z stamp), encoded, (json_dumps false ascii (JDict d)).
  cbn [cp_prefix cp_version cp_sealed_at cp_data cp_code]. rewrite Hst. destruct (str_of_Z_nonneg stamp ltac:(lia)) as (_ & Hd & Hne').
  split_and!; try done; try lia; [|apply int_of_text|by apply json_roundtrip]. split; [done|by apply digits_decimal].
Qed.

Lemma sealed_is_code prefix version standard encoding spells r : envelope prefix version standard encoding spells ->
  is_code (prefix ++ lit "|g=" ++ r) = true.
Proof. by intros []. Qed.

(** ** The file that holds it *)

(** A text between quotes, with some characters written as escapes. *)
Inductive quoted : pystr -> pystr -> Prop :=
  | quoted_nil : quoted [] []
  | quoted_plain c t s : c <> 34 -> c <> 92 -> quoted t s -> quoted (c :: t) (c :: s)
  | quoted_escape e c t s : dget e _SIMPLE_ESCAPES = Some c -> quoted t s -> quoted (92 :: e :: t) (c :: s).

Lemma string_read t s r : quoted t s -> forall fuel, (length t < fuel)%nat -> string_go fuel 34 (t ++ 34 :: r) = Ok (s, r).
Proof.
  induction 1 as [|c t s H34 H92 _ IH|e c t s He _ IH]; intros [|fuel] Hf; cbn in Hf; try lia; [done| |]; cbn [app string_go].
  - rewrite (proj2 (Z.eqb_neq c 34)), (proj2 (Z.eqb_neq c 92)) by done. cbn [mbind res_bind]. by rewrite IH by lia.
  - cbn [Z.eqb Pos.eqb string_escape]. rewrite He. cbn [mbind res_bind]. by rewrite IH by lia.
Qed.

Lemma _string_read t s r : quoted t s -> _string 34 (t ++ 34 :: r) = Ok (s, r).
Proof. intros Hq. apply string_read; [done|]. rewrite length_app. cbn. lia. Qed.

Lemma skip_blank c s : lua_blank c = true -> _skip (c :: s) = _skip s.
Proof. intros Hc. unfold _skip. cbn [length skip_go]. by rewrite Hc. Qed.

Lemma skip_stop c s : lua_blank c = false -> c <> 45 -> _skip (c :: s) = Ok (c :: s).
Proof. intros Hc Hm. unfold _skip. cbn [length skip_go]. by rewrite Hc, (proj2 (Z.eqb_neq c 45)). Qed.

(** What follows the name of the variable in a file with one code. *)
Definition saved_table (t : pystr) : pystr :=
  lit " {" ++ [10; 9; 91; 34] ++ lit "checkpointExport" ++ [34; 93] ++ lit " = " ++ [34] ++ t ++ [34; 44; 10; 125; 10].
Definition codes_file (t : pystr) : pystr := lit "BindMySoulDB =" ++ saved_table t.

Lemma key_quoted : quoted (lit "checkpointExport") (lit "checkpointExport").
Proof. repeat (constructor; [done..|]). constructor. Qed.

(** One step of the parser on each kind of entry. *)
Lemma value_table_step a f s t : _skip s = Ok (123 :: t) -> _value a (S f) s = _table a f [] 1 t.
Proof. intros E. cbn [_value]. by rewrite E. Qed.

Lemma value_string_step a f s t u r : _skip s = Ok (34 :: t) -> _string 34 t = Ok (u, r) -> _value a (S f) s = Ok (VStr u, r).
Proof. intros E E'. cbn [_value]. rewrite E. cbn [mbind res_bind is_next Z.eqb Pos.eqb plain_value orb]. by rewrite E'. Qed.

Lemma table_end_step a f items k s t : _skip s = Ok (125 :: t) -> _table a (S f) items k s = Ok (as_table a items, t).
Proof. intros E. cbn [_table]. by rewrite E. Qed.

Lemma table_comma_step a f items k s t : _skip s = Ok (44 :: t) -> _table a (S f) items k s = _table a f items k t.
Proof. intros E. cbn [_table]. by rewrite E. Qed.

Lemma table_key_step a f items k s t key r r1 r2 v r3 items' :
  _skip s = Ok (91 :: t) -> long_open (91 :: t) = None -> _value a f t = Ok (key, r) ->
  _skip r = Ok (93 :: r1) -> _skip r1 = Ok (61 :: r2) -> _value a f r2 = Ok (v, r3) -> set_item key v items = Ok items' ->
  _table a (S f) items k s = _table a f items' k r3.
Proof.
  intros E El Ek E1 E2 Ev Es. cbn [_table]. rewrite E. cbn [mbind res_bind Z.eqb Pos.eqb orb]. rewrite El, Ek. cbn [mbind res_bind].
  rewrite E1. cbn [mbind res_bind expect is_next Z.eqb Pos.eqb tail]. rewrite E2. cbn [mbind res_bind expect is_next Z.eqb Pos.eqb tail].
  rewrite Ev. cbn [mbind res_bind]. by rewrite Es.
Qed.

Lemma saved_value t s fuel : quoted t s -> (4 <= fuel)%nat ->
  _value true fuel (saved_table t) = Ok (VTable [] [(VStr (lit "checkpointExport"), VStr s)], [10]).
Proof.
  intros Hq Hf. do 4 (destruct fuel as [|fuel]; [lia|]). unfold saved_table.
  pose proof key_quoted as Hk. revert Hk. generalize (lit "checkpointExport") as key. intros key Hk.
  change (lit " {") with [32; 123]. change (lit " = ") with [32; 61; 32].
  rewrite (value_table_step _ _ _ ([10; 9; 91; 34] ++ key ++ [34; 93] ++ [32; 61; 32] ++ [34] ++ t ++ [34; 44; 10; 125; 10]))
    by (cbn [app]; by rewrite skip_blank, skip_stop).
  rewrite (table_key_step _ _ _ _ _ (34 :: key ++ 34 :: (93 :: [32; 61; 32] ++ [34] ++ t ++ [34; 44; 10; 125; 10])) (VStr key)
    (93 :: [32; 61; 32] ++ [34] ++ t ++ [34; 44; 10; 125; 10]) ([32; 61; 32] ++ [34] ++ t ++ [34; 44; 10; 125; 10])
    (32 :: 34 :: t ++ 34 :: [44; 10; 125; 10]) (VStr s) [44; 10; 125; 10] [(VStr key, VStr s)]).
  - rewrite (table_comma_step _ _ _ _ _ [10; 125; 10]) by done. by rewrite (table_end_step _ _ _ _ _ [10]).
  - cbn [app]. by rewrite !skip_blank by done; apply skip_stop.
  - done.
  - eapply value_string_step; [by apply skip_stop|by apply _string_read].
  - by apply skip_stop.
  - cbn [app]. by rewrite skip_blank, skip_stop.
  - eapply value_string_step; [rewrite skip_blank by done; by apply skip_stop|by apply _string_read].
  - done.
Qed.

Lemma chunk_end_step a f g s : _skip s = Ok [] -> chunk_go a (S f) g s = Ok g.
Proof. intros E. cbn [chunk_go]. by rewrite E. Qed.

Lemma chunk_step a f g s c u name r r1 v r2 :
  _skip s = Ok (c :: u) -> c <> 59 -> match_name (c :: u) = Some (name, r) -> name <> lit "local" ->
  _skip r = Ok (61 :: r1) -> _value a (rounds r1) r1 = Ok (v, r2) -> chunk_go a (S f) g s = chunk_go a f (dset name v g) r2.
Proof.
  intros E Hc Em Hn Er Ev. cbn [chunk_go]. rewrite E. cbn [mbind res_bind]. rewrite (proj2 (Z.eqb_neq c 59)), Em by done.
  cbn [res_of_option mbind res_bind]. rewrite bool_decide_eq_false_2, Er by done.
  cbn [mbind res_bind expect is_next Z.eqb Pos.eqb tail]. by rewrite Ev.
Qed.

(** Such a file is read back: its one code. *)
Lemma saved_globals t s : quoted t s ->
  parse_lua (codes_file t) true = Ok [(lit "BindMySoulDB", VTable [] [(VStr (lit "checkpointExport"), VStr s)])].
Proof.
  intros Hq. assert (4 <= length (saved_table t))%nat as Hl by (unfold saved_table; rewrite length_app; cbn; lia).
  pose proof (saved_value t s (rounds (saved_table t)) Hq ltac:(unfold rounds; lia)) as Hv. unfold parse_lua, codes_file.
  assert (exists f, length (lit "BindMySoulDB =" ++ saved_table t) = S f) as [f ->] by (by eexists).
  generalize dependent (saved_table t). intros r Hl Hv.
  rewrite (chunk_step _ _ _ _ 66 (lit "indMySoulDB =" ++ r) (lit "BindMySoulDB") (32 :: 61 :: r) r (VTable [] [(VStr (lit "checkpointExport"), VStr s)]) [10]); [by apply chunk_end_step| | | | | |exact Hv]; try done.
Qed.

Lemma saved_codes t code : quoted t code -> text_ok (codes_file t) -> is_code (strip code) = true ->
  load_codes (flat_map utf8_char (codes_file t)) = Ok [strip code].
Proof.
  intros Hq Hok Hc. unfold load_codes, _read_text.
  assert (exists r, flat_map utf8_char (codes_file t) = 66 :: r) as [r Er] by (by eexists).
  assert (strip_prefix [0xEF; 0xBB; 0xBF] (flat_map utf8_char (codes_file t)) = None) as -> by (by rewrite Er).
  unfold load_savedvariables, _read_text.
  assert (strip_prefix [0xEF; 0xBB; 0xBF] (flat_map utf8_char (codes_file t)) = None) as -> by (by rewrite Er).
  unfold utf8_decode_strict. rewrite (decode_strict_ok _ _ Hok) by done.
  assert (is_code (lstrip (codes_file t)) = false) as -> by reflexivity. rewrite (saved_globals t code Hq). cbn [mbind res_bind].
  cbn [dget]. destruct (decide _); [|done]. set (db := [(VStr _, VStr code)]). assert (db_get db "checkpointExport" = VStr code) as E1 by done.
  assert (db_get db "checkpointQueueExport" = VNone) as E2 by done. assert (db_get db "checkpointQueue" = VNone) as E3 by done.
  cbn [mbind res_bind]. unfold extract_checkpoint_codes. rewrite E1, E2, E3. cbn [add_code]. by rewrite Hc.
Qed.

Lemma decode_failure s e : percent_decode s = Err e -> e = BmsError.
Proof.
  assert (forall n s, (length s <= n)%nat -> percent_decode s = Err e -> e = BmsError) as Hg; [|by apply (Hg (length s))].
  clear s. induction n as [|n IH]; intros [|c t] Hn; cbn in Hn; try lia; cbn [percent_decode]; try done.
  destruct (c =? 37).
  - destruct t as [|a [|b r]]; [by intros [= <-]..|]. destruct (_ && _); [|by intros [= <-]].
    destruct (percent_decode r) eqn:E; [done|]. intros [= <-]. apply (IH r); [cbn in Hn; lia|done].
  - destruct (percent_decode t) eqn:E; [done|]. intros [= <-]. apply (IH t); [lia|done].
Qed.

(** Digits are a number. *)
Lemma int_of_digits ds : (forall c, is_decimal c = true -> is_space c = false) -> digits_of ds -> exists n, int_of_str ds = Ok n.
Proof.
  intros Hdec [Hne Hd]. assert (strip ds = ds) as Hst.
  { destruct ds as [|c ds]; [done|]. pose proof (Hdec c (Forall_inv Hd)) as Hc. destruct ds as [|d ds _] using rev_ind; [unfold strip, rstrip; cbn; rewrite Hc; cbn; by rewrite Hc|].
    apply strip_between; [done|]. apply Hdec. rewrite Forall_forall in Hd. apply Hd. set_solver. }
  unfold int_of_str. rewrite Hst. assert (forall l v, Forall (fun c => is_decimal c = true) l -> l <> [] -> exists n, int_digits l false v = Some n) as Hg.
  { assert (forall l a v, Forall (fun c => is_decimal c = true) l -> a = true \/ l <> [] -> exists n, int_digits l a v = Some n) as Hg; [|intros; apply Hg; auto].
    induction l as [|c l IH]; intros a v Hl Ha; [destruct Ha as [->|]; [by exists v|done]|]. inversion Hl as [|? ? Hc Hl']; subst. cbn [int_digits].
    destruct (Z.eqb_spec c 95) as [->|_]; [by rewrite decimal_ascii in Hc by lia|].
    unfold is_decimal in Hc. destruct (uni_decimal c); [|done]. apply IH; auto. }
  destruct ds as [|c ds]; [done|]. pose proof (Forall_inv Hd) as Hc. cbv beta in Hc.
  destruct (Z.eqb_spec c 45) as [->|_]; [by rewrite decimal_ascii in Hc by lia|].
  destruct (Z.eqb_spec c 43) as [->|_]; [by rewrite decimal_ascii in Hc by lia|].
  destruct (Hg (c :: ds) 0 Hd ltac:(done)) as [n ->]. by exists n.
Qed.

Lemma payload_failure version stamp standard data e : check_payload repr_of version stamp standard data = Err e -> e = BmsError.
Proof. unfold check_payload. intros E. repeat case_match; congruence. Qed.

(** A code is refused with the module's own error only. *)
Lemma checkpoint_refused code e : (forall c, is_decimal c = true -> is_space c = false) -> parse_checkpoint repr_of code = Err e -> e = BmsError.
Proof.
  intros Hdec. unfold parse_checkpoint. destruct (_ <? _); [by intros [= <-]|].
  destruct (match_envelope _) as [[[[prefix ds] encoding] encoded]|] eqn:Em; cbn [res_of_option mbind res_bind]; [|by intros [= <-]].
  apply match_envelope_eq in Em as (_ & _ & Hds). destruct (dget prefix _PREFIXES) as [[[version standard] allowed]|]; cbn [res_of_option mbind res_bind]; [|by intros [= <-]].
  destruct (negb _); [by intros [= <-]|]. destruct (int_of_digits ds Hdec Hds) as [stamp ->]. cbn [mbind res_bind].
  destruct (negb _); [by intros [= <-]|]. destruct (if encoding =? 100 then _ else _) as [payload|e'] eqn:E; cbn [mbind res_bind].
  2: { intros [= <-]. destruct (encoding =? 100); [by apply decode_failure in E|done]. }
  destruct (json_loads payload) as [data|e'] eqn:Ej; [|apply json_loads_ends in Ej as ->; cbn; by intros [= <-]]. cbn [mbind res_bind].
  destruct (check_payload _ _ _ _ _) eqn:Ec; cbn [mbind res_bind]; [done|]. intros [= <-]. by apply payload_failure in Ec.
Qed.


(** C16: What was sealed is read back from the file.  Take any valid payload
    without floats, its JSON in the envelope of either version -- percent
    signs for any of its characters in version 1 -- and the SavedVariables file
    that holds this code between quotes, any of its characters written as
    escapes: the file's one code is that code, and it is accepted as the
    checkpoint with that payload. *)
Theorem saved_checkpoint_read ascii prefix version standard encoding spells stamp d encoded quote_text :
  let code := prefix ++ lit "|g=" ++ str_of_Z stamp ++ [124; encoding; 61] ++ encoded in
  envelope prefix version standard encoding spells -> spells encoded (json_dumps false ascii (JDict d)) ->
  plain (JDict d) -> valid_payload repr_of version stamp standard d -> 1 <= stamp <= 9999999999 -> pylen code <= MAX_CHECKPOINT_BYTES ->
  quoted quote_text code -> text_ok (codes_file quote_text) ->
  load_codes (flat_map utf8_char (codes_file quote_text)) = Ok [code]
  /\ parse_checkpoint repr_of code = Ok (MkCheckpoint prefix version stamp d code).
Proof.
  intros code He Hsp Hp Hv Hr Hlen Hq Hok. destruct (sealed_strip ascii prefix version standard encoding spells stamp d encoded He Hsp) as [Hst _].
  fold code in Hst. split.
  - rewrite (saved_codes quote_text code Hq Hok); rewrite Hst; [done|]. by eapply sealed_is_code.
  - apply checkpoint_complete. by apply (sealed_accepted ascii prefix version standard encoding spells stamp d encoded).
Qed.
End Checkpoint.

(** ** A checkpoint *)

Definition sample_payload (version : Z) (standard : pystr) : list (pystr * json) :=
  [(lit "schema", JStr CHECKPOINT_SCHEMA); (lit "version", JInt version); (lit "sealedAt", JInt 1700000000);
   (lit "character", JDict [(lit "name", JStr (lit "Anna")); (lit "realmName", JStr (lit "Area 52"))]);
   (lit "coverage", JDict [(lit "standard", JStr standard); (lit "domains", JList [JNull; JBool true])])].
Definition payload_1 := sample_payload 1 (lit "bms-character-v1").
Definition payload_2 := sample_payload 2 (lit "bms-character-v2").

(** Every quote as a percent pair; every quote behind a backslash. *)
Definition percented (s : pystr) : pystr := flat_map (fun c => if c =? 34 then [37; 50; 50] else [c]) s.
Definition backslashed (s : pystr) : pystr := flat_map (fun c => if c =? 34 then [92; 34] else [c]) s.

Definition code_1 : pystr := lit "BMSP1|g=1700000000|d=" ++ percented (json_dumps false true (JDict payload_1)).
Definition code_2 : pystr := lit "BMSP2" ++ lit "|g=" ++ str_of_Z 1700000000 ++ [124; 106; 61] ++ json_dumps false true (JDict payload_2).

Lemma sample_decimal c : is_decimal c = true -> is_space c = false.
Proof. unfold is_decimal. cbn. destruct (in_range 48 57 c) eqn:E; [|done]. intros _. unfold is_space, in_range in *. lia. Qed.

Lemma backslashed_quoted s : forallb (fun c => negb (c =? 92)) s = true -> quoted (backslashed s) s.
Proof.
  induction s as [|c s IH]; [constructor|]. cbn [forallb]. intros [Hc Hs]%andb_true_iff. zbool. cbn [backslashed flat_map].
  destruct (Z.eqb_spec c 34) as [->|]; [by apply quoted_escape; [|apply IH]|]. by apply quoted_plain; [| |apply IH].
Qed.

Lemma ascii_scalars s : forallb (in_range 0 127) s = true -> Forall unicode_scalar s.
Proof.
  rewrite forallb_forall, Forall_forall. intros Hs c Hc. specialize (Hs c ltac:(by apply list_elem_of_In)). unfold in_range, unicode_scalar in *. lia.
Qed.

Lemma ascii_text s : forallb (in_range 0 127) s = true -> text_ok s.
Proof.
  unfold text_ok. rewrite Forall_forall. intros Hs c Hc. rewrite forallb_forall in Hs. specialize (Hs c ltac:(by apply list_elem_of_In)).
  unfold in_range, is_char, is_surrogate in *. lia.
Qed.

Lemma payload_2_plain : plain (JDict payload_2).
Proof.
  unfold payload_2, sample_payload.
  repeat first [by apply ascii_scalars | apply plain_dict; [by_decide|] | constructor; cbn [fst snd]].
Qed.

Lemma payload_2_valid : valid_payload (fun _ => []) 2 1700000000 (lit "bms-character-v2") payload_2.
Proof.
  split_and!; [done..| |].
  - by eexists.
  - by eexists _, _.
Qed.


Lemma saved_checkpoint_read_witness :
  load_codes (flat_map utf8_char (codes_file (backslashed code_2))) = Ok [code_2]
  /\ parse_checkpoint (fun _ => []) code_2 = Ok (MkCheckpoint (lit "BMSP2") 2 1700000000 payload_2 code_2).
Proof.
  apply (saved_checkpoint_read (fun _ => []) true (lit "BMSP2") 2 (lit "bms-character-v2") 106 eq 1700000000 payload_2
    (json_dumps false true (JDict payload_2)) (backslashed code_2)).
  - constructor.
  - reflexivity.
  - exact payload_2_plain.
  - exact payload_2_valid.
  - lia.
  - vm_compute. discriminate.
  - apply backslashed_quoted. vm_compute. reflexivity.
  - apply ascii_text. vm_compute. reflexivity.
Defined.

(** Two failures the callers, which handle BmsError only, do not expect. *)
Lemma table_as_key : parse_lua (lit "X = {[{}]=1}") true = Err TypeError.
Proof. reflexivity. Qed.

Lemma superscript_escape : parse_lua (lit "X = " ++ [34; 92; 0xB2; 34]) true = Err ValueError.
Proof. reflexivity. Qed.

(** ** Capabilities *)

(** The records as the addon lists them, and as the older payloads keyed them. *)
Definition listed_capabilities (caps : list (pystr * list (pystr * json))) : json :=
  JList (map (fun kr => JDict ((lit "key", JStr (fst kr)) :: snd kr)) caps).
Definition keyed_capabilities (caps : list (pystr * list (pystr * json))) : json := JDict (map (fun kr => (fst kr, JDict (snd kr))) caps).

Lemma foldl_dset_fresh {A} (r : list (pystr * A)) : forall acc, NoDup (map fst (acc ++ r)) -> foldl (fun r f => dset (fst f) (snd f) r) acc r = acc ++ r.
Proof.
  induction r as [|[k v] r IH]; intros acc Hd; cbn [foldl]; [by rewrite app_nil_r|]. cbn [fst snd].
  assert (dset k v acc = acc ++ [(k, v)]) as ->.
  { apply dset_fresh. unfold dkeys. rewrite map_app in Hd. cbn in Hd. apply NoDup_app in Hd as (_ & Hd & _). intros Hin. apply (Hd k Hin). by left. }
  rewrite IH; rewrite <- app_assoc; done.
Qed.

(** Both forms are the same map. *)
Lemma capability_forms_agree `{Unicode} `{Casing} repr_of (caps : list (pystr * list (pystr * json))) c1 c2 :
  Forall (fun kr => fst kr <> [] /\ NoDup (lit "key" :: map fst (snd kr))) caps ->
  jval c1 "capabilities" = listed_capabilities caps -> jval c2 "capabilities" = keyed_capabilities caps ->
  capability_map repr_of c1 = capability_map repr_of c2.
Proof.
  intros Hok E1 E2. unfold capability_map. rewrite E1, E2. unfold listed_capabilities, keyed_capabilities. cbn zeta iota.
  clear E1 E2. generalize (@nil (pystr * list (pystr * json))) as acc. induction Hok as [|[k r] caps [Hk Hd] _ IH]; intros acc; [done|].
  cbn [map foldl fst snd] in *. rewrite foldl_dset_fresh by done.
  assert (jval ((lit "key", JStr k) :: r) "key" = JStr k) as -> by reflexivity.
  destruct k as [|x k]; [done|]. apply IH.
Qed.
