(* ===== verification/BmsConfig.v ===== *)
(** * The server's configuration and the settings (character-importer/bms_config.py, bms_import.py)

    A worldserver.conf with its DSNs and its data directory, where one is looked
    for, which one a running server names, and how flags, environment and
    configuration give the settings of an import.  Paths are those of a POSIX
    machine, whose files, environment and process listing are the class
    [Machine]; of an error the message is left out. *)
From S2P Require Import Prelude Wire PyFloat Text Format Json Tsv Lua LuaParse LuaLex JsonText BmsMap BmsParse BmsPlan BmsApply BmsParseSpec.

Definition MAX_CONFIG_BYTES : Z := 4 * 1024 * 1024.
Definition CONFIG_FLAGS : list pystr := map lit ["-c"; "-config"; "--config"]%string.
Definition WORLD_KEY : pystr := lit "WorldDatabaseInfo".
Definition LOGIN_KEY : pystr := lit "LoginDatabaseInfo".
Definition CHARACTERS_KEY : pystr := lit "CharacterDatabaseInfo".
Definition DATA_DIR_KEY : pystr := lit "DataDir".
Definition CONFIG_NAMES : list pystr := map lit ["worldserver.conf"; "worldserver.conf.dist"]%string.
Definition LOGIN_CONFIG_NAMES : list pystr := map lit ["authserver.conf"; "authserver.conf.dist"]%string.
Definition WALK_LEVELS : nat := 5.
Definition SUBDIR_SCAN_LEVELS : nat := 4.
Definition SUBDIR_SCAN_LIMIT : nat := 60.
Definition RELATIVE_HINTS : list pystr :=
  map lit ["."; "configs"; "etc"; "../configs"; "../etc"; "../../configs"; "../../etc"]%string.

(** What the importer sees of the machine: [os.path.isfile] and [isdir], the
    bytes of a file, the names of the directories in one, the working and the
    home directory, the environment, what [ps] prints. *)
Class Machine := {
  fs_isfile : pystr -> bool;
  fs_read : pystr -> res bytes;
  fs_isdir : pystr -> bool;
  fs_subdirs : pystr -> list pystr;
  fs_cwd : pystr;
  fs_home : pystr;
  os_env : pystr -> option pystr;
  ps_output : pystr;
}.

(** ** Paths (posixpath) *)

Definition isabs (p : pystr) : bool := is_next 47 p.

Definition path_join (a b : pystr) : pystr :=
  if isabs b then b
  else match a with
       | [] => b
       | _ => if List.last a 0 =? 47 then a ++ b else a ++ 47 :: b
       end.

Definition dirname (p : pystr) : pystr :=
  let head := rev (snd (span (fun c => negb (c =? 47)) (rev p))) in
  if forallb (fun c => c =? 47) head then head else rev (snd (span (fun c => c =? 47) (rev head))).

Definition base_name (p : pystr) : pystr := List.last (split_on 47 p) [].

(** The stack of [normpath], its last component first. *)
Definition norm_step (rooted : bool) (stack : list pystr) (comp : pystr) : list pystr :=
  if bool_decide (comp = []) || bool_decide (comp = lit ".") then stack
  else if bool_decide (comp <> lit "..") || (negb rooted && bool_decide (stack = [])) || bool_decide (head stack = Some (lit ".."))
  then comp :: stack else tail stack.

Definition normpath (p : pystr) : pystr :=
  match p with
  | [] => lit "."
  | _ =>
      let slashes := if isabs p then (if isabs (tail p) && negb (isabs (tail (tail p))) then 2%nat else 1%nat) else 0%nat in
      match replicate slashes 47 ++ join [47] (rev (foldl (norm_step (isabs p)) [] (split_on 47 p))) with
      | [] => lit "."
      | q => q
      end
  end.

(** ** DSNs *)

Record DatabaseInfo := MkDatabaseInfo { di_host : pystr; di_port : Z; di_user : pystr; di_password : pystr; di_database : pystr }.

Definition redacted (d : DatabaseInfo) : pystr :=
  di_user d ++ [64] ++ di_host d ++ [58] ++ str_of_Z (di_port d) ++ [47] ++ di_database d.

Record ServerConf := MkServerConf {
  sc_path : pystr; sc_login : option DatabaseInfo; sc_world : option DatabaseInfo; sc_characters : option DatabaseInfo;
  sc_data_dir : option pystr }.

(** DataDir/dbc, of a directory that is not empty. *)
Definition dbc_dir (c : ServerConf) : option pystr :=
  match sc_data_dir c with Some ((_ :: _) as d) => Some (path_join d (lit "dbc")) | _ => None end.

Definition missing (c : ServerConf) : list pystr :=
  omap (fun kv => match snd kv with None => Some (fst kv) | Some _ => None end)
    [(LOGIN_KEY, sc_login c); (WORLD_KEY, sc_world c); (CHARACTERS_KEY, sc_characters c)]
  ++ match sc_data_dir c with Some (_ :: _) => [] | _ => [DATA_DIR_KEY] end.

(** [%-11s]. *)
Definition padded (width : nat) (s : pystr) : pystr := s ++ replicate (width - length s) 32.

Definition describe (c : ServerConf) : list pystr :=
  (lit "config  " ++ sc_path c)
  :: map (fun kv => lit "  " ++ padded 11 (lit (fst kv)) ++ [32] ++ match snd kv with Some d => redacted d | None => lit "not set" end)
       [("auth"%string, sc_login c); ("characters"%string, sc_characters c); ("world"%string, sc_world c)]
  ++ [lit "  " ++ padded 11 (lit "dbc") ++ [32] ++ match dbc_dir c with Some ((_ :: _) as d) => d | _ => lit "not set" end].

(** What the rest of the importer reads of a configuration. *)
Definition conf_view (c : ServerConf) : ServerConfig := MkConfig (di_database <$> sc_characters c) (dbc_dir c).

Section Read.
Context `{Unicode} `{Machine}.

Definition abspath (p : pystr) : pystr := normpath (if isabs p then p else path_join fs_cwd p).

Definition parse_dsn (value : pystr) : res DatabaseInfo :=
  match map strip (split_on 59 value) with
  | [host; port; user; password; database] =>
      if bool_decide (host = []) || bool_decide (database = []) then Err ConfigError
      else
        match int_of_str port with
        | Ok n => if (1 <=? n) && (n <=? 65535) then Ok (MkDatabaseInfo host n user password database) else Err ConfigError
        | Err ValueError => Err ConfigError
        | Err e => Err e
        end
  | _ => Err ConfigError
  end.

Definition _unquote (value : pystr) : pystr :=
  let v := strip value in
  match v with
  | c :: t => if (1 <? pylen v) && (List.last v 0 =? c) && ((c =? 34) || (c =? 39)) then removelast t else v
  | [] => v
  end.

(** A line: none, a comment, a section, or the pair it assigns. *)
Definition assignment (line : pystr) : option (pystr * pystr) :=
  match strip line with
  | [] => None
  | c :: _ =>
      if (c =? 35) || (c =? 59) || (c =? 91) then None
      else '(key, value) ← cut_at [61] (strip line); Some (strip key, _unquote value)
  end.

Definition pairs_of (text : pystr) : list (pystr * pystr) :=
  foldl (fun d line => match assignment line with Some (k, v) => dset k v d | None => d end) [] (splitlines text).

Definition read_pairs (path : pystr) : res (list (pystr * pystr)) :=
  match fs_read path with
  | Ok b => if MAX_CONFIG_BYTES <? pylen b then Err ConfigError else Ok (pairs_of (utf8_decode_replace b))
  | Err OSError => Err ConfigError
  | Err e => Err e
  end.

(** The DSN a key gives; an empty value is none. *)
Definition dsn_at (key : pystr) (pairs : list (pystr * pystr)) : res (option DatabaseInfo) :=
  match dget key pairs with Some ((_ :: _) as raw) => d ← parse_dsn raw; Ok (Some d) | _ => Ok None end.

Fixpoint sibling_login (dir : pystr) (names : list pystr) : res (option DatabaseInfo) :=
  match names with
  | [] => Ok None
  | name :: names =>
      let sibling := path_join dir name in
      if fs_isfile sibling then
        pairs ← read_pairs sibling;
        login ← dsn_at LOGIN_KEY pairs;
        match login with Some d => Ok (Some d) | None => sibling_login dir names end
      else sibling_login dir names
  end.

Definition _resolve_data_dir (data_dir : option pystr) (config_path : pystr) : option pystr :=
  match data_dir with
  | Some ((_ :: _) as dir) =>
      if isabs dir then Some (normpath dir)
      else
        let config_dir := dirname config_path in
        let resolved := map (fun base => normpath (path_join base dir)) [dirname config_dir; config_dir; fs_cwd] in
        match find (fun c => fs_isdir (path_join c (lit "dbc"))) resolved with Some c => Some c | None => head resolved end
  | _ => None
  end.

Definition read_config (path : pystr) : res ServerConf :=
  if negb (fs_isfile path) then Err ConfigError
  else
    pairs ← read_pairs path;
    let full := abspath path in
    login ← dsn_at LOGIN_KEY pairs;
    world ← dsn_at WORLD_KEY pairs;
    characters ← dsn_at CHARACTERS_KEY pairs;
    login ← (match login with Some d => Ok (Some d) | None => sibling_login (dirname full) LOGIN_CONFIG_NAMES end);
    Ok (MkServerConf full login world characters (_resolve_data_dir (dget DATA_DIR_KEY pairs) full)).

(** ** Looking for one *)

Definition _subdirectories (path : pystr) : list pystr :=
  take SUBDIR_SCAN_LIMIT (py_sort str_leb (filter (fun n => negb (is_next 46 n) = true) (fs_subdirs path))).

Definition add_path (found : list pystr) (path : pystr) : list pystr := set_add (abspath path) found.

Definition add_names (found : list pystr) (dir : pystr) : list pystr :=
  foldl (fun found name => add_path found (path_join dir name)) found CONFIG_NAMES.

(** Upwards from a directory, [levels] more; the first of them also look one
    directory down. *)
Fixpoint walk_up (levels scans : nat) (walk : pystr) (found : list pystr) : list pystr :=
  match levels with
  | O => found
  | S levels =>
      let found := foldl (fun found hint => add_names found (path_join walk hint)) found RELATIVE_HINTS in
      let found := match scans with
                   | O => found
                   | S _ => foldl (fun found sub =>
                              foldl (fun found hint => add_names found (path_join (path_join walk sub) hint)) found
                                [lit "configs"; lit "etc"]) found (_subdirectories walk)
                   end in
      let parent := dirname walk in
      if bool_decide (parent = walk) then found else walk_up levels (pred scans) parent found
  end.

Definition ABSOLUTE_HINTS : list pystr :=
  map lit ["/etc/azerothcore"; "/azerothcore/env/dist/etc"; "/azerothcore/etc"; "/opt/azerothcore/etc"]%string
  ++ [path_join (path_join (path_join (path_join fs_home (lit "azerothcore")) (lit "env")) (lit "dist")) (lit "etc")].

Definition candidate_paths (start : option pystr) : list pystr :=
  let found := match os_env (lit "BMS_SERVER_CONFIG") with Some ((_ :: _) as o) => add_path [] o | _ => [] end in
  let base := abspath (match start with Some ((_ :: _) as s) => s | _ => fs_cwd end) in
  foldl add_names (walk_up WALK_LEVELS SUBDIR_SCAN_LEVELS base found) ABSOLUTE_HINTS.

(** The first of each directory. *)
Fixpoint first_of_each (seen : list pystr) (paths : list pystr) : list pystr :=
  match paths with
  | [] => []
  | p :: paths =>
      if fs_isfile p && negb (bool_decide (dirname p ∈ seen)) then p :: first_of_each (dirname p :: seen) paths
      else first_of_each seen paths
  end.
Definition find_all_configs (start : option pystr) : list pystr := first_of_each [] (candidate_paths start).
Definition find_config (start : option pystr) : option pystr := head (find_all_configs start).

(** ** Asking the running server *)

(** Each line of the listing whose program is a worldserver. *)
Definition worldserver_command_lines : list pystr :=
  filter (fun l => match split_ws l with first :: _ => bool_decide (take 11 (base_name first) = lit "worldserver") | [] => false end = true)
    (map strip (splitlines ps_output)).

Inductive shlex_state := Between | Word (cur : pystr) | Quoted (quote : Z) (cur : pystr).

Definition shlex_blank (c : Z) : bool := (c =? 32) || (c =? 9) || (c =? 13) || (c =? 10).

(** [shlex.split(s, posix=False)]: only at the start of a word does a quote
    begin a quotation, which its partner ends; the quotes stay. *)
Fixpoint shlex_go (s : pystr) (state : shlex_state) : res (list pystr) :=
  match s, state with
  | [], Between => Ok []
  | [], Word cur => Ok [rev cur]
  | [], Quoted _ _ => Err ValueError
  | c :: s, Between =>
      if shlex_blank c then shlex_go s Between
      else if (c =? 34) || (c =? 39) then shlex_go s (Quoted c [c])
      else shlex_go s (Word [c])
  | c :: s, Word cur =>
      if shlex_blank c then ts ← shlex_go s Between; Ok (rev cur :: ts) else shlex_go s (Word (c :: cur))
  | c :: s, Quoted q cur =>
      if c =? q then ts ← shlex_go s Between; Ok (rev (c :: cur) :: ts) else shlex_go s (Quoted q (c :: cur))
  end.

(** The value of the first flag that has one. *)
Fixpoint flag_value (tokens : list pystr) : option pystr :=
  match tokens with
  | [] => None
  | token :: tokens =>
      let '(flag, joined) := match cut_at [61] token with Some (f, j) => (f, Some j) | None => (token, None) end in
      if bool_decide (flag ∈ CONFIG_FLAGS) then
        match (match joined with Some j => j | None => default [] (head tokens) end) with
        | [] => flag_value tokens
        | value => Some value
        end
      else flag_value tokens
  end.

Definition config_from_command_line (line : pystr) : option pystr :=
  match shlex_go line Between with Ok tokens => flag_value (map _unquote tokens) | Err _ => None end.

(** [read_config], or nothing where it fails the way it is meant to. *)
Definition readable_config (path : pystr) : res (option ServerConf) :=
  if fs_isfile path then
    match read_config path with Ok c => Ok (Some c) | Err ConfigError => Ok None | Err e => Err e end
  else Ok None.

Fixpoint running_go (seen lines : list pystr) : res (list (option ServerConf)) :=
  match lines with
  | [] => Ok []
  | line :: lines =>
      match config_from_command_line line with
      | Some path =>
          let path := abspath path in
          if bool_decide (path ∈ seen) then running_go seen lines
          else config ← readable_config path; rest ← running_go (path :: seen) lines; Ok (config :: rest)
      | None => rest ← running_go seen lines; Ok (None :: rest)
      end
  end.
Definition running_servers : res (list (option ServerConf)) := running_go [] worldserver_command_lines.

Definition load_conf (path start : option pystr) : res ServerConf :=
  match path with
  | Some ((_ :: _) as p) => read_config p
  | _ => match find_config start with Some ((_ :: _) as p) => read_config p | _ => Err ConfigError end
  end.

(** ** The settings of an import *)

Definition choose_config (config : option pystr) (no_config : bool) (start : option pystr) (running : list ServerConf)
  : res (option ServerConf * string) :=
  match config with
  | Some ((_ :: _) as p) => c ← read_config p; Ok (Some c, "--config"%string)
  | _ =>
      if no_config then Ok (None, "not read"%string)
      else
        match find_all_configs start, running with
        | [p], _ => c ← read_config p; Ok (Some c, "discovered"%string)
        | _, [c] => Ok (Some c, "running server"%string)
        | _ :: _ :: _, _ => Err ImportError
        | [], _ => Ok (None, "not found"%string)
        end
  end.

Inductive setting := SText (s : pystr) | SPort (n : Z).

Definition SETTINGS : list (string * (string * setting)) :=
  [("host", ("BMS_DB_HOST", SText (lit "127.0.0.1"))); ("port", ("BMS_DB_PORT", SPort 3306)); ("user", ("BMS_DB_USER", SText (lit "root")));
   ("auth_db", ("BMS_AUTH_DB", SText (lit "acore_auth"))); ("characters_db", ("BMS_CHARACTERS_DB", SText (lit "acore_characters")));
   ("world_db", ("BMS_WORLD_DB", SText (lit "acore_world"))); ("dbc_dir", ("BMS_DBC_DIR", SText []))]%string.

(** The configuration's own DSN and what it settles. *)
Definition own_dsn (config : option ServerConf) : option DatabaseInfo :=
  c ← config; match sc_characters c with
              | Some d => Some d
              | None => match sc_world c with Some d => Some d | None => sc_login c end
              end.

Definition named_database (key : string) (d : option DatabaseInfo) : list (string * setting) :=
  match d with Some d => [(key, SText (di_database d))] | None => [] end.

Definition from_config (config : option ServerConf) : list (string * setting) :=
  match own_dsn config with
  | Some d => [("host"%string, SText (di_host d)); ("port"%string, SPort (di_port d)); ("user"%string, SText (di_user d))]
  | None => []
  end
  ++ match config with
     | Some c => named_database "auth_db" (sc_login c) ++ named_database "characters_db" (sc_characters c)
                 ++ named_database "world_db" (sc_world c)
                 ++ match dbc_dir c with Some ((_ :: _) as d) => [("dbc_dir"%string, SText d)] | _ => [] end
     | None => []
     end.

Definition given_setting (v : option setting) : option setting := match v with Some (SText []) => None | _ => v end.

(** Flag, environment, configuration, default. *)
Definition settle (flags : list (string * setting)) (config : list (string * setting)) (attribute : string) (variable : string)
    (fallback : setting) : res (setting * pystr) :=
  match given_setting (dget attribute flags), os_env (lit variable) with
  | Some v, _ => Ok (v, lit "--" ++ map (fun c => if c =? 95 then 45 else c) (lit attribute))
  | None, Some ((_ :: _) as s) =>
      v ← (if bool_decide (attribute = "port"%string) then n ← int_of_str s; Ok (SPort n) else Ok (SText s));
      Ok (v, 36 :: lit variable)
  | None, _ =>
      match dget attribute config with
      | Some v => Ok (v, lit "config")
      | None => Ok (fallback, lit "default")
      end
  end.

Definition setting_text (v : setting) : pystr := match v with SText s => s | SPort n => str_of_Z n end.

(** [_same_dir]. *)
Definition same_dir (a b : pystr) : bool :=
  negb (bool_decide (a = [])) && negb (bool_decide (b = [])) && bool_decide (abspath a = abspath b).

(** What the user gave: the flags, the configuration, the password and the
    variable that may hold it. *)
Record Given := MkGiven {
  gi_flags : list (string * setting); gi_config : option pystr; gi_no_config : bool;
  gi_password : option pystr; gi_password_env : pystr }.

(** The settings with their origins, the password apart from what is shown. *)
Record Settled := MkSettled {
  st_rows : list (string * (setting * pystr)); st_path : option pystr; st_origin : string;
  st_conflict : option ServerConfig; st_password : option pystr; st_password_origin : pystr }.

Definition settle_password (g : Given) (dsn : option DatabaseInfo) : option pystr * pystr :=
  match gi_password g, os_env (gi_password_env g), dsn with
  | Some p, _, _ => (Some p, lit "--password")
  | None, Some ((_ :: _) as p), _ => (None, 36 :: gi_password_env g)
  | None, _, Some (MkDatabaseInfo _ _ _ ((_ :: _) as p) _) => (Some p, lit "config")
  | None, _, _ => (None, lit "not set")
  end.

Definition resolve_settings (g : Given) (start : option pystr) (running : list ServerConf) : res Settled :=
  '(config, origin) ← choose_config (gi_config g) (gi_no_config g) start running;
  rows ← res_map (fun s : string * (string * setting) =>
           v ← settle (gi_flags g) (from_config config) (fst s) (fst (snd s)) (snd (snd s)); Ok (fst s, v)) SETTINGS;
  let value k := match dget k rows with Some (v, _) => setting_text v | None => [] end in
  let '(password, password_origin) := settle_password g (own_dsn config) in
  Ok (MkSettled rows (sc_path <$> config) origin
        (dbc_conflict same_dir (value "characters_db"%string) (value "dbc_dir"%string) (map conf_view running))
        password password_origin).
End Read.

(** ** What the configuration says *)

(** A field of a DSN: no separator, no blank at either end. *)
Definition dsn_field (f : pystr) : Prop := 59 ∉ f /\ strip f = f.

Section Spec.
Context `{Unicode} `{Machine}.

(** A DSN is read as it was written. *)
Lemma dsn_read_back d :
  dsn_field (di_host d) -> dsn_field (di_user d) -> dsn_field (di_password d) -> dsn_field (di_database d) ->
  di_host d <> [] -> di_database d <> [] -> 1 <= di_port d <= 65535 ->
  parse_dsn (join [59] [di_host d; str_of_Z (di_port d); di_user d; di_password d; di_database d]) = Ok d.
Proof.
  intros [Hh Eh] [Hu Eu] [Hp Ep] [Hd Ed] Nh Nd Hport. unfold parse_dsn.
  destruct (str_of_Z_nonneg (di_port d) ltac:(lia)) as (_ & Hdig & Hne).
  rewrite split_on_join; [|done|].
  2: { repeat constructor; try done. intros Hin. rewrite Forall_forall in Hdig. by specialize (Hdig _ Hin). }
  cbn [map]. rewrite Eh, Eu, Ep, Ed. rewrite !bool_decide_eq_false_2 by done. cbn [orb].
  assert (strip (str_of_Z (di_port d)) = str_of_Z (di_port d)) as ->.
  { destruct (str_of_Z (di_port d)) as [|c s] eqn:E; [done|]. assert (forall x, is_digit x = true -> is_space x = false) as Hs
      by (intros x Hx; unfold is_digit, is_space, in_range in *; lia).
    destruct s as [|x s _] using rev_ind; [unfold strip, rstrip; cbn; rewrite (Hs c) by (by apply Forall_inv in Hdig); cbn; by rewrite (Hs c) by (by apply Forall_inv in Hdig)|].
    rewrite Forall_forall in Hdig. unfold strip, rstrip. cbn [lstrip]. rewrite (Hs c) by (apply Hdig; left).
    change (c :: s ++ [x]) with ((c :: s) ++ [x]). rewrite rev_app_distr. cbn [rev app lstrip]. rewrite (Hs x) by (apply Hdig; set_solver).
    change (x :: rev s ++ [c]) with ([x] ++ (rev s ++ [c])). by rewrite !rev_app_distr, rev_involutive. }
  rewrite int_of_str_of_Z by lia. rewrite (proj2 (Z.leb_le 1 _)), (proj2 (Z.leb_le _ 65535)) by lia. by destruct d.
Qed.

(** Of several assignments of a key the last one counts. *)
Lemma last_assignment_counts k text :
  dget k (pairs_of text) = last (omap (fun line => '(k', v) ← assignment line; if bool_decide (k' = k) then Some v else None) (splitlines text)).
Proof.
  unfold pairs_of. induction (splitlines text) as [|line lines IH] using rev_ind; [done|].
  rewrite foldl_app, omap_app. cbn [foldl omap list_omap]. destruct (assignment line) as [[k' v]|]; cbn [mbind option_bind]; [|by rewrite app_nil_r].
  rewrite dget_dset. case_bool_decide as Hk; case_decide; try congruence; [by rewrite last_snoc|by rewrite app_nil_r].
Qed.

(** ** Passwords *)

Definition hidden (d : DatabaseInfo) : DatabaseInfo := MkDatabaseInfo (di_host d) (di_port d) (di_user d) [] (di_database d).
Definition conf_hidden (c : ServerConf) : ServerConf :=
  MkServerConf (sc_path c) (hidden <$> sc_login c) (hidden <$> sc_world c) (hidden <$> sc_characters c) (sc_data_dir c).

(** What is shown of a configuration, the settings it gives, what it lacks, and
    what the rest of the import sees of it do not depend on its passwords. *)
Lemma passwords_not_shown c :
  describe (conf_hidden c) = describe c /\ from_config (Some (conf_hidden c)) = from_config (Some c)
  /\ missing (conf_hidden c) = missing c /\ conf_view (conf_hidden c) = conf_view c.
Proof. by destruct c as [p [] [] [] d]. Qed.

(** ** Looking for one *)

Lemma first_of_each_spec paths : forall seen,
  sublist (first_of_each seen paths) paths
  /\ Forall (fun p => fs_isfile p = true /\ dirname p ∉ seen) (first_of_each seen paths)
  /\ NoDup (map dirname (first_of_each seen paths))
  /\ forall p, p ∈ paths -> fs_isfile p = true -> dirname p ∉ seen ->
       exists q, q ∈ first_of_each seen paths /\ find (fun r => fs_isfile r && bool_decide (dirname r = dirname p)) paths = Some q.
Proof.
  induction paths as [|x paths IH]; intros seen; cbn [first_of_each].
  { split_and!; [constructor..|]. intros p Hp. by apply elem_of_nil in Hp. }
  destruct (fs_isfile x && negb (bool_decide (dirname x ∈ seen))) eqn:E.
  - zbool. rename H1 into Hx. apply bool_decide_eq_false in H2. destruct (IH (dirname x :: seen)) as (I1 & I2 & I3 & I4). split_and!.
    + by apply sublist_skip.
    + constructor; [done|]. eapply Forall_impl; [exact I2|]. intros r [Hr Hs]. split; [done|]. set_solver.
    + cbn [map]. constructor; [|done]. intros (q & Eq & Hq)%list_elem_of_fmap. rewrite Forall_forall in I2. destruct (I2 q Hq) as [_ Hs]. rewrite <- Eq in Hs. set_solver.
    + intros p [->|Hp]%elem_of_cons Hf Hs; cbn [find].
      * rewrite Hx, bool_decide_eq_true_2 by done. exists x. split; [left|done].
      * rewrite Hx. case_bool_decide as Ed; cbn [andb]; [exists x; split; [left|done]|].
        destruct (I4 p Hp Hf) as (q & Hq & Ef); [set_solver|]. exists q. split; [by right|done].
  - destruct (IH seen) as (I1 & I2 & I3 & I4). split_and!; [by apply sublist_cons|done..|].
    intros p Hp Hf Hs. assert (fs_isfile x && bool_decide (dirname x = dirname p) = false) as Ex.
    { apply not_true_iff_false. intros [Hx Ed%bool_decide_eq_true]%andb_true_iff. rewrite Hx, Ed, bool_decide_eq_false_2 in E by done. done. }
    cbn [find]. rewrite Ex. apply elem_of_cons in Hp as [->|Hp]; [|by apply I4]. by rewrite Hf, bool_decide_eq_true_2 in Ex.
Qed.

(** The configurations found: candidates in their order, each a file, one for
    each directory that has any, the first of it. *)
Lemma find_all_configs_spec start :
  sublist (find_all_configs start) (candidate_paths start)
  /\ Forall (fun p => fs_isfile p = true) (find_all_configs start)
  /\ NoDup (map dirname (find_all_configs start))
  /\ forall p, p ∈ candidate_paths start -> fs_isfile p = true ->
       exists q, q ∈ find_all_configs start /\ find (fun r => fs_isfile r && bool_decide (dirname r = dirname p)) (candidate_paths start) = Some q.
Proof.
  unfold find_all_configs. generalize (candidate_paths start) as paths. intros paths.
  destruct (first_of_each_spec paths []) as (I1 & I2 & I3 & I4). split_and!; [exact I1| |exact I3|].
  - eapply Forall_impl; [exact I2|]. by intros p [].
  - intros p Hp Hf. apply I4; [done..|]. set_solver.
Qed.

(** ** The running server *)

Lemma shlex_word w rest : Forall (fun c => shlex_blank c = false) w -> forall cur,
  shlex_go (w ++ 32 :: rest) (Word cur) = (ts ← shlex_go rest Between; Ok ((rev cur ++ w) :: ts)).
Proof.
  induction 1 as [|c w Hc _ IH]; intros cur; cbn [app shlex_go]; [by rewrite app_nil_r|]. rewrite Hc, IH. cbn [rev]. by rewrite <- app_assoc.
Qed.

Lemma shlex_quoted w q rest : q ∉ w -> forall cur,
  shlex_go (w ++ q :: rest) (Quoted q cur) = (ts ← shlex_go rest Between; Ok ((rev cur ++ w ++ [q]) :: ts)).
Proof.
  induction w as [|c w IH]; intros Hq cur; cbn [app shlex_go]; [by rewrite Z.eqb_refl|].
  rewrite (proj2 (Z.eqb_neq c q)) by set_solver. rewrite IH by set_solver. cbn [rev]. by rewrite <- app_assoc.
Qed.

(** The first word of a command line. *)
Lemma shlex_first c w rest : shlex_blank c = false -> c <> 34 -> c <> 39 -> Forall (fun c => shlex_blank c = false) w ->
  shlex_go (c :: w ++ 32 :: rest) Between = (ts ← shlex_go rest Between; Ok ((c :: w) :: ts)).
Proof.
  intros Hc H34 H39 Hw. cbn [shlex_go]. rewrite Hc, (proj2 (Z.eqb_neq c 34)), (proj2 (Z.eqb_neq c 39)) by done. cbn [orb]. by rewrite (shlex_word w rest Hw [c]).
Qed.

Lemma unquote_quoted w : _unquote (34 :: w ++ [34]) = w.
Proof.
  unfold _unquote. rewrite strip_between by done.
  assert (1 <? pylen (34 :: w ++ [34]) = true) as -> by (apply Z.ltb_lt; unfold pylen; rewrite length_cons, length_app; cbn; lia).
  change (34 :: w ++ [34]) with ((34 :: w) ++ [34]) at 1. rewrite List.last_last. cbn. apply removelast_last.
Qed.

(** A flag is no quoted text. *)
Lemma flag_word flag : flag ∈ CONFIG_FLAGS -> exists w, flag = 45 :: w /\ Forall (fun c => shlex_blank c = false) w /\ _unquote flag = flag /\ cut_at [61] flag = None.
Proof.
  intros Hf. unfold CONFIG_FLAGS in Hf. cbn [map] in Hf.
  repeat (apply elem_of_cons in Hf as [->|Hf]; [eexists; split; [reflexivity|]; split_and!; [repeat constructor|reflexivity..]|]). by apply elem_of_nil in Hf.
Qed.

(** The program's own word is no flag. *)
Definition no_flag (w : pystr) : Prop :=
  match cut_at [61] (_unquote w) with Some (f, _) => f ∉ CONFIG_FLAGS | None => _unquote w ∉ CONFIG_FLAGS end.

(** The configuration a running server names, blanks in its path included. *)
Lemma quoted_config_found c exe flag path :
  Forall (fun c => shlex_blank c = false) (c :: exe) -> c <> 34 -> c <> 39 -> no_flag (c :: exe) ->
  flag ∈ CONFIG_FLAGS -> path <> [] -> 34 ∉ path ->
  config_from_command_line ((c :: exe) ++ [32] ++ flag ++ [32; 34] ++ path ++ [34]) = Some path.
Proof.
  intros Hexe H34 H39 Hno Hf Hne Hq. destruct (flag_word flag Hf) as (w & -> & Hw & Eu & Ec). inversion Hexe as [|? ? Hc Hexe']; subst.
  unfold config_from_command_line. cbn [app]. rewrite shlex_first by done. rewrite shlex_first by done.
  cbn [shlex_go shlex_blank Z.eqb Pos.eqb orb]. rewrite (shlex_quoted path 34 [] Hq [34]). cbn [shlex_go mbind res_bind rev app map].
  rewrite Eu, unquote_quoted. unfold no_flag in Hno. cbn [flag_value]. destruct (cut_at [61] (_unquote (c :: exe))) as [[f j]|];
    rewrite (bool_decide_eq_false_2 _ Hno), Ec, bool_decide_eq_true_2 by done; cbn; by destruct path.
Qed.

(** ** Which configuration is believed *)

(** Without a flag a configuration is never guessed: it is the one that was
    found, or the one server that is running where not exactly one was found. *)
Lemma config_not_guessed config start running c origin :
  (config = None \/ config = Some []) -> choose_config config false start running = Ok (Some c, origin) ->
  (exists p, find_all_configs start = [p] /\ read_config p = Ok c) \/ (running = [c] /\ length (find_all_configs start) <> 1%nat).
Proof.
  intros Hc. unfold choose_config. generalize (find_all_configs start) as found. intros found E'.
  destruct Hc as [-> | ->]; destruct found as [|p [|p' ps]].
  all: try (left; exists p; split; [done|]; inv_bind E'; by injection E' as ->).
  all: right; destruct running as [|r [|r' running]]; try done; by injection E' as ->.
Qed.
End Spec.

(** A quoted path joined to its flag is cut at its first blank. *)
Lemma joined_path_cut :
  config_from_command_line (lit "worldserver --config=" ++ [34] ++ lit "/srv/my realm/w.conf" ++ [34]) = Some (34 :: lit "/srv/my").
Proof. reflexivity. Qed.

(** A port in the environment that is no number is a ValueError. *)
Lemma port_text_raises : settle (H0 := {| fs_isfile _ := false; fs_read _ := Err OSError; fs_isdir _ := false; fs_subdirs _ := []; fs_cwd := [];
    fs_home := []; os_env _ := Some (lit "mysql"); ps_output := [] |}) [] [] "port" "BMS_DB_PORT" (SPort 3306) = Err ValueError.
Proof. reflexivity. Qed.
