(* ===== verification/BmsBundle.v ===== *)
(** * Restoration bundles (character-importer/bms_bundle.py, bms_import.py)

    A bundle is a zip with an index, a signed receipt and a zip for each
    character.  Reading one records what its digests agree on; the import takes
    a checkpoint from a bundle, a SavedVariables file or a file of codes, and
    stops at a bundle that does not verify.  Of the archive format, which is
    Python's zipfile, the model has what the code asks of it: the members with
    their declared sizes; SHA-256 is an argument.  Of a check the text is left
    out. *)
From S2P Require Import Prelude Wire PyFloat Text Format Json Tsv Lua LuaParse LuaLex JsonText BmsMap BmsParse BmsPlan BmsApply BmsParseSpec BmsConfig.

Definition MANIFEST_NAME : pystr := lit "restoration-share-manifest.json".
Definition RECEIPT_NAME : pystr := lit "service-export-receipt.json".
Definition FINGERPRINT_NAME : pystr := lit "BUNDLE-FINGERPRINT.txt".
Definition INNER_CHECKPOINT : pystr := lit "checkpoint.bmsp".
Definition INNER_MANIFEST : pystr := lit "restoration-verification-manifest.json".
Definition INNER_RECEIPT : pystr := lit "service-hash-receipt.json".
Definition MANIFEST_SCHEMA : pystr := lit "bind-my-soul/restoration-share-manifest".
Definition SUPPORTED_FORMATS : list pystr := [lit "BMSR2"].
Definition MAX_MEMBERS : Z := 512.
Definition MAX_TOTAL_UNCOMPRESSED : Z := 256 * 1024 * 1024.
Definition MAX_MEMBER_UNCOMPRESSED : Z := 32 * 1024 * 1024.
Definition MAX_JSON_BYTES : Z := 4 * 1024 * 1024.

(** A member of an archive: its name, the size the directory declares, and what
    reading it gives, which fails where the data is damaged. *)
Record Member := MkMember { mb_name : pystr; mb_size : Z; mb_data : res bytes }.
Abbreviation Archive := (list Member) (only parsing).
Definition namelist (a : Archive) : list pystr := map mb_name a.
Definition is_dir (m : Member) : bool := match rev (mb_name m) with c :: _ => c =? 47 | [] => false end.

(** One statement on the bundle, whether it held, and whether it matters. *)
Record BundleCheck := MkBundleCheck { bc_ok : bool; bc_label : string; bc_fatal : bool }.

(** A character's package. *)
Record Package := MkPackage {
  pk_index : Z; pk_path : pystr; pk_code : pystr; pk_checkpoint_sha256 : pystr; pk_package_sha256 : pystr; pk_byte_length : Z;
  pk_character : pystr; pk_character_key : pystr; pk_realm : pystr; pk_realm_slug : pystr; pk_coverage_percentage : json;
  pk_coverage_complete : bool; pk_sealed_at : pystr; pk_local_sequence : json; pk_standard : pystr; pk_checkpoint_version : json;
  pk_checks : list BundleCheck }.

Record Bundle := MkBundle {
  bu_format : pystr; bu_manifest : list (pystr * json); bu_receipt : list (pystr * json); bu_fingerprint : pystr;
  bu_account_username : pystr; bu_created_at : pystr; bu_part_index : json; bu_entries : list Package; bu_checks : list BundleCheck }.

(** [all(check.ok for check in checks if check.fatal)]. *)
Definition passed (checks : list BundleCheck) : bool := forallb (fun c => negb (bc_fatal c) || bc_ok c) checks.
Definition verified (b : Bundle) : bool := passed (bu_checks b) && forallb (fun e => passed (pk_checks e)) (bu_entries b).
Definition codes (b : Bundle) : list pystr := map pk_code (bu_entries b).

(** What the index says of an entry, for the rest of the import. *)
Definition package_entry (e : Package) : BundleEntry := MkEntry (pk_character e) (pk_realm e).

Section Read.
Context `{Unicode} `{Casing} (repr_of : json -> pystr) (sha256_hex : bytes -> pystr) (open_zip : bytes -> option Archive).

Definition is_bundle (raw : bytes) : bool :=
  match open_zip raw with Some a => bool_decide (MANIFEST_NAME ∈ namelist a) | None => false end.

(** The sizes of the members that are files, up to the first that is too large. *)
Fixpoint guard_sizes (total : Z) (a : Archive) : res Z :=
  match a with
  | [] => Ok total
  | m :: a =>
      if is_dir m then guard_sizes total a
      else if MAX_MEMBER_UNCOMPRESSED <? mb_size m then Err BundleError
      else guard_sizes (total + mb_size m) a
  end.

Definition _guard_archive (a : Archive) : res () :=
  if MAX_MEMBERS <? pylen a then Err BundleError
  else total ← guard_sizes 0 a; if MAX_TOTAL_UNCOMPRESSED <? total then Err BundleError else Ok ().

(** Of several members of one name the last is read. *)
Definition _read_member (a : Archive) (name : pystr) : res bytes :=
  match find (fun m => bool_decide (mb_name m = name)) (rev a) with
  | Some m => mb_data m
  | None => Err BundleError
  end.

Definition _read_json (a : Archive) (name : pystr) : res (list (pystr * json)) :=
  raw ← _read_member a name;
  if MAX_JSON_BYTES <? pylen raw then Err BundleError
  else
    match utf8_decode_strict raw with
    | Err _ => Err BundleError
    | Ok text => match json_loads text with Ok (JDict d) => Ok d | Ok _ => Err BundleError | Err _ => Err BundleError end
    end.

(** [SHA256_RE.match]: a line feed may follow. *)
Definition hex_digit_low (c : Z) : bool := in_range 48 57 c || in_range 97 102 c.
Definition sha_shaped (s : pystr) : bool :=
  let s := if (pylen s =? 65) && (List.last s 0 =? 10) then removelast s else s in
  (pylen s =? 64) && forallb hex_digit_low s.

Definition _compare (label : string) (actual expected : pystr) : BundleCheck :=
  MkBundleCheck (sha_shaped (uni_lower expected) && bool_decide (actual = uni_lower expected)) label true.

Definition in_digests (digest : pystr) (pool : json) : bool :=
  match pool with
  | JList l => existsb (fun v => match v with JStr s => bool_decide (digest = uni_lower s) | _ => false end) l
  | _ => false
  end.
Definition _member_present (label : string) (digest : pystr) (pool : json) : BundleCheck :=
  MkBundleCheck (in_digests digest pool) label true.

(** [PACKAGE_PATH_RE.match]. *)
Definition path_char (c : Z) : bool := in_range 48 57 c || in_range 65 90 c || in_range 97 122 c || (c =? 46) || (c =? 95) || (c =? 45).
Definition plain_package_path (s : pystr) : bool :=
  let s := match rev s with c :: r => if c =? 10 then rev r else s | [] => s end in
  match strip_prefix (lit "packages/") s with
  | Some r =>
      match take (length r - 4) r with
      | c :: mid => (in_range 48 57 c || in_range 65 90 c || in_range 97 122 c) && (pylen mid <=? 120) && forallb path_char mid
                    && bool_decide (drop (length r - 4) r = lit ".zip")
      | [] => false
      end
  | None => false
  end.

(** [isinstance(v, int)]. *)
Definition as_int (v : json) : option Z := match v with JInt n => Some n | JBool b => Some (if b then 1 else 0) | _ => None end.

(** [str(d.get(k) or "")]. *)
Definition text_at (d : list (pystr * json)) (k : string) : pystr := text_or repr_of (jval d k) [].

(** ** The bundle as a whole *)

Definition fingerprint_checks (format declared : pystr) (fingerprint : pystr) : list BundleCheck :=
  match filter (fun l => l <> []) (map strip (splitlines fingerprint)) with
  | [] => []
  | ((first :: _) as lines) =>
      (if bool_decide (first = format) then [] else [MkBundleCheck false "fingerprint format tag" true])
      ++ [if negb (bool_decide (declared = [])) && negb (bool_decide (uni_lower (List.last lines []) = declared))
          then MkBundleCheck false "fingerprint agrees with the receipt" true
          else MkBundleCheck true "fingerprint agrees with the receipt" false]
  end.

Definition roster_checks (roster : list (pystr * json)) (entries : Z) : list BundleCheck :=
  match jval roster "checkpointSha256s" with JNull | JList _ => [] | _ => [MkBundleCheck false "roster digest list" true] end
  ++ match as_int (jval roster "characterCount") with
     | Some n => if n =? entries then [] else [MkBundleCheck false "entry count" true]
     | None => []
     end.

Definition bundle_checks (format : pystr) (manifest receipt roster : list (pystr * json)) (fingerprint : pystr) (entries : Z)
  : list BundleCheck :=
  [MkBundleCheck (negb (bool_decide (length receipt = 0%nat))) "export receipt present" (bool_decide (length receipt = 0%nat))]
  ++ fingerprint_checks format (uni_lower (text_at receipt "manifestSha256")) fingerprint
  ++ [MkBundleCheck true "manifest fingerprint" false]
  ++ roster_checks roster entries
  ++ match as_int (jval manifest "partCount") with
     | Some n => if 1 <? n then [MkBundleCheck true "multi-part export" false] else []
     | None => []
     end.

(** ** One package *)

(** What a package's own manifest and receipt say of the digest. *)
Definition inner_checks (inner : Archive) (digest : pystr) (size : Z) : res (list BundleCheck) :=
  manifest ← (if bool_decide (INNER_MANIFEST ∈ namelist inner)
              then d ← _read_json inner INNER_MANIFEST; Ok [_compare "package manifest agrees" digest (uni_lower (text_at d "checkpointSha256"))]
              else Ok []);
  receipt ← (if bool_decide (INNER_RECEIPT ∈ namelist inner)
             then d ← _read_json inner INNER_RECEIPT;
                  Ok (_compare "hash receipt agrees" digest (uni_lower (text_at d "sha256"))
                      :: match as_int (jval d "byteLength") with
                         | Some n => if n =? size then [] else [MkBundleCheck false "hash receipt length" true]
                         | None => []
                         end)
             else Ok []);
  Ok (manifest ++ receipt).

Definition length_checks (declared size : Z) : list BundleCheck :=
  if declared =? 0 then [] else [MkBundleCheck (size =? declared) "checkpoint length" true].

(** The checkpoint inside a package and the checks on it. *)
Definition read_inner (inner : Archive) (expected : pystr) (declared : Z) (roster_digests receipt_digests : json) (signed : bool)
  : res (bytes * list BundleCheck) :=
  _ ← _guard_archive inner;
  if negb (bool_decide (INNER_CHECKPOINT ∈ namelist inner)) then Err BundleError
  else
    checkpoint ← _read_member inner INNER_CHECKPOINT;
    if MAX_CHECKPOINT_BYTES <? pylen checkpoint then Err BundleError
    else
      let digest := sha256_hex checkpoint in
      more ← inner_checks inner digest (pylen checkpoint);
      Ok (checkpoint,
          [_compare "checkpoint digest" digest expected]
          ++ length_checks declared (pylen checkpoint)
          ++ [_member_present "digest in the roster" digest roster_digests]
          ++ (if signed then [_member_present "digest in the signed receipt" digest receipt_digests] else [])
          ++ more).

Definition read_package (a : Archive) (roster_digests receipt_digests : json) (signed : bool) (entry : Z * json) : res Package :=
  match snd entry with
  | JDict d =>
      byte_length ← py_int (or_else (jval d "checkpointByteLength") (JInt 0));
      let path := text_at d "packagePath" in
      let package_sha := uni_lower (text_at d "packageSha256") in
      let checkpoint_sha := uni_lower (text_at d "checkpointSha256") in
      if negb (plain_package_path path) || negb (bool_decide (path ∈ namelist a)) then Err BundleError
      else
        package ← _read_member a path;
        match open_zip package with
        | None => Err BundleError
        | Some inner =>
            '(checkpoint, checks) ← read_inner inner checkpoint_sha byte_length roster_digests receipt_digests signed;
            match utf8_decode_strict checkpoint with
            | Err _ => Err BundleError
            | Ok code =>
                match strip_prefix (lit "BMSP") (lstrip code) with
                | None => Err BundleError
                | Some _ =>
                    Ok (MkPackage (fst entry) path code checkpoint_sha package_sha byte_length
                          (text_at d "characterName") (text_at d "characterKey") (text_at d "realmName") (text_at d "realmSlug")
                          (jval d "coveragePercentage") (py_truthy (jval d "coverageComplete")) (text_at d "sealedAt")
                          (jval d "localSequence") (text_at d "standard") (jval d "checkpointVersion")
                          (_compare "package digest" (sha256_hex package) package_sha :: checks))
                end
            end
        end
  | _ => Err BundleError
  end.

Definition read_bundle (raw : bytes) : res Bundle :=
  match open_zip raw with
  | None => Err BundleError
  | Some a =>
      _ ← _guard_archive a;
      manifest ← _read_json a MANIFEST_NAME;
      receipt ← (if bool_decide (RECEIPT_NAME ∈ namelist a) then _read_json a RECEIPT_NAME else Ok []);
      fingerprint ← (if bool_decide (FINGERPRINT_NAME ∈ namelist a)
                     then b ← _read_member a FINGERPRINT_NAME; Ok (utf8_decode_replace b) else Ok []);
      let format := text_at manifest "format" in
      if negb (json_text_is MANIFEST_SCHEMA (jval manifest "schema")) || negb (bool_decide (format ∈ SUPPORTED_FORMATS)) then Err BundleError
      else
        match jval manifest "entries" with
        | JList ((_ :: _) as entries_raw) =>
            let roster := match jval manifest "roster" with JDict d => d | _ => [] end in
            let signed := negb (bool_decide (length receipt = 0%nat)) in
            entries ← res_map (read_package a (jval roster "checkpointSha256s") (jval receipt "checkpointSha256s") signed)
                         (zip (seqZ_from (pylen entries_raw)) entries_raw);
            Ok (MkBundle format manifest receipt fingerprint (text_at manifest "accountUsername") (text_at manifest "createdAt")
                  (jval manifest "partIndex") entries
                  (bundle_checks format manifest receipt roster fingerprint (pylen entries_raw)))
        | _ => Err BundleError
        end
  end.

(** bms_parse's [load_codes]. *)
Definition load_codes_of (raw : bytes) : res (list pystr) :=
  if is_bundle raw then match read_bundle raw with Ok b => Ok (codes b) | Err BundleError => Err BmsError | Err e => Err e end
  else load_codes raw.

(** ** The checkpoint of an import *)

(** The codes of a file that is neither a bundle nor a SavedVariables file. *)
Definition plain_codes (raw : bytes) : list pystr :=
  filter (fun l => bool_decide (take 4 l = lit "BMSP") = true) (map strip (split_on 10 (newlines (utf8_decode_replace raw)))).

Definition codes_of_file (path : pystr) (raw : bytes) : res (list pystr * option Bundle) :=
  if is_bundle raw then
    match read_bundle raw with
    | Ok b => Ok (codes b, Some b)
    | Err BundleError => Err ImportError
    | Err e => Err e
    end
  else if bool_decide (drop (length (uni_lower path) - 4) (uni_lower path) = lit ".lua") then
    db ← load_savedvariables raw (lit "BindMySoulDB"); Ok (extract_checkpoint_codes db, None)
  else Ok (plain_codes raw, None).

Definition load_checkpoint `{Machine} (path : pystr) (index : Z) : res (Checkpoint * list pystr * option Bundle) :=
  if negb (fs_isfile path) then Err ImportError
  else
    raw ← fs_read path;
    '(codes, bundle) ← codes_of_file path raw;
    if (0 <=? index) && (index <? pylen codes) then
      code ← res_of_option IndexError (codes !! Z.to_nat index);
      checkpoint ← parse_checkpoint repr_of code;
      Ok (checkpoint, codes, bundle)
    else Err ImportError.

(** [main] up to the settings: the checkpoint, unless the bundle it is in does
    not verify and that was not allowed. *)
Definition checkpoint_to_import `{Machine} (allow_unverified : bool) (path : pystr) (index : Z) : res (option (Checkpoint * option Package)) :=
  '(checkpoint, _, bundle) ← load_checkpoint path index;
  match bundle with
  | None => Ok (Some (checkpoint, None))
  | Some b =>
      if negb (verified b) && negb allow_unverified then Ok None
      else Ok (Some (checkpoint, bu_entries b !! Z.to_nat index))
  end.
End Read.

(** ** What a verified bundle is *)

Section Spec.
Context `{Unicode} `{Casing} (repr_of : json -> pystr) (sha256_hex : bytes -> pystr) (open_zip : bytes -> option Archive).

Lemma passed_app l k : passed (l ++ k) = passed l && passed k.
Proof. apply forallb_app. Qed.

Lemma passed_cons c l : passed (c :: l) = passed [c] && passed l.
Proof. apply (passed_app [c] l). Qed.

Lemma passed_compare label actual expected : passed [_compare label actual expected] = true -> actual = uni_lower expected /\ sha_shaped actual = true.
Proof. cbn. rewrite !andb_true_r. intros [Hs Ha%bool_decide_eq_true]%andb_true_iff. split; [done|by rewrite Ha]. Qed.

Lemma passed_member label digest pool : passed [_member_present label digest pool] = true -> in_digests digest pool = true.
Proof. cbn. by rewrite andb_true_r. Qed.

(** The digests of a package that passed its checks. *)
Definition digests_agree (roster_digests receipt_digests : json) (signed : bool) (package checkpoint : bytes) (e : Package) : Prop :=
  sha256_hex package = uni_lower (pk_package_sha256 e) /\ sha256_hex checkpoint = uni_lower (pk_checkpoint_sha256 e)
  /\ sha_shaped (sha256_hex checkpoint) = true
  /\ (pk_byte_length e <> 0 -> pylen checkpoint = pk_byte_length e)
  /\ in_digests (sha256_hex checkpoint) roster_digests = true
  /\ (signed = true -> in_digests (sha256_hex checkpoint) receipt_digests = true).

(** What an entry's package holds. *)
Definition packed (a : Archive) (package checkpoint : bytes) (e : Package) : Prop :=
  plain_package_path (pk_path e) = true /\ _read_member a (pk_path e) = Ok package
  /\ (exists inner, open_zip package = Some inner /\ _read_member inner INNER_CHECKPOINT = Ok checkpoint)
  /\ pylen checkpoint <= MAX_CHECKPOINT_BYTES /\ utf8_decode_strict checkpoint = Ok (pk_code e).

Lemma read_inner_spec inner expected declared roster_digests receipt_digests signed checkpoint checks :
  read_inner repr_of sha256_hex inner expected declared roster_digests receipt_digests signed = Ok (checkpoint, checks) ->
  _read_member inner INNER_CHECKPOINT = Ok checkpoint /\ pylen checkpoint <= MAX_CHECKPOINT_BYTES
  /\ (passed checks = true ->
      sha256_hex checkpoint = uni_lower expected /\ sha_shaped (sha256_hex checkpoint) = true
      /\ (declared <> 0 -> pylen checkpoint = declared) /\ in_digests (sha256_hex checkpoint) roster_digests = true
      /\ (signed = true -> in_digests (sha256_hex checkpoint) receipt_digests = true)).
Proof.
  unfold read_inner. intros E. inv_bind E. destruct (negb _); [done|]. inv_bind E. destruct (_ <? _) eqn:El; [done|]. zbool.
  inv_bind E. apply Ok_inj in E. injection E as -> <-. split_and!; [done|done|].
  rewrite passed_cons, passed_app, (passed_cons (_member_present _ _ _)), passed_app, !andb_true_iff. intros (H1 & H2 & H3 & H4 & _). apply passed_compare in H1 as [H1 Hs]. apply passed_member in H3. split_and!; [done|done| |done|].
  - intros Hd. unfold length_checks in H2. rewrite (proj2 (Z.eqb_neq declared 0)) in H2 by done. cbn in H2. zbool. lia.
  - intros ->. by apply passed_member in H4.
Qed.

Lemma read_package_spec a roster_digests receipt_digests signed entry e :
  read_package repr_of sha256_hex open_zip a roster_digests receipt_digests signed entry = Ok e ->
  exists package checkpoint, packed a package checkpoint e
    /\ (passed (pk_checks e) = true -> digests_agree roster_digests receipt_digests signed package checkpoint e).
Proof.
  unfold read_package. destruct entry as [i [| | | | | |d]]; try done. cbn [fst snd]. intros E. inv_bind E. destruct (_ || _) eqn:Ep; [done|]. zbool.
  inv_bind E. rename v0 into package. destruct (open_zip package) as [inner|] eqn:Ei; [|done].
  destruct (read_inner _ _ _ _ _ _ _ _) as [[checkpoint checks]|] eqn:Er; [|done]. cbn [mbind res_bind] in E.
  destruct (utf8_decode_strict checkpoint) as [code|] eqn:Eu; [|done]. destruct (strip_prefix _ _); [|done]. apply Ok_inj in E. subst e.
  apply read_inner_spec in Er as (Hr & Hl & Hc). exists package, checkpoint. split.
  - split_and!; [done|done|by exists inner|done|done].
  - cbn [pk_checks pk_package_sha256 pk_checkpoint_sha256 pk_byte_length]. rewrite passed_cons, andb_true_iff. intros [Hp Hk]. apply passed_compare in Hp as [Hp _]. destruct (Hc Hk) as (? & ? & ? & ? & ?). by split_and!.
Qed.

(** The roster's and the receipt's digests. *)
Definition roster_digests (b : Bundle) : json :=
  jval (match jval (bu_manifest b) "roster" with JDict d => d | _ => [] end) "checkpointSha256s".
Definition receipt_digests (b : Bundle) : json := jval (bu_receipt b) "checkpointSha256s".

Lemma read_bundle_spec raw b : read_bundle repr_of sha256_hex open_zip raw = Ok b ->
  (verified b = true -> bu_receipt b <> [])
  /\ exists a, open_zip raw = Some a /\ Forall (fun e => exists package checkpoint, packed a package checkpoint e
       /\ (passed (pk_checks e) = true ->
           digests_agree (roster_digests b) (receipt_digests b) (negb (bool_decide (length (bu_receipt b) = 0%nat))) package checkpoint e)) (bu_entries b).
Proof.
  unfold read_bundle. destruct (open_zip raw) as [a|]; [|done]. intros E. inv_bind E. inv_bind E. rename v0 into manifest. inv_bind E. rename v0 into receipt.
  inv_bind E. rename v0 into fingerprint. destruct (_ || _); [done|]. destruct (jval manifest "entries") as [| | | | |[|r l]|]; try done.
  inv_bind E. rename v0 into entries. apply Ok_inj in E. subst b. cbn [bu_receipt bu_entries roster_digests receipt_digests bu_manifest]. split.
  - intros Hv ->. unfold verified in Hv. cbn [bu_checks bu_entries] in Hv. unfold bundle_checks in Hv. by rewrite passed_app in Hv.
  - exists a. split; [done|]. apply res_map_Forall2 in E4. rewrite Forall_forall. intros e He.
    apply list_elem_of_lookup in He as [i Hi]. destruct (Forall2_lookup_r _ _ _ _ _ E4 Hi) as (x & _ & Hx). by apply read_package_spec in Hx.
Qed.

Lemma verified_entry b e : verified b = true -> e ∈ bu_entries b -> passed (pk_checks e) = true.
Proof. unfold verified. rewrite andb_true_iff, forallb_forall. intros [_ Hv] He. apply Hv. by apply list_elem_of_In. Qed.

(** What a verified bundle holds is what its index, its roster and the service's
    receipt name by their digests. *)
Lemma verified_bundle raw b e : read_bundle repr_of sha256_hex open_zip raw = Ok b -> verified b = true -> e ∈ bu_entries b ->
  exists a package checkpoint, open_zip raw = Some a /\ packed a package checkpoint e
    /\ digests_agree (roster_digests b) (receipt_digests b) true package checkpoint e.
Proof.
  intros Hb Hv He. apply read_bundle_spec in Hb as (Hr & a & Ha & Hf). specialize (Hr Hv). rewrite Forall_forall in Hf.
  destruct (Hf e He) as (package & checkpoint & Hp & Hd). exists a, package, checkpoint. split_and!; [done..|].
  specialize (Hd (verified_entry b e Hv He)). rewrite bool_decide_eq_false_2 in Hd; [done|]. by destruct (bu_receipt b).
Qed.
End Spec.

Section Admission.
Context `{Unicode} `{Casing} `{Machine} (repr_of : json -> pystr) (sha256_hex : bytes -> pystr) (open_zip : bytes -> option Archive).

Lemma load_checkpoint_bundle path index cp l b : load_checkpoint repr_of sha256_hex open_zip path index = Ok (cp, l, Some b) ->
  exists raw code, fs_read path = Ok raw /\ read_bundle repr_of sha256_hex open_zip raw = Ok b
    /\ pk_code <$> bu_entries b !! Z.to_nat index = Some code /\ parse_checkpoint repr_of code = Ok cp.
Proof.
  unfold load_checkpoint. intros E. destruct (negb _); [done|]. inv_bind E. rename v into raw.
  destruct (codes_of_file _ _ _ _ _) as [[codes' bundle]|] eqn:Ec; [|done]. cbn [mbind res_bind] in E. destruct (_ && _); [|done].
  inv_bind E. rename v into code. inv_bind E. apply Ok_inj in E. injection E as -> -> ->.
  unfold codes_of_file in Ec. destruct (is_bundle open_zip raw).
  - destruct (read_bundle _ _ _ raw) as [b'|[]] eqn:Eb; try done. apply Ok_inj in Ec. injection Ec as <- ->.
    exists raw, code. split_and!; [done|done| |done]. unfold codes in E1. rewrite <- list_lookup_fmap. change (fmap pk_code) with (map pk_code). by destruct (map pk_code _ !! _); [apply Ok_inj in E1 as ->|].
  - destruct (bool_decide _); [|done]. by destruct (load_savedvariables raw _).
Qed.

End Admission.

(** ** A bundle *)

(** Archives and digests small enough to evaluate. *)
Definition toy_sha (b : bytes) : pystr := replicate 60 48 ++ map (fun d => 48 + d) [pylen b / 1000 mod 10; pylen b / 100 mod 10; pylen b / 10 mod 10; pylen b mod 10].

Definition sample_path : pystr := lit "packages/001-anna.zip".
Definition sample_inner : Archive := [MkMember INNER_CHECKPOINT (pylen code_2) (Ok code_2)].
Definition sample_package : bytes := [80; 75].
Definition sample_digests : json := JList [JStr (toy_sha code_2)].
Definition sample_manifest : json :=
  JDict [(lit "schema", JStr MANIFEST_SCHEMA); (lit "format", JStr (lit "BMSR2"));
         (lit "roster", JDict [(lit "checkpointSha256s", sample_digests); (lit "characterCount", JInt 1)]);
         (lit "entries", JList [JDict [(lit "packagePath", JStr sample_path); (lit "packageSha256", JStr (toy_sha sample_package));
                                       (lit "checkpointSha256", JStr (toy_sha code_2)); (lit "checkpointByteLength", JInt (pylen code_2))]])].
Definition sample_receipt : json := JDict [(lit "checkpointSha256s", sample_digests)].
Definition json_member (name : pystr) (v : json) : Member := let text := json_dumps false true v in MkMember name (pylen text) (Ok text).

(** With the receipt, or without it. *)
Definition sample_archive (signed : bool) : Archive :=
  json_member MANIFEST_NAME sample_manifest :: MkMember sample_path 2 (Ok sample_package)
  :: if signed then [json_member RECEIPT_NAME sample_receipt] else [].
Definition toy_zip (b : bytes) : option Archive :=
  match b with
  | [1] => Some (sample_archive true)
  | [2] => Some (sample_archive false)
  | [80; 75] => Some sample_inner
  | _ => None
  end.

Definition sample_machine : Machine := {|
  fs_isfile _ := true; fs_read p := Ok (if bool_decide (p = lit "signed") then [1] else [2]); fs_isdir _ := false; fs_subdirs _ := [];
  fs_cwd := lit "/"; fs_home := lit "/root"; os_env _ := None; ps_output := [] |}.


(** Failures [main] does not expect of a file it is given: a length that is a
    text, a member that is damaged, a SavedVariables file that does not parse. *)
Lemma length_text_raises a :
  read_package (fun _ => []) toy_sha toy_zip a JNull JNull false (0, JDict [(lit "checkpointByteLength", JStr (lit "many"))]) = Err ValueError.
Proof. reflexivity. Qed.

Lemma damaged_member_raises :
  read_bundle (fun _ => []) toy_sha (fun _ => Some [MkMember MANIFEST_NAME 10 (Err BadZipFile)]) [] = Err BadZipFile.
Proof. reflexivity. Qed.

Lemma unparsed_file_raises :
  load_checkpoint (H1 := sample_machine) (fun _ => []) toy_sha (fun _ => None) (lit "BindMySoul.lua") 0 = Err BmsError.
Proof. vm_compute. reflexivity. Qed.
