(* ===== verification/BmsImportSpec.v ===== *)
(** * What the character knows after the import

    The talent build lands whole or not at all; ranks stay within what was
    bought; no spell is written twice by the spellbook or the advancement. *)
From S2P Require Import Prelude Wire PyFloat Text Format Json BmsMap BmsEquip BmsCoa BmsDbc BmsPlan BmsItems BmsImport BmsApply.

Section Know.
Context `{Unicode} `{Casing} `{Database} `{Resolvers} (repr_of : json -> pystr) (clock : Z).

(** ** Talents *)

(** The elements of an iterated field. *)
Definition elements (v : json) (k : string) (x : json) : Prop :=
  exists l w, elem_get v k = Ok w /\ iter_or w = Ok l /\ x ∈ l.

(** A talent of the capture that has points in it. *)
Definition captured_in (tab : json) (tab_name : pystr) (index : Z) (name : pystr) (rank : Z) : Prop :=
  elem_text repr_of tab "name" = Ok tab_name /\ elem_int tab "tabIndex" = Ok index
  /\ exists talent, elements tab "talents" talent /\ elem_int talent "rank" = Ok rank /\ 1 <= rank
                    /\ elem_text repr_of talent "name" = Ok name.

Definition captured_talent (char : list (pystr * json)) (tab_name : pystr) (index : Z) (name : pystr) (rank : Z) : Prop :=
  exists tabs tab, iter_or (jval char "talentTabs") = Ok tabs /\ tab ∈ tabs /\ captured_in tab tab_name index name rank.

Definition resolves (class : Z) (tab : pystr) (index : Z) (name : pystr) (rank spell : Z) : Prop :=
  exists r, talent_spell class tab name rank index = Ok r /\ rs_ok r = true /\ rs_value r = spell.

Definition fails (class : Z) (tab : pystr) (index : Z) (name : pystr) (rank : Z) : Prop :=
  exists r, talent_spell class tab name rank index = Ok r /\ rs_ok r = false.

Definition row_spells_of (rows : list (pystr * pystr * Z * Z)) : list Z := map snd rows.

(** What a run over talents has gathered of the talents [Q] it has seen. *)
Record gathered (class : Z) (p : Plan) (Q : pystr -> Z -> pystr -> Z -> Prop) (s : talent_run) : Prop := {
  ga_rows : pl_rows (tr_plan s) = pl_rows p;
  ga_guid : pl_guid (tr_plan s) = pl_guid p;
  ga_added : forall x, x ∈ tr_added s <-> x ∈ row_spells_of (tr_rows s);
  ga_once : NoDup (row_spells_of (tr_rows s));
  ga_from : forall x, x ∈ tr_added s -> exists tab index name rank, Q tab index name rank /\ resolves class tab index name rank x;
  ga_seen : forall tab index name rank, Q tab index name rank ->
              fails class tab index name rank \/ exists x, x ∈ tr_added s /\ resolves class tab index name rank x;
  ga_fails : tr_failures s <> [] <-> exists tab index name rank, Q tab index name rank /\ fails class tab index name rank }.

Lemma gathered_ext class p (Q Q' : pystr -> Z -> pystr -> Z -> Prop) s :
  (forall a b c d, Q a b c d <-> Q' a b c d) -> gathered class p Q s -> gathered class p Q' s.
Proof.
  intros HQ [? ? ? ? Hf Hs Hx]. split; try done.
  - intros x (a & b & c & d & Hq & Hr)%Hf. exists a, b, c, d. by rewrite <- HQ.
  - intros a b c d Hq%HQ. by apply Hs.
  - rewrite Hx. split; intros (a & b & c & d & Hq & Hr); exists a, b, c, d; by rewrite HQ in *.
Qed.

(** One more talent. *)
Lemma try_talent_gathered class p Q tab index s talent s' :
  gathered class p Q s -> try_talent repr_of class tab index s talent = Ok s' ->
  gathered class p (fun t i n r => Q t i n r
    \/ (t = tab /\ i = index /\ elem_int talent "rank" = Ok r /\ 1 <= r /\ elem_text repr_of talent "name" = Ok n)) s'.
Proof.
  intros [Hr Hg Ha Ho Hf Hs Hx] E. unfold try_talent in E. inv_bind E. rename v into rank, E0 into Erank.
  destruct (rank <? 1) eqn:Hlt; zbool.
  { apply Ok_inj in E. subst s'. split; try done.
    - intros x (a & b & c & d & ? & ?)%Hf. exists a, b, c, d. auto.
    - intros a b c d [Hq|(_ & _ & [= <-] & ? & _)]; [by apply Hs|lia].
    - rewrite Hx. split; intros (a & b & c & d & Hq & Hfl); exists a, b, c, d; [auto|].
      destruct Hq as [Hq|(_ & _ & [= <-] & ? & _)]; [done|lia]. }
  inv_bind E. rename v into name, E0 into Ename. inv_bind E. rename v into r, E0 into Er.
  assert (forall t i n k, (t = tab /\ i = index /\ Ok rank = Ok k /\ 1 <= k /\ Ok name = Ok n) -> t = tab /\ i = index /\ n = name /\ k = rank)
    as Hnew by naive_solver.
  destruct (rs_ok r) eqn:Hok; cbn [negb] in E.
  - assert (resolves class tab index name rank (rs_value r)) as Hres by (by exists r).
    set (q := match rs_note r with NoNote => _ | _ => _ end) in E.
    assert (pl_rows q = pl_rows p /\ pl_guid q = pl_guid p) as [Hq1 Hq2] by (subst q; by destruct (rs_note r)).
    case_bool_decide as Hin; apply Ok_inj in E; subst s'; split; cbn [tr_rows tr_failures tr_added tr_plan]; try done.
    + intros x (a & b & c & d & ? & ?)%Hf. exists a, b, c, d. auto.
    + intros a b c d [Hq|Hq]; [by apply Hs|]. apply Hnew in Hq as (-> & -> & -> & ->). right. by exists (rs_value r).
    + rewrite Hx. split; intros (a & b & c & d & Hq & Hfl); exists a, b, c, d; [auto|].
      destruct Hq as [Hq|Hq]; [done|]. apply Hnew in Hq as (-> & -> & -> & ->). destruct Hfl as (r' & E' & Hf'). rewrite Er in E'.
      injection E' as <-. by rewrite Hok in Hf'.
    + intros x. unfold row_spells_of in *. rewrite elem_of_cons, Ha, map_app, elem_of_app. cbn. set_solver.
    + unfold row_spells_of in *. rewrite map_app. apply NoDup_app. split_and!; [done| |apply NoDup_singleton].
      intros x Hx' ->%list_elem_of_singleton. by rewrite <- Ha in Hx'.
    + intros x [->|Hx']%elem_of_cons; [exists tab, index, name, rank; by auto 8|].
      apply Hf in Hx' as (a & b & c & d & ? & ?). exists a, b, c, d. auto.
    + intros a b c d [Hq|Hq].
      * destruct (Hs _ _ _ _ Hq) as [?|(x & ? & ?)]; [by left|right; exists x; split; [by right|done]].
      * apply Hnew in Hq as (-> & -> & -> & ->). right. exists (rs_value r). split; [by left|done].
    + rewrite Hx. split; intros (a & b & c & d & Hq & Hfl); exists a, b, c, d; [auto|].
      destruct Hq as [Hq|Hq]; [done|]. apply Hnew in Hq as (-> & -> & -> & ->). destruct Hfl as (r' & E' & Hf'). rewrite Er in E'.
      injection E' as <-. by rewrite Hok in Hf'.
  - apply Ok_inj in E. subst s'. assert (fails class tab index name rank) as Hfl by (by exists r).
    split; cbn [tr_rows tr_failures tr_added tr_plan]; try done.
    + intros x (a & b & c & d & ? & ?)%Hf. exists a, b, c, d. auto.
    + intros a b c d [Hq|Hq]; [by apply Hs|]. apply Hnew in Hq as (-> & -> & -> & ->). by left.
    + split; [intros _; exists tab, index, name, rank; by auto 8|]. intros _. by destruct (tr_failures s).
Qed.
Lemma try_talents_gathered class p tab index l : forall Q s s',
  gathered class p Q s -> res_fold (try_talent repr_of class tab index) s l = Ok s' ->
  gathered class p (fun t i n r => Q t i n r
    \/ (t = tab /\ i = index /\ exists talent, talent ∈ l /\ elem_int talent "rank" = Ok r /\ 1 <= r
                                      /\ elem_text repr_of talent "name" = Ok n)) s'.
Proof.
  induction l as [|talent l IH]; intros Q s s' Hg E; cbn [res_fold] in E.
  - apply Ok_inj in E. subst s'. eapply gathered_ext; [|exact Hg]. intros a b c d. split; [auto|].
    intros [?|(_ & _ & x & Hx & _)]; [done|by apply elem_of_nil in Hx].
  - inv_bind E. eapply try_talent_gathered in E0; [|exact Hg]. eapply IH in E; [|exact E0].
    eapply gathered_ext; [|exact E]. intros a b c d. cbn. split.
    + intros [[?|(? & ? & ? & ? & ?)]|(? & ? & x & ? & ?)]; [auto|right|right]; split_and!; try done; eexists;
        (split; [by left + by right|done]).
    + intros [?|(? & ? & x & [->|Hx]%elem_of_cons & ?)]; [auto|left; right; naive_solver|right; naive_solver].
Qed.

Lemma try_tab_gathered class p Q s tab s' :
  gathered class p Q s -> try_tab repr_of class s tab = Ok s' ->
  gathered class p (fun t i n r => Q t i n r \/ captured_in tab t i n r) s'.
Proof.
  intros Hg E. unfold try_tab in E. inv_bind E. rename v into tab_name, E0 into En. inv_bind E. rename v into index, E0 into Ei.
  inv_bind E. destruct v as [res0 positional]. inv_bind E. rename v into w, E1 into Ew. inv_bind E. rename v into l, E1 into El.
  eapply (try_talents_gathered class p _ _ _ Q) in E.
  - eapply gathered_ext; [|exact E]. intros a b c d. cbn. unfold captured_in, elements. split.
    + intros [?|(-> & -> & talent & ? & ? & ? & ?)]; [auto|]. right. split_and!; try done. exists talent. split_and!; try done. eauto.
    + intros [?|(Ha & Hb & talent & (l' & w' & Hw' & Hl' & Hin) & Hr)]; [auto|]. right. rewrite En in Ha. rewrite Ei in Hb.
      injection Ha as <-. injection Hb as <-. rewrite Ew in Hw'. injection Hw' as <-. rewrite El in Hl'. injection Hl' as <-. eauto.
  - destruct Hg as [? ? ? ? ? ? ?]. split; try done; cbn [tr_plan]; by destruct positional.
Qed.

Lemma try_tabs_gathered class p tabs : forall Q s s',
  gathered class p Q s -> res_fold (try_tab repr_of class) s tabs = Ok s' ->
  gathered class p (fun t i n r => Q t i n r \/ exists tab, tab ∈ tabs /\ captured_in tab t i n r) s'.
Proof.
  induction tabs as [|tab tabs IH]; intros Q s s' Hg E; cbn [res_fold] in E.
  - apply Ok_inj in E. subst s'. eapply gathered_ext; [|exact Hg]. intros a b c d. split; [auto|].
    intros [?|(x & Hx & _)]; [done|by apply elem_of_nil in Hx].
  - inv_bind E. eapply try_tab_gathered in E0; [|exact Hg]. eapply IH in E; [|exact E0].
    eapply gathered_ext; [|exact E]. intros a b c d. cbn. split.
    + intros [[?|?]|(x & ? & ?)]; [auto|right|right]; eexists; (split; [by left + by right|done]).
    + intros [?|(x & [->|Hx]%elem_of_cons & ?)]; [auto|auto|right; eauto].
Qed.

Lemma foldl_plan {A} (f : Plan -> A -> Plan) l p :
  (forall q a, pl_rows (f q a) = pl_rows q /\ pl_guid (f q a) = pl_guid q) ->
  pl_rows (foldl f p l) = pl_rows p /\ pl_guid (foldl f p l) = pl_guid p.
Proof.
  intros Hf. revert p. induction l as [|a l IH]; intros p; [done|]. cbn. destruct (IH (f p a)) as [-> ->]. apply Hf.
Qed.

(** Granting adds to both tables. *)
Lemma grant_cells l : forall p,
  cells "character_talent" "spell" (foldl grant_talent p l) = cells "character_talent" "spell" p ++ row_spells_of l
  /\ cells "character_spell" "spell" (foldl grant_talent p l) = cells "character_spell" "spell" p ++ row_spells_of l.
Proof.
  induction l as [|r l IH]; intros p; cbn [foldl row_spells_of map]; [by rewrite !app_nil_r|].
  destruct (IH (grant_talent p r)) as [-> ->]. unfold grant_talent.
  rewrite cells_add_ne, cells_add_eq, cells_add_eq, cells_add_ne by other_table.
  unfold row_spells_of. by rewrite <- !app_assoc.
Qed.

Lemma withhold_cells p p' : withhold p = Ok p' ->
  rows_of "character_talent" p' = rows_of "character_talent" p
  /\ sublist (cells "character_spell" "spell" p') (cells "character_spell" "spell" p)
  /\ forall ranked x, talent_rank_spells = Ok ranked -> x ∈ cells "character_spell" "spell" p' -> x ∉ ranked.
Proof.
  unfold withhold. intros E. inv_bind E. rename v into ranked. set (carried := rows_of "character_spell" p) in *.
  destruct (filter (fun r => row_spell_in ranked r = true) carried) as [|w ws] eqn:Ew; apply Ok_inj in E; subst p'.
  - split_and!; [done|done|]. intros ranked' x [= <-] Hx Hin. unfold cells in Hx. fold carried in Hx.
    apply list_elem_of_omap in Hx as (r & Hrow & Hc).
    assert (r ∈ filter (fun r => row_spell_in ranked r = true) carried) as Hf; [|rewrite Ew in Hf; by apply elem_of_nil in Hf].
    apply list_elem_of_filter. split; [|done]. unfold cell_of in Hc. unfold row_spell_in.
    destruct (jval r "spell"); try discriminate. injection Hc as ->. by apply bool_decide_eq_true.
  - split_and!; [by plan_rows|..].
    + unfold cells. plan_rows. fold carried. generalize carried as l. clear. intros l.
      induction l as [|r l IH]; [done|]. rewrite filter_cons. case_decide; cbn; destruct (cell_of "spell" r);
        (done || by apply sublist_skip || by apply sublist_cons).
    + intros ranked' x [= <-]. unfold cells. plan_rows. intros (r & [Hn Hrow]%list_elem_of_filter & Hc)%list_elem_of_omap.
      intros Hin. unfold cell_of in Hc. unfold row_spell_in in Hn.
      destruct (jval r "spell"); try discriminate. injection Hc as ->. by apply bool_decide_eq_false in Hn.
Qed.

Lemma plan_talents_spec char class mode p p' :
  rows_of "character_talent" p = [] -> _plan_talents repr_of char class mode p = Ok p' ->
  let failed := exists tab index name rank, captured_talent char tab index name rank /\ fails class tab index name rank in
  ((mode = Rebuild \/ (mode = Auto /\ failed)) \/ (mode = Import \/ (mode = Auto /\ ~ failed)))
  /\ (mode = Rebuild \/ (mode = Auto /\ failed) ->
     rows_of "character_talent" p' = []
     /\ sublist (cells "character_spell" "spell" p') (cells "character_spell" "spell" p)
     /\ forall ranked x, talent_rank_spells = Ok ranked -> x ∈ cells "character_spell" "spell" p' -> x ∉ ranked)
  /\ (mode = Import \/ (mode = Auto /\ ~ failed) ->
     NoDup (cells "character_talent" "spell" p')
     /\ (forall x, x ∈ cells "character_talent" "spell" p' <->
           exists tab index name rank, captured_talent char tab index name rank /\ resolves class tab index name rank x)
     /\ cells "character_spell" "spell" p' = cells "character_spell" "spell" p ++ cells "character_talent" "spell" p').
Proof.
  intros Ht E failed. unfold _plan_talents in E. inv_bind E. rename v into tabs, E0 into Etabs. inv_bind E. rename v into s, E0 into Es.
  apply (try_tabs_gathered class p tabs (fun _ _ _ _ => False)) in Es.
  2:{ split; cbn; [done|done|done|constructor|set_solver|done|]. split; [done|]. by intros (? & ? & ? & ? & [] & _). }
  eapply (gathered_ext _ _ _ (captured_talent char)) in Es.
  2:{ intros a b c d. unfold captured_talent. rewrite Etabs. split.
      - intros [[]|(tab & ? & ?)]. exists tabs, tab. done.
      - intros (tabs' & tab & [= <-] & ? & ?). right. eauto. }
  destruct Es as [Hrows Hguid Hadded Honce Hfrom Hseen Hfails]. fold failed in Hfails.
  set (q := tr_plan s) in *. set (rows := tr_rows s) in *. set (failures := tr_failures s) in *.
  set (q1 := if is_rebuilding mode failures && _ then _ else q) in E.
  assert (pl_rows q1 = pl_rows p) as Hq1 by (subst q1; destruct (_ && _); [by destruct mode|done]).
  set (q2 := foldl _ q1 failures) in E.
  assert (pl_rows q2 = pl_rows p) as Hq2.
  { unfold q2. destruct (foldl_plan (fun p '(tab, name, rank, why) => add_skip (SkTalent tab name rank why) p) failures q1) as [-> _]; [|done].
    by intros ? [[[? ?] ?] ?]. }
  assert (is_rebuilding mode failures = true <-> mode = Rebuild \/ (mode = Auto /\ failed)) as Hre.
  { unfold is_rebuilding. rewrite <- Hfails. destruct mode; cbn; [|naive_solver..].
    destruct failures; case_bool_decide; cbn in *; naive_solver. }
  split.
  { destruct (is_rebuilding mode failures) eqn:Eb; [left; by apply Hre|right].
    assert (~ (mode = Rebuild \/ (mode = Auto /\ failed))) as Hn by (intros Hx; by apply Hre in Hx). destruct mode; naive_solver. }
  destruct (is_rebuilding mode failures).
  - split; [intros _|intros [-> |[-> Hn]]; destruct (proj1 Hre eq_refl) as [|[? ?]]; done].
    apply withhold_cells in E as (Et & Esub & Ex).
    set (q3 := foldl _ q2 rows) in *.
    assert (pl_rows q3 = pl_rows p) as Hq3.
    { unfold q3. destruct (foldl_plan (fun p '(tab, name, rank, _) => add_skip (SkHeldBack tab name rank) p) rows q2) as [-> _]; [|done].
      by intros ? [[[? ?] ?] ?]. }
    split_and!; [rewrite Et; unfold rows_of; rewrite Hq3; exact Ht| |done].
    revert Esub. unfold cells at 2, rows_of at 1. by rewrite Hq3.
  - split; [intros Hm; by apply Hre in Hm|intros Hm]. apply Ok_inj in E. subst p'. set (q3 := match failures with [] => q2 | _ => _ end).
    assert (pl_rows q3 = pl_rows p) as Hq3 by (unfold q3; destruct failures; [done|by destruct mode]).
    destruct (grant_cells rows q3) as [-> ->].
    assert (cells "character_talent" "spell" q3 = []) as -> by (unfold cells, rows_of in *; by rewrite Hq3, Ht).
    cbn [app]. split_and!; [done| |by unfold cells, rows_of; rewrite Hq3].
    intros x. rewrite <- Hadded. split; [apply Hfrom|]. intros (tab & index & name & rank & Hc & r & Hr & Hok & Hv).
    destruct (Hseen _ _ _ _ Hc) as [(r' & Hr' & Hno)|(x' & Hx' & r' & Hr' & Hok' & Hv')]; rewrite Hr in Hr'; injection Hr' as <-;
      [congruence|]. by rewrite Hv in Hv'; subst.
Qed.

(** C18: A talent build lands whole or not at all.  With no failure -- or
    when a part was asked for -- every captured talent that resolves is granted,
    once, and nothing else is; when the build is to be rebuilt, or one talent
    does not resolve, no talent is granted, and no spell stays that a talent of
    this server grants, those of the captured build among them. *)
Theorem talents_all_or_nothing `{!ResolversOk _} char class mode p p' ranked :
  rows_of "character_talent" p = [] -> talent_rank_spells = Ok ranked ->
  _plan_talents repr_of char class mode p = Ok p' ->
  let failed := exists tab index name rank, captured_talent char tab index name rank /\ fails class tab index name rank in
  let built x := exists tab index name rank, captured_talent char tab index name rank /\ resolves class tab index name rank x in
  (mode = Rebuild \/ (mode = Auto /\ failed) ->
     rows_of "character_talent" p' = []
     /\ forall x, x ∈ cells "character_spell" "spell" p' -> x ∈ cells "character_spell" "spell" p /\ x ∉ ranked /\ ~ built x)
  /\ (mode = Import \/ (mode = Auto /\ ~ failed) ->
     NoDup (cells "character_talent" "spell" p')
     /\ (forall x, x ∈ cells "character_talent" "spell" p' <-> built x)
     /\ cells "character_spell" "spell" p' = cells "character_spell" "spell" p ++ cells "character_talent" "spell" p').
Proof.
  intros Ht Hr E failed built. destruct (plan_talents_spec _ _ _ _ _ Ht E) as (_ & Hno & Hyes). split; [|exact Hyes].
  intros Hm. destruct (Hno Hm) as (? & Hsub & Hx). split; [done|]. intros x Hin. specialize (Hx _ _ Hr Hin).
  split_and!; [by eapply elem_of_sublist|done|]. intros (tab & index & name & rank & _ & r & Hres & Hok & <-).
  by eapply Hx, talent_spell_ranked.
Qed.

(** ** Ranks *)

(** A purchase as the capture gives it: a spell for each of its ranks, and a
    cost in one of the two essences. *)
Definition sane (k : kept) : Prop :=
  kp_spells k <> [] /\ 0 <= kp_ability k /\ 0 <= kp_talent k /\ (kp_ability k = 0 \/ kp_talent k = 0).

Definition in_ranks (k : kept) (r : Z) : Prop := 1 <= r <= pylen (kp_spells k).

Lemma spent_insert talent ks : forall ranks i k r r', ks !! i = Some k -> ranks !! i = Some r ->
  spent_on talent ks (<[i := r']> ranks) = spent_on talent ks ranks + cost_in talent k * (r' - r).
Proof.
  induction ks as [|k0 ks IH]; intros [|r0 ranks] [|i] k r r' Hk Hr; try discriminate; cbn in Hk, Hr; simplify_eq;
    unfold spent_on in *; cbn [list_insert base.insert combine foldr fst snd]; [lia|].
  rewrite (IH _ _ _ _ _ Hk Hr). lia.
Qed.

(** A raise stays within the spells, spends exactly what is missing, and leaves
    the other essence alone. *)
Lemma raise_rank_spec ks advancement ranks notes talent ranks' notes' :
  Forall sane ks -> Forall2 in_ranks ks ranks ->
  raise_rank ks advancement (ranks, notes) talent = Ok (ranks', notes') ->
  Forall2 in_ranks ks ranks'
  /\ spent_on (negb talent) ks ranks' = spent_on (negb talent) ks ranks
  /\ (spent_on talent ks ranks' = spent_on talent ks ranks
      \/ int_or (jval advancement (if talent then "learnedTalentEssence" else "learnedAbilityEssence")) 0
           = Ok (spent_on talent ks ranks')).
Proof.
  intros Hs Hr E. unfold raise_rank in E. destruct (int_or _ 0) as [target|[]] eqn:Et; try discriminate;
    try (apply Ok_inj in E; injection E as <- <-; auto; fail).
  destruct (target <=? 0); [apply Ok_inj in E; injection E as <- <-; auto|].
  destruct (_ <=? 0) eqn:Hshort; [apply Ok_inj in E; injection E as <- <-; auto|]. zbool.
  set (short := target - spent_on talent ks ranks) in *.
  destruct (exact talent ks ranks short) as [|i [|j l]] eqn:Ex; [apply Ok_inj in E; injection E as <- <-; auto| |
    apply Ok_inj in E; injection E as <- <-; auto].
  destruct (ks !! i) as [k|] eqn:Hk; [|discriminate]. destruct (ranks !! i) as [r|] eqn:Hri; [|discriminate].
  apply Ok_inj in E. injection E as <- <-.
  assert (i ∈ exact talent ks ranks short) as Hi by (rewrite Ex; by left).
  unfold exact, movable in Hi. apply list_elem_of_filter in Hi as [He [Hm _]%list_elem_of_filter].
  unfold is_exact in He. unfold is_movable in Hm. rewrite Hk, Hri in He, Hm. zbool.
  pose proof (Forall_lookup_1 _ _ _ _ Hs Hk) as (_ & Ha & Ht & Hone).
  pose proof (Forall2_lookup_lr _ _ _ _ _ _ Hr Hk Hri) as Hin. unfold in_ranks in Hin.
  assert (0 <= short / cost_in talent k) as Hq by (apply Z.div_pos; lia).
  split_and!.
  - apply Forall2_same_length_lookup. apply Forall2_same_length_lookup in Hr as [Hlen Hr]. rewrite length_insert. split; [done|].
    intros j k' r' Hkj Hrj. destruct (decide (i = j)) as [<-|Hne].
    + rewrite list_lookup_insert_eq in Hrj by (by eapply lookup_lt_Some). simplify_eq. unfold in_ranks. lia.
    + rewrite list_lookup_insert_ne in Hrj by done. by eapply Hr.
  - rewrite (spent_insert _ _ _ _ _ _ _ Hk Hri). replace (cost_in (negb talent) k) with 0; [lia|].
    unfold cost_in in *. destruct talent; cbn in *; lia.
  - right. rewrite (spent_insert _ _ _ _ _ _ _ Hk Hri). f_equal.
    assert (short = cost_in talent k * (short / cost_in talent k)) as Hdiv by (apply Z.div_exact; lia). lia.
Qed.

End Know.

(** ** Spells are written once

    The database has one row for a spell of a character, so a plan that holds a
    spell twice is rolled back as a whole.  The spellbook and the advancement
    add a spell once; talents add theirs without looking, which the last
    theorem of the file shows on a capture whose spellbook lists a talent. *)

Section Spells.
Context `{Unicode} `{Casing} `{Database} `{Resolvers} (repr_of : json -> pystr) (clock : Z).

Abbreviation spells_of := (cells "character_spell" "spell").
Abbreviation talents_of := (cells "character_talent" "spell").

(** The numbers of the captured spellbook. *)
Definition in_spellbook (char : list (pystr * json)) (x : Z) : Prop :=
  exists raws raw, iter_or (jval char "knownSpellIds") = Ok raws /\ raw ∈ raws /\ py_int raw = Ok x.

Lemma known_spells_fold raws : forall seen p seen' p',
  res_fold book_spell (seen, p) raws = Ok (seen', p') ->
  (forall x, x ∈ spells_of p -> x ∈ seen) -> NoDup (spells_of p) ->
  NoDup (spells_of p')
  /\ (forall x, x ∈ spells_of p' -> x ∈ spells_of p \/ (spell_exists x = Ok true /\ exists raw, raw ∈ raws /\ py_int raw = Ok x))
  /\ talents_of p' = talents_of p.
Proof.
  induction raws as [|raw raws IH]; intros seen p seen' p' E Hs Hn; cbn [res_fold] in E.
  { apply Ok_inj in E. injection E as <- <-. auto. }
  inv_bind E. destruct v as [seen1 p1]. rename E0 into Estep.
  assert (forall q, (forall x, x ∈ spells_of q -> x ∈ seen1) -> NoDup (spells_of q) -> p1 = q ->
    (forall x, x ∈ spells_of q -> x ∈ spells_of p \/ (spell_exists x = Ok true /\ py_int raw = Ok x)) -> talents_of q = talents_of p ->
    NoDup (spells_of p')
    /\ (forall x, x ∈ spells_of p' -> x ∈ spells_of p \/ (spell_exists x = Ok true /\ exists raw', raw' ∈ raw :: raws /\ py_int raw' = Ok x))
    /\ talents_of p' = talents_of p) as Hgo.
  { intros q Hq1 Hq2 -> Hq3 Hq4. destruct (IH _ _ _ _ E Hq1 Hq2) as (Ha & Hb & Hc). split_and!; [done| |congruence].
    intros x [Hx|(Hx & raw' & Hin & Hr)]%Hb; [|right; split; [done|]; exists raw'; split; [by right|done]].
    destruct (Hq3 _ Hx) as [?|[? ?]]; [by left|]. right. split; [done|]. exists raw. split; [by left|done]. }
  unfold book_spell in Estep. cbn [fst snd] in Estep.
  destruct (py_int raw) as [x|[]] eqn:Ex; try discriminate; try (apply Ok_inj in Estep; injection Estep as <- <-; apply (Hgo p); auto; fail).
  case_bool_decide as Hin; [apply Ok_inj in Estep; injection Estep as <- <-; apply (Hgo p); auto|].
  inv_bind Estep. rename v into b. apply Ok_inj in Estep. injection Estep as <- <-. destruct b.
  - apply (Hgo (add "character_spell" (spell_row p x) p)); [| |done|..].
    + intros y. rewrite cells_add_eq, elem_of_app. cbn. intros [Hy|Hy%list_elem_of_singleton]; [right; by apply Hs|subst; by left].
    + rewrite cells_add_eq. apply NoDup_app. split_and!; [done| |apply NoDup_singleton].
      intros y Hy Hx%list_elem_of_singleton. subst y. by apply Hin, Hs.
    + intros y. rewrite cells_add_eq, elem_of_app. intros [Hy|Hy%list_elem_of_singleton]; [by left|]. subst y. by right.
    + by rewrite cells_add_ne by other_table.
  - apply (Hgo (add_skip (SkSpell x) p)); auto. intros y Hy. right. by apply Hs.
Qed.

Lemma plan_spells_cells char p p' :
  spells_of p = [] -> _plan_spells char p = Ok p' ->
  NoDup (spells_of p') /\ (forall x, x ∈ spells_of p' -> spell_exists x = Ok true /\ in_spellbook char x)
  /\ talents_of p' = talents_of p.
Proof.
  intros Hp E. unfold _plan_spells in E. inv_bind E. rename v into raws, E0 into Eraws. inv_bind E. destruct v as [seen q].
  apply known_spells_fold in E0 as (Hn & Hx & Ht); [|rewrite Hp; by intros x ?%elem_of_nil|rewrite Hp; constructor].
  assert (pl_rows p' = pl_rows q) as Hpq.
  { destruct (py_truthy _); [inv_bind E|]; apply Ok_inj in E; by subst p'. }
  unfold cells, rows_of in *. rewrite Hpq. split_and!; [done| |done].
  intros x Hin. apply Hx in Hin as [Hin|(? & raw & ? & ?)]; [rewrite Hp in Hin; by apply elem_of_nil in Hin|].
  split; [done|]. by exists raws, raw.
Qed.

Lemma learn_entries l : forall planned added p planned' added' p',
  res_fold learn_entry (planned, added, p) l = Ok (planned', added', p') ->
  (forall x, x ∈ spells_of p -> x ∈ planned) ->
  talents_of p' = talents_of p /\ (NoDup (spells_of p) -> NoDup (spells_of p')).
Proof.
  induction l as [|kr l IH]; intros planned added p planned' added' p' E Hs; cbn [res_fold] in E.
  { apply Ok_inj in E. injection E as _ _ <-. auto. }
  inv_bind E. rename E0 into Estep. unfold learn_entry in Estep. inv_bind Estep. rename v0 into x. apply Ok_inj in Estep.
  case_bool_decide as Hin; subst v; [by eapply IH|]. apply IH in E as (Ht & Hn).
  - split; [by rewrite Ht, cells_add_ne by other_table|]. intros Hp. apply Hn. rewrite cells_add_eq.
    apply NoDup_app. split_and!; [done| |apply NoDup_singleton].
    intros y Hy Hx%list_elem_of_singleton. subst y. by apply Hin, Hs.
  - intros y. rewrite cells_add_eq, elem_of_app. intros [Hy|Hy%list_elem_of_singleton]; [right; by apply Hs|subst; by left].
Qed.

Lemma keep_entry_rows catalogue class level spec label acc v acc' :
  keep_entry repr_of catalogue class level spec label acc v = Ok acc' -> pl_rows (snd acc') = pl_rows (snd acc).
Proof.
  unfold keep_entry. destruct acc as [keep p]. destruct v as [| | | | | |r]; intros E; try (apply Ok_inj in E; by subst acc').
  inv_bind E. destruct v as [[entry spells] given]. inv_bind E. destruct v as [why|]; [apply Ok_inj in E; by subst acc'|].
  destruct spells as [|x spells]; [apply Ok_inj in E; by subst acc'|]. inv_bind E. rename v into usable.
  set (q := foldl _ p _) in E.
  assert (pl_rows q = pl_rows p) as Hq.
  { unfold q. generalize (filter (fun s => s ∉ usable) (x :: spells)) as l. intros l. clear. revert p.
    induction l as [|y l IH]; intros p; [done|]. cbn. by rewrite IH. }
  destruct usable; [apply Ok_inj in E; by subst acc'|]. inv_binds E. apply Ok_inj in E. by subst acc'.
Qed.

Lemma plan_advancement_cells char class catalogue p p' :
  _plan_advancement repr_of char class catalogue p = Ok p' ->
  talents_of p' = talents_of p /\ (NoDup (spells_of p) -> NoDup (spells_of p')).
Proof.
  unfold _plan_advancement. intros E. destruct (jval char "advancement") as [| | | | | |adv]; try (apply Ok_inj in E; subst p'; auto; fail).
  destruct (negb _); [apply Ok_inj in E; subst p'; auto|]. inv_bind E. inv_bind E. inv_bind E. destruct v1 as [keep q]. rename E2 into Ekeep.
  assert (pl_rows q = pl_rows p) as Hq.
  { apply (res_fold_keeps (fun acc => pl_rows (snd acc) = pl_rows p)) in Ekeep; [done| |done].
    intros x y kl _ Hx Ey. rewrite <- Hx. unfold keep_entries in Ey. destruct (jval adv _) as [| | | | |rows|]; try (apply Ok_inj in Ey; by subst y).
    apply (res_fold_keeps (fun acc => pl_rows (snd acc) = pl_rows (snd x))) in Ey; [done| |done].
    intros a b u _ Ha Eb. rewrite <- Ha. by eapply keep_entry_rows. }
  inv_bind E. destruct v1 as [ranks shortfalls]. inv_bind E. destruct v1 as [[planned' added] q1]. apply Ok_inj in E.
  assert (spells_of q = spells_of p /\ talents_of q = talents_of p) as [Hsq Htq] by (unfold cells, rows_of; by rewrite Hq).
  apply learn_entries in E3 as (Ht & Hn); [|intros x Hx; rewrite Hsq in Hx; exact Hx].
  assert (pl_rows p' = pl_rows q1) as Hp'.
  { subst p'. assert (forall l q, pl_rows (foldl (fun p n => add_note n p) q l) = pl_rows q) as Hl.
    { induction l as [|n l IH]; intros q'; [done|]. cbn. by rewrite IH. }
    case_match; cbn; by rewrite Hl. }
  rewrite Hsq, Htq in *. unfold cells, rows_of in *. rewrite Hp'. auto.
Qed.
Lemma plan_talents_once char class mode p p' :
  talents_of p = [] -> rows_of "character_talent" p = [] -> _plan_talents repr_of char class mode p = Ok p' ->
  NoDup (spells_of p) -> (forall x, x ∈ talents_of p' -> x ∉ spells_of p) -> NoDup (spells_of p').
Proof.
  intros Ht Htr E Hn Hdisj. apply plan_talents_spec in E as (Hcase & Hno & Hyes); [|done]. destruct Hcase as [Hc|Hc].
  - destruct (Hno Hc) as (_ & Hsub & _). by eapply sublist_NoDup.
  - destruct (Hyes Hc) as (Hnt & _ & ->). apply NoDup_app. split_and!; [done| |done]. intros x Hx Hx'. by eapply Hdisj.
Qed.

(** What only adds to other tables keeps both. *)
Definition keeps_spells (p p' : Plan) : Prop := spells_of p' = spells_of p /\ talents_of p' = talents_of p.

Lemma plan_skills_keeps char p p' : _plan_skills repr_of char p = Ok p' -> keeps_spells p p'.
Proof.
  unfold _plan_skills. intros E. inv_bind E. revert E. apply (res_fold_keeps (keeps_spells p)); [|done].
  intros x y a _ [Hx1 Hx2] Ey. unfold plan_skill in Ey. inv_bind Ey. inv_bind Ey. destruct (negb _); [apply Ok_inj in Ey; by subst y|].
  inv_binds Ey. apply Ok_inj in Ey. subst y. split; by rewrite cells_add_ne by other_table.
Qed.

Lemma plan_reputations_keeps char race class p p' : _plan_reputations repr_of char race class p = Ok p' -> keeps_spells p p'.
Proof.
  unfold _plan_reputations. intros E. inv_bind E. revert E. apply (res_fold_keeps (keeps_spells p)); [|done].
  intros x y a _ [Hx1 Hx2] Ey. unfold plan_reputation in Ey. inv_bind Ey. inv_bind Ey. inv_bind Ey.
  destruct (_ && _); [apply Ok_inj in Ey; by subst y|]. inv_bind Ey. destruct (negb _); [apply Ok_inj in Ey; by subst y|].
  inv_binds Ey. apply Ok_inj in Ey. subst y. split; by rewrite cells_add_ne by other_table.
Qed.

Lemma plan_settings_keeps char class catalogue kit p p' : _plan_settings char class catalogue kit p = Ok p' -> keeps_spells p p'.
Proof.
  unfold _plan_settings. destruct (_ <? _); [intros E; apply Ok_inj in E; by subst p'|]. intros E. inv_bind E. apply Ok_inj in E. subst p'.
  set (q := plan_spec _ _ _ p). assert (keeps_spells p q) as [Hq1 Hq2].
  { unfold q, plan_spec. destruct (0 <? _); [|done]. destruct (_ && _); [done|].
    split; [change (spells_of (add_note ?n ?x)) with (spells_of x)|change (talents_of (add_note ?n ?x)) with (talents_of x)];
      by rewrite cells_add_ne by other_table. }
  destruct kit; [done|]. split; [change (spells_of (add_note ?n ?x)) with (spells_of x)|change (talents_of (add_note ?n ?x)) with (talents_of x)];
    by rewrite cells_add_ne by other_table.
Qed.

(** No spell is written twice, unless a talent that is granted is also
    in the captured spellbook: the plan's spells are distinct whenever none of
    its talents is one of the spellbook's numbers. *)
Theorem spells_written_once args char race class p p' :
  pl_rows p = [] -> plan_knowledge repr_of args char race class p = Ok p' ->
  (forall x, x ∈ talents_of p' -> ~ in_spellbook char x) -> NoDup (spells_of p').
Proof.
  intros Hp E Hdisj. unfold plan_knowledge in E. inv_bind E. rename v into q1, E0 into E1. inv_bind E. rename v into q2, E0 into E2.
  inv_bind E. rename v into q3, E0 into E3. inv_bind E. rename v into q4, E0 into E4. inv_bind E. rename v into q5, E0 into E5.
  assert (spells_of p = [] /\ talents_of p = []) as [Hs0 Ht0] by (unfold cells, rows_of; by rewrite Hp).
  assert (rows_of "character_talent" q1 = []) as Htr.
  { pose proof E1 as E1'. unfold _plan_spells in E1'. inv_bind E1'. inv_bind E1'. destruct v0 as [seen q].
    assert (rows_of "character_talent" q = []) as Hq.
    { apply (res_fold_keeps (fun acc => rows_of "character_talent" (snd acc) = [])) in E6; [done| |cbn; unfold rows_of; by rewrite Hp].
      intros [s x] y raw _ Hx Ey. unfold book_spell in Ey. cbn [fst snd] in *.
      destruct (py_int raw) as [n|[]]; try discriminate; try (apply Ok_inj in Ey; by subst y).
      case_bool_decide; [apply Ok_inj in Ey; by subst y|]. inv_bind Ey. apply Ok_inj in Ey. subst y. cbn. destruct v0; [|done].
      by rewrite rows_of_add_ne by other_table. }
    destruct (py_truthy _); [inv_bind E1'|]; apply Ok_inj in E1'; by subst q1. }
  apply plan_spells_cells in E1 as (Hn1 & Hbook & Ht1); [|done].
  apply plan_advancement_cells in E3 as [Ht3 Hn3]. apply plan_skills_keeps in E4 as [Hs4 Ht4].
  apply plan_reputations_keeps in E5 as [Hs5 Ht5]. apply plan_settings_keeps in E as [Hs6 Ht6].
  rewrite Hs6, Hs5, Hs4. apply Hn3. eapply plan_talents_once; [by rewrite Ht1|done|exact E2|done|].
  intros x Hx [_ Hin]%Hbook. apply (Hdisj x); [by rewrite Ht6, Ht5, Ht4, Ht3|done].
Qed.
End Spells.
