(* ===== verification/BmsApplySpec.v ===== *)
(** * A validated plan is written whole or not at all *)
From S2P Require Import Prelude Wire PyFloat Text Format Json BmsMap BmsEquip BmsCoa BmsDbc BmsPlan BmsItems BmsImport BmsApply.

(** ** The schema *)

Section Schema.
Context `{Unicode}.

Lemma fill_keeps columns (r : list (pystr * json)) c v :
  dget c r = Some v -> dget c (fill_required_columns columns r) = Some v.
Proof.
  unfold fill_required_columns. revert r. induction columns as [|[n m] columns IH]; intros r Hv; [done|]. cbn.
  apply IH. destruct (dmem n r) eqn:Hn; [done|]. destruct (required m); [|done].
  rewrite dget_dset_ne; [done|]. intros ->. unfold dmem in Hn. by rewrite Hv in Hn.
Qed.

Lemma fill_dmem columns (r : list (pystr * json)) c : dmem c r = true -> dmem c (fill_required_columns columns r) = true.
Proof. unfold dmem. destruct (dget c r) eqn:E; [|done]. intros _. by rewrite (fill_keeps _ _ _ _ E). Qed.

Lemma fill_required columns (r : list (pystr * json)) n m :
  (n, m) ∈ columns -> required m = true -> dmem n (fill_required_columns columns r) = true.
Proof.
  unfold fill_required_columns. revert r. induction columns as [|[n' m'] columns IH]; intros r Hin Hm; [by apply elem_of_nil in Hin|].
  cbn. apply elem_of_cons in Hin as [[= <- <-]|Hin]; [|by apply IH].
  apply (fill_dmem columns). rewrite Hm. destruct (dmem n r) eqn:Hn; [done|].
  unfold dmem. by rewrite dget_dset_eq.
Qed.

Lemma neutral_fits m : (forall n, cm_length m = Some n -> 0 <= n) -> value_fits m (neutral m) = true.
Proof.
  intros Hl. unfold neutral. case_bool_decide; cbn.
  - destruct (cm_length m) as [n|]; [|done]. specialize (Hl n eq_refl). apply orb_true_iff. right. by apply Z.leb_le.
  - unfold column_limits. destruct (dget (uni_lower (cm_data_type m)) INT_RANGES) as [[[lo hi] u]|] eqn:E; [|done].
    assert (lo <= 0 <= hi /\ 0 <= u) as Hr.
    { clear -E. unfold INT_RANGES in E. cbn [dget] in E. repeat case_decide; simplify_eq; lia. }
    destruct (contains _ _); apply andb_true_iff; rewrite !Z.leb_le; lia.
Qed.

(** A cell of a filled row is one of the row's, or neutral in a column that
    must be given. *)
Lemma fill_cells columns (r : list (pystr * json)) c v :
  dget c (fill_required_columns columns r) = Some v ->
  dget c r = Some v \/ exists m, (c, m) ∈ columns /\ required m = true /\ v = neutral m.
Proof.
  unfold fill_required_columns. revert r. induction columns as [|[n m] columns IH]; intros r Hv; [by left|].
  cbn in Hv. apply IH in Hv as [Hv|(m' & ? & ? & ?)]; [|right; exists m'; split_and!; [by right|done..]].
  destruct (dmem n r); [by left|]. destruct (required m) eqn:Hm; [|by left].
  rewrite dget_dset in Hv. case_decide; [|by left]. subst. right. exists m. injection Hv as <-. split_and!; [by left|done..].
Qed.

Lemma unfilled_none columns rows : unfilled_columns columns rows = [].
Proof.
  unfold unfilled_columns. induction rows as [|r rows IH] using rev_ind; [done|].
  rewrite foldl_app, IH. cbn [foldl]. clear IH.
  assert (forall l, (forall x, x ∈ l -> x ∈ columns) ->
    foldl (fun s nm =>
      if negb (dmem nm.1 (fill_required_columns columns r)) && bool_decide (cm_nullable nm.2 = lit "NO")
         && match cm_default nm.2 with None => true | Some _ => false end
         && negb (contains (lit "auto_increment") (default [] (cm_extra nm.2)))
      then set_add nm.1 s else s) [] l = []) as Hf; [|by apply Hf].
  intros l Hl. induction l as [|[n m] l IH]; [done|]. cbn [foldl fst snd].
  destruct (dmem n _) eqn:Hd; cbn [negb andb]; [apply IH; intros x Hx; apply Hl; by right|].
  case_bool_decide as Hno; cbn [andb]; [|apply IH; intros x Hx; apply Hl; by right].
  destruct (cm_default m) eqn:Ed; cbn [andb]; [apply IH; intros x Hx; apply Hl; by right|].
  destruct (contains _ _) eqn:Ec; cbn [negb]; [apply IH; intros x Hx; apply Hl; by right|].
  rewrite (fill_required columns r n m) in Hd; [done|apply Hl; by left|].
  unfold required. rewrite Hno, Ed, Ec. done.
Qed.

Lemma unknown_none columns rows :
  unknown_columns columns rows = [] -> forall r c, r ∈ rows -> c ∈ dkeys r -> dmem c columns = true.
Proof.
  assert (forall (l : list pystr) s, foldl (fun s c => if dmem c columns then s else set_add c s) s l = [] ->
    s = [] /\ forall c, c ∈ l -> dmem c columns = true) as Hin.
  { induction l as [|c l IH]; intros s E; [split; [done|]; intros c Hc; by apply elem_of_nil in Hc|].
    cbn in E. apply IH in E as [E Hl]. destruct (dmem c columns) eqn:Hc.
    - split; [done|]. intros c' [->|?]%elem_of_cons; [done|by apply Hl].
    - exfalso. unfold set_add in E. case_decide; [by subst; apply elem_of_nil in H0|]. by destruct s. }
  unfold unknown_columns. generalize (@nil pystr) at 1 as s.
  induction rows as [|r rows IH]; intros s E r' c Hr Hc; [by apply elem_of_nil in Hr|].
  cbn in E. apply elem_of_cons in Hr as [->|Hr]; [|by eapply IH].
  assert (forall rs s, foldl (fun s (r : list (pystr * json)) =>
      foldl (fun s c => if dmem c columns then s else set_add c s) s (dkeys r)) s rs = [] -> s = []) as Hs.
  { clear -Hin. induction rs as [|r rs IH]; intros s E; [done|]. cbn in E. apply IH in E. by apply Hin in E as []. }
  apply Hs in E. apply Hin in E as [_ E]. by apply E.
Qed.
(** A cell that does not fit is noted, and stays noted. *)
Lemma oversized_row columns (r : list (pystr * json)) d :
  foldl (fun d nv =>
      match dget (fst nv) columns with
      | Some m => if value_fits m (snd nv) then d else snd (dsetdefault (fst nv) (snd nv) d)
      | None => d
      end) d r = [] ->
  d = [] /\ forall c v m, (c, v) ∈ r -> dget c columns = Some m -> value_fits m v = true.
Proof.
  revert d. induction r as [|[c v] r IH]; intros d E; [split; [done|]; intros ??? []%elem_of_nil|].
  cbn in E. apply IH in E as [E Hr].
  assert (d = [] /\ forall m, dget c columns = Some m -> value_fits m v = true) as [-> Hc].
  { destruct (dget c columns) as [m|]; [|by split]. destruct (value_fits m v) eqn:Hf; [split; [done|]; by intros ? [= <-]|].
    exfalso. unfold dsetdefault in E. destruct (dget c d) eqn:Hd; [cbn in E; by rewrite E in Hd|].
    pose proof (dget_dset_eq c v d) as Hn. cbn in E. by rewrite E in Hn. }
  split; [done|]. intros c' v' m [[= -> ->]|Hin]%elem_of_cons; [by apply Hc|by eapply Hr].
Qed.

Lemma oversized_none columns rows :
  oversized columns rows = [] ->
  forall (r : list (pystr * json)) c v m, r ∈ rows -> (c, v) ∈ r -> dget c columns = Some m -> value_fits m v = true.
Proof.
  unfold oversized. induction rows as [|r rows IH] using rev_ind; intros E r' c v m Hr; [by apply elem_of_nil in Hr|].
  rewrite foldl_app in E. cbn [foldl] in E. apply oversized_row in E as [E Hlast].
  apply elem_of_app in Hr as [Hr| ->%list_elem_of_singleton]; [by eapply IH|apply Hlast].
Qed.

Lemma py_sort_nil {A} (leb : A -> A -> bool) l : py_sort leb l = [] -> l = [].
Proof. intros E. pose proof (py_sort_perm leb l) as Hp. rewrite E in Hp. by apply Permutation_nil_l in Hp. Qed.

Lemma table_problems_none table columns rows :
  table_problems table columns rows = [] ->
  columns <> [] /\ unknown_columns columns rows = [] /\ oversized columns rows = [].
Proof.
  unfold table_problems. destruct columns as [|nm columns]; [done|]. intros [Hu [_ Ho]%app_nil]%app_nil. split_and!; [done|..].
  - by destruct (unknown_columns _ _).
  - apply fmap_nil_inv, py_sort_nil in Ho. destruct (oversized _ _); [done|discriminate].
Qed.
End Schema.

(** ** The transaction *)

Section Atomic.
Context `{Unicode} `{Database} `{TransactionsOk}.

(** What a plan comes to, table after table. *)
Definition table_statements_of (p : Plan) (table : string) : res (list statement) :=
  match rows_of table p with
  | [] => Ok []
  | rows => columns ← table_columns (is_world_table table) table; Ok (table_statements columns table rows)
  end.

Definition plan_statements (p : Plan) (tables : list string) : res (list statement) :=
  l ← res_map (table_statements_of p) tables; Ok (concat l).

Lemma insert_rows_spec l (c c' : conn) r :
  insert_rows l c = (r, c') -> kept_rows c' = kept_rows c /\ (r = Ok tt -> pending c' = pending c ++ l).
Proof.
  revert c. induction l as [|s l IH]; cbn; intros c E.
  - injection E as <- <-. by rewrite app_nil_r.
  - destruct (insert s c) as [[[]|e] c1] eqn:Ei.
    + apply insert_ok in Ei as [Hp Hk]. apply IH in E as [Hk' Hp']. rewrite Hk', Hk. split; [done|].
      intros ->. by rewrite Hp', Hp, <- app_assoc.
    + injection E as <- <-. by apply insert_err in Ei as [_ Hk].
Qed.

Lemma plan_statements_cons p t tables :
  plan_statements p (t :: tables) = a ← table_statements_of p t; b ← plan_statements p tables; Ok (a ++ b).
Proof.
  unfold plan_statements. cbn. destruct (table_statements_of p t); [|done]. cbn. by destruct (res_map _ tables).
Qed.

Lemma insert_tables_spec p tables (c c' : conn) r :
  insert_tables p tables c = (r, c') ->
  kept_rows c' = kept_rows c
  /\ forall written, r = Ok written -> exists l, plan_statements p tables = Ok l /\ pending c' = pending c ++ l.
Proof.
  revert c r. induction tables as [|t tables IH]; cbn [insert_tables]; intros c r E.
  - injection E as <- <-. split; [done|]. intros _ _. exists []. by rewrite app_nil_r.
  - destruct (rows_of t p) as [|r0 rows] eqn:Erows.
    + apply IH in E as [Hk Hw]. split; [done|]. intros written Hr. destruct (Hw written Hr) as (l & Hl & Hp).
      exists l. split; [|done]. rewrite plan_statements_cons, Hl. unfold table_statements_of. by rewrite Erows.
    + destruct (table_columns _ t) as [columns|e] eqn:Ecols; [|injection E as <- <-; by split].
      destruct (insert_rows _ c) as [[[]|e] c1] eqn:Er; apply insert_rows_spec in Er as [Hk1 Hp1];
        [|injection E as <- <-; by split].
      destruct (insert_tables p tables c1) as [[w|e] c2] eqn:Et; injection E as <- <-; apply IH in Et as [Hk2 Hw2];
        (split; [by rewrite Hk2|]); [|discriminate].
      intros written _. destruct (Hw2 w eq_refl) as (l & Hl & Hp).
      exists (table_statements columns t (r0 :: rows) ++ l). rewrite Hp, (Hp1 eq_refl), <- app_assoc. split; [|done].
      rewrite plan_statements_cons, Hl. unfold table_statements_of. by rewrite Erows, Ecols.
Qed.

(** What is kept of an application, whatever happens in it. *)
Lemma apply_plan_spec p rehearse (c c' : conn) r :
  pending c = [] -> apply_plan p rehearse c = (r, c') ->
  match r, rehearse with
  | Ok _, false =>
      pending c' = [] /\ exists q l, renumber p = Ok q /\ plan_statements q WRITE_ORDER = Ok l
                              /\ kept_rows c' = kept_rows c ++ l
  | _, _ => pending c' = [] /\ kept_rows c' = kept_rows c
  end.
Proof.
  intros Hc. unfold apply_plan. destruct (renumber p) as [q|e]; [|intros [= <- <-]; by destruct rehearse].
  destruct (insert_tables q WRITE_ORDER c) as [[w|e] c1] eqn:Et; apply insert_tables_spec in Et as [Hk Hw].
  - destruct (Hw w eq_refl) as (l & Hl & Hp). destruct rehearse.
    + intros [= <- <-]. destruct (rollback_drops c1) as [? ->]. done.
    + destruct (commit c1) as [[[]|e] c2] eqn:Ec; intros [= <- <-].
      * apply commit_ok in Ec as [Hk2 Hp2]. split; [done|]. exists q, l. by rewrite Hk2, Hp, Hc, Hk.
      * apply commit_err in Ec. destruct (rollback_drops c2) as [? ->]. by rewrite Ec.
  - intros [= <- <-]. destruct (rollback_drops c1) as [? ->]. by destruct rehearse.
Qed.
End Atomic.

(** ** What validation promises *)

Section Validated.
Context `{Unicode} `{Database}.

Lemma validate_rows_none p table :
  validate_rows p = Ok [] -> table ∈ WRITE_ORDER -> validate_table p table = Ok [].
Proof.
  unfold validate_rows. intros E Ht. destruct (res_map _ WRITE_ORDER) as [ls|] eqn:Em; [|discriminate].
  destruct (res_map_elem _ _ _ _ Em Ht) as (l & Hl & ->). injection E as E. f_equal.
  apply list_elem_of_split in Hl as (l1 & l2 & ->). rewrite concat_app in E. by apply app_nil in E as [_ [-> _]%app_nil].
Qed.
End Validated.

(** ** The run *)

Section RunSpec.
Context `{Unicode} `{Casing} `{Database} `{TransactionsOk} (repr_of : json -> pystr) (clock : Z).

Lemma blocks_writing_none checks : length (blocks_writing checks) = 0%nat -> forall ck, ck ∈ checks -> ck_status ck <> FAIL.
Proof.
  intros E ck Hin Hf. unfold blocks_writing in E. apply length_zero_iff_nil in E.
  assert (ck ∈ filter (fun c => ck_status c = FAIL) checks) as Hx by (by apply list_elem_of_filter).
  rewrite E in Hx. by apply elem_of_nil in Hx.
Qed.

Lemma schema_fit_spec p checks checks' :
  schema_fit (Some p) checks = Ok checks' -> (forall ck, ck ∈ checks' -> ck_status ck <> FAIL) ->
  validate_rows p = Ok [] /\ forall ck, ck ∈ checks -> ck_status ck <> FAIL.
Proof.
  unfold schema_fit. intros E Hf. inv_bind E. rename v into problems. apply Ok_inj in E. subst checks'. split.
  - f_equal. apply length_zero_iff_nil.
    specialize (Hf (ok_or_fail "schema fit" (bool_decide (length problems = 0%nat)))).
    unfold ok_or_fail in Hf. case_bool_decide; [done|]. exfalso. apply Hf; [|done]. apply elem_of_app. right. by left.
  - intros ck Hck. apply Hf. apply elem_of_app. by left.
Qed.

(** A plan comes with the checks it was made under. *)
Lemma try_plan_spec args char resolvers checks p checks' :
  try_plan repr_of clock args char resolvers checks = Ok (Some p, checks') ->
  checks' = checks /\ exists R, resolvers = Some R /\ build_plan (H2:=R) repr_of clock args char = Ok p.
Proof.
  unfold try_plan. destruct (blocks_planning checks); [discriminate|]. destruct resolvers as [R|]; [|discriminate].
  destruct (build_plan _ _ args char) as [q|[]] eqn:E; try discriminate. intros [= <- <-]. eauto.
Qed.

Lemma realm_check_live args char su checks :
  checks_of repr_of args char su = Ok checks -> (forall ck, ck ∈ checks -> ck_status ck <> FAIL) ->
  realm_looks_live (su_characters_db su) (su_running su) = true -> ar_allow_online args = true.
Proof.
  unfold checks_of, preflight. intros E Hf Hl. rewrite Hl in E. inv_binds E. apply Ok_inj in E. subst checks.
  specialize (Hf (realm_check args true)). unfold realm_check in Hf. cbn in Hf.
  destruct (ar_allow_online args); [done|]. exfalso. apply Hf; [by left|done].
Qed.

(** C5: The database changes only on --apply, and then by the whole plan: no
    check failed, the realm was down or the operator said otherwise, the plan
    was built from this checkpoint and fits the live schema, and all its rows
    are kept together, in the order of the tables.  In every other case -- a
    dry run, a rehearsal, a failed check, an error anywhere, a statement or a
    commit that fails -- the database keeps what it had. *)
Theorem run_writes_whole_or_nothing args char su (c c' : conn) o :
  pending c = [] -> import_run repr_of clock args char su c = (o, c') ->
  pending c' = []
  /\ (kept_rows c' = kept_rows c
      \/ exists checks R p q l written,
           o = Applied p written /\ ar_apply args = true /\ ar_rehearse args = false
           /\ checks_of repr_of args char su = Ok checks /\ (forall ck, ck ∈ checks -> ck_status ck <> FAIL)
           /\ (realm_looks_live (su_characters_db su) (su_running su) = true -> ar_allow_online args = true)
           /\ su_resolvers su = Some R /\ build_plan (H2:=R) repr_of clock args char = Ok p
           /\ validate_rows p = Ok [] /\ renumber p = Ok q
           /\ plan_statements q WRITE_ORDER = Ok l /\ kept_rows c' = kept_rows c ++ l).
Proof.
  intros Hc. unfold import_run. destruct (ar_apply args && ar_rehearse args) eqn:Hboth; [intros [= <- <-]; auto|].
  destruct (checks_of repr_of args char su) as [checks|e] eqn:Echecks; cbn [mbind res_bind]; [|intros [= <- <-]; auto].
  destruct (try_plan _ _ args char _ checks) as [[[p|] checks1]|e] eqn:Etry; cbn [mbind res_bind];
    [| cbn; intros [= <- <-]; auto | intros [= <- <-]; auto].
  destruct (schema_fit (Some p) checks1) as [checks2|e] eqn:Efit; cbn [mbind res_bind]; [|intros [= <- <-]; auto].
  destruct (blocks_planning checks2); [intros [= <- <-]; auto|].
  unfold write_plan. destruct ((ar_apply args || ar_rehearse args) && negb _) eqn:Hblock; [intros [= <- <-]; auto|].
  destruct (ar_rehearse args) eqn:Hre.
  { destruct (apply_plan p true c) as [[w|e] c1] eqn:Ea; apply apply_plan_spec in Ea; try done;
      destruct Ea as [Hp Hk]; intros [= <- <-]; auto. }
  destruct (ar_apply args) eqn:Hap; cbn [negb]; [|intros [= <- <-]; auto].
  destruct (apply_plan p false c) as [[w|e] c1] eqn:Ea; apply apply_plan_spec in Ea; try done; intros [= <- <-];
    [|destruct Ea; auto].
  destruct Ea as (Hp & q & l & Hq & Hl & Hk). split; [done|]. right.
  apply negb_false_iff, bool_decide_eq_true in Hblock. pose proof (blocks_writing_none _ Hblock) as Hnone.
  apply schema_fit_spec in Efit as [Hv Hnone1]; [|done]. apply try_plan_spec in Etry as (-> & R & HR & Hb).
  exists checks, R, p, q, l, w. split_and!; try done. by eapply realm_check_live.
Qed.
End RunSpec.
