(* ===== verification/BmsPlacesSpec.v ===== *)
(** * Where the items are

    No two items share a slot, what is worn may be worn, and the mail holds the
    rest in messages of at most twelve. *)
From S2P Require Import Prelude Wire PyFloat Text Format Json LuaSpec BmsMap BmsEquip BmsCoa BmsDbc BmsPlan BmsMapSpec BmsItems BmsItemsSpec BmsApply BmsApplySpec.

Section Places.
Context `{Unicode} `{Casing} `{Database} (repr_of : json -> pystr) (clock : Z).

(** ** The rows of the plan *)

Definition moved_of (s : placing) (U : list (captured * Z * refusal)) (L : list captured) : list (captured * option Z) :=
  relocate (map (fun u => fst (fst u)) U ++ L) (free_backpack (pc_used s)).

Lemma planned_before synth records g wearer p p' g' parsed t s A U L p1 p2 p3 p4 guids chunks tb :
  items_planned repr_of clock synth records g wearer p p' g' parsed t s A U L p1 p2 p3 p4 guids chunks ->
  lit tb <> lit "item_template" -> rows_of tb p3 = rows_of tb p.
Proof.
  intros [Hparse Hknown Hplaced (Hn & _) _ _ _] Htb.
  apply read_items_spec in Hparse as (_ & [Hpr _] & _). apply known_items_plan in Hknown as [_ Hk].
  pose proof (pa_rows _ _ _ _ _ _ _ _ Hplaced) as [Hsr _]. cbn [pc_plan] in Hsr.
  unfold rows_of at 1. rewrite Hn, Hsr. fold (rows_of tb p2). rewrite Hk by done. unfold rows_of. by rewrite Hpr.
Qed.

Lemma planned_inventory synth records g wearer p p' g' parsed t s A U L p1 p2 p3 p4 guids chunks :
  items_planned repr_of clock synth records g wearer p p' g' parsed t s A U L p1 p2 p3 p4 guids chunks ->
  rows_of "character_inventory" p = [] ->
  rows_of "character_inventory" p'
  = map (fun sg => inventory_row p3 (fst sg) (snd sg)) (omap (M:=list) in_bags (stamp (A ++ moved_of s U L) g)).
Proof.
  intros Hip Hv0. pose proof (planned_before _ _ _ _ _ _ _ _ _ _ _ _ _ _ _ _ _ _ _ "character_inventory" Hip) as Hb.
  destruct Hip as [_ _ _ _ [_ Hv _ _ _] _ [_ _ _ _ _ Ho]].
  rewrite Ho, Hv, Hb, Hv0 by other_table. done.
Qed.

(** What a record asks for is worn below 19 and carried from 23 on. *)
Lemma asked_slot_range r slot : asked_slot r = Some slot ->
  if is_equipped r then 0 <= slot < 19 /\ equipped_db_slot (jval r "slotId") = inr slot else 23 <= slot.
Proof.
  unfold asked_slot. destruct (is_equipped r).
  - destruct (equipped_db_slot _) as [|s'] eqn:E; [discriminate|]. intros [= ->]. split; [|done].
    unfold equipped_db_slot, EQUIPMENT_SLOT_END in E. destruct (_ && _) eqn:Hb in E; [|discriminate]. injection E as <-.
    zbool. lia.
  - destruct (split_bag_placement r) as [|[box s']] eqn:E; [discriminate|]. destruct (box =? 0) eqn:Hb; [|discriminate].
    intros [= ->]. zbool. subst box. unfold split_bag_placement in E.
    destruct (_ <? 1) eqn:H1'; [discriminate|]. zbool.
    unfold INVENTORY_SLOT_ITEM_START, KEYRING_SLOT_START in E.
    destruct (_ =? BACKPACK_CONTAINER); [destruct (_ <=? _); [discriminate|]; injection E as <-; lia|].
    destruct (_ =? KEYRING_CONTAINER); [destruct (_ <=? _); [discriminate|]; injection E as <-; lia|].
    destruct (_ && _) eqn:Hr in E; [|discriminate]. injection E as Hz _. zbool. lia.
Qed.

Lemma inventory_slots_NoDup synth equipment bags g wearer p p' g' :
  rows_of "character_inventory" p = [] ->
  _plan_items repr_of clock synth equipment bags g wearer p = Ok (p', g') ->
  NoDup (omap (M:=list) asked (equipment ++ bags)) ->
  NoDup (cells "character_inventory" "slot" p').
Proof.
  intros Hv0 (parsed & t & s & A & U & L & p1 & p2 & p3 & p4 & guids & chunks & Hip)%plan_items_inv Hnd.
  unfold cells. rewrite (planned_inventory _ _ _ _ _ _ _ _ _ _ _ _ _ _ _ _ _ _ _ Hip Hv0).
  rewrite (omap_map_some _ _ fst) by done. rewrite in_bags_slots, omap_app. unfold moved_of. rewrite relocate_snd.
  destruct Hip as [Hparse _ Hplaced _ _ _ _]. apply read_items_spec in Hparse as (_ & _ & _ & Hsub & _).
  pose proof (free_backpack_spec (pc_used s)) as [Hfnd Hfree]. apply NoDup_app. split_and!.
  - eapply sublist_NoDup; [exact Hnd|]. etransitivity; [exact (pa_slots _ _ _ _ _ _ _ _ Hplaced)|done].
  - intros slot ([c o] & Hin & Ho)%list_elem_of_omap Ht. cbn in Ho. subst o.
    apply (pa_fit _ _ _ _ _ _ _ _ Hplaced) in Hin as (slot' & [= <-] & _ & Hu & _).
    apply (elem_of_sublist _ (free_backpack (pc_used s))) in Ht; [|apply sublist_take]. apply Hfree in Ht as []. done.
  - by eapply sublist_NoDup, sublist_take.
Qed.
(** C33: No two items share a slot: if the places the capture asks for are
    distinct, so are the slots of the rows, those of the items that had to move
    included. *)
Theorem inventory_slots_distinct synth equipment bags g wearer p p' g' :
  rows_of "character_inventory" p = [] ->
  _plan_items repr_of clock synth equipment bags g wearer p = Ok (p', g') ->
  NoDup (omap (M:=list) asked (equipment ++ bags)) ->
  NoDup (cells "character_inventory" "slot" p').
Proof. apply inventory_slots_NoDup. Qed.

(** ** What is worn *)

Lemma stamp_elem placed : forall g m gu, (m, gu) ∈ stamp placed g -> m ∈ placed.
Proof. intros g m gu Hin. apply (list_elem_of_fmap_2 fst) in Hin. by rewrite stamp_fst in Hin. Qed.

Lemma moved_slots s U L c slot : (c, Some slot) ∈ moved_of s U L -> 23 <= slot.
Proof.
  intros Hin. assert (slot ∈ omap (M:=list) snd (moved_of s U L)) as Hs by (apply list_elem_of_omap; by exists (c, Some slot)).
  unfold moved_of in Hs. rewrite relocate_snd in Hs. apply (elem_of_sublist _ (free_backpack (pc_used s))) in Hs; [|apply sublist_take].
  apply (free_backpack_spec (pc_used s)) in Hs. lia.
Qed.

Lemma read_items_fields l : forall i p cs p' c,
  read_items i l p = Ok (cs, p') -> c ∈ cs -> parse_item_fields (cp_record c) = inr (cp_fields c).
Proof.
  induction l as [|v l IH]; intros i p cs p' c E Hc; cbn [read_items] in E.
  { apply Ok_inj in E. injection E as <- <-. by apply elem_of_nil in Hc. }
  destruct v as [| | | | | |r]; try discriminate. destruct (parse_item_fields r) as [e|f] eqn:Ef; [by eapply IH|].
  inv_bind E. destruct v as [cs0 p0]. apply Ok_inj in E. injection E as <- <-. apply elem_of_cons in Hc as [->|Hc].
  - done.
  - by eapply IH.
Qed.

(** A template is filed under the entry it has. *)
Definition filed (rows : list (list (pystr * json))) (d : list (Z * list (pystr * json))) : Prop :=
  forall e r, dget e d = Some r -> jval r "entry" = JInt e /\ r ∈ rows.

Lemma jitem_jval r c v : jitem (JDict r) (lit c) = Ok v -> jval r c = v.
Proof. cbn. unfold jval. destruct (dget (lit c) r); cbn; [by intros [= ->]|discriminate]. Qed.

Lemma add_templates_filed rows : forall t t',
  res_fold add_template t rows = Ok t' -> (forall e, e ∈ tp_known t -> is_Some (dget e (tp_rows t))) ->
  forall all, (forall r, r ∈ rows -> r ∈ all) -> filed all (tp_rows t) ->
  filed all (tp_rows t') /\ forall e, e ∈ tp_known t' -> is_Some (dget e (tp_rows t')).
Proof.
  induction rows as [|r rows IH]; intros t t' E Hk all Hall Hf; cbn [res_fold] in E; [apply Ok_inj in E; by subst|].
  inv_bind E. unfold add_template in E0. inv_bind E0. apply jitem_jval in E1. destruct v0 as [| |e| | | |]; try discriminate.
  inv_bind E0. apply Ok_inj in E0. subst v. eapply IH in E; [exact E|..]; cbn.
  - intros e' He'. rewrite dget_dset. case_decide; [done|]. apply set_add_elem in He' as [->|He']; [done|by apply Hk].
  - intros r' Hr'. apply Hall. by right.
  - intros e' r'. rewrite dget_dset. case_decide as Hd; [|apply Hf]. subst e'. intros [= <-]. split; [done|]. apply Hall. by left.
Qed.

Lemma default_templates_filed rows : forall d d' all,
  res_fold default_template d rows = Ok d' -> (forall r, r ∈ rows -> r ∈ all) -> filed all d ->
  filed all d' /\ (forall e, is_Some (dget e d) -> is_Some (dget e d'))
  /\ forall r e, r ∈ rows -> jval r "entry" = JInt e -> is_Some (dget e d').
Proof.
  induction rows as [|r rows IH]; intros d d' all E Hall Hf; cbn [res_fold] in E.
  { apply Ok_inj in E. subst. split_and!; [done..|]. intros r e []%elem_of_nil. }
  inv_bind E. unfold default_template in E0. inv_bind E0. apply jitem_jval in E1. destruct v0 as [| |e| | | |]; try discriminate.
  apply Ok_inj in E0. assert (is_Some (dget e v) /\ (forall e', is_Some (dget e' d) -> is_Some (dget e' v)) /\ filed all v) as (He & Hd & Hv).
  { unfold dsetdefault in E0. destruct (dget e d) eqn:Ed; cbn in E0; subst v; [by rewrite Ed|]. rewrite dget_dset_eq. split_and!; [done|..].
    - intros e' ?. rewrite dget_dset. by case_decide.
    - intros e' r'. rewrite dget_dset. case_decide as Hx; [|apply Hf]. subst. intros [= <-]. split; [done|]. apply Hall. by left. }
  eapply IH in E as (Hf' & Hk & Hr); [|intros; apply Hall; by right|exact Hv]. split_and!; [done|auto|].
  intros r' e' [->|Hin]%elem_of_cons Hj; [|by eapply Hr]. rewrite E1 in Hj. injection Hj as <-. by apply Hk.
Qed.

Lemma synthetic_entry columns e record r : synthetic_row repr_of columns e record = Ok r -> jval r "entry" = JInt e.
Proof.
  unfold synthetic_row. intros E. inv_binds E. apply Ok_inj in E. subst r. unfold jval.
  rewrite (fill_keeps columns _ (lit "entry") (JInt e)); [done|]. vm_compute (lit "entry"). reflexivity.
Qed.

Lemma synthesised_rows columns by_id l : forall p p',
  res_fold (synthesise repr_of columns by_id) p l = Ok p' ->
  (forall r, r ∈ rows_of "item_template" p -> r ∈ rows_of "item_template" p')
  /\ forall e, e ∈ l -> exists r, r ∈ rows_of "item_template" p' /\ jval r "entry" = JInt e.
Proof.
  induction l as [|e l IH]; intros p p' E; cbn [res_fold] in E.
  { apply Ok_inj in E. subst. split; [done|]. intros e []%elem_of_nil. }
  inv_bind E. unfold synthesise in E0. inv_bind E0. inv_bind E0. apply synthetic_entry in E2. apply Ok_inj in E0. subst v.
  apply IH in E as [Hk Hl]. split.
  - intros r Hr. apply Hk. plan_rows. apply elem_of_app. by left.
  - intros e' [->|Hin]%elem_of_cons; [|by apply Hl]. exists v1. split; [|done]. apply Hk. plan_rows. apply elem_of_app. right. by left.
Qed.

(** Every known item has the template of its entry, from the target or from the
    plan. *)
Lemma known_items_templates synth parsed p t p' :
  known_items repr_of synth parsed p = Ok (t, p') ->
  forall e, e ∈ tp_known t -> exists r, dget e (tp_rows t) = Some r /\ jval r "entry" = JInt e
    /\ (r ∈ rows_of "item_template" p' \/ exists wanted rows, item_templates wanted = Ok rows /\ r ∈ rows).
Proof.
  unfold known_items. intros E. set (wanted := foldl _ _ parsed) in E. inv_bind E. rename v into rows, E0 into Erows.
  inv_bind E. rename v into t0.
  assert (forall r, r ∈ rows -> exists w rs, item_templates w = Ok rs /\ r ∈ rs) as Hrows.
  { intros r Hr. destruct wanted; [apply Ok_inj in Erows; subst rows; by apply elem_of_nil in Hr|eauto]. }
  assert (forall e, e ∈ tp_known (Templates [] [] []) -> is_Some (dget e (tp_rows (Templates [] [] [])))) as Hk0
    by (intros e He; by apply elem_of_nil in He).
  destruct (synth && _).
  - inv_bind E. rename v into q. inv_bind E. rename v into trows. inv_bind E. apply Ok_inj in E. injection E as <- <-.
    set (all := rows ++ rows_of "item_template" q).
    destruct (add_templates_filed _ _ _ E0 Hk0 all) as [Hf Hk]; [intros r Hr; apply elem_of_app; by left|done|].
    destruct (default_templates_filed _ _ _ all E2) as (Hf' & Hk' & Hr'); [intros r Hr; apply elem_of_app; by right|done|].
    unfold _plan_synthetic_items in E1. inv_bind E1. apply synthesised_rows in E1 as [_ Hsyn].
    intros e He. cbn in He. apply foldl_set_add in He. cbn [tp_rows].
    assert (is_Some (dget e trows)) as [r Hr].
    { destruct He as [He|He]; [by apply Hk', Hk|]. destruct (Hsyn e) as (r & Hr & Hj); [unfold sort_Z; by apply py_sort_elem|].
      by eapply Hr'. }
    exists r. destruct (Hf' _ _ Hr) as [Hj Hin]. split_and!; [done..|]. unfold all in Hin.
    apply elem_of_app in Hin as [Hin|Hin]; [right; by apply Hrows|by left].
  - apply Ok_inj in E. injection E as <- <-. destruct (add_templates_filed _ _ _ E0 Hk0 rows) as [Hf Hk]; [done..|].
    intros e He. destruct (Hk e He) as [r Hr]. exists r. destruct (Hf _ _ Hr) as [Hj Hin]. split_and!; [done..|]. right. by apply Hrows.
Qed.

(** ** The mail *)

Lemma number_ids chunks : forall k, map fst (number k chunks) = map (fun i => k + i) (seqZ_from (pylen chunks)).
Proof.
  unfold seqZ_from, pylen. induction chunks as [|ch chunks IH]; intros k; [done|].
  cbn [number map fst length]. rewrite IH, !Nat2Z.id. cbn [seq map]. f_equal; [lia|].
  rewrite <- seq_shift, !map_map. apply map_ext. lia.
Qed.

(** The rows of a message. *)
Definition in_message (id : Z) (r : list (pystr * json)) : Prop := cell_of "mail_id" r = Some id.

#[export] Instance in_message_dec id r : Decision (in_message id r).
Proof. unfold in_message. apply _. Defined.

Lemma filter_message (p : Plan) id k ch :
  filter (in_message id) (map (mail_item_row p k) ch) = if decide (id = k) then map (mail_item_row p k) ch else [].
Proof.
  induction ch as [|g ch IH]; [by case_decide|]. cbn [map]. rewrite filter_cons, IH.
  assert (in_message id (mail_item_row p k g) <-> k = id) as Hin by (split; [by intros [= ->]|by intros ->]).
  destruct (decide (in_message id _)) as [Hd|Hd]; rewrite Hin in Hd; case_decide; congruence.
Qed.

Lemma message_sizes (p : Plan) chunks : forall k id,
  Forall (fun ch => (1 <= length ch <= MAIL_ITEMS_PER_MESSAGE)%nat) chunks -> id ∈ map fst (number k chunks) ->
  (1 <= length (filter (in_message id) (concat (map (fun m => map (mail_item_row p (fst m)) (snd m)) (number k chunks))))
     <= MAIL_ITEMS_PER_MESSAGE)%nat.
Proof.
  assert (forall chunks k id, id < k ->
    filter (in_message id) (concat (map (fun m => map (mail_item_row p (fst m)) (snd m)) (number k chunks))) = []) as Hlow.
  { clear. induction chunks as [|ch chunks IH]; intros k id Hid; [done|]. cbn [number map concat fst snd].
    rewrite filter_app, filter_message, decide_False, IH by lia. done. }
  induction chunks as [|ch chunks IH]; intros k id Hs Hin; [by apply elem_of_nil in Hin|].
  apply Forall_cons in Hs as [Hch Hs]. cbn [number map concat fst snd] in *. rewrite filter_app, filter_message, length_app.
  apply elem_of_cons in Hin as [->|Hin].
  - rewrite decide_True, Hlow, length_map by (done || lia). cbn [length]. lia.
  - rewrite decide_False; [by apply IH|]. rewrite number_ids in Hin. apply list_elem_of_fmap in Hin as (i & -> & Hi).
    unfold seqZ_from in Hi. apply list_elem_of_fmap in Hi as (n & -> & _). lia.
Qed.

(** C35: The mail carries what has no slot: messages are numbered from one,
    each holds at least one item and at most twelve, and every item sent is in
    one of them. *)
Theorem mail_messages synth equipment bags g wearer p p' g' :
  rows_of "mail" p = [] -> rows_of "mail_items" p = [] ->
  _plan_items repr_of clock synth equipment bags g wearer p = Ok (p', g') ->
  cells "mail" "id" p' = map (fun i => 1 + i) (seqZ_from (count "mail" p'))
  /\ (forall id, id ∈ cells "mail" "id" p' ->
        (1 <= length (filter (in_message id) (rows_of "mail_items" p')) <= 12)%nat)
  /\ (forall id, id ∈ cells "mail_items" "mail_id" p' -> id ∈ cells "mail" "id" p').
Proof.
  intros Hm0 Hi0 (parsed & t & s & A & U & L & p1 & p2 & p3 & p4 & guids & chunks & Hip)%plan_items_inv.
  pose proof (planned_before _ _ _ _ _ _ _ _ _ _ _ _ _ _ _ _ _ _ _ "mail" Hip) as Hb.
  pose proof (planned_before _ _ _ _ _ _ _ _ _ _ _ _ _ _ _ _ _ _ _ "mail_items" Hip) as Hbi.
  destruct Hip as [_ _ _ _ [_ _ _ _ Ho] _ [Hs _ Hm Hmi _ _]].
  rewrite Ho, Hb, Hm0 in Hm by other_table. rewrite Ho, Hbi, Hi0 in Hmi by other_table.
  assert (count "mail" p4 = 0) as Hc by (unfold count; rewrite Ho, Hb, Hm0 by other_table; done).
  rewrite Hc in Hm, Hmi. cbn [app] in Hm, Hmi. change (0 + 1) with 1 in *.
  assert (cells "mail" "id" p' = map fst (number 1 chunks)) as Hids.
  { unfold cells. rewrite Hm. by rewrite (omap_map_some _ _ fst). }
  split_and!.
  - rewrite Hids, number_ids. unfold count. rewrite Hm. unfold pylen. rewrite length_map, <- (length_map fst), number_ids, !length_map.
    f_equal. unfold seqZ_from at 3. unfold pylen. by rewrite length_map, length_seq, Nat2Z.id.
  - intros id. rewrite Hids, Hmi. by apply message_sizes.
  - intros id Hin. rewrite Hids. unfold cells in Hin. rewrite Hmi in Hin. clear -Hin. revert Hin.
    generalize 1 as k. induction chunks as [|ch chunks IH]; intros k Hin; [by apply elem_of_nil in Hin|].
    cbn [number map concat fst snd] in *. rewrite omap_app in Hin. apply elem_of_app in Hin as [Hin|Hin]; [|right; by apply IH].
    rewrite (omap_map_some _ _ (fun _ => k)) in Hin by done. apply list_elem_of_fmap in Hin as (_ & -> & _). by left.
Qed.
(** ** The look of the character *)

(** The first number of the text is the permanent enchantment. *)
Lemma blob_head f : exists rest, split_ws (enchantments_blob f) = str_of_Z (if_enchant f) :: rest.
Proof.
  unfold enchantments_blob. rewrite split_ws_join by (apply Forall_map, Forall_true, number_word).
  assert (enchant_slots f !! 0%nat = Some [if_enchant f; 0; 0]) as Hh.
  { assert (forall i v slots, put_enchant (S i) v slots !! 0%nat = slots !! 0%nat) as Hput.
    { intros i v slots. unfold put_enchant. destruct (v =? 0); [done|]. by rewrite list_lookup_alter_ne. }
    unfold enchant_slots. set (first := put_enchant PERM_ENCHANTMENT_SLOT _ _).
    assert (first !! 0%nat = Some [if_enchant f; 0; 0]) as Hfirst.
    { unfold first, put_enchant. destruct (Z.eqb_spec (if_enchant f) 0) as [->|]; done. }
    assert (forall l slots, slots !! 0%nat = Some [if_enchant f; 0; 0] ->
      foldl (fun slots og => put_enchant (SOCK_ENCHANTMENT_SLOT + fst og) (snd og) slots) slots l !! 0%nat
      = Some [if_enchant f; 0; 0]) as Hfold.
    { induction l as [|og l IH]; intros slots Hs; [done|]. cbn. apply IH. by rewrite Hput. }
    destruct (if_gems f !! 3%nat); [unfold PRISMATIC_ENCHANTMENT_SLOT; rewrite Hput|]; by apply Hfold. }
  destruct (enchant_slots f) as [|slot slots]; [discriminate|]. injection Hh as ->. cbn. eauto.
Qed.

Lemma worn_pair_spec m gu r : instance_of (m, gu) r -> worn_pair repr_of r = Ok (c_item (fst m), if_enchant (cp_fields (fst m))).
Proof.
  intros (_ & He & Hn). cbn [fst snd] in *. unfold worn_pair.
  assert (jitem (JDict r) (lit "itemEntry") = Ok (JInt (c_item (fst m)))) as ->.
  { revert He. unfold jval. cbn [jitem]. by destruct (dget (lit "itemEntry") r); cbn; [intros ->|]. }
  cbn [mbind res_bind py_int]. rewrite Hn. unfold text_or. destruct (blob_head (cp_fields (fst m))) as [rest Hb].
  assert (py_truthy (JStr (enchantments_blob (cp_fields (fst m)))) = true) as ->.
  { cbn. destruct (enchantments_blob _); [discriminate|done]. }
  cbn [py_str]. rewrite Hb, int_of_text. done.
Qed.

(** The table of items has the row of each guid handed out. *)
Lemma by_guid_spec st rows : Forall2 instance_of st rows -> NoDup (map snd st) -> forall d,
  exists d', res_fold (fun d r => g ← row_guid r; Ok (dset g r d)) d rows = Ok d'
    /\ (forall gu, gu ∉ map snd st -> dget gu d' = dget gu d)
    /\ forall m gu, (m, gu) ∈ st -> exists r, r ∈ rows /\ dget gu d' = Some r /\ instance_of (m, gu) r.
Proof.
  induction 1 as [|[m0 g0] r st rows Hi Hf IH]; intros Hnd d.
  { exists d. split_and!; [done..|]. intros m gu []%elem_of_nil. }
  cbn [map snd] in Hnd. apply NoDup_cons in Hnd as [Hni Hnd]. cbn [res_fold].
  assert (row_guid r = Ok g0) as ->.
  { destruct Hi as (Hg & _). unfold row_guid. cbn [jitem]. revert Hg. unfold jval. cbn [snd].
    by destruct (dget (lit "guid") r); cbn; [intros ->|]. }
  cbn [mbind res_bind]. destruct (IH Hnd (dset g0 r d)) as (d' & Hd & Hk & Hin). exists d'. split_and!; [done|..].
  - intros gu Hgu. cbn in Hgu. apply not_elem_of_cons in Hgu as [Hne Hgu]. rewrite Hk by done. by rewrite dget_dset_ne.
  - intros m gu [[= -> ->]|Hx]%elem_of_cons.
    + exists r. split_and!; [by left| |done]. rewrite Hk by done. by rewrite dget_dset_eq.
    + apply Hin in Hx as (r' & ? & ? & ?). exists r'. split_and!; [by right|done..].
Qed.

(** What stands in the two values of a slot. *)
Definition pair_at (values : list Z) (slot e n : Z) : Prop :=
  values !! Z.to_nat (2 * slot) = Some e /\ values !! Z.to_nat (2 * slot + 1) = Some n.

Lemma set_value_spec i v l l' : set_value i v l = Ok l' ->
  length l' = length l /\ l' !! Z.to_nat i = Some v /\ forall j, j <> Z.to_nat i -> l' !! j = l !! j.
Proof.
  unfold set_value. destruct (_ && _) eqn:E; [|discriminate]. intros [= <-]. zbool. unfold pylen in *.
  rewrite length_insert. split_and!; [done|apply list_lookup_insert_eq; lia|]. intros j Hj. by apply list_lookup_insert_ne.
Qed.

Lemma show_all_spec (p : Plan) items bagged (look : Z -> Z * Z) : forall values values',
  (forall slot gu, (slot, gu) ∈ bagged -> 0 <= slot /\ exists item, dget gu items = Some item /\ worn_pair repr_of item = Ok (look gu)) ->
  NoDup (map fst bagged) ->
  res_fold (show_worn repr_of items) values (map (fun sg => inventory_row p (fst sg) (snd sg)) bagged) = Ok values' ->
  length values' = length values
  /\ (forall slot gu, (slot, gu) ∈ bagged -> slot < 19 -> pair_at values' slot (fst (look gu)) (snd (look gu)))
  /\ forall slot e n, 0 <= slot -> slot ∉ map fst bagged -> pair_at values slot e n -> pair_at values' slot e n.
Proof.
  induction bagged as [|[s0 g0] bagged IH]; intros values values' Hb Hnd E; cbn [map res_fold fst snd] in E.
  { apply Ok_inj in E. subst. split_and!; [done| |done]. intros slot gu []%elem_of_nil. }
  inv_bind E. rename v into mid, E0 into Estep. cbn [map fst] in Hnd. apply NoDup_cons in Hnd as [Hni Hnd].
  destruct (Hb s0 g0 ltac:(by left)) as (Hs0 & item & Hitem & Hpair).
  apply IH in E as (Hlen & Hin & Hout); [|intros; apply Hb; by right|done].
  assert (length mid = length values /\ (s0 < 19 -> pair_at mid s0 (fst (look g0)) (snd (look g0)))
    /\ forall slot e n, 0 <= slot -> slot <> s0 -> pair_at values slot e n -> pair_at mid slot e n) as (Hl & Hat & Hoth).
  { unfold show_worn in Estep. change (jitem _ (lit "slot")) with (Ok (JInt s0)) in Estep. cbn [mbind res_bind py_int] in Estep.
    unfold EQUIPMENT_SLOT_END in Estep. destruct (19 <=? s0) eqn:H19.
    { apply Ok_inj in Estep. subst mid. zbool. split_and!; [done|lia|done]. }
    change (jitem _ (lit "item")) with (Ok (JInt g0)) in Estep. cbn [mbind res_bind py_int] in Estep. rewrite Hitem, Hpair in Estep.
    cbn [mbind res_bind] in Estep. destruct (look g0) as [e0 n0]. inv_bind Estep.
    apply set_value_spec in E as (Hl1 & Ha1 & Ho1). apply set_value_spec in Estep as (Hl2 & Ha2 & Ho2).
    unfold pair_at. cbn [fst snd]. split_and!; [congruence|..].
    - intros _. replace (2 * s0) with (s0 * 2) by lia. split; [|done]. by rewrite Ho2 by lia.
    - intros slot e n Hs Hne [He Hn]. rewrite !Ho2, !Ho1 by lia. done. }
  split_and!; [congruence|..].
  - intros slot gu [[= -> ->]|Hx]%elem_of_cons Hlt; [|by eapply Hin]. apply Hout; [done|done|by apply Hat].
  - intros slot e n Hs Hslot Hp. cbn in Hslot. apply not_elem_of_cons in Hslot as [Hne Hslot]. apply Hout; [done|done|by apply Hoth].
Qed.
Definition look_at (items : list (Z * list (pystr * json))) (gu : Z) : Z * Z :=
  match dget gu items with Some item => match worn_pair repr_of item with Ok v => v | Err _ => (0, 0) end | None => (0, 0) end.

Lemma in_bags_elem st slot gu : (slot, gu) ∈ omap (M:=list) in_bags st <-> exists c, ((c, Some slot), gu) ∈ st.
Proof.
  rewrite list_elem_of_omap. split.
  - intros ([[c [o|]] g'] & Hin & [=]). subst. eauto.
  - intros [c Hc]. by exists (c, Some slot, gu).
Qed.

Lemma in_bags_of st slot : slot ∈ map fst (omap (M:=list) in_bags st) -> exists c gu, ((c, Some slot), gu) ∈ st.
Proof. intros ([s gu] & -> & Hin)%list_elem_of_fmap. apply in_bags_elem in Hin as [c Hc]. eauto. Qed.

Lemma stamp_NoDup placed g : NoDup (map snd (stamp placed g)).
Proof.
  rewrite stamp_guids. unfold seqZ_from. rewrite map_map. apply NoDup_fmap_2_strong; [lia|apply NoDup_seq].
Qed.

(** C20: The list of characters shows what the character wears: the text of
    the cache reads back as as many numbers as the realm's caches have, the
    entry and the enchantment of the captured item in each of the nineteen
    slots that is filled, zeros in the others. *)
Theorem equipment_cache_shows_worn synth equipment bags g wearer p p' g' width cache :
  rows_of "character_inventory" p = [] -> rows_of "item_instance" p = [] ->
  _plan_items repr_of clock synth equipment bags g wearer p = Ok (p', g') ->
  NoDup (omap (M:=list) asked (equipment ++ bags)) -> 38 <= width ->
  _equipment_cache repr_of p' width = Ok cache ->
  exists values, map int_of_str (split_ws cache) = map Ok values /\ pylen values = width
    /\ forall slot, 0 <= slot < 19 ->
        if decide (slot ∈ cells "character_inventory" "slot" p') then
          exists record f, JDict record ∈ equipment ++ bags /\ asked_slot record = Some slot
            /\ parse_item_fields record = inr f /\ pair_at values slot (if_item f) (if_enchant f)
        else pair_at values slot 0 0.
Proof.
  intros Hv0 Hi0 Hplan Hnd Hwidth Hcache.
  pose proof (inventory_slots_NoDup _ _ _ _ _ _ _ _ Hv0 Hplan Hnd) as Hslots.
  apply plan_items_inv in Hplan as (parsed & t & s & A & U & L & p1 & p2 & p3 & p4 & guids & chunks & Hip).
  pose proof (planned_inventory _ _ _ _ _ _ _ _ _ _ _ _ _ _ _ _ _ _ _ Hip Hv0) as Hinv.
  pose proof (planned_before _ _ _ _ _ _ _ _ _ _ _ _ _ _ _ _ _ _ _ "item_instance" Hip ltac:(other_table)) as Hb.
  destruct Hip as [Hparse _ Hplaced _ [(rows & Hir & Hif) _ _ _ _] _ [_ _ _ _ _ Hmo]]. fold (moved_of s U L) in *.
  set (st := stamp (A ++ moved_of s U L) g) in *.
  assert (rows_of "item_instance" p' = rows) as Hinst by (rewrite Hmo, Hir, Hb, Hi0 by other_table; done).
  destruct (by_guid_spec st rows Hif (stamp_NoDup _ _) []) as (items & Hitems & _ & Hfound).
  unfold _equipment_cache in Hcache. inv_bind Hcache. apply Ok_inj in Hcache. subst cache. exists v.
  split; [apply numbers_read_back|].
  unfold cache_values, by_guid in E. rewrite Hinst in E. rewrite Hitems in E. cbn [mbind res_bind] in E. rewrite Hinv in E.
  assert (cells "character_inventory" "slot" p' = map fst (omap (M:=list) in_bags st)) as Hcells.
  { unfold cells. rewrite Hinv. by rewrite (omap_map_some _ _ fst). }
  assert (forall c slot gu, ((c, Some slot), gu) ∈ st -> 0 <= slot /\ (slot < 19 -> c ∈ parsed /\ c_asked c = Some slot)) as Hrange.
  { intros c slot gu Hin. apply stamp_elem, elem_of_app in Hin as [Hin|Hin%moved_slots]; [|lia].
    assert (c ∈ parsed) as Hc.
    { eapply elem_of_submseteq; [|exact (pa_from _ _ _ _ _ _ _ _ Hplaced)]. apply elem_of_app. left.
      by apply (list_elem_of_fmap_2 fst) in Hin. }
    apply (pa_fit _ _ _ _ _ _ _ _ Hplaced) in Hin as (slot' & [= <-] & Ha & _). split; [|done].
    pose proof (asked_slot_range _ _ Ha) as Hr. destruct (is_equipped _); lia. }
  apply (show_all_spec _ _ _ (look_at items)) in E as (Hlen & Hworn & Hfree).
  - split; [unfold pylen; rewrite Hlen, length_replicate; lia|]. intros slot Hslot. rewrite Hcells. case_decide as Hin.
    + apply in_bags_of in Hin as (c & gu & Hin). pose proof Hin as Hbag.
      assert ((slot, gu) ∈ omap (M:=list) in_bags st) as Hb' by (apply in_bags_elem; eauto).
      destruct (Hrange _ _ _ Hbag) as [_ [Hc Ha]]; [lia|]. exists (cp_record c), (cp_fields c).
      pose proof (read_items_spec _ _ _ _ _ Hparse) as (_ & _ & _ & _ & Hids & _).
      split_and!; [by apply Hids|done|by eapply read_items_fields|].
      destruct (Hfound _ _ Hbag) as (r & _ & Hr & Hio). specialize (Hworn slot gu Hb' ltac:(lia)).
      unfold look_at in Hworn. by rewrite Hr, (worn_pair_spec _ _ _ Hio) in Hworn.
    + apply Hfree; [lia|done|]. unfold pair_at. split; apply lookup_replicate_2; lia.
  - intros slot gu Hin. apply in_bags_elem in Hin as [c Hin]. split; [by eapply Hrange|].
    destruct (Hfound _ _ Hin) as (r & _ & Hr & Hio). exists r. split; [done|]. unfold look_at.
    by rewrite Hr, (worn_pair_spec _ _ _ Hio).
  - by rewrite <- Hcells.
Qed.
End Places.
