(* ===== verification/BmsSample.v ===== *)
(** * An import of a small capture

    A server with a few tables, a database with a few rows and a connection
    that keeps what is committed: the properties of the importer at work. *)
From S2P Require Import Prelude Wire PyFloat Text Format Json LuaSpec BmsMap BmsEquip BmsCoa BmsDbc BmsPlan BmsMapSpec.
From S2P Require Import BmsItems BmsItemsSpec BmsImport BmsImportSpec BmsApply BmsApplySpec BmsPlacesSpec.

Definition no_repr (_ : json) : pystr := [].

(** ** The target *)

(** Two talents, of which "Fireball" has ranks 100 and 101. *)
#[export] Instance sample_resolvers : Resolvers := {|
  faction_by_name name := Ok (if bool_decide (name = lit "Stormwind") then resolved 72 else unresolved NoFaction);
  faction_base_rep faction race class := Ok (if faction =? 72 then 4000 else 0);
  skill_by_name name := Ok (if bool_decide (name = lit "Swords") then resolved 43 else unresolved NoSkill);
  spell_exists x := Ok (bool_decide (x ∈ [50; 51; 100; 101]));
  class_by_token token := Ok (match token with JStr s => if bool_decide (s = lit "MAGE") then resolved 8 else unresolved NoClassToken
                                             | _ => unresolved NoClassToken end);
  class_name class := Ok (lit "Mage");
  talent_rank_spells := Ok [100; 101];
  resolve_talent_tab class name index := Ok (resolved 41, false);
  talent_spell class tab name rank index :=
    Ok (if bool_decide (name = lit "Fireball") && (1 <=? rank) && (rank <=? 2) then resolved (99 + rank)
        else unresolved (NoTalentNamed name));
|}.

#[export] Instance sample_resolvers_ok : ResolversOk sample_resolvers.
Proof.
  split.
  - intros c tab name rank index r spells [= <-] Hok [= <-]. revert Hok. destruct (bool_decide _ && (1 <=? rank) && (rank <=? 2)) eqn:E; [|discriminate].
    intros _. zbool. assert (rank = 1 \/ rank = 2) as [->| ->] by lia; cbn; [left|right; left].
  - intros c tab name rank index r [= <-] Hok. revert Hok. destruct (bool_decide _ && (1 <=? rank) && (rank <=? 2)) eqn:E; [|discriminate].
    intros _. zbool. lia.
Qed.

Definition sample_templates : list (list (pystr * json)) :=
  [mkrow [("entry", JInt 500); ("class", JInt 4); ("subclass", JInt 0); ("InventoryType", JInt 1); ("MaxDurability", JInt 60)];
   mkrow [("entry", JInt 501); ("class", JInt 2); ("subclass", JInt 7); ("InventoryType", JInt 21); ("RequiredLevel", JInt 70)];
   mkrow [("entry", JInt 502); ("class", JInt 0); ("subclass", JInt 0)]]%string.

Definition any_column : column := Column (lit "YES") None (lit "text") None (lit "text") None.
Definition guid_column : column := Column (lit "NO") None (lit "int") None (lit "int unsigned") None.
Definition columns_named (l : list string) : list (pystr * column) :=
  (lit "guid", guid_column) :: map (fun c => (lit c, any_column)) l.

Definition sample_columns (table : string) : list (pystr * column) :=
  if bool_decide (lit table = lit "characters") then
    columns_named ["account"; "name"; "race"; "class"; "gender"; "level"; "xp"; "money"; "position_x"; "position_y"; "position_z";
      "map"; "orientation"; "zone"; "taximask"; "online"; "cinematic"; "totaltime"; "leveltime"; "logout_time"; "at_login";
      "restState"; "watchedFaction"; "health"; "power1"; "power2"; "power3"; "power4"; "power5"; "power6"; "power7";
      "talentGroupsCount"; "activeTalentGroup"; "exploredZones"; "equipmentCache"; "knownTitles"; "chosenTitle"; "actionBars";
      "totalKills"; "totalHonorPoints"; "arenaPoints"]%string ++ [(lit "innTriggerId", guid_column)]
  else if bool_decide (lit table = lit "character_homebind") then columns_named ["mapId"; "zoneId"; "posX"; "posY"; "posZ"]%string
  else if bool_decide (lit table = lit "item_instance") then
    columns_named ["itemEntry"; "owner_guid"; "creatorGuid"; "giftCreatorGuid"; "count"; "duration"; "charges"; "flags"; "enchantments";
      "randomPropertyId"; "durability"; "playedTime"; "text"]%string
  else columns_named ["bag"; "slot"; "item"; "spell"; "specMask"; "skill"; "value"; "max"; "faction"; "standing"; "flags"; "spec"; "button";
      "action"; "type"; "id"; "mail_id"; "item_guid"; "receiver"; "messageType"; "stationery"; "mailTemplateId"; "sender"; "subject";
      "body"; "has_items"; "expire_time"; "deliver_time"; "money"; "cod"; "checked"; "source"; "data"]%string.

#[export] Instance sample_db : Database := {|
  accounts_named names := Ok [mkrow [("id", JInt 7)]%string];
  character_names := Ok [mkrow [("name", JStr (lit "Merla"))]%string];
  max_guid table := Ok [mkrow [("MAX(guid)", JInt (if bool_decide (lit table = lit "characters") then 5 else 1000))]%string];
  max_mail_id := Ok [mkrow [("MAX(id)", JInt 30)]%string];
  create_info race class := Ok [mkrow [("map", JInt 0); ("zone", JInt 12); ("position_x", JInt (-8949)); ("position_y", JInt (-132));
                                       ("position_z", JInt 83); ("orientation", JInt 0)]%string];
  equipment_caches := Ok [];
  item_templates ids := Ok (filter (fun r => match jval r "entry" with JInt e => bool_decide (e ∈ ids) | _ => false end = true) sample_templates);
  quests_known ids := Ok [];
  table_columns world table := Ok (sample_columns table);
  online_count := Ok [mkrow [("COUNT", JInt 0)]%string];
  schema_rows label := Ok [mkrow [("SCHEMA_NAME", JStr (lit label))]%string];
  account_named name := Ok [mkrow [("id", JInt 7)]%string];
  realm_rows := Ok [mkrow [("name", JStr (lit "Home"))]%string];
|}.

(** A connection: the open transaction and what is kept. *)
#[export] Instance sample_transactions : Transactions := {|
  conn := list (bool * string * list (pystr * json)) * list (bool * string * list (pystr * json));
  insert s c := (Ok tt, (fst c ++ [s], snd c));
  commit c := (Ok tt, ([], snd c ++ fst c));
  rollback c := ([], snd c);
  pending c := fst c;
  kept_rows c := snd c;
|}.

#[export] Instance sample_transactions_ok : TransactionsOk sample_transactions.
Proof. split; cbn; intros; simplify_eq; try done; by destruct c. Qed.

(** ** The capture *)

Definition jobj (l : list (string * json)) : json := JDict (mkrow l).

Definition sample_item (l : list (string * json)) : json := jobj l.

(** A hat it wears, a sword it cannot wear yet, bread in the backpack and in a
    bag, an unknown item. *)
Definition sample_equipment : list json :=
  [jobj [("location", JStr (lit "equipped")); ("slotId", JInt 1); ("itemString", JStr (lit "item:500:2603:0:0:0:0:0:77:60")); ("name", JStr (lit "Hat"))];
   jobj [("location", JStr (lit "equipped")); ("slotId", JInt 16); ("itemId", JInt 501); ("name", JStr (lit "Sword"))]]%string.
Definition sample_bags : list json :=
  [jobj [("location", JStr (lit "bag")); ("bagId", JInt 0); ("bagSlot", JInt 1); ("itemId", JInt 502); ("stackCount", JInt 5)];
   jobj [("location", JStr (lit "bag")); ("bagId", JInt 2); ("bagSlot", JInt 3); ("itemId", JInt 502)];
   jobj [("location", JStr (lit "bag")); ("bagId", JInt 0); ("bagSlot", JInt 4); ("itemId", JInt 999); ("name", JStr (lit "Relic"))]]%string.

Definition sample_talent (name : string) (rank : Z) : json := jobj [("name", JStr (lit name)); ("rank", JInt rank)]%string.
Definition sample_tab (l : list json) : json := jobj [("name", JStr (lit "Fire")); ("tabIndex", JInt 1); ("talents", JList l)]%string.

Definition sample_char : list (pystr * json) :=
  mkrow [("name", JStr (lit "Merla")); ("level", JInt 20); ("raceToken", JStr (lit "Human")); ("classToken", JStr (lit "MAGE"));
         ("sexId", JInt 3); ("faction", JStr (lit "Alliance")); ("realmName", JStr (lit "Home")); ("money", JInt 12345);
         ("knownSpellIds", JList [JInt 50; JInt 50; JInt 77; JInt 51]);
         ("talentTabs", JList [sample_tab [sample_talent "Fireball" 2]]);
         ("skills", JList [jobj [("name", JStr (lit "Swords")); ("rank", JInt 90); ("maximum", JInt 100)]]);
         ("reputations", JList [jobj [("name", JStr (lit "Stormwind")); ("value", JInt 9000)]]);
         ("equipment", JList sample_equipment); ("bags", JList sample_bags)]%string.

Definition sample_args (apply : bool) : Args := MkArgs (lit "player") None false Auto None false false apply false.
Definition sample_wearer : Wearer := MkWearer 20 1 8 (lit "Alliance") [(43, 90)] [50] None.

Definition sample_items : Plan * Z :=
    match _plan_items no_repr 1000000 false sample_equipment sample_bags 1001 (Some sample_wearer) empty_plan with
    | Ok x => x | Err _ => (empty_plan, 0)
    end.

Lemma sample_items_eq :
  _plan_items no_repr 1000000 false sample_equipment sample_bags 1001 (Some sample_wearer) empty_plan = Ok (fst sample_items, snd sample_items).
Proof. vm_compute. reflexivity. Qed.

(** Four of the five records become items; the relic is unknown here. *)
Lemma items_conserved_witness :
  snd sample_items = 1005
  /\ cells "character_inventory" "item" (fst sample_items) ++ cells "mail_items" "item_guid" (fst sample_items)
     ≡ₚ cells "item_instance" "guid" (fst sample_items)
  /\ cells "character_inventory" "slot" (fst sample_items) = [0; 23; 24; 25].
Proof.
  destruct (items_conserved no_repr 1000000 false sample_equipment sample_bags 1001 (Some sample_wearer) empty_plan _ _
    eq_refl eq_refl eq_refl sample_items_eq) as (_ & _ & Hp & _). split_and!; [vm_compute; reflexivity|exact Hp|vm_compute; reflexivity].
Defined.

Lemma inventory_slots_distinct_witness : NoDup (cells "character_inventory" "slot" (fst sample_items)).
Proof.
  apply (inventory_slots_distinct no_repr 1000000 false sample_equipment sample_bags 1001 (Some sample_wearer) empty_plan _ _
    eq_refl sample_items_eq). by_decide.
Defined.


(** Thirty loaves in a bag that is gone: sixteen find room, the mail takes the
    rest in two messages. *)
Definition sample_loaves : list json :=
  replicate 30 (jobj [("location", JStr (lit "bag")); ("bagId", JInt 2); ("bagSlot", JInt 3); ("itemId", JInt 502)]%string).

Definition sample_mail : Plan * Z :=
    match _plan_items no_repr 1000000 false [] sample_loaves 1 None empty_plan with Ok x => x | Err _ => (empty_plan, 0) end.

Lemma sample_mail_eq :
  _plan_items no_repr 1000000 false [] sample_loaves 1 None empty_plan = Ok (fst sample_mail, snd sample_mail).
Proof. vm_compute. reflexivity. Qed.

Lemma mail_messages_witness : cells "mail" "id" (fst sample_mail) = [1; 2]
  /\ forall id, id ∈ cells "mail" "id" (fst sample_mail) ->
       (1 <= length (filter (in_message id) (rows_of "mail_items" (fst sample_mail))) <= 12)%nat.
Proof.
  destruct (mail_messages no_repr 1000000 false [] sample_loaves 1 None empty_plan (fst sample_mail) (snd sample_mail)
    eq_refl eq_refl sample_mail_eq) as (_ & Hs & _). split; [vm_compute; reflexivity|exact Hs].
Defined.

Definition sample_cache : pystr :=
  match _equipment_cache no_repr (fst sample_items) 46 with Ok c => c | Err _ => [] end.

(** The hat and its enchantment are in the first pair. *)
Lemma equipment_cache_shows_worn_witness : exists values,
  map int_of_str (split_ws sample_cache) = map Ok values /\ pylen values = 46 /\ pair_at values 1 0 0.
Proof.
  destruct (equipment_cache_shows_worn no_repr 1000000 false sample_equipment sample_bags 1001 (Some sample_wearer) empty_plan _ _ 46
    sample_cache eq_refl eq_refl sample_items_eq) as (vs & Hv & Hl & Hs); [by_decide|lia|vm_compute; reflexivity|].
  exists vs. split_and!; [exact Hv|exact Hl|]. specialize (Hs 1 ltac:(lia)). rewrite decide_False in Hs; [exact Hs|by_decide].
Defined.

Lemma enchantments_read_back_witness : exists a b c d,
  map int_of_str (split_ws (enchantments_blob (ItemFields 500 2603 [7; 0; 0; 9] 0 0 0)))
  = map Ok ([2603; 0; 0; 0; 0; 0; a; 0; 0; b; 0; 0; c; 0; 0; 0; 0; 0; d; 0; 0] ++ replicate 15 0).
Proof.
  destruct (enchantments_read_back (mkrow [("itemString", JStr (lit "item:500:2603:7:0:0:9"))]%string) (ItemFields 500 2603 [7; 0; 0; 9] 0 0 0))
    as (a & b & c & d & _ & E); [vm_compute; reflexivity|]. by exists a, b, c, d.
Defined.

Lemma bag_placement_injective_witness : exists r1 r2, r1 <> r2
  /\ _int (jval r1 "bagId") (-99) = _int (jval r2 "bagId") (-99) /\ _int (jval r1 "bagSlot") (-1) = _int (jval r2 "bagSlot") (-1).
Proof.
  exists (mkrow [("bagId", JInt 0); ("bagSlot", JInt 2)]%string), (mkrow [("bagId", JStr (lit " 0")); ("bagSlot", JInt 2)]%string).
  split; [discriminate|]. apply (bag_placement_injective _ _ 0 24); vm_compute; reflexivity.
Defined.

(** ** Knowledge *)

Definition sample_failing : list (pystr * json) :=
  mkrow [("knownSpellIds", JList [JInt 50; JInt 100]);
         ("talentTabs", JList [sample_tab [sample_talent "Fireball" 1; sample_talent "Vanished" 1]])]%string.

(** One talent has no counterpart: no talent is kept, nor the spell of the one
    that has. *)
Definition sample_spellbook : Plan :=
  match _plan_spells sample_failing empty_plan with Ok p => p | Err _ => empty_plan end.
Definition sample_withheld : Plan :=
  match _plan_talents no_repr sample_failing 8 Auto sample_spellbook with Ok p => p | Err _ => empty_plan end.

Lemma talents_all_or_nothing_witness :
  cells "character_spell" "spell" sample_spellbook = [50; 100] /\ cells "character_spell" "spell" sample_withheld = [50]
  /\ rows_of "character_talent" sample_withheld = [].
Proof.
  split_and!; [vm_compute; reflexivity|vm_compute; reflexivity|].
  apply (proj1 (talents_all_or_nothing no_repr sample_failing 8 Auto sample_spellbook sample_withheld [100; 101] ltac:(vm_compute; reflexivity)
    eq_refl ltac:(vm_compute; reflexivity))).
  right. split; [done|]. exists (lit "Fire"), 1, (lit "Vanished"), 1. split; [|by eexists].
  pose (fire := sample_tab [sample_talent "Fireball" 1; sample_talent "Vanished" 1]).
  exists [fire], fire. split_and!; [vm_compute; reflexivity|by left|split_and!; [vm_compute; reflexivity..|]].
  exists (sample_talent "Vanished" 1). split_and!; [|vm_compute; reflexivity|lia|vm_compute; reflexivity].
  exists [sample_talent "Fireball" 1; sample_talent "Vanished" 1], (JList [sample_talent "Fireball" 1; sample_talent "Vanished" 1]).
  split_and!; [vm_compute; reflexivity..|]. right. by left.
Defined.

Definition sample_kept : list kept :=
  [Kept (Purchase JNull (lit "Warpstriker") (JInt 1)) [10; 11; 12] 0 2; Kept (Purchase JNull (lit "Luck") (JInt 2)) [20] 0 1].


Definition sample_known : Plan :=
  match plan_knowledge no_repr (sample_args false) sample_char 1 8 empty_plan with Ok p => p | Err _ => empty_plan end.

Lemma spells_written_once_witness :
  cells "character_spell" "spell" sample_known = [50; 51; 101] /\ NoDup (cells "character_spell" "spell" sample_known).
Proof.
  split; [vm_compute; reflexivity|]. apply (spells_written_once no_repr (sample_args false) sample_char 1 8 empty_plan sample_known eq_refl).
  - vm_compute. reflexivity.
  - intros x Hx (raws & raw & E & Hin & Hn). vm_compute in E. injection E as <-. vm_compute in Hx.
    apply list_elem_of_singleton in Hx. subst x.
    repeat (apply elem_of_cons in Hin as [->|Hin]; [vm_compute in Hn; discriminate|]). by apply elem_of_nil in Hin.
Defined.

(** ** The run *)

Definition sample_surroundings : Surroundings := MkSurroundings (lit "acore_characters") [] (Some sample_resolvers) [true] None None.

(** Nothing written, nothing kept. *)
Definition fresh_conn : conn := ([], []).

(** With --apply the whole plan is kept. *)
Lemma run_writes_whole_or_nothing_witness :
  let oc := import_run no_repr 1000000 (sample_args true) sample_char sample_surroundings fresh_conn in
  pending (snd oc) = [] /\ length (kept_rows (snd oc)) = 16%nat.
Proof.
  intros oc. split; [|vm_compute; reflexivity].
  apply (run_writes_whole_or_nothing no_repr 1000000 (sample_args true) sample_char sample_surroundings fresh_conn (snd oc) (fst oc) eq_refl).
  apply surjective_pairing.
Defined.

Definition sample_plan : Plan :=
  match build_plan no_repr 1000000 (sample_args true) sample_char with Ok p => p | Err _ => empty_plan end.


(** ** The tables of a server *)

(** A file of records of so many columns, given as the columns that are set. *)
Definition sample_record (fields : nat) (cols : list (Z * Z)) : bytes :=
  concat (map (le 4) (foldl (fun l cv => <[Z.to_nat (fst cv) := snd cv]> l) (replicate fields 0) cols)).

Definition sample_dbc (fields : nat) (rows : list (list (Z * Z))) (strings : bytes) : bytes :=
  lit "WDBC" ++ concat (map (le 4) [Z.of_nat (length rows); Z.of_nat fields; Z.of_nat (4 * fields); pylen strings])
  ++ concat (map (sample_record fields) rows) ++ strings.

(** Fireball has two rows in the tab of the mage, one of them retired: its cell
    is not in the drawn tree but its ranks are the same. *)
Definition sample_files (name : pystr) : res bytes :=
  if bool_decide (name = lit "Spell.dbc") then
    Ok (sample_dbc 137 [[(0, 100); (136, 1)]; [(0, 101); (136, 1)]; [(0, 110); (136, 10)]] (0 :: lit "Fireball" ++ 0 :: lit "Ignite" ++ [0]))
  else if bool_decide (name = lit "TalentTab.dbc") then
    Ok (sample_dbc 24 [[(0, 41); (1, 1); (20, 128); (22, 1)]] (0 :: lit "Fire" ++ [0]))
  else if bool_decide (name = lit "Talent.dbc") then
    Ok (sample_dbc 23 [[(0, 1); (1, 41); (4, 100); (5, 101)]; [(0, 2); (1, 41); (2, 1); (4, 110)]; [(0, 3); (1, 41); (2, 9); (4, 100); (5, 101)]] [])
  else Err OSError.

Lemma talent_never_guessed_witness :
  dbc_talent_spell (fun _ => true) sample_files 8 (lit "fire") (lit "FIREBALL") 2 0 = Ok (resolved 101)
  /\ exists t names tab,
       talent_dbc (fun _ => true) sample_files = Ok t
       /\ forall row, meant t names tab (lit "FIREBALL") row ->
            dbc_u t row (TALENT_RANK + 2 - 1) = Ok 0 \/ dbc_u t row (TALENT_RANK + 2 - 1) = Ok 101.
Proof.
  assert (dbc_talent_spell (fun _ => true) sample_files 8 (lit "fire") (lit "FIREBALL") 2 0 = Ok (resolved 101)) as E
    by (vm_compute; reflexivity).
  split; [exact E|].
  destruct (talent_never_guessed (fun _ => true) sample_files 8 (lit "fire") (lit "FIREBALL") 2 0 (resolved 101) E eq_refl)
    as (tl & t & names & tab & pos & _ & Ht & _ & _ & _ & _ & _ & Hall).
  exists t, names, tab. split; [exact Ht|exact (Hall eq_refl)].
Defined.

(** ** What the importer does not rule out *)

(** A talent whose spell is also in the captured spellbook is written to the
    spellbook twice. *)
Lemma granted_spell_repeated : exists p,
  plan_knowledge no_repr (sample_args false)
    (mkrow [("knownSpellIds", JList [JInt 101]); ("talentTabs", JList [sample_tab [sample_talent "Fireball" 2]])]%string) 1 8 empty_plan = Ok p
  /\ cells "character_spell" "spell" p = [101; 101].
Proof. eexists. split; [vm_compute; reflexivity|vm_compute; reflexivity]. Qed.

(** A wanted name is compared before it is cut: one of thirteen letters can be
    cut to a name that is taken. *)
Lemma long_name_collides :
  allocate_name (lit "Abcdefghijklm") [lit "abcdefghijkl"] = inr (lit "Abcdefghijkl", false).
Proof. vm_compute. reflexivity. Qed.

(** Two records worn in one slot are put in one slot. *)
Lemma worn_twice_in_one_slot : exists p g,
  _plan_items no_repr 1000000 false (replicate 2 (jobj [("location", JStr (lit "equipped")); ("slotId", JInt 1); ("itemId", JInt 500)]%string))
    [] 1 None empty_plan = Ok (p, g)
  /\ cells "character_inventory" "slot" p = [0; 0].
Proof. eexists _, _. split; [vm_compute; reflexivity|vm_compute; reflexivity]. Qed.
